(* ===== verification/_CoqProject ===== *)
-Q . S2P
Prelude.v
IntUtils.v
ClMemory.v
Bitmap.v
DList.v
HashTable.v
Stack.v
ClHeap.v
Interleave.v
RwSpinlock.v
RecRwSpinlock.v
Spinlock.v
RefCnt.v
Event.v
CheckinQueue.v
Ipc.v
Timer.v
Pmm.v
VmReservation.v
StrUtils.v
ClString.v
Pte.v
Paging.v
PagingOps.v
PageFault.v
Mdl.v
PeParser.v
Process.v
ProcessLife.v
Storage.v
Fat.v
FatFile.v
FatDir.v
FatDirOps.v
IoManager.v
IoDrivers.v
IoSpec.v
IoFileSpec.v
Threads.v
ThreadsSpec.v
Mutex.v
ExEvent.v
