(* ===== verification/Prelude.v ===== *)
(** * HAL9000: a verification library for the core of the kernel

    HAL9000 (src/src) is a 64-bit multiprocessor operating-system kernel in C.
    This library models the parts that carry the kernel's own logic, in the DEBUG
    configuration: every [ASSERT] of the source is part of the model.

    ** The program

    - CommonLib (src/src/CommonLib) is the freestanding library below the kernel: memory
      and number primitives, bitmaps, intrusive lists, the hash table, the heap
      allocator, stacks, the locks, reference counts, events and check-in queues.
    - HAL (src/src/HAL) drives processor and platform hardware.
    - HAL9000 (src/src/HAL9000) is the kernel: physical memory (pmm.c), reservation of
      virtual memory (vm_reservation_space.c), paging (mmu.c, vmm.c), threads and their
      synchronisation (thread.c, mutex.c, ex_event.c, ex_timer.c), calls between processors
      (smp.c, ipc.c), processes, system calls, the I/O manager.
    - Drivers (FAT32, Disk, Volume, SwapFS, Ata, Eth_82574L, NetworkPort) and the user-mode
      programs are clients of the kernel.

    pmm.c keeps one bit of a bitmap per physical frame; vm_reservation_space.c keeps an
    array of reservations, each with a commit bitmap; the kernel's heap is one region
    managed by cl_heap.c, whose allocations are linked with list.c; the hash table chains
    its buckets with list.c and compares keys with cl_memory.c; every shared structure is
    protected by one of the locks.

    ** Files

    - [Prelude] (this file): outcomes of C code, the state monad and its total-correctness
      predicate [wp], machine integers, arrays, bit lemmas, tactics, the hint database [hal].
    - [IntUtils]: base.h macros, intutils.h/intutils.c, status codes.
    - [ClMemory]: cl_memory.c over a byte-addressed memory ([gmap Z Z]).
    - [Bitmap]: bitmap.c; buffer in the byte memory; the abstract view is one boolean per bit.
    - [DList]: list.c over a store of LIST_ENTRY cells; the class [HasLinks] is the interface
      through which clients embed that store; the abstract view is a finite map from list
      heads to sequences.
    - [HashTable]: hash_table.c; the abstract view is a finite map from keys to entries; the class
      [HashOk] states what a hash function promises and is instantiated by both hash functions
      of the source.
    - [ClHeap]: cl_heap.c; headers, tails and list cells as objects at their addresses.
    - [Stack]: slist.h, stack_dynamic.c and stack_interface.c; the class [StackFuncs] states what the functions of a stack
      promise to its users; the abstract view is a sequence of items per stack.
    - [StrUtils]: strutils.c (itoa, atoi families).  [ClString]: cl_string.c (comparison, search, copies, tokens, formatted
      output) on strings in the byte memory, each function related to one on lists of characters.
    - [Interleave]: processors that interleave single atomic accesses to a shared object;
      reachability, invariants by induction on steps, counting of processors.
    - [RwSpinlock], [RecRwSpinlock], [Spinlock], [RefCnt], [Event], [CheckinQueue]: rw_spinlock.c; rec_rw_spinlock.c; spinlock.c,
      monlock.c and lock_common.c; ref_cnt.c; event.c; checkin_queue.c, as programs of [Interleave].
    - [Ipc]: ipc.c and the inter-processor interrupts of smp.c: threads that send a function to other processors, the pending
      interrupts of the local APICs and the interrupt handlers.  [Timer]: ex_timer.c and the system time of iomu.c.
    - [Threads]: thread.c (scheduling, yielding, blocking, termination, clock ticks), cut at the acquisitions and
      releases of its locks, on any number of processors.  [ThreadsSpec]: the interface [BlockingClient]
      between thread.c and the code that blocks threads, an abstract machine without processors, and the simulation.
      [Mutex] and [ExEvent]: mutex.c and ex_event.c, verified against the interface.
    - [Pte]: pte.c, the entries of paging structures as bit fields.  [Paging]: the walk of the paging tables in vmm.c with its
      callbacks, mapping, unmapping, translation, set-up of an address space, the PAT, and the callers in mmu.c; the meaning
      of a set of tables as a partial map from pages to entries.  [PagingOps]: the operations against that meaning.
    - [PageFault]: page faults, regions and buffer checks of vmm.c and mmu.c, where [Pmm], [VmReservation] and
      [Paging] work together.  [Mdl]: mdl.c and the probing of buffers.
    - [PeParser]: pe_parser.c over the bytes of an image, and the part of mmu.c that validates and maps images.
    - [Process]: process.c with the creation and destruction of threads in thread.c and of address spaces in mmu.c; the
      program of each processor, cut where other processors can come between.  [ProcessLife]: its invariant in every interleaving.
    - [Storage]: the read and write path from io_devices.c through volume_dispatch.c and disk_dispatch.c to ata_dispatch.c,
      with the discovery of partitions (disk.c); the disk is a function from byte offsets to bytes.  [Fat]: the clusters and the
      allocation table of fat_utils.c and the mounting of a volume.  [FatFile]: reading and writing of files, and dates.
      [FatDir]: names, search, creation and listing of directory entries and the dispatch functions of fat32.c.
      [FatDirOps]: what creation leaves on the volume and what a search finds there.
    - [IoManager]: io_devices.c, io_files.c and the lists of iomu.c: drivers, devices, volumes, request packets with their stack
      locations, the dispatch of a packet, files.  [IoDrivers]: the dispatch functions and entry points of the ATA, disk, volume, FAT
      and swap drivers on packets, and the start of the drivers.  [IoSpec]: a packet sent down a stack of devices has the
      effect that [Storage] computes.  [IoFileSpec]: the same for open files of FAT volumes and the swap file.
    - [Pmm]: pmm.c on top of [Bitmap]; the memory map of the firmware is an argument.
    - [VmReservation]: vm_reservation_space.c on top of [Bitmap].

    ** Conventions

    A C function that only computes is a Gallina function to [outcome]; one that changes state is an
    [M S A] = [S -> outcome (A * S)].  Pointers and integers are [Z]; the wrap-around of
    unsigned arithmetic and the conversions to signed types are written out ([u8] ... [i64]).
    A pointer that designates no object of the model gives [MemFault].  [wp m Q s] says that [m] returns from [s]:
    no assertion fails, no access faults and no bound is exhausted, and [Q] holds.  Names are those of the
    source (a trailing underscore avoids a keyword).

    Loops are structural recursions on a bound that the caller computes; [NoFuel] is the value
    when it is exhausted.  Scans of arrays and byte ranges use the length plus one; walks of a list use the
    number of cells in the store plus one, which a walk of a well-formed circular list cannot
    exceed; digit loops use 65, since a QWORD has at most 64 binary digits; loops over strings use the
    size of the memory plus one; loops over a chain of clusters use the number of clusters plus two, since a chain visits
    a cluster once, and searches of the allocation table its number of sectors plus one; the scan of extended partitions uses
    the depth its caller gives; a request goes down at most four devices (file system, volume, disk, controller); the walk of the paging tables uses the number of
    pages plus one.  Each theorem that states
    a result states the outcome [Ok], so that the bounds are proved sufficient.

    Concurrent code is cut into steps of one atomic access to shared memory;
    the theorems hold for every number of processors (below the width of the counters where there is one) and
    for every interleaving of the steps.  Memory is sequentially consistent: the source uses
    interlocked instructions, and the x86 store buffer is not modelled.

    ** What the theorems show

    - Data structures refine their abstract views for every sequence of legal operations
      ([DList.list_ops_refine], [HashTable.hash_ops_refine], [Stack.stack_refines_sequences]); ordered insertion, search, iteration and
      traversal of lists and tables are functionally correct.
    - The heap hands out aligned blocks of its region that overlap no other block, keeps exact accounts, and a free
      restores the space ([ClHeap.heap_alloc_safe], [ClHeap.heap_free_inverse]).
    - Bitmap scans return the first fitting run and flip exactly its bits; frame reservations of the
      physical memory manager never overlap ([Bitmap.bitmap_scan_and_flip], [Pmm.pmm_reservations_disjoint]).
    - A reserved range answers page faults as it was committed and protected, and others are unaffected
      ([VmReservation.vm_alloc_then_access] and the release, decommit and query theorems).
    - The locks exclude, without a failed assertion, in every interleaving; the writer priority of the
      reader/writer lock; the owner and the depth of the recursive one ([RecRwSpinlock.rec_rw_exclusion]); a reference-counted object is freed exactly once and only when unreferenced; events wake
      at most one waiter per signal; check-in queues count arrivals.
    - A function sent to other processors runs exactly once on each that matches before the sender that waits goes on, and the event
      that carries it is freed once ([Ipc.ipc_calls_exactly_once]).  A thread that waits for a timer returns when it is due
      ([Timer.timer_wait_until_due]).
    - The scheduler on any number of processors simulates a machine on which every thread has a processor of its own,
      for every client that follows the rules of [BlockingClient] ([ThreadsSpec.scheduler_refines_spec]); through it the
      mutex excludes and hands over in arrival order, and a synchronisation event lets one waiter go per signal.
    - Mapping a range of pages gives each page its frame and rights and changes no other page; unmapping removes exactly
      the range; the translation function returns what was mapped; the walk ends ([PagingOps]).
    - A page fault on a committed page with sufficient rights maps a fresh frame with the file's bytes, or
      zeroes, behind it, and leaves every other page alone; a refused one changes nothing
      ([PageFault.page_fault_solved]).  An MDL describes exactly the physical bytes of its buffer.
    - Numbers survive conversion to text and back ([StrUtils.itoa_atoi_roundtrip]); formatted output is the text that the format
      and its arguments describe, inside the buffer ([ClString.snprintf_renders]).
    - What is written to an open file or to the swap file is read back, through every layer from io_files.c to the disk
      ([IoFileSpec.io_file_write_read], [IoFileSpec.io_swap_write_read]); a request to a volume device returns, leaves no packet and no lock
      behind, and stays in its partition ([IoSpec.io_volume_request]); writing and extending a file change what they should and
      nothing else ([FatFile.fat_write_file], [Fat.fat_extend_chain]); a created file is found again ([FatDirOps.fat_create_opens]).
    - The validation of an image reads only inside it, and mapping gives each page of it its frame and rights
      ([PeParser.pe_validated_image], [PeParser.pe_map_aligned]).  A process exists as long as something refers to it, its counts are
      exact and its identifier is its own, in every interleaving ([ProcessLife.process_lifetime], [ProcessLife.process_counts],
      [ProcessLife.process_identifiers]); a failed creation leaves no trace ([ProcessLife.process_init_atomic]).
    - Error theorems exhibit inputs on which the code departs from what it means to do (bitmap overrun,
      iteration past the bucket array, heap search assertion, dangling restart pointer, overlapping reservations,
      unchecked rights of a second page, a size of four gigabytes unmapped as nothing, an event that misses a wake-up, a thread
      dereferenced twice on exit, free clusters that are not found, a new file that takes a cluster in use or lies behind the end of its
      directory, a page that is writable and executable, a process referenced after it is freed, a file system driver
      freed while a volume is mounted, an interrupt between processors that is merged with another and whose sender waits for ever).

    ** What is not modelled

    The start-up of the memory manager and of the other processors, the system call entry, interrupt
    registration and the network stack are not modelled.  Hardware access (APIC, PIC, PIT, PCI, serial, ATA
    registers), start-up assembly, logging, the command interpreter and the test programs are
    input/output or glue and are left out; third-party code (ACPICA) is not part of the program. *)
From Stdlib Require Export ZArith Lia.
From stdpp Require Export prelude gmap.

#[global] Open Scope Z_scope.
#[export] Set Warnings "-clear-no-such-hyp".

(** * Outcomes of C code

    A C function of the kernel either returns ([Ok]), stops in an [ASSERT]
    whose condition is false ([AssertFailed]), performs an access outside
    the objects of the model ([MemFault]), or divides by zero ([DivideError]).
    [NoFuel] is the value of a loop
    whose iteration bound was too small; every theorem that states a result
    proves it is not reached. *)
Inductive fault : Set := AssertFailed | MemFault | DivideError | NoFuel.

Inductive outcome (A : Type) : Type :=
| Ok (a : A)
| Err (f : fault).
Arguments Ok {A} _.
Arguments Err {A} _.

#[global] Instance fault_eq_dec : EqDecision fault.
Proof. solve_decision. Defined.

#[global] Instance outcome_ret : MRet outcome := fun _ a => Ok a.
#[global] Instance outcome_bind : MBind outcome :=
  fun _ _ f m => match m with Ok a => f a | Err e => Err e end.

(** [ASSERT(Cond)] (assert.h): continues when the condition holds. *)
Definition assert_ (b : bool) : outcome unit := if b then Ok tt else Err AssertFailed.

(** A read of an array cell or object that may not exist. *)
Definition of_option {A} (o : option A) : outcome A :=
  match o with Some a => Ok a | None => Err MemFault end.

(** ** Stateful code: explicit state passing with outcomes *)
Definition M (S A : Type) : Type := S -> outcome (A * S).

#[global] Instance M_ret {S} : MRet (M S) := fun _ a s => Ok (a, s).
#[global] Instance M_bind {S} : MBind (M S) :=
  fun _ _ f m s => match m s with Ok (a, s') => f a s' | Err e => Err e end.

Definition ret {S A} (a : A) : M S A := fun s => Ok (a, s).
Definition getS {S} : M S S := fun s => Ok (s, s).
Definition putS {S} (s : S) : M S unit := fun _ => Ok (tt, s).
Definition gets {S A} (f : S -> A) : M S A := fun s => Ok (f s, s).
Definition modify {S} (f : S -> S) : M S unit := fun s => Ok (tt, f s).
Definition fail {S A} (e : fault) : M S A := fun _ => Err e.
Definition lift {S A} (o : outcome A) : M S A :=
  fun s => match o with Ok a => Ok (a, s) | Err e => Err e end.
Definition ASSERT {S} (b : bool) : M S unit := lift (assert_ b).

(** Run code that works on a part of the state. *)
Definition zoom {S T A} (get : S -> T) (set : T -> S -> S) (m : M T A) : M S A :=
  fun s => match m (get s) with
           | Ok (a, t) => Ok (a, set t s)
           | Err e => Err e
           end.

(** Total correctness: [wp m Q s] says that [m] started in [s] returns, without
    a failed assertion, a fault or an exhausted bound, in a state and with a
    value that satisfy [Q]. *)
Definition wp {S A} (m : M S A) (Q : A -> S -> Prop) (s : S) : Prop :=
  match m s with Ok (a, s') => Q a s' | Err _ => False end.

Definition owp {A} (o : outcome A) (Q : A -> Prop) : Prop :=
  match o with Ok a => Q a | Err _ => False end.

Section Wp.
Context {S : Type}.
Implicit Types s : S.

Lemma wp_ret {A} (a : A) (Q : A -> S -> Prop) s : Q a s -> wp (ret a) Q s.
Proof. done. Qed.

Lemma wp_bind {A B} (m : M S A) (f : A -> M S B) Q s :
  wp m (fun a => wp (f a) Q) s -> wp (m ≫= f) Q s.
Proof.
  unfold wp, mbind, M_bind. destruct (m s) as [[a s']|e]; [|done].
  destruct (f a s') as [[b s'']|e]; done.
Qed.

Lemma wp_bind_inv {A B} (m : M S A) (f : A -> M S B) Q s :
  wp (m ≫= f) Q s -> wp m (fun a => wp (f a) Q) s.
Proof.
  unfold wp, mbind, M_bind. destruct (m s) as [[a s']|e]; [|done].
  destruct (f a s') as [[b s'']|e]; done.
Qed.

Lemma wp_mono {A} (m : M S A) (P Q : A -> S -> Prop) s :
  wp m P s -> (forall a s', P a s' -> Q a s') -> wp m Q s.
Proof. unfold wp. destruct (m s) as [[a s']|e]; naive_solver. Qed.

Lemma wp_gets {A} (f : S -> A) Q s : Q (f s) s -> wp (gets f) Q s.
Proof. done. Qed.

Lemma wp_modify (f : S -> S) Q s : Q tt (f s) -> wp (modify f) Q s.
Proof. done. Qed.

Lemma wp_ASSERT b Q s : b = true -> Q tt s -> wp (ASSERT b) Q s.
Proof. intros ->. done. Qed.

Lemma wp_lift {A} (o : outcome A) Q s : owp o (fun a => Q a s) -> wp (lift o) Q s.
Proof. unfold wp, lift. by destruct o. Qed.

Lemma wp_zoom {T A} (get : S -> T) (set : T -> S -> S) (m : M T A) Q s :
  wp m (fun a t => Q a (set t s)) (get s) -> wp (zoom get set m) Q s.
Proof. unfold wp, zoom. by destruct (m (get s)) as [[a t]|e]. Qed.

Lemma wp_Ok {A} (m : M S A) Q s : wp m Q s -> exists a s', m s = Ok (a, s') /\ Q a s'.
Proof. unfold wp. destruct (m s) as [[a s']|e]; [eauto|done]. Qed.

Lemma wp_run {A} (m : M S A) (Q : A -> S -> Prop) s a s' :
  m s = Ok (a, s') -> Q a s' -> wp m Q s.
Proof. unfold wp. by intros ->. Qed.

Lemma wp_run_bind {A B} (m : M S A) (f : A -> M S B) Q s a s' :
  m s = Ok (a, s') -> wp (f a) Q s' -> wp (m ≫= f) Q s.
Proof. intros E H. apply wp_bind. by eapply wp_run. Qed.
End Wp.

(** Run the first statement of a sequence. *)
Lemma bind_run {S A B} (m : M S A) (f : A -> M S B) s a s' :
  m s = Ok (a, s') -> (m ≫= f) s = f a s'.
Proof. intros E. unfold mbind, M_bind. by rewrite E. Qed.

Lemma lift_run {S A} (o : outcome A) (s : S) a : o = Ok a -> lift o s = Ok (a, s).
Proof. by intros ->. Qed.

Lemma ASSERT_run {S} (b : bool) (s : S) : b = true -> ASSERT b s = Ok (tt, s).
Proof. by intros ->. Qed.

Lemma owp_bind {A B} (m : outcome A) (f : A -> outcome B) Q :
  owp m (fun a => owp (f a) Q) -> owp (m ≫= f) Q.
Proof. by destruct m. Qed.

Lemma owp_mono {A} (m : outcome A) (P Q : A -> Prop) :
  owp m P -> (forall a, P a -> Q a) -> owp m Q.
Proof. destruct m; naive_solver. Qed.

Lemma owp_Ok {A} (m : outcome A) Q : owp m Q -> exists a, m = Ok a /\ Q a.
Proof. destruct m; [eauto|done]. Qed.

Lemma owp_assert b (Q : unit -> Prop) : b = true -> Q tt -> owp (assert_ b) Q.
Proof. by intros ->. Qed.

(** Step through straight-line stateful code. *)
Ltac wp_step :=
  lazymatch goal with
  | |- wp (mbind _ _) _ _ => apply wp_bind
  | |- wp (ret _) _ _ => apply wp_ret
  | |- wp (mret _) _ _ => apply wp_ret
  | |- wp (gets _) _ _ => apply wp_gets
  | |- wp (modify _) _ _ => apply wp_modify
  | |- wp (ASSERT _) _ _ => apply wp_ASSERT
  | |- owp (mbind _ _) _ => apply owp_bind
  | |- owp (assert_ _) _ => apply owp_assert
  end.

(** * Machine integers

    A [w]-bit unsigned value is a [Z] in [0, 2^w); the wrap-around of C's
    unsigned arithmetic is written out. *)
Definition wrap (w z : Z) : Z := z mod 2 ^ w.
Definition u8 (z : Z) : Z := z mod 2 ^ 8.
Definition u16 (z : Z) : Z := z mod 2 ^ 16.
Definition u32 (z : Z) : Z := z mod 2 ^ 32.
Definition u64 (z : Z) : Z := z mod 2 ^ 64.

(** Conversion to a signed type of the same width (two's complement). *)
Definition i8 (z : Z) : Z := (z + 2 ^ 7) mod 2 ^ 8 - 2 ^ 7.
Definition i32 (z : Z) : Z := (z + 2 ^ 31) mod 2 ^ 32 - 2 ^ 31.
Definition i64 (z : Z) : Z := (z + 2 ^ 63) mod 2 ^ 64 - 2 ^ 63.

(** data_type.h *)
Definition MAX_BYTE : Z := 0xFF.
Definition MAX_WORD : Z := 0xFFFF.
Definition MAX_DWORD : Z := 0xFFFFFFFF.
Definition MAX_QWORD : Z := 0xFFFFFFFFFFFFFFFF.

Definition is_byte (z : Z) : Prop := 0 <= z < 2 ^ 8.
Definition is_word (z : Z) : Prop := 0 <= z < 2 ^ 16.
Definition is_dword (z : Z) : Prop := 0 <= z < 2 ^ 32.
Definition is_qword (z : Z) : Prop := 0 <= z < 2 ^ 64.

Create HintDb hal.

Lemma u8_small z : is_byte z -> u8 z = z.
Proof. apply Z.mod_small. Qed.
Lemma u16_small z : is_word z -> u16 z = z.
Proof. apply Z.mod_small. Qed.
Lemma u32_small z : is_dword z -> u32 z = z.
Proof. apply Z.mod_small. Qed.
Lemma u64_small z : is_qword z -> u64 z = z.
Proof. apply Z.mod_small. Qed.
Lemma u8_range z : is_byte (u8 z).
Proof. apply Z.mod_pos_bound. lia. Qed.
Lemma u16_range z : is_word (u16 z).
Proof. apply Z.mod_pos_bound. lia. Qed.
Lemma u32_range z : is_dword (u32 z).
Proof. apply Z.mod_pos_bound. lia. Qed.
Lemma u64_range z : is_qword (u64 z).
Proof. apply Z.mod_pos_bound. lia. Qed.
Lemma i64_small z : - 2 ^ 63 <= z < 2 ^ 63 -> i64 z = z.
Proof. intros. unfold i64. rewrite Z.mod_small; lia. Qed.
Lemma i64_u64 z : - 2 ^ 63 <= z < 2 ^ 63 -> i64 (u64 z) = z.
Proof.
  intros. unfold i64, u64. rewrite Zplus_mod_idemp_l. fold (i64 z). by apply i64_small.
Qed.
Lemma i32_small z : - 2 ^ 31 <= z < 2 ^ 31 -> i32 z = z.
Proof. intros. unfold i32. rewrite Z.mod_small; lia. Qed.
Lemma i8_small z : - 2 ^ 7 <= z < 2 ^ 7 -> i8 z = z.
Proof. intros. unfold i8. rewrite Z.mod_small; lia. Qed.

#[export] Hint Resolve u8_range u16_range u32_range u64_range : hal.

(** Remove wrap-arounds that cannot occur and call [lia]. *)
Ltac unfold_ranges :=
  unfold is_byte, is_word, is_dword, is_qword, MAX_BYTE, MAX_WORD, MAX_DWORD, MAX_QWORD in *.
Ltac rlia := unfold_ranges; lia.
Ltac unwrap :=
  repeat match goal with
  | |- context [u8 ?z] => rewrite (u8_small z) by rlia
  | |- context [u16 ?z] => rewrite (u16_small z) by rlia
  | |- context [u32 ?z] => rewrite (u32_small z) by rlia
  | |- context [u64 ?z] => rewrite (u64_small z) by rlia
  | |- context [i32 ?z] => rewrite (i32_small z) by rlia
  | |- context [i64 ?z] => rewrite (i64_small z) by rlia
  end.
Ltac unwrap_in H :=
  repeat match type of H with
  | context [u8 ?z] => rewrite (u8_small z) in H by rlia
  | context [u16 ?z] => rewrite (u16_small z) in H by rlia
  | context [u32 ?z] => rewrite (u32_small z) in H by rlia
  | context [u64 ?z] => rewrite (u64_small z) in H by rlia
  | context [i32 ?z] => rewrite (i32_small z) in H by rlia
  | context [i64 ?z] => rewrite (i64_small z) in H by rlia
  end.

(** Case analysis on the boolean tests of the source. *)
Ltac zbool :=
  repeat match goal with
  | |- context [Z.eqb ?a ?b] => destruct (Z.eqb_spec a b)
  | |- context [Z.ltb ?a ?b] => destruct (Z.ltb_spec a b)
  | |- context [Z.leb ?a ?b] => destruct (Z.leb_spec a b)
  end.
Ltac zbool_in H :=
  repeat match type of H with
  | context [Z.eqb ?a ?b] => destruct (Z.eqb_spec a b)
  | context [Z.ltb ?a ?b] => destruct (Z.ltb_spec a b)
  | context [Z.leb ?a ?b] => destruct (Z.leb_spec a b)
  end.

(** * Arrays indexed by [Z] *)
Definition zget {A} (l : list A) (i : Z) : option A :=
  if decide (0 <= i) then l !! Z.to_nat i else None.
Definition zset {A} (l : list A) (i : Z) (x : A) : option (list A) :=
  if decide (0 <= i < Z.of_nat (length l)) then Some (<[Z.to_nat i := x]> l) else None.

Section ZArrays.
Context {A : Type}.
Implicit Types l : list A.

Lemma zget_Some_lt l i x : zget l i = Some x -> 0 <= i < Z.of_nat (length l).
Proof. unfold zget. case_decide; [|done]. intros ?%lookup_lt_Some. lia. Qed.

Lemma zget_lt l i : 0 <= i < Z.of_nat (length l) -> exists x, zget l i = Some x.
Proof.
  intros H. unfold zget. rewrite decide_True by lia.
  apply lookup_lt_is_Some. lia.
Qed.

Lemma zget_ge l i : Z.of_nat (length l) <= i -> zget l i = None.
Proof. intros H. unfold zget. case_decide; [|done]. apply lookup_ge_None. lia. Qed.

Lemma zset_lt l i x : 0 <= i < Z.of_nat (length l) ->
  zset l i x = Some (<[Z.to_nat i := x]> l).
Proof. intros. unfold zset. by rewrite decide_True. Qed.

Lemma zset_ge l i x : Z.of_nat (length l) <= i -> zset l i x = None.
Proof. intros. unfold zset. rewrite decide_False by lia. done. Qed.

Lemma zset_length l l' i x : zset l i x = Some l' -> length l' = length l.
Proof. unfold zset. case_decide; [|done]. intros [= <-]. apply length_insert. Qed.

Lemma zget_zset_eq l l' i x : zset l i x = Some l' -> zget l' i = Some x.
Proof.
  unfold zset, zget. case_decide; [|done]. intros [= <-].
  rewrite decide_True by lia. apply list_lookup_insert_eq. lia.
Qed.

Lemma zget_zset_ne l l' i j x : zset l i x = Some l' -> i <> j -> zget l' j = zget l j.
Proof.
  unfold zset, zget. case_decide; [|done]. intros [= <-] Hne.
  case_decide; [|done]. apply list_lookup_insert_ne. lia.
Qed.
End ZArrays.

Lemma filter_all {A} (P : A -> Prop) `{forall x, Decision (P x)} (l : list A) :
  (forall x, x ∈ l -> P x) -> filter P l = l.
Proof.
  induction l as [|a l IH]; intros Hl; [done|].
  rewrite filter_cons_True by (apply Hl; set_solver). f_equal. apply IH. set_solver.
Qed.

(** * Bit-level lemmas *)
Lemma testbit_1 i : 0 <= i -> Z.testbit 1 i = (i =? 0).
Proof.
  intros. destruct (Z.eqb_spec i 0) as [->|]; [done|].
  apply Z.bits_above_log2; simpl; lia.
Qed.

Lemma testbit_shiftl_1 k i : 0 <= k -> 0 <= i -> Z.testbit (Z.shiftl 1 k) i = (i =? k).
Proof.
  intros Hk Hi. rewrite Z.shiftl_spec by lia.
  destruct (Z.ltb_spec i k).
  - rewrite Z.testbit_neg_r by lia. symmetry. apply Z.eqb_neq. lia.
  - rewrite testbit_1 by lia.
    destruct (Z.eqb_spec (i - k) 0), (Z.eqb_spec i k); lia.
Qed.

Lemma testbit_u8 z i : 0 <= i -> Z.testbit (u8 z) i = (Z.testbit z i && (i <? 8)).
Proof.
  intros. unfold u8. destruct (Z.ltb_spec i 8).
  - rewrite Z.mod_pow2_bits_low by lia. by rewrite andb_true_r.
  - rewrite Z.mod_pow2_bits_high by lia. by rewrite andb_false_r.
Qed.

Lemma land_shiftl_1 z k : 0 <= k ->
  (Z.shiftl 1 k =? Z.land z (Z.shiftl 1 k)) = Z.testbit z k.
Proof.
  intros Hk. destruct (Z.eqb_spec (Z.shiftl 1 k) (Z.land z (Z.shiftl 1 k))) as [E|E].
  - apply (f_equal (fun x => Z.testbit x k)) in E.
    rewrite Z.land_spec, testbit_shiftl_1, Z.eqb_refl, andb_true_r in E by lia. done.
  - destruct (Z.testbit z k) eqn:Hz; [|done]. exfalso. apply E.
    apply Z.bits_inj'. intros i Hi.
    rewrite Z.land_spec, !testbit_shiftl_1 by lia.
    destruct (Z.eqb_spec i k) as [->|]; [by rewrite Hz|by rewrite andb_false_r].
Qed.
