(* ===== verification/IntUtils.v ===== *)
(** Alignment, flag and bounds macros of CommonLib/inc/base.h, the integer
    helpers of CommonLib/inc/intutils.h and src/intutils.c, and the status
    codes of CommonLib/inc/status.h that the modelled code returns. *)
From S2P Require Import Prelude.

Definition KB_SIZE : Z := 1024.
Definition MB_SIZE : Z := 1024 * KB_SIZE.
Definition PAGE_SIZE : Z := 0x1000.

(** * Status codes (status.h) *)
Definition FAIL_MASK : Z := Z.shiftl 1 31.
Definition ERROR_MASK : Z := Z.shiftl 3 30.
Definition CUSTOMER_BIT : Z := Z.shiftl 1 29.
Definition GENERAL_MASK : Z := Z.shiftl 1 27.
Definition HEAP_MASK : Z := Z.shiftl 1 21.
Definition MEMORY_MASK : Z := Z.shiftl 1 20.

Definition error_status (mask code : Z) : Z :=
  Z.lor (Z.lor (Z.lor ERROR_MASK CUSTOMER_BIT) mask) code.

Definition STATUS_SUCCESS : Z := 0.
Definition STATUS_UNSUPPORTED : Z := error_status GENERAL_MASK 0x0001.
Definition STATUS_ELEMENT_NOT_FOUND : Z := error_status GENERAL_MASK 0x0004.
Definition STATUS_INVALID_PARAMETER1 : Z := error_status GENERAL_MASK 0x0011.
Definition STATUS_INVALID_PARAMETER2 : Z := error_status GENERAL_MASK 0x0012.
Definition STATUS_INVALID_PARAMETER3 : Z := error_status GENERAL_MASK 0x0013.
Definition STATUS_INVALID_PARAMETER4 : Z := error_status GENERAL_MASK 0x0014.
Definition STATUS_PARSE_FAILED : Z := error_status GENERAL_MASK 0x0021.
Definition STATUS_HEAP_TOO_SMALL : Z := error_status HEAP_MASK 0x0001.
Definition STATUS_HEAP_NO_MORE_MEMORY : Z := error_status HEAP_MASK 0x0003.
Definition STATUS_BUFFER_TOO_SMALL : Z := error_status MEMORY_MASK 0x0002.
Definition STATUS_HEAP_INSUFFICIENT_RESOURCES : Z := error_status HEAP_MASK 0x0004.
Definition STATUS_MEMORY_IS_NOT_RESERVED : Z := error_status MEMORY_MASK 0x0006.
Definition STATUS_PAT_LAYOUT_NOT_COMPATIBLE : Z := error_status MEMORY_MASK 0x0008.
Definition STATUS_MEMORY_CANNOT_BE_RESERVED : Z := error_status MEMORY_MASK 0x0009.
Definition STATUS_MEMORY_CONFLICTING_ACCESS_RIGHTS : Z := error_status MEMORY_MASK 0x000C.
Definition STATUS_MEMORY_CONFLICTING_CACHEABILITY : Z := error_status MEMORY_MASK 0x000D.
Definition STATUS_MEMORY_ALREADY_RESERVED : Z := error_status MEMORY_MASK 0x000F.
Definition STATUS_MEMORY_IS_NOT_COMMITED : Z := error_status MEMORY_MASK 0x0010.
Definition STATUS_MEMORY_PREVENTS_USERMODE_ACCESS : Z := error_status MEMORY_MASK 0x0011.
Definition STATUS_MEMORY_INSUFFICIENT_ACCESS_RIGHTS : Z := error_status MEMORY_MASK 0x0012.

Definition SUCCEEDED (x : Z) : bool := 0 =? Z.land x FAIL_MASK.

(** * Flags *)
Definition IsFlagOn (x f : Z) : bool := negb (0 =? Z.land x f).
Definition IsBooleanFlagOn (x f : Z) : bool := f =? Z.land x f.

(** * Pointers and alignment, at QWORD width *)
Definition PtrDiff (x y : Z) : Z := i64 (x - y).
Definition PtrOffset (x y : Z) : Z := u64 (x + u64 y).
Definition AlignAddressLower (addr alig : Z) : Z :=
  Z.land (u64 addr) (u64 (Z.lnot (u64 (u64 alig - 1)))).
Definition AlignAddressUpper (addr alig : Z) : Z :=
  AlignAddressLower (u64 (u64 (u64 addr + alig) - 1)) alig.
Definition IsAddressAligned (addr alig : Z) : bool :=
  0 =? Z.land (u64 addr) (u64 (u64 alig - 1)).
Definition AddressOffset (addr alig : Z) : Z := Z.land (u64 addr) (u64 (alig - 1)).
Definition CHECK_BOUNDS (p ps b s : Z) : bool :=
  (u64 b <=? u64 p) && (u64 (u64 p + u64 ps) <=? u64 (u64 b + u64 s)).

(** * Integer helpers (intutils.h, intutils.c) *)
Definition BYTES_TO_WORD (x y : Z) : Z := Z.lor (Z.shiftl (u16 x) 8) (u16 y).
Definition WORD_HIGH (x : Z) : Z := Z.shiftr (u16 x) 8.
Definition WORD_LOW (x : Z) : Z := Z.land (u16 x) MAX_BYTE.
Definition ntohw (x : Z) : Z := u16 (Z.lor (Z.shiftr x 8) (Z.shiftl x 8)).
Definition ntohd (x : Z) : Z :=
  u32 (Z.lor (Z.lor (Z.land (Z.shiftr x 24) 0x000000FF)
                    (Z.land (u32 (Z.shiftl x 8)) 0x00FF0000))
             (Z.lor (Z.land (Z.shiftr x 8) 0x0000FF00)
                    (Z.land (u32 (Z.shiftl x 24)) 0xFF000000))).

(** The division [MAX_QWORD / HundredsOfPercentage] of the second assertion
    traps when the divisor is 0. *)
Definition CalculatePercentage (WholeValue HundredsOfPercentage : Z) : outcome Z :=
  _ ← assert_ (HundredsOfPercentage <=? 10000);
  if HundredsOfPercentage =? 0 then Err DivideError else
  _ ← assert_ (WholeValue <=? MAX_QWORD / HundredsOfPercentage);
  Ok (u64 (WholeValue * HundredsOfPercentage) / 10000).

(** * Properties of the macros *)

Lemma land_mask_low a k : 0 <= k -> Z.land a (2 ^ k - 1) = a mod 2 ^ k.
Proof.
  intros. rewrite <- Z.land_ones by lia. f_equal. rewrite Z.ones_equiv. lia.
Qed.

Lemma pow2_range k : 0 <= k < 64 -> 1 <= 2 ^ k < 2 ^ 64.
Proof.
  intros. split; [apply (Z.pow_le_mono_r 2 0 k)|apply Z.pow_lt_mono_r]; lia.
Qed.

Lemma IsAddressAligned_pow2 a k : 0 <= k < 64 ->
  IsAddressAligned a (2 ^ k) = (u64 a mod 2 ^ k =? 0).
Proof.
  intros Hk. pose proof (pow2_range k Hk). unfold IsAddressAligned.
  unwrap. rewrite land_mask_low by lia. apply Z.eqb_sym.
Qed.

Lemma AlignAddressLower_pow2 a k : 0 <= k < 64 ->
  AlignAddressLower a (2 ^ k) = u64 a - u64 a mod 2 ^ k.
Proof.
  intros Hk. pose proof (pow2_range k Hk). unfold AlignAddressLower.
  rewrite (u64_small (2 ^ k)), (u64_small (2 ^ k - 1)) by rlia.
  rewrite <- (land_mask_low (u64 a)) by lia.
  rewrite (Z.sub_nocarry_ldiff (u64 a)).
  2:{ apply Z.bits_inj'. intros i Hi. rewrite Z.ldiff_spec, Z.land_spec, Z.bits_0.
      by destruct (Z.testbit (u64 a) i), (Z.testbit (2 ^ k - 1) i). }
  apply Z.bits_inj'. intros i Hi.
  rewrite Z.ldiff_spec, !Z.land_spec.
  destruct (Z.ltb_spec i 64).
  - unfold u64 at 2. rewrite Z.mod_pow2_bits_low by lia. rewrite Z.lnot_spec by lia.
    by destruct (Z.testbit (u64 a) i), (Z.testbit (2 ^ k - 1) i).
  - unfold u64 at 1 3. rewrite !Z.mod_pow2_bits_high by lia. done.
Qed.

Lemma AlignAddressUpper_pow2 a k : 0 <= k < 64 -> is_qword a -> a + 2 ^ k - 1 < 2 ^ 64 ->
  AlignAddressUpper a (2 ^ k) = (a + 2 ^ k - 1) - (a + 2 ^ k - 1) mod 2 ^ k.
Proof.
  intros Hk Ha Hb. pose proof (pow2_range k Hk). unfold AlignAddressUpper.
  assert (E : u64 (u64 (u64 a + 2 ^ k) - 1) = a + 2 ^ k - 1).
  { rewrite (u64_small a) by done.
    destruct (decide (a + 2 ^ k < 2 ^ 64)); [unwrap; lia|].
    assert (a + 2 ^ k = 2 ^ 64) as -> by lia. reflexivity. }
  rewrite E, AlignAddressLower_pow2 by done. rewrite (u64_small (a + 2 ^ k - 1)) by rlia. done.
Qed.

(** The value [AlignAddressUpper] computes, as the least aligned address that
    is not below the argument. *)
Lemma AlignAddressUpper_spec a k : 0 <= k < 64 -> is_qword a -> a + 2 ^ k - 1 < 2 ^ 64 ->
  a <= AlignAddressUpper a (2 ^ k) < a + 2 ^ k /\
  AlignAddressUpper a (2 ^ k) mod 2 ^ k = 0.
Proof.
  intros Hk Ha Hb. pose proof (pow2_range k Hk).
  rewrite AlignAddressUpper_pow2 by done.
  pose proof (Z.mod_pos_bound (a + 2 ^ k - 1) (2 ^ k)). split; [lia|].
  rewrite Zminus_mod_idemp_r, Z.sub_diag. apply Z.mod_0_l. lia.
Qed.

Lemma AlignAddressLower_spec a k : 0 <= k < 64 -> is_qword a ->
  a - 2 ^ k < AlignAddressLower a (2 ^ k) <= a /\
  AlignAddressLower a (2 ^ k) mod 2 ^ k = 0.
Proof.
  intros Hk Ha. pose proof (pow2_range k Hk).
  rewrite AlignAddressLower_pow2 by done. rewrite (u64_small a) by done.
  pose proof (Z.mod_pos_bound a (2 ^ k)). split; [lia|].
  rewrite Zminus_mod_idemp_r, Z.sub_diag. apply Z.mod_0_l. lia.
Qed.

(** [IsBooleanFlagOn] is inclusion of flag sets. *)
Lemma IsBooleanFlagOn_spec x f : 0 <= x -> 0 <= f ->
  IsBooleanFlagOn x f = true <->
  (forall i, 0 <= i -> Z.testbit f i = true -> Z.testbit x i = true).
Proof.
  intros Hx Hf. unfold IsBooleanFlagOn. rewrite Z.eqb_eq. split.
  - intros E i Hi Hfi. rewrite E, Z.land_spec in Hfi. by apply andb_true_iff in Hfi as [].
  - intros H. apply Z.bits_inj'. intros i Hi. rewrite Z.land_spec.
    destruct (Z.testbit f i) eqn:E; [by rewrite (H i Hi E)|by rewrite andb_false_r].
Qed.

(** On ranges that do not wrap, [CHECK_BOUNDS] is interval inclusion. *)
Lemma CHECK_BOUNDS_spec p ps b s :
  is_qword p -> is_qword ps -> is_qword b -> is_qword s ->
  p + ps < 2 ^ 64 -> b + s < 2 ^ 64 ->
  CHECK_BOUNDS p ps b s = true <-> b <= p /\ p + ps <= b + s.
Proof.
  intros. unfold CHECK_BOUNDS. unwrap. rewrite andb_true_iff, !Z.leb_le. done.
Qed.

(** * Little-endian fields of structures that are read as bytes *)
Fixpoint le (bs : list Z) : Z :=
  match bs with [] => 0 | b :: bs' => b + 2 ^ 8 * le bs' end.
Fixpoint to_le (n : nat) (v : Z) : list Z :=
  match n with O => [] | S n' => u8 v :: to_le n' (Z.shiftr v 8) end.

Lemma length_to_le n : forall v, length (to_le n v) = n.
Proof. induction n; intros; simpl; auto. Qed.

Lemma le_to_le n : forall v, le (to_le n v) = v mod 2 ^ (8 * Z.of_nat n).
Proof.
  induction n as [|n IH]; intros v; [simpl; by rewrite Z.mod_1_r|].
  cbn [to_le le]. rewrite IH. unfold u8. rewrite Z.shiftr_div_pow2 by lia.
  replace (8 * Z.of_nat (S n)) with (8 + 8 * Z.of_nat n) by lia.
  rewrite Z.pow_add_r, Z.rem_mul_r by lia. done.
Qed.
