(* ===== verification/ClMemory.v ===== *)
(** CommonLib/src/cl_memory.c over a byte-addressed memory: [cl_memset],
    [cl_memcpy], [cl_memmove], [cl_memcmp], [cl_rmemcmp] and [cl_memscan].
    A pointer is an address, [NULL] is 0, and an access to an address that
    holds no byte is a [MemFault]. *)
From S2P Require Import Prelude IntUtils.

Abbreviation Mem := (gmap Z Z).
Definition NULL : Z := 0.

Definition load8 (p : Z) : M Mem Z := fun m => match m !! p with
  | Some b => Ok (b, m) | None => Err MemFault end.
Definition store8 (p b : Z) : M Mem unit := fun m => match m !! p with
  | Some _ => Ok (tt, <[p := b]> m) | None => Err MemFault end.

(** A multi-byte access reads all its bytes before it writes. *)
Fixpoint read_bytes (p : Z) (n : nat) : M Mem (list Z) :=
  match n with
  | O => ret []
  | S n' => b ← load8 p; bs ← read_bytes (p + 1) n'; ret (b :: bs)
  end.
Fixpoint write_bytes (p : Z) (bs : list Z) : M Mem unit :=
  match bs with
  | [] => ret tt
  | b :: bs' => _ ← store8 p b; write_bytes (p + 1) bs'
  end.
Definition copy_bytes (dst src : Z) (n : nat) : M Mem unit :=
  bs ← read_bytes src n; write_bytes dst bs.

(** * Operations *)
Fixpoint memset_loop (fuel : nat) (i address value size : Z) : M Mem unit :=
  match fuel with
  | O => fail NoFuel
  | S fuel' =>
      if i <? size then
        _ ← store8 (address + i) value;
        memset_loop fuel' (u32 (i + 1)) address value size
      else ret tt
  end.
Definition cl_memset (address value size : Z) : M Mem unit :=
  if address =? NULL then ret tt
  else memset_loop (S (Z.to_nat size)) 0 address value size.

(** [__movsq]: copies QWORDs upwards (the direction flag is clear). *)
Fixpoint movsq (dst src : Z) (count : nat) : M Mem unit :=
  match count with
  | O => ret tt
  | S c => _ ← copy_bytes dst src 8; movsq (dst + 8) (src + 8) c
  end.

Definition copy_step (flag n : Z) (ds : Z * Z) : M Mem (Z * Z) :=
  if flag =? 0 then ret ds
  else _ ← copy_bytes ds.1 ds.2 (Z.to_nat n); ret (ds.1 + n, ds.2 + n).

Definition cl_memcpy (Destination Source Count : Z) : M Mem unit :=
  if (Destination =? NULL) || (Source =? NULL) then ret tt else
  let unalignedCount := Z.land Count 0x7 in
  let alignedCount := u64 (Count - unalignedCount) in
  ds ← copy_step (Z.land unalignedCount 0x4) 4 (Destination, Source);
  ds ← copy_step (Z.land unalignedCount 0x2) 2 ds;
  ds ← copy_step (Z.land unalignedCount 0x1) 1 ds;
  if alignedCount =? 0 then ret tt else
  _ ← ASSERT (IsAddressAligned alignedCount 8);
  movsq (Destination + unalignedCount) (Source + unalignedCount)
        (Z.to_nat (alignedCount / 8)).

Fixpoint memmove_loop (fuel : nat) (i dst src Count : Z) : M Mem unit :=
  match fuel with
  | O => fail NoFuel
  | S fuel' =>
      if i <? Count then
        b ← load8 (src + i);
        _ ← store8 (dst + i) b;
        memmove_loop fuel' (u64 (i + 1)) dst src Count
      else ret tt
  end.
Definition cl_memmove (Destination Source Count : Z) : M Mem unit :=
  if (Destination =? NULL) || (Source =? NULL) then ret tt
  else memmove_loop (S (Z.to_nat Count)) 0 Destination Source Count.

Fixpoint memcmp_loop (fuel : nat) (i p1 p2 size : Z) : M Mem Z :=
  match fuel with
  | O => fail NoFuel
  | S fuel' =>
      if i <? size then
        a ← load8 (p1 + i);
        b ← load8 (p2 + i);
        if a =? b then memcmp_loop fuel' (i64 (i + 1)) p1 p2 size
        else ret (a - b)
      else ret 0
  end.
Definition cl_memcmp (ptr1 ptr2 size : Z) : M Mem Z :=
  if (ptr1 =? NULL) || (ptr2 =? NULL) then ret (i32 size)
  else memcmp_loop (S (Z.to_nat size)) 0 ptr1 ptr2 size.

(** [i = size - 1] is computed at DWORD width before it is widened to INT64. *)
Fixpoint rmemcmp_loop (fuel : nat) (i p1 p2 : Z) : M Mem Z :=
  match fuel with
  | O => fail NoFuel
  | S fuel' =>
      if 0 <=? i then
        a ← load8 (p1 + i);
        b ← load8 (p2 + i);
        if a =? b then rmemcmp_loop fuel' (i64 (i - 1)) p1 p2
        else ret (a - b)
      else ret 0
  end.
Definition cl_rmemcmp (ptr1 ptr2 size : Z) : M Mem Z :=
  if (ptr1 =? NULL) || (ptr2 =? NULL) then ret (i32 size)
  else rmemcmp_loop (S (S (Z.to_nat size))) (u32 (size - 1)) ptr1 ptr2.

Fixpoint memscan_loop (fuel : nat) (i buffer size value : Z) : M Mem Z :=
  match fuel with
  | O => fail NoFuel
  | S fuel' =>
      if i <? size then
        b ← load8 (buffer + i);
        if b =? value then memscan_loop fuel' (u32 (i + 1)) buffer size value
        else ret (i32 i)
      else ret (i32 i)
  end.
Definition cl_memscan (buffer size value : Z) : M Mem Z :=
  if buffer =? NULL then ret 0
  else memscan_loop (S (Z.to_nat size)) 0 buffer size value.

(** * Vocabulary of the specifications *)

(** The [n] bytes at [p] exist. *)
Definition mapped (m : Mem) (p n : Z) : Prop :=
  forall a, p <= a < p + n -> is_Some (m !! a).

(** [m'] is [m] with the [n] bytes at [d] replaced by those [m] has at [s]. *)
Definition copied (m m' : Mem) (d s n : Z) : Prop :=
  forall a, m' !! a = if bool_decide (d <= a < d + n) then m !! (s + (a - d)) else m !! a.

(** The [n] bytes at [p] all equal [v] and nothing else changed. *)
Definition filled (m m' : Mem) (p v n : Z) : Prop :=
  forall a, m' !! a = if bool_decide (p <= a < p + n) then Some v else m !! a.

Definition bytes_at (m : Mem) (p : Z) (bs : list Z) : Prop :=
  forall i b, bs !! i = Some b -> m !! (p + Z.of_nat i) = Some b.

(** * Lemmas *)

Lemma wp_load8 p b (Q : Z -> Mem -> Prop) m : m !! p = Some b -> Q b m -> wp (load8 p) Q m.
Proof. unfold wp, load8. by intros ->. Qed.

Lemma wp_store8 p b (Q : unit -> Mem -> Prop) m :
  is_Some (m !! p) -> Q tt (<[p := b]> m) -> wp (store8 p b) Q m.
Proof. unfold wp, store8. by intros [? ->]. Qed.

Lemma mapped_sub m p n p' n' : mapped m p n -> p <= p' -> p' + n' <= p + n -> mapped m p' n'.
Proof. intros H ?? a ?. apply H. lia. Qed.

Lemma mapped_insert m p n a v : mapped m p n -> mapped (<[a := v]> m) p n.
Proof.
  intros H b Hb. destruct (decide (a = b)) as [->|]; [rewrite lookup_insert_eq|
  rewrite lookup_insert_ne by done]; eauto.
Qed.

Lemma mapped_filled m m' p v n q k : filled m m' p v n -> mapped m q k -> mapped m' q k.
Proof. intros Hf H a Ha. rewrite (Hf a). case_bool_decide; eauto. Qed.

Lemma mapped_copied m m' d s n q k :
  copied m m' d s n -> mapped m s n -> mapped m q k -> mapped m' q k.
Proof.
  intros Hc Hs H a Ha. rewrite (Hc a). case_bool_decide; [apply Hs; lia|eauto].
Qed.

Lemma memset_loop_spec fuel : forall i address value size m,
  0 <= i <= size -> is_dword size -> (Z.to_nat (size - i) < fuel)%nat ->
  mapped m (address + i) (size - i) ->
  wp (memset_loop fuel i address value size)
     (fun _ m' => filled m m' (address + i) value (size - i)) m.
Proof.
  induction fuel as [|fuel IH]; intros i address value size m Hi Hs Hf Hm; [lia|].
  simpl. destruct (Z.ltb_spec i size) as [Hlt|Hge].
  - wp_step. apply wp_store8; [apply Hm; lia|]. unwrap.
    eapply wp_mono; [apply IH; try rlia|].
    { apply mapped_insert. eapply mapped_sub; [done|lia|lia]. }
    simpl. intros _ m' Hfill a. rewrite (Hfill a).
    repeat case_bool_decide; try lia; try done.
    + assert (a = address + i) as -> by lia. by rewrite lookup_insert_eq.
    + rewrite lookup_insert_ne by lia. done.
  - wp_step. intros a. case_bool_decide; [lia|done].
Qed.

(** cl_memset fills exactly the requested bytes. *)
Lemma cl_memset_spec address value size m :
  address <> NULL -> is_dword size -> mapped m address size ->
  wp (cl_memset address value size) (fun _ m' => filled m m' address value size) m.
Proof.
  intros Hn Hs Hm. unfold cl_memset. rewrite (proj2 (Z.eqb_neq _ _)) by done.
  eapply wp_mono; [apply memset_loop_spec; try rlia|].
  - by rewrite Z.add_0_r, Z.sub_0_r.
  - simpl. intros _ m'. by rewrite Z.add_0_r, Z.sub_0_r.
Qed.

Lemma read_bytes_spec n : forall p m, mapped m p (Z.of_nat n) ->
  exists bs, read_bytes p n m = Ok (bs, m) /\ length bs = n /\ bytes_at m p bs.
Proof.
  induction n as [|n IH]; intros p m Hm.
  - exists []. split; [done|]. split; [done|]. intros i b. rewrite lookup_nil. done.
  - destruct (Hm p) as [b Hb]; [lia|].
    destruct (IH (p + 1) m) as (bs & E & Hl & Hbs).
    { eapply mapped_sub; [done|lia|lia]. }
    exists (b :: bs). simpl. unfold mbind, M_bind, load8. rewrite Hb, E.
    split; [done|]. split; [simpl; lia|]. intros [|i] c; simpl.
    + intros [= <-]. by rewrite Z.add_0_r.
    + intros Hc. apply Hbs in Hc. rewrite <- Hc. f_equal. lia.
Qed.

Lemma write_bytes_spec bs : forall p m, mapped m p (Z.of_nat (length bs)) ->
  exists m', write_bytes p bs m = Ok (tt, m') /\
    forall a, m' !! a = if bool_decide (p <= a < p + Z.of_nat (length bs))
                        then bs !! Z.to_nat (a - p) else m !! a.
Proof.
  induction bs as [|b bs IH]; intros p m Hm; simpl.
  - exists m. split; [done|]. intros a. case_bool_decide; [lia|done].
  - destruct (Hm p) as [c Hc]; [simpl; lia|].
    destruct (IH (p + 1) (<[p := b]> m)) as (m' & E & Hm').
    { apply mapped_insert. eapply mapped_sub; [done|lia|simpl; lia]. }
    exists m'. unfold mbind, M_bind, store8. rewrite Hc, E. split; [done|].
    intros a. rewrite Hm'. repeat case_bool_decide; try lia.
    + replace (Z.to_nat (a - p)) with (S (Z.to_nat (a - (p + 1)))) by lia. done.
    + assert (a = p) as -> by lia. rewrite Z.sub_diag. by rewrite lookup_insert_eq.
    + rewrite lookup_insert_ne by lia. done.
Qed.

Lemma copy_bytes_spec dst src n m :
  mapped m src (Z.of_nat n) -> mapped m dst (Z.of_nat n) ->
  wp (copy_bytes dst src n) (fun _ m' => copied m m' dst src (Z.of_nat n)) m.
Proof.
  intros Hs Hd. unfold copy_bytes.
  destruct (read_bytes_spec n src m Hs) as (bs & E & Hl & Hbs).
  eapply wp_run_bind; [done|]. subst n.
  destruct (write_bytes_spec bs dst m Hd) as (m' & E' & Hm').
  eapply wp_run; [done|]. intros a. rewrite Hm'. case_bool_decide; [|done].
  destruct (lookup_lt_is_Some_2 bs (Z.to_nat (a - dst))) as [b Hb]; [lia|].
  rewrite Hb. apply Hbs in Hb. rewrite <- Hb. f_equal. lia.
Qed.

(** Regions that a copy may use: the source is not overwritten before it is read. *)
Definition disjoint_regions (d s n : Z) : Prop := d + n <= s \/ s + n <= d.

Lemma copied_compose m m1 m2 d s n1 n2 :
  0 <= n1 -> 0 <= n2 -> disjoint_regions d s (n1 + n2) ->
  copied m m1 d s n1 -> copied m1 m2 (d + n1) (s + n1) n2 ->
  copied m m2 d s (n1 + n2).
Proof.
  intros H1 H2 Hd Hc1 Hc2 a. unfold disjoint_regions in Hd. rewrite (Hc2 a).
  repeat case_bool_decide; rewrite ?Hc1; repeat case_bool_decide; try lia; try done;
    f_equal; lia.
Qed.

Lemma copied_0 m d s : copied m m d s 0.
Proof. intros a. case_bool_decide; [lia|done]. Qed.

Lemma movsq_spec c : forall dst src m,
  mapped m src (8 * Z.of_nat c) -> mapped m dst (8 * Z.of_nat c) ->
  disjoint_regions dst src (8 * Z.of_nat c) ->
  wp (movsq dst src c) (fun _ m' => copied m m' dst src (8 * Z.of_nat c)) m.
Proof.
  induction c as [|c IH]; intros dst src m Hs Hd Hdis; simpl.
  - wp_step. apply copied_0.
  - unfold disjoint_regions in Hdis. wp_step.
    eapply wp_mono;
      [apply copy_bytes_spec; [eapply mapped_sub; [exact Hs|lia|lia]|eapply mapped_sub; [exact Hd|lia|lia]]|].
    simpl. intros _ m1 Hc1. eapply wp_mono; [apply IH|].
    + eapply mapped_copied; [done|eapply mapped_sub; [exact Hs|lia|lia]|].
      eapply mapped_sub; [exact Hs|lia|lia].
    + eapply mapped_copied; [done|eapply mapped_sub; [exact Hs|lia|lia]|].
      eapply mapped_sub; [exact Hd|lia|lia].
    + unfold disjoint_regions. lia.
    + simpl. intros _ m2 Hc2.
      replace (8 * Z.of_nat (S c)) with (8 + 8 * Z.of_nat c) by lia.
      eapply copied_compose; [lia|lia|unfold disjoint_regions; lia|exact Hc1|exact Hc2].
Qed.

(** One of the three short copies of cl_memcpy, after [k] bytes are done. *)
Lemma copy_step_spec flag n k dst src count m m1 :
  0 <= k -> 0 < n -> (flag <> 0 -> k + n <= count) -> disjoint_regions dst src count ->
  mapped m src count -> mapped m dst count -> copied m m1 dst src k ->
  wp (copy_step flag n (dst + k, src + k))
     (fun ds m2 => let k' := k + (if flag =? 0 then 0 else n) in
        ds = (dst + k', src + k') /\ copied m m2 dst src k') m1.
Proof.
  intros Hk Hn Hc Hdis Hs Hd Hm1. unfold copy_step. destruct (Z.eqb_spec flag 0); simpl.
  - wp_step. by rewrite Z.add_0_r.
  - specialize (Hc n0). assert (Hsk : mapped m src k) by (eapply mapped_sub; [exact Hs|lia|lia]).
    wp_step. eapply wp_mono; [apply copy_bytes_spec|].
    + eapply mapped_copied; [done..|eapply mapped_sub; [exact Hs|lia|lia]].
    + eapply mapped_copied; [done..|eapply mapped_sub; [exact Hd|lia|lia]].
    + simpl. rewrite Z2Nat.id by lia. intros _ m2 Hm2. wp_step.
      split; [f_equal; lia|]. unfold disjoint_regions in *.
      eapply copied_compose; [lia|lia|unfold disjoint_regions; lia|exact Hm1|exact Hm2].
Qed.

Definition low_part (u b : Z) : Z := if Z.land u b =? 0 then 0 else b.

Lemma low_parts u : 0 <= u < 8 ->
  low_part u 4 + low_part u 2 + low_part u 1 = u /\
  (Z.land u 4 <> 0 -> 0 + 4 <= u) /\ (Z.land u 2 <> 0 -> low_part u 4 + 2 <= u) /\
  (Z.land u 1 <> 0 -> low_part u 4 + low_part u 2 + 1 <= u) /\
  0 <= low_part u 4 /\ 0 <= low_part u 2.
Proof.
  intros H. assert (Hu : u = 0 \/ u = 1 \/ u = 2 \/ u = 3 \/ u = 4 \/ u = 5 \/ u = 6 \/ u = 7) by lia.
  destruct_or!; subst u; repeat split; vm_compute; congruence.
Qed.

(** The short copies move the low [Count mod 8] bytes. *)
Lemma memcpy_head_spec dst src u count m :
  0 <= u < 8 -> u <= count -> disjoint_regions dst src count ->
  mapped m src count -> mapped m dst count ->
  wp (ds ← copy_step (Z.land u 4) 4 (dst, src);
      ds ← copy_step (Z.land u 2) 2 ds;
      copy_step (Z.land u 1) 1 ds) (fun _ m' => copied m m' dst src u) m.
Proof.
  intros Hu Huc Hdis Hs Hd. destruct (low_parts u Hu) as (Hsum & H4 & H2 & H1 & P4 & P2).
  wp_step. replace (dst, src) with (dst + 0, src + 0) by (f_equal; lia).
  eapply wp_mono.
  { apply (copy_step_spec _ 4 0 _ _ count m m); [lia|lia|intros ?%H4; lia|done..|apply copied_0]. }
  fold (low_part u 4). cbn beta zeta. intros ds m1 [-> Hm1]. wp_step. eapply wp_mono.
  { apply (copy_step_spec _ 2 (0 + low_part u 4) _ _ count m m1); [lia|lia|intros ?%H2; lia|done..]. }
  fold (low_part u 2). cbn beta zeta. intros ds m2 [-> Hm2]. eapply wp_mono.
  { apply (copy_step_spec _ 1 (0 + low_part u 4 + low_part u 2) _ _ count m m2); [lia|lia|intros ?%H1; lia|done..]. }
  fold (low_part u 1). cbn beta zeta. rewrite Z.add_0_l, Hsum. by intros ds m3 [_ ?].
Qed.

(** cl_memcpy on regions that do not overlap. *)
Lemma cl_memcpy_spec Destination Source Count m :
  Destination <> NULL -> Source <> NULL -> is_qword Count ->
  disjoint_regions Destination Source Count ->
  mapped m Source Count -> mapped m Destination Count ->
  wp (cl_memcpy Destination Source Count)
     (fun _ m' => copied m m' Destination Source Count) m.
Proof.
  intros Hd0 Hs0 HC Hdis Hs Hd. unfold cl_memcpy.
  rewrite (proj2 (Z.eqb_neq _ _) Hd0), (proj2 (Z.eqb_neq _ _) Hs0). cbn [orb].
  change 0x7 with (2 ^ 3 - 1). rewrite (land_mask_low Count 3) by lia. change (2 ^ 3) with 8.
  pose proof (Z.mod_pos_bound Count 8) as Hb. pose proof (Z.mod_le Count 8) as Hle.
  pose proof (Z.div_mod Count 8) as Hdv.
  set (u := Count mod 8) in *. rewrite (u64_small (Count - u)) by rlia.
  unfold is_qword in HC.
  apply wp_bind. pose proof (memcpy_head_spec Destination Source u Count m) as Hh.
  specialize (Hh ltac:(lia) ltac:(rlia) Hdis Hs Hd). apply wp_bind_inv in Hh.
  eapply wp_mono; [exact Hh|]. simpl. intros ds m1 Hh2. apply wp_bind_inv in Hh2.
  wp_step. eapply wp_mono; [exact Hh2|]. simpl. intros ds2 m2 Hh3.
  wp_step. eapply wp_mono; [exact Hh3|]. simpl. intros _ m3 Hm3.
  clear Hh Hh2 Hh3.
  destruct (Z.eqb_spec (Count - u) 0) as [E|E]; [wp_step; by replace Count with u by lia|].
  assert (Hdv' : Count - u = (Count / 8) * 8) by lia.
  wp_step. wp_step.
  { unfold IsAddressAligned. unwrap. rewrite Hdv'. apply Z.eqb_eq.
    change (8 - 1) with (2 ^ 3 - 1). rewrite (land_mask_low _ 3) by lia.
    by rewrite Z.mod_mul by lia. }
  assert (Hsu : mapped m Source u) by (eapply mapped_sub; [exact Hs|lia|lia]).
  rewrite Hdv', Z.div_mul by lia. unfold disjoint_regions in Hdis.
  eapply wp_mono; [apply movsq_spec|].
  all: rewrite Z2Nat.id by lia.
  - eapply mapped_copied; [done..|]. eapply mapped_sub; [exact Hs|lia|lia].
  - eapply mapped_copied; [done..|]. eapply mapped_sub; [exact Hd|lia|lia].
  - unfold disjoint_regions. lia.
  - simpl. intros _ m4 Hm4. replace Count with (u + 8 * (Count / 8)) by lia.
    eapply copied_compose; [lia|lia|unfold disjoint_regions; lia|exact Hm3|exact Hm4].
Qed.

(** ** cl_memmove *)

Lemma memmove_loop_spec fuel : forall i dst src Count m0 m,
  0 <= i <= Count -> is_qword Count -> (Z.to_nat (Count - i) < fuel)%nat ->
  (dst <= src \/ src + Count <= dst) ->
  mapped m0 src Count -> mapped m0 dst Count -> copied m0 m dst src i ->
  wp (memmove_loop fuel i dst src Count) (fun _ m' => copied m0 m' dst src Count) m.
Proof.
  induction fuel as [|fuel IH]; intros i dst src Count m0 m Hi HC Hf Hdir Hs Hd Hm; [lia|].
  simpl. destruct (Z.ltb_spec i Count) as [Hlt|Hge].
  - destruct (Hs (src + i)) as [b Hb]; [lia|]. wp_step.
    apply (wp_load8 _ b); [rewrite (Hm (src + i)), bool_decide_eq_false_2 by lia; done|].
    wp_step. apply wp_store8.
    { rewrite (Hm (dst + i)), bool_decide_eq_false_2 by lia. apply Hd. lia. }
    rewrite u64_small by rlia. apply IH; try done; try rlia.
    intros a. destruct (decide (a = dst + i)) as [->|Hne].
    + rewrite lookup_insert_eq, bool_decide_eq_true_2 by lia.
      rewrite <- Hb. f_equal. lia.
    + rewrite lookup_insert_ne by done. rewrite (Hm a).
      repeat case_bool_decide; try lia; done.
  - wp_step. by replace Count with i by lia.
Qed.

(** cl_memmove copies correctly when the regions are disjoint or the
    destination lies below the source. *)
Lemma cl_memmove_spec Destination Source Count m :
  Destination <> NULL -> Source <> NULL -> is_qword Count ->
  (Destination <= Source \/ Source + Count <= Destination) ->
  mapped m Source Count -> mapped m Destination Count ->
  wp (cl_memmove Destination Source Count)
     (fun _ m' => copied m m' Destination Source Count) m.
Proof.
  intros Hd0 Hs0 HC Hdir Hs Hd. unfold cl_memmove.
  rewrite (proj2 (Z.eqb_neq _ _) Hd0), (proj2 (Z.eqb_neq _ _) Hs0).
  apply memmove_loop_spec; try done; try rlia. apply copied_0.
Qed.

Lemma memmove_loop_smear fuel : forall i src Count v m,
  0 <= i <= Count -> is_qword Count -> (Z.to_nat (Count - i) < fuel)%nat ->
  mapped m src (Count + 1) -> m !! (src + i) = Some v ->
  wp (memmove_loop fuel i (src + 1) src Count)
     (fun _ m' => filled m m' (src + 1 + i) v (Count - i)) m.
Proof.
  induction fuel as [|fuel IH]; intros i src Count v m Hi HC Hf Hm Hv; [lia|].
  simpl. destruct (Z.ltb_spec i Count) as [Hlt|Hge].
  - wp_step. apply (wp_load8 _ v); [done|]. wp_step.
    apply wp_store8; [apply Hm; lia|]. rewrite u64_small by rlia.
    eapply wp_mono; [apply (IH (i + 1) src Count v); try done; try rlia|].
    + by apply mapped_insert.
    + replace (src + (i + 1)) with (src + 1 + i) by lia. apply lookup_insert_eq.
    + simpl. intros _ m' Hf' a. rewrite (Hf' a). repeat case_bool_decide; try lia; try done.
      * assert (a = src + 1 + i) as -> by lia. apply lookup_insert_eq.
      * rewrite lookup_insert_ne by lia. done.
  - wp_step. intros a. case_bool_decide; [lia|done].
Qed.

(** Moving a block one byte up repeats its first byte over the destination. *)
Lemma cl_memmove_smear Source Count v m :
  Source <> NULL -> Source + 1 <> NULL -> is_qword Count ->
  mapped m Source (Count + 1) -> m !! Source = Some v ->
  wp (cl_memmove (Source + 1) Source Count)
     (fun _ m' => filled m m' (Source + 1) v Count) m.
Proof.
  intros Hs0 Hd0 HC Hm Hv. unfold cl_memmove.
  rewrite (proj2 (Z.eqb_neq _ _) Hd0), (proj2 (Z.eqb_neq _ _) Hs0).
  eapply wp_mono; [apply (memmove_loop_smear _ 0 _ _ v); try done; try rlia|].
  - by rewrite Z.add_0_r.
  - simpl. intros _ m'. by rewrite Z.add_0_r, Z.sub_0_r.
Qed.

(** ** Comparisons *)
Fixpoint le_value (bs : list Z) : Z :=
  match bs with [] => 0 | b :: bs' => b + 256 * le_value bs' end.

Lemma le_value_snoc bs b : le_value (bs ++ [b]) = le_value bs + 256 ^ Z.of_nat (length bs) * b.
Proof.
  induction bs as [|c bs IH]; [simpl; lia|].
  change ((c :: bs) ++ [b]) with (c :: (bs ++ [b])).
  cbn [le_value length]. rewrite IH, Nat2Z.inj_succ, Z.pow_succ_r by lia. lia.
Qed.

Lemma le_value_range bs : Forall is_byte bs -> 0 <= le_value bs < 256 ^ Z.of_nat (length bs).
Proof.
  induction 1 as [|b bs Hb Hbs IH]; [simpl; lia|]. cbn [le_value length].
  rewrite Nat2Z.inj_succ, Z.pow_succ_r by lia. unfold is_byte in Hb. lia.
Qed.

Lemma le_value_inj bs1 : forall bs2, Forall is_byte bs1 -> Forall is_byte bs2 ->
  length bs1 = length bs2 -> le_value bs1 = le_value bs2 -> bs1 = bs2.
Proof.
  induction bs1 as [|a l1 IH]; intros [|b l2] H1 H2 Hl E; try done.
  apply Forall_cons_1 in H1 as [Ha H1]. apply Forall_cons_1 in H2 as [Hb H2].
  cbn [le_value] in E. unfold is_byte in Ha, Hb. change (2 ^ 8) with 256 in *.
  assert (a = b) as -> by lia. f_equal. apply IH; [done..|simpl in Hl; lia|lia].
Qed.

Lemma bytes_at_app m p l1 l2 :
  bytes_at m p (l1 ++ l2) -> bytes_at m p l1 /\ bytes_at m (p + Z.of_nat (length l1)) l2.
Proof.
  intros H. split; intros i b Hb.
  - apply H. by apply lookup_app_l_Some.
  - replace (p + Z.of_nat (length l1) + Z.of_nat i) with (p + Z.of_nat (length l1 + i)) by lia.
    apply H. rewrite lookup_app_r by lia. by rewrite Nat.add_comm, Nat.add_sub.
Qed.

Lemma bytes_at_last m p l b : bytes_at m p (l ++ [b]) ->
  bytes_at m p l /\ m !! (p + Z.of_nat (length l)) = Some b.
Proof.
  intros H. apply bytes_at_app in H as [H1 H2]. split; [done|].
  specialize (H2 0%nat b eq_refl). by rewrite Z.add_0_r in H2.
Qed.

Lemma rmemcmp_loop_spec n : forall fuel p1 p2 bs1 bs2 m,
  length bs1 = n -> length bs2 = n -> (n < fuel)%nat -> Z.of_nat n < 2 ^ 32 ->
  Forall is_byte bs1 -> Forall is_byte bs2 ->
  bytes_at m p1 bs1 -> bytes_at m p2 bs2 ->
  wp (rmemcmp_loop fuel (Z.of_nat n - 1) p1 p2)
     (fun r m' => m' = m /\ -256 < r < 256 /\ Z.sgn r = Z.sgn (le_value bs1 - le_value bs2)) m.
Proof.
  induction n as [|n IH]; intros fuel p1 p2 bs1 bs2 m L1 L2 Hf Hn B1 B2 M1 M2;
    (destruct fuel as [|fuel]; [lia|]); simpl rmemcmp_loop.
  - destruct bs1, bs2; done.
  - destruct bs1 as [|a l1 _] using rev_ind; [done|].
    destruct bs2 as [|b l2 _] using rev_ind; [done|].
    rewrite length_app in L1, L2. simpl in L1, L2.
    apply bytes_at_last in M1 as [M1 E1]. apply bytes_at_last in M2 as [M2 E2].
    apply Forall_app in B1 as [B1 Ba]. apply Forall_app in B2 as [B2 Bb].
    rewrite Forall_singleton in Ba, Bb.
    rewrite (proj2 (Z.leb_le 0 _)) by lia.
    replace (p1 + (Z.of_nat (S n) - 1)) with (p1 + Z.of_nat (length l1)) by lia.
    replace (p2 + (Z.of_nat (S n) - 1)) with (p2 + Z.of_nat (length l2)) by lia.
    wp_step. apply (wp_load8 _ a); [done|]. wp_step. apply (wp_load8 _ b); [done|].
    rewrite !le_value_snoc. replace (length l2) with (length l1) by lia.
    pose proof (le_value_range l1 B1) as R1. pose proof (le_value_range l2 B2) as R2.
    replace (length l2) with (length l1) in R2 by lia.
    destruct (Z.eqb_spec a b) as [->|Hab].
    + replace (Z.of_nat (S n) - 1 - 1) with (Z.of_nat n - 1) by lia. rewrite i64_small by lia.
      eapply wp_mono; [apply (IH fuel p1 p2 l1 l2); try done; lia|].
      intros r m' (-> & Hr & ->). split_and!; [done|lia|lia|]. f_equal. lia.
    + wp_step. split; [done|]. split; [rlia|].
      destruct (Z.lt_trichotomy a b) as [Hlt|[Heq|Hgt]]; [|lia|].
      * rewrite !Z.sgn_neg; [done|nia|lia].
      * rewrite !Z.sgn_pos; [done|nia|lia].
Qed.

(** cl_rmemcmp orders equally long buffers as little-endian numbers. *)
Lemma cl_rmemcmp_spec ptr1 ptr2 bs1 bs2 m :
  ptr1 <> NULL -> ptr2 <> NULL -> length bs1 = length bs2 ->
  0 < Z.of_nat (length bs1) < 2 ^ 32 ->
  Forall is_byte bs1 -> Forall is_byte bs2 ->
  bytes_at m ptr1 bs1 -> bytes_at m ptr2 bs2 ->
  wp (cl_rmemcmp ptr1 ptr2 (Z.of_nat (length bs1)))
     (fun r m' => m' = m /\ -256 < r < 256 /\ Z.sgn r = Z.sgn (le_value bs1 - le_value bs2)) m.
Proof.
  intros H1 H2 Hl Hn B1 B2 M1 M2. unfold cl_rmemcmp.
  rewrite (proj2 (Z.eqb_neq _ _) H1), (proj2 (Z.eqb_neq _ _) H2). cbn [orb].
  rewrite u32_small by rlia. apply rmemcmp_loop_spec; try done; lia.
Qed.

(** A zero size is not a comparison of nothing: the index starts at 2^32 - 1. *)
Lemma cl_rmemcmp_zero ptr1 ptr2 m :
  ptr1 <> NULL -> ptr2 <> NULL -> m !! (ptr1 + MAX_DWORD) = None ->
  cl_rmemcmp ptr1 ptr2 0 m = Err MemFault.
Proof.
  intros H1 H2 Hm. unfold cl_rmemcmp.
  rewrite (proj2 (Z.eqb_neq _ _) H1), (proj2 (Z.eqb_neq _ _) H2). cbn [orb].
  change (u32 (0 - 1)) with MAX_DWORD. simpl. unfold mbind, M_bind, load8. by rewrite Hm.
Qed.

Lemma memcmp_loop_spec bs1 : forall fuel i p1 p2 bs2 m,
  length bs1 = length bs2 -> (length bs1 < fuel)%nat ->
  0 <= i -> i + Z.of_nat (length bs1) < 2 ^ 32 ->
  bytes_at m (p1 + i) bs1 -> bytes_at m (p2 + i) bs2 ->
  wp (memcmp_loop fuel i p1 p2 (i + Z.of_nat (length bs1)))
     (fun r m' => m' = m /\ (r = 0 <-> bs1 = bs2)) m.
Proof.
  induction bs1 as [|a l1 IH]; intros [|fuel] i p1 p2 [|b l2] m Hl Hf Hi Hb M1 M2;
    simpl in Hl; try lia; simpl.
  - rewrite (proj2 (Z.ltb_ge _ _)) by lia. wp_step. done.
  - rewrite (proj2 (Z.ltb_lt _ _)) by lia. wp_step.
    pose proof (M1 0%nat a eq_refl) as E1. pose proof (M2 0%nat b eq_refl) as E2.
    rewrite Z.add_0_r in E1, E2. simpl in Hf.
    apply (wp_load8 _ a); [done|]. wp_step. apply (wp_load8 _ b); [done|].
    destruct (Z.eqb_spec a b) as [->|Hab].
    + rewrite i64_small by (simpl in Hb; lia).
      replace (i + Z.of_nat (S (length l1))) with (i + 1 + Z.of_nat (length l1)) by lia.
      eapply wp_mono; [apply (IH fuel (i + 1) p1 p2 l2); simpl in *; try lia|].
      * intros j c Hc. specialize (M1 (S j) c Hc). rewrite <- M1. f_equal. lia.
      * intros j c Hc. specialize (M2 (S j) c Hc). rewrite <- M2. f_equal. lia.
      * simpl. intros r m' [-> [Hr1 Hr2]]. split; [done|]. split; intros E; [f_equal; auto|].
        apply Hr2. congruence.
    + wp_step. split; [done|]. split; [lia|naive_solver].
Qed.

(** cl_memcmp is 0 exactly on equal buffers. *)
Lemma cl_memcmp_spec ptr1 ptr2 bs1 bs2 m :
  ptr1 <> NULL -> ptr2 <> NULL -> length bs1 = length bs2 ->
  Z.of_nat (length bs1) < 2 ^ 32 ->
  bytes_at m ptr1 bs1 -> bytes_at m ptr2 bs2 ->
  wp (cl_memcmp ptr1 ptr2 (Z.of_nat (length bs1)))
     (fun r m' => m' = m /\ (r = 0 <-> bs1 = bs2)) m.
Proof.
  intros H1 H2 Hl Hn M1 M2. unfold cl_memcmp.
  rewrite (proj2 (Z.eqb_neq _ _) H1), (proj2 (Z.eqb_neq _ _) H2). cbn [orb].
  apply (memcmp_loop_spec bs1 _ 0 ptr1 ptr2 bs2); try done; try lia;
    by rewrite Z.add_0_r.
Qed.

(** ** Memories with given contents *)
Fixpoint mem_of (p : Z) (bs : list Z) : Mem :=
  match bs with [] => ∅ | b :: bs' => <[p := b]> (mem_of (p + 1) bs') end.

Lemma lookup_mem_of bs : forall p a,
  mem_of p bs !! a = if bool_decide (p <= a) then bs !! Z.to_nat (a - p) else None.
Proof.
  induction bs as [|b bs IH]; intros p a; simpl; [by case_bool_decide|].
  destruct (decide (p = a)) as [->|Hne].
  - rewrite lookup_insert_eq, bool_decide_eq_true_2, Z.sub_diag by lia. done.
  - rewrite lookup_insert_ne, IH by done. repeat case_bool_decide; try lia; try done.
    by replace (Z.to_nat (a - p)) with (S (Z.to_nat (a - (p + 1)))) by lia.
Qed.

Lemma bytes_at_mem_of p bs : bytes_at (mem_of p bs) p bs.
Proof.
  intros i b Hb. rewrite lookup_mem_of, bool_decide_eq_true_2 by lia.
  by replace (Z.to_nat (p + Z.of_nat i - p)) with i by lia.
Qed.

Lemma mapped_mem_of p bs : mapped (mem_of p bs) p (Z.of_nat (length bs)).
Proof.
  intros a Ha. rewrite lookup_mem_of, bool_decide_eq_true_2 by lia.
  apply lookup_lt_is_Some. lia.
Qed.
