(* ===== verification/Bitmap.v ===== *)
(** CommonLib/src/bitmap.c: bitmaps whose buffer lives in the byte memory. *)
From S2P Require Import Prelude IntUtils ClMemory.

Definition BITMAP_ENTRY_BITS : Z := 8.

Record BITMAP := mkBITMAP { BitmapBuffer : Z; BufferSize : Z; BitCount : Z }.

(** * Operations *)

Definition BitmapPreinit (NumberOfElements : Z) : outcome (Z * BITMAP) :=
  _ ← assert_ (negb (0 =? NumberOfElements));
  let bufferSize := u32 (AlignAddressUpper NumberOfElements BITMAP_ENTRY_BITS / BITMAP_ENTRY_BITS * 1) in
  Ok (bufferSize, mkBITMAP NULL bufferSize NumberOfElements).

Definition BitmapInitEx (Bitmap : BITMAP) (buffer : Z) (Set_ : bool) : M Mem BITMAP :=
  _ ← ASSERT (negb (NULL =? buffer));
  _ ← cl_memset buffer (if Set_ then MAX_BYTE else 0) (BufferSize Bitmap);
  ret (mkBITMAP buffer (BufferSize Bitmap) (BitCount Bitmap)).

Definition BitmapUninit (Bitmap : BITMAP) : BITMAP := mkBITMAP 0 0 0.

Definition BitmapGetMaxElementCount (Bitmap : BITMAP) : Z := BitCount Bitmap.

Definition _BitmapChangeBit (buffer Index : Z) (Set_ : bool) : M Mem unit :=
  _ ← ASSERT (negb (NULL =? buffer));
  let byteIndex := Index / BITMAP_ENTRY_BITS in
  let bitIndex := Index mod BITMAP_ENTRY_BITS in
  b ← load8 (buffer + byteIndex);
  if Set_ then store8 (buffer + byteIndex) (u8 (Z.lor b (Z.shiftl 1 bitIndex)))
  else store8 (buffer + byteIndex) (u8 (Z.land b (Z.lnot (Z.shiftl 1 bitIndex)))).

Fixpoint changeBits_loop (fuel : nat) (i buffer Index : Z) (Set_ : bool) (Count : Z) : M Mem unit :=
  match fuel with
  | O => fail NoFuel
  | S fuel' =>
      if i <? Count then
        _ ← _BitmapChangeBit buffer (u32 (Index + i)) Set_;
        changeBits_loop fuel' (u32 (i + 1)) buffer Index Set_ Count
      else ret tt
  end.
Definition _BitmapChangeBits (buffer Index : Z) (Set_ : bool) (Count : Z) : M Mem unit :=
  changeBits_loop (S (Z.to_nat Count)) 0 buffer Index Set_ Count.

Definition _BitmapGetBit (buffer Index : Z) : M Mem bool :=
  _ ← ASSERT (negb (NULL =? buffer));
  let byteIndex := Index / BITMAP_ENTRY_BITS in
  let bitIndex := Index mod BITMAP_ENTRY_BITS in
  b ← load8 (buffer + byteIndex);
  ret (IsBooleanFlagOn b (Z.shiftl 1 bitIndex)).

Definition BitmapSetBitValue (Bitmap : BITMAP) (Index : Z) (Set_ : bool) : M Mem unit :=
  _ ← ASSERT (Index <? BitCount Bitmap);
  _BitmapChangeBit (BitmapBuffer Bitmap) Index Set_.

Definition BitmapGetBitValue (Bitmap : BITMAP) (Index : Z) : M Mem bool :=
  _ ← ASSERT (Index <? BitCount Bitmap);
  _BitmapGetBit (BitmapBuffer Bitmap) Index.

(** The second assertion subtracts at DWORD width. *)
Definition BitmapSetBitsValue (Bitmap : BITMAP) (Index Count : Z) (Set_ : bool) : M Mem unit :=
  _ ← ASSERT (Index <? BitCount Bitmap);
  _ ← ASSERT (Index <=? u32 (BitCount Bitmap - Count));
  _BitmapChangeBits (BitmapBuffer Bitmap) Index Set_ Count.

(** The inner loop of the scan: are the bits [i + j], ... all equal to [Set]? *)
Fixpoint scan_inner (fuel : nat) (j buffer i ConsecutiveBits : Z) (Set_ : bool) : M Mem bool :=
  match fuel with
  | O => fail NoFuel
  | S fuel' =>
      if j <? ConsecutiveBits then
        b ← _BitmapGetBit buffer (u32 (i + j));
        if bool_decide (Set_ <> b) then ret false
        else scan_inner fuel' (u32 (j + 1)) buffer i ConsecutiveBits Set_
      else ret true
  end.

Fixpoint scan_outer (fuel : nat) (i lastIndex buffer ConsecutiveBits : Z) (Set_ : bool) : M Mem Z :=
  match fuel with
  | O => fail NoFuel
  | S fuel' =>
      if i <=? lastIndex then
        found ← scan_inner (S (Z.to_nat ConsecutiveBits)) 0 buffer i ConsecutiveBits Set_;
        if (found : bool) then ret i
        else scan_outer fuel' (u32 (i + 1)) lastIndex buffer ConsecutiveBits Set_
      else ret MAX_DWORD
  end.

Definition _BitmapScanInternal (Bitmap : BITMAP)
    (StartIndex FirstInvalidBitIndex ConsecutiveBits : Z) (Set_ : bool) : M Mem Z :=
  _ ← ASSERT (negb (0 =? ConsecutiveBits));
  _ ← ASSERT (StartIndex <=? FirstInvalidBitIndex);
  _ ← ASSERT (FirstInvalidBitIndex <=? BitCount Bitmap);
  if u32 (FirstInvalidBitIndex - StartIndex) <? ConsecutiveBits then ret MAX_DWORD else
  let lastIndex := u32 (FirstInvalidBitIndex - ConsecutiveBits) in
  scan_outer (S (S (Z.to_nat (lastIndex - StartIndex)))) StartIndex lastIndex
             (BitmapBuffer Bitmap) ConsecutiveBits Set_.

Definition BitmapScanFromTo (Bitmap : BITMAP)
    (Index FirstInvalidBitIndex ConsecutiveBits : Z) (Set_ : bool) : M Mem Z :=
  if 0 =? ConsecutiveBits then ret MAX_DWORD else
  if (FirstInvalidBitIndex <? Index) || (BitCount Bitmap <? FirstInvalidBitIndex)
  then ret MAX_DWORD
  else _BitmapScanInternal Bitmap Index FirstInvalidBitIndex ConsecutiveBits Set_.

Definition BitmapScanFrom (Bitmap : BITMAP) (Index ConsecutiveBits : Z) (Set_ : bool) : M Mem Z :=
  BitmapScanFromTo Bitmap Index (BitCount Bitmap) ConsecutiveBits Set_.

Definition BitmapScan (Bitmap : BITMAP) (ConsecutiveBits : Z) (Set_ : bool) : M Mem Z :=
  BitmapScanFromTo Bitmap 0 (BitCount Bitmap) ConsecutiveBits Set_.

Definition BitmapScanFromToAndFlip (Bitmap : BITMAP)
    (Index FirstInvalidBitIndex ConsecutiveBits : Z) (Set_ : bool) : M Mem Z :=
  if 0 =? ConsecutiveBits then ret MAX_DWORD else
  if (FirstInvalidBitIndex <? Index) || (BitCount Bitmap <? FirstInvalidBitIndex)
  then ret MAX_DWORD else
  bitmapIndex ← _BitmapScanInternal Bitmap Index FirstInvalidBitIndex ConsecutiveBits Set_;
  if MAX_DWORD =? bitmapIndex then ret MAX_DWORD else
  _ ← _BitmapChangeBits (BitmapBuffer Bitmap) bitmapIndex (negb Set_) ConsecutiveBits;
  ret bitmapIndex.

Definition BitmapScanFromAndFlip (Bitmap : BITMAP) (Index ConsecutiveBits : Z) (Set_ : bool) : M Mem Z :=
  BitmapScanFromToAndFlip Bitmap Index (BitCount Bitmap) ConsecutiveBits Set_.

Definition BitmapScanAndFlip (Bitmap : BITMAP) (ConsecutiveBits : Z) (Set_ : bool) : M Mem Z :=
  BitmapScanFromToAndFlip Bitmap 0 (BitCount Bitmap) ConsecutiveBits Set_.

(** * The abstract bitmap: a bit per index *)

Definition bit_at (m : Mem) (buffer i : Z) : bool :=
  match m !! (buffer + i / 8) with Some b => Z.testbit b (i mod 8) | None => false end.

Definition bit (m : Mem) (bm : BITMAP) (i : Z) : bool := bit_at m (BitmapBuffer bm) i.

(** The buffer of an initialised bitmap: it exists and holds bytes. *)
Definition byte_buffer (m : Mem) (p n : Z) : Prop :=
  forall j, 0 <= j < n -> exists b, m !! (p + j) = Some b /\ is_byte b.

Definition wf_bitmap (m : Mem) (bm : BITMAP) : Prop :=
  BitmapBuffer bm <> NULL /\ 0 < BitCount bm <= MAX_DWORD /\
  BufferSize bm = (BitCount bm + 7) / 8 /\
  byte_buffer m (BitmapBuffer bm) (BufferSize bm).

(** Memory outside the buffer is not touched. *)
Definition frame_outside (m m' : Mem) (p n : Z) : Prop :=
  forall a, ~ (p <= a < p + n) -> m' !! a = m !! a.

(** [m'] differs from [m] in the bits [Index, Index + Count) of the buffer,
    which now have the value [v]. *)
Definition bits_changed (m m' : Mem) (buffer size Index Count : Z) (v : bool) : Prop :=
  (forall i, 0 <= i -> bit_at m' buffer i =
     if bool_decide (Index <= i < Index + Count) then v else bit_at m buffer i) /\
  byte_buffer m' buffer size /\ frame_outside m m' buffer size.

(** The run [i, i + n) has the value [v]. *)
Definition run_of (m : Mem) (buffer i n : Z) (v : bool) : Prop :=
  forall j, 0 <= j < n -> bit_at m buffer (i + j) = v.

(** * Lemmas *)

Lemma byte_buffer_get m p n j : byte_buffer m p n -> 0 <= j < n ->
  exists b, m !! (p + j) = Some b /\ is_byte b.
Proof. eauto. Qed.

Lemma byte_buffer_insert m p n a b : byte_buffer m p n -> is_byte b ->
  byte_buffer (<[a := b]> m) p n.
Proof.
  intros H Hb j Hj. destruct (decide (a = p + j)) as [->|].
  - exists b. by rewrite lookup_insert_eq.
  - rewrite lookup_insert_ne by done. eauto.
Qed.

Lemma byte_buffer_mapped m p n : byte_buffer m p n -> mapped m p n.
Proof.
  intros H a Ha. destruct (H (a - p)) as (b & E & _); [lia|].
  replace (p + (a - p)) with a in E by lia. eauto.
Qed.

Lemma changed_byte_testbit b k (v : bool) j :
  is_byte b -> 0 <= k < 8 -> 0 <= j < 8 ->
  Z.testbit (if v then u8 (Z.lor b (Z.shiftl 1 k)) else u8 (Z.land b (Z.lnot (Z.shiftl 1 k)))) j
  = if bool_decide (j = k) then v else Z.testbit b j.
Proof.
  intros Hb Hk Hj. destruct v; rewrite testbit_u8 by lia;
    rewrite (proj2 (Z.ltb_lt j 8)) by lia; rewrite andb_true_r.
  - rewrite Z.lor_spec, testbit_shiftl_1 by lia.
    case_bool_decide; destruct (Z.eqb_spec j k); try lia;
      first [apply orb_true_r|apply orb_false_r].
  - rewrite Z.land_spec, Z.lnot_spec, testbit_shiftl_1 by lia.
    case_bool_decide; destruct (Z.eqb_spec j k); try lia;
      first [apply andb_false_r|apply andb_true_r].
Qed.

Lemma _BitmapChangeBit_spec p n Index v m :
  p <> NULL -> byte_buffer m p n -> 0 <= Index -> Index / 8 < n ->
  wp (_BitmapChangeBit p Index v) (fun _ m' => bits_changed m m' p n Index 1 v) m.
Proof.
  intros Hp Hb Hi Hn. unfold _BitmapChangeBit, BITMAP_ENTRY_BITS.
  pose proof (Z.div_pos Index 8 Hi ltac:(lia)).
  pose proof (Z.mod_pos_bound Index 8 ltac:(lia)) as Hm8.
  destruct (Hb (Index / 8)) as (b & E & Hbb); [lia|].
  wp_step. wp_step; [rewrite (proj2 (Z.eqb_neq NULL p)) by congruence; done|].
  wp_step. apply (wp_load8 _ b); [done|].
  set (b' := if v then u8 (Z.lor b (Z.shiftl 1 (Index mod 8)))
             else u8 (Z.land b (Z.lnot (Z.shiftl 1 (Index mod 8))))).
  assert (Hw : wp (store8 (p + Index / 8) b')
                  (fun _ m' => bits_changed m m' p n Index 1 v) m).
  { apply wp_store8; [by eexists|].
    assert (Hb' : is_byte b') by (unfold b'; destruct v; apply u8_range).
    split; [|split; [by apply byte_buffer_insert|]].
    - intros i Hi0. unfold bit_at. pose proof (Z.mod_pos_bound i 8 ltac:(lia)).
      destruct (decide (i / 8 = Index / 8)) as [Ed|Ed].
      + rewrite Ed, lookup_insert_eq, E. unfold b'.
        rewrite changed_byte_testbit by (try done; lia).
        pose proof (Z.div_mod i 8). pose proof (Z.div_mod Index 8).
        repeat case_bool_decide; try lia; done.
      + rewrite lookup_insert_ne by lia. rewrite bool_decide_eq_false_2; [done|].
        intros ?. assert (i = Index) by lia. congruence.
    - intros a Ha. apply lookup_insert_ne. lia. }
  unfold b' in Hw. destruct v; exact Hw.
Qed.

Lemma bits_changed_compose m m1 m2 p n I c1 c2 v : 0 <= c1 -> 0 <= c2 ->
  bits_changed m m1 p n I c1 v -> bits_changed m1 m2 p n (I + c1) c2 v ->
  bits_changed m m2 p n I (c1 + c2) v.
Proof.
  intros ?? (B1 & _ & F1) (B2 & Y2 & F2). split; [|split; [done|]].
  - intros i Hi. rewrite B2, B1 by done. repeat case_bool_decide; try lia; done.
  - intros a Ha. rewrite F2, F1 by done. done.
Qed.

Lemma bits_changed_0 m p n I v : byte_buffer m p n -> bits_changed m m p n I 0 v.
Proof.
  intros. split; [|split; done]. intros i Hi. case_bool_decide; [lia|done].
Qed.

Lemma div8_lt i n : 0 <= i < 8 * n -> i / 8 < n.
Proof. intros. apply Z.div_lt_upper_bound; lia. Qed.

Lemma changeBits_loop_spec fuel : forall i p n Index v Count m0 m,
  p <> NULL -> 0 <= i <= Count -> 0 <= Index -> Index + Count <= 8 * n ->
  Index + Count <= MAX_DWORD -> (Z.to_nat (Count - i) < fuel)%nat ->
  bits_changed m0 m p n Index i v ->
  wp (changeBits_loop fuel i p Index v Count)
     (fun _ m' => bits_changed m0 m' p n Index Count v) m.
Proof.
  induction fuel as [|fuel IH]; intros i p n Index v Count m0 m Hp Hi HI Hn Hd Hf Hc; [lia|].
  simpl. destruct (Z.ltb_spec i Count) as [Hlt|Hge].
  - wp_step. rewrite (u32_small (Index + i)), (u32_small (i + 1)) by rlia.
    eapply wp_mono; [apply (_BitmapChangeBit_spec p n)|].
    + done.
    + apply Hc.
    + lia.
    + apply div8_lt. lia.
    + simpl. intros _ m1 H1. apply IH; try done; try rlia.
      eapply bits_changed_compose; [lia|lia|exact Hc|exact H1].
  - wp_step. by replace Count with i by lia.
Qed.

Lemma _BitmapChangeBits_spec p n Index v Count m :
  p <> NULL -> byte_buffer m p n -> 0 <= Count -> 0 <= Index ->
  Index + Count <= 8 * n -> Index + Count <= MAX_DWORD ->
  wp (_BitmapChangeBits p Index v Count)
     (fun _ m' => bits_changed m m' p n Index Count v) m.
Proof.
  intros. unfold _BitmapChangeBits. apply changeBits_loop_spec; try done; try lia.
  by apply bits_changed_0.
Qed.

Lemma _BitmapGetBit_spec p n Index m :
  p <> NULL -> byte_buffer m p n -> 0 <= Index -> Index / 8 < n ->
  _BitmapGetBit p Index m = Ok (bit_at m p Index, m).
Proof.
  intros Hp Hb Hi Hn. unfold _BitmapGetBit, BITMAP_ENTRY_BITS.
  pose proof (Z.div_pos Index 8 Hi ltac:(lia)).
  pose proof (Z.mod_pos_bound Index 8 ltac:(lia)).
  destruct (Hb (Index / 8)) as (b & E & Hbb); [lia|].
  unfold mbind, M_bind, ASSERT, lift, assert_, load8, ret, bit_at.
  rewrite (proj2 (Z.eqb_neq NULL p)) by congruence. simpl. rewrite E.
  unfold IsBooleanFlagOn. by rewrite land_shiftl_1 by lia.
Qed.

Lemma scan_inner_spec fuel : forall j p n i c v m,
  p <> NULL -> byte_buffer m p n -> 0 <= i -> 0 <= j <= c -> i + c <= 8 * n ->
  i + c <= MAX_DWORD -> (Z.to_nat (c - j) < fuel)%nat ->
  (forall k, 0 <= k < j -> bit_at m p (i + k) = v) ->
  exists r, scan_inner fuel j p i c v m = Ok (r, m) /\ (r = true <-> run_of m p i c v).
Proof.
  induction fuel as [|fuel IH]; intros j p n i c v m Hp Hb Hi Hj Hn Hd Hf Hpre; [lia|].
  simpl. destruct (Z.ltb_spec j c) as [Hlt|Hge].
  - rewrite (u32_small (i + j)), (u32_small (j + 1)) by rlia.
    unfold mbind, M_bind. rewrite (_BitmapGetBit_spec p n) by
      first [done|lia|apply div8_lt; lia].
    case_bool_decide as Hv.
    + exists false. split; [done|]. split; [done|]. intros Hr. exfalso. apply Hv.
      symmetry. apply Hr. lia.
    + apply (IH (j + 1) p n); try done; try lia. intros k Hk.
      destruct (decide (k = j)) as [->|]; [|apply Hpre; lia].
      done.
  - exists true. split; [done|]. split; [|done]. intros _ k Hk. apply Hpre. lia.
Qed.

(** First-fit: the result of the scan over start positions [i..last]. *)
Definition first_run (m : Mem) (p : Z) (start last c : Z) (v : bool) (r : Z) : Prop :=
  (r = MAX_DWORD /\ forall i, start <= i <= last -> ~ run_of m p i c v) \/
  (start <= r <= last /\ run_of m p r c v /\ forall i, start <= i < r -> ~ run_of m p i c v).

Lemma scan_outer_spec fuel : forall i start last p n c v m,
  p <> NULL -> byte_buffer m p n -> 0 <= start <= i -> i <= last + 1 -> 0 < c ->
  last + c <= 8 * n -> last + c <= MAX_DWORD -> (Z.to_nat (last + 1 - i) < fuel)%nat ->
  (forall k, start <= k < i -> ~ run_of m p k c v) ->
  exists r, scan_outer fuel i last p c v m = Ok (r, m) /\ first_run m p start last c v r.
Proof.
  induction fuel as [|fuel IH]; intros i start last p n c v m Hp Hb Hs Hi Hc Hn Hd Hf Hpre; [lia|].
  cbn [scan_outer]. destruct (Z.leb_spec i last) as [Hle|Hgt].
  - destruct (scan_inner_spec (S (Z.to_nat c)) 0 p n i c v m) as (r & E & Hr); try done; try lia.
    unfold mbind, M_bind. rewrite E. destruct r.
    + exists i. split; [done|]. right. split; [lia|]. split; [by apply Hr|done].
    + rewrite u32_small by rlia. apply (IH (i + 1) start last p n); try done; try lia.
      intros k Hk. destruct (decide (k = i)) as [->|]; [|apply Hpre; lia].
      intros Hrun. by apply Hr in Hrun.
  - exists MAX_DWORD. split; [done|]. left. split; [done|]. intros k Hk. apply Hpre. lia.
Qed.

Lemma wf_bitmap_size m bm : wf_bitmap m bm -> BitCount bm <= 8 * BufferSize bm.
Proof.
  intros (_ & _ & -> & _). pose proof (Z.div_mod (BitCount bm + 7) 8).
  pose proof (Z.mod_pos_bound (BitCount bm + 7) 8). lia.
Qed.

(** What every scan returns: the first run of [c] bits with value [v] that lies
    in [start, stop), or MAX_DWORD when there is none. *)
Definition scan_result (m : Mem) (bm : BITMAP) (start stop c : Z) (v : bool) (r : Z) : Prop :=
  (r = MAX_DWORD /\
     forall i, start <= i -> i + c <= stop -> ~ run_of m (BitmapBuffer bm) i c v) \/
  (start <= r /\ r + c <= stop /\ r <> MAX_DWORD /\
     run_of m (BitmapBuffer bm) r c v /\
     forall i, start <= i < r -> ~ run_of m (BitmapBuffer bm) i c v).

Lemma _BitmapScanInternal_spec m bm start stop c v :
  wf_bitmap m bm -> 0 <= start <= stop -> stop <= BitCount bm -> 0 < c <= MAX_DWORD ->
  exists r, _BitmapScanInternal bm start stop c v m = Ok (r, m) /\
            scan_result m bm start stop c v r.
Proof.
  intros Hwf Hs Hstop Hc. pose proof (wf_bitmap_size m bm Hwf) as Hsz.
  destruct Hwf as (Hp & Hbc & HB & Hbuf). unfold _BitmapScanInternal.
  unfold mbind, M_bind, ASSERT, lift, assert_.
  rewrite (proj2 (Z.eqb_neq 0 c)), (proj2 (Z.leb_le start stop)),
    (proj2 (Z.leb_le stop _)) by lia. simpl negb. cbn iota.
  rewrite (u32_small (stop - start)) by rlia.
  destruct (Z.ltb_spec (stop - start) c) as [Hlt|Hge].
  - exists MAX_DWORD. split; [done|]. left. split; [done|]. lia.
  - rewrite (u32_small (stop - c)) by rlia.
    destruct (scan_outer_spec (S (S (Z.to_nat (stop - c - start)))) start start (stop - c)
      (BitmapBuffer bm) (BufferSize bm) c v m) as (r & E & Hr); try done; try lia.
    exists r. split; [done|]. destruct Hr as [[-> Hn]|(Hr & Hrun & Hn)].
    + left. split; [done|]. intros i ??. apply Hn. lia.
    + right. split_and!; try done; rlia.
Qed.

Lemma byte_buffer_mem_of p bs n :
  Forall is_byte bs -> n <= Z.of_nat (length bs) -> byte_buffer (mem_of p bs) p n.
Proof.
  intros Hbs Hn j Hj. rewrite lookup_mem_of, bool_decide_eq_true_2 by lia.
  replace (Z.to_nat (p + j - p)) with (Z.to_nat j) by lia.
  destruct (lookup_lt_is_Some_2 bs (Z.to_nat j)) as [b Hb]; [lia|].
  exists b. split; [done|]. by eapply Forall_lookup_1.
Qed.

Lemma bits_changed_wf m m' bm I c v :
  wf_bitmap m bm -> bits_changed m m' (BitmapBuffer bm) (BufferSize bm) I c v -> wf_bitmap m' bm.
Proof. intros (H1 & H2 & H3 & _) (_ & H4 & _). exact (conj H1 (conj H2 (conj H3 H4))). Qed.

Lemma bit_at_filled m m' p v n i : filled m m' p v n -> 0 <= i -> i / 8 < n ->
  bit_at m' p i = Z.testbit v (i mod 8).
Proof.
  intros Hf Hi Hn. pose proof (Z.div_pos i 8). unfold bit_at.
  by rewrite (Hf _), bool_decide_eq_true_2 by lia.
Qed.

(** * Theorems *)

Lemma BitmapInitEx_spec (m : Mem) (count buffer : Z) (Set_ : bool) :
  0 < count <= MAX_DWORD -> buffer <> NULL ->
  mapped m buffer ((count + 7) / 8) ->
  exists size bm0, BitmapPreinit count = Ok (size, bm0) /\ size = (count + 7) / 8 /\
    wp (BitmapInitEx bm0 buffer Set_) (fun bm m' =>
      wf_bitmap m' bm /\ BitCount bm = count /\ BitmapBuffer bm = buffer /\
      (forall i, 0 <= i < count -> bit m' bm i = Set_) /\
      frame_outside m m' buffer size) m.
Proof.
  intros Hc Hb Hm. unfold BitmapPreinit, BITMAP_ENTRY_BITS.
  rewrite (proj2 (Z.eqb_neq 0 count)) by lia. simpl.
  assert (E : AlignAddressUpper count 8 / 8 * 1 = (count + 7) / 8).
  { change 8 with (2 ^ 3) at 1. rewrite (AlignAddressUpper_pow2 count 3) by rlia. change (2 ^ 3) with 8.
    replace (count + 8 - 1) with (count + 7) by lia.
    pose proof (Z.div_mod (count + 7) 8). rewrite Z.mul_1_r.
    replace (count + 7 - (count + 7) mod 8) with ((count + 7) / 8 * 8) by lia.
    apply Z.div_mul. lia. }
  rewrite E. pose proof (Z.div_pos (count + 7) 8).
  assert (Hlt : (count + 7) / 8 < 2 ^ 32) by (apply Z.div_lt_upper_bound; rlia).
  rewrite u32_small by rlia.
  eexists _, _. split; [reflexivity|]. split; [done|].
  unfold BitmapInitEx. cbn [BufferSize BitCount]. wp_step.
  wp_step; [rewrite (proj2 (Z.eqb_neq NULL buffer)) by congruence; done|].
  wp_step. eapply wp_mono; [apply cl_memset_spec; try done; rlia|].
  simpl. intros _ m' Hf. wp_step. cbn [BitCount BitmapBuffer BufferSize].
  assert (Hbyte : is_byte (if Set_ then MAX_BYTE else 0)) by (destruct Set_; rlia).
  split_and!; [split_and!; cbn; try done; try lia|done..| |].
  - intros j Hj. exists (if Set_ then MAX_BYTE else 0). split; [|done].
    rewrite (Hf (buffer + j)), bool_decide_eq_true_2 by lia. done.
  - intros i Hi. unfold bit. cbn. pose proof (Z.mod_pos_bound i 8).
    rewrite (bit_at_filled m m' _ _ _ i Hf); [|lia|apply div8_lt].
    + destruct Set_; [|apply Z.bits_0]. change MAX_BYTE with (Z.ones 8).
      apply Z.ones_spec_low. lia.
    + pose proof (Z.div_mod (count + 7) 8). pose proof (Z.mod_pos_bound (count + 7) 8). lia.
  - intros a Ha. rewrite (Hf a), bool_decide_eq_false_2 by done. done.
Qed.

(** BitmapPreinit followed by BitmapInitEx yields a well-formed bitmap of
    the requested size whose bits all have the requested value, and writes
    nothing outside the buffer whose size BitmapPreinit returned. *)
Theorem bitmap_preinit_init (m : Mem) (count buffer : Z) (Set_ : bool) :
  0 < count <= MAX_DWORD -> buffer <> NULL ->
  mapped m buffer ((count + 7) / 8) ->
  exists size bm0, BitmapPreinit count = Ok (size, bm0) /\ size = (count + 7) / 8 /\
    wp (BitmapInitEx bm0 buffer Set_) (fun bm m' =>
      wf_bitmap m' bm /\ BitCount bm = count /\ BitmapBuffer bm = buffer /\
      (forall i, 0 <= i < count -> bit m' bm i = Set_) /\
      frame_outside m m' buffer size) m.
Proof. exact (BitmapInitEx_spec m count buffer Set_). Qed.

Lemma bitmap_preinit_init_witness : exists size bm0, BitmapPreinit 12 = Ok (size, bm0) /\
  size = (12 + 7) / 8 /\
  wp (BitmapInitEx bm0 100 true) (fun bm m' =>
      wf_bitmap m' bm /\ BitCount bm = 12 /\ BitmapBuffer bm = 100 /\
      (forall i, 0 <= i < 12 -> bit m' bm i = true) /\
      frame_outside (mem_of 100 [7; 7]) m' 100 size) (mem_of 100 [7; 7]).
Proof.
  apply (bitmap_preinit_init (mem_of 100 [7; 7]) 12 100 true); [rlia|done|].
  apply mapped_mem_of.
Defined.

Lemma BitmapScanFromTo_spec (m : Mem) (bm : BITMAP) (Index Stop ConsecutiveBits : Z) (Set_ : bool) :
  wf_bitmap m bm -> is_dword Index -> is_dword Stop -> is_dword ConsecutiveBits ->
  wp (BitmapScanFromTo bm Index Stop ConsecutiveBits Set_) (fun r m' => m' = m /\
    if bool_decide (ConsecutiveBits = 0 \/ Stop < Index \/ BitCount bm < Stop)
    then r = MAX_DWORD
    else scan_result m bm Index Stop ConsecutiveBits Set_ r) m.
Proof.
  intros Hwf HI HS HC. unfold BitmapScanFromTo.
  destruct (Z.eqb_spec 0 ConsecutiveBits) as [E|E].
  { wp_step. rewrite bool_decide_eq_true_2 by lia. done. }
  destruct (Z.ltb_spec Stop Index); [|destruct (Z.ltb_spec (BitCount bm) Stop)]; cbn [orb].
  1-2: wp_step; rewrite bool_decide_eq_true_2 by lia; done.
  rewrite bool_decide_eq_false_2 by lia.
  destruct (_BitmapScanInternal_spec m bm Index Stop ConsecutiveBits Set_) as (r & Er & Hr);
    try done; try rlia.
  eapply wp_run; [done|]. done.
Qed.

(** A bitmap scan returns, for every input, the lowest index of a run of
    ConsecutiveBits bits with the requested value inside the range, or MAX_DWORD
    exactly when the request is malformed or no such run exists; it leaves the
    memory unchanged. *)
Theorem bitmap_scan_first_fit (m : Mem) (bm : BITMAP) (Index Stop ConsecutiveBits : Z) (Set_ : bool) :
  wf_bitmap m bm -> is_dword Index -> is_dword Stop -> is_dword ConsecutiveBits ->
  wp (BitmapScanFromTo bm Index Stop ConsecutiveBits Set_) (fun r m' => m' = m /\
    if bool_decide (ConsecutiveBits = 0 \/ Stop < Index \/ BitCount bm < Stop)
    then r = MAX_DWORD
    else scan_result m bm Index Stop ConsecutiveBits Set_ r) m.
Proof. exact (BitmapScanFromTo_spec m bm Index Stop ConsecutiveBits Set_). Qed.

Definition demo_bitmap : BITMAP := mkBITMAP 100 2 16.
Definition demo_mem : Mem := mem_of 100 [0xFF; 0x0F].

Lemma demo_wf : wf_bitmap demo_mem demo_bitmap.
Proof.
  split_and!; try done. apply byte_buffer_mem_of; [|simpl; lia].
  repeat constructor; rlia.
Qed.

Lemma bitmap_scan_first_fit_witness :
  BitmapScanFromTo demo_bitmap 0 16 3 false demo_mem = Ok (12, demo_mem) /\
  wp (BitmapScanFromTo demo_bitmap 0 16 3 false) (fun r m' => m' = demo_mem /\
    if bool_decide (3 = 0 \/ 16 < 0 \/ BitCount demo_bitmap < 16)
    then r = MAX_DWORD else scan_result demo_mem demo_bitmap 0 16 3 false r) demo_mem.
Proof.
  split; [vm_compute; reflexivity|].
  apply (bitmap_scan_first_fit demo_mem demo_bitmap 0 16 3 false); [apply demo_wf|rlia..].
Defined.

Lemma BitmapScanFromToAndFlip_spec (m : Mem) (bm : BITMAP) (Index Stop ConsecutiveBits : Z) (Set_ : bool) :
  wf_bitmap m bm -> is_dword Index -> is_dword Stop -> is_dword ConsecutiveBits ->
  wp (BitmapScanFromToAndFlip bm Index Stop ConsecutiveBits Set_) (fun r m' =>
    if bool_decide (ConsecutiveBits = 0 \/ Stop < Index \/ BitCount bm < Stop)
    then r = MAX_DWORD /\ m' = m
    else scan_result m bm Index Stop ConsecutiveBits Set_ r /\ wf_bitmap m' bm /\
         (if bool_decide (r = MAX_DWORD) then m' = m
          else bits_changed m m' (BitmapBuffer bm) (BufferSize bm) r ConsecutiveBits (negb Set_))) m.
Proof.
  intros Hwf HI HS HC. unfold BitmapScanFromToAndFlip.
  destruct (Z.eqb_spec 0 ConsecutiveBits) as [E|E].
  { wp_step. rewrite bool_decide_eq_true_2 by lia. done. }
  destruct (Z.ltb_spec Stop Index); [|destruct (Z.ltb_spec (BitCount bm) Stop)]; cbn [orb].
  1-2: wp_step; rewrite bool_decide_eq_true_2 by lia; done.
  destruct (_BitmapScanInternal_spec m bm Index Stop ConsecutiveBits Set_) as (r & Er & Hr);
    try done; try rlia.
  rewrite bool_decide_eq_false_2 by lia.
  eapply wp_run_bind; [done|]. destruct (Z.eqb_spec MAX_DWORD r) as [<-|Hne].
  { wp_step. by split_and!. }
  pose proof (wf_bitmap_size m bm Hwf). pose proof Hwf as (Hp & Hbc & _ & Hbuf).
  pose proof Hr as [[? _]|(? & ? & ? & ?)]; [congruence|].
  wp_step. eapply wp_mono; [apply _BitmapChangeBits_spec; try done; rlia|].
  simpl. intros _ m' Hm'. wp_step. split; [done|].
  split; [by eapply bits_changed_wf|]. rewrite bool_decide_eq_false_2 by congruence. done.
Qed.

(** C30: BitmapScanFromToAndFlip either finds no run and changes nothing, or
    returns the first fitting run and flips exactly its bits; the bitmap stays
    well formed and the memory outside its buffer is untouched. *)
Theorem bitmap_scan_and_flip (m : Mem) (bm : BITMAP) (Index Stop ConsecutiveBits : Z) (Set_ : bool) :
  wf_bitmap m bm -> is_dword Index -> is_dword Stop -> is_dword ConsecutiveBits ->
  wp (BitmapScanFromToAndFlip bm Index Stop ConsecutiveBits Set_) (fun r m' =>
    if bool_decide (ConsecutiveBits = 0 \/ Stop < Index \/ BitCount bm < Stop)
    then r = MAX_DWORD /\ m' = m
    else scan_result m bm Index Stop ConsecutiveBits Set_ r /\ wf_bitmap m' bm /\
         (if bool_decide (r = MAX_DWORD) then m' = m
          else bits_changed m m' (BitmapBuffer bm) (BufferSize bm) r ConsecutiveBits (negb Set_))) m.
Proof. exact (BitmapScanFromToAndFlip_spec m bm Index Stop ConsecutiveBits Set_). Qed.

Lemma bitmap_scan_and_flip_witness :
  BitmapScanFromToAndFlip demo_bitmap 0 16 3 false demo_mem = Ok (12, mem_of 100 [0xFF; 0x7F]) /\
  wp (BitmapScanFromToAndFlip demo_bitmap 0 16 3 false) (fun r m' =>
    if bool_decide (3 = 0 \/ 16 < 0 \/ BitCount demo_bitmap < 16)
    then r = MAX_DWORD /\ m' = demo_mem
    else scan_result demo_mem demo_bitmap 0 16 3 false r /\ wf_bitmap m' demo_bitmap /\
         (if bool_decide (r = MAX_DWORD) then m' = demo_mem
          else bits_changed demo_mem m' 100 2 r 3 true)) demo_mem.
Proof.
  split; [vm_compute; reflexivity|].
  apply (bitmap_scan_and_flip demo_mem demo_bitmap 0 16 3 false); [apply demo_wf|rlia..].
Defined.

(** The in-range behaviour of BitmapSetBitsValue, for the components that use it. *)
Lemma BitmapSetBitsValue_spec m bm Index Count v :
  wf_bitmap m bm -> 0 <= Index -> 0 <= Count -> Index < BitCount bm ->
  Index + Count <= BitCount bm ->
  wp (BitmapSetBitsValue bm Index Count v) (fun _ m' =>
    bits_changed m m' (BitmapBuffer bm) (BufferSize bm) Index Count v) m.
Proof.
  intros Hwf HI HC Hlt Hle. pose proof (wf_bitmap_size m bm Hwf).
  destruct Hwf as (Hp & Hbc & _ & Hbuf). unfold BitmapSetBitsValue.
  wp_step. wp_step; [apply Z.ltb_lt; lia|]. wp_step. wp_step.
  { apply Z.leb_le. rewrite u32_small by rlia. lia. }
  apply _BitmapChangeBits_spec; try done; rlia.
Qed.

Lemma changeBits_loop_fault fuel : forall i p n Index Count v m,
  p <> NULL -> byte_buffer m p n -> m !! (p + n) = None -> 0 <= n ->
  0 <= i -> 0 <= Index -> Index + i <= 8 * n < Index + Count -> Index + Count <= MAX_DWORD ->
  (Z.to_nat (8 * n - Index - i) < fuel)%nat ->
  changeBits_loop fuel i p Index v Count m = Err MemFault.
Proof.
  induction fuel as [|fuel IH]; intros i p n Index Count v m Hp Hb Hnone Hn Hi HI Hr Hd Hf; [lia|].
  simpl. rewrite (proj2 (Z.ltb_lt i Count)) by lia.
  rewrite (u32_small (Index + i)), (u32_small (i + 1)) by rlia.
  destruct (decide (Index + i = 8 * n)) as [E|E].
  - unfold _BitmapChangeBit, mbind, M_bind, ASSERT, lift, assert_, load8, BITMAP_ENTRY_BITS.
    rewrite (proj2 (Z.eqb_neq NULL p)) by congruence. simpl.
    replace ((Index + i) / 8) with n by (apply Z.div_unique_exact; lia). by rewrite Hnone.
  - pose proof (_BitmapChangeBit_spec p n (Index + i) v m Hp Hb ltac:(lia)
      ltac:(apply div8_lt; lia)) as H1.
    apply wp_Ok in H1 as (u & m1 & E1 & _ & Hb1 & Hf1).
    unfold mbind, M_bind. rewrite E1. apply (IH (i + 1) p n); try done; try lia.
    rewrite Hf1 by lia. done.
Qed.

(** The range check of BitmapSetBitsValue subtracts at DWORD width, so a
    Count larger than the bitmap passes it for every Index, and the loop then
    writes beyond the buffer. *)
Theorem bitmap_set_bits_overrun (m : Mem) (bm : BITMAP) (Index Count : Z) (v : bool) :
  wf_bitmap m bm -> 0 <= Index < BitCount bm ->
  8 * BufferSize bm < Count -> Index + Count <= MAX_DWORD ->
  m !! (BitmapBuffer bm + BufferSize bm) = None ->
  BitmapSetBitsValue bm Index Count v m = Err MemFault.
Proof.
  intros Hwf HI HC Hd Hnone. pose proof (wf_bitmap_size m bm Hwf) as Hsz.
  destruct Hwf as (Hp & Hbc & HB & Hbuf). unfold BitmapSetBitsValue.
  unfold mbind, M_bind, ASSERT, lift, assert_.
  rewrite (proj2 (Z.ltb_lt Index _)) by lia.
  assert (Ew : u32 (BitCount bm - Count) = BitCount bm - Count + 2 ^ 32).
  { unfold u32. symmetry. apply (Z.mod_unique_pos _ _ (-1)); rlia. }
  rewrite Ew, (proj2 (Z.leb_le Index _)) by rlia.
  unfold _BitmapChangeBits. eapply changeBits_loop_fault; try done; rlia.
Qed.

Lemma bitmap_set_bits_overrun_witness :
  BitmapSetBitsValue demo_bitmap 3 20 true demo_mem = Err MemFault.
Proof.
  apply (bitmap_set_bits_overrun demo_mem demo_bitmap 3 20 true);
    [apply demo_wf|simpl; lia|simpl; lia|rlia|vm_compute; reflexivity].
Defined.
