(* ===== verification/DList.v ===== *)
(** CommonLib/src/list.c: intrusive circular doubly linked lists over a store
    of LIST_ENTRY cells, in the DEBUG configuration (the _ValidateListEntry
    assertions are part of the operations). *)
From stdpp Require Import sorting.
From S2P Require Import Prelude IntUtils ClMemory.

Record LIST_ENTRY := mkLIST_ENTRY { Flink : Z; Blink : Z }.
Abbreviation Links := (gmap Z LIST_ENTRY).

(** A state that contains a store of list cells.  The list functions that call
    back into their client are written against this interface. *)
Class HasLinks (S : Type) := {
  links : S -> Links;
  set_links : Links -> S -> S;
  links_set : forall l s, links (set_links l s) = l;
  set_links_set : forall l l' s, set_links l (set_links l' s) = set_links l s;
  set_links_get : forall s, set_links (links s) s = s
}.

#[global, refine] Instance HasLinks_Links : HasLinks Links :=
  {| links := fun l => l; set_links := fun l _ => l |}.
Proof. all: done. Defined.

Definition on_links {S A} `{HasLinks S} (m : M Links A) : M S A := zoom links set_links m.

(** * Field accesses *)
Definition get_Flink (p : Z) : M Links Z := fun m =>
  match m !! p with Some e => Ok (Flink e, m) | None => Err MemFault end.
Definition get_Blink (p : Z) : M Links Z := fun m =>
  match m !! p with Some e => Ok (Blink e, m) | None => Err MemFault end.
Definition set_Flink (p v : Z) : M Links unit := fun m =>
  match m !! p with
  | Some e => Ok (tt, <[p := mkLIST_ENTRY v (Blink e)]> m) | None => Err MemFault end.
Definition set_Blink (p v : Z) : M Links unit := fun m =>
  match m !! p with
  | Some e => Ok (tt, <[p := mkLIST_ENTRY (Flink e) v]> m) | None => Err MemFault end.

(** * Operations *)
Definition _ValidateListEntry (Entry : Z) : M Links bool :=
  f ← get_Flink Entry;
  fb ← get_Blink f;
  if negb (fb =? Entry) then ret false else
  b ← get_Blink Entry;
  bf ← get_Flink b;
  if negb (bf =? Entry) then ret false else ret true.

Definition validate (Entry : Z) : M Links unit :=
  ok ← _ValidateListEntry Entry; ASSERT ok.

Definition InitializeListHead (ListHead : Z) : M Links unit :=
  _ ← set_Blink ListHead ListHead;
  set_Flink ListHead ListHead.

Definition IsListEmpty (ListHead : Z) : M Links bool :=
  _ ← validate ListHead;
  f ← get_Flink ListHead;
  ret (f =? ListHead).

Definition RemoveEntryList (Entry : Z) : M Links bool :=
  _ ← validate Entry;
  flink ← get_Flink Entry;
  blink ← get_Blink Entry;
  _ ← set_Flink blink flink;
  _ ← set_Blink flink blink;
  ret (flink =? blink).

Definition RemoveHeadList (ListHead : Z) : M Links Z :=
  _ ← validate ListHead;
  Entry ← get_Flink ListHead;
  flink ← get_Flink Entry;
  _ ← set_Flink ListHead flink;
  _ ← set_Blink flink ListHead;
  ret Entry.

Definition RemoveTailList (ListHead : Z) : M Links Z :=
  _ ← validate ListHead;
  Entry ← get_Blink ListHead;
  blink ← get_Blink Entry;
  _ ← set_Blink ListHead blink;
  _ ← set_Flink blink ListHead;
  ret Entry.

Definition InsertTailList (ListHead Entry : Z) : M Links unit :=
  _ ← validate ListHead;
  blink ← get_Blink ListHead;
  _ ← set_Flink Entry ListHead;
  _ ← set_Blink Entry blink;
  _ ← set_Flink blink Entry;
  set_Blink ListHead Entry.

Definition InsertHeadList (ListHead Entry : Z) : M Links unit :=
  _ ← validate ListHead;
  flink ← get_Flink ListHead;
  _ ← set_Flink Entry flink;
  _ ← set_Blink Entry ListHead;
  _ ← set_Blink flink Entry;
  set_Flink ListHead Entry.

Section Callbacks.
Context {S : Type} `{HasLinks S}.
Implicit Types CompareFunction : Z -> Z -> M S Z.

(** Enough iterations for any list of the store. *)
Definition list_fuel : M S nat := gets (fun s => Datatypes.S (Datatypes.S (size (links s)))).

Fixpoint ordered_loop (fuel : nat) (pCurrentEntry ListHead Entry : Z) CompareFunction : M S Z :=
  match fuel with
  | O => fail NoFuel
  | Datatypes.S fuel' =>
      if pCurrentEntry =? ListHead then ret pCurrentEntry else
      c ← CompareFunction Entry pCurrentEntry;
      if c <? 0 then ret pCurrentEntry else
      next ← on_links (get_Flink pCurrentEntry);
      ordered_loop fuel' next ListHead Entry CompareFunction
  end.
Definition InsertOrderedList (ListHead Entry : Z) CompareFunction : M S unit :=
  _ ← on_links (validate ListHead);
  first ← on_links (get_Flink ListHead);
  fuel ← list_fuel;
  pCurrentEntry ← ordered_loop fuel first ListHead Entry CompareFunction;
  on_links (InsertTailList pCurrentEntry Entry).

Fixpoint foreach_loop (fuel : nat) (pCur ListHead : Z) (Function : Z -> M S Z)
    (AllMustSucceed : bool) (status : Z) : M S Z :=
  match fuel with
  | O => fail NoFuel
  | Datatypes.S fuel' =>
      if pCur =? ListHead then ret status else
      _ ← ASSERT (negb (NULL =? pCur));
      status ← Function pCur;
      if AllMustSucceed && negb (SUCCEEDED status) then ret status else
      next ← on_links (get_Flink pCur);
      foreach_loop fuel' next ListHead Function AllMustSucceed status
  end.
(** [Function] is [None] when the pointer is NULL. *)
Definition ForEachElementExecute (ListHead : Z) (Function : option (Z -> M S Z))
    (AllMustSucceed : bool) : M S Z :=
  if ListHead =? NULL then ret STATUS_INVALID_PARAMETER1 else
  match Function with
  | None => ret STATUS_INVALID_PARAMETER2
  | Some f =>
      _ ← on_links (validate ListHead);
      first ← on_links (get_Flink ListHead);
      fuel ← list_fuel;
      foreach_loop fuel first ListHead f AllMustSucceed STATUS_SUCCESS
  end.

Fixpoint search_loop (fuel : nat) (pCur ListHead Elem : Z) (IsListOrdered : bool)
    CompareFunction : M S Z :=
  match fuel with
  | O => fail NoFuel
  | Datatypes.S fuel' =>
      if pCur =? ListHead then ret NULL else
      cmpResult ← CompareFunction pCur Elem;
      if cmpResult =? 0 then ret pCur else
      if IsListOrdered && (0 <? cmpResult) then ret NULL else
      next ← on_links (get_Flink pCur);
      search_loop fuel' next ListHead Elem IsListOrdered CompareFunction
  end.
Definition ListSearchForElement (ListHead ElementToSearchFor : Z) (IsListOrdered : bool)
    (CompareFunction : option (Z -> Z -> M S Z)) : M S Z :=
  if ListHead =? NULL then ret NULL else
  if ElementToSearchFor =? NULL then ret NULL else
  match CompareFunction with
  | None => ret NULL
  | Some f =>
      _ ← on_links (validate ListHead);
      first ← on_links (get_Flink ListHead);
      fuel ← list_fuel;
      search_loop fuel first ListHead ElementToSearchFor IsListOrdered f
  end.
End Callbacks.

Fixpoint elem_loop (fuel : nat) (pCur ListHead index ListIndex : Z) : M Links Z :=
  match fuel with
  | O => fail NoFuel
  | S fuel' =>
      if pCur =? ListHead then ret NULL else
      _ ← ASSERT (negb (NULL =? pCur));
      if index =? ListIndex then ret pCur else
      next ← get_Flink pCur;
      elem_loop fuel' next ListHead (u32 (index + 1)) ListIndex
  end.
Definition GetListElemByIndex (ListHead ListIndex : Z) : M Links Z :=
  if ListHead =? NULL then ret NULL else
  _ ← validate ListHead;
  first ← get_Flink ListHead;
  fuel ← list_fuel;
  elem_loop fuel first ListHead 0 ListIndex.

Definition INVALID_LIST_SIZE : Z := MAX_DWORD.

Fixpoint size_loop (fuel : nat) (pCur ListHead count : Z) : M Links Z :=
  match fuel with
  | O => fail NoFuel
  | S fuel' =>
      if pCur =? ListHead then ret count else
      _ ← ASSERT (negb (NULL =? pCur));
      next ← get_Flink pCur;
      size_loop fuel' next ListHead (u32 (count + 1))
  end.
Definition ListSize (ListHead : Z) : M Links Z :=
  if ListHead =? NULL then ret INVALID_LIST_SIZE else
  _ ← validate ListHead;
  first ← get_Flink ListHead;
  fuel ← list_fuel;
  size_loop fuel first ListHead 0.

Record LIST_ITERATOR := mkLIST_ITERATOR { it_ListHead : Z; it_CurrentEntry : Z }.

Definition ListIteratorInit (List : Z) : M Links LIST_ITERATOR :=
  _ ← ASSERT (negb (List =? NULL));
  f ← get_Flink List;
  ret (mkLIST_ITERATOR List f).

Definition ListIteratorNext (it : LIST_ITERATOR) : M Links (Z * LIST_ITERATOR) :=
  if it_CurrentEntry it =? it_ListHead it then ret (NULL, it) else
  f ← get_Flink (it_CurrentEntry it);
  ret (it_CurrentEntry it, mkLIST_ITERATOR (it_ListHead it) f).

(** * The list a head represents *)
Definition flink (m : Links) (a : Z) : option Z := Flink <$> m !! a.
Definition blink (m : Links) (a : Z) : option Z := Blink <$> m !! a.
Definition linked (m : Links) (a b : Z) : Prop := flink m a = Some b /\ blink m b = Some a.

Fixpoint chain (m : Links) (l : list Z) : Prop :=
  match l with
  | a :: ((b :: _) as l') => linked m a b /\ chain m l'
  | _ => True
  end.

(** [dlist m h xs]: the head [h] holds the entries [xs], in order. *)
Definition dlist (m : Links) (h : Z) (xs : list Z) : Prop :=
  NoDup (h :: xs) /\ chain m (h :: xs ++ [h]).

(** Cells outside [f] keep their contents, and no cell appears or disappears. *)
Definition links_frame (m m' : Links) (f : list Z) : Prop :=
  (forall a, a ∉ f -> m' !! a = m !! a) /\ (forall a, is_Some (m' !! a) <-> is_Some (m !! a)).

(** * Lemmas on chains *)

Lemma wp_get_Flink p v (Q : Z -> Links -> Prop) m :
  flink m p = Some v -> Q v m -> wp (get_Flink p) Q m.
Proof. unfold wp, get_Flink, flink. destruct (m !! p); naive_solver. Qed.

Lemma wp_get_Blink p v (Q : Z -> Links -> Prop) m :
  blink m p = Some v -> Q v m -> wp (get_Blink p) Q m.
Proof. unfold wp, get_Blink, blink. destruct (m !! p); naive_solver. Qed.

Lemma get_Flink_run m p v : flink m p = Some v -> get_Flink p m = Ok (v, m).
Proof. unfold get_Flink, flink. destruct (m !! p); naive_solver. Qed.

(** The effect of one field write. *)
Definition upd_flink (m m' : Links) (p v : Z) : Prop :=
  (forall x, flink m' x = if bool_decide (x = p) then Some v else flink m x) /\
  (forall x, blink m' x = blink m x) /\ links_frame m m' [p].
Definition upd_blink (m m' : Links) (p v : Z) : Prop :=
  (forall x, flink m' x = flink m x) /\
  (forall x, blink m' x = if bool_decide (x = p) then Some v else blink m x) /\
  links_frame m m' [p].

Lemma links_frame_insert m p e e' : m !! p = Some e -> links_frame m (<[p := e']> m) [p].
Proof.
  intros Hp. split; intros a.
  - intros Ha%not_elem_of_cons. apply lookup_insert_ne. naive_solver.
  - rewrite lookup_insert. case_decide; naive_solver.
Qed.

Lemma wp_set_Flink p v (Q : unit -> Links -> Prop) m :
  is_Some (m !! p) -> (forall m', upd_flink m m' p v -> Q tt m') -> wp (set_Flink p v) Q m.
Proof.
  intros [e He] H. unfold wp, set_Flink. rewrite He. apply H.
  split_and!; [| |by eapply links_frame_insert]; intros x; unfold flink, blink;
    rewrite lookup_insert; case_decide; subst; repeat case_bool_decide;
    try congruence; by rewrite ?He.
Qed.

Lemma wp_set_Blink p v (Q : unit -> Links -> Prop) m :
  is_Some (m !! p) -> (forall m', upd_blink m m' p v -> Q tt m') -> wp (set_Blink p v) Q m.
Proof.
  intros [e He] H. unfold wp, set_Blink. rewrite He. apply H.
  split_and!; [| |by eapply links_frame_insert]; intros x; unfold flink, blink;
    rewrite lookup_insert; case_decide; subst; repeat case_bool_decide;
    try congruence; by rewrite ?He.
Qed.

Lemma links_frame_mono m m' f g : links_frame m m' f -> f ⊆ g -> links_frame m m' g.
Proof. intros [H1 H2] Hfg. split; [|done]. intros a Ha. apply H1. set_solver. Qed.

Lemma links_frame_trans m m1 m2 f : links_frame m m1 f -> links_frame m1 m2 f -> links_frame m m2 f.
Proof.
  intros [H1 H2] [H3 H4]. split; intros a; [intros Ha; by rewrite H3, H1|].
  by rewrite H4, H2.
Qed.

Lemma links_frame_refl m f : links_frame m m f.
Proof. done. Qed.

Lemma links_frame_is_Some m m' f a : links_frame m m' f -> is_Some (m !! a) -> is_Some (m' !! a).
Proof. intros [_ H]. by apply H. Qed.

Lemma linked_is_Some m a b : linked m a b -> is_Some (m !! a) /\ is_Some (m !! b).
Proof. unfold linked, flink, blink. destruct (m !! a), (m !! b); naive_solver. Qed.

Lemma chain_app m l x r : chain m (l ++ x :: r) <-> chain m (l ++ [x]) /\ chain m (x :: r).
Proof.
  induction l as [|a l IH]; [simpl; tauto|].
  destruct l as [|b l]; simpl in *; [tauto|]. rewrite IH. tauto.
Qed.

Lemma chain_snoc m l x y : chain m (l ++ [x; y]) <-> chain m (l ++ [x]) /\ linked m x y.
Proof. rewrite chain_app. simpl. tauto. Qed.

Lemma chain_frame m m' l :
  chain m l ->
  (forall i x, l !! i = Some x -> (S i < length l)%nat -> flink m' x = flink m x) ->
  (forall i x, l !! S i = Some x -> blink m' x = blink m x) -> chain m' l.
Proof.
  induction l as [|a [|b l] IH]; intros Hc Hf Hb; [done|done|].
  destruct Hc as [[H1 H2] Hc]. split.
  - split; [rewrite (Hf 0%nat a); simpl; try done; lia|by rewrite (Hb 0%nat b)].
  - apply IH; [done| |].
    + intros i x Hx Hi. apply (Hf (S i)); [done|simpl in *; lia].
    + intros i x Hx. by apply (Hb (S i)).
Qed.

Definition lst (h : Z) (xs : list Z) : Z := List.last xs h.
Definition fst_ (h : Z) (ys : list Z) : Z := List.hd h ys.

Lemma lst_snoc h xs a : lst h (xs ++ [a]) = a.
Proof. apply List.last_last. Qed.

(** The list around a position: the chain up to it, the link, the chain after. *)
Lemma chain_split m h xs ys :
  chain m (h :: (xs ++ ys) ++ [h]) <->
  chain m (h :: xs) /\ linked m (lst h xs) (fst_ h ys) /\ chain m (ys ++ [h]).
Proof.
  assert (E : exists r, ys ++ [h] = fst_ h ys :: r) by (destruct ys; simpl; eauto).
  destruct E as [r Er]. rewrite <- app_assoc, Er.
  destruct xs as [|a xs' _] using rev_ind; [simpl; tauto|].
  rewrite lst_snoc, <- app_assoc.
  change (h :: xs' ++ [a] ++ fst_ h ys :: r) with ((h :: xs') ++ a :: fst_ h ys :: r).
  rewrite chain_app. change (h :: xs' ++ [a]) with ((h :: xs') ++ [a]). simpl. tauto.
Qed.

Lemma lst_elem h xs : lst h xs ∈ h :: xs.
Proof.
  destruct xs as [|a xs _] using rev_ind; [set_solver|].
  rewrite lst_snoc. set_solver.
Qed.

Lemma fst_elem h ys : fst_ h ys ∈ h :: ys.
Proof. destruct ys; set_solver. Qed.

Lemma dlist_split m h xs ys : dlist m h (xs ++ ys) ->
  chain m (h :: xs) /\ linked m (lst h xs) (fst_ h ys) /\ chain m (ys ++ [h]).
Proof. intros [_ H]. by apply chain_split. Qed.

Lemma linked_inj_l m a b c : linked m a b -> linked m a c -> b = c.
Proof. unfold linked. naive_solver. Qed.
Lemma linked_inj_r m a b c : linked m a c -> linked m b c -> a = b.
Proof. unfold linked. naive_solver. Qed.

(** Every entry and the head are cells of the store. *)
Lemma dlist_is_Some m h xs x : dlist m h xs -> x ∈ h :: xs -> is_Some (m !! x).
Proof.
  intros H [i Hi]%list_elem_of_lookup. destruct i as [|i].
  - injection Hi as <-. pose proof (dlist_split m h [] xs H) as (_ & Hl & _).
    by apply linked_is_Some in Hl as [? _].
  - simpl in Hi. apply list_elem_of_split_length in Hi as (l1 & l2 & -> & _).
    pose proof (dlist_split m h l1 (x :: l2) H) as (_ & Hl & _).
    by apply linked_is_Some in Hl as [_ ?].
Qed.

Lemma NoDup_lookup_last (h a : Z) xs i :
  NoDup (h :: xs) -> (h :: xs) !! i = Some (lst h xs) -> i = length xs.
Proof.
  intros Hnd Hi. eapply NoDup_lookup; [done|done|].
  destruct xs as [|b xs _] using rev_ind; [done|].
  rewrite lst_snoc, app_comm_cons, lookup_app_r by (rewrite length_app; simpl; lia).
  rewrite length_app. simpl.
  replace (length xs + 1 - S (length xs))%nat with 0%nat by lia. done.
Qed.

Lemma dlist_parts (h : Z) xs ys : NoDup (h :: xs ++ ys) ->
  NoDup (h :: xs) /\ NoDup (h :: ys) /\ (fst_ h ys ∉ xs) /\ (lst h xs ∉ ys).
Proof.
  intros Hnd. rewrite NoDup_cons, NoDup_app in Hnd.
  destruct Hnd as (Hh & N1 & Hd & N2). rewrite !NoDup_cons.
  rewrite elem_of_app in Hh. split_and!; try done; try tauto.
  - intros Hin. pose proof (fst_elem h ys) as [E|E]%elem_of_cons; [|by apply (Hd _ Hin)].
    rewrite E in Hin. tauto.
  - intros Hin. pose proof (lst_elem h xs) as [E|E]%elem_of_cons; [|by apply (Hd _ E)].
    rewrite E in Hin. tauto.
Qed.

(** Splicing a new entry [e] between [a] and [b]. *)
Definition spliced (m m' : Links) (a e b : Z) : Prop :=
  (forall x, flink m' x = if bool_decide (x = e) then Some b
                          else if bool_decide (x = a) then Some e else flink m x) /\
  (forall x, blink m' x = if bool_decide (x = e) then Some a
                          else if bool_decide (x = b) then Some e else blink m x).

Lemma NoDup_insert (h e : Z) xs ys :
  NoDup (h :: xs ++ ys) -> e ∉ h :: xs ++ ys -> NoDup (h :: xs ++ e :: ys).
Proof.
  rewrite !NoDup_cons, !NoDup_app, !NoDup_cons. set_solver.
Qed.

Lemma chain_prefix_frame m m' h xs b e :
  NoDup (h :: xs) -> e ∉ h :: xs -> b ∉ xs -> chain m (h :: xs) ->
  spliced m m' (lst h xs) e b -> chain m' (h :: xs).
Proof.
  intros Hnd He Hb Hc [Sf Sb]. eapply chain_frame; [done| |]; intros i x Hx.
  - intros Hi. rewrite Sf. repeat case_bool_decide; subst; try done.
    + exfalso. apply He. by eapply list_elem_of_lookup_2.
    + apply NoDup_lookup_last in Hx; [|exact h|done]. simpl in Hi. lia.
  - simpl in Hx. apply list_elem_of_lookup_2 in Hx. rewrite Sb.
    repeat case_bool_decide; subst; try done; set_solver.
Qed.

Lemma chain_suffix_frame m m' h ys a e :
  NoDup (h :: ys) -> e ∉ h :: ys -> a ∉ ys -> chain m (ys ++ [h]) ->
  spliced m m' a e (fst_ h ys) -> chain m' (ys ++ [h]).
Proof.
  intros Hnd He Ha Hc [Sf Sb]. eapply chain_frame; [done| |]; intros i x Hx.
  - intros Hi. rewrite length_app in Hi. simpl in Hi.
    rewrite lookup_app_l in Hx by lia. apply list_elem_of_lookup_2 in Hx.
    rewrite Sf. repeat case_bool_decide; subst; try done; set_solver.
  - rewrite Sb. repeat case_bool_decide; subst; try done.
    + exfalso. apply list_elem_of_lookup_2 in Hx. set_solver.
    + destruct ys as [|y ys]; [done|]. simpl in Hx. apply list_elem_of_lookup_2 in Hx.
      apply NoDup_cons in Hnd as [? [??]%NoDup_cons]. set_solver.
Qed.

Lemma dlist_spliced m m' h xs ys e :
  dlist m h (xs ++ ys) -> e ∉ h :: xs ++ ys ->
  spliced m m' (lst h xs) e (fst_ h ys) -> dlist m' h (xs ++ e :: ys).
Proof.
  intros Hd He Hs. pose proof (dlist_split m h xs ys Hd) as (C1 & L & C2).
  destruct Hd as [Hnd _].
  destruct (dlist_parts h xs ys Hnd) as (N1 & N2 & N3 & N4).
  pose proof (lst_elem h xs) as La. pose proof (fst_elem h ys) as Fb.
  split; [by apply NoDup_insert|]. apply chain_split. split_and!.
  - apply (chain_prefix_frame m m' h xs (fst_ h ys) e); [done|set_solver|done|done|done].
  - destruct Hs as [Sf Sb]. split; simpl.
    + rewrite Sf. rewrite bool_decide_eq_false_2 by set_solver.
      by rewrite bool_decide_eq_true_2.
    + rewrite Sb. by rewrite bool_decide_eq_true_2.
  - change ((e :: ys) ++ [h]) with (e :: (ys ++ [h])).
    assert (Hc2 : chain m' (ys ++ [h])).
    { apply (chain_suffix_frame m m' h ys (lst h xs) e); [done|set_solver|done|done|done]. }
    destruct Hs as [Sf Sb].
    assert (El : linked m' e (fst_ h ys)).
    { split; [rewrite Sf; by rewrite bool_decide_eq_true_2|].
      rewrite Sb. rewrite bool_decide_eq_false_2 by set_solver.
      by rewrite bool_decide_eq_true_2. }
    destruct ys; simpl in *; tauto.
Qed.

(** Cutting an entry [e] out. *)
Definition unspliced (m m' : Links) (a b : Z) : Prop :=
  (forall x, flink m' x = if bool_decide (x = a) then Some b else flink m x) /\
  (forall x, blink m' x = if bool_decide (x = b) then Some a else blink m x).

Lemma dlist_unspliced m m' h xs ys e :
  dlist m h (xs ++ e :: ys) -> unspliced m m' (lst h xs) (fst_ h ys) ->
  dlist m' h (xs ++ ys).
Proof.
  intros Hd [Sf Sb]. pose proof (dlist_split m h xs (e :: ys) Hd) as (C1 & L & C2).
  destruct Hd as [Hnd _].
  assert (Hnd' : NoDup (h :: xs ++ ys)).
  { rewrite NoDup_cons, NoDup_app, NoDup_cons in Hnd. rewrite NoDup_cons, NoDup_app. set_solver. }
  destruct (dlist_parts h xs ys Hnd') as (N1 & N2 & N3 & N4).
  assert (C3 : chain m (ys ++ [h])) by (destruct ys; simpl in *; tauto).
  split; [done|]. apply chain_split. split_and!.
  - eapply chain_frame; [exact C1| |]; intros i x Hx.
    + intros Hi. rewrite Sf. case_bool_decide; [subst|done].
      apply NoDup_lookup_last in Hx; [|exact h|done]. simpl in Hi. lia.
    + simpl in Hx. apply list_elem_of_lookup_2 in Hx. rewrite Sb.
      case_bool_decide; [subst|done]. done.
  - split; [rewrite Sf|rewrite Sb]; by rewrite bool_decide_eq_true_2.
  - eapply chain_frame; [exact C3| |]; intros i x Hx.
    + intros Hi. rewrite length_app in Hi. simpl in Hi.
      rewrite lookup_app_l in Hx by lia. apply list_elem_of_lookup_2 in Hx.
      rewrite Sf. case_bool_decide; [subst|done]. done.
    + rewrite Sb. case_bool_decide; [subst|done].
      destruct ys as [|y ys]; [done|]. simpl in Hx. apply list_elem_of_lookup_2 in Hx.
      apply NoDup_cons in N2 as [? [??]%NoDup_cons]. set_solver.
Qed.

(** * Specifications of the operations *)

Lemma dlist_nbrs m h xs x : dlist m h xs -> x ∈ h :: xs ->
  exists n p, linked m x n /\ linked m p x.
Proof.
  intros Hd [->|Hx]%elem_of_cons.
  - pose proof (dlist_split m h [] xs Hd) as (_ & L & _).
    assert (Hd' : dlist m h (xs ++ [])) by (by rewrite app_nil_r).
    pose proof (dlist_split m h xs [] Hd') as (_ & L' & _). simpl in *. eauto.
  - apply list_elem_of_split in Hx as (l1 & l2 & ->).
    pose proof (dlist_split m h l1 (x :: l2) Hd) as (_ & L & C). simpl in L.
    assert (L' : linked m x (fst_ h l2)) by (destruct l2; simpl in *; tauto). eauto.
Qed.

Lemma validate_run m h xs x : dlist m h xs -> x ∈ h :: xs -> validate x m = Ok (tt, m).
Proof.
  intros Hd Hx. destruct (dlist_nbrs m h xs x Hd Hx) as (n & p & [F1 B1] & [F2 B2]).
  unfold validate, _ValidateListEntry, get_Flink, get_Blink, mbind, M_bind, ASSERT, lift,
    assert_, ret. unfold flink, blink in *.
  destruct (m !! x) as [e|] eqn:E; [|done]. simpl in F1, B2. injection F1 as F1. injection B2 as B2.
  rewrite F1. destruct (m !! n) as [e2|] eqn:E2; [|done]. simpl in B1. injection B1 as B1.
  rewrite B1, Z.eqb_refl. simpl. rewrite E, B2.
  destruct (m !! p) as [e3|] eqn:E3; [|done]. simpl in F2. injection F2 as F2.
  by rewrite F2, Z.eqb_refl.
Qed.

Ltac bool_cases :=
  repeat match goal with
  | |- context [bool_decide ?P] => case_bool_decide; simplify_eq
  end.

Lemma InsertTailList_at m h xs ys e :
  dlist m h (xs ++ ys) -> e ∉ h :: xs ++ ys -> is_Some (m !! e) ->
  wp (InsertTailList (fst_ h ys) e) (fun _ m' =>
    dlist m' h (xs ++ e :: ys) /\ links_frame m m' (e :: h :: xs ++ ys)) m.
Proof.
  intros Hd He Hs. pose proof (dlist_split m h xs ys Hd) as (_ & [F B] & _).
  set (a := lst h xs) in *. set (b := fst_ h ys) in *.
  assert (Hb : b ∈ h :: xs ++ ys) by (pose proof (fst_elem h ys); set_solver).
  assert (Ha : a ∈ h :: xs ++ ys) by (pose proof (lst_elem h xs); set_solver).
  assert (Hne : e <> a /\ e <> b) by (split; intros ->; done). destruct Hne as [Hea Heb].
  unfold InsertTailList.
  eapply wp_run_bind; [by eapply validate_run|].
  wp_step. eapply wp_get_Blink; [exact B|].
  wp_step. apply wp_set_Flink; [done|]. intros m1 (F1 & B1 & R1).
  wp_step. apply wp_set_Blink; [by eapply links_frame_is_Some|]. intros m2 (F2 & B2 & R2).
  wp_step. apply wp_set_Flink.
  { eapply links_frame_is_Some; [done|]. eapply links_frame_is_Some; [done|].
    by eapply dlist_is_Some. }
  intros m3 (F3 & B3 & R3). apply wp_set_Blink.
  { do 3 (eapply links_frame_is_Some; [done|]). by eapply dlist_is_Some. }
  intros m4 (F4 & B4 & R4). split.
  - eapply dlist_spliced; [done|done|]. split; intros x.
    + rewrite F4, F3, F2, F1. bool_cases; done.
    + rewrite B4, B3, B2, B1. bool_cases; done.
  - do 3 (eapply links_frame_trans; [eapply links_frame_mono; [done|set_solver]|]).
    eapply links_frame_mono; [done|]. set_solver.
Qed.

Lemma InsertHeadList_at m h xs ys e :
  dlist m h (xs ++ ys) -> e ∉ h :: xs ++ ys -> is_Some (m !! e) ->
  wp (InsertHeadList (lst h xs) e) (fun _ m' =>
    dlist m' h (xs ++ e :: ys) /\ links_frame m m' (e :: h :: xs ++ ys)) m.
Proof.
  intros Hd He Hs. pose proof (dlist_split m h xs ys Hd) as (_ & [F B] & _).
  set (a := lst h xs) in *. set (b := fst_ h ys) in *.
  assert (Hb : b ∈ h :: xs ++ ys) by (pose proof (fst_elem h ys); set_solver).
  assert (Ha : a ∈ h :: xs ++ ys) by (pose proof (lst_elem h xs); set_solver).
  assert (Hne : e <> a /\ e <> b) by (split; intros ->; done). destruct Hne as [Hea Heb].
  unfold InsertHeadList.
  eapply wp_run_bind; [by eapply validate_run|].
  wp_step. eapply wp_get_Flink; [exact F|].
  wp_step. apply wp_set_Flink; [done|]. intros m1 (F1 & B1 & R1).
  wp_step. apply wp_set_Blink; [by eapply links_frame_is_Some|]. intros m2 (F2 & B2 & R2).
  wp_step. apply wp_set_Blink.
  { do 2 (eapply links_frame_is_Some; [done|]). by eapply dlist_is_Some. }
  intros m3 (F3 & B3 & R3). apply wp_set_Flink.
  { do 3 (eapply links_frame_is_Some; [done|]). by eapply dlist_is_Some. }
  intros m4 (F4 & B4 & R4). split.
  - eapply dlist_spliced; [done|done|]. split; intros x.
    + rewrite F4, F3, F2, F1. bool_cases; done.
    + rewrite B4, B3, B2, B1. bool_cases; done.
  - do 3 (eapply links_frame_trans; [eapply links_frame_mono; [done|set_solver]|]).
    eapply links_frame_mono; [done|]. set_solver.
Qed.

(** The two writes of every removal. *)
Lemma unlink_spec m h xs ys e (Q : unit -> Links -> Prop) :
  dlist m h (xs ++ e :: ys) ->
  (forall m', dlist m' h (xs ++ ys) -> links_frame m m' (h :: xs ++ ys) -> Q tt m') ->
  wp (_ ← set_Flink (lst h xs) (fst_ h ys); set_Blink (fst_ h ys) (lst h xs)) Q m /\
  wp (_ ← set_Blink (fst_ h ys) (lst h xs); set_Flink (lst h xs) (fst_ h ys)) Q m.
Proof.
  intros Hd HQ.
  assert (Ha : is_Some (m !! lst h xs)).
  { eapply dlist_is_Some; [done|]. pose proof (lst_elem h xs). set_solver. }
  assert (Hb : is_Some (m !! fst_ h ys)).
  { eapply dlist_is_Some; [done|]. pose proof (fst_elem h ys). set_solver. }
  assert (Hsub : [lst h xs] ⊆ h :: xs ++ ys /\ [fst_ h ys] ⊆ h :: xs ++ ys).
  { pose proof (lst_elem h xs). pose proof (fst_elem h ys). split; set_solver. }
  destruct Hsub as [S1 S2]. split.
  - wp_step. apply wp_set_Flink; [done|]. intros m1 (F1 & B1 & R1).
    apply wp_set_Blink; [by eapply links_frame_is_Some|]. intros m2 (F2 & B2 & R2).
    apply HQ; [|eapply links_frame_trans; eapply links_frame_mono; done].
    eapply dlist_unspliced; [done|]. split; intros x.
    + by rewrite F2, F1.
    + by rewrite B2, B1.
  - wp_step. apply wp_set_Blink; [done|]. intros m1 (F1 & B1 & R1).
    apply wp_set_Flink; [by eapply links_frame_is_Some|]. intros m2 (F2 & B2 & R2).
    apply HQ; [|eapply links_frame_trans; eapply links_frame_mono; done].
    eapply dlist_unspliced; [done|]. split; intros x.
    + by rewrite F2, F1.
    + by rewrite B2, B1.
Qed.

Lemma dlist_around m h xs e ys : dlist m h (xs ++ e :: ys) ->
  linked m (lst h xs) e /\ linked m e (fst_ h ys).
Proof.
  intros Hd. pose proof (dlist_split m h xs (e :: ys) Hd) as (_ & L & C). split; [done|].
  destruct ys; simpl in *; tauto.
Qed.

Lemma wp_bind_assoc {S A B C} (m : M S A) (f : A -> M S B) (g : B -> M S C) Q s :
  wp ((m ≫= f) ≫= g) Q s -> wp (m ≫= fun a => f a ≫= g) Q s.
Proof.
  intros H. apply wp_bind_inv, wp_bind_inv in H. apply wp_bind.
  eapply wp_mono; [exact H|]. simpl. intros a s' H'. by apply wp_bind.
Qed.

Lemma RemoveEntryList_spec m h xs e ys :
  dlist m h (xs ++ e :: ys) ->
  wp (RemoveEntryList e) (fun r m' => dlist m' h (xs ++ ys) /\
    links_frame m m' (h :: xs ++ ys) /\ r = bool_decide (xs ++ ys = [])) m.
Proof.
  intros Hd. destruct (dlist_around m h xs e ys Hd) as [[_ B1] [F2 _]].
  unfold RemoveEntryList.
  eapply wp_run_bind; [eapply validate_run; [done|set_solver]|].
  wp_step. eapply wp_get_Flink; [exact F2|]. wp_step. eapply wp_get_Blink; [exact B1|].
  apply (wp_bind_assoc _ (fun _ => set_Blink (fst_ h ys) (lst h xs))). wp_step.
  eapply unlink_spec; [done|]. intros m' Hd' Hf. wp_step. split_and!; [done|done|].
  destruct Hd as [Hnd _]. rewrite NoDup_cons, NoDup_app, NoDup_cons in Hnd.
  destruct Hnd as (Hh & N1 & Hdis & He & N2).
  destruct xs as [|a xs _] using rev_ind; destruct ys as [|b ys]; simpl.
  - by rewrite Z.eqb_refl.
  - unfold lst. simpl. apply Z.eqb_neq. set_solver.
  - rewrite lst_snoc, bool_decide_eq_false_2 by (by destruct xs).
    apply Z.eqb_neq. set_solver.
  - rewrite lst_snoc, bool_decide_eq_false_2 by (by destruct xs).
    apply Z.eqb_neq. set_solver.
Qed.


Lemma InitializeListHead_spec m h : is_Some (m !! h) ->
  wp (InitializeListHead h) (fun _ m' => dlist m' h [] /\ links_frame m m' [h]) m.
Proof.
  intros Hs. unfold InitializeListHead. wp_step. apply wp_set_Blink; [done|].
  intros m1 (F1 & B1 & R1). apply wp_set_Flink; [by eapply links_frame_is_Some|].
  intros m2 (F2 & B2 & R2). split; [|by eapply links_frame_trans].
  split; [apply NoDup_singleton|]. simpl. split; [|done]. split.
  - rewrite F2. by rewrite bool_decide_eq_true_2.
  - rewrite B2, B1. by rewrite bool_decide_eq_true_2.
Qed.

Lemma IsListEmpty_run m h xs : dlist m h xs ->
  IsListEmpty h m = Ok (bool_decide (xs = []), m).
Proof.
  intros Hd. pose proof (dlist_split m h [] xs Hd) as (_ & [F _] & _).
  change (lst h []) with h in F. unfold IsListEmpty, mbind, M_bind.
  rewrite (validate_run m h xs h) by (done || set_solver).
  rewrite (get_Flink_run _ _ _ F). unfold ret. f_equal. f_equal.
  destruct Hd as [Hnd _]. destruct xs as [|x xs]; simpl.
  - by rewrite Z.eqb_refl.
  - apply Z.eqb_neq. rewrite NoDup_cons in Hnd. set_solver.
Qed.

(** On an empty list the removal functions write the head over itself and
    return the head. *)
Lemma remove_empty m h : dlist m h [] ->
  wp (RemoveHeadList h) (fun r m' => r = h /\ dlist m' h [] /\ links_frame m m' [h]) m /\
  wp (RemoveTailList h) (fun r m' => r = h /\ dlist m' h [] /\ links_frame m m' [h]) m.
Proof.
  intros Hd. pose proof (dlist_split m h [] [] Hd) as (_ & [F B] & _). simpl in F, B.
  assert (V : validate h m = Ok (tt, m)) by (eapply validate_run; [done|set_solver]).
  assert (Hs : is_Some (m !! h)) by (eapply dlist_is_Some; [done|set_solver]).
  split; [unfold RemoveHeadList|unfold RemoveTailList];
    (eapply wp_run_bind; [exact V|]).
  - do 2 (wp_step; eapply wp_get_Flink; [exact F|]).
    wp_step. apply wp_set_Flink; [done|]. intros m1 (F1 & B1 & R1).
    wp_step. apply wp_set_Blink; [by eapply links_frame_is_Some|]. intros m2 (F2 & B2 & R2).
    wp_step. split_and!; [done| |by eapply links_frame_trans].
    split; [apply NoDup_singleton|]. simpl. split; [|done]. split.
    + by rewrite F2, F1, bool_decide_eq_true_2.
    + by rewrite B2, bool_decide_eq_true_2.
  - do 2 (wp_step; eapply wp_get_Blink; [exact B|]).
    wp_step. apply wp_set_Blink; [done|]. intros m1 (F1 & B1 & R1).
    wp_step. apply wp_set_Flink; [by eapply links_frame_is_Some|]. intros m2 (F2 & B2 & R2).
    wp_step. split_and!; [done| |by eapply links_frame_trans].
    split; [apply NoDup_singleton|]. simpl. split; [|done]. split.
    + by rewrite F2, bool_decide_eq_true_2.
    + by rewrite B2, B1, bool_decide_eq_true_2.
Qed.

Lemma RemoveHeadList_spec m h x xs : dlist m h (x :: xs) ->
  wp (RemoveHeadList h) (fun r m' => r = x /\ dlist m' h xs /\ links_frame m m' (h :: xs)) m.
Proof.
  intros Hd. destruct (dlist_around m h [] x xs Hd) as [[F1 _] [F2 _]].
  unfold RemoveHeadList.
  eapply wp_run_bind; [eapply validate_run; [done|set_solver]|].
  wp_step. eapply wp_get_Flink; [exact F1|]. wp_step. eapply wp_get_Flink; [exact F2|].
  apply (wp_bind_assoc _ (fun _ => set_Blink (fst_ h xs) h)). wp_step.
  eapply (unlink_spec m h [] xs x); [done|]. intros m' Hd' Hf. by wp_step.
Qed.

Lemma RemoveTailList_spec m h x xs : dlist m h (xs ++ [x]) ->
  wp (RemoveTailList h) (fun r m' => r = x /\ dlist m' h xs /\ links_frame m m' (h :: xs)) m.
Proof.
  intros Hd. destruct (dlist_around m h xs x [] Hd) as [[_ B1] [_ B2]].
  unfold RemoveTailList.
  eapply wp_run_bind; [eapply validate_run; [done|set_solver]|].
  wp_step. eapply wp_get_Blink; [exact B2|]. wp_step. eapply wp_get_Blink; [exact B1|].
  apply (wp_bind_assoc _ (fun _ => set_Flink (lst h xs) h)). wp_step.
  eapply (unlink_spec m h xs [] x); [done|]. rewrite app_nil_r.
  intros m' Hd' Hf. by wp_step.
Qed.

(** A list depends on its own cells only. *)
Lemma dlist_ext m m' h xs :
  dlist m h xs -> (forall x, x ∈ h :: xs -> m' !! x = m !! x) -> dlist m' h xs.
Proof.
  intros [Hnd Hc] Hin. split; [done|].
  eapply chain_frame; [done| |]; intros i x Hx%list_elem_of_lookup_2; intros;
    unfold flink, blink; rewrite Hin; set_solver.
Qed.

(** A list whose cells are outside the written ones is kept. *)
Lemma dlist_frame m m' f h xs :
  dlist m h xs -> links_frame m m' f -> (forall x, x ∈ h :: xs -> x ∉ f) -> dlist m' h xs.
Proof. intros Hd [Hf _] Hdis. eapply dlist_ext; [done|]. intros x Hx. by apply Hf, Hdis. Qed.

Lemma chain_last m h xs z :
  chain m ((h :: xs) ++ [z]) <-> chain m (h :: xs) /\ linked m (lst h xs) z.
Proof.
  destruct xs as [|a xs _] using rev_ind; [simpl; tauto|].
  rewrite lst_snoc. change ((h :: xs ++ [a]) ++ [z]) with (h :: (xs ++ [a]) ++ [z]).
  rewrite <- app_assoc. change (h :: xs ++ [a] ++ [z]) with ((h :: xs) ++ [a; z]).
  rewrite chain_snoc. done.
Qed.

(** Any entry can be taken for the head: the list is a cycle. *)
Lemma dlist_rotate m h xs r ys : dlist m h (xs ++ r :: ys) -> dlist m r (ys ++ h :: xs).
Proof.
  intros Hd. pose proof (dlist_split m h xs (r :: ys) Hd) as (C1 & L & C2).
  destruct Hd as [Hnd _]. split.
  - assert (E : r :: ys ++ h :: xs ≡ₚ h :: xs ++ r :: ys) by solve_Permutation. by rewrite E.
  - apply chain_last in C2 as [C2 L2]. apply chain_split. split_and!; [done|done|].
    apply chain_last. by split.
Qed.

(** * Traversals *)

#[local] Arguments Z.eqb : simpl never.
#[local] Arguments Z.ltb : simpl never.

Lemma dlist_length m h xs : dlist m h xs -> (length xs < size m)%nat.
Proof.
  intros Hd. assert (Hsub : list_to_set (h :: xs) ⊆ dom m).
  { intros x Hx%elem_of_list_to_set. apply elem_of_dom. by eapply dlist_is_Some. }
  apply subseteq_size in Hsub. rewrite size_list_to_set in Hsub by apply Hd.
  rewrite size_dom in Hsub. simpl in Hsub. lia.
Qed.

(** The cursor of a traversal that has [cur] left to visit is [fst_ h cur]. *)
Lemma dlist_next m h pre x cur : dlist m h (pre ++ x :: cur) ->
  get_Flink x m = Ok (fst_ h cur, m) /\ x <> h /\ dlist m h ((pre ++ [x]) ++ cur).
Proof.
  intros Hd. split_and!.
  - apply get_Flink_run. by destruct (dlist_around m h pre x cur Hd) as [_ [? _]].
  - destruct Hd as [Hnd _]. rewrite NoDup_cons in Hnd. set_solver.
  - by rewrite <- app_assoc.
Qed.

Lemma dlist_first m h xs : dlist m h xs -> get_Flink h m = Ok (fst_ h xs, m).
Proof.
  intros Hd. pose proof (dlist_split m h [] xs Hd) as (_ & [F _] & _). by apply get_Flink_run.
Qed.

Section TraversalLemmas.
Context {S : Type} `{HasLinks S}.

Lemma on_links_run {A} (m : M Links A) (a : A) s :
  m (links s) = Ok (a, links s) -> on_links m s = Ok (a, s).
Proof. intros E. unfold on_links, zoom. by rewrite E, set_links_get. Qed.

Lemma list_fuel_run s : list_fuel s = Ok (Datatypes.S (Datatypes.S (size (links s))), s).
Proof. done. Qed.

Lemma on_links_validate s h xs : dlist (links s) h xs -> on_links (validate h) s = Ok (tt, s).
Proof. intros Hd. apply on_links_run. eapply validate_run; [done|set_solver]. Qed.

Lemma on_links_first s h xs :
  dlist (links s) h xs -> on_links (get_Flink h) s = Ok (fst_ h xs, s).
Proof. intros Hd. by apply on_links_run, dlist_first. Qed.

Lemma on_links_next s h pre x cur :
  dlist (links s) h (pre ++ x :: cur) -> on_links (get_Flink x) s = Ok (fst_ h cur, s).
Proof. intros Hd. apply on_links_run. by apply (dlist_next _ _ pre). Qed.

(** The position InsertOrderedList chooses: after the entries that compare
    less than or equal to the new one, before the first that is greater. *)
Definition insert_point (cmp : Z -> Z -> Z) (e : Z) (l1 l2 : list Z) : Prop :=
  Forall (fun x => 0 <= cmp e x) l1 /\ match l2 with [] => True | x :: _ => cmp e x < 0 end.

Lemma ordered_loop_run s h e cmp f cur : forall fuel pre,
  dlist (links s) h (pre ++ cur) -> (length cur < fuel)%nat ->
  (forall x, x ∈ cur -> f e x s = Ok (cmp e x, s)) ->
  exists l1 l2, cur = l1 ++ l2 /\ insert_point cmp e l1 l2 /\
    ordered_loop fuel (fst_ h cur) h e f s = Ok (fst_ h l2, s).
Proof.
  induction cur as [|x cur IH]; intros fuel pre Hd Hf Hc;
    (destruct fuel as [|fuel]; [simpl in Hf; lia|]).
  - exists [], []. split_and!; [done|done|]. simpl. by rewrite Z.eqb_refl.
  - destruct (dlist_next _ _ pre x cur Hd) as (_ & Hne & Hd').
    simpl. rewrite (proj2 (Z.eqb_neq x h) Hne). unfold mbind, M_bind.
    rewrite Hc by set_solver. destruct (Z.ltb_spec (cmp e x) 0).
    + exists [], (x :: cur). split_and!; done.
    + rewrite (on_links_next s h pre x cur Hd).
      destruct (IH fuel (pre ++ [x]) Hd') as (l1 & l2 & -> & [P1 P2] & E).
      { simpl in Hf. lia. } { intros y Hy. apply Hc. set_solver. }
      exists (x :: l1), l2. split_and!; [done| |done]. split; [by constructor|done].
Qed.

Lemma InsertOrderedList_spec s h xs e cmp f :
  dlist (links s) h xs -> e ∉ h :: xs -> is_Some (links s !! e) ->
  (forall x, x ∈ xs -> f e x s = Ok (cmp e x, s)) ->
  wp (InsertOrderedList h e f) (fun _ s' => exists l1 l2, xs = l1 ++ l2 /\
    insert_point cmp e l1 l2 /\ dlist (links s') h (l1 ++ e :: l2) /\
    links_frame (links s) (links s') (e :: h :: xs) /\
    s' = set_links (links s') s) s.
Proof.
  intros Hd He Hs Hc. unfold InsertOrderedList, list_fuel.
  eapply wp_run_bind; [by eapply on_links_validate|].
  eapply wp_run_bind; [by eapply on_links_first|].
  wp_step. wp_step.
  destruct (ordered_loop_run s h e cmp f xs (Datatypes.S (Datatypes.S (size (links s)))) [])
    as (l1 & l2 & -> & HP & E); [done|pose proof (dlist_length _ _ _ Hd); lia|done|].
  eapply wp_run_bind; [exact E|]. apply wp_zoom.
  eapply wp_mono; [by apply (InsertTailList_at _ _ l1 l2 e)|].
  intros [] m' [Hd' Hf]. exists l1, l2. rewrite links_set. done.
Qed.

(** ForEachElementExecute as a fold over the represented list. *)
Fixpoint foreach_ref (f : Z -> M S Z) (all : bool) (xs : list Z) (status : Z) : M S Z :=
  match xs with
  | [] => ret status
  | x :: xs' => st ← f x; if all && negb (SUCCEEDED st) then ret st else foreach_ref f all xs' st
  end.

Lemma foreach_loop_run h f all cur : forall fuel pre status s,
  dlist (links s) h (pre ++ cur) -> NULL ∉ cur -> (length cur < fuel)%nat ->
  (forall x s s' v, dlist (links s) h (pre ++ cur) -> x ∈ cur -> f x s = Ok (v, s') ->
     dlist (links s') h (pre ++ cur)) ->
  foreach_loop fuel (fst_ h cur) h f all status s = foreach_ref f all cur status s.
Proof.
  induction cur as [|x cur IH]; intros fuel pre status s Hd Hn Hf Hp;
    (destruct fuel as [|fuel]; [simpl in Hf; lia|]).
  - simpl. by rewrite Z.eqb_refl.
  - destruct (dlist_next _ _ pre x cur Hd) as (_ & Hne & _). simpl.
    rewrite (proj2 (Z.eqb_neq x h) Hne).
    rewrite (proj2 (Z.eqb_neq NULL x)) by set_solver.
    unfold mbind, M_bind. simpl. destruct (f x s) as [[v s']|er] eqn:Ef; [|done].
    assert (Hd' : dlist (links s') h (pre ++ x :: cur)).
    { eapply Hp; [exact Hd| |exact Ef]. set_solver. }
    destruct (all && negb (SUCCEEDED v)); [done|].
    rewrite (on_links_next s' h pre x cur Hd').
    destruct (dlist_next _ _ pre x cur Hd') as (_ & _ & Hd'').
    apply (IH fuel (pre ++ [x])); [done|set_solver|simpl in Hf; lia|].
    intros y t t' w. rewrite <- app_assoc. simpl. intros Ht Hy Ew. eapply Hp; [exact Ht| |exact Ew]. set_solver.
Qed.

Lemma find_none_above cmp (e : Z) cur :
  Forall (fun x => 0 < cmp x e) cur -> List.find (fun x : Z => cmp x e =? 0) cur = None.
Proof.
  induction 1 as [|x cur Hx Hc IH]; [done|]. simpl. by rewrite (proj2 (Z.eqb_neq _ _)) by lia.
Qed.

(** Entries that compare above [e] are followed only by such entries. *)
Definition ordered_for (cmp : Z -> Z -> Z) (e : Z) (xs : list Z) : Prop :=
  StronglySorted (fun x y => 0 < cmp x e -> 0 < cmp y e) xs.

Lemma search_loop_run s h e ord cmp f cur : forall fuel pre,
  dlist (links s) h (pre ++ cur) -> (length cur < fuel)%nat ->
  (forall x, x ∈ cur -> f x e s = Ok (cmp x e, s)) ->
  (ord = true -> ordered_for cmp e cur) ->
  search_loop fuel (fst_ h cur) h e ord f s =
    Ok (default NULL (List.find (fun x => cmp x e =? 0) cur), s).
Proof.
  induction cur as [|x cur IH]; intros fuel pre Hd Hf Hc Ho;
    (destruct fuel as [|fuel]; [simpl in Hf; lia|]).
  - simpl. by rewrite Z.eqb_refl.
  - destruct (dlist_next _ _ pre x cur Hd) as (_ & Hne & Hd').
    simpl. rewrite (proj2 (Z.eqb_neq x h) Hne). unfold mbind, M_bind.
    rewrite Hc by set_solver. destruct (Z.eqb_spec (cmp x e) 0); [done|].
    destruct (ord && (0 <? cmp x e)) eqn:Eo.
    + apply andb_true_iff in Eo as [Eo Hlt%Z.ltb_lt].
      pose proof (Ho Eo) as Hs. apply StronglySorted_inv in Hs as [_ Hall].
      rewrite find_none_above; [done|]. eapply Forall_impl; [exact Hall|]. naive_solver.
    + rewrite (on_links_next s h pre x cur Hd). apply (IH fuel (pre ++ [x])); [done| | |].
      * simpl in Hf. lia.
      * intros y Hy. apply Hc. set_solver.
      * intros E. by apply StronglySorted_inv in Ho as [? _].
Qed.
End TraversalLemmas.

Lemma size_loop_run m h cur : forall fuel pre count,
  dlist m h (pre ++ cur) -> (length cur < fuel)%nat -> NULL ∉ cur ->
  size_loop fuel (fst_ h cur) h (u32 count) m = Ok (u32 (count + Z.of_nat (length cur)), m).
Proof.
  induction cur as [|x cur IH]; intros fuel pre count Hd Hf Hn;
    (destruct fuel as [|fuel]; [simpl in Hf; lia|]).
  - simpl. rewrite Z.eqb_refl. by rewrite Z.add_0_r.
  - destruct (dlist_next _ _ pre x cur Hd) as (E & Hne & Hd').
    simpl. rewrite (proj2 (Z.eqb_neq x h) Hne), (proj2 (Z.eqb_neq NULL x)) by set_solver.
    unfold mbind, M_bind. simpl. rewrite E.
    replace (u32 (u32 count + 1)) with (u32 (count + 1)).
    + rewrite (IH fuel (pre ++ [x])); [|done|simpl in Hf; lia|set_solver].
      do 3 f_equal. lia.
    + unfold u32. by rewrite Zplus_mod_idemp_l.
Qed.

Lemma elem_loop_run m h cur : forall fuel pre index ListIndex,
  dlist m h (pre ++ cur) -> (length cur < fuel)%nat -> NULL ∉ cur ->
  0 <= index <= ListIndex -> is_dword ListIndex ->
  elem_loop fuel (fst_ h cur) h index ListIndex m =
    Ok (default NULL (zget cur (ListIndex - index)), m).
Proof.
  induction cur as [|x cur IH]; intros fuel pre index ListIndex Hd Hf Hn Hi Hw;
    (destruct fuel as [|fuel]; [simpl in Hf; lia|]).
  - simpl. rewrite Z.eqb_refl. by rewrite zget_ge by (simpl; lia).
  - destruct (dlist_next _ _ pre x cur Hd) as (E & Hne & Hd').
    simpl. rewrite (proj2 (Z.eqb_neq x h) Hne), (proj2 (Z.eqb_neq NULL x)) by set_solver.
    unfold mbind, M_bind. simpl. destruct (Z.eqb_spec index ListIndex) as [->|].
    + by rewrite Z.sub_diag.
    + rewrite E, u32_small by rlia.
      rewrite (IH fuel (pre ++ [x])); [|done|simpl in Hf; lia|set_solver|lia|done].
      unfold zget. rewrite !decide_True by lia.
      by replace (Z.to_nat (ListIndex - index)) with (S (Z.to_nat (ListIndex - (index + 1)))) by lia.
Qed.

Lemma ListIteratorNext_run m h pre cur it :
  dlist m h (pre ++ cur) -> it = mkLIST_ITERATOR h (fst_ h cur) ->
  ListIteratorNext it m = match cur with
    | [] => Ok ((NULL, it), m)
    | x :: cur' => Ok ((x, mkLIST_ITERATOR h (fst_ h cur')), m)
    end.
Proof.
  intros Hd ->. unfold ListIteratorNext. destruct cur as [|x cur]; simpl.
  - by rewrite Z.eqb_refl.
  - destruct (dlist_next _ _ pre x cur Hd) as (E & Hne & _).
    rewrite (proj2 (Z.eqb_neq x h) Hne). unfold mbind, M_bind. by rewrite E.
Qed.

(** * A collection of lists as an abstract deque machine *)

Inductive list_op : Set :=
| OpInit (h : Z) | OpIsEmpty (h : Z) | OpInsertHead (h e : Z) | OpInsertTail (h e : Z)
| OpRemoveHead (h : Z) | OpRemoveTail (h : Z) | OpRemoveEntry (h e : Z).

Definition list_exec (op : list_op) : M Links Z :=
  match op with
  | OpInit h => _ ← InitializeListHead h; ret 0
  | OpIsEmpty h => b ← IsListEmpty h; ret (if b : bool then 1 else 0)
  | OpInsertHead h e => _ ← InsertHeadList h e; ret 0
  | OpInsertTail h e => _ ← InsertTailList h e; ret 0
  | OpRemoveHead h => RemoveHeadList h
  | OpRemoveTail h => RemoveTailList h
  | OpRemoveEntry h e => b ← RemoveEntryList e; ret (if b : bool then 1 else 0)
  end.

(** The abstract state: the heads in use, each with the sequence it holds. *)
Abbreviation Lists := (gmap Z (list Z)).

Definition cells (h : Z) (xs : list Z) : list Z := h :: xs.
Definition free_cell (L : Lists) (e : Z) : Prop := map_Forall (fun h xs => e ∉ cells h xs) L.

#[global] Instance free_cell_dec L e : Decision (free_cell L e).
Proof. unfold free_cell. apply _. Defined.

Definition is_nil (xs : list Z) : Z := if xs is [] then 1 else 0.

(** One operation on the sequences; [None] when its precondition fails: the
    head must be in use, an inserted entry or new head must be in no list, a
    removed entry must be in the named list. *)
Definition deque_step (op : list_op) (L : Lists) : option (Z * Lists) :=
  match op with
  | OpInit h => if decide (free_cell L h) then Some (0, <[h := []]> L) else None
  | OpIsEmpty h => xs ← L !! h; Some (is_nil xs, L)
  | OpInsertHead h e =>
      xs ← L !! h; if decide (free_cell L e) then Some (0, <[h := e :: xs]> L) else None
  | OpInsertTail h e =>
      xs ← L !! h; if decide (free_cell L e) then Some (0, <[h := xs ++ [e]]> L) else None
  | OpRemoveHead h =>
      xs ← L !! h; match xs with [] => Some (h, L) | x :: xs' => Some (x, <[h := xs']> L) end
  | OpRemoveTail h =>
      xs ← L !! h;
      match last xs with None => Some (h, L)
      | Some x => Some (x, <[h := take (length xs - 1) xs]> L) end
  | OpRemoveEntry h e =>
      xs ← L !! h;
      if decide (e ∈ xs) then
        let xs' := filter (fun x => x <> e) xs in Some (is_nil xs', <[h := xs']> L)
      else None
  end.

Definition lists_rep (m : Links) (L : Lists) : Prop :=
  (forall h xs, L !! h = Some xs -> dlist m h xs) /\
  (forall h1 h2 xs1 xs2, h1 <> h2 -> L !! h1 = Some xs1 -> L !! h2 = Some xs2 ->
     forall x, x ∈ cells h1 xs1 -> x ∈ cells h2 xs2 -> False).

Lemma lists_rep_update m m' L h xs f :
  lists_rep m L -> dlist m' h xs -> links_frame m m' f ->
  (forall h' xs', h' <> h -> L !! h' = Some xs' ->
     forall x, x ∈ cells h' xs' -> (x ∉ f) /\ (x ∉ cells h xs)) ->
  lists_rep m' (<[h := xs]> L).
Proof.
  intros [R1 R2] Hd Hf Hdis. split.
  - intros h' xs'. rewrite lookup_insert. case_decide; [naive_solver|]. intros HL.
    eapply dlist_frame; [by apply R1|exact Hf|]. intros x Hx. by eapply Hdis.
  - intros h1 h2 xs1 xs2 Hne. rewrite !lookup_insert.
    destruct (decide (h = h1)) as [<-|N1], (decide (h = h2)) as [<-|N2]; [done| | |].
    + intros [= <-] H2 x Hx1 Hx2. by refine (proj2 (Hdis _ _ _ H2 x Hx2) Hx1).
    + intros H1 [= <-] x Hx1 Hx2. by refine (proj2 (Hdis _ _ _ H1 x Hx1) Hx2).
    + intros H1 H2. by eapply (R2 h1 h2).
Qed.

Lemma lists_rep_disjoint m L h xs h' xs' x :
  lists_rep m L -> L !! h = Some xs -> L !! h' = Some xs' -> h' <> h ->
  x ∈ cells h' xs' -> x ∉ cells h xs.
Proof. intros [_ R] H1 H2 Hne Hx Hx'. by eapply (R h' h). Qed.

(** An entry moves in or out of one list: the other lists keep their cells. *)
Lemma lists_rep_insert m m' L h xs xs' e :
  lists_rep m L -> L !! h = Some xs -> free_cell L e -> dlist m' h xs' ->
  links_frame m m' (e :: h :: xs) -> (forall x, x ∈ xs' -> x = e \/ x ∈ xs) ->
  lists_rep m' (<[h := xs']> L).
Proof.
  intros HR HL Hfree Hd Hf Hsub. eapply lists_rep_update; [done|done|done|].
  intros h2 xs2 Hne HL2 x Hx.
  pose proof (lists_rep_disjoint m L h xs h2 xs2 x HR HL HL2 Hne Hx) as Hn.
  pose proof (Hfree h2 xs2 HL2) as He. unfold cells in *.
  assert (x <> e) by (by intros ->). split; [set_solver|].
  intros [->|Hx']%elem_of_cons; [set_solver|]. destruct (Hsub x Hx'); set_solver.
Qed.

Lemma lists_rep_shrink m m' L h xs xs' :
  lists_rep m L -> L !! h = Some xs -> dlist m' h xs' ->
  links_frame m m' (h :: xs') -> (forall x, x ∈ xs' -> x ∈ xs) ->
  lists_rep m' (<[h := xs']> L).
Proof.
  intros HR HL Hd Hf Hsub. eapply lists_rep_update; [done|done|done|].
  intros h2 xs2 Hne HL2 x Hx.
  pose proof (lists_rep_disjoint m L h xs h2 xs2 x HR HL HL2 Hne Hx) as Hn.
  unfold cells in *. split; set_solver.
Qed.

(** The cells an operation brings into a list. *)
Definition op_cells (op : list_op) : list Z :=
  match op with
  | OpInit h => [h] | OpInsertHead _ e => [e] | OpInsertTail _ e => [e] | _ => [] end.

Lemma links_frame_dom m m' f : links_frame m m' f -> dom m' = dom m.
Proof. intros [_ Hf]. apply set_eq. intros x. by rewrite !elem_of_dom. Qed.

Lemma filter_ne_split (xs ys : list Z) e :
  NoDup (xs ++ e :: ys) -> filter (fun x => x <> e) (xs ++ e :: ys) = xs ++ ys.
Proof.
  rewrite NoDup_app, NoDup_cons. intros (_ & Hd & He & _).
  rewrite filter_app, filter_cons_False by naive_solver.
  f_equal; apply filter_all; intros x Hx ->; [|done]. eapply Hd; [exact Hx|]. set_solver.
Qed.

Lemma is_nil_bool xs : (if bool_decide (xs = []) then 1 else 0) = is_nil xs.
Proof. by destruct xs. Qed.

Lemma list_exec_insert m L h xs e (head : bool) :
  lists_rep m L -> L !! h = Some xs -> free_cell L e -> is_Some (m !! e) ->
  wp (list_exec (if head then OpInsertHead h e else OpInsertTail h e)) (fun r m' =>
    r = 0 /\ lists_rep m' (<[h := if head then e :: xs else xs ++ [e]]> L) /\ dom m' = dom m) m.
Proof.
  intros HR HL Hfree Hs. pose proof (proj1 HR h xs HL) as Hd.
  pose proof (Hfree h xs HL) as He. unfold cells in He.
  assert (Hd' : dlist m h (xs ++ [])) by (by rewrite app_nil_r).
  destruct head; simpl; apply wp_bind; (eapply wp_mono;
    [first [apply (InsertHeadList_at m h [] xs e); done
           |apply (InsertTailList_at m h xs [] e); [done|by rewrite app_nil_r|done]]|]);
    intros [] m' [Hd2 Hf]; wp_step; (split_and!; [done| |by eapply links_frame_dom]);
    (eapply lists_rep_insert; [done|done|done|done| |set_solver]); [done|].
  by rewrite app_nil_r in Hf.
Qed.

Lemma list_exec_remove m L op r L' :
  lists_rep m L -> deque_step op L = Some (r, L') ->
  (exists h, op = OpRemoveHead h \/ op = OpRemoveTail h \/ exists e, op = OpRemoveEntry h e) ->
  wp (list_exec op) (fun r' m' => r' = r /\ lists_rep m' L' /\ dom m' = dom m) m.
Proof.
  intros HR Hstep (h & Hop).
  destruct (L !! h) as [xs|] eqn:HL; cycle 1.
  { destruct Hop as [->|[->|[e ->]]]; simpl in Hstep; by rewrite HL in Hstep. }
  pose proof (proj1 HR h xs HL) as Hd.
  destruct Hop as [->|[->|[e ->]]]; simpl in *; rewrite HL in Hstep; simpl in Hstep.
  - destruct xs as [|x xs]; simplify_eq; (eapply wp_mono; [first [by apply remove_empty|by apply RemoveHeadList_spec]|]);
      intros ? m' (-> & Hd' & Hf); (split_and!; [done| |by eapply links_frame_dom]).
    + rewrite <- (insert_id L' r [] HL). by eapply lists_rep_shrink.
    + eapply lists_rep_shrink; [done|done|done|done|set_solver].
  - destruct xs as [|x xs _] using rev_ind.
    + simplify_eq/=. eapply wp_mono; [apply (proj2 (remove_empty _ _ Hd))|].
      intros ? m' (-> & Hd' & Hf); (split_and!; [done| |by eapply links_frame_dom]).
      rewrite <- (insert_id L' r [] HL). by eapply lists_rep_shrink.
    + rewrite last_snoc, length_app, Nat.add_sub, take_app_length in Hstep. simplify_eq.
      eapply wp_mono; [by apply RemoveTailList_spec|]. intros ? m' (-> & Hd' & Hf).
      split_and!; [done| |by eapply links_frame_dom].
      eapply lists_rep_shrink; [done|done|done|done|set_solver].
  - case_decide as He; [|done]. simplify_eq. apply list_elem_of_split in He as (l1 & l2 & ->).
    rewrite filter_ne_split by (destruct Hd as [[_ ?]%NoDup_cons _]; done).
    wp_step. eapply wp_mono; [by apply RemoveEntryList_spec|]. intros ? m' (Hd' & Hf & ->).
    wp_step. split_and!; [apply is_nil_bool| |by eapply links_frame_dom].
    eapply lists_rep_shrink; [done|done|done|done|set_solver].
Qed.

Lemma list_exec_refines op m L r L' :
  lists_rep m L -> deque_step op L = Some (r, L') ->
  (forall a, a ∈ op_cells op -> is_Some (m !! a)) ->
  wp (list_exec op) (fun r' m' => r' = r /\ lists_rep m' L' /\ dom m' = dom m) m.
Proof.
  intros HR Hstep Hcell.
  destruct op as [h|h|h e|h e|h|h|h e]; try (eapply list_exec_remove; eauto; fail); simpl in *.
  - case_decide as Hfree; [|done]. simplify_eq. wp_step.
    eapply wp_mono; [apply InitializeListHead_spec, Hcell; set_solver|].
    intros [] m' [Hd Hf]. wp_step. split_and!; [done| |by eapply links_frame_dom].
    eapply lists_rep_update; [done|done|done|]. intros h2 xs2 Hne HL2 x Hx.
    pose proof (Hfree h2 xs2 HL2) as He. unfold cells in *. set_solver.
  - destruct (L !! h) as [xs|] eqn:HL; [|done]. simplify_eq/=.
    eapply wp_run_bind; [by apply IsListEmpty_run, HR|]. wp_step.
    split_and!; [apply is_nil_bool|done|done].
  - destruct (L !! h) as [xs|] eqn:HL; [|done]. simpl in Hstep. case_decide; [|done]. simplify_eq.
    apply (list_exec_insert m L h xs e true); [done|done|done|apply Hcell; set_solver].
  - destruct (L !! h) as [xs|] eqn:HL; [|done]. simpl in Hstep. case_decide; [|done]. simplify_eq.
    apply (list_exec_insert m L h xs e false); [done|done|done|apply Hcell; set_solver].
Qed.

(** ** Sequences of operations *)
Fixpoint list_exec_all (ops : list list_op) : M Links (list Z) :=
  match ops with
  | [] => ret []
  | op :: ops' => r ← list_exec op; rs ← list_exec_all ops'; ret (r :: rs)
  end.

Fixpoint deque_run (ops : list list_op) (L : Lists) : option (list Z * Lists) :=
  match ops with
  | [] => Some ([], L)
  | op :: ops' => '(r, L1) ← deque_step op L; '(rs, L2) ← deque_run ops' L1; Some (r :: rs, L2)
  end.

(** C8: Any sequence of initialisations, emptiness tests, insertions and
    removals that is legal on the abstract collection of sequences (inserted
    entries are in no list, removed entries are in the named list) runs on the
    linked cells without a failed _ValidateListEntry assertion or an access
    outside the store, returns what the sequences return (the head itself when
    RemoveHeadList or RemoveTailList finds the list empty), and leaves cells
    that represent the resulting sequences; lists an operation does not name
    are unchanged. *)
Theorem list_ops_refine ops : forall m L rs L',
  lists_rep m L -> (forall op a, op ∈ ops -> a ∈ op_cells op -> is_Some (m !! a)) ->
  deque_run ops L = Some (rs, L') ->
  exists m', list_exec_all ops m = Ok (rs, m') /\ lists_rep m' L' /\ dom m' = dom m.
Proof.
  induction ops as [|op ops IH]; intros m L rs L' HR Hc Hrun; simpl in Hrun.
  - simplify_eq. by exists m.
  - destruct (deque_step op L) as [[r L1]|] eqn:Es; [|done]. simpl in Hrun.
    destruct (deque_run ops L1) as [[rs1 L2]|] eqn:Er; [|done]. simplify_eq/=.
    destruct (wp_Ok _ _ _ (list_exec_refines op m L r L1 HR Es (fun a => Hc op a ltac:(set_solver))))
      as (r' & m1 & E1 & -> & HR1 & Hdom).
    destruct (IH m1 L1 rs1 L' HR1) as (m2 & E2 & HR2 & Hdom2); [|done|].
    { intros op' a Hop Ha. apply elem_of_dom. rewrite Hdom. apply elem_of_dom.
      apply (Hc op'); [set_solver|done]. }
    exists m2. split_and!; [|done|congruence].
    unfold mbind, M_bind. by rewrite E1, E2.
Qed.

Definition demo_cells : Links :=
  list_to_map ((fun a => (a, mkLIST_ENTRY 0 0)) <$> [16; 32; 48; 64; 80]).
Definition demo_ops : list list_op :=
  [OpInit 16; OpInit 32; OpInsertTail 16 48; OpInsertHead 16 64; OpInsertTail 32 80;
   OpRemoveHead 16; OpRemoveEntry 32 80; OpRemoveTail 32; OpIsEmpty 16].

Lemma list_ops_refine_witness :
  exists m', list_exec_all demo_ops demo_cells = Ok ([0; 0; 0; 0; 0; 64; 1; 32; 0], m') /\
    lists_rep m' {[16 := [48]; 32 := []]} /\ dom m' = dom demo_cells.
Proof.
  apply (list_ops_refine demo_ops demo_cells ∅).
  - split; intros ??; by rewrite lookup_empty.
  - intros op a Hop Ha. unfold demo_ops in Hop.
    repeat (apply elem_of_cons in Hop as [->|Hop]); simpl in Ha; set_unfold;
      try done; repeat destruct Ha as [->|Ha]; try done; vm_compute; eauto.
  - vm_compute. reflexivity.
Defined.

(** ** Ordered insertion *)

(** The sign of a comparison function is a total preorder. *)
Record cmp_order (cmp : Z -> Z -> Z) : Prop := {
  cmp_flip : forall a b, cmp a b < 0 -> 0 < cmp b a;
  cmp_flip_ge : forall a b, 0 <= cmp a b -> cmp b a <= 0;
  cmp_trans : forall a b c, cmp a b <= 0 -> cmp b c <= 0 -> cmp a c <= 0
}.

Definition sorted_by (cmp : Z -> Z -> Z) : list Z -> Prop := StronglySorted (fun a b => cmp a b <= 0).

Lemma StronglySorted_insert {A} (R : A -> A -> Prop) l1 l2 e :
  StronglySorted R (l1 ++ l2) -> Forall (fun x => R x e) l1 -> Forall (R e) l2 ->
  StronglySorted R (l1 ++ e :: l2).
Proof.
  induction l1 as [|x l1 IH]; simpl; intros Hs H1 H2; [by constructor|].
  apply StronglySorted_inv in Hs as [Hs Hx]. apply Forall_cons in H1 as [Hxe H1].
  constructor; [by apply IH|]. rewrite !Forall_app, Forall_cons in *. tauto.
Qed.

Lemma insert_point_sorted cmp e l1 l2 :
  cmp_order cmp -> insert_point cmp e l1 l2 -> sorted_by cmp (l1 ++ l2) ->
  sorted_by cmp (l1 ++ e :: l2).
Proof.
  intros [C1 C2 C3] [P1 P2] Hs. apply StronglySorted_insert; [done| |].
  - eapply Forall_impl; [exact P1|]. intros x. apply C2.
  - destruct l2 as [|y l2]; [constructor|]. constructor; [lia|].
    apply StronglySorted_app in Hs as (_ & _ & Hs). apply StronglySorted_inv in Hs as [_ Hs].
    eapply Forall_impl; [exact Hs|]. intros z Hz. simpl in Hz.
    apply (C3 e y z); [lia|done].
Qed.

(** InsertOrderedList, given a comparison function that reads the state
    without changing it and orders the entries, keeps a sorted list sorted, adds
    exactly the new entry, places it after every entry that compares equal to
    it, and writes no cell outside the list. *)
Theorem insert_ordered_sorted {S} `{HasLinks S} (s : S) h xs e f cmp :
  cmp_order cmp -> (forall x, x ∈ xs -> f e x s = Ok (cmp e x, s)) ->
  dlist (links s) h xs -> e ∉ h :: xs -> is_Some (links s !! e) -> sorted_by cmp xs ->
  exists s' l1 l2, InsertOrderedList h e f s = Ok (tt, s') /\ xs = l1 ++ l2 /\
    dlist (links s') h (l1 ++ e :: l2) /\ sorted_by cmp (l1 ++ e :: l2) /\
    Forall (fun x => cmp e x < 0) l2 /\
    links_frame (links s) (links s') (e :: h :: xs) /\ s' = set_links (links s') s.
Proof.
  intros Ho Hc Hd He Hs Hsort.
  destruct (wp_Ok _ _ _ (InsertOrderedList_spec s h xs e cmp f Hd He Hs Hc))
    as ([] & s' & E & l1 & l2 & -> & HP & Hd' & Hf & Hset).
  exists s', l1, l2. split_and!; try done; [by apply insert_point_sorted|].
  destruct HP as [_ HP]. destruct l2 as [|y l2]; [constructor|]. constructor; [done|].
  apply StronglySorted_app in Hsort as (_ & _ & Hsort).
  apply StronglySorted_inv in Hsort as [_ Hsort].
  eapply Forall_impl; [exact Hsort|]. intros z Hz. simpl in Hz.
  destruct (Z.lt_ge_cases (cmp e z) 0) as [|Hge]; [done|]. exfalso.
  pose proof (cmp_flip_ge cmp Ho _ _ Hge) as Hze.
  pose proof (cmp_trans cmp Ho _ _ _ Hz Hze) as Hye.
  pose proof (cmp_flip cmp Ho _ _ HP). lia.
Qed.

Definition demo_list : Links :=
  {[ 16 := mkLIST_ENTRY 32 48; 32 := mkLIST_ENTRY 48 16; 48 := mkLIST_ENTRY 16 32;
     40 := mkLIST_ENTRY 0 0 ]}.
Lemma demo_list_rep : dlist demo_list 16 [32; 48].
Proof. split; [|by vm_compute]. apply (bool_decide_unpack _). by vm_compute. Qed.

Lemma insert_ordered_sorted_witness :
  exists s' l1 l2, InsertOrderedList 16 40 (fun a b => ret (a - b)) demo_list = Ok (tt, s') /\
    [32; 48] = l1 ++ l2 /\ dlist (links s') 16 (l1 ++ 40 :: l2) /\
    sorted_by Z.sub (l1 ++ 40 :: l2) /\ Forall (fun x => 40 - x < 0) l2 /\
    links_frame (links demo_list) (links s') [40; 16; 32; 48] /\
    s' = set_links (links s') demo_list.
Proof.
  apply (insert_ordered_sorted demo_list 16 [32; 48] 40 (fun a b => ret (a - b)) Z.sub).
  - split; lia.
  - done.
  - apply demo_list_rep.
  - apply (bool_decide_unpack _). by vm_compute.
  - eexists. by vm_compute.
  - repeat constructor; lia.
Defined.

(** ** Traversals *)

(** ForEachElementExecute on a list of non-NULL entries is the fold of the
    callback over the represented sequence, in order, with the status of the
    last call as the result; when all calls must succeed it stops after the first one
    that fails and returns that status.  The callback may change the state as
    long as the list keeps representing the same sequence. *)
Theorem foreach_execute_fold {S} `{HasLinks S} (s : S) h xs f all :
  dlist (links s) h xs -> NULL ∉ h :: xs ->
  (forall x s s' v, dlist (links s) h xs -> x ∈ xs -> f x s = Ok (v, s') ->
     dlist (links s') h xs) ->
  ForEachElementExecute h (Some f) all s = foreach_ref f all xs STATUS_SUCCESS s.
Proof.
  intros Hd Hn Hf. unfold ForEachElementExecute.
  rewrite (proj2 (Z.eqb_neq h NULL)) by set_solver. unfold mbind, M_bind.
  rewrite (on_links_validate s h xs Hd), (on_links_first s h xs Hd), list_fuel_run.
  apply (foreach_loop_run h f all xs _ []); [done|set_solver| |done].
  pose proof (dlist_length _ _ _ Hd). lia.
Qed.

Lemma foreach_execute_fold_witness :
  ForEachElementExecute 16 (Some (fun x => ret (if x =? 32 then 1 else STATUS_INVALID_PARAMETER2)))
    true demo_list = Ok (STATUS_INVALID_PARAMETER2, demo_list).
Proof.
  rewrite (foreach_execute_fold demo_list 16 [32; 48]); [reflexivity|apply demo_list_rep| |].
  - apply (bool_decide_unpack _). by vm_compute.
  - intros x s s' v Hd _ [= _ <-]. exact Hd.
Defined.

(** ListSearchForElement returns the first entry of the list that compares
    equal to the element, or NULL when there is none; the early exit taken for
    lists declared ordered loses no match when entries that compare above the
    element are only followed by such entries.  The state is unchanged. *)
Theorem list_search_first {S} `{HasLinks S} (s : S) h xs e ord f cmp :
  dlist (links s) h xs -> h <> NULL -> e <> NULL ->
  (forall x, x ∈ xs -> f x e s = Ok (cmp x e, s)) ->
  (ord = true -> ordered_for cmp e xs) ->
  ListSearchForElement h e ord (Some f) s =
    Ok (default NULL (List.find (fun x => cmp x e =? 0) xs), s).
Proof.
  intros Hd Hh He Hc Ho. unfold ListSearchForElement.
  rewrite (proj2 (Z.eqb_neq h NULL)), (proj2 (Z.eqb_neq e NULL)) by done. unfold mbind, M_bind.
  rewrite (on_links_validate s h xs Hd), (on_links_first s h xs Hd), list_fuel_run.
  apply (search_loop_run s h e ord cmp f xs _ []); [done| |done|done].
  pose proof (dlist_length _ _ _ Hd). lia.
Qed.

Lemma list_search_first_witness :
  ListSearchForElement 16 1048 true (Some (fun a b => ret (a - (b - 1000)))) demo_list
    = Ok (48, demo_list).
Proof.
  rewrite (list_search_first demo_list 16 [32; 48] 1048 true _ (fun a b => a - (b - 1000))).
  - reflexivity.
  - apply demo_list_rep.
  - done.
  - done.
  - done.
  - intros _. repeat constructor; lia.
Defined.

(** The values [n] consecutive calls of ListIteratorNext return. *)
Fixpoint iterate (n : nat) (it : LIST_ITERATOR) : M Links (list Z) :=
  match n with
  | O => ret []
  | S n' => '(x, it') ← ListIteratorNext it; rest ← iterate n' it'; ret (x :: rest)
  end.

Definition list_walk (h : Z) (n : nat) : M Links (list Z) :=
  it ← ListIteratorInit h; iterate n it.

Lemma iterate_run m h cur : forall pre n,
  dlist m h (pre ++ cur) ->
  iterate (length cur + n) (mkLIST_ITERATOR h (fst_ h cur)) m = Ok (cur ++ replicate n NULL, m).
Proof.
  induction cur as [|x cur IH]; intros pre n Hd; simpl.
  - induction n as [|n IHn]; [done|]. simpl. unfold mbind, M_bind.
    rewrite (ListIteratorNext_run m h pre []) by done. by rewrite IHn.
  - unfold mbind, M_bind. rewrite (ListIteratorNext_run m h pre (x :: cur)) by done.
    rewrite (IH (pre ++ [x]) n); [done|]. by rewrite <- app_assoc.
Qed.

(** On a list of non-NULL entries, ListSize is the number of entries modulo
    2^32, GetListElemByIndex is the entry at that index or NULL past the end,
    and an iterator returns every entry once, in order, and NULL from then on;
    none of them changes the list. *)
Theorem list_size_index_iterate m h xs i n :
  dlist m h xs -> NULL ∉ h :: xs -> is_dword i ->
  ListSize h m = Ok (u32 (Z.of_nat (length xs)), m) /\
  GetListElemByIndex h i m = Ok (default NULL (zget xs i), m) /\
  list_walk h (length xs + n) m = Ok (xs ++ replicate n NULL, m).
Proof.
  intros Hd Hn Hi. assert (Hh : h <> NULL) by set_solver.
  pose proof (dlist_length _ _ _ Hd).
  unfold ListSize, GetListElemByIndex, list_walk, ListIteratorInit, mbind, M_bind, ASSERT, lift, assert_.
  rewrite (proj2 (Z.eqb_neq h NULL)) by done. cbn [negb].
  rewrite (validate_run m h xs h) by (done || set_solver).
  rewrite (dlist_first m h xs Hd), list_fuel_run. split_and!.
  - rewrite <- (Z.add_0_l (Z.of_nat _)). apply (size_loop_run m h xs _ [] 0); [done|simpl; lia|set_solver].
  - rewrite (elem_loop_run m h xs _ [] 0 i); [by rewrite Z.sub_0_r|done|simpl; lia|set_solver|rlia|done].
  - by apply (iterate_run m h xs []).
Qed.

Lemma list_size_index_iterate_witness :
  ListSize 16 demo_list = Ok (2, demo_list) /\
  GetListElemByIndex 16 1 demo_list = Ok (48, demo_list) /\
  list_walk 16 4 demo_list = Ok ([32; 48; 0; 0], demo_list).
Proof.
  apply (list_size_index_iterate demo_list 16 [32; 48] 1 2).
  - apply demo_list_rep.
  - apply (bool_decide_unpack _). by vm_compute.
  - done.
Defined.
