(* ===== verification/HashTable.v ===== *)
(** CommonLib/src/hash_table.c: a chained hash table whose buckets are lists
    (list.c) ordered by key, and its refinement to a finite map from key values
    to entries.  Keys are bytes of the memory at a fixed offset from the entry;
    buckets are the LIST_ENTRY cells of the TableData array. *)
From stdpp Require Import sorting.
From S2P Require Import Prelude IntUtils ClMemory DList.

Definition SIZEOF_HASH_ENTRY : Z := 16.

(** * Data *)

(** A hash function reads the key's bytes: key address, key length, MaxKeys. *)
Definition HashFunction : Type := Z -> Z -> Z -> M Mem Z.

Record HASH_TABLE := mkHASH_TABLE {
  MaxKeys : Z; KeySize : Z; NumberOfElements : Z; OffsetToKey : Z;
  HashFunc : option HashFunction; TableData : Z }.

Record HASH_ITERATOR := mkHASH_ITERATOR { KeyIndex : Z; CurrentKeyIterator : LIST_ITERATOR }.

(** The table, the list cells and the memory that holds the keys. *)
Record HState := mkHState { h_table : HASH_TABLE; h_links : Links; h_mem : Mem }.

#[global, refine] Instance HasLinks_HState : HasLinks HState :=
  {| links := h_links; set_links := fun l s => mkHState (h_table s) l (h_mem s) |}.
Proof. all: by intros; try destruct s. Defined.

(** HASH_ELEM_SEARCH_CTX: written by the comparison callback of a search. *)
Record HASH_ELEM_SEARCH_CTX := mkCtx { PlaceholderEntry : Z; Result : Z }.
Record SearchState := mkSearchState { ss_ctx : HASH_ELEM_SEARCH_CTX; ss_host : HState }.

#[global, refine] Instance HasLinks_SearchState : HasLinks SearchState :=
  {| links := fun s => links (ss_host s);
     set_links := fun l s => mkSearchState (ss_ctx s) (set_links l (ss_host s)) |}.
Proof. all: by intros; destruct s as [? []]. Defined.

Definition on_mem {A} (m : M Mem A) : M HState A :=
  zoom h_mem (fun mm s => mkHState (h_table s) (h_links s) mm) m.
Definition set_count (n : Z) (s : HState) : HState :=
  let t := h_table s in
  mkHState (mkHASH_TABLE (MaxKeys t) (KeySize t) n (OffsetToKey t) (HashFunc t) (TableData t))
    (h_links s) (h_mem s).

(** &HashTable->TableData->Entries[i] *)
Definition entry_addr (t : HASH_TABLE) (i : Z) : Z := TableData t + SIZEOF_HASH_ENTRY * i.

(** * Operations *)
Definition _HashTableObtainKeyAddress (t : HASH_TABLE) (Element : Z) : outcome Z :=
  _ ← assert_ (negb (Element =? NULL)); Ok (Element + OffsetToKey t).

Definition _HashTableSearchElem (FirstElem SecondElem : Z) : M SearchState Z :=
  _ ← ASSERT (negb (FirstElem =? NULL));
  _ ← ASSERT (negb (SecondElem =? NULL));
  _ ← modify (fun s => mkSearchState (mkCtx FirstElem (Result (ss_ctx s))) (ss_host s));
  t ← gets (fun s => h_table (ss_host s));
  pKey ← lift (_HashTableObtainKeyAddress t FirstElem);
  r ← zoom ss_host (fun h s => mkSearchState (ss_ctx s) h)
        (on_mem (cl_rmemcmp pKey SecondElem (KeySize t)));
  _ ← modify (fun s => mkSearchState (mkCtx (PlaceholderEntry (ss_ctx s)) (i32 r)) (ss_host s));
  ret (i32 r).

Definition _HashTableSearchKeyInBucket (Bucket Key : Z) : M HState (bool * Z) :=
  _ ← ASSERT (negb (Bucket =? NULL));
  _ ← ASSERT (negb (Key =? NULL));
  s ← getS;
  let run := ListSearchForElement Bucket Key true (Some _HashTableSearchElem) in
  '(pResult, ss) ← lift (run (mkSearchState (mkCtx Bucket 0) s));
  _ ← putS (ss_host ss);
  let ctx := ss_ctx ss in
  _ ← (if negb (pResult =? NULL) then
         _ ← ASSERT (pResult =? PlaceholderEntry ctx); ASSERT (Result ctx =? 0)
       else ret tt);
  Placeholder ← (if 0 <? Result ctx then on_links (get_Blink (PlaceholderEntry ctx))
                 else ret (PlaceholderEntry ctx));
  ret (negb (pResult =? NULL), Placeholder).

Definition HashTablePreinit (MaxKeys KeySize : Z) : outcome (Z * HASH_TABLE) :=
  _ ← assert_ ((0 <? MaxKeys) && (MaxKeys <? MAX_DWORD `div` SIZEOF_HASH_ENTRY));
  Ok (u32 (MaxKeys * SIZEOF_HASH_ENTRY), mkHASH_TABLE MaxKeys KeySize 0 0 None NULL).

Fixpoint init_loop (fuel : nat) (i : Z) : M HState unit :=
  match fuel with
  | O => fail NoFuel
  | S fuel' =>
      t ← gets h_table;
      if i <? MaxKeys t then
        _ ← on_links (InitializeListHead (entry_addr t i));
        init_loop fuel' (u32 (i + 1))
      else ret tt
  end.
Definition HashTableInit (Data : Z) (HashFunction_ : option HashFunction) (Offset : Z)
    : M HState unit :=
  _ ← ASSERT (negb (Data =? NULL));
  _ ← ASSERT (if HashFunction_ is Some _ then true else false);
  _ ← modify (fun s => let t := h_table s in
        mkHState (mkHASH_TABLE (MaxKeys t) (KeySize t) (NumberOfElements t) Offset
                    HashFunction_ Data) (h_links s) (h_mem s));
  t ← gets h_table;
  init_loop (S (Z.to_nat (MaxKeys t))) 0.

Definition HashTableSize : M HState Z := gets (fun s => NumberOfElements (h_table s)).

(** HashTable->HashFunc(pKey, KeySize, MaxKeys) *)
Definition call_hash (pKey : Z) : M HState Z :=
  t ← gets h_table;
  match HashFunc t with
  | Some f => on_mem (f pKey (KeySize t) (MaxKeys t))
  | None => fail MemFault
  end.

Definition HashTableInsert (Element : Z) : M HState Z :=
  _ ← ASSERT (negb (Element =? NULL));
  t ← gets h_table;
  pKey ← lift (_HashTableObtainKeyAddress t Element);
  hIndex ← call_hash pKey;
  _ ← ASSERT (hIndex <? MaxKeys t);
  '(bElementAlreadyInHash, pPlace) ← _HashTableSearchKeyInBucket (entry_addr t hIndex) pKey;
  _ ← on_links (InsertHeadList pPlace Element);
  _ ← (if bElementAlreadyInHash : bool then
         (_ ← on_links (RemoveEntryList pPlace); ret tt) : M HState unit
       else modify (fun s => set_count (u32 (NumberOfElements (h_table s) + 1)) s));
  ret (if bElementAlreadyInHash : bool then pPlace else NULL).

Definition HashTableRemoveEntry (Element : Z) : M HState unit :=
  _ ← ASSERT (negb (Element =? NULL));
  _ ← on_links (RemoveEntryList Element);
  modify (fun s => set_count (u32 (NumberOfElements (h_table s) - 1)) s).

Definition HashTableLookup (Key : Z) : M HState Z :=
  _ ← ASSERT (negb (Key =? NULL));
  t ← gets h_table;
  hIndex ← call_hash Key;
  '(bElementInHash, pResult) ← _HashTableSearchKeyInBucket (entry_addr t hIndex) Key;
  ret (if bElementInHash : bool then pResult else NULL).

Definition HashTableRemove (Key : Z) : M HState Z :=
  _ ← ASSERT (negb (Key =? NULL));
  pHashEntry ← HashTableLookup Key;
  _ ← (if negb (pHashEntry =? NULL) then HashTableRemoveEntry pHashEntry else ret tt);
  ret pHashEntry.

Definition HashTableIteratorInit : M HState HASH_ITERATOR :=
  t ← gets h_table;
  it ← on_links (ListIteratorInit (entry_addr t 0));
  ret (mkHASH_ITERATOR 0 it).

Fixpoint iterator_next_loop (fuel : nat) (it : HASH_ITERATOR) (pResult : Z)
    : M HState (Z * HASH_ITERATOR) :=
  match fuel with
  | O => fail NoFuel
  | S fuel' =>
      t ← gets h_table;
      if KeyIndex it <? MaxKeys t then
        '(pResult, cur) ← on_links (ListIteratorNext (CurrentKeyIterator it));
        if negb (pResult =? NULL) then ret (pResult, mkHASH_ITERATOR (KeyIndex it) cur) else
        let KeyIndex' := u32 (KeyIndex it + 1) in
        cur ← on_links (ListIteratorInit (entry_addr t KeyIndex'));
        iterator_next_loop fuel' (mkHASH_ITERATOR KeyIndex' cur) pResult
      else ret (pResult, it)
  end.
Definition HashTableIteratorNext (it : HASH_ITERATOR) : M HState (Z * HASH_ITERATOR) :=
  t ← gets h_table;
  iterator_next_loop (S (Z.to_nat (MaxKeys t - KeyIndex it))) it NULL.

(** [FreeFunction] is [None] when the pointer is NULL. *)
Fixpoint clear_loop (fuel : nat) (it : HASH_ITERATOR) (FreeFunction : option (Z -> M HState unit))
    : M HState unit :=
  match fuel with
  | O => fail NoFuel
  | S fuel' =>
      '(pEntry, it') ← HashTableIteratorNext it;
      if pEntry =? NULL then ret tt else
      _ ← HashTableRemoveEntry pEntry;
      _ ← (if FreeFunction is Some f then f pEntry else ret tt);
      clear_loop fuel' it' FreeFunction
  end.
Definition HashTableClear (FreeFunction : option (Z -> M HState unit)) : M HState unit :=
  it ← HashTableIteratorInit;
  n ← gets (fun s => size (h_links s));
  clear_loop (S n) it FreeFunction.

(** cl_memcpy of the key into the local QWORD keyValue: the bytes past the
    eighth would land outside it. *)
Definition load_key (Key KeyLength : Z) : M Mem Z :=
  _ ← ASSERT (negb (Key =? NULL));
  _ ← ASSERT (KeyLength <=? MAX_QWORD);
  bs ← read_bytes Key (Z.to_nat KeyLength);
  if 8 <? KeyLength then fail MemFault else ret (le_value bs).

Definition HashFuncGenericIncremental : HashFunction := fun Key KeyLength MaxKeys =>
  keyValue ← load_key Key KeyLength;
  if MaxKeys =? 0 then fail DivideError else ret (keyValue mod MaxKeys).

Definition HASH_UNIVERSAL_A : Z := 1701.
Definition HASH_UNIVERSAL_B : Z := 59.
Definition HASH_UNIVERSAL_P : Z := 10007.

Definition HashFuncUniversal : HashFunction := fun Key KeyLength MaxKeys =>
  keyValue ← load_key Key KeyLength;
  let result := keyValue mod HASH_UNIVERSAL_P in
  _ ← ASSERT (result <? MAX_QWORD `div` HASH_UNIVERSAL_A - HASH_UNIVERSAL_B);
  if MaxKeys =? 0 then fail DivideError else
  ret (u64 (u64 (HASH_UNIVERSAL_A * result) + HASH_UNIVERSAL_B) mod HASH_UNIVERSAL_P mod MaxKeys).

(** * What a table represents *)

(** The key of [n] bytes at [p] has the little-endian value [k]. *)
Definition key_is (m : Mem) (p n k : Z) : Prop :=
  exists bs, Z.of_nat (length bs) = n /\ Forall is_byte bs /\ bytes_at m p bs /\ le_value bs = k.

(** The contract of a hash function for keys of [n] bytes and [mx] buckets: it
    returns, without changing memory, a bucket that depends on the key only. *)
Class HashOk (f : HashFunction) (n mx : Z) (H : Z -> Z) : Prop := {
  hash_run : forall m p k, p <> NULL -> key_is m p n k -> f p n mx m = Ok (H k, m);
  hash_lt : forall k, 0 <= k -> 0 <= H k < mx
}.

(** [s'] differs from [s] in the element count and the links of existing cells. *)
Definition same_shape (s s' : HState) : Prop :=
  h_table s' = h_table (set_count (NumberOfElements (h_table s')) s) /\
  h_mem s' = h_mem s /\ dom (h_links s') = dom (h_links s).

Section Represents.
Context (kf : Z -> Z) (H : Z -> Z).

Definition key_lt (a b : Z) : Prop := kf a < kf b.

(** The entries of bucket [i]: non-NULL, with a key that hashes to [i], in
    increasing key order. *)
Definition bucket_ok (s : HState) (i : Z) (xs : list Z) : Prop :=
  StronglySorted key_lt xs /\
  Forall (fun e => e <> NULL /\ e + OffsetToKey (h_table s) <> NULL /\ H (kf e) = i /\
    key_is (h_mem s) (e + OffsetToKey (h_table s)) (KeySize (h_table s)) (kf e)) xs.

(** [e] is linked in one of the buckets. *)
Definition in_table (t : HASH_TABLE) (L : Lists) (e : Z) : Prop :=
  exists i xs, 0 <= i < MaxKeys t /\ L !! entry_addr t i = Some xs /\ e ∈ xs.

(** [L] are the lists of the store (the buckets and any other list), [A] the
    map from key values to entries. *)
Record ht_rep (s : HState) (L : Lists) (A : gmap Z Z) : Prop := {
  rep_size : 0 < KeySize (h_table s) <= 8;
  rep_max : 0 < MaxKeys (h_table s) < 2 ^ 28;
  rep_data : 0 < TableData (h_table s);
  rep_hash : exists f, HashFunc (h_table s) = Some f /\
    HashOk f (KeySize (h_table s)) (MaxKeys (h_table s)) H;
  rep_lists : lists_rep (h_links s) L;
  rep_buckets : forall i, 0 <= i < MaxKeys (h_table s) ->
    exists xs, L !! entry_addr (h_table s) i = Some xs /\ bucket_ok s i xs;
  rep_map : forall k e, A !! k = Some e <-> in_table (h_table s) L e /\ kf e = k;
  rep_count : NumberOfElements (h_table s) = u32 (Z.of_nat (size A))
}.

(** ** Searching a bucket *)

Definition set_ctx (c : HASH_ELEM_SEARCH_CTX) (ss : SearchState) : SearchState :=
  mkSearchState c (ss_host ss).

Lemma key_is_nonneg m p n k : key_is m p n k -> 0 <= k.
Proof. intros (bs & _ & Hb & _ & <-). by apply le_value_range in Hb as [? _]. Qed.

Lemma search_elem_run ss e pKey k :
  e <> NULL -> pKey <> NULL -> e + OffsetToKey (h_table (ss_host ss)) <> NULL ->
  0 < KeySize (h_table (ss_host ss)) <= 8 ->
  key_is (h_mem (ss_host ss)) (e + OffsetToKey (h_table (ss_host ss)))
    (KeySize (h_table (ss_host ss))) (kf e) ->
  key_is (h_mem (ss_host ss)) pKey (KeySize (h_table (ss_host ss))) k ->
  exists r, _HashTableSearchElem e pKey ss = Ok (r, set_ctx (mkCtx e r) ss) /\
    Z.sgn r = Z.sgn (kf e - k).
Proof.
  intros He HK Hoff Hsz (bs1 & L1 & B1 & M1 & E1) (bs2 & L2 & B2 & M2 & E2).
  destruct ss as [c s]. simpl in *.
  destruct (wp_Ok _ _ _ (cl_rmemcmp_spec (e + OffsetToKey (h_table s)) pKey bs1 bs2 (h_mem s)
    Hoff HK ltac:(lia) ltac:(lia) B1 B2 M1 M2)) as (r & m' & E & -> & Hr & Hsgn).
  exists r. rewrite L1 in E. split; [|by rewrite <- E1, <- E2].
  unfold _HashTableSearchElem, _HashTableObtainKeyAddress.
  rewrite (proj2 (Z.eqb_neq e NULL) He), (proj2 (Z.eqb_neq pKey NULL) HK).
  unfold mbind, M_bind, modify, gets, on_mem, zoom. simpl. rewrite E. simpl.
  rewrite i32_small by lia. unfold set_ctx. simpl. by destruct s.
Qed.

(** The outcome of a search for [k] in the entries [xs] of the list [h]. *)
Definition search_post (h k : Z) (xs : list Z) (found : bool) (place : Z) : Prop :=
  if found then exists l1 l2, xs = l1 ++ place :: l2 /\ kf place = k
  else exists l1 l2, xs = l1 ++ l2 /\ place = lst h l1 /\
    Forall (fun e => kf e < k) l1 /\ Forall (fun e => k < kf e) l2.

(** What the callback left in the search context. *)
Definition ctx_post (h k : Z) (pre cur : list Z) (res : Z) (c : HASH_ELEM_SEARCH_CTX) : Prop :=
  (res <> NULL /\ (exists l1 l2, cur = l1 ++ res :: l2) /\ kf res = k /\ c = mkCtx res 0) \/
  (res = NULL /\ exists l1 l2, cur = l1 ++ l2 /\
     Forall (fun e => kf e < k) l1 /\ Forall (fun e => k < kf e) l2 /\
     match l2 with
     | [] => PlaceholderEntry c = lst h (pre ++ l1) /\ Result c <= 0
     | x :: _ => PlaceholderEntry c = x /\ 0 < Result c
     end).

Lemma ctx_post_cons h k pre x cur res c :
  kf x < k -> ctx_post h k (pre ++ [x]) cur res c -> ctx_post h k pre (x :: cur) res c.
Proof.
  intros Hx [(H1 & (l1 & l2 & ->) & H3)|(-> & l1 & l2 & -> & H1 & H2 & H3)].
  - left. split; [done|]. split; [by exists (x :: l1), l2|done].
  - right. split; [done|]. exists (x :: l1), l2. split_and!; [done|by constructor|done|].
    by rewrite <- app_assoc in H3.
Qed.

Lemma hash_search_loop h pKey k cur : forall fuel pre ss,
  dlist (links ss) h (pre ++ cur) -> (length cur < fuel)%nat -> pKey <> NULL ->
  0 < KeySize (h_table (ss_host ss)) <= 8 ->
  key_is (h_mem (ss_host ss)) pKey (KeySize (h_table (ss_host ss))) k ->
  (exists i, bucket_ok (ss_host ss) i cur) ->
  PlaceholderEntry (ss_ctx ss) = lst h pre -> Result (ss_ctx ss) <= 0 ->
  exists res c, search_loop fuel (fst_ h cur) h pKey true _HashTableSearchElem ss
    = Ok (res, set_ctx c ss) /\ ctx_post h k pre cur res c.
Proof.
  induction cur as [|x cur IH]; intros fuel pre ss Hd Hf HK Hsz Hk [i [Hs Hb]] Hp Hr;
    (destruct fuel as [|fuel]; [simpl in Hf; lia|]).
  - exists NULL, (ss_ctx ss). split; [|right].
    + simpl. rewrite Z.eqb_refl. by destruct ss.
    + split; [done|]. exists [], []. split_and!; [done|constructor|constructor| |done]. by rewrite app_nil_r.
  - destruct (dlist_next _ _ pre x cur Hd) as (_ & Hne & Hd').
    apply Forall_cons in Hb as [(Hx0 & Hoff & _ & Hxk) Hb].
    apply StronglySorted_inv in Hs as [Hs Hlt].
    destruct (search_elem_run ss x pKey k Hx0 HK Hoff Hsz Hxk Hk) as (r & E & Hsgn).
    cbn [search_loop fst_ List.hd]. rewrite (proj2 (Z.eqb_neq x h) Hne).
    unfold mbind at 1, M_bind at 1. rewrite E. clear E.
    destruct (Z.eqb_spec r 0) as [->|Hr0].
    { exists x, (mkCtx x 0). split; [done|]. left. split_and!; try done; [by exists [], cur|].
      destruct (Z.sgn_spec (kf x - k)); simpl in Hsgn; lia. }
    destruct (Z.ltb_spec 0 r) as [Hr1|Hr1]; simpl.
    + exists NULL, (mkCtx x r). split; [done|]. right. split; [done|].
      exists [], (x :: cur). split_and!; try done.
      assert (k < kf x) by (rewrite Z.sgn_pos in Hsgn by lia; lia).
      constructor; [done|]. eapply Forall_impl; [exact Hlt|]. unfold key_lt. simpl. lia.
    + assert (kf x < k) by (rewrite Z.sgn_neg in Hsgn by lia; lia).
      unfold mbind, M_bind. rewrite (on_links_next _ h pre x cur) by done.
      destruct (IH fuel (pre ++ [x]) (set_ctx (mkCtx x r) ss)) as (res & c & E & Hpost);
        try done; [simpl in Hf; lia|by exists i|by rewrite lst_snoc|].
      exists res, c. split; [|by apply ctx_post_cons]. by rewrite E.
Qed.

Lemma search_bucket_run s h pKey k xs i :
  dlist (h_links s) h xs -> h <> NULL -> pKey <> NULL -> 0 < KeySize (h_table s) <= 8 ->
  key_is (h_mem s) pKey (KeySize (h_table s)) k -> bucket_ok s i xs ->
  exists found place, _HashTableSearchKeyInBucket h pKey s = Ok ((found, place), s) /\
    search_post h k xs found place.
Proof.
  intros Hd Hh HK Hsz Hk Hb.
  destruct (hash_search_loop h pKey k xs (S (S (size (h_links s)))) []
    (mkSearchState (mkCtx h 0) s)) as (res & c & E & Hpost); try done.
  { pose proof (dlist_length _ _ _ Hd). lia. } { by exists i. }
  assert (Erun : ListSearchForElement h pKey true (Some _HashTableSearchElem)
    (mkSearchState (mkCtx h 0) s) = Ok (res, mkSearchState c s)).
  { unfold ListSearchForElement.
    rewrite (proj2 (Z.eqb_neq h NULL) Hh), (proj2 (Z.eqb_neq pKey NULL) HK).
    unfold mbind, M_bind. rewrite (on_links_validate _ h xs), (on_links_first _ h xs) by done.
    rewrite list_fuel_run. exact E. }
  unfold _HashTableSearchKeyInBucket.
  rewrite (proj2 (Z.eqb_neq h NULL) Hh), (proj2 (Z.eqb_neq pKey NULL) HK).
  unfold mbind, M_bind, getS, putS, ASSERT, lift, assert_. cbn [negb]. rewrite Erun. simpl.
  destruct Hpost as [(Hn & (l1 & l2 & ->) & Hkf & ->)|(-> & l1 & l2 & -> & H1 & H2 & H3)].
  - exists true, res. rewrite (proj2 (Z.eqb_neq res NULL) Hn). simpl. rewrite Z.eqb_refl. simpl.
    split; [done|]. by exists l1, l2.
  - exists false, (lst h l1). simpl. split; [|by exists l1, l2].
    destruct l2 as [|x l2]; destruct H3 as [H3 H4].
    + rewrite (proj2 (Z.ltb_ge _ _)) by lia. unfold ret. by rewrite H3.
    + rewrite (proj2 (Z.ltb_lt _ _)) by lia. rewrite H3.
      destruct (dlist_around _ _ _ _ _ Hd) as [[_ B] _]. unfold blink in B.
      unfold on_links, zoom, get_Blink. simpl.
      destruct (h_links s !! x) as [e|]; [|done]. simpl in B. injection B as ->. simpl.
      by destruct s.
Qed.

(** ** Tables *)

Lemma entry_addr_inj t i j : entry_addr t i = entry_addr t j -> i = j.
Proof. unfold entry_addr, SIZEOF_HASH_ENTRY. lia. Qed.

Lemma sorted_around l1 p l2 : StronglySorted key_lt (l1 ++ p :: l2) ->
  Forall (fun e => kf e < kf p) l1 /\ Forall (fun e => kf p < kf e) l2 /\
  StronglySorted key_lt (l1 ++ l2).
Proof.
  induction l1 as [|x l1 IH]; simpl; intros Hs.
  - apply StronglySorted_inv in Hs as [Hs Hp]. split_and!; [constructor|done|done].
  - apply StronglySorted_inv in Hs as [Hs Hx]. destruct (IH Hs) as (H1 & H2 & H3).
    rewrite Forall_app, Forall_cons in Hx. destruct Hx as (Hx1 & Hxp & Hx2).
    split_and!; [by constructor|done|]. constructor; [done|]. by apply Forall_app.
Qed.

Section Table.
Context (s : HState) (L : Lists) (A : gmap Z Z) (Rep : ht_rep s L A).
Let t := h_table s.

Lemma call_hash_run pKey k :
  pKey <> NULL -> key_is (h_mem s) pKey (KeySize t) k -> call_hash pKey s = Ok (H k, s).
Proof.
  intros HK Hk. destruct (rep_hash s L A Rep) as (f & Ef & Hok).
  unfold call_hash, mbind, M_bind, gets. rewrite Ef. unfold on_mem, zoom.
  fold t. rewrite (hash_run (h_mem s) pKey k HK Hk). by destruct s.
Qed.

Lemma key_bucket pKey k : key_is (h_mem s) pKey (KeySize t) k ->
  0 <= H k < MaxKeys t /\
  exists xs, L !! entry_addr t (H k) = Some xs /\ bucket_ok s (H k) xs /\
    dlist (h_links s) (entry_addr t (H k)) xs.
Proof.
  intros Hk. destruct (rep_hash s L A Rep) as (f & _ & Hok).
  assert (Hlt : 0 <= H k < MaxKeys t).
  { apply (hash_lt (HashOk := Hok)). by eapply key_is_nonneg. }
  split; [done|]. destruct (rep_buckets s L A Rep _ Hlt) as (xs & HL & Hb).
  exists xs. split_and!; [done|done|]. by apply (rep_lists s L A Rep).
Qed.

Lemma entry_addr_not_null i : 0 <= i -> entry_addr t i <> NULL.
Proof. pose proof (rep_data s L A Rep). unfold entry_addr, SIZEOF_HASH_ENTRY, NULL, t. lia. Qed.

(** The bucket of an entry is the one its key hashes to. *)
Lemma in_table_bucket e xs : in_table t L e ->
  L !! entry_addr t (H (kf e)) = Some xs -> e ∈ xs.
Proof.
  intros (i & ys & Hi & HL & He) HL'. destruct (rep_buckets s L A Rep i Hi) as (zs & HL2 & Hb).
  fold t in HL2. simplify_eq. destruct Hb as [_ Hb].
  rewrite Forall_forall in Hb. destruct (Hb e He) as (_ & _ & <- & _). by simplify_eq.
Qed.

Lemma search_abs k xs found place :
  L !! entry_addr t (H k) = Some xs -> 0 <= H k < MaxKeys t ->
  search_post (entry_addr t (H k)) k xs found place ->
  A !! k = if found then Some place else None.
Proof.
  intros HL Hlt Hp. destruct found; simpl in Hp.
  - destruct Hp as (l1 & l2 & -> & Hk). apply (rep_map s L A Rep). split; [|done].
    exists (H k), (l1 ++ place :: l2). split_and!; [apply Hlt|apply Hlt|done|set_solver].
  - destruct Hp as (l1 & l2 & -> & _ & H1 & H2).
    destruct (A !! k) as [e|] eqn:Ek; [|done]. exfalso.
    apply (rep_map s L A Rep) in Ek as [Hin <-].
    pose proof (in_table_bucket e _ Hin HL) as He. rewrite !Forall_forall in *.
    apply elem_of_app in He as [He|He]; [specialize (H1 e He)|specialize (H2 e He)]; lia.
Qed.

Lemma lookup_run pKey k :
  pKey <> NULL -> key_is (h_mem s) pKey (KeySize t) k ->
  HashTableLookup pKey s = Ok (default NULL (A !! k), s).
Proof.
  intros HK Hk. destruct (key_bucket pKey k Hk) as (Hlt & xs & HL & Hb & Hd).
  destruct (search_bucket_run s (entry_addr t (H k)) pKey k xs (H k)) as (found & place & E & Hp);
    try done; [apply entry_addr_not_null, Hlt|apply (rep_size s L A Rep)|].
  unfold HashTableLookup. rewrite (proj2 (Z.eqb_neq pKey NULL) HK).
  unfold mbind, M_bind, gets. simpl. rewrite (call_hash_run pKey k HK Hk). fold t. rewrite E.
  rewrite (search_abs k xs found place HL Hlt Hp). by destruct found.
Qed.

(** Replacing the entries of one bucket. *)
Lemma in_table_update i xs xs' e :
  0 <= i < MaxKeys t -> L !! entry_addr t i = Some xs ->
  in_table t (<[entry_addr t i := xs']> L) e <-> e ∈ xs' \/ (in_table t L e /\ e ∉ xs).
Proof.
  intros Hi HL. split.
  - intros (j & ys & Hj & HLj & He). rewrite lookup_insert in HLj. case_decide as E.
    + simplify_eq. by left.
    + right. split; [by exists j, ys|].
      pose proof (lists_rep_disjoint _ L _ xs _ ys e (rep_lists s L A Rep) HL HLj) as Hdis.
      unfold cells in Hdis. intros Hex. apply Hdis; [congruence|set_solver|set_solver].
  - intros [He|[(j & ys & Hj & HLj & He) Hn]].
    + exists i, xs'. by rewrite lookup_insert_eq.
    + exists j, ys. rewrite lookup_insert_ne; [done|]. intros E. rewrite E in HL. by simplify_eq.
Qed.

Lemma ht_rep_update s' n i xs xs' A' :
  s' = set_count n (set_links (h_links s') s) ->
  0 <= i < MaxKeys t -> L !! entry_addr t i = Some xs -> bucket_ok s i xs' ->
  lists_rep (h_links s') (<[entry_addr t i := xs']> L) ->
  (forall k e, A' !! k = Some e <->
     in_table t (<[entry_addr t i := xs']> L) e /\ kf e = k) ->
  n = u32 (Z.of_nat (size A')) ->
  ht_rep s' (<[entry_addr t i := xs']> L) A'.
Proof.
  intros Es Hi HL Hb HR HA Hn. destruct s' as [t' l' m']. unfold set_count in Es. simpl in Es.
  injection Es as Et Em. simpl in HR. subst m'. destruct Rep. unfold t in *. clear t.
  split; simpl; subst t'; simpl; try done.
  intros j Hj. change (entry_addr _ j) with (entry_addr (h_table s) j).
  rewrite lookup_insert. case_decide as E.
  - apply entry_addr_inj in E. subst j. by exists xs'.
  - destruct (rep_buckets0 j Hj) as (ys & HLj & Hbj). by exists ys.
Qed.

(** Linking [e] in its place and unlinking the entry it replaces. *)
Lemma relink_insert e h xs found place :
  L !! h = Some xs -> free_cell L e -> is_Some (h_links s !! e) ->
  StronglySorted key_lt xs -> search_post h (kf e) xs found place ->
  exists l1 l2 m1, InsertHeadList place e (h_links s) = Ok (tt, m1) /\
    Forall (fun x => kf x < kf e) l1 /\ Forall (fun x => kf e < kf x) l2 /\
    StronglySorted key_lt (l1 ++ e :: l2) /\
    (if found then xs = l1 ++ place :: l2 /\
       exists m2, RemoveEntryList place m1 = Ok (false, m2) /\
         lists_rep m2 (<[h := l1 ++ e :: l2]> L) /\ dom m2 = dom (h_links s)
     else xs = l1 ++ l2 /\ lists_rep m1 (<[h := l1 ++ e :: l2]> L) /\
       dom m1 = dom (h_links s)).
Proof.
  intros HL Hfree Hs Hsort Hp. pose proof (proj1 (rep_lists s L A Rep) h xs HL) as Hd.
  pose proof (Hfree h xs HL) as He. unfold cells in He. destruct found; simpl in Hp.
  - destruct Hp as (l1 & l2 & -> & Hk).
    destruct (sorted_around l1 place l2 Hsort) as (S1 & S2 & S3). rewrite Hk in S1, S2.
    assert (Hd' : dlist (h_links s) h ((l1 ++ [place]) ++ l2)) by (by rewrite <- app_assoc).
    destruct (wp_Ok _ _ _ (InsertHeadList_at _ h (l1 ++ [place]) l2 e Hd'
      ltac:(rewrite <- app_assoc; done) Hs)) as ([] & m1 & E1 & Hd1 & Hf1).
    rewrite lst_snoc in E1. rewrite <- app_assoc in Hd1, Hf1. simpl in Hd1, Hf1.
    destruct (wp_Ok _ _ _ (RemoveEntryList_spec m1 h l1 place (e :: l2) Hd1))
      as (r & m2 & E2 & Hd2 & Hf2 & ->).
    rewrite bool_decide_eq_false_2 in E2 by (by destruct l1).
    exists l1, l2, m1. split_and!; [done|done|done| |done|].
    { by apply StronglySorted_insert. }
    exists m2. split; [done|]. split;
      [|rewrite (links_frame_dom _ _ _ Hf2); by eapply links_frame_dom].
    assert (R1 : lists_rep m1 (<[h := l1 ++ place :: e :: l2]> L)).
    { eapply lists_rep_insert; [apply (rep_lists s L A Rep)|done|done|done|done|set_solver]. }
    rewrite <- (insert_insert_eq L h (l1 ++ e :: l2) (l1 ++ place :: e :: l2)).
    eapply lists_rep_shrink; [done|apply lookup_insert_eq|done|done|set_solver].
  - destruct Hp as (l1 & l2 & -> & -> & S1 & S2).
    destruct (wp_Ok _ _ _ (InsertHeadList_at _ h l1 l2 e Hd He Hs)) as ([] & m1 & E1 & Hd1 & Hf1).
    exists l1, l2, m1. split_and!; [done|done|done| |done| |by eapply links_frame_dom].
    { by apply StronglySorted_insert. }
    eapply lists_rep_insert; [apply (rep_lists s L A Rep)|done|done|done|done|set_solver].
Qed.

(** The entries of the table after an insertion or removal in a bucket. *)
Lemma in_table_insert e xs l1 l2 found place e' :
  0 <= H (kf e) < MaxKeys t -> L !! entry_addr t (H (kf e)) = Some xs ->
  search_post (entry_addr t (H (kf e))) (kf e) xs found place -> NoDup xs ->
  xs = l1 ++ (if found : bool then [place] else []) ++ l2 ->
  in_table t (<[entry_addr t (H (kf e)) := l1 ++ e :: l2]> L) e' <->
  e' = e \/ (in_table t L e' /\ kf e' <> kf e).
Proof.
  intros Hi HL Hp Hnd Hxs.
  rewrite (in_table_update _ xs _ e' Hi HL).
  pose proof (search_abs (kf e) xs found place HL Hi Hp) as HA.
  assert (Hkey : in_table t L e' -> kf e' = kf e -> found = true /\ e' = place).
  { intros Hin Hk. assert (Hs : A !! kf e = Some e') by (by apply (rep_map s L A Rep)).
    rewrite HA in Hs. destruct found; by simplify_eq. }
  assert (Hsub : forall x, x ∈ xs -> in_table t L x).
  { intros x Hx. by exists (H (kf e)), xs. }
  assert (Hplace : found = true -> kf place = kf e).
  { intros ->. by destruct Hp as (? & ? & _ & ?). }
  subst xs. split.
  - intros [Hin|[Hin Hn]].
    + assert (Hor : e' = e \/ e' ∈ l1 \/ e' ∈ l2) by set_solver.
      destruct Hor as [->|Hor]; [by left|]. right. split; [apply Hsub; set_solver|].
      intros Hk. destruct (Hkey (Hsub e' ltac:(set_solver)) Hk) as [-> ->].
      rewrite NoDup_app, NoDup_app in Hnd. set_solver.
    + right. split; [done|]. intros Hk. destruct (Hkey Hin Hk) as [-> ->]. set_solver.
  - intros [->|[Hin Hk]]; [left; set_solver|].
    destruct (decide (e' ∈ l1 ++ l2)) as [Hd|Hd]; [left; set_solver|]. right. split; [done|].
    destruct found; [|set_solver]. specialize (Hplace eq_refl).
    assert (e' <> place) by congruence. set_solver.
Qed.

Lemma insert_exec e i found place m1 m' n :
  e <> NULL -> call_hash (e + OffsetToKey t) s = Ok (i, s) -> i < MaxKeys t ->
  _HashTableSearchKeyInBucket (entry_addr t i) (e + OffsetToKey t) s = Ok ((found, place), s) ->
  InsertHeadList place e (h_links s) = Ok (tt, m1) ->
  (if found then RemoveEntryList place m1 = Ok (false, m') /\ n = NumberOfElements t
   else m' = m1 /\ n = u32 (NumberOfElements t + 1)) ->
  HashTableInsert e s = Ok (if found then place else NULL, set_count n (set_links m' s)).
Proof.
  intros He Hcall Hi Hsearch Hins Hrest.
  assert (Ha : _HashTableObtainKeyAddress t e = Ok (e + OffsetToKey t)).
  { unfold _HashTableObtainKeyAddress. by rewrite (proj2 (Z.eqb_neq e NULL) He). }
  unfold HashTableInsert, mbind, M_bind, gets, ASSERT. rewrite (proj2 (Z.eqb_neq e NULL) He).
  cbn [negb assert_ lift]. fold t. rewrite Ha. cbn [lift]. rewrite Hcall.
  rewrite (proj2 (Z.ltb_lt _ _) Hi). cbn [assert_ lift]. rewrite Hsearch.
  unfold on_links, zoom. cbn [links HasLinks_HState]. rewrite Hins.
  destruct found; destruct Hrest as [Hr ->]; cbn [links set_links HasLinks_HState h_links h_table].
  - rewrite Hr. by destruct s as [[] ? ?].
  - subst. by destruct s.
Qed.

Lemma insert_map e xs l1 l2 found place :
  0 <= H (kf e) < MaxKeys t -> L !! entry_addr t (H (kf e)) = Some xs ->
  search_post (entry_addr t (H (kf e))) (kf e) xs found place -> NoDup xs ->
  xs = l1 ++ (if found : bool then [place] else []) ++ l2 ->
  forall k e', <[kf e := e]> A !! k = Some e' <->
    in_table t (<[entry_addr t (H (kf e)) := l1 ++ e :: l2]> L) e' /\ kf e' = k.
Proof.
  intros Hlt HL Hp Hnd Hxs k e'.
  rewrite (in_table_insert e xs l1 l2 found place e' Hlt HL Hp Hnd Hxs).
  pose proof (rep_map s L A Rep k e') as Hm. rewrite lookup_insert.
  case_decide; naive_solver.
Qed.

Lemma count_insert e found place :
  A !! kf e = (if found : bool then Some place else None) ->
  (if found then NumberOfElements t else u32 (NumberOfElements t + 1)) =
  u32 (Z.of_nat (size (<[kf e := e]> A))).
Proof.
  intros HA. pose proof (rep_count s L A Rep) as Hc. fold t in Hc. rewrite Hc. destruct found.
  - by rewrite map_size_insert_Some by (rewrite HA; eauto).
  - rewrite map_size_insert_None by done. unfold u32. rewrite Zplus_mod_idemp_l. f_equal. lia.
Qed.

Lemma insert_run e :
  e <> NULL -> e + OffsetToKey t <> NULL -> free_cell L e -> is_Some (h_links s !! e) ->
  key_is (h_mem s) (e + OffsetToKey t) (KeySize t) (kf e) ->
  exists s' xs', HashTableInsert e s = Ok (default NULL (A !! kf e), s') /\
    ht_rep s' (<[entry_addr t (H (kf e)) := xs']> L) (<[kf e := e]> A) /\
    same_shape s s'.
Proof.
  intros He0 Hoff Hfree Hs Hk.
  destruct (key_bucket _ (kf e) Hk) as (Hlt & xs & HL & Hb & Hd).
  destruct (search_bucket_run s (entry_addr t (H (kf e))) (e + OffsetToKey t) (kf e) xs (H (kf e)))
    as (found & place & E & Hp); try done;
    [apply entry_addr_not_null, Hlt|apply (rep_size s L A Rep)|].
  pose proof (search_abs (kf e) xs found place HL Hlt Hp) as HA.
  assert (Hnd : NoDup xs) by (destruct Hd as [[_ ?]%NoDup_cons _]; done).
  destruct (relink_insert e _ xs found place HL Hfree Hs (proj1 Hb) Hp)
    as (l1 & l2 & m1 & E1 & F1 & F2 & Hsort & Hcase).
  assert (Hxs : xs = l1 ++ (if found then [place] else []) ++ l2).
  { destruct found; by destruct Hcase as [? _]. }
  assert (Hb' : bucket_ok s (H (kf e)) (l1 ++ e :: l2)).
  { split; [done|]. destruct Hb as [_ Hb]. rewrite Hxs in Hb.
    rewrite !Forall_app in *. rewrite Forall_cons. naive_solver. }
  pose proof (insert_map e xs l1 l2 found place Hlt HL Hp Hnd Hxs) as HA'.
  pose proof (count_insert e found place HA) as Hn.
  assert (Hm' : exists m', (if found then RemoveEntryList place m1 = Ok (false, m')
      else m' = m1) /\ lists_rep m' (<[entry_addr t (H (kf e)) := l1 ++ e :: l2]> L) /\
      dom m' = dom (h_links s)).
  { destruct found; [destruct Hcase as (_ & m2 & ? & ? & ?)|destruct Hcase as (_ & ? & ?)]; eauto. }
  destruct Hm' as (m' & Em & HR & Hdom).
  set (n := if found then NumberOfElements t else u32 (NumberOfElements t + 1)) in *.
  exists (set_count n (set_links m' s)), (l1 ++ e :: l2). split_and!; [| |done].
  - rewrite (insert_exec e (H (kf e)) found place m1 m' n He0
      (call_hash_run _ _ Hoff Hk) (proj2 Hlt) E E1); [rewrite HA; by destruct found|].
    unfold n. by destruct found.
  - by eapply (ht_rep_update _ _ (H (kf e)) xs).
Qed.

Lemma remove_map p l1 l2 :
  0 <= H (kf p) < MaxKeys t -> L !! entry_addr t (H (kf p)) = Some (l1 ++ p :: l2) ->
  StronglySorted key_lt (l1 ++ p :: l2) ->
  forall k e', delete (kf p) A !! k = Some e' <->
    in_table t (<[entry_addr t (H (kf p)) := l1 ++ l2]> L) e' /\ kf e' = k.
Proof.
  intros Hi HL Hsort k e'. rewrite (in_table_update _ _ _ e' Hi HL).
  destruct (sorted_around l1 p l2 Hsort) as (F1 & F2 & _).
  rewrite Forall_forall in F1, F2.
  assert (Hin : forall x, x ∈ l1 ++ p :: l2 -> in_table t L x).
  { intros x Hx. exists (H (kf p)), (l1 ++ p :: l2). split_and!; [apply Hi|apply Hi|done|done]. }
  assert (Hne : e' ∈ l1 ++ l2 -> kf e' <> kf p).
  { intros [He'|He']%elem_of_app; [specialize (F1 e' He')|specialize (F2 e' He')]; lia. }
  assert (Hp : A !! kf p = Some p).
  { apply (rep_map s L A Rep). split; [|done]. apply Hin. set_solver. }
  pose proof (rep_map s L A Rep k e') as Hm. rewrite lookup_delete.
  assert (Hsub : e' ∈ l1 ++ l2 -> e' ∈ l1 ++ p :: l2) by set_solver.
  assert (Hsplit : e' ∈ l1 ++ p :: l2 -> e' = p \/ e' ∈ l1 ++ l2) by set_solver.
  case_decide as Ek; [subst k|].
  - split; [done|]. intros [[He'|[Hin' Hn]] Hk]; [by destruct (Hne He')|].
    assert (A !! kf p = Some e') as HA by (by apply Hm). simplify_eq. set_solver.
  - rewrite Hm. split; intros [Hl Hk]; (split; [|done]).
    + destruct (decide (e' ∈ l1 ++ p :: l2)) as [Hd|Hd]; [|by right].
      left. destruct (Hsplit Hd) as [->|]; [congruence|done].
    + destruct Hl as [He'|[? _]]; [by apply Hin, Hsub|done].
Qed.

Lemma remove_entry_run i l1 p l2 :
  0 <= i < MaxKeys t -> L !! entry_addr t i = Some (l1 ++ p :: l2) ->
  exists s', HashTableRemoveEntry p s = Ok (tt, s') /\
    ht_rep s' (<[entry_addr t i := l1 ++ l2]> L) (delete (kf p) A) /\
    same_shape s s'.
Proof.
  intros Hi HL. assert (Hin : in_table t L p).
  { exists i, (l1 ++ p :: l2). split_and!; [apply Hi|apply Hi|done|set_solver]. }
  destruct (rep_buckets s L A Rep i Hi) as (ys & HL2 & Hb). fold t in HL2. simplify_eq.
  pose proof (proj1 (rep_lists s L A Rep) _ _ HL) as Hd.
  destruct Hb as [Hsort Hb]. destruct (sorted_around l1 p l2 Hsort) as (F1 & F2 & S3).
  rewrite Forall_app, Forall_cons in Hb. destruct Hb as (B1 & (Hp0 & _ & <- & _) & B2).
  destruct (wp_Ok _ _ _ (RemoveEntryList_spec _ _ _ _ _ Hd)) as (r & m' & E & Hd' & Hf & _).
  exists (set_count (u32 (NumberOfElements t - 1)) (set_links m' s)).
  split_and!; [| |split_and!; [done|done|by eapply links_frame_dom]].
  - unfold HashTableRemoveEntry, mbind, M_bind, ASSERT. rewrite (proj2 (Z.eqb_neq p NULL) Hp0).
    cbn [negb assert_ lift]. unfold on_links, zoom. cbn [links HasLinks_HState]. rewrite E. done.
  - eapply (ht_rep_update _ _ (H (kf p)) (l1 ++ p :: l2)); [done|done|done| | | |].
    + split; [done|]. by apply Forall_app.
    + eapply lists_rep_shrink; [apply (rep_lists s L A Rep)|done|done|done|set_solver].
    + by apply remove_map.
    + pose proof (rep_count s L A Rep) as Hc. fold t in Hc.
      rewrite Hc, map_size_delete_Some by (exists p; by apply (rep_map s L A Rep)).
      unfold u32. rewrite Zminus_mod_idemp_l. f_equal.
      assert (size A <> 0)%nat; [|lia]. intros E0%map_size_empty_inv.
      assert (A !! kf p = Some p) as HA by (by apply (rep_map s L A Rep)). rewrite E0 in HA. done.
Qed.
End Table.
End Represents.

(** * The hash functions of the library *)

Lemma bytes_at_inj m p bs1 : forall bs2, length bs1 = length bs2 ->
  bytes_at m p bs1 -> bytes_at m p bs2 -> bs1 = bs2.
Proof.
  intros bs2 Hl H1 H2. apply list_eq_same_length with (length bs1); [done|done|].
  intros i x y _ Hx Hy. specialize (H1 i x Hx). specialize (H2 i y Hy). congruence.
Qed.

Lemma load_key_run m p n k : p <> NULL -> 0 < n <= 8 -> key_is m p n k ->
  load_key p n m = Ok (k, m).
Proof.
  intros Hp Hn (bs & Hl & Hb & Hm & <-). unfold load_key, mbind, M_bind, ASSERT.
  rewrite (proj2 (Z.eqb_neq p NULL) Hp), (proj2 (Z.leb_le n MAX_QWORD)) by rlia.
  cbn [negb assert_ lift].
  assert (Hmap : mapped m p (Z.of_nat (Z.to_nat n))).
  { intros a Ha. destruct (lookup_lt_is_Some_2 bs (Z.to_nat (a - p))) as [b E]; [lia|].
    apply Hm in E. rewrite Z2Nat.id in E by lia. rewrite Zplus_minus in E. eauto. }
  destruct (read_bytes_spec _ p m Hmap) as (bs' & E & Hl' & Hm'). rewrite E.
  rewrite (proj2 (Z.ltb_ge 8 n)) by lia.
  by rewrite (bytes_at_inj m p bs' bs) by (done || lia).
Qed.

(** A key longer than the QWORD it is copied into. *)
Lemma load_key_long m p n : p <> NULL -> 8 < n <= MAX_QWORD -> mapped m p n ->
  load_key p n m = Err MemFault.
Proof.
  intros Hp Hn Hm. unfold load_key, mbind, M_bind, ASSERT.
  rewrite (proj2 (Z.eqb_neq p NULL) Hp), (proj2 (Z.leb_le n MAX_QWORD)) by lia.
  cbn [negb assert_ lift]. rewrite <- (Z2Nat.id n) in Hm by lia.
  destruct (read_bytes_spec _ p m Hm) as (bs' & -> & _). by rewrite (proj2 (Z.ltb_lt 8 n)) by lia.
Qed.

Lemma HashFuncGenericIncremental_ok n mx : 0 < n <= 8 -> 0 < mx ->
  HashOk HashFuncGenericIncremental n mx (fun k => k mod mx).
Proof.
  intros Hn Hmx. split; [|intros; apply Z.mod_pos_bound; lia].
  intros m p k Hp Hk. unfold HashFuncGenericIncremental, mbind, M_bind.
  rewrite (load_key_run m p n k) by done. by rewrite (proj2 (Z.eqb_neq mx 0)) by lia.
Qed.

Definition universal_hash (mx k : Z) : Z :=
  (HASH_UNIVERSAL_A * (k mod HASH_UNIVERSAL_P) + HASH_UNIVERSAL_B) mod HASH_UNIVERSAL_P mod mx.

Lemma HashFuncUniversal_ok n mx : 0 < n <= 8 -> 0 < mx ->
  HashOk HashFuncUniversal n mx (universal_hash mx).
Proof.
  intros Hn Hmx. split; [|intros; apply Z.mod_pos_bound; lia].
  intros m p k Hp Hk. unfold HashFuncUniversal, mbind, M_bind.
  rewrite (load_key_run m p n k) by done.
  unfold universal_hash.
  pose proof (Z.mod_pos_bound k HASH_UNIVERSAL_P ltac:(done)) as Hr.
  revert Hr. generalize (k mod HASH_UNIVERSAL_P) as r. intros r Hr.
  rewrite (proj2 (Z.ltb_lt _ _)).
  - cbn [ASSERT assert_ lift]. rewrite (proj2 (Z.eqb_neq mx 0)) by lia.
    unfold HASH_UNIVERSAL_P in Hr. unfold HASH_UNIVERSAL_A, HASH_UNIVERSAL_B.
    by rewrite (u64_small (_ * _)), u64_small by rlia.
  - eapply Z.lt_le_trans; [apply Hr|]. by vm_compute.
Qed.

(** * Initialisation *)

(** The lists of the store after initialising buckets [0 .. n-1]. *)
Fixpoint with_buckets (t : HASH_TABLE) (n : nat) (L : Lists) : Lists :=
  match n with
  | O => L
  | S n' => <[entry_addr t (Z.of_nat n') := []]> (with_buckets t n' L)
  end.

Lemma with_buckets_in t n L i : 0 <= i < Z.of_nat n ->
  with_buckets t n L !! entry_addr t i = Some [].
Proof.
  induction n as [|n IH]; intros Hi; [lia|]. simpl. rewrite lookup_insert.
  case_decide as E; [done|]. apply IH.
  assert (i <> Z.of_nat n) by (intros ->; done). lia.
Qed.

Lemma with_buckets_out t n L h :
  (forall i, 0 <= i < Z.of_nat n -> h <> entry_addr t i) -> with_buckets t n L !! h = L !! h.
Proof.
  induction n as [|n IH]; intros Hi; [done|]. simpl. rewrite lookup_insert_ne.
  - apply IH. intros i Hi'. apply Hi. lia.
  - intros E. eapply (Hi (Z.of_nat n)); [lia|done].
Qed.

Lemma with_buckets_inv t n L h xs : with_buckets t n L !! h = Some xs ->
  (exists i, 0 <= i < Z.of_nat n /\ h = entry_addr t i /\ xs = []) \/ L !! h = Some xs.
Proof.
  induction n as [|n IH]; simpl; [by right|]. rewrite lookup_insert. case_decide as E.
  - intros [= <-]. left. exists (Z.of_nat n). split; [lia|]. by subst.
  - intros Hx. destruct (IH Hx) as [(i & Hi & ?)|?]; [|by right]. left. exists i. split; [lia|done].
Qed.

(** The bucket cells are in none of the lists that exist already. *)
Definition buckets_free (t : HASH_TABLE) (L : Lists) (m : Links) : Prop :=
  forall i, 0 <= i < MaxKeys t -> free_cell L (entry_addr t i) /\ is_Some (m !! entry_addr t i).

Lemma init_loop_run L : forall fuel i s,
  (Z.to_nat (MaxKeys (h_table s)) < fuel + i)%nat -> Z.of_nat i <= MaxKeys (h_table s) < 2 ^ 28 ->
  lists_rep (h_links s) (with_buckets (h_table s) i L) -> buckets_free (h_table s) L (h_links s) ->
  exists l', init_loop fuel (Z.of_nat i) s = Ok (tt, set_links l' s) /\
    lists_rep l' (with_buckets (h_table s) (Z.to_nat (MaxKeys (h_table s))) L).
Proof.
  induction fuel as [|fuel IH]; intros i s Hf Hi HR Hfree; [lia|].
  simpl. unfold mbind, M_bind, gets. destruct (Z.ltb_spec (Z.of_nat i) (MaxKeys (h_table s))).
  - destruct (Hfree (Z.of_nat i)) as [Hc Hs]; [lia|].
    destruct (wp_Ok _ _ _ (InitializeListHead_spec _ _ Hs)) as ([] & l1 & E & Hd & Hfr).
    unfold on_links, zoom. cbn [links HasLinks_HState]. rewrite E.
    rewrite u32_small by rlia. replace (Z.of_nat i + 1) with (Z.of_nat (S i)) by lia.
    destruct (IH (S i) (set_links l1 s)) as (l' & E' & HR'); cbn [h_table set_links HasLinks_HState].
    + lia.
    + lia.
    + simpl. eapply lists_rep_update; [exact HR|exact Hd|exact Hfr|].
      intros h' xs' Hne HL' x Hx. destruct (with_buckets_inv _ _ _ _ _ HL') as [(j & Hj & -> & ->)|HL2].
      * unfold cells in *. set_solver.
      * pose proof (Hc h' xs' HL2) as Hn. unfold cells in *. set_solver.
    + intros j Hj. destruct (Hfree j Hj) as [? Hj']. split; [done|].
      by eapply links_frame_is_Some.
    + exists l'. split; [|done]. exact E'.
  - exists (h_links s). split; [by destruct s|].
    by replace (Z.to_nat (MaxKeys (h_table s))) with i by lia.
Qed.

(** * Iteration *)

Definition bucket (t : HASH_TABLE) (L : Lists) (i : Z) : list Z := default [] (L !! entry_addr t i).

(** The entries of buckets [i], [i+1], ..., in traversal order. *)
Definition buckets_from (t : HASH_TABLE) (L : Lists) (i : Z) : list Z :=
  concat (bucket t L <$> seqZ i (MaxKeys t - i)).

Lemma buckets_from_cons t L i : i < MaxKeys t ->
  buckets_from t L i = bucket t L i ++ buckets_from t L (i + 1).
Proof.
  intros Hi. unfold buckets_from. rewrite seqZ_cons by lia. simpl.
  by replace (Z.pred (MaxKeys t - i)) with (MaxKeys t - (i + 1)) by lia.
Qed.

Lemma buckets_from_end t L : buckets_from t L (MaxKeys t) = [].
Proof. unfold buckets_from. by rewrite Z.sub_diag. Qed.

(** The iterator in bucket [i] with the entries [cur] of the bucket left. *)
Definition it_at (t : HASH_TABLE) (i : Z) (cur : list Z) : HASH_ITERATOR :=
  mkHASH_ITERATOR i (mkLIST_ITERATOR (entry_addr t i) (fst_ (entry_addr t i) cur)).

(** The iterator [it] has the entries [rem] left to return. *)
Definition it_rep (t : HASH_TABLE) (L : Lists) (it : HASH_ITERATOR) (rem : list Z) : Prop :=
  (exists i pre cur, 0 <= i < MaxKeys t /\ L !! entry_addr t i = Some (pre ++ cur) /\
     it = it_at t i cur /\ rem = cur ++ buckets_from t L (i + 1)) \/
  (KeyIndex it = MaxKeys t /\ rem = []).

Section Iteration.
Context (kf : Z -> Z) (H : Z -> Z).

Lemma iterator_init_at s L A i : ht_rep kf H s L A -> 0 <= i < MaxKeys (h_table s) ->
  exists cur, on_links (ListIteratorInit (entry_addr (h_table s) i)) s = Ok (cur, s) /\
    it_rep (h_table s) L (mkHASH_ITERATOR i cur) (buckets_from (h_table s) L i).
Proof.
  intros Rep Hi. destruct (rep_buckets _ _ s L A Rep i Hi) as (xs & HL & _).
  pose proof (proj1 (rep_lists _ _ s L A Rep) _ _ HL) as Hd.
  exists (mkLIST_ITERATOR (entry_addr (h_table s) i) (fst_ (entry_addr (h_table s) i) xs)). split.
  - apply on_links_run. unfold ListIteratorInit, mbind, M_bind, ASSERT.
    rewrite (proj2 (Z.eqb_neq _ NULL)) by (apply (entry_addr_not_null _ _ s L A Rep); lia).
    cbn [negb assert_ lift]. cbn [links HasLinks_HState]. by rewrite (dlist_first _ _ _ Hd).
  - left. exists i, [], xs. split_and!; [lia|lia|done|done|].
    rewrite buckets_from_cons by lia. unfold bucket. by rewrite HL.
Qed.

(** Outcome of one HashTableIteratorNext.  Leaving the last bucket reads the
    cell after the table. *)
Definition next_post (s : HState) (L : Lists) (rem : list Z)
    (r : outcome ((Z * HASH_ITERATOR) * HState)) : Prop :=
  match rem with
  | x :: rem' => exists i pre cur, 0 <= i < MaxKeys (h_table s) /\
      L !! entry_addr (h_table s) i = Some (pre ++ x :: cur) /\
      rem' = cur ++ buckets_from (h_table s) L (i + 1) /\
      r = Ok ((x, it_at (h_table s) i cur), s)
  | [] => match h_links s !! entry_addr (h_table s) (MaxKeys (h_table s)) with
          | Some _ => exists it', r = Ok ((NULL, it'), s) /\ KeyIndex it' = MaxKeys (h_table s)
          | None => r = Err MemFault
          end
  end.

Lemma end_of_table s L A (fuel : nat) : ht_rep kf H s L A -> (0 < fuel)%nat ->
  next_post s L [] (match on_links (ListIteratorInit
      (entry_addr (h_table s) (MaxKeys (h_table s)))) s with
    | Ok (cur, s') => iterator_next_loop fuel (mkHASH_ITERATOR (MaxKeys (h_table s)) cur) NULL s'
    | Err e => Err e
    end).
Proof.
  intros Rep Hf. simpl. pose proof (rep_max _ _ s L A Rep).
  unfold on_links, zoom, ListIteratorInit, mbind, M_bind, ASSERT, get_Flink.
  rewrite (proj2 (Z.eqb_neq _ NULL)) by (apply (entry_addr_not_null _ _ s L A Rep); lia).
  cbn [negb assert_ lift links HasLinks_HState].
  destruct (h_links s !! entry_addr (h_table s) (MaxKeys (h_table s))) as [e|]; [|done].
  destruct fuel as [|fuel]; [lia|]. simpl. unfold mbind, M_bind, gets. simpl.
  rewrite Z.ltb_irrefl. eexists. split; [by destruct s|done].
Qed.

Lemma next_loop_run s L A : ht_rep kf H s L A -> forall fuel it rem,
  it_rep (h_table s) L it rem -> KeyIndex it < MaxKeys (h_table s) ->
  (Z.to_nat (MaxKeys (h_table s) - KeyIndex it) < fuel)%nat ->
  next_post s L rem (iterator_next_loop fuel it NULL s).
Proof.
  intros Rep. pose proof (rep_max _ _ s L A Rep) as Hmax.
  induction fuel as [|fuel IH]; intros it rem [(i & pre & cur & Hi & HL & -> & ->)|[-> _]]; simpl;
    intros Hlt Hf; try lia.
  unfold mbind, M_bind, gets. rewrite (proj2 (Z.ltb_lt _ _)) by lia.
  pose proof (proj1 (rep_lists _ _ s L A Rep) _ _ HL) as Hd.
  rewrite (on_links_run (ListIteratorNext _) (match cur with
    | [] => (NULL, mkLIST_ITERATOR (entry_addr (h_table s) i) (fst_ (entry_addr (h_table s) i) cur))
    | x :: cur' => (x, mkLIST_ITERATOR (entry_addr (h_table s) i) (fst_ (entry_addr (h_table s) i) cur'))
    end)).
  2: { cbn [links HasLinks_HState]. rewrite (ListIteratorNext_run _ _ pre cur) by done. by destruct cur. }
  destruct cur as [|x cur].
  - rewrite Z.eqb_refl. cbn [negb]. rewrite u32_small by rlia. cbn [KeyIndex] in Hf.
    destruct (Z.eq_dec (i + 1) (MaxKeys (h_table s))) as [Ee|Ee].
    + rewrite Ee, buckets_from_end. simpl. apply (end_of_table s L A); [done|lia].
    + destruct (iterator_init_at s L A (i + 1) Rep) as (c & -> & Hit); [lia|].
      apply IH; [done|simpl; lia|simpl; lia].
  - assert (Hx : x <> NULL).
    { destruct (rep_buckets _ _ s L A Rep i Hi) as (ys & HL2 & _ & Hb). simplify_eq.
      rewrite Forall_app, Forall_cons in Hb. naive_solver. }
    rewrite (proj2 (Z.eqb_neq x NULL) Hx). by exists i, pre, cur.
Qed.

Lemma it_rep_step t L i pre x cur : 0 <= i < MaxKeys t ->
  L !! entry_addr t i = Some (pre ++ x :: cur) ->
  it_rep t L (it_at t i cur) (cur ++ buckets_from t L (i + 1)).
Proof. intros Hi HL. left. exists i, (pre ++ [x]), cur. by rewrite <- app_assoc. Qed.

Lemma iterator_next_run s L A it rem :
  ht_rep kf H s L A -> it_rep (h_table s) L it rem -> KeyIndex it < MaxKeys (h_table s) ->
  next_post s L rem (HashTableIteratorNext it s).
Proof.
  intros Rep Hit Hlt. unfold HashTableIteratorNext, mbind, M_bind, gets.
  by apply (next_loop_run s L A Rep); [|done|lia].
Qed.

(** [n] consecutive calls of HashTableIteratorNext. *)
Fixpoint hash_iterate (n : nat) (it : HASH_ITERATOR) : M HState (list Z) :=
  match n with
  | O => ret []
  | S n' => '(x, it') ← HashTableIteratorNext it; rest ← hash_iterate n' it'; ret (x :: rest)
  end.

Lemma hash_iterate_run s L A (n : nat) : ht_rep kf H s L A -> forall rem it,
  it_rep (h_table s) L it rem -> KeyIndex it < MaxKeys (h_table s) \/ rem = [] ->
  (n <= length rem)%nat ->
  hash_iterate n it s = Ok (take n rem, s).
Proof.
  intros Rep. induction n as [|n IH]; intros rem it Hit Hk Hn; [done|].
  destruct rem as [|x rem]; [simpl in Hn; lia|]. destruct Hk as [Hk|]; [|done].
  pose proof (iterator_next_run s L A it (x :: rem) Rep Hit Hk) as (i & pre & cur & Hi & HL & -> & E).
  simpl. unfold mbind, M_bind. rewrite E, (IH (cur ++ buckets_from (h_table s) L (i + 1)));
    [done|by eapply it_rep_step|left; simpl; lia|simpl in Hn; lia].
Qed.
End Iteration.

(** * The table as a map: sequences of operations *)

Inductive hash_op : Set :=
| HInsert (e : Z) | HLookup (pKey k : Z) | HRemove (pKey k : Z) | HRemoveEntry (e : Z) | HSize.

Definition hash_exec (op : hash_op) : M HState Z :=
  match op with
  | HInsert e => HashTableInsert e
  | HLookup pKey _ => HashTableLookup pKey
  | HRemove pKey _ => HashTableRemove pKey
  | HRemoveEntry e => _ ← HashTableRemoveEntry e; ret 0
  | HSize => HashTableSize
  end.

Fixpoint hash_exec_all (ops : list hash_op) : M HState (list Z) :=
  match ops with
  | [] => ret []
  | op :: ops' => r ← hash_exec op; rs ← hash_exec_all ops'; ret (r :: rs)
  end.

Definition is_bucket (t : HASH_TABLE) (h : Z) : Prop :=
  exists i, 0 <= i < MaxKeys t /\ h = entry_addr t i.

Lemma is_bucket_dec t h : {is_bucket t h} + {~ is_bucket t h}.
Proof.
  destruct (decide (0 <= (h - TableData t) / 16 < MaxKeys t /\
    h = entry_addr t ((h - TableData t) / 16))) as [Hd|Hd].
  - left. by exists ((h - TableData t) / 16).
  - right. intros (i & Hi & E). apply Hd. unfold entry_addr, SIZEOF_HASH_ENTRY in *. subst h.
    replace (TableData t + 16 * i - TableData t) with (i * 16) by lia.
    by rewrite Z.div_mul by lia.
Qed.

Section Refinement.
Context (kf : Z -> Z) (H : Z -> Z).

(** The operations on the map; an inserted entry must not be in it, and an
    entry removed by address must be. *)
Definition map_step (op : hash_op) (A : gmap Z Z) : option (Z * gmap Z Z) :=
  match op with
  | HInsert e => if decide (map_Forall (fun _ v => v <> e) A)
                 then Some (default NULL (A !! kf e), <[kf e := e]> A) else None
  | HLookup _ k => Some (default NULL (A !! k), A)
  | HRemove _ k => Some (default NULL (A !! k), delete k A)
  | HRemoveEntry e => if decide (A !! kf e = Some e) then Some (0, delete (kf e) A) else None
  | HSize => Some (u32 (Z.of_nat (size A)), A)
  end.

Fixpoint map_run (ops : list hash_op) (A : gmap Z Z) : option (list Z * gmap Z Z) :=
  match ops with
  | [] => Some ([], A)
  | op :: ops' => '(r, A1) ← map_step op A; '(rs, A2) ← map_run ops' A1; Some (r :: rs, A2)
  end.

(** The state holds the map [A]; lists of [L0] other than the buckets are kept. *)
Definition ht_abs (s : HState) (L0 : Lists) (A : gmap Z Z) : Prop :=
  exists L, ht_rep kf H s L A /\ forall h, ~ is_bucket (h_table s) h -> L !! h = L0 !! h.

(** The addresses an operation names: a new entry is a cell in no other list,
    its key and every key pointer holds the stated value. *)
Definition op_ok (s : HState) (L0 : Lists) (op : hash_op) : Prop :=
  let t := h_table s in
  match op with
  | HInsert e => e <> NULL /\ e + OffsetToKey t <> NULL /\ ~ is_bucket t e /\
      is_Some (h_links s !! e) /\
      (forall h xs, ~ is_bucket t h -> L0 !! h = Some xs -> e ∉ cells h xs) /\
      key_is (h_mem s) (e + OffsetToKey t) (KeySize t) (kf e)
  | HLookup pKey k | HRemove pKey k => pKey <> NULL /\ key_is (h_mem s) pKey (KeySize t) k
  | _ => True
  end.

Lemma same_shape_trans s1 s2 s3 : same_shape s1 s2 -> same_shape s2 s3 -> same_shape s1 s3.
Proof.
  destruct s1 as [[]], s2 as [[]], s3 as [[]]. unfold same_shape, set_count. simpl.
  intros (E1 & -> & E2) (E3 & -> & E4). simplify_eq. split_and!; [done|done|congruence].
Qed.

Lemma same_shape_op_ok s s' L0 op : same_shape s s' -> op_ok s L0 op -> op_ok s' L0 op.
Proof.
  destruct s as [[]], s' as [[]]. unfold same_shape, set_count. simpl. intros (E1 & -> & E2).
  simplify_eq. destruct op; simpl; try done.
  rewrite <- !elem_of_dom, E2. done.
Qed.

Lemma ht_abs_update s L s' i xs' A' L0 :
  (forall h, ~ is_bucket (h_table s) h -> L !! h = L0 !! h) -> same_shape s s' ->
  0 <= i < MaxKeys (h_table s) ->
  ht_rep kf H s' (<[entry_addr (h_table s) i := xs']> L) A' -> ht_abs s' L0 A'.
Proof.
  intros HL (Et & _ & _) Hi Rep. exists (<[entry_addr (h_table s) i := xs']> L). split; [done|].
  intros h Hh. assert (Hh' : ~ is_bucket (h_table s) h).
  { intros Hb. apply Hh. rewrite Et. exact Hb. }
  rewrite lookup_insert_ne; [by apply HL|]. intros <-. apply Hh'. by exists i.
Qed.

Lemma ht_abs_insert s L0 A e :
  ht_abs s L0 A -> op_ok s L0 (HInsert e) -> map_Forall (fun _ v => v <> e) A ->
  exists s', HashTableInsert e s = Ok (default NULL (A !! kf e), s') /\
    ht_abs s' L0 (<[kf e := e]> A) /\ same_shape s s'.
Proof.
  intros (L & Rep & HL) (He0 & Hoff & Hnb & Hs & Hother & Hk) Hnew.
  assert (Hfree : free_cell L e).
  { intros h xs Hh Hin. destruct (is_bucket_dec (h_table s) h) as [Hb|Hb].
    - destruct Hb as (i & Hi & ->). apply elem_of_cons in Hin as [->|Hin]; [apply Hnb; by exists i|].
      apply (Hnew (kf e) e); [|done]. apply (rep_map kf H s L A Rep). split; [by exists i, xs|done].
    - apply (Hother h xs Hb); [by rewrite <- HL|done]. }
  destruct (insert_run kf H s L A Rep e He0 Hoff Hfree Hs Hk) as (s' & xs' & E & Rep' & Hsh).
  exists s'. split; [done|]. split; [|done]. eapply ht_abs_update; [exact HL|done| |exact Rep'].
  by eapply key_bucket.
Qed.

Lemma ht_abs_remove_entry s L0 A p :
  ht_abs s L0 A -> A !! kf p = Some p ->
  exists s', HashTableRemoveEntry p s = Ok (tt, s') /\
    ht_abs s' L0 (delete (kf p) A) /\ same_shape s s'.
Proof.
  intros (L & Rep & HL) HA. apply (rep_map kf H s L A Rep) in HA as [(i & xs & Hi & Hx & Hp) _].
  apply list_elem_of_split in Hp as (l1 & l2 & ->).
  destruct (remove_entry_run kf H s L A Rep i l1 p l2 Hi Hx) as (s' & E & Rep' & Hsh).
  exists s'. split; [done|]. split; [|done]. eapply ht_abs_update; [exact HL|done|done|exact Rep'].
Qed.

Lemma ht_abs_lookup s L0 A pKey k :
  ht_abs s L0 A -> pKey <> NULL -> key_is (h_mem s) pKey (KeySize (h_table s)) k ->
  HashTableLookup pKey s = Ok (default NULL (A !! k), s).
Proof. intros (L & Rep & _) HK Hk. by apply (lookup_run kf H s L A Rep). Qed.

Lemma ht_abs_value s L0 A k e : ht_abs s L0 A -> A !! k = Some e -> kf e = k /\ e <> NULL.
Proof.
  intros (L & Rep & _) HA. apply (rep_map kf H s L A Rep) in HA as [(i & xs & Hi & Hx & He) Hk].
  split; [done|]. destruct (rep_buckets kf H s L A Rep i Hi) as (ys & Hy & _ & Hb). simplify_eq.
  rewrite Forall_forall in Hb. by apply (Hb e He).
Qed.

Lemma ht_abs_remove s L0 A pKey k :
  ht_abs s L0 A -> pKey <> NULL -> key_is (h_mem s) pKey (KeySize (h_table s)) k ->
  exists s', HashTableRemove pKey s = Ok (default NULL (A !! k), s') /\
    ht_abs s' L0 (delete k A) /\ same_shape s s'.
Proof.
  intros Habs HK Hk. unfold HashTableRemove, mbind, M_bind, ASSERT.
  rewrite (proj2 (Z.eqb_neq pKey NULL) HK). cbn [negb assert_ lift].
  rewrite (ht_abs_lookup s L0 A pKey k Habs HK Hk). destruct (A !! k) as [e|] eqn:HA; simpl.
  - destruct (ht_abs_value s L0 A k e Habs HA) as [<- He].
    destruct (ht_abs_remove_entry s L0 A e Habs HA) as (s' & E & Habs' & Hsh).
    rewrite (proj2 (Z.eqb_neq e NULL) He). simpl. rewrite E. eauto.
  - exists s. split; [done|]. rewrite delete_id by done. split; [done|].
    destruct s as [[]]. done.
Qed.

Lemma hash_exec_refines op s L0 A r A' :
  ht_abs s L0 A -> op_ok s L0 op -> map_step op A = Some (r, A') ->
  exists s', hash_exec op s = Ok (r, s') /\ ht_abs s' L0 A' /\ same_shape s s'.
Proof.
  intros Habs Hok Hstep. destruct op as [e|pKey k|pKey k|e|]; simpl in Hstep.
  - case_decide; [|done]. simplify_eq. by apply ht_abs_insert.
  - destruct Hok. simplify_eq. exists s. split; [by apply (ht_abs_lookup s L0)|].
    split; [done|]. by destruct s as [[]].
  - destruct Hok. simplify_eq. by apply ht_abs_remove.
  - case_decide; [|done]. simplify_eq.
    destruct (ht_abs_remove_entry s L0 A e) as (s' & E & ?); [done|done|].
    exists s'. split; [|done]. simpl. unfold mbind, M_bind. by rewrite E.
  - simplify_eq. exists s. split; [|split; [done|by destruct s as [[]]]].
    destruct Habs as (L & Rep & _). unfold hash_exec, HashTableSize, gets.
    by rewrite (rep_count kf H s L A' Rep).
Qed.
End Refinement.

(** ** Entries in traversal order *)
Lemma elem_of_buckets_from t L e i :
  e ∈ buckets_from t L i <-> exists j, i <= j < MaxKeys t /\ e ∈ bucket t L j.
Proof.
  unfold buckets_from. rewrite list_elem_of_In, in_concat. setoid_rewrite <- list_elem_of_In.
  setoid_rewrite list_elem_of_fmap. setoid_rewrite elem_of_seqZ. split.
  - intros (xs & (j & -> & Hj) & He). exists j. split; [lia|done].
  - intros (j & Hj & He). exists (bucket t L j). split; [|done]. exists j. split; [done|lia].
Qed.

Lemma in_table_buckets t L e : in_table t L e <-> e ∈ buckets_from t L 0.
Proof.
  rewrite elem_of_buckets_from. unfold bucket. split.
  - intros (i & xs & Hi & HL & He). exists i. split; [lia|]. by rewrite HL.
  - intros (i & Hi & He). destruct (L !! entry_addr t i) as [xs|] eqn:HL; [|set_solver].
    by exists i, xs.
Qed.

Lemma buckets_from_NoDup kf H s L A (n : nat) : forall i, ht_rep kf H s L A ->
  0 <= i -> Z.of_nat n = MaxKeys (h_table s) - i -> NoDup (buckets_from (h_table s) L i).
Proof.
  induction n as [|n IH]; intros i Rep Hi Hn.
  - replace i with (MaxKeys (h_table s)) by lia. rewrite buckets_from_end. constructor.
  - rewrite buckets_from_cons by lia. apply NoDup_app. split_and!; [| |by apply IH; [|lia|lia]].
    + destruct (rep_buckets kf H s L A Rep i) as (xs & HL & _); [lia|].
      unfold bucket. rewrite HL. simpl.
      destruct (proj1 (rep_lists kf H s L A Rep) _ _ HL) as [[_ ?]%NoDup_cons _]. done.
    + intros x Hx (j & Hj & Hx')%elem_of_buckets_from. unfold bucket in *.
      destruct (rep_buckets kf H s L A Rep i) as (xs & HL & _); [lia|].
      destruct (rep_buckets kf H s L A Rep j) as (ys & HL' & _); [lia|].
      rewrite HL in Hx. rewrite HL' in Hx'. simpl in *.
      eapply (proj2 (rep_lists kf H s L A Rep)); [|exact HL|exact HL'| |];
        [intros E%entry_addr_inj; lia|apply elem_of_cons; by right|apply elem_of_cons; by right].
Qed.

Lemma buckets_fuel kf H s L A : ht_rep kf H s L A ->
  (length (buckets_from (h_table s) L 0) <= size (h_links s))%nat.
Proof.
  intros Rep. pose proof (rep_max kf H s L A Rep).
  assert (Hnd : NoDup (buckets_from (h_table s) L 0)).
  { apply (buckets_from_NoDup kf H s L A (Z.to_nat (MaxKeys (h_table s)))); [done|lia|lia]. }
  assert (Hsub : list_to_set (buckets_from (h_table s) L 0) ⊆ dom (h_links s)).
  { intros x Hx%elem_of_list_to_set. apply in_table_buckets in Hx as (i & xs & Hi & HL & Hx).
    apply elem_of_dom. eapply dlist_is_Some; [by apply (rep_lists kf H s L A Rep)|set_solver]. }
  apply subseteq_size in Hsub. by rewrite size_list_to_set, size_dom in Hsub.
Qed.

Lemma table_empty kf H s L A : ht_rep kf H s L A ->
  (forall e, ~ in_table (h_table s) L e) -> A = ∅.
Proof.
  intros Rep Hn. apply map_empty. intros k. destruct (A !! k) as [e|] eqn:HA; [|done].
  apply (rep_map kf H s L A Rep) in HA as [Hin _]. by destruct (Hn e).
Qed.

Lemma buckets_from_insert t L i j xs : j < i ->
  buckets_from t (<[entry_addr t j := xs]> L) i = buckets_from t L i.
Proof.
  intros Hj. unfold buckets_from. f_equal. apply list_fmap_ext. intros n k Hk.
  apply list_elem_of_lookup_2, elem_of_seqZ in Hk. unfold bucket.
  by rewrite lookup_insert_ne by (intros E%entry_addr_inj; lia).
Qed.

(** One round of HashTableClear per remaining entry; the iterator stays valid
    when the entry it has just returned is removed. *)
Lemma clear_loop_run kf H (rem : list Z) : forall fuel s L A it,
  ht_rep kf H s L A -> (length rem < fuel)%nat ->
  KeyIndex it < MaxKeys (h_table s) -> it_rep (h_table s) L it rem ->
  (forall e, in_table (h_table s) L e -> e ∈ rem) ->
  if decide (entry_addr (h_table s) (MaxKeys (h_table s)) ∈ dom (h_links s)) then
    exists s' L', clear_loop fuel it None s = Ok (tt, s') /\ ht_rep kf H s' L' ∅ /\ same_shape s s'
  else clear_loop fuel it None s = Err MemFault.
Proof.
  induction rem as [|x rem IH]; intros fuel s L A it Rep Hf Hk Hit Hall;
    (destruct fuel as [|fuel]; [simpl in Hf; lia|]); simpl; unfold mbind, M_bind.
  - pose proof (iterator_next_run kf H s L A it [] Rep Hit Hk) as Hnext. simpl in Hnext.
    case_decide as Hend; rewrite elem_of_dom in Hend; cycle 1.
    { apply eq_None_not_Some in Hend. rewrite Hend in Hnext. by rewrite Hnext. }
    destruct Hend as [c Hc]. rewrite Hc in Hnext. destruct Hnext as (it' & -> & _).
    exists s, L. split; [done|]. split; [|by destruct s as [[]]].
    rewrite <- (table_empty kf H s L A); [done|done|]. intros e He%Hall. set_solver.
  - pose proof (iterator_next_run kf H s L A it (x :: rem) Rep Hit Hk)
      as (i & pre & cur & Hi & HL & -> & ->).
    assert (Hx0 : x <> NULL).
    { destruct (rep_buckets kf H s L A Rep i Hi) as (ys & Hy & _ & Hb). simplify_eq.
      rewrite Forall_app, Forall_cons in Hb. naive_solver. }
    rewrite (proj2 (Z.eqb_neq x NULL) Hx0).
    destruct (remove_entry_run kf H s L A Rep i pre x cur Hi HL) as (s1 & -> & Rep1 & Hsh).
    cbn [ret]. pose proof Hsh as (Et & Em & Hdom).
    assert (Ead : forall j, entry_addr (h_table s1) j = entry_addr (h_table s) j).
    { intros j. by rewrite Et. }
    assert (Emax : MaxKeys (h_table s1) = MaxKeys (h_table s)) by (by rewrite Et).
    assert (Hit1 : it_rep (h_table s1) (<[entry_addr (h_table s) i := pre ++ cur]> L)
      (it_at (h_table s) i cur) (cur ++ buckets_from (h_table s) L (i + 1))).
    { rewrite Et. left. exists i, pre, cur. split_and!; [lia|simpl; lia|apply lookup_insert_eq|done|].
      f_equal. symmetry. apply (buckets_from_insert (h_table s)). lia. }
    assert (Hall1 : forall e, in_table (h_table s1) (<[entry_addr (h_table s) i := pre ++ cur]> L) e ->
      e ∈ cur ++ buckets_from (h_table s) L (i + 1)).
    { intros e He. rewrite Et in He.
      apply (in_table_update kf H s L A Rep i (pre ++ x :: cur) _ e Hi HL) in He.
      assert (Hin : in_table (h_table s) L e /\ e <> x).
      { destruct He as [He|[He Hne]]; [|set_solver]. split; [exists i, (pre ++ x :: cur); set_solver|].
        destruct (proj1 (rep_lists kf H s L A Rep) _ _ HL) as [[_ Hnd]%NoDup_cons _].
        rewrite NoDup_app, NoDup_cons in Hnd. set_solver. }
      destruct Hin as [Hin Hne]. specialize (Hall e Hin). set_solver. }
    specialize (IH fuel s1 _ _ (it_at (h_table s) i cur) Rep1 ltac:(simpl in Hf; lia)
      ltac:(rewrite Emax; simpl; lia) Hit1 Hall1).
    rewrite Emax, Ead, Hdom in IH. case_decide; [|exact IH].
    destruct IH as (s2 & L2 & E2 & Rep2 & Hsh2).
    exists s2, L2. split; [exact E2|]. split; [done|]. by eapply same_shape_trans.
Qed.

(** * Theorems *)

(** C7: Any sequence of insertions, lookups, removals by key or by entry and
    size queries, run on a table that holds the map [A] from key values to
    entries, returns what the map operations return (the previous or removed
    entry, NULL when there is none, the number of elements modulo 2^32) and
    leaves a table that holds the resulting map: every bucket stays a sorted
    list of the entries that hash to it, entries with equal keys replace each
    other, and lists outside the table are unchanged. *)
Theorem hash_ops_refine kf H ops : forall s L0 A rs A',
  ht_abs kf H s L0 A -> Forall (op_ok kf s L0) ops -> map_run kf ops A = Some (rs, A') ->
  exists s', hash_exec_all ops s = Ok (rs, s') /\ ht_abs kf H s' L0 A' /\ same_shape s s'.
Proof.
  induction ops as [|op ops IH]; intros s L0 A rs A' Habs Hok Hrun; simpl in Hrun.
  - simplify_eq. exists s. split; [done|]. split; [done|]. by destruct s as [[]].
  - apply Forall_cons in Hok as [Hop Hok].
    destruct (map_step kf op A) as [[r A1]|] eqn:Es; [|done]. simpl in Hrun.
    destruct (map_run kf ops A1) as [[rs1 A2]|] eqn:Er; [|done]. simplify_eq/=.
    destruct (hash_exec_refines kf H op s L0 A r A1 Habs Hop Es) as (s1 & E1 & Habs1 & Hsh1).
    destruct (IH s1 L0 A1 rs1 A' Habs1) as (s2 & E2 & Habs2 & Hsh2); [|done|].
    { eapply Forall_impl; [exact Hok|]. intros op'. by apply same_shape_op_ok. }
    exists s2. split; [|split; [done|by eapply same_shape_trans]].
    unfold mbind, M_bind. by rewrite E1, E2.
Qed.

(** A table as HashTablePreinit leaves it, then initialised. *)
Lemma init_rep kf H f mx ks sz t0 l m L Data off :
  let t := mkHASH_TABLE mx ks 0 off (Some f) Data in
  HashTablePreinit mx ks = Ok (sz, t0) -> 0 < ks <= 8 -> HashOk f ks mx H -> 0 < Data ->
  lists_rep l L -> buckets_free t L l ->
  sz = SIZEOF_HASH_ENTRY * mx /\
  exists l', HashTableInit Data (Some f) off (mkHState t0 l m) = Ok (tt, mkHState t l' m) /\
    ht_rep kf H (mkHState t l' m) (with_buckets t (Z.to_nat mx) L) ∅.
Proof.
  intros t Hpre Hks Hok HD HR Hfree. unfold HashTablePreinit, mbind, outcome_bind in Hpre.
  destruct ((0 <? mx) && (mx <? MAX_DWORD `div` SIZEOF_HASH_ENTRY)) eqn:Hb; [|done].
  apply andb_true_iff in Hb as [H1%Z.ltb_lt H2%Z.ltb_lt]. simpl in Hpre. injection Hpre as <- <-.
  change (MAX_DWORD `div` SIZEOF_HASH_ENTRY) with 268435455 in H2. unfold SIZEOF_HASH_ENTRY in *.
  split; [rewrite u32_small by rlia; lia|].
  destruct (init_loop_run L (S (Z.to_nat mx)) 0 (mkHState t l m)) as (l' & E & HR'); simpl; try done.
  { lia. } { lia. }
  exists l'. split.
  - unfold HashTableInit, mbind, M_bind, ASSERT, modify, gets. rewrite (proj2 (Z.eqb_neq Data NULL)) by (unfold NULL; lia).
    simpl. exact E.
  - simpl in HR'. split; simpl; try done; [lia|by exists f| |].
    + intros i Hi. exists []. rewrite with_buckets_in by lia. split; [done|].
      split; constructor.
    + intros k e. rewrite lookup_empty. split; [done|]. intros [(i & xs & Hi & HL & He) _].
      simpl in Hi. rewrite with_buckets_in in HL by lia. simplify_eq. set_solver.
Qed.

(** HashTablePreinit asks for 16 bytes per bucket, and HashTableInit on a
    data area of that many list cells that are in no other list builds an empty
    table: every bucket is an empty list, the lists that existed are kept, and
    the table holds the empty map. *)
Theorem hash_init_empty kf H f mx ks sz t0 l m L Data off :
  HashTablePreinit mx ks = Ok (sz, t0) -> 0 < ks <= 8 -> HashOk f ks mx H -> 0 < Data ->
  lists_rep l L -> buckets_free (mkHASH_TABLE mx ks 0 off (Some f) Data) L l ->
  sz = SIZEOF_HASH_ENTRY * mx /\
  exists l', HashTableInit Data (Some f) off (mkHState t0 l m) =
      Ok (tt, mkHState (mkHASH_TABLE mx ks 0 off (Some f) Data) l' m) /\
    ht_abs kf H (mkHState (mkHASH_TABLE mx ks 0 off (Some f) Data) l' m) L ∅.
Proof.
  intros Hpre Hks Hok HD HR Hfree.
  destruct (init_rep kf H f mx ks sz t0 l m L Data off Hpre Hks Hok HD HR Hfree)
    as (Hsz & l' & E & Rep).
  split; [done|]. exists l'. split; [done|]. eexists. split; [exact Rep|]. simpl. intros h Hh.
  apply with_buckets_out. intros i Hi ->. apply Hh. exists i. split; [simpl; lia|done].
Qed.

(** ** A concrete table: two buckets at 0x1000, entries at 0x2000, 0x2040 and
    0x2080 with a one-byte key 16 bytes after the entry, a search key at 0x3000. *)
Definition demo_table : HASH_TABLE := mkHASH_TABLE 2 1 0 16 (Some HashFuncGenericIncremental) 0x1000.
Definition demo_hlinks : Links :=
  list_to_map ((fun a => (a, mkLIST_ENTRY 0 0)) <$> [0x1000; 0x1010; 0x2000; 0x2040; 0x2080]).
Definition demo_keys : Mem :=
  list_to_map [(0x2010, 5); (0x2050, 3); (0x2090, 5); (0x3000, 5)].
Definition demo_kf (e : Z) : Z := default 0 (demo_keys !! (e + 16)).
Definition demo_hash (k : Z) : Z := k mod 2.

Lemma demo_key a k : is_byte k -> demo_keys !! a = Some k -> key_is demo_keys a 1 k.
Proof.
  intros Hk Ha. exists [k]. split_and!; [done|by constructor| |simpl; lia].
  intros [|i] b Hb; [|done]. simpl in Hb. simplify_eq. by rewrite Z.add_0_r.
Qed.

Lemma demo_lists_rep_empty l : lists_rep l ∅.
Proof. split; intros ??; by rewrite lookup_empty. Qed.

Lemma demo_buckets_free : buckets_free demo_table ∅ demo_hlinks.
Proof.
  intros i Hi. simpl in Hi. split; [intros h xs; by rewrite lookup_empty|].
  assert (i = 0 \/ i = 1) as [-> | ->] by lia; eexists; by vm_compute.
Qed.

Lemma hash_init_empty_witness :
  32 = SIZEOF_HASH_ENTRY * 2 /\
  exists l', HashTableInit 0x1000 (Some HashFuncGenericIncremental) 16
      (mkHState (mkHASH_TABLE 2 1 0 0 None NULL) demo_hlinks demo_keys) =
      Ok (tt, mkHState demo_table l' demo_keys) /\
    ht_abs demo_kf demo_hash (mkHState demo_table l' demo_keys) ∅ ∅.
Proof.
  apply (hash_init_empty demo_kf demo_hash HashFuncGenericIncremental 2 1).
  - reflexivity.
  - lia.
  - apply HashFuncGenericIncremental_ok; lia.
  - lia.
  - apply demo_lists_rep_empty.
  - apply demo_buckets_free.
Defined.

Definition demo_hops : list hash_op :=
  [HInsert 0x2000; HInsert 0x2040; HSize; HLookup 0x3000 5; HInsert 0x2080; HLookup 0x3000 5;
   HSize; HRemoveEntry 0x2040; HRemove 0x3000 5; HLookup 0x3000 5; HSize].

Definition demo_state : HState :=
  match HashTableInit 0x1000 (Some HashFuncGenericIncremental) 16
      (mkHState (mkHASH_TABLE 2 1 0 0 None NULL) demo_hlinks demo_keys) with
  | Ok (_, s) => s
  | Err _ => mkHState demo_table demo_hlinks demo_keys
  end.

Lemma demo_state_rep :
  exists l', demo_state = mkHState demo_table l' demo_keys /\
    ht_rep demo_kf demo_hash demo_state (with_buckets demo_table 2 ∅) ∅.
Proof.
  destruct (init_rep demo_kf demo_hash HashFuncGenericIncremental 2 1 32
    (mkHASH_TABLE 2 1 0 0 None NULL) demo_hlinks demo_keys ∅ 0x1000 16) as (_ & l' & E & Rep);
    [reflexivity|lia|apply HashFuncGenericIncremental_ok; lia|lia|apply demo_lists_rep_empty
    |apply demo_buckets_free|].
  exists l'. unfold demo_state. rewrite E. done.
Qed.

Lemma demo_state_abs : ht_abs demo_kf demo_hash demo_state ∅ ∅.
Proof.
  destruct demo_state_rep as (l' & E & Rep). exists (with_buckets demo_table 2 ∅).
  split; [exact Rep|]. rewrite E. intros h Hh. apply with_buckets_out. intros i Hi ->.
  apply Hh. exists i. split; [simpl; lia|done].
Qed.

Lemma demo_insert_ok e k : 0x2000 <= e -> is_byte k -> demo_keys !! (e + 16) = Some k ->
  is_Some (h_links demo_state !! e) -> op_ok demo_kf demo_state ∅ (HInsert e).
Proof.
  destruct demo_state_rep as (l' & -> & _). intros He Hk Hke Hs. simpl.
  split_and!; [unfold NULL; lia|unfold NULL; lia| |done| |].
  - intros (i & Hi & E). unfold entry_addr, SIZEOF_HASH_ENTRY in E. simpl in *. lia.
  - intros h xs _. by rewrite lookup_empty.
  - apply demo_key; unfold demo_kf; by rewrite Hke.
Qed.

Lemma demo_key_ok : 0x3000 <> NULL /\
  key_is (h_mem demo_state) 0x3000 (KeySize (h_table demo_state)) 5.
Proof. destruct demo_state_rep as (l' & -> & _). split; [done|]. by apply demo_key. Qed.

Lemma demo_hops_ok : Forall (op_ok demo_kf demo_state ∅) demo_hops.
Proof.
  pose proof demo_key_ok as Hk.
  repeat (apply Forall_cons; split); try done; try exact Hk;
    (eapply demo_insert_ok; [lia| |vm_compute; reflexivity|]; [done|]);
    eexists; vm_compute; reflexivity.
Qed.

Lemma hash_ops_refine_witness :
  exists s', hash_exec_all demo_hops demo_state =
      Ok ([0; 0; 2; 0x2000; 0x2000; 0x2080; 2; 0; 0x2080; 0; 0], s') /\
    ht_abs demo_kf demo_hash s' ∅ ∅ /\ same_shape demo_state s'.
Proof.
  apply (hash_ops_refine demo_kf demo_hash demo_hops demo_state ∅ ∅).
  - exact demo_state_abs.
  - exact demo_hops_ok.
  - vm_compute. reflexivity.
Defined.

(** The first [n] results of iterating over the table. *)
Definition hash_walk (n : nat) : M HState (list Z) := it ← HashTableIteratorInit; hash_iterate n it.

Lemma iterator_init_run kf H s L A : ht_rep kf H s L A ->
  exists it, HashTableIteratorInit s = Ok (it, s) /\ KeyIndex it = 0 /\
    it_rep (h_table s) L it (buckets_from (h_table s) L 0).
Proof.
  intros Rep. pose proof (rep_max kf H s L A Rep).
  destruct (iterator_init_at kf H s L A 0 Rep) as (cur & E & Hit); [lia|].
  exists (mkHASH_ITERATOR 0 cur). unfold HashTableIteratorInit, mbind, M_bind, gets.
  by rewrite E.
Qed.

(** Iterating over a table returns every entry of the map exactly once, and
    changes nothing. *)
Theorem hash_iterate_all kf H s L A : ht_rep kf H s L A ->
  exists es, hash_walk (length es) s = Ok (es, s) /\ NoDup es /\
    (forall e, e ∈ es <-> A !! kf e = Some e).
Proof.
  intros Rep. pose proof (rep_max kf H s L A Rep).
  destruct (iterator_init_run kf H s L A Rep) as (it & E & Hk & Hit).
  exists (buckets_from (h_table s) L 0). split_and!.
  - unfold hash_walk, mbind, M_bind. rewrite E.
    rewrite (hash_iterate_run kf H s L A _ Rep (buckets_from (h_table s) L 0) it);
      [by rewrite firstn_all|done|left; lia|done].
  - apply (buckets_from_NoDup kf H s L A (Z.to_nat (MaxKeys (h_table s)))); [done|lia|lia].
  - intros e. rewrite <- in_table_buckets, (rep_map kf H s L A Rep). naive_solver.
Qed.

Lemma hash_iterate_all_witness :
  exists es, hash_walk (length es) demo_state = Ok (es, demo_state) /\ NoDup es /\
    (forall e, e ∈ es <-> (∅ : gmap Z Z) !! demo_kf e = Some e).
Proof.
  apply (hash_iterate_all demo_kf demo_hash demo_state (with_buckets demo_table 2 ∅) ∅).
  destruct demo_state_rep as (l' & _ & Rep). exact Rep.
Defined.

(** HashTableClear leaves the empty map when the 16 bytes after the bucket
    array are a readable list cell.  When they are not, it faults: advancing past
    the last bucket makes HashTableIteratorNext read Entries[MaxKeys]. *)
Theorem hash_clear_reads_past_end kf H s L A : ht_rep kf H s L A ->
  if decide (entry_addr (h_table s) (MaxKeys (h_table s)) ∈ dom (h_links s)) then
    exists s' L', HashTableClear None s = Ok (tt, s') /\ ht_rep kf H s' L' ∅ /\ same_shape s s'
  else HashTableClear None s = Err MemFault.
Proof.
  intros Rep. pose proof (rep_max kf H s L A Rep).
  destruct (iterator_init_run kf H s L A Rep) as (it & E & Hk & Hit).
  unfold HashTableClear, mbind, M_bind, gets. rewrite E.
  apply (clear_loop_run kf H (buckets_from (h_table s) L 0) _ s L A it Rep); [|lia|done|].
  - pose proof (buckets_fuel kf H s L A Rep). lia.
  - intros e. by rewrite in_table_buckets.
Qed.

Lemma hash_clear_reads_past_end_witness : HashTableClear None demo_state = Err MemFault.
Proof.
  destruct demo_state_rep as (l' & _ & Rep).
  pose proof (hash_clear_reads_past_end demo_kf demo_hash demo_state _ ∅ Rep) as Hc.
  revert Hc. case_decide as Hd; [|intros Hc; exact Hc].
  exfalso. revert Hd. apply not_elem_of_dom. vm_compute. reflexivity.
Defined.
