(* ===== verification/Stack.v ===== *)
(** CommonLib/inc/slist.h, src/stack_dynamic.c and src/stack_interface.c: stacks of caller-owned items and the table of functions through
    which they are used.  [nexts] holds the Next fields of the items and of the TopOfStack of each stack, at their addresses;
    [counts] holds NumberOfElements. *)
From S2P Require Import Prelude IntUtils.

Record sst := mkSst { nexts : gmap Z Z; counts : gmap Z Z }.
Definition next_of (a : Z) : M sst Z := s ← getS; lift (of_option (nexts s !! a)).
Definition set_next (a v : Z) : M sst unit := _ ← next_of a; modify (fun s => mkSst (<[a := v]> (nexts s)) (counts s)).
Definition count_of (Stack : Z) : M sst Z := s ← getS; lift (of_option (counts s !! Stack)).
Definition set_count_of (Stack v : Z) : M sst unit := _ ← count_of Stack; modify (fun s => mkSst (nexts s) (<[Stack := v]> (counts s))).

(** * slist.h *)
Definition ClInitializeSListHead (ListHead : Z) : M sst unit := set_next ListHead 0.
Definition ClPopEntryList (ListHead : Z) : M sst Z :=
  FirstEntry ← next_of ListHead;
  _ ← (if negb (FirstEntry =? 0) then n ← next_of FirstEntry; set_next ListHead n else ret tt);
  ret FirstEntry.
Definition ClPushEntryList (ListHead Entry : Z) : M sst unit :=
  n ← next_of ListHead;
  _ ← set_next Entry n;
  set_next ListHead Entry.

(** * stack_dynamic.c *)
Definition StackDynamicPush (Stack Item : Z) : M sst bool :=
  _ ← ASSERT (negb (Stack =? 0));
  _ ← ASSERT (negb (Item =? 0));
  _ ← ClPushEntryList Stack Item;
  n ← count_of Stack;
  _ ← ASSERT (n <? MAX_DWORD);
  _ ← set_count_of Stack (u32 (n + 1));
  ret true.

(** The item, or NULL. *)
Definition StackDynamicPop (Stack : Z) : M sst Z :=
  _ ← ASSERT (negb (Stack =? 0));
  pStackEntry ← ClPopEntryList Stack;
  if pStackEntry =? 0 then ret 0 else
  n ← count_of Stack;
  _ ← ASSERT (0 <? n);
  _ ← set_count_of Stack (u32 (n - 1));
  ret pStackEntry.

(** The loop of StackDynamicPeek: [left] is Index - currentIndex. *)
Fixpoint peek_loop (left : nat) (pItem : Z) : M sst Z :=
  match left with
  | O => ret pItem
  | S left' => if pItem =? 0 then ret pItem else n ← next_of pItem; peek_loop left' n
  end.
Definition StackDynamicPeek (Stack Index : Z) : M sst Z :=
  _ ← ASSERT (negb (Stack =? 0));
  n ← count_of Stack;
  if n <=? Index then ret 0 else
  first ← next_of Stack;
  pItem ← peek_loop (Z.to_nat Index) first;
  _ ← ASSERT (negb (pItem =? 0));
  ret pItem.

Definition StackDynamicIsEmpty (Stack : Z) : M sst bool :=
  _ ← ASSERT (negb (Stack =? 0));
  n ← next_of Stack;
  ret (n =? 0).
Definition StackDynamicSize (Stack : Z) : M sst Z := _ ← ASSERT (negb (Stack =? 0)); count_of Stack.

(** [FreeFunction] is the function applied to its context, or [None] for NULL; the loop is left when the stack is empty. *)
Fixpoint clear_loop (fuel : nat) (Stack : Z) (FreeFunction : option (Z -> M sst unit)) : M sst unit :=
  match fuel with
  | O => fail NoFuel
  | S fuel' =>
    empty ← StackDynamicIsEmpty Stack;
    if empty : bool then ret tt else
    pItem ← StackDynamicPop Stack;
    _ ← ASSERT (negb (pItem =? 0));
    _ ← match FreeFunction with Some f => f pItem | None => ret tt end;
    clear_loop fuel' Stack FreeFunction
  end.
Definition StackDynamicClear (Stack : Z) (FreeFunction : option (Z -> M sst unit)) : M sst unit :=
  _ ← ASSERT (negb (Stack =? 0));
  n ← gets (fun s => S (size (nexts s)));
  clear_loop n Stack FreeFunction.

Definition SIZEOF_STACK : Z := 16.
Definition StackDynamicGetRequiredSize (MaxElements : Z) : Z := SIZEOF_STACK.
(** The memory of the STACK becomes its two fields. *)
Definition StackDynamicInit (Stack : Z) : M sst Z :=
  _ ← modify (fun s => mkSst (<[Stack := 0]> (nexts s)) (<[Stack := 0]> (counts s)));
  _ ← ClInitializeSListHead Stack;
  _ ← set_count_of Stack 0;
  ret STATUS_SUCCESS.

(** * stack_interface.c *)
Record STACK_INTERFACE_FUNCS := mkFuncs {
  Push : Z -> Z -> M sst bool; Pop : Z -> M sst Z; Peek : Z -> Z -> M sst Z;
  Clear : Z -> option (Z -> M sst unit) -> M sst unit; IsEmpty : Z -> M sst bool; Size : Z -> M sst Z }.
Record STACK_COMPLETE_FUNCS := mkComplete { PublicFuncs : STACK_INTERFACE_FUNCS; GetRequiredSize : Z -> Z; Init : Z -> M sst Z }.
Definition StackTypeDynamic : Z := 0.
Definition StackTypeInterlocked : Z := 1.
Definition StackTypeReserved : Z := StackTypeInterlocked + 1.

Definition dynamic_funcs : STACK_INTERFACE_FUNCS :=
  mkFuncs StackDynamicPush StackDynamicPop StackDynamicPeek StackDynamicClear StackDynamicIsEmpty StackDynamicSize.
(** The row of a type; that of StackTypeInterlocked holds null pointers. *)
Definition STACK_FUNCS (Type_ : Z) : option STACK_COMPLETE_FUNCS :=
  if Type_ =? StackTypeDynamic then Some (mkComplete dynamic_funcs StackDynamicGetRequiredSize StackDynamicInit) else None.

Definition StackGetRequiredSize (MaxElements Type_ : Z) : outcome Z :=
  _ ← assert_ (0 <? MaxElements);
  _ ← assert_ (Type_ <? StackTypeReserved);
  f ← of_option (STACK_FUNCS Type_);
  Ok (GetRequiredSize f MaxElements).

(** The status, and the functions and the stack that are stored in *StackInterface. *)
Definition StackCreate (StackInterface Type_ Stack : Z) : M sst (Z * option (STACK_INTERFACE_FUNCS * Z)) :=
  if StackInterface =? 0 then ret (STATUS_INVALID_PARAMETER1, None) else
  if StackTypeReserved <=? Type_ then ret (STATUS_INVALID_PARAMETER2, None) else
  if Stack =? 0 then ret (STATUS_INVALID_PARAMETER3, None) else
  f ← lift (of_option (STACK_FUNCS Type_));
  status ← Init f Stack;
  if negb (SUCCEEDED status) then ret (status, None) else
  ret (STATUS_SUCCESS, Some (PublicFuncs f, Stack)).

(** * The abstract view: a sequence of items per stack, and the items that are in none *)
Record stacks := mkStacks { seqs : gmap Z (list Z); loose : gset Z }.

Fixpoint slist (m : gmap Z Z) (a : Z) (l : list Z) : Prop :=
  match l with [] => m !! a = Some 0 | x :: l' => m !! a = Some x /\ x <> 0 /\ slist m x l' end.

Record stack_rep (s : sst) (A : stacks) : Prop := {
  sr_list : forall h l, seqs A !! h = Some l -> h <> 0 /\ slist (nexts s) h l /\ counts s !! h = Some (Z.of_nat (length l)) /\
              Z.of_nat (length l) <= MAX_DWORD /\ NoDup (h :: l);
  sr_apart : forall h l h' l' x, seqs A !! h = Some l -> seqs A !! h' = Some l' -> h <> h' -> x ∈ h :: l -> x ∉ h' :: l';
  sr_loose : forall x, x ∈ loose A -> x <> 0 /\ is_Some (nexts s !! x) /\ forall h l, seqs A !! h = Some l -> x ∉ h :: l }.

Inductive stack_op := OPush (h x : Z) | OPop (h : Z) | OPeek (h i : Z) | OClear (h : Z) (free : bool) | OIsEmpty (h : Z) | OSize (h : Z).
Inductive stack_result := RNone | RBool (b : bool) | RValue (z : Z).

(** FreeFunction gives the memory of the item back. *)
Definition free_item (x : Z) : M sst unit := _ ← next_of x; modify (fun s => mkSst (delete x (nexts s)) (counts s)).
(** A client that uses the functions of an interface. *)
Definition run_op (F : STACK_INTERFACE_FUNCS) (o : stack_op) : M sst stack_result :=
  match o with
  | OPush h x => b ← Push F h x; ret (RBool b)
  | OPop h => v ← Pop F h; ret (RValue v)
  | OPeek h i => v ← Peek F h i; ret (RValue v)
  | OClear h free => _ ← Clear F h (if free then Some free_item else None); ret RNone
  | OIsEmpty h => b ← IsEmpty F h; ret (RBool b)
  | OSize h => v ← Size F h; ret (RValue v)
  end.
Fixpoint run_ops (F : STACK_INTERFACE_FUNCS) (l : list stack_op) : M sst (list stack_result) :=
  match l with [] => ret [] | o :: l' => r ← run_op F o; rs ← run_ops F l'; ret (r :: rs) end.

(** What an operation means; [None] when the caller may not use it. *)
Definition spec_op (o : stack_op) (A : stacks) : option (stack_result * stacks) :=
  match o with
  | OPush h x => l ← seqs A !! h; if decide (x ∈ loose A /\ Z.of_nat (length l) < MAX_DWORD)
                 then Some (RBool true, mkStacks (<[h := x :: l]> (seqs A)) (loose A ∖ {[x]})) else None
  | OPop h => l ← seqs A !! h;
              match l with [] => Some (RValue 0, A) | x :: l' => Some (RValue x, mkStacks (<[h := l']> (seqs A)) (loose A ∪ {[x]})) end
  | OPeek h i => l ← seqs A !! h; if decide (0 <= i) then Some (RValue (default 0 (l !! Z.to_nat i)), A) else None
  | OClear h free => l ← seqs A !! h; Some (RNone, mkStacks (<[h := []]> (seqs A)) (if free : bool then loose A else loose A ∪ list_to_set l))
  | OIsEmpty h => l ← seqs A !! h; Some (RBool (bool_decide (l = [])), A)
  | OSize h => l ← seqs A !! h; Some (RValue (Z.of_nat (length l)), A)
  end.
Fixpoint spec_ops (l : list stack_op) (A : stacks) : option (list stack_result * stacks) :=
  match l with [] => Some ([], A) | o :: l' => '(r, A1) ← spec_op o A; '(rs, A2) ← spec_ops l' A1; Some (r :: rs, A2) end.

(** The interface: functions that do what the operations mean. *)
Class StackFuncs (F : STACK_INTERFACE_FUNCS) : Prop :=
  stack_law : forall o A r A' s, spec_op o A = Some (r, A') -> stack_rep s A -> wp (run_op F o) (fun r' s' => r' = r /\ stack_rep s' A') s.

(** * The dynamic stack implements the interface *)
Lemma slist_head m h l : slist m h l -> m !! h = Some (default 0 (head l)).
Proof. destruct l; [done|]. by intros [? _]. Qed.
Lemma slist_move m m' h h' l : slist m h l -> m' !! h' = Some (default 0 (head l)) -> (forall y, y ∈ l -> m' !! y = m !! y) -> slist m' h' l.
Proof.
  revert h h'. induction l as [|x l IH]; intros h h' Hs Hh Hy; [done|]. destruct Hs as (_&Hx&Hs). split_and!; [done..|].
  apply (IH x x Hs); [|intros; apply Hy; by right]. rewrite Hy by left. by apply slist_head.
Qed.
Lemma slist_in m h l x : slist m h l -> x ∈ l -> x <> 0 /\ is_Some (m !! x).
Proof.
  revert h. induction l as [|y l IH]; intros h Hs Hx; [by apply elem_of_nil in Hx|]. destruct Hs as (_&Hy&Hs).
  apply elem_of_cons in Hx as [->|Hx]; [|by apply (IH y)]. split; [done|]. rewrite (slist_head _ _ _ Hs). done.
Qed.

Section Update.
Context (s s' : sst) (A : stacks) (h : Z) (l l' : list Z) (L : gset Z).
Hypothesis HR : stack_rep s A.
Hypothesis Hh : seqs A !! h = Some l.
Hypothesis Hs : slist (nexts s') h l'.
Hypothesis Hc : counts s' = <[h := Z.of_nat (length l')]> (counts s).
Hypothesis Hn : Z.of_nat (length l') <= MAX_DWORD.
Hypothesis Hd : NoDup l'.
Hypothesis Hin : forall x, x ∈ l' -> x ∈ l \/ x ∈ loose A.
Hypothesis Hfr : forall y, y ∉ h :: l -> y ∉ l' -> nexts s' !! y = nexts s !! y.
Hypothesis HL : forall x, x ∈ L -> (x ∈ loose A \/ x ∈ l) /\ (x ∉ l') /\ is_Some (nexts s' !! x).

Lemma here_or_loose x : x ∈ loose A \/ x ∈ l -> x <> 0 /\ x <> h /\ forall h' k, h <> h' -> seqs A !! h' = Some k -> x ∉ h' :: k.
Proof.
  destruct (sr_list _ _ HR h l Hh) as (_&Hsl&_&_&Hnd). intros [Hx|Hx].
  - destruct (sr_loose _ _ HR x Hx) as (?&_&H). split_and!; [done|intros ->; by apply (H h l Hh); left|intros; by apply H].
  - destruct (slist_in _ _ _ x Hsl Hx). split_and!; [done|intros ->; by apply NoDup_cons in Hnd as [? _]|].
    intros h' k Hne Hk. eapply (sr_apart _ _ HR h l h' k); [done..|by right].
Qed.

Lemma rep_update : stack_rep s' (mkStacks (<[h := l']> (seqs A)) L).
Proof.
  assert (forall x, x ∈ l' -> x <> 0 /\ x <> h /\ forall h' k, h <> h' -> seqs A !! h' = Some k -> x ∉ h' :: k) as Hl'.
  { intros x Hx. apply here_or_loose. destruct (Hin x Hx); auto. }
  assert (forall h' k y, h <> h' -> seqs A !! h' = Some k -> y ∈ h' :: k -> (y ∉ h :: l) /\ (y ∉ l')) as Hout.
  { intros h' k y Hne Hk Hy. split; [by eapply (sr_apart _ _ HR h' k h l); first [done|congruence]|].
    intros Hy'. destruct (Hl' y Hy') as (_&_&H). by apply (H h' k). }
  split; cbn [seqs loose].
  - intros h' k Hk. destruct (decide (h = h')) as [<-|Hne].
    + rewrite lookup_insert_eq in Hk. injection Hk as <-. destruct (sr_list _ _ HR h l Hh) as (H0&_).
      split_and!; [done..|by rewrite Hc, lookup_insert_eq|done|]. apply NoDup_cons. split; [|done]. intros Hx. by apply Hl' in Hx as (_&?&_).
    + rewrite lookup_insert_ne in Hk by done. destruct (sr_list _ _ HR h' k Hk) as (H0&H1&H2&H3&H4).
      split_and!; [done| |by rewrite Hc, lookup_insert_ne|done|done]. eapply slist_move; [exact H1| |].
      * destruct (Hout h' k h' Hne Hk) as [? ?]; [by left|]. rewrite Hfr by done. by apply slist_head.
      * intros y Hy. destruct (Hout h' k y Hne Hk) as [? ?]; [by right|]. by rewrite Hfr.
  - assert (forall h' k x, h <> h' -> seqs A !! h' = Some k -> x ∈ h :: l' -> x ∉ h' :: k) as Hap.
    { intros h' k x Hne Hk Hx Hx'. destruct (Hout h' k x Hne Hk Hx') as [H1 H2]. apply elem_of_cons in Hx as [->|Hx]; [apply H1; by left|by apply H2]. }
    intros h1 k1 h2 k2 x H1 H2 Hne Hx Hx'. rewrite lookup_insert in H1, H2. destruct (decide (h = h1)) as [<-|N1]; [|destruct (decide (h = h2)) as [<-|N2]].
    + rewrite decide_False in H2 by done. injection H1 as <-. by eapply (Hap h2 k2 x).
    + injection H2 as <-. by eapply (Hap h1 k1 x).
    + by eapply (sr_apart _ _ HR h1 k1 h2 k2 x).
  - intros x Hx. destruct (HL x Hx) as (H1&H2&H3). destruct (here_or_loose x H1) as (H4&H5&H6). split_and!; [done..|].
    intros h' k Hk. destruct (decide (h = h')) as [<-|Hne]; rewrite ?lookup_insert_eq, ?lookup_insert_ne in Hk by done; [|by eapply H6].
    injection Hk as <-. by rewrite not_elem_of_cons.
Qed.
End Update.

(** ** Running the statements *)
Lemma next_of_run a v s : nexts s !! a = Some v -> next_of a s = Ok (v, s).
Proof. intros E. unfold next_of, getS, mbind, M_bind, lift. by rewrite E. Qed.
Lemma set_next_run a v w s : nexts s !! a = Some w -> set_next a v s = Ok (tt, mkSst (<[a := v]> (nexts s)) (counts s)).
Proof. intros E. unfold set_next. by rewrite (bind_run _ _ _ _ _ (next_of_run a w s E)). Qed.
Lemma count_of_run a v s : counts s !! a = Some v -> count_of a s = Ok (v, s).
Proof. intros E. unfold count_of, getS, mbind, M_bind, lift. by rewrite E. Qed.
Lemma set_count_run a v w s : counts s !! a = Some w -> set_count_of a v s = Ok (tt, mkSst (nexts s) (<[a := v]> (counts s))).
Proof. intros E. unfold set_count_of. by rewrite (bind_run _ _ _ _ _ (count_of_run a w s E)). Qed.
Lemma nonzero a : a <> 0 -> negb (a =? 0) = true.
Proof. intros H. by rewrite (proj2 (Z.eqb_neq a 0) H). Qed.

Lemma pop_run h x l c s : h <> 0 -> slist (nexts s) h (x :: l) -> counts s !! h = Some c -> 0 < c < 2 ^ 32 ->
  StackDynamicPop h s = Ok (x, mkSst (<[h := default 0 (head l)]> (nexts s)) (<[h := c - 1]> (counts s))).
Proof.
  intros H0 (Hh&Hx&Hs) Hc Hp. unfold StackDynamicPop, ClPopEntryList. rewrite (nonzero h H0). erewrite bind_run by reflexivity.
  erewrite bind_run. 2:{ rewrite (bind_run _ _ _ _ _ (next_of_run h x s Hh)), (nonzero x Hx).
    erewrite bind_run; [reflexivity|]. rewrite (bind_run _ _ _ _ _ (next_of_run x _ s (slist_head _ _ _ Hs))). by apply (set_next_run h _ x). }
  rewrite (proj2 (Z.eqb_neq x 0) Hx). erewrite bind_run; [|by apply count_of_run]. rewrite (proj2 (Z.ltb_lt _ _)) by lia.
  erewrite bind_run by reflexivity. erewrite bind_run; [|by eapply (set_count_run h _ c)]. rewrite u32_small by rlia. done.
Qed.

Lemma push_law h x l s A : stack_rep s A -> seqs A !! h = Some l -> x ∈ loose A -> Z.of_nat (length l) < MAX_DWORD ->
  wp (StackDynamicPush h x) (fun r s' => r = true /\ stack_rep s' (mkStacks (<[h := x :: l]> (seqs A)) (loose A ∖ {[x]}))) s.
Proof.
  intros HR Hh Hx Hn. destruct (sr_list _ _ HR h l Hh) as (H0&Hs&Hc&_&Hnd). destruct (sr_loose _ _ HR x Hx) as (Hx0&[w Hw]&Hxo).
  pose proof (Hxo h l Hh) as Hxl. apply not_elem_of_cons in Hxl as [Hxh Hxl]. apply NoDup_cons in Hnd as [Hhl Hnd].
  set (m := <[h := x]> (<[x := default 0 (head l)]> (nexts s))).
  assert (StackDynamicPush h x s = Ok (true, mkSst m (<[h := Z.of_nat (length (x :: l))]> (counts s)))) as E.
  { unfold StackDynamicPush, ClPushEntryList. rewrite (nonzero h H0), (nonzero x Hx0). do 2 erewrite bind_run by reflexivity.
    erewrite bind_run. 2:{ rewrite (bind_run _ _ _ _ _ (next_of_run h _ s (slist_head _ _ _ Hs))).
      rewrite (bind_run _ _ _ _ _ (set_next_run x _ w s Hw)). eapply (set_next_run h _ (default 0 (head l))). cbn.
      rewrite lookup_insert_ne by done. by apply slist_head. }
    erewrite bind_run; [|by apply count_of_run]. rewrite (proj2 (Z.ltb_lt _ _)) by lia. erewrite bind_run by reflexivity.
    erewrite bind_run; [|by eapply set_count_run]. unfold ret, m. unfold MAX_DWORD in Hn. rewrite u32_small by rlia. cbn [nexts counts length].
    do 4 f_equal. lia. }
  eapply wp_run; [exact E|]. split; [done|]. apply (rep_update s _ A h l (x :: l)); try done.
  - cbn. unfold m. split_and!; [by rewrite lookup_insert_eq|done|]. eapply slist_move; [exact Hs|by rewrite lookup_insert_ne, lookup_insert_eq by done|].
    intros y Hy. rewrite !lookup_insert_ne; [done| |]; intros ->; done.
  - unfold MAX_DWORD in *. cbn [length]. lia.
  - by apply NoDup_cons.
  - intros y [->|Hy]%elem_of_cons; auto.
  - intros y [Hyh Hyl]%not_elem_of_cons [Hyx _]%not_elem_of_cons. cbn. unfold m. by rewrite !lookup_insert_ne by done.
  - intros y [Hy Hyx]%elem_of_difference. rewrite elem_of_singleton in Hyx. destruct (sr_loose _ _ HR y Hy) as (_&Hsome&Hyo).
    pose proof (Hyo h l Hh) as Hyl. apply not_elem_of_cons in Hyl as [Hyh Hyl]. split_and!; [by left|by rewrite not_elem_of_cons|].
    cbn. unfold m. by rewrite !lookup_insert_ne by done.
Qed.

(** The state after the first item was popped. *)
Lemma popped h x l s A : stack_rep s A -> seqs A !! h = Some (x :: l) ->
  exists s', StackDynamicPop h s = Ok (x, s') /\ stack_rep s' (mkStacks (<[h := l]> (seqs A)) (loose A ∪ {[x]})) /\
    dom (nexts s') = dom (nexts s).
Proof.
  intros HR Hh. destruct (sr_list _ _ HR h (x :: l) Hh) as (H0&Hs&Hc&Hn&Hnd). cbn [length] in Hn. unfold MAX_DWORD in Hn.
  pose proof Hs as (Hhd&Hx&Hs'). pose proof Hnd as [Hhl [Hxl Hndl]%NoDup_cons]%NoDup_cons. apply not_elem_of_cons in Hhl as [Hhx Hhl].
  eexists. split; [apply (pop_run h x l _ s H0 Hs Hc); cbn [length]; lia|]. split.
  2:{ cbn [nexts]. rewrite dom_insert_L. assert (h ∈ dom (nexts s)) by (by apply elem_of_dom). set_solver. }
  apply (rep_update s _ A h (x :: l) l); try done.
  - cbn. eapply slist_move; [exact Hs'|apply lookup_insert_eq|]. intros y Hy. rewrite lookup_insert_ne; [done|]. by intros ->.
  - cbn [counts length]. f_equal. lia.
  - unfold MAX_DWORD. lia.
  - intros y Hy. left. by right.
  - intros y [Hyh Hyl]%not_elem_of_cons _. cbn. by rewrite lookup_insert_ne.
  - intros y [Hy|Hy]%elem_of_union; cbn [nexts].
    + destruct (sr_loose _ _ HR y Hy) as (_&Hsome&Hyo). pose proof (Hyo h _ Hh) as Hyl. rewrite !not_elem_of_cons in Hyl.
      destruct Hyl as (?&?&?). split_and!; [by left|done|]. by rewrite lookup_insert_ne.
    + apply elem_of_singleton in Hy as ->. split_and!; [right; by left|done|]. rewrite lookup_insert_ne by done.
      by apply (slist_in _ _ _ x Hs); left.
Qed.

Lemma pop_empty h s A : stack_rep s A -> seqs A !! h = Some [] -> StackDynamicPop h s = Ok (0, s) /\ StackDynamicIsEmpty h s = Ok (true, s).
Proof.
  intros HR Hh. destruct (sr_list _ _ HR h [] Hh) as (H0&Hs&_). unfold StackDynamicPop, ClPopEntryList, StackDynamicIsEmpty.
  rewrite (nonzero h H0). split; (erewrite bind_run; [|reflexivity]); [|by rewrite (bind_run _ _ _ _ _ (next_of_run h 0 s Hs))].
  erewrite bind_run. 2:{ rewrite (bind_run _ _ _ _ _ (next_of_run h 0 s Hs)). erewrite bind_run by reflexivity. reflexivity. } done.
Qed.

Lemma not_empty h x l s A : stack_rep s A -> seqs A !! h = Some (x :: l) -> StackDynamicIsEmpty h s = Ok (false, s).
Proof.
  intros HR Hh. destruct (sr_list _ _ HR h (x :: l) Hh) as (H0&(Hs&Hx&_)&_). unfold StackDynamicIsEmpty.
  rewrite (nonzero h H0). erewrite bind_run by reflexivity. rewrite (bind_run _ _ _ _ _ (next_of_run h x s Hs)).
  by rewrite (proj2 (Z.eqb_neq x 0) Hx).
Qed.

Lemma peek_loop_run l : forall k a s, slist (nexts s) a l -> (k < length l)%nat ->
  peek_loop k (default 0 (head l)) s = Ok (default 0 (l !! k), s).
Proof.
  induction l as [|x l IH]; intros k a s Hs Hk; [cbn in Hk; lia|]. destruct Hs as (_&Hx&Hs). destruct k as [|k]; [done|]. cbn [peek_loop].
  change (default 0 (head (x :: l))) with x. rewrite (proj2 (Z.eqb_neq x 0) Hx), (bind_run _ _ _ _ _ (next_of_run x _ s (slist_head _ _ _ Hs))).
  cbn in Hk. by apply (IH k x); [|lia].
Qed.

Lemma peek_law h i l s A : stack_rep s A -> seqs A !! h = Some l -> 0 <= i -> StackDynamicPeek h i s = Ok (default 0 (l !! Z.to_nat i), s).
Proof.
  intros HR Hh Hi. destruct (sr_list _ _ HR h l Hh) as (H0&Hs&Hc&_). unfold StackDynamicPeek. rewrite (nonzero h H0). erewrite bind_run by reflexivity.
  rewrite (bind_run _ _ _ _ _ (count_of_run h _ s Hc)). destruct (Z.leb_spec (Z.of_nat (length l)) i) as [Hle|Hlt].
  - rewrite lookup_ge_None_2 by lia. done.
  - rewrite (bind_run _ _ _ _ _ (next_of_run h _ s (slist_head _ _ _ Hs))).
    rewrite (bind_run _ _ _ _ _ (peek_loop_run l (Z.to_nat i) h s Hs ltac:(lia))).
    destruct (lookup_lt_is_Some_2 l (Z.to_nat i)) as [y Hy]; [lia|]. rewrite Hy. change (default 0 (Some y)) with y.
    rewrite nonzero; [done|]. apply (slist_in _ _ _ y Hs). by eapply list_elem_of_lookup_2.
Qed.

(** Clearing: the items are popped in order, and freed if there is a function to free them. *)
Lemma free_loose x s A B : stack_rep s A -> x ∈ loose A -> B = loose A ∖ {[x]} ->
  free_item x s = Ok (tt, mkSst (delete x (nexts s)) (counts s)) /\ stack_rep (mkSst (delete x (nexts s)) (counts s)) (mkStacks (seqs A) B).
Proof.
  intros HR Hx ->. destruct (sr_loose _ _ HR x Hx) as (Hx0&[w Hw]&Hxo). split.
  { unfold free_item. by rewrite (bind_run _ _ _ _ _ (next_of_run x w s Hw)). }
  split; cbn [seqs loose nexts counts].
  - intros h l Hh. destruct (sr_list _ _ HR h l Hh) as (H0&Hs&Hc&Hn&Hnd). split_and!; try done. pose proof (Hxo h l Hh) as Hxl.
    apply not_elem_of_cons in Hxl as [Hxh Hxl]. eapply slist_move; [exact Hs|rewrite lookup_delete_ne by done; by apply slist_head|].
    intros y Hy. apply lookup_delete_ne. by intros ->.
  - apply HR.
  - intros y [Hy Hne]%elem_of_difference. rewrite elem_of_singleton in Hne. destruct (sr_loose _ _ HR y Hy) as (?&?&?).
    split_and!; [done|by rewrite lookup_delete_ne|done].
Qed.

Lemma rep_loose_eq s A B : stack_rep s A -> B ⊆ loose A -> stack_rep s (mkStacks (seqs A) B).
Proof. intros [H1 H2 H3] HB. split; [done..|]. intros x Hx. by apply H3, HB. Qed.

Lemma clear_law free l : forall fuel h s A, (length l < fuel)%nat -> stack_rep s A -> seqs A !! h = Some l ->
  wp (clear_loop fuel h (if free : bool then Some free_item else None))
     (fun _ s' => stack_rep s' (mkStacks (<[h := []]> (seqs A)) (if free : bool then loose A else loose A ∪ list_to_set l))) s.
Proof.
  induction l as [|x l IH]; intros [|fuel] h s A Hf HR Hh; cbn [length] in Hf; try lia; cbn [clear_loop].
  - destruct (pop_empty h s A HR Hh) as [_ E]. eapply wp_run_bind; [exact E|]. apply wp_ret. rewrite insert_id by done.
    apply rep_loose_eq; [done|]. destruct free; set_solver.
  - eapply wp_run_bind; [by eapply not_empty|]. destruct (popped h x l s A HR Hh) as (s1&E&HR1&_). eapply wp_run_bind; [exact E|].
    destruct (sr_list _ _ HR h _ Hh) as (_&(_&Hx&_)&_). apply wp_bind, wp_ASSERT; [by apply nonzero|].
    set (A1 := mkStacks (<[h := l]> (seqs A)) (loose A ∪ {[x]})) in *. assert (seqs A1 !! h = Some l) as Hh1 by apply lookup_insert_eq.
    assert (x ∉ loose A) as Hxl by (intros H; destruct (sr_loose _ _ HR x H) as (_&_&H'); eapply H'; [exact Hh|right; by left]).
    destruct free.
    + destruct (free_loose x s1 A1 (loose A) HR1) as [Ef HR2]; [cbn; set_solver|cbn; set_solver|]. eapply wp_run_bind; [exact Ef|].
      eapply wp_mono; [apply (IH fuel h _ (mkStacks (seqs A1) (loose A)) ltac:(lia) HR2 Hh1)|]. intros u s'. cbn. by rewrite insert_insert_eq.
    + apply wp_bind, wp_ret. eapply wp_mono; [apply (IH fuel h _ A1 ltac:(lia) HR1 Hh1)|]. intros u s'. cbn. rewrite insert_insert_eq.
      replace (loose A ∪ {[x]} ∪ list_to_set l) with (loose A ∪ ({[x]} ∪ list_to_set l : gset Z)) by set_solver. done.
Qed.

Lemma slist_size s h l : slist (nexts s) h l -> NoDup (h :: l) -> (length l < size (nexts s))%nat.
Proof.
  intros Hs Hnd. assert (size (list_to_set (h :: l) : gset Z) <= size (dom (nexts s)))%nat as Hle.
  { apply subseteq_size. intros x Hx%elem_of_list_to_set. apply elem_of_dom. apply elem_of_cons in Hx as [->|Hx]; [by rewrite (slist_head _ _ _ Hs)|].
    by eapply slist_in. }
  rewrite size_list_to_set, size_dom in Hle by done. cbn in Hle. lia.
Qed.

#[export] Instance dynamic_stack : StackFuncs dynamic_funcs.
Proof.
  intros o A r A' s Hsp HR. assert (forall h (f : list Z -> option (stack_result * stacks)), (l ← seqs A !! h; f l) = Some (r, A') -> exists l, seqs A !! h = Some l /\ f l = Some (r, A')) as Hl.
  { intros h f E. destruct (seqs A !! h) as [l|]; [by exists l|done]. }
  destruct o as [h x|h|h i|h free|h|h]; cbn [spec_op] in Hsp; apply Hl in Hsp as (l&Hh&Hsp); clear Hl;
    cbn [run_op dynamic_funcs Push Pop Peek Clear IsEmpty Size].
  - case_decide as Hc; [|done]. destruct Hc as [Hx Hn]. injection Hsp as <- <-. apply wp_bind. eapply wp_mono; [by apply (push_law h x l s A HR Hh)|].
    intros b s' (->&?). by apply wp_ret.
  - destruct l as [|x l]; injection Hsp as <- <-.
    + destruct (pop_empty h s A HR Hh) as [E _]. eapply wp_run_bind; [exact E|]. by apply wp_ret.
    + destruct (popped h x l s A HR Hh) as (s'&E&HR'&_). eapply wp_run_bind; [exact E|]. by apply wp_ret.
  - case_decide; [|done]. injection Hsp as <- <-. eapply wp_run_bind; [by apply (peek_law h i l s A)|]. by apply wp_ret.
  - injection Hsp as <- <-. destruct (sr_list _ _ HR h l Hh) as (H0&Hs&_&_&Hnd). unfold StackDynamicClear. rewrite (nonzero h H0).
    apply wp_bind. eapply wp_run_bind; [reflexivity|]. eapply wp_run_bind; [reflexivity|].
    eapply wp_mono; [apply (clear_law free l); [pose proof (slist_size s h l Hs Hnd); lia|done|done]|]. intros u s' HR'. by apply wp_ret.
  - injection Hsp as <- <-. apply wp_bind. destruct l as [|x l].
    + eapply wp_run; [by apply (pop_empty h s A)|]. by apply wp_ret.
    + eapply wp_run; [by eapply not_empty|]. by apply wp_ret.
  - injection Hsp as <- <-. destruct (sr_list _ _ HR h l Hh) as (H0&Hs&Hc&_). unfold StackDynamicSize. rewrite (nonzero h H0).
    apply wp_bind. eapply wp_run_bind; [reflexivity|]. eapply wp_run; [by apply count_of_run|]. by apply wp_ret.
Qed.

(** * Theorems *)
Lemma stack_run F `{!StackFuncs F} l : forall A rs A' s, spec_ops l A = Some (rs, A') -> stack_rep s A ->
  exists s', run_ops F l s = Ok (rs, s') /\ stack_rep s' A'.
Proof.
  induction l as [|o l IH]; intros A rs A' s Hsp HR; cbn in Hsp; [injection Hsp as <- <-; by exists s|].
  destruct (spec_op o A) as [[r A1]|] eqn:Eo; [|done]. cbn in Hsp. destruct (spec_ops l A1) as [[rs1 A2]|] eqn:El; [|done]. injection Hsp as <- <-.
  destruct (wp_Ok _ _ _ (stack_law o A r A1 s Eo HR)) as (r'&s1&E&->&HR1). destruct (IH A1 rs1 A2 s1 El HR1) as (s2&E2&HR2).
  exists s2. split; [|done]. cbn [run_ops]. by rewrite (bind_run _ _ _ _ _ E), (bind_run _ _ _ _ _ E2).
Qed.

Lemma stack_create_run s A I h : stack_rep s A -> I <> 0 -> h <> 0 -> h ∉ loose A -> (forall h' l, seqs A !! h' = Some l -> h ∉ h' :: l) ->
  exists s1, StackCreate I StackTypeDynamic h s = Ok ((STATUS_SUCCESS, Some (dynamic_funcs, h)), s1) /\
    stack_rep s1 (mkStacks (<[h := []]> (seqs A)) (loose A)).
Proof.
  intros HR HI Hh Hl Ho. eexists. split.
  { unfold StackCreate. rewrite (proj2 (Z.eqb_neq I 0) HI). change (StackTypeReserved <=? StackTypeDynamic) with false.
    rewrite (proj2 (Z.eqb_neq h 0) Hh). erewrite bind_run by reflexivity. cbn [Init]. unfold StackDynamicInit, ClInitializeSListHead.
    erewrite bind_run. 2:{ erewrite bind_run by reflexivity. erewrite bind_run; [|eapply set_next_run, lookup_insert_eq].
      erewrite bind_run; [|eapply set_count_run, lookup_insert_eq]. reflexivity. }
    reflexivity. }
  cbn [nexts counts]. rewrite !insert_insert_eq. split; cbn [seqs loose nexts counts].
  - intros h' l Hl'. destruct (decide (h = h')) as [<-|Hne]; rewrite ?lookup_insert_eq, ?lookup_insert_ne in Hl' by done.
    + injection Hl' as <-. cbn. rewrite !lookup_insert_eq. split_and!; [done..|apply NoDup_singleton].
    + destruct (sr_list _ _ HR h' l Hl') as (H0&Hs&Hc&Hn&Hnd). specialize (Ho h' l Hl'). apply not_elem_of_cons in Ho as [_ Ho].
      split_and!; [done| |by rewrite lookup_insert_ne|done..]. eapply slist_move; [exact Hs|rewrite lookup_insert_ne by done; by apply slist_head|].
      intros y Hy. apply lookup_insert_ne. by intros ->.
  - intros h1 l1 h2 l2 x H1 H2 Hne Hx Hx'. rewrite lookup_insert in H1, H2. destruct (decide (h = h1)) as [<-|N1]; [|destruct (decide (h = h2)) as [<-|N2]].
    + rewrite decide_False in H2 by done. injection H1 as <-. apply list_elem_of_singleton in Hx as ->. by apply (Ho h2 l2).
    + injection H2 as <-. apply list_elem_of_singleton in Hx' as ->. by apply (Ho h1 l1).
    + by apply (sr_apart _ _ HR h1 l1 h2 l2 x).
  - intros x Hx. destruct (sr_loose _ _ HR x Hx) as (H1&H2&H3). assert (x <> h) by (by intros ->). split_and!; [done|by rewrite lookup_insert_ne|].
    intros h' l Hl'. rewrite lookup_insert in Hl'. case_decide; [injection Hl' as <-; subst; by rewrite list_elem_of_singleton|by apply H3].
Qed.

(** C25: A stack created through StackCreate behaves as a sequence of items: any sequence of pushes, pops, peeks, clears (with or without a function that
    frees the items), size and emptiness questions to it and to other stacks, through the functions the interface holds, returns what the
    sequences say, no assertion fails, and the stacks hold the sequences afterwards. *)
Theorem stack_refines_sequences l A rs A' s I h : stack_rep s A -> I <> 0 -> h <> 0 -> h ∉ loose A ->
  (forall h' k, seqs A !! h' = Some k -> h ∉ h' :: k) -> spec_ops l (mkStacks (<[h := []]> (seqs A)) (loose A)) = Some (rs, A') ->
  exists F s1 s2, StackCreate I StackTypeDynamic h s = Ok ((STATUS_SUCCESS, Some (F, h)), s1) /\ run_ops F l s1 = Ok (rs, s2) /\ stack_rep s2 A'.
Proof.
  intros HR HI Hh Hl Ho Hsp. destruct (stack_create_run s A I h HR HI Hh Hl Ho) as (s1&E&HR1).
  destruct (stack_run dynamic_funcs l _ rs A' s1 Hsp HR1) as (s2&E2&HR2). by exists dynamic_funcs, s1, s2.
Qed.

Lemma stack_refines_sequences_witness : exists F s1 s2,
  StackCreate 1 StackTypeDynamic 100 (mkSst (<[8 := 0]> (<[16 := 0]> ∅)) ∅) = Ok ((STATUS_SUCCESS, Some (F, 100)), s1) /\
  run_ops F [OPush 100 8; OPush 100 16; OPeek 100 1; OPop 100; OSize 100; OClear 100 true; OIsEmpty 100] s1 =
    Ok ([RBool true; RBool true; RValue 8; RValue 16; RValue 1; RNone; RBool true], s2).
Proof.
  destruct (stack_refines_sequences [OPush 100 8; OPush 100 16; OPeek 100 1; OPop 100; OSize 100; OClear 100 true; OIsEmpty 100]
    (mkStacks ∅ {[8; 16]}) [RBool true; RBool true; RValue 8; RValue 16; RValue 1; RNone; RBool true] (mkStacks {[100 := []]} {[16]})
    (mkSst (<[8 := 0]> (<[16 := 0]> ∅)) ∅) 1 100) as (F&s1&s2&E1&E2&_); [|lia|lia|set_solver|done|vm_compute; reflexivity|by exists F, s1, s2].
  split; [done|done|]. intros x Hx. cbn in *. assert (x = 8 \/ x = 16) as [->| ->] by set_solver; split_and!; try done; vm_compute; eauto.
Defined.
