(* ===== verification/ClHeap.v ===== *)
(** CommonLib/src/cl_heap.c: the kernel's heap.  Allocations live in one region;
    each has a HEAP_ENTRY header before the data and a HEAP_TAIL after it, and
    the headers are linked in address order.

    The header of the heap, the HEAP_ENTRY and HEAP_TAIL objects and the list
    cells embedded in them are kept as objects at their addresses; the bytes of
    the region are a byte memory, which the zeroing and freeing memsets write.
    An object whose bytes are overwritten by ClHeapFreePoolWithTag ceases to exist,
    so a later access through a stale pointer is a [MemFault]. *)
From stdpp Require Import sorting.
From S2P Require Import Prelude IntUtils ClMemory DList.

Definition HEAP_MINIMUM_SIZE : Z := 64 * KB_SIZE.
Definition HEAP_MAGIC : Z := 0xACE2302E.
Definition HEAP_FREE_PATTERN : Z := 0xAF.
Definition HEAP_DEFAULT_ALIGNMENT : Z := 16.
Definition PoolAllocateZeroMemory : Z := 0x2.
Definition PoolAllocatePanicIfFail : Z := 0x4.

(** Layout (x64): sizes of the structures and offsets of their list cells. *)
Definition SIZEOF_HEAP_HEADER : Z := 72.
Definition OFFSET_HeapAllocations : Z := 56.
Definition SIZEOF_HEAP_ENTRY : Z := 0x20.
Definition OFFSET_ListEntry : Z := 0x10.
Definition SIZEOF_HEAP_TAIL : Z := 4.

Record HEAP_ENTRY := mkHEAP_ENTRY { he_Magic : Z; he_Tag : Z; he_Size : Z; he_Offset : Z }.

Record HEAP_HEADER := mkHEAP_HEADER {
  hh_Magic : Z; HeapSizeMaximum : Z; HeapSizeRemaining : Z; BaseAddress : Z;
  FreeAddress : Z; HeapNumberOfAllocations : Z; EntryToRestartSearch : Z }.

Record Heap := mkHeap {
  hp_header : HEAP_HEADER; hp_entries : gmap Z HEAP_ENTRY; hp_tails : gmap Z Z;
  hp_links : Links; hp_bytes : Mem }.

#[global, refine] Instance HasLinks_Heap : HasLinks Heap :=
  {| links := hp_links;
     set_links := fun l h => mkHeap (hp_header h) (hp_entries h) (hp_tails h) l (hp_bytes h) |}.
Proof. all: by intros; try destruct s. Defined.

(** * Accesses *)
Definition upd_header (f : HEAP_HEADER -> HEAP_HEADER) : M Heap unit :=
  modify (fun h => mkHeap (f (hp_header h)) (hp_entries h) (hp_tails h) (hp_links h) (hp_bytes h)).
Definition set_sizes (remaining count : Z) (hh : HEAP_HEADER) : HEAP_HEADER :=
  mkHEAP_HEADER (hh_Magic hh) (HeapSizeMaximum hh) remaining (BaseAddress hh)
    (FreeAddress hh) count (EntryToRestartSearch hh).
Definition set_FreeAddress (a : Z) (hh : HEAP_HEADER) : HEAP_HEADER :=
  mkHEAP_HEADER (hh_Magic hh) (HeapSizeMaximum hh) (HeapSizeRemaining hh) (BaseAddress hh)
    a (HeapNumberOfAllocations hh) (EntryToRestartSearch hh).
Definition set_Restart (e : Z) (hh : HEAP_HEADER) : HEAP_HEADER :=
  mkHEAP_HEADER (hh_Magic hh) (HeapSizeMaximum hh) (HeapSizeRemaining hh) (BaseAddress hh)
    (FreeAddress hh) (HeapNumberOfAllocations hh) e.

Definition get_entry (p : Z) : M Heap HEAP_ENTRY := fun h =>
  match hp_entries h !! p with Some e => Ok (e, h) | None => Err MemFault end.
Definition get_tail (p : Z) : M Heap Z := fun h =>
  match hp_tails h !! p with Some e => Ok (e, h) | None => Err MemFault end.

(** Writing a header or tail to raw bytes of the region makes it an object; a
    new header brings the cell embedded in it. *)
Definition put_entry (p : Z) (e : HEAP_ENTRY) : M Heap unit := modify (fun h =>
  mkHeap (hp_header h) (<[p := e]> (hp_entries h)) (hp_tails h)
    (if hp_links h !! (p + OFFSET_ListEntry) is Some _ then hp_links h
     else <[p + OFFSET_ListEntry := mkLIST_ENTRY 0 0]> (hp_links h)) (hp_bytes h)).
Definition put_tail (p v : Z) : M Heap unit := modify (fun h =>
  mkHeap (hp_header h) (hp_entries h) (<[p := v]> (hp_tails h)) (hp_links h) (hp_bytes h)).
Definition drop_entry (p tail : Z) : M Heap unit := modify (fun h =>
  mkHeap (hp_header h) (delete p (hp_entries h)) (delete tail (hp_tails h))
    (delete (p + OFFSET_ListEntry) (hp_links h)) (hp_bytes h)).
Definition on_bytes {A} (m : M Mem A) : M Heap A :=
  zoom hp_bytes (fun b h => mkHeap (hp_header h) (hp_entries h) (hp_tails h) (hp_links h) b) m.

(** &HeapHeader->HeapAllocations *)
Definition allocations (h : Heap) : Z := BaseAddress (hp_header h) + OFFSET_HeapAllocations.

(** * Operations *)

(** [heap] is the state before the call; on success it is the initialised heap. *)
Definition ClHeapInit (Base MemoryAvailable : Z) (HeapHeaderIsNull : bool) : M Heap Z :=
  if Base =? NULL then ret STATUS_INVALID_PARAMETER1 else
  if MemoryAvailable <? HEAP_MINIMUM_SIZE then ret STATUS_HEAP_TOO_SMALL else
  if HeapHeaderIsNull then ret STATUS_INVALID_PARAMETER3 else
  _ ← upd_header (fun _ => mkHEAP_HEADER HEAP_MAGIC MemoryAvailable
        (u64 (MemoryAvailable - SIZEOF_HEAP_HEADER)) Base (u64 (Base + SIZEOF_HEAP_HEADER)) 0
        (Base + OFFSET_HeapAllocations));
  _ ← modify (fun h => set_links (<[Base + OFFSET_HeapAllocations := mkLIST_ENTRY 0 0]> (hp_links h)) h);
  _ ← on_links (InitializeListHead (Base + OFFSET_HeapAllocations));
  ret STATUS_SUCCESS.

Definition _ValidateHeapEntry (HeapEntry Tag : Z) : M Heap bool :=
  _ ← ASSERT (negb (HeapEntry =? NULL));
  _ ← ASSERT (negb (0 =? Tag));
  e ← get_entry HeapEntry;
  let totalSize := u32 (SIZEOF_HEAP_ENTRY + he_Size e + SIZEOF_HEAP_TAIL) in
  tail ← get_tail (HeapEntry + totalSize - SIZEOF_HEAP_TAIL);
  ret ((HEAP_MAGIC =? he_Magic e) && (HEAP_MAGIC =? tail) &&
       negb (0 =? he_Tag e) && (Tag =? he_Tag e)).

(** Returns the address after the new tail and the possibly moved header, or 0. *)
Definition _InitHeapEntry (HeapEntry Tag Size Alignment : Z) (AddToLinkedList : bool)
    (SizeAvailable : Z) : M Heap (Z * Z) :=
  let unalignedDataAddress := u64 (HeapEntry + SIZEOF_HEAP_ENTRY) in
  let dataAddress := AlignAddressUpper unalignedDataAddress Alignment in
  let heapEntrySize := u32 (Size + SIZEOF_HEAP_ENTRY + SIZEOF_HEAP_TAIL) in
  if SizeAvailable <? u64 (dataAddress - unalignedDataAddress + heapEntrySize)
  then ret (0, HeapEntry) else
  let pHeapEntry := u64 (dataAddress - SIZEOF_HEAP_ENTRY) in
  _ ← put_entry pHeapEntry (mkHEAP_ENTRY HEAP_MAGIC Tag Size (u32 (dataAddress - pHeapEntry)));
  head ← gets allocations;
  _ ← (if AddToLinkedList then on_links (InsertTailList head (pHeapEntry + OFFSET_ListEntry))
       else ret tt);
  let pHeapTail := u64 (dataAddress + Size) in
  _ ← put_tail pHeapTail HEAP_MAGIC;
  _ ← upd_header (fun hh => set_sizes (u64 (HeapSizeRemaining hh - heapEntrySize))
        (u64 (HeapNumberOfAllocations hh + 1)) hh);
  ret (u64 (pHeapTail + SIZEOF_HEAP_TAIL), pHeapEntry).

(** The body of the search loop for two neighbouring entries: the new header
    when it was placed between them ([found]). *)
Definition gap_try (pPreviousEntry pPreviousHeapEntry pCurEntry : Z)
    (Tag AllocationSize alignment sizeRequired : Z) : M Heap (option Z) :=
  _ ← ASSERT (negb (NULL =? pPreviousHeapEntry));
  let pCurHeapEntry := pCurEntry - OFFSET_ListEntry in
  prev ← get_entry pPreviousHeapEntry;
  let startAddress :=
    u64 (pPreviousHeapEntry + SIZEOF_HEAP_ENTRY + he_Size prev + SIZEOF_HEAP_TAIL) in
  let sizeBetweenEntries := i64 (pCurHeapEntry - startAddress) in
  if i64 sizeRequired <=? sizeBetweenEntries then
    '(tempAddress, pNewHeapEntry) ←
      _InitHeapEntry startAddress Tag AllocationSize alignment false (u64 sizeBetweenEntries);
    if tempAddress =? 0 then ret None else
    prev ← get_entry pPreviousHeapEntry;
    ok ← _ValidateHeapEntry pPreviousHeapEntry (he_Tag prev);
    _ ← ASSERT ok;
    _ ← on_links (InsertHeadList pPreviousEntry (pNewHeapEntry + OFFSET_ListEntry));
    _ ← upd_header (set_Restart (pNewHeapEntry + OFFSET_ListEntry));
    ret (Some pNewHeapEntry)
  else ret None.

(** The search for a free spot between two entries. *)
Fixpoint gap_loop (fuel : nat) (pPreviousEntry pPreviousHeapEntry pCurEntry pCurHeapEntry : Z)
    (Tag AllocationSize alignment sizeRequired : Z) : M Heap (option Z) :=
  match fuel with
  | O => fail NoFuel
  | S fuel' =>
      restart ← gets (fun h => EntryToRestartSearch (hp_header h));
      if restart =? pCurEntry then ret None else
      head ← gets allocations;
      let next_loop pCurHeapEntry :=
        next ← on_links (get_Flink pCurEntry);
        gap_loop fuel' pCurEntry pCurHeapEntry next pCurHeapEntry
          Tag AllocationSize alignment sizeRequired in
      if (pCurEntry =? head) || (pPreviousEntry =? head) then next_loop pCurHeapEntry else
      found ← gap_try pPreviousEntry pPreviousHeapEntry pCurEntry
                Tag AllocationSize alignment sizeRequired;
      match found with
      | Some pNewHeapEntry => ret (Some pNewHeapEntry)
      | None => next_loop (pCurEntry - OFFSET_ListEntry)
      end
  end.

(** The body of the __try block: the status and the new header. *)
Definition alloc_body (AllocationSize Tag AllocationAlignment : Z) : M Heap (Z * Z) :=
  if 0 =? AllocationSize then ret (STATUS_INVALID_PARAMETER2, NULL) else
  if 0 =? Tag then ret (STATUS_INVALID_PARAMETER3, NULL) else
  let alignment := if 0 =? AllocationAlignment then HEAP_DEFAULT_ALIGNMENT else AllocationAlignment in
  let sizeRequired := u64 (AllocationSize + SIZEOF_HEAP_ENTRY + SIZEOF_HEAP_TAIL) in
  hh ← gets hp_header;
  if HeapSizeRemaining hh <? sizeRequired then ret (STATUS_HEAP_NO_MORE_MEMORY, NULL) else
  let remainingSizeUntilEnd :=
    i64 (u64 (BaseAddress hh + HeapSizeMaximum hh - FreeAddress hh - SIZEOF_HEAP_ENTRY)) in
  '(found, pNew) ←
    (if i64 sizeRequired <=? remainingSizeUntilEnd then
       '(tempAddress, pNewHeapEntry) ←
         _InitHeapEntry (FreeAddress hh) Tag AllocationSize alignment true (u64 remainingSizeUntilEnd);
       if negb (0 =? tempAddress) then
         _ ← upd_header (set_FreeAddress tempAddress); ret (true, pNewHeapEntry)
       else ret (false, NULL)
     else ret (false, NULL));
  if found : bool then ret (STATUS_SUCCESS, pNew) else
  let remainingSizeBeforeCurrent :=
    i64 (u64 (HeapSizeRemaining hh - remainingSizeUntilEnd - SIZEOF_HEAP_ENTRY)) in
  if remainingSizeBeforeCurrent <? i64 sizeRequired then ret (STATUS_HEAP_NO_MORE_MEMORY, NULL) else
  head ← gets allocations;
  empty ← on_links (IsListEmpty head);
  _ ← ASSERT (negb empty);
  pPreviousEntry ← on_links (get_Flink (EntryToRestartSearch hh));
  pCurEntry ← on_links (get_Flink pPreviousEntry);
  fuel ← list_fuel;
  pNew ← gap_loop fuel pPreviousEntry (pPreviousEntry - OFFSET_ListEntry) pCurEntry NULL
           Tag AllocationSize alignment sizeRequired;
  match pNew with
  | None => ret (STATUS_HEAP_NO_MORE_MEMORY, NULL)
  | Some p => ret (STATUS_SUCCESS, p)
  end.

Definition ClHeapAllocatePoolWithTag (Flags AllocationSize Tag AllocationAlignment : Z) : M Heap Z :=
  '(status, pNewHeapEntry) ← alloc_body AllocationSize Tag AllocationAlignment;
  mappedAddress ← (if SUCCEEDED status then
                     e ← get_entry pNewHeapEntry; ret (pNewHeapEntry + he_Offset e)
                   else ret NULL);
  _ ← (if IsFlagOn Flags PoolAllocatePanicIfFail then
         _ ← ASSERT (SUCCEEDED status); ASSERT (negb (NULL =? mappedAddress))
       else ret tt);
  _ ← (if SUCCEEDED status && IsFlagOn Flags PoolAllocateZeroMemory
       then on_bytes (cl_memset mappedAddress 0 AllocationSize) else ret tt);
  ret mappedAddress.

Definition ClHeapFreePoolWithTag (MemoryAddress Tag : Z) : M Heap unit :=
  _ ← ASSERT (negb (NULL =? MemoryAddress));
  _ ← ASSERT (negb (0 =? Tag));
  let pHeapEntry := MemoryAddress - SIZEOF_HEAP_ENTRY in
  e ← get_entry pHeapEntry;
  let endAddress := u64 (MemoryAddress + he_Size e + SIZEOF_HEAP_TAIL) in
  ok ← _ValidateHeapEntry pHeapEntry Tag;
  _ ← ASSERT ok;
  pListEntry ← on_links (get_Blink (pHeapEntry + OFFSET_ListEntry));
  head ← gets allocations;
  hh ← gets hp_header;
  previousAddress ←
    (if pListEntry =? head then ret (u64 (BaseAddress hh + SIZEOF_HEAP_HEADER)) else
     if pListEntry =? NULL then ret (u64 (BaseAddress hh + SIZEOF_HEAP_HEADER)) else
     prev ← get_entry (pListEntry - OFFSET_ListEntry);
     ret (u64 (pListEntry - OFFSET_ListEntry + SIZEOF_HEAP_ENTRY + he_Size prev + SIZEOF_HEAP_TAIL)));
  _ ← on_links (RemoveEntryList (pHeapEntry + OFFSET_ListEntry));
  let heapEntrySize := u64 (he_Size e + SIZEOF_HEAP_ENTRY + SIZEOF_HEAP_TAIL) in
  _ ← ASSERT (heapEntrySize <=? MAX_DWORD);
  _ ← on_bytes (cl_memset pHeapEntry HEAP_FREE_PATTERN (u32 heapEntrySize));
  _ ← drop_entry pHeapEntry (MemoryAddress + he_Size e);
  _ ← upd_header (fun hh => set_sizes (u64 (HeapSizeRemaining hh + heapEntrySize))
        (u64 (HeapNumberOfAllocations hh - 1)) hh);
  if endAddress =? FreeAddress hh then upd_header (set_FreeAddress previousAddress) else ret tt.

(** * The heap invariant *)

Definition cell (p : Z) : Z := p + OFFSET_ListEntry.
Definition block_size (size : Z) : Z := size + SIZEOF_HEAP_ENTRY + SIZEOF_HEAP_TAIL.
Definition esize (h : Heap) (p : Z) : Z := from_option he_Size 0 (hp_entries h !! p).
Definition block_end (h : Heap) (p : Z) : Z := p + block_size (esize h p).

(** The blocks of [es] follow each other from [lo] and the last ends at [hi]. *)
Fixpoint laid_out (e : Z -> Z) (lo : Z) (es : list Z) (hi : Z) : Prop :=
  match es with
  | [] => hi = lo
  | p :: es' => lo <= p /\ laid_out e (e p) es' hi
  end.

Fixpoint total_size (sz : Z -> Z) (es : list Z) : Z :=
  match es with [] => 0 | p :: es' => block_size (sz p) + total_size sz es' end.

(** The objects of one allocation. *)
Definition entry_ok (h : Heap) (p : Z) : Prop :=
  exists e, hp_entries h !! p = Some e /\ he_Magic e = HEAP_MAGIC /\ he_Tag e <> 0 /\
    he_Offset e = SIZEOF_HEAP_ENTRY /\ 0 < he_Size e /\ block_size (he_Size e) < 2 ^ 32 /\
    hp_tails h !! (p + SIZEOF_HEAP_ENTRY + he_Size e) = Some HEAP_MAGIC.

(** [es] are the headers of the allocations, in list order. *)
Record heap_inv (h : Heap) (es : list Z) : Prop := {
  inv_base : 0 < BaseAddress (hp_header h);
  inv_top : BaseAddress (hp_header h) + HeapSizeMaximum (hp_header h) < 2 ^ 62;
  inv_min : SIZEOF_HEAP_HEADER <= HeapSizeMaximum (hp_header h);
  inv_list : dlist (hp_links h) (allocations h) (cell <$> es);
  inv_entries : Forall (entry_ok h) es;
  inv_layout : laid_out (block_end h) (BaseAddress (hp_header h) + SIZEOF_HEAP_HEADER) es
    (FreeAddress (hp_header h));
  inv_free : FreeAddress (hp_header h) <=
    BaseAddress (hp_header h) + HeapSizeMaximum (hp_header h);
  inv_remaining : HeapSizeRemaining (hp_header h) =
    HeapSizeMaximum (hp_header h) - SIZEOF_HEAP_HEADER - total_size (esize h) es;
  inv_count : HeapNumberOfAllocations (hp_header h) = Z.of_nat (length es);
  inv_bytes : mapped (hp_bytes h) (BaseAddress (hp_header h)) (HeapSizeMaximum (hp_header h))
}.

(** The search restarts at the list head or at an allocation. *)
Definition restart_ok (h : Heap) (es : list Z) : Prop :=
  EntryToRestartSearch (hp_header h) ∈ allocations h :: (cell <$> es).

Ltac layout := unfold block_end, block_size, cell, OFFSET_ListEntry, OFFSET_HeapAllocations,
  SIZEOF_HEAP_HEADER, SIZEOF_HEAP_ENTRY, SIZEOF_HEAP_TAIL in *.

Lemma laid_out_app e es1 : forall lo es2 hi,
  laid_out e lo (es1 ++ es2) hi <-> exists mid, laid_out e lo es1 mid /\ laid_out e mid es2 hi.
Proof.
  induction es1 as [|p es1 IH]; intros lo es2 hi; simpl; [naive_solver|].
  rewrite IH. naive_solver.
Qed.

Lemma laid_out_ext e e' es : forall lo hi, (forall p, p ∈ es -> e p = e' p) ->
  laid_out e lo es hi -> laid_out e' lo es hi.
Proof.
  induction es as [|p es IH]; simpl; intros lo hi He; [done|].
  intros [? Hl]. split; [done|]. rewrite <- He by set_solver. apply IH; [|done]. set_solver.
Qed.

(** Blocks have positive size, so every address of the list is in the bounds. *)
Lemma laid_out_bounds e es : forall lo hi, (forall p, p ∈ es -> p < e p) ->
  laid_out e lo es hi -> lo <= hi /\ forall p, p ∈ es -> lo <= p /\ e p <= hi.
Proof.
  induction es as [|q es IH]; simpl; intros lo hi He; [intros ->; set_solver|].
  intros [Hq Hl]. pose proof (He q ltac:(set_solver)).
  destruct (IH (e q) hi) as [H1 H2]; [set_solver|done|]. split; [lia|].
  intros p [->|Hp]%elem_of_cons; [lia|]. destruct (H2 p Hp). lia.
Qed.

Lemma laid_out_NoDup e es : forall lo hi, (forall p, p ∈ es -> p < e p) ->
  laid_out e lo es hi -> NoDup es.
Proof.
  induction es as [|q es IH]; simpl; intros lo hi He; [constructor|].
  intros [Hq Hl]. constructor; [|eapply IH; [|done]; set_solver].
  intros Hin. destruct (laid_out_bounds e es (e q) hi) as [_ H2]; [set_solver|done|].
  destruct (H2 q Hin). specialize (He q ltac:(set_solver)). lia.
Qed.

Lemma total_size_app sz es1 es2 : total_size sz (es1 ++ es2) = total_size sz es1 + total_size sz es2.
Proof. induction es1; simpl; lia. Qed.

Lemma total_size_ext sz sz' es : (forall p, p ∈ es -> sz p = sz' p) ->
  total_size sz es = total_size sz' es.
Proof.
  induction es as [|p es IH]; simpl; intros H; [done|]. rewrite (H p), IH; set_solver.
Qed.

Lemma total_size_layout e sz es : forall lo hi, (forall p, e p = p + block_size (sz p)) ->
  laid_out e lo es hi -> total_size sz es <= hi - lo.
Proof.
  induction es as [|p es IH]; simpl; intros lo hi He; [lia|].
  intros [? Hl]. specialize (IH _ _ He Hl). rewrite He in IH. lia.
Qed.

(** Consecutive allocations do not overlap, and lie inside the region. *)
Lemma laid_out_mid e l1 p q l2 lo hi :
  laid_out e lo (l1 ++ p :: q :: l2) hi -> e p <= q.
Proof. rewrite laid_out_app. simpl. intros (mid & _ & _ & Hq & _). done. Qed.

Lemma validate_entry_run h p e Tag : entry_ok h p -> 0 < p -> hp_entries h !! p = Some e ->
  Tag <> 0 -> _ValidateHeapEntry p Tag h = Ok (Tag =? he_Tag e, h).
Proof.
  intros (e' & E' & Hm & Ht & Ho & Hs & Hb & Htail) Hp E HT.
  assert (e' = e) by congruence. subst e'.
  unfold _ValidateHeapEntry, mbind, M_bind, ASSERT, get_entry, get_tail.
  rewrite (proj2 (Z.eqb_neq p NULL)) by (unfold NULL; lia).
  rewrite (proj2 (Z.eqb_neq 0 Tag)) by lia. cbn [negb assert_ lift]. rewrite E.
  rewrite u32_small by (layout; rlia).
  replace (p + (SIZEOF_HEAP_ENTRY + he_Size e + SIZEOF_HEAP_TAIL) - SIZEOF_HEAP_TAIL)
    with (p + SIZEOF_HEAP_ENTRY + he_Size e) by lia.
  rewrite Htail, Hm, Z.eqb_refl, (proj2 (Z.eqb_neq 0 (he_Tag e))) by lia. done.
Qed.

Section Inv.
Context (h : Heap) (es : list Z) (Inv : heap_inv h es).

Lemma entry_size p : p ∈ es -> 0 < esize h p /\ block_size (esize h p) < 2 ^ 32.
Proof.
  intros Hp. pose proof (inv_entries h es Inv) as He. rewrite Forall_forall in He.
  destruct (He p Hp) as (e & E & _ & _ & _ & Hs & Hb & _). unfold esize. by rewrite E.
Qed.

Lemma entry_end p : p ∈ es -> p < block_end h p.
Proof. intros [Hp _]%entry_size. layout. lia. Qed.

Lemma entry_bounds p : p ∈ es ->
  BaseAddress (hp_header h) + SIZEOF_HEAP_HEADER <= p /\
  block_end h p <= FreeAddress (hp_header h).
Proof. apply (proj2 (laid_out_bounds _ _ _ _ entry_end (inv_layout h es Inv))). Qed.

Lemma free_bounds : BaseAddress (hp_header h) + SIZEOF_HEAP_HEADER <= FreeAddress (hp_header h).
Proof. apply (proj1 (laid_out_bounds _ _ _ _ entry_end (inv_layout h es Inv))). Qed.

Lemma remaining_nonneg : 0 <= HeapSizeRemaining (hp_header h) < 2 ^ 62.
Proof.
  rewrite (inv_remaining h es Inv).
  pose proof (total_size_layout (block_end h) (esize h) es _ _ ltac:(done) (inv_layout h es Inv)).
  pose proof (inv_free h es Inv). pose proof (inv_top h es Inv). pose proof (inv_base h es Inv).
  assert (0 <= total_size (esize h) es); [|layout; lia].
  assert (Hall : forall p, p ∈ es -> 0 < esize h p) by (intros p Hp; by apply entry_size).
  clear -Hall. induction es as [|p l IH]; simpl; [lia|].
  pose proof (Hall p ltac:(set_solver)). specialize (IH ltac:(set_solver)). layout. lia.
Qed.

Lemma count_bound : Z.of_nat (length es) < 2 ^ 62.
Proof.
  assert (Hall : forall p, p ∈ es -> 0 < esize h p) by (intros p Hp; by apply entry_size).
  assert (Z.of_nat (length es) <= total_size (esize h) es).
  { clear -Hall. induction es as [|p l IH]; simpl; [lia|].
    pose proof (Hall p ltac:(set_solver)). specialize (IH ltac:(set_solver)). layout. lia. }
  pose proof (total_size_layout (block_end h) (esize h) es _ _ ltac:(done) (inv_layout h es Inv)).
  pose proof (inv_free h es Inv). pose proof (inv_top h es Inv). pose proof (inv_base h es Inv).
  layout. lia.
Qed.

(** Two different allocations occupy disjoint ranges. *)
Lemma blocks_disjoint p q : p ∈ es -> q ∈ es -> p <> q ->
  block_end h p <= q \/ block_end h q <= p.
Proof.
  pose proof (inv_layout h es Inv) as Hl. revert Hl.
  generalize (BaseAddress (hp_header h) + SIZEOF_HEAP_HEADER) as lo.
  pose proof entry_end as He. revert He. clear Inv.
  induction es as [|r l IH]; intros He lo; simpl; [set_solver|]. intros [Hr Hl].
  destruct (laid_out_bounds (block_end h) l (block_end h r) (FreeAddress (hp_header h)))
    as [_ Hb]; [set_solver|done|].
  intros [->|Hp]%elem_of_cons [->|Hq]%elem_of_cons Hne; [done| | |].
  - left. by apply Hb.
  - right. by apply Hb.
  - eapply IH; [|done|done|done|done]. set_solver.
Qed.

Lemma get_entry_run p : p ∈ es -> exists e, get_entry p h = Ok (e, h) /\
  hp_entries h !! p = Some e /\ he_Size e = esize h p /\ he_Tag e <> 0 /\
  he_Offset e = SIZEOF_HEAP_ENTRY.
Proof.
  intros Hp. pose proof (inv_entries h es Inv) as He. rewrite Forall_forall in He.
  destruct (He p Hp) as (e & E & _ & Ht & Ho & _). exists e.
  unfold get_entry, esize. by rewrite E.
Qed.

End Inv.

(** * Placing a new block *)

(** The header _InitHeapEntry chooses for a block that may start at [a]. *)
Definition place (a k : Z) : Z := AlignAddressUpper (a + SIZEOF_HEAP_ENTRY) (2 ^ k) - SIZEOF_HEAP_ENTRY.

(** The block fits between [a] and [lim]. *)
Definition fits (a k Size lim : Z) : Prop := place a k + block_size Size <= lim.

Lemma place_spec a k : 0 <= k < 32 -> 0 <= a < 2 ^ 63 ->
  a <= place a k < a + 2 ^ k /\ (place a k + SIZEOF_HEAP_ENTRY) mod 2 ^ k = 0 /\ 2 ^ k <= 2 ^ 31.
Proof.
  intros Hk Ha. assert (2 ^ k <= 2 ^ 31) by (apply Z.pow_le_mono_r; lia).
  destruct (AlignAddressUpper_spec (a + SIZEOF_HEAP_ENTRY) k) as [H1 H2];
    [lia|layout; rlia|layout; lia|].
  unfold place. split_and!; [lia|lia| |done]. by rewrite Z.sub_add.
Qed.

Definition added_links (h : Heap) (p : Z) : Links :=
  if hp_links h !! cell p is Some _ then hp_links h
  else <[cell p := mkLIST_ENTRY 0 0]> (hp_links h).

Definition with_entry (h : Heap) (p Tag Size : Z) (l : Links) : Heap :=
  mkHeap (set_sizes (HeapSizeRemaining (hp_header h) - block_size Size)
            (HeapNumberOfAllocations (hp_header h) + 1) (hp_header h))
    (<[p := mkHEAP_ENTRY HEAP_MAGIC Tag Size SIZEOF_HEAP_ENTRY]> (hp_entries h))
    (<[p + SIZEOF_HEAP_ENTRY + Size := HEAP_MAGIC]> (hp_tails h)) l (hp_bytes h).

Section Init.
Context (h : Heap) (a k Tag Size avail : Z).
Context (Hk : 0 <= k < 32) (Ha : 0 < a < 2 ^ 62) (Hs : 0 < Size) (Hb : block_size Size < 2 ^ 32).
Context (Hrem : block_size Size <= HeapSizeRemaining (hp_header h) < 2 ^ 62).
Context (Hcnt : 0 <= HeapNumberOfAllocations (hp_header h) < 2 ^ 63) (Hav : 0 <= avail).

Lemma init_entry_nofit add : avail < place a k - a + block_size Size ->
  _InitHeapEntry a Tag Size (2 ^ k) add avail h = Ok ((0, a), h).
Proof.
  intros Hno. destruct (place_spec a k) as (H1 & _ & H2); [lia|lia|].
  unfold _InitHeapEntry. rewrite (u64_small (a + SIZEOF_HEAP_ENTRY)) by (layout; rlia).
  fold (block_size Size). rewrite (u32_small (block_size Size)) by (layout; rlia).
  replace (AlignAddressUpper (a + SIZEOF_HEAP_ENTRY) (2 ^ k)) with (place a k + SIZEOF_HEAP_ENTRY)
    by (unfold place; lia).
  rewrite u64_small by (layout; rlia). rewrite (proj2 (Z.ltb_lt _ _)) by lia. done.
Qed.

Lemma init_entry_fit (add : bool) l :
  place a k - a + block_size Size <= avail ->
  (if add then InsertTailList (allocations h) (cell (place a k)) (added_links h (place a k)) = Ok (tt, l)
   else l = added_links h (place a k)) ->
  _InitHeapEntry a Tag Size (2 ^ k) add avail h =
    Ok ((place a k + block_size Size, place a k), with_entry h (place a k) Tag Size l).
Proof.
  intros Hfit Hl. destruct (place_spec a k) as (H1 & _ & H2); [lia|lia|].
  unfold _InitHeapEntry. rewrite (u64_small (a + SIZEOF_HEAP_ENTRY)) by (layout; rlia).
  fold (block_size Size). rewrite (u32_small (block_size Size)) by (layout; rlia).
  replace (AlignAddressUpper (a + SIZEOF_HEAP_ENTRY) (2 ^ k)) with (place a k + SIZEOF_HEAP_ENTRY)
    by (unfold place; lia).
  set (p := place a k) in *.
  rewrite (u64_small (p + _ - _ + _)) by (layout; rlia). rewrite (proj2 (Z.ltb_ge _ _)) by lia.
  rewrite (u64_small (p + SIZEOF_HEAP_ENTRY - _)) by (layout; rlia).
  rewrite Z.add_simpl_r. replace (p + SIZEOF_HEAP_ENTRY - p) with SIZEOF_HEAP_ENTRY by lia.
  rewrite (u64_small (p + SIZEOF_HEAP_ENTRY + Size)) by (layout; rlia).
  rewrite (u64_small (p + _ + _ + _)) by (layout; rlia).
  replace (p + SIZEOF_HEAP_ENTRY + Size + SIZEOF_HEAP_TAIL) with (p + block_size Size)
    by (unfold block_size; lia).
  unfold mbind, M_bind, put_entry, put_tail, upd_header, modify, gets.
  change (u32 SIZEOF_HEAP_ENTRY) with SIZEOF_HEAP_ENTRY. cbn [hp_header allocations].
  destruct add.
  - unfold on_links, zoom. cbn [links set_links HasLinks_Heap hp_links hp_header].
    change (allocations _) with (allocations h). unfold added_links, cell in Hl. rewrite Hl.
    unfold with_entry, ret. cbn [hp_header hp_entries hp_tails hp_links hp_bytes].
    by rewrite !u64_small by (layout; rlia).
  - subst l. unfold with_entry, ret, added_links. cbn [hp_header hp_entries hp_tails hp_links hp_bytes].
    by rewrite !u64_small by (layout; rlia).
Qed.
End Init.

(** A header with a new free address and restart point. *)
Definition moved (h : Heap) (free restart : Z) : Heap :=
  mkHeap (set_Restart restart (set_FreeAddress free (hp_header h))) (hp_entries h) (hp_tails h)
    (hp_links h) (hp_bytes h).

Section Insert.
Context (h : Heap) (l1 l2 : list Z) (Inv : heap_inv h (l1 ++ l2)).
Context (p Size free : Z) (Hs : 0 < Size).
Context (Hlo : exists mid, mid <= p /\
     laid_out (block_end h) (BaseAddress (hp_header h) + SIZEOF_HEAP_HEADER) l1 mid).
Context (Hhi : match l2 with
  | [] => free = p + block_size Size /\
          free <= BaseAddress (hp_header h) + HeapSizeMaximum (hp_header h)
  | q :: _ => p + block_size Size <= q /\ free = FreeAddress (hp_header h)
  end).
Lemma hi_layout mid : laid_out (block_end h) mid l2 (FreeAddress (hp_header h)) ->
  laid_out (block_end h) (p + block_size Size) l2 free.
Proof.
  destruct l2 as [|q l2']; simpl; [intros _; lia|]. intros [_ Hq].
  destruct Hhi as [? ->]. done.
Qed.

Lemma apart q : q ∈ l1 ++ l2 -> block_end h q <= p \/ p + block_size Size <= q.
Proof.
  intros Hq. destruct Hlo as (mid & Hm & L1).
  pose proof (inv_layout h _ Inv) as L. apply laid_out_app in L as (mid' & L1' & L2).
  assert (Hend : forall x, x ∈ l1 ++ l2 -> x < block_end h x) by (by apply entry_end).
  apply elem_of_app in Hq as [Hq|Hq].
  - left. destruct (laid_out_bounds (block_end h) l1 _ _ ltac:(set_solver) L1) as [_ H].
    destruct (H q Hq). lia.
  - right. pose proof (hi_layout mid' L2) as L3.
    destruct (laid_out_bounds (block_end h) l2 _ _ ltac:(set_solver) L3) as [_ H].
    destruct (H q Hq). lia.
Qed.

Lemma fresh : p ∉ l1 ++ l2.
Proof.
  intros Hp. destruct (apart p Hp); [pose proof (entry_end h _ Inv p Hp)|]; layout; lia.
Qed.

Context (Tag restart : Z) (l : Links) (Hb : block_size Size < 2 ^ 32) (HT : Tag <> 0).
Context (Hl : dlist l (allocations h) (cell <$> l1 ++ p :: l2)).

Let h' := moved (with_entry h p Tag Size l) free restart.

Lemma esize_new : esize h' p = Size.
Proof. unfold esize, h'. simpl. by rewrite lookup_insert_eq. Qed.

Lemma esize_old q : q ∈ l1 ++ l2 -> esize h' q = esize h q.
Proof.
  intros Hq. unfold esize, h'. simpl. rewrite lookup_insert_ne; [done|].
  intros <-. by destruct fresh.
Qed.

Lemma entry_ok_old q : q ∈ l1 ++ l2 -> entry_ok h q -> entry_ok h' q.
Proof.
  intros Hq (e & E & H1 & H2 & H3 & H4 & H5 & H6). exists e. unfold h'. simpl.
  assert (Es : esize h q = he_Size e) by (unfold esize; by rewrite E).
  rewrite !lookup_insert_ne; [done| |].
  - destruct (apart q Hq); layout; lia.
  - intros <-. by destruct fresh.
Qed.

Lemma heap_inv_insert : heap_inv h' (l1 ++ p :: l2).
Proof.
  pose proof esize_old as Eo.
  assert (Hend : forall x, x ∈ l1 ++ l2 -> block_end h x = block_end h' x).
  { intros x Hx. unfold block_end. by rewrite Eo. }
  pose proof (inv_layout h _ Inv) as L. apply laid_out_app in L as (mid' & L1' & L2).
  destruct Hlo as (mid & Hm & L1). pose proof (hi_layout mid' L2) as L3.
  destruct Inv. split; try done.
  - rewrite Forall_app, Forall_cons in *. rewrite !Forall_forall in *.
    destruct inv_entries0 as [E1 E2]. split_and!.
    + intros q Hq. apply entry_ok_old; [set_solver|by apply E1].
    + exists (mkHEAP_ENTRY HEAP_MAGIC Tag Size SIZEOF_HEAP_ENTRY). unfold h'. simpl.
      by rewrite !lookup_insert_eq.
    + intros q Hq. apply entry_ok_old; [set_solver|by apply E2].
  - apply laid_out_app. exists mid. split.
    + eapply laid_out_ext; [|exact L1]. intros x Hx. apply Hend. set_solver.
    + simpl. split; [done|]. unfold block_end at 2. rewrite esize_new.
      eapply laid_out_ext; [|exact L3]. intros x Hx. apply Hend. set_solver.
  - simpl. destruct l2; [by destruct Hhi|]. by destruct Hhi as [_ ->].
  - simpl. rewrite total_size_app. simpl. rewrite esize_new.
    rewrite inv_remaining0, total_size_app.
    rewrite (total_size_ext (esize h') (esize h) l1), (total_size_ext (esize h') (esize h) l2); [lia| |];
      intros x Hx; apply Eo; set_solver.
  - simpl. rewrite inv_count0, !length_app. simpl. lia.
Qed.
End Insert.

(** * Allocation *)

(** [p] is a new allocation of [Size] bytes with data aligned to [2^k]; the
    other allocations keep their headers. *)
Definition placed (h : Heap) (es : list Z) (k Tag Size p : Z) (h' : Heap) : Prop :=
  exists l1 l2, es = l1 ++ l2 /\ heap_inv h' (l1 ++ p :: l2) /\ restart_ok h' (l1 ++ p :: l2) /\
    (p + SIZEOF_HEAP_ENTRY) mod 2 ^ k = 0 /\
    hp_entries h' !! p = Some (mkHEAP_ENTRY HEAP_MAGIC Tag Size SIZEOF_HEAP_ENTRY) /\
    (forall q, q ∈ es -> hp_entries h' !! q = hp_entries h !! q) /\ (p ∉ es) /\
    hp_bytes h' = hp_bytes h /\ BaseAddress (hp_header h') = BaseAddress (hp_header h) /\
    HeapSizeMaximum (hp_header h') = HeapSizeMaximum (hp_header h).

Lemma cell_inj p q : cell p = cell q -> p = q.
Proof. unfold cell. lia. Qed.

Lemma cell_fresh h es p : heap_inv h es -> p ∉ es ->
  BaseAddress (hp_header h) + SIZEOF_HEAP_HEADER <= p -> cell p ∉ allocations h :: (cell <$> es).
Proof.
  intros Inv Hp Hlo [E|(q & E%cell_inj & Hq)%list_elem_of_fmap]%elem_of_cons.
  - unfold allocations in E. layout. lia.
  - congruence.
Qed.

Lemma added_links_dlist h es p : heap_inv h es -> p ∉ es ->
  BaseAddress (hp_header h) + SIZEOF_HEAP_HEADER <= p ->
  dlist (added_links h p) (allocations h) (cell <$> es) /\ is_Some (added_links h p !! cell p).
Proof.
  intros Inv Hp Hlo. pose proof (cell_fresh h es p Inv Hp Hlo) as Hc.
  unfold added_links. destruct (hp_links h !! cell p) as [c|] eqn:E.
  - split; [apply (inv_list h es Inv)|]. rewrite E. eauto.
  - split; [|rewrite lookup_insert_eq; eauto]. eapply dlist_ext; [apply (inv_list h es Inv)|].
    intros x Hx. rewrite lookup_insert_ne; [done|]. intros <-. done.
Qed.

Section Place.
Context (h : Heap) (es : list Z) (Inv : heap_inv h es) (Hr : restart_ok h es).
Context (k Tag Size : Z) (Hk : 0 <= k < 32) (Hs : 0 < Size) (Hb : block_size Size < 2 ^ 32).
Context (HT : Tag <> 0) (Hrem : block_size Size <= HeapSizeRemaining (hp_header h)).
Context (Hcnt : Z.of_nat (length es) < 2 ^ 63).

Let hh := hp_header h.

Lemma place_tail :
  fits (FreeAddress hh) k Size (BaseAddress hh + HeapSizeMaximum hh) ->
  let p := place (FreeAddress hh) k in
  exists l, InsertTailList (allocations h) (cell p) (added_links h p) = Ok (tt, l) /\
    placed h es k Tag Size p
      (moved (with_entry h p Tag Size l) (p + block_size Size) (EntryToRestartSearch hh)).
Proof.
  intros Hfit p. pose proof (free_bounds h es Inv) as Hf. pose proof (inv_base h es Inv) as Hb0.
  pose proof (inv_top h es Inv) as Ht. pose proof (inv_free h es Inv) as Hf2.
  destruct (place_spec (FreeAddress hh) k) as (P1 & P2 & _); [done|unfold hh; layout; lia|]. fold p in P1, P2.
  assert (Hp : p ∉ es).
  { intros Hin. destruct (entry_bounds h es Inv p Hin). pose proof (entry_end h es Inv p Hin).
    unfold hh in *. lia. }
  assert (Hlo : BaseAddress (hp_header h) + SIZEOF_HEAP_HEADER <= p) by (unfold hh in *; lia).
  destruct (added_links_dlist h es p Inv Hp Hlo) as [Hd Hsome].
  pose proof (cell_fresh h es p Inv Hp Hlo) as Hc.
  destruct (wp_Ok _ _ _ (InsertTailList_at (added_links h p) (allocations h) (cell <$> es) []
    (cell p) ltac:(by rewrite app_nil_r) ltac:(by rewrite app_nil_r) Hsome))
    as ([] & l & E & Hd' & _).
  exists l. split; [exact E|]. exists es, []. rewrite app_nil_r.
  split_and!; try done.
  - apply (heap_inv_insert h es []); try done; [by rewrite app_nil_r| |].
    + exists (FreeAddress hh). split; [lia|apply (inv_layout h es Inv)].
    + by rewrite fmap_app.
  - unfold restart_ok in *. rewrite fmap_app. simpl. set_solver.
  - simpl. by rewrite lookup_insert_eq.
  - intros q Hq. simpl. rewrite lookup_insert_ne; [done|]. by intros <-.
Qed.

Lemma place_gap l1 q1 q2 l2 : es = l1 ++ q1 :: q2 :: l2 ->
  fits (block_end h q1) k Size q2 ->
  let p := place (block_end h q1) k in
  exists l, InsertHeadList (cell q1) (cell p) (added_links h p) = Ok (tt, l) /\
    placed h es k Tag Size p
      (moved (with_entry h p Tag Size l) (FreeAddress hh) (cell p)).
Proof.
  intros Ees Hfit p.
  assert (Hq1 : q1 ∈ es) by (subst; set_solver). assert (Hq2 : q2 ∈ es) by (subst; set_solver).
  destruct (entry_bounds h es Inv q1 Hq1) as [B1 B2]. destruct (entry_bounds h es Inv q2 Hq2) as [B3 B4].
  pose proof (entry_end h es Inv q1 Hq1). pose proof (entry_end h es Inv q2 Hq2).
  pose proof (inv_base h es Inv) as Hb0. pose proof (inv_top h es Inv). pose proof (inv_free h es Inv).
  destruct (place_spec (block_end h q1) k) as (P1 & P2 & _); [done|layout; lia|]. fold p in P1, P2.
  unfold fits in Hfit. fold p in Hfit.
  pose proof (inv_layout h es Inv) as Lay. rewrite Ees in Lay.
  replace (l1 ++ q1 :: q2 :: l2) with ((l1 ++ [q1]) ++ q2 :: l2) in Lay by (by rewrite <- app_assoc).
  pose proof Lay as Lay2. apply laid_out_app in Lay2 as (mid & L1 & L2).
  assert (Emid : mid = block_end h q1).
  { apply laid_out_app in L1 as (mid0 & _ & _ & E). by simpl in E. }
  assert (Ees' : es = (l1 ++ [q1]) ++ q2 :: l2) by (by rewrite <- app_assoc).
  assert (Inv' : heap_inv h ((l1 ++ [q1]) ++ q2 :: l2)) by (by rewrite <- Ees').
  assert (Hlo' : exists mid, mid <= p /\ laid_out (block_end h)
    (BaseAddress (hp_header h) + SIZEOF_HEAP_HEADER) (l1 ++ [q1]) mid) by (exists mid; split; [lia|done]).
  assert (Hp : p ∉ es).
  { rewrite Ees'. apply (fresh h (l1 ++ [q1]) (q2 :: l2) Inv' p Size (FreeAddress hh)); done. }
  assert (Hlo : BaseAddress (hp_header h) + SIZEOF_HEAP_HEADER <= p) by lia.
  destruct (added_links_dlist h es p Inv Hp Hlo) as [Hd Hsome].
  pose proof (cell_fresh h es p Inv Hp Hlo) as Hc.
  rewrite Ees', fmap_app in Hd, Hc.
  destruct (wp_Ok _ _ _ (InsertHeadList_at _ _ (cell <$> l1 ++ [q1]) (cell <$> q2 :: l2)
    (cell p) Hd Hc Hsome)) as ([] & l & E & Hd' & _).
  rewrite fmap_app in E. simpl in E. rewrite lst_snoc in E.
  exists l. split; [exact E|]. exists (l1 ++ [q1]), (q2 :: l2).
  split_and!; try done.
  - apply (heap_inv_insert h (l1 ++ [q1]) (q2 :: l2)); try done. by rewrite fmap_app.
  - unfold restart_ok. rewrite fmap_app. simpl. set_solver.
  - simpl. by rewrite lookup_insert_eq.
  - intros q Hq. simpl. rewrite lookup_insert_ne; [done|]. by intros <-.
Qed.

(** ** The search between entries *)

Let head := allocations h.

(** Two neighbours of the cycle that are both allocations are consecutive. *)
Lemma gap_adjacent prev c nxt :
  linked (hp_links h) prev c -> linked (hp_links h) c nxt ->
  c ∈ head :: (cell <$> es) -> c <> head -> prev <> head ->
  exists l1 q1 q2 l2, es = l1 ++ q1 :: q2 :: l2 /\ prev = cell q1 /\ c = cell q2 /\
    nxt = fst_ head (cell <$> l2).
Proof.
  intros L1 L2 Hc Hch Hph. apply elem_of_cons in Hc as [?|(q2 & -> & Hq2)%list_elem_of_fmap]; [done|].
  apply list_elem_of_split in Hq2 as (m1 & l2 & Ees). pose proof (inv_list h es Inv) as Hd.
  rewrite Ees, fmap_app in Hd. simpl in Hd. destruct (dlist_around _ _ _ _ _ Hd) as [A1 A2].
  pose proof (linked_inj_r _ _ _ _ L1 A1) as Ep. pose proof (linked_inj_l _ _ _ _ L2 A2) as En.
  destruct m1 as [|q1 l1 _] using rev_ind; [done|].
  rewrite fmap_app in Ep. simpl in Ep. rewrite lst_snoc in Ep.
  exists l1, q1, q2, l2. by rewrite Ees, <- app_assoc.
Qed.

Lemma entry_le_last l1 q : es = l1 ++ [q] -> forall x, x ∈ es -> x <= q.
Proof.
  intros Ees x Hx. destruct (decide (x = q)) as [->|Hne]; [lia|].
  assert (Hx1 : x ∈ l1) by set_solver. pose proof (inv_layout h es Inv) as L. rewrite Ees in L.
  apply laid_out_app in L as (mid & L1 & Hq & _).
  destruct (laid_out_bounds (block_end h) l1 _ _ ltac:(intros y Hy; apply (entry_end h es Inv); set_solver) L1)
    as [_ H]. destruct (H x Hx1). pose proof (entry_end h es Inv x Hx). lia.
Qed.

Definition loop_inv (prev prevHeap cur curHeap : Z) : Prop :=
  (prev <> head -> cur <> head ->
     prevHeap = NULL \/ cell prevHeap = prev \/ (prevHeap ∈ es /\ cur <= cell prevHeap)) /\
  (cur = head \/ prev = head -> curHeap = NULL \/ (curHeap ∈ es /\ forall q, q ∈ es -> q <= curHeap)).

(** Outcome of a search that has the cells [rem] left: nothing found and nothing
    changed, a block placed in a gap, or the assertion on the previous entry
    fails, which cannot happen when the search starts at the list head. *)
Definition gap_post (r : Z) (rem : list Z) (res : outcome (option Z * Heap)) : Prop :=
  match res with
  | Ok (None, h') =>
      h' = h /\ (r = head -> forall l1 q1 q2 l2, es = l1 ++ q1 :: q2 :: l2 ->
         cell q2 ∈ rem -> ~ fits (block_end h q1) k Size q2)
  | Ok (Some p, h') => placed h es k Tag Size p h'
  | Err e => e = AssertFailed /\ r <> head
  end.

Lemma gap_entry_values l1 q1 q2 l2 : es = l1 ++ q1 :: q2 :: l2 ->
  0 < block_end h q1 < 2 ^ 62 /\ block_end h q1 <= q2 < 2 ^ 62 /\ 0 < q1 /\ q1 ∈ es /\ q2 ∈ es.
Proof using Inv.
  clear -Inv. intros Ees. assert (Hq1 : q1 ∈ es) by (subst; set_solver).
  assert (Hq2 : q2 ∈ es) by (subst; set_solver).
  destruct (entry_bounds h es Inv q1 Hq1). destruct (entry_bounds h es Inv q2 Hq2).
  pose proof (entry_end h es Inv q1 Hq1). pose proof (entry_end h es Inv q2 Hq2).
  pose proof (inv_base h es Inv). pose proof (inv_top h es Inv). pose proof (inv_free h es Inv).
  pose proof (inv_layout h es Inv) as L. rewrite Ees in L. apply laid_out_mid in L.
  unfold SIZEOF_HEAP_HEADER in *. split_and!; try done; lia.
Qed.

Lemma gap_try_fit l1 q1 q2 l2 : es = l1 ++ q1 :: q2 :: l2 ->
  match gap_try (cell q1) q1 (cell q2) Tag Size (2 ^ k) (block_size Size) h with
  | Ok (None, h') => h' = h /\ ~ fits (block_end h q1) k Size q2
  | Ok (Some p, h') => placed h es k Tag Size p h'
  | Err _ => False
  end.
Proof.
  intros Ees. destruct (gap_entry_values l1 q1 q2 l2 Ees) as (Ha & Hq & Hq0 & Hin & Hin2).
  destruct (get_entry_run h es Inv q1 Hin) as (e & Eg & El & Es & Et & _).
  destruct (place_spec (block_end h q1) k) as (P1 & _ & P2); [done|lia|].
  pose proof (remaining_nonneg h es Inv) as Hrn.
  unfold gap_try, mbind, M_bind, ASSERT. rewrite (proj2 (Z.eqb_neq NULL q1)) by (unfold NULL; lia).
  cbn [negb assert_ lift]. rewrite Eg, Es.
  replace (q1 + SIZEOF_HEAP_ENTRY + esize h q1 + SIZEOF_HEAP_TAIL) with (block_end h q1)
    by (layout; lia).
  rewrite (u64_small (block_end h q1)) by rlia.
  replace (cell q2 - OFFSET_ListEntry) with q2 by (layout; lia).
  rewrite (i64_small (q2 - _)), (i64_small (block_size Size)) by (layout; lia).
  destruct (Z.leb_spec (block_size Size) (q2 - block_end h q1)).
  2: { split; [done|]. unfold fits. lia. }
  rewrite u64_small by rlia.
  destruct (Z.lt_ge_cases (q2 - block_end h q1) (place (block_end h q1) k - block_end h q1 + block_size Size))
    as [Hno|Hfit].
  - rewrite init_entry_nofit by (done || lia). rewrite Z.eqb_refl. split; [done|]. unfold fits. lia.
  - rewrite (init_entry_fit h _ k Tag Size _) with (l := added_links h (place (block_end h q1) k))
      by (done || lia || (rewrite (inv_count h es Inv); lia)).
    rewrite (proj2 (Z.eqb_neq _ 0)) by (layout; lia).
    destruct (place_gap l1 q1 q2 l2 Ees) as (l & El2 & Hpl); [unfold fits; lia|].
    set (p := place (block_end h q1) k) in *.
    pose proof Hpl as (m1 & m2 & Em & Inv2 & _ & _ & _ & Hold & Hnew & _).
    assert (Eold : hp_entries (with_entry h p Tag Size (added_links h p)) !! q1 = Some e).
    { rewrite <- El. by apply Hold. }
    unfold get_entry. rewrite Eold.
    rewrite (validate_entry_run _ q1 e); [| |done|done|done].
    2: { assert (Hok : entry_ok (moved (with_entry h p Tag Size l) (FreeAddress hh) (cell p)) q1).
         { pose proof (inv_entries _ _ Inv2) as Hall. rewrite Forall_forall in Hall. apply Hall.
           rewrite Em in Hin. set_solver. }
         exact Hok. }
    rewrite Z.eqb_refl. cbn [assert_ lift]. unfold on_links, zoom.
    cbn [links HasLinks_Heap hp_links with_entry]. fold (cell p). rewrite El2.
    exact Hpl.
Qed.

(** With a previous entry that lies at or after the current one nothing is placed. *)
Lemma gap_try_stale prev x q2 : x ∈ es -> q2 ∈ es -> q2 <= x ->
  gap_try prev x (cell q2) Tag Size (2 ^ k) (block_size Size) h = Ok (None, h).
Proof.
  intros Hx Hq2 Hle. destruct (get_entry_run h es Inv x Hx) as (e & Eg & _ & Es & _).
  destruct (entry_bounds h es Inv x Hx). destruct (entry_bounds h es Inv q2 Hq2).
  pose proof (entry_end h es Inv x Hx). pose proof (inv_base h es Inv).
  pose proof (inv_top h es Inv). pose proof (inv_free h es Inv).
  unfold gap_try, mbind, M_bind, ASSERT.
  rewrite (proj2 (Z.eqb_neq NULL x)) by (unfold NULL, SIZEOF_HEAP_HEADER in *; lia).
  cbn [negb assert_ lift]. rewrite Eg, Es.
  replace (x + SIZEOF_HEAP_ENTRY + esize h x + SIZEOF_HEAP_TAIL) with (block_end h x)
    by (layout; lia).
  rewrite (u64_small (block_end h x)) by (unfold SIZEOF_HEAP_HEADER in *; rlia).
  replace (cell q2 - OFFSET_ListEntry) with q2 by (unfold cell; lia).
  rewrite !i64_small by (unfold block_size, SIZEOF_HEAP_HEADER, SIZEOF_HEAP_ENTRY, SIZEOF_HEAP_TAIL in *; lia).
  rewrite (proj2 (Z.leb_gt _ _)); [done|].
  unfold block_size, SIZEOF_HEAP_ENTRY, SIZEOF_HEAP_TAIL. lia.
Qed.

Lemma loop_inv_step c nxt l1 q1 q2 l2 :
  es = l1 ++ q1 :: q2 :: l2 -> c = cell q2 -> nxt = fst_ head (cell <$> l2) -> c <> head ->
  loop_inv c (c - OFFSET_ListEntry) nxt (c - OFFSET_ListEntry).
Proof.
  intros Ees -> Hn Hc. replace (cell q2 - OFFSET_ListEntry) with q2 by (unfold cell; lia).
  split; [intros _ _; by right; left|]. intros [E|E]; [|done]. right.
  destruct l2 as [|q3 l2].
  - split; [set_solver|]. apply (entry_le_last (l1 ++ [q1])). by rewrite <- app_assoc.
  - exfalso. simpl in Hn. pose proof (inv_list h es Inv) as [[Hh _]%NoDup_cons _].
    apply Hh. rewrite Ees, fmap_app. simpl. unfold head in *. set_solver.
Qed.

Lemma loop_inv_head prev c nxt prevHeap curHeap :
  loop_inv prev prevHeap c curHeap -> c = head \/ prev = head ->
  nxt ∈ head :: (cell <$> es) -> loop_inv c curHeap nxt curHeap.
Proof.
  intros [_ H2] Hor Hn. specialize (H2 Hor). split; [|done]. intros Hc Hnx.
  destruct H2 as [->|[Hin Hmax]]; [by left|]. right; right. split; [done|].
  apply elem_of_cons in Hn as [?|(q & -> & Hq)%list_elem_of_fmap]; [done|].
  specialize (Hmax q Hq). unfold cell. lia.
Qed.

Lemma gap_post_cons r c rem res : gap_post r rem res ->
  (r = head -> forall l1 q1 q2 l2, es = l1 ++ q1 :: q2 :: l2 -> cell q2 = c ->
     ~ fits (block_end h q1) k Size q2) -> gap_post r (c :: rem) res.
Proof.
  intros Hp Hc. destruct res as [[[p|] h']|e]; [done| |done]. destruct Hp as [-> Hp].
  split; [done|]. intros Hr0 l1 q1 q2 l2 Ees [Hq|Hq]%elem_of_cons; [by eapply Hc|by eapply Hp].
Qed.

(** The predecessor of an entry is determined by the list. *)
Lemma pred_unique l1 q1 q2 l2 m1 p1 m2 :
  es = l1 ++ q1 :: q2 :: l2 -> es = m1 ++ p1 :: q2 :: m2 -> p1 = q1.
Proof.
  intros E1 E2. pose proof (inv_list h es Inv) as Hd.
  assert (A : linked (hp_links h) (cell q1) (cell q2)).
  { pose proof Hd as Hd1. rewrite E1, fmap_app in Hd1. simpl in Hd1.
    by destruct (dlist_around _ _ _ _ _ Hd1) as [_ ?]. }
  assert (B : linked (hp_links h) (cell p1) (cell q2)).
  { pose proof Hd as Hd1. rewrite E2, fmap_app in Hd1. simpl in Hd1.
    by destruct (dlist_around _ _ _ _ _ Hd1) as [_ ?]. }
  apply cell_inj. by eapply linked_inj_r.
Qed.

Lemma gap_loop_run r (rem : list Z) : forall fuel pre prevHeap curHeap,
  EntryToRestartSearch hh = r -> dlist (hp_links h) r (pre ++ rem) ->
  r :: pre ++ rem ≡ₚ head :: (cell <$> es) -> pre <> [] -> (length rem < fuel)%nat ->
  loop_inv (lst r pre) prevHeap (fst_ r rem) curHeap ->
  (r = head -> cell prevHeap = lst r pre) ->
  gap_post r rem (gap_loop fuel (lst r pre) prevHeap (fst_ r rem) curHeap
    Tag Size (2 ^ k) (block_size Size) h).
Proof.
  induction rem as [|c rem IH]; intros fuel pre prevHeap curHeap Er Hd Hperm Hpre Hf HI Hgood;
    (destruct fuel as [|fuel]; [simpl in Hf; lia|]); simpl; unfold mbind, M_bind, gets;
    fold hh; rewrite Er.
  { rewrite Z.eqb_refl. split; [done|]. intros. set_solver. }
  change (fst_ r (c :: rem)) with c in HI.
  destruct (dlist_next _ _ pre c rem Hd) as (Enext & Hcr & Hd').
  destruct (dlist_around _ _ _ _ _ Hd) as [L1 L2].
  rewrite (proj2 (Z.eqb_neq r c)) by congruence. fold head.
  assert (Hin : forall x, x ∈ r :: pre ++ c :: rem -> x ∈ head :: (cell <$> es)).
  { intros x Hx. by rewrite <- Hperm. }
  assert (Hnxt : fst_ r rem ∈ head :: (cell <$> es)).
  { apply Hin. pose proof (fst_elem r rem). set_solver. }
  assert (Hnd : NoDup (r :: pre ++ c :: rem)) by apply Hd.
  assert (Hprev : lst r pre <> r).
  { destruct pre as [|x pre _] using rev_ind; [done|]. rewrite lst_snoc.
    apply NoDup_cons in Hnd as [Hnd _]. set_solver. }
  assert (Hstep : forall ch, (r = head -> cell ch = c) -> loop_inv c ch (fst_ r rem) ch ->
    gap_post r rem (match on_links (get_Flink c) h with
      | Ok (next, s') => gap_loop fuel c ch next ch Tag Size (2 ^ k) (block_size Size) s'
      | Err e => Err e end)).
  { intros ch Hg HI'. rewrite (on_links_next h r pre c rem) by done.
    rewrite <- (lst_snoc r pre c). apply IH; rewrite ?lst_snoc; try done.
    - by rewrite <- app_assoc.
    - by destruct pre.
    - simpl in Hf. lia. }
  destruct ((c =? head) || (lst r pre =? head)) eqn:Eh.
  - assert (Hor : c = head \/ lst r pre = head).
    { apply orb_true_iff in Eh as [?%Z.eqb_eq|?%Z.eqb_eq]; [by left|by right]. }
    assert (Hng : r <> head) by (intros ->; destruct Hor; congruence).
    apply gap_post_cons; [|done]. apply Hstep; [done|]. by eapply loop_inv_head.
  - apply orb_false_iff in Eh as [Hch%Z.eqb_neq Hph%Z.eqb_neq].
    destruct (gap_adjacent _ _ _ L1 L2 ltac:(apply Hin; set_solver) Hch Hph)
      as (l1 & q1 & q2 & l2 & Ees & Ep & Ec & En).
    assert (HI' : loop_inv c (c - OFFSET_ListEntry) (fst_ r rem) (c - OFFSET_ListEntry))
      by (by eapply loop_inv_step).
    assert (Hcc : cell (c - OFFSET_ListEntry) = c) by (unfold cell; lia).
    destruct (gap_entry_values l1 q1 q2 l2 Ees) as (_ & _ & Hq0 & Hin1 & Hin2).
    destruct (proj1 HI Hph Hch) as [->|[Hph'|[Hst Hle]]].
    + split; [done|]. intros Hrh. specialize (Hgood Hrh). rewrite Ep in Hgood.
      apply cell_inj in Hgood. unfold NULL in Hgood. lia.
    + rewrite Ep in Hph'. apply cell_inj in Hph'. subst prevHeap. rewrite Ep, Ec.
      pose proof (gap_try_fit l1 q1 q2 l2 Ees) as Htry.
      destruct (gap_try _ _ _ _ _ _ _ h) as [[[p|] h']|e]; [done| |done].
      destruct Htry as [-> Hno]. rewrite <- Ec. apply gap_post_cons; [by apply Hstep|].
      intros _ m1 p1 p2 m2 Em Hp2. rewrite Ec in Hp2. apply cell_inj in Hp2. subst p2.
      by rewrite (pred_unique l1 q1 q2 l2 m1 p1 m2).
    + rewrite Ec in Hle. rewrite Ec, gap_try_stale; [|done|done|unfold cell in Hle; lia].
      rewrite <- Ec. apply gap_post_cons; [by apply Hstep|]. intros Hrh.
      specialize (Hgood Hrh). rewrite Ep in Hgood. apply cell_inj in Hgood. subst prevHeap.
      pose proof (entry_end h es Inv q1 Hin1). exfalso.
      pose proof (inv_layout h es Inv) as L. rewrite Ees in L. apply laid_out_mid in L.
      unfold cell in Hle. lia.
Qed.

(** The cycle seen from the restart point. *)
Lemma restart_cycle : exists rest, dlist (hp_links h) (EntryToRestartSearch hh) rest /\
  EntryToRestartSearch hh :: rest ≡ₚ head :: (cell <$> es) /\
  (EntryToRestartSearch hh = head -> rest = cell <$> es).
Proof.
  pose proof (inv_list h es Inv) as Hd. pose proof Hr as Hr'. unfold restart_ok in Hr'. fold hh in Hr'.
  destruct (decide (EntryToRestartSearch hh = head)) as [->|Hne]; [by exists (cell <$> es)|].
  apply elem_of_cons in Hr' as [?|Hin]; [done|].
  apply list_elem_of_split in Hin as (xs & ys & E). rewrite E in *.
  exists (ys ++ head :: xs). split_and!; [by apply dlist_rotate| |done]. solve_Permutation.
Qed.

Lemma gap_search_run : es <> [] ->
  exists x rest, on_links (get_Flink (EntryToRestartSearch hh)) h = Ok (x, h) /\
    on_links (get_Flink x) h = Ok (fst_ (EntryToRestartSearch hh) rest, h) /\
    gap_post (EntryToRestartSearch hh) rest
      (gap_loop (S (S (size (hp_links h)))) x (x - OFFSET_ListEntry)
         (fst_ (EntryToRestartSearch hh) rest) NULL Tag Size (2 ^ k) (block_size Size) h) /\
    (EntryToRestartSearch hh = head -> x :: rest = cell <$> es).
Proof.
  intros Hne. destruct restart_cycle as (rest & Hd & Hperm & Hhead).
  destruct rest as [|x rest].
  { apply Permutation_length in Hperm. by destruct es. }
  exists x, rest. split_and!.
  - by rewrite (on_links_first h _ (x :: rest)) by done.
  - by rewrite (on_links_next h (EntryToRestartSearch hh) [] x rest) by done.
  - assert (Hc : cell (x - OFFSET_ListEntry) = x) by (unfold cell; lia).
    apply (gap_loop_run (EntryToRestartSearch hh) rest _ [x]); try done.
    + pose proof (dlist_length _ _ _ Hd). simpl in *. lia.
    + split; [intros _ _; by right; left|]. intros _. by left.
  - done.
Qed.

(** The bytes not used by blocks are in the gaps and at the end. *)
Lemma gap_room l1 q1 q2 l2 : es = l1 ++ q1 :: q2 :: l2 ->
  total_size (esize h) es + (q2 - block_end h q1) <=
  FreeAddress hh - BaseAddress hh - SIZEOF_HEAP_HEADER.
Proof using Inv.
  clear -Inv. intros Ees. pose proof (inv_layout h es Inv) as L. rewrite Ees in L |- *.
  replace (l1 ++ q1 :: q2 :: l2) with ((l1 ++ [q1]) ++ q2 :: l2) in * by (by rewrite <- app_assoc).
  apply laid_out_app in L as (mid & L1 & L2). rewrite total_size_app.
  assert (Emid : mid = block_end h q1).
  { pose proof L1 as L1'. apply laid_out_app in L1' as (? & _ & _ & E). done. }
  pose proof (total_size_layout _ (esize h) _ _ _ ltac:(done) L1) as T1.
  assert (L2' : laid_out (block_end h) q2 (q2 :: l2) (FreeAddress hh)) by (destruct L2; split; [lia|done]).
  pose proof (total_size_layout _ (esize h) _ _ _ ltac:(done) L2') as T2. unfold hh in *. lia.
Qed.

(** There is no place for the block after the last entry (32 bytes are kept
    free there) nor between two entries. *)
Definition no_room : Prop :=
  ~ fits (FreeAddress hh) k Size (BaseAddress hh + HeapSizeMaximum hh - SIZEOF_HEAP_ENTRY) /\
  forall l1 q1 q2 l2, es = l1 ++ q1 :: q2 :: l2 -> ~ fits (block_end h q1) k Size q2.

Lemma gap_fits_room l1 q1 q2 l2 : es = l1 ++ q1 :: q2 :: l2 -> fits (block_end h q1) k Size q2 ->
  block_size Size <= FreeAddress hh - BaseAddress hh - SIZEOF_HEAP_HEADER - total_size (esize h) es.
Proof using Inv Hk.
  intros Ees Hfit. pose proof (gap_room l1 q1 q2 l2 Ees).
  destruct (gap_entry_values l1 q1 q2 l2 Ees) as (Ha & _).
  destruct (place_spec (block_end h q1) k) as (P1 & _); [done|lia|]. unfold fits in Hfit. lia.
Qed.
End Place.

(** The alignment the code uses for the argument. *)
Definition alignment_of (AllocationAlignment k : Z) : Prop :=
  (AllocationAlignment = 0 /\ k = 4) \/ AllocationAlignment = 2 ^ k.

Lemma alignment_eq al k : alignment_of al k -> 0 <= k ->
  (if 0 =? al then HEAP_DEFAULT_ALIGNMENT else al) = 2 ^ k.
Proof.
  intros [[-> ->]| ->] Hk; [done|]. rewrite (proj2 (Z.eqb_neq 0 _)); [done|].
  pose proof (Z.pow_pos_nonneg 2 k). lia.
Qed.

Section Alloc.
Context (h : Heap) (es : list Z) (Inv : heap_inv h es) (Hr : restart_ok h es).
Context (k al Tag Size : Z) (Hk : 0 <= k < 32) (Hal : alignment_of al k).
Context (Hs : 0 < Size) (Hb : block_size Size < 2 ^ 32) (HT : Tag <> 0).
Context (Hcnt : Z.of_nat (length es) < 2 ^ 63).

Let hh := hp_header h.

(** What one allocation does: success with a new block, failure that changes
    nothing, or the failed assertion of the gap search. *)
Definition body_post (res : outcome ((Z * Z) * Heap)) : Prop :=
  match res with
  | Ok ((st, p), h') =>
      (st = STATUS_SUCCESS /\ placed h es k Tag Size p h') \/
      (st = STATUS_HEAP_NO_MORE_MEMORY /\ h' = h /\
       (EntryToRestartSearch hh = allocations h -> no_room h es k Size))
  | Err e => e = AssertFailed /\ EntryToRestartSearch hh <> allocations h
  end.

Lemma no_room_remaining : HeapSizeRemaining hh < block_size Size -> no_room h es k Size.
Proof.
  intros Hrem. unfold hh in Hrem. rewrite (inv_remaining h es Inv) in Hrem.
  pose proof (inv_free h es Inv). pose proof (free_bounds h es Inv).
  pose proof (inv_base h es Inv). pose proof (inv_top h es Inv).
  pose proof (total_size_layout (block_end h) (esize h) es _ _ ltac:(done) (inv_layout h es Inv)).
  split.
  - intros Hfit. destruct (place_spec (FreeAddress hh) k) as (P1 & _); [done|unfold hh; layout; lia|].
    unfold fits in Hfit. unfold hh in *. layout. lia.
  - intros l1 q1 q2 l2 Ees Hfit.
    pose proof (gap_fits_room h es Inv k Size Hk l1 q1 q2 l2 Ees Hfit). unfold hh in *. lia.
Qed.

(** The slow path. *)
Lemma gap_path_run (Hrem : block_size Size <= HeapSizeRemaining hh)
  (Htail : ~ fits (FreeAddress hh) k Size (BaseAddress hh + HeapSizeMaximum hh - SIZEOF_HEAP_ENTRY)) :
  block_size Size <= FreeAddress hh - BaseAddress hh - SIZEOF_HEAP_HEADER - total_size (esize h) es ->
  body_post ((empty ← on_links (IsListEmpty (allocations h));
    _ ← ASSERT (negb empty);
    pPreviousEntry ← on_links (get_Flink (EntryToRestartSearch hh));
    pCurEntry ← on_links (get_Flink pPreviousEntry);
    fuel ← list_fuel;
    pNew ← gap_loop fuel pPreviousEntry (pPreviousEntry - OFFSET_ListEntry) pCurEntry NULL
             Tag Size (2 ^ k) (block_size Size);
    match pNew with
    | None => ret (STATUS_HEAP_NO_MORE_MEMORY, NULL)
    | Some p => ret (STATUS_SUCCESS, p)
    end) h).
Proof.
  intros Hroom. assert (Hne : es <> []).
  { intros ->. pose proof (inv_layout h [] Inv) as L. simpl in L, Hroom. unfold hh in *. layout. lia. }
  destruct (gap_search_run h es Inv Hr k Tag Size Hk Hs Hb HT Hrem Hcnt Hne)
    as (x & rest & E1 & E2 & Hpost & Hhead). fold hh in E1, E2, Hpost, Hhead.
  unfold mbind, M_bind.
  rewrite (on_links_run (IsListEmpty _) false).
  2: { cbn [links HasLinks_Heap]. rewrite (IsListEmpty_run _ _ _ (inv_list h es Inv)).
       by rewrite bool_decide_eq_false_2 by (by destruct es). }
  cbn [negb ASSERT assert_ lift]. rewrite E1, E2, list_fuel_run. cbn [links HasLinks_Heap].
  destruct (gap_loop _ _ _ _ _ _ _ _ _ h) as [[[p|] h']|e]; simpl in *.
  - left. done.
  - right. destruct Hpost as [-> Hno]. split_and!; [done|done|]. intros Hrh. split; [done|].
    intros l1 q1 q2 l2 Ees. eapply Hno; [done|done|]. specialize (Hhead Hrh).
    rewrite Ees, fmap_app in Hhead. destruct l1; simpl in Hhead; simplify_eq; set_solver.
  - done.
Qed.

Lemma tail_values :
  0 < FreeAddress hh < 2 ^ 62 /\ FreeAddress hh <= BaseAddress hh + HeapSizeMaximum hh < 2 ^ 62 /\
  0 <= HeapSizeRemaining hh < 2 ^ 62 /\ 0 <= HeapNumberOfAllocations hh < 2 ^ 63.
Proof.
  pose proof (inv_free h es Inv). pose proof (free_bounds h es Inv).
  pose proof (inv_base h es Inv). pose proof (inv_top h es Inv). pose proof (inv_count h es Inv).
  pose proof (remaining_nonneg h es Inv). unfold hh, SIZEOF_HEAP_HEADER in *. lia.
Qed.

Lemma alloc_body_run : body_post (alloc_body Size Tag al h).
Proof.
  destruct tail_values as (V1 & V2 & V3 & V4).
  unfold alloc_body. rewrite (proj2 (Z.eqb_neq 0 Size)), (proj2 (Z.eqb_neq 0 Tag)) by lia.
  rewrite (alignment_eq al k Hal) by lia. fold (block_size Size).
  assert (Hbs : 0 < block_size Size) by (layout; lia).
  rewrite (u64_small (block_size Size)), (i64_small (block_size Size)) by rlia.
  set (R := BaseAddress hh + HeapSizeMaximum hh - FreeAddress hh - SIZEOF_HEAP_ENTRY).
  assert (HR : - 2 ^ 62 < R < 2 ^ 62) by (unfold R; layout; lia).
  unfold mbind at 1, M_bind at 1, gets at 1. fold hh. fold R.
  destruct (Z.ltb_spec (HeapSizeRemaining hh) (block_size Size)) as [Hlt|Hrem].
  { right. split_and!; [done|done|]. intros _. by apply no_room_remaining. }
  rewrite (i64_u64 R) by lia.
  assert (Hslow : ~ fits (FreeAddress hh) k Size (BaseAddress hh + HeapSizeMaximum hh - SIZEOF_HEAP_ENTRY) ->
    body_post ((if i64 (u64 (HeapSizeRemaining hh - R - SIZEOF_HEAP_ENTRY)) <? block_size Size
      then ret (STATUS_HEAP_NO_MORE_MEMORY, NULL) else
      head ← gets allocations;
      empty ← on_links (IsListEmpty head);
      _ ← ASSERT (negb empty);
      pPreviousEntry ← on_links (get_Flink (EntryToRestartSearch hh));
      pCurEntry ← on_links (get_Flink pPreviousEntry);
      fuel ← list_fuel;
      pNew ← gap_loop fuel pPreviousEntry (pPreviousEntry - OFFSET_ListEntry) pCurEntry NULL
               Tag Size (2 ^ k) (block_size Size);
      match pNew with
      | None => ret (STATUS_HEAP_NO_MORE_MEMORY, NULL)
      | Some p => ret (STATUS_SUCCESS, p)
      end) h)).
  { intros Hno. rewrite i64_u64 by (layout; lia). pose proof (inv_remaining h es Inv) as Hir.
    fold hh in Hir. destruct (Z.ltb_spec (HeapSizeRemaining hh - R - SIZEOF_HEAP_ENTRY) (block_size Size)).
    - right. split_and!; [done|done|]. intros _. split; [done|]. intros l1 q1 q2 l2 Ees Hfit.
      pose proof (gap_fits_room h es Inv k Size Hk l1 q1 q2 l2 Ees Hfit). unfold R, hh in *. lia.
    - apply gap_path_run; [done|done|]. unfold R, hh in *. lia. }
  destruct (Z.leb_spec (block_size Size) R) as [HleR|HgtR].
  - destruct (place_spec (FreeAddress hh) k) as (P1 & _ & P2); [done|lia|].
    rewrite (u64_small R) by rlia.
    destruct (Z.lt_ge_cases R (place (FreeAddress hh) k - FreeAddress hh + block_size Size)) as [Hno|Hfit].
    + unfold mbind at 1, M_bind at 1, mbind at 1, M_bind at 1.
      rewrite init_entry_nofit by (done || rlia). apply Hslow. unfold fits, R in *. lia.
    + destruct (place_tail h es Inv Hr k Tag Size Hk Hs Hb HT Hrem Hcnt) as (l & El & Hpl);
        [unfold fits, R, hh, SIZEOF_HEAP_ENTRY in *; lia|].
      unfold mbind at 1, M_bind at 1, mbind at 1, M_bind at 1.
      rewrite (init_entry_fit h _ k Tag Size _) with (l := l) by (exact El || (unfold hh in *; rlia)).
      rewrite (proj2 (Z.eqb_neq 0 _)) by (layout; lia). left. split; [done|]. exact Hpl.
  - apply Hslow. destruct (place_spec (FreeAddress hh) k) as (P1 & _ & P2); [done|lia|].
    unfold fits, R in *. lia.
Qed.
End Alloc.

(** * Freeing *)
Section Free.
Context (h : Heap) (l1 l2 : list Z) (p : Z) (Inv : heap_inv h (l1 ++ p :: l2)).

Let hh := hp_header h.
Let es := l1 ++ p :: l2.

(** The end of the block before [p], or the start of the data area. *)
Definition prev_end : Z :=
  match last l1 with Some q => block_end h q | None => BaseAddress hh + SIZEOF_HEAP_HEADER end.

Definition freed (links' : Links) (bytes' : Mem) : Heap :=
  mkHeap (set_FreeAddress (if decide (l2 = []) then prev_end else FreeAddress hh)
            (set_sizes (HeapSizeRemaining hh + block_size (esize h p))
               (HeapNumberOfAllocations hh - 1) hh))
    (delete p (hp_entries h)) (delete (p + SIZEOF_HEAP_ENTRY + esize h p) (hp_tails h))
    links' bytes'.

Lemma layout_without : laid_out (block_end h) (BaseAddress hh + SIZEOF_HEAP_HEADER) (l1 ++ l2)
  (if decide (l2 = []) then prev_end else FreeAddress hh) /\ prev_end <= FreeAddress hh.
Proof.
  pose proof (inv_layout h _ Inv) as L. apply laid_out_app in L as (mid & L1 & Hp & L2).
  assert (Emid : mid = prev_end).
  { unfold prev_end. destruct l1 as [|q l _] using rev_ind; [done|]. rewrite last_snoc.
    apply laid_out_app in L1 as (? & _ & _ & E). done. }
  assert (Hin : p ∈ l1 ++ p :: l2) by set_solver.
  pose proof (entry_end h _ Inv p Hin). destruct (entry_bounds h _ Inv p Hin). subst mid.
  split; [|unfold hh; lia]. apply laid_out_app. exists prev_end. split; [done|].
  case_decide as E; [by subst|]. destruct l2 as [|q l]; [done|]. destruct L2 as [? ?]. split; [lia|done].
Qed.

Lemma other_entry q : q ∈ l1 ++ l2 -> q <> p /\ q ∈ es /\
  q + SIZEOF_HEAP_ENTRY + esize h q <> p + SIZEOF_HEAP_ENTRY + esize h p.
Proof.
  intros Hq. assert (Hnd : NoDup es).
  { eapply laid_out_NoDup; [apply (entry_end h _ Inv)|apply (inv_layout h _ Inv)]. }
  assert (Hne : q <> p).
  { unfold es in Hnd. rewrite NoDup_app, NoDup_cons in Hnd. set_solver. }
  assert (Hin : q ∈ es) by (unfold es; set_solver). split_and!; [done|done|].
  destruct (blocks_disjoint h _ Inv q p Hin ltac:(unfold es; set_solver) Hne) as [H|H];
    pose proof (entry_size h _ Inv q Hin); pose proof (entry_size h _ Inv p ltac:(set_solver));
    layout; lia.
Qed.

Lemma heap_inv_freed links' bytes' :
  dlist links' (allocations h) (cell <$> l1 ++ l2) ->
  mapped bytes' (BaseAddress hh) (HeapSizeMaximum hh) -> heap_inv (freed links' bytes') (l1 ++ l2).
Proof.
  intros Hd Hm. pose proof other_entry as Ho. destruct layout_without as [L Lp].
  assert (Hsz : forall q, q ∈ l1 ++ l2 -> esize (freed links' bytes') q = esize h q).
  { intros q Hq. unfold esize, freed. simpl. rewrite lookup_delete_ne; [done|].
    destruct (Ho q Hq). congruence. }
  destruct Inv. split; try done.
  - rewrite Forall_forall in *. intros q Hq. destruct (Ho q Hq) as (Hne & Hin & Ht).
    destruct (inv_entries0 q Hin) as (e & E & H1 & H2 & H3 & H4 & H5 & H6). exists e.
    assert (Es : esize h q = he_Size e) by (unfold esize; by rewrite E). rewrite Es in Ht.
    unfold freed. simpl. rewrite !lookup_delete_ne by congruence. done.
  - eapply laid_out_ext; [|exact L]. intros q Hq. unfold block_end. by rewrite Hsz.
  - simpl. unfold hh in *. case_decide; lia.
  - simpl. rewrite (total_size_ext (esize (freed links' bytes')) (esize h)) by done.
    unfold hh. rewrite inv_remaining0, !total_size_app. simpl. lia.
  - simpl. unfold hh. rewrite inv_count0, !length_app. simpl. lia.
Qed.
End Free.

Lemma free_previous h l1 p l2 :
  heap_inv h (l1 ++ p :: l2) ->
  (if lst (allocations h) (cell <$> l1) =? allocations h
   then ret (u64 (BaseAddress (hp_header h) + SIZEOF_HEAP_HEADER)) else
   if lst (allocations h) (cell <$> l1) =? NULL
   then ret (u64 (BaseAddress (hp_header h) + SIZEOF_HEAP_HEADER)) else
   prev ← get_entry (lst (allocations h) (cell <$> l1) - OFFSET_ListEntry);
   ret (u64 (lst (allocations h) (cell <$> l1) - OFFSET_ListEntry + SIZEOF_HEAP_ENTRY +
             he_Size prev + SIZEOF_HEAP_TAIL))) h = Ok (prev_end h l1, h).
Proof.
  intros Inv. pose proof (inv_base h _ Inv). pose proof (inv_top h _ Inv).
  pose proof (inv_min h _ Inv). unfold prev_end.
  destruct l1 as [|q l _] using rev_ind.
  - simpl. rewrite Z.eqb_refl. rewrite u64_small by (layout; rlia). done.
  - rewrite last_snoc, fmap_app. simpl. rewrite lst_snoc.
    assert (Hq : q ∈ (l ++ [q]) ++ p :: l2) by set_solver.
    destruct (entry_bounds h _ Inv q Hq). pose proof (entry_end h _ Inv q Hq). pose proof (inv_free h _ Inv).
    rewrite (proj2 (Z.eqb_neq (cell q) (allocations h))) by (unfold allocations; layout; lia).
    rewrite (proj2 (Z.eqb_neq (cell q) NULL)) by (unfold NULL; layout; lia).
    replace (cell q - OFFSET_ListEntry) with q by (unfold cell; lia).
    destruct (get_entry_run h _ Inv q Hq) as (e & E & _ & Es & _).
    unfold mbind, M_bind. rewrite E, Es.
    replace (q + SIZEOF_HEAP_ENTRY + esize h q + SIZEOF_HEAP_TAIL) with (block_end h q) by (layout; lia).
    by rewrite u64_small by (layout; rlia).
Qed.

(** Only the last allocation ends at the free address. *)
Lemma free_is_last h l1 p l2 : heap_inv h (l1 ++ p :: l2) ->
  (block_end h p =? FreeAddress (hp_header h)) = bool_decide (l2 = []).
Proof.
  intros Inv. pose proof (inv_layout h _ Inv) as L. apply laid_out_app in L as (mid & _ & _ & L2).
  destruct l2 as [|q l].
  - simpl in L2. rewrite L2. apply Z.eqb_refl.
  - apply Z.eqb_neq. destruct L2 as [Hq _].
    destruct (entry_bounds h _ Inv q) as [_ B]; [set_solver|].
    pose proof (entry_end h _ Inv q ltac:(set_solver)). lia.
Qed.

(** The block of [p] filled with the free pattern. *)
Definition wiped (h : Heap) (p : Z) (b : Mem) : Prop :=
  filled (hp_bytes h) b p HEAP_FREE_PATTERN (block_size (esize h p)).

Lemma free_run h l1 p l2 e :
  heap_inv h (l1 ++ p :: l2) -> hp_entries h !! p = Some e ->
  exists links' bytes',
    ClHeapFreePoolWithTag (p + SIZEOF_HEAP_ENTRY) (he_Tag e) h =
      Ok (tt, freed h l1 l2 p links' bytes') /\
    heap_inv (freed h l1 l2 p links' bytes') (l1 ++ l2) /\ wiped h p bytes'.
Proof.
  intros Inv Ee. assert (Hin : p ∈ l1 ++ p :: l2) by set_solver.
  destruct (get_entry_run h _ Inv p Hin) as (e0 & Eg & Ee0 & Es & Et & _).
  assert (e0 = e) by congruence. subst e0.
  destruct (entry_bounds h _ Inv p Hin) as [B1 B2]. destruct (entry_size h _ Inv p Hin) as [S1 S2].
  pose proof (inv_base h _ Inv) as V1. pose proof (inv_top h _ Inv) as V2. pose proof (inv_free h _ Inv) as V3.
  pose proof (inv_count h _ Inv) as V4. pose proof (remaining_nonneg h _ Inv) as V5.
  pose proof (inv_list h _ Inv) as Hd. rewrite fmap_app in Hd. simpl in Hd.
  destruct (dlist_around _ _ _ _ _ Hd) as [[_ Bl] _].
  destruct (wp_Ok _ _ _ (RemoveEntryList_spec _ _ _ _ _ Hd)) as (r & m1 & Erm & Hd1 & Hf1 & _).
  destruct (wp_Ok _ _ _ (cl_memset_spec p HEAP_FREE_PATTERN (block_size (esize h p)) (hp_bytes h)
    ltac:(unfold NULL; layout; lia) ltac:(layout; rlia)
    ltac:(intros a Ha; apply (inv_bytes h _ Inv); layout; lia))) as ([] & b1 & Emem & Hfill).
  exists (delete (cell p) m1), b1. split_and!; [| |done].
  - pose proof (validate_entry_run h p e (he_Tag e)) as Hval.
    rewrite Z.eqb_refl in Hval. specialize (Hval ltac:(apply (proj1 (Forall_forall _ _) (inv_entries h _ Inv) p Hin))
      ltac:(layout; lia) Ee Et).
    pose proof (free_previous h l1 p l2 Inv) as Hprev.
    assert (Hbl : get_Blink (cell p) (hp_links h) = Ok (lst (allocations h) (cell <$> l1), hp_links h)).
    { unfold get_Blink, blink in *. destruct (hp_links h !! cell p); [|done]. simpl in Bl. injection Bl as Bl. by rewrite Bl. }
    unfold ClHeapFreePoolWithTag. rewrite Z.add_simpl_r. fold (cell p).
    assert (Hp0 : NULL <> p + SIZEOF_HEAP_ENTRY) by (unfold NULL; layout; lia).
    erewrite bind_run by (apply ASSERT_run; by rewrite (proj2 (Z.eqb_neq _ _) Hp0)).
    erewrite bind_run by (apply ASSERT_run; rewrite (proj2 (Z.eqb_neq 0 (he_Tag e))) by lia; done).
    erewrite bind_run by exact Eg. erewrite bind_run by exact Hval.
    erewrite bind_run by (by apply ASSERT_run).
    erewrite bind_run by (by apply on_links_run).
    erewrite bind_run by reflexivity. erewrite bind_run by reflexivity.
    erewrite bind_run by exact Hprev.
    erewrite bind_run by (unfold on_links, zoom; cbn [links HasLinks_Heap]; by rewrite Erm).
    rewrite Es. fold (block_size (esize h p)).
    rewrite (u64_small (block_size (esize h p))) by (layout; rlia).
    erewrite bind_run by (apply ASSERT_run, Z.leb_le; layout; rlia).
    rewrite (u32_small (block_size (esize h p))) by (layout; rlia).
    erewrite bind_run by (unfold on_bytes, zoom; cbn [hp_bytes set_links HasLinks_Heap]; by rewrite Emem).
    erewrite bind_run by reflexivity. erewrite bind_run by reflexivity.
    cbn [hp_header hp_entries hp_tails hp_links hp_bytes set_links HasLinks_Heap].
    rewrite (u64_small (HeapSizeRemaining _ + _)), (u64_small (HeapNumberOfAllocations _ - 1)).
    2: { pose proof (count_bound h _ Inv). rewrite length_app in *. simpl in *. rlia. }
    2: { layout; rlia. }
    replace (u64 (p + SIZEOF_HEAP_ENTRY + esize h p + SIZEOF_HEAP_TAIL)) with (block_end h p)
      by (rewrite u64_small by (layout; rlia); layout; lia).
    rewrite (free_is_last h l1 p l2 Inv). unfold freed.
    destruct (decide (l2 = [])); [rewrite bool_decide_eq_true_2 by done|rewrite bool_decide_eq_false_2 by done]; done.
  - apply heap_inv_freed; [done| |].
    + rewrite fmap_app. eapply dlist_ext; [exact Hd1|]. intros x Hx. apply lookup_delete_ne.
      intros <-. destruct Hd as [Hnd _]. rewrite NoDup_cons, NoDup_app, NoDup_cons in Hnd. set_solver.
    + intros a Ha. rewrite Hfill. case_bool_decide; [eauto|]. by apply (inv_bytes h _ Inv).
Qed.

(** * Theorems *)

Lemma heap_inv_bytes h es b : heap_inv h es ->
  mapped b (BaseAddress (hp_header h)) (HeapSizeMaximum (hp_header h)) ->
  heap_inv (mkHeap (hp_header h) (hp_entries h) (hp_tails h) (hp_links h) b) es.
Proof. intros [] Hb. by split. Qed.

(** The new allocation as the caller sees it: [a] is the data of a block [p]
    that is linked in address order among the old ones. *)
Definition allocated (h : Heap) (es : list Z) (k Tag Size a : Z) (zeroed : bool) (h' : Heap) : Prop :=
  exists l1 l2 p, a = p + SIZEOF_HEAP_ENTRY /\ es = l1 ++ l2 /\ (p ∉ es) /\
    heap_inv h' (l1 ++ p :: l2) /\ restart_ok h' (l1 ++ p :: l2) /\ a mod 2 ^ k = 0 /\
    hp_entries h' !! p = Some (mkHEAP_ENTRY HEAP_MAGIC Tag Size SIZEOF_HEAP_ENTRY) /\
    (forall q, q ∈ es -> hp_entries h' !! q = hp_entries h !! q) /\
    (if zeroed then filled (hp_bytes h) (hp_bytes h') a 0 Size else hp_bytes h' = hp_bytes h).

Lemma zero_new h es k Tag Size p h1 (zero : bool) :
  heap_inv h es -> placed h es k Tag Size p h1 -> 0 < Size -> block_size Size < 2 ^ 32 ->
  exists h', (if zero then on_bytes (cl_memset (p + SIZEOF_HEAP_ENTRY) 0 Size) else ret tt) h1
      = Ok (tt, h') /\ allocated h es k Tag Size (p + SIZEOF_HEAP_ENTRY) zero h'.
Proof.
  intros Inv (l1 & l2 & Ees & Inv1 & Hr1 & Hal & Hp & Hold & Hnew & Hbytes & Hbase & Hmax) Hs Hb.
  destruct zero; [|by exists h1; split; [done|]; exists l1, l2, p].
  assert (Hin : p ∈ l1 ++ p :: l2) by set_solver.
  destruct (entry_bounds h1 _ Inv1 p Hin) as [B1 B2]. pose proof (inv_base h1 _ Inv1).
  pose proof (inv_free h1 _ Inv1).
  assert (Es : esize h1 p = Size) by (unfold esize; by rewrite Hp).
  unfold block_end in B2. rewrite Es in B2.
  destruct (wp_Ok _ _ _ (cl_memset_spec (p + SIZEOF_HEAP_ENTRY) 0 Size (hp_bytes h1)
    ltac:(unfold NULL; layout; lia) ltac:(layout; rlia)
    ltac:(intros a Ha; apply (inv_bytes h1 _ Inv1); layout; lia))) as ([] & b & E & Hf).
  eexists. split; [unfold on_bytes, zoom; by rewrite E|].
  exists l1, l2, p. rewrite <- Hbytes. split_and!; try done.
  apply heap_inv_bytes; [done|]. intros a Ha. rewrite Hf. case_bool_decide; [eauto|].
  by apply (inv_bytes h1 _ Inv1).
Qed.


(** C32: ClHeapFreePoolWithTag of an allocation with its tag succeeds: the block
    is removed from the list, its bytes are filled with the free pattern, its
    size is given back, the other allocations keep their headers and the heap
    stays well formed; with any other non-zero tag the call stops in its
    assertion. *)
Theorem heap_free_inverse h l1 p l2 e Tag :
  heap_inv h (l1 ++ p :: l2) -> hp_entries h !! p = Some e -> Tag <> 0 ->
  if decide (Tag = he_Tag e) then
    exists h', ClHeapFreePoolWithTag (p + SIZEOF_HEAP_ENTRY) Tag h = Ok (tt, h') /\
      heap_inv h' (l1 ++ l2) /\ wiped h p (hp_bytes h') /\
      HeapSizeRemaining (hp_header h') = HeapSizeRemaining (hp_header h) + block_size (esize h p) /\
      (forall q, q ∈ l1 ++ l2 -> hp_entries h' !! q = hp_entries h !! q) /\
      (EntryToRestartSearch (hp_header h) <> cell p -> restart_ok h (l1 ++ p :: l2) ->
       restart_ok h' (l1 ++ l2))
  else ClHeapFreePoolWithTag (p + SIZEOF_HEAP_ENTRY) Tag h = Err AssertFailed.
Proof.
  intros Inv Ee HT. assert (Hin : p ∈ l1 ++ p :: l2) by set_solver. case_decide as Htag.
  - subst Tag. destruct (free_run h l1 p l2 e Inv Ee) as (m & b & E & Inv' & Hw).
    eexists. split; [exact E|]. split_and!; try done.
    + intros q Hq. destruct (other_entry h l1 l2 p Inv q Hq) as (Hne & _).
      simpl. by rewrite lookup_delete_ne.
    + unfold restart_ok. rewrite !fmap_app. simpl. set_solver.
  - destruct (get_entry_run h _ Inv p Hin) as (e0 & Eg & Ee0 & _).
    assert (e0 = e) by congruence. subst e0.
    destruct (entry_bounds h _ Inv p Hin) as [B1 _]. pose proof (inv_base h _ Inv).
    unfold ClHeapFreePoolWithTag. rewrite Z.add_simpl_r.
    erewrite bind_run by (apply ASSERT_run; rewrite (proj2 (Z.eqb_neq NULL (p + SIZEOF_HEAP_ENTRY)))
      by (unfold NULL; layout; lia); done).
    erewrite bind_run by (apply ASSERT_run; by rewrite (proj2 (Z.eqb_neq 0 Tag)) by lia).
    erewrite bind_run by exact Eg.
    erewrite bind_run by (eapply validate_entry_run;
      [apply (proj1 (Forall_forall _ _) (inv_entries h _ Inv) p Hin)|layout; lia|exact Ee|exact HT]).
    by rewrite (proj2 (Z.eqb_neq Tag (he_Tag e)) Htag).
Qed.

Lemma heap_init_run h0 Base Max :
  0 < Base -> HEAP_MINIMUM_SIZE <= Max -> Base + Max < 2 ^ 62 -> mapped (hp_bytes h0) Base Max ->
  exists h, ClHeapInit Base Max false h0 = Ok (STATUS_SUCCESS, h) /\ heap_inv h [] /\
    EntryToRestartSearch (hp_header h) = allocations h /\ hp_bytes h = hp_bytes h0 /\
    BaseAddress (hp_header h) = Base /\ HeapSizeMaximum (hp_header h) = Max.
Proof.
  intros HB HM Htop Hm. unfold HEAP_MINIMUM_SIZE, KB_SIZE in HM.
  unfold ClHeapInit. rewrite (proj2 (Z.eqb_neq Base NULL)) by (unfold NULL; lia).
  rewrite (proj2 (Z.ltb_ge Max HEAP_MINIMUM_SIZE)) by (unfold HEAP_MINIMUM_SIZE, KB_SIZE; lia).
  erewrite bind_run by reflexivity. erewrite bind_run by reflexivity.
  set (head := Base + OFFSET_HeapAllocations).
  destruct (wp_Ok _ _ _ (InitializeListHead_spec
    (<[head := mkLIST_ENTRY 0 0]> (hp_links h0)) head ltac:(rewrite lookup_insert_eq; eauto)))
    as ([] & l & E & Hd & _).
  eexists. split; [|split].
  - erewrite bind_run by (unfold on_links, zoom; cbn [links set_links HasLinks_Heap hp_links]; by rewrite E).
    done.
  - rewrite !u64_small by (layout; rlia). split; simpl; try done; layout; lia.
  - simpl. rewrite !u64_small by (layout; rlia). done.
Qed.

(** ClHeapInit of at least 64 KB builds a well-formed empty heap over the
    region, with everything but the header remaining, and the search starting at
    the list head; a NULL base or a smaller region is refused and nothing
    changes. *)
Theorem heap_init_well_formed h0 Base Max :
  0 <= Base -> Base + Max < 2 ^ 62 -> mapped (hp_bytes h0) Base Max ->
  if decide (Base = NULL) then ClHeapInit Base Max false h0 = Ok (STATUS_INVALID_PARAMETER1, h0)
  else if decide (Max < HEAP_MINIMUM_SIZE) then
    ClHeapInit Base Max false h0 = Ok (STATUS_HEAP_TOO_SMALL, h0)
  else exists h, ClHeapInit Base Max false h0 = Ok (STATUS_SUCCESS, h) /\ heap_inv h [] /\
    restart_ok h [] /\ HeapSizeRemaining (hp_header h) = Max - SIZEOF_HEAP_HEADER.
Proof.
  intros HB Htop Hm. case_decide as E1; [by subst|]. unfold NULL in E1. case_decide as E2.
  - unfold ClHeapInit. rewrite (proj2 (Z.eqb_neq Base NULL)) by done.
    by rewrite (proj2 (Z.ltb_lt Max HEAP_MINIMUM_SIZE)) by done.
  - destruct (heap_init_run h0 Base Max) as (h & E & Inv & Hr & _ & _ & HM); [lia|lia|done|done|].
    exists h. split_and!; [done|done|unfold restart_ok; rewrite Hr; set_solver|].
    rewrite (inv_remaining h [] Inv). simpl. rewrite HM. lia.
Qed.

(** ** A concrete heap of 64 KB with one allocation of 16 bytes *)
Definition demo_bytes : Mem := mem_of 0x10000 (replicate (Z.to_nat 0x10000) 0).
Definition demo_heap : Heap :=
  mkHeap (mkHEAP_HEADER HEAP_MAGIC 0x10000 (0x10000 - 72 - 52) 0x10000 (0x10050 + 52) 1 (0x10000 + 56))
    {[ 0x10050 := mkHEAP_ENTRY HEAP_MAGIC 7 16 0x20 ]} {[ 0x10080 := HEAP_MAGIC ]}
    {[ 0x10038 := mkLIST_ENTRY 0x10060 0x10060; 0x10060 := mkLIST_ENTRY 0x10038 0x10038 ]} demo_bytes.

Lemma demo_bytes_mapped : mapped demo_bytes 0x10000 0x10000.
Proof.
  pose proof (mapped_mem_of 0x10000 (replicate (Z.to_nat 0x10000) 0)) as H.
  by rewrite length_replicate, Z2Nat.id in H by lia.
Qed.

Lemma demo_heap_inv : heap_inv demo_heap [0x10050].
Proof.
  split; cbn [hp_header BaseAddress HeapSizeMaximum FreeAddress HeapSizeRemaining
    HeapNumberOfAllocations demo_heap].
  - lia.
  - lia.
  - layout. lia.
  - split; [apply (bool_decide_unpack _); by vm_compute|]. by vm_compute.
  - constructor; [|constructor]. exists (mkHEAP_ENTRY HEAP_MAGIC 7 16 0x20). by vm_compute.
  - by vm_compute.
  - lia.
  - by vm_compute.
  - done.
  - apply demo_bytes_mapped.
Qed.


Lemma heap_free_inverse_witness :
  exists h', ClHeapFreePoolWithTag (0x10050 + SIZEOF_HEAP_ENTRY) 7 demo_heap = Ok (tt, h') /\
    heap_inv h' [].
Proof.
  destruct (heap_free_inverse demo_heap [] 0x10050 [] (mkHEAP_ENTRY HEAP_MAGIC 7 16 0x20) 7
    demo_heap_inv eq_refl ltac:(lia)) as (h' & E & Inv & _).
  exists h'. split; [exact E|exact Inv].
Defined.

Lemma heap_init_well_formed_witness :
  exists h, ClHeapInit 0x10000 0x10000 false demo_heap = Ok (STATUS_SUCCESS, h) /\ heap_inv h [] /\
    restart_ok h [] /\ HeapSizeRemaining (hp_header h) = 0x10000 - SIZEOF_HEAP_HEADER.
Proof.
  apply (heap_init_well_formed demo_heap 0x10000 0x10000).
  - lia.
  - lia.
  - exact demo_bytes_mapped.
Defined.

(** ** The restart point of the gap search *)

Definition raw_heap : Heap :=
  mkHeap (mkHEAP_HEADER 0 0 0 0 0 0 0) ∅ ∅ ∅ (mem_of 0x100F0 (replicate 2000 0)).

(** Two small blocks, one of 1 KB and one that fills the region; the 1 KB block
    is freed and a small block is allocated in its place. *)
Definition fill_and_reuse : M Heap Z :=
  _ ← ClHeapInit 0x10000 0x10000 false;
  _ ← ClHeapAllocatePoolWithTag 0 0x20 1 0;
  _ ← ClHeapAllocatePoolWithTag 0 0x20 1 0;
  g ← ClHeapAllocatePoolWithTag 0 0x400 1 0;
  _ ← ClHeapAllocatePoolWithTag 0 64148 1 0;
  _ ← ClHeapFreePoolWithTag g 1;
  ClHeapAllocatePoolWithTag 0 0x40 1 0.

(** After one allocation was placed in a gap, the next request that needs
    a gap stops in the assertion on the previous heap entry, although more than
    900 contiguous bytes are free: the search restarts at the new block, and when
    it passes the list head the previous entry is not updated. *)
Theorem heap_gap_search_panics :
  (exists x h, fill_and_reuse raw_heap = Ok (x, h) /\ x <> NULL /\
     HeapSizeRemaining (hp_header h) = 1044) /\
  (_ ← fill_and_reuse; ClHeapAllocatePoolWithTag 0 0x40 1 0) raw_heap = Err AssertFailed.
Proof.
  split; [|by vm_compute].
  destruct (fill_and_reuse raw_heap) as [[x h]|e] eqn:E; [|by vm_compute in E].
  exists x, h. split; [done|].
  assert (Hx : match fill_and_reuse raw_heap with
    | Ok (x, h) => bool_decide (x <> NULL /\ HeapSizeRemaining (hp_header h) = 1044)
    | Err _ => false end = true) by (by vm_compute).
  rewrite E in Hx. by apply bool_decide_eq_true in Hx.
Qed.

(** Freeing the block at which the gap search restarts leaves
    EntryToRestartSearch pointing into freed memory; the next request that needs
    a gap reads through it. *)
Theorem heap_restart_dangles :
  (x ← fill_and_reuse; _ ← ClHeapFreePoolWithTag x 1; ClHeapAllocatePoolWithTag 0 0x40 1 0) raw_heap
    = Err MemFault.
Proof. by vm_compute. Qed.
