(* ===== verification/Interleave.v ===== *)
(** Concurrency: any number of processors that run the same code over a shared
    object, interleaved at the granularity of single atomic accesses.  A
    processor's position in the code is its program counter; [exec] performs its
    next access. *)
From S2P Require Import Prelude.

Section Interleave.
Context {L PC Choice : Type}.

(** [exec cpu choice pc l]: the next access of processor [cpu]; [choice] is the
    decision its caller takes when it is between two calls. *)
Context (exec : Z -> Choice -> PC -> L -> outcome (PC * L)).

Record sys := mkSys { shared : L; pcs : list PC }.

(** Processors are numbered from 1: 0 is the NULL holder. *)
Definition cpu_id (i : nat) : Z := Z.of_nat i + 1.

Inductive sys_step : sys -> sys -> Prop :=
| sys_step_intro s i choice pc pc' l' :
    pcs s !! i = Some pc -> exec (cpu_id i) choice pc (shared s) = Ok (pc', l') ->
    sys_step s (mkSys l' (<[i := pc']> (pcs s))).

Inductive reachable (s0 : sys) : sys -> Prop :=
| reach_refl : reachable s0 s0
| reach_step s s' : reachable s0 s -> sys_step s s' -> reachable s0 s'.

(** No processor can fault in its next access. *)
Definition safe_state (s : sys) : Prop :=
  forall i choice pc, pcs s !! i = Some pc ->
    exists pc' l', exec (cpu_id i) choice pc (shared s) = Ok (pc', l').

(** Rule induction: an invariant that every access preserves holds in every
    reachable state; when it excludes faults too, every reachable state is safe. *)
Lemma reachable_preserved (I : sys -> Prop) s0 s :
  I s0 ->
  (forall s i choice pc pc' l', I s -> pcs s !! i = Some pc ->
     exec (cpu_id i) choice pc (shared s) = Ok (pc', l') -> I (mkSys l' (<[i := pc']> (pcs s)))) ->
  reachable s0 s -> I s.
Proof.
  intros H0 Hstep Hr. induction Hr as [|s s' Hr IH Hs]; [done|].
  destruct Hs as [s i choice pc pc' l' Hpc E]. eauto.
Qed.

Lemma reachable_inv (I : sys -> Prop) s0 s :
  I s0 ->
  (forall s i choice pc, I s -> pcs s !! i = Some pc ->
     exists pc' l', exec (cpu_id i) choice pc (shared s) = Ok (pc', l') /\
       I (mkSys l' (<[i := pc']> (pcs s)))) ->
  reachable s0 s -> I s /\ safe_state s.
Proof.
  intros H0 Hstep Hr. assert (HI : I s).
  { revert Hr. apply reachable_preserved; [done|]. intros s1 i choice pc pc' l' HI Hpc E.
    destruct (Hstep s1 i choice pc HI Hpc) as (pc2 & l2 & E2 & HI2).
    rewrite E in E2. by simplify_eq. }
  split; [done|]. intros i choice pc Hpc.
  destruct (Hstep s i choice pc HI Hpc) as (pc' & l' & E & _). eauto.
Qed.

(** A concrete schedule of accesses, for examples. *)
Fixpoint run_schedule (sched : list (nat * Choice)) (s : sys) : option (outcome sys) :=
  match sched with
  | [] => Some (Ok s)
  | (i, choice) :: rest =>
      pc ← pcs s !! i;
      match exec (cpu_id i) choice pc (shared s) with
      | Ok (pc', l') => run_schedule rest (mkSys l' (<[i := pc']> (pcs s)))
      | Err e => Some (Err e)
      end
  end.

Lemma run_schedule_reachable s0 sched : forall s s',
  reachable s0 s -> run_schedule sched s = Some (Ok s') -> reachable s0 s'.
Proof.
  induction sched as [|[i choice] rest IH]; intros s s' Hr Hrun; simpl in Hrun; [by simplify_eq|].
  destruct (pcs s !! i) as [pc|] eqn:Hpc; [|done]. simpl in Hrun.
  destruct (exec (cpu_id i) choice pc (shared s)) as [[pc' l']|e] eqn:E; [|done].
  eapply IH; [|exact Hrun]. eapply reach_step; [done|]. by econstructor.
Qed.

Lemma run_schedule_app sched1 sched2 : forall s s',
  run_schedule sched1 s = Some (Ok s') -> run_schedule (sched1 ++ sched2) s = run_schedule sched2 s'.
Proof.
  induction sched1 as [|[i choice] rest IH]; intros s s' E; simpl in *; [by simplify_eq|].
  destruct (pcs s !! i) as [pc|]; [|done]. simpl in *.
  destruct (exec (cpu_id i) choice pc (shared s)) as [[pc' l']|e]; [|done]. by apply IH.
Qed.
End Interleave.

Arguments mkSys {L PC} _ _.
Arguments shared {L PC} _.
Arguments pcs {L PC} _.

(** ** Counting program counters *)
Definition b2z (b : bool) : Z := if b then 1 else 0.

Fixpoint countp {PC} (P : PC -> bool) (l : list PC) : Z :=
  match l with [] => 0 | pc :: l' => b2z (P pc) + countp P l' end.

Section Count.
Context {PC : Type} (P : PC -> bool).
Implicit Types l : list PC.

Lemma countp_range l : 0 <= countp P l <= Z.of_nat (length l).
Proof. induction l as [|pc l IH]; simpl; [lia|]. unfold b2z. destruct (P pc); lia. Qed.

Lemma countp_update l i pc pc' : l !! i = Some pc ->
  countp P (<[i := pc']> l) = countp P l - b2z (P pc) + b2z (P pc').
Proof.
  revert i. induction l as [|q l IH]; intros [|i] Hi; simplify_eq/=; [lia|].
  rewrite (IH i Hi). lia.
Qed.

Lemma countp_pos l i pc : l !! i = Some pc -> P pc = true -> 1 <= countp P l.
Proof.
  revert i. induction l as [|q l IH]; intros [|i] Hi Hp; simplify_eq/=.
  - rewrite Hp. pose proof (countp_range l). simpl. lia.
  - specialize (IH i Hi Hp). unfold b2z. destruct (P q); lia.
Qed.

Lemma countp_lt l i pc : l !! i = Some pc -> P pc = false ->
  countp P l + 1 <= Z.of_nat (length l).
Proof.
  revert i. induction l as [|q l IH]; intros [|i] Hi Hp; simplify_eq/=.
  - rewrite Hp. pose proof (countp_range l). simpl. lia.
  - specialize (IH i Hi Hp). unfold b2z. destruct (P q); lia.
Qed.

Lemma countp_two l i j pc qc : i <> j -> l !! i = Some pc -> l !! j = Some qc ->
  P pc = true -> P qc = true -> 2 <= countp P l.
Proof.
  revert i j. induction l as [|q l IH]; intros [|i] [|j] Hne Hi Hj Hp Hq; simplify_eq/=; try done.
  - rewrite Hp. pose proof (countp_pos l j qc Hj Hq). simpl. lia.
  - rewrite Hq. pose proof (countp_pos l i pc Hi Hp). simpl. lia.
  - assert (i <> j) by congruence. specialize (IH i j ltac:(done) Hi Hj Hp Hq).
    unfold b2z. destruct (P q); lia.
Qed.

Lemma countp_exists l : 1 <= countp P l -> exists i pc, l !! i = Some pc /\ P pc = true.
Proof.
  induction l as [|q l IH]; simpl; intros H; [lia|]. destruct (P q) eqn:E.
  - by exists 0%nat, q.
  - simpl in H. destruct (IH H) as (i & pc & Hi & Hp). by exists (S i), pc.
Qed.

Lemma countp_0 l : (forall pc, pc ∈ l -> P pc = false) -> countp P l = 0.
Proof.
  induction l as [|q l IH]; simpl; intros H; [done|]. rewrite (H q) by set_solver.
  simpl. apply IH. set_solver.
Qed.

Lemma countp_replicate n pc : countp P (replicate n pc) = Z.of_nat n * b2z (P pc).
Proof. induction n as [|n IH]; simpl countp; [lia|]. rewrite IH. lia. Qed.
Lemma countp_app l k : countp P (l ++ k) = countp P l + countp P k.
Proof. induction l as [|x l IH]; simpl; lia. Qed.
End Count.

Lemma countp_sub {PC} (P Q : PC -> bool) l :
  (forall pc, P pc = true -> Q pc = true) -> countp P l <= countp Q l.
Proof.
  intros H. induction l as [|q l IH]; simpl; [lia|]. specialize (H q).
  destruct (P q), (Q q); simpl; try lia; by specialize (H eq_refl).
Qed.

Lemma countp_sub_lt {PC} (P Q : PC -> bool) l i pc :
  (forall pc, P pc = true -> Q pc = true) -> l !! i = Some pc -> P pc = false -> Q pc = true ->
  countp P l + 1 <= countp Q l.
Proof.
  intros H. revert i. induction l as [|q l IH]; intros [|i] Hi Hp Hq; simplify_eq/=.
  - rewrite Hp, Hq. pose proof (countp_sub P Q l H). simpl. lia.
  - specialize (IH i Hi Hp Hq). specialize (H q). destruct (P q), (Q q); simpl; try lia;
      by specialize (H eq_refl).
Qed.

(** ** Summing over program counters *)
Definition sumf {PC} (f : PC -> Z) (l : list PC) : Z := foldr (fun pc n => f pc + n) 0 l.

Section Sum.
Context {PC : Type} (f : PC -> Z).
Implicit Types l : list PC.

Lemma sumf_update l i pc pc' : l !! i = Some pc ->
  sumf f (<[i := pc']> l) = sumf f l - f pc + f pc'.
Proof.
  revert i. induction l as [|q l IH]; intros [|i] Hi; simplify_eq/=; [lia|].
  rewrite (IH i Hi). lia.
Qed.

Lemma sumf_nonneg l : Forall (fun pc => 0 <= f pc) l -> 0 <= sumf f l.
Proof. induction 1; simpl; lia. Qed.

Lemma sumf_ge l i pc : Forall (fun pc => 0 <= f pc) l -> l !! i = Some pc -> f pc <= sumf f l.
Proof.
  intros H. revert i. induction H as [|q l Hq H IH]; intros [|i] Hi; simplify_eq/=.
  - pose proof (sumf_nonneg l H). lia.
  - specialize (IH i Hi). lia.
Qed.

Lemma sumf_0 l : (forall pc, pc ∈ l -> f pc = 0) -> sumf f l = 0.
Proof.
  induction l as [|q l IH]; simpl; intros H; [done|]. rewrite (H q) by set_solver.
  apply IH. set_solver.
Qed.
End Sum.
