(* ===== verification/RwSpinlock.v ===== *)
(** CommonLib/src/rw_spinlock.c: the reader/writer spinlock with writer
    priority, run by any number of processors.  Interrupt masking is local to a
    processor and does not take part in the protocol. *)
From S2P Require Import Prelude Interleave.

(** Three adjacent WORDs. *)
Record RW_SPINLOCK := mkRW { WaitingWriters : Z; ActiveWriter : Z; ActiveReaders : Z }.

Definition RwSpinlockInit : RW_SPINLOCK := mkRW 0 0 0.

(** * Atomic accesses *)

(** The DWORD at &ActiveWriter overlaps ActiveWriter and ActiveReaders, the one
    at &WaitingWriters overlaps WaitingWriters and ActiveWriter. *)
Definition dword_ActiveWriter (l : RW_SPINLOCK) : Z := ActiveWriter l + 2 ^ 16 * ActiveReaders l.
Definition dword_WaitingWriters (l : RW_SPINLOCK) : Z := WaitingWriters l + 2 ^ 16 * ActiveWriter l.
Definition cas_ActiveWriter (new expected : Z) (l : RW_SPINLOCK) : Z * RW_SPINLOCK :=
  let old := dword_ActiveWriter l in
  (old, if old =? expected then mkRW (WaitingWriters l) (u16 new) (Z.shiftr new 16) else l).
Definition cas_WaitingWriters (new expected : Z) (l : RW_SPINLOCK) : Z * RW_SPINLOCK :=
  let old := dword_WaitingWriters l in
  (old, if old =? expected then mkRW (u16 new) (Z.shiftr new 16) (ActiveReaders l) else l).
Definition add_WaitingWriters (d : Z) (l : RW_SPINLOCK) : RW_SPINLOCK :=
  mkRW (u16 (WaitingWriters l + d)) (ActiveWriter l) (ActiveReaders l).
Definition add_ActiveWriter (d : Z) (l : RW_SPINLOCK) : RW_SPINLOCK :=
  mkRW (WaitingWriters l) (u16 (ActiveWriter l + d)) (ActiveReaders l).
Definition add_ActiveReaders (d : Z) (l : RW_SPINLOCK) : RW_SPINLOCK :=
  mkRW (WaitingWriters l) (ActiveWriter l) (u16 (ActiveReaders l + d)).

Definition pseudoActiveWriter : Z := MAX_WORD + 1.

(** * The code as program counters *)
Inductive rw_pc : Set :=
| Outside            (* not holding the lock, between calls *)
| AcqExclusive       (* RwSpinlockAcquire(TRUE): before the increment of WaitingWriters *)
| SpinExclusive      (* in the compare-exchange loop on ActiveWriter *)
| GotExclusive       (* before the decrement of WaitingWriters *)
| HoldExclusive      (* returned: the writer's critical section *)
| RelExclusive       (* RwSpinlockRelease(TRUE): after its assertion *)
| SpinShared         (* RwSpinlockAcquire(FALSE): in the loop on WaitingWriters *)
| PseudoWriter       (* before the increment of ActiveReaders *)
| CheckShared        (* at ASSERT( 1 == ActiveWriter ) *)
| Confess            (* before the decrement of ActiveWriter *)
| HoldShared.        (* returned: a reader's critical section *)

(** RwSpinlockAcquire and RwSpinlockRelease, one access at a time; a processor
    outside chooses the mode, one inside releases. *)
Definition rw_exec (cpu : Z) (exclusive : bool) (pc : rw_pc) (l : RW_SPINLOCK)
    : outcome (rw_pc * RW_SPINLOCK) :=
  match pc with
  | Outside => Ok (if exclusive then AcqExclusive else SpinShared, l)
  | AcqExclusive => Ok (SpinExclusive, add_WaitingWriters 1 l)
  | SpinExclusive =>
      let '(old, l') := cas_ActiveWriter 1 0 l in
      Ok (if negb (0 =? old) then SpinExclusive else GotExclusive, l')
  | GotExclusive => Ok (HoldExclusive, add_WaitingWriters (-1) l)
  | HoldExclusive => _ ← assert_ (1 =? ActiveWriter l); Ok (RelExclusive, l)
  | RelExclusive => Ok (Outside, add_ActiveWriter (-1) l)
  | SpinShared =>
      let '(old, l') := cas_WaitingWriters pseudoActiveWriter 0 l in
      Ok (if negb (0 =? old) then SpinShared else PseudoWriter, l')
  | PseudoWriter => Ok (CheckShared, add_ActiveReaders 1 l)
  | CheckShared => _ ← assert_ (1 =? ActiveWriter l); Ok (Confess, l)
  | Confess => Ok (HoldShared, add_ActiveWriter (-1) l)
  | HoldShared => Ok (Outside, add_ActiveReaders (-1) l)
  end.

Definition rw_start (n : nat) : sys := mkSys RwSpinlockInit (replicate n Outside).

(** * The invariant *)
Definition owns_writer (pc : rw_pc) : bool :=
  match pc with GotExclusive | HoldExclusive | RelExclusive => true | _ => false end.
Definition pretends (pc : rw_pc) : bool :=
  match pc with PseudoWriter | CheckShared | Confess => true | _ => false end.
Definition counted_reader (pc : rw_pc) : bool :=
  match pc with CheckShared | Confess | HoldShared => true | _ => false end.
Definition waits_exclusive (pc : rw_pc) : bool :=
  match pc with SpinExclusive | GotExclusive => true | _ => false end.

(** The words count the processors in the corresponding parts of the code, and
    a writer excludes readers. *)
Record rw_inv (s : sys) : Prop := {
  inv_n : Z.of_nat (length (pcs s)) < 2 ^ 16;
  inv_aw : ActiveWriter (shared s) = countp owns_writer (pcs s) + countp pretends (pcs s);
  inv_aw_1 : countp owns_writer (pcs s) + countp pretends (pcs s) <= 1;
  inv_ar : ActiveReaders (shared s) = countp counted_reader (pcs s);
  inv_ww : WaitingWriters (shared s) = countp waits_exclusive (pcs s);
  inv_excl : 1 <= countp owns_writer (pcs s) -> countp counted_reader (pcs s) = 0
}.

Lemma rw_inv_start n : Z.of_nat n < 2 ^ 16 -> rw_inv (rw_start n).
Proof.
  intros Hn. split; simpl; rewrite ?length_replicate, ?countp_replicate; simpl; lia.
Qed.

Ltac counts :=
  repeat match goal with
  | |- context [countp ?P (<[?i := ?q]> ?l)] =>
      rewrite (countp_update P l i _ q) by eassumption
  end; cbn [owns_writer pretends counted_reader waits_exclusive b2z].

#[local] Arguments Z.eqb : simpl never.

(** The invariant after a step that writes the words [l'], by arithmetic. *)
Ltac rw_case :=
  cbn [negb]; eexists _, _; split; [reflexivity|];
  split; cbn [pcs shared ActiveWriter ActiveReaders WaitingWriters add_WaitingWriters
    add_ActiveWriter add_ActiveReaders]; rewrite ?length_insert; counts; unwrap; lia.

Lemma rw_inv_step s i excl pc : rw_inv s -> pcs s !! i = Some pc ->
  exists pc' l', rw_exec (cpu_id i) excl pc (shared s) = Ok (pc', l') /\
    rw_inv (mkSys l' (<[i := pc']> (pcs s))).
Proof.
  intros [Hn Haw Haw1 Har Hww Hex] Hpc.
  pose proof (countp_range owns_writer (pcs s)) as R1.
  pose proof (countp_range pretends (pcs s)) as R2.
  pose proof (countp_range counted_reader (pcs s)) as R3.
  pose proof (countp_range waits_exclusive (pcs s)) as R4.
  pose proof (countp_pos owns_writer (pcs s) i pc Hpc) as P1.
  pose proof (countp_pos pretends (pcs s) i pc Hpc) as P2.
  pose proof (countp_pos counted_reader (pcs s) i pc Hpc) as P3.
  pose proof (countp_pos waits_exclusive (pcs s) i pc Hpc) as P4.
  pose proof (countp_lt counted_reader (pcs s) i pc Hpc) as N3.
  pose proof (countp_lt waits_exclusive (pcs s) i pc Hpc) as N4.
  destruct s as [[ww aw ar] l]. simpl in *. subst aw ar ww.
  destruct pc; simpl in *; try (specialize (P1 eq_refl)); try (specialize (P2 eq_refl));
    try (specialize (P3 eq_refl)); try (specialize (P4 eq_refl));
    try (specialize (N3 eq_refl)); try (specialize (N4 eq_refl)).
  - destruct excl; rw_case.
  - rw_case.
  - unfold cas_ActiveWriter, dword_ActiveWriter. cbn [ActiveWriter ActiveReaders WaitingWriters].
    destruct (Z.eqb_spec (countp owns_writer l + countp pretends l + 2 ^ 16 * countp counted_reader l) 0)
      as [E|E].
    + rewrite E, Z.eqb_refl. cbn [negb].
      change (u16 1) with 1. change (Z.shiftr 1 16) with 0. rw_case.
    + rewrite (proj2 (Z.eqb_neq 0 _)) by lia. rw_case.
  - rw_case.
  - rewrite (proj2 (Z.eqb_eq 1 _)) by lia. rw_case.
  - rw_case.
  - unfold cas_WaitingWriters, dword_WaitingWriters. cbn [ActiveWriter ActiveReaders WaitingWriters].
    destruct (Z.eqb_spec (countp waits_exclusive l + 2 ^ 16 * (countp owns_writer l + countp pretends l)) 0)
      as [E|E].
    + rewrite E, Z.eqb_refl. cbn [negb].
      change (u16 pseudoActiveWriter) with 0. change (Z.shiftr pseudoActiveWriter 16) with 1. rw_case.
    + rewrite (proj2 (Z.eqb_neq 0 _)) by lia. rw_case.
  - rw_case.
  - rewrite (proj2 (Z.eqb_eq 1 _)) by lia. rw_case.
  - rw_case.
  - rw_case.
Qed.

Lemma rw_reachable n s : Z.of_nat n < 2 ^ 16 -> reachable rw_exec (rw_start n) s ->
  rw_inv s /\ safe_state rw_exec s.
Proof. intros Hn. apply reachable_inv; [by apply rw_inv_start|apply rw_inv_step]. Qed.

(** * Theorems *)

(** C9: With fewer than 2^16 processors, in every reachable interleaving of
    RwSpinlockAcquire and RwSpinlockRelease no assertion fails, and while a
    processor is in the exclusive section no other processor is in the exclusive
    or in the shared section. *)
Theorem rw_mutual_exclusion n s : Z.of_nat n < 2 ^ 16 -> reachable rw_exec (rw_start n) s ->
  safe_state rw_exec s /\
  forall i j pc, pcs s !! i = Some HoldExclusive -> pcs s !! j = Some pc -> i <> j ->
    pc <> HoldExclusive /\ pc <> HoldShared.
Proof.
  intros Hn Hr. destruct (rw_reachable n s Hn Hr) as [[_ _ H1 _ _ Hex] Hsafe]. split; [done|].
  intros i j pc Hi Hj Hne. pose proof (countp_pos owns_writer _ _ _ Hi eq_refl) as Hw.
  pose proof (countp_range pretends (pcs s)). specialize (Hex Hw). split; intros ->.
  - pose proof (countp_two owns_writer _ _ _ _ _ Hne Hi Hj eq_refl eq_refl). lia.
  - pose proof (countp_pos counted_reader _ _ _ Hj eq_refl). lia.
Qed.

(** A run of three processors: a reader enters and leaves while a writer waits,
    then the writer enters. *)
Definition demo_schedule : list (nat * bool) :=
  [(0%nat, false); (0%nat, false); (0%nat, false); (0%nat, false); (0%nat, false);
   (1%nat, true); (1%nat, true); (1%nat, true); (2%nat, false); (2%nat, false);
   (0%nat, false); (1%nat, true); (1%nat, true)].

Lemma rw_mutual_exclusion_witness :
  exists s, reachable rw_exec (rw_start 3) s /\ pcs s = [Outside; HoldExclusive; SpinShared] /\
    safe_state rw_exec s /\
    forall i j pc, pcs s !! i = Some HoldExclusive -> pcs s !! j = Some pc -> i <> j ->
      pc <> HoldExclusive /\ pc <> HoldShared.
Proof.
  exists (mkSys (mkRW 0 1 0) [Outside; HoldExclusive; SpinShared]).
  assert (Hr : reachable rw_exec (rw_start 3)
    (mkSys (mkRW 0 1 0) [Outside; HoldExclusive; SpinShared])).
  { apply (run_schedule_reachable rw_exec (rw_start 3) demo_schedule (rw_start 3)).
    - apply reach_refl.
    - reflexivity. }
  split; [exact Hr|]. split; [reflexivity|].
  apply (rw_mutual_exclusion 3 _ ltac:(lia) Hr).
Defined.

(** C33: Writers have priority and the lock is handed over: while a writer
    spins, the accesses of a spinning reader leave the lock unchanged; when no
    processor is inside or entering, the next access of a spinning writer
    acquires the lock, and so does that of a spinning reader if no writer waits. *)
Theorem rw_priority_and_handover n s i excl :
  Z.of_nat n < 2 ^ 16 -> reachable rw_exec (rw_start n) s ->
  (forall j, pcs s !! i = Some SpinShared -> pcs s !! j = Some SpinExclusive ->
     rw_exec (cpu_id i) excl SpinShared (shared s) = Ok (SpinShared, shared s)) /\
  ((forall j pc, pcs s !! j = Some pc ->
      owns_writer pc = false /\ pretends pc = false /\ counted_reader pc = false) ->
   exists l', rw_exec (cpu_id i) excl SpinExclusive (shared s) = Ok (GotExclusive, l')) /\
  ((forall j pc, pcs s !! j = Some pc -> owns_writer pc = false /\ pretends pc = false /\
      waits_exclusive pc = false) ->
   exists l', rw_exec (cpu_id i) excl SpinShared (shared s) = Ok (PseudoWriter, l')).
Proof.
  intros Hn Hr. destruct (rw_reachable n s Hn Hr) as [[_ Haw _ Har Hww _] _].
  pose proof (countp_range waits_exclusive (pcs s)). pose proof (countp_range owns_writer (pcs s)).
  pose proof (countp_range pretends (pcs s)).
  assert (Hzero : forall P, (forall j pc, pcs s !! j = Some pc -> P pc = false) -> countp P (pcs s) = 0).
  { intros P HP. apply countp_0. intros pc [j Hj]%list_elem_of_lookup. by eapply HP. }
  unfold rw_exec, cas_ActiveWriter, cas_WaitingWriters, dword_ActiveWriter, dword_WaitingWriters.
  split_and!.
  - intros j Hi Hj. pose proof (countp_pos waits_exclusive _ _ _ Hj eq_refl).
    rewrite (proj2 (Z.eqb_neq 0 _)), (proj2 (Z.eqb_neq _ 0)) by lia. done.
  - intros Hfree. rewrite Haw, Har, !Hzero by (intros; by eapply Hfree). eauto.
  - intros Hfree. rewrite Haw, Hww, !Hzero by (intros; by eapply Hfree). eauto.
Qed.

Lemma rw_priority_and_handover_witness :
  exists s, reachable rw_exec (rw_start 2) s /\ pcs s = [SpinShared; SpinExclusive] /\
    rw_exec (cpu_id 0) false SpinShared (shared s) = Ok (SpinShared, shared s).
Proof.
  exists (mkSys (mkRW 1 0 0) [SpinShared; SpinExclusive]).
  assert (Hr : reachable rw_exec (rw_start 2) (mkSys (mkRW 1 0 0) [SpinShared; SpinExclusive])).
  { apply (run_schedule_reachable rw_exec (rw_start 2)
      [(0%nat, false); (1%nat, true); (1%nat, true)] (rw_start 2)).
    - apply reach_refl.
    - reflexivity. }
  split; [exact Hr|]. split; [reflexivity|].
  apply (proj1 (rw_priority_and_handover 2 _ 0 false ltac:(lia) Hr) 1%nat); reflexivity.
Defined.
