(* ===== verification/RecRwSpinlock.v ===== *)
(** CommonLib/src/rec_rw_spinlock.c: the reader/writer spinlock of [RwSpinlock] that the processor which holds it exclusively can take again,
    run by any number of processors.  A processor takes the lock again at most as often as RecRwSpinlockInit allows, and not in
    shared mode while it holds it, as the annotations of the functions require.  Interrupt masking is local to a processor. *)
From S2P Require Import Prelude Interleave RwSpinlock.

(** Holder is the number of a processor, or 0 for NULL. *)
Record REC_RW_SPINLOCK := mkRecRw { rec_RwSpinlock : RW_SPINLOCK; rec_Holder : Z; CurrentRecursivityDepth : Z; MaxRecursivityDepth : Z }.
Definition RW_DEFAULT_RECURSIVITY_DEPTH_MAX : Z := 2.
Definition RecRwSpinlockInit (RecursivityDepth : Z) : REC_RW_SPINLOCK :=
  mkRecRw RwSpinlockInit 0 0 (if 0 =? RecursivityDepth then RW_DEFAULT_RECURSIVITY_DEPTH_MAX else RecursivityDepth).

Definition with_rw (w : RW_SPINLOCK) (l : REC_RW_SPINLOCK) : REC_RW_SPINLOCK := mkRecRw w (rec_Holder l) (CurrentRecursivityDepth l) (MaxRecursivityDepth l).
Definition with_holder (h : Z) (l : REC_RW_SPINLOCK) : REC_RW_SPINLOCK := mkRecRw (rec_RwSpinlock l) h (CurrentRecursivityDepth l) (MaxRecursivityDepth l).
Definition with_depth (d : Z) (l : REC_RW_SPINLOCK) : REC_RW_SPINLOCK := mkRecRw (rec_RwSpinlock l) (rec_Holder l) d (MaxRecursivityDepth l).

(** * The code as program counters; [n] counts the exclusive acquisitions that the processor has not released *)
Inductive rec_pc : Set :=
| Free                       (* not holding the lock, between calls *)
| TestHolder (n : Z)         (* RecRwSpinlockAcquire(TRUE): at the test of Holder *)
| TestDepth (n : Z)          (* the lock is held: at the assertion on the depth *)
| IncDepth (n : Z)           (* before the increment of CurrentRecursivityDepth *)
| InRw (p : rw_pc)           (* in RwSpinlockAcquire or RwSpinlockRelease *)
| CheckHolder (x : bool)     (* acquired: at ASSERT( NULL == Holder ) *)
| CheckDepth (x : bool)      (* at ASSERT( 0 == CurrentRecursivityDepth ) *)
| SetDepth                   (* before CurrentRecursivityDepth = 1 *)
| SetHolder                  (* before the assignment to Holder *)
| Exclusive_ (n : Z)         (* the exclusive section *)
| Shared_                    (* a shared section *)
| RelHolder (n : Z)          (* RecRwSpinlockRelease(TRUE): at the assertion on Holder *)
| DecDepth (n : Z)           (* before the decrement of CurrentRecursivityDepth *)
| TestZero (n : Z)           (* at the test of CurrentRecursivityDepth *)
| ClearHolder (x : bool).    (* before Holder = NULL *)

(** The position after a step inside the lock below. *)
Definition after_rw (p : rw_pc) : rec_pc :=
  match p with Outside => Free | HoldExclusive => CheckHolder true | HoldShared => CheckHolder false | _ => InRw p end.

(** RecRwSpinlockAcquire and RecRwSpinlockRelease, one access at a time; [choice] is the mode of a processor that holds nothing, and
    whether the holder takes the lock again. *)
Definition rec_exec (cpu : Z) (choice : bool) (pc : rec_pc) (l : REC_RW_SPINLOCK) : outcome (rec_pc * REC_RW_SPINLOCK) :=
  match pc with
  | Free => if choice then Ok (TestHolder 0, l) else
      '(p, w) ← rw_exec cpu false Outside (rec_RwSpinlock l); Ok (after_rw p, with_rw w l)
  | TestHolder n => if rec_Holder l =? cpu then Ok (TestDepth n, l) else
      '(p, w) ← rw_exec cpu true Outside (rec_RwSpinlock l); Ok (after_rw p, with_rw w l)
  | TestDepth n => _ ← assert_ (CurrentRecursivityDepth l <? MaxRecursivityDepth l); Ok (IncDepth n, l)
  | IncDepth n => Ok (Exclusive_ (n + 1), with_depth (u8 (CurrentRecursivityDepth l + 1)) l)
  | InRw p => '(p', w) ← rw_exec cpu choice p (rec_RwSpinlock l); Ok (after_rw p', with_rw w l)
  | CheckHolder x => _ ← assert_ (0 =? rec_Holder l); Ok (CheckDepth x, l)
  | CheckDepth x => _ ← assert_ (0 =? CurrentRecursivityDepth l); Ok (if x then SetDepth else Shared_, l)
  | SetDepth => Ok (SetHolder, with_depth 1 l)
  | SetHolder => Ok (Exclusive_ 1, with_holder cpu l)
  | Exclusive_ n => Ok (if choice && (n <? MaxRecursivityDepth l) then TestHolder n else RelHolder n, l)
  | Shared_ => Ok (ClearHolder false, l)
  | RelHolder n => _ ← assert_ (cpu =? rec_Holder l); Ok (DecDepth n, l)
  | DecDepth n => Ok (TestZero (n - 1), with_depth (u8 (CurrentRecursivityDepth l - 1)) l)
  | TestZero n => Ok (if 0 =? CurrentRecursivityDepth l then ClearHolder true else Exclusive_ n, l)
  | ClearHolder x => Ok (InRw (if x then HoldExclusive else HoldShared), with_holder 0 l)
  end.

Definition rec_start (depth : Z) (n : nat) : sys := mkSys (RecRwSpinlockInit depth) (replicate n Free).

(** * The lock below *)
(** Where a processor is in the code of the lock below. *)
Definition rw_of (pc : rec_pc) : rw_pc :=
  match pc with
  | Free => Outside
  | TestHolder n => if 0 <? n then HoldExclusive else Outside
  | InRw p => p
  | CheckHolder x | CheckDepth x | ClearHolder x => if x then HoldExclusive else HoldShared
  | Shared_ => HoldShared
  | _ => HoldExclusive
  end.
Definition below (s : sys (L := REC_RW_SPINLOCK) (PC := rec_pc)) : sys := mkSys (rec_RwSpinlock (shared s)) (rw_of <$> pcs s).

(** What Holder and CurrentRecursivityDepth are while a processor owns the lock exclusively: whether Holder names it, and the depth. *)
Definition claim_of (pc : rec_pc) : option (bool * Z) :=
  match pc with
  | TestHolder n => if 0 <? n then Some (true, n) else None
  | TestDepth n | IncDepth n | Exclusive_ n | RelHolder n | DecDepth n | TestZero n => Some (true, n)
  | ClearHolder true => Some (true, 0)
  | SetHolder => Some (false, 1)
  | CheckHolder true | CheckDepth true | SetDepth => Some (false, 0)
  | InRw p => if owns_writer p then Some (false, 0) else None
  | _ => None
  end.
Definition depth_ok (max : Z) (pc : rec_pc) : Prop :=
  match pc with
  | TestHolder n => 0 <= n < max
  | TestDepth n | IncDepth n => 1 <= n < max
  | Exclusive_ n | RelHolder n | DecDepth n => 1 <= n <= max
  | TestZero n => 0 <= n < max
  | InRw p => True
  | _ => True
  end.

Record rec_inv (s : sys) : Prop := {
  ri_rw : rw_inv (below s);
  ri_max : 1 <= MaxRecursivityDepth (shared s) < 2 ^ 8;
  ri_depth : forall i pc, pcs s !! i = Some pc -> depth_ok (MaxRecursivityDepth (shared s)) pc;
  ri_owner : forall i pc h d, pcs s !! i = Some pc -> claim_of pc = Some (h, d) ->
    rec_Holder (shared s) = (if h : bool then cpu_id i else 0) /\ CurrentRecursivityDepth (shared s) = d;
  ri_free : (forall i pc, pcs s !! i = Some pc -> claim_of pc = None) -> rec_Holder (shared s) = 0 /\ CurrentRecursivityDepth (shared s) = 0 }.

Lemma claim_owner pc : owns_writer (rw_of pc) = bool_decide (is_Some (claim_of pc)).
Proof. destruct pc as [|n| | |p|[]|[]| | | | | | | |[]]; cbn; try done; [by destruct (0 <? n)|by destruct p]. Qed.

(** At most one processor owns the lock exclusively, and none while there is a reader. *)
Lemma below_owner s i pc c : rw_inv (below s) -> pcs s !! i = Some pc -> claim_of pc = Some c ->
  forall j qc, pcs s !! j = Some qc -> i <> j -> claim_of qc = None.
Proof.
  intros [_ _ H1 _ _ _] Hi Hc j qc Hj Hne. destruct (claim_of qc) eqn:Hq; [|done]. exfalso.
  pose proof (countp_range pretends (pcs (below s))). cbn in *.
  pose proof (countp_two owns_writer (rw_of <$> pcs s) i j (rw_of pc) (rw_of qc)) as H2.
  rewrite !list_lookup_fmap, Hi, Hj, !claim_owner, Hc, Hq in H2. specialize (H2 Hne eq_refl eq_refl eq_refl eq_refl). lia.
Qed.

Lemma below_reader s i pc : rw_inv (below s) -> pcs s !! i = Some pc -> counted_reader (rw_of pc) = true ->
  forall j qc, pcs s !! j = Some qc -> claim_of qc = None.
Proof.
  intros [_ _ _ _ _ He] Hi Hc j qc Hj. destruct (claim_of qc) eqn:Hq; [|done]. exfalso. cbn in *.
  pose proof (countp_pos counted_reader (rw_of <$> pcs s) i (rw_of pc)) as P1. rewrite list_lookup_fmap, Hi in P1.
  pose proof (countp_pos owns_writer (rw_of <$> pcs s) j (rw_of qc)) as P2. rewrite list_lookup_fmap, Hj, claim_owner, Hq in P2.
  specialize (P1 eq_refl Hc). specialize (P2 eq_refl eq_refl). lia.
Qed.

(** A step that respects what the processor claims preserves the invariant. *)
Lemma rec_inv_update s i pc pc' l' : rec_inv s -> pcs s !! i = Some pc -> rw_inv (below (mkSys l' (<[i := pc']> (pcs s)))) ->
  MaxRecursivityDepth l' = MaxRecursivityDepth (shared s) -> depth_ok (MaxRecursivityDepth l') pc' ->
  match claim_of pc' with
  | Some (h, d) => rec_Holder l' = (if h : bool then cpu_id i else 0) /\ CurrentRecursivityDepth l' = d
  | None => if bool_decide (is_Some (claim_of pc)) then rec_Holder l' = 0 /\ CurrentRecursivityDepth l' = 0
            else rec_Holder l' = rec_Holder (shared s) /\ CurrentRecursivityDepth l' = CurrentRecursivityDepth (shared s)
  end -> rec_inv (mkSys l' (<[i := pc']> (pcs s))).
Proof.
  intros [Hrw Hmax Hd Ho Hf] Hi Hrw' Em Hd' Hc. assert (i < length (pcs s))%nat as Hlt by (by eapply lookup_lt_Some).
  assert (<[i := pc']> (pcs s) !! i = Some pc') as Hi' by (by apply list_lookup_insert_eq).
  split; [exact Hrw'|cbn; by rewrite Em|..]; cbn [pcs shared].
  - intros j qc Hj. destruct (decide (i = j)) as [<-|Hne]; [rewrite Hi' in Hj; by injection Hj as <-|].
    rewrite list_lookup_insert_ne in Hj by done. rewrite Em. by eapply Hd.
  - intros j qc h d Hj Hq. destruct (decide (i = j)) as [<-|Hne].
    { rewrite Hi' in Hj. injection Hj as <-. by rewrite Hq in Hc. }
    destruct (claim_of pc') as [c|] eqn:E'.
    { by rewrite (below_owner _ i pc' c Hrw' Hi' E' j qc Hj Hne) in Hq. }
    rewrite list_lookup_insert_ne in Hj by done. destruct (claim_of pc) as [c|] eqn:E.
    { by rewrite (below_owner s i pc c Hrw Hi E j qc Hj Hne) in Hq. }
    destruct Hc as [-> ->]. by eapply Ho.
  - intros Hall. rewrite (Hall i pc' Hi') in Hc. destruct (claim_of pc) as [c|] eqn:E; [done|]. destruct Hc as [-> ->]. apply Hf.
    intros j qc Hj. destruct (decide (i = j)) as [<-|Hne]; [congruence|]. apply (Hall j). by rewrite list_lookup_insert_ne.
Qed.

(** Steps outside the lock below. *)
Lemma below_same s i pc pc' l' : pcs s !! i = Some pc -> rw_of pc' = rw_of pc -> rec_RwSpinlock l' = rec_RwSpinlock (shared s) ->
  rw_inv (below s) -> rw_inv (below (mkSys l' (<[i := pc']> (pcs s)))).
Proof.
  intros Hi E El H. unfold below in *. cbn. rewrite list_fmap_insert, E, El, list_insert_id; [done|]. by rewrite list_lookup_fmap, Hi.
Qed.

(** Steps of the lock below; before them the processor claims nothing but what the lock below gives it. *)
Definition rw_claim (p : rw_pc) : option (bool * Z) := if owns_writer p then Some (false, 0) else None.
Lemma after_rw_of p : rw_of (after_rw p) = p /\ claim_of (after_rw p) = rw_claim p /\ forall max, depth_ok max (after_rw p).
Proof. by destruct p. Qed.

Lemma rec_inv_inner s i pc x p : rec_inv s -> pcs s !! i = Some pc -> rw_of pc = p -> claim_of pc = rw_claim p ->
  exists pc' l', ('(p', w) ← rw_exec (cpu_id i) x p (rec_RwSpinlock (shared s)); Ok (after_rw p', with_rw w (shared s))) = Ok (pc', l') /\
    rec_inv (mkSys l' (<[i := pc']> (pcs s))).
Proof.
  intros HI Hi Hp Hc. pose proof HI as [Hrw Hmax Hd Ho Hf].
  destruct (rw_inv_step (below s) i x p Hrw) as (p'&w&E&Hrw'); [cbn; by rewrite list_lookup_fmap, Hi, <- Hp|].
  exists (after_rw p'), (with_rw w (shared s)). cbn [below shared] in E. rewrite E. split; [done|].
  destruct (after_rw_of p') as (E1&E2&E3).
  assert (rw_inv (below (mkSys (with_rw w (shared s)) (<[i := after_rw p']> (pcs s))))) as Hb.
  { unfold below in *. cbn in *. by rewrite list_fmap_insert, E1. }
  apply (rec_inv_update s i pc); [done|done|exact Hb|done|apply E3|]. cbn [rec_Holder CurrentRecursivityDepth with_rw]. rewrite E2. unfold rw_claim in *.
  destruct (owns_writer p) eqn:Op; rewrite Hc in *.
  - destruct (Ho i pc false 0 Hi Hc) as [Hh Hdp]. by destruct (owns_writer p').
  - destruct (owns_writer p') eqn:Op'; [|done]. apply Hf. intros j qc Hj. destruct (decide (i = j)) as [<-|Hne]; [congruence|].
    eapply (below_owner _ i (after_rw p') (false, 0) Hb); cbn [pcs]; [apply list_lookup_insert_eq; by eapply lookup_lt_Some|by rewrite E2| |exact Hne].
    by rewrite list_lookup_insert_ne.
Qed.

(** A step of the code around the lock below. *)
Ltac rec_local HI Hi :=
  eexists _, _; split; [reflexivity|]; eapply (rec_inv_update _ _ _ _ _ HI Hi);
  [eapply (below_same _ _ _ _ _ Hi); [reflexivity|reflexivity|exact (ri_rw _ HI)]|reflexivity|cbn in *|cbn in *].

Lemma holder_other s i n : rec_inv s -> pcs s !! i = Some (TestHolder n) -> n = 0 -> rec_Holder (shared s) <> cpu_id i.
Proof.
  intros [Hrw _ _ Ho Hf] Hi ->. destruct (decide (Exists (fun pc => is_Some (claim_of pc)) (pcs s))) as [He|He].
  - apply Exists_exists in He as (qc&(j&Hj)%list_elem_of_lookup&[h d] &Hc). destruct (Ho j qc h d Hj Hc) as [-> _].
    assert (i <> j) by (intros ->; rewrite Hi in Hj; by injection Hj as <-). unfold cpu_id. destruct h; lia.
  - destruct Hf as [-> _]; [|unfold cpu_id; lia]. intros j qc Hj. destruct (claim_of qc) eqn:E; [|done]. exfalso. apply He, Exists_exists.
    exists qc. split; [by eapply list_elem_of_lookup_2|done].
Qed.

Lemma rec_inv_step s i choice pc : rec_inv s -> pcs s !! i = Some pc ->
  exists pc' l', rec_exec (cpu_id i) choice pc (shared s) = Ok (pc', l') /\ rec_inv (mkSys l' (<[i := pc']> (pcs s))).
Proof.
  intros HI Hi. pose proof (ri_max _ HI) as Hmax. pose proof (ri_depth _ HI i pc Hi) as Hd.
  assert (forall h d, claim_of pc = Some (h, d) -> rec_Holder (shared s) = (if h : bool then cpu_id i else 0) /\ CurrentRecursivityDepth (shared s) = d) as Ho.
  { intros h d. by apply (ri_owner _ HI). }
  assert (counted_reader (rw_of pc) = true -> rec_Holder (shared s) = 0 /\ CurrentRecursivityDepth (shared s) = 0) as Hr.
  { intros Hc. apply (ri_free _ HI). intros j qc Hj. by eapply (below_reader s i pc (ri_rw _ HI)). }
  destruct pc as [|n|n|n|p|x|x| | |n| |n|n|n|x]; cbn [rec_exec].
  - destruct choice; [|by eapply (rec_inv_inner s i Free)]. rec_local HI Hi; [lia|done].
  - destruct (Z.ltb_spec 0 n) as [Hn|Hn].
    + destruct (Ho true n) as [Hh Hdp]; [cbn; by rewrite (proj2 (Z.ltb_lt _ _)) by lia|]. rewrite Hh, Z.eqb_refl.
      eexists _, _. split; [reflexivity|]. eapply (rec_inv_update _ _ _ _ _ HI Hi); [|done|cbn in *; lia|cbn; done].
      eapply (below_same _ _ _ _ _ Hi); [cbn; by rewrite (proj2 (Z.ltb_lt _ _)) by lia|done|apply HI].
    + rewrite (proj2 (Z.eqb_neq _ _)) by (apply (holder_other s i n HI Hi); cbn in Hd; lia).
      eapply (rec_inv_inner s i (TestHolder n)); [done|done|cbn; by rewrite (proj2 (Z.ltb_ge _ _))|cbn; by rewrite (proj2 (Z.ltb_ge _ _))].
  - destruct (Ho true n eq_refl) as [Hh ->]. cbn in Hd. rewrite (proj2 (Z.ltb_lt _ _)) by lia. rec_local HI Hi; [done|]. by destruct (Ho true n eq_refl).
  - destruct (Ho true n eq_refl) as [Hh ->]. cbn in Hd. rec_local HI Hi; [lia|]. split; [done|]. unwrap. done.
  - by eapply (rec_inv_inner s i (InRw p)).
  - assert (rec_Holder (shared s) = 0 /\ CurrentRecursivityDepth (shared s) = 0) as [Hh Hdp] by (destruct x; [by apply (Ho false 0)|by apply Hr]).
    rewrite Hh. cbn [assert_ Z.eqb mbind outcome_bind]. destruct x; rec_local HI Hi; done.
  - assert (rec_Holder (shared s) = 0 /\ CurrentRecursivityDepth (shared s) = 0) as [Hh Hdp] by (destruct x; [by apply (Ho false 0)|by apply Hr]).
    rewrite Hdp. cbn [assert_ Z.eqb mbind outcome_bind]. destruct x; rec_local HI Hi; done.
  - destruct (Ho false 0 eq_refl) as [Hh _]. rec_local HI Hi; done.
  - destruct (Ho false 1 eq_refl) as [_ Hdp]. rec_local HI Hi; [lia|done].
  - destruct (Ho true n eq_refl) as [Hh Hdp]. cbn in Hd. destruct (choice && (n <? MaxRecursivityDepth (shared s))) eqn:Ec.
    + apply andb_prop in Ec as [_ Ec%Z.ltb_lt]. eexists _, _. split; [reflexivity|].
      eapply (rec_inv_update _ _ _ _ _ HI Hi); [|done|cbn; lia|cbn; by rewrite (proj2 (Z.ltb_lt _ _)) by lia].
      eapply (below_same _ _ _ _ _ Hi); [cbn; by rewrite (proj2 (Z.ltb_lt _ _)) by lia|done|apply HI].
    + rec_local HI Hi; done.
  - rec_local HI Hi; done.
  - destruct (Ho true n eq_refl) as [Hh Hdp]. rewrite Hh, Z.eqb_refl. cbn in Hd. rec_local HI Hi; done.
  - destruct (Ho true n eq_refl) as [Hh ->]. cbn in Hd. rec_local HI Hi; [lia|]. split; [done|]. unwrap. done.
  - destruct (Ho true n eq_refl) as [Hh Hdp]. cbn in Hd. rewrite Hdp. destruct (Z.eqb_spec 0 n) as [<-|Hn]; rec_local HI Hi; try done. lia.
  - assert (CurrentRecursivityDepth (shared s) = 0) as Hdp by (destruct x; [by apply (Ho true 0)|by apply Hr]). destruct x; rec_local HI Hi; try done.
    split; [|done]. by destruct (Hr eq_refl) as [-> _].
Qed.

Lemma rec_inv_start depth n : 0 <= depth < 2 ^ 8 -> Z.of_nat n < 2 ^ 16 -> rec_inv (rec_start depth n).
Proof.
  intros Hd Hn. assert (forall i pc, pcs (rec_start depth n) !! i = Some pc -> pc = Free) as Hall.
  { intros i pc Hi. cbn in Hi. by apply lookup_replicate in Hi as [-> _]. }
  split.
  - replace (below (rec_start depth n)) with (rw_start n) by (unfold below, rec_start, rw_start; cbn; by rewrite fmap_replicate). by apply rw_inv_start.
  - unfold rec_start, RecRwSpinlockInit, RW_DEFAULT_RECURSIVITY_DEPTH_MAX. cbn [shared MaxRecursivityDepth]. destruct (Z.eqb_spec 0 depth); lia.
  - by intros i pc ->%Hall.
  - by intros i pc h d ->%Hall.
  - done.
Qed.

Lemma rec_reachable depth n s : 0 <= depth < 2 ^ 8 -> Z.of_nat n < 2 ^ 16 -> reachable rec_exec (rec_start depth n) s ->
  rec_inv s /\ safe_state rec_exec s.
Proof. intros Hd Hn. apply reachable_inv; [by apply rec_inv_start|apply rec_inv_step]. Qed.

(** C18: With fewer than 2^16 processors, in every interleaving of RecRwSpinlockAcquire and RecRwSpinlockRelease no assertion fails; while a
    processor is in the exclusive section, however often it has taken the lock, no other processor is in an exclusive or
    shared section, Holder names it and CurrentRecursivityDepth is the number of acquisitions it has yet to release; when nobody
    owns the lock exclusively, Holder is NULL and the depth 0. *)
Theorem rec_rw_exclusion depth n s : 0 <= depth < 2 ^ 8 -> Z.of_nat n < 2 ^ 16 -> reachable rec_exec (rec_start depth n) s ->
  safe_state rec_exec s /\
  (forall i k, pcs s !! i = Some (Exclusive_ k) ->
     rec_Holder (shared s) = cpu_id i /\ CurrentRecursivityDepth (shared s) = k /\ 1 <= k <= MaxRecursivityDepth (shared s) /\
     forall j pc, pcs s !! j = Some pc -> i <> j -> pc <> Shared_ /\ forall k', pc <> Exclusive_ k') /\
  ((forall i pc, pcs s !! i = Some pc -> claim_of pc = None) -> rec_Holder (shared s) = 0 /\ CurrentRecursivityDepth (shared s) = 0).
Proof.
  intros Hd Hn Hr. destruct (rec_reachable depth n s Hd Hn Hr) as [HI Hsafe]. split; [done|]. split; [|apply HI].
  intros i k Hi. destruct (ri_owner _ HI i _ true k Hi eq_refl) as [Hh Hk]. split_and!; [done..|apply (ri_depth _ HI i _ Hi)|apply (ri_depth _ HI i _ Hi)|].
  intros j pc Hj Hne. pose proof (below_owner s i _ _ (ri_rw _ HI) Hi eq_refl j pc Hj Hne) as Hc. split; [intros ->|by intros k' ->].
  pose proof (below_reader s j _ (ri_rw _ HI) Hj eq_refl i _ Hi). done.
Qed.

(** Two processors: the first takes the lock twice, the second spins. *)
Definition rec_schedule : list (nat * bool) :=
  replicate 9 (0%nat, true) ++ replicate 4 (1%nat, true) ++ replicate 4 (0%nat, true).
Lemma rec_rw_exclusion_witness : exists s, reachable rec_exec (rec_start 0 2) s /\ pcs s = [Exclusive_ 2; InRw SpinExclusive] /\
  rec_Holder (shared s) = 1 /\ CurrentRecursivityDepth (shared s) = 2.
Proof.
  set (s := mkSys (mkRecRw (mkRW 1 1 0) 1 2 2) [Exclusive_ 2; InRw SpinExclusive]).
  assert (Hr : reachable rec_exec (rec_start 0 2) s).
  { apply (run_schedule_reachable rec_exec (rec_start 0 2) rec_schedule (rec_start 0 2)); [apply reach_refl|vm_compute; reflexivity]. }
  exists s. split; [exact Hr|]. split; [reflexivity|].
  destruct (rec_rw_exclusion 0 2 s ltac:(lia) ltac:(lia) Hr) as (_&H&_). destruct (H 0%nat 2 eq_refl) as (Hh&Hk&_). by split.
Defined.
