(* ===== verification/Spinlock.v ===== *)
(** CommonLib/src/spinlock.c, src/monlock.c and src/lock_common.c: the exclusive
    locks, run by any number of processors.  LockSystemInit selects the spinning
    or the monitor/mwait implementation; both keep the same SPINLOCK. *)
From S2P Require Import Prelude Interleave.

Definition LOCK_TAKEN : Z := 1.
Definition LOCK_FREE : Z := 0.

Record SPINLOCK := mkSPINLOCK { State : Z; Holder : Z; FunctionWhichTookLock : Z }.

Definition SpinlockInit : SPINLOCK := mkSPINLOCK LOCK_FREE 0 0.
Definition MonitorLockInit : SPINLOCK := mkSPINLOCK LOCK_FREE 0 0.

Definition set_State (v : Z) (l : SPINLOCK) : SPINLOCK :=
  mkSPINLOCK v (Holder l) (FunctionWhichTookLock l).
Definition set_Holder (v : Z) (l : SPINLOCK) : SPINLOCK :=
  mkSPINLOCK (State l) v (FunctionWhichTookLock l).
Definition set_Function (v : Z) (l : SPINLOCK) : SPINLOCK := mkSPINLOCK (State l) (Holder l) v.

(** _InterlockedCompareExchange8(&State, LOCK_TAKEN, LOCK_FREE) *)
Definition cas_State (l : SPINLOCK) : Z * SPINLOCK :=
  (State l, if State l =? LOCK_FREE then set_State LOCK_TAKEN l else l).

Inductive sp_pc : Set :=
| SpOutside | SpDisable | SpCheckHolder | SpCas | SpMonitor | SpMwait | SpTry
| SpAssertFunction | SpAssertHolder | SpSetHolder | SpSetFunction | SpAssertState
| SpHold | SpRelAssert | SpClearHolder | SpClearFunction | SpFree | SpRestore.

(** A processor: its position, its interrupt flag, and the flag it saved. *)
Record cpu := mkCpu { c_pc : sp_pc; c_try : bool; c_intr : bool; c_saved : bool }.
Definition at_pc (pc : sp_pc) (c : cpu) : cpu := mkCpu pc (c_try c) (c_intr c) (c_saved c).

Section Exec.
(** LockSystemInit(MonitorSupport), and the return address of the caller on
    each processor. *)
Context (MonitorSupport : bool) (caller : Z -> Z).

(** Acquire, TryAcquire, Release of both implementations, one access at a time. *)
Definition lock_exec (self : Z) (try_ : bool) (c : cpu) (l : SPINLOCK) : outcome (cpu * SPINLOCK) :=
  let goto pc := at_pc pc c in
  match c_pc c with
  | SpOutside => Ok (mkCpu SpDisable try_ (c_intr c) (c_saved c), l)
  | SpDisable => (* *IntrState = CpuIntrDisable() *)
      Ok (mkCpu (if c_try c then SpTry else SpCheckHolder) (c_try c) false (c_intr c), l)
  | SpCheckHolder =>
      _ ← assert_ (negb (self =? Holder l));
      Ok (goto (if MonitorSupport then SpMonitor else SpCas), l)
  | SpCas =>
      let '(old, l') := cas_State l in
      Ok (goto (if LOCK_TAKEN =? old then SpCas else SpAssertFunction), l')
  | SpMonitor => (* _mm_monitor armed; then the compare-exchange *)
      let '(old, l') := cas_State l in
      Ok (goto (if LOCK_FREE =? old then SpAssertFunction else SpMwait), l')
  | SpMwait => Ok (goto SpMonitor, l)
  | SpTry =>
      let '(old, l') := cas_State l in
      Ok (goto (if LOCK_FREE =? old then SpAssertFunction else SpRestore), l')
  | SpAssertFunction => _ ← assert_ (0 =? FunctionWhichTookLock l); Ok (goto SpAssertHolder, l)
  | SpAssertHolder => _ ← assert_ (0 =? Holder l); Ok (goto SpSetHolder, l)
  | SpSetHolder => Ok (goto SpSetFunction, set_Holder self l)
  | SpSetFunction => Ok (goto SpAssertState, set_Function (caller self) l)
  | SpAssertState => _ ← assert_ (LOCK_TAKEN =? State l); Ok (goto SpHold, l)
  | SpHold => _ ← assert_ (self =? Holder l); Ok (goto SpRelAssert, l)
  | SpRelAssert => _ ← assert_ (negb (c_intr c)); Ok (goto SpClearHolder, l)
  | SpClearHolder => Ok (goto SpClearFunction, set_Holder 0 l)
  | SpClearFunction => Ok (goto SpFree, set_Function 0 l)
  | SpFree => Ok (goto SpRestore, set_State LOCK_FREE l)
  | SpRestore => (* CpuIntrSetState(IntrState) *)
      Ok (mkCpu SpOutside (c_try c) (c_saved c) (c_saved c), l)
  end.
End Exec.

Definition spin_exec := lock_exec false.
Definition monitor_exec := lock_exec true.

(** The implementation behind LockAcquire, LockTryAcquire and LockRelease. *)
Definition LockSystemInit (MonitorSupport : bool) :=
  if MonitorSupport then monitor_exec else spin_exec.

(** SpinlockIsOwner and MonitorLockIsOwner *)
Definition SpinlockIsOwner (self : Z) (l : SPINLOCK) : bool := self =? Holder l.
Definition MonitorLockIsOwner (self : Z) (l : SPINLOCK) : bool := self =? Holder l.

(** Processors outside the lock with the interrupt flags [intr]. *)
Definition lock_start (intr : list bool) : sys :=
  mkSys SpinlockInit ((fun b => mkCpu SpOutside false b b) <$> intr).

(** * The invariant *)
Definition taken (c : cpu) : bool :=
  match c_pc c with
  | SpAssertFunction | SpAssertHolder | SpSetHolder | SpSetFunction | SpAssertState | SpHold
  | SpRelAssert | SpClearHolder | SpClearFunction | SpFree => true
  | _ => false end.
Definition is_holder (c : cpu) : bool :=
  match c_pc c with
  | SpSetFunction | SpAssertState | SpHold | SpRelAssert | SpClearHolder => true | _ => false end.
Definition has_function (c : cpu) : bool :=
  match c_pc c with
  | SpAssertState | SpHold | SpRelAssert | SpClearHolder | SpClearFunction => true | _ => false end.

(** Interrupts are off from CpuIntrDisable to CpuIntrSetState, and the saved
    flag is the one the processor came with. *)
Definition intr_ok (b : bool) (c : cpu) : Prop :=
  match c_pc c with
  | SpOutside | SpDisable => c_intr c = b
  | _ => c_intr c = false /\ c_saved c = b
  end.

Record lock_inv (intr : list bool) (s : sys) : Prop := {
  li_state : State (shared s) = countp taken (pcs s);
  li_one : countp taken (pcs s) <= 1;
  li_holder : forall i c, pcs s !! i = Some c -> is_holder c = true -> Holder (shared s) = cpu_id i;
  li_no_holder : countp is_holder (pcs s) = 0 -> Holder (shared s) = 0;
  li_no_function : countp has_function (pcs s) = 0 -> FunctionWhichTookLock (shared s) = 0;
  li_intr : Forall2 intr_ok intr (pcs s)
}.

Lemma holder_taken c : is_holder c = true -> taken c = true.
Proof. unfold is_holder, taken. by destruct (c_pc c). Qed.
Lemma function_taken c : has_function c = true -> taken c = true.
Proof. unfold has_function, taken. by destruct (c_pc c). Qed.

Lemma lock_inv_start intr : lock_inv intr (lock_start intr).
Proof.
  assert (Hz : forall P : cpu -> bool, (forall b, P (mkCpu SpOutside false b b) = false) ->
    countp P ((fun b => mkCpu SpOutside false b b) <$> intr) = 0).
  { intros P HP. apply countp_0. intros c (b & -> & _)%list_elem_of_fmap. apply HP. }
  split; simpl; rewrite ?Hz by done; try done.
  - intros i c (b & -> & _)%list_lookup_fmap_Some. done.
  - apply Forall2_fmap_r. by apply Forall_Forall2_diag, Forall_true.
Qed.

Lemma sole_taker (s : @sys SPINLOCK cpu) i j c d : countp taken (pcs s) <= 1 -> pcs s !! i = Some c ->
  pcs s !! j = Some d -> taken c = true -> taken d = true -> i = j.
Proof.
  intros H1 Hi Hj Hc Hd. destruct (decide (i = j)) as [|Hne]; [done|].
  pose proof (countp_two taken _ _ _ _ _ Hne Hi Hj Hc Hd). lia.
Qed.

(** One access of processor [i] keeps the invariant when it accounts for the
    state word, writes Holder only for itself while it has the lock, and clears
    Holder and FunctionWhichTookLock before it gives them up. *)
Lemma lock_inv_update intr s i c c' l' :
  lock_inv intr s -> pcs s !! i = Some c ->
  State l' = State (shared s) - b2z (taken c) + b2z (taken c') ->
  (taken c' = true -> taken c = true \/ State (shared s) = 0) ->
  (Holder l' = Holder (shared s) \/ taken c = true) ->
  (is_holder c' = true -> Holder l' = cpu_id i) ->
  (is_holder c' = false -> Holder l' = 0 \/ (is_holder c = false /\ Holder l' = Holder (shared s))) ->
  (has_function c' = false -> FunctionWhichTookLock l' = 0 \/
     (has_function c = false /\ FunctionWhichTookLock l' = FunctionWhichTookLock (shared s))) ->
  (forall b, intr_ok b c -> intr_ok b c') ->
  lock_inv intr (mkSys l' (<[i := c']> (pcs s))).
Proof.
  intros [Hst H1 Hh Hnh Hnf Hin] Hi Est Htk Hho Hh1 Hh0 Hf0 Hint.
  pose proof (countp_range taken (pcs s)).
  split; cbn [pcs shared]; rewrite ?(countp_update _ _ _ c) by done.
  - lia.
  - destruct (taken c'), (taken c) eqn:Ec; simpl in *; lia.
  - intros j d Hj Hd. destruct (decide (i = j)) as [<-|Hne].
    + rewrite list_lookup_insert_eq in Hj by (by eapply lookup_lt_Some). simplify_eq. by apply Hh1.
    + rewrite list_lookup_insert_ne in Hj by done. destruct Hho as [->|Ht]; [by eapply Hh|].
      destruct Hne. eapply sole_taker; [exact H1|done|done|done|]. by apply holder_taken.
  - intros H0. destruct (is_holder c') eqn:E1.
    + pose proof (countp_pos is_holder (<[i:=c']> (pcs s)) i c'
        ltac:(apply list_lookup_insert_eq; by eapply lookup_lt_Some) E1) as Hp.
      rewrite (countp_update _ _ _ c) in Hp by done. rewrite E1 in Hp. simpl in *. lia.
    + destruct (Hh0 eq_refl) as [|[E2 ->]]; [done|]. apply Hnh. rewrite E2 in H0. simpl in H0. lia.
  - intros H0. destruct (has_function c') eqn:E1.
    + pose proof (countp_pos has_function (<[i:=c']> (pcs s)) i c'
        ltac:(apply list_lookup_insert_eq; by eapply lookup_lt_Some) E1) as Hp.
      rewrite (countp_update _ _ _ c) in Hp by done. rewrite E1 in Hp. simpl in *. lia.
    + destruct (Hf0 eq_refl) as [|[E2 ->]]; [done|]. apply Hnf. rewrite E2 in H0. simpl in H0. lia.
  - destruct (Forall2_lookup_r _ _ _ _ _ Hin Hi) as (b & Hb & Hok).
    rewrite <- (list_insert_id intr i b Hb). apply Forall2_insert; [done|by apply Hint].
Qed.

Lemma lock_free_words intr s i c : lock_inv intr s -> pcs s !! i = Some c -> taken c = true ->
  (is_holder c = false -> Holder (shared s) = 0) /\
  (has_function c = false -> FunctionWhichTookLock (shared s) = 0) /\ State (shared s) = 1.
Proof.
  intros [Hst H1 Hh Hnh Hnf Hin] Hi Ht.
  pose proof (countp_pos taken _ _ _ Hi Ht). pose proof (countp_range is_holder (pcs s)).
  pose proof (countp_range has_function (pcs s)). split_and!; [| |lia]; intros E.
  - apply Hnh. pose proof (countp_sub_lt is_holder taken _ _ _ holder_taken Hi E Ht). lia.
  - apply Hnf. pose proof (countp_sub_lt has_function taken _ _ _ function_taken Hi E Ht). lia.
Qed.

Lemma not_holder_self intr s i c : lock_inv intr s -> pcs s !! i = Some c ->
  is_holder c = false -> Holder (shared s) <> cpu_id i.
Proof.
  intros [Hst H1 Hh Hnh Hnf Hin] Hi Hc E. pose proof (countp_range is_holder (pcs s)).
  destruct (Z.eq_dec (countp is_holder (pcs s)) 0) as [E0|E0].
  - rewrite (Hnh E0) in E. unfold cpu_id in E. lia.
  - destruct (countp_exists is_holder (pcs s)) as (j & d & Hj & Hd); [lia|].
    rewrite (Hh j d Hj Hd) in E. unfold cpu_id in E. assert (i = j) by lia. subst. congruence.
Qed.

#[local] Arguments Z.eqb : simpl never.

(** A case of the step lemma: run the access, then account for the words. *)
Ltac lock_case Hinv Hi :=
  cbn [outcome_bind mbind assert_ negb]; eexists _, _; (split; [reflexivity|]);
  eapply (lock_inv_update _ _ _ _ _ _ Hinv Hi); cbn; unfold LOCK_FREE, LOCK_TAKEN in *;
  try lia; try done; try (by left); try (by right);
  try (intros; by left); try (intros; right; done);
  try (intros; destruct_and?; split; congruence); try (intros; destruct_and?; congruence); eauto.

Ltac lock_cas s Hst H1 HR :=
  unfold cas_State; destruct (Z.eqb_spec (State (shared s)) LOCK_FREE) as [E|E];
  [rewrite E; change (LOCK_FREE =? LOCK_FREE) with true; change (LOCK_TAKEN =? LOCK_FREE) with false
  |first [rewrite (proj2 (Z.eqb_neq LOCK_FREE (State (shared s)))) by (unfold LOCK_FREE in *; lia)
         |rewrite (proj2 (Z.eqb_eq LOCK_TAKEN (State (shared s)))) by (unfold LOCK_FREE, LOCK_TAKEN in *; lia)]].

Lemma lock_inv_step mon caller intr s i try_ c : lock_inv intr s -> pcs s !! i = Some c ->
  exists c' l', lock_exec mon caller (cpu_id i) try_ c (shared s) = Ok (c', l') /\
    lock_inv intr (mkSys l' (<[i := c']> (pcs s))).
Proof.
  intros Hinv Hi.
  pose proof (lock_free_words intr s i c Hinv Hi) as Hw.
  pose proof (not_holder_self intr s i c Hinv Hi) as Hself.
  pose proof (li_holder intr s Hinv i c Hi) as Hholds.
  pose proof (Forall2_lookup_r _ _ _ _ _ (li_intr intr s Hinv) Hi) as (b0 & _ & Hintr).
  pose proof (li_state intr s Hinv) as Hst. pose proof (li_one intr s Hinv) as H1.
  pose proof (countp_range taken (pcs s)) as HR.
  destruct c as [pc ctry cintr csaved]. unfold lock_exec. cbn [c_pc c_try c_intr c_saved].
  unfold at_pc. cbn [c_pc c_try c_intr c_saved].
  destruct pc; cbn in Hw, Hself, Hholds, Hintr.
  - lock_case Hinv Hi.
  - destruct ctry; lock_case Hinv Hi.
  - rewrite (proj2 (Z.eqb_neq _ _)) by (intros E; by destruct (Hself eq_refl)).
    destruct mon; lock_case Hinv Hi.
  - lock_cas s Hst H1 HR; lock_case Hinv Hi.
  - lock_cas s Hst H1 HR; lock_case Hinv Hi.
  - lock_case Hinv Hi.
  - lock_cas s Hst H1 HR; lock_case Hinv Hi.
  - destruct (Hw eq_refl) as (_ & Hf & _). rewrite (Hf eq_refl). lock_case Hinv Hi.
  - destruct (Hw eq_refl) as (Hh & _ & _). rewrite (Hh eq_refl). lock_case Hinv Hi.
  - destruct (Hw eq_refl) as (Hh & _ & _). lock_case Hinv Hi.
  - lock_case Hinv Hi.
  - destruct (Hw eq_refl) as (_ & _ & ->). lock_case Hinv Hi.
  - rewrite (Hholds eq_refl), Z.eqb_refl. lock_case Hinv Hi.
  - destruct Hintr as [-> _]. lock_case Hinv Hi.
  - lock_case Hinv Hi.
  - destruct (Hw eq_refl) as (Hh & _ & _). lock_case Hinv Hi.
  - destruct (Hw eq_refl) as (Hh & Hf & Hs1). lock_case Hinv Hi.
  - lock_case Hinv Hi.
Qed.

Lemma lock_reachable mon caller intr s :
  reachable (LockSystemInit mon caller) (lock_start intr) s ->
  lock_inv intr s /\ safe_state (LockSystemInit mon caller) s.
Proof.
  assert (E : LockSystemInit mon caller = lock_exec mon caller) by (by destruct mon). rewrite E.
  apply reachable_inv; [apply lock_inv_start|apply lock_inv_step].
Qed.

(** * Theorems *)

(** C13: For either lock implementation LockSystemInit selects and any number of
    processors, in every reachable interleaving no assertion of Acquire,
    TryAcquire or Release fails; at most one processor is in the critical section,
    it is the one IsOwner answers for, its interrupts are off, and a processor
    outside has its interrupt flag as it was before the call. *)
Theorem lock_mutual_exclusion mon caller intr s :
  reachable (LockSystemInit mon caller) (lock_start intr) s ->
  safe_state (LockSystemInit mon caller) s /\
  (forall i c, pcs s !! i = Some c -> c_pc c = SpHold ->
     c_intr c = false /\ SpinlockIsOwner (cpu_id i) (shared s) = true /\
     forall j d, pcs s !! j = Some d -> i <> j ->
       c_pc d <> SpHold /\ SpinlockIsOwner (cpu_id j) (shared s) = false) /\
  (forall i c b, pcs s !! i = Some c -> intr !! i = Some b -> c_pc c = SpOutside -> c_intr c = b).
Proof.
  intros Hr. destruct (lock_reachable mon caller intr s Hr) as [Hinv Hsafe]. split; [done|]. split.
  - intros i c Hi Hc. assert (Hh : is_holder c = true) by (unfold is_holder; by rewrite Hc).
    pose proof (li_holder intr s Hinv i c Hi Hh) as Eh.
    destruct (Forall2_lookup_r _ _ _ _ _ (li_intr intr s Hinv) Hi) as (b & _ & Hok).
    unfold intr_ok in Hok. rewrite Hc in Hok. destruct Hok as [Hoff _].
    unfold SpinlockIsOwner. rewrite Eh, Z.eqb_refl. split_and!; [done|done|].
    intros j d Hj Hne. split.
    + intros Hd. apply Hne. eapply sole_taker; [apply (li_one intr s Hinv)|done|done|by apply holder_taken|].
      unfold taken. by rewrite Hd.
    + apply Z.eqb_neq. unfold cpu_id. lia.
  - intros i c b Hi Hb Hc. destruct (Forall2_lookup_r _ _ _ _ _ (li_intr intr s Hinv) Hi) as (b' & Hb' & Hok).
    unfold intr_ok in Hok. rewrite Hc in Hok. by simplify_eq.
Qed.

Definition demo_lock_schedule : list (nat * bool) :=
  replicate 9 (0%nat, false) ++ replicate 4 (1%nat, true) ++ replicate 5 (2%nat, false).

Lemma lock_mutual_exclusion_witness :
  exists s, reachable (LockSystemInit true (fun _ => 0x1234)) (lock_start [true; true; false]) s /\
    (c_pc <$> pcs s) = [SpHold; SpOutside; SpMonitor] /\
    (forall i c, pcs s !! i = Some c -> c_pc c = SpHold ->
      c_intr c = false /\ SpinlockIsOwner (cpu_id i) (shared s) = true /\
      forall j d, pcs s !! j = Some d -> i <> j ->
        c_pc d <> SpHold /\ SpinlockIsOwner (cpu_id j) (shared s) = false).
Proof.
  destruct (run_schedule (LockSystemInit true (fun _ => 0x1234)) demo_lock_schedule
    (lock_start [true; true; false])) as [[s|]|] eqn:E; [|by vm_compute in E|by vm_compute in E].
  assert (Hr : reachable (LockSystemInit true (fun _ => 0x1234)) (lock_start [true; true; false]) s).
  { eapply run_schedule_reachable; [apply reach_refl|exact E]. }
  exists s. split; [exact Hr|]. split.
  - vm_compute in E. injection E as <-. reflexivity.
  - apply (lock_mutual_exclusion true (fun _ => 0x1234) [true; true; false] s Hr).
Defined.
