(* ===== verification/RefCnt.v ===== *)
(** CommonLib/src/ref_cnt.c: reference-counted objects, used by any number of
    processors.  A processor calls RfcReference and RfcDereference only through a
    reference it holds; references are handed over by storing them in shared
    structures.  An assertion on the value an interlocked access returned is
    evaluated with that access. *)
From S2P Require Import Prelude IntUtils Interleave.

Record REF_COUNT := mkREF_COUNT { ReferenceCount : Z; FreeFunction : Z; Context_ : Z }.

(** The object, the calls of its free function so far as (function, context),
    and the number of references stored in shared structures. *)
Record rf_state := mkRf { rf_object : REF_COUNT; rf_calls : list (Z * Z); rf_stored : Z }.

Definition set_count (n : Z) (s : rf_state) : rf_state :=
  mkRf (mkREF_COUNT n (FreeFunction (rf_object s)) (Context_ (rf_object s))) (rf_calls s) (rf_stored s).
Definition set_stored (n : Z) (s : rf_state) : rf_state := mkRf (rf_object s) (rf_calls s) n.

Definition RfcPreInit : REF_COUNT := mkREF_COUNT 0 0 0.

Definition RfcInit (ObjectIsNull : bool) (Free Ctx : Z) (Object : REF_COUNT) : Z * REF_COUNT :=
  if ObjectIsNull then (STATUS_INVALID_PARAMETER1, Object)
  else (STATUS_SUCCESS, mkREF_COUNT 1 Free Ctx).

(** _InterlockedIncrement / _InterlockedDecrement of the ReferenceCount *)
Definition interlocked_add (d : Z) : M rf_state Z := fun s =>
  let n := u32 (ReferenceCount (rf_object s) + d) in Ok (n, set_count n s).

Definition RfcReference : M rf_state Z :=
  newRefCount ← interlocked_add 1;
  _ ← ASSERT (newRefCount <? MAX_DWORD);
  _ ← ASSERT (1 <=? newRefCount);
  ret newRefCount.

(** RfcDereference up to the test of the new count. *)
Definition RfcDecrement : M rf_state Z :=
  newRefCount ← interlocked_add (-1);
  _ ← ASSERT (negb (MAX_DWORD =? newRefCount));
  ret newRefCount.

(** The call of the free function. *)
Definition RfcFree : M rf_state unit :=
  Free ← gets (fun s => FreeFunction (rf_object s));
  Ctx ← gets (fun s => Context_ (rf_object s));
  if negb (0 =? Free)
  then modify (fun s => mkRf (rf_object s) (rf_calls s ++ [(Free, Ctx)]) (rf_stored s))
  else ret tt.

Definition RfcDereference : M rf_state Z :=
  newRefCount ← RfcDecrement;
  _ ← (if 0 =? newRefCount then RfcFree else ret tt);
  ret newRefCount.

(** * Processors *)
Inductive rf_choice : Set := DoReference | DoDereference | DoStore | DoTake.

(** References a processor holds, and whether it is in RfcDereference before the
    call of the free function. *)
Record rf_cpu := mkRfCpu { held : Z; freeing : bool }.

Definition rf_exec (cpu : Z) (choice : rf_choice) (pc : rf_cpu) (s : rf_state)
    : outcome (rf_cpu * rf_state) :=
  if freeing pc then '(_, s') ← RfcFree s; Ok (mkRfCpu (held pc) false, s')
  else if choice is DoTake then
    if 0 <? rf_stored s then Ok (mkRfCpu (held pc + 1) false, set_stored (rf_stored s - 1) s)
    else Ok (pc, s)
  else if held pc <=? 0 then Ok (pc, s) else
  match choice with
  | DoReference => '(_, s') ← RfcReference s; Ok (mkRfCpu (held pc + 1) false, s')
  | DoDereference => '(n, s') ← RfcDecrement s; Ok (mkRfCpu (held pc - 1) (0 =? n), s')
  | _ => Ok (mkRfCpu (held pc - 1) false, set_stored (rf_stored s + 1) s)
  end.

(** After RfcInit the creator holds the only reference; [n] other processors
    hold none. *)
Definition rf_start (Free Ctx : Z) (n : nat) : sys :=
  mkSys (mkRf (snd (RfcInit false Free Ctx RfcPreInit)) [] 0)
    (mkRfCpu 1 false :: replicate n (mkRfCpu 0 false)).

(** References in circulation. *)
Definition references (s : @sys rf_state rf_cpu) : Z := sumf held (pcs s) + rf_stored (shared s).

(** * The invariant *)
Record rf_inv (Free Ctx : Z) (s : sys) : Prop := {
  ri_fields : FreeFunction (rf_object (shared s)) = Free /\ Context_ (rf_object (shared s)) = Ctx;
  ri_held : Forall (fun pc => 0 <= held pc) (pcs s);
  ri_stored : 0 <= rf_stored (shared s);
  ri_count : ReferenceCount (rf_object (shared s)) = references s;
  ri_max : references s < MAX_DWORD;
  ri_live : 0 < references s -> countp freeing (pcs s) = 0 /\ rf_calls (shared s) = [];
  ri_dead : references s = 0 ->
    (countp freeing (pcs s) = 1 /\ rf_calls (shared s) = []) \/
    (countp freeing (pcs s) = 0 /\ rf_calls (shared s) = if 0 =? Free then [] else [(Free, Ctx)])
}.

Lemma rf_inv_start Free Ctx n : rf_inv Free Ctx (rf_start Free Ctx n).
Proof.
  assert (Hs : sumf held (replicate n (mkRfCpu 0 false)) = 0).
  { apply sumf_0. intros pc [-> _]%elem_of_replicate. done. }
  assert (Er : references (rf_start Free Ctx n) = 1) by (unfold references; simpl; lia).
  split; rewrite ?Er; simpl; try done; try lia.
  - constructor; [simpl; lia|]. apply Forall_replicate. simpl. lia.
  - rewrite countp_replicate. simpl. split; [lia|done].
Qed.

(** An access of a processor that is not freeing and leaves the calls alone. *)
Lemma rf_inv_update Free Ctx s i pc pc' l' :
  rf_inv Free Ctx s -> pcs s !! i = Some pc -> freeing pc = false ->
  FreeFunction (rf_object l') = FreeFunction (rf_object (shared s)) ->
  Context_ (rf_object l') = Context_ (rf_object (shared s)) ->
  rf_calls l' = rf_calls (shared s) -> 0 <= held pc' -> 0 <= rf_stored l' ->
  let d := held pc' - held pc + (rf_stored l' - rf_stored (shared s)) in
  ReferenceCount (rf_object l') = ReferenceCount (rf_object (shared s)) + d ->
  references s + d < MAX_DWORD ->
  (d <> 0 -> 0 < references s) -> 0 <= references s + d ->
  freeing pc' = (negb (d =? 0) && (references s + d =? 0)) ->
  rf_inv Free Ctx (mkSys l' (<[i := pc']> (pcs s))).
Proof.
  intros [Hf Hh Hs Hc Hm Hl Hd] Hi Hfr Ef Ec Ecalls Hh' Hs' d Ecount Hmax Hpos Hge Efr.
  assert (Er : references (mkSys l' (<[i := pc']> (pcs s))) = references s + d).
  { unfold references, d. cbn [pcs shared]. rewrite (sumf_update _ _ _ _ _ Hi). lia. }
  split; rewrite ?Er; cbn [pcs shared]; rewrite ?(countp_update _ _ _ _ _ Hi), ?Hfr, ?Ecalls.
  - by rewrite Ef, Ec.
  - by apply Forall_insert.
  - done.
  - lia.
  - done.
  - intros H. rewrite Efr. destruct (Z.eqb_spec (references s + d) 0); [lia|].
    rewrite andb_false_r. simpl. destruct Hl as [H0 H1]; [|split; [lia|done]].
    destruct (Z.eq_dec d 0); [lia|by apply Hpos].
  - intros H. rewrite Efr, H. destruct (Z.eqb_spec d 0) as [E|E]; simpl.
    + destruct Hd as [[? ?]|[? ?]]; [lia|left|right]; split; try done; lia.
    + left. destruct Hl as [H0 H1]; [by apply Hpos|]. split; [lia|done].
Qed.

Lemma rf_inv_free Free Ctx s i pc cpu s' :
  rf_inv Free Ctx s -> pcs s !! i = Some pc -> freeing pc = true ->
  rf_exec cpu DoTake pc (shared s) = Ok (mkRfCpu (held pc) false, s') ->
  rf_inv Free Ctx (mkSys s' (<[i := mkRfCpu (held pc) false]> (pcs s))).
Proof.
  intros [[Hf Hx] Hh Hs Hc Hm Hl Hd] Hi Hfr E. unfold rf_exec in E. rewrite Hfr in E.
  cbv [RfcFree gets mbind M_bind outcome_bind modify ret] in E. rewrite Hf, Hx in E.
  pose proof (countp_pos freeing _ _ _ Hi Hfr) as Hpos.
  assert (Hr0 : references s = 0).
  { pose proof (sumf_nonneg held (pcs s) Hh).
    destruct (Z.eq_dec (references s) 0); [done|]. unfold references in *. destruct Hl; lia. }
  destruct (Hd Hr0) as [[H1 H2]|[H1 H2]]; [|lia].
  set (sys' := mkSys s' _). assert (E' : s' = if negb (0 =? Free)
    then mkRf (rf_object (shared s)) [(Free, Ctx)] (rf_stored (shared s)) else shared s).
  { destruct (0 =? Free); simpl in E; injection E as <-; [done|]. by rewrite H2. }
  assert (Eo : rf_object s' = rf_object (shared s)) by (rewrite E'; by destruct (0 =? Free)).
  assert (Es : rf_stored s' = rf_stored (shared s)) by (rewrite E'; by destruct (0 =? Free)).
  assert (Er : references sys' = 0).
  { unfold references, sys' in *. cbn [pcs shared]. rewrite (sumf_update _ _ _ _ _ Hi), Es. simpl. lia. }
  split; rewrite ?Er; unfold sys'; cbn [pcs shared]; rewrite ?Eo, ?Es; try done; try lia.
  - apply Forall_insert; [done|]. simpl. by apply (Forall_lookup_1 _ _ _ _ Hh Hi).
  - intros _. right. rewrite (countp_update _ _ _ _ _ Hi), Hfr, H1. cbn [b2z freeing]. split; [lia|].
    rewrite E'. destruct (0 =? Free); [exact H2|done].
Qed.

Lemma rf_count_range Free Ctx s : rf_inv Free Ctx s -> 0 <= references s.
Proof.
  intros H. pose proof (sumf_nonneg held (pcs s) (ri_held _ _ _ H)).
  pose proof (ri_stored _ _ _ H). unfold references. lia.
Qed.

Lemma rf_held_references Free Ctx s i pc : rf_inv Free Ctx s -> pcs s !! i = Some pc ->
  held pc <= references s.
Proof.
  intros H Hi. pose proof (sumf_ge held (pcs s) _ _ (ri_held _ _ _ H) Hi).
  pose proof (ri_stored _ _ _ H). unfold references. lia.
Qed.

(** What RfcReference and RfcDecrement do to a live object. *)
Lemma RfcReference_run s n : ReferenceCount (rf_object s) = n -> 0 <= n < MAX_DWORD ->
  RfcReference s = if n + 1 =? MAX_DWORD then Err AssertFailed else Ok (n + 1, set_count (n + 1) s).
Proof.
  intros E Hn. unfold RfcReference, interlocked_add, mbind, M_bind. rewrite E.
  rewrite (u32_small (n + 1)) by rlia. unfold ASSERT, lift, assert_.
  destruct (Z.ltb_spec (n + 1) MAX_DWORD), (Z.eqb_spec (n + 1) MAX_DWORD); try lia; [|done].
  destruct (Z.leb_spec 1 (n + 1)); [done|lia].
Qed.

Lemma RfcDecrement_run s n : ReferenceCount (rf_object s) = n -> 0 < n < MAX_DWORD ->
  RfcDecrement s = Ok (n - 1, set_count (n - 1) s).
Proof.
  intros E Hn. unfold RfcDecrement, interlocked_add, mbind, M_bind. rewrite E.
  change (n + -1) with (n - 1). rewrite (u32_small (n - 1)) by rlia.
  unfold ASSERT, lift, assert_. destruct (Z.eqb_spec MAX_DWORD (n - 1)); [lia|done].
Qed.

Lemma RfcFree_run s : exists s', RfcFree s = Ok (tt, s').
Proof. unfold RfcFree, mbind, M_bind, gets. destruct (negb _); eexists; reflexivity. Qed.

#[local] Arguments Z.eqb : simpl never.

Lemma rf_inv_step Free Ctx s i choice pc pc' l' :
  rf_inv Free Ctx s -> pcs s !! i = Some pc ->
  rf_exec (cpu_id i) choice pc (shared s) = Ok (pc', l') ->
  rf_inv Free Ctx (mkSys l' (<[i := pc']> (pcs s))).
Proof.
  intros Hinv Hi E. destruct (freeing pc) eqn:Hfr.
  { destruct (RfcFree_run (shared s)) as [s' Es]. assert (E2 := E). unfold rf_exec in E2.
    rewrite Hfr, Es in E2. cbn in E2. injection E2 as <- <-.
    apply (rf_inv_free _ _ _ _ _ (cpu_id i) _ Hinv Hi Hfr). unfold rf_exec. rewrite Hfr, Es. done. }
  pose proof (rf_count_range _ _ _ Hinv). pose proof (rf_held_references _ _ _ _ _ Hinv Hi).
  pose proof (ri_count _ _ _ Hinv) as Ec. pose proof (ri_max _ _ _ Hinv).
  pose proof (ri_stored _ _ _ Hinv). pose proof (Forall_lookup_1 _ _ _ _ (ri_held _ _ _ Hinv) Hi) as Hh.
  simpl in Hh. unfold rf_exec in E. rewrite Hfr in E.
  assert (Hsame : rf_inv Free Ctx (mkSys (shared s) (<[i := pc]> (pcs s)))).
  { rewrite list_insert_id by done. by destruct s. }
  destruct choice; [| | |destruct (Z.ltb_spec 0 (rf_stored (shared s)))];
    try (destruct (Z.leb_spec (held pc) 0); [by simplify_eq|]).
  - rewrite (RfcReference_run (shared s) (references s)) in E by (done || lia).
    destruct (Z.eqb_spec (references s + 1) MAX_DWORD); [done|]. cbn in E. simplify_eq.
    apply (rf_inv_update _ _ _ _ _ _ _ Hinv Hi Hfr); cbn; try done; lia.
  - rewrite (RfcDecrement_run (shared s) (references s)) in E by (done || lia). cbn in E. simplify_eq.
    apply (rf_inv_update _ _ _ _ _ _ _ Hinv Hi Hfr); cbn; try done; lia.
  - cbn in E. simplify_eq.
    apply (rf_inv_update _ _ _ _ _ _ _ Hinv Hi Hfr); cbn; try done; lia.
  - cbn in E. simplify_eq.
    apply (rf_inv_update _ _ _ _ _ _ _ Hinv Hi Hfr); cbn; try done; lia.
  - by simplify_eq.
Qed.

Lemma rf_reachable Free Ctx n s :
  reachable rf_exec (rf_start Free Ctx n) s -> rf_inv Free Ctx s.
Proof. apply reachable_preserved; [apply rf_inv_start|intros; by eapply rf_inv_step]. Qed.

(** * Theorems *)

(** C12: In every reachable interleaving ReferenceCount is the number of references
    in circulation; the free function is called at most once, with the context given
    to RfcInit, and only when no processor holds a reference and none is stored; once the last
    reference is gone and RfcDereference has returned, it has been called exactly once if
    there is one.  The only assertion that can fail is the one on the largest
    reference count. *)
Theorem refcount_lifetime Free Ctx n s :
  reachable rf_exec (rf_start Free Ctx n) s ->
  ReferenceCount (rf_object (shared s)) = references s /\
  (rf_calls (shared s) = [] \/
   rf_calls (shared s) = [(Free, Ctx)] /\ references s = 0 /\
   forall i pc, pcs s !! i = Some pc -> held pc = 0 /\ freeing pc = false) /\
  (references s = 0 -> Free <> 0 -> countp freeing (pcs s) = 0 -> rf_calls (shared s) = [(Free, Ctx)]) /\
  (forall i choice pc, pcs s !! i = Some pc ->
     (exists pc' l', rf_exec (cpu_id i) choice pc (shared s) = Ok (pc', l')) \/
     (choice = DoReference /\ references s = MAX_DWORD - 1)).
Proof.
  intros Hr. pose proof (rf_reachable _ _ _ _ Hr) as Hinv.
  pose proof (rf_count_range _ _ _ Hinv) as Hge.
  split_and!; [by apply (ri_count _ _ _ Hinv)| | |].
  - destruct (Z.eq_dec (references s) 0) as [E|E]; [|left; apply (ri_live _ _ _ Hinv); lia].
    destruct (ri_dead _ _ _ Hinv E) as [[_ ?]|[H0 H1]]; [by left|].
    destruct (0 =? Free); [by left|right]. split_and!; [done|done|]. intros i pc Hi.
    pose proof (rf_held_references _ _ _ _ _ Hinv Hi).
    pose proof (Forall_lookup_1 _ _ _ _ (ri_held _ _ _ Hinv) Hi). simpl in *. split; [lia|].
    destruct (freeing pc) eqn:Ef; [|done]. pose proof (countp_pos _ _ _ _ Hi Ef). lia.
  - intros E Hf H0. destruct (ri_dead _ _ _ Hinv E) as [[? _]|[_ ->]]; [lia|].
    by rewrite (proj2 (Z.eqb_neq 0 Free)) by lia.
  - intros i choice pc Hi. pose proof (rf_held_references _ _ _ _ _ Hinv Hi).
    pose proof (ri_count _ _ _ Hinv). pose proof (ri_max _ _ _ Hinv).
    unfold rf_exec. destruct (freeing pc).
    { left. destruct (RfcFree_run (shared s)) as [s' ->]. eexists _, _. reflexivity. }
    destruct choice; [| | |destruct (0 <? rf_stored _); left; eexists _, _; reflexivity];
      (destruct (Z.leb_spec (held pc) 0); [left; eexists _, _; reflexivity|]).
    + rewrite (RfcReference_run _ (references s)) by (done || lia).
      destruct (Z.eqb_spec (references s + 1) MAX_DWORD); [right; split; [done|lia]|].
      left. eexists _, _. reflexivity.
    + rewrite (RfcDecrement_run _ (references s)) by (done || lia). left. eexists _, _. reflexivity.
    + left. eexists _, _. reflexivity.
Qed.

(** The creator takes a second reference, stores it, drops its own; another
    processor takes the stored one and drops it, which frees the object. *)
Definition demo_rf_schedule : list (nat * rf_choice) :=
  [(0%nat, DoReference); (0%nat, DoStore); (1%nat, DoTake); (0%nat, DoDereference);
   (1%nat, DoDereference); (1%nat, DoDereference)].

Lemma refcount_lifetime_witness :
  exists s, reachable rf_exec (rf_start 0x1000 0x2000 2) s /\
    rf_calls (shared s) = [(0x1000, 0x2000)] /\ ReferenceCount (rf_object (shared s)) = references s.
Proof.
  destruct (run_schedule rf_exec demo_rf_schedule (rf_start 0x1000 0x2000 2)) as [[s|]|] eqn:E;
    [|by vm_compute in E|by vm_compute in E].
  assert (Hr : reachable rf_exec (rf_start 0x1000 0x2000 2) s).
  { eapply run_schedule_reachable; [apply reach_refl|exact E]. }
  exists s. split; [exact Hr|]. split.
  - vm_compute in E. injection E as <-. reflexivity.
  - apply (refcount_lifetime 0x1000 0x2000 2 s Hr).
Defined.
