(* ===== verification/Event.v ===== *)
(** CommonLib/src/event.c: busy-waiting events, signalled, cleared and waited for
    by any number of processors. *)
From S2P Require Import Prelude IntUtils Interleave.

Definition EVENT_STATE_NOT_SIGNALED : Z := 0.
Definition EVENT_STATE_SIGNALED : Z := 1.

Inductive EVENT_TYPE : Set := EventTypeNotification | EventTypeSynchronization | EventTypeReserved.
#[global] Instance EVENT_TYPE_eq_dec : EqDecision EVENT_TYPE.
Proof. solve_decision. Defined.

Record EVENT := mkEVENT { ev_State : Z; EventType : EVENT_TYPE }.

Definition EvtInitialize (EventIsNull : bool) (Type_ : EVENT_TYPE) (Signaled : bool) (Event : EVENT)
    : Z * EVENT :=
  if EventIsNull then (STATUS_INVALID_PARAMETER1, Event) else
  if bool_decide (Type_ = EventTypeReserved) then (STATUS_INVALID_PARAMETER2, Event) else
  let eventState := if Signaled then EVENT_STATE_SIGNALED else EVENT_STATE_NOT_SIGNALED in
  (STATUS_SUCCESS, mkEVENT eventState Type_).

Definition EvtSignal (e : EVENT) : EVENT := mkEVENT EVENT_STATE_SIGNALED (EventType e).
Definition EvtClearSignal (e : EVENT) : EVENT := mkEVENT EVENT_STATE_NOT_SIGNALED (EventType e).

Definition exchangeValue (e : EVENT) : Z :=
  if bool_decide (EventType e = EventTypeNotification)
  then EVENT_STATE_SIGNALED else EVENT_STATE_NOT_SIGNALED.

(** EvtIsSignaled; its compare-exchange is also one turn of the loop of
    EvtWaitForSignal, which ends when it answers TRUE. *)
Definition EvtIsSignaled (e : EVENT) : bool * EVENT :=
  (ev_State e =? EVENT_STATE_SIGNALED,
   if ev_State e =? EVENT_STATE_SIGNALED then mkEVENT (exchangeValue e) (EventType e) else e).

(** * Processors *)
Inductive ev_choice : Set := DoSignal | DoClear | DoWait | DoPoll.
Inductive ev_pc : Set := EvOutside | EvWaiting | EvReturned.

(** The event, with the number of signals sent and of acknowledgements: waits
    that returned and polls that answered TRUE. *)
Record ev_state := mkEv { ev_event : EVENT; ev_signals : Z; ev_acks : Z }.

Definition ev_poll (s : ev_state) : bool * ev_state :=
  let '(b, e) := EvtIsSignaled (ev_event s) in (b, mkEv e (ev_signals s) (ev_acks s + b2z b)).

Definition ev_exec (cpu : Z) (choice : ev_choice) (pc : ev_pc) (s : ev_state)
    : outcome (ev_pc * ev_state) :=
  match pc with
  | EvWaiting => (* while (SIGNALED != CompareExchange(...)) *)
      let '(b, s') := ev_poll s in Ok (if b then EvReturned else EvWaiting, s')
  | _ =>
      match choice with
      | DoSignal => Ok (EvOutside, mkEv (EvtSignal (ev_event s)) (ev_signals s + 1) (ev_acks s))
      | DoClear => Ok (EvOutside, mkEv (EvtClearSignal (ev_event s)) (ev_signals s) (ev_acks s))
      | DoWait => Ok (EvWaiting, s)
      | DoPoll => let '(_, s') := ev_poll s in Ok (EvOutside, s')
      end
  end.

Definition ev_start (Type_ : EVENT_TYPE) (Signaled : bool) (n : nat) : sys :=
  mkSys (mkEv (snd (EvtInitialize false Type_ Signaled (mkEVENT 0 EventTypeReserved))) 0 0)
    (replicate n EvOutside).

Definition returned (pc : ev_pc) : bool := if pc is EvReturned then true else false.

(** * The invariant *)
Record ev_inv (Type_ : EVENT_TYPE) (Signaled : bool) (s : @sys ev_state ev_pc) : Prop := {
  ei_type : EventType (ev_event (shared s)) = Type_;
  ei_bit : ev_State (ev_event (shared s)) = 0 \/ ev_State (ev_event (shared s)) = 1;
  ei_sync : Type_ = EventTypeSynchronization ->
    ev_acks (shared s) + ev_State (ev_event (shared s)) <= b2z Signaled + ev_signals (shared s);
  ei_none : b2z Signaled + ev_signals (shared s) = 0 ->
    ev_State (ev_event (shared s)) = 0 /\ ev_acks (shared s) = 0;
  ei_pos : 0 <= ev_signals (shared s);
  ei_returned : countp returned (pcs s) <= ev_acks (shared s)
}.

(** A compare-exchange takes the event from a synchronisation event and leaves
    it in a notification event. *)
Lemma ev_poll_run s : ev_State (ev_event s) = 0 \/ ev_State (ev_event s) = 1 ->
  ev_poll s = (ev_State (ev_event s) =? 1,
    mkEv (mkEVENT (if bool_decide (EventType (ev_event s) = EventTypeNotification)
                   then ev_State (ev_event s) else 0) (EventType (ev_event s)))
      (ev_signals s) (ev_acks s + ev_State (ev_event s))).
Proof.
  intros Hb. unfold ev_poll, EvtIsSignaled, exchangeValue. destruct s as [[st ty] sg ak].
  unfold EVENT_STATE_SIGNALED, EVENT_STATE_NOT_SIGNALED. simpl in *.
  destruct Hb as [-> | ->]; simpl; [|done]. by case_bool_decide.
Qed.

(** One access of processor [i], as the changes it makes to the words. *)
Lemma ev_inv_update Type_ Signaled s i pc pc' l' :
  ev_inv Type_ Signaled s -> pcs s !! i = Some pc -> EventType (ev_event l') = Type_ ->
  (ev_State (ev_event l') = 0 \/ ev_State (ev_event l') = 1) ->
  ev_signals (shared s) <= ev_signals l' -> ev_acks (shared s) <= ev_acks l' ->
  (Type_ = EventTypeSynchronization ->
     ev_acks l' + ev_State (ev_event l') - ev_signals l' <=
     ev_acks (shared s) + ev_State (ev_event (shared s)) - ev_signals (shared s)) ->
  (ev_signals l' = ev_signals (shared s) -> ev_State (ev_event (shared s)) = 0 ->
     ev_State (ev_event l') = 0 /\ ev_acks l' = ev_acks (shared s)) ->
  b2z (returned pc') <= ev_acks l' - ev_acks (shared s) ->
  ev_inv Type_ Signaled (mkSys l' (<[i := pc']> (pcs s))).
Proof.
  intros [Ht Hb Hs Hn Hp Hret] Hi Et Eb Esg Eak Esync Enone Eret.
  assert (Hsg : 0 <= b2z Signaled) by (by destruct Signaled).
  split; cbn [shared pcs]; try done; [| |lia|].
  - intros E. specialize (Hs E). specialize (Esync E). lia.
  - intros E. destruct (Hn ltac:(lia)) as [E0 E1]. destruct (Enone ltac:(lia) E0). lia.
  - rewrite (countp_update _ _ _ _ _ Hi). assert (0 <= b2z (returned pc)) by (by destruct pc). lia.
Qed.

Lemma ev_reachable Type_ Signaled n s : Type_ <> EventTypeReserved ->
  reachable ev_exec (ev_start Type_ Signaled n) s ->
  ev_inv Type_ Signaled s /\ safe_state ev_exec s.
Proof.
  intros Hr. apply reachable_inv.
  - unfold ev_start, EvtInitialize. rewrite bool_decide_eq_false_2 by done.
    split; cbn [shared pcs]; rewrite ?countp_replicate; destruct Signaled; simpl; try done;
      try lia; by (left + right).
  - intros s1 i choice pc Hinv Hi. pose proof (ei_type _ _ _ Hinv) as Ht.
    pose proof (ei_bit _ _ _ Hinv) as Hb.
    unfold ev_exec, EvtSignal, EvtClearSignal, EVENT_STATE_SIGNALED, EVENT_STATE_NOT_SIGNALED. rewrite (ev_poll_run _ Hb).
    destruct pc; [destruct choice| |destruct choice]; eexists _, _; (split; [reflexivity|]);
      (eapply (ev_inv_update _ _ _ _ _ _ _ Hinv Hi); cbn; try done; try lia);
      rewrite ?Ht; repeat case_bool_decide; try (by left); try done; try lia;
      destruct Hb as [Hb|Hb]; rewrite ?Hb in *; simpl; try lia; try done; intros; try lia; congruence.
Qed.

(** * Theorems *)

(** EvtInitialize accepts the two event types and refuses a NULL event or another type.
    Of a synchronisation event every signal (counting an initially signalled state) is
    acknowledged at most once (by a wait that returned or a poll that answered TRUE), and of
    neither type before one was sent; of a notification event a wait
    or poll leaves the signal, so that every waiter passes until it is cleared.  A waiter that
    finds the event signalled returns with its next access, one that does not keeps waiting. *)
Theorem event_acknowledgements Type_ Signaled n s : Type_ <> EventTypeReserved ->
  reachable ev_exec (ev_start Type_ Signaled n) s ->
  EvtInitialize false Type_ Signaled (mkEVENT 0 EventTypeReserved) =
    (STATUS_SUCCESS, mkEVENT (b2z Signaled) Type_) /\
  safe_state ev_exec s /\
  countp returned (pcs s) <= ev_acks (shared s) /\
  (Type_ = EventTypeSynchronization -> ev_acks (shared s) <= b2z Signaled + ev_signals (shared s)) /\
  (b2z Signaled + ev_signals (shared s) = 0 -> ev_acks (shared s) = 0) /\
  (forall i choice, pcs s !! i = Some EvWaiting -> exists s',
     ev_exec (cpu_id i) choice EvWaiting (shared s) =
       Ok (if ev_State (ev_event (shared s)) =? EVENT_STATE_SIGNALED then EvReturned else EvWaiting, s') /\
     ev_State (ev_event s') =
       if bool_decide (Type_ = EventTypeNotification) then ev_State (ev_event (shared s))
       else EVENT_STATE_NOT_SIGNALED).
Proof.
  intros Hr Hreach. destruct (ev_reachable _ _ _ _ Hr Hreach) as [[Ht Hb Hs Hn Hp Hret] Hsafe].
  split_and!; [|done|done| | |].
  - unfold EvtInitialize. rewrite bool_decide_eq_false_2 by done. by destruct Signaled.
  - intros E. specialize (Hs E). lia.
  - intros E. apply Hn, E.
  - intros i choice Hi. unfold ev_exec. rewrite (ev_poll_run _ Hb), Ht.
    unfold EVENT_STATE_SIGNALED. eexists. split; [reflexivity|]. simpl. done.
Qed.

Lemma event_acknowledgements_witness :
  exists s, reachable ev_exec (ev_start EventTypeSynchronization false 3) s /\
    pcs s = [EvOutside; EvReturned; EvWaiting] /\
    ev_acks (shared s) <= b2z false + ev_signals (shared s).
Proof.
  destruct (run_schedule ev_exec [(1%nat, DoWait); (2%nat, DoWait); (1%nat, DoWait); (0%nat, DoSignal);
    (1%nat, DoWait); (2%nat, DoWait)] (ev_start EventTypeSynchronization false 3)) as [[s|]|] eqn:E;
    [|by vm_compute in E|by vm_compute in E].
  assert (Hr : reachable ev_exec (ev_start EventTypeSynchronization false 3) s).
  { eapply run_schedule_reachable; [apply reach_refl|exact E]. }
  exists s. split; [exact Hr|]. split.
  - vm_compute in E. injection E as <-. reflexivity.
  - apply (event_acknowledgements EventTypeSynchronization false 3 s); [discriminate|exact Hr|reflexivity].
Defined.
