(* ===== verification/CheckinQueue.v ===== *)
(** CommonLib/src/checkin_queue.c: processors mark their arrival in an array of
    slots and others spin until enough slots are marked.  Interrupt masking in
    CheckinQueueWaitOn is local to a processor and does not take part. *)
From S2P Require Import Prelude IntUtils Interleave.

Record CHECKIN_QUEUE := mkCQ { Array_ : list bool; NumberOfThreads : Z; BufferSize : Z }.

Definition CheckinQueuePreInit (Threads : Z) : outcome (Z * CHECKIN_QUEUE) :=
  _ ← assert_ (0 <? Threads);
  let size := u32 (Threads * 1) in
  Ok (size, mkCQ [] Threads size).

(** The buffer is the array's memory; memset writes its first NumberOfThreads
    bytes, which must exist. *)
Definition CheckinQueueInit (Queue : CHECKIN_QUEUE) (QueueBuffer : list bool) : outcome CHECKIN_QUEUE :=
  _ ← assert_ (0 <? NumberOfThreads Queue);
  if Z.of_nat (length QueueBuffer) <? NumberOfThreads Queue then Err MemFault else
  let n := Z.to_nat (NumberOfThreads Queue) in
  Ok (mkCQ (replicate n false ++ drop n QueueBuffer) (NumberOfThreads Queue) (BufferSize Queue)).

Definition CheckinQueueUninit : CHECKIN_QUEUE := mkCQ [] 0 0.

(** * Processors *)
Inductive cq_choice : Set := DoMark | DoWaitOn (WaitAll : bool) (NumberOfCheckinsToWait : Z).

Inductive cq_pc : Set :=
| CqOutside
| CqMark (i : Z)                               (* CheckinQueueMarkPresence, at slot i *)
| CqMarked                                     (* it returned *)
| CqWait (numberOfThreads i : Z) (semaphoreGreen : bool)  (* CheckinQueueWaitOn, at slot i *)
| CqGo (numberOfThreads : Z).                  (* it returned *)

(** The queue and the number of calls of CheckinQueueMarkPresence that
    have marked a slot or found none free. *)
Record cq_state := mkCqs { cq_queue : CHECKIN_QUEUE; cq_arrived : Z }.

Definition set_slot (i : Z) (q : CHECKIN_QUEUE) : outcome CHECKIN_QUEUE :=
  a ← of_option (zset (Array_ q) i true); Ok (mkCQ a (NumberOfThreads q) (BufferSize q)).

Definition cq_exec (cpu : Z) (choice : cq_choice) (pc : cq_pc) (s : cq_state)
    : outcome (cq_pc * cq_state) :=
  let q := cq_queue s in
  match pc with
  | CqMark i =>
      if i <? NumberOfThreads q then
        taken ← of_option (zget (Array_ q) i);
        if negb taken then q' ← set_slot i q; Ok (CqMarked, mkCqs q' (cq_arrived s + 1))
        else Ok (CqMark (u32 (i + 1)), s)
      else Ok (CqMarked, mkCqs q (cq_arrived s + 1))
  | CqWait n i green =>
      if i <? n then
        marked ← of_option (zget (Array_ q) i);
        Ok (CqWait n (u32 (i + 1)) (if negb marked then false else green), s)
      else Ok (if green then CqGo n else CqWait n 0 true, s)
  | _ =>
      _ ← assert_ (0 <? NumberOfThreads q);
      match choice with
      | DoMark => Ok (CqMark 0, s)
      | DoWaitOn WaitAll m => Ok (CqWait (if WaitAll then NumberOfThreads q else m) 0 true, s)
      end
  end.

(** A queue for [n] threads with a buffer of exactly the size asked for. *)
Definition cq_start (n : Z) (buffer : list bool) (cpus : nat) : outcome sys :=
  '(_, q) ← CheckinQueuePreInit n;
  q' ← CheckinQueueInit q buffer;
  Ok (mkSys (mkCqs q' 0) (replicate cpus CqOutside)).

(** * The invariant *)

(** The first [k] of [n] slots are marked. *)
Definition slots (n k : Z) : list bool :=
  replicate (Z.to_nat k) true ++ replicate (Z.to_nat (n - k)) false.

(** Every slot before a processor's index is marked. *)
Definition cq_pc_ok (k : Z) (pc : cq_pc) : Prop :=
  match pc with
  | CqMark i => 0 <= i <= k
  | CqWait n i green => 0 <= i /\ (green = true -> i <= k)
  | CqGo n => n <= k
  | _ => True
  end.

Record cq_inv (n : Z) (s : sys) : Prop := {
  ci_slots : Array_ (cq_queue (shared s)) = slots n (n `min` cq_arrived (shared s));
  ci_n : NumberOfThreads (cq_queue (shared s)) = n;
  ci_arrived : 0 <= cq_arrived (shared s);
  ci_pcs : Forall (cq_pc_ok (n `min` cq_arrived (shared s))) (pcs s)
}.

Lemma slots_lookup n k i : 0 <= k <= n -> 0 <= i < n -> zget (slots n k) i = Some (i <? k).
Proof.
  intros Hk Hi. unfold slots, zget. rewrite decide_True by lia. destruct (Z.ltb_spec i k).
  - rewrite lookup_app_l by (rewrite length_replicate; lia). apply lookup_replicate_2. lia.
  - rewrite lookup_app_r by (rewrite length_replicate; lia). rewrite length_replicate.
    apply lookup_replicate_2. lia.
Qed.

Lemma slots_length n k : 0 <= k <= n -> Z.of_nat (length (slots n k)) = n.
Proof. intros. unfold slots. rewrite length_app, !length_replicate. lia. Qed.

Lemma slots_mark n k : 0 <= k < n -> zset (slots n k) k true = Some (slots n (k + 1)).
Proof.
  intros Hk. rewrite zset_lt by (rewrite slots_length; lia). f_equal.
  unfold slots. replace (Z.to_nat k) with (length (replicate (Z.to_nat k) true) + 0)%nat at 1
    by (rewrite length_replicate; lia).
  rewrite insert_app_r. replace (Z.to_nat (n - k)) with (S (Z.to_nat (n - (k + 1)))) by lia.
  replace (Z.to_nat (k + 1)) with (Z.to_nat k + 1)%nat by lia. rewrite replicate_add. simpl.
  by rewrite <- app_assoc.
Qed.

Lemma cq_pc_ok_mono k k' pc : k <= k' -> cq_pc_ok k pc -> cq_pc_ok k' pc.
Proof. destruct pc; simpl; intros; try lia; intuition lia. Qed.

Lemma cq_inv_start n buffer cpus s : is_dword n -> Z.of_nat (length buffer) = n ->
  cq_start n buffer cpus = Ok s -> cq_inv n s.
Proof.
  intros Hn Hb. unfold cq_start, CheckinQueuePreInit, CheckinQueueInit.
  destruct (Z.ltb_spec 0 n); [|done]. cbn. destruct (Z.ltb_spec 0 n); [|done]. cbn.
  rewrite Hb, Z.ltb_irrefl. cbn. intros [= <-]. split; cbn; try done.
  - rewrite Z.min_r by lia. unfold slots. rewrite drop_ge by lia.
    by rewrite app_nil_r, Z.sub_0_r.
  - by apply Forall_replicate.
Qed.

(** An access that leaves the queue alone. *)
Lemma cq_inv_pc n s i pc' : cq_inv n s -> cq_pc_ok (n `min` cq_arrived (shared s)) pc' ->
  cq_inv n (mkSys (shared s) (<[i := pc']> (pcs s))).
Proof. intros [Hs Hn Ha Hp] Hpc. split; try done. by apply Forall_insert. Qed.

(** An arrival: the first free slot is marked, or none is free. *)
Lemma cq_inv_arrive n s i q' : cq_inv n s -> NumberOfThreads q' = n ->
  Array_ q' = slots n (n `min` (cq_arrived (shared s) + 1)) ->
  cq_inv n (mkSys (mkCqs q' (cq_arrived (shared s) + 1)) (<[i := CqMarked]> (pcs s))).
Proof.
  intros [Hs Hn Ha Hp] Hn' Hs'. split; cbn; try done; try lia.
  apply Forall_insert; [|done]. eapply Forall_impl; [exact Hp|].
  intros pc. apply cq_pc_ok_mono. lia.
Qed.

(** The one access that can fault: a wait for more slots than there are. *)
Definition past_end (n : Z) (pc : cq_pc) : Prop :=
  exists m i green, pc = CqWait m i green /\ n <= i < m.

Lemma cq_inv_step n s i choice pc : 0 < n < 2 ^ 32 -> cq_inv n s -> pcs s !! i = Some pc ->
  (exists pc' l', cq_exec (cpu_id i) choice pc (shared s) = Ok (pc', l') /\
     cq_inv n (mkSys l' (<[i := pc']> (pcs s)))) \/
  (cq_exec (cpu_id i) choice pc (shared s) = Err MemFault /\ past_end n pc).
Proof.
  intros Hn Hinv Hi. pose proof Hinv as [Hs En Ha Hp].
  pose proof (Forall_lookup_1 _ _ _ _ Hp Hi) as Hok. unfold cq_exec. rewrite En, Hs.
  assert (Hpos : (0 <? n) = true) by lia. rewrite Hpos.
  assert (Hcall : forall pc, (pc = CqMark 0 \/ exists m, pc = CqWait m 0 true) ->
    cq_inv n (mkSys (shared s) (<[i := pc]> (pcs s)))).
  { intros p [->|[m ->]]; apply cq_inv_pc; try done; simpl; lia. }
  destruct pc as [|j| |m j green|m]; cbn [mbind outcome_bind assert_ option_bind];
    try (left; destruct choice; eexists _, _; (split; [reflexivity|]); apply Hcall; by eauto);
    simpl in Hok.
  - left. destruct (Z.ltb_spec j n).
    2: { eexists _, _. split; [reflexivity|]. apply cq_inv_arrive; try done.
         rewrite Hs. f_equal. lia. }
    rewrite slots_lookup by lia. cbn. destruct (Z.ltb_spec j (n `min` cq_arrived (shared s))).
    + eexists _, _. split; [reflexivity|]. apply cq_inv_pc; [done|]. simpl. unwrap. lia.
    + unfold set_slot. rewrite Hs. replace j with (n `min` cq_arrived (shared s)) by lia.
      rewrite slots_mark by lia. eexists _, _. split; [reflexivity|].
      apply cq_inv_arrive; try done. cbn. f_equal. lia.
  - destruct (Z.ltb_spec j m).
    2: { left. eexists _, _. split; [reflexivity|]. apply cq_inv_pc; [done|].
         destruct green; simpl; [|lia]. destruct Hok as [_ Hok]. specialize (Hok eq_refl). lia. }
    destruct (Z.ltb_spec j n).
    2: { right. rewrite zget_ge by (rewrite slots_length; lia). split; [done|]. by exists m, j, green. }
    left. rewrite slots_lookup by lia. cbn. eexists _, _. split; [reflexivity|].
    apply cq_inv_pc; [done|]. simpl. unwrap.
    destruct (Z.ltb_spec j (n `min` cq_arrived (shared s))); simpl; split; try lia; done.
Qed.

Lemma cq_reachable n buffer cpus s0 s : 0 < n < 2 ^ 32 -> Z.of_nat (length buffer) = n ->
  cq_start n buffer cpus = Ok s0 -> reachable cq_exec s0 s -> cq_inv n s.
Proof.
  intros Hn Hb H0. apply reachable_preserved; [eapply cq_inv_start; [|done|done]; rlia|].
  intros s1 i choice pc pc' l' Hinv Hi E.
  destruct (cq_inv_step n s1 i choice pc Hn Hinv Hi) as [(pc2 & l2 & E2 & H2)|[E2 _]];
    rewrite E in E2; by simplify_eq.
Qed.

(** ** A waiter that runs alone *)
Lemma cq_wait_pass n s i choice m : 0 < n < 2 ^ 32 -> cq_inv n s ->
  m <= n `min` cq_arrived (shared s) -> forall (d : nat) j green, Z.of_nat d = m - j -> 0 <= j ->
  pcs s !! i = Some (CqWait m j green) ->
  run_schedule cq_exec (replicate d (i, choice)) s =
    Some (Ok (mkSys (shared s) (<[i := CqWait m m green]> (pcs s)))).
Proof.
  intros Hn Hinv Hm. induction d as [|d IH] in s, Hinv, Hm |- *; intros j green Hd Hj Hi; cbn [replicate run_schedule].
  - assert (j = m) by lia. subst. rewrite list_insert_id by done. by destruct s.
  - rewrite Hi. cbn [mbind option_bind]. destruct Hinv as [Hs En Ha Hp] eqn:E. clear E.
    unfold cq_exec. rewrite Hs. rewrite (proj2 (Z.ltb_lt j m)) by lia.
    rewrite slots_lookup by lia. rewrite (proj2 (Z.ltb_lt j (n `min` cq_arrived (shared s)))) by lia.
    cbn [of_option mbind outcome_bind negb]. rewrite (u32_small (j + 1)) by rlia.
    rewrite (IH (mkSys (shared s) (<[i := CqWait m (j + 1) green]> (pcs s)))) with (j := j + 1) (green := green);
      [cbn [shared pcs]; by rewrite list_insert_insert_eq| |done|lia|lia|].
    + apply cq_inv_pc; [done|]. pose proof (Forall_lookup_1 _ _ _ _ Hp Hi) as Hok.
      simpl in *. split; [lia|]. lia.
    + cbn [pcs]. apply list_lookup_insert_eq. by eapply lookup_lt_Some.
Qed.

Lemma cq_wait_turn n s i choice m j green : 0 < n < 2 ^ 32 -> cq_inv n s ->
  m <= n `min` cq_arrived (shared s) -> 0 <= j -> pcs s !! i = Some (CqWait m j green) ->
  exists d, run_schedule cq_exec (replicate d (i, choice)) s =
    Some (Ok (mkSys (shared s) (<[i := if green then CqGo m else CqWait m 0 true]> (pcs s)))).
Proof.
  intros Hn Hinv Hm Hj Hi. pose proof (lookup_lt_Some _ _ _ Hi).
  assert (Hpass : exists d j', m <= j' /\ run_schedule cq_exec (replicate d (i, choice)) s =
    Some (Ok (mkSys (shared s) (<[i := CqWait m j' green]> (pcs s))))).
  { destruct (Z.ltb_spec j m).
    - exists (Z.to_nat (m - j)), m. split; [lia|]. eapply cq_wait_pass; try done. lia.
    - exists 0%nat, j. split; [done|]. simpl. rewrite list_insert_id by done. by destruct s. }
  destruct Hpass as (d & j' & Hj' & E). exists (d + 1)%nat. rewrite replicate_add.
  rewrite (run_schedule_app _ _ _ _ _ E). cbn [replicate run_schedule pcs shared].
  rewrite list_lookup_insert_eq by done. cbn [mbind option_bind]. unfold cq_exec.
  rewrite (proj2 (Z.ltb_ge j' m)) by done. by rewrite list_insert_insert_eq.
Qed.

(** * Theorems *)

(** For a queue of [n] slots with a buffer of the size CheckinQueuePreInit asks for, in every
    reachable interleaving the marked slots are the first min(n, arrivals) ones; a
    CheckinQueueWaitOn that has returned asked for no more slots than there were arrivals and
    slots; and the only access that can fault is a wait past the last slot. *)
Theorem checkin_arrivals n buffer cpus s0 s : 0 < n < 2 ^ 32 -> Z.of_nat (length buffer) = n ->
  cq_start n buffer cpus = Ok s0 -> reachable cq_exec s0 s ->
  Array_ (cq_queue (shared s)) = slots n (n `min` cq_arrived (shared s)) /\
  (forall i m, pcs s !! i = Some (CqGo m) -> m <= cq_arrived (shared s) /\ m <= n) /\
  (forall i choice pc, pcs s !! i = Some pc -> ~ past_end n pc ->
     exists pc' l', cq_exec (cpu_id i) choice pc (shared s) = Ok (pc', l')).
Proof.
  intros Hn Hb H0 Hr. pose proof (cq_reachable n buffer cpus s0 s Hn Hb H0 Hr) as Hinv.
  split_and!; [by apply Hinv| |].
  - intros i m Hi. pose proof (Forall_lookup_1 _ _ _ _ (ci_pcs _ _ Hinv) Hi) as Hok. simpl in Hok. lia.
  - intros i choice pc Hi Hne.
    destruct (cq_inv_step n s i choice pc Hn Hinv Hi) as [(pc' & l' & E & _)|[_ ?]]; [eauto|done].
Qed.

Definition demo_cq_schedule : list (nat * cq_choice) :=
  replicate 2 (0%nat, DoMark) ++ replicate 3 (1%nat, DoMark) ++ replicate 4 (2%nat, DoWaitOn false 2).

Lemma checkin_arrivals_witness :
  exists s0 s, cq_start 3 [true; true; false] 3 = Ok s0 /\ reachable cq_exec s0 s /\
    pcs s = [CqMarked; CqMarked; CqGo 2] /\ cq_arrived (shared s) = 2 /\
    Array_ (cq_queue (shared s)) = slots 3 2.
Proof.
  destruct (cq_start 3 [true; true; false] 3) as [s0|] eqn:E0; [|by vm_compute in E0].
  destruct (run_schedule cq_exec demo_cq_schedule s0) as [[s|]|] eqn:E;
    [|by vm_compute in E0; injection E0 as <-; vm_compute in E..].
  assert (Hr : reachable cq_exec s0 s).
  { eapply run_schedule_reachable; [apply reach_refl|exact E]. }
  pose proof (checkin_arrivals 3 [true; true; false] 3 s0 s ltac:(lia) eq_refl E0 Hr) as [H1 _].
  exists s0, s. vm_compute in E0. injection E0 as <-. vm_compute in E. injection E as <-.
  split_and!; [reflexivity|exact Hr|reflexivity|reflexivity|exact H1].
Defined.

(** Once [m] processors have arrived at a queue with at least [m] slots, a processor in
    CheckinQueueWaitOn for [m] of them returns after finitely many of its own accesses,
    wherever in the loop it is. *)
Theorem checkin_wait_returns n buffer cpus s0 s i choice m j green :
  0 < n < 2 ^ 32 -> Z.of_nat (length buffer) = n ->
  cq_start n buffer cpus = Ok s0 -> reachable cq_exec s0 s ->
  pcs s !! i = Some (CqWait m j green) -> m <= n -> m <= cq_arrived (shared s) ->
  exists d, run_schedule cq_exec (replicate d (i, choice)) s =
    Some (Ok (mkSys (shared s) (<[i := CqGo m]> (pcs s)))).
Proof.
  intros Hn Hb H0 Hr Hi Hm Ha. pose proof (cq_reachable n buffer cpus s0 s Hn Hb H0 Hr) as Hinv.
  pose proof (Forall_lookup_1 _ _ _ _ (ci_pcs _ _ Hinv) Hi) as Hok. simpl in Hok.
  pose proof (ci_arrived _ _ Hinv).
  destruct (cq_wait_turn n s i choice m j green) as [d E]; try done; try lia.
  destruct green; [by exists d|].
  set (s1 := mkSys (shared s) (<[i := CqWait m 0 true]> (pcs s))) in *.
  destruct (cq_wait_turn n s1 i choice m 0 true) as [d2 E2]; try done; try (simpl; lia).
  - apply cq_inv_pc; [done|]. simpl. lia.
  - apply list_lookup_insert_eq. by eapply lookup_lt_Some.
  - exists (d + d2)%nat. rewrite replicate_add, (run_schedule_app _ _ _ _ _ E), E2.
    unfold s1. cbn [shared pcs]. by rewrite list_insert_insert_eq.
Qed.

Lemma checkin_wait_returns_witness :
  exists s0 s, cq_start 2 [true; true] 2 = Ok s0 /\ pcs s !! 1%nat = Some (CqWait 1 1 false) /\
    exists d, run_schedule cq_exec (replicate d (1%nat, DoMark)) s =
      Some (Ok (mkSys (shared s) (<[1%nat := CqGo 1]> (pcs s)))).
Proof.
  destruct (cq_start 2 [true; true] 2) as [s0|] eqn:E0; [|by vm_compute in E0].
  destruct (run_schedule cq_exec [(1%nat, DoWaitOn false 1); (1%nat, DoMark); (0%nat, DoMark); (0%nat, DoMark)] s0)
    as [[s|]|] eqn:E; [|by vm_compute in E0; injection E0 as <-; vm_compute in E..].
  assert (Hr : reachable cq_exec s0 s).
  { eapply run_schedule_reachable; [apply reach_refl|exact E]. }
  assert (Es : pcs s !! 1%nat = Some (CqWait 1 1 false) /\ cq_arrived (shared s) = 1).
  { clear Hr. vm_compute in E0. injection E0 as <-. vm_compute in E. injection E as <-. split; reflexivity. }
  destruct Es as [Ei Ea].
  pose proof (checkin_wait_returns 2 [true; true] 2 s0 s 1 DoMark 1 1 false ltac:(lia) eq_refl E0 Hr Ei
    ltac:(lia) ltac:(lia)) as H.
  exists s0, s. split_and!; [reflexivity|exact Ei|exact H].
Defined.

(** A wait for two check-ins at a queue of one slot reads past its array. *)
Example checkin_wait_past_end :
  (s0 ← cq_start 1 [false] 2;
   Ok (run_schedule cq_exec [(0%nat, DoMark); (0%nat, DoMark); (1%nat, DoWaitOn false 2);
     (1%nat, DoMark); (1%nat, DoMark)] s0)) = Ok (Some (Err MemFault)).
Proof. vm_compute. reflexivity. Qed.
