(* ===== verification/Ipc.v ===== *)
(** HAL9000/src/ipc.c and the inter-processor interrupts of smp.c: a thread asks a set of processors to run a function; the request is an
    IPC_EVENT, one entry of which is put in the event list of each processor before the interrupt is sent.  Threads that send and the
    interrupt handlers of the processors interleave; a section under an EventListLock is one step ([Spinlock] excludes), and
    so are the walks over the list of processors, which does not change after start-up.
    A local APIC keeps one pending bit per vector ([irr]): an interrupt that arrives while it is set is merged with it.  A handler starts when its processor accepts
    the pending interrupt, which can be at any time later. *)
From S2P Require Import Prelude IntUtils Interleave RefCnt Event.

Definition INFO_MASK : Z := Z.shiftl 1 30.
Definition CPU_MASK : Z := Z.shiftl 1 24.
Definition STATUS_CPU_NO_MATCHES : Z := Z.lor (Z.lor (Z.lor INFO_MASK CUSTOMER_BIT) CPU_MASK) 0x0005.
Definition STATUS_INVALID_PARAMETER6 : Z := error_status GENERAL_MASK 0x0016.
Definition STATUS_UNSUCCESSFUL : Z := error_status GENERAL_MASK 0x0003.

(** * Data *)
(** An IPC_EVENT; [CpuEvents] holds the Event field of each of its entries, which are numbered from 0. *)
Record IPC_EVENT := mkIpc {
  RefCnt_ : REF_COUNT; Function_ : Z; ipc_Context : Z; SignalTermination : bool; TerminationEvent : EVENT;
  ipc_FreeFunction : Z; FreeFunctionContext : Z; CpuEvents : list Z }.

(** The fields of a PCPU that the interrupts use; an entry of EventList is an event and the number of the entry in it. *)
Record PCPU := mkPcpu { ApicId : Z; LogicalApicId : Z; EventList : list (Z * nat); NoOfEventsInList : Z; irr : bool }.
(** What CpuMuAllocCpu leaves in these fields; an x86 shift takes its count modulo 32. *)
Definition CpuMuAllocCpu (ApicId_ : Z) : PCPU := mkPcpu ApicId_ (u8 (Z.shiftl 1 (ApicId_ mod 32))) [] 0 false.

(** The arguments of SmpSendGenericIpiEx; [rq_Enabled] says that the caller runs with interrupts on and below IrqlIpiLevel. *)
Record request := mkRequest {
  rq_Function : Z; rq_Context : Z; rq_Free : Z; rq_FreeContext : Z; rq_Wait : bool; rq_Mode : Z; rq_Destination : Z; rq_Enabled : bool }.

Definition SmpIpiSendToCpu : Z := 0.
Definition SmpIpiSendToSelf : Z := 1.
Definition SmpIpiSendToAllIncludingSelf : Z := 2.
Definition SmpIpiSendToAllExcludingSelf : Z := 3.
Definition SmpIpiSendToGroup : Z := 4.
Definition SmpIpiSendMax : Z := SmpIpiSendToGroup.
(** SmpSendGenericIpi. *)
Definition SmpSendGenericIpi (Function Context Free FreeContext : Z) (Wait Enabled : bool) : request :=
  mkRequest Function Context Free FreeContext Wait SmpIpiSendToAllExcludingSelf 0 Enabled.

(** The request of an event, the processor it came from and the processors it goes to. *)
Record sent := mkSent { st_request : request; st_from : nat; st_to : list nat }.
(** [events] are the allocated events by their addresses, which are not used again; [requests] what was sent with every event;
    [runs] the calls of functions: event, processor, function, context; [frees] the calls of free functions. *)
Record ipc_state := mkIst {
  cpus : list PCPU; events : gmap Z IPC_EVENT; next_event : Z; requests : gmap Z sent;
  runs : list (Z * nat * Z * Z); frees : list (Z * Z * Z * Z) }.
Definition with_cpus (c : list PCPU) (s : ipc_state) : ipc_state := mkIst c (events s) (next_event s) (requests s) (runs s) (frees s).
Definition with_events (e : gmap Z IPC_EVENT) (s : ipc_state) : ipc_state := mkIst (cpus s) e (next_event s) (requests s) (runs s) (frees s).

(** * smp.c: which processors *)
Definition _SmpDoesCpuMatchDestination (self SendMode Destination : Z) (Cpu : PCPU) : outcome bool :=
  if SendMode =? SmpIpiSendToAllExcludingSelf then Ok (negb (ApicId Cpu =? self)) else
  if SendMode =? SmpIpiSendToAllIncludingSelf then Ok true else
  if SendMode =? SmpIpiSendToSelf then Ok (ApicId Cpu =? self) else
  if SendMode =? SmpIpiSendToCpu then Ok (ApicId Cpu =? Destination) else
  if SendMode =? SmpIpiSendToGroup then Ok (IsBooleanFlagOn Destination (LogicalApicId Cpu)) else
  Err AssertFailed.

(** The loop: the number of matches so far and the array as written so far. *)
Fixpoint matching_loop (self SendMode Destination Maximum : Z) (k : nat) (list_ : list PCPU) (noOfMatches : Z) (CpuList : list nat) : outcome (Z * list nat) :=
  match list_ with
  | [] => Ok (noOfMatches, CpuList)
  | pCpu :: rest =>
    b ← _SmpDoesCpuMatchDestination self SendMode Destination pCpu;
    if b : bool then
      let noOfMatches := u32 (noOfMatches + 1) in
      matching_loop self SendMode Destination Maximum (S k) rest noOfMatches (if noOfMatches <=? Maximum then CpuList ++ [k] else CpuList)
    else matching_loop self SendMode Destination Maximum (S k) rest noOfMatches CpuList
  end.
(** The status, the number of matches and the processors stored, by their positions in the list. *)
Definition _SmpRetrieveMatchingCpus (self Destination SendMode Maximum : Z) (s : ipc_state) : outcome (Z * Z * list nat) :=
  '(n, l) ← matching_loop self SendMode Destination Maximum 0 (cpus s) 0 [];
  Ok (if Maximum <? n then STATUS_BUFFER_TOO_SMALL else STATUS_SUCCESS, n, l).

(** _SmpSendIpcIpi: the destination, the shorthand and the logical mode of the interrupt command. *)
Definition _SmpSendIpcIpi (SendMode Destination : Z) : Z * Z * bool :=
  let apicShorthand := if SendMode <=? SmpIpiSendToAllExcludingSelf then SendMode else 0 in
  let logical := SendMode =? SmpIpiSendToGroup in
  let apicId := if SendMode =? SmpIpiSendToCpu then Destination else if SendMode =? SmpIpiSendToGroup then Destination else 0 in
  (apicId, apicShorthand, logical).
(** The processors whose local APIC accepts such a command from [self]: all shorthands, a physical destination (0xFF is all), or
    a mask of logical identifiers in the flat model. *)
Definition accepts (self : Z) (icr : Z * Z * bool) (c : PCPU) : bool :=
  let '(dest, shorthand, logical) := icr in
  if shorthand =? 1 then ApicId c =? self else
  if shorthand =? 2 then true else
  if shorthand =? 3 then negb (ApicId c =? self) else
  if logical : bool then negb (Z.land dest (LogicalApicId c) =? 0) else (ApicId c =? dest) || (dest =? 0xFF).
Definition interrupt (self : Z) (icr : Z * Z * bool) (c : PCPU) : PCPU :=
  mkPcpu (ApicId c) (LogicalApicId c) (EventList c) (NoOfEventsInList c) (irr c || accepts self icr c).

(** * ipc.c *)
(** Code of ref_cnt.c on the counter of an event. *)
Definition on_count {A} (m : M rf_state A) (e : IPC_EVENT) : outcome (A * IPC_EVENT) :=
  '(a, r) ← m (mkRf (RefCnt_ e) [] 0);
  Ok (a, mkIpc (rf_object r) (Function_ e) (ipc_Context e) (SignalTermination e) (TerminationEvent e) (ipc_FreeFunction e) (FreeFunctionContext e) (CpuEvents e)).
Fixpoint reference_loop (n : nat) : M rf_state unit := match n with O => ret tt | S n' => _ ← RfcReference; reference_loop n' end.

(** The address of the free function _IpcFreeEvent. *)
Definition free_event_address : Z := 1.

(** [room] says whether the heap has a block for the event; the address of the event, or 0. *)
Definition IpcGenerateEvent (room : bool) (rq : request) (from : nat) (to : list nat) (NumberOfCpus : Z) (s : ipc_state) : outcome (Z * ipc_state) :=
  if 0 =? rq_Function rq then Ok (0, s) else
  if 0 =? NumberOfCpus then Ok (0, s) else
  let noOfAdditionalReferences := if rq_Wait rq then NumberOfCpus else u32 (NumberOfCpus - 1) in
  if negb room then Ok (0, s) else
  let pEvent := next_event s in
  let zeroed := mkEVENT 0 EventTypeNotification in
  let '(status, TerminationEvent) := if rq_Wait rq then EvtInitialize false EventTypeSynchronization false zeroed else (STATUS_SUCCESS, zeroed) in
  if negb (SUCCEEDED status) then Ok (0, s) else
  let '(status, RefCnt) := RfcInit false free_event_address 0 RfcPreInit in
  if negb (SUCCEEDED status) then Ok (0, s) else
  '(_, e) ← on_count (reference_loop (Z.to_nat noOfAdditionalReferences))
    (mkIpc RefCnt (rq_Function rq) (rq_Context rq) (rq_Wait rq) TerminationEvent (rq_Free rq) (rq_FreeContext rq) (replicate (Z.to_nat NumberOfCpus) pEvent));
  Ok (pEvent, mkIst (cpus s) (<[pEvent := e]> (events s)) (next_event s + 1) (<[pEvent := mkSent rq from to]> (requests s)) (runs s) (frees s)).

(** _IpcFreeEvent. *)
Definition _IpcFreeEvent (pEvent : Z) (s : ipc_state) : outcome ipc_state :=
  e ← of_option (events s !! pEvent);
  Ok (mkIst (cpus s) (delete pEvent (events s)) (next_event s) (requests s) (runs s)
       (if negb (0 =? ipc_FreeFunction e) then frees s ++ [(pEvent, ipc_FreeFunction e, ipc_Context e, FreeFunctionContext e)] else frees s)).

(** RfcDereference up to the call of the free function: the new count. *)
Definition dereference (pEvent : Z) (s : ipc_state) : outcome (Z * ipc_state) :=
  e ← of_option (events s !! pEvent);
  '(n, e') ← on_count RfcDecrement e;
  Ok (n, with_events (<[pEvent := e']> (events s)) s).

Definition set_termination (v : EVENT) (e : IPC_EVENT) : IPC_EVENT :=
  mkIpc (RefCnt_ e) (Function_ e) (ipc_Context e) (SignalTermination e) v (ipc_FreeFunction e) (FreeFunctionContext e) (CpuEvents e).
(** An access to the links of an entry. *)
Definition touch (entry : option (Z * nat)) (s : ipc_state) : outcome unit :=
  match entry with
  | None => Ok tt
  | Some (ev, i) => e ← of_option (events s !! ev); _ ← of_option (CpuEvents e !! i); Ok tt
  end.

(** InsertTailList of entry [i] of [ev] into the list of processor [c], with the count, under EventListLock. *)
Definition insert_event (c : nat) (ev : Z) (i : nat) (s : ipc_state) : outcome ipc_state :=
  p ← of_option (cpus s !! c);
  _ ← touch (Some (ev, i)) s;
  _ ← touch (last (EventList p)) s;
  Ok (with_cpus (<[c := mkPcpu (ApicId p) (LogicalApicId p) (EventList p ++ [(ev, i)]) (u32 (NoOfEventsInList p + 1)) (irr p)]> (cpus s)) s).

(** The start of _SmpIpcIpiIsr: the first entry is removed under EventListLock. *)
Definition remove_event (c : nat) (s : ipc_state) : outcome ((Z * nat) * ipc_state) :=
  p ← of_option (cpus s !! c);
  if 0 <? NoOfEventsInList p then
    match EventList p with
    | [] => Err AssertFailed
    | entry :: rest =>
      _ ← touch (Some entry) s;
      _ ← touch (head rest) s;
      Ok (entry, with_cpus (<[c := mkPcpu (ApicId p) (LogicalApicId p) rest (u32 (NoOfEventsInList p - 1)) (irr p)]> (cpus s)) s)
    end
  else Err AssertFailed.

(** * Programs *)
Inductive send_pc : Type :=
| Ready (status : Z) (sent : option (request * Z))  (* between calls: what the last call returned, and what it sent *)
| CountCpus (rq : request)                  (* at the first _SmpRetrieveMatchingCpus *)
| ListCpus (rq : request) (n : Z)           (* after CpuGetApicId; at the second *)
| Generate (rq : request) (to : list nat)   (* at IpcGenerateEvent *)
| Insert (rq : request) (ev : Z) (to : list nat) (i : nat)  (* before the insertion of entry i *)
| Send (rq : request) (ev : Z) (to : list nat)
| Wait_ (rq : request) (ev : Z)             (* in EvtWaitForSignal *)
| WaitDone (rq : request) (ev : Z)          (* before RfcDereference of IpcWaitForEventHandling *)
| FreeSent (rq : request) (ev : Z).         (* before _IpcFreeEvent *)
Inductive isr_pc : Type :=
| NoInterrupt
| Remove                                    (* in _SmpIpcIpiIsr, before the entry is removed *)
| Process_ (entry : Z * nat)                (* in IpcProcessEvent, before the function is called *)
| Dereference_ (ev : Z) (status : Z)        (* before RfcDereference *)
| Signal (ev : Z) (status : Z)              (* before EvtSignal *)
| FreeDone (ev : Z) (status : Z)            (* before _IpcFreeEvent *)
| Return_ (status : Z).                     (* back in _IsrInterruptHandler *)
(** A thread, with the processor it runs on, or the interrupt handler of a processor. *)
Inductive ipc_pc : Type := Thread (c : nat) (p : send_pc) | Handler (c : nat) (p : isr_pc).

(** What a participant decides: the call of a thread that is between two calls, whether an allocation succeeds, and the processor to which a
    thread is moved. *)
Inductive ipc_choice : Type := Go (room : bool) | CallIpi (rq : request) | MoveTo (c : nat).

Section Exec.
(** [broadcast]: what the function at an address returns for a context.  [capacity]: the number of events the heap has room for.  [pinned]: threads
    stay on their processor during a call. *)
Context (broadcast : Z -> Z -> Z) (capacity : Z) (pinned : bool).

(** A caller that waits runs with interrupts on and below IrqlIpiLevel; the mode is one of the enumeration, the destination a byte. *)
Definition legal (rq : request) : bool :=
  (negb (rq_Wait rq) || rq_Enabled rq) && (0 <=? rq_Mode rq) && (0 <=? rq_Destination rq) && (rq_Destination rq <? 2 ^ 8).

(** SmpSendGenericIpiEx on processor [c]. *)
Definition send_exec (c : nat) (choice : ipc_choice) (p : send_pc) (s : ipc_state) : outcome (send_pc * ipc_state) :=
  self ← of_option (cpus s !! c);
  let self := ApicId self in
  match p with
  | Ready status r => match choice with
      | CallIpi rq => if negb (legal rq) then Ok (p, s) else
          if 0 =? rq_Function rq then Ok (Ready STATUS_INVALID_PARAMETER1 None, s) else
          if SmpIpiSendMax <? rq_Mode rq then Ok (Ready STATUS_INVALID_PARAMETER6 None, s) else Ok (CountCpus rq, s)
      | _ => Ok (p, s)
      end
  | CountCpus rq =>
      '(status, n, _) ← _SmpRetrieveMatchingCpus self (rq_Destination rq) (rq_Mode rq) 0 s;
      let status := if status =? STATUS_BUFFER_TOO_SMALL then STATUS_SUCCESS else status in
      if negb (SUCCEEDED status) then Ok (Ready status None, s) else
      if 0 =? n then Ok (Ready STATUS_CPU_NO_MATCHES None, s) else Ok (ListCpus rq n, s)
  | ListCpus rq n =>
      '(status, temp, to) ← _SmpRetrieveMatchingCpus self (rq_Destination rq) (rq_Mode rq) n s;
      if negb (SUCCEEDED status) then Ok (Ready status None, s) else
      _ ← assert_ (temp =? n); Ok (Generate rq to, s)
  | Generate rq to =>
      let room := match choice with Go b => b && (Z.of_nat (size (events s)) <? capacity) | _ => false end in
      '(ev, s') ← IpcGenerateEvent room rq c to (Z.of_nat (length to)) s;
      if ev =? 0 then Ok (Ready STATUS_UNSUCCESSFUL None, s') else Ok (Insert rq ev to 0, s')
  | Insert rq ev to i =>
      match to !! i with
      | None => Ok (Send rq ev to, s)
      | Some k => s' ← insert_event k ev i s; Ok (Insert rq ev to (S i), s')
      end
  | Send rq ev to =>
      let s' := with_cpus (interrupt self (_SmpSendIpcIpi (rq_Mode rq) (rq_Destination rq)) <$> cpus s) s in
      if rq_Wait rq then
        _ ← assert_ (negb (bool_decide (Exists (fun k => ApicId <$> cpus s !! k = Some self) to)) || rq_Enabled rq);
        Ok (Wait_ rq ev, s')
      else Ok (Ready STATUS_SUCCESS (Some (rq, ev)), s')
  | Wait_ rq ev =>
      e ← of_option (events s !! ev);
      _ ← assert_ (SignalTermination e);
      let '(signaled, v) := EvtIsSignaled (TerminationEvent e) in
      Ok (if signaled then WaitDone rq ev else Wait_ rq ev, with_events (<[ev := set_termination v e]> (events s)) s)
  | WaitDone rq ev =>
      '(n, s') ← dereference ev s;
      Ok (if 0 =? n then FreeSent rq ev else Ready STATUS_SUCCESS (Some (rq, ev)), s')
  | FreeSent rq ev => s' ← _IpcFreeEvent ev s; Ok (Ready STATUS_SUCCESS (Some (rq, ev)), s')
  end.

(** _SmpIpcIpiIsr on processor [c], with IpcProcessEvent, and the assertion of _IsrInterruptHandler on what it returns. *)
Definition isr_exec (c : nat) (p : isr_pc) (s : ipc_state) : outcome (isr_pc * ipc_state) :=
  match p with
  | NoInterrupt =>
      cpu ← of_option (cpus s !! c);
      if irr cpu then Ok (Remove, with_cpus (<[c := mkPcpu (ApicId cpu) (LogicalApicId cpu) (EventList cpu) (NoOfEventsInList cpu) false]> (cpus s)) s)
      else Ok (p, s)
  | Remove => '(entry, s') ← remove_event c s; Ok (Process_ entry, s')
  | Process_ (ev, i) =>
      e ← of_option (events s !! ev);
      pEvent ← of_option (CpuEvents e !! i);
      _ ← assert_ (negb (0 =? pEvent));
      e' ← of_option (events s !! pEvent);
      _ ← assert_ (negb (0 =? Function_ e'));
      Ok (Dereference_ pEvent (broadcast (Function_ e') (ipc_Context e')),
          mkIst (cpus s) (events s) (next_event s) (requests s) (runs s ++ [(pEvent, c, Function_ e', ipc_Context e')]) (frees s))
  | Dereference_ ev status =>
      e ← of_option (events s !! ev);
      let signalTermination := SignalTermination e in
      '(newRefCount, s') ← dereference ev s;
      Ok (if 0 =? newRefCount then FreeDone ev status else
          if signalTermination && (1 =? newRefCount) then Signal ev status else Return_ status, s')
  | Signal ev status =>
      e ← of_option (events s !! ev);
      Ok (Return_ status, with_events (<[ev := set_termination (EvtSignal (TerminationEvent e)) e]> (events s)) s)
  | FreeDone ev status => s' ← _IpcFreeEvent ev s; Ok (Return_ status, s')
  | Return_ status => _ ← assert_ (SUCCEEDED status); Ok (NoInterrupt, s)
  end.

Definition between_calls (p : send_pc) : bool := if p is Ready _ _ then true else false.
Definition ipc_exec (cpu : Z) (choice : ipc_choice) (pc : ipc_pc) (s : ipc_state) : outcome (ipc_pc * ipc_state) :=
  match pc with
  | Thread c p => match choice with
      | MoveTo c' => if (between_calls p || negb pinned) && bool_decide (c' < length (cpus s))%nat then Ok (Thread c' p, s) else Ok (pc, s)
      | _ => '(p', s') ← send_exec c choice p s; Ok (Thread c p', s')
      end
  | Handler c p => '(p', s') ← isr_exec c p s; Ok (Handler c p', s')
  end.
End Exec.

(** The interrupt handlers of all processors, and threads on the processors [homes]. *)
Definition ipc_start (ids : list Z) (homes : list nat) : sys :=
  mkSys (mkIst (CpuMuAllocCpu <$> ids) ∅ 1 ∅ [] [])
    (((fun c => Handler c NoInterrupt) <$> seq 0 (length ids)) ++ ((fun c => Thread c (Ready STATUS_SUCCESS None)) <$> homes)).

(** * Which processors match, and which are interrupted *)
Definition matches (self mode dest : Z) (c : PCPU) : bool := if _SmpDoesCpuMatchDestination self mode dest c is Ok b then b else false.
Fixpoint matching (self mode dest : Z) (k : nat) (l : list PCPU) : list nat :=
  match l with [] => [] | c :: l' => (if matches self mode dest c then [k] else []) ++ matching self mode dest (S k) l' end.

Lemma matches_ok self mode dest c : 0 <= mode <= SmpIpiSendMax -> _SmpDoesCpuMatchDestination self mode dest c = Ok (matches self mode dest c).
Proof.
  intros Hm. unfold matches, _SmpDoesCpuMatchDestination, SmpIpiSendMax, SmpIpiSendToAllExcludingSelf, SmpIpiSendToAllIncludingSelf, SmpIpiSendToSelf, SmpIpiSendToCpu, SmpIpiSendToGroup in *.
  zbool; try done. lia.
Qed.

Lemma matching_elem self mode dest l : forall k c, c ∈ matching self mode dest k l <-> exists j p, c = (k + j)%nat /\ l !! j = Some p /\ matches self mode dest p = true.
Proof.
  induction l as [|p l IH]; intros k c; cbn [matching].
  - split; [by intros ?%elem_of_nil|by intros (j&q&_&?&_)].
  - rewrite elem_of_app, IH. split.
    + intros [H|(j&q&->&Hj&Hq)]; [|exists (S j), q; split_and!; [lia|done|done]]. destruct (matches self mode dest p) eqn:E; [|by apply elem_of_nil in H].
      apply list_elem_of_singleton in H as ->. exists O, p. split_and!; [lia|done|done].
    + intros ([|j]&q&->&Hj&Hq); [left; cbn in Hj; injection Hj as ->; rewrite Hq; apply list_elem_of_singleton; lia|].
      right. exists j, q. split_and!; [lia|done|done].
Qed.

Lemma matching_nodup self mode dest l : forall k, NoDup (matching self mode dest k l).
Proof.
  induction l as [|p l IH]; intros k; cbn [matching]; [constructor|]. destruct (matches self mode dest p); [|apply IH]. apply NoDup_cons. split; [|apply IH].
  rewrite matching_elem. intros (j&q&?&_). lia.
Qed.

Lemma matching_length self mode dest l k : (length (matching self mode dest k l) <= length l)%nat.
Proof. revert k. induction l as [|p l IH]; intros k; cbn [matching length]; [lia|]. specialize (IH (S k)). rewrite length_app. destruct (matches _ _ _ _); cbn; lia. Qed.

(** The loop returns them, when the array is long enough; with no array it counts them. *)
Lemma matching_loop_run self mode dest max l : 0 <= mode <= SmpIpiSendMax -> forall k n acc, 0 <= n -> n + Z.of_nat (length l) < 2 ^ 32 ->
  let m := matching self mode dest k l in
  exists w, matching_loop self mode dest max k l n acc = Ok (n + Z.of_nat (length m), w) /\ (n + Z.of_nat (length m) <= max -> w = acc ++ m).
Proof.
  intros Hm. induction l as [|p l IH]; intros k n acc Hn Hl; cbn [matching matching_loop length] in *.
  { exists acc. rewrite Z.add_0_r, app_nil_r. done. }
  rewrite matches_ok by done. cbn [mbind outcome_bind]. destruct (matches self mode dest p); cbn [app length].
  - rewrite u32_small by rlia. destruct (IH (S k) (n + 1) (if n + 1 <=? max then acc ++ [k] else acc) ltac:(lia) ltac:(lia)) as (w&->&Hw).
    exists w. split; [f_equal; f_equal; lia|]. intros H. rewrite Hw by lia. rewrite (proj2 (Z.leb_le _ _)) by lia. by rewrite <- app_assoc.
  - apply IH; lia.
Qed.

(** Identifiers as CpuMuAllocCpu gives them to processors with an APIC identifier below 8. *)
Definition id_ok (c : PCPU) : Prop := 0 <= ApicId c < 8 /\ LogicalApicId c = 2 ^ ApicId c.
Lemma id_ok_alloc a : 0 <= a < 8 -> id_ok (CpuMuAllocCpu a).
Proof.
  intros Ha. split; [done|]. cbn. rewrite Z.mod_small by lia. rewrite Z.shiftl_mul_pow2, Z.mul_1_l by lia. apply u8_small.
  assert (a < 8) by lia. pose proof (Z.pow_lt_mono_r 2 a 8 ltac:(lia) ltac:(lia) ltac:(lia)). pose proof (Z.pow_pos_nonneg 2 a ltac:(lia) ltac:(lia)). unfold is_byte. lia.
Qed.

Lemma land_pow2 z k : 0 <= k -> Z.land z (2 ^ k) = if Z.testbit z k then 2 ^ k else 0.
Proof.
  intros Hk. apply Z.bits_inj'. intros i Hi. rewrite Z.land_spec. rewrite Z.pow2_bits_eqb by lia.
  destruct (Z.eqb_spec k i) as [<-|Hne]; destruct (Z.testbit z k) eqn:E; rewrite ?Z.pow2_bits_eqb, ?Z.bits_0, ?andb_false_r by lia; zbool; try done; lia.
Qed.

(** The command of _SmpSendIpcIpi reaches exactly the processors that match. *)
Lemma interrupt_matches self mode dest c : id_ok c -> 0 <= mode <= SmpIpiSendMax -> 0 <= dest -> (mode = SmpIpiSendToCpu -> dest <> 0xFF) ->
  accepts self (_SmpSendIpcIpi mode dest) c = matches self mode dest c.
Proof.
  intros [Ha Hl] Hm Hd Hb. unfold SmpIpiSendMax, SmpIpiSendToGroup in Hm.
  assert (mode = 0 \/ mode = 1 \/ mode = 2 \/ mode = 3 \/ mode = 4) as Hc by lia.
  destruct Hc as [->|[->|[->|[->| ->]]]]; unfold matches; cbn; try done.
  - rewrite (proj2 (Z.eqb_neq dest 0xFF)) by (by apply Hb). by rewrite orb_false_r.
  - unfold IsBooleanFlagOn. rewrite Hl, land_pow2 by lia. pose proof (Z.pow_pos_nonneg 2 (ApicId c) ltac:(lia) ltac:(lia)). destruct (Z.testbit dest (ApicId c)).
    + rewrite Z.eqb_refl. by rewrite (proj2 (Z.eqb_neq (2 ^ ApicId c) 0)) by lia.
    + by rewrite (proj2 (Z.eqb_neq (2 ^ ApicId c) 0)) by lia.
Qed.

(** * Counting *)
Definition of_event (ev : Z) (x : Z * nat) : bool := x.1 =? ev.
Definition run_of (ev : Z) (c : nat) (x : Z * nat * Z * Z) : bool := let '(ev', c', _, _) := x in (ev' =? ev) && Nat.eqb c' c.
Definition free_of (ev : Z) (x : Z * Z * Z * Z) : bool := let '(ev', _, _, _) := x in ev' =? ev.
Definition lists (s : ipc_state) : list (list (Z * nat)) := EventList <$> cpus s.
Definition queued (ev : Z) (c : nat) (s : ipc_state) : Z := countp (of_event ev) (default [] (lists s !! c)).
Definition queued_all (ev : Z) (s : ipc_state) : Z := sumf (countp (of_event ev)) (lists s).
Definition targets (ev : Z) (s : ipc_state) : list nat := match requests s !! ev with Some st => st_to st | None => [] end.

(** Calls of the function on processor [c] that the participant owes, in the list to be inserted or in the handler. *)
Definition owed (ev : Z) (c : nat) (pc : ipc_pc) : Z :=
  match pc with
  | Thread _ (Insert _ ev' to i) => if ev' =? ev then countp (Nat.eqb c) (drop i to) else 0
  | Handler c' (Process_ (ev', _)) => b2z ((ev' =? ev) && Nat.eqb c' c)
  | _ => 0
  end.
(** References to [ev] that the participant holds. *)
Definition refs (ev : Z) (pc : ipc_pc) : Z :=
  match pc with
  | Thread _ (Insert rq ev' to i) => if ev' =? ev then Z.of_nat (length (drop i to)) + b2z (rq_Wait rq) else 0
  | Thread _ (Send rq ev' _) => b2z ((ev' =? ev) && rq_Wait rq)
  | Thread _ (Wait_ _ ev') | Thread _ (WaitDone _ ev') => b2z (ev' =? ev)
  | Handler _ (Process_ (ev', _)) | Handler _ (Dereference_ ev' _) => b2z (ev' =? ev)
  | _ => 0
  end.
(** Threads that will wait, or have waited, for [ev]. *)
Definition waiting (ev : Z) (pc : ipc_pc) : Z :=
  match pc with
  | Thread _ (Insert rq ev' _ _) | Thread _ (Send rq ev' _) => b2z ((ev' =? ev) && rq_Wait rq)
  | Thread _ (Wait_ _ ev') | Thread _ (WaitDone _ ev') | Thread _ (FreeSent _ ev') => b2z (ev' =? ev)
  | _ => 0
  end.
Definition signalling (ev : Z) (pc : ipc_pc) : Z := match pc with Handler _ (Signal ev' _) => b2z (ev' =? ev) | _ => 0 end.
Definition waited (ev : Z) (pc : ipc_pc) : Z := match pc with Thread _ (WaitDone _ ev') => b2z (ev' =? ev) | _ => 0 end.
Definition freeing_event (ev : Z) (pc : ipc_pc) : Z :=
  match pc with Thread _ (FreeSent _ ev') | Handler _ (FreeDone ev' _) => b2z (ev' =? ev) | _ => 0 end.
(** Entries in the list of [c] that an interrupt to come, or being handled, will take. *)
Definition expecting (c : nat) (pc : ipc_pc) : Z :=
  match pc with
  | Thread _ (Insert _ _ to i) => countp (Nat.eqb c) (take i to)
  | Thread _ (Send _ _ to) => countp (Nat.eqb c) to
  | Handler c' Remove => b2z (Nat.eqb c' c)
  | _ => 0
  end.

(** What the participants know of an event: with its count, the number of references; whether somebody waits; who signals; who frees it. *)
Definition event_ok (o : option IPC_EVENT) (r w sg wd fr : Z) : Prop :=
  match o with
  | None => r = 0 /\ w = 0 /\ sg = 0 /\ fr = 0
  | Some e => ReferenceCount (RefCnt_ e) = r /\ w = b2z (SignalTermination e) /\ fr = b2z (r =? 0) /\
      (ev_State (TerminationEvent e) = 0 \/ ev_State (TerminationEvent e) = 1) /\
      sg + ev_State (TerminationEvent e) + wd = b2z (SignalTermination e && (r =? 1))
  end.

Definition cpu_ids (l : list PCPU) : list (Z * Z) := (fun c => (ApicId c, LogicalApicId c)) <$> l.
Definition self_of (c : nat) (s : ipc_state) : Z := match cpus s !! c with Some p => ApicId p | None => 0 end.
(** A request that was accepted, and the processors it goes to. *)
Definition accepted (rq : request) : Prop :=
  (rq_Wait rq = true -> rq_Enabled rq = true) /\ 0 <= rq_Mode rq <= SmpIpiSendMax /\ 0 <= rq_Destination rq < 2 ^ 8 /\ rq_Function rq <> 0.
Definition goes_to (rq : request) (c : nat) (s : ipc_state) : list nat := matching (self_of c s) (rq_Mode rq) (rq_Destination rq) 0 (cpus s).

Definition sent_ok (st : sent) (s : ipc_state) : Prop :=
  accepted (st_request st) /\ st_to st = goes_to (st_request st) (st_from st) s /\ st_to st <> [].
(** The fields of an event that do not change. *)
Definition fields_ok (ev : Z) (e : IPC_EVENT) (st : sent) : Prop :=
  let rq := st_request st in
  Function_ e = rq_Function rq /\ ipc_Context e = rq_Context rq /\ SignalTermination e = rq_Wait rq /\ ipc_FreeFunction e = rq_Free rq /\
  FreeFunctionContext e = rq_FreeContext rq /\ CpuEvents e = replicate (length (st_to st)) ev /\
  (SignalTermination e = true -> EventType (TerminationEvent e) = EventTypeSynchronization) /\ ReferenceCount (RefCnt_ e) < MAX_DWORD.

Definition pc_ok (s : ipc_state) (pc : ipc_pc) : Prop :=
  match pc with
  | Thread c p => (c < length (cpus s))%nat /\
      match p with
      | Ready _ None => True
      | Ready _ (Some (rq, ev)) => (exists st, requests s !! ev = Some st /\ st_request st = rq) /\ (rq_Wait rq = true -> events s !! ev = None)
      | CountCpus rq => accepted rq
      | ListCpus rq n => accepted rq /\ n = Z.of_nat (length (goes_to rq c s)) /\ n <> 0
      | Generate rq to => accepted rq /\ to = goes_to rq c s /\ to <> []
      | Insert rq ev to i => requests s !! ev = Some (mkSent rq c to) /\ (i <= length to)%nat
      | Send rq ev to => requests s !! ev = Some (mkSent rq c to)
      | Wait_ rq ev | WaitDone rq ev | FreeSent rq ev => (exists st, requests s !! ev = Some st /\ st_request st = rq) /\ rq_Wait rq = true
      end
  | Handler c p => (c < length (cpus s))%nat /\
      match p with
      | Process_ (ev, i) => (i < length (targets ev s))%nat
      | Dereference_ _ status | Signal _ status | FreeDone _ status | Return_ status => SUCCEEDED status = true
      | _ => True
      end
  end.

Lemma countp_nodup (k : nat) l : NoDup l -> countp (Nat.eqb k) l <= 1.
Proof.
  induction 1 as [|x l Hx Hn IH]; cbn; [lia|]. destruct (Nat.eqb_spec k x) as [->|]; cbn; [|done]. rewrite countp_0; [lia|]. intros y Hy. apply Nat.eqb_neq. by intros ->.
Qed.

Section Invariant.
Context (ids : list Z) (broadcast : Z -> Z -> Z) (capacity : Z).

Record ipc_inv (s : @sys ipc_state ipc_pc) : Prop := {
  ii_owed : forall ev c, countp (run_of ev c) (runs (shared s)) + queued ev c (shared s) + sumf (owed ev c) (pcs s) = countp (Nat.eqb c) (targets ev (shared s));
  ii_event : forall ev, event_ok (events (shared s) !! ev) (queued_all ev (shared s) + sumf (refs ev) (pcs s)) (sumf (waiting ev) (pcs s))
               (sumf (signalling ev) (pcs s)) (sumf (waited ev) (pcs s)) (sumf (freeing_event ev) (pcs s));
  ii_live : forall ev e, events (shared s) !! ev = Some e -> exists st, requests (shared s) !! ev = Some st /\ fields_ok ev e st;
  ii_sent : forall ev st, requests (shared s) !! ev = Some st -> 0 < ev < next_event (shared s) /\ sent_ok st (shared s);
  ii_next : 0 < next_event (shared s);
  ii_entry : forall l ev i, l ∈ lists (shared s) -> (ev, i) ∈ l -> (i < length (targets ev (shared s)))%nat;
  ii_pc : Forall (pc_ok (shared s)) (pcs s);
  ii_expect : forall c p, cpus (shared s) !! c = Some p -> b2z (irr p) + sumf (expecting c) (pcs s) <= Z.of_nat (length (EventList p));
  ii_number : forall c p, cpus (shared s) !! c = Some p -> NoOfEventsInList p = Z.of_nat (length (EventList p));
  ii_ids : cpu_ids (cpus (shared s)) = cpu_ids (CpuMuAllocCpu <$> ids);
  ii_room : Z.of_nat (size (events (shared s))) <= capacity;
  ii_runs : forall ev c f x, (ev, c, f, x) ∈ runs (shared s) -> exists st, requests (shared s) !! ev = Some st /\ f = rq_Function (st_request st) /\ x = rq_Context (st_request st);
  ii_frees : forall ev, countp (free_of ev) (frees (shared s)) =
               match events (shared s) !! ev, requests (shared s) !! ev with None, Some st => b2z (negb (0 =? rq_Free (st_request st))) | _, _ => 0 end }.

(** ** Steps in general *)
Lemma sumf_pos {PC} (f : PC -> Z) l : (forall pc, 0 <= f pc) -> 0 <= sumf f l.
Proof. intros H. apply sumf_nonneg, Forall_forall. auto. Qed.
Lemma sumf_le_at {PC} (f g : PC -> Z) l i pc : (forall pc, f pc <= g pc) -> l !! i = Some pc -> sumf f l + (g pc - f pc) <= sumf g l.
Proof.
  intros H. assert (forall k : list PC, sumf f k <= sumf g k) as Hle.
  { induction k as [|q k IH]; [done|]. cbn. specialize (H q). unfold sumf in IH. lia. }
  revert i. induction l as [|q l IH]; intros [|i] Hi; simplify_eq/=; [specialize (Hle l); unfold sumf in *; lia|].
  specialize (IH i Hi). specialize (H q). unfold sumf in *. lia.
Qed.

Lemma owed_range ev c pc : 0 <= owed ev c pc.
Proof. destruct pc as [h []|h []]; cbn; try done; try (destruct entry); zbool; try done; try apply countp_range; unfold b2z; case_match; lia. Qed.
Lemma refs_range ev pc : 0 <= refs ev pc.
Proof. destruct pc as [h []|h []]; cbn; try done; try (destruct entry); unfold b2z; repeat case_match; lia. Qed.
Lemma waiting_range ev pc : 0 <= waiting ev pc <= refs ev pc + freeing_event ev pc.
Proof. destruct pc as [h []|h []]; cbn; try done; try (destruct entry); zbool; try done; unfold b2z; repeat case_match; try lia; done. Qed.
Lemma signalling_range ev pc : 0 <= signalling ev pc.
Proof. destruct pc as [h []|h []]; cbn; try done. unfold b2z; case_match; lia. Qed.
Lemma waited_range ev pc : 0 <= waited ev pc <= refs ev pc.
Proof. destruct pc as [h []|h []]; cbn; try done; try (destruct entry); unfold b2z; repeat case_match; lia. Qed.
Lemma freeing_range ev pc : 0 <= freeing_event ev pc.
Proof. destruct pc as [h []|h []]; cbn; try done; unfold b2z; case_match; lia. Qed.
Lemma expecting_range c pc : 0 <= expecting c pc.
Proof. destruct pc as [h []|h []]; cbn; try done; try apply countp_range. unfold b2z; case_match; lia. Qed.
Lemma owed_refs ev c pc : owed ev c pc <= refs ev pc.
Proof.
  destruct pc as [h []|h []]; cbn; try done; try (destruct entry); zbool; try done; unfold b2z; repeat case_match; try lia;
    match goal with |- context [countp ?f ?l] => pose proof (countp_range f l) end; lia.
Qed.
Lemma queued_range ev c s : 0 <= queued ev c s <= queued_all ev s.
Proof.
  unfold queued, queued_all. split; [apply countp_range|]. assert (0 <= sumf (countp (of_event ev)) (lists s)) by (apply sumf_pos; intros; apply countp_range).
  destruct (lists s !! c) as [l|] eqn:E; [|done]. cbn. apply (sumf_ge _ _ c); [|done]. apply Forall_forall. intros. apply countp_range.
Qed.

Lemma matching_ids self mode dest : forall l l', cpu_ids l = cpu_ids l' -> forall k, matching self mode dest k l = matching self mode dest k l'.
Proof.
  induction l as [|p l IH]; intros [|p' l'] E k; try done. cbn in E. injection E as E1 E2 E. cbn [matching]. rewrite (IH l' E).
  unfold matches, _SmpDoesCpuMatchDestination. by rewrite E1, E2.
Qed.
Lemma ids_length l l' : cpu_ids l = cpu_ids l' -> length l = length l'.
Proof. intros E. apply (f_equal length) in E. unfold cpu_ids in E. by rewrite !length_fmap in E. Qed.
Lemma ids_self s s' c : cpu_ids (cpus s) = cpu_ids (cpus s') -> self_of c s = self_of c s'.
Proof.
  intros E. apply (f_equal (fun l => l !! c)) in E. unfold cpu_ids in E. rewrite !list_lookup_fmap in E. unfold self_of.
  destruct (cpus s !! c), (cpus s' !! c); cbn in E; congruence.
Qed.
Lemma goes_to_ids rq c s s' : cpu_ids (cpus s) = cpu_ids (cpus s') -> goes_to rq c s = goes_to rq c s'.
Proof. intros E. unfold goes_to. rewrite (ids_self _ _ _ E). by apply matching_ids. Qed.

(** The state changes but no identifier, and no request is forgotten and no freed event comes back. *)
Record grows (s s' : ipc_state) : Prop := {
  gr_ids : cpu_ids (cpus s') = cpu_ids (cpus s);
  gr_requests : forall ev st, requests s !! ev = Some st -> requests s' !! ev = Some st;
  gr_freed : forall ev st, requests s !! ev = Some st -> events s !! ev = None -> events s' !! ev = None }.
Lemma targets_grow s s' ev i : grows s s' -> (i < length (targets ev s))%nat -> (i < length (targets ev s'))%nat.
Proof. intros G. unfold targets. destruct (requests s !! ev) as [st|] eqn:E; [by rewrite (gr_requests _ _ G _ _ E)|cbn; lia]. Qed.
Lemma pc_ok_grow s s' pc : grows s s' -> pc_ok s pc -> pc_ok s' pc.
Proof.
  intros G. pose proof (ids_length _ _ (gr_ids _ _ G)) as El. assert (forall rq c, goes_to rq c s' = goes_to rq c s) as Et by (intros; apply goes_to_ids, G).
  destruct G as [Ei Hr Hf]. destruct pc as [c p|c p]; cbn; rewrite El; intros [Hc H]; (split; [done|]).
  - destruct p as [? [[rq ev]|]| | | | | | | |]; rewrite ?Et; try done.
    + destruct H as [(st&H1&H2) H3]. split; [exists st; split; [by apply Hr|done]|]. intros Hw. by eapply Hf; [exact H1|apply H3].
    + destruct H as [H1 H2]. split; [by apply Hr|done].
    + by apply Hr.
    + destruct H as [(st&H1&H2) H3]. split; [exists st; split; [by apply Hr|done]|done].
    + destruct H as [(st&H1&H2) H3]. split; [exists st; split; [by apply Hr|done]|done].
    + destruct H as [(st&H1&H2) H3]. split; [exists st; split; [by apply Hr|done]|done].
  - destruct p as [| |[ev i]| | | |]; try done. unfold targets in *. destruct (requests s !! ev) as [st|] eqn:E; [by rewrite (Hr _ _ E)|cbn in H; lia].
Qed.
Lemma sent_ok_grow s s' st : grows s s' -> sent_ok st s -> sent_ok st s'.
Proof. intros G (H1&H2&H3). split; [done|]. split; [|done]. rewrite H2. apply goes_to_ids. by rewrite (gr_ids _ _ G). Qed.

(** A step of participant [i] that sends no new event. *)
Lemma ipc_inv_update s i pc pc' l' : ipc_inv s -> pcs s !! i = Some pc ->
  cpu_ids (cpus l') = cpu_ids (cpus (shared s)) -> requests l' = requests (shared s) -> next_event l' = next_event (shared s) ->
  (forall ev c, countp (run_of ev c) (runs l') + queued ev c l' + owed ev c pc' = countp (run_of ev c) (runs (shared s)) + queued ev c (shared s) + owed ev c pc) ->
  (forall ev, event_ok (events l' !! ev) (queued_all ev l' + (sumf (refs ev) (pcs s) - refs ev pc + refs ev pc'))
    (sumf (waiting ev) (pcs s) - waiting ev pc + waiting ev pc') (sumf (signalling ev) (pcs s) - signalling ev pc + signalling ev pc')
    (sumf (waited ev) (pcs s) - waited ev pc + waited ev pc') (sumf (freeing_event ev) (pcs s) - freeing_event ev pc + freeing_event ev pc')) ->
  (forall ev e', events l' !! ev = Some e' -> exists e, events (shared s) !! ev = Some e /\ forall st, fields_ok ev e st -> fields_ok ev e' st) ->
  (forall l ev j, l ∈ lists l' -> (ev, j) ∈ l -> (j < length (targets ev (shared s)))%nat) ->
  pc_ok l' pc' ->
  (forall c p, cpus l' !! c = Some p -> NoOfEventsInList p = Z.of_nat (length (EventList p)) /\
    b2z (irr p) + (sumf (expecting c) (pcs s) - expecting c pc + expecting c pc') <= Z.of_nat (length (EventList p))) ->
  (forall ev c f x, (ev, c, f, x) ∈ runs l' -> exists st, requests l' !! ev = Some st /\ f = rq_Function (st_request st) /\ x = rq_Context (st_request st)) ->
  (forall ev, countp (free_of ev) (frees l') = match events l' !! ev, requests l' !! ev with None, Some st => b2z (negb (0 =? rq_Free (st_request st))) | _, _ => 0 end) ->
  Z.of_nat (size (events l')) <= capacity ->
  ipc_inv (mkSys l' (<[i := pc']> (pcs s))).
Proof.
  intros HI Hi Eids Er En Ho He Hl Hent Hpc Hcpu Hruns Hfrees Hsz.
  assert (grows (shared s) l') as G.
  { split; [done|by rewrite Er|]. intros ev st Hst Hn. destruct (events l' !! ev) as [e'|] eqn:E; [|done]. destruct (Hl ev e' E) as (e&He'&_). congruence. }
  assert (forall ev, targets ev l' = targets ev (shared s)) as Et by (intros; unfold targets; by rewrite Er).
  split; cbn [shared pcs]; try done.
  - intros ev c. rewrite (sumf_update _ _ _ _ _ Hi), Et, <- (ii_owed _ HI ev c). specialize (Ho ev c). lia.
  - intros ev. rewrite !(sumf_update _ _ _ _ _ Hi). apply He.
  - intros ev e' E. destruct (Hl ev e' E) as (e&He'&Hf). destruct (ii_live _ HI ev e He') as (st&Hst&Hok). exists st. rewrite Er. auto.
  - rewrite Er, En. intros ev st Hst. destruct (ii_sent _ HI ev st Hst). split; [done|]. by eapply sent_ok_grow.
  - rewrite En. apply HI.
  - intros l ev j Hl1 Hl2. rewrite Et. by eapply Hent.
  - apply Forall_insert; [|done]. eapply Forall_impl; [apply HI|]. intros q. by apply pc_ok_grow.
  - intros c p Hp. rewrite (sumf_update _ _ _ _ _ Hi). by apply Hcpu.
  - intros c p Hp. by apply (Hcpu c).
  - rewrite Eids. apply HI.
Qed.

(** A step that changes nothing shared. *)
Lemma inv_local s i pc pc' : ipc_inv s -> pcs s !! i = Some pc ->
  (forall ev c, owed ev c pc' = owed ev c pc) -> (forall ev, refs ev pc' = refs ev pc /\ waiting ev pc' = waiting ev pc /\
     signalling ev pc' = signalling ev pc /\ waited ev pc' = waited ev pc /\ freeing_event ev pc' = freeing_event ev pc) ->
  (forall c, expecting c pc' = expecting c pc) -> pc_ok (shared s) pc' -> ipc_inv (mkSys (shared s) (<[i := pc']> (pcs s))).
Proof.
  intros HI Hi Ho Hr Hx Hpc. apply (ipc_inv_update s i pc); try done; try apply HI.
  - intros ev c. by rewrite Ho.
  - intros ev. destruct (Hr ev) as (->&->&->&->&->). rewrite !Z.sub_add. apply HI.
  - intros ev e E. by exists e.
  - intros c p Hp. rewrite Hx, Z.sub_add. split; [by eapply ii_number|by eapply ii_expect].
Qed.

(** ** The steps *)
Context (Hfun : forall f x, SUCCEEDED (broadcast f x) = true) (Hids : Forall (fun a => 0 <= a < 8) ids) (Hlen : Z.of_nat (length ids) < 2 ^ 31)
  (Hcap : capacity <= MAX_DWORD).
Definition preserved (s : sys) (i : nat) (choice : ipc_choice) (pc : ipc_pc) : Prop :=
  exists pc' l', ipc_exec broadcast capacity true (cpu_id i) choice pc (shared s) = Ok (pc', l') /\ ipc_inv (mkSys l' (<[i := pc']> (pcs s))).

Lemma inv_length s : ipc_inv s -> Z.of_nat (length (cpus (shared s))) < 2 ^ 31.
Proof. intros HI. rewrite (ids_length _ _ (ii_ids _ HI)), length_fmap. done. Qed.
Lemma inv_id_ok s c p : ipc_inv s -> cpus (shared s) !! c = Some p -> id_ok p.
Proof.
  intros HI Hp. pose proof (ii_ids _ HI) as E. apply (f_equal (fun l => l !! c)) in E. unfold cpu_ids in E. rewrite !list_lookup_fmap, Hp in E.
  destruct (ids !! c) as [a|] eqn:Ea; [|done]. cbn in E. injection E as E1 E2.
  pose proof (Forall_lookup_1 _ _ _ _ Hids Ea) as Ha. destruct (id_ok_alloc a Ha) as [H1 H2]. unfold id_ok. cbn in H1, H2. rewrite E1, E2. auto.
Qed.

Lemma retrieve_run s c rq max : ipc_inv s -> accepted rq ->
  exists w, _SmpRetrieveMatchingCpus (self_of c (shared s)) (rq_Destination rq) (rq_Mode rq) max (shared s) =
    Ok (if max <? Z.of_nat (length (goes_to rq c (shared s))) then STATUS_BUFFER_TOO_SMALL else STATUS_SUCCESS, Z.of_nat (length (goes_to rq c (shared s))), w) /\
    (Z.of_nat (length (goes_to rq c (shared s))) <= max -> w = goes_to rq c (shared s)).
Proof.
  intros HI (_&Hm&Hd&_). pose proof (inv_length s HI).
  destruct (matching_loop_run (self_of c (shared s)) (rq_Mode rq) (rq_Destination rq) max (cpus (shared s)) Hm 0 0 [] ltac:(lia) ltac:(lia)) as (w&E&Hw).
  exists w. unfold _SmpRetrieveMatchingCpus. rewrite E. cbn [mbind outcome_bind]. rewrite Z.add_0_l in *. done.
Qed.

Lemma thread_self s i c p : ipc_inv s -> pcs s !! i = Some (Thread c p) -> exists q, cpus (shared s) !! c = Some q /\ ApicId q = self_of c (shared s).
Proof.
  intros HI Hi. pose proof (Forall_lookup_1 _ _ _ _ (ii_pc _ HI) Hi) as [Hc _]. apply lookup_lt_is_Some_2 in Hc as [q Hq]. exists q. unfold self_of. by rewrite Hq.
Qed.

Ltac quiet HI Hi := eexists _, _; split; [reflexivity|]; apply (inv_local _ _ _ _ HI Hi); try done.

Lemma step_ready s i c status r choice : ipc_inv s -> pcs s !! i = Some (Thread c (Ready status r)) -> (forall c', choice <> MoveTo c') -> preserved s i choice (Thread c (Ready status r)).
Proof.
  intros HI Hi Hm. destruct (thread_self s i c _ HI Hi) as (q&Hq&Eq). pose proof (Forall_lookup_1 _ _ _ _ (ii_pc _ HI) Hi) as Hpc. unfold preserved, ipc_exec, send_exec.
  rewrite Hq. destruct choice as [b|rq|c']; [| |by destruct (Hm c')]; cbn [of_option mbind outcome_bind]; [quiet HI Hi|].
  unfold legal. destruct (negb (rq_Wait rq) || rq_Enabled rq) eqn:E1, (Z.leb_spec 0 (rq_Mode rq)), (Z.leb_spec 0 (rq_Destination rq)), (Z.ltb_spec (rq_Destination rq) (2 ^ 8)); cbn [andb negb];
    try (by quiet HI Hi).
  destruct (Z.eqb_spec 0 (rq_Function rq)); [quiet HI Hi; by split; [apply Hpc|]|]. destruct (Z.ltb_spec SmpIpiSendMax (rq_Mode rq)); [quiet HI Hi; by split; [apply Hpc|]|].
  quiet HI Hi. split; [apply Hpc|]. split_and!; try lia. by destruct (rq_Wait rq).
Qed.

Lemma step_count s i c rq choice : ipc_inv s -> pcs s !! i = Some (Thread c (CountCpus rq)) -> (forall c', choice <> MoveTo c') -> preserved s i choice (Thread c (CountCpus rq)).
Proof.
  intros HI Hi Hm. destruct (thread_self s i c _ HI Hi) as (q&Hq&Eq). pose proof (Forall_lookup_1 _ _ _ _ (ii_pc _ HI) Hi) as [Hc Hpc]. unfold preserved.
  destruct (retrieve_run s c rq 0 HI Hpc) as (w&Er&_).
  assert (ipc_exec broadcast capacity true (cpu_id i) choice (Thread c (CountCpus rq)) (shared s) = Ok (Thread c (if 0 =? Z.of_nat (length (goes_to rq c (shared s))) then Ready STATUS_CPU_NO_MATCHES None else ListCpus rq (Z.of_nat (length (goes_to rq c (shared s))))), shared s)) as E.
  { unfold ipc_exec, send_exec. rewrite Hq. cbn [of_option mbind outcome_bind]. rewrite Eq, Er. cbn [mbind outcome_bind].
    clear Er. set (n := Z.of_nat _). clearbody n. destruct choice; try (by destruct (Hm c0)); destruct (0 <? n), (0 =? n); reflexivity. }
  rewrite E. destruct (Z.eqb_spec 0 (Z.of_nat (length (goes_to rq c (shared s))))); quiet HI Hi.
Qed.

Lemma step_list s i c rq n choice : ipc_inv s -> pcs s !! i = Some (Thread c (ListCpus rq n)) -> (forall c', choice <> MoveTo c') -> preserved s i choice (Thread c (ListCpus rq n)).
Proof.
  intros HI Hi Hm. destruct (thread_self s i c _ HI Hi) as (q&Hq&Eq). pose proof (Forall_lookup_1 _ _ _ _ (ii_pc _ HI) Hi) as (Hc&Ha&Hn&Hn0). unfold preserved.
  destruct (retrieve_run s c rq n HI Ha) as (w&Er&Hw). rewrite <- Hn in *. rewrite Z.ltb_irrefl in Er. specialize (Hw ltac:(lia)).
  assert (ipc_exec broadcast capacity true (cpu_id i) choice (Thread c (ListCpus rq n)) (shared s) = Ok (Thread c (Generate rq w), shared s)) as E.
  { unfold ipc_exec, send_exec. rewrite Hq. cbn [of_option mbind outcome_bind]. rewrite Eq, Er. cbn. rewrite Z.eqb_refl. by destruct choice; try (by destruct (Hm c0)). }
  rewrite E. quiet HI Hi. split; [done|]. split_and!; [apply Ha..|done|]. intros ->. rewrite <- Hw in Hn. cbn in Hn. lia.
Qed.

(** *** A new event *)
Lemma reference_loop_run n : forall s k, ReferenceCount (rf_object s) = k -> 0 <= k -> k + Z.of_nat n < MAX_DWORD ->
  reference_loop n s = Ok (tt, set_count (k + Z.of_nat n) s).
Proof.
  induction n as [|n IH]; intros s k Hk H0 Hn.
  { cbn. unfold ret. rewrite Z.add_0_r, <- Hk. by destruct s as [[] ? ?]. }
  cbn [reference_loop]. rewrite (bind_run _ _ _ (k + 1) (set_count (k + 1) s)).
  2:{ rewrite (RfcReference_run s k Hk) by lia. by rewrite (proj2 (Z.eqb_neq (k + 1) MAX_DWORD)) by lia. }
  rewrite (IH _ (k + 1)) by (done || lia). unfold set_count. cbn. replace (k + 1 + Z.of_nat n) with (k + Z.of_nat (S n)) by lia. done.
Qed.

Definition fresh_event (rq : request) (ev : Z) (n : nat) : IPC_EVENT :=
  mkIpc (mkREF_COUNT (Z.of_nat n + b2z (rq_Wait rq)) free_event_address 0) (rq_Function rq) (rq_Context rq) (rq_Wait rq)
    (mkEVENT 0 (if rq_Wait rq then EventTypeSynchronization else EventTypeNotification)) (rq_Free rq) (rq_FreeContext rq) (replicate n ev).
Lemma generate_run rq c to s : rq_Function rq <> 0 -> to <> [] -> Z.of_nat (length to) < 2 ^ 31 ->
  IpcGenerateEvent true rq c to (Z.of_nat (length to)) s =
    Ok (next_event s, mkIst (cpus s) (<[next_event s := fresh_event rq (next_event s) (length to)]> (events s)) (next_event s + 1)
      (<[next_event s := mkSent rq c to]> (requests s)) (runs s) (frees s)).
Proof.
  intros Hf Ht Hn. assert (length to <> O) by (by destruct to). unfold IpcGenerateEvent. rewrite (proj2 (Z.eqb_neq 0 (rq_Function rq))) by lia.
  rewrite (proj2 (Z.eqb_neq 0 (Z.of_nat (length to)))) by lia. cbn [negb].
  set (e := mkIpc (mkREF_COUNT 1 free_event_address 0) (rq_Function rq) (rq_Context rq) (rq_Wait rq) (mkEVENT 0 (if rq_Wait rq then EventTypeSynchronization else EventTypeNotification))
    (rq_Free rq) (rq_FreeContext rq) (replicate (length to) (next_event s))).
  assert (on_count (reference_loop (Z.to_nat (if rq_Wait rq then Z.of_nat (length to) else u32 (Z.of_nat (length to) - 1)))) e = Ok (tt, fresh_event rq (next_event s) (length to))) as E.
  { unfold on_count. rewrite (reference_loop_run _ _ 1); [|done|lia|destruct (rq_Wait rq); [|rewrite u32_small by rlia]; unfold MAX_DWORD; lia].
    cbn. unfold fresh_event. do 4 f_equal. destruct (rq_Wait rq); [|rewrite u32_small by rlia]; cbn; lia. }
  rewrite Nat2Z.id. unfold e in E. unfold RfcPreInit, EvtInitialize, RfcInit. rewrite bool_decide_false by done. change EVENT_STATE_NOT_SIGNALED with 0.
  destruct (rq_Wait rq); change (SUCCEEDED STATUS_SUCCESS) with true; cbn [negb]; cbv zeta in *; by rewrite E.
Qed.

(** An address that was never used. *)
Lemma fresh_zero s ev : ipc_inv s -> requests (shared s) !! ev = None ->
  events (shared s) !! ev = None /\ targets ev (shared s) = [] /\ queued_all ev (shared s) = 0 /\ sumf (refs ev) (pcs s) = 0 /\ sumf (waiting ev) (pcs s) = 0 /\
  sumf (signalling ev) (pcs s) = 0 /\ sumf (freeing_event ev) (pcs s) = 0 /\ sumf (waited ev) (pcs s) = 0 /\
  forall c, countp (run_of ev c) (runs (shared s)) = 0 /\ queued ev c (shared s) = 0 /\ sumf (owed ev c) (pcs s) = 0.
Proof.
  intros HI Hr. destruct (events (shared s) !! ev) as [e|] eqn:E; [destruct (ii_live _ HI ev e E) as (st&?&_); congruence|].
  pose proof (ii_event _ HI ev) as He. rewrite E in He. destruct He as (H1&H2&H3&H4).
  assert (targets ev (shared s) = []) as Et by (unfold targets; by rewrite Hr).
  pose proof (sumf_pos (refs ev) (pcs s) (refs_range ev)). pose proof (queued_range ev 0 (shared s)).
  pose proof (sumf_pos (waited ev) (pcs s) (fun pc => proj1 (waited_range ev pc))).
  assert (sumf (waited ev) (pcs s) <= sumf (refs ev) (pcs s)).
  { destruct (pcs s) as [|q l] eqn:El; [done|]. pose proof (sumf_le_at (waited ev) (refs ev) (q :: l) 0 q (fun pc => proj2 (waited_range ev pc)) eq_refl).
    pose proof (waited_range ev q). lia. }
  split_and!; try done; try lia. intros c. pose proof (ii_owed _ HI ev c) as Ho. rewrite Et in Ho. cbn in Ho.
  pose proof (countp_range (run_of ev c) (runs (shared s))). pose proof (queued_range ev c (shared s)). pose proof (sumf_pos (owed ev c) (pcs s) (owed_range ev c)). lia.
Qed.

Lemma step_generate s i c rq to choice : ipc_inv s -> pcs s !! i = Some (Thread c (Generate rq to)) -> (forall c', choice <> MoveTo c') -> preserved s i choice (Thread c (Generate rq to)).
Proof.
  intros HI Hi Hm. destruct (thread_self s i c _ HI Hi) as (q&Hq&Eq). pose proof (Forall_lookup_1 _ _ _ _ (ii_pc _ HI) Hi) as (Hc&Ha&Hto&Hne).
  set (room := match choice with Go b => b && (Z.of_nat (size (events (shared s))) <? capacity) | _ => false end).
  assert (ipc_exec broadcast capacity true (cpu_id i) choice (Thread c (Generate rq to)) (shared s) =
    '(ev, s') ← IpcGenerateEvent room rq c to (Z.of_nat (length to)) (shared s); Ok (Thread c (if ev =? 0 then Ready STATUS_UNSUCCESSFUL None else Insert rq ev to 0), s')) as E.
  { unfold ipc_exec, send_exec. rewrite Hq. cbn [of_option mbind outcome_bind]. fold room. destruct choice; try (by destruct (Hm c0));
      (destruct (IpcGenerateEvent _ _ _ _ _ _) as [[ev s']|]; [cbn; by destruct (ev =? 0)|done]). }
  unfold preserved. rewrite E. clear E. destruct room eqn:Er.
  2:{ assert (IpcGenerateEvent false rq c to (Z.of_nat (length to)) (shared s) = Ok (0, shared s)) as -> by (unfold IpcGenerateEvent; by repeat case_match). quiet HI Hi. }
  assert (Z.of_nat (size (events (shared s))) < capacity) as Hsz by (unfold room in Er; destruct choice as [[]| |]; try done; cbn in Er; by apply Z.ltb_lt).
  assert (Z.of_nat (length to) < 2 ^ 31) as Hl.
  { pose proof (inv_length s HI). rewrite Hto. unfold goes_to. pose proof (matching_length (self_of c (shared s)) (rq_Mode rq) (rq_Destination rq) (cpus (shared s)) 0). lia. }
  pose proof (ii_next _ HI) as Hnx. rewrite generate_run by (done || apply Ha). cbn [mbind outcome_bind]. rewrite (proj2 (Z.eqb_neq _ 0)) by lia. eexists _, _. split; [reflexivity|].
  set (ev0 := next_event (shared s)). assert (requests (shared s) !! ev0 = None) as Hr0.
  { destruct (requests (shared s) !! ev0) as [st|] eqn:E; [|done]. destruct (ii_sent _ HI _ _ E). lia. }
  destruct (fresh_zero s ev0 HI Hr0) as (Ze&Zt&Zq&Zr&Zw&Zs&Zf&Zd&Zc).
  set (l' := mkIst _ _ _ _ _ _). assert (grows (shared s) l') as G.
  { split; [done| |]; intros ev st Hst; [|intros Hn]; cbn; rewrite lookup_insert_ne; try done; intros <-; congruence. }
  assert (forall ev, targets ev l' = if ev0 =? ev then to else targets ev (shared s)) as Et.
  { intros ev. unfold targets. cbn. destruct (Z.eqb_spec ev0 ev) as [<-|Hn]; [by rewrite lookup_insert_eq|by rewrite lookup_insert_ne]. }
  assert (forall ev, queued_all ev l' = queued_all ev (shared s)) as Eqa by done. assert (forall ev c, queued ev c l' = queued ev c (shared s)) as Eqd by done.
  split; cbn [shared pcs].
  - intros ev k. rewrite (sumf_update _ _ _ _ _ Hi), Et, Eqd. pose proof (ii_owed _ HI ev k) as Ho. cbn [owed runs l']. rewrite drop_0.
    destruct (Z.eqb_spec ev0 ev) as [<-|Hn]; [|lia]. destruct (Zc k) as (->&->&->). lia.
  - intros ev. rewrite !(sumf_update _ _ _ _ _ Hi), Eqa. pose proof (ii_event _ HI ev) as He. cbn [refs waiting signalling waited freeing_event events l'].
    destruct (Z.eqb_spec ev0 ev) as [<-|Hn]; cbn [andb b2z].
    + rewrite lookup_insert_eq, Zq, Zr, Zw, Zs, Zf, Zd. cbn. rewrite drop_0. assert (length to <> O) by (by destruct to).
      split_and!; [lia|lia| |by left|]; unfold b2z; destruct (rq_Wait rq); zbool; try done; try lia.
    + rewrite lookup_insert_ne by done. by rewrite !Z.sub_0_r, !Z.add_0_r.
  - intros ev e. cbn. destruct (decide (ev0 = ev)) as [<-|Hn].
    + rewrite !lookup_insert_eq. intros [= <-]. eexists. split; [reflexivity|]. split_and!; try done; cbn; [by intros ->|]. unfold b2z, MAX_DWORD. destruct (rq_Wait rq); lia.
    + rewrite !lookup_insert_ne by done. apply HI.
  - intros ev st. cbn. destruct (decide (ev0 = ev)) as [<-|Hn].
    + rewrite lookup_insert_eq. intros [= <-]. split; [lia|]. split_and!; [apply Ha..|done|done].
    + rewrite lookup_insert_ne by done. intros Hst. destruct (ii_sent _ HI ev st Hst). split; [lia|]. by eapply sent_ok_grow.
  - cbn. lia.
  - intros l ev j Hl1 Hl2. eapply targets_grow; [done|]. by eapply (ii_entry _ HI l).
  - apply Forall_insert; [eapply Forall_impl; [apply HI|intros; by eapply pc_ok_grow]|]. split; [done|]. split; [cbn; by rewrite lookup_insert_eq|lia].
  - intros k p Hp. rewrite (sumf_update _ _ _ _ _ Hi). cbn [expecting]. rewrite take_0. cbn [countp]. pose proof (ii_expect _ HI k p Hp). lia.
  - apply HI.
  - apply HI.
  - cbn. rewrite map_size_insert_None by done. lia.
  - intros ev k f x Hx. destruct (ii_runs _ HI ev k f x Hx) as (st&Hst&?). exists st. split; [by apply G|done].
  - intros ev. cbn. rewrite (ii_frees _ HI ev). destruct (decide (ev0 = ev)) as [<-|Hn]; [by rewrite !lookup_insert_eq, Ze, Hr0|by rewrite !lookup_insert_ne].
Qed.

(** *** The lists of events *)
Lemma queued_update s l' k L L' : lists s !! k = Some L -> lists l' = <[k := L']> (lists s) ->
  (forall ev c, queued ev c l' = queued ev c s + (if Nat.eqb k c then countp (of_event ev) L' - countp (of_event ev) L else 0)) /\
  (forall ev, queued_all ev l' = queued_all ev s - countp (of_event ev) L + countp (of_event ev) L').
Proof.
  intros HL El. split.
  - intros ev c. unfold queued. rewrite El. destruct (Nat.eqb_spec k c) as [<-|Hn]; [|rewrite list_lookup_insert_ne by done; lia].
    rewrite list_lookup_insert_eq by (by eapply lookup_lt_Some). rewrite HL. cbn. lia.
  - intros ev. unfold queued_all. by rewrite El, (sumf_update _ _ _ _ _ HL).
Qed.

(** What a participant that refers to an event knows of it. *)
Lemma event_live s ev : ipc_inv s -> 0 < queued_all ev (shared s) + sumf (refs ev) (pcs s) + sumf (signalling ev) (pcs s) + sumf (freeing_event ev) (pcs s) ->
  exists e st, events (shared s) !! ev = Some e /\ requests (shared s) !! ev = Some st /\ fields_ok ev e st /\ sent_ok st (shared s).
Proof.
  intros HI H. pose proof (ii_event _ HI ev) as He. destruct (events (shared s) !! ev) as [e|] eqn:E; [|cbn in He; lia].
  destruct (ii_live _ HI ev e E) as (st&Hst&Hf). exists e, st. split_and!; try done; by apply (ii_sent _ HI ev).
Qed.
Lemma sum_ge f l (i : nat) (pc : ipc_pc) : (forall pc, 0 <= f pc) -> l !! i = Some pc -> f pc <= sumf f l.
Proof. intros H. apply sumf_ge, Forall_forall. auto. Qed.
Lemma pc_live s i pc ev : ipc_inv s -> pcs s !! i = Some pc -> 0 < refs ev pc + signalling ev pc + freeing_event ev pc ->
  exists e st, events (shared s) !! ev = Some e /\ requests (shared s) !! ev = Some st /\ fields_ok ev e st /\ sent_ok st (shared s).
Proof.
  intros HI Hi H. apply event_live; [done|]. pose proof (queued_range ev 0 (shared s)).
  pose proof (sum_ge _ _ _ _ (refs_range ev) Hi). pose proof (sum_ge _ _ _ _ (signalling_range ev) Hi). pose proof (sum_ge _ _ _ _ (freeing_range ev) Hi).
  pose proof (refs_range ev pc). pose proof (signalling_range ev pc). pose proof (freeing_range ev pc). lia.
Qed.
Lemma entry_live s L ev j : ipc_inv s -> L ∈ lists (shared s) -> (ev, j) ∈ L -> exists e, events (shared s) !! ev = Some e /\ is_Some (CpuEvents e !! j).
Proof.
  intros HI HL Hj. destruct (event_live s ev HI) as (e&st&He&Hst&Hf&_).
  { apply list_elem_of_lookup in HL as [k Hk]. apply list_elem_of_lookup in Hj as [m Hm].
    pose proof (countp_pos (of_event ev) L m _ Hm ltac:(unfold of_event; cbn; lia)). pose proof (queued_range ev k (shared s)) as Hq. unfold queued in Hq. rewrite Hk in Hq. cbn in Hq.
    pose proof (sumf_pos _ (pcs s) (refs_range ev)). pose proof (sumf_pos _ (pcs s) (signalling_range ev)). pose proof (sumf_pos _ (pcs s) (freeing_range ev)). lia. }
  exists e. split; [done|]. pose proof (ii_entry _ HI L ev j HL Hj) as Hlt. unfold targets in Hlt. rewrite Hst in Hlt. destruct Hf as (_&_&_&_&_&->&_).
  apply lookup_lt_is_Some. by rewrite length_replicate.
Qed.
Lemma touch_entry s L x : ipc_inv s -> L ∈ lists (shared s) -> (forall y, x = Some y -> y ∈ L) -> touch x (shared s) = Ok tt.
Proof.
  intros HI HL Hx. destruct x as [[ev j]|]; [|done]. destruct (entry_live s L ev j HI HL (Hx _ eq_refl)) as (e&He&[y Hy]). cbn. rewrite He. cbn. by rewrite Hy.
Qed.

(** A list holds an entry of an event at most once, so it is no longer than the number of events. *)
Lemma list_nodup s L : ipc_inv s -> L ∈ lists (shared s) -> NoDup L.*1.
Proof.
  intros HI HL. apply NoDup_alt. intros a b x Ha Hb. destruct (decide (a = b)) as [|Hne]; [done|]. exfalso. rewrite list_lookup_fmap in Ha, Hb.
  destruct (L !! a) as [[x1 j1]|] eqn:Ea, (L !! b) as [[x2 j2]|] eqn:Eb; try done. cbn in Ha, Hb. injection Ha as ->. injection Hb as ->.
  pose proof (countp_two (of_event x) L a b _ _ Hne Ea Eb ltac:(unfold of_event; cbn; lia) ltac:(unfold of_event; cbn; lia)) as H2.
  apply list_elem_of_lookup in HL as [k Hk]. pose proof (ii_owed _ HI x k) as Ho. unfold queued in Ho. rewrite Hk in Ho. cbn in Ho.
  pose proof (countp_range (run_of x k) (runs (shared s))). pose proof (sumf_pos _ (pcs s) (owed_range x k)).
  assert (countp (Nat.eqb k) (targets x (shared s)) <= 1); [|lia]. apply countp_nodup. unfold targets. destruct (requests (shared s) !! x) as [st|] eqn:Er; [|constructor].
  destruct (ii_sent _ HI _ _ Er) as (_&_&->&_). apply matching_nodup.
Qed.
Lemma events_bound s l : ipc_inv s -> NoDup l -> (forall ev, ev ∈ l -> is_Some (events (shared s) !! ev)) -> Z.of_nat (length l) <= MAX_DWORD.
Proof.
  intros HI Hnd Hl. assert (length l <= size (dom (events (shared s))))%nat as Hle.
  { rewrite <- (size_list_to_set (C := gset Z)) by done. apply subseteq_size. intros x Hx%elem_of_list_to_set. by apply elem_of_dom, Hl. }
  rewrite size_dom in Hle. pose proof (ii_room _ HI). lia.
Qed.
Lemma list_bound s L : ipc_inv s -> L ∈ lists (shared s) -> Z.of_nat (length L) <= MAX_DWORD.
Proof.
  intros HI HL. rewrite <- (length_fmap fst L). apply (events_bound s); [done|by eapply list_nodup|]. intros x ([y j]&->&Hy)%list_elem_of_fmap.
  destruct (entry_live s L y j HI HL Hy) as (e&He&_). by exists e.
Qed.
Lemma list_bound_new s L ev : ipc_inv s -> L ∈ lists (shared s) -> countp (of_event ev) L = 0 -> is_Some (events (shared s) !! ev) ->
  Z.of_nat (length L) + 1 <= MAX_DWORD.
Proof.
  intros HI HL H0 Hev. assert (Z.of_nat (length (ev :: L.*1)) <= MAX_DWORD) as Hb; [|cbn in Hb; rewrite length_fmap in Hb; lia].
  apply (events_bound s); [done| |].
  - apply NoDup_cons. split; [|by eapply list_nodup]. intros ([x j]&Ex&Hx)%list_elem_of_fmap. cbn in Ex. subst x. apply list_elem_of_lookup in Hx as [m Hm].
    pose proof (countp_pos (of_event ev) L m _ Hm ltac:(unfold of_event; cbn; lia)). lia.
  - intros x [->|([y j]&->&Hy)%list_elem_of_fmap]%elem_of_cons; [done|]. destruct (entry_live s L y j HI HL Hy) as (e&He&_). by exists e.
Qed.

Lemma lists_insert s k p' : lists (with_cpus (<[k := p']> (cpus s)) s) = <[k := EventList p']> (lists s).
Proof. unfold lists. cbn. by rewrite list_fmap_insert. Qed.
Lemma ids_insert (l : list PCPU) k p p' : l !! k = Some p -> ApicId p' = ApicId p -> LogicalApicId p' = LogicalApicId p -> cpu_ids (<[k := p']> l) = cpu_ids l.
Proof. intros Hp E1 E2. unfold cpu_ids. rewrite list_fmap_insert, E1, E2, list_insert_id; [done|]. by rewrite list_lookup_fmap, Hp. Qed.
Lemma lists_elem_insert s k p p' L : cpus s !! k = Some p -> L ∈ lists (with_cpus (<[k := p']> (cpus s)) s) -> L = EventList p' \/ L ∈ lists s.
Proof.
  intros Hp. rewrite lists_insert. intros (j&Hj)%list_elem_of_lookup. destruct (decide (k = j)) as [<-|Hn].
  - rewrite list_lookup_insert_eq in Hj by (unfold lists; rewrite length_fmap; by eapply lookup_lt_Some). left. congruence.
  - rewrite list_lookup_insert_ne in Hj by done. right. by eapply list_elem_of_lookup_2.
Qed.
Lemma cpu_list s k p : cpus s !! k = Some p -> lists s !! k = Some (EventList p) /\ EventList p ∈ lists s.
Proof. intros Hp. assert (lists s !! k = Some (EventList p)) as H by (unfold lists; by rewrite list_lookup_fmap, Hp). split; [done|]. by eapply list_elem_of_lookup_2. Qed.
(** The processors after a change of one of them. *)
Lemma cpus_insert (P : nat -> PCPU -> Prop) (l : list PCPU) k p' : P k p' -> (forall c p, l !! c = Some p -> c <> k -> P c p) -> forall c p, <[k := p']> l !! c = Some p -> P c p.
Proof.
  intros H1 H2 c p Hp. destruct (decide (k = c)) as [<-|Hn]; [|rewrite list_lookup_insert_ne in Hp by done; by apply H2].
  destruct (decide (k < length l)%nat); [|rewrite list_insert_ge, lookup_ge_None_2 in Hp by lia; done]. rewrite list_lookup_insert_eq in Hp by done. by injection Hp as <-.
Qed.
Lemma goes_to_lt s c rq k : k ∈ goes_to rq c s -> exists p, cpus s !! k = Some p /\ matches (self_of c s) (rq_Mode rq) (rq_Destination rq) p = true.
Proof. intros (j&p&->&Hj&Hm)%matching_elem. exists p. done. Qed.

Lemma thread_exec i c p choice s : (forall c', choice <> MoveTo c') ->
  ipc_exec broadcast capacity true i choice (Thread c p) s = '(p', s') ← send_exec capacity c choice p s; Ok (Thread c p', s').
Proof. intros Hm. unfold ipc_exec. by destruct choice; try (by destruct (Hm c0)). Qed.

Lemma step_insert s i c rq ev to j choice : ipc_inv s -> pcs s !! i = Some (Thread c (Insert rq ev to j)) -> (forall c', choice <> MoveTo c') -> preserved s i choice (Thread c (Insert rq ev to j)).
Proof.
  intros HI Hi Hm. destruct (thread_self s i c _ HI Hi) as (q&Hq&Eq). pose proof (Forall_lookup_1 _ _ _ _ (ii_pc _ HI) Hi) as (Hc&Hst&Hj).
  destruct (ii_sent _ HI _ _ Hst) as [Hevr (Ha&Hto&_)]. cbn in Ha, Hto. unfold preserved.
  rewrite thread_exec by done. unfold send_exec. rewrite Hq. cbn [of_option mbind outcome_bind]. destruct (to !! j) as [k|] eqn:Ek.
  2:{ apply lookup_ge_None in Ek. assert (j = length to) as -> by lia. cbn [mbind outcome_bind]. quiet HI Hi.
      - intros e k. cbn. rewrite drop_all. by case_match.
      - intros e. cbn. rewrite drop_all. split_and!; try done. destruct (ev =? e), (rq_Wait rq); done.
      - intros k. cbn. by rewrite take_ge by lia. }
  destruct (goes_to_lt (shared s) c rq k) as (p&Hp&_); [rewrite <- Hto; by eapply list_elem_of_lookup_2|]. destruct (cpu_list _ _ _ Hp) as [HL HLe].
  destruct (pc_live s i _ ev HI Hi) as (e&st&He&Hst'&Hf&_).
  { cbn. rewrite Z.eqb_refl. rewrite length_drop. pose proof (lookup_lt_Some _ _ _ Ek). unfold b2z. case_match; lia. }
  assert (st = mkSent rq c to) as -> by congruence. pose proof (drop_S _ _ _ Ek) as Ed. pose proof (take_S_r _ _ _ Ek) as Etk.
  assert (touch (Some (ev, j)) (shared s) = Ok tt) as Et1.
  { cbn. rewrite He. cbn. destruct Hf as (_&_&_&_&_&->&_). rewrite lookup_replicate_2; [done|]. cbn. by eapply lookup_lt_Some. }
  assert (touch (last (EventList p)) (shared s) = Ok tt) as Et2.
  { eapply touch_entry; [done|exact HLe|]. intros y Hy. rewrite last_lookup in Hy. by eapply list_elem_of_lookup_2. }
  assert (countp (of_event ev) (EventList p) = 0) as Hq0.
  { pose proof (ii_owed _ HI ev k) as Ho. unfold queued in Ho. rewrite HL in Ho. cbn in Ho. pose proof (sum_ge _ _ _ _ (owed_range ev k) Hi) as Hge. cbn in Hge.
    rewrite Z.eqb_refl, Ed in Hge. cbn in Hge. rewrite Nat.eqb_refl in Hge. cbn in Hge. pose proof (countp_range (Nat.eqb k) (drop (S j) to)).
    unfold targets in Ho. rewrite Hst in Ho. cbn in Ho. assert (countp (Nat.eqb k) to <= 1) by (apply countp_nodup; rewrite Hto; apply matching_nodup).
    pose proof (countp_range (run_of ev k) (runs (shared s))). pose proof (countp_range (of_event ev) (EventList p)). lia. }
  pose proof (list_bound_new s (EventList p) ev HI HLe Hq0 ltac:(by exists e)) as Hlb. unfold insert_event. rewrite Hp. cbn [of_option mbind outcome_bind]. rewrite Et1, Et2. cbn [mbind outcome_bind].
  pose proof (ii_number _ HI k p Hp) as Hnum. rewrite u32_small by rlia.
  eexists _, _. split; [reflexivity|]. set (p' := mkPcpu _ _ _ _ _).
  destruct (queued_update (shared s) (with_cpus (<[k := p']> (cpus (shared s))) (shared s)) k _ _ HL (lists_insert _ _ _)) as [Hqd Hqa].
  assert (forall x, countp (of_event x) (EventList p') = countp (of_event x) (EventList p) + b2z (ev =? x)) as Ec.
  { intros x. unfold p'. cbn [EventList]. rewrite countp_app. unfold of_event at 2. cbn. lia. }
  apply (ipc_inv_update s i (Thread c (Insert rq ev to j))); try done.
  - cbn. by apply (ids_insert _ _ p).
  - intros x m. rewrite Hqd, Ec. cbn [runs with_cpus owed]. rewrite Ed. cbn [countp]. rewrite (Nat.eqb_sym m k). destruct (Nat.eqb k m), (ev =? x); cbn [b2z]; lia.
  - intros x. rewrite Hqa, Ec. cbn [events with_cpus refs waiting signalling waited freeing_event]. pose proof (ii_event _ HI x) as Hx. rewrite Ed. cbn [length].
    rewrite !Z.sub_add. assert (queued_all x (shared s) - countp (of_event x) (EventList p) + (countp (of_event x) (EventList p) + b2z (ev =? x)) +
      (sumf (refs x) (pcs s) - (if ev =? x then Z.of_nat (S (length (drop (S j) to))) + b2z (rq_Wait rq) else 0) + (if ev =? x then Z.of_nat (length (drop (S j) to)) + b2z (rq_Wait rq) else 0)) =
      queued_all x (shared s) + sumf (refs x) (pcs s)) as -> by (destruct (ev =? x); cbn [b2z]; lia). done.
  - intros x e' Hx. by exists e'.
  - intros L x m HL1 HL2. apply (lists_elem_insert _ _ p) in HL1 as [->|HL1]; [|by eapply (ii_entry _ HI L)|done]. unfold p' in HL2. cbn in HL2.
    apply elem_of_app in HL2 as [HL2|HL2]; [by eapply (ii_entry _ HI (EventList p))|]. apply list_elem_of_singleton in HL2. injection HL2 as -> ->.
    unfold targets. rewrite Hst. cbn. by eapply lookup_lt_Some.
  - split; [cbn; by rewrite length_insert|]. split; [done|]. by eapply lookup_lt_Some.
  - cbn [with_cpus cpus]. apply cpus_insert.
    + unfold p'. cbn [NoOfEventsInList EventList irr expecting]. rewrite length_app, Etk, countp_app. cbn [length countp]. rewrite Nat.eqb_refl. cbn [b2z].
      pose proof (ii_expect _ HI k p Hp). split; lia.
    + intros m p2 Hp2 Hne. split; [by eapply ii_number|]. cbn [expecting]. rewrite Etk, countp_app. cbn. rewrite (proj2 (Nat.eqb_neq _ _)) by done. pose proof (ii_expect _ HI m p2 Hp2). cbn. lia.
  - apply HI.
  - apply HI.
  - apply HI.
Qed.

(** *** Sending, waiting and freeing *)
Lemma fmap_same_lists self icr s : lists (with_cpus (interrupt self icr <$> cpus s) s) = lists s /\ cpu_ids (interrupt self icr <$> cpus s) = cpu_ids (cpus s).
Proof. unfold lists, cpu_ids. cbn. rewrite <- !list_fmap_compose. done. Qed.

Lemma step_send s i c rq ev to choice : ipc_inv s -> pcs s !! i = Some (Thread c (Send rq ev to)) -> (forall c', choice <> MoveTo c') -> preserved s i choice (Thread c (Send rq ev to)).
Proof.
  intros HI Hi Hm. destruct (thread_self s i c _ HI Hi) as (q&Hq&Eq). pose proof (Forall_lookup_1 _ _ _ _ (ii_pc _ HI) Hi) as (Hc&Hst).
  destruct (ii_sent _ HI _ _ Hst) as [Hevr (Ha&Hto&Hne)]. cbn in Ha, Hto, Hne. pose proof Ha as (Hen&Hmode&Hdest&_). unfold preserved. rewrite thread_exec by done. unfold send_exec. rewrite Hq. cbn [of_option mbind outcome_bind].
  set (icr := _SmpSendIpcIpi _ _). rewrite Eq. set (self := self_of c (shared s)). set (l' := with_cpus _ _). destruct (fmap_same_lists self icr (shared s)) as [El Eid]. change (lists l' = lists (shared s)) in El.
  set (pc' := if rq_Wait rq then Wait_ rq ev else Ready STATUS_SUCCESS (Some (rq, ev))).
  assert (forall b, (b ← (if rq_Wait rq then _ ← assert_ (b || rq_Enabled rq); Ok (Wait_ rq ev, l') else Ok (Ready STATUS_SUCCESS (Some (rq, ev)), l')); let '(p', s') := b in Ok (Thread c p', s')) = Ok (Thread c pc', l')) as E.
  { intros b. unfold pc'. destruct (rq_Wait rq); [|done]. by rewrite Hen, orb_true_r. }
  rewrite E. eexists _, _. split; [reflexivity|].
  assert (forall ev c, queued ev c l' = queued ev c (shared s)) as Eqd by (intros; unfold queued; by rewrite El).
  assert (forall ev, queued_all ev l' = queued_all ev (shared s)) as Eqa by (intros; unfold queued_all; by rewrite El).
  apply (ipc_inv_update s i (Thread c (Send rq ev to))); try done; try apply HI.
  - intros x k. rewrite Eqd. unfold pc'. by destruct (rq_Wait rq).
  - intros x. rewrite Eqa. pose proof (ii_event _ HI x) as Hx. unfold pc'. destruct (rq_Wait rq) eqn:Ew; cbn; rewrite Ew; rewrite ?andb_true_r, ?andb_false_r; cbn [b2z]; by rewrite !Z.sub_add.
  - intros x e Hx. by exists e.
  - rewrite El. apply HI.
  - unfold pc'. destruct (rq_Wait rq) eqn:Ew; (split; [cbn; by rewrite length_fmap|]); (split; [by exists (mkSent rq c to)|]); [done|]. by rewrite Ew.
  - intros k p' Hp'. cbn in Hp'. rewrite list_lookup_fmap in Hp'. destruct (cpus (shared s) !! k) as [p|] eqn:Hp; [|done]. injection Hp' as <-. cbn [interrupt NoOfEventsInList EventList irr].
    split; [by eapply ii_number|]. pose proof (ii_expect _ HI k p Hp) as Hx. assert (expecting k (Thread c pc') = 0) as -> by (unfold pc'; by destruct (rq_Wait rq)).
    assert (b2z (accepts self icr p) <= countp (Nat.eqb k) to); [|destruct (irr p), (accepts self icr p); cbn in *; lia].
    destruct (accepts self icr p) eqn:Eacc; [|apply countp_range]. unfold icr in Eacc. rewrite interrupt_matches in Eacc; [|by eapply inv_id_ok|done|lia|].
    + assert (k ∈ to) as (m&Hk)%list_elem_of_lookup by (rewrite Hto; apply matching_elem; by exists k, p). apply (countp_pos _ _ m k Hk). apply Nat.eqb_refl.
    + intros Hm0 Hff. destruct to as [|k0 to]; [done|]. destruct (goes_to_lt (shared s) c rq k0) as (p0&Hp0&Hmt); [rewrite <- Hto; by left|].
      rewrite Hm0, Hff in Hmt. unfold matches in Hmt. cbn in Hmt. destruct (inv_id_ok s k0 p0 HI Hp0). lia.
Qed.

(** A step that changes one event, or frees it. *)
Lemma inv_event_step s i pc pc' ev o e fr : ipc_inv s -> pcs s !! i = Some pc -> events (shared s) !! ev = Some e ->
  (forall e' t, o = Some e' -> fields_ok ev e t -> fields_ok ev e' t) ->
  (forall x k, owed x k pc' = owed x k pc) -> (forall k, expecting k pc' = expecting k pc) ->
  (forall x, x <> ev -> refs x pc' = refs x pc /\ waiting x pc' = waiting x pc /\ signalling x pc' = signalling x pc /\ waited x pc' = waited x pc /\ freeing_event x pc' = freeing_event x pc) ->
  event_ok o (queued_all ev (shared s) + sumf (refs ev) (pcs s) - refs ev pc + refs ev pc') (sumf (waiting ev) (pcs s) - waiting ev pc + waiting ev pc')
    (sumf (signalling ev) (pcs s) - signalling ev pc + signalling ev pc') (sumf (waited ev) (pcs s) - waited ev pc + waited ev pc')
    (sumf (freeing_event ev) (pcs s) - freeing_event ev pc + freeing_event ev pc') ->
  fr = frees (shared s) ++ match o with Some _ => [] | None => if negb (0 =? ipc_FreeFunction e) then [(ev, ipc_FreeFunction e, ipc_Context e, FreeFunctionContext e)] else [] end ->
  let l' := mkIst (cpus (shared s)) (partial_alter (fun _ => o) ev (events (shared s))) (next_event (shared s)) (requests (shared s)) (runs (shared s)) fr in
  pc_ok l' pc' -> ipc_inv (mkSys l' (<[i := pc']> (pcs s))).
Proof.
  intros HI Hi He Ho Hw Hx Hoth Hok -> l' Hpc. assert (forall x, x <> ev -> events l' !! x = events (shared s) !! x) as Hne by (intros x Hxe; cbn; by rewrite lookup_partial_alter_ne).
  assert (events l' !! ev = o) as Heq by (cbn; by rewrite lookup_partial_alter_eq).
  apply (ipc_inv_update s i pc); try done; try apply HI.
  - intros x k. rewrite Hw. done.
  - intros x. destruct (decide (x = ev)) as [->|Hn].
    + rewrite Heq. change (queued_all ev l') with (queued_all ev (shared s)).
      replace (queued_all ev (shared s) + (sumf (refs ev) (pcs s) - refs ev pc + refs ev pc')) with (queued_all ev (shared s) + sumf (refs ev) (pcs s) - refs ev pc + refs ev pc') by lia. done.
    + rewrite Hne by done. destruct (Hoth x Hn) as (->&->&->&->&->). rewrite !Z.sub_add. apply HI.
  - intros x e' Hx'. destruct (decide (x = ev)) as [->|Hn]; [|rewrite Hne in Hx' by done; by exists e']. rewrite Heq in Hx'. exists e. split; [done|]. intros t. by apply Ho.
  - intros k p Hp. rewrite Hx, Z.sub_add. split; [by eapply ii_number|by eapply ii_expect].
  - intros x. destruct (decide (x = ev)) as [->|Hn].
    + rewrite Heq. unfold l'. cbn [frees requests]. rewrite countp_app, (ii_frees _ HI ev), He. destruct (ii_live _ HI ev e He) as (st&->&_&_&_&Ef&_). rewrite Ef.
      destruct o; [done|]. destruct (0 =? rq_Free (st_request st)); cbn; rewrite ?Z.eqb_refl; done.
    + rewrite Hne by done. unfold l'. cbn [frees requests]. rewrite countp_app, (ii_frees _ HI x). assert (countp (free_of x) (match o with Some _ => [] | None => if negb (0 =? ipc_FreeFunction e) then [(ev, ipc_FreeFunction e, ipc_Context e, FreeFunctionContext e)] else [] end) = 0) as ->; [|lia].
      destruct o; [done|]. destruct (negb _); [|done]. cbn. by rewrite (proj2 (Z.eqb_neq ev x)).
  - cbn. assert (size (partial_alter (fun _ => o) ev (events (shared s))) <= size (events (shared s)))%nat; [|pose proof (ii_room _ HI); lia].
    rewrite <- !size_dom. apply subseteq_size. intros x. rewrite !elem_of_dom. destruct (decide (x = ev)) as [->|Hn]; [by rewrite He|]. by rewrite lookup_partial_alter_ne.
Qed.

Definition set_references (n : Z) (e : IPC_EVENT) : IPC_EVENT :=
  mkIpc (mkREF_COUNT n (FreeFunction (RefCnt_ e)) (Context_ (RefCnt_ e))) (Function_ e) (ipc_Context e) (SignalTermination e) (TerminationEvent e) (ipc_FreeFunction e) (FreeFunctionContext e) (CpuEvents e).
Lemma ipc_dereference_run ev e s n : events s !! ev = Some e -> ReferenceCount (RefCnt_ e) = n -> 0 < n < MAX_DWORD ->
  dereference ev s = Ok (n - 1, with_events (<[ev := set_references (n - 1) e]> (events s)) s).
Proof. intros He Hn Hr. unfold dereference. rewrite He. cbn [of_option mbind outcome_bind]. unfold on_count. by rewrite (RfcDecrement_run _ n). Qed.

Lemma fields_references n ev e st : n < MAX_DWORD -> fields_ok ev e st -> fields_ok ev (set_references n e) st.
Proof. intros Hn (?&?&?&?&?&?&?&?). done. Qed.
Lemma fields_termination v ev e st : EventType v = EventType (TerminationEvent e) -> fields_ok ev e st -> fields_ok ev (set_termination v e) st.
Proof. intros Hv (?&?&?&?&?&?&?&?). split_and!; try done. cbn. by rewrite Hv. Qed.

(** The numbers of a live event. *)
Lemma event_numbers s i pc ev e : ipc_inv s -> pcs s !! i = Some pc -> events (shared s) !! ev = Some e ->
  let r := queued_all ev (shared s) + sumf (refs ev) (pcs s) in
  ReferenceCount (RefCnt_ e) = r /\ refs ev pc <= r < MAX_DWORD /\ sumf (waiting ev) (pcs s) = b2z (SignalTermination e) /\
  sumf (freeing_event ev) (pcs s) = b2z (r =? 0) /\ (ev_State (TerminationEvent e) = 0 \/ ev_State (TerminationEvent e) = 1) /\
  sumf (signalling ev) (pcs s) + ev_State (TerminationEvent e) + sumf (waited ev) (pcs s) = b2z (SignalTermination e && (r =? 1)) /\
  signalling ev pc <= sumf (signalling ev) (pcs s) /\ 0 <= sumf (signalling ev) (pcs s) /\ waited ev pc <= sumf (waited ev) (pcs s) /\ 0 <= sumf (waited ev) (pcs s) /\
  freeing_event ev pc <= sumf (freeing_event ev) (pcs s) /\
  sumf (waiting ev) (pcs s) + (refs ev pc + freeing_event ev pc - waiting ev pc) <= sumf (refs ev) (pcs s) + sumf (freeing_event ev) (pcs s).
Proof.
  intros HI Hi He r. pose proof (ii_event _ HI ev) as Hev. rewrite He in Hev. destruct Hev as (H1&H2&H3&H4&H5). destruct (ii_live _ HI ev e He) as (st&_&_&_&_&_&_&_&_&Hmax).
  pose proof (queued_range ev 0 (shared s)). pose proof (sum_ge _ _ _ _ (refs_range ev) Hi). pose proof (sum_ge _ _ _ _ (signalling_range ev) Hi).
  pose proof (sum_ge _ _ _ _ (fun pc => proj1 (waited_range ev pc)) Hi). pose proof (sum_ge _ _ _ _ (freeing_range ev) Hi).
  pose proof (sumf_pos _ (pcs s) (signalling_range ev)). pose proof (sumf_pos _ (pcs s) (fun pc => proj1 (waited_range ev pc))).
  pose proof (sumf_le_at (waiting ev) (fun pc => refs ev pc + freeing_event ev pc) _ _ _ (fun pc => proj2 (waiting_range ev pc)) Hi) as Hw.
  assert (forall l, sumf (fun pc => refs ev pc + freeing_event ev pc) l = sumf (refs ev) l + sumf (freeing_event ev) l) as Ea.
  { induction l as [|x l IH]; [done|]. unfold sumf in *. cbn. lia. }
  rewrite Ea in Hw. subst r. split_and!; try done; lia.
Qed.

Lemma eqb_ne ev x : x <> ev -> (ev =? x) = false.
Proof. intros H. apply Z.eqb_neq. congruence. Qed.
Ltac other := intros x Hx; cbn; rewrite ?(eqb_ne _ _ Hx); done.

Lemma step_wait s i c rq ev choice : ipc_inv s -> pcs s !! i = Some (Thread c (Wait_ rq ev)) -> (forall c', choice <> MoveTo c') -> preserved s i choice (Thread c (Wait_ rq ev)).
Proof.
  intros HI Hi Hm. destruct (thread_self s i c _ HI Hi) as (q&Hq&Eq). pose proof (Forall_lookup_1 _ _ _ _ (ii_pc _ HI) Hi) as (Hc&(st0&Hst0&Erq)&Hw).
  destruct (pc_live s i _ ev HI Hi) as (e&st&He&Hst&Hf&_); [cbn; rewrite Z.eqb_refl; cbn; lia|]. rewrite Hst in Hst0. injection Hst0 as ->.
  pose proof Hf as (_&_&Hsig&_&_&_&Hty&_). rewrite Erq, Hw in Hsig. unfold preserved. rewrite thread_exec by done. unfold send_exec. rewrite Hq. cbn [of_option mbind outcome_bind]. rewrite He. cbn [of_option mbind outcome_bind]. rewrite Hsig. cbn [assert_ mbind outcome_bind].
  destruct (event_numbers s i _ ev e HI Hi He) as (N1&N2&N3&N4&N5&N6&_). unfold EvtIsSignaled, EVENT_STATE_SIGNALED.
  eexists _, _. split; [reflexivity|]. eapply (inv_event_step s i _ _ ev (Some _) e (frees (shared s)) HI Hi He).
  - intros e' t [= <-]. apply fields_termination. by case_match.
  - intros x k. by case_match.
  - intros k. by case_match.
  - case_match; other.
  - unfold exchangeValue. rewrite (Hty Hsig). rewrite bool_decide_false by done. destruct (Z.eqb_spec (ev_State (TerminationEvent e)) 1) as [E|E]; cbn; rewrite Z.eqb_refl; cbn [b2z];
      rewrite ?Z.sub_add, ?Z.sub_0_r, ?Z.add_0_r; split_and!; try done; try lia. by left.
  - by rewrite app_nil_r.
  - case_match; (split; [done|]); (split; [by exists st0|done]).
Qed.

Lemma step_wait_done s i c rq ev choice : ipc_inv s -> pcs s !! i = Some (Thread c (WaitDone rq ev)) -> (forall c', choice <> MoveTo c') -> preserved s i choice (Thread c (WaitDone rq ev)).
Proof.
  intros HI Hi Hm. destruct (thread_self s i c _ HI Hi) as (q&Hq&Eq). pose proof (Forall_lookup_1 _ _ _ _ (ii_pc _ HI) Hi) as (Hc&(st0&Hst0&Erq)&Hw).
  destruct (pc_live s i _ ev HI Hi) as (e&st&He&Hst&Hf&_); [cbn; rewrite Z.eqb_refl; cbn; lia|]. rewrite Hst in Hst0. injection Hst0 as ->.
  pose proof Hf as (_&_&Hsig&_&_&_&Hty&_). rewrite Erq, Hw in Hsig. unfold preserved. rewrite thread_exec by done. unfold send_exec. rewrite Hq. cbn [of_option mbind outcome_bind].
  destruct (event_numbers s i _ ev e HI Hi He) as (N1&N2&N3&N4&N5&N6&N7&N8&N9&N10&N11&N12). cbn in N2, N7, N9, N11, N12. rewrite Z.eqb_refl in *. cbn [b2z] in *. rewrite Hsig in *. cbn [andb] in N6.
  set (r := queued_all ev (shared s) + sumf (refs ev) (pcs s)) in *. assert (r = 1) as Hr by (destruct (Z.eqb_spec r 1); cbn [b2z] in N6; lia). rewrite Hr in *. cbn in N4, N6.
  rewrite (ipc_dereference_run ev e _ 1) by (done || lia). cbn [mbind outcome_bind]. change (0 =? 1 - 1) with true. cbv iota. eexists _, _. split; [reflexivity|].
  eapply (inv_event_step s i _ _ ev (Some _) e (frees (shared s)) HI Hi He); try done.
  - intros e' t [= <-]. apply fields_references. done.
  - other.
  - cbn. rewrite Z.eqb_refl. fold r. rewrite Hr. cbn [b2z]. rewrite Hsig. change (1 - 1 + 0) with 0. cbn in N3 |- *. split_and!; try done; lia.
  - by rewrite app_nil_r.
  - split; [done|]. split; [by exists st0|done].
Qed.

Lemma ipc_free_run ev e s : events s !! ev = Some e -> _IpcFreeEvent ev s =
  Ok (mkIst (cpus s) (delete ev (events s)) (next_event s) (requests s) (runs s)
    (frees s ++ if negb (0 =? ipc_FreeFunction e) then [(ev, ipc_FreeFunction e, ipc_Context e, FreeFunctionContext e)] else [])).
Proof. intros He. unfold _IpcFreeEvent. rewrite He. cbn [of_option mbind outcome_bind]. destruct (negb _); by rewrite ?app_nil_r. Qed.

Lemma step_free_sent s i c rq ev choice : ipc_inv s -> pcs s !! i = Some (Thread c (FreeSent rq ev)) -> (forall c', choice <> MoveTo c') -> preserved s i choice (Thread c (FreeSent rq ev)).
Proof.
  intros HI Hi Hm. destruct (thread_self s i c _ HI Hi) as (q&Hq&Eq). pose proof (Forall_lookup_1 _ _ _ _ (ii_pc _ HI) Hi) as (Hc&(st0&Hst0&Erq)&Hw).
  destruct (pc_live s i _ ev HI Hi) as (e&st&He&Hst&Hf&_); [cbn; rewrite Z.eqb_refl; cbn; lia|]. rewrite Hst in Hst0. injection Hst0 as ->.
  pose proof Hf as (_&_&Hsig&_&_&_&Hty&_). rewrite Erq, Hw in Hsig. unfold preserved. rewrite thread_exec by done. unfold send_exec. rewrite Hq. cbn [of_option mbind outcome_bind].
  destruct (event_numbers s i _ ev e HI Hi He) as (N1&N2&N3&N4&N5&N6&N7&N8&N9&N10&N11&N12). cbn in N2, N7, N9, N11, N12. rewrite Z.eqb_refl in *. cbn [b2z] in *. rewrite Hsig in *. cbn [andb] in N6.
  set (r := queued_all ev (shared s) + sumf (refs ev) (pcs s)) in *. assert (r = 0) as Hr by (destruct (Z.eqb_spec r 0); cbn [b2z] in N4; lia). rewrite Hr in *. cbn in N4, N6.
  rewrite (ipc_free_run ev e _ He). cbn [mbind outcome_bind]. eexists _, _. split; [reflexivity|].
  eapply (inv_event_step s i _ _ ev None e _ HI Hi He); try done.
  - other.
  - cbn. rewrite Z.eqb_refl. fold r. rewrite Hr. cbn in N3 |- *. split_and!; lia.
  - split; [done|]. split; [by exists st0|]. intros _. exact (lookup_delete_eq (events (shared s)) ev).
Qed.

(** *** The handlers *)
Lemma handler_cpu s i c p : ipc_inv s -> pcs s !! i = Some (Handler c p) -> exists q, cpus (shared s) !! c = Some q.
Proof. intros HI Hi. pose proof (Forall_lookup_1 _ _ _ _ (ii_pc _ HI) Hi) as [Hc _]. by apply lookup_lt_is_Some_2 in Hc. Qed.

Lemma step_interrupt s i c choice : ipc_inv s -> pcs s !! i = Some (Handler c NoInterrupt) -> preserved s i choice (Handler c NoInterrupt).
Proof.
  intros HI Hi. destruct (handler_cpu s i c _ HI Hi) as (p&Hp). pose proof (Forall_lookup_1 _ _ _ _ (ii_pc _ HI) Hi) as [Hc _]. unfold preserved, ipc_exec, isr_exec. rewrite Hp. cbn [of_option mbind outcome_bind].
  destruct (irr p) eqn:Ei; cbn [mbind outcome_bind]; [|quiet HI Hi]. eexists _, _. split; [reflexivity|]. set (p' := mkPcpu _ _ _ _ _). set (l' := with_cpus _ _).
  assert (lists l' = lists (shared s)) as El.
  { unfold l'. rewrite lists_insert. apply list_insert_id. by destruct (cpu_list _ _ _ Hp). }
  assert (forall ev c, queued ev c l' = queued ev c (shared s)) as Eqd by (intros; unfold queued; by rewrite El).
  assert (forall ev, queued_all ev l' = queued_all ev (shared s)) as Eqa by (intros; unfold queued_all; by rewrite El).
  apply (ipc_inv_update s i (Handler c NoInterrupt)); try done; try apply HI.
  - cbn. by apply (ids_insert _ _ p).
  - intros x k. by rewrite Eqd.
  - intros x. rewrite Eqa. cbn. rewrite !Z.sub_add. apply HI.
  - intros x e Hx. by exists e.
  - rewrite El. apply HI.
  - split; [cbn; by rewrite length_insert|done].
  - cbn [l' with_cpus cpus]. apply cpus_insert.
    + unfold p'. cbn. rewrite Nat.eqb_refl. pose proof (ii_expect _ HI c p Hp) as Hx. rewrite Ei in Hx. cbn in *. split; [by apply (ii_number _ HI c)|lia].
    + intros k p2 Hp2 Hne. split; [by apply (ii_number _ HI k)|]. cbn. rewrite (proj2 (Nat.eqb_neq c k)) by done. pose proof (ii_expect _ HI k p2 Hp2). cbn. lia.
Qed.

Lemma step_remove s i c choice : ipc_inv s -> pcs s !! i = Some (Handler c Remove) -> preserved s i choice (Handler c Remove).
Proof.
  intros HI Hi. destruct (handler_cpu s i c _ HI Hi) as (p&Hp). pose proof (Forall_lookup_1 _ _ _ _ (ii_pc _ HI) Hi) as [Hc _]. destruct (cpu_list _ _ _ Hp) as [HL HLe].
  pose proof (ii_number _ HI c p Hp) as Hnum. pose proof (ii_expect _ HI c p Hp) as Hexp. pose proof (sum_ge _ _ _ _ (expecting_range c) Hi) as Hge. cbn in Hge. rewrite Nat.eqb_refl in Hge. cbn in Hge.
  assert (0 <= b2z (irr p)) by (by destruct (irr p)). destruct (EventList p) as [|[ev j] rest] eqn:El; [cbn in *; lia|].
  assert (touch (Some (ev, j)) (shared s) = Ok tt) as Et1 by (eapply touch_entry; [done|exact HLe|]; intros y [= <-]; by left).
  assert (touch (head rest) (shared s) = Ok tt) as Et2.
  { eapply touch_entry; [done|exact HLe|]. intros y Hy. right. destruct rest; [done|]. injection Hy as ->. by left. }
  pose proof (list_bound s _ HI HLe) as Hlb. cbn [length] in Hlb.
  unfold preserved, ipc_exec, isr_exec, remove_event. rewrite Hp. cbn [of_option mbind outcome_bind]. rewrite Hnum, El. rewrite (proj2 (Z.ltb_lt _ _)) by (cbn [length]; lia).
  rewrite Et1, Et2. cbn [mbind outcome_bind]. rewrite u32_small by (cbn [length]; rlia). eexists _, _. split; [reflexivity|]. set (p' := mkPcpu _ _ _ _ _).
  destruct (queued_update (shared s) (with_cpus (<[c := p']> (cpus (shared s))) (shared s)) c _ _ HL (lists_insert _ _ _)) as [Hqd Hqa].
  assert (forall x, countp (of_event x) ((ev, j) :: rest) = countp (of_event x) (EventList p') + b2z (ev =? x)) as Ec by (intros x; unfold p', of_event; cbn; lia).
  apply (ipc_inv_update s i (Handler c Remove)); try done; try apply HI.
  - cbn. by apply (ids_insert _ _ p).
  - intros x k. rewrite Hqd, Ec. cbn. destruct (Nat.eqb c k), (ev =? x); cbn [b2z andb]; lia.
  - intros x. rewrite Hqa, Ec. cbn [events with_cpus refs waiting signalling waited freeing_event]. pose proof (ii_event _ HI x) as Hx. rewrite !Z.sub_add.
    assert (queued_all x (shared s) - (countp (of_event x) (EventList p') + b2z (ev =? x)) + countp (of_event x) (EventList p') + (sumf (refs x) (pcs s) - 0 + b2z (ev =? x)) =
      queued_all x (shared s) + sumf (refs x) (pcs s)) as -> by lia. done.
  - intros x e Hx. by exists e.
  - intros L x m HL1 HL2. apply (lists_elem_insert _ _ p) in HL1 as [->|HL1]; [|by eapply (ii_entry _ HI L)|done]. eapply (ii_entry _ HI); [exact HLe|by right].
  - split; [cbn; by rewrite length_insert|]. eapply (ii_entry _ HI); [exact HLe|by left].
  - cbn [with_cpus cpus]. apply cpus_insert.
    + unfold p'. cbn. rewrite Nat.eqb_refl. cbn in *. split; lia.
    + intros k p2 Hp2 Hne. split; [by apply (ii_number _ HI k)|]. cbn. rewrite (proj2 (Nat.eqb_neq c k)) by done. pose proof (ii_expect _ HI k p2 Hp2). cbn. lia.
Qed.

Lemma step_process s i c ev j choice : ipc_inv s -> pcs s !! i = Some (Handler c (Process_ (ev, j))) -> preserved s i choice (Handler c (Process_ (ev, j))).
Proof.
  intros HI Hi. pose proof (Forall_lookup_1 _ _ _ _ (ii_pc _ HI) Hi) as [Hc Hj]. destruct (pc_live s i _ ev HI Hi) as (e&st&He&Hst&Hf&((_&_&_&Hfn)&_)); [cbn; rewrite Z.eqb_refl; cbn; lia|].
  destruct (ii_sent _ HI _ _ Hst) as [Hev _]. pose proof Hf as (Ef&Ex&_&_&_&Ecpu&_). unfold targets in Hj. rewrite Hst in Hj.
  unfold preserved, ipc_exec, isr_exec. rewrite He. cbn [of_option mbind outcome_bind]. rewrite Ecpu, lookup_replicate_2 by done. cbn [of_option mbind outcome_bind].
  rewrite (proj2 (Z.eqb_neq 0 ev)) by lia. cbn [negb assert_ mbind outcome_bind]. rewrite He. cbn [of_option mbind outcome_bind]. rewrite Ef, (proj2 (Z.eqb_neq 0 (rq_Function (st_request st)))) by lia.
  cbn [negb assert_ mbind outcome_bind]. eexists _, _. split; [reflexivity|]. set (l' := mkIst _ _ _ _ _ _).
  apply (ipc_inv_update s i (Handler c (Process_ (ev, j)))); try done; try apply HI.
  - intros x k. cbn [l' runs owed]. rewrite countp_app. change (queued x k l') with (queued x k (shared s)). cbn [countp run_of]. lia.
  - intros x. change (queued_all x l') with (queued_all x (shared s)). cbn [refs waiting signalling waited freeing_event]. rewrite !Z.sub_add. apply HI.
  - intros x e' Hx. by exists e'.
  - intros k p Hp. cbn [expecting]. rewrite Z.sub_add. split; [by eapply ii_number|by eapply ii_expect].
  - intros x k f y Hx. cbn in Hx. apply elem_of_app in Hx as [Hx|Hx]; [by apply (ii_runs _ HI x k)|]. apply list_elem_of_singleton in Hx. injection Hx as -> -> -> ->. by exists st.
Qed.

Lemma step_dereference s i c ev status choice : ipc_inv s -> pcs s !! i = Some (Handler c (Dereference_ ev status)) -> preserved s i choice (Handler c (Dereference_ ev status)).
Proof.
  intros HI Hi. pose proof (Forall_lookup_1 _ _ _ _ (ii_pc _ HI) Hi) as [Hc Hs]. destruct (pc_live s i _ ev HI Hi) as (e&st&He&Hst&Hf&_); [cbn; rewrite Z.eqb_refl; cbn; lia|].
  destruct (event_numbers s i _ ev e HI Hi He) as (N1&N2&N3&N4&N5&N6&N7&N8&N9&N10&N11&N12). cbn in N2, N7, N9, N11, N12. rewrite Z.eqb_refl in *. cbn [b2z] in *.
  set (r := queued_all ev (shared s) + sumf (refs ev) (pcs s)) in *. pose proof (queued_range ev 0 (shared s)).
  unfold preserved, ipc_exec, isr_exec. rewrite He. cbn [of_option mbind outcome_bind]. rewrite (ipc_dereference_run ev e _ r) by (done || lia). cbn [mbind outcome_bind]. eexists _, _. split; [reflexivity|].
  set (pc' := if 0 =? r - 1 then _ else _).
  rewrite (proj2 (Z.eqb_neq r 0)) in N4 by lia. cbn in N4.
  assert (forall f : Z -> ipc_pc -> Z, (forall x, x <> ev -> f x (Handler c (FreeDone ev status)) = 0 /\ f x (Handler c (Signal ev status)) = 0 /\ f x (Handler c (Return_ status)) = 0) ->
    forall x, x <> ev -> f x (Handler c pc') = 0) as Hoth by (intros f Hf' x Hx; destruct (Hf' x Hx) as (?&?&?); unfold pc'; by repeat case_match).
  eapply (inv_event_step s i _ _ ev (Some _) e (frees (shared s)) HI Hi He).
  - intros e' t [= <-]. apply fields_references. lia.
  - intros x k. unfold pc'. by repeat case_match.
  - intros k. unfold pc'. by repeat case_match.
  - intros x Hx. rewrite !Hoth by (try done; intros y Hy; cbn; rewrite ?(eqb_ne _ _ Hy); done). cbn. by rewrite (eqb_ne _ _ Hx).
  - fold r. cbn [refs]. rewrite Z.eqb_refl. cbn [b2z]. unfold pc'. cbn [event_ok set_references RefCnt_ ReferenceCount SignalTermination TerminationEvent].
    destruct (Z.eqb_spec 0 (r - 1)) as [E|E]; [|destruct (SignalTermination e) eqn:Hsig, (Z.eqb_spec 1 (r - 1)) as [E1|E1]]; cbn; rewrite ?Z.eqb_refl; cbn [b2z andb];
      rewrite ?Z.add_0_r, ?Z.sub_0_r; try (destruct (SignalTermination e)); cbn [b2z andb] in *; zbool_in N6; zbool; cbn [b2z] in *; split_and!; try done; lia.
  - by rewrite app_nil_r.
  - unfold pc'. repeat case_match; done.
Qed.

Lemma step_signal s i c ev status choice : ipc_inv s -> pcs s !! i = Some (Handler c (Signal ev status)) -> preserved s i choice (Handler c (Signal ev status)).
Proof.
  intros HI Hi. pose proof (Forall_lookup_1 _ _ _ _ (ii_pc _ HI) Hi) as [Hc Hs]. destruct (pc_live s i _ ev HI Hi) as (e&st&He&Hst&Hf&_); [cbn; rewrite Z.eqb_refl; cbn; lia|].
  destruct (event_numbers s i _ ev e HI Hi He) as (N1&N2&N3&N4&N5&N6&N7&N8&N9&N10&N11&N12). cbn in N2, N7, N9, N11, N12. rewrite Z.eqb_refl in *. cbn [b2z] in *.
  unfold preserved, ipc_exec, isr_exec. rewrite He. cbn [of_option mbind outcome_bind]. eexists _, _. split; [reflexivity|].
  eapply (inv_event_step s i _ _ ev (Some _) e (frees (shared s)) HI Hi He); try done.
  - intros e' t [= <-]. by apply fields_termination.
  - other.
  - cbn. rewrite Z.eqb_refl. cbn [b2z]. rewrite ?Z.add_0_r, ?Z.sub_0_r. unfold EVENT_STATE_SIGNALED. split_and!; try done; [by right|].
    destruct (SignalTermination e); cbn [andb] in *; [|cbn in N6; lia]. destruct (_ =? 1); cbn [b2z] in *; lia.
  - by rewrite app_nil_r.
Qed.

Lemma step_free_done s i c ev status choice : ipc_inv s -> pcs s !! i = Some (Handler c (FreeDone ev status)) -> preserved s i choice (Handler c (FreeDone ev status)).
Proof.
  intros HI Hi. pose proof (Forall_lookup_1 _ _ _ _ (ii_pc _ HI) Hi) as [Hc Hs]. destruct (pc_live s i _ ev HI Hi) as (e&st&He&Hst&Hf&_); [cbn; rewrite Z.eqb_refl; cbn; lia|].
  destruct (event_numbers s i _ ev e HI Hi He) as (N1&N2&N3&N4&N5&N6&N7&N8&N9&N10&N11&N12). cbn in N2, N7, N9, N11, N12. rewrite Z.eqb_refl in *. cbn [b2z] in *.
  set (r := queued_all ev (shared s) + sumf (refs ev) (pcs s)) in *. assert (r = 0) as Hr by (destruct (Z.eqb_spec r 0); cbn [b2z] in N4; lia). rewrite Hr in *. cbn in N4, N6.
  rewrite andb_false_r in N6. cbn in N6. unfold preserved, ipc_exec, isr_exec. rewrite (ipc_free_run ev e _ He). cbn [mbind outcome_bind]. eexists _, _. split; [reflexivity|].
  eapply (inv_event_step s i _ _ ev None e _ HI Hi He); try done.
  - other.
  - cbn. rewrite Z.eqb_refl. fold r. rewrite Hr. cbn [b2z].
    assert (sumf (waiting ev) (pcs s) = 0); [|split_and!; lia].
    pose proof (queued_range ev 0 (shared s)). pose proof (sumf_pos _ (pcs s) (refs_range ev)). pose proof (sumf_pos _ (pcs s) (fun pc => proj1 (waiting_range ev pc))). unfold r in Hr. lia.
Qed.

Lemma step_return s i c status choice : ipc_inv s -> pcs s !! i = Some (Handler c (Return_ status)) -> preserved s i choice (Handler c (Return_ status)).
Proof.
  intros HI Hi. pose proof (Forall_lookup_1 _ _ _ _ (ii_pc _ HI) Hi) as [Hc Hs]. unfold preserved, ipc_exec, isr_exec. rewrite Hs. cbn [assert_ mbind outcome_bind]. quiet HI Hi.
Qed.

Lemma step_move s i c p c' : ipc_inv s -> pcs s !! i = Some (Thread c p) -> preserved s i (MoveTo c') (Thread c p).
Proof.
  intros HI Hi. pose proof (Forall_lookup_1 _ _ _ _ (ii_pc _ HI) Hi) as [Hc Hpc]. unfold preserved, ipc_exec. rewrite orb_false_r.
  destruct (between_calls p) eqn:Hb, (bool_decide_reflect (c' < length (cpus (shared s)))%nat) as [Hlt|]; cbn [andb]; try (by quiet HI Hi). destruct p; try done. by quiet HI Hi.
Qed.

Lemma ipc_inv_step s i choice pc : ipc_inv s -> pcs s !! i = Some pc -> preserved s i choice pc.
Proof.
  intros HI Hi. destruct pc as [c p|c p].
  - assert ({c' | choice = MoveTo c'} + {forall c', choice <> MoveTo c'}) as [[c' ->]|Hm] by (destruct choice; [right; done|right; done|left; by eexists]); [by apply step_move|].
    destruct p; [by apply step_ready|by apply step_count|by apply step_list|by apply step_generate|by apply step_insert|by apply step_send|by apply step_wait|by apply step_wait_done|by apply step_free_sent].
  - destruct p as [| |[ev j]| | | |]; [by apply step_interrupt|by apply step_remove|by apply step_process|by apply step_dereference|by apply step_signal|by apply step_free_done|by apply step_return].
Qed.
End Invariant.

Lemma start_sum ids homes (f : ipc_pc -> Z) : (forall c, f (Handler c NoInterrupt) = 0) -> (forall c, f (Thread c (Ready STATUS_SUCCESS None)) = 0) -> sumf f (pcs (ipc_start ids homes)) = 0.
Proof. intros H1 H2. apply sumf_0. intros pc. cbn. rewrite elem_of_app, !list_elem_of_fmap. intros [(c&->&_)|(c&->&_)]; auto. Qed.
Lemma start_lists ids homes L : L ∈ lists (shared (ipc_start ids homes)) -> L = [].
Proof. unfold lists, ipc_start. cbn. rewrite <- list_fmap_compose. by intros (a&->&_)%list_elem_of_fmap. Qed.
Lemma start_cpu ids homes c p : cpus (shared (ipc_start ids homes)) !! c = Some p -> EventList p = [] /\ NoOfEventsInList p = 0 /\ irr p = false.
Proof. cbn. rewrite list_lookup_fmap. destruct (ids !! c); [|done]. by intros [= <-]. Qed.

Lemma ipc_inv_start ids homes capacity : 0 <= capacity -> Forall (fun h => h < length ids)%nat homes -> ipc_inv ids capacity (ipc_start ids homes).
Proof.
  intros Hcap Hh. assert (forall ev c, queued ev c (shared (ipc_start ids homes)) = 0) as Hq.
  { intros ev c. unfold queued. destruct (lists (shared (ipc_start ids homes)) !! c) as [L|] eqn:E; [|done]. by rewrite (start_lists ids homes L) by (by eapply list_elem_of_lookup_2). }
  assert (forall ev, queued_all ev (shared (ipc_start ids homes)) = 0) as Hqa.
  { intros ev. apply sumf_0. intros L HL. by rewrite (start_lists ids homes L HL). }
  split.
  - intros ev c. rewrite Hq, start_sum by done. done.
  - intros ev. rewrite Hqa, !start_sum by done. done.
  - done.
  - done.
  - done.
  - intros l ev i HL. rewrite (start_lists ids homes l HL). by intros ?%elem_of_nil.
  - cbn. apply Forall_app. split; apply Forall_fmap, Forall_forall.
    + intros c Hc%elem_of_seq. split; [cbn; rewrite length_fmap; lia|done].
    + intros c Hc. split; [|done]. cbn. rewrite length_fmap. by eapply (proj1 (Forall_forall _ _) Hh).
  - intros c p Hp. destruct (start_cpu ids homes c p Hp) as (->&_&->). rewrite start_sum by done. done.
  - intros c p Hp. by destruct (start_cpu ids homes c p Hp) as (->&->&_).
  - done.
  - done.
  - intros ev c f x Hx. by apply elem_of_nil in Hx.
  - done.
Qed.

(** * Theorems *)
Lemma ipc_reachable ids homes broadcast capacity s : (forall f x, SUCCEEDED (broadcast f x) = true) -> Forall (fun a => 0 <= a < 8) ids -> Z.of_nat (length ids) < 2 ^ 31 ->
  Forall (fun h => h < length ids)%nat homes -> 0 <= capacity <= MAX_DWORD -> reachable (ipc_exec broadcast capacity true) (ipc_start ids homes) s ->
  ipc_inv ids capacity s /\ safe_state (ipc_exec broadcast capacity true) s.
Proof.
  intros Hf Hi Hl Hh Hc. apply reachable_inv; [apply ipc_inv_start; [lia|done]|]. intros s1 i choice pc HI Hpc. by apply ipc_inv_step; [..|lia| |].
Qed.

(** The calls of the function of an event, and what is left of it. *)
Lemma runs_matching ids capacity s ev st c p : ipc_inv ids capacity s -> requests (shared s) !! ev = Some st -> cpus (shared s) !! c = Some p ->
  let m := b2z (matches (self_of (st_from st) (shared s)) (rq_Mode (st_request st)) (rq_Destination (st_request st)) p) in
  countp (run_of ev c) (runs (shared s)) <= m /\ (events (shared s) !! ev = None -> countp (run_of ev c) (runs (shared s)) = m).
Proof.
  intros HI Hst Hp m. pose proof (ii_owed _ _ _ HI ev c) as Ho. unfold targets in Ho. rewrite Hst in Ho. destruct (ii_sent _ _ _ HI ev st Hst) as (_&_&Hto&_).
  assert (countp (Nat.eqb c) (st_to st) = m) as Em.
  { rewrite Hto. unfold m. destruct (matches _ _ _ p) eqn:Em; cbn.
    - assert (c ∈ goes_to (st_request st) (st_from st) (shared s)) as (k&Hk)%list_elem_of_lookup by (apply matching_elem; by exists c, p).
      pose proof (countp_pos (Nat.eqb c) _ k c Hk (Nat.eqb_refl c)). pose proof (countp_nodup c (goes_to (st_request st) (st_from st) (shared s)) ltac:(apply matching_nodup)). lia.
    - apply countp_0. intros k (p'&Hp'&Hm)%goes_to_lt. apply Nat.eqb_neq. intros <-. congruence. }
  pose proof (queued_range ev c (shared s)). pose proof (sumf_pos _ (pcs s) (owed_range ev c)). split; [lia|]. intros Hn.
  pose proof (ii_event _ _ _ HI ev) as He. rewrite Hn in He. destruct He as [He _]. pose proof (sumf_pos _ (pcs s) (refs_range ev)).
  assert (sumf (owed ev c) (pcs s) <= sumf (refs ev) (pcs s)); [|lia]. destruct (pcs s) as [|q l]; [done|].
  pose proof (sumf_le_at (owed ev c) (refs ev) (q :: l) 0 q (owed_refs ev c) eq_refl). pose proof (owed_refs ev c q). lia.
Qed.


Definition ok_broadcast (f x : Z) : Z := STATUS_SUCCESS.
Definition demo_request : request := SmpSendGenericIpi 0x1000 7 0x2000 9 true true.
(** A processor asks the other one to run a function and waits. *)
Definition ipc_schedule : list (nat * ipc_choice) :=
  [(2%nat, CallIpi demo_request)] ++ replicate 7 (2%nat, Go true) ++ replicate 7 (1%nat, Go true) ++ replicate 3 (2%nat, Go true).

(** C40: The handler takes one event per interrupt, but interrupts of one vector that arrive while one is pending are merged: two processors send an event to
    a third and wait, the third accepts one interrupt and handles the first event, and the second sender waits for ever: its event is in the list,
    no interrupt is pending, and no step of any participant changes anything until somebody sends again. *)
Theorem ipc_merged_interrupt : exists s, reachable (ipc_exec ok_broadcast 16 true) (ipc_start [0; 1; 2] [0%nat; 1%nat]) s /\
  (exists rq ev, pcs s !! 4%nat = Some (Thread 1 (Wait_ rq ev)) /\ option_map EventList (cpus (shared s) !! 2%nat) = Some [(ev, 0%nat)]) /\
  forall i pc room, pcs s !! i = Some pc -> ipc_exec ok_broadcast 16 true (cpu_id i) (Go room) pc (shared s) = Ok (pc, shared s).
Proof.
  set (rq := mkRequest 0x1000 7 0 0 true SmpIpiSendToCpu 2 true).
  set (sched := [(3%nat, CallIpi rq)] ++ replicate 6 (3%nat, Go true) ++ [(4%nat, CallIpi rq)] ++ replicate 6 (4%nat, Go true) ++ replicate 7 (2%nat, Go true) ++ replicate 4 (3%nat, Go true)).
  destruct (run_schedule (ipc_exec ok_broadcast 16 true) sched (ipc_start [0; 1; 2] [0%nat; 1%nat])) as [[s|]|] eqn:E; [|by vm_compute in E|by vm_compute in E].
  exists s. split; [eapply run_schedule_reachable; [apply reach_refl|exact E]|]. vm_compute in E. injection E as <-. split; [eexists _, _; split; reflexivity|].
  intros i pc room Hi. do 5 (destruct i as [|i]; [cbn in Hi; injection Hi as <-; vm_compute; reflexivity|]). done.
Qed.

(** A thread that is moved to another processor between the choice of the processors and the interrupt sends the interrupt to its old processor, whose list is empty:
    the assertion of the interrupt handler fails. *)
Theorem ipc_moved_sender : exists s, reachable (ipc_exec ok_broadcast 16 false) (ipc_start [0; 1] [0%nat]) s /\
  ipc_exec ok_broadcast 16 false (cpu_id 0) (Go true) (Handler 0 Remove) (shared s) = Err AssertFailed /\ pcs s !! 0%nat = Some (Handler 0 Remove).
Proof.
  set (rq := SmpSendGenericIpi 0x1000 7 0 0 false true).
  set (sched := [(2%nat, CallIpi rq)] ++ replicate 5 (2%nat, Go true) ++ [(2%nat, MoveTo 1); (2%nat, Go true); (0%nat, Go true)]).
  destruct (run_schedule (ipc_exec ok_broadcast 16 false) sched (ipc_start [0; 1] [0%nat])) as [[s|]|] eqn:E; [|by vm_compute in E|by vm_compute in E].
  exists s. split; [eapply run_schedule_reachable; [apply reach_refl|exact E]|]. vm_compute in E. injection E as <-. split; vm_compute; reflexivity.
Qed.
