(* ===== verification/Timer.v ===== *)
(** HAL9000/src/ex_timer.c and the system time of iomu.c: the clock interrupts of all processors advance the time, the update interrupt of the
    real-time clock starts the next second, and threads initialise, start, stop and wait for a timer, one access to shared memory at a
    time.  [wrapped] says that UptimeMicroseconds has overflowed, which takes more than an hour without an update of the real-time
    clock; [stopped] that ExTimerStop or ExTimerUninit was called. *)
From S2P Require Import Prelude IntUtils Interleave.

Definition SEC_IN_US : Z := 1000 * 1000.

(** * The system time *)
Record UPTIME := mkUptime { UptimeSeconds : Z; UptimeMicroseconds : Z }.
(** The 64-bit view of the two counters. *)
Definition of_Raw (raw : Z) : UPTIME := mkUptime (u32 raw) (Z.shiftr raw 32).

Definition _IomuUpdateSystemTime (TimeUpdatePerCpuUs : Z) (u : UPTIME) : UPTIME := mkUptime (UptimeSeconds u) (u32 (UptimeMicroseconds u + TimeUpdatePerCpuUs)).
Definition IomuGetSystemTimeUs (u : UPTIME) : Z :=
  u64 (u64 (UptimeSeconds u * SEC_IN_US) + (if SEC_IN_US <=? UptimeMicroseconds u then SEC_IN_US else UptimeMicroseconds u)).

(** * Timers *)
Definition ExTimerTypeAbsolute : Z := 0.
Definition ExTimerTypeRelativeOnce : Z := 1.
Definition ExTimerTypeRelativePeriodic : Z := 2.
Definition ExTimerTypeMax : Z := ExTimerTypeRelativePeriodic.
Record EX_TIMER := mkTimer { TriggerTimeUs : Z; ReloadTimeUs : Z; Type_ : Z; TimerStarted : bool; TimerUninited : bool }.

Definition ExTimerInit (TimerIsNull : bool) (Type_ Time : Z) (u : UPTIME) (Timer : EX_TIMER) : Z * EX_TIMER :=
  if TimerIsNull then (STATUS_INVALID_PARAMETER1, Timer) else
  if ExTimerTypeMax <? Type_ then (STATUS_INVALID_PARAMETER2, Timer) else
  if negb (Type_ =? ExTimerTypeAbsolute) then (STATUS_SUCCESS, mkTimer (u64 (IomuGetSystemTimeUs u + Time)) Time Type_ false false)
  else (STATUS_SUCCESS, mkTimer Time 0 Type_ false false).
Definition set_started (b : bool) (t : EX_TIMER) : EX_TIMER := mkTimer (TriggerTimeUs t) (ReloadTimeUs t) (Type_ t) b (TimerUninited t).
Definition set_uninited (t : EX_TIMER) : EX_TIMER := mkTimer (TriggerTimeUs t) (ReloadTimeUs t) (Type_ t) (TimerStarted t) true.
Definition ExTimerStart (t : EX_TIMER) : EX_TIMER := if TimerUninited t then t else set_started true t.
Definition ExTimerStop (t : EX_TIMER) : EX_TIMER := if TimerUninited t then t else set_started false t.
(** ExTimerUninit is ExTimerStop followed by the store of TimerUninited. *)
Definition ExTimerUninit (t : EX_TIMER) : EX_TIMER := set_uninited (ExTimerStop t).
Definition ExTimerCompareTimers (FirstElem SecondElem : EX_TIMER) : Z := i64 (u64 (TriggerTimeUs FirstElem - TriggerTimeUs SecondElem)).

(** * Participants *)
Record tm_state := mkTm { uptime : UPTIME; the_timer : EX_TIMER; wrapped : bool; stopped : bool }.
Definition with_timer (t : EX_TIMER) (s : tm_state) : tm_state := mkTm (uptime s) t (wrapped s) (stopped s).
Definition now (s : tm_state) : Z := IomuGetSystemTimeUs (uptime s).

Inductive tm_pc : Set :=
| Clock                         (* a processor's clock interrupt *)
| Rtc                           (* the update interrupt of the real-time clock: before UptimeSeconds is read *)
| RtcStore (newSecCount : Z)    (* before the exchange *)
| User                          (* a thread between calls *)
| Stopping                      (* in ExTimerUninit, before the store of TimerUninited *)
| WaitTime (started : bool)     (* in ExTimerWait, at the comparison of the time; whether the timer was started when it was called *)
| WaitStarted (started : bool)  (* at the test of TimerStarted *)
| Returned (started : bool).    (* returned from ExTimerWait *)
Inductive tm_choice : Set := DoStart | DoStop | DoUninit | DoWait | Nothing.

(** [perCpu]: TimeUpdatePerCpuUs. *)
Definition tm_exec (perCpu : Z) (cpu : Z) (choice : tm_choice) (pc : tm_pc) (s : tm_state) : outcome (tm_pc * tm_state) :=
  match pc with
  | Clock => Ok (Clock, mkTm (_IomuUpdateSystemTime perCpu (uptime s)) (the_timer s) (wrapped s || (2 ^ 32 <=? UptimeMicroseconds (uptime s) + perCpu)) (stopped s))
  | Rtc => let newSecCount := UptimeSeconds (uptime s) + 1 in
      _ ← assert_ (newSecCount <=? MAX_DWORD); Ok (RtcStore newSecCount, s)
  | RtcStore newSecCount => Ok (Rtc, mkTm (of_Raw newSecCount) (the_timer s) (wrapped s) (stopped s))
  | User | Returned _ => match choice with
      | DoStart => Ok (User, with_timer (ExTimerStart (the_timer s)) s)
      | DoStop => Ok (User, mkTm (uptime s) (ExTimerStop (the_timer s)) (wrapped s) true)
      | DoUninit => Ok (Stopping, mkTm (uptime s) (ExTimerStop (the_timer s)) (wrapped s) true)
      | DoWait => if TimerUninited (the_timer s) then Ok (Returned (TimerStarted (the_timer s)), s) else Ok (WaitTime (TimerStarted (the_timer s)), s)
      | Nothing => Ok (pc, s)
      end
  | Stopping => Ok (User, with_timer (set_uninited (the_timer s)) s)
  | WaitTime b => if now s <? TriggerTimeUs (the_timer s) then Ok (WaitStarted b, s) else Ok (Returned b, s)
  | WaitStarted b => if TimerStarted (the_timer s) then Ok (WaitTime b, s) else Ok (Returned b, s)
  end.

(** [m] processors, the real-time clock and [n] threads, after ExTimerInit at the time [u]. *)
Definition tm_start (u : UPTIME) (type Time : Z) (m n : nat) : sys :=
  mkSys (mkTm u (ExTimerInit false type Time u (mkTimer 0 0 0 false false)).2 false false) (Rtc :: replicate m Clock ++ replicate n User).

(** * The time does not go back *)
Definition uptime_ok (u : UPTIME) : Prop := 0 <= UptimeSeconds u <= MAX_DWORD /\ 0 <= UptimeMicroseconds u < 2 ^ 32.
Lemma system_time u : uptime_ok u -> IomuGetSystemTimeUs u = UptimeSeconds u * SEC_IN_US + Z.min SEC_IN_US (UptimeMicroseconds u).
Proof.
  unfold uptime_ok, IomuGetSystemTimeUs, SEC_IN_US, MAX_DWORD. intros [? ?]. rewrite (u64_small (UptimeSeconds u * _)) by rlia.
  destruct (Z.leb_spec (1000 * 1000) (UptimeMicroseconds u)); rewrite u64_small by rlia; lia.
Qed.
Lemma of_Raw_seconds n : 0 <= n <= MAX_DWORD -> of_Raw n = mkUptime n 0.
Proof. intros Hn. unfold of_Raw. rewrite u32_small by rlia. f_equal. rewrite Z.shiftr_div_pow2 by lia. apply Z.div_small. rlia. Qed.

Definition pc_time_ok (s : tm_state) (pc : tm_pc) : Prop :=
  match pc with
  | RtcStore n => n = UptimeSeconds (uptime s) + 1 /\ n <= MAX_DWORD
  | WaitTime true | WaitStarted true => stopped s = false -> TimerStarted (the_timer s) = true
  | Returned true => wrapped s = false -> stopped s = false -> TriggerTimeUs (the_timer s) <= now s
  | _ => True
  end.
Definition is_rtc (pc : tm_pc) : bool := match pc with Rtc | RtcStore _ => true | _ => false end.
(** A timer that was not stopped is still in use. *)
Record tm_inv (T : Z) (s : sys) : Prop := {
  ti_uptime : uptime_ok (uptime (shared s));
  ti_trigger : TriggerTimeUs (the_timer (shared s)) = T;
  ti_uninited : TimerUninited (the_timer (shared s)) = true -> stopped (shared s) = true;
  ti_stopping : forall i, pcs s !! i = Some Stopping -> stopped (shared s) = true;
  ti_rtc : countp is_rtc (pcs s) = 1;
  ti_pc : Forall (pc_time_ok (shared s)) (pcs s) }.

(** What one step may do to the shared state. *)
Definition tm_grows (s s' : tm_state) : Prop :=
  uptime_ok (uptime s') /\ TriggerTimeUs (the_timer s') = TriggerTimeUs (the_timer s) /\ (wrapped s = true -> wrapped s' = true) /\ (stopped s = true -> stopped s' = true) /\
  (wrapped s' = false -> now s <= now s') /\ (stopped s' = false -> TimerStarted (the_timer s) = true -> TimerStarted (the_timer s') = true).
Lemma pc_time_grows s s' pc : tm_grows s s' -> (UptimeSeconds (uptime s') = UptimeSeconds (uptime s) \/ is_rtc pc = false) -> pc_time_ok s pc -> pc_time_ok s' pc.
Proof.
  intros (_&Ht&Hw&Hs&Hn&Hst) Hsec. assert (stopped s' = false -> stopped s = false) by (destruct (stopped s); [intros; by rewrite Hs in *|done]).
  assert (wrapped s' = false -> wrapped s = false) by (destruct (wrapped s); [intros; by rewrite Hw in *|done]).
  destruct pc as [| | | | |[]|[]|[]]; cbn; try done; try (by eauto).
  - destruct Hsec as [->|]; done.
  - intros H1 Hw1 Hs1. rewrite Ht. specialize (H1 ltac:(auto) ltac:(auto)). specialize (Hn Hw1). lia.
Qed.

Lemma tm_inv_update T s i pc pc' l' : tm_inv T s -> pcs s !! i = Some pc -> tm_grows (shared s) l' ->
  (UptimeSeconds (uptime l') = UptimeSeconds (uptime (shared s)) \/ is_rtc pc = true) -> is_rtc pc' = is_rtc pc -> pc_time_ok l' pc' ->
  (TimerUninited (the_timer l') = true -> stopped l' = true) -> (pc' = Stopping -> stopped l' = true) -> tm_inv T (mkSys l' (<[i := pc']> (pcs s))).
Proof.
  intros [H1 H2 H3 H4 H5 H6] Hi G Hsec Er Hpc Hun Hst. pose proof G as (G1&G2&_&G4&_). split; cbn [shared pcs]; try done.
  - congruence.
  - intros j Hj. destruct (decide (i = j)) as [<-|Hn].
    + rewrite list_lookup_insert_eq in Hj by (by eapply lookup_lt_Some). injection Hj as ->. by apply Hst.
    + rewrite list_lookup_insert_ne in Hj by done. by eapply G4, H4.
  - rewrite (countp_update _ _ _ _ _ Hi), Er. lia.
  - apply Forall_lookup. intros j q Hj. destruct (decide (i = j)) as [<-|Hn].
    { rewrite list_lookup_insert_eq in Hj by (by eapply lookup_lt_Some). by injection Hj as <-. }
    rewrite list_lookup_insert_ne in Hj by done. eapply pc_time_grows; [done| |by eapply Forall_lookup_1]. destruct Hsec as [?|Hr]; [by left|right].
    destruct (is_rtc q) eqn:Eq; [|done]. pose proof (countp_two is_rtc _ i j _ _ Hn Hi Hj Hr Eq). lia.
Qed.

Lemma tm_grows_refl s : uptime_ok (uptime s) -> tm_grows s s.
Proof. intros H. split_and!; try done. Qed.

Lemma step_time T perCpu s i choice pc pc' l' : 0 <= perCpu -> tm_inv T s -> pcs s !! i = Some pc -> tm_exec perCpu (cpu_id i) choice pc (shared s) = Ok (pc', l') ->
  tm_inv T (mkSys l' (<[i := pc']> (pcs s))) /\ tm_grows (shared s) l'.
Proof.
  intros Hp HI Hi E. pose proof (ti_uptime _ _ HI) as Hu. pose proof (tm_grows_refl _ Hu) as Hrefl. pose proof (Forall_lookup_1 _ _ _ _ (ti_pc _ _ HI) Hi) as Hpc.
  pose proof (ti_uninited _ _ HI) as Hun.
  assert (l' = shared s -> is_rtc pc' = is_rtc pc -> pc_time_ok (shared s) pc' -> pc' <> Stopping -> tm_inv T (mkSys l' (<[i := pc']> (pcs s))) /\ tm_grows (shared s) l') as Hsame.
  { intros -> Hr Hq Hns. split; [|done]. apply (tm_inv_update T s i pc); auto. }
  assert (forall t b, l' = mkTm (uptime (shared s)) t (wrapped (shared s)) b -> TriggerTimeUs t = TriggerTimeUs (the_timer (shared s)) -> (stopped (shared s) = true -> b = true) ->
    (b = false -> TimerStarted (the_timer (shared s)) = true -> TimerStarted t = true) -> (TimerUninited t = true -> b = true) -> is_rtc pc = false ->
    (pc' = User \/ pc' = Stopping /\ b = true) -> tm_inv T (mkSys l' (<[i := pc']> (pcs s))) /\ tm_grows (shared s) l') as Htimer.
  { intros t b -> Ht Hb Hst Hu' Hr Hq. assert (tm_grows (shared s) (mkTm (uptime (shared s)) t (wrapped (shared s)) b)) as G by (split_and!; try done; cbn; auto; unfold now; cbn; lia).
    split; [|done]. apply (tm_inv_update T s i pc); try done; [by left|destruct Hq as [->|[-> _]]; by rewrite Hr|by destruct Hq as [->|[-> _]]|by destruct Hq as [->|[_ ->]]]. }
  assert (forall c, (match c with
      | DoStart => Ok (User, with_timer (ExTimerStart (the_timer (shared s))) (shared s))
      | DoStop => Ok (User, mkTm (uptime (shared s)) (ExTimerStop (the_timer (shared s))) (wrapped (shared s)) true)
      | DoUninit => Ok (Stopping, mkTm (uptime (shared s)) (ExTimerStop (the_timer (shared s))) (wrapped (shared s)) true)
      | DoWait => if TimerUninited (the_timer (shared s)) then Ok (Returned (TimerStarted (the_timer (shared s))), shared s) else Ok (WaitTime (TimerStarted (the_timer (shared s))), shared s)
      | Nothing => Ok (pc, shared s)
      end) = Ok (pc', l') -> is_rtc pc = false -> pc <> Stopping -> tm_inv T (mkSys l' (<[i := pc']> (pcs s))) /\ tm_grows (shared s) l') as Huser.
  { intros c Ec Hr Hns. destruct c.
    - injection Ec as <- <-. eapply (Htimer _ _); [reflexivity|..]; unfold ExTimerStart; destruct (TimerUninited (the_timer (shared s))) eqn:Eu; cbn; auto. by rewrite Eu.
    - injection Ec as <- <-. eapply (Htimer _ _); [reflexivity|..]; unfold ExTimerStop; destruct (TimerUninited (the_timer (shared s))) eqn:Eu; cbn; auto.
    - injection Ec as <- <-. eapply (Htimer _ _); [reflexivity|..]; unfold ExTimerStop; destruct (TimerUninited (the_timer (shared s))) eqn:Eu; cbn; auto.
    - destruct (TimerUninited (the_timer (shared s))) eqn:Eu; injection Ec as <- <-; (apply Hsame; [done|by rewrite Hr| |done]).
      + destruct (TimerStarted _); cbn; [|done]. intros _ Hs. by rewrite Hun in Hs.
      + destruct (TimerStarted _) eqn:Es; cbn; [|done]. by rewrite Es.
    - injection Ec as <- <-. by apply Hsame. }
  destruct pc as [| |n| | |b|b|b]; cbn [tm_exec] in E.
  - injection E as <- <-. set (l2 := mkTm _ _ _ _). assert (uptime_ok (uptime l2)) as Hu2 by (split; [apply Hu|cbn; apply u32_range]).
    assert (tm_grows (shared s) l2) as G; [|split; [|done]; apply (tm_inv_update T s i Clock); try done; by left].
    split_and!; try done; cbn [wrapped l2]; [by intros ->|]. intros Hw. apply orb_false_iff in Hw as [_ Hw]. apply Z.leb_gt in Hw. unfold now. rewrite !system_time by done. cbn [l2 uptime _IomuUpdateSystemTime UptimeSeconds UptimeMicroseconds].
    destruct Hu. rewrite u32_small by rlia. lia.
  - destruct (Z.leb_spec (UptimeSeconds (uptime (shared s)) + 1) MAX_DWORD); [|done]. injection E as <- <-. by apply Hsame.
  - injection E as <- <-. destruct Hpc as [-> Hm]. destruct Hu as [Hs Hmi]. rewrite of_Raw_seconds by lia. set (l2 := mkTm _ _ _ _). assert (uptime_ok (uptime l2)) as Hu2 by (split; cbn; lia).
    assert (tm_grows (shared s) l2) as G; [|split; [|done]; apply (tm_inv_update T s i (RtcStore (UptimeSeconds (uptime (shared s)) + 1))); try done; by right].
    split_and!; try done. intros _. unfold now. rewrite !system_time by done. cbn. unfold SEC_IN_US. lia.
  - by apply (Huser choice).
  - injection E as <- <-. eapply (Htimer _ _); [reflexivity|..]; cbn; auto. intros _. by apply (ti_stopping _ _ HI i).
  - destruct (Z.ltb_spec (now (shared s)) (TriggerTimeUs (the_timer (shared s)))); injection E as <- <-; (apply Hsame; [done|done| |done]); destruct b; try done.
    cbn. intros _ _. lia.
  - destruct (TimerStarted (the_timer (shared s))) eqn:Es; injection E as <- <-; (apply Hsame; [done|done| |done]); destruct b; try done; cbn.
    intros _ Hs. specialize (Hpc Hs). congruence.
  - by apply (Huser choice).
Qed.

Lemma tm_inv_start u type Time m n : uptime_ok u -> 0 <= type <= ExTimerTypeMax ->
  tm_inv (if type =? ExTimerTypeAbsolute then Time else u64 (IomuGetSystemTimeUs u + Time)) (tm_start u type Time m n).
Proof.
  intros Hu Ht. unfold tm_start, ExTimerInit. rewrite (proj2 (Z.ltb_ge _ _)) by lia. destruct (type =? ExTimerTypeAbsolute); (split; cbn; [done|done|done|intros i Hi|rewrite countp_app, !countp_replicate; cbn; lia|]).
  all: try (repeat constructor; apply Forall_app; split; by apply Forall_replicate). all: destruct i as [|i]; cbn in Hi; [done|];
    apply lookup_app_Some in Hi as [Hi|[_ Hi]]; by apply lookup_replicate in Hi as [? _].
Qed.

(** * Theorems *)
Lemma tm_reachable perCpu u type Time m n s : 0 <= perCpu -> uptime_ok u -> 0 <= type <= ExTimerTypeMax -> reachable (tm_exec perCpu) (tm_start u type Time m n) s ->
  tm_inv (if type =? ExTimerTypeAbsolute then Time else u64 (IomuGetSystemTimeUs u + Time)) s /\ (wrapped (shared s) = false -> IomuGetSystemTimeUs u <= now (shared s)).
Proof.
  intros Hp Hu Ht. apply (reachable_preserved _ (fun s => tm_inv _ s /\ (wrapped (shared s) = false -> IomuGetSystemTimeUs u <= now (shared s)))).
  - split; [by apply tm_inv_start|]. intros _. unfold now, tm_start. cbn. lia.
  - intros s1 i choice pc pc' l' [HI Hn] Hi E. destruct (step_time _ _ _ _ _ _ _ _ Hp HI Hi E) as [HI' (_&_&Hw&_&Hnow&_)]. split; [done|]. cbn. intros Hw'. specialize (Hnow Hw').
    destruct (wrapped (shared s1)) eqn:Ew; [by rewrite Hw in Hw'|]. specialize (Hn eq_refl). lia.
Qed.


(** One processor with a clock of 40 milliseconds; a thread starts a timer of 50 milliseconds and waits for it. *)
Definition tm_schedule : list (nat * tm_choice) :=
  [(2%nat, DoStart); (2%nat, DoWait); (1%nat, Nothing); (2%nat, Nothing); (2%nat, Nothing); (1%nat, Nothing); (2%nat, Nothing)].

(** The comparison of two timers has the sign of the difference of their times when they are less than 2^63 microseconds apart. *)
Theorem compare_timers a b : 0 <= TriggerTimeUs a < 2 ^ 64 -> 0 <= TriggerTimeUs b < 2 ^ 64 -> - 2 ^ 63 <= TriggerTimeUs a - TriggerTimeUs b < 2 ^ 63 ->
  ExTimerCompareTimers a b = TriggerTimeUs a - TriggerTimeUs b.
Proof. intros. unfold ExTimerCompareTimers. by apply i64_u64. Qed.

(** A time that overflows the sum with the system time makes a timer that has already triggered. *)
Theorem timer_init_overflow u : uptime_ok u -> 0 < IomuGetSystemTimeUs u ->
  exists t, ExTimerInit false ExTimerTypeRelativeOnce (2 ^ 64 - 1) u (mkTimer 0 0 0 false false) = (STATUS_SUCCESS, t) /\ TriggerTimeUs t < IomuGetSystemTimeUs u.
Proof.
  intros Hu H0. eexists. split; [reflexivity|]. cbn [TriggerTimeUs]. assert (IomuGetSystemTimeUs u < 2 ^ 64) by (unfold IomuGetSystemTimeUs; apply u64_range).
  unfold u64. replace (IomuGetSystemTimeUs u + (2 ^ 64 - 1)) with (IomuGetSystemTimeUs u - 1 + 1 * 2 ^ 64) by lia. rewrite Z.mod_add by lia. rewrite Z.mod_small; lia.
Qed.
