(* ===== verification/Pmm.v ===== *)
(** HAL9000/src/pmm.c: the physical memory manager.  The frames of the machine
    are the bits of one allocation bitmap: a set bit is a reserved frame.  Every
    access to the bitmap is made with AllocationLock held, whose mutual exclusion
    is proved in [Spinlock]; the operations are therefore modelled as sequential. *)
From S2P Require Import Prelude IntUtils ClMemory Bitmap.

(** HAL/inc/int15.h *)
Definition MemoryMapTypeUsableRAM : Z := 1.
Definition MemoryMapTypeMax : Z := 6.
Definition MEMORY_MAP_ENTRY_EA_VALID_ENTRY : Z := Z.shiftl 1 0.

Record INT15_MEMORY_MAP_ENTRY := mkINT15 {
  BaseAddress : Z; Length_ : Z; Type_ : Z; ExtendedAttributes : Z }.

Record MEMORY_REGION_LIST := mkREGION { mr_Type : Z; NumberOfEntries : Z }.

Record PMM_DATA := mkPMM_DATA {
  HighestPhysicalAddressAvailable : Z;
  HighestPhysicalAddressPresent : Z;
  PhysicalMemorySize : Z;
  MemoryRegionList : list MEMORY_REGION_LIST;
  AllocationBitmap : BITMAP }.

(** m_pmmData and the memory in which the bitmap's buffer lies. *)
Record Pmm := mkPmm { m_pmmData : PMM_DATA; pmm_mem : Mem }.

Definition on_mem {A} (f : BITMAP -> M Mem A) : M Pmm A := fun s =>
  match f (AllocationBitmap (m_pmmData s)) (pmm_mem s) with
  | Ok (a, m) => Ok (a, mkPmm (m_pmmData s) m)
  | Err e => Err e
  end.
Definition set_bitmap (bm : BITMAP) : M Pmm unit := modify (fun s =>
  let d := m_pmmData s in
  mkPmm (mkPMM_DATA (HighestPhysicalAddressAvailable d) (HighestPhysicalAddressPresent d)
    (PhysicalMemorySize d) (MemoryRegionList d) bm) (pmm_mem s)).

(** * Operations *)

Definition PmmPreinitSystem : M Pmm unit := modify (fun s =>
  let zeroed := replicate (Z.to_nat MemoryMapTypeMax) (mkREGION 0 0) in
  let regions := foldl (fun l i => <[i := mkREGION (Z.of_nat i) 0]> l) zeroed
    (seq (Z.to_nat MemoryMapTypeUsableRAM) (Z.to_nat (MemoryMapTypeMax - MemoryMapTypeUsableRAM))) in
  mkPmm (mkPMM_DATA 0 0 0 regions (mkBITMAP 0 0 0)) (pmm_mem s)).

Definition PmmReserveMemoryEx (NoOfFrames MinPhysAddr : Z) : M Pmm Z :=
  if 0 =? NoOfFrames then ret NULL else
  if negb (IsAddressAligned MinPhysAddr PAGE_SIZE) then ret NULL else
  let startIdx := MinPhysAddr / PAGE_SIZE in
  if MAX_DWORD <? startIdx then ret NULL else
  idx ← on_mem (fun bm => BitmapScanFromAndFlip bm (u32 startIdx) NoOfFrames false);
  if MAX_DWORD =? idx then ret NULL else
  ret (u64 (idx * PAGE_SIZE)).

Definition PmmReserveMemory (Frames : Z) : M Pmm Z := PmmReserveMemoryEx Frames NULL.

Definition PmmReleaseMemory (PhysicalAddr NoOfFrames : Z) : M Pmm unit :=
  _ ← ASSERT (IsAddressAligned PhysicalAddr PAGE_SIZE);
  let index := PhysicalAddr / PAGE_SIZE in
  _ ← ASSERT (index <=? MAX_DWORD);
  on_mem (fun bm => BitmapSetBitsValue bm (u32 index) NoOfFrames false).

Definition PmmGetTotalSystemMemory (s : Pmm) : Z := PhysicalMemorySize (m_pmmData s).
Definition PmmGetHighestPhysicalMemoryAddressPresent (s : Pmm) : Z :=
  HighestPhysicalAddressPresent (m_pmmData s).
Definition PmmGetHighestPhysicalMemoryAddressAvailable (s : Pmm) : Z :=
  HighestPhysicalAddressAvailable (m_pmmData s).

Definition entry_valid (e : INT15_MEMORY_MAP_ENTRY) : bool :=
  IsBooleanFlagOn (ExtendedAttributes e) MEMORY_MAP_ENTRY_EA_VALID_ENTRY.

(** The locals of _PmmDetermineMemoryLimits. *)
Record limits := mkLimits {
  sizeOfAvailableMemory : Z; highestMemoryAddressPresent : Z;
  highestMemoryAddressAvailable : Z; MemoryRegions : list MEMORY_REGION_LIST }.

(** MemoryRegions[memoryType].NumberOfEntries++ *)
Definition count_region (memoryType : Z) (regions : list MEMORY_REGION_LIST)
    : outcome (list MEMORY_REGION_LIST) :=
  r ← of_option (zget regions memoryType);
  of_option (zset regions memoryType (mkREGION (mr_Type r) (u32 (NumberOfEntries r + 1)))).

(** The body of the loop. *)
Definition limits_entry (e : INT15_MEMORY_MAP_ENTRY) (l : limits) : outcome limits :=
  let memoryType := Type_ e in
  let end_ := u64 (BaseAddress e + Length_ e) in
  let present := if highestMemoryAddressPresent l <? end_ then end_ else highestMemoryAddressPresent l in
  if negb (entry_valid e)
  then Ok (mkLimits (sizeOfAvailableMemory l) present (highestMemoryAddressAvailable l) (MemoryRegions l)) else
  regions ← count_region memoryType (MemoryRegions l);
  if negb (MemoryMapTypeUsableRAM =? memoryType)
  then Ok (mkLimits (sizeOfAvailableMemory l) present (highestMemoryAddressAvailable l) regions) else
  let available :=
    if highestMemoryAddressAvailable l <? end_ then end_ else highestMemoryAddressAvailable l in
  Ok (mkLimits (u64 (sizeOfAvailableMemory l + Length_ e)) present available regions).

Fixpoint limits_loop (MemoryMap : list INT15_MEMORY_MAP_ENTRY) (l : limits) : outcome limits :=
  match MemoryMap with
  | [] => Ok l
  | e :: rest => l' ← limits_entry e l; limits_loop rest l'
  end.

(** The memory map is its list of entries; their number is the list's length. *)
Definition _PmmDetermineMemoryLimits (MemoryMap : list INT15_MEMORY_MAP_ENTRY)
    (regions : list MEMORY_REGION_LIST) : outcome limits :=
  _ ← assert_ (negb (0 =? Z.of_nat (length MemoryMap)));
  limits_loop MemoryMap (mkLimits 0 0 0 regions).

Definition release_entry (e : INT15_MEMORY_MAP_ENTRY) : M Pmm unit :=
  if negb (entry_valid e) then ret tt else
  if negb (MemoryMapTypeUsableRAM =? Type_ e) then ret tt else
  if BaseAddress e <? 1 * MB_SIZE then ret tt else
  let physAddr := AlignAddressUpper (BaseAddress e) PAGE_SIZE in
  let noOfFrames := Length_ e / PAGE_SIZE in
  _ ← ASSERT (noOfFrames <=? MAX_DWORD);
  PmmReleaseMemory physAddr (u32 noOfFrames).

Fixpoint release_loop (MemoryEntries : list INT15_MEMORY_MAP_ENTRY) : M Pmm unit :=
  match MemoryEntries with
  | [] => ret tt
  | e :: rest => _ ← release_entry e; release_loop rest
  end.

(** Returns SizeReserved. *)
Definition _PmmInitializeAllocationBitmap (CurrentVirtualAddress HighestMemoryAddress : Z)
    (MemoryEntries : list INT15_MEMORY_MAP_ENTRY) : M Pmm Z :=
  _ ← ASSERT (negb (NULL =? CurrentVirtualAddress));
  _ ← ASSERT (negb (0 =? HighestMemoryAddress));
  let noOfPhysicalFrames := HighestMemoryAddress / PAGE_SIZE in
  _ ← ASSERT (noOfPhysicalFrames <=? MAX_DWORD);
  '(bitmapSize, bm0) ← lift (BitmapPreinit (u32 noOfPhysicalFrames));
  _ ← set_bitmap bm0;
  bm ← on_mem (fun bm => BitmapInitEx bm CurrentVirtualAddress false);
  _ ← set_bitmap bm;
  _ ← PmmReserveMemory (BitmapGetMaxElementCount bm);
  _ ← release_loop MemoryEntries;
  ret bitmapSize.

(** The status and *SizeReserved. *)
Definition PmmInitSystem (Base : Z) (MemoryEntriesIsNull : bool)
    (MemoryEntries : list INT15_MEMORY_MAP_ENTRY) (SizeReservedIsNull : bool) : M Pmm (Z * Z) :=
  if NULL =? Base then ret (STATUS_INVALID_PARAMETER1, 0) else
  if MemoryEntriesIsNull then ret (STATUS_INVALID_PARAMETER2, 0) else
  if 0 =? Z.of_nat (length MemoryEntries) then ret (STATUS_INVALID_PARAMETER3, 0) else
  if SizeReservedIsNull then ret (STATUS_INVALID_PARAMETER4, 0) else
  regions ← gets (fun s => MemoryRegionList (m_pmmData s));
  l ← lift (_PmmDetermineMemoryLimits MemoryEntries regions);
  _ ← modify (fun s => mkPmm (mkPMM_DATA (highestMemoryAddressAvailable l) (highestMemoryAddressPresent l)
        (sizeOfAvailableMemory l) (MemoryRegions l) (AllocationBitmap (m_pmmData s))) (pmm_mem s));
  sizeReserved ← _PmmInitializeAllocationBitmap Base (highestMemoryAddressPresent l) MemoryEntries;
  ret (STATUS_SUCCESS, u32 (AlignAddressUpper sizeReserved PAGE_SIZE)).

(** * The frames *)
Definition bitmap_of (s : Pmm) : BITMAP := AllocationBitmap (m_pmmData s).
Definition frame_count (s : Pmm) : Z := BitCount (bitmap_of s).
Definition reserved (s : Pmm) (f : Z) : bool := bit (pmm_mem s) (bitmap_of s) f.
Definition free_run (s : Pmm) (f n : Z) : Prop := forall j, 0 <= j < n -> reserved s (f + j) = false.
Definition wf_pmm (s : Pmm) : Prop := wf_bitmap (pmm_mem s) (bitmap_of s).

(** Only the frames [f, f + n) change, to [v]; everything else stays. *)
Definition frames_set (s s' : Pmm) (f n : Z) (v : bool) : Prop :=
  m_pmmData s' = m_pmmData s /\ wf_pmm s' /\
  (forall i, 0 <= i -> reserved s' i = if bool_decide (f <= i < f + n) then v else reserved s i) /\
  frame_outside (pmm_mem s) (pmm_mem s') (BitmapBuffer (bitmap_of s)) (BufferSize (bitmap_of s)).

(** * Lemmas *)
Lemma on_mem_wp {A} (f : BITMAP -> M Mem A) (Q : A -> Pmm -> Prop) s :
  wp (f (bitmap_of s)) (fun a m => Q a (mkPmm (m_pmmData s) m)) (pmm_mem s) -> wp (on_mem f) Q s.
Proof. unfold wp, on_mem, bitmap_of. by destruct (f _ _) as [[a m]|e]. Qed.

Lemma bits_changed_frames s m' f n v : wf_pmm s ->
  bits_changed (pmm_mem s) m' (BitmapBuffer (bitmap_of s)) (BufferSize (bitmap_of s)) f n v ->
  frames_set s (mkPmm (m_pmmData s) m') f n v.
Proof.
  intros Hwf H. pose proof (bits_changed_wf _ _ _ _ _ _ Hwf H) as Hwf'.
  destruct H as (H1 & H2 & H3). split_and!; done.
Qed.

Lemma wf_pmm_count s : wf_pmm s -> 0 < frame_count s <= MAX_DWORD.
Proof. by intros (_ & H & _). Qed.

Lemma page_aligned a : is_qword a -> IsAddressAligned a PAGE_SIZE = (a mod PAGE_SIZE =? 0).
Proof.
  intros Ha. change PAGE_SIZE with (2 ^ 12) at 1. rewrite IsAddressAligned_pow2 by lia.
  by rewrite u64_small.
Qed.

(** What PmmReserveMemoryEx returns: NULL and nothing changes, or the first run
    that fits. *)
Definition reserve_result (s s' : Pmm) (n min r : Z) : Prop :=
  let start := min / PAGE_SIZE in
  (r = NULL /\ s' = s /\ (n = 0 \/ min mod PAGE_SIZE <> 0 \/
     forall f, start <= f -> f + n <= frame_count s -> ~ free_run s f n)) \/
  (exists f, r = f * PAGE_SIZE /\ start <= f /\ f + n <= frame_count s /\ 0 < n /\
     free_run s f n /\ (forall k, start <= k < f -> ~ free_run s k n) /\ frames_set s s' f n true).

Lemma PmmReserveMemoryEx_spec n min s : wf_pmm s -> is_dword n -> is_qword min ->
  wp (PmmReserveMemoryEx n min) (fun r s' => reserve_result s s' n min r) s.
Proof.
  intros Hwf Hn Hmin. pose proof (wf_pmm_count s Hwf) as Hc. unfold PmmReserveMemoryEx, reserve_result. cbv zeta.
  destruct (Z.eqb_spec 0 n) as [E|E]; [wp_step; left; split_and!; [done..|by left]|].
  rewrite page_aligned by done.
  destruct (Z.eqb_spec (min mod PAGE_SIZE) 0) as [Ea|Ea]; cbn [negb];
    [|wp_step; left; split_and!; [done..|right; by left]].
  pose proof (Z.div_pos min PAGE_SIZE ltac:(rlia) ltac:(done)).
  destruct (Z.ltb_spec MAX_DWORD (min / PAGE_SIZE)).
  { wp_step. left. split_and!; [done..|right; right; intros; rlia]. }
  wp_step. apply on_mem_wp. rewrite (u32_small (min / PAGE_SIZE)) by rlia.
  eapply wp_mono; [apply BitmapScanFromToAndFlip_spec; try done; unfold frame_count in *; rlia|].
  cbv beta. intros r m' Hr.
  case_bool_decide as Hbad.
  { destruct Hr as [-> ->]. rewrite Z.eqb_refl. wp_step. left. split_and!; [done|by destruct s|].
    right; right. unfold frame_count, bitmap_of in *. intros; rlia. }
  destruct Hr as ([[-> Hno]|(Hr1 & Hr2 & Hr3 & Hrun & Hfirst)] & Hwf' & Hm').
  { rewrite bool_decide_eq_true_2 in Hm' by done. subst m'. rewrite Z.eqb_refl. wp_step. left.
    split_and!; [done|by destruct s|]. right; right. intros f H1 H2. apply Hno; done. }
  rewrite bool_decide_eq_false_2 in Hm' by done.
  rewrite (proj2 (Z.eqb_neq MAX_DWORD r)) by congruence. wp_step. right. exists r.
  unfold frame_count in *. split_and!; try done; try rlia.
  - rewrite u64_small; [done|]. unfold PAGE_SIZE. rlia.
  - apply bits_changed_frames; [done|]. exact Hm'.
Qed.

Lemma PmmReleaseMemory_spec f n s : wf_pmm s -> 0 <= f < frame_count s -> 0 <= n -> f + n <= frame_count s ->
  wp (PmmReleaseMemory (f * PAGE_SIZE) n) (fun _ s' => frames_set s s' f n false) s.
Proof.
  intros Hwf Hf Hn Hfn. pose proof (wf_pmm_count s Hwf). unfold PmmReleaseMemory.
  assert (Hq : is_qword (f * PAGE_SIZE)) by (unfold PAGE_SIZE; rlia).
  wp_step. wp_step; [by rewrite page_aligned, Z.mod_mul by (done || by unfold PAGE_SIZE)|].
  rewrite Z.div_mul by (by unfold PAGE_SIZE). wp_step. wp_step; [apply Z.leb_le; lia|].
  apply on_mem_wp. rewrite (u32_small f) by rlia.
  eapply wp_mono; [apply BitmapSetBitsValue_spec; try done; unfold frame_count in *; lia|]. cbv beta. intros _ m' Hm'.
  by apply bits_changed_frames.
Qed.

(** * Sequences of reservations *)
Inductive pmm_op : Set :=
| OpReserve (NoOfFrames MinPhysAddr : Z)
| OpRelease (k : nat).   (* the k-th outstanding reservation *)

(** The outstanding reservations, as (address, number of frames). *)
Definition pmm_step (op : pmm_op) (a : list (Z * Z)) : M Pmm (list (Z * Z)) :=
  match op with
  | OpReserve n min =>
      r ← PmmReserveMemoryEx n min; ret (if r =? NULL then a else (r, n) :: a)
  | OpRelease k =>
      match a !! k with
      | Some (r, n) => _ ← PmmReleaseMemory r n; ret (delete k a)
      | None => ret a
      end
  end.
Fixpoint pmm_run (ops : list pmm_op) (a : list (Z * Z)) : M Pmm (list (Z * Z)) :=
  match ops with
  | [] => ret a
  | op :: rest => a' ← pmm_step op a; pmm_run rest a'
  end.

Definition op_ok (op : pmm_op) : Prop :=
  match op with OpReserve n min => is_dword n /\ is_qword min | OpRelease _ => True end.

(** Does the reservation cover the frame? *)
Definition covers (f : Z) (r : Z * Z) : bool :=
  (fst r / PAGE_SIZE <=? f) && (f <? fst r / PAGE_SIZE + snd r).

Definition reservation_ok (s0 : Pmm) (r : Z * Z) : Prop :=
  fst r mod PAGE_SIZE = 0 /\ 0 <= fst r /\ 0 < snd r /\ fst r / PAGE_SIZE + snd r <= frame_count s0 /\
  forall f, covers f r = true -> reserved s0 f = false.

Definition disjoint_frames (r q : Z * Z) : Prop :=
  fst r + snd r * PAGE_SIZE <= fst q \/ fst q + snd q * PAGE_SIZE <= fst r.

Record pmm_inv (s0 s : Pmm) (a : list (Z * Z)) : Prop := {
  pi_wf : wf_pmm s;
  pi_data : m_pmmData s = m_pmmData s0;
  pi_ok : Forall (reservation_ok s0) a;
  pi_disjoint : forall i j r q, i <> j -> a !! i = Some r -> a !! j = Some q -> disjoint_frames r q;
  pi_reserved : forall f, 0 <= f < frame_count s0 -> reserved s f = reserved s0 f || existsb (covers f) a
}.

Lemma pmm_inv_start s : wf_pmm s -> pmm_inv s s [].
Proof. intros Hwf. split; try done. intros f _. by rewrite orb_false_r. Qed.

Lemma pmm_inv_count s0 s a : pmm_inv s0 s a -> frame_count s = frame_count s0.
Proof. intros H. unfold frame_count, bitmap_of. by rewrite (pi_data _ _ _ H). Qed.

Lemma page_div f : f * PAGE_SIZE / PAGE_SIZE = f.
Proof. apply Z.div_mul. done. Qed.

Lemma aligned_mul a : a mod PAGE_SIZE = 0 -> a = a / PAGE_SIZE * PAGE_SIZE.
Proof. intros E. pose proof (Z.div_mod a PAGE_SIZE ltac:(done)). lia. Qed.

Lemma covers_spec f r n : covers f (r * PAGE_SIZE, n) = true <-> r <= f < r + n.
Proof. unfold covers. simpl. rewrite page_div. lia. Qed.

(** Two page-aligned reservations with no common frame are disjoint ranges. *)
Lemma disjoint_frames_covers s0 r q : reservation_ok s0 r -> reservation_ok s0 q ->
  (disjoint_frames r q <-> forall f, covers f r = true -> covers f q = true -> False).
Proof.
  destruct r as [r n], q as [q k]. intros (E1 & _ & Hn & _) (E2 & _ & Hk & _). simpl in *.
  rewrite (aligned_mul r E1), (aligned_mul q E2) in *. clear E1 E2.
  set (r' := r / PAGE_SIZE) in *. set (q' := q / PAGE_SIZE) in *. unfold disjoint_frames. simpl.
  setoid_rewrite covers_spec. split.
  - intros H f Hr Hq. unfold PAGE_SIZE in H. lia.
  - intros H. unfold PAGE_SIZE. destruct (Z.le_gt_cases (r' + n) q'); [lia|].
    destruct (Z.le_gt_cases (q' + k) r'); [lia|]. destruct (H (Z.max r' q')); lia.
Qed.

Lemma pmm_inv_reserve s0 s a n f s' : pmm_inv s0 s a -> 0 <= f -> 0 < n -> f + n <= frame_count s ->
  free_run s f n -> frames_set s s' f n true -> pmm_inv s0 s' ((f * PAGE_SIZE, n) :: a).
Proof.
  intros Hinv Hf Hn Hfn Hfree (Hd & Hwf & Hset & _). pose proof (pmm_inv_count _ _ _ Hinv) as Ec.
  destruct Hinv as [Hw Hdata Hok Hdis Hres].
  assert (Hnew : forall g, f <= g < f + n -> reserved s0 g = false /\ existsb (covers g) a = false).
  { intros g Hg. specialize (Hres g ltac:(lia)). specialize (Hfree (g - f) ltac:(lia)).
    replace (f + (g - f)) with g in Hfree by lia. rewrite Hfree in Hres.
    symmetry in Hres. by apply orb_false_iff in Hres. }
  assert (Hr : reservation_ok s0 (f * PAGE_SIZE, n)).
  { split_and!; simpl; [by apply Z.mod_mul|unfold PAGE_SIZE; lia|lia|rewrite page_div; lia|].
    intros g Hg. apply Hnew. by apply covers_spec. }
  assert (Hdisj : forall j q, a !! j = Some q -> disjoint_frames (f * PAGE_SIZE, n) q).
  { intros j q Hq. pose proof (Forall_lookup_1 _ _ _ _ Hok Hq) as Hqok.
    apply (disjoint_frames_covers s0); [done..|]. intros g Hg Hgq. apply covers_spec in Hg.
    destruct (Hnew g Hg) as [_ E]. apply not_true_iff_false in E. apply E. apply existsb_exists.
    exists q. split; [|done]. apply list_elem_of_In. by eapply list_elem_of_lookup_2. }
  split; try done.
  - by rewrite Hd.
  - by constructor.
  - intros [|i] [|j] r q Hne Hi Hj; simplify_eq/=; try done; [by eapply Hdisj| |eapply (Hdis i j); [congruence|done..]].
    destruct (Hdisj _ _ Hi); [by right|by left].
  - intros g Hg. rewrite Hset by lia. simpl existsb. case_bool_decide as Hin.
    + rewrite (proj2 (covers_spec g f n)) by done. by rewrite orb_true_r.
    + rewrite (proj1 (not_true_iff_false (covers g (f * PAGE_SIZE, n)))) by (by rewrite covers_spec).
      simpl. apply Hres. lia.
Qed.

Lemma existsb_delete {A} (P : A -> bool) (l : list A) k x : l !! k = Some x ->
  existsb P l = P x || existsb P (delete k l).
Proof.
  revert k. induction l as [|y l IH]; intros [|k] Hk; simplify_eq/=; [done|].
  rewrite (IH k Hk). rewrite !orb_assoc. f_equal. apply orb_comm.
Qed.

Lemma lookup_delete_inj {A} (l : list A) k : exists g : nat -> nat,
  (forall i, delete k l !! i = l !! g i) /\ (forall i j, g i = g j -> i = j) /\ (forall i, g i <> k).
Proof.
  exists (fun i => if decide (i < k)%nat then i else S i). split_and!.
  - intros i. case_decide; [by apply list_lookup_delete_lt|apply list_lookup_delete_ge; lia].
  - intros i j. repeat case_decide; lia.
  - intros i. case_decide; lia.
Qed.

Lemma pmm_inv_release s0 s a k r n s' : pmm_inv s0 s a -> a !! k = Some (r, n) ->
  frames_set s s' (r / PAGE_SIZE) n false -> pmm_inv s0 s' (delete k a).
Proof.
  intros Hinv Hk (Hd & Hwf & Hset & _). destruct Hinv as [Hw Hdata Hok Hdis Hres].
  destruct (lookup_delete_inj a k) as (g & Hg & Hinj & Hgk).
  pose proof (Forall_lookup_1 _ _ _ _ Hok Hk) as Hrok.
  split; try done.
  - by rewrite Hd.
  - by apply Forall_delete.
  - intros i j x y Hne Hi Hj. rewrite Hg in Hi, Hj. eapply (Hdis (g i) (g j)); [|done..]. auto.
  - intros f Hf. rewrite Hset, (Hres f Hf), (existsb_delete _ _ _ _ Hk) by lia.
    case_bool_decide as Hin.
    + assert (Hc : covers f (r, n) = true) by (unfold covers; simpl; lia).
      destruct Hrok as (_ & _ & _ & _ & Hfree). rewrite (Hfree f Hc). simpl. symmetry.
      apply not_true_iff_false. intros (q & Hq & Hcq)%existsb_exists.
      apply list_elem_of_In, list_elem_of_lookup in Hq as [i Hi]. rewrite Hg in Hi.
      pose proof (Forall_lookup_1 _ _ _ _ Hok Hi) as Hqok.
      pose proof (Hdis (g i) k q (r, n) (Hgk i) Hi Hk) as Hd2.
      eapply (disjoint_frames_covers s0); [exact Hqok| |exact Hd2|exact Hcq|exact Hc].
      by apply (Forall_lookup_1 _ _ _ _ Hok Hk).
    + replace (covers f (r, n)) with false; [done|]. unfold covers. simpl. lia.
Qed.

Lemma pmm_step_inv s0 op s a : wf_pmm s0 -> reserved s0 0 = true -> op_ok op -> pmm_inv s0 s a ->
  wp (pmm_step op a) (fun a' s' => pmm_inv s0 s' a') s.
Proof.
  intros Hw0 H0 Hop Hinv. pose proof (pmm_inv_count _ _ _ Hinv) as Ec.
  pose proof (wf_pmm_count _ Hw0) as Hc. destruct op as [n min|k]; simpl.
  - destruct Hop as [Hn Hmin]. wp_step.
    eapply wp_mono; [by apply PmmReserveMemoryEx_spec; [apply Hinv|..]|].
    intros r s' [(-> & -> & _)|(f & -> & Hf & Hfn & Hn0 & Hfree & _ & Hset)]; wp_step; [done|].
    assert (0 <= f) by (pose proof (Z.div_pos min PAGE_SIZE ltac:(rlia) ltac:(done)); lia).
    destruct (Z.eqb_spec (f * PAGE_SIZE) NULL) as [E|E].
    { assert (f = 0) by (unfold PAGE_SIZE, NULL in E; lia). subst f.
      specialize (Hfree 0 ltac:(lia)). change (0 + 0) with 0 in Hfree. rewrite (pi_reserved _ _ _ Hinv) in Hfree by lia.
      by rewrite H0 in Hfree. }
    by eapply pmm_inv_reserve.
  - destruct (a !! k) as [[r n]|] eqn:Hk; [|wp_step; done].
    pose proof (Forall_lookup_1 _ _ _ _ (pi_ok _ _ _ Hinv) Hk) as (E & Hr & Hn & Hfn & _). simpl in *.
    pose proof (Z.div_pos r PAGE_SIZE Hr ltac:(done)).
    wp_step. rewrite (aligned_mul r E) at 1.
    eapply wp_mono; [apply PmmReleaseMemory_spec; [apply Hinv|lia..]|].
    cbv beta. intros _ s' Hset. wp_step. by eapply pmm_inv_release.
Qed.

Lemma pmm_run_inv s0 ops : wf_pmm s0 -> reserved s0 0 = true -> Forall op_ok ops -> forall s a,
  pmm_inv s0 s a -> wp (pmm_run ops a) (fun a' s' => pmm_inv s0 s' a') s.
Proof.
  intros Hw0 H0 Hops. induction Hops as [|op ops Hop Hops IH]; intros s a Hinv; simpl; [done|].
  wp_step. eapply wp_mono; [by apply (pmm_step_inv s0)|]. intros a' s' H'. by apply IH.
Qed.

(** * Initialisation *)

(** The frames PmmInitSystem makes available for an entry of the memory map. *)
Definition entry_start (e : INT15_MEMORY_MAP_ENTRY) : Z :=
  AlignAddressUpper (BaseAddress e) PAGE_SIZE / PAGE_SIZE.
Definition entry_usable (e : INT15_MEMORY_MAP_ENTRY) : bool :=
  entry_valid e && (MemoryMapTypeUsableRAM =? Type_ e) && (MB_SIZE <=? BaseAddress e).
Definition entry_frees (f : Z) (e : INT15_MEMORY_MAP_ENTRY) : bool :=
  entry_usable e && (entry_start e <=? f) && (f <? entry_start e + Length_ e / PAGE_SIZE).

Definition entry_end (e : INT15_MEMORY_MAP_ENTRY) : Z := BaseAddress e + Length_ e.
Definition map_end (MemoryMap : list INT15_MEMORY_MAP_ENTRY) : Z :=
  foldr (fun e n => entry_end e `max` n) 0 MemoryMap.
Definition is_ram (e : INT15_MEMORY_MAP_ENTRY) : bool := entry_valid e && (MemoryMapTypeUsableRAM =? Type_ e).
Definition ram_end (MemoryMap : list INT15_MEMORY_MAP_ENTRY) : Z := map_end (filter is_ram MemoryMap).
Definition ram_size (MemoryMap : list INT15_MEMORY_MAP_ENTRY) : Z :=
  foldr (fun e n => Length_ e + n) 0 (filter is_ram MemoryMap).

(** An entry the firmware may report: its fields have their widths, its range
    does not wrap, its type is one of the array's, and a usable range
    above 1 MB holds at least a page and its whole pages lie below the end [n] of
    the frames. *)
Definition entry_ok (n : Z) (e : INT15_MEMORY_MAP_ENTRY) : Prop :=
  0 <= BaseAddress e /\ 0 <= Length_ e /\ entry_end e + PAGE_SIZE <= 2 ^ 64 /\
  0 <= Type_ e < MemoryMapTypeMax /\
  (entry_usable e = true -> entry_start e < n /\ entry_start e + Length_ e / PAGE_SIZE <= n).

(** Page-aligned entries of at least a page satisfy the last condition. *)
Lemma entry_ok_aligned MemoryMap e : e ∈ MemoryMap ->
  0 <= BaseAddress e -> 0 <= Length_ e -> entry_end e + PAGE_SIZE <= 2 ^ 64 ->
  0 <= Type_ e < MemoryMapTypeMax ->
  (entry_usable e = true -> BaseAddress e mod PAGE_SIZE = 0 /\ PAGE_SIZE <= Length_ e) ->
  entry_ok (map_end MemoryMap / PAGE_SIZE) e.
Proof.
  intros He Hb Hl Hend Ht Hal. split_and!; try lia. intros Hu. destruct (Hal Hu) as [Ea Hpage].
  assert (Hm : entry_end e <= map_end MemoryMap).
  { clear -He. induction MemoryMap as [|x l IH]; simpl; [set_solver|].
    apply elem_of_cons in He as [->|He]; [lia|specialize (IH He); lia]. }
  assert (Es : entry_start e = BaseAddress e / PAGE_SIZE).
  { unfold entry_start, entry_end in *. f_equal. unfold PAGE_SIZE in *.
    destruct (AlignAddressUpper_spec (BaseAddress e) 12) as [H1 H2]; [lia|rlia|rlia|].
    change (2 ^ 12) with 0x1000 in *.
    pose proof (Z.div_mod (AlignAddressUpper (BaseAddress e) 0x1000) 0x1000 ltac:(done)).
    pose proof (Z.div_mod (BaseAddress e) 0x1000 ltac:(done)). lia. }
  rewrite Es. pose proof (aligned_mul _ Ea) as Eb.
  pose proof (Z.div_le_mono _ _ PAGE_SIZE ltac:(done) Hm) as Hle. unfold entry_end in Hle.
  rewrite Eb in Hle at 1. rewrite Z.add_comm, Z.div_add in Hle by done.
  pose proof (Z.div_le_mono _ _ PAGE_SIZE ltac:(done) Hpage) as Hone.
  rewrite Z.div_same in Hone by done. lia.
Qed.

Lemma count_region_run t regions : 0 <= t < Z.of_nat (length regions) ->
  exists regions', count_region t regions = Ok regions' /\ length regions' = length regions.
Proof.
  intros Ht. unfold count_region. destruct (zget_lt regions t Ht) as [r Hr].
  rewrite Hr. cbn [of_option mbind outcome_bind]. rewrite zset_lt by done.
  eexists. split; [reflexivity|]. apply length_insert.
Qed.

Lemma filter_cons_bool {A} (P : A -> bool) (x : A) l :
  filter P (x :: l) = if P x then x :: filter P l else filter P l.
Proof. rewrite filter_cons. by destruct (P x). Qed.

Lemma limits_entry_spec n e l : entry_ok n e ->
  length (MemoryRegions l) = Z.to_nat MemoryMapTypeMax ->
  exists l', limits_entry e l = Ok l' /\ length (MemoryRegions l') = Z.to_nat MemoryMapTypeMax /\
    highestMemoryAddressPresent l' = highestMemoryAddressPresent l `max` entry_end e /\
    highestMemoryAddressAvailable l' =
      (if is_ram e then highestMemoryAddressAvailable l `max` entry_end e else highestMemoryAddressAvailable l) /\
    sizeOfAvailableMemory l' =
      (if is_ram e then u64 (sizeOfAvailableMemory l + Length_ e) else sizeOfAvailableMemory l).
Proof.
  intros (Hb & Hl & Hend & Ht & _) Hlen. unfold entry_end, PAGE_SIZE in *.
  unfold limits_entry, is_ram. rewrite (u64_small (BaseAddress e + Length_ e)) by rlia.
  destruct (entry_valid e); cbn [negb andb].
  2: { eexists. split; [reflexivity|]. cbn -[Z.max]. split_and!; try done. zbool; lia. }
  destruct (count_region_run (Type_ e) (MemoryRegions l)) as (regions & -> & Hlen').
  { rewrite Hlen. unfold MemoryMapTypeMax in *. lia. }
  cbn [mbind outcome_bind]. destruct (MemoryMapTypeUsableRAM =? Type_ e); cbn [negb];
    (eexists; split; [reflexivity|]; cbn -[Z.max u64]; split_and!; try done; try (by rewrite Hlen'); zbool; lia).
Qed.

Lemma limits_loop_spec n MemoryMap : Forall (entry_ok n) MemoryMap -> forall l,
  length (MemoryRegions l) = Z.to_nat MemoryMapTypeMax ->
  0 <= highestMemoryAddressPresent l -> 0 <= highestMemoryAddressAvailable l ->
  is_qword (sizeOfAvailableMemory l) ->
  exists l', limits_loop MemoryMap l = Ok l' /\
    highestMemoryAddressPresent l' = highestMemoryAddressPresent l `max` map_end MemoryMap /\
    highestMemoryAddressAvailable l' = highestMemoryAddressAvailable l `max` ram_end MemoryMap /\
    sizeOfAvailableMemory l' = u64 (sizeOfAvailableMemory l + ram_size MemoryMap).
Proof.
  unfold ram_end, ram_size.
  induction 1 as [|e es He Hes IH]; intros l Hlen Hp Ha Hs.
  { exists l. split; [done|]. simpl. rewrite Z.add_0_r, u64_small by done. lia. }
  destruct (limits_entry_spec n e l He Hlen) as (l1 & E & Hlen1 & E1 & E2 & E3).
  destruct (IH l1 Hlen1) as (l' & El & F1 & F2 & F3).
  - lia.
  - rewrite E2. destruct (is_ram e); lia.
  - rewrite E3. destruct (is_ram e); [apply u64_range|done].
  - exists l'. cbn [limits_loop]. rewrite E. cbn [mbind outcome_bind]. split; [done|].
    rewrite F1, F2, F3, E1, E2, E3, filter_cons_bool.
    destruct (is_ram e); cbn [map_end foldr]; fold (map_end es); fold (map_end (filter is_ram es));
      (split_and!; [lia|lia|]); [|done].
    unfold u64. rewrite Zplus_mod_idemp_l. f_equal. lia.
Qed.

(** Releases of entries free exactly the frames of the usable ones. *)
Definition frames_freed (s s' : Pmm) (P : Z -> bool) : Prop :=
  m_pmmData s' = m_pmmData s /\ wf_pmm s' /\
  (forall i, 0 <= i -> reserved s' i = reserved s i && negb (P i)) /\
  frame_outside (pmm_mem s) (pmm_mem s') (BitmapBuffer (bitmap_of s)) (BufferSize (bitmap_of s)).

Lemma entry_start_page e n : entry_ok n e ->
  AlignAddressUpper (BaseAddress e) PAGE_SIZE = entry_start e * PAGE_SIZE /\ 0 <= entry_start e.
Proof.
  intros (Hb & Hl & Hend & _). unfold entry_start, entry_end, PAGE_SIZE in *.
  destruct (AlignAddressUpper_spec (BaseAddress e) 12) as [H1 H2]; [lia|rlia|rlia|].
  change (2 ^ 12) with 0x1000 in *. split; [|apply Z.div_pos; lia].
  pose proof (Z.div_mod (AlignAddressUpper (BaseAddress e) 0x1000) 0x1000 ltac:(done)). lia.
Qed.

Lemma release_entry_spec e s : wf_pmm s -> entry_ok (frame_count s) e ->
  wp (release_entry e) (fun _ s' => frames_freed s s' (fun i => entry_frees i e)) s.
Proof.
  intros Hwf He. pose proof (wf_pmm_count s Hwf).
  assert (Hskip : entry_usable e = false -> frames_freed s s (fun i => entry_frees i e)).
  { intros E. split_and!; try done. intros i Hi. unfold entry_frees. rewrite E. by rewrite andb_true_r. }
  unfold release_entry.
  destruct (entry_valid e) eqn:E1; [|cbn [negb]; wp_step; apply Hskip; unfold entry_usable; by rewrite E1].
  destruct (MemoryMapTypeUsableRAM =? Type_ e) eqn:E2;
    [|cbn [negb]; wp_step; apply Hskip; unfold entry_usable; by rewrite E2, andb_false_r].
  cbn [negb]. rewrite Z.mul_1_l. destruct (Z.ltb_spec (BaseAddress e) MB_SIZE).
  { wp_step. apply Hskip. unfold entry_usable. rewrite (proj2 (Z.leb_gt _ _)) by done. by rewrite andb_false_r. }
  assert (Hu : entry_usable e = true) by (unfold entry_usable; rewrite E1, E2; simpl; lia).
  destruct (entry_start_page e _ He) as [-> Hs0]. destruct He as (Hb & Hl & _ & _ & Hin).
  destruct (Hin Hu) as [H1 H2]. pose proof (Z.div_pos (Length_ e) PAGE_SIZE Hl ltac:(done)).
  wp_step. wp_step; [apply Z.leb_le; lia|]. rewrite u32_small by rlia.
  eapply wp_mono; [apply PmmReleaseMemory_spec; done|].
  intros _ s' (Hd & Hwf' & Hset & Hfr). split_and!; try done.
  intros i Hi. rewrite Hset by done. unfold entry_frees. rewrite Hu.
  case_bool_decide; zbool; simpl; rewrite ?andb_true_r, ?andb_false_r; try lia; done.
Qed.

Lemma release_loop_spec es : forall s, wf_pmm s -> Forall (entry_ok (frame_count s)) es ->
  wp (release_loop es) (fun _ s' => frames_freed s s' (fun i => existsb (entry_frees i) es)) s.
Proof.
  induction es as [|e es IH]; intros s Hwf Hes; simpl.
  - split_and!; try done. intros i _. by rewrite andb_true_r.
  - apply Forall_cons_1 in Hes as [He Hes]. wp_step.
    eapply wp_mono; [by apply release_entry_spec|]. intros _ s1 (Hd1 & Hw1 & Hr1 & Hf1).
    eapply wp_mono; [apply IH; [done|]|].
    { unfold frame_count, bitmap_of in *. by rewrite Hd1. }
    intros _ s2 (Hd2 & Hw2 & Hr2 & Hf2). split_and!; [by rewrite Hd2|done| |].
    + intros i Hi. rewrite Hr2, Hr1, negb_orb by done. by rewrite andb_assoc.
    + intros a Ha. unfold bitmap_of in *. rewrite Hf2 by (by rewrite Hd1). by apply Hf1.
Qed.

(** PmmReserveMemory on a bitmap without a set bit takes every frame. *)
Lemma reserve_all_spec s : wf_pmm s -> (forall i, 0 <= i < frame_count s -> reserved s i = false) ->
  wp (PmmReserveMemory (frame_count s)) (fun _ s' => frames_set s s' 0 (frame_count s) true) s.
Proof.
  intros Hwf Hfree. pose proof (wf_pmm_count s Hwf). unfold PmmReserveMemory.
  eapply wp_mono; [apply PmmReserveMemoryEx_spec; [done|rlia|done]|].
  assert (Hrun : free_run s 0 (frame_count s)) by (intros j Hj; apply Hfree; lia).
  intros r s' [(_ & _ & Hno)|(f & _ & Hf & Hfn & _ & _ & _ & Hset)].
  - change (NULL mod PAGE_SIZE) with 0 in Hno. change (NULL / PAGE_SIZE) with 0 in Hno.
    destruct Hno as [?|[?|Hno]]; [lia|lia|]. by destruct (Hno 0 ltac:(lia) ltac:(lia)).
  - change (NULL / PAGE_SIZE) with 0 in Hf. by replace f with 0 in Hset by lia.
Qed.

Definition init_result (s s' : Pmm) (Base Highest : Z) (MemoryEntries : list INT15_MEMORY_MAP_ENTRY) : Prop :=
  wf_pmm s' /\ frame_count s' = Highest / PAGE_SIZE /\
  (forall f, 0 <= f < Highest / PAGE_SIZE -> reserved s' f = negb (existsb (entry_frees f) MemoryEntries)) /\
  HighestPhysicalAddressAvailable (m_pmmData s') = HighestPhysicalAddressAvailable (m_pmmData s) /\
  HighestPhysicalAddressPresent (m_pmmData s') = HighestPhysicalAddressPresent (m_pmmData s) /\
  PhysicalMemorySize (m_pmmData s') = PhysicalMemorySize (m_pmmData s) /\
  frame_outside (pmm_mem s) (pmm_mem s') Base ((Highest / PAGE_SIZE + 7) / 8).

Lemma _PmmInitializeAllocationBitmap_spec s Base Highest MemoryEntries :
  Base <> NULL -> PAGE_SIZE <= Highest -> Highest / PAGE_SIZE <= MAX_DWORD ->
  mapped (pmm_mem s) Base ((Highest / PAGE_SIZE + 7) / 8) ->
  Forall (entry_ok (Highest / PAGE_SIZE)) MemoryEntries ->
  wp (_PmmInitializeAllocationBitmap Base Highest MemoryEntries) (fun size s' =>
    size = (Highest / PAGE_SIZE + 7) / 8 /\ init_result s s' Base Highest MemoryEntries) s.
Proof.
  intros Hb Hh Hmax Hmap Hes. unfold _PmmInitializeAllocationBitmap, set_bitmap.
  pose proof (Z.div_le_mono _ _ PAGE_SIZE ltac:(done) Hh) as Hone. rewrite Z.div_same in Hone by done.
  set (n := Highest / PAGE_SIZE) in *.
  wp_step. wp_step; [rewrite (proj2 (Z.eqb_neq NULL Base)) by congruence; done|].
  wp_step. wp_step; [rewrite (proj2 (Z.eqb_neq 0 Highest)) by (unfold PAGE_SIZE in Hh; lia); done|].
  wp_step. wp_step; [by apply Z.leb_le|]. rewrite (u32_small n) by rlia.
  destruct (BitmapInitEx_spec (pmm_mem s) n Base false) as (size & bm0 & -> & -> & Hinit);
    [lia|done|done|].
  wp_step. apply wp_lift. cbn [owp]. cbv beta iota. wp_step. wp_step. wp_step. apply on_mem_wp. cbn [pmm_mem bitmap_of m_pmmData AllocationBitmap].
  eapply wp_mono; [exact Hinit|]. cbv beta. intros bm m1 (Hwf1 & Hcount & Hbuf & Hzero & Hframe).
  wp_step. wp_step. wp_step. cbn [pmm_mem m_pmmData AllocationBitmap].
  set (s1 := mkPmm _ _). change (BitmapGetMaxElementCount bm) with (frame_count s1).
  assert (Hn1 : frame_count s1 = n) by done. assert (Hbm : bitmap_of s1 = bm) by done.
  eapply wp_mono; [apply reserve_all_spec; [done|]|].
  { intros i Hi. rewrite Hn1 in Hi. by apply Hzero. }
  intros _ s2 (Hd2 & Hwf2 & Hset2 & Hf2). wp_step.
  assert (Hn2 : frame_count s2 = n) by (unfold frame_count, bitmap_of in *; by rewrite Hd2).
  eapply wp_mono; [apply release_loop_spec; [done|by rewrite Hn2]|].
  intros _ s3 (Hd3 & Hwf3 & Hr3 & Hf3). wp_step. split; [done|].
  assert (Hbs : BufferSize bm = (n + 7) / 8) by (destruct Hwf1 as (_ & _ & E & _); by rewrite E, Hcount).
  split_and!; [done| | |rewrite Hd3, Hd2; done..|].
  - unfold frame_count, bitmap_of in *. by rewrite Hd3.
  - intros f Hf. rewrite Hr3, Hset2, Hn1, bool_decide_eq_true_2 by lia. done.
  - unfold bitmap_of in *. rewrite Hd2 in Hf3. rewrite Hbm, Hbs, Hbuf in Hf2, Hf3.
    intros a Ha. rewrite Hf3, Hf2 by done. by apply Hframe.
Qed.

Lemma PmmInitSystem_spec s Base MemoryEntries :
  let top := map_end MemoryEntries in let n := top / PAGE_SIZE in
  Base <> NULL -> MemoryEntries <> [] ->
  length (MemoryRegionList (m_pmmData s)) = Z.to_nat MemoryMapTypeMax ->
  Forall (entry_ok n) MemoryEntries -> PAGE_SIZE <= top -> n <= MAX_DWORD ->
  mapped (pmm_mem s) Base ((n + 7) / 8) ->
  wp (PmmInitSystem Base false MemoryEntries false) (fun r s' =>
    r = (STATUS_SUCCESS, u32 (AlignAddressUpper ((n + 7) / 8) PAGE_SIZE)) /\
    wf_pmm s' /\ frame_count s' = n /\
    (forall f, 0 <= f < n -> reserved s' f = negb (existsb (entry_frees f) MemoryEntries)) /\
    (forall f, 0 <= f < n -> f < MB_SIZE / PAGE_SIZE -> reserved s' f = true) /\
    PmmGetHighestPhysicalMemoryAddressPresent s' = top /\
    PmmGetHighestPhysicalMemoryAddressAvailable s' = ram_end MemoryEntries /\
    PmmGetTotalSystemMemory s' = u64 (ram_size MemoryEntries) /\
    frame_outside (pmm_mem s) (pmm_mem s') Base ((n + 7) / 8)) s.
Proof.
  intros top n Hb Hne Hlen Hes Htop Hmax Hmap. unfold PmmInitSystem.
  rewrite (proj2 (Z.eqb_neq NULL Base)) by congruence.
  assert (El : (0 =? Z.of_nat (length MemoryEntries)) = false).
  { apply Z.eqb_neq. destruct MemoryEntries; [done|simpl; lia]. }
  rewrite El. wp_step. wp_step. wp_step. apply wp_lift.
  unfold _PmmDetermineMemoryLimits. rewrite El. cbn [negb assert_ mbind outcome_bind].
  assert (Hram : 0 <= ram_end MemoryEntries).
  { unfold ram_end, map_end. clear. induction (filter is_ram MemoryEntries); simpl; lia. }
  edestruct (limits_loop_spec n MemoryEntries Hes (mkLimits 0 0 0 (MemoryRegionList (m_pmmData s))))
    as (l & -> & E1 & E2 & E3); [done|done|done|simpl; rlia|].
  cbn [sizeOfAvailableMemory highestMemoryAddressPresent highestMemoryAddressAvailable] in E1, E2, E3.
  unfold PAGE_SIZE in Htop. rewrite Z.max_r in E1 by (fold top; lia). rewrite Z.max_r in E2 by done.
  cbn [owp]. cbv beta iota. wp_step. wp_step. wp_step. rewrite E1. fold top.
  eapply wp_mono; [apply _PmmInitializeAllocationBitmap_spec; done|].
  intros size s' (-> & Hwf & Hc & Hres & Ha & Hp & Hs & Hfr). fold n in Hc, Hres, Hfr |- *. wp_step.
  unfold PmmGetHighestPhysicalMemoryAddressPresent, PmmGetHighestPhysicalMemoryAddressAvailable,
    PmmGetTotalSystemMemory. rewrite Ha, Hp, Hs. cbn.
  split_and!; try done. intros f Hf Hlow. rewrite Hres by done. apply negb_true_iff.
  apply not_true_iff_false. intros (e & He & Hfe)%existsb_exists.
  rewrite Forall_forall in Hes. specialize (Hes e (proj2 (list_elem_of_In _ _) He)).
  destruct (entry_start_page e n Hes) as [Est _]. destruct Hes as (Hbe & Hle & Hend & _).
  unfold entry_frees, entry_usable in Hfe. apply andb_true_iff in Hfe as [Hfe _].
  apply andb_true_iff in Hfe as [[_ Hmb]%andb_true_iff Hst]. unfold entry_end, PAGE_SIZE in *.
  destruct (AlignAddressUpper_spec (BaseAddress e) 12) as [H1 _]; [lia|rlia|rlia|].
  change (2 ^ 12) with 0x1000 in H1. change (MB_SIZE / 0x1000) with 256 in Hlow.
  change MB_SIZE with 0x100000 in Hmb. lia.
Qed.

(** * Theorems *)

(** For every memory map whose entries do not wrap and lie within the machine's
    frames, PmmInitSystem succeeds; it manages the frames up to the highest
    address present, of which exactly those of the usable entries above 1 MB are free (so none below
    1 MB is), it reports the highest present and available addresses and the size of the
    usable memory, and it writes only the bitmap's buffer. *)
Theorem pmm_init_free_frames s Base MemoryEntries :
  let top := map_end MemoryEntries in let n := top / PAGE_SIZE in
  Base <> NULL -> MemoryEntries <> [] ->
  length (MemoryRegionList (m_pmmData s)) = Z.to_nat MemoryMapTypeMax ->
  Forall (entry_ok n) MemoryEntries -> PAGE_SIZE <= top -> n <= MAX_DWORD ->
  mapped (pmm_mem s) Base ((n + 7) / 8) ->
  wp (PmmInitSystem Base false MemoryEntries false) (fun r s' =>
    r = (STATUS_SUCCESS, u32 (AlignAddressUpper ((n + 7) / 8) PAGE_SIZE)) /\
    wf_pmm s' /\ frame_count s' = n /\
    (forall f, 0 <= f < n -> reserved s' f = negb (existsb (entry_frees f) MemoryEntries)) /\
    (forall f, 0 <= f < n -> f < MB_SIZE / PAGE_SIZE -> reserved s' f = true) /\
    PmmGetHighestPhysicalMemoryAddressPresent s' = top /\
    PmmGetHighestPhysicalMemoryAddressAvailable s' = ram_end MemoryEntries /\
    PmmGetTotalSystemMemory s' = u64 (ram_size MemoryEntries) /\
    frame_outside (pmm_mem s) (pmm_mem s') Base ((n + 7) / 8)) s.
Proof. exact (PmmInitSystem_spec s Base MemoryEntries). Qed.

(** A machine with 1 MB + 24 KB of memory, of which four pages above 1 MB are usable. *)
Definition demo_map : list INT15_MEMORY_MAP_ENTRY :=
  [mkINT15 0 0x9F000 1 1; mkINT15 0x100000 0x4000 1 1; mkINT15 0x104000 0x2000 2 1].
Definition demo_pmm0 : Pmm :=
  mkPmm (mkPMM_DATA 0 0 0 ((fun i => mkREGION i 0) <$> [0; 1; 2; 3; 4; 5]) (mkBITMAP 0 0 0))
    (mem_of 0x5000 (replicate 33 7)).
Definition demo_pmm : Pmm :=
  match PmmInitSystem 0x5000 false demo_map false demo_pmm0 with Ok (_, s) => s | Err _ => demo_pmm0 end.

Lemma demo_map_ok : Forall (entry_ok (map_end demo_map / PAGE_SIZE)) demo_map.
Proof.
  rewrite Forall_forall. intros e He. apply entry_ok_aligned; [done|..];
    repeat (apply elem_of_cons in He as [->|He]; [vm_compute; intuition congruence|]); set_solver.
Qed.

Lemma pmm_init_free_frames_witness :
  exists s', PmmInitSystem 0x5000 false demo_map false demo_pmm0 = Ok ((STATUS_SUCCESS, 0x1000), s') /\
    frame_count s' = 262 /\ reserved s' 0x101 = false /\
    (forall f, 0 <= f < 262 -> reserved s' f = negb (existsb (entry_frees f) demo_map)).
Proof.
  destruct (PmmInitSystem 0x5000 false demo_map false demo_pmm0) as [[r s']|] eqn:E; [|by vm_compute in E].
  pose proof (pmm_init_free_frames demo_pmm0 0x5000 demo_map ltac:(done) ltac:(done) eq_refl demo_map_ok
    ltac:(vm_compute; congruence) ltac:(vm_compute; congruence)
    ltac:(apply (mapped_mem_of 0x5000 (replicate 33 7)))) as H.
  unfold wp in H. rewrite E in H. destruct H as (-> & _ & Hc & Hr & _).
  exists s'. split; [reflexivity|]. split; [exact Hc|]. split; [|exact Hr].
  rewrite Hr; [vm_compute; reflexivity|vm_compute; split; congruence].
Defined.

(** C11: For any sequence of PmmReserveMemoryEx calls and of PmmReleaseMemory calls for
    outstanding reservations, on a well-formed bitmap whose frame 0 is reserved, no assertion
    fails and the bitmap stays well formed; the outstanding reservations are page
    aligned, inside the machine's frames, pairwise disjoint, and made of frames that were free
    at the start; and a frame is reserved exactly if it was reserved at the
    start or belongs to an outstanding reservation. *)
Theorem pmm_reservations_disjoint s ops :
  wf_pmm s -> reserved s 0 = true -> Forall op_ok ops ->
  wp (pmm_run ops []) (fun a s' =>
    wf_pmm s' /\ Forall (reservation_ok s) a /\
    (forall i j r q, i <> j -> a !! i = Some r -> a !! j = Some q -> disjoint_frames r q) /\
    (forall f, 0 <= f < frame_count s -> reserved s' f = reserved s f || existsb (covers f) a)) s.
Proof.
  intros Hwf H0 Hops. eapply wp_mono; [by apply (pmm_run_inv s); [..|apply pmm_inv_start]|].
  cbv beta. intros a s' [H1 _ H2 H3 H4]. done.
Qed.

(** Two reservations, the release of the first, and a third that takes its place. *)
Definition demo_ops : list pmm_op :=
  [OpReserve 2 0; OpReserve 1 0x101000; OpRelease 1; OpReserve 1 0; OpReserve 2 0].

Lemma demo_pmm_wf : wf_pmm demo_pmm.
Proof.
  pose proof (PmmInitSystem_spec demo_pmm0 0x5000 demo_map ltac:(done) ltac:(done) eq_refl demo_map_ok
    ltac:(vm_compute; congruence) ltac:(vm_compute; congruence)
    ltac:(apply (mapped_mem_of 0x5000 (replicate 33 7)))) as H.
  unfold demo_pmm. apply wp_Ok in H as (r & s' & -> & _ & H & _). exact H.
Qed.

Lemma pmm_reservations_disjoint_witness :
  exists s', pmm_run demo_ops [] demo_pmm = Ok ([(0x100000, 1); (0x102000, 1)], s') /\
    disjoint_frames (0x100000, 1) (0x102000, 1) /\
    (forall f, 0 <= f < 262 -> reserved s' f = reserved demo_pmm f || existsb (covers f) [(0x100000, 1); (0x102000, 1)]).
Proof.
  destruct (pmm_run demo_ops [] demo_pmm) as [[a s']|] eqn:E; [|by vm_compute in E].
  assert (Ea : a = [(0x100000, 1); (0x102000, 1)]).
  { apply (f_equal (fun o => match o with Ok (a, _) => Some a | Err _ => None end)) in E.
    vm_compute in E. by injection E. }
  pose proof (pmm_reservations_disjoint demo_pmm demo_ops demo_pmm_wf ltac:(vm_compute; reflexivity)
    ltac:(repeat constructor; vm_compute; congruence)) as H.
  unfold wp in H. rewrite E in H. destruct H as (_ & _ & Hd & Hr). subst a.
  exists s'. split; [reflexivity|]. split; [by apply (Hd 0%nat 1%nat)|exact Hr].
Defined.

(** A usable range that does not start on a page boundary: the frame freed for it,
    [0x101000, 0x102000), extends past its end at 0x101800. *)
Example pmm_unaligned_entry :
  let e := mkINT15 0x100800 0x1000 1 1 in
  entry_frees 0x101 e = true /\ entry_end e < (0x101 + 1) * PAGE_SIZE.
Proof. vm_compute. done. Qed.
