(* ===== verification/VmReservation.v ===== *)
(** HAL9000/src/vm_reservation_space.c: reservation and commitment of virtual
    memory.  A reservation space is an array of VMM_RESERVATION entries followed by the
    buffers of their commit bitmaps.

    The array is kept as the list of its entries, an entry's address being the
    array's address plus its index times the entry size; an access beyond the array
    is a [MemFault].  The bitmap buffers live in a byte memory.  ReservationLock
    serialises the operations (its exclusion is proved in [RwSpinlock]).  The calls
    into mmu.c and io.c made when a reservation is released are recorded in order. *)
From S2P Require Import Prelude IntUtils ClMemory Bitmap.

Inductive VMM_RESERVATION_STATE : Set :=
| VmmReservationStateFree | VmmReservationStateUsed | VmmReservationStateLast.
#[global] Instance VMM_RESERVATION_STATE_eq_dec : EqDecision VMM_RESERVATION_STATE.
Proof. solve_decision. Defined.

Record VMM_RESERVATION := mkVMM_RESERVATION {
  StartVa : Z; Size_ : Z; PageRights : Z; State : VMM_RESERVATION_STATE;
  Uncacheable : bool; BackingFile : Z; CommitBitmap : BITMAP }.
Definition SIZEOF_VMM_RESERVATION : Z := 56.

Record VMM_RESERVATION_SPACE := mkSPACE {
  FreeVirtualAddressPointer : Z; StartOfVirtualAddressSpace : Z; BitmapAddressStart : Z;
  ReservedAreaSize : Z; FreeBitmapAddress : Z; ReservationList : Z }.

(** Calls into other components. *)
Inductive vm_call : Set := MmuUnmapMemoryEx (Address Size : Z) | IoCloseFile (File : Z).

(** The space, its entries, the memory with the bitmap buffers, the VmmMemoryAccess
    flag of the current PCPU ([None] when there is no PCPU), the calls made. *)
Record Vm := mkVm {
  vm_space : VMM_RESERVATION_SPACE; vm_slots : list VMM_RESERVATION; vm_mem : Mem;
  vm_pcpu : option bool; vm_calls : list vm_call }.

(** shared/common/mem_structures.h *)
Definition PAGE_RIGHTS_WRITE : Z := 1.
Definition PAGE_RIGHTS_EXECUTE : Z := 2.
Definition PAGE_RIGHTS_READWRITE : Z := 1.
Definition VMM_ALLOC_TYPE_RESERVE : Z := 0x1.
Definition VMM_ALLOC_TYPE_COMMIT : Z := 0x2.
Definition VMM_FREE_TYPE_DECOMMIT : Z := 0x1.
Definition VMM_FREE_TYPE_RELEASE : Z := 0x2.
Definition RESERVATION_LIST_PERCENTAGE_IN_HUNDREDS : Z := 20 * 100.

(** * Accesses *)
Definition set_space (sp : VMM_RESERVATION_SPACE) : M Vm unit :=
  modify (fun s => mkVm sp (vm_slots s) (vm_mem s) (vm_pcpu s) (vm_calls s)).
Definition set_pcpu (b : bool) : M Vm unit :=   (* if (NULL != pCpu) pCpu->VmmMemoryAccess = b *)
  modify (fun s => mkVm (vm_space s) (vm_slots s) (vm_mem s)
    (if vm_pcpu s is Some _ then Some b else None) (vm_calls s)).
Definition get_slot (i : nat) : M Vm VMM_RESERVATION := fun s =>
  match vm_slots s !! i with Some r => Ok (r, s) | None => Err MemFault end.
Definition put_slot (i : nat) (r : VMM_RESERVATION) : M Vm unit := fun s =>
  if decide (i < length (vm_slots s))%nat
  then Ok (tt, mkVm (vm_space s) (<[i := r]> (vm_slots s)) (vm_mem s) (vm_pcpu s) (vm_calls s))
  else Err MemFault.
Definition on_mem {A} (m : M Mem A) : M Vm A :=
  zoom vm_mem (fun m s => mkVm (vm_space s) (vm_slots s) m (vm_pcpu s) (vm_calls s)) m.
Definition call (c : vm_call) : M Vm unit :=
  modify (fun s => mkVm (vm_space s) (vm_slots s) (vm_mem s) (vm_pcpu s) (vm_calls s ++ [c])).

Definition set_State (st : VMM_RESERVATION_STATE) (r : VMM_RESERVATION) : VMM_RESERVATION :=
  mkVMM_RESERVATION (StartVa r) (Size_ r) (PageRights r) st (Uncacheable r) (BackingFile r) (CommitBitmap r).
Definition set_Bitmap (bm : BITMAP) (r : VMM_RESERVATION) : VMM_RESERVATION :=
  mkVMM_RESERVATION (StartVa r) (Size_ r) (PageRights r) (State r) (Uncacheable r) (BackingFile r) bm.

(** (PVOID) pCurrentReservation *)
Definition slot_address (s : Vm) (i : nat) : Z :=
  ReservationList (vm_space s) + Z.of_nat i * SIZEOF_VMM_RESERVATION.

(** * Operations *)

Definition VmReservationSpaceInit (ReservationMetadataBaseAddress ReservationBaseAddress
    ReservationMetadataSize : Z) : M Vm unit :=
  _ ← ASSERT (negb (NULL =? ReservationMetadataBaseAddress));
  _ ← ASSERT (IsAddressAligned ReservationMetadataBaseAddress PAGE_SIZE);
  _ ← ASSERT (negb (ReservationMetadataSize =? 0));
  sizeForReservationList ← lift (CalculatePercentage ReservationMetadataSize
    RESERVATION_LIST_PERCENTAGE_IN_HUNDREDS);
  let bitmapStart := PtrOffset ReservationMetadataBaseAddress sizeForReservationList in
  let first :=
    if ReservationBaseAddress =? NULL
    then PtrOffset ReservationMetadataBaseAddress ReservationMetadataSize
    else ReservationBaseAddress in
  set_space (mkSPACE first first bitmapStart ReservationMetadataSize bitmapStart
    ReservationMetadataBaseAddress).

Definition VmReservationSpaceFinishInit : M Vm unit :=
  r ← get_slot 0; put_slot 0 (set_State VmmReservationStateLast r).

(** _InterlockedExchangeAdd64 *)
Definition VmReservationSpaceDetermineNextFreeVirtualAddress (Size : Z) : M Vm Z :=
  sp ← gets vm_space;
  _ ← set_space (mkSPACE (u64 (FreeVirtualAddressPointer sp + Size)) (StartOfVirtualAddressSpace sp)
        (BitmapAddressStart sp) (ReservedAreaSize sp) (FreeBitmapAddress sp) (ReservationList sp));
  ret (FreeVirtualAddressPointer sp).

(** The loop of _VmFindReservation; the entry's index, or [None]. *)
Fixpoint find_loop (fuel i : nat) (Address Size : Z) : M Vm (option nat) :=
  match fuel with
  | O => fail NoFuel
  | S fuel' =>
      r ← get_slot i;
      s ← getS;
      if bool_decide (State r = VmmReservationStateLast) ||
         negb (slot_address s i <? BitmapAddressStart (vm_space s))
      then ret None
      else if bool_decide (State r = VmmReservationStateFree) then find_loop fuel' (S i) Address Size
      else if CHECK_BOUNDS Address Size (StartVa r) (Size_ r) then ret (Some i)
      else find_loop fuel' (S i) Address Size
  end.

(** Status and *Reservation. *)
Definition _VmFindReservation (Address Size : Z) : M Vm (Z * option nat) :=
  _ ← ASSERT (negb (NULL =? Address));
  _ ← ASSERT (negb (0 =? Size));
  n ← gets (fun s => length (vm_slots s));
  r ← find_loop (S n) 0 Address Size;
  ret (match r with None => (STATUS_ELEMENT_NOT_FOUND, None) | Some i => (STATUS_SUCCESS, Some i) end).

Fixpoint first_free_loop (fuel i : nat) : M Vm (option nat) :=
  match fuel with
  | O => fail NoFuel
  | S fuel' =>
      s ← getS;
      if slot_address s i <? BitmapAddressStart (vm_space s) then
        r ← get_slot i;
        match State r with
        | VmmReservationStateFree => ret (Some i)
        | VmmReservationStateLast =>
            _ ← put_slot i (set_State VmmReservationStateFree r);
            next ← get_slot (S i);
            _ ← put_slot (S i) (set_State VmmReservationStateLast next);
            ret (Some i)
        | VmmReservationStateUsed => first_free_loop fuel' (S i)
        end
      else ret None
  end.
Definition _VmFindFirstFreeReservation : M Vm (option nat) :=
  n ← gets (fun s => length (vm_slots s)); first_free_loop (S n) 0.

Definition _VmInitializeReservation (Address Size Rights : Z) (Uncacheable_ : bool) (FileObject : Z)
    (i : nat) : M Vm unit :=
  _ ← ASSERT (negb (NULL =? Address));
  _ ← ASSERT (negb (0 =? Size));
  _ ← ASSERT (IsAddressAligned Address PAGE_SIZE);
  _ ← ASSERT (IsAddressAligned Size PAGE_SIZE);
  let noOfPages := Size / PAGE_SIZE in
  old ← get_slot i;
  _ ← put_slot i (mkVMM_RESERVATION Address Size Rights VmmReservationStateUsed Uncacheable_ FileObject
        (CommitBitmap old));
  _ ← ASSERT (noOfPages <=? MAX_DWORD);
  '(bitmapSize, bm0) ← lift (BitmapPreinit (u32 noOfPages));
  _ ← ASSERT (negb (0 =? bitmapSize));
  sp ← gets vm_space;
  _ ← ASSERT (IsAddressAligned (FreeBitmapAddress sp) PAGE_SIZE);
  bm ← on_mem (BitmapInitEx bm0 (FreeBitmapAddress sp) false);
  r ← get_slot i;
  _ ← put_slot i (set_Bitmap bm r);
  _ ← ASSERT (CHECK_BOUNDS (FreeBitmapAddress sp) (AlignAddressUpper bitmapSize PAGE_SIZE)
        (ReservationList sp) (ReservedAreaSize sp));
  set_space (mkSPACE (FreeVirtualAddressPointer sp) (StartOfVirtualAddressSpace sp) (BitmapAddressStart sp)
    (ReservedAreaSize sp) (u64 (FreeBitmapAddress sp + AlignAddressUpper bitmapSize PAGE_SIZE))
    (ReservationList sp)).

(** The page index of an address in a reservation, as a QWORD. *)
Definition page_index (Address Start : Z) : Z := u64 (Z.quot (PtrDiff Address Start) PAGE_SIZE).

Definition change_commit (v : bool) (Address Size : Z) (i : nat) : M Vm unit :=
  _ ← ASSERT (negb (NULL =? Address));
  _ ← ASSERT (negb (0 =? Size));
  _ ← ASSERT (IsAddressAligned Address PAGE_SIZE);
  _ ← ASSERT (IsAddressAligned Size PAGE_SIZE);
  r ← get_slot i;
  let noOfPages := Size / PAGE_SIZE in
  let startIndex := page_index Address (StartVa r) in
  _ ← ASSERT (noOfPages <=? MAX_DWORD);
  _ ← ASSERT (startIndex <=? MAX_DWORD);
  on_mem (BitmapSetBitsValue (CommitBitmap r) (u32 startIndex) (u32 noOfPages) v).
Definition _VmCommitReservation : Z -> Z -> nat -> M Vm unit := change_commit true.
Definition _VmDecommitReservation : Z -> Z -> nat -> M Vm unit := change_commit false.

Definition _VmIsVaCommited (i : nat) (Address : Z) : M Vm bool :=
  _ ← ASSERT (negb (NULL =? Address));
  r ← get_slot i;
  let pageNo := page_index Address (StartVa r) in
  _ ← ASSERT (pageNo <=? MAX_DWORD);
  on_mem (BitmapGetBitValue (CommitBitmap r) (u32 pageNo)).

Definition _VmUninitializeReservation (r : VMM_RESERVATION) : M Vm unit :=
  let pBitmapBuffer := BitmapBuffer (CommitBitmap r) in
  _ ← ASSERT (IsAddressAligned pBitmapBuffer PAGE_SIZE);
  let bitmapSize := BufferSize (CommitBitmap r) in
  _ ← call (MmuUnmapMemoryEx pBitmapBuffer bitmapSize);
  if negb (BackingFile r =? NULL) then call (IoCloseFile (BackingFile r)) else ret tt.

Definition _VmChangeVaReservationState (Address Size AllocationType Rights : Z) (Uncacheable_ : bool)
    (FileObject : Z) : M Vm Z :=
  _ ← ASSERT (negb (NULL =? Address));
  _ ← ASSERT (negb (0 =? Size));
  _ ← ASSERT (xorb (AllocationType =? VMM_ALLOC_TYPE_RESERVE) (AllocationType =? VMM_ALLOC_TYPE_COMMIT));
  _ ← ASSERT (IsAddressAligned Address PAGE_SIZE);
  _ ← ASSERT (IsAddressAligned Size PAGE_SIZE);
  '(status, pReservation) ← _VmFindReservation Address Size;
  if (STATUS_ELEMENT_NOT_FOUND =? status) && negb (VMM_ALLOC_TYPE_RESERVE =? AllocationType)
  then ret STATUS_MEMORY_IS_NOT_RESERVED else
  if negb (STATUS_ELEMENT_NOT_FOUND =? status) && SUCCEEDED status && (VMM_ALLOC_TYPE_RESERVE =? AllocationType)
  then ret STATUS_MEMORY_ALREADY_RESERVED else
  let status := if STATUS_ELEMENT_NOT_FOUND =? status then STATUS_SUCCESS else status in
  if negb (SUCCEEDED status) then ret status else
  if AllocationType =? VMM_ALLOC_TYPE_RESERVE then
    free ← _VmFindFirstFreeReservation;
    match free with
    | None => fail AssertFailed
    | Some i => _ ← _VmInitializeReservation Address Size Rights Uncacheable_ FileObject i; ret status
    end
  else if AllocationType =? VMM_ALLOC_TYPE_COMMIT then
    match pReservation with
    | None => fail AssertFailed
    | Some i =>
        r ← get_slot i;
        if negb (PageRights r =? Rights) then ret STATUS_MEMORY_CONFLICTING_ACCESS_RIGHTS else
        if negb (Bool.eqb (Uncacheable r) Uncacheable_) then ret STATUS_MEMORY_CONFLICTING_CACHEABILITY else
        _ ← _VmCommitReservation Address Size i; ret status
    end
  else ret STATUS_UNSUPPORTED.

(** *MemoryRights, *Uncacheable, *BackingFile and *FileOffset when the fault can
    be solved, [None] when the answer is FALSE. *)
Definition VmReservationCanAddressBeAccessed (FaultingAddress RightsRequested : Z)
    : M Vm (option (Z * bool * Z * Z)) :=
  if NULL =? FaultingAddress then ret None else
  s ← getS;
  if CHECK_BOUNDS FaultingAddress 1 (ReservationList (vm_space s)) (ReservedAreaSize (vm_space s)) then
    if (if vm_pcpu s is Some access then access else true) then
      if negb (IsBooleanFlagOn RightsRequested PAGE_RIGHTS_EXECUTE)
      then ret (Some (PAGE_RIGHTS_READWRITE, false, NULL, 0)) else ret None
    else ret None
  else
    '(status, pReservation) ← _VmFindReservation FaultingAddress 1;
    match pReservation with
    | None => ret None
    | Some i =>
        bIsVaCommited ← _VmIsVaCommited i FaultingAddress;
        r ← get_slot i;
        let fileOffset :=
          if negb (BackingFile r =? NULL)
          then AlignAddressLower (PtrDiff FaultingAddress (StartVa r)) PAGE_SIZE else 0 in
        if (bIsVaCommited : bool) && IsBooleanFlagOn (PageRights r) RightsRequested
        then ret (Some (PageRights r, Uncacheable r, BackingFile r, fileOffset)) else ret None
    end.

(** Both steps of VmReservationSpaceAllocRegion under the lock. *)
Definition alloc_locked (pBaseAddress alignedSize AllocType Rights : Z) (Uncacheable_ : bool)
    (FileObject : Z) : M Vm Z :=
  status ← (if IsBooleanFlagOn AllocType VMM_ALLOC_TYPE_RESERVE
            then _VmChangeVaReservationState pBaseAddress alignedSize VMM_ALLOC_TYPE_RESERVE Rights
                   Uncacheable_ FileObject
            else ret STATUS_SUCCESS);
  if negb (SUCCEEDED status) then ret status else
  if IsBooleanFlagOn AllocType VMM_ALLOC_TYPE_COMMIT
  then _VmChangeVaReservationState pBaseAddress alignedSize VMM_ALLOC_TYPE_COMMIT Rights
         Uncacheable_ FileObject
  else ret status.

(** The status, and *MappedAddress and *MappedSize on success. *)
Definition VmReservationSpaceAllocRegion (Base Size AllocType Rights : Z) (Uncacheable_ : bool)
    (FileObject : Z) : M Vm (Z * option (Z * Z)) :=
  _ ← ASSERT (negb (Size =? 0));
  _ ← ASSERT (IsFlagOn AllocType (Z.lor VMM_ALLOC_TYPE_COMMIT VMM_ALLOC_TYPE_RESERVE));
  sp ← gets vm_space;
  if negb (NULL =? Base) && (AlignAddressLower Base PAGE_SIZE <? StartOfVirtualAddressSpace sp)
  then ret (STATUS_MEMORY_CANNOT_BE_RESERVED, None) else
  '(pBaseAddress, alignedSize) ← (
    if negb (NULL =? Base) then
      let p := AlignAddressLower Base PAGE_SIZE in
      ret (p, AlignAddressUpper (u64 (Size + PtrDiff Base p)) PAGE_SIZE)
    else
      let n := AlignAddressUpper Size PAGE_SIZE in
      p ← VmReservationSpaceDetermineNextFreeVirtualAddress n;
      ret (p, n));
  _ ← set_pcpu true;
  status ← alloc_locked pBaseAddress alignedSize AllocType Rights Uncacheable_ FileObject;
  _ ← set_pcpu false;
  ret (status, if SUCCEEDED status then Some (pBaseAddress, alignedSize) else None).

(** *AlignedAddress and *AlignedSize. *)
Definition VmReservationSpaceFreeRegion (Address Size FreeType : Z) : M Vm (Z * Z) :=
  let release := IsBooleanFlagOn FreeType VMM_FREE_TYPE_RELEASE in
  let decommit := IsBooleanFlagOn FreeType VMM_FREE_TYPE_DECOMMIT in
  _ ← ASSERT (negb (Address =? NULL));
  _ ← ASSERT ((release && (Size =? 0)) || (decommit && negb (Size =? 0)));
  _ ← ASSERT (xorb release decommit);
  _ ← set_pcpu true;
  '(status, pReservation) ← _VmFindReservation Address 1;
  match pReservation with
  | None => fail AssertFailed
  | Some i =>
      r ← (if release then
             reservationCopy ← get_slot i;
             _ ← put_slot i (mkVMM_RESERVATION 0 0 0 VmmReservationStateFree false 0 (mkBITMAP 0 0 0));
             _ ← _VmUninitializeReservation reservationCopy;
             ret (StartVa reservationCopy, Size_ reservationCopy)
           else if decommit then
             let alignedAddress := AlignAddressLower Address PAGE_SIZE in
             let alignedSize := AlignAddressUpper (u64 (Size + (Address - alignedAddress))) PAGE_SIZE in
             _ ← _VmDecommitReservation alignedAddress alignedSize i;
             ret (alignedAddress, alignedSize)
           else ret (NULL, 0));
      _ ← set_pcpu false;
      ret r
  end.

(** The loop of VmReservationReturnRightsForAddress: are all probed pages committed? *)
Fixpoint committed_loop (fuel : nat) (i Address Size : Z) (slot : nat) : M Vm bool :=
  match fuel with
  | O => fail NoFuel
  | S fuel' =>
      if i <? Size then
        c ← _VmIsVaCommited slot (PtrOffset Address i);
        if negb c then ret false else committed_loop fuel' (u64 (i + PAGE_SIZE)) Address Size slot
      else ret true
  end.

(** The status, and *Rights when it is written. *)
Definition VmReservationReturnRightsForAddress (Address Size : Z) : M Vm (Z * option Z) :=
  _ ← ASSERT (negb (Address =? NULL));
  _ ← ASSERT (negb (Size =? 0));
  '(status, pReservation) ← _VmFindReservation Address Size;
  match pReservation with
  | None => ret (STATUS_MEMORY_IS_NOT_COMMITED, None)
  | Some slot =>
      r ← get_slot slot;
      bFullyCommited ← committed_loop (S (Z.to_nat (Size / PAGE_SIZE + 1))) 0 Address Size slot;
      ret (if (bFullyCommited : bool) then STATUS_SUCCESS else STATUS_MEMORY_IS_NOT_COMMITED, Some (PageRights r))
  end.

(** * Well-formed reservation spaces *)

(** The range of a reservation. *)
Definition region_ok (a n : Z) : Prop :=
  0 < a /\ a mod PAGE_SIZE = 0 /\ 0 < n /\ n mod PAGE_SIZE = 0 /\ a + n < 2 ^ 64 /\
  n / PAGE_SIZE <= MAX_DWORD.

Definition area_end (s : Vm) : Z := ReservationList (vm_space s) + ReservedAreaSize (vm_space s).

Definition res_ok (s : Vm) (r : VMM_RESERVATION) : Prop :=
  region_ok (StartVa r) (Size_ r) /\ wf_bitmap (vm_mem s) (CommitBitmap r) /\
  BitCount (CommitBitmap r) = Size_ r / PAGE_SIZE /\
  BitmapAddressStart (vm_space s) <= BitmapBuffer (CommitBitmap r) /\
  BitmapBuffer (CommitBitmap r) + BufferSize (CommitBitmap r) <= FreeBitmapAddress (vm_space s) /\
  BitmapBuffer (CommitBitmap r) mod PAGE_SIZE = 0.

Definition buffers_disjoint (b c : BITMAP) : Prop :=
  BitmapBuffer b + BufferSize b <= BitmapBuffer c \/ BitmapBuffer c + BufferSize c <= BitmapBuffer b.

(** Slot [i] describes the reservation [r]. *)
Definition used (s : Vm) (i : nat) (r : VMM_RESERVATION) : Prop :=
  vm_slots s !! i = Some r /\ State r = VmmReservationStateUsed.

(** The entries up to the first [k] are free or in use and entry [k] is marked
    as the last one. *)
Record wf_vm (s : Vm) (k : nat) : Prop := {
  w_last : exists r, vm_slots s !! k = Some r /\ State r = VmmReservationStateLast;
  w_before : forall i r, (i < k)%nat -> vm_slots s !! i = Some r -> State r <> VmmReservationStateLast;
  w_list : 0 < ReservationList (vm_space s) /\
    ReservationList (vm_space s) + Z.of_nat (length (vm_slots s)) * SIZEOF_VMM_RESERVATION
      <= BitmapAddressStart (vm_space s);
  w_area : BitmapAddressStart (vm_space s) <= FreeBitmapAddress (vm_space s) <= area_end s /\
    area_end s < 2 ^ 64 /\ FreeBitmapAddress (vm_space s) mod PAGE_SIZE = 0;
  w_mapped : mapped (vm_mem s) (FreeBitmapAddress (vm_space s)) (area_end s - FreeBitmapAddress (vm_space s));
  w_used : forall i r, (i < k)%nat -> used s i r -> res_ok s r;
  w_disjoint : forall i j r q, i <> j -> (i < k)%nat -> (j < k)%nat -> used s i r -> used s j q ->
    buffers_disjoint (CommitBitmap r) (CommitBitmap q)
}.

(** The commit bits of a reservation are the same in both states. *)
Definition bits_kept (s s' : Vm) (r : VMM_RESERVATION) : Prop :=
  forall p, 0 <= p < BitCount (CommitBitmap r) ->
    bit (vm_mem s') (CommitBitmap r) p = bit (vm_mem s) (CommitBitmap r) p.

(** Does the reservation contain the range? *)
Definition contains (r : VMM_RESERVATION) (a n : Z) : bool :=
  (StartVa r <=? a) && (a + n <=? StartVa r + Size_ r).

Definition is_used (r : VMM_RESERVATION) : bool := bool_decide (State r = VmmReservationStateUsed).

(** The first reservation that contains the range, by index. *)
Fixpoint first_containing (l : list VMM_RESERVATION) (a n : Z) : option nat :=
  match l with
  | [] => None
  | r :: l' => if is_used r && contains r a n then Some O else S <$> first_containing l' a n
  end.
Definition find (s : Vm) (k : nat) (a n : Z) : option nat := first_containing (take k (vm_slots s)) a n.

(** ** Lemmas *)
Lemma page_aligned_vm a : is_qword a -> IsAddressAligned a PAGE_SIZE = (a mod PAGE_SIZE =? 0).
Proof.
  intros Ha. change PAGE_SIZE with (2 ^ 12) at 1. rewrite IsAddressAligned_pow2 by lia.
  by rewrite u64_small.
Qed.

Lemma region_ok_aligned a n : region_ok a n ->
  negb (NULL =? a) = true /\ negb (0 =? n) = true /\
  IsAddressAligned a PAGE_SIZE = true /\ IsAddressAligned n PAGE_SIZE = true /\
  0 < n / PAGE_SIZE /\ n = n / PAGE_SIZE * PAGE_SIZE.
Proof.
  intros (Ha & Ea & Hn & En & Hend & Hp). unfold NULL. rewrite !page_aligned_vm by rlia.
  rewrite Ea, En. pose proof (Z.div_mod n PAGE_SIZE ltac:(done)) as Hd.
  split_and!; try done; try lia. unfold PAGE_SIZE in *. lia.
Qed.

Lemma check_contains r a n : region_ok (StartVa r) (Size_ r) -> 0 < a -> 0 < n -> a + n < 2 ^ 64 ->
  CHECK_BOUNDS a n (StartVa r) (Size_ r) = contains r a n.
Proof.
  intros (H1 & _ & H3 & _ & H5 & _) Ha Hn Hend. unfold CHECK_BOUNDS, contains. unwrap. done.
Qed.

Lemma slot_address_lt s k i : wf_vm s k -> (i < length (vm_slots s))%nat ->
  (slot_address s i <? BitmapAddressStart (vm_space s)) = true.
Proof.
  intros H Hi. apply Z.ltb_lt. pose proof (w_list _ _ H) as [_ Hl].
  unfold slot_address, SIZEOF_VMM_RESERVATION in *. lia.
Qed.

Lemma wf_vm_lt s k : wf_vm s k -> (k < length (vm_slots s))%nat.
Proof. intros H. destruct (w_last _ _ H) as (r & Hr & _). by eapply lookup_lt_Some. Qed.

Lemma first_containing_Some l a n i : first_containing l a n = Some i ->
  exists r, l !! i = Some r /\ is_used r = true /\ contains r a n = true.
Proof.
  revert i. induction l as [|r l IH]; intros i H; simpl in H; [done|].
  destruct (is_used r && contains r a n) eqn:E.
  - simplify_eq. apply andb_true_iff in E as []. by exists r.
  - destruct (first_containing l a n) as [j|]; [|done]. simpl in H. simplify_eq.
    destruct (IH j eq_refl) as (q & ?). by exists q.
Qed.

Lemma first_containing_None l a n : first_containing l a n = None <->
  forall i r, l !! i = Some r -> is_used r = true -> contains r a n = false.
Proof.
  induction l as [|r l IH]; simpl; [by split|]. destruct (is_used r && contains r a n) eqn:E.
  - split; [done|]. intros H. apply andb_true_iff in E as [E1 E2]. specialize (H 0%nat r eq_refl E1). congruence.
  - rewrite fmap_None, IH. split.
    + intros H [|i] q Hi Hq; simplify_eq/=; [by rewrite Hq in E|by eapply H].
    + intros H i q Hi. by apply (H (S i)).
Qed.

Lemma find_Some s k a n i : wf_vm s k -> find s k a n = Some i ->
  exists r, (i < k)%nat /\ used s i r /\ res_ok s r /\ contains r a n = true.
Proof.
  intros Hwf (r & Hi & Hu & Hc)%first_containing_Some. apply lookup_take_Some in Hi as [Hi Hlt].
  apply bool_decide_eq_true in Hu. exists r. split_and!; try done. by eapply w_used.
Qed.

Lemma find_loop_run s k a n : wf_vm s k -> 0 < a -> 0 < n -> a + n < 2 ^ 64 -> forall fuel i,
  (i <= k)%nat -> (k - i < fuel)%nat ->
  find_loop fuel i a n s = Ok ((fun j => (i + j)%nat) <$> first_containing (drop i (take k (vm_slots s))) a n, s).
Proof.
  intros Hwf Ha Hn Hend. pose proof (wf_vm_lt s k Hwf) as Hk. induction fuel as [|fuel IH]; intros i Hi Hf; [lia|].
  destruct (lookup_lt_is_Some_2 (vm_slots s) i) as [r Hr]; [lia|].
  cbn [find_loop]. unfold mbind, M_bind, get_slot, getS. rewrite Hr.
  rewrite (slot_address_lt s k i Hwf) by lia. simpl negb. rewrite orb_false_r.
  destruct (decide (i = k)) as [->|Hne].
  { destruct (w_last _ _ Hwf) as (q & Hq & Hl). simplify_eq. rewrite bool_decide_eq_true_2 by done.
    rewrite drop_ge by (rewrite length_take; lia). done. }
  assert (Hnl : State r <> VmmReservationStateLast) by (eapply (w_before _ _ Hwf i); [lia|done]).
  rewrite bool_decide_eq_false_2 by done.
  assert (Hd : drop i (take k (vm_slots s)) = r :: drop (S i) (take k (vm_slots s))).
  { apply drop_S. rewrite lookup_take_lt by lia. done. }
  rewrite Hd. cbn [first_containing]. unfold is_used.
  case_bool_decide as Hfree.
  - rewrite bool_decide_eq_false_2 by congruence. simpl andb. cbn iota. rewrite IH by lia.
    rewrite <- option_fmap_compose. do 2 f_equal. apply option_fmap_ext. intros j. simpl. lia.
  - assert (Hu : State r = VmmReservationStateUsed) by (destruct (State r); congruence).
    rewrite bool_decide_eq_true_2 by done.
    destruct (w_used _ _ Hwf i r ltac:(lia) (conj Hr Hu)) as (Hok & _).
    rewrite check_contains by done. simpl andb. destruct (contains r a n).
    + unfold ret. simpl. do 3 f_equal. lia.
    + rewrite IH by lia. rewrite <- option_fmap_compose. do 2 f_equal.
      apply option_fmap_ext. intros j. simpl. lia.
Qed.

(** _VmFindReservation returns the first reservation that contains the range. *)
Lemma _VmFindReservation_run s k a n : wf_vm s k -> 0 < a -> 0 < n -> a + n < 2 ^ 64 ->
  _VmFindReservation a n s = Ok (match find s k a n with
    | None => (STATUS_ELEMENT_NOT_FOUND, None) | Some i => (STATUS_SUCCESS, Some i) end, s).
Proof.
  intros Hwf Ha Hn Hend. unfold _VmFindReservation, find. pose proof (wf_vm_lt s k Hwf).
  rewrite (bind_run _ _ s tt s) by (apply ASSERT_run; unfold NULL; lia).
  rewrite (bind_run _ _ s tt s) by (apply ASSERT_run; lia).
  rewrite (bind_run _ _ s (length (vm_slots s)) s) by done.
  rewrite (bind_run _ _ s (first_containing (take k (vm_slots s)) a n) s).
  - by destruct (first_containing _ _ _).
  - rewrite (find_loop_run s k) by (done || lia). rewrite drop_0. by destruct (first_containing _ _ _).
Qed.

(** ** The first free entry *)

(** Reservation [r] is the [i]-th entry below the last one. *)
Definition entry (s : Vm) (k i : nat) (r : VMM_RESERVATION) : Prop := (i < k)%nat /\ used s i r.

(** There is an entry to use: one was released, or the list can grow. *)
Definition has_room (s : Vm) (k : nat) : Prop :=
  (exists i r, (i < k)%nat /\ vm_slots s !! i = Some r /\ State r = VmmReservationStateFree) \/
  (S k < length (vm_slots s))%nat.

Definition with_slots (s : Vm) (l : list VMM_RESERVATION) : Vm :=
  mkVm (vm_space s) l (vm_mem s) (vm_pcpu s) (vm_calls s).

Lemma put_slot_run s i r : (i < length (vm_slots s))%nat ->
  put_slot i r s = Ok (tt, with_slots s (<[i := r]> (vm_slots s))).
Proof. intros. unfold put_slot. by rewrite decide_True. Qed.

Lemma get_slot_run s i r : vm_slots s !! i = Some r -> get_slot i s = Ok (r, s).
Proof. intros E. unfold get_slot. by rewrite E. Qed.

(** Marking entry [k] free and entry [k + 1] last grows the list by a free entry. *)
Lemma wf_vm_grow s k r q : wf_vm s k -> vm_slots s !! k = Some r -> vm_slots s !! S k = Some q ->
  wf_vm (with_slots s (<[S k := set_State VmmReservationStateLast q]>
    (<[k := set_State VmmReservationStateFree r]> (vm_slots s)))) (S k).
Proof.
  intros Hwf Hr Hq. pose proof (lookup_lt_Some _ _ _ Hr). pose proof (lookup_lt_Some _ _ _ Hq).
  assert (Hlow : forall i x, (i < S k)%nat ->
    <[S k := set_State VmmReservationStateLast q]>
      (<[k := set_State VmmReservationStateFree r]> (vm_slots s)) !! i = Some x ->
    (i = k /\ x = set_State VmmReservationStateFree r) \/ ((i < k)%nat /\ vm_slots s !! i = Some x)).
  { intros i x Hi. rewrite list_lookup_insert_ne by lia. destruct (decide (i = k)) as [->|].
    - rewrite list_lookup_insert_eq by lia. intros. simplify_eq. by left.
    - rewrite list_lookup_insert_ne by lia. right. split; [lia|done]. }
  assert (Hused : forall i x, (i < S k)%nat -> used (with_slots s (<[S k := set_State VmmReservationStateLast q]>
      (<[k := set_State VmmReservationStateFree r]> (vm_slots s)))) i x -> (i < k)%nat /\ used s i x).
  { intros i x Hi [Hx Hu]. simpl in Hx. apply Hlow in Hx as [[-> ->]|[? ?]]; [done| |done]. by split. }
  destruct Hwf as [H1 H2 H3 H4 H5 H6 H7]. split; simpl.
  - eexists. split; [apply list_lookup_insert_eq; rewrite length_insert; lia|done].
  - intros i x Hi Hx. apply Hlow in Hx as [[_ ->]|[? ?]]; [done|by eapply H2|done].
  - by rewrite !length_insert.
  - done.
  - done.
  - intros i x Hi Hx. apply Hused in Hx as [? Hx]; [|done]. by apply (H6 i).
  - intros i j x y Hne Hi Hj Hx Hy. apply Hused in Hx as [? Hx]; [|done]. apply Hused in Hy as [? Hy]; [|done].
    by apply (H7 i j).
Qed.

Lemma first_free_loop_run s k : wf_vm s k -> has_room s k -> forall fuel i,
  (i <= k)%nat -> (k - i < fuel)%nat ->
  (forall m r, (m < i)%nat -> vm_slots s !! m = Some r -> State r = VmmReservationStateUsed) ->
  exists j r l k1, first_free_loop fuel i s = Ok (Some j, with_slots s l) /\
    wf_vm (with_slots s l) k1 /\ (j < k1)%nat /\ l !! j = Some r /\ State r = VmmReservationStateFree /\
    (forall m x, entry (with_slots s l) k1 m x <-> entry s k m x) /\ length l = length (vm_slots s).
Proof.
  intros Hwf Hroom. pose proof (wf_vm_lt s k Hwf). induction fuel as [|fuel IH]; intros i Hi Hf Hpre; [lia|].
  destruct (lookup_lt_is_Some_2 (vm_slots s) i) as [r Hr]; [lia|].
  cbn [first_free_loop]. rewrite (bind_run _ _ s s s) by done. rewrite (slot_address_lt s k i Hwf) by lia.
  rewrite (bind_run _ _ s r s) by (by apply get_slot_run).
  destruct (State r) eqn:Est.
  - exists i, r, (vm_slots s), k.
    assert (i <> k) by (intros ->; destruct (w_last _ _ Hwf) as (? & ? & ?); simplify_eq; congruence).
    destruct s. split_and!; try done. lia.
  - assert (i <> k) by (intros ->; destruct (w_last _ _ Hwf) as (? & ? & ?); simplify_eq; congruence).
    apply IH; [lia|lia|]. intros m q Hm Hq.
    destruct (decide (m = i)) as [->|]; [by simplify_eq|eapply Hpre; [|done]; lia].
  - assert (i = k).
    { destruct (decide (i = k)); [done|]. exfalso. eapply (w_before _ _ Hwf i r); [lia|done|done]. }
    subst i. assert (Hgrow : (S k < length (vm_slots s))%nat).
    { destruct Hroom as [(m & q & Hm & Hq & Hst)|?]; [|done]. rewrite (Hpre m q Hm Hq) in Hst. done. }
    destruct (lookup_lt_is_Some_2 (vm_slots s) (S k) Hgrow) as [q Hq].
    rewrite (bind_run _ _ s tt _ (put_slot_run s k _ ltac:(lia))).
    erewrite bind_run by (apply get_slot_run; simpl; rewrite list_lookup_insert_ne by lia; exact Hq).
    erewrite bind_run by (apply put_slot_run; simpl; rewrite length_insert; lia).
    pose proof (wf_vm_grow s k r q Hwf Hr Hq) as Hwf'. simpl.
    eexists k, _, _, (S k). split; [reflexivity|]. split; [exact Hwf'|]. split; [lia|].
    split; [rewrite list_lookup_insert_ne by lia; by apply list_lookup_insert_eq|]. split; [done|].
    split; [|by rewrite !length_insert]. intros m x. unfold entry, used. simpl. split.
    + intros [Hm [Hx Hu]]. rewrite list_lookup_insert_ne in Hx by lia.
      destruct (decide (m = k)) as [->|].
      * rewrite list_lookup_insert_eq in Hx by lia. by simplify_eq.
      * rewrite list_lookup_insert_ne in Hx by lia. split; [lia|done].
    + intros [Hm [Hx Hu]]. rewrite !list_lookup_insert_ne by lia. split; [lia|done].
Qed.

Lemma _VmFindFirstFreeReservation_run s k : wf_vm s k -> has_room s k ->
  exists j r l k1, _VmFindFirstFreeReservation s = Ok (Some j, with_slots s l) /\
    wf_vm (with_slots s l) k1 /\ (j < k1)%nat /\ l !! j = Some r /\ State r = VmmReservationStateFree /\
    (forall m x, entry (with_slots s l) k1 m x <-> entry s k m x) /\ length l = length (vm_slots s).
Proof.
  intros Hwf Hroom. unfold _VmFindFirstFreeReservation. pose proof (wf_vm_lt s k Hwf).
  rewrite (bind_run _ _ s (length (vm_slots s)) s) by done.
  apply (first_free_loop_run s k); [done|done|lia|lia|]. intros; lia.
Qed.

(** ** Initialising an entry *)
Lemma bit_frame m m' bm p n i : wf_bitmap m bm -> frame_outside m m' p n ->
  BitmapBuffer bm + BufferSize bm <= p \/ p + n <= BitmapBuffer bm ->
  0 <= i < BitCount bm -> bit m' bm i = bit m bm i.
Proof.
  intros Hwf Hf Hd Hi. pose proof (wf_bitmap_size m bm Hwf). unfold bit, bit_at.
  pose proof (Z.div_pos i 8 ltac:(lia) ltac:(lia)). pose proof (div8_lt i (BufferSize bm) ltac:(lia)).
  rewrite Hf by lia. done.
Qed.

Lemma wf_bitmap_frame m m' bm p n : wf_bitmap m bm -> frame_outside m m' p n ->
  BitmapBuffer bm + BufferSize bm <= p \/ p + n <= BitmapBuffer bm -> wf_bitmap m' bm.
Proof.
  intros (H1 & H2 & H3 & H4) Hf Hd. split_and!; try done; try lia.
  intros j Hj. rewrite Hf by lia. by apply H4.
Qed.

Lemma res_ok_frame s s' r p n : res_ok s r -> frame_outside (vm_mem s) (vm_mem s') p n ->
  FreeBitmapAddress (vm_space s) <= FreeBitmapAddress (vm_space s') ->
  BitmapAddressStart (vm_space s') = BitmapAddressStart (vm_space s) ->
  BitmapBuffer (CommitBitmap r) + BufferSize (CommitBitmap r) <= p \/
    p + n <= BitmapBuffer (CommitBitmap r) -> res_ok s' r.
Proof.
  intros (H1 & H2 & H3 & H4 & H5 & H6) Hf Hfree Hst Hd. split_and!; try done.
  - by eapply wf_bitmap_frame.
  - lia.
  - lia.
Qed.

Lemma align_page n : 0 <= n -> n + PAGE_SIZE < 2 ^ 64 ->
  n <= AlignAddressUpper n PAGE_SIZE < n + PAGE_SIZE /\ AlignAddressUpper n PAGE_SIZE mod PAGE_SIZE = 0.
Proof.
  intros Hn Hb. unfold PAGE_SIZE in *.
  destruct (AlignAddressUpper_spec n 12) as [H1 H2]; [lia|rlia|rlia|]. change (2 ^ 12) with 0x1000 in *.
  split; [lia|done].
Qed.

(** The size of the commit bitmap of a range. *)
Definition bitmap_bytes (n : Z) : Z := (n / PAGE_SIZE + 7) / 8.
Definition bitmap_room (s : Vm) (n : Z) : Prop :=
  FreeBitmapAddress (vm_space s) + AlignAddressUpper (bitmap_bytes n) PAGE_SIZE <= area_end s.

Lemma bitmap_bytes_range n : region_ok 0x1000 n \/ (0 < n / PAGE_SIZE <= MAX_DWORD) ->
  0 < bitmap_bytes n < 2 ^ 32.
Proof.
  intros H. assert (0 < n / PAGE_SIZE <= MAX_DWORD).
  { destruct H as [H|H]; [|done]. pose proof (region_ok_aligned _ _ H). destruct H. lia. }
  unfold bitmap_bytes. pose proof (Z.div_mod (n / PAGE_SIZE + 7) 8 ltac:(lia)).
  pose proof (Z.mod_pos_bound (n / PAGE_SIZE + 7) 8 ltac:(lia)). rlia.
Qed.

Definition new_space (sp : VMM_RESERVATION_SPACE) (n : Z) : VMM_RESERVATION_SPACE :=
  mkSPACE (FreeVirtualAddressPointer sp) (StartOfVirtualAddressSpace sp) (BitmapAddressStart sp)
    (ReservedAreaSize sp) (FreeBitmapAddress sp + AlignAddressUpper (bitmap_bytes n) PAGE_SIZE)
    (ReservationList sp).

(** The code after the checks, with the bitmap it builds. *)
Lemma _VmInitializeReservation_run s k j r0 a n rights unc file :
  wf_vm s k -> vm_slots s !! j = Some r0 -> region_ok a n -> bitmap_room s n ->
  exists bm m', _VmInitializeReservation a n rights unc file j s =
      Ok (tt, mkVm (new_space (vm_space s) n)
        (<[j := mkVMM_RESERVATION a n rights VmmReservationStateUsed unc file bm]> (vm_slots s))
        m' (vm_pcpu s) (vm_calls s)) /\
    wf_bitmap m' bm /\ BitCount bm = n / PAGE_SIZE /\ BitmapBuffer bm = FreeBitmapAddress (vm_space s) /\
    BufferSize bm = bitmap_bytes n /\
    (forall p, 0 <= p < n / PAGE_SIZE -> bit m' bm p = false) /\
    frame_outside (vm_mem s) m' (FreeBitmapAddress (vm_space s)) (bitmap_bytes n).
Proof.
  intros Hwf Hj Hreg Hroom. destruct (region_ok_aligned a n Hreg) as (E1 & E2 & E3 & E4 & Hp & En).
  pose proof Hreg as (_ & _ & Hn & _ & _ & Hmax). pose proof (lookup_lt_Some _ _ _ Hj) as Hlt.
  pose proof (w_area _ _ Hwf) as (Hfree & Hend & Hal). pose proof (w_list _ _ Hwf) as [Hl Hlen].
  pose proof (bitmap_bytes_range n (or_intror (conj Hp Hmax))) as Hbytes.
  destruct (align_page (bitmap_bytes n)) as [Hau Haum]; [lia|unfold PAGE_SIZE; lia|].
  unfold SIZEOF_VMM_RESERVATION, bitmap_room in *.
  destruct (BitmapInitEx_spec (vm_mem s) (n / PAGE_SIZE) (FreeBitmapAddress (vm_space s)) false)
    as (size & bm0 & Epre & Esize & Hinit); [lia|unfold NULL; lia| |].
  { fold (bitmap_bytes n). eapply mapped_sub; [apply (w_mapped _ _ Hwf)|lia|lia]. }
  fold (bitmap_bytes n) in Esize. subst size.
  apply wp_Ok in Hinit as (bm & m' & Einit & Hbm & Hc & Hb & Hz & Hfr).
  exists bm, m'. split.
  2: { split_and!; try done. destruct Hbm as (_ & _ & -> & _). by rewrite Hc. }
  unfold _VmInitializeReservation. cbv zeta.
  rewrite (bind_run _ _ s tt s (ASSERT_run _ _ E1)), (bind_run _ _ s tt s (ASSERT_run _ _ E2)),
    (bind_run _ _ s tt s (ASSERT_run _ _ E3)), (bind_run _ _ s tt s (ASSERT_run _ _ E4)).
  rewrite (bind_run _ _ s r0 s (get_slot_run _ _ _ Hj)).
  erewrite bind_run by (by apply put_slot_run).
  erewrite bind_run by (apply ASSERT_run, Z.leb_le; done).
  rewrite (u32_small (n / PAGE_SIZE)) by rlia. 
  erewrite bind_run by (unfold lift; rewrite Epre; reflexivity). cbv beta iota.
  erewrite bind_run by (apply ASSERT_run; lia).
  erewrite bind_run by reflexivity. cbn [vm_space with_slots].
  erewrite bind_run by (apply ASSERT_run; rewrite page_aligned_vm, Hal by rlia; done).
  erewrite bind_run by (unfold on_mem, zoom; cbn [vm_mem with_slots]; rewrite Einit; reflexivity).
  erewrite bind_run by (apply get_slot_run; simpl; by apply list_lookup_insert_eq).
  erewrite bind_run by (apply put_slot_run; simpl; rewrite length_insert; lia).
  erewrite bind_run.
  2: { apply ASSERT_run. apply CHECK_BOUNDS_spec; unfold area_end in *; rlia. }
  cbn -[Z.add u64 AlignAddressUpper bitmap_bytes]. unfold set_space, modify, new_space. simpl.
  rewrite list_insert_insert_eq. rewrite u64_small by rlia. done.
Qed.

(** [s'] has the reservations of [s] and in entry [j] the reservation [r]. *)
Definition added (s : Vm) (k : nat) (s' : Vm) (k' j : nat) (r : VMM_RESERVATION) : Prop :=
  entry s' k' j r /\
  (forall i q, entry s k i q -> i <> j /\ entry s' k' i q /\ bits_kept s s' q) /\
  (forall i q, entry s' k' i q -> i = j \/ entry s k i q).

Lemma used_insert s sp j r m p c i q : (j < length (vm_slots s))%nat ->
  used (mkVm sp (<[j := r]> (vm_slots s)) m p c) i q <->
  (i = j /\ q = r /\ State r = VmmReservationStateUsed) \/ (i <> j /\ used s i q).
Proof.
  intros Hj. unfold used. simpl. destruct (decide (i = j)) as [->|Hne].
  - rewrite list_lookup_insert_eq by done. split; [intros [? ?]; simplify_eq; by left|].
    intros [(_ & -> & ?)|[? _]]; [by split|done].
  - rewrite list_lookup_insert_ne by done. split; [by right|]. intros [[? _]|[_ ?]]; done.
Qed.

Lemma wf_vm_init s k j r0 a n rights unc file bm m' :
  wf_vm s k -> (j < k)%nat -> vm_slots s !! j = Some r0 -> State r0 = VmmReservationStateFree ->
  region_ok a n -> bitmap_room s n ->
  wf_bitmap m' bm -> BitCount bm = n / PAGE_SIZE -> BitmapBuffer bm = FreeBitmapAddress (vm_space s) ->
  BufferSize bm = bitmap_bytes n ->
  frame_outside (vm_mem s) m' (FreeBitmapAddress (vm_space s)) (bitmap_bytes n) ->
  let r := mkVMM_RESERVATION a n rights VmmReservationStateUsed unc file bm in
  let s' := mkVm (new_space (vm_space s) n) (<[j := r]> (vm_slots s)) m' (vm_pcpu s) (vm_calls s) in
  wf_vm s' k /\ added s k s' k j r.
Proof.
  intros Hwf Hjk Hj0 Hfree0 Hreg Hroom Hbm Hc Hb Hbs Hfr r s'.
  pose proof (lookup_lt_Some _ _ _ Hj0) as Hlt. pose proof Hreg as (_ & _ & _ & _ & _ & Hmax).
  destruct (region_ok_aligned a n Hreg) as (_ & _ & _ & _ & Hp & _).
  pose proof (bitmap_bytes_range n (or_intror (conj Hp Hmax))) as Hbytes.
  destruct (align_page (bitmap_bytes n)) as [Hau Haum]; [lia|unfold PAGE_SIZE; lia|].
  pose proof (w_area _ _ Hwf) as (Hfree & Hend & Hal).
  assert (Hused : forall i q, used s' i q <->
    (i = j /\ q = r /\ State r = VmmReservationStateUsed) \/ (i <> j /\ used s i q))
    by (intros; by apply used_insert).
  assert (Hold : forall i q, (i < k)%nat -> used s i q -> i <> j /\ res_ok s' q /\ bits_kept s s' q /\
    BitmapBuffer (CommitBitmap q) + BufferSize (CommitBitmap q) <= FreeBitmapAddress (vm_space s)).
  { intros i q Hi Hq. pose proof (w_used _ _ Hwf i q Hi Hq) as Hok.
    assert (Hle : BitmapBuffer (CommitBitmap q) + BufferSize (CommitBitmap q) <= FreeBitmapAddress (vm_space s))
      by apply Hok.
    split_and!; [|eapply res_ok_frame; [exact Hok|exact Hfr|simpl; lia|done|by left]| |done].
    - intros ->. destruct Hq as [Hq Hu]. simplify_eq. congruence.
    - intros p Hpp. eapply bit_frame; [apply Hok|exact Hfr|by left|done]. }
  assert (Hnew : res_ok s' r).
  { split_and!; simpl; try done; try apply Hreg; try lia. by rewrite Hb. }
  split; [|split; [|split]].
  - split.
    + destruct (w_last _ _ Hwf) as (x & Hx & Hl). exists x. simpl. split; [|done].
      rewrite list_lookup_insert_ne by lia. done.
    + intros i x Hi. simpl. destruct (decide (i = j)) as [->|].
      * rewrite list_lookup_insert_eq by done. intros. by simplify_eq.
      * rewrite list_lookup_insert_ne by done. by apply (w_before _ _ Hwf).
    + simpl. rewrite length_insert. apply (w_list _ _ Hwf).
    + unfold bitmap_room, area_end in *. simpl. split_and!; try lia.
      rewrite Z.add_mod, Hal, Haum by done. done.
    + unfold bitmap_room, area_end in *. simpl.
      intros x Hx. rewrite Hfr by lia. apply (w_mapped _ _ Hwf). unfold area_end. lia.
    + intros i q Hi Hq. apply Hused in Hq as [(-> & -> & _)|[_ Hq]]; [done|]. by apply (Hold i q).
    + intros i i' q q' Hne Hi Hi' Hq Hq'.
      apply Hused in Hq as [(-> & -> & _)|[_ Hq]]; apply Hused in Hq' as [(-> & -> & _)|[_ Hq']]; try done.
      * right. simpl. rewrite Hb. apply (Hold i' q'); done.
      * left. simpl. rewrite Hb. apply (Hold i q); done.
      * eapply (w_disjoint _ _ Hwf i i'); done.
  - split; [done|]. apply Hused. by left.
  - intros i q [Hi Hq]. destruct (Hold i q Hi Hq) as (Hne & _ & Hk & _). split; [done|].
    split; [|done]. split; [done|]. apply Hused. by right.
  - intros i q [Hi Hq]. apply Hused in Hq as [(-> & _)|[_ Hq]]; [by left|]. right. by split.
Qed.

(** ** Committing and reading commit bits *)
Definition with_mem (s : Vm) (m : Mem) : Vm := mkVm (vm_space s) (vm_slots s) m (vm_pcpu s) (vm_calls s).

Lemma page_index_in a start n : region_ok start n -> start <= a < start + n ->
  page_index a start = (a - start) / PAGE_SIZE /\ 0 <= (a - start) / PAGE_SIZE < n / PAGE_SIZE.
Proof.
  intros Hreg Ha. pose proof (region_ok_aligned _ _ Hreg) as (_ & _ & _ & _ & Hp & En).
  destruct Hreg as (H1 & _ & H3 & _ & _ & H6).
  assert (Hd : 0 <= (a - start) / PAGE_SIZE < n / PAGE_SIZE).
  { split; [apply Z.div_pos; [lia|done]|]. apply Z.div_lt_upper_bound; [done|]. lia. }
  split; [|done]. unfold page_index, PtrDiff.
  rewrite i64_small by (unfold PAGE_SIZE in *; rlia). rewrite Z.quot_div_nonneg by (lia || done).
  apply u64_small. rlia.
Qed.

(** An index into the commit bitmap. *)
Definition page_of (r : VMM_RESERVATION) (a : Z) : Z := (a - StartVa r) / PAGE_SIZE.

Lemma wf_vm_bits s k i r m' f c v : wf_vm s k -> entry s k i r ->
  bits_changed (vm_mem s) m' (BitmapBuffer (CommitBitmap r)) (BufferSize (CommitBitmap r)) f c v ->
  wf_vm (with_mem s m') k /\
  (forall j q, j <> i -> entry s k j q -> bits_kept s (with_mem s m') q).
Proof.
  intros Hwf [Hi Hr] Hch. pose proof (w_used _ _ Hwf i r Hi Hr) as Hok.
  pose proof Hch as (_ & _ & Hfr). destruct Hok as (Hreg & Hwb & Hc & Hb1 & Hb2 & Hb3).
  pose proof (bits_changed_wf _ _ _ _ _ _ Hwb Hch) as Hwb'.
  assert (Hother : forall j q, j <> i -> (j < k)%nat -> used s j q ->
    BitmapBuffer (CommitBitmap q) + BufferSize (CommitBitmap q) <= BitmapBuffer (CommitBitmap r) \/
    BitmapBuffer (CommitBitmap r) + BufferSize (CommitBitmap r) <= BitmapBuffer (CommitBitmap q)).
  { intros j q Hne Hj Hq. apply (w_disjoint _ _ Hwf j i q r Hne Hj Hi Hq Hr). }
  split.
  - destruct Hwf as [H1 H2 H3 H4 H5 H6 H7]. split; try done.
    + simpl. intros x Hx. unfold area_end in *. simpl in *. rewrite Hfr by lia. apply H5. lia.
    + intros j q Hj Hq. destruct (decide (j = i)) as [->|Hne].
      * destruct Hq as [Hq Hu]. destruct Hr as [Hr _]. simpl in Hq. simplify_eq. split_and!; done.
      * eapply (res_ok_frame s); [by apply (H6 j)|exact Hfr|simpl; lia|done|]. by apply (Hother j).
  - intros j q Hne [Hj Hq] p Hp. eapply bit_frame; [|exact Hfr|by apply (Hother j)|done].
    apply (w_used _ _ Hwf j q Hj Hq).
Qed.

Lemma change_commit_run s k i r v a n : wf_vm s k -> entry s k i r -> region_ok a n ->
  contains r a n = true ->
  exists m', change_commit v a n i s = Ok (tt, with_mem s m') /\ wf_vm (with_mem s m') k /\
    (forall j q, j <> i -> entry s k j q -> bits_kept s (with_mem s m') q) /\
    (forall p, 0 <= p -> bit m' (CommitBitmap r) p =
       if bool_decide (page_of r a <= p < page_of r a + n / PAGE_SIZE) then v
       else bit (vm_mem s) (CommitBitmap r) p).
Proof.
  intros Hwf Hent Hreg Hc. destruct (region_ok_aligned a n Hreg) as (E1 & E2 & E3 & E4 & Hp & En).
  pose proof Hreg as (Ha & Hal & Hn & _ & _ & Hmax). pose proof Hent as [Hi Hr].
  pose proof (w_used _ _ Hwf i r Hi Hr) as (Hrr & Hwb & Hbc & _).
  apply andb_true_iff in Hc as [Hc1%Z.leb_le Hc2%Z.leb_le].
  destruct (page_index_in a (StartVa r) (Size_ r) Hrr ltac:(lia)) as [Epi Hpi].
  assert (Hfit : page_of r a + n / PAGE_SIZE <= BitCount (CommitBitmap r)).
  { unfold page_of. rewrite Hbc. rewrite <- Z.div_add, <- En by done. apply Z.div_le_mono; [done|lia]. }
  destruct (wp_Ok _ _ _ (BitmapSetBitsValue_spec (vm_mem s) (CommitBitmap r) (page_of r a) (n / PAGE_SIZE) v
    Hwb ltac:(unfold page_of; lia) ltac:(lia) ltac:(unfold page_of; lia) Hfit)) as ([] & m' & Em & Hch).
  destruct (wf_vm_bits s k i r m' _ _ _ Hwf Hent Hch) as [Hwf' Hkept].
  exists m'. split; [|split; [done|split; [done|]]].
  - unfold change_commit. cbv zeta.
    rewrite (bind_run _ _ s tt s (ASSERT_run _ _ E1)), (bind_run _ _ s tt s (ASSERT_run _ _ E2)),
      (bind_run _ _ s tt s (ASSERT_run _ _ E3)), (bind_run _ _ s tt s (ASSERT_run _ _ E4)).
    destruct Hr as [Hr _]. rewrite (bind_run _ _ s r s (get_slot_run _ _ _ Hr)).
    rewrite Epi. fold (page_of r a) in Hpi |- *. pose proof Hrr as (_ & _ & _ & _ & _ & Hrmax).
    rewrite (bind_run _ _ s tt s) by (apply ASSERT_run; lia).
    rewrite (bind_run _ _ s tt s) by (apply ASSERT_run; lia).
    rewrite (u32_small (page_of r a)), (u32_small (n / PAGE_SIZE)) by rlia.
    unfold on_mem, zoom. rewrite Em. done.
  - intros p Hpp. apply Hch. done.
Qed.

Lemma BitmapGetBitValue_run m bm i : wf_bitmap m bm -> 0 <= i < BitCount bm ->
  BitmapGetBitValue bm i m = Ok (bit m bm i, m).
Proof.
  intros Hwf Hi. pose proof (wf_bitmap_size m bm Hwf). destruct Hwf as (Hp & _ & _ & Hb).
  unfold BitmapGetBitValue. rewrite (bind_run _ _ m tt m) by (apply ASSERT_run; lia).
  apply (_BitmapGetBit_spec _ (BufferSize bm)); try done; [lia|]. apply div8_lt. lia.
Qed.

Lemma _VmIsVaCommited_run s k i r a : wf_vm s k -> entry s k i r ->
  StartVa r <= a < StartVa r + Size_ r ->
  _VmIsVaCommited i a s = Ok (bit (vm_mem s) (CommitBitmap r) (page_of r a), s).
Proof.
  intros Hwf [Hi Hr] Ha. pose proof (w_used _ _ Hwf i r Hi Hr) as (Hrr & Hwb & Hbc & _).
  destruct (page_index_in a (StartVa r) (Size_ r) Hrr Ha) as [Epi Hpi].
  pose proof Hrr as (H1 & _ & _ & _ & _ & Hmax). destruct Hr as [Hr _].
  unfold _VmIsVaCommited. cbv zeta. rewrite (bind_run _ _ s tt s) by (apply ASSERT_run; unfold NULL; lia).
  rewrite (bind_run _ _ s r s (get_slot_run _ _ _ Hr)), Epi. fold (page_of r a) in Hpi |- *.
  rewrite (bind_run _ _ s tt s) by (apply ASSERT_run; lia). rewrite u32_small by rlia.
  unfold on_mem, zoom. rewrite BitmapGetBitValue_run by (done || lia). by destruct s.
Qed.

(** ** _VmChangeVaReservationState *)

(** States that differ at most in the address pointers, the PCPU flag and the
    recorded calls. *)
Definition same_vm (s s' : Vm) : Prop :=
  vm_slots s' = vm_slots s /\ vm_mem s' = vm_mem s /\
  BitmapAddressStart (vm_space s') = BitmapAddressStart (vm_space s) /\
  ReservedAreaSize (vm_space s') = ReservedAreaSize (vm_space s) /\
  FreeBitmapAddress (vm_space s') = FreeBitmapAddress (vm_space s) /\
  ReservationList (vm_space s') = ReservationList (vm_space s).

Lemma same_vm_sym s s' : same_vm s s' -> same_vm s' s.
Proof. unfold same_vm. intros (E1 & E2 & E3 & E4 & E5 & E6). by rewrite E1, E2, E3, E4, E5, E6. Qed.

Lemma wf_vm_same s s' k : same_vm s s' -> wf_vm s k -> wf_vm s' k.
Proof.
  intros (E1 & E2 & E3 & E4 & E5 & E6) [H1 H2 H3 H4 H5 H6 H7].
  split; unfold area_end, used, res_ok in *; rewrite ?E1, ?E2, ?E3, ?E4, ?E5, ?E6; try done.
Qed.

Lemma find_same s s' k a n : same_vm s s' -> find s' k a n = find s k a n.
Proof. intros (E & _). unfold find. by rewrite E. Qed.

Lemma entry_same s s' k i r : same_vm s s' -> entry s' k i r <-> entry s k i r.
Proof. intros (E & _). unfold entry, used. by rewrite E. Qed.

Lemma added_same s1 s2 s k s' k' j r : same_vm s s1 -> same_vm s' s2 -> added s k s' k' j r ->
  added s1 k s2 k' j r.
Proof.
  intros Hs Hs' (H1 & H2 & H3). unfold added. rewrite (entry_same _ _ _ _ _ Hs').
  split; [done|]. split.
  - intros i q Hq. rewrite (entry_same _ _ _ _ _ Hs) in Hq. destruct (H2 i q Hq) as (? & ? & Hk).
    rewrite (entry_same _ _ _ _ _ Hs'). split; [done|]. split; [done|]. unfold bits_kept in *.
    destruct Hs as (_ & -> & _), Hs' as (_ & -> & _). done.
  - intros i q Hq. rewrite (entry_same _ _ _ _ _ Hs') in Hq. rewrite (entry_same _ _ _ _ _ Hs). by apply H3.
Qed.

(** [find] in terms of the entries. *)
Lemma find_None s k a n : find s k a n = None <-> forall i q, entry s k i q -> contains q a n = false.
Proof.
  unfold find. rewrite first_containing_None. unfold entry, used, is_used. split.
  - intros H i q (Hi & Hq & Hu). eapply (H i q); [by rewrite lookup_take_lt|by apply bool_decide_eq_true].
  - intros H i q [Hq Hi]%lookup_take_Some Hu%bool_decide_eq_true. by apply (H i q).
Qed.

Lemma find_unique s k j r a n : entry s k j r -> contains r a n = true ->
  (forall i q, entry s k i q -> i <> j -> contains q a n = false) -> find s k a n = Some j.
Proof.
  intros Hr Hc Hother. destruct (find s k a n) as [i|] eqn:E.
  - apply first_containing_Some in E as (q & Hq & Hu & Hcq).
    apply lookup_take_Some in Hq as [Hq Hi]. apply bool_decide_eq_true in Hu.
    destruct (decide (i = j)) as [->|Hne]; [done|].
    rewrite (Hother i q) in Hcq; [done| |done]. by split.
  - rewrite find_None in E. by rewrite (E j r Hr) in Hc.
Qed.

Section Change.
Context (a n Rights : Z) (unc : bool) (file : Z) (Hreg : region_ok a n).

Lemma change_prefix AllocType s k : wf_vm s k ->
  xorb (AllocType =? VMM_ALLOC_TYPE_RESERVE) (AllocType =? VMM_ALLOC_TYPE_COMMIT) = true ->
  _VmChangeVaReservationState a n AllocType Rights unc file s =
  match find s k a n with
  | None =>
      if AllocType =? VMM_ALLOC_TYPE_RESERVE then
        (free ← _VmFindFirstFreeReservation;
         match free with
         | None => fail AssertFailed
         | Some i => _ ← _VmInitializeReservation a n Rights unc file i; ret STATUS_SUCCESS
         end) s
      else Ok (STATUS_MEMORY_IS_NOT_RESERVED, s)
  | Some i =>
      if AllocType =? VMM_ALLOC_TYPE_RESERVE then Ok (STATUS_MEMORY_ALREADY_RESERVED, s) else
        (r ← get_slot i;
         if negb (PageRights r =? Rights) then ret STATUS_MEMORY_CONFLICTING_ACCESS_RIGHTS else
         if negb (Bool.eqb (Uncacheable r) unc) then ret STATUS_MEMORY_CONFLICTING_CACHEABILITY else
         _ ← _VmCommitReservation a n i; ret STATUS_SUCCESS) s
  end.
Proof.
  intros Hwf Hx. destruct (region_ok_aligned a n Hreg) as (E1 & E2 & E3 & E4 & Hp & En).
  pose proof Hreg as (Ha & _ & Hn & _ & Hend & _). unfold _VmChangeVaReservationState.
  rewrite (bind_run _ _ s tt s (ASSERT_run _ _ E1)), (bind_run _ _ s tt s (ASSERT_run _ _ E2)),
    (bind_run _ _ s tt s (ASSERT_run _ _ Hx)), (bind_run _ _ s tt s (ASSERT_run _ _ E3)),
    (bind_run _ _ s tt s (ASSERT_run _ _ E4)).
  rewrite (bind_run _ _ _ _ _ (_VmFindReservation_run s k a n Hwf Ha Hn Hend)).
  rewrite (Z.eqb_sym VMM_ALLOC_TYPE_RESERVE AllocType).
  destruct (find s k a n) as [i|]; cbv beta iota;
    destruct (AllocType =? VMM_ALLOC_TYPE_RESERVE) eqn:Er; try done.
  destruct (AllocType =? VMM_ALLOC_TYPE_COMMIT) eqn:Ec; done.
Qed.

(** A range that no reservation contains is reserved in a fresh entry, uncommitted. *)
Lemma change_reserve s k : wf_vm s k -> find s k a n = None -> has_room s k -> bitmap_room s n ->
  exists bm j s' k',
    let r := mkVMM_RESERVATION a n Rights VmmReservationStateUsed unc file bm in
    _VmChangeVaReservationState a n VMM_ALLOC_TYPE_RESERVE Rights unc file s = Ok (STATUS_SUCCESS, s') /\
    wf_vm s' k' /\ added s k s' k' j r /\
    (forall p, 0 <= p < n / PAGE_SIZE -> bit (vm_mem s') bm p = false) /\
    vm_space s' = new_space (vm_space s) n /\ vm_pcpu s' = vm_pcpu s /\ vm_calls s' = vm_calls s.
Proof.
  intros Hwf Hf Hroom Hbr. rewrite (change_prefix _ s k Hwf), Hf by done. cbv beta iota.
  destruct (_VmFindFirstFreeReservation_run s k Hwf Hroom) as (j & r0 & l & k1 & E & Hwf1 & Hj & Hr0 & Hst & Hent & _).
  rewrite Z.eqb_refl. rewrite (bind_run _ _ _ _ _ E).
  destruct (_VmInitializeReservation_run (with_slots s l) k1 j r0 a n Rights unc file Hwf1 Hr0 Hreg Hbr)
    as (bm & m' & Ei & Hbm & Hc & Hb & Hbs & Hz & Hfr).
  destruct (wf_vm_init (with_slots s l) k1 j r0 a n Rights unc file bm m' Hwf1 Hj Hr0 Hst Hreg Hbr Hbm Hc Hb Hbs Hfr)
    as [Hwf2 (H1 & H2 & H3)].
  rewrite (bind_run _ _ _ _ _ Ei). eexists bm, j, _, k1. split; [reflexivity|].
  split; [exact Hwf2|]. split; [|done]. split; [exact H1|]. split.
  - intros i q Hq. apply Hent in Hq. by apply H2.
  - intros i q Hq. destruct (H3 i q Hq) as [|Hq']; [by left|]. right. by apply Hent.
Qed.

Lemma change_commit_spec s k i r : wf_vm s k -> find s k a n = Some i -> entry s k i r ->
  exists st s', _VmChangeVaReservationState a n VMM_ALLOC_TYPE_COMMIT Rights unc file s = Ok (st, s') /\
    if (PageRights r =? Rights) && Bool.eqb (Uncacheable r) unc
    then st = STATUS_SUCCESS /\ (exists m', s' = with_mem s m') /\ wf_vm s' k /\
      (forall j q, j <> i -> entry s k j q -> bits_kept s s' q) /\
      (forall p, 0 <= p -> bit (vm_mem s') (CommitBitmap r) p =
         if bool_decide (page_of r a <= p < page_of r a + n / PAGE_SIZE) then true
         else bit (vm_mem s) (CommitBitmap r) p)
    else s' = s /\ st = if PageRights r =? Rights then STATUS_MEMORY_CONFLICTING_CACHEABILITY
                        else STATUS_MEMORY_CONFLICTING_ACCESS_RIGHTS.
Proof.
  intros Hwf Hf Hent. rewrite (change_prefix _ s k Hwf), Hf by done. cbv beta iota.
  change (VMM_ALLOC_TYPE_COMMIT =? VMM_ALLOC_TYPE_RESERVE) with false. cbv iota.
  destruct (find_Some s k a n i Hwf Hf) as (q & Hi & Hq & _ & Hc).
  assert (q = r) as -> by (destruct Hq as [Hq _], Hent as [_ [Hr _]]; congruence).
  pose proof Hent as [_ [Hr _]]. rewrite (bind_run _ _ _ _ _ (get_slot_run _ _ _ Hr)).
  destruct (PageRights r =? Rights); cbn [negb andb]; [|by eexists _, _].
  destruct (Bool.eqb (Uncacheable r) unc); cbn [negb]; [|by eexists _, _].
  destruct (change_commit_run s k i r true a n Hwf Hent Hreg Hc) as (m' & E & Hwf' & Hk & Hb).
  unfold _VmCommitReservation. rewrite (bind_run _ _ _ _ _ E). eexists _, _. split; [reflexivity|].
  split; [done|]. split; [by exists m'|]. done.
Qed.
End Change.

(** ** VmReservationSpaceAllocRegion *)

(** The page-aligned range that covers a request. *)
Definition round_up (n : Z) : Z := (n + PAGE_SIZE - 1) / PAGE_SIZE * PAGE_SIZE.
Definition request_base (s : Vm) (Base : Z) : Z :=
  if Base =? NULL then FreeVirtualAddressPointer (vm_space s) else Base - Base mod PAGE_SIZE.
Definition request_size (Base Size : Z) : Z := round_up (Size + Base mod PAGE_SIZE).

Lemma AlignAddressUpper_round_up n : 0 <= n -> n + PAGE_SIZE < 2 ^ 64 ->
  AlignAddressUpper n PAGE_SIZE = round_up n.
Proof.
  intros Hn Hb. unfold round_up, PAGE_SIZE in *. change 0x1000 with (2 ^ 12) at 1.
  rewrite AlignAddressUpper_pow2 by rlia. change (2 ^ 12) with 0x1000.
  pose proof (Z.div_mod (n + 0x1000 - 1) 0x1000 ltac:(done)). lia.
Qed.

Lemma AlignAddressLower_page n : is_qword n -> AlignAddressLower n PAGE_SIZE = n - n mod PAGE_SIZE.
Proof.
  intros Hn. change PAGE_SIZE with (2 ^ 12). rewrite AlignAddressLower_pow2 by lia.
  by rewrite u64_small.
Qed.

(** The space after the address range was chosen and the PCPU flag set. *)
Definition alloc_started (s : Vm) (Base Size : Z) : Vm :=
  let sp := vm_space s in
  mkVm (if Base =? NULL
        then mkSPACE (u64 (FreeVirtualAddressPointer sp + round_up Size)) (StartOfVirtualAddressSpace sp)
               (BitmapAddressStart sp) (ReservedAreaSize sp) (FreeBitmapAddress sp) (ReservationList sp)
        else sp)
    (vm_slots s) (vm_mem s) (if vm_pcpu s is Some _ then Some true else None) (vm_calls s).

Lemma alloc_started_same s Base Size : same_vm s (alloc_started s Base Size).
Proof. unfold alloc_started, same_vm. by destruct (Base =? NULL). Qed.

Definition clear_pcpu (s : Vm) : Vm :=
  mkVm (vm_space s) (vm_slots s) (vm_mem s) (if vm_pcpu s is Some _ then Some false else None) (vm_calls s).
Lemma clear_pcpu_same s : same_vm s (clear_pcpu s).
Proof. done. Qed.

Lemma VmReservationSpaceAllocRegion_run s Base Size AllocType Rights unc file :
  0 <= Base -> 0 < Size -> Base + Size + 2 * PAGE_SIZE < 2 ^ 64 ->
  IsFlagOn AllocType (Z.lor VMM_ALLOC_TYPE_COMMIT VMM_ALLOC_TYPE_RESERVE) = true ->
  VmReservationSpaceAllocRegion Base Size AllocType Rights unc file s =
  if negb (Base =? NULL) && (Base - Base mod PAGE_SIZE <? StartOfVirtualAddressSpace (vm_space s))
  then Ok ((STATUS_MEMORY_CANNOT_BE_RESERVED, None), s)
  else match alloc_locked (request_base s Base) (request_size Base Size) AllocType Rights unc file
               (alloc_started s Base Size) with
       | Ok (st, s') => Ok ((st, if SUCCEEDED st then Some (request_base s Base, request_size Base Size)
                                 else None), clear_pcpu s')
       | Err e => Err e
       end.
Proof.
  intros Hb Hs Hend Hf. unfold VmReservationSpaceAllocRegion, PAGE_SIZE in Hend |- *. fold PAGE_SIZE.
  assert (Hm : 0 <= Base mod PAGE_SIZE < 4096) by (apply Z.mod_pos_bound; done).
  pose proof (Z.mod_le Base PAGE_SIZE ltac:(lia) ltac:(done)).
  rewrite (bind_run _ _ s tt s) by (apply ASSERT_run; lia).
  rewrite (bind_run _ _ s tt s) by (by apply ASSERT_run).
  rewrite (bind_run _ _ s (vm_space s) s) by done.
  rewrite AlignAddressLower_page by rlia. rewrite (Z.eqb_sym NULL Base).
  unfold request_base, request_size, alloc_started. destruct (Z.eqb_spec Base NULL) as [->|Hne]; cbn [negb andb].
  - rewrite AlignAddressUpper_round_up by (unfold PAGE_SIZE, NULL in *; lia).
    change (NULL mod PAGE_SIZE) with 0. rewrite Z.add_0_r.
    unfold VmReservationSpaceDetermineNextFreeVirtualAddress, mbind, M_bind, gets, set_space, set_pcpu, modify, ret.
    cbn [vm_space vm_pcpu vm_slots vm_mem vm_calls].
    by destruct (alloc_locked _ _ _ _ _ _ _) as [[st s']|e].
  - destruct (Z.ltb_spec (Base - Base mod PAGE_SIZE) (StartOfVirtualAddressSpace (vm_space s))); [done|].
    replace (PtrDiff Base (Base - Base mod PAGE_SIZE)) with (Base mod PAGE_SIZE)
      by (unfold PtrDiff; rewrite i64_small; lia).
    rewrite u64_small by rlia. rewrite AlignAddressUpper_round_up by (unfold PAGE_SIZE in *; lia).
    unfold mbind, M_bind, set_pcpu, modify, ret. cbn [vm_space vm_pcpu vm_slots vm_mem vm_calls].
    by destruct (alloc_locked _ _ _ _ _ _ _) as [[st s']|e].
Qed.

Lemma request_covers Base Size : 0 <= Base -> 0 < Size ->
  Base mod PAGE_SIZE + Size <= request_size Base Size < Base mod PAGE_SIZE + Size + PAGE_SIZE.
Proof.
  intros Hb Hs. unfold request_size, round_up, PAGE_SIZE.
  pose proof (Z.div_mod (Size + Base mod 0x1000 + 0x1000 - 1) 0x1000 ltac:(done)).
  pose proof (Z.mod_pos_bound (Size + Base mod 0x1000 + 0x1000 - 1) 0x1000 ltac:(done)). lia.
Qed.

(** After a reservation that succeeded the same range is found in its new entry. *)
Lemma find_added s k s' k' j r : added s k s' k' j r -> contains r (StartVa r) (Size_ r) = true ->
  find s k (StartVa r) (Size_ r) = None -> find s' k' (StartVa r) (Size_ r) = Some j.
Proof.
  intros (H1 & H2 & H3) Hc Hf. eapply find_unique; [exact H1|done|].
  intros i q Hq Hne. rewrite find_None in Hf. destruct (H3 i q Hq) as [|Hq']; [done|]. by apply (Hf i).
Qed.

(** Both steps under the lock when the range has to be reserved. *)
Lemma alloc_locked_reserve s k a n AllocType Rights unc file :
  wf_vm s k -> region_ok a n -> IsBooleanFlagOn AllocType VMM_ALLOC_TYPE_RESERVE = true ->
  find s k a n = None -> has_room s k -> bitmap_room s n ->
  exists bm j s' k',
    let r := mkVMM_RESERVATION a n Rights VmmReservationStateUsed unc file bm in
    alloc_locked a n AllocType Rights unc file s = Ok (STATUS_SUCCESS, s') /\
    wf_vm s' k' /\ added s k s' k' j r /\
    (forall p, 0 <= p < n / PAGE_SIZE ->
       bit (vm_mem s') bm p = IsBooleanFlagOn AllocType VMM_ALLOC_TYPE_COMMIT) /\
    vm_space s' = new_space (vm_space s) n /\ vm_pcpu s' = vm_pcpu s /\ vm_calls s' = vm_calls s.
Proof.
  intros Hwf Hreg Hres Hf Hroom Hbr.
  destruct (change_reserve a n Rights unc file Hreg s k Hwf Hf Hroom Hbr)
    as (bm & j & s1 & k1 & E & Hwf1 & Hadd & Hz & Hsp & Hpc & Hca).
  unfold alloc_locked. rewrite Hres. rewrite (bind_run _ _ _ _ _ E).
  change (SUCCEEDED STATUS_SUCCESS) with true. cbn [negb].
  destruct (IsBooleanFlagOn AllocType VMM_ALLOC_TYPE_COMMIT) eqn:Ec.
  2: { exists bm, j, s1, k1. by split_and!. }
  set (r := mkVMM_RESERVATION a n Rights VmmReservationStateUsed unc file bm) in *.
  assert (Hcr : contains r a n = true) by (unfold contains; simpl; lia).
  pose proof (find_added s k s1 k1 j r Hadd Hcr Hf) as Hf1. simpl in Hf1.
  destruct (change_commit_spec a n Rights unc file Hreg s1 k1 j r Hwf1 Hf1 (proj1 Hadd))
    as (st & s2 & E2 & H2). simpl in H2. rewrite Z.eqb_refl, Bool.eqb_reflx in H2. simpl in H2.
  destruct H2 as (-> & (m' & ->) & Hwf2 & Hk & Hb). exists bm, j, (with_mem s1 m'), k1.
  split; [exact E2|]. split; [done|]. split; [|split].
  - destruct Hadd as (H1 & H2 & H3). split; [done|]. split; [|done].
    intros i q Hq. destruct (H2 i q Hq) as (Hne & Hq1 & Hk1). split; [done|]. split; [done|].
    intros p Hp. rewrite (Hk i q Hne Hq1 p Hp). by apply Hk1.
  - intros p Hp. simpl. rewrite Hb by lia. rewrite bool_decide_eq_true_2; [done|].
    unfold page_of. simpl. rewrite Z.sub_diag. change (0 / PAGE_SIZE) with 0. lia.
  - done.
Qed.

(** ** Page faults *)

(** What the page-fault handler is told about an address outside the metadata. *)
Definition answer (s : Vm) (k : nat) (a RightsRequested : Z) : option (Z * bool * Z * Z) :=
  i ← find s k a 1;
  r ← vm_slots s !! i;
  if bit (vm_mem s) (CommitBitmap r) (page_of r a) && IsBooleanFlagOn (PageRights r) RightsRequested
  then Some (PageRights r, Uncacheable r, BackingFile r,
             if BackingFile r =? NULL then 0 else page_of r a * PAGE_SIZE)
  else None.

Definition in_metadata (s : Vm) (a : Z) : bool :=
  (ReservationList (vm_space s) <=? a) && (a <? area_end s).

Lemma in_metadata_check s k a : wf_vm s k -> 0 < a < 2 ^ 64 - 1 ->
  CHECK_BOUNDS a 1 (ReservationList (vm_space s)) (ReservedAreaSize (vm_space s)) = in_metadata s a.
Proof.
  intros Hwf Ha. pose proof (w_area _ _ Hwf) as (H1 & H2 & _). pose proof (w_list _ _ Hwf) as [H3 H4].
  unfold SIZEOF_VMM_RESERVATION in H4. unfold CHECK_BOUNDS, in_metadata, area_end in *. unwrap.
  f_equal. lia.
Qed.

Lemma find_Some_iff s k a n i : find s k a n = Some i <->
  (exists r, entry s k i r /\ contains r a n = true) /\
  (forall j q, (j < i)%nat -> entry s k j q -> contains q a n = false).
Proof.
  unfold find, entry, used. generalize (vm_slots s). intros l. revert k i.
  induction l as [|r l IH]; intros k i.
  { rewrite take_nil. simpl. split; [done|]. intros [(r & (_ & [? _]) & _) _]. done. }
  destruct k as [|k]; simpl. { split; [done|]. intros [(x & (? & _) & _) _]. lia. }
  unfold is_used. destruct (bool_decide (State r = VmmReservationStateUsed) && contains r a n) eqn:E.
  - apply andb_true_iff in E as [E1%bool_decide_eq_true E2]. split.
    + intros [= <-]. split; [exists r; split_and!; try done; lia|]. intros; lia.
    + intros [_ Hb]. destruct i as [|i]; [done|].
      rewrite (Hb 0%nat r) in E2; [done|lia|]. split_and!; try done. lia.
  - rewrite fmap_Some. split.
    + intros (i' & Hi' & ->). apply IH in Hi' as [(x & (Hlt & Hx & Hu) & Hc) Hb]. split.
      * exists x. split_and!; try done. lia.
      * intros [|j] q Hj (Hjk & Hq & Hqu).
        { simpl in Hq. simplify_eq. rewrite bool_decide_eq_true_2 in E by done. by simpl in E. }
        apply (Hb j q); [lia|]. split_and!; try done. lia.
    + intros [(x & (Hlt & Hx & Hu) & Hc) Hb]. destruct i as [|i].
      { simpl in Hx. simplify_eq. rewrite bool_decide_eq_true_2, Hc in E by done. done. }
      exists i. split; [|done]. apply IH. split; [exists x; split_and!; try done; lia|].
      intros j q Hj (Hjk & Hq & Hqu). apply (Hb (S j) q); [lia|]. split_and!; try done. lia.
Qed.

Lemma VmReservationCanAddressBeAccessed_run s k a RightsRequested :
  wf_vm s k -> 0 < a < 2 ^ 64 - 1 -> in_metadata s a = false ->
  VmReservationCanAddressBeAccessed a RightsRequested s = Ok (answer s k a RightsRequested, s).
Proof.
  intros Hwf Ha Hm. unfold VmReservationCanAddressBeAccessed, answer.
  rewrite (proj2 (Z.eqb_neq NULL a)) by (unfold NULL; lia).
  rewrite (bind_run _ _ s s s) by done. rewrite (in_metadata_check s k a Hwf Ha), Hm.
  rewrite (bind_run _ _ _ _ _ (_VmFindReservation_run s k a 1 Hwf ltac:(lia) ltac:(lia) ltac:(lia))).
  destruct (find s k a 1) as [i|] eqn:Hf; [|done]. cbv beta iota.
  destruct (find_Some s k a 1 i Hwf Hf) as (r & Hi & Hr & Hok & Hc).
  apply andb_true_iff in Hc as [Hc1%Z.leb_le Hc2%Z.leb_le].
  rewrite (bind_run _ _ _ _ _ (_VmIsVaCommited_run s k i r a Hwf (conj Hi Hr) ltac:(lia))).
  pose proof Hr as [Hsl _]. rewrite (bind_run _ _ _ _ _ (get_slot_run _ _ _ Hsl)).
  cbn [mbind option_bind]. rewrite Hsl. simpl mbind. unfold option_bind.
  destruct Hok as ((H1 & H2 & H3 & H4 & H5 & H6) & _).
  assert (Eoff : AlignAddressLower (PtrDiff a (StartVa r)) PAGE_SIZE = page_of r a * PAGE_SIZE).
  { pose proof (Z.div_mod (Size_ r) PAGE_SIZE ltac:(done)) as Hsz. unfold PAGE_SIZE in Hsz, H4, H6.
    unfold PtrDiff. rewrite i64_small by rlia. rewrite AlignAddressLower_page by rlia.
    unfold page_of. pose proof (Z.div_mod (a - StartVa r) PAGE_SIZE ltac:(done)). lia. }
  rewrite Eoff. destruct (BackingFile r =? NULL); cbn [negb];
    by destruct (bit _ _ _ && _).
Qed.

(** The answer to the page-fault handler, the metadata area included. *)
Definition fault_answer (s : Vm) (k : nat) (a RightsRequested : Z) : option (Z * bool * Z * Z) :=
  if in_metadata s a then
    (if (if vm_pcpu s is Some access then access else true) &&
        negb (IsBooleanFlagOn RightsRequested PAGE_RIGHTS_EXECUTE)
     then Some (PAGE_RIGHTS_READWRITE, false, NULL, 0) else None)
  else answer s k a RightsRequested.

Lemma can_access_run s k a RightsRequested : wf_vm s k -> 0 < a < 2 ^ 64 - 1 ->
  VmReservationCanAddressBeAccessed a RightsRequested s = Ok (fault_answer s k a RightsRequested, s).
Proof.
  intros Hwf Ha. unfold fault_answer. destruct (in_metadata s a) eqn:Hm.
  - unfold VmReservationCanAddressBeAccessed. rewrite (proj2 (Z.eqb_neq NULL a)) by (unfold NULL; lia).
    rewrite (bind_run _ _ s s s) by done. rewrite (in_metadata_check s k a Hwf Ha), Hm.
    destruct (if vm_pcpu s is Some access then access else true); [|done].
    by destruct (IsBooleanFlagOn RightsRequested PAGE_RIGHTS_EXECUTE).
  - by rewrite (VmReservationCanAddressBeAccessed_run s k).
Qed.

Lemma contains_region r a : contains r a 1 = true -> StartVa r <= a < StartVa r + Size_ r.
Proof. unfold contains. lia. Qed.

(** Adding a reservation that does not contain the address changes no answer. *)
Lemma answer_added_other s k s' k' j r a RightsRequested : wf_vm s k ->
  added s k s' k' j r -> contains r a 1 = false ->
  answer s' k' a RightsRequested = answer s k a RightsRequested.
Proof.
  intros Hwf (H1 & H2 & H3) Hc. unfold answer. destruct (find s k a 1) as [i|] eqn:Hf.
  - apply find_Some_iff in Hf as [(x & Hx & Hcx) Hb]. destruct (H2 i x Hx) as (Hne & Hx' & Hk).
    rewrite (proj2 (find_Some_iff s' k' a 1 i)).
    + simpl. destruct Hx as (Hi & Hx & Hxu), Hx' as (_ & Hx' & _). rewrite Hx, Hx'. simpl.
      destruct (w_used _ _ Hwf i x Hi (conj Hx Hxu)) as (Hreg & _ & Hbc & _).
      apply contains_region in Hcx. destruct (page_index_in a _ _ Hreg Hcx) as [_ Hp].
      rewrite Hk; [done|]. by rewrite Hbc.
    + split; [by exists x|]. intros i' q Hlt Hq. destruct (H3 i' q Hq) as [->|Hq']; [|by apply (Hb i')].
      assert (q = r) as -> by (destruct Hq as (_ & Hq & _), H1 as (_ & H1 & _); congruence). done.
  - rewrite (proj2 (find_None s' k' a 1)); [done|]. rewrite find_None in Hf. intros i q Hq.
    destruct (H3 i q Hq) as [->|Hq']; [|by apply (Hf i)].
    assert (q = r) as -> by (destruct Hq as (_ & Hq & _), H1 as (_ & H1 & _); congruence). done.
Qed.

(** The ranges overlap no reservation. *)
Definition overlaps_none (s : Vm) (k : nat) (a n : Z) : Prop :=
  forall i q, entry s k i q -> a + n <= StartVa q \/ StartVa q + Size_ q <= a.

Lemma overlaps_none_find s k a n b m : wf_vm s k -> overlaps_none s k a n -> a <= b -> b + m <= a + n -> 0 < m ->
  find s k b m = None.
Proof.
  intros Hwf Hno Hb Hm Hm0. apply find_None. intros i q Hq. pose proof (Hno i q Hq).
  destruct Hq as [Hi Hq]. destruct (w_used _ _ Hwf i q Hi Hq) as ((_ & _ & ? & _) & _).
  unfold contains. lia.
Qed.

Lemma answer_added_in s k s' k' j r a RightsRequested : wf_vm s k -> added s k s' k' j r ->
  overlaps_none s k (StartVa r) (Size_ r) -> contains r a 1 = true ->
  answer s' k' a RightsRequested =
  if bit (vm_mem s') (CommitBitmap r) (page_of r a) && IsBooleanFlagOn (PageRights r) RightsRequested
  then Some (PageRights r, Uncacheable r, BackingFile r,
             if BackingFile r =? NULL then 0 else page_of r a * PAGE_SIZE)
  else None.
Proof.
  intros Hwf (H1 & H2 & H3) Hno Hc. pose proof (contains_region r a Hc) as Hca.
  unfold answer. rewrite (find_unique s' k' j r a 1 H1 Hc).
  - simpl. destruct H1 as (_ & H1 & _). by rewrite H1.
  - intros i q Hq Hne. destruct (H3 i q Hq) as [|Hq']; [done|].
    pose proof (overlaps_none_find s k _ _ a 1 Hwf Hno ltac:(lia) ltac:(lia) ltac:(lia)) as Hf.
    rewrite find_None in Hf. by apply (Hf i).
Qed.

(** ** The other operations *)

Lemma flag_cases AllocType :
  IsFlagOn AllocType (Z.lor VMM_ALLOC_TYPE_COMMIT VMM_ALLOC_TYPE_RESERVE) = true ->
  IsBooleanFlagOn AllocType VMM_ALLOC_TYPE_RESERVE = false ->
  IsBooleanFlagOn AllocType VMM_ALLOC_TYPE_COMMIT = true.
Proof.
  unfold IsFlagOn, IsBooleanFlagOn. intros H1%negb_true_iff%Z.eqb_neq H2%Z.eqb_neq. apply Z.eqb_eq.
  change (Z.lor VMM_ALLOC_TYPE_COMMIT VMM_ALLOC_TYPE_RESERVE) with 3 in H1.
  assert (Hb : forall i, 2 <= i -> Z.testbit 3 i = false) by (intros; apply Z.bits_above_log2; simpl; lia).
  assert (Hb1 : forall i, 1 <= i -> Z.testbit 1 i = false) by (intros; apply Z.bits_above_log2; simpl; lia).
  assert (Hb2 : forall i, 2 <= i -> Z.testbit 2 i = false) by (intros; apply Z.bits_above_log2; simpl; lia).
  destruct (Z.testbit AllocType 0) eqn:E0.
  { destruct H2. symmetry. apply Z.bits_inj'. intros i Hi. rewrite Z.land_spec.
    destruct (Z.eq_dec i 0) as [->|]; [by rewrite E0|]. unfold VMM_ALLOC_TYPE_RESERVE.
    rewrite Hb1 by lia. by rewrite andb_false_r. }
  destruct (Z.testbit AllocType 1) eqn:E1.
  - apply Z.bits_inj'. intros i Hi. rewrite Z.land_spec. unfold VMM_ALLOC_TYPE_COMMIT.
    destruct (Z.eq_dec i 0) as [->|]; [by rewrite andb_false_r|].
    destruct (Z.eq_dec i 1) as [->|]; [by rewrite E1|]. rewrite Hb2 by lia. by rewrite andb_false_r.
  - destruct H1. symmetry. apply Z.bits_inj'. intros i Hi. rewrite Z.land_spec, Z.bits_0.
    destruct (Z.eq_dec i 0) as [->|]; [by rewrite E0|].
    destruct (Z.eq_dec i 1) as [->|]; [by rewrite E1|]. rewrite Hb by lia. by rewrite andb_false_r.
Qed.

(** Clearing entry [i] removes its reservation and nothing else. *)
Lemma wf_vm_clear s k i r0 st : wf_vm s k -> (i < k)%nat -> State r0 = VmmReservationStateFree ->
  vm_space st = vm_space s -> vm_mem st = vm_mem s -> vm_slots st = <[i := r0]> (vm_slots s) ->
  wf_vm st k /\ (forall j q, entry st k j q <-> j <> i /\ entry s k j q).
Proof.
  intros Hwf Hi Hfree Esp Emem Esl. pose proof (wf_vm_lt s k Hwf) as Hk.
  assert (Hent : forall j q, entry st k j q <-> j <> i /\ entry s k j q).
  { intros j q. unfold entry, used. rewrite Esl. destruct (decide (j = i)) as [->|Hne].
    - rewrite list_lookup_insert_eq by lia. split; [|by intros [? _]]. intros (_ & ? & ?). simplify_eq. congruence.
    - rewrite list_lookup_insert_ne by done. by split; [|intros [_ ?]]. }
  split; [|exact Hent]. split; rewrite ?Esp, ?Emem.
  - destruct (w_last _ _ Hwf) as (x & Hx & Hl). exists x. rewrite Esl, list_lookup_insert_ne by lia. done.
  - intros j x Hj. rewrite Esl. destruct (decide (j = i)) as [->|].
    + rewrite list_lookup_insert_eq by lia. intros. simplify_eq. congruence.
    + rewrite list_lookup_insert_ne by done. by apply (w_before _ _ Hwf).
  - rewrite Esl, length_insert. apply (w_list _ _ Hwf).
  - unfold area_end. rewrite Esp. apply (w_area _ _ Hwf).
  - unfold area_end. rewrite Esp. apply (w_mapped _ _ Hwf).
  - intros j q Hj Hq. destruct (proj1 (Hent j q) (conj Hj Hq)) as [_ [_ Hq']].
    pose proof (w_used _ _ Hwf j q Hj Hq'). unfold res_ok in *. by rewrite Esp, Emem.
  - intros j j' q q' Hne Hj Hj' Hq Hq'. destruct (proj1 (Hent j q) (conj Hj Hq)) as [_ [_ Hq1]].
    destruct (proj1 (Hent j' q') (conj Hj' Hq')) as [_ [_ Hq2]]. by apply (w_disjoint _ _ Hwf j j').
Qed.

(** Are the pages probed from offset [i] on committed? *)
Definition probes_from (s : Vm) (r : VMM_RESERVATION) (a n i : Z) : Prop :=
  forall j, 0 <= j -> i + j * PAGE_SIZE < n ->
    bit (vm_mem s) (CommitBitmap r) (page_of r (a + (i + j * PAGE_SIZE))) = true.

Lemma committed_loop_run s k slot r a n : wf_vm s k -> entry s k slot r -> 0 < a -> 0 < n ->
  contains r a n = true -> forall fuel i, 0 <= i -> (Z.to_nat ((n - i + PAGE_SIZE - 1) / PAGE_SIZE) < fuel)%nat ->
  exists b, committed_loop fuel i a n slot s = Ok (b, s) /\ (b = true <-> probes_from s r a n i).
Proof.
  intros Hwf Hent Ha Hn Hc. apply andb_true_iff in Hc as [Hc1%Z.leb_le Hc2%Z.leb_le].
  pose proof Hent as [Hsl Hu]. destruct (w_used _ _ Hwf slot r Hsl Hu) as ((H1 & _ & _ & H4 & H5 & H6) & _).
  assert (Hn64 : n + PAGE_SIZE < 2 ^ 64).
  { pose proof (Z.div_mod (Size_ r) PAGE_SIZE ltac:(done)). unfold PAGE_SIZE in *. rlia. }
  induction fuel as [|fuel IH]; intros i Hi Hf; [lia|]. cbn [committed_loop].
  destruct (Z.ltb_spec i n).
  2: { exists true. split; [done|]. split; [|done]. intros _ j Hj Hlt. unfold PAGE_SIZE in Hlt. lia. }
  assert (Eo : PtrOffset a i = a + i) by (unfold PtrOffset; unwrap; done). rewrite Eo.
  rewrite (bind_run _ _ _ _ _ (_VmIsVaCommited_run s k slot r (a + i) Hwf Hent ltac:(lia))).
  destruct (bit (vm_mem s) (CommitBitmap r) (page_of r (a + i))) eqn:Eb; cbn [negb].
  - rewrite (u64_small (i + PAGE_SIZE)) by (unfold PAGE_SIZE in *; rlia).
    destruct (IH (i + PAGE_SIZE)) as (b & -> & Hb); [unfold PAGE_SIZE; lia| |].
    { replace (n - i + PAGE_SIZE - 1) with (n - (i + PAGE_SIZE) + PAGE_SIZE - 1 + 1 * PAGE_SIZE) in Hf by lia.
      rewrite Z.div_add in Hf by done. pose proof (Z.div_pos (n - i - 1) PAGE_SIZE ltac:(lia) ltac:(done)).
      replace (n - (i + PAGE_SIZE) + PAGE_SIZE - 1) with (n - i - 1) in * by lia. lia. }
    exists b. split; [done|]. rewrite Hb. unfold probes_from. split.
    + intros H' j Hj Hlt. destruct (Z.eq_dec j 0) as [->|]; [by rewrite Z.mul_0_l, Z.add_0_r|].
      specialize (H' (j - 1) ltac:(lia)). replace (i + PAGE_SIZE + (j - 1) * PAGE_SIZE) with (i + j * PAGE_SIZE) in H' by lia.
      by apply H'.
    + intros H' j Hj Hlt. specialize (H' (j + 1) ltac:(lia)).
      replace (i + (j + 1) * PAGE_SIZE) with (i + PAGE_SIZE + j * PAGE_SIZE) in H' by lia. by apply H'.
  - exists false. split; [done|]. split; [done|]. intros H'. specialize (H' 0 ltac:(lia)).
    rewrite Z.mul_0_l, Z.add_0_r in H'. rewrite H' in Eb by done. done.
Qed.

(** * Theorems *)

(** VmReservationSpaceInit and VmReservationSpaceFinishInit, on a page-aligned metadata area
    whose fifth is page aligned too and holds the array of entries, build a well-formed
    space without reservations, whose addresses start at ReservationBaseAddress or, if
    that is NULL, after the metadata. *)
Theorem vm_init_well_formed s Metadata Base Size :
  0 < Metadata -> Metadata mod PAGE_SIZE = 0 -> 0 < Size -> Size mod (5 * PAGE_SIZE) = 0 ->
  Size <= MAX_QWORD / RESERVATION_LIST_PERCENTAGE_IN_HUNDREDS -> Metadata + Size < 2 ^ 64 ->
  vm_slots s <> [] -> Z.of_nat (length (vm_slots s)) * SIZEOF_VMM_RESERVATION <= Size / 5 ->
  mapped (vm_mem s) (Metadata + Size / 5) (Size - Size / 5) ->
  wp (_ ← VmReservationSpaceInit Metadata Base Size; VmReservationSpaceFinishInit) (fun _ s' =>
    wf_vm s' 0 /\ (forall i r, ~ entry s' 0 i r) /\
    FreeVirtualAddressPointer (vm_space s') = (if Base =? NULL then Metadata + Size else Base) /\
    StartOfVirtualAddressSpace (vm_space s') = FreeVirtualAddressPointer (vm_space s') /\
    vm_mem s' = vm_mem s) s.
Proof.
  intros Hm Ham Hs H5 Hq Hend Hne Hfit Hmap.
  assert (H5' : Size = 5 * PAGE_SIZE * (Size / (5 * PAGE_SIZE))).
  { pose proof (Z.div_mod Size (5 * PAGE_SIZE) ltac:(done)). lia. }
  set (q := Size / (5 * PAGE_SIZE)) in *. assert (E5 : Size / 5 = q * PAGE_SIZE).
  { rewrite H5'. replace (5 * PAGE_SIZE * q) with (q * PAGE_SIZE * 5) by lia. apply Z.div_mul. lia. }
  assert (Hq2 : Size * 2000 <= MAX_QWORD).
  { unfold RESERVATION_LIST_PERCENTAGE_IN_HUNDREDS in Hq. change (20 * 100) with 2000 in Hq. pose proof (Z.mul_div_le MAX_QWORD 2000 ltac:(lia)). lia. }
  assert (Epc : CalculatePercentage Size RESERVATION_LIST_PERCENTAGE_IN_HUNDREDS = Ok (Size / 5)).
  { unfold CalculatePercentage. rewrite (proj2 (Z.leb_le _ 10000)) by done. cbn [assert_ mbind outcome_bind].
    rewrite (proj2 (Z.leb_le Size _)) by done. cbn. unfold RESERVATION_LIST_PERCENTAGE_IN_HUNDREDS.
    rewrite u64_small by rlia. f_equal. change (20 * 100) with 2000.
    replace 10000 with (5 * 2000) by lia. by rewrite Z.div_mul_cancel_r. }
  assert (Hq0 : 0 < q) by (unfold PAGE_SIZE in H5'; lia). unfold PAGE_SIZE in E5.
  assert (H15 : 0 <= Size / 5 <= Size) by (unfold PAGE_SIZE in H5'; lia).
  unfold VmReservationSpaceInit. destruct (vm_slots s) as [|r l] eqn:El; [done|].
  wp_step. wp_step. wp_step; [unfold NULL; lia|]. wp_step. wp_step; [rewrite page_aligned_vm by rlia; lia|].
  wp_step. wp_step; [lia|]. rewrite Epc. wp_step. apply wp_lift. cbn [owp]. cbv zeta.
  unfold set_space. wp_step. unfold VmReservationSpaceFinishInit.
  eapply wp_run_bind; [apply get_slot_run; simpl; rewrite El; reflexivity|].
  eapply wp_run; [apply put_slot_run; simpl; rewrite El; simpl; lia|]. simpl vm_slots. rewrite El.
  assert (Eo : PtrOffset Metadata (Size / 5) = Metadata + Size / 5) by (unfold PtrOffset; unwrap; done).
  assert (Eo2 : PtrOffset Metadata Size = Metadata + Size) by (unfold PtrOffset; unwrap; done).
  rewrite Eo, Eo2. split.
  - split; simpl; unfold area_end; simpl; try (intros; lia).
    + by eexists.
    + unfold SIZEOF_VMM_RESERVATION in *. simpl in Hfit. lia.
    + split; [lia|]. split; [lia|]. rewrite E5. fold PAGE_SIZE. by rewrite Z.mod_add.
    + replace (Metadata + Size - (Metadata + Size / 5)) with (Size - Size / 5) by lia. done.
  - split; [intros i x [? _]; lia|]. by destruct (Base =? NULL).
Qed.

(** For an address outside the metadata area, VmReservationCanAddressBeAccessed returns without
    a fault or failed assertion and without changing the space; the answer is TRUE exactly if
    the first reservation that contains the address has its page committed and
    includes the rights requested, and it then reports that reservation's rights, cacheability
    and file and the page's offset in the file.  In the metadata area the answer is TRUE
    exactly for a processor that declared the access and does not execute. *)
Theorem vm_page_fault_answer s k a RightsRequested : wf_vm s k -> 0 < a < 2 ^ 64 - 1 ->
  VmReservationCanAddressBeAccessed a RightsRequested s =
  Ok (if in_metadata s a then
        (if (if vm_pcpu s is Some access then access else true) &&
            negb (IsBooleanFlagOn RightsRequested PAGE_RIGHTS_EXECUTE)
         then Some (PAGE_RIGHTS_READWRITE, false, NULL, 0) else None)
      else answer s k a RightsRequested, s).
Proof. apply can_access_run. Qed.

(** C10: Reserving a range, with or without committing it, that overlaps no reservation succeeds when
    there is a free entry and room for its commit bitmap; the range returned is page
    aligned and covers the request; the space stays well formed.  Afterwards a page fault at an
    address of the range is solvable exactly if it was committed and asks for rights
    the reservation has, and every other page fault is answered as before. *)
Theorem vm_alloc_then_access s k Base Size AllocType Rights unc file :
  let p := request_base s Base in let n := request_size Base Size in
  wf_vm s k -> 0 <= Base -> 0 < Size -> Base + Size + 2 * PAGE_SIZE < 2 ^ 64 ->
  IsBooleanFlagOn AllocType VMM_ALLOC_TYPE_RESERVE = true ->
  (Base <> NULL -> StartOfVirtualAddressSpace (vm_space s) <= p) ->
  region_ok p n -> overlaps_none s k p n -> has_room s k -> bitmap_room s n ->
  exists s' k', VmReservationSpaceAllocRegion Base Size AllocType Rights unc file s =
      Ok ((STATUS_SUCCESS, Some (p, n)), s') /\
    wf_vm s' k' /\
    (Base <> NULL -> p <= Base /\ Base + Size <= p + n) /\ (Base = NULL -> Size <= n) /\
    (forall a RightsRequested, 0 < a < 2 ^ 64 - 1 -> in_metadata s a = false ->
      VmReservationCanAddressBeAccessed a RightsRequested s' =
      Ok (if bool_decide (p <= a < p + n) then
            if IsBooleanFlagOn AllocType VMM_ALLOC_TYPE_COMMIT && IsBooleanFlagOn Rights RightsRequested
            then Some (Rights, unc, file, if file =? NULL then 0 else (a - p) / PAGE_SIZE * PAGE_SIZE)
            else None
          else answer s k a RightsRequested, s')).
Proof.
  intros p n Hwf Hb Hs Hend Hres Hst Hreg Hno Hroom Hbr.
  pose proof (request_covers Base Size Hb Hs) as Hcov. fold n in Hcov.
  assert (Hm : 0 <= Base mod PAGE_SIZE < 4096) by (apply Z.mod_pos_bound; done).
  rewrite VmReservationSpaceAllocRegion_run; try done.
  2: { unfold IsFlagOn, IsBooleanFlagOn in *. apply Z.eqb_eq in Hres. apply negb_true_iff, Z.eqb_neq.
       intros E. apply (f_equal (fun x => Z.testbit x 0)) in E. apply (f_equal (fun x => Z.testbit x 0)) in Hres.
       cbv beta in E, Hres. rewrite Z.land_spec in E, Hres. cbv beta in E, Hres. by destruct (Z.testbit AllocType 0). }
  assert (Hguard : negb (Base =? NULL) && (Base - Base mod PAGE_SIZE <? StartOfVirtualAddressSpace (vm_space s)) = false).
  { unfold p, request_base in Hst. destruct (Z.eqb_spec Base NULL); [done|]. simpl. specialize (Hst ltac:(done)). lia. }
  rewrite Hguard. set (s0 := alloc_started s Base Size).
  assert (Hsame : same_vm s s0) by apply alloc_started_same.
  pose proof (wf_vm_same _ _ _ Hsame Hwf) as Hwf0.
  assert (Hno0 : find s0 k p n = None).
  { rewrite (find_same _ _ _ _ _ Hsame). eapply overlaps_none_find; [done|exact Hno|lia|lia|]. apply Hreg. }
  assert (Hroom0 : has_room s0 k) by (unfold has_room; destruct Hsame as (-> & _); exact Hroom).
  assert (Hbr0 : bitmap_room s0 n).
  { unfold bitmap_room, area_end in *. destruct Hsame as (_ & _ & _ & -> & -> & ->). exact Hbr. }
  destruct (alloc_locked_reserve s0 k p n AllocType Rights unc file Hwf0 Hreg Hres Hno0 Hroom0 Hbr0)
    as (bm & j & s1 & k1 & E & Hwf1 & Hadd & Hbits & Hsp & _).
  fold p n. rewrite E. set (r := mkVMM_RESERVATION _ _ _ _ _ _ _) in Hadd.
  pose proof (added_same s (clear_pcpu s1) s0 k s1 k1 j r (same_vm_sym _ _ Hsame) (clear_pcpu_same s1) Hadd) as Hadd'.
  pose proof (wf_vm_same _ _ _ (clear_pcpu_same s1) Hwf1) as Hwf2.
  exists (clear_pcpu s1), k1. split; [done|]. split; [done|]. split; [|split].
  - intros Hne. unfold p, request_base. rewrite (proj2 (Z.eqb_neq Base NULL)) by done. lia.
  - intros ->. change (NULL mod PAGE_SIZE) with 0 in Hcov. lia.
  - intros a rr Ha Hmeta. rewrite (VmReservationCanAddressBeAccessed_run _ k1); [|done|done|].
    2: { unfold in_metadata, area_end, clear_pcpu in *. cbn [vm_space]. rewrite Hsp.
         cbn [new_space ReservationList ReservedAreaSize]. destruct Hsame as (_ & _ & _ & -> & _ & ->). exact Hmeta. }
    case_bool_decide as Hin.
    + rewrite (answer_added_in s k _ k1 j r a rr Hwf Hadd' Hno) by (unfold contains; simpl; lia). simpl.
      unfold page_of. simpl. rewrite Hbits; [done|]. by apply (page_index_in a p n).
    + rewrite (answer_added_other s k _ k1 j r a rr Hwf Hadd'); [done|]. unfold contains. simpl. lia.
Qed.

(** When the requested range lies in a reservation, or is to be committed only, every outcome of
    VmReservationSpaceAllocRegion is determined: reserving it again is refused with
    STATUS_MEMORY_ALREADY_RESERVED, committing it without a reservation with
    STATUS_MEMORY_IS_NOT_RESERVED, with other rights or cacheability with the conflicting statuses, all
    without changing a reservation; otherwise exactly the pages of the range become committed. *)
Theorem vm_alloc_existing s k Base Size AllocType Rights unc file :
  let p := request_base s Base in let n := request_size Base Size in
  let reserve := IsBooleanFlagOn AllocType VMM_ALLOC_TYPE_RESERVE in
  wf_vm s k -> 0 <= Base -> 0 < Size -> Base + Size + 2 * PAGE_SIZE < 2 ^ 64 ->
  IsFlagOn AllocType (Z.lor VMM_ALLOC_TYPE_COMMIT VMM_ALLOC_TYPE_RESERVE) = true ->
  (Base <> NULL -> StartOfVirtualAddressSpace (vm_space s) <= p) -> region_ok p n ->
  (find s k p n = None -> reserve = false) ->
  exists st out s', VmReservationSpaceAllocRegion Base Size AllocType Rights unc file s = Ok ((st, out), s') /\
    wf_vm s' k /\ vm_slots s' = vm_slots s /\
    match find s k p n with
    | None => st = STATUS_MEMORY_IS_NOT_RESERVED /\ out = None /\ vm_mem s' = vm_mem s
    | Some i => exists r, entry s k i r /\ contains r p n = true /\
        if reserve then st = STATUS_MEMORY_ALREADY_RESERVED /\ out = None /\ vm_mem s' = vm_mem s
        else if negb (PageRights r =? Rights)
        then st = STATUS_MEMORY_CONFLICTING_ACCESS_RIGHTS /\ out = None /\ vm_mem s' = vm_mem s
        else if negb (Bool.eqb (Uncacheable r) unc)
        then st = STATUS_MEMORY_CONFLICTING_CACHEABILITY /\ out = None /\ vm_mem s' = vm_mem s
        else st = STATUS_SUCCESS /\ out = Some (p, n) /\
          (forall j q, j <> i -> entry s k j q -> bits_kept s s' q) /\
          (forall page, 0 <= page -> bit (vm_mem s') (CommitBitmap r) page =
             if bool_decide (page_of r p <= page < page_of r p + n / PAGE_SIZE) then true
             else bit (vm_mem s) (CommitBitmap r) page)
    end.
Proof.
  intros p n reserve Hwf Hb Hs Hend Hfl Hst Hreg Hnone.
  rewrite VmReservationSpaceAllocRegion_run by done.
  assert (Hguard : negb (Base =? NULL) && (Base - Base mod PAGE_SIZE <? StartOfVirtualAddressSpace (vm_space s)) = false).
  { unfold p, request_base in Hst. destruct (Z.eqb_spec Base NULL); [done|]. simpl. specialize (Hst ltac:(done)). lia. }
  rewrite Hguard. set (s0 := alloc_started s Base Size). fold p n.
  assert (Hsame : same_vm s s0) by apply alloc_started_same.
  pose proof (wf_vm_same _ _ _ Hsame Hwf) as Hwf0. pose proof (find_same s s0 k p n Hsame) as Hf0.
  assert (Hdone : wf_vm (clear_pcpu s0) k /\ vm_slots (clear_pcpu s0) = vm_slots s /\
    vm_mem (clear_pcpu s0) = vm_mem s).
  { destruct Hsame as (? & ? & _). split; [|done]. eapply (wf_vm_same s0); [by apply clear_pcpu_same|done]. }
  unfold alloc_locked. fold reserve. destruct reserve eqn:Er; subst reserve.
  - pose proof (change_prefix p n Rights unc file Hreg VMM_ALLOC_TYPE_RESERVE s0 k Hwf0 eq_refl) as Ech.
    rewrite Hf0 in Ech. destruct (find s k p n) as [i|] eqn:Hf; [|by specialize (Hnone eq_refl)].
    change (VMM_ALLOC_TYPE_RESERVE =? VMM_ALLOC_TYPE_RESERVE) with true in Ech. cbv iota in Ech.
    rewrite (bind_run _ _ _ _ _ Ech). change (SUCCEEDED STATUS_MEMORY_ALREADY_RESERVED) with false. cbn [negb].
    eexists _, _, _. split; [reflexivity|].
    destruct Hdone as (H1 & H2 & H3).
    split; [done|]. split; [done|].
    destruct (find_Some s k p n i Hwf Hf) as (r & Hi & Hu & _ & Hc). exists r.
    split; [by split|]. done.
  - rewrite (bind_run _ _ s0 STATUS_SUCCESS s0) by done. change (SUCCEEDED STATUS_SUCCESS) with true. cbn [negb].
    rewrite (flag_cases AllocType Hfl Er). destruct (find s k p n) as [i|] eqn:Hf.
    + destruct (find_Some s k p n i Hwf Hf) as (r & Hi & Hu & _ & Hc).
      assert (Hent0 : entry s0 k i r) by (apply (entry_same _ _ _ _ _ Hsame); by split).
      destruct (change_commit_spec p n Rights unc file Hreg s0 k i r Hwf0 Hf0 Hent0) as (st & s1 & E & H1).
      rewrite E. destruct (PageRights r =? Rights) eqn:E1; cbn [negb andb] in *.
      2: { destruct H1 as [-> ->]. eexists _, _, _. split; [reflexivity|].
           destruct Hdone as (H1 & H2 & H3).
           split; [done|]. split; [done|]. exists r. split; [by split|]. split; [done|]. by rewrite ?E1. }
      destruct (Bool.eqb (Uncacheable r) unc) eqn:E2; cbn [negb] in *.
      2: { destruct H1 as [-> ->]. eexists _, _, _. split; [reflexivity|].
           destruct Hdone as (H1 & H2 & H3).
           split; [done|]. split; [done|]. exists r. split; [by split|]. split; [done|]. by rewrite ?E1, ?E2. }
      destruct H1 as (-> & (m' & ->) & Hwf1 & Hk & Hbits). eexists _, _, _. split; [reflexivity|].
      split; [by apply (wf_vm_same (with_mem s0 m'))|]. split; [apply Hsame|].
      exists r. split; [by split|]. split; [done|]. rewrite ?E1, ?E2. cbn [negb]. split; [done|]. split; [done|].
      split; [|exact Hbits]. intros j q Hne Hq. apply (Hk j q Hne). by apply (entry_same s).
    + pose proof (change_prefix p n Rights unc file Hreg VMM_ALLOC_TYPE_COMMIT s0 k Hwf0 eq_refl) as Ech.
      rewrite Hf0 in Ech. change (VMM_ALLOC_TYPE_COMMIT =? VMM_ALLOC_TYPE_RESERVE) with false in Ech.
      cbv iota in Ech. rewrite Ech. eexists _, _, _. split; [reflexivity|].
      destruct Hdone as (H1 & H2 & H3). done.
Qed.

(** Releasing at any address of a reservation removes exactly the first reservation that contains it,
    returns its whole range, unmaps its bitmap buffer and closes its file if it has one; the
    other reservations and their commit bits stay.  Releasing an address without a
    reservation stops in an assertion. *)
Theorem vm_release_region s k a : wf_vm s k -> 0 < a < 2 ^ 64 - 1 ->
  match find s k a 1 with
  | None => VmReservationSpaceFreeRegion a 0 VMM_FREE_TYPE_RELEASE s = Err AssertFailed
  | Some i => exists r s', entry s k i r /\
      VmReservationSpaceFreeRegion a 0 VMM_FREE_TYPE_RELEASE s = Ok ((StartVa r, Size_ r), s') /\
      wf_vm s' k /\ (forall j q, entry s' k j q <-> j <> i /\ entry s k j q) /\
      vm_mem s' = vm_mem s /\
      vm_calls s' = vm_calls s ++
        MmuUnmapMemoryEx (BitmapBuffer (CommitBitmap r)) (BufferSize (CommitBitmap r)) ::
        (if BackingFile r =? NULL then [] else [IoCloseFile (BackingFile r)])
  end.
Proof.
  intros Hwf Ha. unfold VmReservationSpaceFreeRegion. cbv zeta.
  set (s0 := mkVm (vm_space s) (vm_slots s) (vm_mem s) (if vm_pcpu s is Some _ then Some true else None) (vm_calls s)).
  assert (Hwf0 : wf_vm s0 k) by (by apply (wf_vm_same s)).
  rewrite (bind_run _ _ s tt s) by (apply ASSERT_run; unfold NULL; lia).
  rewrite (bind_run _ _ s tt s) by done. rewrite (bind_run _ _ s tt s) by done.
  rewrite (bind_run _ _ s tt s0) by done.
  rewrite (bind_run _ _ _ _ _ (_VmFindReservation_run s0 k a 1 Hwf0 ltac:(lia) ltac:(lia) ltac:(lia))).
  change (find s0 k a 1) with (find s k a 1).
  destruct (find s k a 1) as [i|] eqn:Hf; [|done]. cbv beta iota.
  destruct (find_Some s k a 1 i Hwf Hf) as (r & Hi & Hu & Hok & _). exists r.
  change (IsBooleanFlagOn VMM_FREE_TYPE_RELEASE VMM_FREE_TYPE_RELEASE) with true. cbv iota.
  pose proof Hu as [Hsl _]. pose proof (lookup_lt_Some _ _ _ Hsl).
  destruct Hok as (_ & Hwb & _ & Hb1 & Hb2 & Hal). pose proof (w_area _ _ Hwf) as (? & ? & _).
  pose proof (w_list _ _ Hwf) as [? ?]. unfold SIZEOF_VMM_RESERVATION in *.
  pose proof (wf_bitmap_size _ _ Hwb). pose proof (proj1 (proj2 Hwb)).
  set (cleared := mkVMM_RESERVATION 0 0 0 VmmReservationStateFree false 0 (mkBITMAP 0 0 0)).
  set (s2 := mkVm (vm_space s) (<[i := cleared]> (vm_slots s)) (vm_mem s) (if vm_pcpu s is Some _ then Some false else None)
    (vm_calls s ++ MmuUnmapMemoryEx (BitmapBuffer (CommitBitmap r)) (BufferSize (CommitBitmap r)) ::
      (if BackingFile r =? NULL then [] else [IoCloseFile (BackingFile r)]))).
  destruct (wf_vm_clear s k i cleared s2 Hwf Hi eq_refl eq_refl eq_refl eq_refl) as [Hwf2 Hent].
  exists s2. split; [by split|]. split; [|split; [done|split; [exact Hent|done]]].
  erewrite bind_run.
  2: { rewrite (bind_run _ _ _ _ _ (get_slot_run s0 i r Hsl)).
       rewrite (bind_run _ _ _ _ _ (put_slot_run s0 i _ ltac:(done))).
       unfold _VmUninitializeReservation. cbv zeta.
       erewrite bind_run; [reflexivity|].
       erewrite bind_run by (apply ASSERT_run; rewrite page_aligned_vm, Hal by rlia; done).
       erewrite bind_run by reflexivity.
       instantiate (1 := mkVm (vm_space s) (<[i := cleared]> (vm_slots s)) (vm_mem s)
         (if vm_pcpu s is Some _ then Some true else None)
         (vm_calls s ++ MmuUnmapMemoryEx (BitmapBuffer (CommitBitmap r)) (BufferSize (CommitBitmap r)) ::
           (if BackingFile r =? NULL then [] else [IoCloseFile (BackingFile r)]))).
       destruct (BackingFile r =? NULL); cbn [negb]; [done|]. unfold call, modify. simpl.
       by rewrite <- app_assoc. }
  unfold s2. cbn. by destruct (vm_pcpu s).
Qed.

(** Decommitting a range inside a reservation clears the commit bits of exactly the pages that the range
    touches, and returns the page-aligned range; a page fault there is not solvable any more and
    the other reservations keep their bits. *)
Theorem vm_decommit_region s k i r a n : wf_vm s k -> find s k a 1 = Some i -> entry s k i r ->
  let p := a - a mod PAGE_SIZE in let len := request_size a n in
  0 < a -> 0 < n -> a + n + 2 * PAGE_SIZE < 2 ^ 64 -> region_ok p len -> contains r p len = true ->
  exists s', VmReservationSpaceFreeRegion a n VMM_FREE_TYPE_DECOMMIT s = Ok ((p, len), s') /\
    wf_vm s' k /\ vm_slots s' = vm_slots s /\
    (forall j q, j <> i -> entry s k j q -> bits_kept s s' q) /\
    (forall page, 0 <= page -> bit (vm_mem s') (CommitBitmap r) page =
       if bool_decide (page_of r p <= page < page_of r p + len / PAGE_SIZE) then false
       else bit (vm_mem s) (CommitBitmap r) page).
Proof.
  intros Hwf Hf Hent p len Ha Hn Hend Hreg Hc. unfold VmReservationSpaceFreeRegion. cbv zeta.
  set (s0 := mkVm (vm_space s) (vm_slots s) (vm_mem s) (if vm_pcpu s is Some _ then Some true else None) (vm_calls s)).
  assert (Hwf0 : wf_vm s0 k) by (by apply (wf_vm_same s)).
  assert (Hm : 0 <= a mod PAGE_SIZE < 4096) by (apply Z.mod_pos_bound; done).
  unfold PAGE_SIZE in Hend.
  rewrite (bind_run _ _ s tt s) by (apply ASSERT_run; unfold NULL; lia).
  rewrite (bind_run _ _ s tt s) by (apply ASSERT_run;
    change (IsBooleanFlagOn VMM_FREE_TYPE_DECOMMIT VMM_FREE_TYPE_RELEASE) with false;
    change (IsBooleanFlagOn VMM_FREE_TYPE_DECOMMIT VMM_FREE_TYPE_DECOMMIT) with true; lia).
  rewrite (bind_run _ _ s tt s) by done. rewrite (bind_run _ _ s tt s0) by done.
  rewrite (bind_run _ _ _ _ _ (_VmFindReservation_run s0 k a 1 Hwf0 ltac:(lia) ltac:(lia) ltac:(lia))).
  change (find s0 k a 1) with (find s k a 1). rewrite Hf. cbv beta iota.
  change (IsBooleanFlagOn VMM_FREE_TYPE_DECOMMIT VMM_FREE_TYPE_RELEASE) with false.
  change (IsBooleanFlagOn VMM_FREE_TYPE_DECOMMIT VMM_FREE_TYPE_DECOMMIT) with true. cbv iota.
  rewrite AlignAddressLower_page by rlia. fold p.
  replace (n + (a - p)) with (n + a mod PAGE_SIZE) by (unfold p; lia).
  rewrite u64_small by rlia. rewrite AlignAddressUpper_round_up by (unfold PAGE_SIZE in *; lia).
  change (round_up (n + a mod PAGE_SIZE)) with len.
  destruct (change_commit_run s0 k i r false p len Hwf0 Hent Hreg Hc) as (m' & E & Hwf' & Hk & Hb).
  erewrite bind_run by (unfold _VmDecommitReservation; rewrite (bind_run _ _ _ _ _ E); reflexivity).
  eexists. split; [reflexivity|]. split; [by apply (wf_vm_same (with_mem s0 m'))|]. done.
Qed.

(** VmReservationReturnRightsForAddress reports the rights of the first reservation that contains the
    range, and succeeds exactly if every page probed from the range's first address, one page
    apart, is committed; for a page-aligned address these are all pages of the range. *)
Theorem vm_return_rights s k a n : wf_vm s k -> 0 < a -> 0 < n -> a + n < 2 ^ 64 ->
  match find s k a n with
  | None => VmReservationReturnRightsForAddress a n s = Ok ((STATUS_MEMORY_IS_NOT_COMMITED, None), s)
  | Some i => exists r b, entry s k i r /\
      VmReservationReturnRightsForAddress a n s =
        Ok ((if b : bool then STATUS_SUCCESS else STATUS_MEMORY_IS_NOT_COMMITED, Some (PageRights r)), s) /\
      (b = true <-> probes_from s r a n 0) /\
      (a mod PAGE_SIZE = 0 -> b = true ->
         forall x, a <= x < a + n -> bit (vm_mem s) (CommitBitmap r) (page_of r x) = true)
  end.
Proof.
  intros Hwf Ha Hn Hend. unfold VmReservationReturnRightsForAddress.
  rewrite (bind_run _ _ s tt s) by (apply ASSERT_run; unfold NULL; lia).
  rewrite (bind_run _ _ s tt s) by (apply ASSERT_run; lia).
  rewrite (bind_run _ _ _ _ _ (_VmFindReservation_run s k a n Hwf Ha Hn Hend)).
  destruct (find s k a n) as [i|] eqn:Hf; [|done]. cbv beta iota.
  destruct (find_Some s k a n i Hwf Hf) as (r & Hi & Hu & Hok & Hc). pose proof Hu as [Hsl _].
  rewrite (bind_run _ _ _ _ _ (get_slot_run s i r Hsl)).
  destruct (committed_loop_run s k i r a n Hwf (conj Hi Hu) Ha Hn Hc (S (Z.to_nat (n / PAGE_SIZE + 1))) 0)
    as (b & E & Hb); [lia| |].
  { pose proof (Z.div_le_mono (n - 0 + PAGE_SIZE - 1) (n + 1 * PAGE_SIZE) PAGE_SIZE ltac:(done) ltac:(lia)) as Hle.
    rewrite Z.div_add in Hle by done. lia. }
  rewrite (bind_run _ _ _ _ _ E). exists r, b. split; [by split|]. split; [done|]. split; [done|].
  intros Hal Hbt x Hx. apply Hb in Hbt. destruct Hok as ((_ & Hsa & _) & _).
  specialize (Hbt ((x - a) / PAGE_SIZE)). replace (page_of r x) with (page_of r (a + (0 + (x - a) / PAGE_SIZE * PAGE_SIZE))).
  - apply Hbt; [apply Z.div_pos; [lia|done]|]. pose proof (Z.mul_div_le (x - a) PAGE_SIZE ltac:(done)). lia.
  - unfold page_of. apply andb_true_iff in Hc as [Hc1%Z.leb_le _].
    pose proof (Z.div_mod a PAGE_SIZE ltac:(done)) as Da. pose proof (Z.div_mod (StartVa r) PAGE_SIZE ltac:(done)) as Ds.
    rewrite Hal in Da. rewrite Hsa in Ds. set (qa := a / PAGE_SIZE) in *. set (qs := StartVa r / PAGE_SIZE) in *.
    replace (a + (0 + (x - a) / PAGE_SIZE * PAGE_SIZE) - StartVa r)
      with (((x - a) / PAGE_SIZE + (qa - qs)) * PAGE_SIZE) by lia.
    replace (x - StartVa r) with (x - a + (qa - qs) * PAGE_SIZE) by lia.
    rewrite Z.div_mul, Z.div_add by done. done.
Qed.

(** The test for an existing reservation only finds one that contains the whole range: a range that
    overlaps a reservation without lying inside one is reserved again, and the
    addresses in common then belong to both reservations. *)
Theorem vm_overlap_accepted s k i q Base Size AllocType Rights unc file :
  let p := request_base s Base in let n := request_size Base Size in
  wf_vm s k -> 0 <= Base -> 0 < Size -> Base + Size + 2 * PAGE_SIZE < 2 ^ 64 ->
  IsBooleanFlagOn AllocType VMM_ALLOC_TYPE_RESERVE = true ->
  IsFlagOn AllocType (Z.lor VMM_ALLOC_TYPE_COMMIT VMM_ALLOC_TYPE_RESERVE) = true ->
  (Base <> NULL -> StartOfVirtualAddressSpace (vm_space s) <= p) ->
  region_ok p n -> find s k p n = None -> has_room s k -> bitmap_room s n ->
  entry s k i q ->
  exists s' k' j r, VmReservationSpaceAllocRegion Base Size AllocType Rights unc file s =
      Ok ((STATUS_SUCCESS, Some (p, n)), s') /\ wf_vm s' k' /\ i <> j /\
    entry s' k' i q /\ entry s' k' j r /\ StartVa r = p /\ Size_ r = n.
Proof.
  intros p n Hwf Hb Hs Hend Hres Hfl Hst Hreg Hf Hroom Hbr Hq.
  rewrite VmReservationSpaceAllocRegion_run by done.
  assert (Hguard : negb (Base =? NULL) && (Base - Base mod PAGE_SIZE <? StartOfVirtualAddressSpace (vm_space s)) = false).
  { unfold p, request_base in Hst. destruct (Z.eqb_spec Base NULL); [done|]. simpl. specialize (Hst ltac:(done)). lia. }
  rewrite Hguard. set (s0 := alloc_started s Base Size).
  assert (Hsame : same_vm s s0) by apply alloc_started_same.
  destruct (alloc_locked_reserve s0 k p n AllocType Rights unc file (wf_vm_same _ _ _ Hsame Hwf) Hreg Hres)
    as (bm & j & s1 & k1 & E & Hwf1 & Hadd & _).
  - by rewrite (find_same _ _ _ _ _ Hsame).
  - unfold has_room. by destruct Hsame as (-> & _).
  - unfold bitmap_room, area_end in *. by destruct Hsame as (_ & _ & _ & -> & -> & ->).
  - fold p n. rewrite E. exists (clear_pcpu s1), k1, j, (mkVMM_RESERVATION p n Rights VmmReservationStateUsed unc file bm).
    destruct Hadd as (H1 & H2 & _). destruct (H2 i q) as (Hne & Hq' & _); [by apply (entry_same s)|].
    split; [done|]. split; [by apply (wf_vm_same s1)|]. done.
Qed.

(** The loop of VmReservationReturnRightsForAddress steps from the address itself, so for a range of at
    most a page only the page of its first byte is tested: it succeeds although the range
    ends in a second page, whether that page is committed or not. *)
Theorem vm_rights_second_page_untested s k i r a n : wf_vm s k -> find s k a n = Some i -> entry s k i r ->
  0 < a -> 0 < n <= PAGE_SIZE -> a + n < 2 ^ 64 ->
  bit (vm_mem s) (CommitBitmap r) (page_of r a) = true ->
  VmReservationReturnRightsForAddress a n s = Ok ((STATUS_SUCCESS, Some (PageRights r)), s).
Proof.
  intros Hwf Hf Hent Ha Hn Hend Hbit. unfold VmReservationReturnRightsForAddress.
  rewrite (bind_run _ _ s tt s) by (apply ASSERT_run; unfold NULL; lia).
  rewrite (bind_run _ _ s tt s) by (apply ASSERT_run; lia).
  rewrite (bind_run _ _ _ _ _ (_VmFindReservation_run s k a n Hwf Ha ltac:(lia) Hend)), Hf. cbv beta iota.
  destruct (find_Some s k a n i Hwf Hf) as (q & _ & [Hq _] & _ & Hc). pose proof Hent as [_ [Hr _]].
  assert (q = r) as -> by congruence. rewrite (bind_run _ _ _ _ _ (get_slot_run s i r Hr)).
  destruct (committed_loop_run s k i r a n Hwf Hent Ha ltac:(lia) Hc (S (Z.to_nat (n / PAGE_SIZE + 1))) 0)
    as (b & E & Hb); [lia| |].
  { pose proof (Z.div_le_mono (n - 0 + PAGE_SIZE - 1) (n + 1 * PAGE_SIZE) PAGE_SIZE ltac:(done) ltac:(lia)) as Hle.
    rewrite Z.div_add in Hle by done. lia. }
  rewrite (bind_run _ _ _ _ _ E). assert (b = true) as ->; [|done].
  apply Hb. intros j Hj Hlt. assert (j = 0) as -> by (unfold PAGE_SIZE in *; lia).
  by rewrite Z.mul_0_l, !Z.add_0_r.
Qed.

(** * Examples *)

(** A space with one reservation of three pages, the first two committed. *)
Definition demo_reservation : VMM_RESERVATION :=
  mkVMM_RESERVATION 0x20000 0x3000 PAGE_RIGHTS_READWRITE VmmReservationStateUsed false 0 (mkBITMAP 0x11000 1 3).
Definition empty_reservation (st : VMM_RESERVATION_STATE) : VMM_RESERVATION :=
  mkVMM_RESERVATION 0 0 0 st false 0 (mkBITMAP 0 0 0).
Definition demo_vm : Vm :=
  mkVm (mkSPACE 0x23000 0x20000 0x11000 0x3000 0x12000 0x10000)
    [demo_reservation; empty_reservation VmmReservationStateLast; empty_reservation VmmReservationStateFree]
    (mem_of 0x11000 (3 :: replicate (Z.to_nat 0x1FFF) 0)) (Some false) [].

Lemma demo_vm_entry i r : entry demo_vm 1 i r -> i = 0%nat /\ r = demo_reservation.
Proof.
  intros [Hi [Hr _]]. assert (i = 0%nat) as -> by lia. simpl in Hr. by simplify_eq.
Qed.

Lemma demo_vm_wf : wf_vm demo_vm 1.
Proof.
  split.
  - by exists (empty_reservation VmmReservationStateLast).
  - intros i r Hi Hr. assert (i = 0%nat) as -> by lia. simpl in Hr. by simplify_eq.
  - unfold SIZEOF_VMM_RESERVATION. simpl. lia.
  - unfold area_end. simpl. unfold PAGE_SIZE. split; [lia|]. split; [lia|done].
  - unfold area_end. cbn [vm_space ReservationList ReservedAreaSize FreeBitmapAddress demo_vm vm_mem].
    eapply mapped_sub; [apply mapped_mem_of|lia|]. rewrite length_cons, length_replicate. lia.
  - intros i r Hi Hr. destruct (demo_vm_entry i r (conj Hi Hr)) as [-> ->].
    split; [vm_compute; intuition congruence|].
    split; [|unfold PAGE_SIZE; simpl; split; [done|split; [lia|split; [lia|done]]]].
    split; [done|]. split; [simpl; rlia|]. split; [done|].
    apply (byte_buffer_mem_of 0x11000 (3 :: replicate (Z.to_nat 0x1FFF) 0)).
    + constructor; [rlia|]. apply Forall_replicate. rlia.
    + rewrite length_cons, length_replicate. simpl. lia.
  - intros i j r q Hne Hi Hj. lia.
Qed.

Lemma demo_vm_bits p : 0 <= p < 3 -> bit (vm_mem demo_vm) (mkBITMAP 0x11000 1 3) p = (p <? 2).
Proof.
  intros Hp. unfold bit, bit_at. cbn [BitmapBuffer vm_mem demo_vm].
  rewrite (Z.div_small p 8), (Z.mod_small p 8) by lia. rewrite lookup_mem_of, bool_decide_eq_true_2.
  - assert (p = 0 \/ p = 1 \/ p = 2) as [->|[->| ->]] by lia; done.
  - lia.
Qed.

Lemma vm_init_well_formed_witness :
  exists s', (_ ← VmReservationSpaceInit 0x10000 NULL 0x5000; VmReservationSpaceFinishInit)
      (mkVm (mkSPACE 0 0 0 0 0 0) (replicate 3 (empty_reservation VmmReservationStateFree))
         (mem_of 0x11000 (replicate (Z.to_nat 0x4000) 0)) None []) = Ok (tt, s') /\
    wf_vm s' 0 /\ FreeVirtualAddressPointer (vm_space s') = 0x15000.
Proof.
  pose proof (vm_init_well_formed (mkVm (mkSPACE 0 0 0 0 0 0) (replicate 3 (empty_reservation VmmReservationStateFree))
    (mem_of 0x11000 (replicate (Z.to_nat 0x4000) 0)) None []) 0x10000 NULL 0x5000 ltac:(lia) eq_refl ltac:(lia) eq_refl
    ltac:(vm_compute; congruence) ltac:(lia) ltac:(done) ltac:(vm_compute; congruence)) as H.
  assert (Hmap : mapped (mem_of 0x11000 (replicate (Z.to_nat 0x4000) 0)) (0x10000 + 0x5000 / 5) (0x5000 - 0x5000 / 5)).
  { eapply mapped_sub; [apply mapped_mem_of|done|]. rewrite length_replicate, Z2Nat.id by lia. done. }
  specialize (H Hmap).
  apply wp_Ok in H as ([] & s' & E & H1 & _ & H2 & _). exists s'. split; [exact E|]. split; [exact H1|exact H2].
Defined.

Lemma demo_entry : entry demo_vm 1 0 demo_reservation.
Proof. split; [lia|done]. Qed.

Lemma demo_find a n : 0 < n -> 0x20000 <= a -> a + n <= 0x23000 -> find demo_vm 1 a n = Some 0%nat.
Proof.
  intros Hn Ha Hend. apply (find_unique demo_vm 1 0 demo_reservation a n demo_entry).
  - unfold contains, demo_reservation. cbn [StartVa Size_]. lia.
  - intros i q Hq Hne. by destruct (demo_vm_entry i q Hq).
Qed.

Lemma demo_answer a rr : 0x20000 <= a < 0x23000 -> answer demo_vm 1 a rr =
  if (page_of demo_reservation a <? 2) && IsBooleanFlagOn PAGE_RIGHTS_READWRITE rr
  then Some (PAGE_RIGHTS_READWRITE, false, 0, 0) else None.
Proof.
  intros Ha. unfold answer. rewrite demo_find by lia. unfold mbind at 1, option_bind at 1.
  change (vm_slots demo_vm !! 0%nat) with (Some demo_reservation). unfold mbind, option_bind.
  cbn [CommitBitmap demo_reservation PageRights Uncacheable BackingFile]. rewrite demo_vm_bits; [done|].
  unfold page_of, demo_reservation, PAGE_SIZE. cbn [StartVa].
  split; [apply Z.div_pos; lia|apply Z.div_lt_upper_bound; lia].
Qed.

Lemma vm_page_fault_answer_witness :
  exists s, wf_vm s 1 /\
    VmReservationCanAddressBeAccessed 0x21008 PAGE_RIGHTS_WRITE s = Ok (Some (PAGE_RIGHTS_READWRITE, false, 0, 0), s) /\
    VmReservationCanAddressBeAccessed 0x22008 PAGE_RIGHTS_WRITE s = Ok (None, s).
Proof.
  exists demo_vm. split; [exact demo_vm_wf|]. split.
  - rewrite (vm_page_fault_answer demo_vm 1 0x21008 PAGE_RIGHTS_WRITE demo_vm_wf ltac:(lia)).
    change (in_metadata demo_vm 0x21008) with false. cbv iota. rewrite demo_answer by lia. reflexivity.
  - rewrite (vm_page_fault_answer demo_vm 1 0x22008 PAGE_RIGHTS_WRITE demo_vm_wf ltac:(lia)).
    change (in_metadata demo_vm 0x22008) with false. cbv iota. rewrite demo_answer by lia. reflexivity.
Defined.

(** Reserving and committing two more pages after the reservation. *)
Lemma demo_region : region_ok 0x23000 0x2000.
Proof. vm_compute. intuition congruence. Qed.

Lemma demo_overlaps : overlaps_none demo_vm 1 0x23000 0x2000.
Proof.
  intros i q Hq. destruct (demo_vm_entry i q Hq) as [_ ->]. right. unfold demo_reservation. cbn [StartVa Size_]. lia.
Qed.

Lemma demo_has_room : has_room demo_vm 1.
Proof. right. simpl. lia. Qed.

Lemma vm_alloc_then_access_witness :
  exists s' k', VmReservationSpaceAllocRegion NULL 0x1800 3 PAGE_RIGHTS_WRITE false 0 demo_vm =
      Ok ((STATUS_SUCCESS, Some (0x23000, 0x2000)), s') /\ wf_vm s' k' /\
    VmReservationCanAddressBeAccessed 0x24010 PAGE_RIGHTS_WRITE s' = Ok (Some (PAGE_RIGHTS_WRITE, false, 0, 0), s') /\
    VmReservationCanAddressBeAccessed 0x22010 PAGE_RIGHTS_WRITE s' = Ok (None, s').
Proof.
  destruct (vm_alloc_then_access demo_vm 1 NULL 0x1800 3 PAGE_RIGHTS_WRITE false 0 demo_vm_wf ltac:(done) ltac:(lia)
    ltac:(done) eq_refl ltac:(done) demo_region demo_overlaps demo_has_room ltac:(vm_compute; congruence))
    as (s' & k' & E & Hwf & _ & _ & Hacc).
  exists s', k'. split; [exact E|]. split; [exact Hwf|]. split.
  - rewrite (Hacc 0x24010 PAGE_RIGHTS_WRITE ltac:(lia) eq_refl). reflexivity.
  - rewrite (Hacc 0x22010 PAGE_RIGHTS_WRITE ltac:(lia) eq_refl).
    change (bool_decide _) with false. cbv iota. rewrite demo_answer by lia. reflexivity.
Defined.

(** Committing the third page of the reservation. *)
Lemma vm_alloc_existing_witness :
  exists s', VmReservationSpaceAllocRegion 0x22080 0x10 VMM_ALLOC_TYPE_COMMIT PAGE_RIGHTS_READWRITE false 0 demo_vm =
      Ok ((STATUS_SUCCESS, Some (0x22000, 0x1000)), s') /\ wf_vm s' 1 /\
    bit (vm_mem s') (CommitBitmap demo_reservation) 2 = true.
Proof.
  assert (Hreg : region_ok 0x22000 0x1000) by (vm_compute; intuition congruence).
  pose proof (demo_find 0x22000 0x1000 ltac:(lia) ltac:(lia) ltac:(lia)) as Hf.
  destruct (vm_alloc_existing demo_vm 1 0x22080 0x10 VMM_ALLOC_TYPE_COMMIT PAGE_RIGHTS_READWRITE false 0
    demo_vm_wf ltac:(lia) ltac:(lia) ltac:(done) eq_refl ltac:(vm_compute; congruence) Hreg ltac:(done))
    as (st & out & s' & E & Hwf & _ & H).
  change (request_base demo_vm 0x22080) with 0x22000 in H. change (request_size 0x22080 0x10) with 0x1000 in H.
  rewrite Hf in H. destruct H as (r & Hr & _ & H). destruct (demo_vm_entry 0 r Hr) as [_ ->].
  change (IsBooleanFlagOn VMM_ALLOC_TYPE_COMMIT VMM_ALLOC_TYPE_RESERVE) with false in H. cbv iota in H.
  destruct H as (-> & -> & _ & Hb). exists s'. split; [exact E|]. split; [exact Hwf|].
  rewrite Hb by lia. reflexivity.
Defined.

Lemma vm_release_region_witness :
  exists s', VmReservationSpaceFreeRegion 0x21234 0 VMM_FREE_TYPE_RELEASE demo_vm = Ok ((0x20000, 0x3000), s') /\
    wf_vm s' 1 /\ vm_calls s' = [MmuUnmapMemoryEx 0x11000 1].
Proof.
  pose proof (vm_release_region demo_vm 1 0x21234 demo_vm_wf ltac:(lia)) as H.
  rewrite demo_find in H by lia. destruct H as (r & s' & Hr & E & Hwf & _ & _ & Hc).
  destruct (demo_vm_entry 0 r Hr) as [_ ->]. exists s'. split; [exact E|]. split; [exact Hwf|exact Hc].
Defined.

Lemma vm_decommit_region_witness :
  exists s', VmReservationSpaceFreeRegion 0x20010 0x20 VMM_FREE_TYPE_DECOMMIT demo_vm = Ok ((0x20000, 0x1000), s') /\
    wf_vm s' 1 /\ bit (vm_mem s') (CommitBitmap demo_reservation) 0 = false /\
    bit (vm_mem s') (CommitBitmap demo_reservation) 1 = true.
Proof.
  destruct (vm_decommit_region demo_vm 1 0 demo_reservation 0x20010 0x20 demo_vm_wf
    (demo_find 0x20010 1 ltac:(lia) ltac:(lia) ltac:(lia)) demo_entry ltac:(lia) ltac:(lia) ltac:(done)
    ltac:(vm_compute; intuition congruence) eq_refl) as (s' & E & Hwf & _ & _ & Hb).
  exists s'. split; [exact E|]. split; [exact Hwf|]. split; [rewrite Hb by lia; reflexivity|].
  rewrite Hb by lia. change (bool_decide _) with false. cbv iota. exact (demo_vm_bits 1 ltac:(lia)).
Defined.

Lemma vm_return_rights_witness :
  exists b, VmReservationReturnRightsForAddress 0x20000 0x2000 demo_vm =
      Ok ((if b : bool then STATUS_SUCCESS else STATUS_MEMORY_IS_NOT_COMMITED, Some PAGE_RIGHTS_READWRITE), demo_vm) /\
    (b = true <-> probes_from demo_vm demo_reservation 0x20000 0x2000 0).
Proof.
  pose proof (vm_return_rights demo_vm 1 0x20000 0x2000 demo_vm_wf ltac:(lia) ltac:(lia) ltac:(lia)) as H.
  rewrite demo_find in H by lia. destruct H as (r & b & Hr & E & Hb & _).
  destruct (demo_vm_entry 0 r Hr) as [_ ->]. exists b. split; [exact E|exact Hb].
Defined.

(** Reserving [0x22000, 0x24000), which overlaps the last page of the reservation. *)
Lemma vm_overlap_accepted_witness :
  exists s' k' j r, VmReservationSpaceAllocRegion 0x22000 0x2000 VMM_ALLOC_TYPE_RESERVE PAGE_RIGHTS_READWRITE false 0 demo_vm =
      Ok ((STATUS_SUCCESS, Some (0x22000, 0x2000)), s') /\ wf_vm s' k' /\ 0%nat <> j /\
    entry s' k' 0 demo_reservation /\ entry s' k' j r /\ StartVa r = 0x22000 /\ Size_ r = 0x2000.
Proof.
  assert (Hreg : region_ok 0x22000 0x2000) by (vm_compute; intuition congruence).
  apply (vm_overlap_accepted demo_vm 1 0 demo_reservation 0x22000 0x2000 VMM_ALLOC_TYPE_RESERVE PAGE_RIGHTS_READWRITE
    false 0 demo_vm_wf ltac:(lia) ltac:(lia) ltac:(done) eq_refl eq_refl ltac:(vm_compute; congruence) Hreg
    ltac:(reflexivity) demo_has_room ltac:(vm_compute; congruence) demo_entry).
Defined.

(** The two bytes from 0x21FFF: the second lies in the uncommitted third page. *)
Lemma vm_rights_second_page_untested_witness :
  VmReservationReturnRightsForAddress 0x21FFF 2 demo_vm = Ok ((STATUS_SUCCESS, Some PAGE_RIGHTS_READWRITE), demo_vm) /\
  bit (vm_mem demo_vm) (CommitBitmap demo_reservation) (page_of demo_reservation (0x21FFF + 1)) = false.
Proof.
  split; [|exact (demo_vm_bits 2 ltac:(lia))].
  apply (vm_rights_second_page_untested demo_vm 1 0 demo_reservation 0x21FFF 2 demo_vm_wf
    (demo_find 0x21FFF 2 ltac:(lia) ltac:(lia) ltac:(lia)) demo_entry ltac:(lia)); [vm_compute; intuition congruence|lia|].
  exact (demo_vm_bits 1 ltac:(lia)).
Defined.
