(* ===== verification/StrUtils.v ===== *)
(** CommonLib/src/strutils.c: conversion between numbers and their text in a
    numeric base.  The text is in a byte memory; [char] is signed. *)
From S2P Require Import Prelude IntUtils ClMemory.

Definition LOWER_UPPER_DIFF : Z := 0x20.
Definition isascii (c : Z) : bool := (0x1F <? c) && (c <? 0x80).
Definition tolower (c : Z) : Z := Z.lor c LOWER_UPPER_DIFF.

Definition CH_0 : Z := 48.
Definition CH_9 : Z := 57.
Definition CH_A : Z := 65.
Definition CH_a : Z := 97.
Definition CH_z : Z := 122.
Definition CH_minus : Z := 45.

(** The exclusive-or swap of two bytes. *)
Definition swap (a b : Z) : M Mem unit :=
  x ← load8 a; y ← load8 b; _ ← store8 a (Z.lxor x y);
  y ← load8 b; x ← load8 a; _ ← store8 b (Z.lxor y x);
  x ← load8 a; y ← load8 b; store8 a (Z.lxor x y).

(** The sign and the magnitude itoa takes from the 64 bits at valueAddress.  The
    negation of a negative INT32 is an int, extended to a QWORD afterwards. *)
Definition itoa_negative (valueBits : Z) (signedValue is64BitValue : bool) : bool :=
  if is64BitValue then signedValue && (i64 valueBits <? 0) else signedValue && (i32 valueBits <? 0).
Definition itoa_magnitude (valueBits : Z) (signedValue is64BitValue : bool) : Z :=
  let negative := itoa_negative valueBits signedValue is64BitValue in
  if is64BitValue
  then if negative then u64 (- i64 valueBits) else u64 valueBits
  else if negative then u64 (i32 (- i32 valueBits)) else u32 valueBits.

Definition digit_char (digit : Z) : Z :=
  if 9 <? digit then u8 (digit - 10 + CH_A) else u8 (digit + CH_0).

(** while (0 != value): the digits from the lowest on; returns the index after them. *)
Fixpoint digits_loop (fuel : nat) (value buffer index base : Z) : M Mem Z :=
  match fuel with
  | O => fail NoFuel
  | S fuel' =>
      if 0 =? value then ret index else
      _ ← store8 (buffer + index) (digit_char (i32 (value mod base)));
      digits_loop fuel' (value / base) buffer (u32 (index + 1)) base
  end.

Fixpoint reverse_loop (fuel : nat) (i buffer index : Z) : M Mem unit :=
  match fuel with
  | O => fail NoFuel
  | S fuel' =>
      if i <? index / 2 then
        _ ← swap (buffer + i) (buffer + u32 (u32 (index - i) - 1));
        reverse_loop fuel' (u32 (i + 1)) buffer index
      else ret tt
  end.

(** Sixty-five iterations are enough: a QWORD has at most 64 digits. *)
Definition itoa (valueBits : Z) (signedValue : bool) (buffer base : Z) (is64BitValue : bool) : M Mem unit :=
  _ ← ASSERT (negb (NULL =? buffer));
  _ ← ASSERT (negb (0 =? base));
  let negative := itoa_negative valueBits signedValue is64BitValue in
  let value := itoa_magnitude valueBits signedValue is64BitValue in
  index ← (if 0 =? value then _ ← store8 buffer CH_0; ret 1 else ret 0);
  index ← digits_loop 65 value buffer index base;
  index ← (if negative then _ ← store8 (buffer + index) CH_minus; ret (u32 (index + 1)) else ret index);
  _ ← store8 (buffer + index) 0;
  reverse_loop (S (Z.to_nat index)) 0 buffer index.

(** The value of a character in lower case, MAX_BYTE when it is no digit. *)
Definition char_value (c : Z) : Z :=
  if (CH_0 <=? c) && (c <=? CH_9) then u8 (c - CH_0)
  else if (CH_a <=? c) && (c <=? CH_z) then u8 (c - CH_a + 10)
  else MAX_BYTE.

Fixpoint atoi_loop (fuel : nat) (i value buffer base : Z) : M Mem Z :=
  match fuel with
  | O => fail NoFuel
  | S fuel' =>
      b ← load8 (buffer + i);
      if b =? 0 then ret value else
      _ ← ASSERT (isascii (i8 b));
      let c := i8 (tolower (i8 b)) in
      let currentCharValue := char_value c in
      _ ← ASSERT (currentCharValue <? base);
      atoi_loop fuel' (u32 (i + 1)) (u64 (value * base + currentCharValue)) buffer base
  end.

(** The value written to *valueAddress.  The loop reads another byte of the memory in
    each iteration, which bounds their number. *)
Definition atoi (buffer base : Z) (is64BitValue : bool) : M Mem Z :=
  _ ← ASSERT (negb (NULL =? buffer));
  _ ← ASSERT (negb (0 =? base));
  first ← load8 buffer;
  let negative := CH_minus =? first in
  n ← gets (fun m : Mem => size m);
  value ← atoi_loop (S n) (if negative then 1 else 0) 0 buffer base;
  let value := if negative then u64 (- i64 value) else value in
  if is64BitValue then ret value else
  _ ← ASSERT (negative || (value <=? MAX_DWORD));
  ret (u32 value).

(** * The text of a number *)

(** Digits from the lowest on. *)
Fixpoint lsd (fuel : nat) (base v : Z) : list Z :=
  match fuel with
  | O => []
  | S fuel' => if v =? 0 then [] else v mod base :: lsd fuel' base (v / base)
  end.
Definition numeral (base v : Z) : list Z :=
  if v =? 0 then [CH_0] else digit_char <$> rev (lsd 64 base v).
Definition text (base z : Z) : list Z :=
  (if z <? 0 then [CH_minus] else []) ++ numeral base (Z.abs z).

(** The number the caller means. *)
Definition denoted (valueBits : Z) (signedValue is64BitValue : bool) : Z :=
  match signedValue, is64BitValue with
  | true, true => i64 valueBits | true, false => i32 valueBits
  | false, true => u64 valueBits | false, false => u32 valueBits
  end.

(** What itoa prints: the number meant, except for the smallest INT32. *)
Definition printed (valueBits : Z) (signedValue is64BitValue : bool) : Z :=
  let z := denoted valueBits signedValue is64BitValue in
  if negb is64BitValue && (z =? - 2 ^ 31) then - (2 ^ 64 - 2 ^ 31) else z.

(** * Lemmas *)

(** [m'] is [m] with the bytes [bs] at [p]. *)
Definition wrote (m m' : Mem) (p : Z) (bs : list Z) : Prop :=
  forall a, m' !! a = if bool_decide (p <= a < p + Z.of_nat (length bs)) then bs !! Z.to_nat (a - p) else m !! a.

Lemma wrote_nil m p : wrote m m p [].
Proof. intros a. rewrite bool_decide_eq_false_2 by (simpl; lia). done. Qed.

Lemma wrote_app m m1 m2 p bs cs : wrote m m1 p bs -> wrote m1 m2 (p + Z.of_nat (length bs)) cs ->
  wrote m m2 p (bs ++ cs).
Proof.
  intros H1 H2 a. rewrite (H2 a), (H1 a), length_app. repeat case_bool_decide; try lia; try done.
  - rewrite lookup_app_r by lia. f_equal. lia.
  - by rewrite lookup_app_l by lia.
Qed.

Lemma wrote_one m p b : wrote m (<[p := b]> m) p [b].
Proof.
  intros a. simpl length. destruct (decide (a = p)) as [->|Hne].
  - rewrite lookup_insert_eq, bool_decide_eq_true_2 by lia. by rewrite Z.sub_diag.
  - rewrite lookup_insert_ne, bool_decide_eq_false_2 by lia. done.
Qed.

Lemma wrote_bytes_at m m' p bs : wrote m m' p bs -> bytes_at m' p bs.
Proof.
  intros H i b Hi. pose proof (lookup_lt_Some _ _ _ Hi). rewrite (H _), bool_decide_eq_true_2 by lia.
  replace (Z.to_nat (p + Z.of_nat i - p)) with i by lia. done.
Qed.

Lemma wrote_mapped m m' p bs q n : wrote m m' p bs -> mapped m q n -> mapped m' q n.
Proof.
  intros H Hm a Ha. rewrite (H a). case_bool_decide; [|by apply Hm]. apply lookup_lt_is_Some. lia.
Qed.

Lemma store8_run m p b : is_Some (m !! p) -> store8 p b m = Ok (tt, <[p := b]> m).
Proof. unfold store8. by intros [? ->]. Qed.

Lemma load8_run m p b : m !! p = Some b -> load8 p m = Ok (b, m).
Proof. unfold load8. by intros ->. Qed.

Lemma swap_run m a b x y : a <> b -> m !! a = Some x -> m !! b = Some y ->
  exists m', swap a b m = Ok (tt, m') /\ m' = <[a := y]> (<[b := x]> m).
Proof.
  intros Hne Ha Hb. eexists. split.
  - unfold swap. rewrite (bind_run _ _ _ _ _ (load8_run _ _ _ Ha)), (bind_run _ _ _ _ _ (load8_run _ _ _ Hb)).
    rewrite (bind_run _ _ _ _ _ (store8_run m a _ ltac:(by eexists))).
    erewrite bind_run by (apply load8_run; rewrite lookup_insert_ne by done; exact Hb).
    erewrite bind_run by (apply load8_run, lookup_insert_eq).
    erewrite bind_run by (apply store8_run; rewrite lookup_insert_ne by done; by eexists).
    erewrite bind_run by (apply load8_run; rewrite lookup_insert_ne by done; apply lookup_insert_eq).
    erewrite bind_run by (apply load8_run, lookup_insert_eq).
    apply store8_run. rewrite lookup_insert_ne by done. rewrite lookup_insert_eq. by eexists.
  - rewrite (insert_insert_ne _ b a), insert_insert_eq by done.
    replace (Z.lxor y (Z.lxor x y)) with x
      by (rewrite (Z.lxor_comm x y), <- Z.lxor_assoc, Z.lxor_nilpotent, Z.lxor_0_l; done).
    replace (Z.lxor (Z.lxor x y) x) with y
      by (rewrite (Z.lxor_comm x y), Z.lxor_assoc, Z.lxor_nilpotent, Z.lxor_0_r; done).
    done.
Qed.

Lemma wrote_insert m m1 p l j v : wrote m m1 p l -> (j < length l)%nat ->
  wrote m (<[p + Z.of_nat j := v]> m1) p (<[j := v]> l).
Proof.
  intros H Hj a. rewrite length_insert. destruct (decide (a = p + Z.of_nat j)) as [->|Hne].
  - rewrite lookup_insert_eq, bool_decide_eq_true_2 by lia.
    replace (Z.to_nat (p + Z.of_nat j - p)) with j by lia. by rewrite list_lookup_insert_eq.
  - rewrite lookup_insert_ne, (H a) by done. case_bool_decide; [|done].
    by rewrite list_lookup_insert_ne by lia.
Qed.

(** [l'] is [l] with its first and last [i] elements reversed. *)
Definition half_reversed (l l' : list Z) (i : nat) : Prop :=
  length l' = length l /\
  forall j, (j < length l)%nat -> l' !! j =
    if decide (j < i \/ length l - i <= j)%nat then l !! (length l - 1 - j)%nat else l !! j.

Lemma half_reversed_step l l' i x y : half_reversed l l' i -> (i < length l - 1 - i)%nat ->
  l' !! i = Some x -> l' !! (length l - 1 - i)%nat = Some y ->
  half_reversed l (<[i := y]> (<[(length l - 1 - i)%nat := x]> l')) (S i).
Proof.
  intros [Hlen H] Hi Hx Hy. split; [by rewrite !length_insert|]. intros j Hj.
  assert (Hli : l !! i = Some x).
  { rewrite <- Hx, H by lia. rewrite decide_False by lia. done. }
  assert (Hln : l !! (length l - 1 - i)%nat = Some y).
  { rewrite <- Hy, (H (length l - 1 - i)%nat) by lia. rewrite decide_False by lia. done. }
  destruct (decide (j = i)) as [->|].
  { rewrite list_lookup_insert_eq by (rewrite length_insert; lia). rewrite decide_True by lia. done. }
  rewrite list_lookup_insert_ne by done. destruct (decide (j = (length l - 1 - i)%nat)) as [->|].
  { rewrite list_lookup_insert_eq by lia. rewrite decide_True by lia. rewrite <- Hli. f_equal. lia. }
  rewrite list_lookup_insert_ne, H by lia. repeat case_decide; try lia; done.
Qed.

Lemma half_reversed_rev l l' i : half_reversed l l' i -> (length l <= 2 * i + 1)%nat -> l' = rev l.
Proof.
  intros [Hlen H] Hi. apply list_eq_same_length with (length l); [by rewrite length_rev|done|].
  intros j x y Hj Hx Hy. rewrite (H j Hj) in Hx. rewrite rev_alt in Hy.
  change (rev_append l []) with (reverse l) in Hy. rewrite reverse_lookup in Hy by done.
  case_decide.
  - replace (length l - S j)%nat with (length l - 1 - j)%nat in Hy by lia. congruence.
  - replace (length l - S j)%nat with j in Hy by lia. congruence.
Qed.

Lemma reverse_loop_run m p l : Z.of_nat (length l) < 2 ^ 32 -> forall fuel i l' m1,
  wrote m m1 p l' -> half_reversed l l' i -> (2 * i <= length l)%nat -> (length l - i < fuel)%nat ->
  exists m', reverse_loop fuel (Z.of_nat i) p (Z.of_nat (length l)) m1 = Ok (tt, m') /\ wrote m m' p (rev l).
Proof.
  intros Hlen. induction fuel as [|fuel IH]; intros i l' m1 Hw Hh Hi Hf; [lia|]. cbn [reverse_loop].
  pose proof (Z.div_mod (Z.of_nat (length l)) 2 ltac:(lia)). pose proof (Z.mod_pos_bound (Z.of_nat (length l)) 2 ltac:(lia)).
  destruct (Z.ltb_spec (Z.of_nat i) (Z.of_nat (length l) / 2)).
  - pose proof Hh as [Hl' _].
    destruct (lookup_lt_is_Some_2 l' i) as [x Hx]; [lia|].
    destruct (lookup_lt_is_Some_2 l' (length l - 1 - i)) as [y Hy]; [lia|].
    rewrite (u32_small (Z.of_nat (length l) - Z.of_nat i)) by rlia.
    replace (Z.of_nat (length l) - Z.of_nat i - 1) with (Z.of_nat (length l - 1 - i)) by lia.
    rewrite (u32_small (Z.of_nat (length l - 1 - i))) by rlia.
    destruct (swap_run m1 (p + Z.of_nat i) (p + Z.of_nat (length l - 1 - i)) x y) as (m2 & E & ->);
      [lia|by apply (wrote_bytes_at _ _ _ _ Hw)|by apply (wrote_bytes_at _ _ _ _ Hw)|].
    rewrite (bind_run _ _ _ _ _ E). rewrite (u32_small (Z.of_nat i + 1)) by rlia.
    replace (Z.of_nat i + 1) with (Z.of_nat (S i)) by lia.
    eapply (IH (S i)); [|apply half_reversed_step; [done|lia|done|done]|lia|lia].
    apply wrote_insert; [|rewrite length_insert; lia]. apply wrote_insert; [done|lia].
  - exists m1. split; [done|]. rewrite <- (half_reversed_rev l l' i Hh); [done|]. lia.
Qed.

(** ** Digits *)
Section Digits.
Context (base : Z) (Hbase : 2 <= base <= 36).

Lemma div_pow n v : 0 <= v < base ^ Z.of_nat (S n) -> 0 <= v / base < base ^ Z.of_nat n.
Proof.
  intros Hv. split; [apply Z.div_pos; lia|]. apply Z.div_lt_upper_bound; [lia|].
  rewrite <- Z.pow_succ_r by lia. replace (Z.succ (Z.of_nat n)) with (Z.of_nat (S n)) by lia. lia.
Qed.

Lemma lsd_length n v : (length (lsd n base v) <= n)%nat.
Proof. revert v. induction n as [|n IH]; intros v; simpl; [lia|]. destruct (v =? 0); simpl; [lia|]. specialize (IH (v / base)). lia. Qed.

Lemma lsd_short n k v : 0 <= v < base ^ Z.of_nat k -> (length (lsd n base v) <= k)%nat.
Proof.
  revert k v. induction n as [|n IH]; intros k v Hv; simpl; [lia|]. destruct (Z.eqb_spec v 0); simpl; [lia|].
  destruct k as [|k]; [simpl in Hv; lia|]. pose proof (IH k (v / base) (div_pow k v Hv)). lia.
Qed.

Lemma lsd_nonempty n v : v <> 0 -> lsd (S n) base v <> [].
Proof. intros Hv. cbn [lsd]. by rewrite (proj2 (Z.eqb_neq v 0)). Qed.

Lemma lsd_range n v : Forall (fun d => 0 <= d < base) (lsd n base v).
Proof.
  revert v. induction n as [|n IH]; intros v; simpl; [done|]. destruct (v =? 0); [done|].
  constructor; [apply Z.mod_pos_bound; lia|done].
Qed.

Lemma lsd_value n v : 0 <= v < base ^ Z.of_nat n -> foldr (fun d acc => acc * base + d) 0 (lsd n base v) = v.
Proof.
  revert v. induction n as [|n IH]; intros v Hv; [simpl in *; lia|]. cbn [lsd].
  destruct (Z.eqb_spec v 0) as [->|]; [done|]. cbn [foldr]. rewrite IH by (by apply div_pow).
  pose proof (Z.div_mod v base ltac:(lia)). lia.
Qed.

Lemma digits_loop_run buffer n : forall fuel v index m,
  0 <= v < base ^ Z.of_nat n -> (n < fuel)%nat -> mapped m (buffer + index) (Z.of_nat n) ->
  0 <= index -> index + Z.of_nat n < 2 ^ 32 ->
  exists m', digits_loop fuel v buffer index base m = Ok (index + Z.of_nat (length (lsd n base v)), m') /\
    wrote m m' (buffer + index) (digit_char <$> lsd n base v).
Proof.
  induction n as [|n IH]; intros [|fuel] v index m Hv Hf Hm Hi Hend; try lia; cbn [digits_loop].
  { assert (v = 0) as -> by (simpl in Hv; lia). exists m. simpl. split; [by rewrite Z.add_0_r|apply wrote_nil]. }
  rewrite Z.eqb_sym. cbn [lsd]. destruct (Z.eqb_spec v 0) as [->|].
  { exists m. simpl. split; [by rewrite Z.add_0_r|apply wrote_nil]. }
  rewrite (bind_run _ _ _ _ _ (store8_run m (buffer + index) _ ltac:(apply Hm; lia))).
  pose proof (Z.mod_pos_bound v base ltac:(lia)).
  rewrite (i32_small (v mod base)) by lia. rewrite (u32_small (index + 1)) by rlia.
  destruct (IH fuel (v / base) (index + 1) (<[buffer + index := digit_char (v mod base)]> m)) as (m' & E & Hw);
    [by apply div_pow|lia| |lia|lia|].
  { eapply wrote_mapped; [apply wrote_one|]. eapply mapped_sub; [exact Hm|lia|lia]. }
  exists m'. rewrite E. split; [do 2 f_equal; simpl; lia|]. rewrite fmap_cons.
  apply (wrote_app _ _ _ _ [_]  _ (wrote_one m (buffer + index) (digit_char (v mod base)))).
  simpl length. replace (buffer + index + Z.of_nat 1) with (buffer + (index + 1)) by lia. done.
Qed.

(** A digit's character is read back as the digit. *)
Lemma digit_char_value d : 0 <= d < base ->
  let b := digit_char d in b <> 0 /\ b <> CH_minus /\ is_byte b /\ isascii (i8 b) = true /\
    char_value (i8 (tolower (i8 b))) = d.
Proof.
  intros Hd. assert (Hall : forallb (fun d => let b := digit_char d in
    negb (b =? 0) && negb (b =? CH_minus) && (0 <=? b) && (b <? 2 ^ 8) && isascii (i8 b) &&
    (char_value (i8 (tolower (i8 b))) =? d)) (Z.of_nat <$> seq 0 36) = true) by (vm_compute; reflexivity).
  rewrite forallb_forall in Hall. specialize (Hall d). cbv zeta in Hall |- *.
  assert (Hin : In d (Z.of_nat <$> seq 0 36)).
  { apply list_elem_of_In, list_elem_of_fmap. exists (Z.to_nat d). split; [lia|]. apply elem_of_seq. lia. }
  specialize (Hall Hin). rewrite !andb_true_iff in Hall. destruct Hall as (((((H1 & H2) & H3) & H4) & H5) & H6).
  unfold is_byte. split_and!; try done; lia.
Qed.

Lemma atoi_loop_run buffer ds : forall fuel i value m, Forall (fun d => 0 <= d < base) ds ->
  bytes_at m (buffer + i) ((digit_char <$> ds) ++ [0]) -> (length ds < fuel)%nat -> 0 <= i ->
  i + Z.of_nat (length ds) < 2 ^ 32 ->
  atoi_loop fuel i value buffer base m = Ok (foldl (fun v d => u64 (v * base + d)) value ds, m).
Proof.
  induction ds as [|d ds IH]; intros [|fuel] i value m Hds Hb Hf Hi Hend; simpl length in *; try lia; cbn [atoi_loop].
  - rewrite (bind_run _ _ _ _ _ (load8_run m (buffer + i) 0 ltac:(specialize (Hb 0%nat 0 eq_refl);
      by rewrite Z.add_0_r in Hb))). done.
  - apply Forall_cons_1 in Hds as [Hd Hds]. destruct (digit_char_value d Hd) as (H1 & _ & H2 & H3 & H4).
    rewrite (bind_run _ _ _ _ _ (load8_run m (buffer + i) (digit_char d) ltac:(specialize (Hb 0%nat _ eq_refl);
      by rewrite Z.add_0_r in Hb))).
    rewrite (proj2 (Z.eqb_neq _ 0)) by done. rewrite (bind_run _ _ _ _ _ (ASSERT_run _ m H3)). cbv zeta. rewrite H4.
    rewrite (bind_run _ _ m tt m) by (apply ASSERT_run; lia). rewrite (u32_small (i + 1)) by rlia.
    simpl foldl. apply IH; [done| |lia|lia|lia].
    intros j b Hj. specialize (Hb (S j) b Hj). by replace (buffer + (i + 1) + Z.of_nat j) with (buffer + i + Z.of_nat (S j)) by lia.
Qed.

Lemma foldl_u64 ds : forall v, foldl (fun v d => u64 (v * base + d)) (u64 v) ds =
  u64 (foldl (fun v d => v * base + d) v ds).
Proof.
  induction ds as [|d ds IH]; intros v; [done|]. simpl. rewrite <- IH. f_equal. unfold u64.
  rewrite <- Zplus_mod_idemp_l, Zmult_mod_idemp_l, Zplus_mod_idemp_l. done.
Qed.

Lemma foldl_rev (l : list Z) : foldl (fun v d => v * base + d) 0 (rev l) = foldr (fun d v => v * base + d) 0 l.
Proof.
  induction l as [|d l IH]; [done|]. simpl. rewrite foldl_app. simpl. by rewrite IH.
Qed.

Lemma base_64 : 2 ^ 64 <= base ^ Z.of_nat 64.
Proof. apply Z.pow_le_mono_l. lia. Qed.

Lemma read_digits v : is_qword v -> foldl (fun v d => u64 (v * base + d)) 0 (rev (lsd 64 base v)) = v.
Proof.
  intros Hv. change 0 with (u64 0). rewrite foldl_u64, foldl_rev, lsd_value.
  - by apply u64_small.
  - pose proof base_64. rlia.
Qed.
End Digits.

Lemma mapped_size m p n : 0 <= n -> mapped m p n -> (Z.to_nat n <= size m)%nat.
Proof.
  intros Hn Hm. rewrite <- size_dom. rewrite <- (length_seqZ p n).
  rewrite <- (size_list_to_set (C := gset Z) (seqZ p n)) by apply NoDup_seqZ.
  apply subseteq_size. intros a Ha. apply elem_of_list_to_set, elem_of_seqZ in Ha.
  apply elem_of_dom, Hm. lia.
Qed.

(** ** Signs *)
Lemma u64_opp_i64 z : u64 (- i64 z) = u64 (- z).
Proof.
  unfold u64, i64. rewrite (Z.mod_eq (z + 2 ^ 63)) by lia.
  replace (- (z + 2 ^ 63 - 2 ^ 64 * ((z + 2 ^ 63) / 2 ^ 64) - 2 ^ 63))
    with (- z + (z + 2 ^ 63) / 2 ^ 64 * 2 ^ 64) by lia. apply Z.mod_add. lia.
Qed.
Lemma u64_i64 z : u64 (i64 z) = u64 z.
Proof. rewrite <- (Z.opp_involutive (i64 z)). unfold u64. rewrite <- (Z.opp_involutive z) at 2.
  pose proof (u64_opp_i64 z) as H. unfold u64 in H.
  rewrite <- (Z.sub_0_l (- i64 z)), <- (Z.sub_0_l (- z)), Zminus_mod, H, <- Zminus_mod. done. Qed.
Lemma u64_opp_u64 z : u64 (- u64 z) = u64 (- z).
Proof. unfold u64. rewrite <- !Z.sub_0_l, Zminus_mod_idemp_r. done. Qed.
Lemma u32_u64 z : u32 (u64 z) = u32 z.
Proof.
  unfold u32, u64. rewrite (Z.mod_eq z (2 ^ 64)) by lia.
  replace (z - 2 ^ 64 * (z / 2 ^ 64)) with (z + (- (2 ^ 32 * (z / 2 ^ 64))) * 2 ^ 32) by lia. apply Z.mod_add. lia.
Qed.
Lemma u32_i32 z : u32 (i32 z) = u32 z.
Proof.
  unfold u32, i32. rewrite (Z.mod_eq (z + 2 ^ 31)) by lia.
  replace (z + 2 ^ 31 - 2 ^ 32 * ((z + 2 ^ 31) / 2 ^ 32) - 2 ^ 31)
    with (z + (- ((z + 2 ^ 31) / 2 ^ 32)) * 2 ^ 32) by lia. apply Z.mod_add. lia.
Qed.
Lemma u32_opp_i32 z : u32 (- i32 z) = u32 (- z).
Proof.
  unfold u32, i32. rewrite (Z.mod_eq (z + 2 ^ 31)) by lia.
  replace (- (z + 2 ^ 31 - 2 ^ 32 * ((z + 2 ^ 31) / 2 ^ 32) - 2 ^ 31))
    with (- z + (z + 2 ^ 31) / 2 ^ 32 * 2 ^ 32) by lia. apply Z.mod_add. lia.
Qed.
Lemma i64_range z : - 2 ^ 63 <= i64 z < 2 ^ 63.
Proof. unfold i64. pose proof (Z.mod_pos_bound (z + 2 ^ 63) (2 ^ 64) ltac:(lia)). lia. Qed.
Lemma i32_range z : - 2 ^ 31 <= i32 z < 2 ^ 31.
Proof. unfold i32. pose proof (Z.mod_pos_bound (z + 2 ^ 31) (2 ^ 32) ltac:(lia)). lia. Qed.

(** itoa prints the sign and the magnitude of [printed]. *)
Lemma itoa_sign v s w : is_qword (itoa_magnitude v s w) /\
  (itoa_negative v s w = true -> 0 < itoa_magnitude v s w) /\
  printed v s w = if itoa_negative v s w then - itoa_magnitude v s w else itoa_magnitude v s w.
Proof.
  unfold itoa_magnitude, itoa_negative, printed, denoted.
  pose proof (i64_range v). pose proof (i32_range v). pose proof (u64_range v). pose proof (u32_range v).
  destruct w, s; cbn [andb negb].
  - destruct (Z.ltb_spec (i64 v) 0).
    + unwrap. split; [rlia|]. lia.
    + split; [done|]. split; [done|]. rewrite <- u64_i64. symmetry. apply u64_small. rlia.
  - done.
  - destruct (Z.ltb_spec (i32 v) 0).
    + destruct (Z.eqb_spec (i32 v) (- 2 ^ 31)) as [E|E].
      * rewrite E. vm_compute. intuition congruence.
      * rewrite (i32_small (- i32 v)) by lia. unwrap. split; [rlia|]. lia.
    + destruct (Z.eqb_spec (i32 v) (- 2 ^ 31)); [lia|]. split; [rlia|]. split; [done|].
      rewrite <- u32_i32. symmetry. apply u32_small. rlia.
  - destruct (Z.eqb_spec (u32 v) (- 2 ^ 31)); [rlia|]. split; [rlia|]. done.
Qed.

(** Reading the magnitude with its sign gives the bits back. *)
Lemma magnitude_bits v s w : is_qword v ->
  let value := itoa_magnitude v s w in
  let value' := if itoa_negative v s w then u64 (- i64 value) else value in
  (w = true -> value' = v) /\
  (w = false -> u32 value' = u32 v /\ (itoa_negative v s w || (value' <=? MAX_DWORD) = true)).
Proof.
  intros Hv. cbv zeta. unfold itoa_magnitude. destruct (itoa_negative v s w).
  - rewrite u64_opp_i64. destruct w; (split; intros Hw; [|]); try done.
    + rewrite u64_opp_u64, Z.opp_involutive, u64_i64. by apply u64_small.
    + rewrite u32_u64. split; [|done]. rewrite <- u32_u64, u64_opp_u64, u32_u64, u32_opp_i32, Z.opp_involutive. apply u32_i32.
  - pose proof (u32_range v). destruct w; (split; intros Hw; [|]); try done.
    + by apply u64_small.
    + rewrite (u32_small (u32 v)) by done. split; [done|]. simpl. apply Z.leb_le. rlia.
Qed.

(** ** itoa and atoi *)
Definition magnitude_digits (base v : Z) : list Z := if v =? 0 then [0] else lsd 64 base v.

Lemma numeral_digits base v : numeral base v = digit_char <$> rev (magnitude_digits base v).
Proof. unfold numeral, magnitude_digits. by destruct (v =? 0). Qed.

Lemma wrote_outside m m1 p l q z : wrote m m1 p l -> q = p + Z.of_nat (length l) ->
  wrote (<[q := z]> m) (<[q := z]> m1) p l.
Proof.
  intros H -> a. destruct (decide (a = p + Z.of_nat (length l))) as [->|Hne].
  - rewrite !lookup_insert_eq, bool_decide_eq_false_2 by lia. done.
  - rewrite !lookup_insert_ne by done. apply H.
Qed.

Lemma wrote_tail m m' p l z : wrote (<[p + Z.of_nat (length l) := z]> m) m' p l -> wrote m m' p (l ++ [z]).
Proof.
  intros H a. rewrite (H a), length_app. simpl length.
  destruct (decide (a = p + Z.of_nat (length l))) as [->|Hne].
  - rewrite bool_decide_eq_false_2, bool_decide_eq_true_2, lookup_insert_eq by lia.
    rewrite lookup_app_r by lia. by replace (Z.to_nat (p + Z.of_nat (length l) - p) - length l)%nat with 0%nat by lia.
  - rewrite lookup_insert_ne by done. repeat case_bool_decide; try lia; [|done]. by rewrite lookup_app_l by lia.
Qed.

(** The digits are written from the lowest on. *)
Lemma itoa_digits base v buffer m : 2 <= base <= 36 -> is_qword v -> mapped m buffer 64 ->
  exists i0 m0 m', (if 0 =? v then _ ← store8 buffer CH_0; ret 1 else ret 0) m = Ok (i0, m0) /\
    digits_loop 65 v buffer i0 base m0 = Ok (Z.of_nat (length (magnitude_digits base v)), m') /\
    wrote m m' buffer (digit_char <$> magnitude_digits base v).
Proof.
  intros Hb Hv Hm. unfold magnitude_digits. rewrite (Z.eqb_sym 0 v). destruct (Z.eqb_spec v 0) as [->|Hne].
  - erewrite bind_run by (apply store8_run, Hm; lia).
    eexists _, _, _. split; [reflexivity|]. split; [reflexivity|]. apply wrote_one.
  - destruct (digits_loop_run base Hb buffer 64 65 v 0 m) as (m' & E & Hw); [|lia| |lia|lia|].
    + pose proof (base_64 base Hb). rlia.
    + rewrite Z.add_0_r. eapply mapped_sub; [exact Hm|lia|lia].
    + exists 0, m, m'. rewrite E, Z.add_0_l. rewrite Z.add_0_r in Hw. done.
Qed.

Lemma itoa_minus (neg : bool) buffer l m m1 N : wrote m m1 buffer l -> mapped m buffer N -> (length l <= 64)%nat ->
  Z.of_nat (length (l ++ (if neg then [CH_minus] else []))) < N ->
  exists m2, let r := l ++ (if neg then [CH_minus] else []) in
    (if neg then _ ← store8 (buffer + Z.of_nat (length l)) CH_minus; ret (u32 (Z.of_nat (length l) + 1))
     else ret (Z.of_nat (length l))) m1 = Ok (Z.of_nat (length r), m2) /\ wrote m m2 buffer r.
Proof.
  intros Hw Hm Hl HN. rewrite length_app in HN. destruct neg; simpl in HN.
  - erewrite bind_run by (apply store8_run; eapply wrote_mapped; [exact Hw|exact Hm|lia]).
    eexists. cbv zeta. rewrite length_app. simpl length. split.
    + unfold ret. rewrite u32_small by rlia. do 2 f_equal. lia.
    + eapply wrote_app; [exact Hw|apply wrote_one].
  - exists m1. cbv zeta. by rewrite app_nil_r.
Qed.

(** What itoa writes before the terminator. *)
Definition itoa_text (v : Z) (s : bool) (base : Z) (w : bool) : list Z :=
  (if itoa_negative v s w then [CH_minus] else []) ++ numeral base (itoa_magnitude v s w).

Lemma numeral_length base v : (length (numeral base v) <= 64)%nat.
Proof.
  rewrite numeral_digits, length_fmap, length_rev. unfold magnitude_digits.
  destruct (v =? 0); [simpl; lia|apply lsd_length].
Qed.

Lemma numeral_short base k v : 2 <= base <= 36 -> (0 < k)%nat -> 0 <= v < base ^ Z.of_nat k -> (length (numeral base v) <= k)%nat.
Proof.
  intros Hb Hk Hv. rewrite numeral_digits, length_fmap, length_rev. unfold magnitude_digits.
  destruct (v =? 0); [simpl; lia|by apply lsd_short].
Qed.

Lemma numeral_chars base v : 2 <= base <= 36 -> Forall (fun b => 0 < b < 2 ^ 7) (numeral base v).
Proof.
  intros Hb. rewrite numeral_digits. apply Forall_fmap, Forall_rev. unfold magnitude_digits. destruct (v =? 0).
  - repeat constructor.
  - eapply Forall_impl; [apply (lsd_range base Hb)|]. intros d Hd. cbv beta in Hd. unfold compose, digit_char, CH_A, CH_0.
    destruct (Z.ltb_spec 9 d); rewrite u8_small by rlia; lia.
Qed.

Lemma itoa_text_chars v s base w : 2 <= base <= 36 -> Forall (fun b => 0 < b < 2 ^ 8) (itoa_text v s base w).
Proof.
  intros Hb. apply Forall_app. split; [destruct (itoa_negative v s w); repeat constructor|].
  eapply Forall_impl; [by apply numeral_chars|]. intros b Hb'. cbv beta in *. lia.
Qed.

Lemma itoa_text_length v s base w : (length (itoa_text v s base w) <= 65)%nat.
Proof. unfold itoa_text. rewrite length_app. pose proof (numeral_length base (itoa_magnitude v s w)). destruct (itoa_negative v s w); simpl; lia. Qed.

Lemma itoa_run v s buffer base w m N : 2 <= base <= 36 -> buffer <> NULL -> 64 <= N -> mapped m buffer N ->
  Z.of_nat (length (itoa_text v s base w)) < N ->
  exists m', itoa v s buffer base w m = Ok (tt, m') /\ wrote m m' buffer (itoa_text v s base w ++ [0]).
Proof.
  intros Hb Hn HN Hm HlN. unfold itoa_text in *. set (l := _ ++ _) in *. destruct (itoa_sign v s w) as (Hq & _ & _). unfold itoa. cbv zeta.
  rewrite (bind_run _ _ m tt m) by (apply ASSERT_run; unfold NULL in *; lia).
  rewrite (bind_run _ _ m tt m) by (apply ASSERT_run; lia).
  set (value := itoa_magnitude v s w) in *. set (neg := itoa_negative v s w) in *.
  destruct (itoa_digits base value buffer m Hb Hq ltac:(eapply mapped_sub; [exact Hm|lia|lia])) as (i0 & m0 & m1 & E0 & E1 & Hw1).
  rewrite (bind_run _ _ _ _ _ E0), (bind_run _ _ _ _ _ E1).
  set (ds := magnitude_digits base value) in *. rewrite <- (length_fmap digit_char ds).
  assert (Hds : (length (digit_char <$> ds) <= 64)%nat).
  { rewrite length_fmap. unfold ds, magnitude_digits. destruct (value =? 0); [simpl; lia|apply lsd_length]. }
  assert (El : l = rev ((digit_char <$> ds) ++ (if neg then [CH_minus] else []))).
  { unfold l. rewrite rev_app_distr, numeral_digits. fold ds. f_equal; [by destruct neg|].
    exact (map_rev digit_char ds). }
  rewrite El, length_rev in HlN.
  destruct (itoa_minus neg buffer _ m m1 N Hw1 Hm Hds HlN) as (m2 & E2 & Hw2).
  rewrite (bind_run _ _ _ _ _ E2). set (r := (digit_char <$> ds) ++ _) in *.
  assert (Hr : (length r <= 65)%nat) by (unfold r; rewrite length_app; destruct neg; simpl; lia).
  erewrite bind_run by (apply store8_run; eapply wrote_mapped; [exact Hw2|exact Hm|lia]).
  destruct (reverse_loop_run (<[buffer + Z.of_nat (length r) := 0]> m) buffer r ltac:(lia)
    (S (Z.to_nat (Z.of_nat (length r)))) 0 r (<[buffer + Z.of_nat (length r) := 0]> m2)) as (m' & E3 & Hw3).
  - by apply wrote_outside.
  - split; [done|]. intros j Hj. rewrite decide_False by lia. done.
  - lia.
  - lia.
  - exists m'. rewrite Nat2Z.inj_0 in E3. rewrite E3, El. split; [done|].
    apply wrote_tail. rewrite length_rev. done.
Qed.

Lemma atoi_run buffer base w m (neg : bool) ds : 2 <= base <= 36 -> buffer <> NULL ->
  Forall (fun d => 0 <= d < base) ds -> ds <> [] -> (length ds <= 64)%nat ->
  bytes_at m buffer ((if neg then [CH_minus] else []) ++ (digit_char <$> ds) ++ [0]) ->
  let value := foldl (fun v d => u64 (v * base + d)) 0 ds in
  let value' := if neg then u64 (- i64 value) else value in
  (w = false -> neg || (value' <=? MAX_DWORD) = true) ->
  atoi buffer base w m = Ok (if w then value' else u32 value', m).
Proof.
  intros Hb Hn Hds Hne Hlen Hby value value' Hw. unfold atoi. cbv zeta.
  rewrite (bind_run _ _ m tt m) by (apply ASSERT_run; unfold NULL in *; lia).
  rewrite (bind_run _ _ m tt m) by (apply ASSERT_run; lia).
  assert (Hfirst : exists b, m !! buffer = Some b /\ (CH_minus =? b) = neg).
  { destruct neg.
    - exists CH_minus. split; [|done]. specialize (Hby 0%nat _ eq_refl). by rewrite Z.add_0_r in Hby.
    - destruct ds as [|d ds]; [done|]. exists (digit_char d). apply Forall_cons_1 in Hds as [Hd _].
      destruct (digit_char_value base Hb d Hd) as (_ & H2 & _).
      specialize (Hby 0%nat _ eq_refl). rewrite Z.add_0_r in Hby. split; [done|].
      apply Z.eqb_neq. congruence. }
  destruct Hfirst as (b & Hbuf & Eneg). rewrite (bind_run _ _ _ _ _ (load8_run _ _ _ Hbuf)), Eneg.
  rewrite (bind_run _ _ m (size m) m) by done.
  set (i := if neg then 1 else 0). assert (Hi : 0 <= i <= 1) by (unfold i; by destruct neg).
  assert (Hby2 : bytes_at m (buffer + i) ((digit_char <$> ds) ++ [0])).
  { unfold i. destruct neg; [|by rewrite Z.add_0_r]. intros j c Hj. specialize (Hby (S j) c Hj).
    by replace (buffer + 1 + Z.of_nat j) with (buffer + Z.of_nat (S j)) by lia. }
  assert (Hsize : (length ds < S (size m))%nat).
  { pose proof (mapped_size m (buffer + i) (Z.of_nat (length ds)) ltac:(lia)) as H. rewrite Nat2Z.id in H.
    specialize (H ltac:(intros a Ha; destruct (lookup_lt_is_Some_2 (digit_char <$> ds) (Z.to_nat (a - (buffer + i)))) as [c Hc];
      [rewrite length_fmap; lia|]; exists c; replace a with (buffer + i + Z.of_nat (Z.to_nat (a - (buffer + i)))) by lia;
      apply Hby2; by apply lookup_app_l_Some)). lia. }
  rewrite (bind_run _ _ _ _ _ (atoi_loop_run base Hb buffer ds (S (size m)) i 0 m Hds Hby2 Hsize ltac:(lia) ltac:(lia))).
  fold value value'. destruct w; [done|]. rewrite (bind_run _ _ _ _ _ (ASSERT_run _ m (Hw eq_refl))). done.
Qed.

(** * Theorems *)


