(* ===== verification/ClString.v ===== *)
(** CommonLib/src/cl_string.c: comparison, search, copying, tokens, trimming and formatted output of strings in a byte memory.

    A string is the address of its first byte; [char] is signed.  Each loop reads another byte of the memory in every iteration,
    so the number of bytes of the memory bounds the iterations.  The second part gives each function
    its meaning on lists of characters. *)
From S2P Require Import Prelude IntUtils ClMemory StrUtils.

Definition VSNPRINTF_BUFFER_SIZE : Z := 65.
Definition INVALID_STRING_SIZE : Z := MAX_DWORD.
Definition BASE_TWO : Z := 2.
Definition BASE_TEN : Z := 10.
Definition BASE_HEXA : Z := 16.
Definition isspace (c : Z) : bool := (32 =? c) || (9 =? c) || (10 =? c) || (13 =? c).

(** [s[i]] as a char. *)
Definition char_at (s i : Z) : M Mem Z := b ← load8 (s + i); ret (i8 b).
(** [tolower] stored into a char. *)
Definition lower (c : Z) : Z := i8 (tolower c).
(** An iteration bound for loops over a string. *)
Definition mem_bound : M Mem nat := gets (fun m : Mem => S (size m)).

(** * Comparison *)
(** The loop of the four comparisons: [conv] is what is compared, [limit] the length for the bounded ones.  A result
    when two characters differ, otherwise the index at which the loop ended. *)
Fixpoint cmp_loop (fuel : nat) (conv : Z -> Z) (limit : option Z) (i str1 str2 : Z) : M Mem (Z + Z) :=
  match fuel with
  | O => fail NoFuel
  | S fuel' =>
    if match limit with Some length => negb (i <? length) | None => false end then ret (inr i) else
    c1 ← char_at str1 i;
    if 0 =? c1 then ret (inr i) else
    c2 ← char_at str2 i;
    if 0 =? c2 then ret (inr i) else
    if conv c2 <? conv c1 then ret (inl 1) else
    if conv c1 <? conv c2 then ret (inl (-1)) else
    cmp_loop fuel' conv limit (u32 (i + 1)) str1 str2
  end.

Definition strcmp_body (conv : Z -> Z) (str1 str2 : Z) : M Mem Z :=
  if NULL =? str1 then ret (i32 STATUS_INVALID_PARAMETER1) else
  if NULL =? str2 then ret (i32 STATUS_INVALID_PARAMETER2) else
  n ← mem_bound;
  r ← cmp_loop n conv None 0 str1 str2;
  match r with
  | inl v => ret v
  | inr i =>
    c1 ← char_at str1 i;
    if negb (0 =? c1) then ret 1 else
    c2 ← char_at str2 i;
    if negb (0 =? c2) then ret (-1) else ret 0
  end.
Definition cl_strcmp (str1 str2 : Z) : M Mem Z := strcmp_body (fun c => c) str1 str2.
Definition cl_stricmp (str1 str2 : Z) : M Mem Z := strcmp_body lower str1 str2.

Definition strncmp_body (conv : Z -> Z) (str1 str2 length : Z) : M Mem Z :=
  if NULL =? str1 then ret (i32 STATUS_INVALID_PARAMETER1) else
  if NULL =? str2 then ret (i32 STATUS_INVALID_PARAMETER2) else
  if 0 =? length then ret (i32 STATUS_INVALID_PARAMETER3) else
  n ← mem_bound;
  r ← cmp_loop n conv (Some length) 0 str1 str2;
  match r with
  | inl v => ret v
  | inr i =>
    if i =? length then ret 0 else
    c1 ← char_at str1 i;
    if negb (0 =? c1) then ret 1 else ret (-1)
  end.
Definition cl_strncmp (str1 str2 length : Z) : M Mem Z := strncmp_body (fun c => c) str1 str2 length.
Definition cl_strnicmp (str1 str2 length : Z) : M Mem Z := strncmp_body lower str1 str2 length.

(** * Search *)
Fixpoint strchr_loop (fuel : nat) (i str c : Z) : M Mem Z :=
  match fuel with
  | O => fail NoFuel
  | S fuel' =>
    x ← char_at str i;
    if 0 =? x then ret str else
    if x =? c then ret (str + i) else strchr_loop fuel' (u32 (i + 1)) str c
  end.
Definition cl_strchr (str c : Z) : M Mem Z :=
  if NULL =? str then ret NULL else n ← mem_bound; strchr_loop n 0 str c.

Fixpoint strrchr_loop (fuel : nat) (i str c charIndex : Z) : M Mem Z :=
  match fuel with
  | O => fail NoFuel
  | S fuel' =>
    x ← char_at str i;
    if 0 =? x then ret charIndex else
    strrchr_loop fuel' (u32 (i + 1)) str c (if x =? c then str + i else charIndex)
  end.
Definition cl_strrchr (str c : Z) : M Mem Z :=
  if NULL =? str then ret NULL else n ← mem_bound; strrchr_loop n 0 str c str.

(** * Length and copying *)
Fixpoint strlen_loop (fuel : nat) (limit : option Z) (i str : Z) : M Mem Z :=
  match fuel with
  | O => fail NoFuel
  | S fuel' =>
    if match limit with Some maxLen => negb (i <? maxLen) | None => false end then ret i else
    x ← char_at str i;
    if 0 =? x then ret i else strlen_loop fuel' limit (u32 (i + 1)) str
  end.
Definition cl_strlen (str : Z) : M Mem Z :=
  if NULL =? str then ret INVALID_STRING_SIZE else n ← mem_bound; strlen_loop n None 0 str.
Definition cl_strlen_s (str maxLen : Z) : M Mem Z :=
  if NULL =? str then ret INVALID_STRING_SIZE else n ← mem_bound; strlen_loop n (Some maxLen) 0 str.

Fixpoint strcpy_loop (fuel : nat) (limit : option Z) (i dst src : Z) : M Mem unit :=
  match fuel with
  | O => fail NoFuel
  | S fuel' =>
    if match limit with Some length => negb (i <? length) | None => false end then store8 (dst + i) 0 else
    x ← load8 (src + i);
    if 0 =? x then store8 (dst + i) 0 else
    _ ← store8 (dst + i) x;
    strcpy_loop fuel' limit (u32 (i + 1)) dst src
  end.
Definition cl_strcpy (dst src : Z) : M Mem unit :=
  _ ← ASSERT (negb (NULL =? dst)); _ ← ASSERT (negb (NULL =? src));
  n ← mem_bound; strcpy_loop n None 0 dst src.
Definition cl_strncpy (dst src length : Z) : M Mem unit :=
  _ ← ASSERT (negb (NULL =? dst)); _ ← ASSERT (negb (NULL =? src)); _ ← ASSERT (negb (0 =? length));
  n ← mem_bound; strcpy_loop n (Some length) 0 dst src.

(** * Tokens *)
Fixpoint is_delimiter (fuel : nat) (j c delimiters : Z) : M Mem bool :=
  match fuel with
  | O => fail NoFuel
  | S fuel' =>
    d ← char_at delimiters j;
    if 0 =? d then ret false else
    if c =? d then ret true else is_delimiter fuel' (u32 (j + 1)) c delimiters
  end.
(** The result of the loop is the new value of the context. *)
Fixpoint strtok_loop (fuel : nat) (i pStr delimiters : Z) : M Mem Z :=
  match fuel with
  | O => fail NoFuel
  | S fuel' =>
    c ← char_at pStr i;
    if 0 =? c then ret (pStr + i) else
    n ← mem_bound;
    d ← is_delimiter n 0 c delimiters;
    if d : bool then _ ← store8 (pStr + i) 0; ret (pStr + u32 (i + 1))
    else strtok_loop fuel' (u32 (i + 1)) pStr delimiters
  end.
(** The token and the new value of *context. *)
Definition cl_strtok_s (strToken delimiters context : Z) : M Mem (Z * Z) :=
  if NULL =? delimiters then ret (NULL, context) else
  if (NULL =? context) && (NULL =? strToken) then ret (NULL, context) else
  let pStr := if NULL =? context then strToken else context in
  c ← char_at pStr 0;
  if 0 =? c then ret (NULL, context) else
  n ← mem_bound;
  context ← strtok_loop n 0 pStr delimiters;
  ret (pStr, context).

Fixpoint strcelem_loop (fuel : nat) (curPosition pPrevValue delimiter noOfElements : Z) : M Mem Z :=
  match fuel with
  | O => fail NoFuel
  | S fuel' =>
    if curPosition =? pPrevValue then ret noOfElements else
    let curPosition := curPosition + 1 in
    next ← cl_strchr curPosition delimiter;
    strcelem_loop fuel' next curPosition delimiter (u32 (noOfElements + 1))
  end.
Definition cl_strcelem (string delimiter : Z) : M Mem Z :=
  if string =? NULL then ret INVALID_STRING_SIZE else
  curPosition ← cl_strchr string delimiter;
  n ← mem_bound;
  strcelem_loop n curPosition string delimiter 1.

(** * Trimming *)
Fixpoint first_nonspace (fuel : nat) (i string : Z) : M Mem Z :=
  match fuel with
  | O => fail NoFuel
  | S fuel' =>
    c ← char_at string i;
    if 0 =? c then ret MAX_DWORD else
    if negb (isspace c) then ret i else first_nonspace fuel' (u32 (i + 1)) string
  end.
Fixpoint right_trim (fuel : nat) (i string startIndex lengthAfterRightTrim : Z) : M Mem Z :=
  match fuel with
  | O => fail NoFuel
  | S fuel' =>
    if startIndex <? i then
      c ← char_at string (u32 (i - 1));
      if negb (isspace c) then _ ← store8 (string + i) 0; ret i
      else right_trim fuel' (u32 (i - 1)) string startIndex lengthAfterRightTrim
    else ret lengthAfterRightTrim
  end.
Definition cl_strtrim (string : Z) : M Mem unit :=
  _ ← ASSERT (negb (NULL =? string));
  n ← mem_bound;
  startIndex ← first_nonspace n 0 string;
  if MAX_DWORD =? startIndex then store8 string 0 else
  len ← cl_strlen string;
  i ← cl_strlen string;
  lengthAfterRightTrim ← right_trim n i string startIndex len;
  if negb (0 =? startIndex) then
    _ ← ASSERT (negb (lengthAfterRightTrim =? 0));
    cl_memmove string (string + startIndex) lengthAfterRightTrim
  else ret tt.

(** * Formatted output *)
Definition CH_percent : Z := 37.
Definition CH_space : Z := 32.

(** The digits after a percent sign: the width, the character to fill with, the index in the format and the
    character after the digits. *)
Fixpoint parse_digits (fuel : nat) (inputBuffer index digits fillChar : Z) (firstSpecificator : bool) (next : Z)
    : M Mem (Z * Z * Z * Z) :=
  match fuel with
  | O => fail NoFuel
  | S fuel' =>
    if (CH_0 <=? next) && (next <=? CH_9) then
      let fillChar := if firstSpecificator && (CH_0 =? next) then CH_0 else fillChar in
      let digits := u32 (digits * 10 + next - CH_0) in
      let index := u32 (index + 1) in
      next' ← char_at inputBuffer (u32 (index + 1));
      parse_digits fuel' inputBuffer index digits fillChar false next'
    else ret (digits, fillChar, index, next)
  end.

(** The numeric specifiers: signedness, base and width. *)
Definition number_spec (next : Z) : option (bool * Z * bool) :=
  if next =? 98 then Some (false, BASE_TWO, false) else          (* b *)
  if next =? 66 then Some (false, BASE_TWO, true) else           (* B *)
  if next =? 117 then Some (false, BASE_TEN, false) else         (* u *)
  if next =? 85 then Some (false, BASE_TEN, true) else           (* U *)
  if next =? 100 then Some (true, BASE_TEN, false) else          (* d *)
  if next =? 68 then Some (true, BASE_TEN, true) else            (* D *)
  if next =? 120 then Some (false, BASE_HEXA, false) else        (* x *)
  if next =? 88 then Some (false, BASE_HEXA, true) else None.    (* X *)
Definition CH_c : Z := 99.
Definition CH_s : Z := 115.
Definition CH_S : Z := 83.

(** An argument is an 8-byte slot; [va_arg] takes the bytes of its type from it. *)
Definition va_arg (args : list Z) : M Mem (Z * list Z) :=
  match args with [] => fail MemFault | a :: args' => ret (a, args') end.

(** The switch: the string to print and the remaining arguments; nothing for an unknown specifier. *)
Definition convert (temp next : Z) (args : list Z) : M Mem (option (Z * list Z)) :=
  match number_spec next with
  | Some (signed, base, is64) =>
    '(a, args) ← va_arg args;
    let temp_value := if is64 : bool then u64 a else u32 a in
    _ ← itoa temp_value signed temp base is64;
    ret (Some (temp, args))
  | None =>
    if next =? CH_c then
      '(a, args) ← va_arg args;
      (* cl_strncpy of one character from temp_value *)
      let c := u8 a in
      _ ← (if 0 =? c then store8 temp 0 else _ ← store8 temp c; store8 (temp + 1) 0);
      ret (Some (temp, args))
    else if (next =? CH_s) || (next =? CH_S) then
      '(a, args) ← va_arg args; ret (Some (a, args))
    else ret None
  end.

(** [temp] is the address of the temporary buffer of VSNPRINTF_BUFFER_SIZE bytes. *)
Fixpoint vsnprintf_loop (fuel : nat) (temp outputBuffer buffSize inputBuffer index param_index outBufferOffset : Z)
    (args : list Z) : M Mem Z :=
  match fuel with
  | O => fail NoFuel
  | S fuel' =>
    c ← char_at inputBuffer index;
    if 0 =? c then _ ← store8 (outputBuffer + outBufferOffset) 0; ret (u32 (param_index - 1)) else
    if CH_percent =? c then
      next ← char_at inputBuffer (u32 (index + 1));
      n ← mem_bound;
      '(digits, fillChar, index, next) ← parse_digits n inputBuffer index 0 CH_space true next;
      r ← convert temp next args;
      match r with
      | None => ret STATUS_PARSE_FAILED
      | Some (temp_str, args) =>
        temp_len ← cl_strlen temp_str;
        _ ← ASSERT (negb (temp_len =? INVALID_STRING_SIZE));
        let charsToCopy := if next =? CH_S then Z.min digits temp_len else temp_len in
        if buffSize <=? u32 (outBufferOffset + temp_len) then ret STATUS_BUFFER_TOO_SMALL else
        let fillSpaces := if temp_len <? digits then u32 (digits - temp_len) else 0 in
        if buffSize <=? u32 (u32 (outBufferOffset + temp_len) + fillSpaces) then ret STATUS_BUFFER_TOO_SMALL else
        outBufferOffset ← (if negb (0 =? fillSpaces) then
                             _ ← cl_memset (outputBuffer + outBufferOffset) fillChar fillSpaces;
                             ret (u32 (outBufferOffset + fillSpaces))
                           else ret outBufferOffset);
        _ ← (if negb (charsToCopy =? 0) then cl_strncpy (outputBuffer + outBufferOffset) temp_str charsToCopy else ret tt);
        vsnprintf_loop fuel' temp outputBuffer buffSize inputBuffer (u32 (index + 2)) (u32 (param_index + 1))
          (u32 (outBufferOffset + charsToCopy)) args
      end
    else
      if buffSize <=? u32 (outBufferOffset + 1) then
        _ ← store8 (outputBuffer + outBufferOffset) 0; ret STATUS_BUFFER_TOO_SMALL
      else
        _ ← store8 (outputBuffer + outBufferOffset) (u8 c);
        vsnprintf_loop fuel' temp outputBuffer buffSize inputBuffer (u32 (index + 1)) param_index
          (u32 (outBufferOffset + 1)) args
  end.
Definition cl_vsnprintf (temp outputBuffer buffSize inputBuffer : Z) (argptr : list Z) : M Mem Z :=
  if NULL =? outputBuffer then ret STATUS_INVALID_PARAMETER1 else
  if 0 =? buffSize then ret STATUS_INVALID_PARAMETER2 else
  if NULL =? inputBuffer then ret STATUS_INVALID_PARAMETER3 else
  n ← mem_bound;
  vsnprintf_loop n temp outputBuffer buffSize inputBuffer 0 1 0 argptr.
Definition cl_snprintf (temp outputBuffer buffSize inputBuffer : Z) (argptr : list Z) : M Mem Z :=
  cl_vsnprintf temp outputBuffer buffSize inputBuffer argptr.

(** * Strings in memory *)
(** A null-terminated string at [p], as its bytes before the terminator. *)
Record cstr (m : Mem) (p : Z) (l : list Z) : Prop := {
  cs_null : p <> NULL;
  cs_bytes : bytes_at m p (l ++ [0]);
  cs_nonzero : Forall (fun b => 0 < b < 2 ^ 8) l;
  cs_length : Z.of_nat (length l) < 2 ^ 32 - 1 }.

Lemma i8_zero b : 0 <= b < 2 ^ 8 -> (0 =? i8 b) = (0 =? b).
Proof.
  intros Hb. unfold i8. destruct (Z.ltb_spec b (2 ^ 7)).
  - rewrite Z.mod_small by lia. zbool; lia.
  - replace (b + 2 ^ 7) with (b - 2 ^ 7 + 1 * 2 ^ 8) by lia. rewrite Z.mod_add, Z.mod_small by lia. zbool; lia.
Qed.

Lemma char_at_run m p b i : m !! (p + i) = Some b -> char_at p i m = Ok (i8 b, m).
Proof. intros H. unfold char_at. by rewrite (bind_run _ _ _ _ _ (load8_run _ _ _ H)). Qed.

Section Cstr.
Context (m : Mem) (p : Z) (l : list Z) (Hl : cstr m p l).

Lemma cstr_char i b : l !! i = Some b -> m !! (p + Z.of_nat i) = Some b /\ 0 < b < 2 ^ 8.
Proof.
  intros Hi. split; [|exact (Forall_lookup_1 _ _ _ _ (cs_nonzero _ _ _ Hl) Hi)].
  apply (cs_bytes _ _ _ Hl). by apply lookup_app_l_Some.
Qed.

Lemma cstr_end : m !! (p + Z.of_nat (length l)) = Some 0.
Proof. apply (cs_bytes _ _ _ Hl). rewrite lookup_app_r, Nat.sub_diag by lia. done. Qed.

Lemma cstr_mapped : mapped m p (Z.of_nat (length l) + 1).
Proof.
  intros a Ha. destruct (lookup_lt_is_Some_2 (l ++ [0]) (Z.to_nat (a - p))) as [b Hb]; [rewrite length_app; simpl; lia|].
  exists b. replace a with (p + Z.of_nat (Z.to_nat (a - p))) by lia. by apply (cs_bytes _ _ _ Hl).
Qed.

(** The memory bounds the length of a string. *)
Lemma cstr_bound : (length l < S (size m))%nat.
Proof. pose proof (mapped_size m p (Z.of_nat (length l) + 1) ltac:(lia) cstr_mapped). lia. Qed.

Lemma cstr_nonnull : (NULL =? p) = false.
Proof. apply Z.eqb_neq. pose proof (cs_null _ _ _ Hl). congruence. Qed.

(** What a loop finds at index [i], where the rest of the string is [r]. *)
Lemma cstr_view i r : drop i l = r -> (i <= length l)%nat ->
  match r with
  | [] => i = length l /\ m !! (p + Z.of_nat i) = Some 0
  | b :: r' => m !! (p + Z.of_nat i) = Some b /\ 0 < b < 2 ^ 8 /\ (0 =? i8 b) = false /\
      drop (S i) l = r' /\ (S i <= length l)%nat /\ u32 (Z.of_nat i + 1) = Z.of_nat (S i)
  end.
Proof.
  intros Hr Hi. destruct r as [|b r'].
  - apply (f_equal length) in Hr. rewrite length_drop in Hr. simpl in Hr. assert (i = length l) as -> by lia.
    split; [done|apply cstr_end].
  - assert (l !! i = Some b) as Hb by (rewrite <- (Nat.add_0_r i), <- lookup_drop, Hr; done).
    pose proof (cstr_char i b Hb) as [Hm Hz]. pose proof (lookup_lt_Some _ _ _ Hb).
    pose proof (cs_length _ _ _ Hl). split_and!; try done; try lia.
    + rewrite i8_zero by lia. zbool; lia.
    + replace (S i) with (i + 1)%nat by lia. by rewrite <- drop_drop, Hr.
    + unwrap. lia.
Qed.
End Cstr.


(** * The meaning of the functions on lists of characters *)
Fixpoint compare_chars (conv : Z -> Z) (l1 l2 : list Z) : Z :=
  match l1, l2 with
  | [], [] => 0
  | [], _ :: _ => -1
  | _ :: _, [] => 1
  | a :: l1', b :: l2' =>
    if conv (i8 b) <? conv (i8 a) then 1 else
    if conv (i8 a) <? conv (i8 b) then -1 else compare_chars conv l1' l2'
  end.

(** The part of the rest of a string, from index [i] on, that a limited loop may look at. *)
Definition within (limit : option Z) (i : nat) (r : list Z) : list Z :=
  match limit with None => r | Some n => take (Z.to_nat n - i) r end.

Lemma within_step limit i b r : match limit with Some n => negb (Z.of_nat i <? n) | None => false end = false ->
  within limit i (b :: r) = b :: within limit (S i) r.
Proof.
  destruct limit as [n|]; cbn [within]; [|done]. intros H%negb_false_iff%Z.ltb_lt.
  replace (Z.to_nat n - i)%nat with (S (Z.to_nat n - S i)) by lia. done.
Qed.

Lemma within_stop limit i r : match limit with Some n => negb (Z.of_nat i <? n) | None => false end = true ->
  within limit i r = [] /\ exists n, limit = Some n /\ n <= Z.of_nat i.
Proof.
  destruct limit as [n|]; cbn [within]; [|done]. intros H%negb_true_iff%Z.ltb_ge.
  replace (Z.to_nat n - i)%nat with 0%nat by lia. split; [done|by exists n].
Qed.

Section Compare.
Context (m : Mem) (p1 p2 : Z) (l1 l2 : list Z) (H1 : cstr m p1 l1) (H2 : cstr m p2 l2) (conv : Z -> Z).

Lemma cmp_loop_run limit : forall fuel i r1 r2, drop i l1 = r1 -> drop i l2 = r2 ->
  (i <= length l1)%nat -> (i <= length l2)%nat -> (length r1 < fuel)%nat ->
  match limit with Some n => Z.of_nat i <= n | None => True end ->
  exists res, cmp_loop fuel conv limit (Z.of_nat i) p1 p2 m = Ok (res, m) /\
    let c := compare_chars conv (within limit i r1) (within limit i r2) in
    match res with
    | inl v => v = c /\ v <> 0
    | inr k => exists j, k = Z.of_nat j /\ (j <= length l1)%nat /\ (j <= length l2)%nat /\
        match limit with Some n => k <= n | None => True end /\
        (limit = Some k \/ drop j l1 = [] \/ drop j l2 = []) /\
        c = compare_chars conv (within limit j (drop j l1)) (within limit j (drop j l2))
    end.
Proof.
  induction fuel as [|fuel IH]; intros i r1 r2 Hr1 Hr2 Hi1 Hi2 Hf Hlim; [lia|]. cbn [cmp_loop].
  destruct (match limit with Some n => negb (Z.of_nat i <? n) | None => false end) eqn:El.
  { eexists. split; [reflexivity|]. exists i. subst r1 r2. split_and!; try done.
    apply within_stop with (r := []) in El as (_&n&->&Hn). left. f_equal. lia. }
  pose proof (cstr_view m p1 l1 H1 i r1 Hr1 Hi1) as V1. pose proof (cstr_view m p2 l2 H2 i r2 Hr2 Hi2) as V2.
  destruct r1 as [|a r1].
  { destruct V1 as [_ V1]. rewrite (bind_run _ _ _ _ _ (char_at_run _ _ _ _ V1)). cbn. eexists. split; [reflexivity|].
    exists i. rewrite Hr1, Hr2. split_and!; try done. right. by left. }
  destruct V1 as (Va&Ba&Za&Da&La&Ua). rewrite (bind_run _ _ _ _ _ (char_at_run _ _ _ _ Va)), Za.
  destruct r2 as [|b r2].
  { destruct V2 as [_ V2]. rewrite (bind_run _ _ _ _ _ (char_at_run _ _ _ _ V2)). cbn. eexists. split; [reflexivity|].
    exists i. rewrite Hr1, Hr2. split_and!; try done. right. by right. }
  destruct V2 as (Vb&Bb&Zb&Db&Lb&_). rewrite (bind_run _ _ _ _ _ (char_at_run _ _ _ _ Vb)), Zb, Ua.
  rewrite !within_step by done. cbn [compare_chars].
  destruct (conv (i8 b) <? conv (i8 a)); [by eexists|]. destruct (conv (i8 a) <? conv (i8 b)); [by eexists|].
  apply IH; try done; [simpl in Hf; lia|]. destruct limit as [n|]; [|done]. apply negb_false_iff, Z.ltb_lt in El. lia.
Qed.

Lemma strcmp_run : strcmp_body conv p1 p2 m = Ok (compare_chars conv l1 l2, m).
Proof.
  unfold strcmp_body. rewrite (cstr_nonnull _ _ _ H1), (cstr_nonnull _ _ _ H2).
  rewrite (bind_run mem_bound _ m (S (size m)) m) by done.
  destruct (cmp_loop_run None (S (size m)) 0 l1 l2) as (res&E&Hres); try done; try lia.
  { apply cstr_bound with (p := p1). exact H1. }
  rewrite (bind_run _ _ _ _ _ E). cbn [within] in Hres. destruct res as [v|k]; [destruct Hres as [-> _]; done|].
  destruct Hres as (j&->&Hj1&Hj2&_&Hend&->). destruct Hend as [?|Hend]; [done|].
  pose proof (cstr_view m p1 l1 H1 j _ eq_refl Hj1) as V1. pose proof (cstr_view m p2 l2 H2 j _ eq_refl Hj2) as V2.
  destruct (drop j l1) as [|a r1].
  - destruct V1 as [_ V1]. rewrite (bind_run _ _ _ _ _ (char_at_run _ _ _ _ V1)). change (0 =? i8 0) with true. cbn [negb].
    destruct (drop j l2) as [|b r2].
    + destruct V2 as [_ V2]. by rewrite (bind_run _ _ _ _ _ (char_at_run _ _ _ _ V2)).
    + destruct V2 as (Vb&_&Zb&_). by rewrite (bind_run _ _ _ _ _ (char_at_run _ _ _ _ Vb)), Zb.
  - destruct V1 as (Va&_&Za&_). rewrite (bind_run _ _ _ _ _ (char_at_run _ _ _ _ Va)), Za.
    destruct Hend as [?|E2]; [done|]. by rewrite E2.
Qed.

(** The bounded comparisons: right when the prefixes differ or are [n] long, but equal strings that are shorter than [n]
    compare as smaller. *)
Lemma strncmp_run n : 0 < n < 2 ^ 32 ->
  strncmp_body conv p1 p2 n m =
  Ok (let t1 := take (Z.to_nat n) l1 in let t2 := take (Z.to_nat n) l2 in
      let c := compare_chars conv t1 t2 in if (c =? 0) && (Z.of_nat (length t1) <? n) then -1 else c, m).
Proof.
  intros Hn. unfold strncmp_body. rewrite (cstr_nonnull _ _ _ H1), (cstr_nonnull _ _ _ H2), (proj2 (Z.eqb_neq 0 n)) by lia.
  rewrite (bind_run mem_bound _ m (S (size m)) m) by done.
  destruct (cmp_loop_run (Some n) (S (size m)) 0 l1 l2) as (res&E&Hres); try done; try lia.
  { apply cstr_bound with (p := p1). exact H1. }
  rewrite (bind_run _ _ _ _ _ E). cbn [within] in Hres. rewrite Nat.sub_0_r in Hres. cbv zeta.
  destruct res as [v|k]; [destruct Hres as [-> Hz]; by rewrite (proj2 (Z.eqb_neq _ 0))|].
  destruct Hres as (j&->&Hj1&Hj2&Hjn&Hend&->). rewrite length_take.
  destruct (Z.eqb_spec (Z.of_nat j) n) as [Ej|Ej].
  { replace (Z.to_nat n - j)%nat with 0%nat by lia. cbn. destruct (Z.ltb_spec (Z.of_nat (Z.to_nat n `min` length l1)) n); [lia|done]. }
  destruct Hend as [?|Hend]; [congruence|]. replace (Z.to_nat n - j)%nat with (S (Z.to_nat n - S j)) by lia.
  pose proof (cstr_view m p1 l1 H1 j _ eq_refl Hj1) as V1.
  destruct (drop j l1) as [|a r1].
  - destruct V1 as [Ejl V1]. rewrite (bind_run _ _ _ _ _ (char_at_run _ _ _ _ V1)). change (0 =? i8 0) with true. cbn [negb take].
    destruct (drop j l2) as [|b r2]; cbn [compare_chars Z.eqb andb]; [|done].
    rewrite (proj2 (Z.ltb_lt _ n)) by lia. done.
  - destruct V1 as (Va&_&Za&_). rewrite (bind_run _ _ _ _ _ (char_at_run _ _ _ _ Va)), Za.
    destruct Hend as [?|E2]; [done|]. by rewrite E2.
Qed.
End Compare.

(** Strings compare as equal exactly when their characters do. *)
Lemma compare_chars_zero conv l1 l2 : compare_chars conv l1 l2 = 0 <-> (fun b => conv (i8 b)) <$> l1 = (fun b => conv (i8 b)) <$> l2.
Proof.
  revert l2. induction l1 as [|a l1 IH]; intros [|b l2]; cbn [compare_chars]; try (split; done).
  rewrite !fmap_cons. destruct (Z.ltb_spec (conv (i8 b)) (conv (i8 a))); [split; [done|intros [=]; lia]|].
  destruct (Z.ltb_spec (conv (i8 a)) (conv (i8 b))); [split; [done|intros [=]; lia]|]. rewrite IH.
  split; [intros ->; f_equal; lia|by intros [=]].
Qed.

(** The index of the first and of the last occurrence of a character. *)
Fixpoint index_of (c : Z) (l : list Z) : option nat :=
  match l with [] => None | b :: l' => if i8 b =? c then Some 0%nat else S <$> index_of c l' end.
Fixpoint last_index_of (c : Z) (l : list Z) : option nat :=
  match l with
  | [] => None
  | b :: l' => match last_index_of c l' with
               | Some i => Some (S i)
               | None => if i8 b =? c then Some 0%nat else None
               end
  end.

Lemma index_of_Some c l i : index_of c l = Some i ->
  (exists b, l !! i = Some b /\ i8 b = c) /\ forall j b, (j < i)%nat -> l !! j = Some b -> i8 b <> c.
Proof.
  revert i. induction l as [|a l IH]; intros i; cbn [index_of]; [done|].
  destruct (Z.eqb_spec (i8 a) c); [intros [= <-]; split; [by exists a|lia]|].
  destruct (index_of c l) as [k|]; [|done]. cbn. intros [= <-]. destruct (IH k eq_refl) as [Hk Hm]. split; [exact Hk|].
  intros [|j] b Hj; cbn; [by intros [= <-]|]. apply Hm. lia.
Qed.

Lemma index_of_None c l : index_of c l = None -> Forall (fun b => i8 b <> c) l.
Proof.
  induction l as [|a l IH]; cbn [index_of]; [done|]. destruct (Z.eqb_spec (i8 a) c); [done|].
  destruct (index_of c l); [done|]. intros _. by constructor; auto.
Qed.

Section Search.
Context (m : Mem) (p : Z) (l : list Z) (Hl : cstr m p l).

Lemma strchr_loop_run c : forall fuel i r, drop i l = r -> (i <= length l)%nat -> (length r < fuel)%nat ->
  strchr_loop fuel (Z.of_nat i) p c m = Ok (match index_of c r with Some k => p + Z.of_nat (i + k) | None => p end, m).
Proof.
  induction fuel as [|fuel IH]; intros i r Hr Hi Hf; [lia|]. cbn [strchr_loop].
  pose proof (cstr_view m p l Hl i r Hr Hi) as V. destruct r as [|b r].
  { destruct V as [_ V]. by rewrite (bind_run _ _ _ _ _ (char_at_run _ _ _ _ V)). }
  destruct V as (V&_&Hz&D&L&U). rewrite (bind_run _ _ _ _ _ (char_at_run _ _ _ _ V)), Hz. cbn [index_of].
  destruct (i8 b =? c); [by rewrite Nat.add_0_r|]. rewrite U, (IH (S i) r) by (try done; simpl in Hf; lia).
  destruct (index_of c r) as [k|]; [|done]. cbn. by rewrite Nat.add_succ_r.
Qed.

Lemma cl_strchr_run c : cl_strchr p c m = Ok (match index_of c l with Some k => p + Z.of_nat k | None => p end, m).
Proof.
  unfold cl_strchr. rewrite (cstr_nonnull _ _ _ Hl). rewrite (bind_run mem_bound _ m (S (size m)) m) by done.
  apply (strchr_loop_run c _ 0); [done|lia|by eapply cstr_bound].
Qed.

Lemma strrchr_loop_run c : forall fuel i r x, drop i l = r -> (i <= length l)%nat -> (length r < fuel)%nat ->
  strrchr_loop fuel (Z.of_nat i) p c x m =
  Ok (match last_index_of c r with Some k => p + Z.of_nat (i + k) | None => x end, m).
Proof.
  induction fuel as [|fuel IH]; intros i r x Hr Hi Hf; [lia|]. cbn [strrchr_loop].
  pose proof (cstr_view m p l Hl i r Hr Hi) as V. destruct r as [|b r].
  { destruct V as [_ V]. by rewrite (bind_run _ _ _ _ _ (char_at_run _ _ _ _ V)). }
  destruct V as (V&_&Hz&D&L&U). rewrite (bind_run _ _ _ _ _ (char_at_run _ _ _ _ V)), Hz. cbn [last_index_of].
  rewrite U, (IH (S i) r) by (try done; simpl in Hf; lia).
  destruct (last_index_of c r) as [k|]; [by rewrite Nat.add_succ_r|]. destruct (i8 b =? c); [by rewrite Nat.add_0_r|done].
Qed.

Lemma cl_strrchr_run c :
  cl_strrchr p c m = Ok (match last_index_of c l with Some k => p + Z.of_nat k | None => p end, m).
Proof.
  unfold cl_strrchr. rewrite (cstr_nonnull _ _ _ Hl). rewrite (bind_run mem_bound _ m (S (size m)) m) by done.
  apply (strrchr_loop_run c _ 0); [done|lia|by eapply cstr_bound].
Qed.

Lemma strlen_loop_run limit : forall fuel i r, drop i l = r -> (i <= length l)%nat -> (length r < fuel)%nat ->
  match limit with Some n => Z.of_nat i <= n | None => True end ->
  strlen_loop fuel limit (Z.of_nat i) p m = Ok (Z.of_nat (i + length (within limit i r)), m).
Proof.
  induction fuel as [|fuel IH]; intros i r Hr Hi Hf Hlim; [lia|]. cbn [strlen_loop].
  destruct (match limit with Some n => negb (Z.of_nat i <? n) | None => false end) eqn:El.
  { apply within_stop with (r := r) in El as (->&_). by rewrite Nat.add_0_r. }
  pose proof (cstr_view m p l Hl i r Hr Hi) as V. destruct r as [|b r].
  { destruct V as [_ V]. rewrite (bind_run _ _ _ _ _ (char_at_run _ _ _ _ V)). cbn.
    destruct limit; cbn; rewrite ?take_nil; by rewrite Nat.add_0_r. }
  destruct V as (V&_&Hz&D&L&U). rewrite (bind_run _ _ _ _ _ (char_at_run _ _ _ _ V)), Hz, U, within_step by done.
  rewrite (IH (S i) r); try done; [cbn [length]; do 3 f_equal; lia|simpl in Hf; lia|].
  destruct limit; [|done]. apply negb_false_iff, Z.ltb_lt in El. lia.
Qed.

Lemma cl_strlen_run : cl_strlen p m = Ok (Z.of_nat (length l), m).
Proof.
  unfold cl_strlen. rewrite (cstr_nonnull _ _ _ Hl). rewrite (bind_run mem_bound _ m (S (size m)) m) by done.
  apply (strlen_loop_run None _ 0); [done|lia|by eapply cstr_bound|done].
Qed.

Lemma cl_strlen_s_run n : 0 <= n -> cl_strlen_s p n m = Ok (Z.min n (Z.of_nat (length l)), m).
Proof.
  intros Hn. unfold cl_strlen_s. rewrite (cstr_nonnull _ _ _ Hl). rewrite (bind_run mem_bound _ m (S (size m)) m) by done.
  rewrite (strlen_loop_run (Some n) _ 0 l); [|done|lia|by eapply cstr_bound|lia]. cbn [within].
  rewrite length_take. do 2 f_equal. lia.
Qed.

(** Copying the string, or its first [limit] characters, to memory that does not overlap it. *)
Lemma strcpy_loop_run limit dst : let t := within limit 0 l in
  (dst + Z.of_nat (length t) < p \/ p + Z.of_nat (length t) < dst) -> mapped m dst (Z.of_nat (length t) + 1) ->
  forall fuel i r m1, drop i l = r -> (i <= length l)%nat -> (length r < fuel)%nat ->
  match limit with Some n => Z.of_nat i <= n | None => True end -> wrote m m1 dst (take i l) ->
  exists m', strcpy_loop fuel limit (Z.of_nat i) dst p m1 = Ok (tt, m') /\ wrote m m' dst (t ++ [0]).
Proof.
  intros t Hdis Hm. induction fuel as [|fuel IH]; intros i r m1 Hr Hi Hf Hlim Hw; [lia|]. cbn [strcpy_loop].
  assert (forall k, t = take i l -> k = dst + Z.of_nat i -> exists m', store8 k 0 m1 = Ok (tt, m') /\ wrote m m' dst (t ++ [0])) as Hend.
  { intros k Et ->. rewrite store8_run.
    2: { eapply wrote_mapped; [exact Hw|exact Hm|]. rewrite Et, length_take_le by lia. lia. }
    eexists. split; [reflexivity|]. rewrite Et. eapply wrote_app; [exact Hw|]. rewrite length_take_le by lia. apply wrote_one. }
  destruct (match limit with Some n => negb (Z.of_nat i <? n) | None => false end) eqn:El.
  { apply within_stop with (r := []) in El as (_&n&->&Hn). apply Hend; [|done]. unfold t. cbn. f_equal. lia. }
  pose proof (cstr_view m p l Hl i r Hr Hi) as V.
  assert ((i <= length t)%nat) as Hit.
  { unfold t. destruct limit as [n|]; cbn [within]; [rewrite length_take; lia|lia]. }
  assert (m1 !! (p + Z.of_nat i) = m !! (p + Z.of_nat i)) as Em.
  { rewrite (Hw _), bool_decide_eq_false_2; [done|]. rewrite length_take_le by lia. lia. }
  destruct r as [|b r].
  { destruct V as [Ei V]. rewrite <- Em in V. rewrite (bind_run _ _ _ _ _ (load8_run _ _ _ V)). cbn [Z.eqb].
    apply Hend; [|done]. unfold t. rewrite (take_ge l i) by lia.
    destruct limit as [n|]; cbn [within]; [|done]. apply take_ge. apply negb_false_iff, Z.ltb_lt in El. lia. }
  destruct V as (V&Hb&_&D&L&U). pose proof V as V'. rewrite <- Em in V'. rewrite (bind_run _ _ _ _ _ (load8_run _ _ _ V')).
  rewrite (proj2 (Z.eqb_neq 0 b)) by lia.
  assert (S i <= length t)%nat as Hit'.
  { unfold t. destruct limit as [n|]; cbn [within]; [|lia]. rewrite length_take. apply negb_false_iff, Z.ltb_lt in El. lia. }
  rewrite (bind_run _ _ _ tt (<[dst + Z.of_nat i := b]> m1)).
  2: { apply store8_run. eapply wrote_mapped; [exact Hw|exact Hm|lia]. }
  rewrite U. apply (IH (S i) r); try done; [simpl in Hf; lia| |].
  { destruct limit; [|done]. apply negb_false_iff, Z.ltb_lt in El. lia. }
  assert (l !! i = Some b) as Hlb by (rewrite <- (Nat.add_0_r i), <- lookup_drop, Hr; done).
  rewrite (take_S_r l i b Hlb). eapply wrote_app; [exact Hw|]. rewrite length_take_le by lia. apply wrote_one.
Qed.

Lemma cl_strncpy_run dst n : dst <> NULL -> 0 < n -> let t := take (Z.to_nat n) l in
  (dst + Z.of_nat (length t) < p \/ p + Z.of_nat (length t) < dst) -> mapped m dst (Z.of_nat (length t) + 1) ->
  exists m', cl_strncpy dst p n m = Ok (tt, m') /\ wrote m m' dst (t ++ [0]).
Proof.
  intros Hd Hn t Hdis Hm. unfold cl_strncpy.
  rewrite (bind_run _ _ m tt m) by (apply ASSERT_run; unfold NULL in *; apply negb_true_iff, Z.eqb_neq; lia).
  rewrite (bind_run _ _ m tt m) by (apply ASSERT_run; by rewrite (cstr_nonnull _ _ _ Hl)).
  rewrite (bind_run _ _ m tt m) by (apply ASSERT_run, negb_true_iff, Z.eqb_neq; lia).
  rewrite (bind_run mem_bound _ m (S (size m)) m) by done.
  pose proof (strcpy_loop_run (Some n) dst) as H. cbn [within] in H. rewrite Nat.sub_0_r in H.
  apply (H Hdis Hm (S (size m)) 0%nat l m); [done|lia|by eapply cstr_bound|lia|apply wrote_nil].
Qed.

Lemma cl_strcpy_run dst : dst <> NULL ->
  (dst + Z.of_nat (length l) < p \/ p + Z.of_nat (length l) < dst) -> mapped m dst (Z.of_nat (length l) + 1) ->
  exists m', cl_strcpy dst p m = Ok (tt, m') /\ wrote m m' dst (l ++ [0]).
Proof.
  intros Hd Hdis Hm. unfold cl_strcpy.
  rewrite (bind_run _ _ m tt m) by (apply ASSERT_run; unfold NULL in *; apply negb_true_iff, Z.eqb_neq; lia).
  rewrite (bind_run _ _ m tt m) by (apply ASSERT_run; by rewrite (cstr_nonnull _ _ _ Hl)).
  rewrite (bind_run mem_bound _ m (S (size m)) m) by done.
  apply (strcpy_loop_run None dst Hdis Hm (S (size m)) 0%nat l m); [done|lia|by eapply cstr_bound|done|apply wrote_nil].
Qed.
End Search.

(** * The meaning of a format *)
Definition isdigit (b : Z) : Prop := CH_0 <= b <= CH_9.
Definition width (ds : list Z) : Z := foldl (fun digits c => u32 (digits * 10 + c - CH_0)) 0 ds.
Definition filler (ds : list Z) : Z := match ds with c :: _ => if CH_0 =? c then CH_0 else CH_space | [] => CH_space end.

(** A piece of the output: the room it asks for, its text and whether it consumes an argument; or an unknown specifier. *)
Inductive piece := Piece (need : Z) (text : list Z) (conversion : bool) | Unknown.

(** A conversion with the digits [ds] and the specifier [spec], of the text [l]: filled up to the width; %S shows as many
    characters as its width. *)
Definition conversion_piece (ds : list Z) (spec : Z) (l : list Z) : piece :=
  let len := Z.of_nat (length l) in
  let fill := Z.max 0 (width ds - len) in
  Piece (len + fill)
    (replicate (Z.to_nat fill) (filler ds) ++ (if spec =? CH_S then take (Z.to_nat (width ds)) l else l)) true.

(** The output of the pieces into a buffer of [n] bytes, from offset [off] on with [k] conversions done: the text, the
    status and whether all of it was written. *)
Fixpoint emit (n off k : Z) (ps : list piece) : list Z * Z * bool :=
  match ps with
  | [] => ([], k, true)
  | Unknown :: _ => ([], STATUS_PARSE_FAILED, false)
  | Piece need t c :: ps' =>
    if n <=? off + need then ([], STATUS_BUFFER_TOO_SMALL, false) else
    let '(r, st, fin) := emit n (off + Z.of_nat (length t)) (if c then k + 1 else k) ps' in (t ++ r, st, fin)
  end.

Section Format.
Context (m : Mem) (temp out n : Z).

(** The [k] bytes at [p] overlap neither the buffer nor the temporary buffer. *)
Definition apart (p k : Z) : Prop :=
  (p + k <= out \/ out + n <= p) /\ (p + k <= temp \/ temp + VSNPRINTF_BUFFER_SIZE <= p).

(** The text a specifier makes of an argument. *)
Inductive converts (spec a : Z) : list Z -> Prop :=
| conv_number s base w : number_spec spec = Some (s, base, w) ->
    converts spec a (itoa_text (if w : bool then u64 a else u32 a) s base w)
| conv_char : spec = CH_c -> converts spec a (if 0 =? u8 a then [] else [u8 a])
| conv_string l : spec = CH_s \/ spec = CH_S -> cstr m a l -> apart a (Z.of_nat (length l) + 1) -> converts spec a l.

Definition no_specifier (rest : list Z) : Prop :=
  match rest with
  | [] => True
  | b :: _ => ~ isdigit b /\ number_spec b = None /\ b <> CH_c /\ b <> CH_s /\ b <> CH_S
  end.

(** The pieces a format describes for its arguments. *)
Inductive describes : list Z -> list Z -> list piece -> Prop :=
| d_end args : describes [] args []
| d_char c f args ps : c <> CH_percent -> describes f args ps -> describes (c :: f) args (Piece 1 [c] false :: ps)
| d_conversion ds spec a l f args ps : Forall isdigit ds -> ~ isdigit spec -> spec < 2 ^ 7 -> converts spec a l ->
    describes f args ps -> describes (CH_percent :: ds ++ spec :: f) (a :: args) (conversion_piece ds spec l :: ps)
| d_unknown ds rest args : Forall isdigit ds -> no_specifier rest -> describes (CH_percent :: ds ++ rest) args [Unknown].

Definition moderate (ps : list piece) : Prop :=
  Forall (fun p => match p with Piece need _ _ => need < 2 ^ 31 | Unknown => True end) ps.

(** What stays as it was, whatever is printed. *)
Record kept (m1 : Mem) : Prop := {
  k_same : forall p k a, apart p k -> p <= a < p + k -> m1 !! a = m !! a;
  k_mapped : forall q k, mapped m q k -> mapped m1 q k }.

Lemma kept_cstr m1 p l : kept m1 -> cstr m p l -> apart p (Z.of_nat (length l) + 1) -> cstr m1 p l.
Proof.
  intros Hk [H1 H2 H3 H4] Ha. split; try done. intros i b Hi. pose proof (lookup_lt_Some _ _ _ Hi) as Hlt.
  rewrite length_app in Hlt. simpl in Hlt. rewrite (k_same _ Hk p (Z.of_nat (length l) + 1)); [by apply H2|done|lia].
Qed.

Lemma kept_wrote m1 m2 q bs : kept m1 -> wrote m1 m2 q bs ->
  (out <= q /\ q + Z.of_nat (length bs) <= out + n) \/ (temp <= q /\ q + Z.of_nat (length bs) <= temp + VSNPRINTF_BUFFER_SIZE) ->
  kept m2.
Proof.
  intros [K1 K2] Hw Hq. split.
  - intros p k a Ha Hp. rewrite (Hw a), bool_decide_eq_false_2 by (unfold apart in Ha; lia). by eapply K1.
  - intros q' k Hm. eapply wrote_mapped; [done|by apply K2].
Qed.

Context (Hout : 0 < out) (Htemp : temp <> NULL) (Hn : 0 < n < 2 ^ 31) (Hmo : mapped m out n)
  (Hmt : mapped m temp VSNPRINTF_BUFFER_SIZE) (Hot : out + n <= temp \/ temp + VSNPRINTF_BUFFER_SIZE <= out).
Context (fmt : Z) (f : list Z) (Hf : cstr m fmt f) (Hfa : apart fmt (Z.of_nat (length f) + 1)).
Context (Hascii : Forall (fun b => b < 2 ^ 7) f).

Lemma fmt_char m1 i b r : kept m1 -> drop i f = b :: r ->
  char_at fmt (Z.of_nat i) m1 = Ok (b, m1) /\ 0 < b < 2 ^ 7 /\ (i < length f)%nat /\ drop (S i) f = r.
Proof.
  intros Hk Hd. pose proof (kept_cstr _ _ _ Hk Hf Hfa) as Hf1.
  assert (f !! i = Some b) as Hb by (rewrite <- (Nat.add_0_r i), <- lookup_drop, Hd; done).
  pose proof (Forall_lookup_1 _ _ _ _ Hascii Hb) as Ha. pose proof (lookup_lt_Some _ _ _ Hb).
  destruct (cstr_view m1 fmt f Hf1 i _ Hd ltac:(lia)) as (V&V2&_&V3&_).
  rewrite (char_at_run _ _ _ _ V), i8_small by (simpl in *; lia). simpl in Ha. split_and!; try done; lia.
Qed.

(** The character at the start of the rest of the format, 0 at its end. *)
Definition first_char (r : list Z) : Z := match r with [] => 0 | b :: _ => b end.

Lemma fmt_first m1 i r : kept m1 -> drop i f = r -> (i <= length f)%nat -> char_at fmt (Z.of_nat i) m1 = Ok (first_char r, m1).
Proof.
  intros Hk Hd Hi. destruct r as [|b r]; [|by eapply fmt_char].
  destruct (cstr_view m1 fmt f (kept_cstr _ _ _ Hk Hf Hfa) i _ Hd Hi) as [_ V]. by rewrite (char_at_run _ _ _ _ V).
Qed.
Lemma parse_digits_run m1 : kept m1 -> forall ds rest fuel i digits fc first,
  drop (S i) f = ds ++ rest -> (i < length f)%nat -> Forall isdigit ds -> ~ isdigit (first_char rest) -> (length ds < fuel)%nat ->
  parse_digits fuel fmt (Z.of_nat i) digits fc first (first_char (ds ++ rest)) m1 =
  Ok ((foldl (fun digits c => u32 (digits * 10 + c - CH_0)) digits ds,
       if first then match ds with c :: _ => if CH_0 =? c then CH_0 else fc | [] => fc end else fc,
       Z.of_nat (i + length ds), first_char rest), m1).
Proof.
  intros Hk ds. induction ds as [|d ds IH]; intros rest [|fuel] i digits fc first Hd Hi Hds Hnr Hfu; try (simpl in Hfu; lia);
    cbn [parse_digits].
  - cbn [app]. assert ((CH_0 <=? first_char rest) && (first_char rest <=? CH_9) = false) as ->
      by (unfold isdigit in Hnr; zbool; done || lia).
    unfold ret. rewrite Nat.add_0_r. by destruct first.
  - apply Forall_cons_1 in Hds as [Hdd Hds]. cbn [app first_char].
    assert ((CH_0 <=? d) && (d <=? CH_9) = true) as -> by (unfold isdigit in Hdd; zbool; done || lia).
    pose proof (cs_length _ _ _ Hf) as Hlen.
    assert (S (S i) <= length f)%nat as Hi2.
    { apply (f_equal length) in Hd. rewrite length_drop, length_app in Hd. simpl in Hd. lia. }
    assert (drop (S (S i)) f = ds ++ rest) as Hd2.
    { replace (S (S i)) with (S i + 1)%nat by lia. by rewrite <- drop_drop, Hd. }
    rewrite (u32_small (Z.of_nat i + 1)) by rlia. rewrite (u32_small (Z.of_nat i + 1 + 1)) by rlia.
    replace (Z.of_nat i + 1 + 1) with (Z.of_nat (S (S i))) by lia. replace (Z.of_nat i + 1) with (Z.of_nat (S i)) by lia.
    rewrite (bind_run _ _ _ _ _ (fmt_first m1 _ _ Hk Hd2 Hi2)).
    rewrite IH; try done; [|simpl in Hfu; lia]. cbn [foldl length]. destruct first; cbn [andb]; do 4 f_equal; lia.
Qed.

Lemma number_spec_base spec s base w : number_spec spec = Some (s, base, w) ->
  2 <= base <= 36 /\ (forall v, is_qword v -> (length (itoa_text v s base w) <= 64)%nat).
Proof.
  intros H. assert ((s = false /\ (base = 2 \/ base = 10 \/ base = 16)) \/ base = 10) as Hc.
  { unfold number_spec, BASE_TWO, BASE_TEN, BASE_HEXA in H.
    repeat match type of H with context [if ?b then _ else _] => destruct b; [injection H as <- <- <-; tauto|] end. done. }
  split; [destruct Hc as [[_ [ -> | [ -> | -> ]]]| -> ]; lia|]. intros v Hv. unfold itoa_text. rewrite length_app.
  destruct Hc as [[-> _]| ->].
  - unfold itoa_negative. rewrite andb_false_l, andb_false_l. destruct w; apply numeral_length.
  - destruct (itoa_sign v s w) as (Hq&_). pose proof (numeral_short 10 20 (itoa_magnitude v s w) ltac:(lia) ltac:(lia) ltac:(rlia)).
    destruct (itoa_negative v s w); simpl; lia.
Qed.

(** A conversion leaves its text in memory, outside the output buffer. *)
Lemma convert_run m1 spec a l args : kept m1 -> spec < 2 ^ 7 -> converts spec a l ->
  exists m2 s, convert temp spec (a :: args) m1 = Ok (Some (s, args), m2) /\ kept m2 /\
    (forall b, out <= b < out + n -> m2 !! b = m1 !! b) /\ cstr m2 s l /\
    (s + Z.of_nat (length l) < out \/ out + n <= s).
Proof.
  intros Hk Hs Hc. pose proof (k_mapped _ Hk _ _ Hmt) as Hmt1.
  assert (forall m2 bs, wrote m1 m2 temp (bs ++ [0]) -> Forall (fun b => 0 < b < 2 ^ 8) bs -> (length bs <= 64)%nat ->
    kept m2 /\ (forall b, out <= b < out + n -> m2 !! b = m1 !! b) /\ cstr m2 temp bs /\
    (temp + Z.of_nat (length bs) < out \/ out + n <= temp)) as Htmp.
  { intros m2 bs Hw Hbs Hlen. unfold VSNPRINTF_BUFFER_SIZE in *. split_and!.
    - eapply kept_wrote; [exact Hk|exact Hw|]. rewrite length_app. simpl. unfold VSNPRINTF_BUFFER_SIZE. lia.
    - intros b Hb. rewrite (Hw b), bool_decide_eq_false_2; [done|]. rewrite length_app. simpl. lia.
    - split; [done|by eapply wrote_bytes_at|done|lia].
    - lia. }
  destruct Hc as [s base w Hsp|Hsp|l Hsp Hl Ha].
  - destruct (number_spec_base _ _ _ _ Hsp) as [Hb Hlen]. unfold convert. rewrite Hsp.
    rewrite (bind_run _ _ m1 (a, args) m1) by done. cbv beta iota zeta. set (v := if w then u64 a else u32 a).
    assert (is_qword v) as Hv by (unfold v; destruct w; [apply u64_range|pose proof (u32_range a); rlia]).
    destruct (itoa_run v s temp base w m1 VSNPRINTF_BUFFER_SIZE Hb Htemp ltac:(done) Hmt1) as (m2&E&Hw).
    { specialize (Hlen v Hv). unfold VSNPRINTF_BUFFER_SIZE. lia. }
    rewrite (bind_run _ _ _ _ _ E). exists m2, temp. split; [done|]. apply Htmp; [done|by apply itoa_text_chars|by apply Hlen].
  - subst spec. unfold convert. change (number_spec CH_c) with (@None (bool * Z * bool)). change (CH_c =? CH_c) with true.
    cbv iota. rewrite (bind_run _ _ m1 (a, args) m1) by done. cbv beta iota zeta. pose proof (u8_range a) as Hu.
    destruct (Z.eqb_spec 0 (u8 a)) as [E0|E0].
    + erewrite bind_run by (apply store8_run, Hmt1; unfold VSNPRINTF_BUFFER_SIZE; lia). eexists _, _. split; [reflexivity|].
      apply Htmp; [apply wrote_one|done|simpl; lia].
    + erewrite bind_run.
      2: { erewrite bind_run by (apply store8_run, Hmt1; unfold VSNPRINTF_BUFFER_SIZE; lia). apply store8_run.
           eapply wrote_mapped; [apply wrote_one|exact Hmt1|unfold VSNPRINTF_BUFFER_SIZE; lia]. }
      eexists _, _. split; [reflexivity|]. apply (Htmp _ [u8 a]); [|repeat constructor; rlia|simpl; lia].
      eapply (wrote_app _ _ _ _ [_] [_]); [apply wrote_one|apply wrote_one].
  - unfold convert. assert (number_spec spec = None /\ (spec =? CH_c) = false /\ (spec =? CH_s) || (spec =? CH_S) = true)
      as (->&->&->) by (destruct Hsp as [-> | ->]; done).
    rewrite (bind_run _ _ m1 (a, args) m1) by done. exists m1, a. split; [done|]. split; [done|]. split; [done|].
    split; [by eapply kept_cstr|]. unfold apart in Ha. lia.
Qed.
Lemma string_bytes_app m1 p bs cs : bytes_at m1 p bs -> bytes_at m1 (p + Z.of_nat (length bs)) cs -> bytes_at m1 p (bs ++ cs).
Proof.
  intros H1 H2 i b [Hi|[Hl Hi]]%lookup_app_Some; [by apply H1|]. apply H2 in Hi. rewrite <- Hi. f_equal. lia.
Qed.

(** Text after the part of the buffer that is already written. *)
Lemma append_wrote m1 m2 txt bs k : kept m1 -> bytes_at m1 out txt -> wrote m1 m2 (out + Z.of_nat (length txt)) bs ->
  (k <= length bs)%nat -> Z.of_nat (length txt + length bs) <= n -> kept m2 /\ bytes_at m2 out (txt ++ take k bs).
Proof.
  intros Hk Ht Hw Hkb Hlen. split; [eapply kept_wrote; [exact Hk|exact Hw|left; lia]|].
  apply string_bytes_app.
  - intros i b Hi. pose proof (lookup_lt_Some _ _ _ Hi). rewrite (Hw _), bool_decide_eq_false_2 by lia. by apply Ht.
  - intros i b Hi. apply lookup_take_Some in Hi as [Hi _]. by apply (wrote_bytes_at _ _ _ _ Hw).
Qed.

Lemma filled_wrote m1 m2 p v k : 0 <= k -> filled m1 m2 p v k -> wrote m1 m2 p (replicate (Z.to_nat k) v).
Proof.
  intros Hk Hfl a. rewrite (Hfl a), length_replicate, Z2Nat.id by lia. case_bool_decide; [|done].
  symmetry. apply lookup_replicate. split; [done|lia].
Qed.

(** Padding and copying the text of a conversion. *)
Lemma pad_copy_run m2 s l fc fill chars txt : kept m2 -> cstr m2 s l -> (s + Z.of_nat (length l) < out \/ out + n <= s) ->
  bytes_at m2 out txt -> 0 <= fill -> 0 <= chars <= Z.of_nat (length l) ->
  Z.of_nat (length txt) + Z.of_nat (length l) + fill < n ->
  let off := Z.of_nat (length txt) in
  exists m3 m4, (if negb (0 =? fill) then _ ← cl_memset (out + off) fc fill; ret (u32 (off + fill)) else ret off) m2 =
      Ok (off + fill, m3) /\
    (if negb (chars =? 0) then cl_strncpy (out + (off + fill)) s chars else ret tt) m3 = Ok (tt, m4) /\
    kept m4 /\ bytes_at m4 out (txt ++ replicate (Z.to_nat fill) fc ++ take (Z.to_nat chars) l).
Proof.
  intros Hk Hs Hso Ht Hfill Hch Hlen off.
  assert (exists m3, (if negb (0 =? fill) then _ ← cl_memset (out + off) fc fill; ret (u32 (off + fill)) else ret off) m2 =
    Ok (off + fill, m3) /\ wrote m2 m3 (out + off) (replicate (Z.to_nat fill) fc)) as (m3&E3&Hw3).
  { destruct (Z.eqb_spec 0 fill) as [<-|Hf0]; cbn [negb].
    - exists m2. rewrite Z.add_0_r. split; [done|apply wrote_nil].
    - destruct (wp_Ok _ _ _ (cl_memset_spec (out + off) fc fill m2 ltac:(unfold NULL; lia) ltac:(rlia)
        ltac:(eapply mapped_sub; [exact (k_mapped _ Hk _ _ Hmo)|lia|lia]))) as (u&m3&E&Hfl). destruct u.
      exists m3. rewrite (bind_run _ _ _ _ _ E). unfold ret. rewrite u32_small by rlia. split; [done|]. by apply filled_wrote. }
  destruct (append_wrote m2 m3 txt _ (Z.to_nat fill) Hk Ht Hw3) as [Hk3 Ht3]; [by rewrite length_replicate|rewrite length_replicate; lia|].
  rewrite take_ge in Ht3 by (rewrite length_replicate; lia).
  assert (cstr m3 s l) as Hs3.
  { destruct Hs as [S1 S2 S3 S4]. split; try done. intros i b Hi. pose proof (lookup_lt_Some _ _ _ Hi) as Hlt.
    rewrite length_app in Hlt. simpl in Hlt. rewrite (Hw3 _), bool_decide_eq_false_2; [by apply S2|]. rewrite length_replicate. lia. }
  exists m3. destruct (Z.eqb_spec chars 0) as [->|Hc0]; cbn [negb].
  - exists m3. split; [done|]. split; [done|]. split; [done|]. by rewrite app_assoc, app_nil_r.
  - destruct (cl_strncpy_run m3 s l Hs3 (out + (off + fill)) chars) as (m4&E4&Hw4);
      [unfold NULL; lia|lia|rewrite length_take; lia| |].
    { eapply mapped_sub; [exact (k_mapped _ Hk3 _ _ Hmo)|lia|]. rewrite length_take. lia. }
    exists m4. split; [done|]. split; [done|].
    destruct (append_wrote m3 m4 (txt ++ replicate (Z.to_nat fill) fc) (take (Z.to_nat chars) l ++ [0]) (Z.to_nat chars) Hk3 Ht3)
      as [Hk4 Ht4].
    + rewrite length_app, length_replicate. replace (out + Z.of_nat (length txt + Z.to_nat fill)) with (out + (off + fill)) by lia. done.
    + rewrite length_app, length_take. simpl. lia.
    + rewrite !length_app, length_replicate, length_take. simpl. lia.
    + split; [done|]. rewrite take_app_le, take_take, Nat.min_id in Ht4 by (rewrite length_take; lia). by rewrite <- app_assoc in Ht4.
Qed.
Definition printed_as (txt : list Z) (e : list Z * Z * bool) (r : outcome (Z * Mem)) : Prop :=
  let '(t, st, fin) := e in
  exists m', r = Ok (st, m') /\ kept m' /\ bytes_at m' out (txt ++ t ++ (if fin : bool then [0] else [])).

Lemma store_end m1 txt : kept m1 -> bytes_at m1 out txt -> Z.of_nat (length txt) < n ->
  exists m', store8 (out + Z.of_nat (length txt)) 0 m1 = Ok (tt, m') /\ kept m' /\ bytes_at m' out (txt ++ [0]).
Proof.
  intros Hk Ht Hlen. rewrite store8_run by (apply (k_mapped _ Hk _ _ Hmo); lia). eexists. split; [reflexivity|].
  apply (append_wrote m1 _ txt [0] 1 Hk Ht); [apply wrote_one|done|simpl; lia].
Qed.

Lemma describes_digits (ds rest : list Z) i : drop i f = CH_percent :: ds ++ rest ->
  drop (S i) f = ds ++ rest /\ (i + 1 + length ds + length rest)%nat = length f.
Proof.
  intros Hd. split; [replace (S i) with (i + 1)%nat by lia; by rewrite <- drop_drop, Hd|].
  apply (f_equal length) in Hd. rewrite length_drop in Hd. simpl in Hd. rewrite length_app in Hd. lia.
Qed.

(** The beginning of an iteration at a percent sign. *)
Lemma percent_run fuel i k off args m1 ds rest : kept m1 -> drop i f = CH_percent :: ds ++ rest -> Forall isdigit ds ->
  ~ isdigit (first_char rest) ->
  vsnprintf_loop (S fuel) temp out n fmt (Z.of_nat i) k off args m1 =
  (r ← convert temp (first_char rest) args;
   match r with
   | None => ret STATUS_PARSE_FAILED
   | Some (temp_str, args) =>
     temp_len ← cl_strlen temp_str;
     _ ← ASSERT (negb (temp_len =? INVALID_STRING_SIZE));
     let charsToCopy := if first_char rest =? CH_S then Z.min (width ds) temp_len else temp_len in
     if n <=? u32 (off + temp_len) then ret STATUS_BUFFER_TOO_SMALL else
     let fillSpaces := if temp_len <? width ds then u32 (width ds - temp_len) else 0 in
     if n <=? u32 (u32 (off + temp_len) + fillSpaces) then ret STATUS_BUFFER_TOO_SMALL else
     outBufferOffset ← (if negb (0 =? fillSpaces) then
                          _ ← cl_memset (out + off) (filler ds) fillSpaces; ret (u32 (off + fillSpaces))
                        else ret off);
     _ ← (if negb (charsToCopy =? 0) then cl_strncpy (out + outBufferOffset) temp_str charsToCopy else ret tt);
     vsnprintf_loop fuel temp out n fmt (u32 (Z.of_nat (i + length ds) + 2)) (u32 (k + 1)) (u32 (outBufferOffset + charsToCopy)) args
   end) m1.
Proof.
  intros Hk Hd Hds Hnr. destruct (fmt_char m1 i _ _ Hk Hd) as (E&_&Hi&_). destruct (describes_digits _ _ _ Hd) as [Hd1 Hlen].
  pose proof (cs_length _ _ _ Hf). cbn [vsnprintf_loop]. rewrite (bind_run _ _ _ _ _ E). change (0 =? CH_percent) with false.
  change (CH_percent =? CH_percent) with true. cbv iota. rewrite (u32_small (Z.of_nat i + 1)) by rlia.
  replace (Z.of_nat i + 1) with (Z.of_nat (S i)) by lia. rewrite (bind_run _ _ _ _ _ (fmt_first m1 _ _ Hk Hd1 ltac:(lia))).
  rewrite (bind_run mem_bound _ m1 (S (size m1)) m1) by done.
  rewrite (bind_run _ _ _ _ _ (parse_digits_run m1 Hk ds rest (S (size m1)) i 0 CH_space true Hd1 Hi Hds Hnr
    ltac:(pose proof (cstr_bound m1 fmt f (kept_cstr _ _ _ Hk Hf Hfa)); lia))). done.
Qed.

Lemma width_range ds : 0 <= width ds < 2 ^ 32.
Proof. unfold width. induction ds as [|x ds IH] using rev_ind; [cbn; lia|]. rewrite foldl_app. cbn. apply u32_range. Qed.

(** An iteration at a conversion: it stops for lack of room, or continues after the text of the conversion. *)
Lemma conversion_run fuel i k txt m1 ds spec a l r args : drop i f = CH_percent :: ds ++ spec :: r -> kept m1 ->
  bytes_at m1 out txt -> Z.of_nat (length txt) < n -> 0 <= k <= Z.of_nat i -> Forall isdigit ds -> ~ isdigit spec ->
  spec < 2 ^ 7 -> converts spec a l ->
  match conversion_piece ds spec l with
  | Unknown => True
  | Piece need t0 _ => need < 2 ^ 31 ->
    let r0 := vsnprintf_loop (S fuel) temp out n fmt (Z.of_nat i) (k + 1) (Z.of_nat (length txt)) (a :: args) m1 in
    (n <= Z.of_nat (length txt) + need -> exists m2, r0 = Ok (STATUS_BUFFER_TOO_SMALL, m2) /\ kept m2 /\ bytes_at m2 out txt) /\
    (Z.of_nat (length txt) + need < n -> exists m4,
       r0 = vsnprintf_loop fuel temp out n fmt (Z.of_nat (i + length ds + 2)) (k + 1 + 1) (Z.of_nat (length (txt ++ t0))) args m4 /\
       kept m4 /\ bytes_at m4 out (txt ++ t0) /\ Z.of_nat (length (txt ++ t0)) < n /\
       drop (i + length ds + 2) f = r /\ (i + length ds + 2 <= length f)%nat)
  end.
Proof.
  intros Hd Hk Ht Hlen Hkb Hds Hnd Hasc Hconv. unfold conversion_piece. cbv zeta. set (len := Z.of_nat (length l)).
  set (fill := Z.max 0 (width ds - len)). intros Hneed. pose proof (cs_length _ _ _ Hf) as Hfl. pose proof (width_range ds) as Hw.
  destruct (convert_run m1 spec a l args Hk Hasc Hconv) as (m2&s&E2&Hk2&Hsame&Hs2&Hso).
  rewrite (percent_run fuel i (k + 1) _ _ m1 ds (spec :: r) Hk Hd Hds Hnd). cbn [first_char].
  rewrite (bind_run _ _ _ _ _ E2), (bind_run _ _ _ _ _ (cl_strlen_run m2 s l Hs2)). pose proof (cs_length _ _ _ Hs2).
  rewrite (bind_run _ _ _ tt m2) by (apply ASSERT_run, negb_true_iff, Z.eqb_neq; unfold INVALID_STRING_SIZE, MAX_DWORD; lia).
  fold len. cbv zeta.
  assert ((if len <? width ds then u32 (width ds - len) else 0) = fill) as -> by (unfold fill; zbool; unwrap; lia).
  rewrite (u32_small (Z.of_nat (length txt) + len)) by rlia. rewrite (u32_small (Z.of_nat (length txt) + len + fill)) by rlia.
  assert (bytes_at m2 out txt) as Ht2.
  { intros j b Hj. pose proof (lookup_lt_Some _ _ _ Hj). rewrite Hsame by lia. by apply Ht. }
  split; [intros Hfull|intros Hroom].
  { exists m2. split; [|done]. destruct (Z.leb_spec n (Z.of_nat (length txt) + len)); [done|by rewrite (proj2 (Z.leb_le _ _)) by lia]. }
  rewrite !(proj2 (Z.leb_gt _ _)) by lia. set (chars := if spec =? CH_S then Z.min (width ds) len else len).
  assert (0 <= chars <= len) as Hch by (unfold chars; destruct (spec =? CH_S); lia).
  destruct (pad_copy_run m2 s l (filler ds) fill chars txt Hk2 Hs2 Hso Ht2 ltac:(lia) Hch ltac:(lia)) as (m3&m4&E3&E4&Hk4&Ht4).
  rewrite (bind_run _ _ _ _ _ E3), (bind_run _ _ _ _ _ E4).
  assert (take (Z.to_nat chars) l = if spec =? CH_S then take (Z.to_nat (width ds)) l else l) as Etk.
  { unfold chars, len. destruct (spec =? CH_S); [|by rewrite Nat2Z.id, firstn_all].
    destruct (decide (width ds <= Z.of_nat (length l))); [by rewrite Z.min_l by lia|]. rewrite !take_ge by lia. done. }
  rewrite <- Etk. set (t0 := replicate (Z.to_nat fill) (filler ds) ++ take (Z.to_nat chars) l) in *.
  assert (Z.of_nat (length (txt ++ t0)) = Z.of_nat (length txt) + fill + chars) as Et0.
  { unfold t0. rewrite !length_app, length_replicate, length_take. lia. }
  destruct (describes_digits _ _ _ Hd) as [Hd1 Hfl1]. cbn [length] in Hfl1. exists m4. rewrite Et0.
  rewrite (u32_small (Z.of_nat (i + length ds) + 2)), (u32_small (k + 1 + 1)), (u32_small (Z.of_nat (length txt) + fill + chars)) by rlia.
  replace (Z.of_nat (i + length ds) + 2) with (Z.of_nat (i + length ds + 2)) by lia. split_and!; try done; try lia.
  replace (i + length ds + 2)%nat with (S i + (length ds + 1))%nat by lia. rewrite <- drop_drop, Hd1.
  rewrite drop_app_ge by lia. by replace (length ds + 1 - length ds)%nat with 1%nat by lia.
Qed.

Lemma vsnprintf_loop_run r args ps : describes r args ps -> moderate ps -> forall fuel i k txt m1,
  drop i f = r -> (i <= length f)%nat -> (length r < fuel)%nat -> kept m1 -> bytes_at m1 out txt -> Z.of_nat (length txt) < n ->
  0 <= k <= Z.of_nat i ->
  printed_as txt (emit n (Z.of_nat (length txt)) k ps)
    (vsnprintf_loop fuel temp out n fmt (Z.of_nat i) (k + 1) (Z.of_nat (length txt)) args m1).
Proof.
  induction 1 as [args|c r args ps Hc _ IH|ds spec a l r args ps Hds Hnd Hasc Hconv _ IH|ds rest args Hds Hno];
    intros Hmod [|fuel] i k txt m1 Hd Hi Hfu Hk Ht Hlen Hkb; try (simpl in Hfu; lia); pose proof (cs_length _ _ _ Hf) as Hfl.
  - cbn [vsnprintf_loop emit printed_as]. rewrite (bind_run _ _ _ _ _ (fmt_first m1 i [] Hk Hd Hi)). cbn [first_char Z.eqb].
    destruct (store_end m1 txt Hk Ht Hlen) as (m'&E&Hk'&Ht'). rewrite (bind_run _ _ _ _ _ E). exists m'.
    replace (k + 1 - 1) with k by lia. unfold ret. rewrite u32_small by rlia. done.
  - destruct (fmt_char m1 i c r Hk Hd) as (E&Hcb&Hi'&Hd'). cbn [vsnprintf_loop emit].
    rewrite (bind_run _ _ _ _ _ E), (proj2 (Z.eqb_neq 0 c)), (proj2 (Z.eqb_neq CH_percent c)) by (congruence || lia).
    apply Forall_cons_1 in Hmod as [_ Hmod]. rewrite (u32_small (Z.of_nat (length txt) + 1)) by rlia.
    destruct (Z.leb_spec n (Z.of_nat (length txt) + 1)) as [Hfull|Hroom].
    + destruct (store_end m1 txt Hk Ht Hlen) as (m'&E'&Hk'&Ht'). rewrite (bind_run _ _ _ _ _ E'). exists m'. split; [done|].
      split; [done|]. cbn [app]. rewrite app_nil_r. intros j b Hj. apply Ht'. by apply lookup_app_l_Some.
    + rewrite (bind_run _ _ _ tt (<[out + Z.of_nat (length txt) := u8 c]> m1)).
      2: { apply store8_run, (k_mapped _ Hk _ _ Hmo). lia. }
      rewrite (u8_small c) by rlia. destruct (append_wrote m1 _ txt [c] 1 Hk Ht (wrote_one _ _ c)) as [Hk' Ht']; [done|simpl; lia|].
      rewrite (u32_small (Z.of_nat i + 1)) by rlia. replace (Z.of_nat i + 1) with (Z.of_nat (S i)) by lia.
      replace (Z.of_nat (length txt) + 1) with (Z.of_nat (length (txt ++ [c]))) by (rewrite length_app; simpl; lia).
      specialize (IH Hmod fuel (S i) k (txt ++ [c]) _ Hd' ltac:(lia) ltac:(simpl in Hfu; lia) Hk' Ht' ltac:(rewrite length_app; simpl; lia) ltac:(lia)).
      cbn [length]. replace (Z.of_nat (length txt) + Z.of_nat 1) with (Z.of_nat (length (txt ++ [c]))) by (rewrite length_app; simpl; lia).
      destruct (emit n _ k ps) as [[t st] fin]. destruct IH as (m'&E'&K'&B'). exists m'. split; [done|]. split; [done|].
      by rewrite <- app_assoc in B'.
  - apply Forall_cons_1 in Hmod as [Hneed Hmod].
    pose proof (conversion_run fuel i k txt m1 ds spec a l r args Hd Hk Ht Hlen Hkb Hds Hnd Hasc Hconv) as Hrun.
    destruct (conversion_piece ds spec l) as [need t0 cv|] eqn:Ep; [|done]. assert (cv = true) as -> by (by injection Ep).
    destruct (Hrun Hneed) as [Hfull Hroom].
    cbn [emit]. destruct (Z.leb_spec n (Z.of_nat (length txt) + need)) as [Hle|Hgt].
    { destruct (Hfull Hle) as (m2&->&Hk2&Ht2). exists m2. split; [done|]. split; [done|]. cbn [app]. by rewrite app_nil_r. }
    destruct (Hroom Hgt) as (m4&->&Hk4&Ht4&Hlt&Hd2&Hi2).
    specialize (IH Hmod fuel (i + length ds + 2)%nat (k + 1) (txt ++ t0) m4 Hd2 Hi2
      ltac:(simpl in Hfu; rewrite length_app in Hfu; simpl in Hfu; lia) Hk4 Ht4 Hlt ltac:(lia)).
    replace (Z.of_nat (length txt) + Z.of_nat (length t0)) with (Z.of_nat (length (txt ++ t0))) by (rewrite length_app; lia).
    destruct (emit n (Z.of_nat (length (txt ++ t0))) (k + 1) ps) as [[t st] fin]. destruct IH as (m'&E'&K'&B').
    exists m'. split; [done|]. split; [done|]. by rewrite <- !app_assoc in *.
  - assert (~ isdigit (first_char rest)) as Hnd by (destruct rest; [unfold isdigit, CH_0; cbn; lia|apply Hno]).
    rewrite (percent_run fuel i (k + 1) _ _ m1 ds rest Hk Hd Hds Hnd).
    assert (convert temp (first_char rest) args m1 = Ok (None, m1)) as E.
    { unfold convert. destruct rest as [|b rest]; [done|]. cbn [first_char]. destruct Hno as (_&->&Hn1&Hn2&Hn3).
      rewrite (proj2 (Z.eqb_neq b CH_c)), (proj2 (Z.eqb_neq b CH_s)), (proj2 (Z.eqb_neq b CH_S)) by done. done. }
    rewrite (bind_run _ _ _ _ _ E). exists m1. split; [done|]. split; [done|]. cbn [app]. by rewrite app_nil_r.
Qed.
Lemma conversion_length ds spec l :
  match conversion_piece ds spec l with Piece need t _ => Z.of_nat (length t) <= need | Unknown => True end.
Proof.
  unfold conversion_piece. cbv zeta. rewrite length_app, length_replicate. destruct (spec =? CH_S); rewrite ?length_take; lia.
Qed.

Lemma describes_length r args ps : describes r args ps ->
  Forall (fun p => match p with Piece need t _ => Z.of_nat (length t) <= need | Unknown => True end) ps.
Proof. induction 1; repeat constructor; try done. apply conversion_length. Qed.

Lemma emit_length ps : Forall (fun p => match p with Piece need t _ => Z.of_nat (length t) <= need | Unknown => True end) ps ->
  forall off k, off < n -> off + Z.of_nat (length (emit n off k ps).1.1) < n.
Proof.
  induction 1 as [|p ps Hp _ IH]; intros off k Hoff; cbn [emit]; [cbn; lia|]. destruct p as [need t cv|]; [|cbn; lia].
  destruct (Z.leb_spec n (off + need)); [cbn; lia|]. specialize (IH (off + Z.of_nat (length t)) (if cv then k + 1 else k) ltac:(lia)).
  destruct (emit n _ _ ps) as [[t' st] fin]. cbn in *. rewrite length_app. lia.
Qed.

End Format.

(** ** A format in memory *)
Lemma bytes_at_middle p (pre l post : list Z) : bytes_at (mem_of p (pre ++ l ++ post)) (p + Z.of_nat (length pre)) l.
Proof.
  intros i b Hi. pose proof (bytes_at_mem_of p (pre ++ l ++ post) (length pre + i)%nat b) as H.
  rewrite lookup_app_r in H by lia. replace (length pre + i - length pre)%nat with i in H by lia.
  rewrite <- Z.add_assoc, <- Nat2Z.inj_add. apply H. by apply lookup_app_l_Some.
Qed.

Lemma cstr_middle p (pre l post : list Z) : 0 < p -> Forall (fun b => 0 < b < 2 ^ 8) l -> Z.of_nat (length l) < 2 ^ 32 - 1 ->
  cstr (mem_of p (pre ++ (l ++ [0]) ++ post)) (p + Z.of_nat (length pre)) l.
Proof. intros Hp Hl Hlen. split; try done; [unfold NULL; lia|]. apply bytes_at_middle. Qed.

(** [%03d:%s%S] followed by the string [hal], the buffer of 16 bytes and the temporary buffer. *)
Definition demo_format : list Z := [37; 48; 51; 100; 58; 37; 115; 37; 50; 83].
Definition demo_string : list Z := [104; 97; 108].
Definition demo_memory : Mem := mem_of 100 (demo_format ++ [0] ++ demo_string ++ [0] ++ replicate 81 7).


(** * Tokens, elements and trimming *)
Definition delimits (ds : list Z) (b : Z) : bool := existsb (fun d => i8 b =? i8 d) ds.
(** The index of the first delimiter. *)
Fixpoint token_end (ds l : list Z) : option nat :=
  match l with [] => None | b :: l' => if delimits ds b then Some 0%nat else S <$> token_end ds l' end.

Section Tokens.
Context (m : Mem) (p q : Z) (l ds : list Z) (Hl : cstr m p l) (Hq : cstr m q ds).

Lemma is_delimiter_run c : forall fuel j r, drop j ds = r -> (j <= length ds)%nat -> (length r < fuel)%nat ->
  is_delimiter fuel (Z.of_nat j) c q m = Ok (existsb (fun d => c =? i8 d) r, m).
Proof.
  induction fuel as [|fuel IH]; intros j r Hr Hj Hf; [lia|]. cbn [is_delimiter].
  pose proof (cstr_view m q ds Hq j r Hr Hj) as V. destruct r as [|d r].
  { destruct V as [_ V]. by rewrite (bind_run _ _ _ _ _ (char_at_run _ _ _ _ V)). }
  destruct V as (V&_&Hz&D&L&U). rewrite (bind_run _ _ _ _ _ (char_at_run _ _ _ _ V)), Hz, U. cbn [existsb].
  destruct (c =? i8 d); [done|]. apply IH; try done. simpl in Hf. lia.
Qed.

Lemma strtok_loop_run : forall fuel i r, drop i l = r -> (i <= length l)%nat -> (length r < fuel)%nat ->
  strtok_loop fuel (Z.of_nat i) p q m =
  match token_end ds r with
  | Some k => Ok (p + Z.of_nat (i + k + 1), <[p + Z.of_nat (i + k) := 0]> m)
  | None => Ok (p + Z.of_nat (length l), m)
  end.
Proof.
  induction fuel as [|fuel IH]; intros i r Hr Hi Hf; [lia|]. cbn [strtok_loop].
  pose proof (cstr_view m p l Hl i r Hr Hi) as V. destruct r as [|b r].
  { destruct V as [-> V]. by rewrite (bind_run _ _ _ _ _ (char_at_run _ _ _ _ V)). }
  destruct V as (V&_&Hz&D&L&U). rewrite (bind_run _ _ _ _ _ (char_at_run _ _ _ _ V)), Hz.
  rewrite (bind_run mem_bound _ m (S (size m)) m) by done.
  rewrite (bind_run _ _ _ _ _ (is_delimiter_run (i8 b) (S (size m)) 0 ds eq_refl ltac:(lia) ltac:(by eapply cstr_bound))).
  cbn [token_end]. unfold delimits. destruct (existsb _ ds).
  - rewrite (bind_run _ _ _ tt (<[p + Z.of_nat i := 0]> m)) by (apply store8_run; eauto). unfold ret. rewrite U.
    do 3 f_equal; [f_equal; lia|]. do 2 f_equal. lia.
  - rewrite U, (IH (S i) r) by (try done; simpl in Hf; lia). destruct (token_end ds r) as [k|]; [|done]. cbn.
    do 3 f_equal; [f_equal; lia|]. do 2 f_equal. lia.
Qed.

(** A token ends at the first delimiter, which is replaced by a terminator, and the next search starts behind it; without a
    delimiter the whole string is the token and the next search finds none. *)
Lemma strtok_run context : l <> [] -> context = p \/ context = NULL ->
  cl_strtok_s p q context m =
  match token_end ds l with
  | Some k => Ok ((p, p + Z.of_nat (k + 1)), <[p + Z.of_nat k := 0]> m)
  | None => Ok ((p, p + Z.of_nat (length l)), m)
  end.
Proof.
  intros Hne Hc. unfold cl_strtok_s. rewrite (cstr_nonnull _ _ _ Hq), (cstr_nonnull _ _ _ Hl), andb_false_r.
  assert ((if NULL =? context then p else context) = p) as ->.
  { destruct Hc as [-> | ->]; [by rewrite (cstr_nonnull _ _ _ Hl)|done]. }
  assert (exists b r, drop 0 l = b :: r) as (b&r&El) by (destruct l; [done|]; by eexists _, _).
  destruct (cstr_view m p l Hl 0 (b :: r) El ltac:(lia)) as (V&_&Hz&_). rewrite (bind_run (char_at p 0) _ _ _ _ (char_at_run _ _ _ 0 V)), Hz.
  rewrite (bind_run mem_bound _ m (S (size m)) m) by done. unfold mbind, M_bind.
  pose proof (strtok_loop_run (S (size m)) 0 l eq_refl ltac:(lia) ltac:(by eapply cstr_bound)) as E. change (Z.of_nat 0) with 0 in E. rewrite E.
  by destruct (token_end ds l).
Qed.
End Tokens.

(** The end of the string gives no token. *)
Lemma strtok_end m p q ds context : cstr m q ds -> context <> NULL -> m !! context = Some 0 ->
  cl_strtok_s p q context m = Ok ((NULL, context), m).
Proof.
  intros Hq Hc Hz. unfold cl_strtok_s. rewrite (cstr_nonnull _ _ _ Hq), (proj2 (Z.eqb_neq NULL context)) by done. cbn [andb].
  rewrite (bind_run (char_at context 0) _ m 0 m); [done|]. apply (char_at_run _ _ 0). by rewrite Z.add_0_r.
Qed.

(** strtrim moves as many bytes as the string had before the spaces at its start were dropped, so it
    reads past the string: two spaces and a letter at the end of accessible memory are enough. *)
Lemma strtrim_overread : cl_strtrim 100 (mem_of 100 [32; 32; 97; 0]) = Err MemFault.
Proof. reflexivity. Qed.

(** The elements of [a,,b] are counted as two, those of [,a,b] as one. *)
Lemma strcelem_adjacent : exists m1 m2,
  cl_strcelem 100 44 (mem_of 100 [97; 44; 44; 98; 0]) = Ok (2, m1) /\ cl_strcelem 100 44 (mem_of 100 [44; 97; 44; 98; 0]) = Ok (1, m2).
Proof. eexists _, _. split; vm_compute; reflexivity. Qed.

(** Equal strings that are shorter than the limit do not compare as equal. *)
Lemma strncmp_equal_shorter m p1 p2 l n : cstr m p1 l -> cstr m p2 l -> Z.of_nat (length l) < n < 2 ^ 32 ->
  cl_strncmp p1 p2 n m = Ok (-1, m).
Proof.
  intros H1 H2 Hn. unfold cl_strncmp. rewrite (strncmp_run m p1 p2 l l H1 H2) by lia. cbv zeta. rewrite take_ge by lia.
  rewrite (proj2 (compare_chars_zero _ l l)) by done. by rewrite (proj2 (Z.ltb_lt _ n)) by lia.
Qed.

(** stricmp takes more than the case of letters for equal: [\^] and [~], or [@] and the backquote. *)
Lemma stricmp_symbols : compare_chars lower [94] [126] = 0 /\ compare_chars lower [64] [96] = 0.
Proof. split; reflexivity. Qed.
