(* ===== verification/Pte.v ===== *)
(** HAL/inc/pte.h and HAL/src/pte.c: the entries of the paging structures.

    An entry is a QWORD; a bit field of a C structure is a pair of its lowest bit and its
    width, read by [getf] and assigned by [setf] (which keeps the low bits of the assigned value,
    as an assignment to a bit field does).  The functions of pte.c that write through
    their pointer return the new value of the entry; its storage is the business of
    [Paging]. *)
From S2P Require Import Prelude IntUtils ClMemory.

(** * Bit fields *)
Record field := mkField { fbase : Z; fwidth : Z }.
Definition getf (f : field) (e : Z) : Z := Z.land (Z.shiftr e (fbase f)) (Z.ones (fwidth f)).
Definition setf (f : field) (v e : Z) : Z :=
  Z.lor (Z.ldiff e (Z.shiftl (Z.ones (fwidth f)) (fbase f)))
        (Z.shiftl (Z.land v (Z.ones (fwidth f))) (fbase f)).

(** pte.h *)
Definition MAXPHYADDR : Z := 52.
Definition PAGING_TABLES_FIRST_LEVEL : Z := 1.
Definition PAGING_TABLES_LAST_LEVEL : Z := 4.
Definition VA_HIGHEST_VALID_BIT : Z := 47.
Definition PCID_TOTAL_NO_OF_VALUES : Z := Z.shiftl 1 12.
Definition PCID_IS_VALID (pcid : Z) : bool := (1 <=? pcid) && (pcid <? PCID_TOTAL_NO_OF_VALUES).
Definition SHIFT_FOR_PHYSICAL_ADDR : Z := 12.
Definition SHIFT_FOR_LARGE_PAGE : Z := 21.
Definition MASK_PML4_OFFSET (va : Z) : Z := Z.land (Z.shiftr va 39) 0x1FF.
Definition MASK_PDPTE_OFFSET (va : Z) : Z := Z.land (Z.shiftr va 30) 0x1FF.
Definition MASK_PDE_OFFSET (va : Z) : Z := Z.land (Z.shiftr va 21) 0x1FF.
Definition MASK_PTE_OFFSET (va : Z) : Z := Z.land (Z.shiftr va 12) 0x1FF.

(** PT_ENTRY; the other entry types share the fields that are used of them. *)
Definition Present : field := mkField 0 1.
Definition ReadWrite : field := mkField 1 1.
Definition UserSupervisor : field := mkField 2 1.
Definition PWT : field := mkField 3 1.
Definition PCD : field := mkField 4 1.
Definition Accessed : field := mkField 5 1.
Definition Dirty : field := mkField 6 1.
Definition PAT : field := mkField 7 1.
Definition Global : field := mkField 8 1.
Definition PhysicalAddress : field := mkField 12 (MAXPHYADDR - 12).
Definition XD : field := mkField 63 1.
(** PD_ENTRY_PT and PD_ENTRY_2MB *)
Definition PageSize : field := mkField 7 1.
Definition LargePhysicalAddress : field := mkField 21 (MAXPHYADDR - 21).
(** PML4.Pcide *)
Definition Pcide_PhysicalAddress : field := mkField 12 (MAXPHYADDR - 12).

Record PTE_MAP_FLAGS := mkFlags {
  PatIndex : Z; Writable : bool; Executable : bool;
  PagingStructure : bool; UserAccess : bool; GlobalPage : bool }.

(** * pte.c *)
Definition PteMap (PhysicalAddr : Z) (Flags : PTE_MAP_FLAGS) : Z :=
  let e := setf PhysicalAddress (Z.shiftr PhysicalAddr SHIFT_FOR_PHYSICAL_ADDR) 0 in
  let e := setf Present 1 e in
  let e := setf ReadWrite (Z.b2z (Writable Flags)) e in
  let e := setf XD (Z.b2z (negb (Executable Flags))) e in
  let e := setf UserSupervisor (Z.b2z (UserAccess Flags)) e in
  if PagingStructure Flags then e else
  let e := setf PAT (Z.land (Z.shiftr (PatIndex Flags) 2) 1) e in
  let e := setf PCD (Z.land (Z.shiftr (PatIndex Flags) 1) 1) e in
  let e := setf PWT (Z.land (Z.shiftr (PatIndex Flags) 0) 1) e in
  setf Global (Z.b2z (GlobalPage Flags)) e.
Definition PteUnmap : Z := 0.
Definition PteGetPhysicalAddress (e : Z) : Z :=
  u64 (Z.shiftl (getf PhysicalAddress e) SHIFT_FOR_PHYSICAL_ADDR).
Definition PteLargePageGetPhysicalAddress (e : Z) : Z :=
  u64 (Z.shiftl (getf LargePhysicalAddress e) SHIFT_FOR_LARGE_PAGE).
Definition PteIsPresent (e : Z) : bool := 1 =? getf Present e.

(** * Bit-field lemmas *)
Definition field_ok (f : field) : Prop := 0 <= fbase f /\ 0 <= fwidth f.
Definition fields_apart (f g : field) : Prop :=
  fbase f + fwidth f <= fbase g \/ fbase g + fwidth g <= fbase f.

Lemma testbit_ones w i : 0 <= w -> 0 <= i -> Z.testbit (Z.ones w) i = (i <? w).
Proof.
  intros. destruct (Z.ltb_spec i w); [by apply Z.ones_spec_low|by apply Z.ones_spec_high].
Qed.

Lemma testbit_getf f e i : field_ok f -> 0 <= i ->
  Z.testbit (getf f e) i = Z.testbit e (i + fbase f) && (i <? fwidth f).
Proof.
  intros [] ?. unfold getf. by rewrite Z.land_spec, Z.shiftr_spec, testbit_ones by lia.
Qed.

Lemma testbit_setf f v e i : field_ok f -> 0 <= i ->
  Z.testbit (setf f v e) i =
  if decide (fbase f <= i < fbase f + fwidth f) then Z.testbit v (i - fbase f) else Z.testbit e i.
Proof.
  intros [] ?. unfold setf. rewrite Z.lor_spec, Z.ldiff_spec, !Z.shiftl_spec by lia.
  destruct (decide (fbase f <= i)).
  - rewrite Z.land_spec, !testbit_ones by lia. case_decide.
    + rewrite (proj2 (Z.ltb_lt _ _)) by lia. cbn. by rewrite andb_false_r, andb_true_r.
    + rewrite (proj2 (Z.ltb_ge _ _)) by lia. cbn. by rewrite andb_true_r, andb_false_r, orb_false_r.
  - rewrite decide_False by lia. rewrite !(Z.testbit_neg_r _ (i - fbase f)) by lia.
    cbn. by rewrite andb_true_r, orb_false_r.
Qed.

Lemma getf_range f e : field_ok f -> 0 <= getf f e < 2 ^ fwidth f.
Proof.
  intros []. unfold getf. rewrite Z.land_ones by lia. apply Z.mod_pos_bound. lia.
Qed.

Lemma getf_setf f v e : field_ok f -> 0 <= v < 2 ^ fwidth f -> getf f (setf f v e) = v.
Proof.
  intros Hf Hv. apply Z.bits_inj'. intros i Hi. pose proof Hf as [].
  rewrite testbit_getf by done. rewrite testbit_setf by (done || lia).
  destruct (Z.ltb_spec i (fwidth f)).
  - rewrite decide_True by lia. rewrite andb_true_r. f_equal. lia.
  - rewrite andb_false_r. symmetry. destruct (decide (v = 0)) as [->|]; [apply Z.bits_0|].
    apply Z.bits_above_log2; [lia|].
    enough (Z.log2 v < fwidth f) by lia. apply Z.log2_lt_pow2; lia.
Qed.

Lemma getf_setf_apart f g v e : field_ok f -> field_ok g -> fields_apart f g ->
  getf f (setf g v e) = getf f e.
Proof.
  intros Hf Hg Ha. apply Z.bits_inj'. intros i Hi. pose proof Hf as [].
  rewrite !testbit_getf by done. rewrite testbit_setf by (done || lia).
  destruct (Z.ltb_spec i (fwidth f)); [|by rewrite !andb_false_r].
  rewrite decide_False; [done|]. destruct Ha; lia.
Qed.

Lemma setf_qword f v e : field_ok f -> fbase f + fwidth f <= 64 -> is_qword e -> is_qword (setf f v e).
Proof.
  intros Hf ? [He1 He2]. pose proof Hf as [].
  assert (Hn : 0 <= setf f v e).
  { unfold setf. apply Z.lor_nonneg. split.
    - apply Z.ldiff_nonneg. lia.
    - apply Z.shiftl_nonneg, Z.land_nonneg. right. rewrite Z.ones_equiv.
      pose proof (Z.pow_pos_nonneg 2 (fwidth f)). lia. }
  split; [done|]. destruct (decide (setf f v e = 0)) as [->|]; [lia|].
  apply Z.log2_lt_pow2; [lia|]. apply Z.nle_gt. intros Hl.
  pose proof (Z.bit_log2 (setf f v e) ltac:(lia)) as Hb.
  rewrite testbit_setf in Hb by (done || lia). rewrite decide_False in Hb by lia.
  destruct (decide (e = 0)) as [->|]; [by rewrite Z.bits_0 in Hb|].
  rewrite Z.bits_above_log2 in Hb; [done|lia|].
  enough (Z.log2 e < 64) by lia. apply Z.log2_lt_pow2; lia.
Qed.

(** Reads of a field through assignments to other fields. *)
Ltac fields_side :=
  unfold field_ok, fields_apart; cbn -[Z.pow Z.sub]; unfold MAXPHYADDR; lia.

Lemma b2z_range b : 0 <= Z.b2z b < 2.
Proof. destruct b; cbn; lia. Qed.
Lemma land_1_range x : 0 <= Z.land x 1 < 2.
Proof. change 1 with (Z.ones 1). rewrite Z.land_ones by lia. apply Z.mod_pos_bound. lia. Qed.
Lemma getf_0 f : getf f 0 = 0.
Proof. unfold getf. by rewrite Z.shiftr_0_l. Qed.
Lemma flag_range (f : field) (b : bool) : fwidth f = 1 -> 0 <= Z.b2z b < 2 ^ fwidth f.
Proof. intros ->. apply b2z_range. Qed.

(** * The entries that pte.c writes *)
Definition phys_ok (pa : Z) : Prop := 0 <= pa < 2 ^ MAXPHYADDR /\ pa mod PAGE_SIZE = 0.

Lemma PhysicalAddress_ok : field_ok PhysicalAddress.
Proof. fields_side. Qed.

Lemma PhysicalAddress_range e : 0 <= getf PhysicalAddress e < 2 ^ 40.
Proof. apply (getf_range PhysicalAddress e PhysicalAddress_ok). Qed.

Lemma PteGetPhysicalAddress_eq e : PteGetPhysicalAddress e = getf PhysicalAddress e * PAGE_SIZE.
Proof.
  unfold PteGetPhysicalAddress. pose proof (PhysicalAddress_range e).
  rewrite Z.shiftl_mul_pow2 by done. unfold SHIFT_FOR_PHYSICAL_ADDR, PAGE_SIZE.
  apply u64_small. rlia.
Qed.

Lemma PteGetPhysicalAddress_ok e : phys_ok (PteGetPhysicalAddress e).
Proof.
  rewrite PteGetPhysicalAddress_eq. pose proof (PhysicalAddress_range e).
  unfold phys_ok, MAXPHYADDR, PAGE_SIZE. rewrite Z.mod_mul by done. lia.
Qed.

Lemma PteIsPresent_0 : PteIsPresent 0 = false.
Proof. done. Qed.

(** Clearing the accessed or dirty bit changes nothing else. *)
Lemma PteIsPresent_setf f v e : field_ok f -> 1 <= fbase f -> PteIsPresent (setf f v e) = PteIsPresent e.
Proof.
  intros. unfold PteIsPresent. rewrite getf_setf_apart; [done|fields_side|done|].
  left. cbn. lia.
Qed.
Lemma PteGetPhysicalAddress_setf f v e : field_ok f -> fields_apart PhysicalAddress f ->
  PteGetPhysicalAddress (setf f v e) = PteGetPhysicalAddress e.
Proof.
  intros. unfold PteGetPhysicalAddress. by rewrite getf_setf_apart by (done || fields_side).
Qed.

(** Every field of an entry after PteMap. *)
Lemma PteMap_fields pa fl : phys_ok pa ->
  let e := PteMap pa fl in
  let leaf v := if PagingStructure fl then 0 else v in
  is_qword e /\
  PteIsPresent e = true /\ PteGetPhysicalAddress e = pa /\
  getf ReadWrite e = Z.b2z (Writable fl) /\ getf XD e = Z.b2z (negb (Executable fl)) /\
  getf UserSupervisor e = Z.b2z (UserAccess fl) /\
  getf Accessed e = 0 /\ getf Dirty e = 0 /\
  getf PAT e = leaf (Z.land (Z.shiftr (PatIndex fl) 2) 1) /\
  getf PCD e = leaf (Z.land (Z.shiftr (PatIndex fl) 1) 1) /\
  getf PWT e = leaf (Z.land (Z.shiftr (PatIndex fl) 0) 1) /\
  getf Global e = leaf (Z.b2z (GlobalPage fl)).
Proof.
  intros [Hpa Hal] e leaf.
  assert (Hsh : 0 <= Z.shiftr pa SHIFT_FOR_PHYSICAL_ADDR < 2 ^ fwidth PhysicalAddress).
  { rewrite Z.shiftr_div_pow2 by done. unfold MAXPHYADDR in Hpa.
    change (2 ^ SHIFT_FOR_PHYSICAL_ADDR) with 4096. change (2 ^ fwidth PhysicalAddress) with (2 ^ 40).
    split; [apply Z.div_pos|apply Z.div_lt_upper_bound]; lia. }
  assert (Hbit : forall f b, fwidth f = 1 -> 0 <= Z.b2z b < 2 ^ fwidth f) by (intros; by apply flag_range).
  assert (Hland : forall f x, fwidth f = 1 -> 0 <= Z.land x 1 < 2 ^ fwidth f).
  { intros f x ->. apply land_1_range. }
  assert (Hone : forall f, fwidth f = 1 -> 0 <= 1 < 2 ^ fwidth f) by (intros f ->; lia).
  subst e leaf. unfold PteIsPresent. rewrite PteGetPhysicalAddress_eq. unfold PteMap.
  split_and!; destruct (PagingStructure fl);
    repeat (first [ rewrite getf_setf by first [fields_side | apply Hbit; done | apply Hland; done | apply Hone; done | apply Hsh]
                  | rewrite getf_setf_apart by fields_side ]);
    rewrite ?getf_0; try done.
  1,2: repeat (apply setf_qword; [fields_side|done|]); split; lia.
  all: rewrite Z.shiftr_div_pow2 by done; change (2 ^ SHIFT_FOR_PHYSICAL_ADDR) with PAGE_SIZE;
    pose proof (Z.div_mod pa PAGE_SIZE ltac:(done)); lia.
Qed.

(** Fields that PteMap does not assign stay zero. *)
Lemma PteMap_unassigned pa fl f : field_ok f ->
  Forall (fields_apart f) [PhysicalAddress; Present; ReadWrite; XD; UserSupervisor; PAT; PCD; PWT; Global] ->
  getf f (PteMap pa fl) = 0.
Proof.
  intros Hf H. rewrite !Forall_cons in H. destruct_and! H. unfold PteMap.
  destruct (PagingStructure fl); rewrite !getf_setf_apart by (done || fields_side); apply getf_0.
Qed.

(** The flags an entry encodes, read as a PT entry. *)
Definition pte_flags (e : Z) : PTE_MAP_FLAGS :=
  mkFlags (4 * getf PAT e + 2 * getf PCD e + getf PWT e) (getf ReadWrite e =? 1) (getf XD e =? 0) false
    (getf UserSupervisor e =? 1) (getf Global e =? 1).

Lemma pat_bits i : 0 <= i < 8 ->
  4 * Z.land (Z.shiftr i 2) 1 + 2 * Z.land (Z.shiftr i 1) 1 + Z.land (Z.shiftr i 0) 1 = i.
Proof.
  intros. assert (i = 0 \/ i = 1 \/ i = 2 \/ i = 3 \/ i = 4 \/ i = 5 \/ i = 6 \/ i = 7) as Hc by lia.
  destruct_or! Hc; by subst.
Qed.

(** C35: an entry written by PteMap for a page is a QWORD that is present, whose ignored and reserved bits and accessed
    and dirty bits are zero, and from which the physical address and every flag are read back. *)
Theorem pte_map_decode pa fl : phys_ok pa -> PagingStructure fl = false -> 0 <= PatIndex fl < 8 ->
  let e := PteMap pa fl in
  is_qword e /\ PteIsPresent e = true /\ PteGetPhysicalAddress e = pa /\ pte_flags e = fl /\
  getf Accessed e = 0 /\ getf Dirty e = 0 /\ getf (mkField 9 3) e = 0 /\ getf (mkField 52 11) e = 0.
Proof.
  intros Hpa Hps Hpat e. destruct (PteMap_fields pa fl Hpa) as (?&?&?&Hrw&Hxd&Hus&?&?&Hp1&Hp2&Hp3&Hg).
  fold e in Hrw, Hxd, Hus, Hp1, Hp2, Hp3, Hg. rewrite Hps in *. split_and!; try done.
  - unfold pte_flags. rewrite Hrw, Hxd, Hus, Hp1, Hp2, Hp3, Hg, pat_bits by done.
    destruct fl as [? [] [] ? [] []]; cbn in *; by subst.
  - apply PteMap_unassigned; [fields_side|]. repeat constructor; fields_side.
  - apply PteMap_unassigned; [fields_side|]. repeat constructor; fields_side.
Qed.

Lemma pte_map_decode_witness :
  PteGetPhysicalAddress (PteMap 0x7000 (mkFlags 5 true false false true false)) = 0x7000 /\
  pte_flags (PteMap 0x7000 (mkFlags 5 true false false true false)) = mkFlags 5 true false false true false.
Proof.
  destruct (pte_map_decode 0x7000 (mkFlags 5 true false false true false)) as (_&_&H1&H2&_);
    [split; [unfold MAXPHYADDR; lia|reflexivity]|reflexivity|cbn; lia|].
  split; [exact H1|exact H2].
Defined.
