(* ===== verification/Paging.v ===== *)
(** HAL9000/src/vmm.c (walk of the paging tables, mapping, unmapping, translation) and the functions of
    HAL9000/src/mmu.c that call it.

    Physical memory is a function from physical addresses to QWORDs.  The kernel reaches
    paging structures through the fixed mapping PA2VA/VA2PA, which is in place for all of them; a pointer to an
    entry is a virtual address of that mapping and an access through it is an access to
    [phys] at VA2PA of the pointer.  The PAGING_DATA objects (one for the kernel, one per
    process) are kept by address.  Executions of INVLPG are recorded in order, and so are the
    items queued for the zero worker thread; the special heap, which serves only those
    items, is the number of items it still has room for.  Each PAGING_DATA is guarded by its lock, so the operations are
    sequential. *)
From S2P Require Import Prelude IntUtils ClMemory Pte.
From S2P Require Import VmReservation.

(** headers/mmu.h *)
Record PAGING_DATA := mkPAGING {
  BasePhysicalAddress : Z; NumberOfFrames : Z; CurrentIndex : Z; KernelSpace : bool }.
Record MMU_ZERO_WORKER_ITEM := mkITEM { item_PhysicalAddress : Z; item_NumberOfFrames : Z }.

Record Vmm := mkVmm {
  phys : Z -> Z;
  paging : gmap Z PAGING_DATA;
  WriteBackIndex : Z; UncacheableIndex : Z;
  gVirtualToPhysicalOffset : Z;
  PagesToZeroList : list MMU_ZERO_WORKER_ITEM;
  NewPagesEvent : bool;
  special_room : nat;
  tlb_invalidated : list Z }.

Definition PA2VA (s : Vmm) (addr : Z) : Z := u64 (addr + gVirtualToPhysicalOffset s).
Definition VA2PA (s : Vmm) (addr : Z) : Z := u64 (addr - gVirtualToPhysicalOffset s).

(** * Accesses *)
Definition load (s : Vmm) (p : Z) : Z := phys s (VA2PA s p).
Definition upd (m : Z -> Z) (a v : Z) : Z -> Z := fun x => if x =? a then v else m x.
Definition zero_range (m : Z -> Z) (a n : Z) : Z -> Z :=
  fun x => if (a <=? x) && (x <? a + n) then 0 else m x.
Definition set_phys (m : Z -> Z) (s : Vmm) : Vmm :=
  mkVmm m (paging s) (WriteBackIndex s) (UncacheableIndex s) (gVirtualToPhysicalOffset s)
    (PagesToZeroList s) (NewPagesEvent s) (special_room s) (tlb_invalidated s).
Definition store (p v : Z) : M Vmm unit := modify (fun s => set_phys (upd (phys s) (VA2PA s p) v) s).
Definition memzero (p n : Z) : M Vmm unit :=
  modify (fun s => set_phys (zero_range (phys s) (VA2PA s p) n) s).
Definition PageInvalidateTlb (p : Z) : M Vmm unit := modify (fun s =>
  mkVmm (phys s) (paging s) (WriteBackIndex s) (UncacheableIndex s) (gVirtualToPhysicalOffset s)
    (PagesToZeroList s) (NewPagesEvent s) (special_room s) (tlb_invalidated s ++ [p])).
Definition get_paging (p : Z) : M Vmm PAGING_DATA := fun s =>
  match paging s !! p with Some d => Ok (d, s) | None => Err MemFault end.
Definition put_paging (p : Z) (d : PAGING_DATA) : M Vmm unit := modify (fun s =>
  mkVmm (phys s) (<[p := d]> (paging s)) (WriteBackIndex s) (UncacheableIndex s) (gVirtualToPhysicalOffset s)
    (PagesToZeroList s) (NewPagesEvent s) (special_room s) (tlb_invalidated s)).

(** * The walk of the paging tables *)
Definition offset_at (va i : Z) : Z :=
  if i =? 1 then MASK_PML4_OFFSET va else if i =? 2 then MASK_PDPTE_OFFSET va
  else if i =? 3 then MASK_PDE_OFFSET va else MASK_PTE_OFFSET va.

Definition SIZEOF_PT_ENTRY : Z := 8.
Definition level_list : list Z :=   (* PAGING_TABLES_FIRST_LEVEL .. PAGING_TABLES_LAST_LEVEL *)
  [1; 2; 3; 4].

Section Walk.
Context {T : Type} (vmm : T -> Vmm).
Context (WalkCallback : Z -> Z -> Z -> M T bool).   (* PageTable, VirtualAddress, PageLevel *)

Fixpoint walk_levels (currentVa curStructPa : Z) (levels : list Z) : M T unit :=
  match levels with
  | [] => ret tt
  | i :: levels' =>
    pCurrentEntry ← gets (fun s => u64 (PA2VA (vmm s) curStructPa + SIZEOF_PT_ENTRY * offset_at currentVa i));
    b ← WalkCallback pCurrentEntry currentVa i;
    if negb b then ret tt else
    e ← gets (fun s => load (vmm s) pCurrentEntry);
    _ ← (if negb (i =? PAGING_TABLES_LAST_LEVEL) then ASSERT (getf PageSize e =? 0) else ret tt);
    walk_levels currentVa (PteGetPhysicalAddress e) levels'
  end.

Fixpoint walk_pages (fuel : nat) (Cr3 Base offset Size : Z) : M T unit :=
  if offset <? Size then
    match fuel with
    | O => fail NoFuel
    | S fuel' =>
      let currentVa := PtrOffset Base offset in
      let curStructPa := u64 (Z.shiftl (getf Pcide_PhysicalAddress Cr3) SHIFT_FOR_PHYSICAL_ADDR) in
      _ ← walk_levels currentVa curStructPa level_list;
      walk_pages fuel' Cr3 Base (u64 (offset + PAGE_SIZE)) Size
    end
  else ret tt.

Definition _VmWalkPagingTables (Cr3 Base Size : Z) : M T unit :=
  walk_pages (Z.to_nat (Size / PAGE_SIZE) + 1)%nat Cr3 Base 0 Size.
End Walk.

(** * Mapping *)
Definition _VmRetrieveNextPhysicalAddressForPagingStructure (PagingData : Z) : M Vmm Z :=
  d ← get_paging PagingData;
  let currentIndex := CurrentIndex d in
  _ ← ASSERT (currentIndex <? NumberOfFrames d);
  let nextAddress := u64 (BasePhysicalAddress d + u32 (currentIndex * PAGE_SIZE)) in
  _ ← put_paging PagingData (mkPAGING (BasePhysicalAddress d) (NumberOfFrames d)
        (u32 (currentIndex + 1)) (KernelSpace d));
  ret nextAddress.

Definition _VmSetupPagingStructure (PagingData PagingStructurePtr : Z) : M Vmm unit :=
  _ ← ASSERT (negb (PagingData =? NULL));
  _ ← ASSERT (negb (PagingStructurePtr =? NULL));
  physicalAddr ← _VmRetrieveNextPhysicalAddressForPagingStructure PagingData;
  d ← get_paging PagingData;
  _ ← store PagingStructurePtr (PteMap physicalAddr (mkFlags 0 true true true (negb (KernelSpace d)) false));
  p ← gets (fun s => PA2VA s physicalAddr);
  _ ← PageInvalidateTlb p;
  memzero p PAGE_SIZE.

Record VMM_MAP_UNMAP_PAGE_WALK_CONTEXT := mkMapCtx {
  ctx_PagingData : Z; ctx_PhysicalAddressBase : Z; ctx_VirtualAddressBase : Z;
  ctx_PageRights : Z; ctx_Invalidate : bool; ctx_Uncacheable : bool; ctx_ReleaseMemory : bool }.

Definition callback_asserts (PageTable VirtualAddress PageLevel : Z) : M Vmm unit :=
  _ ← ASSERT (negb (PageTable =? NULL));
  _ ← ASSERT (negb (VirtualAddress =? NULL));
  ASSERT ((PAGING_TABLES_FIRST_LEVEL <=? PageLevel) && (PageLevel <=? PAGING_TABLES_LAST_LEVEL)).

Definition leaf_flags (s : Vmm) (d : PAGING_DATA) (PageRights : Z) (Uncacheable : bool) : PTE_MAP_FLAGS :=
  mkFlags (Z.land (if Uncacheable then UncacheableIndex s else WriteBackIndex s) 7)
    (IsBooleanFlagOn PageRights PAGE_RIGHTS_WRITE) (IsBooleanFlagOn PageRights PAGE_RIGHTS_EXECUTE)
    false (negb (KernelSpace d)) (KernelSpace d).

Definition _VmMapPage (pPageContext : VMM_MAP_UNMAP_PAGE_WALK_CONTEXT)
    (PageTable VirtualAddress PageLevel : Z) : M Vmm bool :=
  _ ← callback_asserts PageTable VirtualAddress PageLevel;
  e ← gets (fun s => load s PageTable);
  if PteIsPresent e && negb ((PageLevel =? PAGING_TABLES_LAST_LEVEL) && ctx_Invalidate pPageContext)
  then ret true else
  _ ← (if PageLevel =? PAGING_TABLES_LAST_LEVEL then
         let physAddr := PtrOffset (ctx_PhysicalAddressBase pPageContext)
                           (PtrDiff VirtualAddress (ctx_VirtualAddressBase pPageContext)) in
         d ← get_paging (ctx_PagingData pPageContext);
         flags ← gets (fun s => leaf_flags s d (ctx_PageRights pPageContext) (ctx_Uncacheable pPageContext));
         _ ← store PageTable (PteMap physAddr flags);
         PageInvalidateTlb VirtualAddress
       else _VmSetupPagingStructure (ctx_PagingData pPageContext) PageTable);
  ret true.

Definition VmmMapMemoryInternal (PagingData PhysAddr Size Base Rights : Z)
    (Invalidate Uncacheable : bool) : M Vmm unit :=
  _ ← ASSERT (negb (PagingData =? NULL));
  _ ← ASSERT (IsAddressAligned PhysAddr PAGE_SIZE);
  _ ← ASSERT (negb (0 =? Size) && IsAddressAligned Size PAGE_SIZE);
  d ← get_paging PagingData;
  _VmWalkPagingTables id
    (_VmMapPage (mkMapCtx PagingData PhysAddr Base Rights Invalidate Uncacheable false))
    (BasePhysicalAddress d) Base Size.

(** * Unmapping *)
Definition MmuReleaseMemory (PhysicalAddr NoOfFrames : Z) : M Vmm unit :=
  _ ← ASSERT (IsAddressAligned PhysicalAddr PAGE_SIZE);
  _ ← ASSERT (negb (0 =? NoOfFrames));
  room ← gets special_room;
  _ ← ASSERT (0 <? Z.of_nat room);   (* pItem = _MmuAllocateFromPoolWithTag(MmuHeapIndexSpecial, ...) *)
  modify (fun s =>
    mkVmm (phys s) (paging s) (WriteBackIndex s) (UncacheableIndex s) (gVirtualToPhysicalOffset s)
      (PagesToZeroList s ++ [mkITEM PhysicalAddr NoOfFrames]) true (pred room) (tlb_invalidated s)).

Definition _VmUnmapPage (pPageContext : VMM_MAP_UNMAP_PAGE_WALK_CONTEXT)
    (PageTable VirtualAddress PageLevel : Z) : M Vmm bool :=
  _ ← callback_asserts PageTable VirtualAddress PageLevel;
  e ← gets (fun s => load s PageTable);
  if negb (PteIsPresent e) then ret false else
  _ ← (if PageLevel =? PAGING_TABLES_LAST_LEVEL then
         let pa := PteGetPhysicalAddress e in
         _ ← store PageTable PteUnmap;
         _ ← PageInvalidateTlb VirtualAddress;
         if ctx_ReleaseMemory pPageContext then MmuReleaseMemory pa 1 else ret tt
       else ret tt);
  ret true.

Definition VmmUnmapMemoryEx (Cr3 VirtualAddress Size : Z) (ReleaseMemory : bool) : M Vmm unit :=
  if (NULL =? VirtualAddress) || negb (IsAddressAligned VirtualAddress PAGE_SIZE) then ret tt else
  if (0 =? Size) || negb (IsAddressAligned Size PAGE_SIZE) then ret tt else
  _VmWalkPagingTables id (_VmUnmapPage (mkMapCtx 0 0 0 0 false false ReleaseMemory)) Cr3 VirtualAddress Size.

(** * Translation *)
Record VMM_RETRIEVE_PHYS_ACCESS_PAGE_WALK_CONTEXT := mkRetCtx {
  ret_PhysicalAddress : Z; ret_Accessed : bool; ret_Dirty : bool;
  ret_ClearAccessed : bool; ret_ClearDirty : bool }.

Definition PAGE_2MB_OFFSET : Z := 2 ^ 21 - 1.

Definition on_vmm {C A} (m : M Vmm A) : M (Vmm * C) A := zoom fst (fun v s => (v, snd s)) m.

Definition set_result (pa : Z) : M (Vmm * VMM_RETRIEVE_PHYS_ACCESS_PAGE_WALK_CONTEXT) unit :=
  modify (fun s => let c := snd s in
    (fst s, mkRetCtx pa (ret_Accessed c) (ret_Dirty c) (ret_ClearAccessed c) (ret_ClearDirty c))).

(** The __finally block, when the walk ends at this entry. *)
Definition access_bits (PageTable VirtualAddress : Z)
    : M (Vmm * VMM_RETRIEVE_PHYS_ACCESS_PAGE_WALK_CONTEXT) unit :=
  e ← gets (fun s => load (fst s) PageTable);
  c ← gets snd;
  _ ← modify (fun s => (fst s, mkRetCtx (ret_PhysicalAddress c) (1 =? getf Accessed e) (1 =? getf Dirty e)
                                  (ret_ClearAccessed c) (ret_ClearDirty c)));
  _ ← (if ret_ClearAccessed c then on_vmm (store PageTable (setf Accessed 0 e)) else ret tt);
  e ← gets (fun s => load (fst s) PageTable);
  _ ← (if ret_ClearDirty c then on_vmm (store PageTable (setf Dirty 0 e)) else ret tt);
  if ret_ClearAccessed c || ret_ClearDirty c then on_vmm (PageInvalidateTlb VirtualAddress) else ret tt.

Definition _VmRetrievePhyAccess (PageTable VirtualAddress PageLevel : Z)
    : M (Vmm * VMM_RETRIEVE_PHYS_ACCESS_PAGE_WALK_CONTEXT) bool :=
  _ ← on_vmm (callback_asserts PageTable VirtualAddress PageLevel);
  e ← gets (fun s => load (fst s) PageTable);
  if negb (PteIsPresent e) then _ ← set_result NULL; ret false else
  if PageLevel <? PAGING_TABLES_LAST_LEVEL - 1 then ret true else
  if PageLevel =? PAGING_TABLES_LAST_LEVEL - 1 then
    if getf PageSize e =? 1 then
      _ ← set_result (PtrOffset (PteLargePageGetPhysicalAddress e)
                        (AddressOffset VirtualAddress (PAGE_2MB_OFFSET + 1)));
      _ ← access_bits PageTable VirtualAddress;
      ret false
    else ret true
  else
    _ ← ASSERT (PageLevel =? PAGING_TABLES_LAST_LEVEL);
    _ ← set_result (PteGetPhysicalAddress e);
    _ ← access_bits PageTable VirtualAddress;
    ret false.

(** [Accessed] and [Dirty] tell whether the out parameters are given; the result is the physical address
    and the values the out parameters receive. *)
Definition VmmGetPhysicalAddressEx (Cr3 VirtualAddress : Z) (WantAccessed WantDirty : bool)
    : M Vmm (Z * bool * bool) := fun s =>
  match (_ ← on_vmm (ASSERT (negb (NULL =? VirtualAddress)));
         _ ← on_vmm (ASSERT (IsAddressAligned VirtualAddress PAGE_SIZE));
         _VmWalkPagingTables fst _VmRetrievePhyAccess Cr3 VirtualAddress PAGE_SIZE)
        (s, mkRetCtx 0 false false WantAccessed WantDirty) with
  | Ok (_, (s', c)) => Ok ((ret_PhysicalAddress c, ret_Accessed c, ret_Dirty c), s')
  | Err e => Err e
  end.

(** * The callers in mmu.c.  [kernel] is &m_mmuData.PagingData. *)
Definition select_paging (kernel PagingData : Z) : Z := if PagingData =? NULL then kernel else PagingData.

Definition MmuMapMemoryInternal (kernel PhysAddr Size Rights VirtualAddress : Z)
    (Invalidate Uncacheable : bool) (PagingData : Z) : M Vmm unit :=
  _ ← ASSERT (negb (0 =? Size));
  _ ← ASSERT (IsAddressAligned Size PAGE_SIZE);
  _ ← ASSERT (negb (NULL =? VirtualAddress));
  _ ← ASSERT (IsAddressAligned VirtualAddress PAGE_SIZE);
  VmmMapMemoryInternal (select_paging kernel PagingData) PhysAddr Size VirtualAddress Rights Invalidate Uncacheable.

Definition MmuUnmapMemoryEx (kernel VirtualAddress Size : Z) (ReleaseMemory : bool) (PagingData : Z) : M Vmm unit :=
  _ ← ASSERT (negb (VirtualAddress =? NULL));
  _ ← ASSERT (negb (Size =? 0));
  let alignedVirtualAddress := AlignAddressLower VirtualAddress PAGE_SIZE in
  let alignmentDifferences := u32 (VirtualAddress - alignedVirtualAddress) in
  let alignedSize := u32 (AlignAddressUpper (u64 (Size + alignmentDifferences)) PAGE_SIZE) in   (* DWORD *)
  d ← get_paging (select_paging kernel PagingData);
  VmmUnmapMemoryEx (BasePhysicalAddress d) alignedVirtualAddress alignedSize ReleaseMemory.

Definition MmuGetPhysicalAddressEx (VirtualAddress PagingData Cr3Base : Z) : M Vmm Z :=
  if NULL =? VirtualAddress then ret NULL else
  _ ← ASSERT (xorb (negb (PagingData =? NULL)) (negb (Cr3Base =? NULL)));
  let alignedAddress := AlignAddressLower VirtualAddress PAGE_SIZE in
  let alignmentDifference := u32 (AddressOffset VirtualAddress PAGE_SIZE) in
  cr3 ← (if negb (PagingData =? NULL) then d ← get_paging PagingData; ret (BasePhysicalAddress d)
         else ret Cr3Base);
  r ← VmmGetPhysicalAddressEx cr3 alignedAddress false false;
  ret (u64 (fst (fst r) + alignmentDifference)).

(** * Start-up of paging *)
Definition MemoryCachingStrongUncacheable : Z := 0.
Definition MemoryCachingWriteBack : Z := 6.

(** bFoundWb, bFoundUc, *WbIndex, *UcIndex *)
Definition pat_step (PatValues : Z) (r : bool * bool * Z * Z) (i : Z) : bool * bool * Z * Z :=
  let '(bFoundWb, bFoundUc, wb, uc) := r in
  let patArrayValue := Z.land (Z.shiftr PatValues (8 * i)) 0xFF in
  if MemoryCachingStrongUncacheable =? patArrayValue then
    if negb bFoundUc then (bFoundWb, true, wb, i) else r
  else if MemoryCachingWriteBack =? patArrayValue then
    if negb bFoundWb then (true, bFoundUc, i, uc) else r
  else r.
Definition _VmDeterminePatIndices (PatValues WbIndex UcIndex : Z) : bool * Z * Z :=
  let '(bFoundWb, bFoundUc, wb, uc) := foldl (pat_step PatValues) (false, false, WbIndex, UcIndex) (seqZ 0 8) in
  (bFoundWb && bFoundUc, wb, uc).

(** [ia32PatValues] is the value read from the IA32_PAT register. *)
Definition VmmPreparePagingData (ia32PatValues : Z) : M Vmm Z := fun s =>
  let '(bResult, wb, uc) := _VmDeterminePatIndices ia32PatValues (WriteBackIndex s) (UncacheableIndex s) in
  let s' := mkVmm (phys s) (paging s) wb uc (gVirtualToPhysicalOffset s) (PagesToZeroList s) (NewPagesEvent s)
              (special_room s) (tlb_invalidated s) in
  Ok (if negb bResult then STATUS_PAT_LAYOUT_NOT_COMPATIBLE else STATUS_SUCCESS, s').

Definition VmmSetupPageTables (PagingDataWhereToMap PagingData BasePhysAddr FramesReserved : Z)
    (KernelStructures : bool) : M Vmm Z :=
  _ ← ASSERT (negb (PagingDataWhereToMap =? NULL));
  _ ← ASSERT (negb (PagingData =? NULL));
  _ ← ASSERT (negb (BasePhysAddr =? NULL));
  _ ← ASSERT (negb (FramesReserved =? 0));
  pBaseVirtualAddress ← gets (fun s => PA2VA s BasePhysAddr);
  _ ← ASSERT (FramesReserved <=? MAX_DWORD / PAGE_SIZE);
  let sizeReservedForPagingStructures := u32 (FramesReserved * PAGE_SIZE) in
  _ ← put_paging PagingData (mkPAGING BasePhysAddr FramesReserved 1 KernelStructures);
  _ ← VmmMapMemoryInternal PagingDataWhereToMap BasePhysAddr sizeReservedForPagingStructures pBaseVirtualAddress
        PAGE_RIGHTS_READWRITE true false;
  _ ← (if negb (PagingDataWhereToMap =? PagingData) then memzero pBaseVirtualAddress PAGE_SIZE else ret tt);
  ret STATUS_SUCCESS.

(** The value VmmChangeCr3 loads into CR3. *)
Definition MOV_TO_CR3_DO_NOT_INVALIDATE_PCID_MAPPINGS : Z := Z.shiftl 1 63.
Definition VmmChangeCr3 (Pml4Base Pcid : Z) (Invalidate : bool) : outcome Z :=
  _ ← assert_ (IsAddressAligned Pml4Base PAGE_SIZE);
  _ ← assert_ (PCID_IS_VALID Pcid);
  mret (Z.lor (Z.lor (if Invalidate then 0 else MOV_TO_CR3_DO_NOT_INVALIDATE_PCID_MAPPINGS) Pml4Base) Pcid).

(** * What the tables mean

    [table m root va n] is the paging structure that the first [n] levels lead to for [va];
    [leaf] is the address of the PT entry and [pte] its value when it is present.  The definitions read
    memory as the processor does and do not mention the walk. *)
Definition slot (f va i : Z) : Z := f + SIZEOF_PT_ENTRY * offset_at va i.

Fixpoint table (m : Z -> Z) (root va : Z) (n : nat) : option Z :=
  match n with
  | O => Some root
  | S n' =>
    f ← table m root va n';
    let e := m (slot f va (Z.of_nat n)) in
    if PteIsPresent e then Some (PteGetPhysicalAddress e) else None
  end.
Definition leaf (m : Z -> Z) (root va : Z) : option Z :=
  f ← table m root va 3; Some (slot f va PAGING_TABLES_LAST_LEVEL).
Definition pte (m : Z -> Z) (root va : Z) : option Z :=
  a ← leaf m root va; if PteIsPresent (m a) then Some (m a) else None.
Definition translate (m : Z -> Z) (root va : Z) : option Z :=
  PteGetPhysicalAddress <$> pte m root va.

(** The page of [va] among the 2^36 pages that the four indices distinguish. *)
Definition page_key (va : Z) : Z := va / PAGE_SIZE mod 2 ^ 36.
Definition page_index_from (va v : Z) : Z := (v / PAGE_SIZE - va / PAGE_SIZE) mod 2 ^ 36.

(** ** Index arithmetic *)
Lemma offset_at_eq va i : 1 <= i <= 4 -> offset_at va i = va / 2 ^ (48 - 9 * i) mod 2 ^ 9.
Proof.
  intros Hi. assert (i = 1 \/ i = 2 \/ i = 3 \/ i = 4) as [-> |[-> |[-> | ->]]] by lia;
    cbn [offset_at Z.eqb Pos.eqb]; unfold MASK_PML4_OFFSET, MASK_PDPTE_OFFSET, MASK_PDE_OFFSET, MASK_PTE_OFFSET;
    rewrite Z.shiftr_div_pow2 by lia; change 0x1FF with (Z.ones 9); by rewrite Z.land_ones.
Qed.

Lemma offset_at_range va i : 1 <= i <= 4 -> 0 <= offset_at va i < 512.
Proof. intros. rewrite offset_at_eq by done. by apply Z.mod_pos_bound. Qed.

(** One more level of index: the quotient by 2^(48-9i) modulo 2^(9i). *)
Definition prefix (va i : Z) : Z := va / 2 ^ (48 - 9 * i) mod 2 ^ (9 * i).

Lemma prefix_step va i : 0 <= i < 4 -> prefix va (i + 1) = prefix va i * 2 ^ 9 + offset_at va (i + 1).
Proof.
  intros Hi. unfold prefix. rewrite offset_at_eq by lia.
  replace (48 - 9 * i) with ((48 - 9 * (i + 1)) + 9) by lia.
  replace (9 * (i + 1)) with (9 + 9 * i) by lia.
  set (k := 48 - (9 + 9 * i)). assert (0 <= k) by lia.
  rewrite !Z.pow_add_r by lia. rewrite <- Z.div_div by lia.
  rewrite Z.rem_mul_r by lia. lia.
Qed.

Lemma page_key_prefix va : page_key va = prefix va 4.
Proof. done. Qed.

Lemma prefix_0 va : prefix va 0 = 0.
Proof. unfold prefix. apply Z.mod_1_r. Qed.

Lemma page_index_from_key va i : 0 <= i < 2 ^ 36 ->
  forall v, page_index_from va v = i <-> page_key v = page_key (va + i * PAGE_SIZE).
Proof.
  intros Hi v. unfold page_index_from, page_key. rewrite Z.div_add by done. split.
  - intros <-. rewrite Zplus_mod_idemp_r. f_equal. lia.
  - intros E. rewrite Zminus_mod, E, <- Zminus_mod. rewrite <- (Z.mod_small i (2 ^ 36)) at 2 by done.
    f_equal. lia.
Qed.

Lemma table_prefix m root va v n : (n <= 3)%nat ->
  va / 2 ^ (48 - 9 * Z.of_nat n) = v / 2 ^ (48 - 9 * Z.of_nat n) -> table m root va n = table m root v n.
Proof.
  induction n as [|n IH]; intros Hn E; [done|].
  assert (E' : va / 2 ^ (48 - 9 * Z.of_nat n) = v / 2 ^ (48 - 9 * Z.of_nat n)).
  { replace (48 - 9 * Z.of_nat n) with ((48 - 9 * Z.of_nat (S n)) + 9) by lia.
    rewrite Z.pow_add_r by lia. rewrite <- !Z.div_div by lia. by rewrite E. }
  cbn [table]. rewrite <- IH by (lia || done). destruct (table m root va n); [|done]. cbn.
  unfold slot. rewrite !offset_at_eq by lia. by rewrite E.
Qed.

(** * Well-formed paging structures

    [lv] gives the level of every frame used as a paging structure.  An entry of level below 4 that is present
    leads to a structure of the next level, no two entries lead to the same one, and the frames of the
    pool that were not handed out yet are not in use.  Frames outside the pool are allowed: the tables of a
    process share the kernel's. *)
Record wf_tables (s : Vmm) (d : PAGING_DATA) (lv : gmap Z Z) : Prop := {
  wt_offset : 0 < gVirtualToPhysicalOffset s < 2 ^ 64;
  wt_root : lv !! BasePhysicalAddress d = Some 1;
  wt_frame f l : lv !! f = Some l ->
    1 <= l <= 4 /\ phys_ok f /\ f + PAGE_SIZE + gVirtualToPhysicalOffset s <= 2 ^ 64;
  wt_child f l k : lv !! f = Some l -> l < 4 -> 0 <= k < 512 ->
    PteIsPresent (phys s (f + SIZEOF_PT_ENTRY * k)) = true ->
    getf PageSize (phys s (f + SIZEOF_PT_ENTRY * k)) = 0 /\
    lv !! PteGetPhysicalAddress (phys s (f + SIZEOF_PT_ENTRY * k)) = Some (l + 1);
  wt_inj f l k g l' j : lv !! f = Some l -> l < 4 -> 0 <= k < 512 -> lv !! g = Some l' -> l' < 4 -> 0 <= j < 512 ->
    PteIsPresent (phys s (f + SIZEOF_PT_ENTRY * k)) = true ->
    PteIsPresent (phys s (g + SIZEOF_PT_ENTRY * j)) = true ->
    PteGetPhysicalAddress (phys s (f + SIZEOF_PT_ENTRY * k)) =
      PteGetPhysicalAddress (phys s (g + SIZEOF_PT_ENTRY * j)) -> f = g /\ k = j;
  wt_index : 0 <= CurrentIndex d <= NumberOfFrames d;
  wt_pool : NumberOfFrames d * PAGE_SIZE < 2 ^ 32;
  wt_pool_phys : BasePhysicalAddress d + NumberOfFrames d * PAGE_SIZE <= 2 ^ MAXPHYADDR;
  wt_pool_va : BasePhysicalAddress d + NumberOfFrames d * PAGE_SIZE + gVirtualToPhysicalOffset s <= 2 ^ 64;
  wt_fresh i : CurrentIndex d <= i < NumberOfFrames d -> lv !! (BasePhysicalAddress d + i * PAGE_SIZE) = None }.

(** Entries of two page-aligned structures coincide only when structure and index do. *)
Lemma slot_inj f g k j : f mod PAGE_SIZE = 0 -> g mod PAGE_SIZE = 0 -> 0 <= k < 512 -> 0 <= j < 512 ->
  f + SIZEOF_PT_ENTRY * k = g + SIZEOF_PT_ENTRY * j -> f = g /\ k = j.
Proof.
  unfold PAGE_SIZE, SIZEOF_PT_ENTRY. intros Hf Hg Hk Hj E.
  pose proof (Z.div_mod f 0x1000 ltac:(done)). pose proof (Z.div_mod g 0x1000 ltac:(done)). lia.
Qed.

Lemma frame_apart f g a : f mod PAGE_SIZE = 0 -> g mod PAGE_SIZE = 0 -> f <= a < f + PAGE_SIZE ->
  g <= a < g + PAGE_SIZE -> f = g.
Proof.
  unfold PAGE_SIZE. intros.
  pose proof (Z.div_mod f 0x1000 ltac:(done)). pose proof (Z.div_mod g 0x1000 ltac:(done)). lia.
Qed.

Lemma slot_in_frame f k : 0 <= k < 512 -> f <= f + SIZEOF_PT_ENTRY * k < f + PAGE_SIZE.
Proof. unfold SIZEOF_PT_ENTRY, PAGE_SIZE. lia. Qed.

Section WellFormed.
Context (s : Vmm) (d : PAGING_DATA) (lv : gmap Z Z) (Hwf : wf_tables s d lv).
Abbreviation root := (BasePhysicalAddress d).
Abbreviation m := (phys s).

Lemma frame_aligned f l : lv !! f = Some l -> f mod PAGE_SIZE = 0.
Proof. intros H. by apply (wt_frame _ _ _ Hwf) in H as (?&[]&?). Qed.

Lemma table_level va n f : (n <= 3)%nat -> table m root va n = Some f -> lv !! f = Some (Z.of_nat n + 1).
Proof.
  revert f. induction n as [|n IH]; intros f Hn E; cbn [table] in E.
  - injection E as <-. apply (wt_root _ _ _ Hwf).
  - destruct (table m root va n) as [g|] eqn:Eg; [|done]. cbn [mbind option_bind] in E.
    destruct (PteIsPresent _) eqn:Ep; [|done]. injection E as <-.
    pose proof (IH g ltac:(lia) eq_refl) as Hg. unfold slot in Ep |- *.
    pose proof (offset_at_range va (Z.of_nat (S n)) ltac:(lia)).
    destruct (wt_child _ _ _ Hwf g _ _ Hg ltac:(lia) ltac:(done) Ep) as [_ ->]. f_equal. lia.
Qed.

Lemma table_inj va v n f : (n <= 3)%nat -> table m root va n = Some f -> table m root v n = Some f ->
  prefix va (Z.of_nat n) = prefix v (Z.of_nat n).
Proof.
  revert f. induction n as [|n IH]; intros f Hn E1 E2; [by rewrite !prefix_0|].
  cbn [table] in E1, E2.
  destruct (table m root va n) as [g|] eqn:Eg; [|done]. destruct (table m root v n) as [h|] eqn:Eh; [|done].
  cbn [mbind option_bind] in E1, E2. destruct (PteIsPresent (m (slot g _ _))) eqn:Ep; [|done].
  destruct (PteIsPresent (m (slot h _ _))) eqn:Eq; [|done]. injection E1 as E1. injection E2 as E2.
  unfold slot in *.
  pose proof (offset_at_range va (Z.of_nat (S n)) ltac:(lia)).
  pose proof (offset_at_range v (Z.of_nat (S n)) ltac:(lia)).
  pose proof (table_level va n g ltac:(lia) Eg) as Hg. pose proof (table_level v n h ltac:(lia) Eh) as Hh.
  destruct (wt_inj _ _ _ Hwf g _ (offset_at va (Z.of_nat (S n))) h _ (offset_at v (Z.of_nat (S n)))
    Hg ltac:(lia) ltac:(done) Hh ltac:(lia) ltac:(done) Ep Eq ltac:(congruence)) as [-> Ho].
  replace (Z.of_nat (S n)) with (Z.of_nat n + 1) in * by lia.
  rewrite !prefix_step by lia. rewrite Ho. f_equal. f_equal. apply (IH h); [lia|done|done].
Qed.

Lemma leaf_level va a : leaf m root va = Some a ->
  exists f, table m root va 3 = Some f /\ lv !! f = Some 4 /\ a = f + SIZEOF_PT_ENTRY * offset_at va 4.
Proof.
  unfold leaf. destruct (table m root va 3) as [f|] eqn:E; [|done]. intros [= <-].
  exists f. split; [done|]. split; [|done]. by apply (table_level va 3).
Qed.

Lemma leaf_inj va v a : leaf m root va = Some a -> leaf m root v = Some a -> page_key va = page_key v.
Proof.
  intros (f&Ef&Hf&->)%leaf_level (g&Eg&Hg&Ea)%leaf_level.
  pose proof (offset_at_range va 4 ltac:(lia)). pose proof (offset_at_range v 4 ltac:(lia)).
  apply slot_inj in Ea as [-> Eo]; [|by eapply frame_aligned..|done|done].
  rewrite !page_key_prefix. rewrite !(prefix_step _ 3) by lia. change (3 + 1) with 4. rewrite Eo. f_equal. f_equal.
  by apply (table_inj va v 3 g).
Qed.
End WellFormed.

Lemma leaf_same_key m root va v : page_key va = page_key v -> leaf m root va = leaf m root v.
Proof.
  intros E. assert (Hp : forall i, (i <= 4)%nat -> prefix va (Z.of_nat i) = prefix v (Z.of_nat i)).
  { intros i Hi. enough (H : forall j, (j <= 4)%nat -> prefix va (Z.of_nat (4 - j)) = prefix v (Z.of_nat (4 - j))).
    { specialize (H (4 - i)%nat ltac:(lia)). by replace (4 - (4 - i))%nat with i in H by lia. }
    induction j as [|j IH]; intros Hj; [done|]. specialize (IH ltac:(lia)).
    replace (4 - j)%nat with (S (4 - S j)) in IH by lia.
    replace (Z.of_nat (S (4 - S j))) with (Z.of_nat (4 - S j) + 1) in IH by lia.
    rewrite !prefix_step in IH by lia.
    pose proof (offset_at_range va (Z.of_nat (4 - S j) + 1) ltac:(lia)).
    pose proof (offset_at_range v (Z.of_nat (4 - S j) + 1) ltac:(lia)). lia. }
  assert (Ho : forall i, (i < 4)%nat -> offset_at va (Z.of_nat (S i)) = offset_at v (Z.of_nat (S i))).
  { intros i Hi. pose proof (Hp (S i) ltac:(lia)) as H1. pose proof (Hp i ltac:(lia)) as H2.
    replace (Z.of_nat (S i)) with (Z.of_nat i + 1) in * by lia. rewrite !prefix_step in H1 by lia. lia. }
  assert (Ht : forall n, (n <= 3)%nat -> table m root va n = table m root v n).
  { induction n as [|n IH]; intros Hn; [done|]. cbn [table]. rewrite IH by lia.
    destruct (table m root v n); [|done]. cbn [mbind option_bind]. unfold slot. by rewrite Ho by lia. }
  unfold leaf. rewrite Ht by lia. destruct (table m root v 3); [|done]. cbn. unfold slot.
  do 3 f_equal. exact (Ho 3%nat ltac:(lia)).
Qed.

Lemma pte_same_key m root va v : page_key va = page_key v -> pte m root va = pte m root v.
Proof. intros E. unfold pte. by rewrite (leaf_same_key m root va v E). Qed.

(** ** Writing a PT entry changes the meaning of one page *)
Lemma upd_eq m a v : upd m a v a = v.
Proof. unfold upd. by rewrite Z.eqb_refl. Qed.
Lemma upd_ne m a v x : x <> a -> upd m a v x = m x.
Proof. intros. unfold upd. by rewrite (proj2 (Z.eqb_neq _ _)). Qed.

(** Two memories agree on the entries of all structures of level below 4. *)
Definition same_inner (lv : gmap Z Z) (m m' : Z -> Z) : Prop := forall f l k,
  lv !! f = Some l -> l < 4 -> 0 <= k < 512 -> m' (f + SIZEOF_PT_ENTRY * k) = m (f + SIZEOF_PT_ENTRY * k).

Section Inner.
Context (s : Vmm) (d : PAGING_DATA) (lv : gmap Z Z) (Hwf : wf_tables s d lv).
Abbreviation root := (BasePhysicalAddress d).
Context (m' : Z -> Z) (Hin : same_inner lv (phys s) m').

Lemma wf_same_inner s' : phys s' = m' -> gVirtualToPhysicalOffset s' = gVirtualToPhysicalOffset s -> wf_tables s' d lv.
Proof.
  intros Em Eo. destruct Hwf. split; rewrite ?Eo; try done.
  - intros f l k Hf Hl Hk. rewrite Em, (Hin f l k) by done. eauto.
  - intros f l k g l' j Hf Hl Hk Hg Hl' Hj. rewrite Em, (Hin f l k), (Hin g l' j) by done. eauto.
Qed.

Lemma table_same_inner va n : (n <= 3)%nat -> table m' root va n = table (phys s) root va n.
Proof.
  induction n as [|n IH]; intros Hn; [done|]. cbn [table]. rewrite IH by lia.
  destruct (table (phys s) root va n) as [g|] eqn:E; [|done]. cbn [mbind option_bind]. unfold slot.
  rewrite (Hin g (Z.of_nat n + 1)); [done|by eapply (table_level s d lv Hwf va n), E; lia|lia|].
  apply offset_at_range. lia.
Qed.

Lemma leaf_same_inner va : leaf m' root va = leaf (phys s) root va.
Proof. unfold leaf. by rewrite table_same_inner by lia. Qed.
End Inner.

Section LeafStore.
Context (s : Vmm) (d : PAGING_DATA) (lv : gmap Z Z) (Hwf : wf_tables s d lv).
Abbreviation root := (BasePhysicalAddress d).
Context (va a : Z) (Hleaf : leaf (phys s) root va = Some a).

Lemma leaf_store_inner v : same_inner lv (phys s) (upd (phys s) a v).
Proof.
  destruct (leaf_level s d lv Hwf _ _ Hleaf) as (f&_&Hf&->).
  intros g l k Hg Hl Hk. apply upd_ne. intros E. apply slot_inj in E as [-> _]; [|try done..].
  - rewrite Hf in Hg. injection Hg. lia.
  - by eapply (frame_aligned s d lv Hwf).
  - by eapply (frame_aligned s d lv Hwf).
  - apply offset_at_range. lia.
Qed.

Lemma leaf_store_pte v w :
  pte (upd (phys s) a v) root w =
  if decide (page_key w = page_key va) then (if PteIsPresent v then Some v else None) else pte (phys s) root w.
Proof.
  unfold pte. rewrite (leaf_same_inner s d lv Hwf _ (leaf_store_inner v)). case_decide as E.
  - rewrite (leaf_same_key _ _ w va E), Hleaf. cbn [mbind option_bind]. by rewrite upd_eq.
  - destruct (leaf (phys s) root w) as [b|] eqn:Eb; [|done]. cbn [mbind option_bind].
    rewrite upd_ne; [done|]. intros ->. apply E. by eapply (leaf_inj s d lv Hwf).
Qed.
End LeafStore.

(** ** Hanging an empty structure into the tree changes the meaning of no page *)
Definition next_frame (d : PAGING_DATA) : Z := BasePhysicalAddress d + CurrentIndex d * PAGE_SIZE.
Definition advance (d : PAGING_DATA) : PAGING_DATA :=
  mkPAGING (BasePhysicalAddress d) (NumberOfFrames d) (CurrentIndex d + 1) (KernelSpace d).
Definition structure_flags (d : PAGING_DATA) : PTE_MAP_FLAGS := mkFlags 0 true true true (negb (KernelSpace d)) false.

Lemma zero_range_in m a n x : a <= x < a + n -> zero_range m a n x = 0.
Proof. intros. unfold zero_range. by rewrite (proj2 (Z.leb_le _ _)), (proj2 (Z.ltb_lt _ _)) by lia. Qed.
Lemma zero_range_out m a n x : ~ (a <= x < a + n) -> zero_range m a n x = m x.
Proof. intros. unfold zero_range. destruct (Z.leb_spec a x), (Z.ltb_spec x (a + n)); cbn; try done. lia. Qed.

Section AddTable.
Context (s : Vmm) (d : PAGING_DATA) (lv : gmap Z Z) (Hwf : wf_tables s d lv).
Abbreviation root := (BasePhysicalAddress d).
Abbreviation fresh := (next_frame d).
Context (f l k : Z) (Hf : lv !! f = Some l) (Hl : l < 4) (Hk : 0 <= k < 512).
Context (Habsent : PteIsPresent (phys s (f + SIZEOF_PT_ENTRY * k)) = false).
Context (Hroom : CurrentIndex d < NumberOfFrames d).
Abbreviation e := (PteMap fresh (structure_flags d)).
Abbreviation m' := (zero_range (upd (phys s) (f + SIZEOF_PT_ENTRY * k) e) fresh PAGE_SIZE).

Lemma fresh_None : lv !! fresh = None.
Proof. apply (wt_fresh _ _ _ Hwf). pose proof (wt_index _ _ _ Hwf). lia. Qed.

Lemma fresh_phys_ok : phys_ok fresh.
Proof.
  destruct (wt_frame _ _ _ Hwf _ _ (wt_root _ _ _ Hwf)) as (_&[Hr1 Hr2]&_).
  pose proof (wt_pool_phys _ _ _ Hwf). pose proof (wt_index _ _ _ Hwf). unfold next_frame, PAGE_SIZE in *.
  split; [lia|]. by rewrite Z.mod_add by done.
Qed.

Lemma fresh_bound : fresh + PAGE_SIZE + gVirtualToPhysicalOffset s <= 2 ^ 64.
Proof. pose proof (wt_pool_va _ _ _ Hwf). unfold next_frame, PAGE_SIZE in *. lia. Qed.

Lemma fresh_ne g l' : lv !! g = Some l' -> g <> fresh.
Proof. intros H ->. by rewrite fresh_None in H. Qed.

Lemma new_entry : PteIsPresent e = true /\ PteGetPhysicalAddress e = fresh /\ getf PageSize e = 0.
Proof. destruct (PteMap_fields fresh (structure_flags d) fresh_phys_ok) as (_&?&?&_&_&_&_&_&?&_). done. Qed.

Lemma added_old g l' j : lv !! g = Some l' -> 0 <= j < 512 ->
  m' (g + SIZEOF_PT_ENTRY * j) =
  if decide (g = f /\ j = k) then e else phys s (g + SIZEOF_PT_ENTRY * j).
Proof.
  intros Hg Hj. rewrite zero_range_out.
  - case_decide as E; [destruct E as [-> ->]; apply upd_eq|]. apply upd_ne. intros E'. apply E.
    eapply slot_inj; [by eapply (frame_aligned s d lv Hwf)..|done|done|done].
  - intros H. apply (fresh_ne _ _ Hg). pose proof (slot_in_frame g j Hj).
    eapply frame_apart; [by eapply (frame_aligned s d lv Hwf)|apply fresh_phys_ok|done|done].
Qed.

Lemma added_new j : 0 <= j < 512 -> m' (fresh + SIZEOF_PT_ENTRY * j) = 0.
Proof. intros. apply zero_range_in. by apply slot_in_frame. Qed.

Lemma added_child g l' j : <[fresh := l + 1]> lv !! g = Some l' -> l' < 4 -> 0 <= j < 512 ->
  PteIsPresent (m' (g + SIZEOF_PT_ENTRY * j)) = true ->
  (g = f /\ j = k /\ l' = l /\ m' (g + SIZEOF_PT_ENTRY * j) = e) \/
  (lv !! g = Some l' /\ m' (g + SIZEOF_PT_ENTRY * j) = phys s (g + SIZEOF_PT_ENTRY * j)).
Proof.
  intros [[<- _]|[Hne Hg]]%lookup_insert_Some Hl' Hj; [by rewrite added_new|].
  rewrite (added_old _ _ _ Hg Hj). case_decide as E; [|by right].
  destruct E as [-> ->]. left. rewrite Hf in Hg. by injection Hg.
Qed.

Lemma wf_add_table s' : phys s' = m' -> gVirtualToPhysicalOffset s' = gVirtualToPhysicalOffset s ->
  wf_tables s' (advance d) (<[fresh := l + 1]> lv).
Proof.
  intros Em Eo. pose proof (wt_frame _ _ _ Hwf _ _ Hf) as (?&_&_).
  destruct new_entry as (Hp&Ha&Hs). pose proof (wt_index _ _ _ Hwf).
  split; rewrite ?Eo; cbn [advance BasePhysicalAddress NumberOfFrames CurrentIndex]; try apply Hwf; try lia.
  - rewrite lookup_insert_ne; [apply Hwf|]. apply not_eq_sym. eapply fresh_ne, Hwf.
  - intros g l' [[<- <-]|[_ Hg]]%lookup_insert_Some; [|by apply (wt_frame _ _ _ Hwf)].
    split; [lia|]. split; [apply fresh_phys_ok|apply fresh_bound].
  - rewrite Em. intros g l' j Hg Hl' Hj Hpr.
    destruct (added_child g l' j Hg Hl' Hj Hpr) as [(->&->&->&E)|[Hg' E]]; rewrite E in Hpr |- *.
    + rewrite Ha, lookup_insert_eq. done.
    + destruct (wt_child _ _ _ Hwf g l' j Hg' Hl' Hj Hpr) as [? Hc]. split; [done|].
      rewrite lookup_insert_ne; [done|]. apply not_eq_sym. by eapply fresh_ne.
  - rewrite Em. intros g l1 j h l2 i Hg Hl1 Hj Hh Hl2 Hi Hp1 Hp2.
    destruct (added_child g l1 j Hg Hl1 Hj Hp1) as [(->&->&->&E1)|[Hg' E1]];
      destruct (added_child h l2 i Hh Hl2 Hi Hp2) as [(->&->&->&E2)|[Hh' E2]];
      [done|rewrite E1 in Hp1 |- *; rewrite E2 in Hp2 |- *..].
    + rewrite Ha. intros E. destruct (wt_child _ _ _ Hwf h l2 i Hh' Hl2 Hi Hp2) as [_ Hc].
      rewrite <- E, fresh_None in Hc. done.
    + rewrite Ha. intros E. destruct (wt_child _ _ _ Hwf g l1 j Hg' Hl1 Hj Hp1) as [_ Hc].
      rewrite E, fresh_None in Hc. done.
    + by apply (wt_inj _ _ _ Hwf g l1 j h l2 i).
  - intros i Hi. rewrite lookup_insert_ne; [apply Hwf; lia|]. unfold next_frame, PAGE_SIZE. lia.
Qed.

Lemma added_table va n : (n <= 3)%nat ->
  table m' root va n = table (phys s) root va n \/
  (table (phys s) root va n = None /\ table m' root va n = Some fresh).
Proof.
  destruct new_entry as (Hp&Ha&_). induction n as [|n IH]; intros Hn; [by left|]. cbn [table].
  destruct (IH ltac:(lia)) as [->|[-> ->]]; cbn [mbind option_bind].
  - destruct (table (phys s) root va n) as [g|] eqn:E; [|by left]. cbn [mbind option_bind]. unfold slot.
    pose proof (offset_at_range va (Z.of_nat (S n)) ltac:(lia)).
    rewrite (added_old g (Z.of_nat n + 1)) by (done || by eapply (table_level s d lv Hwf va n), E; lia).
    case_decide as Ek; [|by left]. destruct Ek as [-> Ek]. rewrite Ek, Habsent, Hp, Ha. by right.
  - left. unfold slot. by rewrite added_new by (apply offset_at_range; lia).
Qed.

Lemma added_pte va : pte m' root va = pte (phys s) root va.
Proof.
  unfold pte, leaf. destruct (added_table va 3 ltac:(lia)) as [->|[-> ->]]; cbn [mbind option_bind].
  - destruct (table (phys s) root va 3) as [g|] eqn:E; [|done]. cbn [mbind option_bind]. unfold slot.
    pose proof (offset_at_range va 4 ltac:(lia)).
    pose proof (table_level s d lv Hwf va 3 g ltac:(lia) E) as Hg.
    rewrite (added_old g 4) by done. rewrite decide_False; [done|].
    intros [-> _]. rewrite Hf in Hg. injection Hg. lia.
  - unfold slot. by rewrite added_new by (by apply offset_at_range).
Qed.

(** The tables of the address for which the structure was added. *)
Lemma added_path va : table (phys s) root va (Z.to_nat (l - 1)) = Some f -> k = offset_at va l ->
  (forall n, (n < Z.to_nat l)%nat -> table m' root va n = table (phys s) root va n) /\
  table m' root va (Z.to_nat l) = Some fresh /\
  forall n, (Z.to_nat l < n <= 3)%nat -> table m' root va n = None /\ table (phys s) root va n = None.
Proof.
  intros Et Ek. pose proof (wt_frame _ _ _ Hwf _ _ Hf) as (?&_&_). destruct new_entry as (Hp&Ha&_).
  assert (El : Z.to_nat l = S (Z.to_nat (l - 1))) by lia.
  assert (Hlow : forall n, (n < Z.to_nat l)%nat -> table m' root va n = table (phys s) root va n).
  { intros n Hn. destruct (added_table va n ltac:(lia)) as [|[En _]]; [done|].
    exfalso. assert (H1 : forall i, table (phys s) root va (n + i) = None).
    { induction i as [|i IH]; [by rewrite Nat.add_0_r|]. rewrite Nat.add_succ_r. cbn [table]. by rewrite IH. }
    specialize (H1 (Z.to_nat (l - 1) - n)%nat). replace (n + _)%nat with (Z.to_nat (l - 1)) in H1 by lia.
    congruence. }
  assert (Hmid : table m' root va (Z.to_nat l) = Some fresh /\ table (phys s) root va (Z.to_nat l) = None).
  { rewrite El. cbn [table]. rewrite Hlow by lia. rewrite Et. cbn [mbind option_bind]. unfold slot.
    replace (Z.of_nat (S (Z.to_nat (l - 1)))) with l by lia. rewrite <- Ek, Habsent.
    rewrite (added_old f l k Hf Hk), decide_True by done. by rewrite Hp, Ha. }
  split; [done|]. split; [apply Hmid|]. intros n [Hn1 Hn2].
  assert (H1 : forall i, (Z.to_nat l + S i <= 3)%nat ->
    table m' root va (Z.to_nat l + S i) = None /\ table (phys s) root va (Z.to_nat l + S i) = None).
  { induction i as [|i IH]; intros Hi.
    - rewrite Nat.add_1_r. cbn [table]. destruct Hmid as [-> ->]. cbn [mbind option_bind]. unfold slot.
      by rewrite added_new by (apply offset_at_range; lia).
    - rewrite Nat.add_succ_r. cbn [table]. destruct (IH ltac:(lia)) as [-> ->]. done. }
  specialize (H1 (n - S (Z.to_nat l))%nat). replace (Z.to_nat l + S _)%nat with n in H1 by lia. by apply H1.
Qed.
End AddTable.
