(* ===== verification/PagingOps.v ===== *)
(** The operations of vmm.c and mmu.c on paging structures ([Paging]) against the meaning of the tables: mapping,
    unmapping and translating ranges of pages, setting up the tables of a new address space, termination of the walk, and
    two departures from what the callers expect. *)
From S2P Require Import Prelude IntUtils ClMemory Pte.
From S2P Require Import VmReservation Paging.

(** * Running the callbacks *)
Definition entry_ptr (s : Vmm) (f k : Z) : Z := u64 (PA2VA s f + SIZEOF_PT_ENTRY * k).

Lemma entry_ptr_spec s d lv f l k : wf_tables s d lv -> lv !! f = Some l -> 0 <= k < 512 ->
  (entry_ptr s f k =? NULL) = false /\ VA2PA s (entry_ptr s f k) = f + SIZEOF_PT_ENTRY * k.
Proof.
  intros Hwf Hf Hk. destruct (wt_frame _ _ _ Hwf _ _ Hf) as (_&[[Hr1 Hr2] Hr3]&Hr4).
  pose proof (wt_offset _ _ _ Hwf). unfold entry_ptr, PA2VA, VA2PA, MAXPHYADDR, PAGE_SIZE, SIZEOF_PT_ENTRY in *.
  unwrap. unfold NULL. split; lia.
Qed.

Lemma callback_asserts_run p va l s : (p =? NULL) = false -> va <> 0 -> 1 <= l <= 4 ->
  callback_asserts p va l s = Ok (tt, s).
Proof.
  intros Hp Hva Hl. unfold callback_asserts. rewrite Hp. cbn [negb].
  rewrite (bind_run _ _ _ tt s) by done. rewrite (bind_run _ _ _ tt s).
  - apply ASSERT_run. unfold PAGING_TABLES_FIRST_LEVEL, PAGING_TABLES_LAST_LEVEL. lia.
  - apply ASSERT_run. unfold NULL. lia.
Qed.

(** The state after a structure was hung below the entry at [a]. *)
Definition with_structure (p a : Z) (d : PAGING_DATA) (s : Vmm) : Vmm :=
  mkVmm (zero_range (upd (phys s) a (PteMap (next_frame d) (structure_flags d))) (next_frame d) PAGE_SIZE)
    (<[p := advance d]> (paging s)) (WriteBackIndex s) (UncacheableIndex s) (gVirtualToPhysicalOffset s)
    (PagesToZeroList s) (NewPagesEvent s) (special_room s) (tlb_invalidated s ++ [PA2VA s (next_frame d)]).

Lemma VA2PA_PA2VA s a : is_qword a -> VA2PA s (PA2VA s a) = a.
Proof.
  intros. unfold VA2PA, PA2VA, u64. rewrite Zminus_mod_idemp_l, Z.add_simpl_r. by apply Z.mod_small.
Qed.

Lemma next_address s d lv : wf_tables s d lv -> CurrentIndex d < NumberOfFrames d ->
  u64 (BasePhysicalAddress d + u32 (CurrentIndex d * PAGE_SIZE)) = next_frame d /\
  u32 (CurrentIndex d + 1) = CurrentIndex d + 1 /\ is_qword (next_frame d).
Proof.
  intros Hwf Hr. destruct (fresh_phys_ok s d lv Hwf Hr) as [[H1 H2] _]. pose proof (wt_index _ _ _ Hwf).
  pose proof (wt_pool _ _ _ Hwf). destruct (wt_frame _ _ _ Hwf _ _ (wt_root _ _ _ Hwf)) as (_&[[] _]&_).
  unfold MAXPHYADDR, next_frame, PAGE_SIZE in *. unwrap. rlia.
Qed.

Lemma _VmSetupPagingStructure_run p ptr s d lv a : wf_tables s d lv -> paging s !! p = Some d -> p <> 0 ->
  (ptr =? NULL) = false -> VA2PA s ptr = a -> CurrentIndex d < NumberOfFrames d ->
  _VmSetupPagingStructure p ptr s = Ok (tt, with_structure p a d s).
Proof.
  intros Hwf Hp Hp0 Hptr Ha Hr. destruct (next_address s d lv Hwf Hr) as (E1&E2&Hq).
  unfold _VmSetupPagingStructure. rewrite (bind_run _ _ _ tt s) by (apply ASSERT_run; unfold NULL; lia).
  rewrite (bind_run _ _ _ tt s) by (by rewrite Hptr).
  set (s1 := mkVmm (phys s) (<[p := advance d]> (paging s)) (WriteBackIndex s) (UncacheableIndex s)
    (gVirtualToPhysicalOffset s) (PagesToZeroList s) (NewPagesEvent s) (special_room s) (tlb_invalidated s)).
  rewrite (bind_run _ _ _ (next_frame d) s1).
  2:{ unfold _VmRetrieveNextPhysicalAddressForPagingStructure, get_paging.
      rewrite (bind_run _ _ _ d s) by (by rewrite Hp).
      rewrite (bind_run _ _ _ tt s) by (apply ASSERT_run; lia). rewrite E1, E2. done. }
  rewrite (bind_run _ _ _ (advance d) s1).
  2:{ unfold get_paging. subst s1. cbn [paging]. by rewrite lookup_insert_eq. }
  change (mkFlags _ _ _ _ _ _) with (structure_flags d).
  unfold store, PageInvalidateTlb, memzero, modify, gets, mbind, M_bind, with_structure, set_phys.
  cbn -[PteMap zero_range upd next_frame advance]. change (VA2PA s1 ptr) with (VA2PA s ptr). rewrite Ha.
  match goal with |- context [VA2PA ?t (PA2VA ?u (next_frame d))] =>
    change (VA2PA t (PA2VA u (next_frame d))) with (VA2PA s (PA2VA s (next_frame d))) end.
  by rewrite VA2PA_PA2VA.
Qed.

(** ** How the state evolves while pages are mapped *)
Record evolves (p : Z) (s : Vmm) (d : PAGING_DATA) (lv : gmap Z Z)
    (s' : Vmm) (d' : PAGING_DATA) (lv' : gmap Z Z) : Prop := {
  ev_paging : paging s' = <[p := d']> (paging s);
  ev_data : BasePhysicalAddress d' = BasePhysicalAddress d /\ NumberOfFrames d' = NumberOfFrames d /\
            KernelSpace d' = KernelSpace d;
  ev_wf : wf_tables s' d' lv';
  ev_lv : lv ⊆ lv';
  ev_new f : is_Some (lv' !! f) -> is_Some (lv !! f) \/
    exists i, CurrentIndex d <= i < CurrentIndex d' /\ f = BasePhysicalAddress d + i * PAGE_SIZE;
  ev_rest : WriteBackIndex s' = WriteBackIndex s /\ UncacheableIndex s' = UncacheableIndex s /\
    gVirtualToPhysicalOffset s' = gVirtualToPhysicalOffset s /\ PagesToZeroList s' = PagesToZeroList s /\
    NewPagesEvent s' = NewPagesEvent s /\ special_room s' = special_room s;
  ev_index : CurrentIndex d <= CurrentIndex d';
  ev_tlb : exists t, tlb_invalidated s' = tlb_invalidated s ++ t;
  ev_frame a : (forall f, is_Some (lv' !! f) -> ~ (f <= a < f + PAGE_SIZE)) -> phys s' a = phys s a }.

Lemma evolves_refl p s d lv : wf_tables s d lv -> paging s !! p = Some d -> evolves p s d lv s d lv.
Proof.
  intros Hwf Hp. split; try done; [by rewrite insert_id|auto|]. exists []. by rewrite app_nil_r.
Qed.

Lemma evolves_trans p s1 d1 lv1 s2 d2 lv2 s3 d3 lv3 :
  evolves p s1 d1 lv1 s2 d2 lv2 -> evolves p s2 d2 lv2 s3 d3 lv3 -> evolves p s1 d1 lv1 s3 d3 lv3.
Proof.
  intros [] []. destruct_and?. split; try done.
  - rewrite ev_paging1, ev_paging0. apply insert_insert_eq.
  - split_and!; congruence.
  - by transitivity lv2.
  - intros f [Hold|(i&?&->)]%ev_new1.
    + apply ev_new0 in Hold as [|(i&?&->)]; [by left|]. right. exists i. split; [lia|done].
    + right. exists i. split; [lia|congruence].
  - split_and!; congruence.
  - lia.
  - destruct ev_tlb0 as [t Et], ev_tlb1 as [t' Et']. exists (t ++ t'). by rewrite Et', Et, app_assoc.
  - intros a Ha. rewrite ev_frame1 by done. apply ev_frame0. intros f Hf. apply Ha.
    destruct Hf as [l Hf]. exists l. by eapply lookup_weaken.
Qed.

Lemma evolves_get p s d lv s' d' lv' : evolves p s d lv s' d' lv' -> paging s' !! p = Some d'.
Proof. intros H. rewrite (ev_paging _ _ _ _ _ _ _ H). apply lookup_insert_eq. Qed.

(** Levels at which [va] has no structure yet. *)
Definition absent (m : Z -> Z) (root va : Z) (n : nat) : Z := if table m root va n is None then 1 else 0.
Definition missing (m : Z -> Z) (root va : Z) : Z := absent m root va 1 + absent m root va 2 + absent m root va 3.

Lemma absent_range m root va n : 0 <= absent m root va n <= 1.
Proof. unfold absent. destruct (table m root va n); lia. Qed.

(** An empty structure for level [l + 1] of [va]. *)
Lemma with_structure_evolves p s d lv f l va : wf_tables s d lv -> paging s !! p = Some d ->
  table (phys s) (BasePhysicalAddress d) va (Z.to_nat (l - 1)) = Some f -> 1 <= l <= 3 ->
  PteIsPresent (phys s (slot f va l)) = false -> CurrentIndex d < NumberOfFrames d ->
  let s' := with_structure p (slot f va l) d s in
  evolves p s d lv s' (advance d) (<[next_frame d := l + 1]> lv) /\
  (forall v, pte (phys s') (BasePhysicalAddress d) v = pte (phys s) (BasePhysicalAddress d) v) /\
  table (phys s') (BasePhysicalAddress d) va (Z.to_nat l) = Some (next_frame d) /\
  missing (phys s') (BasePhysicalAddress d) va + 1 = missing (phys s) (BasePhysicalAddress d) va.
Proof.
  intros Hwf Hp Ht Hl Hab Hr s'.
  pose proof (table_level s d lv Hwf va (Z.to_nat (l - 1)) f ltac:(lia) Ht) as Hf.
  replace (Z.of_nat (Z.to_nat (l - 1)) + 1) with l in Hf by lia.
  pose proof (offset_at_range va l ltac:(lia)) as Hk. unfold slot in Hab.
  destruct (added_path s d lv Hwf f l _ Hf ltac:(lia) Hk Hab Hr va Ht eq_refl) as (Hlow&Hmid&Hhigh).
  assert (Habs : table (phys s) (BasePhysicalAddress d) va (Z.to_nat l) = None).
  { replace (Z.to_nat l) with (S (Z.to_nat (l - 1))) by lia. cbn [table]. rewrite Ht. cbn [mbind option_bind].
    replace (Z.of_nat (S (Z.to_nat (l - 1)))) with l by lia. unfold slot. by rewrite Hab. }
  split; [|split; [|split; [done|]]].
  - split; try done; cbn [advance CurrentIndex BasePhysicalAddress]; try lia.
    + by apply (wf_add_table s d lv Hwf f l (offset_at va l) Hf ltac:(lia) Hk Hr).
    + apply insert_subseteq. by eapply fresh_None.
    + intros g [l' [[<- _]|[_ Hg]]%lookup_insert_Some]; [|left; eauto]. right. exists (CurrentIndex d). split; [lia|done].
    + by eexists.
    + intros a Ha. subst s'. cbn [with_structure phys]. rewrite zero_range_out.
      * apply upd_ne. intros ->. apply (Ha f); [|by apply slot_in_frame].
        exists l. rewrite lookup_insert_ne; [done|]. apply not_eq_sym. by eapply fresh_ne.
      * apply Ha. rewrite lookup_insert_eq. eauto.
  - intros v. apply (added_pte s d lv Hwf f l); done || lia.
  - unfold missing, absent.
    change (phys s') with (zero_range (upd (phys s) (f + SIZEOF_PT_ENTRY * offset_at va l)
      (PteMap (next_frame d) (structure_flags d))) (next_frame d) PAGE_SIZE).
    assert (l = 1 \/ l = 2 \/ l = 3) as [-> |[-> | ->]] by lia;
      change (Z.to_nat 1) with 1%nat in *; change (Z.to_nat 2) with 2%nat in *; change (Z.to_nat 3) with 3%nat in *;
      rewrite Hmid, Habs.
    + destruct (Hhigh 2%nat ltac:(lia)) as [-> ->], (Hhigh 3%nat ltac:(lia)) as [-> ->]. done.
    + destruct (Hhigh 3%nat ltac:(lia)) as [-> ->]. rewrite (Hlow 1%nat ltac:(lia)). lia.
    + rewrite (Hlow 1%nat ltac:(lia)), (Hlow 2%nat ltac:(lia)). lia.
Qed.

(** ** One page *)
Definition leaf_store (a v va : Z) (s : Vmm) : Vmm :=
  mkVmm (upd (phys s) a v) (paging s) (WriteBackIndex s) (UncacheableIndex s) (gVirtualToPhysicalOffset s)
    (PagesToZeroList s) (NewPagesEvent s) (special_room s) (tlb_invalidated s ++ [va]).

(** Steps of the walk of one address, for any callback. *)
Section Steps.
Context {T : Type} (vmm : T -> Vmm) (cb : Z -> Z -> Z -> M T bool) (va f l : Z).

Lemma walk_descend s t a rest : l < 4 ->
  cb (entry_ptr (vmm s) f (offset_at va l)) va l s = Ok (true, t) ->
  VA2PA (vmm t) (entry_ptr (vmm s) f (offset_at va l)) = a ->
  getf PageSize (phys (vmm t) a) = 0 ->
  walk_levels vmm cb va f (l :: rest) s = walk_levels vmm cb va (PteGetPhysicalAddress (phys (vmm t) a)) rest t.
Proof.
  intros Hl E1 E2 E3. cbn [walk_levels].
  rewrite (bind_run _ _ _ (entry_ptr (vmm s) f (offset_at va l)) s) by done.
  rewrite (bind_run _ _ _ true t) by done. cbn [negb].
  rewrite (bind_run _ _ _ (phys (vmm t) a) t) by (unfold gets, load; by rewrite E2).
  replace (l =? PAGING_TABLES_LAST_LEVEL) with false by (unfold PAGING_TABLES_LAST_LEVEL; lia). cbn [negb].
  by rewrite (bind_run _ _ _ tt t) by (apply ASSERT_run; lia).
Qed.

Lemma walk_stop s t rest :
  cb (entry_ptr (vmm s) f (offset_at va l)) va l s = Ok (false, t) ->
  walk_levels vmm cb va f (l :: rest) s = Ok (tt, t).
Proof.
  intros E. cbn [walk_levels]. rewrite (bind_run _ _ _ (entry_ptr (vmm s) f (offset_at va l)) s) by done.
  by rewrite (bind_run _ _ _ false t) by done.
Qed.

Lemma walk_last s b t : l = 4 ->
  cb (entry_ptr (vmm s) f (offset_at va l)) va l s = Ok (b, t) ->
  walk_levels vmm cb va f [l] s = Ok (tt, t).
Proof.
  intros -> E. cbn [walk_levels]. rewrite (bind_run _ _ _ (entry_ptr (vmm s) f (offset_at va 4)) s) by done.
  rewrite (bind_run _ _ _ b t) by done. by destruct b.
Qed.
End Steps.

Lemma table_at m root va f l : 1 <= l -> table m root va (Z.to_nat (l - 1)) = Some f ->
  table m root va (Z.to_nat l) =
  if PteIsPresent (m (slot f va l)) then Some (PteGetPhysicalAddress (m (slot f va l))) else None.
Proof.
  intros Hl E. replace (Z.to_nat l) with (S (Z.to_nat (l - 1))) by lia. cbn [table]. rewrite E.
  cbn [mbind option_bind]. by replace (Z.of_nat (S (Z.to_nat (l - 1)))) with l by lia.
Qed.

Lemma missing_pos m root va l : 1 <= l <= 3 -> table m root va (Z.to_nat l) = None -> 1 <= missing m root va.
Proof.
  intros Hl E. unfold missing. pose proof (absent_range m root va) as Hr.
  pose proof (Hr 1%nat). pose proof (Hr 2%nat). pose proof (Hr 3%nat).
  assert (1 <= absent m root va (Z.to_nat l)) by (unfold absent; by rewrite E).
  assert (l = 1 \/ l = 2 \/ l = 3) as [-> |[-> | ->]] by lia;
    [change (Z.to_nat 1) with 1%nat in *|change (Z.to_nat 2) with 2%nat in *|change (Z.to_nat 3) with 3%nat in *]; lia.
Qed.

Lemma missing_0 m root va f : table m root va 3 = Some f -> missing m root va = 0.
Proof.
  unfold missing, absent. intros E. rewrite E. cbn [table] in E |- *. cbn [mbind option_bind] in E |- *.
  destruct (if PteIsPresent (m (slot root va (Z.of_nat 1))) then _ else _); [|done].
  cbn [mbind option_bind] in E |- *. by destruct (if PteIsPresent _ then _ else _).
Qed.

Section MapPage.
Context (p : Z) (ctx : VMM_MAP_UNMAP_PAGE_WALK_CONTEXT) (Hctx : ctx_PagingData ctx = p) (Hp0 : p <> 0).
Context (va : Z) (Hva : va <> 0).

(** The callback above the last level: an entry that is present is left alone. *)
Lemma _VmMapPage_inner s d lv f l : wf_tables s d lv -> paging s !! p = Some d -> 1 <= l <= 3 ->
  lv !! f = Some l ->
  (PteIsPresent (phys s (slot f va l)) = false -> CurrentIndex d < NumberOfFrames d) ->
  _VmMapPage ctx (entry_ptr s f (offset_at va l)) va l s =
  Ok (true, if PteIsPresent (phys s (slot f va l)) then s else with_structure p (slot f va l) d s).
Proof.
  intros Hwf Hp Hl Hf Hroom. pose proof (offset_at_range va l ltac:(lia)) as Hk.
  destruct (entry_ptr_spec s d lv f l _ Hwf Hf Hk) as [Hnull Haddr].
  unfold _VmMapPage. rewrite (bind_run _ _ _ tt s) by (apply callback_asserts_run; done || lia).
  rewrite (bind_run _ _ _ (phys s (slot f va l)) s) by (unfold gets, load; by rewrite Haddr).
  replace (l =? PAGING_TABLES_LAST_LEVEL) with false by (unfold PAGING_TABLES_LAST_LEVEL; lia).
  cbn [andb negb]. rewrite andb_true_r. destruct (PteIsPresent (phys s (slot f va l))); [done|].
  rewrite Hctx. by rewrite (bind_run _ _ _ tt (with_structure p (slot f va l) d s))
    by (apply (_VmSetupPagingStructure_run p _ s d lv); auto).
Qed.

(** A level above the last: the structure is there afterwards, and no page has changed its meaning. *)
Lemma map_level s d lv f l : wf_tables s d lv -> paging s !! p = Some d -> 1 <= l <= 3 ->
  table (phys s) (BasePhysicalAddress d) va (Z.to_nat (l - 1)) = Some f ->
  CurrentIndex d + missing (phys s) (BasePhysicalAddress d) va <= NumberOfFrames d ->
  exists s' d' lv' f',
    (forall rest, walk_levels id (_VmMapPage ctx) va f (l :: rest) s = walk_levels id (_VmMapPage ctx) va f' rest s') /\
    evolves p s d lv s' d' lv' /\
    (forall v, pte (phys s') (BasePhysicalAddress d) v = pte (phys s) (BasePhysicalAddress d) v) /\
    table (phys s') (BasePhysicalAddress d) va (Z.to_nat l) = Some f' /\
    CurrentIndex d' + missing (phys s') (BasePhysicalAddress d) va =
      CurrentIndex d + missing (phys s) (BasePhysicalAddress d) va.
Proof.
  intros Hwf Hp Hl Ht Hroom.
  pose proof (table_level s d lv Hwf va (Z.to_nat (l - 1)) f ltac:(lia) Ht) as Hf.
  replace (Z.of_nat (Z.to_nat (l - 1)) + 1) with l in Hf by lia.
  pose proof (offset_at_range va l ltac:(lia)) as Hk.
  destruct (entry_ptr_spec s d lv f l _ Hwf Hf Hk) as [_ Haddr].
  pose proof (table_at _ _ _ _ l ltac:(lia) Ht) as Hta.
  assert (Hcur : PteIsPresent (phys s (slot f va l)) = false -> CurrentIndex d < NumberOfFrames d).
  { intros E. rewrite E in Hta. pose proof (missing_pos _ _ _ l Hl Hta). lia. }
  pose proof (_VmMapPage_inner s d lv f l Hwf Hp Hl Hf Hcur) as Hcb.
  destruct (PteIsPresent (phys s (slot f va l))) eqn:Epr.
  - exists s, d, lv, (PteGetPhysicalAddress (phys s (slot f va l))).
    destruct (wt_child _ _ _ Hwf f l _ Hf ltac:(lia) Hk Epr) as [Hps _].
    split; [intros; apply (walk_descend id); done || lia|]. split; [by apply evolves_refl|done].
  - specialize (Hcur eq_refl).
    destruct (with_structure_evolves p s d lv f l va Hwf Hp Ht Hl Epr Hcur) as (Hev&Hpte&Htb&Hmis).
    set (t := with_structure p (slot f va l) d s) in *.
    destruct (new_entry s d lv Hwf Hcur) as (Hp1&Hp2&Hp3).
    assert (Hent : phys t (slot f va l) = PteMap (next_frame d) (structure_flags d)).
    { subst t. cbn [with_structure phys]. unfold slot.
      by rewrite (added_old s d lv Hwf f l (offset_at va l) Hf Hk Hcur f l _ Hf Hk), decide_True by done. }
    exists t, (advance d), (<[next_frame d := l + 1]> lv), (next_frame d).
    split; [|split; [done|split; [done|split; [done|cbn [advance CurrentIndex]; lia]]]].
    intros rest. rewrite <- Hp2, <- Hent. apply (walk_descend id); [lia|done|done|].
    unfold id. by rewrite Hent.
Qed.

(** The entry that _VmMapPage writes for [va]. *)
Definition new_pte (s : Vmm) (d : PAGING_DATA) : Z :=
  PteMap (PtrOffset (ctx_PhysicalAddressBase ctx) (PtrDiff va (ctx_VirtualAddressBase ctx)))
    (leaf_flags s d (ctx_PageRights ctx) (ctx_Uncacheable ctx)).

Lemma new_pte_evolves s d lv s' d' lv' : evolves p s d lv s' d' lv' -> new_pte s' d' = new_pte s d.
Proof.
  intros E. destruct (ev_rest _ _ _ _ _ _ _ E) as (Hw&Hu&_), (ev_data _ _ _ _ _ _ _ E) as (_&_&Hk).
  unfold new_pte, leaf_flags. by rewrite Hw, Hu, Hk.
Qed.

Definition kept (s : Vmm) (root : Z) : bool :=
  match pte (phys s) root va with Some _ => negb (ctx_Invalidate ctx) | None => false end.

Lemma map_leaf s d lv f : wf_tables s d lv -> paging s !! p = Some d ->
  table (phys s) (BasePhysicalAddress d) va 3 = Some f ->
  walk_levels id (_VmMapPage ctx) va f [4] s =
  Ok (tt, if kept s (BasePhysicalAddress d) then s else leaf_store (slot f va 4) (new_pte s d) va s).
Proof.
  intros Hwf Hp Ht. pose proof (table_level s d lv Hwf va 3 f ltac:(lia) Ht) as Hf. cbn in Hf.
  pose proof (offset_at_range va 4 ltac:(lia)) as Hk.
  destruct (entry_ptr_spec s d lv f 4 _ Hwf Hf Hk) as [Hnull Haddr].
  apply (walk_last id _ _ _ _ _ true); [done|]. unfold id, _VmMapPage. fold (slot f va 4) in Haddr.
  remember (entry_ptr s f (offset_at va 4)) as ptr eqn:Eptr. clear Eptr.
  rewrite (bind_run _ _ _ tt s) by (apply callback_asserts_run; done || lia).
  rewrite (bind_run _ _ _ (phys s (slot f va 4)) s) by (unfold gets, load; by rewrite Haddr).
  assert (Hkept : kept s (BasePhysicalAddress d) = PteIsPresent (phys s (slot f va 4)) && negb (ctx_Invalidate ctx)).
  { unfold kept, pte, leaf. rewrite Ht. cbn [mbind option_bind]. unfold PAGING_TABLES_LAST_LEVEL.
    by destruct (PteIsPresent (phys s (slot f va 4))). }
  rewrite Hkept. change (4 =? PAGING_TABLES_LAST_LEVEL) with true. cbn [andb].
  destruct (_ && _); [done|]. unfold get_paging. rewrite Hctx. unfold new_pte.
  set (v := PteMap _). rewrite (bind_run _ _ _ tt (leaf_store (slot f va 4) (v (leaf_flags s d (ctx_PageRights ctx) (ctx_Uncacheable ctx))) va s)); [done|].
  rewrite (bind_run _ _ _ d s) by (by rewrite Hp).
  rewrite (bind_run _ _ _ (leaf_flags s d (ctx_PageRights ctx) (ctx_Uncacheable ctx)) s) by done.
  clearbody v. unfold store, modify, mbind, M_bind. rewrite Haddr. reflexivity.
Qed.

Lemma leaf_store_evolves s d lv f v : wf_tables s d lv -> paging s !! p = Some d ->
  table (phys s) (BasePhysicalAddress d) va 3 = Some f ->
  evolves p s d lv (leaf_store (slot f va 4) v va s) d lv.
Proof.
  intros Hwf Hp Ht. pose proof (table_level s d lv Hwf va 3 f ltac:(lia) Ht) as Hf. cbn in Hf.
  assert (Hleaf : leaf (phys s) (BasePhysicalAddress d) va = Some (slot f va 4)) by (unfold leaf; by rewrite Ht).
  split; try done; try auto.
  - cbn. by rewrite insert_id.
  - eapply (wf_same_inner s d lv Hwf); [|done..]. by eapply leaf_store_inner.
  - by eexists.
  - intros a Ha. cbn. apply upd_ne. intros ->. apply (Ha f); [by eexists|].
    apply slot_in_frame, offset_at_range. lia.
Qed.

(** What mapping the page of [va] does. *)
Definition page_mapped (s : Vmm) (d : PAGING_DATA) (lv : gmap Z Z) (s' : Vmm) (d' : PAGING_DATA) (lv' : gmap Z Z) : Prop :=
  evolves p s d lv s' d' lv' /\
  (forall v, pte (phys s') (BasePhysicalAddress d) v =
     if decide (page_key v = page_key va) then
       (if kept s (BasePhysicalAddress d) then pte (phys s) (BasePhysicalAddress d) va else Some (new_pte s d))
     else pte (phys s) (BasePhysicalAddress d) v) /\
  (kept s (BasePhysicalAddress d) = false -> va ∈ tlb_invalidated s') /\
  CurrentIndex d' = CurrentIndex d + missing (phys s) (BasePhysicalAddress d) va /\
  missing (phys s') (BasePhysicalAddress d) va = 0.

Context (Hphys : phys_ok (PtrOffset (ctx_PhysicalAddressBase ctx) (PtrDiff va (ctx_VirtualAddressBase ctx)))).

Lemma leaf_page_mapped s d lv f : wf_tables s d lv -> paging s !! p = Some d ->
  table (phys s) (BasePhysicalAddress d) va 3 = Some f -> missing (phys s) (BasePhysicalAddress d) va = 0 ->
  page_mapped s d lv (if kept s (BasePhysicalAddress d) then s else leaf_store (slot f va 4) (new_pte s d) va s) d lv.
Proof.
  intros Hwf Hp Ht Hmis.
  assert (Hleaf : leaf (phys s) (BasePhysicalAddress d) va = Some (slot f va 4)) by (unfold leaf; by rewrite Ht).
  destruct (kept s (BasePhysicalAddress d)) eqn:Ek; (split; [|split; [|split; [|split; [lia|]]]]).
  - by apply evolves_refl.
  - intros v. rewrite Ek. case_decide as E; [|done]. by apply pte_same_key.
  - by rewrite Ek.
  - done.
  - by apply leaf_store_evolves.
  - intros v. cbn [leaf_store phys]. rewrite (leaf_store_pte s d lv Hwf va _ Hleaf). case_decide; [|done].
    rewrite Ek. destruct (PteMap_fields _ (leaf_flags s d (ctx_PageRights ctx) (ctx_Uncacheable ctx)) Hphys) as (_&Hpr&_).
    unfold new_pte. by rewrite Hpr.
  - intros _. cbn. set_solver.
  - rewrite <- Hmis. unfold missing, absent. cbn [leaf_store phys].
    by rewrite !(table_same_inner s d lv Hwf _ (leaf_store_inner s d lv Hwf va _ Hleaf _)) by lia.
Qed.

Lemma map_page s d lv : wf_tables s d lv -> paging s !! p = Some d ->
  CurrentIndex d + missing (phys s) (BasePhysicalAddress d) va <= NumberOfFrames d ->
  exists s' d' lv', walk_levels id (_VmMapPage ctx) va (BasePhysicalAddress d) level_list s = Ok (tt, s') /\
    page_mapped s d lv s' d' lv'.
Proof.
  intros Hwf Hp Hroom.
  destruct (map_level s d lv (BasePhysicalAddress d) 1 Hwf Hp ltac:(lia) eq_refl Hroom) as (s1&d1&lv1&f1&W1&E1&P1&T1&M1).
  destruct (ev_data _ _ _ _ _ _ _ E1) as (B1&N1&K1). pose proof (evolves_get _ _ _ _ _ _ _ E1) as G1.
  destruct (map_level s1 d1 lv1 f1 2 (ev_wf _ _ _ _ _ _ _ E1) G1 ltac:(lia)) as (s2&d2&lv2&f2&W2&E2&P2&T2&M2).
  { by rewrite B1. } { rewrite B1, N1. lia. }
  rewrite B1 in P2, T2, M2.
  destruct (ev_data _ _ _ _ _ _ _ E2) as (B2&N2&K2). pose proof (evolves_get _ _ _ _ _ _ _ E2) as G2.
  destruct (map_level s2 d2 lv2 f2 3 (ev_wf _ _ _ _ _ _ _ E2) G2 ltac:(lia)) as (s3&d3&lv3&f3&W3&E3&P3&T3&M3).
  { by rewrite B2, B1. } { rewrite B2, B1, N2, N1. lia. }
  rewrite B2, B1 in P3, T3, M3.
  destruct (ev_data _ _ _ _ _ _ _ E3) as (B3&N3&K3). pose proof (evolves_get _ _ _ _ _ _ _ E3) as G3.
  assert (B : BasePhysicalAddress d3 = BasePhysicalAddress d) by congruence.
  assert (Hmis : missing (phys s3) (BasePhysicalAddress d) va = 0).
  { by eapply missing_0, T3. }
  destruct (leaf_page_mapped s3 d3 lv3 f3) as (E4&P4&L4&M4&M5); [apply E3|done|by rewrite B|by rewrite B|].
  pose proof (map_leaf s3 d3 lv3 f3 (ev_wf _ _ _ _ _ _ _ E3) G3) as W4. rewrite B in *.
  specialize (W4 T3). set (s4 := if kept s3 (BasePhysicalAddress d) then _ else _) in *.
  assert (Hkept : kept s3 (BasePhysicalAddress d) = kept s (BasePhysicalAddress d)).
  { unfold kept. by rewrite P3, P2, P1. }
  assert (Hnew : new_pte s3 d3 = new_pte s d).
  { apply new_pte_evolves with (lv := lv) (lv' := lv3). eapply evolves_trans, E3. by eapply evolves_trans. }
  exists s4, d3, lv3. split; [unfold level_list; by rewrite W1, W2, W3|].
  split; [|split; [|split; [|split]]].
  - eapply evolves_trans, E4. eapply evolves_trans, E3. by eapply evolves_trans.
  - intros v. rewrite P4, Hkept, Hnew, !P3, !P2, !P1. done.
  - by rewrite <- Hkept.
  - lia.
  - done.
Qed.
End MapPage.

(** ** Ranges of pages *)
Lemma cr3_root r : phys_ok r -> u64 (Z.shiftl (getf Pcide_PhysicalAddress r) SHIFT_FOR_PHYSICAL_ADDR) = r.
Proof.
  intros [[H1 H2] H3]. change (PteGetPhysicalAddress r = r). rewrite PteGetPhysicalAddress_eq.
  unfold getf. cbn [PhysicalAddress fbase fwidth]. rewrite Z.land_ones by done. rewrite Z.shiftr_div_pow2 by done.
  change (2 ^ 12) with PAGE_SIZE. pose proof (Z.div_mod r PAGE_SIZE ltac:(done)).
  unfold MAXPHYADDR, PAGE_SIZE in *. change (52 - 12) with 40. rewrite Z.mod_small; lia.
Qed.

(** Structures that a range needs beyond those of its first page: one per boundary of 512 GB, 1 GB and 2 MB. *)
Definition crossings (va b : Z) : Z :=
  (b / 2 ^ 39 - va / 2 ^ 39) + (b / 2 ^ 30 - va / 2 ^ 30) + (b / 2 ^ 21 - va / 2 ^ 21).

Lemma crossings_trans a b c : crossings a c = crossings a b + crossings b c.
Proof. unfold crossings. lia. Qed.

Lemma crossings_nonneg a b : a <= b -> 0 <= crossings a b.
Proof.
  intros H. unfold crossings. pose proof (Z.div_le_mono a b (2 ^ 39) ltac:(lia) H).
  pose proof (Z.div_le_mono a b (2 ^ 30) ltac:(lia) H). pose proof (Z.div_le_mono a b (2 ^ 21) ltac:(lia) H). lia.
Qed.

Lemma missing_next m root va b : va <= b -> missing m root va = 0 -> missing m root b <= crossings va b.
Proof.
  intros Hle H0. unfold missing in *. pose proof (absent_range m root va) as Hr.
  assert (Hone : forall n, (1 <= n <= 3)%nat -> absent m root va n = 0 ->
    absent m root b n <= b / 2 ^ (48 - 9 * Z.of_nat n) - va / 2 ^ (48 - 9 * Z.of_nat n)).
  { intros n Hn E. pose proof (Z.div_le_mono va b (2 ^ (48 - 9 * Z.of_nat n)) ltac:(lia) Hle).
    pose proof (absent_range m root b n).
    destruct (decide (va / 2 ^ (48 - 9 * Z.of_nat n) = b / 2 ^ (48 - 9 * Z.of_nat n))) as [Eq|]; [|lia].
    unfold absent in *. rewrite (table_prefix m root va b n) in E by (lia || done). lia. }
  pose proof (Hr 1%nat). pose proof (Hr 2%nat). pose proof (Hr 3%nat).
  pose proof (Hone 1%nat ltac:(lia) ltac:(lia)). pose proof (Hone 2%nat ltac:(lia) ltac:(lia)).
  pose proof (Hone 3%nat ltac:(lia) ltac:(lia)). unfold crossings. 
  change (48 - 9 * Z.of_nat 1) with 39 in *. change (48 - 9 * Z.of_nat 2) with 30 in *.
  change (48 - 9 * Z.of_nat 3) with 21 in *. lia.
Qed.

(** A page-aligned range of [n] pages that does not wrap and is no longer than the 48-bit address space. *)
Record range_ok (va n : Z) : Prop := {
  ro_pos : 0 < va; ro_aligned : va mod PAGE_SIZE = 0;
  ro_count : 0 < n <= 2 ^ 36; ro_end : va + n * PAGE_SIZE <= 2 ^ 64 }.

Lemma range_offset va n j : range_ok va n -> 0 <= j < n ->
  PtrOffset va (j * PAGE_SIZE) = va + j * PAGE_SIZE /\ PtrDiff (va + j * PAGE_SIZE) va = j * PAGE_SIZE /\
  va + j * PAGE_SIZE <> 0.
Proof.
  intros [] Hj. unfold PtrOffset, PtrDiff, PAGE_SIZE in *. rewrite (u64_small (j * 0x1000)) by rlia.
  unwrap. lia.
Qed.

Lemma page_index_self va j : 0 <= j < 2 ^ 36 -> page_index_from va (va + j * PAGE_SIZE) = j.
Proof. intros. by apply page_index_from_key. Qed.

Lemma page_index_range va v : 0 <= page_index_from va v < 2 ^ 36.
Proof. by apply Z.mod_pos_bound. Qed.

Lemma size_loop n j : 0 <= j < n -> n <= 2 ^ 36 ->
  (j * PAGE_SIZE <? n * PAGE_SIZE) = true /\ u64 (j * PAGE_SIZE + PAGE_SIZE) = (j + 1) * PAGE_SIZE.
Proof. intros. unfold PAGE_SIZE. split; [lia|]. rewrite u64_small by rlia. lia. Qed.

(** One iteration of the loop over the pages. *)
Lemma walk_pages_step {T} (vmm : T -> Vmm) cb va n j fuel root s s' : range_ok va n -> 0 <= j < n -> phys_ok root ->
  walk_levels vmm cb (va + j * PAGE_SIZE) root level_list s = Ok (tt, s') ->
  walk_pages vmm cb (S fuel) root va (j * PAGE_SIZE) (n * PAGE_SIZE) s =
  walk_pages vmm cb fuel root va ((j + 1) * PAGE_SIZE) (n * PAGE_SIZE) s'.
Proof.
  intros Hr Hj Hroot E. destruct (range_offset va n j Hr Hj) as (Eo&_&_).
  destruct (size_loop n j Hj) as [El Eu]; [apply Hr|]. cbn [walk_pages]. rewrite El, cr3_root, Eo, Eu by done.
  by rewrite (bind_run _ _ _ tt s').
Qed.

Lemma walk_pages_done {T} (vmm : T -> Vmm) cb va n fuel root s :
  walk_pages vmm cb fuel root va (n * PAGE_SIZE) (n * PAGE_SIZE) s = Ok (tt, s).
Proof. destruct fuel; cbn [walk_pages]; by rewrite Z.ltb_irrefl. Qed.

Section MapRange.
Context (p pa va n Rights : Z) (Invalidate Unc : bool) (Hp0 : p <> 0) (Hrange : range_ok va n).
Context (Hpa : 0 <= pa) (Hpa_al : pa mod PAGE_SIZE = 0) (Hpa_end : pa + n * PAGE_SIZE <= 2 ^ MAXPHYADDR).
Abbreviation ctx := (mkMapCtx p pa va Rights Invalidate Unc false).

(** The entry of page [i] of the range. *)
Definition range_pte (s : Vmm) (d : PAGING_DATA) (i : Z) : Z :=
  PteMap (pa + i * PAGE_SIZE) (leaf_flags s d Rights Unc).

(** The meaning of every page once the first [j] pages of the range are mapped. *)
Definition map_meaning (s : Vmm) (d : PAGING_DATA) (j v : Z) : option Z :=
  let i := page_index_from va v in
  let old := pte (phys s) (BasePhysicalAddress d) v in
  if i <? j then (if Invalidate then Some (range_pte s d i)
                  else match old with Some e => Some e | None => Some (range_pte s d i) end)
  else old.

Definition written (s : Vmm) (d : PAGING_DATA) (i : Z) : bool :=
  Invalidate || match pte (phys s) (BasePhysicalAddress d) (va + i * PAGE_SIZE) with Some _ => false | None => true end.

Record map_progress (s : Vmm) (d : PAGING_DATA) (lv : gmap Z Z) (j : Z)
    (s' : Vmm) (d' : PAGING_DATA) (lv' : gmap Z Z) : Prop := {
  mp_evolves : evolves p s d lv s' d' lv';
  mp_pte v : pte (phys s') (BasePhysicalAddress d) v = map_meaning s d j v;
  mp_tlb i : 0 <= i < j -> written s d i = true -> va + i * PAGE_SIZE ∈ tlb_invalidated s';
  mp_budget : j < n -> CurrentIndex d' + missing (phys s') (BasePhysicalAddress d) (va + j * PAGE_SIZE) +
                crossings (va + j * PAGE_SIZE) (va + (n - 1) * PAGE_SIZE) <=
              CurrentIndex d + missing (phys s) (BasePhysicalAddress d) va + crossings va (va + (n - 1) * PAGE_SIZE);
  mp_used : CurrentIndex d' <= CurrentIndex d + missing (phys s) (BasePhysicalAddress d) va +
              crossings va (va + (n - 1) * PAGE_SIZE) }.

Lemma map_phys_ok j : 0 <= j < n -> phys_ok (pa + j * PAGE_SIZE) /\ PtrOffset pa (j * PAGE_SIZE) = pa + j * PAGE_SIZE.
Proof.
  intros Hj. pose proof (ro_count _ _ Hrange). unfold phys_ok, PtrOffset, MAXPHYADDR, PAGE_SIZE in *.
  rewrite (u64_small (j * 0x1000)) by rlia. unwrap. split; [|done]. split; [lia|]. by rewrite Z.mod_add.
Qed.

Lemma map_progress_start s d lv : wf_tables s d lv -> paging s !! p = Some d -> map_progress s d lv 0 s d lv.
Proof.
  intros Hwf Hp. split.
  - by apply evolves_refl.
  - intros v. unfold map_meaning. pose proof (page_index_range va v). by rewrite (proj2 (Z.ltb_ge _ _)) by lia.
  - lia.
  - rewrite Z.mul_0_l, Z.add_0_r. lia.
  - pose proof (crossings_nonneg va (va + (n - 1) * PAGE_SIZE)). pose proof (ro_count _ _ Hrange).
    pose proof (absent_range (phys s) (BasePhysicalAddress d) va) as Ha. unfold missing, PAGE_SIZE in *.
    pose proof (Ha 1%nat). pose proof (Ha 2%nat). pose proof (Ha 3%nat). lia.
Qed.

Lemma map_progress_step s d lv j s1 d1 lv1 s2 d2 lv2 : 0 <= j < n -> map_progress s d lv j s1 d1 lv1 ->
  page_mapped p ctx (va + j * PAGE_SIZE) s1 d1 lv1 s2 d2 lv2 -> map_progress s d lv (j + 1) s2 d2 lv2.
Proof.
  intros Hj [E1 P1 L1 B1 U1] (E2&P2&L2&C2&M2). pose proof (ro_count _ _ Hrange).
  destruct (ev_data _ _ _ _ _ _ _ E1) as (Eb&_&Ek). rewrite Eb in *.
  destruct (range_offset va n j Hrange Hj) as (_&Ed&_). destruct (map_phys_ok j Hj) as [_ Eo].
  assert (Enew : new_pte ctx (va + j * PAGE_SIZE) s1 d1 = range_pte s d j).
  { rewrite (new_pte_evolves p ctx _ _ _ _ _ _ _ E1). unfold new_pte, range_pte. cbn. by rewrite Ed, Eo. }
  assert (Eself : pte (phys s1) (BasePhysicalAddress d) (va + j * PAGE_SIZE) =
                  pte (phys s) (BasePhysicalAddress d) (va + j * PAGE_SIZE)).
  { rewrite P1. unfold map_meaning. rewrite page_index_self by lia. by rewrite Z.ltb_irrefl. }
  assert (Ekept : kept ctx (va + j * PAGE_SIZE) s1 (BasePhysicalAddress d) = negb (written s d j)).
  { unfold kept, written. rewrite Eself. cbn [ctx_Invalidate]. destruct Invalidate; destruct (pte (phys s) _ _); done. }
  split.
  - by eapply evolves_trans.
  - intros v. rewrite P2, Enew, Ekept, Eself, P1. unfold map_meaning.
    pose proof (page_index_from_key va j ltac:(lia) v) as Hkey. case_decide as E.
    + apply Hkey in E as Ei. rewrite Ei, (proj2 (Z.ltb_lt j (j + 1))) by lia.
      rewrite (pte_same_key _ _ _ _ E). unfold written. destruct Invalidate; destruct (pte (phys s) _ _); done.
    + assert (page_index_from va v <> j) by (intros Ei; by apply E, Hkey).
      by replace (page_index_from va v <? j + 1) with (page_index_from va v <? j) by lia.
  - intros i Hi Hw. destruct (ev_tlb _ _ _ _ _ _ _ E2) as [t Et].
    destruct (decide (i = j)) as [->|]; [apply L2; by rewrite Ekept, Hw|].
    rewrite Et. apply elem_of_app. left. apply L1; [lia|done].
  - intros Hlt. pose proof (missing_next (phys s2) (BasePhysicalAddress d) (va + j * PAGE_SIZE) (va + (j + 1) * PAGE_SIZE)).
    pose proof (crossings_trans (va + j * PAGE_SIZE) (va + (j + 1) * PAGE_SIZE) (va + (n - 1) * PAGE_SIZE)).
    unfold PAGE_SIZE in *. lia.
  - pose proof (crossings_nonneg (va + j * PAGE_SIZE) (va + (n - 1) * PAGE_SIZE)). unfold PAGE_SIZE in *. lia.
Qed.

Lemma map_pages fuel : forall s d lv j s1 d1 lv1, map_progress s d lv j s1 d1 lv1 -> 0 <= j <= n ->
  n - j <= Z.of_nat fuel ->
  CurrentIndex d + missing (phys s) (BasePhysicalAddress d) va + crossings va (va + (n - 1) * PAGE_SIZE) <= NumberOfFrames d ->
  exists s2 d2 lv2,
    walk_pages id (_VmMapPage ctx) fuel (BasePhysicalAddress d) va (j * PAGE_SIZE) (n * PAGE_SIZE) s1 = Ok (tt, s2) /\
    map_progress s d lv n s2 d2 lv2.
Proof.
  induction fuel as [|fuel IH]; intros s d lv j s1 d1 lv1 Hpr Hj Hfuel Hroom.
  - assert (j = n) as -> by lia. exists s1, d1, lv1. by rewrite walk_pages_done.
  - destruct (decide (j = n)) as [->|]; [exists s1, d1, lv1; by rewrite walk_pages_done|].
    pose proof (mp_evolves _ _ _ _ _ _ _ Hpr) as E1. destruct (ev_data _ _ _ _ _ _ _ E1) as (Eb&En&_).
    pose proof (ev_wf _ _ _ _ _ _ _ E1) as Hwf1. pose proof (mp_budget _ _ _ _ _ _ _ Hpr ltac:(lia)) as Hbud.
    destruct (range_offset va n j Hrange ltac:(lia)) as (_&Ed&Hnz).
    destruct (map_phys_ok j ltac:(lia)) as [Hph Eo].
    destruct (wt_frame _ _ _ Hwf1 _ _ (wt_root _ _ _ Hwf1)) as (_&Hroot&_).
    destruct (map_page p ctx eq_refl Hp0 (va + j * PAGE_SIZE) Hnz) with (s := s1) (d := d1) (lv := lv1)
      as (s2&d2&lv2&W&Hpm); [cbn; by rewrite Ed, Eo|done|by eapply evolves_get| |].
    { rewrite Eb, En. pose proof (crossings_nonneg (va + j * PAGE_SIZE) (va + (n - 1) * PAGE_SIZE)).
      unfold PAGE_SIZE in *. lia. }
    rewrite Eb in W, Hroot.
    rewrite (walk_pages_step id _ va n j fuel _ s1 s2 Hrange ltac:(lia) Hroot W).
    eapply (IH s d lv (j + 1) s2 d2 lv2); [|lia|lia|done]. by apply (map_progress_step s d lv j s1 d1 lv1); [lia|..].
Qed.
End MapRange.

Lemma aligned_pages a : is_qword a -> a mod PAGE_SIZE = 0 -> IsAddressAligned a PAGE_SIZE = true.
Proof. intros Ha E. rewrite page_aligned_vm by done. lia. Qed.

Lemma range_size va n : range_ok va n ->
  is_qword (n * PAGE_SIZE) /\ 0 <> n * PAGE_SIZE /\ IsAddressAligned (n * PAGE_SIZE) PAGE_SIZE = true /\
  n <= Z.of_nat (Z.to_nat (n * PAGE_SIZE / PAGE_SIZE) + 1).
Proof.
  intros [? ? ? ?]. assert (is_qword (n * PAGE_SIZE)) by (unfold PAGE_SIZE in *; rlia).
  split; [done|]. split; [unfold PAGE_SIZE; lia|]. split; [apply aligned_pages; [done|by apply Z.mod_mul]|].
  rewrite Z.div_mul by done. lia.
Qed.

Lemma VmmMapMemoryInternal_run p pa va n Rights Invalidate Unc s d lv : p <> 0 -> range_ok va n ->
  phys_ok pa -> pa + n * PAGE_SIZE <= 2 ^ MAXPHYADDR -> wf_tables s d lv -> paging s !! p = Some d ->
  CurrentIndex d + missing (phys s) (BasePhysicalAddress d) va + crossings va (va + (n - 1) * PAGE_SIZE) <= NumberOfFrames d ->
  exists s' d' lv', VmmMapMemoryInternal p pa (n * PAGE_SIZE) va Rights Invalidate Unc s = Ok (tt, s') /\
    map_progress p pa va n Rights Invalidate Unc s d lv n s' d' lv'.
Proof.
  intros Hp0 Hr [[Hpa1 Hpa2] Hpa3] Hpe Hwf Hp Hroom. destruct (range_size va n Hr) as (_&Hn0&Hal&Hfuel).
  destruct (map_pages p pa va n Rights Invalidate Unc Hp0 Hr Hpa1 Hpa3 Hpe
    (Z.to_nat (n * PAGE_SIZE / PAGE_SIZE) + 1) s d lv 0 s d lv) as (s'&d'&lv'&W&Hm); [|pose proof (ro_count _ _ Hr); lia|lia|done|].
  { by apply map_progress_start. }
  exists s', d', lv'. split; [|done]. unfold VmmMapMemoryInternal.
  rewrite (bind_run _ _ _ tt s) by (apply ASSERT_run; unfold NULL; lia).
  rewrite (bind_run _ _ _ tt s) by (apply ASSERT_run, aligned_pages; [unfold MAXPHYADDR in *; rlia|done]).
  rewrite (bind_run _ _ _ tt s) by (apply ASSERT_run; rewrite Hal; lia).
  rewrite (bind_run _ _ _ d s) by (unfold get_paging; by rewrite Hp). exact W.
Qed.

(** * Walks that only read the inner levels *)
Lemma walk_inner {T} (vmm : T -> Vmm) (cb : Z -> Z -> Z -> M T bool) (g : T -> T) va s d lv :
  wf_tables (vmm s) d lv ->
  (forall f l, lv !! f = Some l -> 1 <= l <= 3 ->
     cb (entry_ptr (vmm s) f (offset_at va l)) va l s =
     Ok (if PteIsPresent (phys (vmm s) (slot f va l)) then (true, s) else (false, g s))) ->
  walk_levels vmm cb va (BasePhysicalAddress d) level_list s =
  match table (phys (vmm s)) (BasePhysicalAddress d) va 3 with
  | Some f => walk_levels vmm cb va f [4] s
  | None => Ok (tt, g s)
  end.
Proof.
  intros Hwf Hcb. set (root := BasePhysicalAddress d). set (m := phys (vmm s)).
  assert (Hstep : forall l f rest, 1 <= l <= 3 -> table m root va (Z.to_nat (l - 1)) = Some f ->
    walk_levels vmm cb va f (l :: rest) s =
    match table m root va (Z.to_nat l) with
    | Some f' => walk_levels vmm cb va f' rest s
    | None => Ok (tt, g s)
    end).
  { intros l f rest Hl Ht. pose proof (table_level (vmm s) d lv Hwf va (Z.to_nat (l - 1)) f ltac:(lia) Ht) as Hf.
    replace (Z.of_nat (Z.to_nat (l - 1)) + 1) with l in Hf by lia.
    pose proof (offset_at_range va l ltac:(lia)) as Hk.
    destruct (entry_ptr_spec (vmm s) d lv f l _ Hwf Hf Hk) as [_ Haddr].
    rewrite (table_at m root va f l ltac:(lia) Ht). specialize (Hcb f l Hf Hl). fold m in Hcb.
    destruct (PteIsPresent (m (slot f va l))) eqn:Epr.
    - apply (walk_descend vmm); [lia|done|done|].
      by destruct (wt_child _ _ _ Hwf f l _ Hf ltac:(lia) Hk Epr).
    - by apply walk_stop. }
  assert (Hnone : forall n, table m root va n = None -> table m root va (S n) = None).
  { intros n E. cbn [table]. by rewrite E. }
  unfold level_list. rewrite (Hstep 1 root _ ltac:(lia) eq_refl).
  destruct (table m root va (Z.to_nat 1)) as [f1|] eqn:E1; [|by rewrite (Hnone 2%nat (Hnone 1%nat E1))].
  rewrite (Hstep 2 f1 _ ltac:(lia) E1).
  destruct (table m root va (Z.to_nat 2)) as [f2|] eqn:E2; [|by rewrite (Hnone 2%nat E2)].
  by rewrite (Hstep 3 f2 _ ltac:(lia) E2).
Qed.

(** ** Unmapping one page *)
Definition release_item (pa : Z) (s : Vmm) : Vmm :=
  mkVmm (phys s) (paging s) (WriteBackIndex s) (UncacheableIndex s) (gVirtualToPhysicalOffset s)
    (PagesToZeroList s ++ [mkITEM pa 1]) true (pred (special_room s)) (tlb_invalidated s).

Definition unmap_state (Release : bool) (a va : Z) (s : Vmm) : Vmm :=
  let s' := leaf_store a PteUnmap va s in
  if Release then release_item (PteGetPhysicalAddress (phys s a)) s' else s'.

Lemma MmuReleaseMemory_run pa s : phys_ok pa -> (0 < special_room s)%nat ->
  MmuReleaseMemory pa 1 s = Ok (tt, release_item pa s).
Proof.
  intros [[H1 H2] H3] Hr. unfold MmuReleaseMemory.
  rewrite (bind_run _ _ _ tt s) by (apply ASSERT_run, aligned_pages; [unfold MAXPHYADDR in *; rlia|done]).
  rewrite (bind_run _ _ _ tt s) by done. rewrite (bind_run _ _ _ (special_room s) s) by done.
  by rewrite (bind_run _ _ _ tt s) by (apply ASSERT_run; lia).
Qed.

Section UnmapPage.
Context (ctx : VMM_MAP_UNMAP_PAGE_WALK_CONTEXT) (va : Z) (Hva : va <> 0).
Abbreviation Release := (ctx_ReleaseMemory ctx).

Lemma _VmUnmapPage_run s d lv f l : wf_tables s d lv -> lv !! f = Some l ->
  (l = 4 -> PteIsPresent (phys s (slot f va l)) = true -> Release = true -> (0 < special_room s)%nat) ->
  _VmUnmapPage ctx (entry_ptr s f (offset_at va l)) va l s =
  Ok (if PteIsPresent (phys s (slot f va l))
      then (true, if l =? 4 then unmap_state Release (slot f va l) va s else s) else (false, s)).
Proof.
  intros Hwf Hf Hroom. destruct (wt_frame _ _ _ Hwf _ _ Hf) as (Hl&_&_).
  pose proof (offset_at_range va l ltac:(lia)) as Hk.
  destruct (entry_ptr_spec s d lv f l _ Hwf Hf Hk) as [Hnull Haddr]. fold (slot f va l) in Haddr.
  unfold _VmUnmapPage. rewrite (bind_run _ _ _ tt s) by (by apply callback_asserts_run).
  rewrite (bind_run _ _ _ (phys s (slot f va l)) s) by (unfold gets, load; by rewrite Haddr).
  remember (entry_ptr s f (offset_at va l)) as ptr eqn:Eptr. clear Eptr.
  change PAGING_TABLES_LAST_LEVEL with 4.
  destruct (PteIsPresent (phys s (slot f va l))) eqn:Epr; [|done]. cbn [negb].
  destruct (Z.eqb_spec l 4) as [->|]; [|done].
  rewrite (bind_run _ _ _ tt (unmap_state Release (slot f va 4) va s)); [done|].
  rewrite (bind_run _ _ _ tt (set_phys (upd (phys s) (slot f va 4) PteUnmap) s))
    by (unfold store, modify; by rewrite Haddr).
  rewrite (bind_run _ _ _ tt (leaf_store (slot f va 4) PteUnmap va s)) by done.
  unfold unmap_state. pose proof (PteGetPhysicalAddress_ok (phys s (slot f va 4))).
  destruct Release eqn:Erel; [|done]. apply MmuReleaseMemory_run; [done|]. by apply Hroom.
Qed.

Lemma unmap_page s d lv : wf_tables s d lv ->
  (Release = true -> is_Some (pte (phys s) (BasePhysicalAddress d) va) -> (0 < special_room s)%nat) ->
  walk_levels id (_VmUnmapPage ctx) va (BasePhysicalAddress d) level_list s =
  Ok (tt, match leaf (phys s) (BasePhysicalAddress d) va with
          | Some a => if PteIsPresent (phys s a) then unmap_state Release a va s else s
          | None => s
          end).
Proof.
  intros Hwf Hroom. rewrite (walk_inner id _ id va s d lv); [|done|].
  - unfold leaf. destruct (table (phys (id s)) (BasePhysicalAddress d) va 3) as [f|] eqn:Et; unfold id in Et; rewrite Et;
      [|done].
    pose proof (table_level s d lv Hwf va 3 f ltac:(lia) Et) as Hf. cbn in Hf.
    assert (Hr : PteIsPresent (phys s (slot f va 4)) = true -> Release = true -> (0 < special_room s)%nat).
    { intros Epr Erel. apply Hroom; [done|]. unfold pte, leaf. rewrite Et. cbn [mbind option_bind].
      change PAGING_TABLES_LAST_LEVEL with 4. rewrite Epr. eauto. }
    cbn [mbind option_bind]. change PAGING_TABLES_LAST_LEVEL with 4.
    pose proof (_VmUnmapPage_run s d lv f 4 Hwf Hf (fun _ => Hr)) as E. cbn [Z.eqb Pos.eqb] in E.
    destruct (PteIsPresent (phys s (slot f va 4))); by eapply (walk_last id).
  - intros f l Hf Hl. rewrite (_VmUnmapPage_run _ d lv) by (done || lia). by replace (l =? 4) with false by lia.
Qed.
End UnmapPage.

(** ** Unmapping a range *)
Lemma seqZ_snoc j : 0 <= j -> seqZ 0 (j + 1) = seqZ 0 j ++ [j].
Proof.
  intros. replace (j + 1) with (Z.of_nat (S (Z.to_nat j))) by lia. rewrite seqZ_S.
  by replace (Z.of_nat (Z.to_nat j)) with j by lia.
Qed.

Section UnmapRange.
Context (va n : Z) (Release : bool) (Hrange : range_ok va n).
Abbreviation ctx := (mkMapCtx 0 0 0 0 false false Release).

(** The frames of the mapped pages among the first [j] of the range, in order. *)
Definition released (s : Vmm) (d : PAGING_DATA) (j : Z) : list MMU_ZERO_WORKER_ITEM :=
  if Release then
    omap (fun i => (fun e => mkITEM (PteGetPhysicalAddress e) 1) <$>
                     pte (phys s) (BasePhysicalAddress d) (va + i * PAGE_SIZE)) (seqZ 0 j)
  else [].

Record unmap_progress (s : Vmm) (d : PAGING_DATA) (lv : gmap Z Z) (j : Z) (s' : Vmm) : Prop := {
  up_wf : wf_tables s' d lv;
  up_pte v : pte (phys s') (BasePhysicalAddress d) v =
    if page_index_from va v <? j then None else pte (phys s) (BasePhysicalAddress d) v;
  up_rest : paging s' = paging s /\ WriteBackIndex s' = WriteBackIndex s /\ UncacheableIndex s' = UncacheableIndex s /\
    gVirtualToPhysicalOffset s' = gVirtualToPhysicalOffset s;
  up_items : PagesToZeroList s' = PagesToZeroList s ++ released s d j;
  up_room : Z.of_nat (special_room s') = Z.of_nat (special_room s) - Z.of_nat (length (released s d j));
  up_event : NewPagesEvent s' = NewPagesEvent s || negb (bool_decide (released s d j = []));
  up_tlb i : 0 <= i < j -> is_Some (pte (phys s) (BasePhysicalAddress d) (va + i * PAGE_SIZE)) ->
    va + i * PAGE_SIZE ∈ tlb_invalidated s';
  up_frame a : (forall f, is_Some (lv !! f) -> ~ (f <= a < f + PAGE_SIZE)) -> phys s' a = phys s a }.

Lemma released_step s d j : 0 <= j -> released s d (j + 1) = released s d j ++
  match pte (phys s) (BasePhysicalAddress d) (va + j * PAGE_SIZE) with
  | Some e => if Release then [mkITEM (PteGetPhysicalAddress e) 1] else []
  | None => []
  end.
Proof.
  intros Hj. unfold released. destruct Release; [|by destruct (pte _ _ _)].
  rewrite seqZ_snoc, omap_app by done. f_equal. cbn -[pte]. by destruct (pte _ _ _).
Qed.

Lemma released_length s d j k : 0 <= j <= k -> (length (released s d j) <= length (released s d k))%nat.
Proof.
  intros Hjk. unfold released. destruct Release; [|done].
  replace k with (j + (k - j)) by lia. rewrite seqZ_app, omap_app, length_app by lia. lia.
Qed.

Lemma unmap_progress_start s d lv : wf_tables s d lv -> unmap_progress s d lv 0 s.
Proof.
  intros Hwf. assert (Hr : released s d 0 = []) by (unfold released; by destruct Release).
  split; rewrite ?Hr; try done; try lia.
  - intros v. pose proof (page_index_range va v). by rewrite (proj2 (Z.ltb_ge _ _)) by lia.
  - by rewrite app_nil_r.
  - cbn. lia.
  - cbn. by rewrite orb_false_r.
Qed.

Lemma unmap_progress_skip s d lv j s1 : 0 <= j < n -> unmap_progress s d lv j s1 ->
  pte (phys s) (BasePhysicalAddress d) (va + j * PAGE_SIZE) = None -> unmap_progress s d lv (j + 1) s1.
Proof.
  intros Hj [] E. pose proof (ro_count _ _ Hrange).
  assert (Hr : released s d (j + 1) = released s d j) by (rewrite released_step, E by lia; apply app_nil_r).
  split; rewrite ?Hr; try done.
  - intros v. rewrite up_pte0. destruct (decide (page_index_from va v = j)) as [Ei|].
    + rewrite Ei, Z.ltb_irrefl, (proj2 (Z.ltb_lt j (j + 1))) by lia.
      apply page_index_from_key in Ei; [|lia]. by rewrite (pte_same_key _ _ _ _ Ei).
    + by replace (page_index_from va v <? j + 1) with (page_index_from va v <? j) by lia.
  - intros i Hi [e He]. destruct (decide (i = j)) as [->|]; [congruence|]. apply up_tlb0; [lia|eauto].
Qed.

Lemma unmap_progress_page s d lv j s1 a e : 0 <= j < n -> unmap_progress s d lv j s1 ->
  leaf (phys s1) (BasePhysicalAddress d) (va + j * PAGE_SIZE) = Some a -> phys s1 a = e -> PteIsPresent e = true ->
  pte (phys s) (BasePhysicalAddress d) (va + j * PAGE_SIZE) = Some e ->
  (Release = true -> (0 < special_room s1)%nat) ->
  unmap_progress s d lv (j + 1) (unmap_state Release a (va + j * PAGE_SIZE) s1).
Proof.
  intros Hj [] Hleaf He Hpr E Hroom. pose proof (ro_count _ _ Hrange).
  pose proof (released_step s d j ltac:(lia)) as Hr. rewrite E in Hr.
  assert (Hphys : phys (unmap_state Release a (va + j * PAGE_SIZE) s1) = upd (phys s1) a PteUnmap)
    by (unfold unmap_state; by destruct Release).
  destruct (leaf_level s1 d lv up_wf0 _ _ Hleaf) as (f&_&Hf&Ea).
  split; rewrite ?Hphys.
  - eapply (wf_same_inner s1 d lv up_wf0); [by eapply leaf_store_inner|done|unfold unmap_state; by destruct Release].
  - intros v. rewrite (leaf_store_pte s1 d lv up_wf0 _ _ Hleaf), up_pte0.
    pose proof (page_index_from_key va j ltac:(lia) v) as Hkey. case_decide as Ek.
    + apply Hkey in Ek as Ei. by rewrite Ei, (proj2 (Z.ltb_lt j (j + 1))) by lia.
    + assert (page_index_from va v <> j) by (intros Ei; by apply Ek, Hkey).
      by replace (page_index_from va v <? j + 1) with (page_index_from va v <? j) by lia.
  - unfold unmap_state. by destruct Release.
  - rewrite Hr. unfold unmap_state. destruct Release; cbn; rewrite up_items0; [by rewrite He, app_assoc|by rewrite app_nil_r].
  - rewrite Hr, length_app. unfold unmap_state. destruct Release; cbn -[Z.of_nat]; [specialize (Hroom eq_refl); lia|lia].
  - rewrite Hr. unfold unmap_state. destruct Release; cbn; rewrite ?app_nil_r; [|done].
    rewrite bool_decide_eq_false_2; [by rewrite orb_true_r|]. by destruct (released s d j).
  - intros i Hi Hs. assert (Ht : tlb_invalidated (unmap_state Release a (va + j * PAGE_SIZE) s1) =
                                tlb_invalidated s1 ++ [va + j * PAGE_SIZE]) by (unfold unmap_state; by destruct Release).
    rewrite Ht. apply elem_of_app. destruct (decide (i = j)) as [->|]; [right; set_solver|left].
    apply up_tlb0; [lia|done].
  - intros b Hb. rewrite upd_ne; [by apply up_frame0|]. intros ->. apply (Hb f); [eauto|]. rewrite Ea.
    apply slot_in_frame, offset_at_range. lia.
Qed.

Lemma unmap_pages fuel : forall s d lv j s1, unmap_progress s d lv j s1 -> 0 <= j <= n -> n - j <= Z.of_nat fuel ->
  (length (released s d n) <= special_room s)%nat ->
  exists s2, walk_pages id (_VmUnmapPage ctx) fuel (BasePhysicalAddress d) va (j * PAGE_SIZE) (n * PAGE_SIZE) s1 = Ok (tt, s2) /\
    unmap_progress s d lv n s2.
Proof.
  induction fuel as [|fuel IH]; intros s d lv j s1 Hpr Hj Hfuel Hroom.
  - assert (j = n) as -> by lia. exists s1. by rewrite walk_pages_done.
  - destruct (decide (j = n)) as [->|]; [exists s1; by rewrite walk_pages_done|].
    destruct (range_offset va n j Hrange ltac:(lia)) as (_&_&Hnz). pose proof (up_wf _ _ _ _ _ Hpr) as Hwf.
    destruct (wt_frame _ _ _ Hwf _ _ (wt_root _ _ _ Hwf)) as (_&Hroot&_). pose proof (ro_count _ _ Hrange).
    assert (Eself : pte (phys s1) (BasePhysicalAddress d) (va + j * PAGE_SIZE) =
                    pte (phys s) (BasePhysicalAddress d) (va + j * PAGE_SIZE)).
    { rewrite (up_pte _ _ _ _ _ Hpr). rewrite page_index_self by lia. by rewrite Z.ltb_irrefl. }
    assert (Hr1 : is_Some (pte (phys s1) (BasePhysicalAddress d) (va + j * PAGE_SIZE)) -> Release = true -> (0 < special_room s1)%nat).
    { intros [e He] Erel. pose proof (up_room _ _ _ _ _ Hpr). rewrite Eself in He.
      pose proof (released_step s d j ltac:(lia)) as Hs. rewrite He, Erel in Hs. apply (f_equal length) in Hs.
      rewrite length_app in Hs. cbn in Hs. pose proof (released_length s d (j + 1) n ltac:(lia)). lia. }
    pose proof (unmap_page ctx (va + j * PAGE_SIZE) Hnz s1 d lv Hwf (fun a b => Hr1 b a)) as W.
    rewrite (walk_pages_step id _ va n j fuel _ s1 _ Hrange ltac:(lia) Hroot W).
    apply IH; [|lia|lia|done]. unfold pte in Eself, Hr1.
    destruct (leaf (phys s1) (BasePhysicalAddress d) (va + j * PAGE_SIZE)) as [a|] eqn:El; cbn [mbind option_bind] in Eself, Hr1.
    + destruct (PteIsPresent (phys s1 a)) eqn:Epr.
      * eapply unmap_progress_page; [lia|done..|by symmetry|eauto].
      * apply unmap_progress_skip; [lia|done|by symmetry].
    + apply unmap_progress_skip; [lia|done|by symmetry].
Qed.
End UnmapRange.

Lemma VmmUnmapMemoryEx_run va n Release s d lv : range_ok va n -> wf_tables s d lv ->
  (length (released va Release s d n) <= special_room s)%nat ->
  exists s', VmmUnmapMemoryEx (BasePhysicalAddress d) va (n * PAGE_SIZE) Release s = Ok (tt, s') /\
    unmap_progress va Release s d lv n s'.
Proof.
  intros Hr Hwf Hroom. destruct (range_size va n Hr) as (Hq&Hn0&Hal&Hfuel).
  destruct (unmap_pages va n Release Hr (Z.to_nat (n * PAGE_SIZE / PAGE_SIZE) + 1) s d lv 0 s) as (s'&W&Hu);
    [by apply unmap_progress_start|pose proof (ro_count _ _ Hr); lia|lia|done|].
  exists s'. split; [|done]. unfold VmmUnmapMemoryEx. destruct Hr.
  rewrite Hal, (aligned_pages va) by (done || (unfold PAGE_SIZE in *; rlia)).
  replace (NULL =? va) with false by (unfold NULL; lia). replace (0 =? n * PAGE_SIZE) with false by lia. exact W.
Qed.

(** ** Translation *)
Definition cleared (WantAccessed WantDirty : bool) (e : Z) : Z :=
  let e := if WantAccessed then setf Accessed 0 e else e in if WantDirty then setf Dirty 0 e else e.

Lemma upd_upd m a v w x : upd (upd m a v) a w x = upd m a w x.
Proof. unfold upd. by destruct (x =? a). Qed.

Section Retrieve.
Context (A D : bool) (va : Z) (Hva : va <> 0).
Abbreviation ctx0 := (mkRetCtx 0 false false A D).

Lemma access_bits_run s a ptr pa : VA2PA s ptr = a ->
  exists s', access_bits ptr va (s, mkRetCtx pa false false A D) =
    Ok (tt, (s', mkRetCtx pa (1 =? getf Accessed (phys s a)) (1 =? getf Dirty (phys s a)) A D)) /\
    (forall x, phys s' x = upd (phys s) a (cleared A D (phys s a)) x) /\
    (A = false -> D = false -> s' = s) /\
    paging s' = paging s /\ gVirtualToPhysicalOffset s' = gVirtualToPhysicalOffset s /\
    (A || D = true -> va ∈ tlb_invalidated s').
Proof.
  intros Ha. unfold access_bits, on_vmm, zoom, store, PageInvalidateTlb, modify, gets, mbind, M_bind, load.
  destruct A, D; cbn -[VA2PA upd setf getf]; change (VA2PA (set_phys _ ?t) ptr) with (VA2PA s ptr); rewrite ?Ha, ?upd_eq;
    (eexists; split; [reflexivity|]); split_and!; try done; try (intros _; cbn; set_solver).
  - intros x. apply upd_upd.
  - intros x. cbn. unfold upd. by destruct (Z.eqb_spec x a) as [->|].
Qed.

Lemma callback_asserts_on {C} p l s (c : C) : (p =? NULL) = false -> 1 <= l <= 4 ->
  on_vmm (callback_asserts p va l) (s, c) = Ok (tt, (s, c)).
Proof. intros. unfold on_vmm, zoom. cbn [fst snd]. by rewrite callback_asserts_run. Qed.

Lemma _VmRetrievePhyAccess_inner s d lv f l : wf_tables s d lv -> lv !! f = Some l -> 1 <= l <= 3 ->
  _VmRetrievePhyAccess (entry_ptr s f (offset_at va l)) va l (s, ctx0) =
  Ok (if PteIsPresent (phys s (slot f va l)) then (true, (s, ctx0)) else (false, (s, ctx0))).
Proof.
  intros Hwf Hf Hl. pose proof (offset_at_range va l ltac:(lia)) as Hk.
  destruct (entry_ptr_spec s d lv f l _ Hwf Hf Hk) as [Hnull Haddr]. fold (slot f va l) in Haddr.
  unfold _VmRetrievePhyAccess. rewrite (bind_run _ _ _ tt (s, ctx0)) by (apply callback_asserts_on; done || lia).
  rewrite (bind_run _ _ _ (phys s (slot f va l)) (s, ctx0)) by (unfold gets, load; cbn [fst]; by rewrite Haddr).
  destruct (PteIsPresent (phys s (slot f va l))) eqn:Epr; [|done]. cbn [negb].
  change PAGING_TABLES_LAST_LEVEL with 4. change (4 - 1) with 3.
  destruct (Z.ltb_spec l 3); [done|]. replace (l =? 3) with true by lia.
  destruct (wt_child _ _ _ Hwf f l _ Hf ltac:(lia) Hk Epr) as [Hps _]. fold (slot f va l) in Hps. by rewrite Hps.
Qed.

(** What a translation of [va] returns and leaves behind. *)
Definition retrieved (s : Vmm) (d : PAGING_DATA) (r : Z * bool * bool) (s' : Vmm) : Prop :=
  match leaf (phys s) (BasePhysicalAddress d) va with
  | Some a =>
    if PteIsPresent (phys s a) then
      r = (PteGetPhysicalAddress (phys s a), 1 =? getf Accessed (phys s a), 1 =? getf Dirty (phys s a)) /\
      (forall x, phys s' x = upd (phys s) a (cleared A D (phys s a)) x) /\
      (A = false -> D = false -> s' = s) /\
      paging s' = paging s /\ gVirtualToPhysicalOffset s' = gVirtualToPhysicalOffset s /\
      (A || D = true -> va ∈ tlb_invalidated s')
    else r = (NULL, false, false) /\ s' = s
  | None => r = (NULL, false, false) /\ s' = s
  end.

Lemma retrieve_leaf s d lv f : wf_tables s d lv -> table (phys s) (BasePhysicalAddress d) va 3 = Some f ->
  exists s' c, walk_levels fst _VmRetrievePhyAccess va f [4] (s, ctx0) = Ok (tt, (s', c)) /\
    retrieved s d (ret_PhysicalAddress c, ret_Accessed c, ret_Dirty c) s'.
Proof.
  intros Hwf Et. pose proof (table_level s d lv Hwf va 3 f ltac:(lia) Et) as Hf. cbn in Hf.
  pose proof (offset_at_range va 4 ltac:(lia)) as Hk.
  destruct (entry_ptr_spec s d lv f 4 _ Hwf Hf Hk) as [Hnull Haddr]. fold (slot f va 4) in Haddr.
  unfold retrieved, leaf. rewrite Et. cbn [mbind option_bind]. change PAGING_TABLES_LAST_LEVEL with 4.
  set (a := slot f va 4) in *. set (ptr := entry_ptr s f (offset_at va 4)) in *.
  assert (Hcb : forall r t, _VmRetrievePhyAccess ptr va 4 (s, ctx0) = Ok (r, t) ->
    walk_levels fst _VmRetrievePhyAccess va f [4] (s, ctx0) = Ok (tt, t)).
  { intros r t E. by apply (walk_last fst) with (b := r). }
  unfold _VmRetrievePhyAccess in Hcb.
  rewrite (bind_run _ _ _ tt (s, ctx0)) in Hcb by (apply callback_asserts_on; done || lia).
  rewrite (bind_run _ _ _ (phys s a) (s, ctx0)) in Hcb by (unfold gets, load; cbn [fst]; by rewrite Haddr).
  fold _VmRetrievePhyAccess in Hcb. destruct (PteIsPresent (phys s a)) eqn:Epr; cbn [negb] in Hcb.
  - destruct (access_bits_run s a ptr (PteGetPhysicalAddress (phys s a)) Haddr) as (s'&E&Hrest).
    change (4 <? PAGING_TABLES_LAST_LEVEL - 1) with false in Hcb.
    change (4 =? PAGING_TABLES_LAST_LEVEL - 1) with false in Hcb.
    change (4 =? PAGING_TABLES_LAST_LEVEL) with true in Hcb. lazy iota in Hcb.
    rewrite (bind_run _ _ _ tt (s, ctx0)) in Hcb by done.
    rewrite (bind_run _ _ _ tt (s, mkRetCtx (PteGetPhysicalAddress (phys s a)) false false A D)) in Hcb by done.
    rewrite (bind_run _ _ _ _ _ E) in Hcb. do 2 eexists. split; [by eapply Hcb|done].
  - do 2 eexists. split; [by eapply Hcb|done].
Qed.

Lemma VmmGetPhysicalAddressEx_run s d lv : wf_tables s d lv -> is_qword va -> va mod PAGE_SIZE = 0 ->
  exists r s', VmmGetPhysicalAddressEx (BasePhysicalAddress d) va A D s = Ok (r, s') /\ retrieved s d r s'.
Proof.
  intros Hwf Hq Hal. destruct (wt_frame _ _ _ Hwf _ _ (wt_root _ _ _ Hwf)) as (_&Hroot&_).
  assert (Hr : range_ok va 1).
  { split; try done; try lia; [rlia|]. pose proof (Z.div_mod va PAGE_SIZE ltac:(done)). unfold PAGE_SIZE in *. rlia. }
  assert (W : exists s' c, walk_levels fst _VmRetrievePhyAccess va (BasePhysicalAddress d) level_list (s, ctx0) = Ok (tt, (s', c)) /\
    retrieved s d (ret_PhysicalAddress c, ret_Accessed c, ret_Dirty c) s').
  { rewrite (walk_inner fst _ id va (s, ctx0) d lv); [|done|intros; by apply (_VmRetrievePhyAccess_inner s d lv)].
    cbn [fst]. destruct (table (phys s) (BasePhysicalAddress d) va 3) as [f|] eqn:Et; [by eapply retrieve_leaf|].
    exists s, ctx0. split; [done|]. unfold retrieved, leaf. by rewrite Et. }
  destruct W as (s'&c&W&Hret). eexists _, s'. split; [|exact Hret]. unfold VmmGetPhysicalAddressEx.
  rewrite (bind_run _ _ _ tt (s, ctx0)) by (unfold on_vmm, zoom; rewrite ASSERT_run; [done|unfold NULL; lia]).
  rewrite (bind_run _ _ _ tt (s, ctx0)) by (unfold on_vmm, zoom; rewrite ASSERT_run; [done|by apply aligned_pages]).
  unfold _VmWalkPagingTables. replace (Z.to_nat (PAGE_SIZE / PAGE_SIZE) + 1)%nat with 2%nat by done.
  pose proof (walk_pages_step fst _VmRetrievePhyAccess va 1 0 1 _ (s, ctx0) (s', c) Hr ltac:(lia) Hroot) as E.
  rewrite Z.mul_0_l, Z.add_0_r, Z.mul_1_l in E. rewrite E by done.
  change ((0 + 1) * PAGE_SIZE) with (1 * PAGE_SIZE). change PAGE_SIZE with (1 * PAGE_SIZE) at 2.
  by rewrite walk_pages_done.
Qed.
End Retrieve.

(** * Memory that is not a paging structure *)
Definition outside (lv : gmap Z Z) (a n : Z) : Prop :=
  forall f, is_Some (lv !! f) -> f + PAGE_SIZE <= a \/ a + n <= f.

Section Outside.
Context (s : Vmm) (d : PAGING_DATA) (lv : gmap Z Z) (Hwf : wf_tables s d lv).
Context (m' : Z -> Z) (Hm : forall f x, is_Some (lv !! f) -> f <= x < f + PAGE_SIZE -> m' x = phys s x).

Lemma agree_inner : same_inner lv (phys s) m'.
Proof. intros f l k Hf _ Hk. apply (Hm f); [eauto|]. by apply slot_in_frame. Qed.

Lemma agree_pte va : pte m' (BasePhysicalAddress d) va = pte (phys s) (BasePhysicalAddress d) va.
Proof.
  unfold pte. rewrite (leaf_same_inner s d lv Hwf _ agree_inner).
  destruct (leaf (phys s) (BasePhysicalAddress d) va) as [a|] eqn:E; [|done]. cbn [mbind option_bind].
  destruct (leaf_level s d lv Hwf _ _ E) as (f&_&Hf&->). rewrite (Hm f); [done|eauto|].
  apply slot_in_frame, offset_at_range. lia.
Qed.
End Outside.

Lemma zero_outside lv m a n f x : outside lv a n -> is_Some (lv !! f) -> f <= x < f + PAGE_SIZE ->
  zero_range m a n x = m x.
Proof. intros Ho Hf Hx. apply zero_range_out. destruct (Ho f Hf); lia. Qed.

(** Empty tables: a zeroed PML4. *)
Lemma wf_empty s d : phys_ok (BasePhysicalAddress d) -> 0 < gVirtualToPhysicalOffset s < 2 ^ 64 ->
  1 = CurrentIndex d -> 1 <= NumberOfFrames d -> NumberOfFrames d * PAGE_SIZE < 2 ^ 32 ->
  BasePhysicalAddress d + NumberOfFrames d * PAGE_SIZE <= 2 ^ MAXPHYADDR ->
  BasePhysicalAddress d + NumberOfFrames d * PAGE_SIZE + gVirtualToPhysicalOffset s <= 2 ^ 64 ->
  (forall x, BasePhysicalAddress d <= x < BasePhysicalAddress d + PAGE_SIZE -> phys s x = 0) ->
  wf_tables s d {[BasePhysicalAddress d := 1]} /\ forall v, pte (phys s) (BasePhysicalAddress d) v = None.
Proof.
  intros Hb Ho Hc HN H1 H2 H3 Hz.
  assert (Hslot : forall f l k, ({[BasePhysicalAddress d := 1]} : gmap Z Z) !! f = Some l -> 0 <= k < 512 ->
    phys s (f + SIZEOF_PT_ENTRY * k) = 0).
  { intros f l k [<- _]%lookup_singleton_Some Hk. apply Hz. by apply slot_in_frame. }
  split.
  - split; try done; try lia.
    + apply lookup_singleton_eq.
    + intros f l [<- <-]%lookup_singleton_Some. split; [lia|]. split; [done|]. unfold PAGE_SIZE in *. lia.
    + intros f l k Hf _ Hk. by rewrite (Hslot f l k).
    + intros f l k g l' j Hf _ Hk _ _ _. by rewrite (Hslot f l k).
    + intros i Hi. rewrite lookup_singleton_ne; [done|]. unfold PAGE_SIZE. lia.
  - intros v. unfold pte, leaf. cbn [table]. cbn [mbind option_bind]. unfold slot.
    by rewrite (Hslot _ 1) by (apply lookup_singleton_eq || (apply offset_at_range; lia)).
Qed.

(** * Cacheability *)
Lemma pat_fold PatValues l : forall wbf ucf wb uc,
  let '(wbf', ucf', wb', uc') := foldl (pat_step PatValues) (wbf, ucf, wb, uc) l in
  (if wbf then wb' = wb /\ wbf' = true else
     if wbf' then wb' ∈ l /\ Z.land (Z.shiftr PatValues (8 * wb')) 0xFF = MemoryCachingWriteBack else wb' = wb) /\
  (if ucf then uc' = uc /\ ucf' = true else
     if ucf' then uc' ∈ l /\ Z.land (Z.shiftr PatValues (8 * uc')) 0xFF = MemoryCachingStrongUncacheable else uc' = uc).
Proof.
  induction l as [|i l IH]; intros wbf ucf wb uc; [by destruct wbf, ucf|]. cbn [foldl].
  unfold pat_step at 2. set (b := Z.land (Z.shiftr PatValues (8 * i)) 0xFF).
  destruct (Z.eqb_spec MemoryCachingStrongUncacheable b); [destruct ucf|
    destruct (Z.eqb_spec MemoryCachingWriteBack b); [destruct wbf|]]; cbn [negb];
    match goal with |- context [foldl _ (?a, ?b, ?c, ?d) l] => specialize (IH a b c d) end;
    destruct (foldl (pat_step PatValues) _ l) as [[[wbf' ucf'] wb'] uc'];
    repeat (match goal with b : bool |- _ => destruct b end); destruct_and?; subst; try done; (split; try done);
    (split; try done); try (by left); try (by right); by symmetry.
Qed.

(** When _VmDeterminePatIndices succeeds, both indices fit the three bits of PatIndex and select the
    write-back and the strong uncacheable type of the IA32_PAT value. *)
Theorem pat_indices PatValues wb0 uc0 wb uc : _VmDeterminePatIndices PatValues wb0 uc0 = (true, wb, uc) ->
  0 <= wb < 8 /\ 0 <= uc < 8 /\
  Z.land (Z.shiftr PatValues (8 * wb)) 0xFF = MemoryCachingWriteBack /\
  Z.land (Z.shiftr PatValues (8 * uc)) 0xFF = MemoryCachingStrongUncacheable.
Proof.
  unfold _VmDeterminePatIndices. pose proof (pat_fold PatValues (seqZ 0 8) false false wb0 uc0) as H.
  destruct (foldl _ _ _) as [[[[] []] wb'] uc']; try done. intros [= -> ->].
  destruct H as [[H1%elem_of_seqZ ?] [H2%elem_of_seqZ ?]]. split; [lia|]. split; [lia|done].
Qed.

(** * Termination of the walk, whatever the tables contain *)
Lemma walk_levels_returns {T} (vmm : T -> Vmm) cb : (forall p va l s, cb p va l s <> Err NoFuel) ->
  forall levels va cur s, walk_levels vmm cb va cur levels s <> Err NoFuel.
Proof.
  intros Hcb. induction levels as [|l levels IH]; intros va cur s; [done|]. cbn [walk_levels].
  rewrite (bind_run _ _ _ (entry_ptr (vmm s) cur (offset_at va l)) s) by done. unfold mbind at 1, M_bind at 1.
  specialize (Hcb (entry_ptr (vmm s) cur (offset_at va l)) va l s).
  destruct (cb _ va l s) as [[[] t]|]; [|done|congruence]. cbn [negb].
  rewrite (bind_run _ _ _ (load (vmm t) (entry_ptr (vmm s) cur (offset_at va l))) t) by done.
  unfold mbind at 1, M_bind at 1. destruct (negb (l =? _)); [|apply IH]. unfold ASSERT, lift, assert_.
  destruct (getf PageSize _ =? 0); [apply IH|done].
Qed.

Lemma walk_pages_returns {T} (vmm : T -> Vmm) cb Cr3 Base Size : (forall p va l s, cb p va l s <> Err NoFuel) ->
  Size <= 2 ^ 64 - PAGE_SIZE -> forall fuel off s, 0 <= off -> Size - off <= Z.of_nat fuel * PAGE_SIZE ->
  walk_pages vmm cb fuel Cr3 Base off Size s <> Err NoFuel.
Proof.
  intros Hcb Hsize. induction fuel as [|fuel IH]; intros off s Ho Hf; cbn [walk_pages].
  - by rewrite (proj2 (Z.ltb_ge _ _)) by lia.
  - destruct (Z.ltb_spec off Size); [|done]. unfold mbind at 1, M_bind at 1.
    pose proof (walk_levels_returns vmm cb Hcb level_list (PtrOffset Base off)
      (u64 (Z.shiftl (getf Pcide_PhysicalAddress Cr3) SHIFT_FOR_PHYSICAL_ADDR)) s) as Hl.
    destruct (walk_levels _ _ _ _ _ s) as [[u t]|]; [|congruence].
    rewrite u64_small by (unfold PAGE_SIZE in *; rlia). apply IH; unfold PAGE_SIZE in *; lia.
Qed.

(** * Theorems *)

(** C34: _VmWalkPagingTables returns after at most one pass of four levels per page, for every content of the
    paging structures (cyclic or corrupt ones included), every callback that returns and every size that does not make
    the QWORD offset wrap. *)
Theorem paging_walk_terminates {T} (vmm : T -> Vmm) cb Cr3 Base Size s :
  (forall p va l t, cb p va l t <> Err NoFuel) -> 0 <= Size <= 2 ^ 64 - PAGE_SIZE ->
  _VmWalkPagingTables vmm cb Cr3 Base Size s <> Err NoFuel.
Proof.
  intros Hcb Hs. apply walk_pages_returns; [done|lia|lia|].
  pose proof (Z.div_mod Size PAGE_SIZE ltac:(done)). pose proof (Z.mod_pos_bound Size PAGE_SIZE ltac:(done)).
  pose proof (Z.div_pos Size PAGE_SIZE ltac:(lia) ltac:(done)). unfold PAGE_SIZE in *. lia.
Qed.

(** C4: VmmMapMemoryInternal returns and maps page i of the range to frame i of the physical range, with the
    requested rights and cacheability, unless the page was mapped and Invalidate is not set; every other page keeps its
    meaning, the structures stay a tree, at most the missing structures of the first page and one per
    boundary crossed are taken from the pool, every page written is invalidated in the TLB, and no memory outside the
    paging structures changes. *)
Theorem paging_map_range p pa va n Rights Invalidate Unc s d lv : p <> 0 -> range_ok va n ->
  phys_ok pa -> pa + n * PAGE_SIZE <= 2 ^ MAXPHYADDR -> wf_tables s d lv -> paging s !! p = Some d ->
  CurrentIndex d + missing (phys s) (BasePhysicalAddress d) va + crossings va (va + (n - 1) * PAGE_SIZE) <= NumberOfFrames d ->
  exists s' d' lv', VmmMapMemoryInternal p pa (n * PAGE_SIZE) va Rights Invalidate Unc s = Ok (tt, s') /\
    wf_tables s' d' lv' /\ paging s' = <[p := d']> (paging s) /\
    (forall v, pte (phys s') (BasePhysicalAddress d) v =
       let i := page_index_from va v in
       let new := PteMap (pa + i * PAGE_SIZE) (leaf_flags s d Rights Unc) in
       if i <? n then
         match pte (phys s) (BasePhysicalAddress d) v with
         | Some e => if Invalidate then Some new else Some e
         | None => Some new
         end
       else pte (phys s) (BasePhysicalAddress d) v) /\
    (forall i, 0 <= i < n -> (Invalidate = true \/ pte (phys s) (BasePhysicalAddress d) (va + i * PAGE_SIZE) = None) ->
       va + i * PAGE_SIZE ∈ tlb_invalidated s') /\
    CurrentIndex d <= CurrentIndex d' <= CurrentIndex d + missing (phys s) (BasePhysicalAddress d) va +
      crossings va (va + (n - 1) * PAGE_SIZE) /\
    (forall a, (forall f, is_Some (lv' !! f) -> ~ (f <= a < f + PAGE_SIZE)) -> phys s' a = phys s a).
Proof.
  intros Hp0 Hr Hpa Hpe Hwf Hp Hroom.
  destruct (VmmMapMemoryInternal_run p pa va n Rights Invalidate Unc s d lv) as (s'&d'&lv'&W&[E P L _ U]); try done.
  exists s', d', lv'. split; [done|]. destruct E. split_and!; try done.
  - intros v. rewrite P. unfold map_meaning, range_pte. cbv zeta. destruct (page_index_from va v <? n); [|done].
    by destruct Invalidate, (pte (phys s) (BasePhysicalAddress d) v).
  - intros i Hi Hw. apply L; [done|]. unfold written. destruct Hw as [->| ->]; [done|apply orb_true_r].
Qed.

(** C14: VmmUnmapMemoryEx returns, every page of the range is unmapped afterwards and every other page keeps its
    meaning; with ReleaseMemory exactly the frames that were mapped are queued for the zero worker, in the order of the
    pages, and its event is signalled when there is one; each page that was mapped is invalidated in the TLB. *)
Theorem paging_unmap_range va n Release s d lv : range_ok va n -> wf_tables s d lv ->
  (length (released va Release s d n) <= special_room s)%nat ->
  exists s', VmmUnmapMemoryEx (BasePhysicalAddress d) va (n * PAGE_SIZE) Release s = Ok (tt, s') /\
    wf_tables s' d lv /\ paging s' = paging s /\
    (forall v, pte (phys s') (BasePhysicalAddress d) v =
       if page_index_from va v <? n then None else pte (phys s) (BasePhysicalAddress d) v) /\
    PagesToZeroList s' = PagesToZeroList s ++ released va Release s d n /\
    (released va Release s d n <> [] -> NewPagesEvent s' = true) /\
    (forall i, 0 <= i < n -> is_Some (pte (phys s) (BasePhysicalAddress d) (va + i * PAGE_SIZE)) ->
       va + i * PAGE_SIZE ∈ tlb_invalidated s').
Proof.
  intros Hr Hwf Hroom. destruct (VmmUnmapMemoryEx_run va n Release s d lv Hr Hwf Hroom) as (s'&W&[]).
  exists s'. split; [done|]. split_and!; try done; [by destruct_and?|].
  intros Hne. rewrite up_event0, bool_decide_eq_false_2 by done. apply orb_true_r.
Qed.

(** C15: translation reads back what mapping wrote: after a range is mapped with Invalidate, VmmGetPhysicalAddressEx of
    each of its pages returns the frame it was mapped to, with the accessed and dirty bits clear, and changes nothing when
    neither bit is asked for. *)
Theorem paging_map_translate p pa va n Rights Unc s d lv i : p <> 0 -> range_ok va n ->
  phys_ok pa -> pa + n * PAGE_SIZE <= 2 ^ MAXPHYADDR -> wf_tables s d lv -> paging s !! p = Some d ->
  CurrentIndex d + missing (phys s) (BasePhysicalAddress d) va + crossings va (va + (n - 1) * PAGE_SIZE) <= NumberOfFrames d ->
  0 <= i < n ->
  exists s', VmmMapMemoryInternal p pa (n * PAGE_SIZE) va Rights true Unc s = Ok (tt, s') /\
    VmmGetPhysicalAddressEx (BasePhysicalAddress d) (va + i * PAGE_SIZE) false false s' =
      Ok ((pa + i * PAGE_SIZE, false, false), s').
Proof.
  intros Hp0 Hr Hpa Hpe Hwf Hp Hroom Hi.
  destruct (VmmMapMemoryInternal_run p pa va n Rights true Unc s d lv) as (s'&d'&lv'&W&[E P _ _ _]); try done.
  exists s'. split; [done|]. destruct (ev_data _ _ _ _ _ _ _ E) as (Eb&_&_). pose proof (ro_count _ _ Hr).
  destruct (range_offset va n i Hr Hi) as (_&_&Hnz).
  destruct (VmmGetPhysicalAddressEx_run false false (va + i * PAGE_SIZE) Hnz s' d' lv' (ev_wf _ _ _ _ _ _ _ E)) as (r&t&R&Hret).
  { destruct Hr. unfold PAGE_SIZE in *. rlia. } { destruct Hr. by rewrite Z.mod_add. }
  rewrite Eb in R. rewrite R. specialize (P (va + i * PAGE_SIZE)). unfold map_meaning in P.
  rewrite page_index_self, (proj2 (Z.ltb_lt i n)) in P by lia.
  unfold retrieved in Hret. rewrite Eb in Hret. unfold pte in P.
  destruct (leaf (phys s') (BasePhysicalAddress d) (va + i * PAGE_SIZE)) as [a|]; [|done]. cbn [mbind option_bind] in P.
  destruct (PteIsPresent (phys s' a)); [|done]. injection P as P. destruct Hret as (->&_&->&_); [|done..].
  destruct Hpa as [[? ?] ?].
  destruct (PteMap_fields (pa + i * PAGE_SIZE) (leaf_flags s d Rights Unc)) as (_&_&E1&_&_&_&E2&E3&_).
  { destruct (map_phys_ok pa va n Hr) with (j := i) as [? _]; done. }
  rewrite P. unfold range_pte. by rewrite E1, E2, E3.
Qed.

Lemma round_up_aligned a : a mod PAGE_SIZE = 0 -> round_up a = a.
Proof.
  intros E. unfold round_up. pose proof (Z.div_mod a PAGE_SIZE ltac:(done)) as H. rewrite E, Z.add_0_r in H.
  replace (a + PAGE_SIZE - 1) with (a / PAGE_SIZE * PAGE_SIZE + (PAGE_SIZE - 1)) by lia.
  rewrite Z.div_add_l by done. change ((PAGE_SIZE - 1) / PAGE_SIZE) with 0. lia.
Qed.

Lemma AddressOffset_page a : is_qword a -> AddressOffset a PAGE_SIZE = a mod PAGE_SIZE.
Proof.
  intros Ha. unfold AddressOffset. rewrite (u64_small a) by done. change (u64 (PAGE_SIZE - 1)) with (Z.ones 12).
  by rewrite Z.land_ones.
Qed.

(** The address that MmuGetPhysicalAddressEx returns, mapped or not. *)
Lemma MmuGetPhysicalAddressEx_run va p s d lv : wf_tables s d lv -> paging s !! p = Some d -> p <> 0 ->
  PAGE_SIZE <= va < 2 ^ 64 ->
  MmuGetPhysicalAddressEx va p NULL s =
  Ok (default 0 (translate (phys s) (BasePhysicalAddress d) va) + va mod PAGE_SIZE, s).
Proof.
  intros Hwf Hp Hp0 Hva. assert (Hq : is_qword va) by (unfold PAGE_SIZE in *; rlia).
  pose proof (Z.mod_pos_bound va PAGE_SIZE ltac:(done)) as Hm. pose proof (Z.div_mod va PAGE_SIZE ltac:(done)) as Hd.
  set (b := va - va mod PAGE_SIZE). assert (Hb : b = PAGE_SIZE * (va / PAGE_SIZE)) by lia.
  unfold MmuGetPhysicalAddressEx. replace (NULL =? va) with false by (unfold NULL, PAGE_SIZE in *; lia).
  rewrite (bind_run _ _ _ tt s) by (apply ASSERT_run; by replace (p =? NULL) with false by (unfold NULL; lia)).
  replace (p =? NULL) with false by (unfold NULL; lia). cbn [negb].
  rewrite (bind_run _ _ _ (BasePhysicalAddress d) s)
    by (rewrite (bind_run _ _ _ d s); [done|unfold get_paging; by rewrite Hp]).
  rewrite AlignAddressLower_page, AddressOffset_page by done. fold b. rewrite u32_small by (unfold PAGE_SIZE in *; rlia).
  destruct (VmmGetPhysicalAddressEx_run false false b) with (s := s) (d := d) (lv := lv) as (r&t&R&Hret); try done.
  { unfold PAGE_SIZE in *. lia. } { unfold PAGE_SIZE in *. rlia. } { rewrite Hb, Z.mul_comm. by apply Z.mod_mul. }
  rewrite (bind_run _ _ _ _ _ R).
  assert (Hkey : page_key va = page_key b).
  { unfold page_key. rewrite Hb, (Z.mul_comm PAGE_SIZE), Z.div_mul by done. done. }
  unfold translate. rewrite (pte_same_key _ _ _ _ Hkey). unfold pte, retrieved in *.
  destruct (leaf (phys s) (BasePhysicalAddress d) b) as [a|]; cbn [mbind option_bind] in *.
  2:{ destruct Hret as [-> ->]. cbn [fst]. rewrite u64_small; [done|]. unfold NULL, PAGE_SIZE in *. rlia. }
  destruct (PteIsPresent (phys s a)).
  2:{ destruct Hret as [-> ->]. cbn [fst]. rewrite u64_small; [done|]. unfold NULL, PAGE_SIZE in *. rlia. }
  destruct Hret as (->&_&->&_); [|done..]. cbn [fst default fmap option_fmap option_map].
  destruct (PteGetPhysicalAddress_ok (phys s a)) as [? _]. rewrite u64_small; [done|].
  unfold MAXPHYADDR, PAGE_SIZE in *. rlia.
Qed.

(** MmuGetPhysicalAddressEx adds the offset within the page without testing the translation: for an address that is not mapped
    and not page-aligned it returns the offset, not NULL. *)
Theorem mmu_unmapped_address_not_null va p s d lv : wf_tables s d lv -> paging s !! p = Some d -> p <> 0 ->
  PAGE_SIZE <= va < 2 ^ 64 -> va mod PAGE_SIZE <> 0 -> pte (phys s) (BasePhysicalAddress d) va = None ->
  exists r, MmuGetPhysicalAddressEx va p NULL s = Ok (r, s) /\ r = va mod PAGE_SIZE /\ r <> NULL.
Proof.
  intros Hwf Hp Hp0 Hva Hm Hn. exists (va mod PAGE_SIZE). split; [|done].
  rewrite (MmuGetPhysicalAddressEx_run va p s d lv) by done. unfold translate. by rewrite Hn.
Qed.

(** MmuUnmapMemoryEx keeps the aligned size in a DWORD: asked to unmap a multiple of 4 GB it unmaps nothing
    and releases nothing. *)
Theorem mmu_unmap_size_truncated kernel va k Release PagingData s d :
  0 < va -> is_qword va -> va mod PAGE_SIZE = 0 -> 0 < k < 2 ^ 32 ->
  paging s !! select_paging kernel PagingData = Some d ->
  MmuUnmapMemoryEx kernel va (k * 2 ^ 32) Release PagingData s = Ok (tt, s).
Proof.
  intros Hva Hq Hal Hk Hp. unfold MmuUnmapMemoryEx.
  rewrite (bind_run _ _ _ tt s) by (apply ASSERT_run; unfold NULL; lia).
  rewrite (bind_run _ _ _ tt s) by (apply ASSERT_run; lia).
  assert (Elow : AlignAddressLower va PAGE_SIZE = va) by (rewrite AlignAddressLower_page by done; lia).
  rewrite Elow. rewrite Z.sub_diag. change (u32 0) with 0. rewrite Z.add_0_r.
  assert (Hpos : PAGE_SIZE * (k * 2 ^ 20) = k * 2 ^ 32) by (unfold PAGE_SIZE; lia).
  assert (Eup : AlignAddressUpper (u64 (k * 2 ^ 32)) PAGE_SIZE = u64 (k * 2 ^ 32)).
  { rewrite u64_small by rlia. rewrite AlignAddressUpper_round_up by (unfold PAGE_SIZE; lia).
    apply round_up_aligned. rewrite <- Hpos, Z.mul_comm. by apply Z.mod_mul. }
  rewrite Eup, (u64_small (k * 2 ^ 32)) by rlia.
  assert (Ez : u32 (k * 2 ^ 32) = 0) by (unfold u32; by apply Z.mod_mul).
  rewrite Ez. rewrite (bind_run _ _ _ d s) by (unfold get_paging; by rewrite Hp).
  unfold VmmUnmapMemoryEx. destruct (_ || _); reflexivity.
Qed.

(** VmmSetupPageTables for a new address space: the structures of the new space are mapped at their PA2VA
    addresses in the space they are built from, and the new space is well-formed, empty (no page of it is mapped) and has
    all its frames but the PML4 available. *)
Theorem paging_setup w p base N kernel s d lv : w <> p -> w <> 0 -> p <> 0 -> base <> 0 -> phys_ok base ->
  0 < N -> N * PAGE_SIZE < 2 ^ 32 -> base + N * PAGE_SIZE <= 2 ^ MAXPHYADDR ->
  base + N * PAGE_SIZE + gVirtualToPhysicalOffset s <= 2 ^ 64 -> gVirtualToPhysicalOffset s mod PAGE_SIZE = 0 ->
  wf_tables s d lv -> paging s !! w = Some d -> outside lv base (N * PAGE_SIZE) ->
  (forall i, CurrentIndex d <= i < NumberOfFrames d -> BasePhysicalAddress d + (i + 1) * PAGE_SIZE <= base \/
     base + N * PAGE_SIZE <= BasePhysicalAddress d + i * PAGE_SIZE) ->
  let va := PA2VA s base in
  CurrentIndex d + missing (phys s) (BasePhysicalAddress d) va + crossings va (va + (N - 1) * PAGE_SIZE) <= NumberOfFrames d ->
  exists s' d' lv', VmmSetupPageTables w p base N kernel s = Ok (STATUS_SUCCESS, s') /\
    paging s' !! p = Some (mkPAGING base N 1 kernel) /\
    wf_tables s' (mkPAGING base N 1 kernel) {[base := 1]} /\ (forall v, pte (phys s') base v = None) /\
    paging s' !! w = Some d' /\ wf_tables s' d' lv' /\
    (forall i, 0 <= i < N -> pte (phys s') (BasePhysicalAddress d) (va + i * PAGE_SIZE) =
       Some (PteMap (base + i * PAGE_SIZE) (leaf_flags s d PAGE_RIGHTS_READWRITE false))).
Proof.
  intros Hwp Hw0 Hp0 Hb0 Hb HN HN32 Hend Hva Hgal Hwf Hw Hout Hpool va Hroom.
  pose proof (wt_offset _ _ _ Hwf) as Hg. pose proof Hb as [[Hb1 Hb2] Hb3].
  assert (Eva : va = base + gVirtualToPhysicalOffset s).
  { unfold va, PA2VA. rewrite u64_small; [done|]. unfold PAGE_SIZE in *. rlia. }
  set (dp := mkPAGING base N 1 kernel). set (s1 := mkVmm (phys s) (<[p := dp]> (paging s)) (WriteBackIndex s)
    (UncacheableIndex s) (gVirtualToPhysicalOffset s) (PagesToZeroList s) (NewPagesEvent s) (special_room s) (tlb_invalidated s)).
  assert (Hwf1 : wf_tables s1 d lv) by (by apply (wf_same_inner s d lv Hwf (phys s))).
  assert (Hr : range_ok va N).
  { split; rewrite ?Eva; [lia| |unfold PAGE_SIZE in *; lia|lia]. rewrite Zplus_mod, Hb3, Hgal. done. }
  destruct (VmmMapMemoryInternal_run w base va N PAGE_RIGHTS_READWRITE true false s1 d lv) as (s2&d2&lv2&W&[E P _ _ _]);
    try done. { by subst s1; cbn; rewrite lookup_insert_ne. }
  destruct (ev_rest _ _ _ _ _ _ _ E) as (_&_&Eg&_). destruct (ev_data _ _ _ _ _ _ _ E) as (Ebase&_&_).
  assert (EVA : VA2PA s2 va = base).
  { unfold VA2PA. rewrite Eg. cbn. rewrite Eva, Z.add_simpl_r. apply u64_small. unfold MAXPHYADDR in *. rlia. }
  assert (Hout2 : outside lv2 base PAGE_SIZE).
  { intros f Hf. destruct (ev_new _ _ _ _ _ _ _ E f Hf) as [Hold|(i&Hi&->)].
    - destruct (Hout f Hold); unfold PAGE_SIZE in *; lia.
    - pose proof (wt_index _ _ _ (ev_wf _ _ _ _ _ _ _ E)). destruct (ev_data _ _ _ _ _ _ _ E) as (_&En&_).
      destruct (Hpool i ltac:(lia)); unfold PAGE_SIZE in *; lia. }
  set (s3 := set_phys (zero_range (phys s2) base PAGE_SIZE) s2).
  assert (Hag : forall f x, is_Some (lv2 !! f) -> f <= x < f + PAGE_SIZE -> phys s3 x = phys s2 x)
    by (intros f x Hf Hx; by apply (zero_outside lv2 _ _ _ f)).
  destruct (wf_empty s3 dp) as [Hwf3 Hnone]; [done|change (0 < gVirtualToPhysicalOffset s2 < 2 ^ 64); by rewrite Eg|done|cbn; lia|done|done| |
    intros x Hx; by apply zero_range_in|].
  { change (base + N * PAGE_SIZE + gVirtualToPhysicalOffset s2 <= 2 ^ 64). by rewrite Eg. }
  exists s3, d2, lv2. split; [|split; [|split; [done|split; [done|split; [|split]]]]].
  - unfold VmmSetupPageTables. rewrite (bind_run _ _ _ tt s) by (apply ASSERT_run; unfold NULL; lia).
    do 3 rewrite (bind_run _ _ _ tt s) by (apply ASSERT_run; unfold NULL; lia).
    rewrite (bind_run _ _ _ va s) by done.
    rewrite (bind_run _ _ _ tt s) by (apply ASSERT_run; change (MAX_DWORD / PAGE_SIZE) with 0xFFFFF; unfold PAGE_SIZE in *; lia).
    rewrite (bind_run _ _ _ tt s1) by done. rewrite u32_small by (unfold PAGE_SIZE in *; rlia).
    rewrite (bind_run _ _ _ tt s2) by done. replace (w =? p) with false by lia. cbn [negb].
    rewrite (bind_run _ _ _ tt s3); [done|]. unfold memzero, modify. by rewrite EVA.
  - change (paging s3) with (paging s2). rewrite (ev_paging _ _ _ _ _ _ _ E). rewrite lookup_insert_ne by done.
    cbn. apply lookup_insert_eq.
  - change (paging s3) with (paging s2). by eapply evolves_get.
  - eapply (wf_same_inner s2 d2 lv2); [apply E|by eapply agree_inner|done|done].
  - intros i Hi. rewrite <- Ebase. rewrite (agree_pte s2 d2 lv2 (ev_wf _ _ _ _ _ _ _ E) _ Hag), Ebase, P.
    unfold map_meaning. pose proof (ro_count _ _ Hr). by rewrite page_index_self, (proj2 (Z.ltb_lt i N)) by lia.
Qed.

(** * A concrete address space

    The PML4 of the kernel at 1 MB, eight frames for structures, nothing mapped. *)
Definition demo_data : PAGING_DATA := mkPAGING 0x100000 8 1 true.
Definition demo_kernel : Z := 0xA000.
Definition demo_vmm : Vmm :=
  mkVmm (fun _ => 0) {[demo_kernel := demo_data]} 0 3 0xFFFF800000000000 [] false 4 [].
Definition demo_levels : gmap Z Z := {[0x100000 := 1]}.
Definition demo_va : Z := 0xFFFF900000000000.

Lemma demo_tables_wf : wf_tables demo_vmm demo_data demo_levels.
Proof. by apply wf_empty. Qed.

Lemma demo_range : range_ok demo_va 2.
Proof. split; unfold demo_va, PAGE_SIZE; (reflexivity || lia). Qed.

Lemma demo_room : CurrentIndex demo_data + missing (phys demo_vmm) (BasePhysicalAddress demo_data) demo_va +
  crossings demo_va (demo_va + (2 - 1) * PAGE_SIZE) <= NumberOfFrames demo_data.
Proof. vm_compute. discriminate. Qed.

Lemma demo_phys_ok : phys_ok 0x7000.
Proof. split; [unfold MAXPHYADDR; lia|done]. Qed.

Lemma paging_walk_terminates_witness :
  _VmWalkPagingTables id (fun _ _ _ => ret true) 0x100000 demo_va 0x2000 demo_vmm <> Err NoFuel.
Proof. apply (paging_walk_terminates id); [intros; discriminate|]. unfold PAGE_SIZE. lia. Defined.

Lemma paging_map_range_witness :
  exists s', VmmMapMemoryInternal demo_kernel 0x7000 0x2000 demo_va PAGE_RIGHTS_READWRITE true false demo_vmm = Ok (tt, s') /\
    translate (phys s') 0x100000 (demo_va + 0x1000) = Some 0x8000 /\
    translate (phys s') 0x100000 (demo_va + 0x2000) = None.
Proof.
  destruct (paging_map_range demo_kernel 0x7000 demo_va 2 PAGE_RIGHTS_READWRITE true false demo_vmm demo_data demo_levels)
    as (s'&d'&lv'&E&_&_&P&_); [done|apply demo_range|apply demo_phys_ok|done|apply demo_tables_wf|reflexivity|apply demo_room|].
  exists s'. split; [exact E|]. unfold translate.
  change 0x100000 with (BasePhysicalAddress demo_data). rewrite !P. split; reflexivity.
Defined.

Lemma paging_map_translate_witness :
  exists s', VmmMapMemoryInternal demo_kernel 0x7000 0x2000 demo_va PAGE_RIGHTS_READWRITE true false demo_vmm = Ok (tt, s') /\
    VmmGetPhysicalAddressEx 0x100000 (demo_va + 0x1000) false false s' = Ok ((0x8000, false, false), s').
Proof.
  apply (paging_map_translate demo_kernel 0x7000 demo_va 2 PAGE_RIGHTS_READWRITE false demo_vmm demo_data demo_levels 1);
    [done|apply demo_range|apply demo_phys_ok|done|apply demo_tables_wf|reflexivity|apply demo_room|lia].
Defined.

(** The same space with the first two pages mapped. *)
Definition demo_mapped : Vmm :=
  match VmmMapMemoryInternal demo_kernel 0x7000 0x2000 demo_va PAGE_RIGHTS_READWRITE true false demo_vmm with
  | Ok (_, s) => s
  | Err _ => demo_vmm
  end.

Lemma demo_mapped_wf : exists d lv, wf_tables demo_mapped d lv /\ paging demo_mapped !! demo_kernel = Some d /\
  BasePhysicalAddress d = 0x100000.
Proof.
  destruct (VmmMapMemoryInternal_run demo_kernel 0x7000 demo_va 2 PAGE_RIGHTS_READWRITE true false demo_vmm demo_data demo_levels)
    as (s'&d'&lv'&E&[Ev _ _ _ _]);
    [done|apply demo_range|apply demo_phys_ok|done|apply demo_tables_wf|reflexivity|apply demo_room|].
  assert (demo_mapped = s') as ->.
  { unfold demo_mapped. change 0x2000 with (2 * PAGE_SIZE). by rewrite E. }
  exists d', lv'. split; [apply Ev|]. split; [by eapply evolves_get|]. by destruct (ev_data _ _ _ _ _ _ _ Ev).
Qed.

Lemma paging_unmap_range_witness :
  exists s', VmmUnmapMemoryEx 0x100000 demo_va 0x2000 true demo_mapped = Ok (tt, s') /\
    PagesToZeroList s' = [mkITEM 0x7000 1; mkITEM 0x8000 1] /\ NewPagesEvent s' = true /\
    translate (phys s') 0x100000 demo_va = None.
Proof.
  destruct demo_mapped_wf as (d&lv&Hwf&_&Hb).
  assert (Hrel : released demo_va true demo_mapped d 2 = [mkITEM 0x7000 1; mkITEM 0x8000 1]).
  { unfold released. rewrite Hb. vm_compute. reflexivity. }
  destruct (paging_unmap_range demo_va 2 true demo_mapped d lv demo_range Hwf) as (s'&E&_&_&P&I&V&_).
  { rewrite Hrel. vm_compute. lia. }
  rewrite Hb, Hrel in *. exists s'. split; [exact E|]. split; [exact I|]. split; [by apply V|].
  unfold translate. rewrite P. reflexivity.
Defined.

Lemma mmu_unmap_size_truncated_witness :
  MmuUnmapMemoryEx demo_kernel demo_va (1 * 2 ^ 32) true NULL demo_mapped = Ok (tt, demo_mapped) /\
  translate (phys demo_mapped) 0x100000 demo_va = Some 0x7000.
Proof.
  destruct demo_mapped_wf as (d&lv&_&Hp&_). split; [|vm_compute; reflexivity].
  apply (mmu_unmap_size_truncated demo_kernel demo_va 1 true NULL demo_mapped d);
    [done|unfold demo_va; rlia|reflexivity|lia|exact Hp].
Defined.

Lemma mmu_unmapped_address_not_null_witness :
  exists r, MmuGetPhysicalAddressEx 0x400010 demo_kernel NULL demo_vmm = Ok (r, demo_vmm) /\ r = 0x10 /\ r <> NULL.
Proof.
  apply (mmu_unmapped_address_not_null 0x400010 demo_kernel demo_vmm demo_data demo_levels);
    [apply demo_tables_wf|reflexivity|done|unfold PAGE_SIZE; lia|done|reflexivity].
Defined.

Lemma paging_setup_witness :
  exists s', VmmSetupPageTables demo_kernel 0xB000 0x200000 4 false demo_vmm = Ok (STATUS_SUCCESS, s') /\
    (forall v, pte (phys s') 0x200000 v = None) /\
    translate (phys s') 0x100000 (0xFFFF800000000000 + 0x200000) = Some 0x200000.
Proof.
  destruct (paging_setup demo_kernel 0xB000 0x200000 4 false demo_vmm demo_data demo_levels) as (s'&d'&lv'&E&_&_&N&_&_&P).
  1-4: discriminate.
  - unfold phys_ok, MAXPHYADDR. split; [lia|reflexivity].
  - lia.
  - unfold PAGE_SIZE. lia.
  - unfold PAGE_SIZE, MAXPHYADDR. lia.
  - cbn. unfold PAGE_SIZE. lia.
  - reflexivity.
  - apply demo_tables_wf.
  - reflexivity.
  - intros f [l Hl]. unfold demo_levels in Hl. apply lookup_singleton_Some in Hl as [<- _]. left. unfold PAGE_SIZE. lia.
  - intros i Hi. left. unfold demo_data, PAGE_SIZE in *. cbn in *. lia.
  - vm_compute. discriminate.
  - exists s'. split; [exact E|]. split; [exact N|]. unfold translate.
    specialize (P 0 ltac:(lia)). rewrite Z.mul_0_l, Z.add_0_r in P. change 0x100000 with (BasePhysicalAddress demo_data).
    change (0xFFFF800000000000 + 0x200000) with (PA2VA demo_vmm 0x200000). rewrite P. reflexivity.
Defined.
