(* ===== verification/PageFault.v ===== *)
(** HAL9000/src/vmm.c and mmu.c: page faults, regions and buffer checks, where the physical memory manager
    ([Pmm]), the reservation spaces ([VmReservation]) and the paging structures ([Paging]) work together.

    The state holds the three components: the paging state, the physical memory manager, the kernel's reservation
    space (m_vmmData.VmmReservationSpace) and that of the current process.  Data written through a virtual address reaches
    memory by the translation of the paging structures in use; an address they do not map is a [MemFault].  The file system is a
    parameter: [IoReadFile file offset size] is the status of the read and the bytes it delivers. *)
From S2P Require Import Prelude IntUtils ClMemory Bitmap Pmm Pte.
From S2P Require Import VmReservation Paging PagingOps.

Record Kmem := mkKmem {
  km_vmm : Vmm; km_pmm : Pmm; km_kernel : Vm; km_process : Vm;
  km_intr_off : bool;             (* INTR_OFF == CpuIntrGetState() *)
  km_PageFaults : option Z }.     (* pCpu->PageFaults; None when there is no PCPU *)

Definition with_vmm (v : Vmm) (s : Kmem) : Kmem :=
  mkKmem v (km_pmm s) (km_kernel s) (km_process s) (km_intr_off s) (km_PageFaults s).
Definition with_pmm (v : Pmm) (s : Kmem) : Kmem :=
  mkKmem (km_vmm s) v (km_kernel s) (km_process s) (km_intr_off s) (km_PageFaults s).
Definition vmm_ {A} (m : M Vmm A) : M Kmem A := zoom km_vmm with_vmm m.
Definition pmm_ {A} (m : M Pmm A) : M Kmem A := zoom km_pmm with_pmm m.

(** A reservation space: the kernel's or that of the current process. *)
Inductive va_space : Set := KernelSpace_ | ProcessSpace.
Definition space_of (w : va_space) (s : Kmem) : Vm :=
  match w with KernelSpace_ => km_kernel s | ProcessSpace => km_process s end.
Definition with_space (w : va_space) (v : Vm) (s : Kmem) : Kmem :=
  match w with
  | KernelSpace_ => mkKmem (km_vmm s) (km_pmm s) v (km_process s) (km_intr_off s) (km_PageFaults s)
  | ProcessSpace => mkKmem (km_vmm s) (km_pmm s) (km_kernel s) v (km_intr_off s) (km_PageFaults s)
  end.
Definition space_ {A} (w : va_space) (m : M Vm A) : M Kmem A := zoom (space_of w) (with_space w) m.

(** * Memory accessed through virtual addresses *)
Definition byte_field (a : Z) : field := mkField (8 * (a mod 8)) 8.
Definition read_byte (m : Z -> Z) (a : Z) : Z := getf (byte_field a) (m (a - a mod 8)).
Definition write_byte (m : Z -> Z) (a v : Z) : Z -> Z :=
  upd m (a - a mod 8) (setf (byte_field a) v (m (a - a mod 8))).

Fixpoint virt_write (root va : Z) (l : list Z) : M Vmm unit :=
  match l with
  | [] => ret tt
  | b :: l' =>
    s ← getS;
    pa ← lift (of_option (translate (phys s) root va));
    _ ← modify (fun s => set_phys (write_byte (phys s) (pa + va mod PAGE_SIZE) b) s);
    virt_write root (va + 1) l'
  end.
Definition zeros (n : Z) : list Z := replicate (Z.to_nat n) 0.

(** * Kernel and user addresses *)
Definition _VmIsKernelAddress (Address : Z) : bool :=
  IsBooleanFlagOn Address (Z.shiftl 1 VA_HIGHEST_VALID_BIT).
Definition _VmIsKernelRange (Address RangeSize : Z) : outcome bool :=
  _ ← assert_ (negb (RangeSize =? 0));
  mret (_VmIsKernelAddress Address || _VmIsKernelAddress (PtrOffset Address (u64 (RangeSize - 1)))).
Definition _VmmRetrieveReservationSpaceForAddress (VirtualAddress : Z) : va_space :=
  if _VmIsKernelAddress VirtualAddress then KernelSpace_ else ProcessSpace.

Section Files.
Context (IoReadFile : Z -> Z -> Z -> Z * list Z).   (* file, offset, size *)

(** * Page faults *)
Definition count_fault : M Kmem unit := modify (fun s =>
  mkKmem (km_vmm s) (km_pmm s) (km_kernel s) (km_process s) (km_intr_off s)
    ((fun n => u64 (n + 1)) <$> km_PageFaults s)).

Definition VmmSolvePageFault (FaultingAddress RightsRequested PagingData : Z) : M Kmem bool :=
  intr ← gets km_intr_off;
  _ ← ASSERT intr;
  _ ← ASSERT (negb (PagingData =? NULL));
  if NULL =? AlignAddressLower FaultingAddress PAGE_SIZE then ret false else
  let bKernelAddress := _VmIsKernelAddress FaultingAddress in
  d ← vmm_ (get_paging PagingData);
  if bKernelAddress && negb (KernelSpace d) then ret false else
  if negb bKernelAddress && KernelSpace d then ret false else
  access ← space_ (_VmmRetrieveReservationSpaceForAddress FaultingAddress)
             (VmReservationCanAddressBeAccessed FaultingAddress RightsRequested);
  match access with
  | None => ret false
  | Some (pageRights, uncacheable, pBackingFile, fileOffset) =>
    pa ← pmm_ (PmmReserveMemory 1);
    _ ← ASSERT (negb (NULL =? pa));
    let alignedAddress := AlignAddressLower FaultingAddress PAGE_SIZE in
    _ ← vmm_ (MmuMapMemoryInternal NULL pa PAGE_SIZE pageRights alignedAddress true uncacheable PagingData);
    let '(status, bytes) :=
      if negb (pBackingFile =? NULL) then IoReadFile pBackingFile fileOffset PAGE_SIZE else (STATUS_SUCCESS, []) in
    _ ← vmm_ (virt_write (BasePhysicalAddress d) alignedAddress bytes);
    if negb (SUCCEEDED status) then ret false else
    let bytesReadFromFile := Z.of_nat (length bytes) in
    _ ← ASSERT (bytesReadFromFile <=? PAGE_SIZE);
    _ ← (if negb (bytesReadFromFile =? PAGE_SIZE)
         then vmm_ (virt_write (BasePhysicalAddress d) (alignedAddress + bytesReadFromFile)
                      (zeros (PAGE_SIZE - bytesReadFromFile)))
         else ret tt);
    _ ← count_fault;
    ret true
  end.

(** The bits of PAGE_FAULT_ERR_CODE. *)
Definition pf_Write : field := mkField 1 1.
Definition pf_Usermode : field := mkField 2 1.
Definition pf_Execution : field := mkField 4 1.
Definition PAGE_RIGHTS_READ : Z := 0.

(** [kernel] is &m_mmuData.PagingData, [process] is GetCurrentThread()->Process->PagingData. *)
Definition MmuSolvePageFault (kernel process FaultingAddress ErrorCode : Z) : M Kmem bool :=
  intr ← gets km_intr_off;
  _ ← ASSERT intr;
  let rightsRequested := Z.lor (Z.lor PAGE_RIGHTS_READ (if getf pf_Write ErrorCode =? 1 then PAGE_RIGHTS_WRITE else 0))
                           (if getf pf_Execution ErrorCode =? 1 then PAGE_RIGHTS_EXECUTE else 0) in
  VmmSolvePageFault FaultingAddress rightsRequested (if getf pf_Usermode ErrorCode =? 1 then process else kernel).

(** * Regions *)
Definition VMM_ALLOC_TYPE_NOT_LAZY : Z := 0x4.
Definition VMM_ALLOC_TYPE_ZERO : Z := 0x8.
Record MDL_TRANSLATION_PAIR := mkPAIR { pair_Address : Z; pair_NumberOfBytes : Z }.
Record MDL := mkMDL {
  mdl_StartVa : Z; mdl_ByteOffset : Z; mdl_ByteCount : Z; mdl_Translations : list MDL_TRANSLATION_PAIR }.

Fixpoint map_pairs (kernel Base currentOffset : Z) (pairs : list MDL_TRANSLATION_PAIR) (Rights PagingData : Z)
    : M Vmm unit :=
  match pairs with
  | [] => ret tt
  | mkPAIR Address NumberOfBytes :: pairs' =>
    let alignedPa := AlignAddressLower Address PAGE_SIZE in
    let alignedPaSize := AlignAddressUpper (u64 (NumberOfBytes + AddressOffset Address PAGE_SIZE)) PAGE_SIZE in
    _ ← MmuMapMemoryInternal kernel alignedPa alignedPaSize Rights (PtrOffset Base currentOffset) false false PagingData;
    map_pairs kernel Base (u64 (currentOffset + alignedPaSize)) pairs' Rights PagingData
  end.
Definition _VmmMapDescribedRegion (kernel Base : Z) (Mdl : MDL) (Rights PagingData : Z) : M Vmm unit :=
  _ ← ASSERT (negb (Base =? NULL));
  _ ← ASSERT (IsAddressAligned Base PAGE_SIZE);
  map_pairs kernel Base 0 (mdl_Translations Mdl) Rights PagingData.

(** The part under VMM_ALLOC_TYPE_NOT_LAZY: the status and [pa]. *)
Definition alloc_backing (kernel root pBaseAddress alignedSize AllocType Rights : Z) (Uncacheable_ : bool)
    (FileObject PagingData : Z) (Mdl : option MDL) : M Kmem (Z * Z) :=
  _ ← ASSERT (IsBooleanFlagOn AllocType VMM_ALLOC_TYPE_COMMIT);
  match Mdl with
  | Some mdl =>
    _ ← ASSERT (mdl_ByteCount mdl <=? alignedSize);
    _ ← vmm_ (_VmmMapDescribedRegion kernel pBaseAddress mdl Rights PagingData);
    ret (STATUS_SUCCESS, NULL)
  | None =>
    _ ← ASSERT (alignedSize / PAGE_SIZE <=? MAX_DWORD);
    let noOfFrames := u32 (alignedSize / PAGE_SIZE) in
    pa ← pmm_ (PmmReserveMemory noOfFrames);
    if NULL =? pa then ret (STATUS_SUCCESS, pa) else      (* __leave: status is still STATUS_SUCCESS *)
    _ ← vmm_ (MmuMapMemoryInternal kernel pa alignedSize Rights pBaseAddress true Uncacheable_ PagingData);
    if negb (FileObject =? NULL) then
      let '(status, bytes) := IoReadFile FileObject 0 alignedSize in
      _ ← vmm_ (virt_write root pBaseAddress bytes);
      if negb (SUCCEEDED status) then ret (status, pa) else
      let bytesRead := Z.of_nat (length bytes) in
      _ ← ASSERT (u64 (alignedSize - bytesRead) <=? MAX_DWORD);
      _ ← vmm_ (virt_write root (pBaseAddress + bytesRead) (zeros (u32 (alignedSize - bytesRead))));
      ret (status, pa)
    else ret (STATUS_SUCCESS, pa)
  end.

(** [root] is the PML4 in use while the call runs. *)
Definition VmmAllocRegionEx (kernel root Base Size AllocType Rights : Z) (Uncacheable_ : bool) (FileObject : Z)
    (VaSpace : va_space) (PagingData : Z) (Mdl : option MDL) : M Kmem Z :=
  _ ← ASSERT (negb (Size =? 0));
  _ ← ASSERT (IsFlagOn AllocType (Z.lor VMM_ALLOC_TYPE_COMMIT VMM_ALLOC_TYPE_RESERVE));
  _ ← ASSERT ((if Mdl is None then true else false) || IsBooleanFlagOn AllocType VMM_ALLOC_TYPE_NOT_LAZY);
  _ ← ASSERT (negb (IsBooleanFlagOn AllocType VMM_ALLOC_TYPE_ZERO));
  _ ← ASSERT ((if Mdl is None then true else false) || (FileObject =? NULL));
  '(status, mapped) ← space_ VaSpace (VmReservationSpaceAllocRegion Base Size AllocType Rights Uncacheable_ FileObject);
  match mapped with
  | None => ret NULL         (* the status is a failure; pBaseAddress and pa are NULL in the __finally block *)
  | Some (pBaseAddress, alignedSize) =>
    _ ← ASSERT (negb (NULL =? pBaseAddress));
    '(status, pa) ← (if IsBooleanFlagOn AllocType VMM_ALLOC_TYPE_NOT_LAZY
                     then alloc_backing kernel root pBaseAddress alignedSize AllocType Rights Uncacheable_ FileObject PagingData Mdl
                     else ret (status, NULL));
    if negb (SUCCEEDED status) then
      '(pAlignedAddress, alignedSize') ← space_ VaSpace (VmReservationSpaceFreeRegion pBaseAddress 0 VMM_FREE_TYPE_RELEASE);
      _ ← ASSERT (pAlignedAddress =? pBaseAddress);
      _ ← (if negb (pa =? NULL) then vmm_ (Paging.MmuUnmapMemoryEx kernel pAlignedAddress (u32 alignedSize') true PagingData)
           else ret tt);
      ret NULL
    else ret pBaseAddress
  end.

Definition VmmFreeRegionEx (kernel Address Size FreeType : Z) (Release : bool) (VaSpace : va_space) (PagingData : Z)
    : M Kmem unit :=
  let release := IsBooleanFlagOn FreeType VMM_FREE_TYPE_RELEASE in
  let decommit := IsBooleanFlagOn FreeType VMM_FREE_TYPE_DECOMMIT in
  _ ← ASSERT (negb (Address =? NULL));
  _ ← ASSERT (xorb release decommit);
  _ ← ASSERT ((release && (Size =? 0)) || (decommit && negb (Size =? 0)));
  '(alignedAddress, alignedSize) ← space_ VaSpace (VmReservationSpaceFreeRegion Address Size FreeType);
  if IsFlagOn FreeType (Z.lor VMM_FREE_TYPE_DECOMMIT VMM_FREE_TYPE_RELEASE) then
    _ ← ASSERT (negb (NULL =? alignedAddress));
    _ ← ASSERT (negb (0 =? alignedSize));
    vmm_ (Paging.MmuUnmapMemoryEx kernel alignedAddress alignedSize Release PagingData)
  else ret tt.

Definition VmmMapMemoryEx (PagingData PhysAddr Size Rights : Z) (Invalidate Unc : bool) : M Kmem Z :=
  if PagingData =? NULL then ret NULL else
  if negb (IsAddressAligned PhysAddr PAGE_SIZE) then ret NULL else
  if (0 =? Size) || negb (IsAddressAligned Size PAGE_SIZE) then ret NULL else
  pVirtualAddress ← space_ KernelSpace_ (VmReservationSpaceDetermineNextFreeVirtualAddress Size);
  _ ← ASSERT (IsAddressAligned pVirtualAddress PAGE_SIZE);
  _ ← vmm_ (VmmMapMemoryInternal PagingData PhysAddr Size pVirtualAddress Rights Invalidate Unc);
  ret pVirtualAddress.

Definition MmuMapMemoryEx (kernel PhysAddr Size Rights : Z) (Invalidate Unc : bool) (PagingData : Z) : M Kmem Z :=
  _ ← ASSERT (negb (Size =? 0));
  let alignedPhysicalAddress := AlignAddressLower PhysAddr PAGE_SIZE in
  let alignmentDifferences := u32 (AddressOffset PhysAddr PAGE_SIZE) in
  let alignedSize := AlignAddressUpper (u64 (Size + alignmentDifferences)) PAGE_SIZE in
  highest ← gets (fun s => PmmGetHighestPhysicalMemoryAddressPresent (km_pmm s));
  _ ← ASSERT (alignedPhysicalAddress <? u64 (PtrDiff highest alignedSize));
  pCurPointer ← VmmMapMemoryEx (select_paging kernel PagingData) alignedPhysicalAddress alignedSize Rights Invalidate Unc;
  if NULL =? pCurPointer then ret NULL else
  ret (PtrOffset pCurPointer alignmentDifferences).

(** * Buffers passed to the kernel *)
Definition VmmIsBufferValid (Buffer BufferSize RightsRequested : Z) (ReservationSpace : va_space)
    (KernelAccess : bool) : M Kmem Z :=
  _ ← ASSERT (negb (Buffer =? NULL));
  _ ← ASSERT (negb (BufferSize =? 0));
  kernelRange ← (if negb KernelAccess then lift (_VmIsKernelRange Buffer BufferSize) else ret false);
  if negb KernelAccess && kernelRange then ret STATUS_MEMORY_PREVENTS_USERMODE_ACCESS else
  '(status, rightsGranted) ← space_ ReservationSpace (VmReservationReturnRightsForAddress Buffer BufferSize);
  if negb (SUCCEEDED status) then ret status else
  match rightsGranted with
  | None => fail MemFault       (* an uninitialised variable would be read *)
  | Some r => if negb (IsBooleanFlagOn r RightsRequested) then ret STATUS_MEMORY_INSUFFICIENT_ACCESS_RIGHTS
              else ret STATUS_SUCCESS
  end.
End Files.

(** [process] is NULL or not; [ImageBase] and [ImageSize] are those of Process->HeaderInfo, [processKernel] is
    Process->PagingData->Data.KernelSpace. *)
Definition MmuIsBufferValid (Buffer BufferSize RightsRequested process ImageBase ImageSize : Z) (processKernel : bool)
    : M Kmem Z :=
  if Buffer =? NULL then ret STATUS_INVALID_PARAMETER1 else
  if BufferSize =? 0 then ret STATUS_INVALID_PARAMETER2 else
  if process =? NULL then ret STATUS_INVALID_PARAMETER4 else
  if (ImageBase <=? Buffer) && (Buffer <? PtrOffset ImageBase ImageSize) then ret STATUS_SUCCESS else
  VmmIsBufferValid Buffer BufferSize RightsRequested ProcessSpace processKernel.

(** * Writes through virtual addresses *)
Lemma byte_field_ok a : field_ok (byte_field a).
Proof. unfold field_ok, byte_field. cbn -[Z.mul Z.modulo]. pose proof (Z.mod_pos_bound a 8 ltac:(lia)). lia. Qed.

Lemma read_write_eq m a v : is_byte v -> read_byte (write_byte m a v) a = v.
Proof. intros Hv. unfold read_byte, write_byte. rewrite upd_eq. apply getf_setf; [apply byte_field_ok|done]. Qed.

Lemma read_write_ne m a b v : a <> b -> read_byte (write_byte m a v) b = read_byte m b.
Proof.
  intros Hne. unfold read_byte, write_byte. destruct (decide (b - b mod 8 = a - a mod 8)) as [E|E].
  - rewrite E, upd_eq. apply getf_setf_apart; [apply byte_field_ok..|].
    unfold fields_apart, byte_field. cbn -[Z.mul Z.modulo]. lia.
  - by rewrite upd_ne.
Qed.

Lemma set_phys_set_phys m m' s : set_phys m (set_phys m' s) = set_phys m s.
Proof. done. Qed.

Section VirtWrite.
Context (d : PAGING_DATA) (lv : gmap Z Z) (b pa : Z).
Abbreviation root := (BasePhysicalAddress d).
Context (Hb : b mod PAGE_SIZE = 0) (Hpa : phys_ok pa) (Hout : outside lv pa PAGE_SIZE).

Lemma page_key_in off : 0 <= off < PAGE_SIZE -> page_key (b + off) = page_key b /\ (b + off) mod PAGE_SIZE = off.
Proof.
  intros Ho. pose proof (Z.div_mod b PAGE_SIZE ltac:(done)) as Hd. rewrite Hb, Z.add_0_r in Hd. split.
  - unfold page_key. f_equal. rewrite Hd at 1. rewrite Z.mul_comm, Z.div_add_l by done.
    rewrite (Z.div_small off) by done. lia.
  - rewrite Zplus_mod, Hb. rewrite Z.add_0_l, Z.mod_mod by done. by apply Z.mod_small.
Qed.

(** Writing [l] at offset [off] of the page that [b] starts. *)
Lemma virt_write_page l : forall s off, wf_tables s d lv -> translate (phys s) root b = Some pa ->
  Forall is_byte l -> 0 <= off -> off + Z.of_nat (length l) <= PAGE_SIZE ->
  exists m', virt_write root (b + off) l s = Ok (tt, set_phys m' s) /\
    (forall x, ~ (pa <= x < pa + PAGE_SIZE) -> m' x = phys s x) /\
    (forall j, 0 <= j < PAGE_SIZE -> read_byte m' (pa + j) =
       if decide (off <= j < off + Z.of_nat (length l)) then default 0 (zget l (j - off)) else read_byte (phys s) (pa + j)).
Proof.
  induction l as [|v l IH]; intros s off Hwf Ht Hl Ho Hlen.
  { exists (phys s). split; [by destruct s|]. split; [done|]. intros j Hj. rewrite decide_False; [done|]. cbn. lia. }
  cbn [length] in Hlen. destruct (page_key_in off ltac:(lia)) as [Hkey Hmod]. apply Forall_cons in Hl as [Hv Hl].
  cbn [virt_write]. rewrite (bind_run _ _ _ s s) by done.
  rewrite (bind_run _ _ _ pa s).
  2:{ unfold translate in *. by rewrite (pte_same_key _ _ _ _ Hkey), Ht. }
  rewrite Hmod. set (m1 := write_byte (phys s) (pa + off) v). rewrite (bind_run _ _ _ tt (set_phys m1 s)) by done.
  assert (Hm1 : forall x, ~ (pa <= x < pa + PAGE_SIZE) -> m1 x = phys s x).
  { intros x Hx. unfold m1, write_byte. apply upd_ne. destruct Hpa as [_ Hal]. intros ->. apply Hx.
    pose proof (Z.div_mod pa PAGE_SIZE ltac:(done)). pose proof (Z.div_mod (pa + off) 8 ltac:(done)).
    pose proof (Z.mod_pos_bound (pa + off) 8 ltac:(done)). unfold PAGE_SIZE in *. lia. }
  assert (Hag : forall f x, is_Some (lv !! f) -> f <= x < f + PAGE_SIZE -> m1 x = phys s x).
  { intros f x Hf Hx. apply Hm1. destruct (Hout f Hf); lia. }
  assert (Hwf1 : wf_tables (set_phys m1 s) d lv).
  { by apply (wf_same_inner s d lv Hwf m1 (agree_inner s lv m1 Hag)). }
  destruct (IH (set_phys m1 s) (off + 1)) as (m'&E&Hm'&Hr); [done| |done|lia|lia|].
  { unfold translate in *. cbn [set_phys phys]. by rewrite (agree_pte s d lv Hwf _ Hag). }
  exists m'. rewrite <- Z.add_assoc. split; [by rewrite E|]. split.
  - intros x Hx. rewrite Hm' by done. cbn. by apply Hm1.
  - intros j Hj. rewrite Hr by done. cbn [set_phys phys length]. destruct (decide (j = off)) as [->|Hne].
    + rewrite decide_False by lia. rewrite decide_True by lia. rewrite Z.sub_diag. cbn. by apply read_write_eq.
    + destruct (decide (off + 1 <= j < off + 1 + Z.of_nat (length l))).
      * rewrite decide_True by lia. unfold zget. rewrite !decide_True by lia.
        replace (Z.to_nat (j - off)) with (S (Z.to_nat (j - (off + 1)))) by lia. done.
      * rewrite decide_False by lia. apply read_write_ne. lia.
Qed.
End VirtWrite.

(** * The page-fault handler *)
Lemma vmm_run {A} (m : M Vmm A) s a v : m (km_vmm s) = Ok (a, v) -> vmm_ m s = Ok (a, with_vmm v s).
Proof. intros E. unfold vmm_, zoom. by rewrite E. Qed.
Lemma pmm_run {A} (m : M Pmm A) s a v : m (km_pmm s) = Ok (a, v) -> pmm_ m s = Ok (a, with_pmm v s).
Proof. intros E. unfold pmm_, zoom. by rewrite E. Qed.
Lemma space_run {A} w (m : M Vm A) s a v : m (space_of w s) = Ok (a, v) -> space_ w m s = Ok (a, with_space w v s).
Proof. intros E. unfold space_, zoom. by rewrite E. Qed.
Lemma with_space_id w s : with_space w (space_of w s) s = s.
Proof. by destruct w, s. Qed.

(** The structures and the frames set aside for them are reserved in the physical memory manager. *)
Record wf_kmem (s : Kmem) (p : Z) (d : PAGING_DATA) (lv : gmap Z Z) : Prop := {
  wk_tables : wf_tables (km_vmm s) d lv;
  wk_paging : paging (km_vmm s) !! p = Some d;
  wk_p : p <> 0;
  wk_pmm : wf_pmm (km_pmm s);
  wk_zero : reserved (km_pmm s) 0 = true;
  wk_phys : frame_count (km_pmm s) * PAGE_SIZE <= 2 ^ MAXPHYADDR;
  wk_used f : is_Some (lv !! f) -> reserved (km_pmm s) (f / PAGE_SIZE) = true;
  wk_pool i : CurrentIndex d <= i < NumberOfFrames d ->
    reserved (km_pmm s) (BasePhysicalAddress d / PAGE_SIZE + i) = true }.

(** A frame the physical memory manager just handed out. *)
Lemma reserve_frame s f0 : wf_pmm s -> reserved s 0 = true -> 0 <= f0 < frame_count s -> reserved s f0 = false ->
  exists f s', PmmReserveMemory 1 s = Ok (f * PAGE_SIZE, s') /\ 0 < f < frame_count s /\ reserved s f = false /\
    frames_set s s' f 1 true.
Proof.
  intros Hwf H0 Hf0 Hfree. pose proof (PmmReserveMemoryEx_spec 1 NULL s Hwf ltac:(rlia) ltac:(unfold NULL; rlia)) as H.
  apply wp_Ok in H as (r&s'&E&[(->&->&H)|(f&->&Hf1&Hf2&_&Hrun&_&Hset)]).
  - exfalso. destruct H as [?|[H|H]]; [lia|done|]. apply (H f0); [unfold NULL; change (0 / PAGE_SIZE) with 0; lia|lia|].
    intros j Hj. by replace (f0 + j) with f0 by lia.
  - exists f, s'. assert (Hff : reserved s f = false) by (rewrite <- (Z.add_0_r f); apply Hrun; lia).
    split; [done|]. split; [|done]. change (NULL / PAGE_SIZE) with 0 in Hf1.
    destruct (decide (f = 0)) as [->|]; [congruence|lia].
Qed.

Lemma MmuMapMemoryInternal_page p pa va Rights Unc s d lv : p <> 0 -> range_ok va 1 -> phys_ok pa ->
  pa + PAGE_SIZE <= 2 ^ MAXPHYADDR -> wf_tables s d lv -> paging s !! p = Some d ->
  CurrentIndex d + missing (phys s) (BasePhysicalAddress d) va <= NumberOfFrames d ->
  exists s' d' lv', MmuMapMemoryInternal NULL pa PAGE_SIZE Rights va true Unc p s = Ok (tt, s') /\
    evolves p s d lv s' d' lv' /\
    (forall v, pte (phys s') (BasePhysicalAddress d) v =
       if decide (page_key v = page_key va) then Some (PteMap pa (leaf_flags s d Rights Unc))
       else pte (phys s) (BasePhysicalAddress d) v) /\
    CurrentIndex d' <= CurrentIndex d + missing (phys s) (BasePhysicalAddress d) va.
Proof.
  intros Hp Hr Hpa Hend Hwf Hpd Hroom. assert (Ec : crossings va (va + (1 - 1) * PAGE_SIZE) = 0).
  { change ((1 - 1) * PAGE_SIZE) with 0. rewrite Z.add_0_r. unfold crossings. lia. }
  destruct (VmmMapMemoryInternal_run p pa va 1 Rights true Unc s d lv) as (s'&d'&lv'&W&[E P _ _ U]); try done; try lia.
  exists s', d', lv'. split; [|split; [done|split; [|lia]]].
  - unfold MmuMapMemoryInternal, select_paging. replace (p =? NULL) with false by (unfold NULL; lia).
    rewrite (bind_run _ _ _ tt s) by done. rewrite (bind_run _ _ _ tt s) by done.
    rewrite (bind_run _ _ _ tt s) by (apply ASSERT_run; destruct Hr; unfold NULL; lia).
    rewrite (bind_run _ _ _ tt s); [by rewrite <- W, Z.mul_1_l|]. apply ASSERT_run, aligned_pages; [|apply Hr].
    destruct Hr. unfold PAGE_SIZE in *. rlia.
  - intros v. rewrite P. unfold map_meaning, range_pte. pose proof (page_index_range va v).
    pose proof (page_index_from_key va 0 ltac:(lia) v) as Hk. rewrite Z.mul_0_l, Z.add_0_r in Hk. case_decide as Ek.
    + apply Hk in Ek. by rewrite Ek, Z.mul_0_l, Z.add_0_r.
    + rewrite (proj2 (Z.ltb_ge _ 1)); [done|]. destruct (decide (page_index_from va v = 0)); [by tauto|lia].
Qed.

Lemma table_frames_reserved s p d lv v d' lv' g : wf_kmem s p d lv -> evolves p (km_vmm s) d lv v d' lv' ->
  is_Some (lv' !! g) -> reserved (km_pmm s) (g / PAGE_SIZE) = true /\ g mod PAGE_SIZE = 0 /\ 0 <= g.
Proof.
  intros Hk E Hg. pose proof (ev_wf _ _ _ _ _ _ _ E) as Hwf'. destruct (ev_data _ _ _ _ _ _ _ E) as (_&En&_).
  pose proof Hg as [l Hl]. destruct (wt_frame _ _ _ Hwf' _ _ Hl) as (_&[[] ?]&_). split; [|done].
  destruct (ev_new _ _ _ _ _ _ _ E g Hg) as [Hold|(i&Hi&->)]; [by apply (wk_used _ _ _ _ Hk)|].
  rewrite Z.div_add by done. apply (wk_pool _ _ _ _ Hk). pose proof (wt_index _ _ _ Hwf'). lia.
Qed.

Lemma free_frame_outside s p d lv v d' lv' f : wf_kmem s p d lv -> evolves p (km_vmm s) d lv v d' lv' ->
  reserved (km_pmm s) f = false -> outside lv' (f * PAGE_SIZE) PAGE_SIZE.
Proof.
  intros Hk E Hf g Hg. destruct (table_frames_reserved s p d lv v d' lv' g Hk E Hg) as (Hr&Hal&_).
  pose proof (Z.div_mod g PAGE_SIZE ltac:(done)) as Hd. rewrite Hal in Hd.
  assert (g / PAGE_SIZE <> f) by congruence. unfold PAGE_SIZE in *. lia.
Qed.

(** The page after the file's bytes and the zeros behind them are written. *)
Lemma fill_page s d lv b pa bytes : wf_tables s d lv -> b mod PAGE_SIZE = 0 -> phys_ok pa -> outside lv pa PAGE_SIZE ->
  translate (phys s) (BasePhysicalAddress d) b = Some pa -> Forall is_byte bytes ->
  Z.of_nat (length bytes) <= PAGE_SIZE ->
  exists m1 m2, virt_write (BasePhysicalAddress d) b bytes s = Ok (tt, set_phys m1 s) /\
    virt_write (BasePhysicalAddress d) (b + Z.of_nat (length bytes)) (zeros (PAGE_SIZE - Z.of_nat (length bytes)))
      (set_phys m1 s) = Ok (tt, set_phys m2 s) /\
    (Z.of_nat (length bytes) = PAGE_SIZE -> m2 = m1) /\
    (forall x, ~ (pa <= x < pa + PAGE_SIZE) -> m2 x = phys s x) /\
    (forall j, 0 <= j < PAGE_SIZE -> read_byte m2 (pa + j) = default 0 (zget bytes j)).
Proof.
  intros Hwf Hb Hpa Hout Ht Hbytes Hlen.
  destruct (virt_write_page d lv b pa Hb Hpa Hout bytes s 0 Hwf Ht Hbytes ltac:(lia) ltac:(lia)) as (m1&E1&O1&R1).
  rewrite Z.add_0_r in E1.
  assert (Hag : forall f x, is_Some (lv !! f) -> f <= x < f + PAGE_SIZE -> m1 x = phys s x).
  { intros f x Hf Hx. apply O1. destruct (Hout f Hf); lia. }
  assert (Hwf1 : wf_tables (set_phys m1 s) d lv) by (by apply (wf_same_inner s d lv Hwf m1 (agree_inner s lv m1 Hag))).
  set (n := Z.of_nat (length bytes)) in *.
  assert (Hzl : Z.of_nat (length (zeros (PAGE_SIZE - n))) = PAGE_SIZE - n)
    by (unfold zeros; rewrite length_replicate; lia).
  destruct (virt_write_page d lv b pa Hb Hpa Hout (zeros (PAGE_SIZE - n)) (set_phys m1 s) n Hwf1) as (m2&E2&O2&R2).
  { unfold translate in *. cbn [set_phys phys]. by rewrite (agree_pte s d lv Hwf _ Hag). }
  { apply Forall_forall. intros x Hx%elem_of_replicate. rlia. } { lia. } { lia. }
  exists m1, m2. rewrite set_phys_set_phys in E2. split; [done|]. split; [done|]. split; [|split].
  - intros En. rewrite En, Z.sub_diag in E2. cbn in E2. injection E2 as E2. done.
  - intros x Hx. rewrite O2 by done. by apply O1.
  - intros j Hj. rewrite R2, Hzl by done. cbn [set_phys phys]. rewrite R1 by done. rewrite Z.sub_0_r.
    destruct (decide (j < n)); [rewrite decide_False, decide_True by lia; done|].
    rewrite decide_True by lia. rewrite (zget_ge bytes) by lia. cbn [default from_option].
    unfold zget, zeros. rewrite decide_True by lia. by rewrite lookup_replicate_2 by lia.
Qed.

Section Solve.
Context (IoReadFile : Z -> Z -> Z -> Z * list Z).

(** The bytes of the page at file offset [off], when there is a backing file. *)
Definition page_bytes (file off : Z) : Z * list Z :=
  if negb (file =? NULL) then IoReadFile file off PAGE_SIZE else (STATUS_SUCCESS, []).

(** The handler up to the answer of the reservation space. *)
Lemma solve_prefix fa rights p s d lv k : wf_kmem s p d lv -> km_intr_off s = true -> PAGE_SIZE <= fa < 2 ^ 64 - 1 ->
  _VmIsKernelAddress fa = KernelSpace d ->
  wf_vm (space_of (_VmmRetrieveReservationSpaceForAddress fa) s) k ->
  VmmSolvePageFault IoReadFile fa rights p s =
  match fault_answer (space_of (_VmmRetrieveReservationSpaceForAddress fa) s) k fa rights with
  | None => Ok (false, s)
  | Some (pageRights, uncacheable, file, off) =>
    (pa ← pmm_ (PmmReserveMemory 1);
     _ ← ASSERT (negb (NULL =? pa));
     let alignedAddress := fa - fa mod PAGE_SIZE in
     _ ← vmm_ (MmuMapMemoryInternal NULL pa PAGE_SIZE pageRights alignedAddress true uncacheable p);
     let '(status, bytes) := page_bytes file off in
     _ ← vmm_ (virt_write (BasePhysicalAddress d) alignedAddress bytes);
     if negb (SUCCEEDED status) then ret false else
     let bytesReadFromFile := Z.of_nat (length bytes) in
     _ ← ASSERT (bytesReadFromFile <=? PAGE_SIZE);
     _ ← (if negb (bytesReadFromFile =? PAGE_SIZE)
          then vmm_ (virt_write (BasePhysicalAddress d) (alignedAddress + bytesReadFromFile)
                       (zeros (PAGE_SIZE - bytesReadFromFile)))
          else ret tt);
     _ ← count_fault;
     ret true) s
  end.
Proof.
  intros Hk Hi Hfa Hker Hvm. unfold VmmSolvePageFault. rewrite (bind_run _ _ _ true s) by (unfold gets; by rewrite Hi).
  rewrite (bind_run _ _ _ tt s) by done.
  rewrite (bind_run _ _ _ tt s) by (apply ASSERT_run; pose proof (wk_p _ _ _ _ Hk); unfold NULL; lia).
  rewrite AlignAddressLower_page by (unfold PAGE_SIZE in *; rlia).
  pose proof (Z.div_mod fa PAGE_SIZE ltac:(done)). pose proof (Z.mod_pos_bound fa PAGE_SIZE ltac:(done)).
  pose proof (Z.div_le_mono PAGE_SIZE fa PAGE_SIZE ltac:(done) ltac:(lia)). rewrite Z.div_same in * by done.
  replace (NULL =? fa - fa mod PAGE_SIZE) with false by (unfold NULL, PAGE_SIZE in *; lia).
  rewrite (bind_run _ _ _ d s).
  2:{ rewrite (vmm_run _ s d (km_vmm s)); [by destruct s|]. unfold get_paging. by rewrite (wk_paging _ _ _ _ Hk). }
  rewrite Hker. destruct (KernelSpace d) eqn:Ek; cbn [andb negb].
  all: rewrite (bind_run _ _ _ (fault_answer (space_of (_VmmRetrieveReservationSpaceForAddress fa) s) k fa rights) s);
    [by destruct (fault_answer _ k fa rights) as [[[[] ?] ?]|]|].
  all: erewrite space_run; [by rewrite with_space_id|]; apply can_access_run; [done|unfold PAGE_SIZE in *; lia].
Qed.
End Solve.

Lemma page_base fa : PAGE_SIZE <= fa < 2 ^ 64 - 1 -> range_ok (fa - fa mod PAGE_SIZE) 1 /\
  page_key (fa - fa mod PAGE_SIZE) = page_key fa.
Proof.
  intros Hfa. pose proof (Z.div_mod fa PAGE_SIZE ltac:(done)) as Hd. pose proof (Z.mod_pos_bound fa PAGE_SIZE ltac:(done)).
  pose proof (Z.div_le_mono PAGE_SIZE fa PAGE_SIZE ltac:(done) ltac:(lia)). rewrite Z.div_same in * by done.
  assert (Hb : fa - fa mod PAGE_SIZE = fa / PAGE_SIZE * PAGE_SIZE) by lia. split.
  - split; [|rewrite Hb; by apply Z.mod_mul|lia|].
    + unfold PAGE_SIZE in *. lia.
    + rewrite Hb. enough (fa / PAGE_SIZE < 2 ^ 52) by (unfold PAGE_SIZE in *; lia).
      apply Z.div_lt_upper_bound; unfold PAGE_SIZE in *; lia.
  - unfold page_key. by rewrite Hb, Z.div_mul by done.
Qed.

(** What a solved fault leaves behind: the page that faulted is mapped to a frame that was free, with the rights of
    its reservation and the contents of the file page followed by zeros. *)
Record fault_solved (s : Kmem) (p : Z) (d : PAGING_DATA) (fa Rights : Z) (Unc : bool) (bytes : list Z)
    (s' : Kmem) (f : Z) : Prop := {
  fs_free : 0 < f < frame_count (km_pmm s) /\ reserved (km_pmm s) f = false;
  fs_frames : frames_set (km_pmm s) (km_pmm s') f 1 true;
  fs_page v : pte (phys (km_vmm s')) (BasePhysicalAddress d) v =
    if decide (page_key v = page_key fa) then Some (PteMap (f * PAGE_SIZE) (leaf_flags (km_vmm s) d Rights Unc))
    else pte (phys (km_vmm s)) (BasePhysicalAddress d) v;
  fs_bytes j : 0 <= j < PAGE_SIZE -> read_byte (phys (km_vmm s')) (f * PAGE_SIZE + j) = default 0 (zget bytes j);
  fs_count : km_PageFaults s' = (fun n => u64 (n + 1)) <$> km_PageFaults s;
  fs_spaces : km_kernel s' = km_kernel s /\ km_process s' = km_process s }.

Lemma wf_kmem_solved s p d lv v d' lv' pm f m2 : wf_kmem s p d lv -> evolves p (km_vmm s) d lv v d' lv' ->
  frames_set (km_pmm s) pm f 1 true -> 0 < f ->
  (forall g x, is_Some (lv' !! g) -> g <= x < g + PAGE_SIZE -> m2 x = phys v x) ->
  wf_kmem (mkKmem (set_phys m2 v) pm (km_kernel s) (km_process s) (km_intr_off s)
             ((fun n => u64 (n + 1)) <$> km_PageFaults s)) p d' lv'.
Proof.
  intros Hk E (Hd&Hwf&Hset&_) Hf Hag. destruct (ev_data _ _ _ _ _ _ _ E) as (Eb&En&_).
  assert (Hres : forall i, 0 <= i -> reserved (km_pmm s) i = true -> reserved pm i = true).
  { intros i Hi H. rewrite Hset by done. by case_bool_decide. }
  pose proof (ev_index _ _ _ _ _ _ _ E). pose proof (wt_index _ _ _ (wk_tables _ _ _ _ Hk)).
  destruct (wt_frame _ _ _ (wk_tables _ _ _ _ Hk) _ _ (wt_root _ _ _ (wk_tables _ _ _ _ Hk))) as (_&[[] ?]&_).
  split; cbn [km_vmm km_pmm set_phys paging].
  - apply (wf_same_inner v d' lv' (ev_wf _ _ _ _ _ _ _ E) m2); [by eapply agree_inner|done|done].
  - by eapply evolves_get.
  - apply Hk.
  - done.
  - apply Hres; [lia|apply Hk].
  - unfold frame_count, bitmap_of. rewrite Hd. apply (wk_phys _ _ _ _ Hk).
  - intros g Hg. destruct (table_frames_reserved s p d lv v d' lv' g Hk E Hg) as (?&?&?).
    apply Hres; [by apply Z.div_pos|done].
  - intros i Hi. rewrite Eb. apply Hres; [pose proof (Z.div_pos (BasePhysicalAddress d) PAGE_SIZE ltac:(lia) ltac:(done)); lia|].
    apply (wk_pool _ _ _ _ Hk). lia.
Qed.


(** VmmSolvePageFault refuses, and changes nothing, at an address of the first page, at a kernel address while the
    faulting code uses a process's structures and the reverse, and at an address whose reservation does not grant
    the access. *)
Theorem page_fault_refused IoReadFile fa rights p s d k : km_intr_off s = true -> p <> 0 ->
  paging (km_vmm s) !! p = Some d -> 0 <= fa < 2 ^ 64 - 1 ->
  wf_vm (space_of (_VmmRetrieveReservationSpaceForAddress fa) s) k ->
  fa < PAGE_SIZE \/ _VmIsKernelAddress fa <> KernelSpace d \/
    fault_answer (space_of (_VmmRetrieveReservationSpaceForAddress fa) s) k fa rights = None ->
  VmmSolvePageFault IoReadFile fa rights p s = Ok (false, s).
Proof.
  intros Hi Hp Hpd Hfa Hvm Hwhy. unfold VmmSolvePageFault.
  rewrite (bind_run _ _ _ true s) by (unfold gets; by rewrite Hi). rewrite (bind_run _ _ _ tt s) by done.
  rewrite (bind_run _ _ _ tt s) by (apply ASSERT_run; unfold NULL; lia).
  rewrite AlignAddressLower_page by rlia. pose proof (Z.mod_pos_bound fa PAGE_SIZE ltac:(done)).
  destruct (Z.eqb_spec NULL (fa - fa mod PAGE_SIZE)) as [|Hne]; [done|].
  assert (PAGE_SIZE <= fa).
  { destruct (decide (fa < PAGE_SIZE)); [|lia]. rewrite Z.mod_small in Hne by lia. unfold NULL in Hne. lia. }
  destruct Hwhy as [|Hwhy]; [lia|].
  rewrite (bind_run _ _ _ d s).
  2:{ rewrite (vmm_run _ s d (km_vmm s)); [by destruct s|]. unfold get_paging. by rewrite Hpd. }
  assert (Ha : space_ (_VmmRetrieveReservationSpaceForAddress fa) (VmReservationCanAddressBeAccessed fa rights) s =
               Ok (fault_answer (space_of (_VmmRetrieveReservationSpaceForAddress fa) s) k fa rights, s)).
  { erewrite space_run; [by rewrite with_space_id|]. apply can_access_run; [done|unfold PAGE_SIZE in *; lia]. }
  destruct (_VmIsKernelAddress fa), (KernelSpace d); cbn [andb negb]; try done;
    (destruct Hwhy as [|Hn]; [done|]); by rewrite (bind_run _ _ _ _ _ Ha), Hn.
Qed.

(** When the backing file cannot be read VmmSolvePageFault returns FALSE and yet leaves the page mapped to a newly
    reserved frame: the frame is not given back and a second access to the page does not fault. *)
Theorem page_fault_read_error IoReadFile fa rights p s d lv k pageRights unc file off status bytes f0 :
  wf_kmem s p d lv -> km_intr_off s = true -> PAGE_SIZE <= fa < 2 ^ 64 - 1 -> _VmIsKernelAddress fa = KernelSpace d ->
  wf_vm (space_of (_VmmRetrieveReservationSpaceForAddress fa) s) k ->
  fault_answer (space_of (_VmmRetrieveReservationSpaceForAddress fa) s) k fa rights = Some (pageRights, unc, file, off) ->
  page_bytes IoReadFile file off = (status, bytes) -> SUCCEEDED status = false -> bytes = [] ->
  0 <= f0 < frame_count (km_pmm s) -> reserved (km_pmm s) f0 = false ->
  CurrentIndex d + missing (phys (km_vmm s)) (BasePhysicalAddress d) (fa - fa mod PAGE_SIZE) <= NumberOfFrames d ->
  exists s' f, VmmSolvePageFault IoReadFile fa rights p s = Ok (false, s') /\
    translate (phys (km_vmm s')) (BasePhysicalAddress d) fa = Some (f * PAGE_SIZE) /\
    reserved (km_pmm s) f = false /\ reserved (km_pmm s') f = true.
Proof.
  intros Hk Hi Hfa Hker Hvm Hans Hpb Hst -> Hf0 Hfree Hroom.
  rewrite (solve_prefix IoReadFile fa rights p s d lv k Hk Hi Hfa Hker Hvm), Hans, Hpb.
  destruct (reserve_frame (km_pmm s) f0) as (f&pm&Er&Hf&Hff&Hset); [apply Hk..|done|done|].
  destruct (page_base fa Hfa) as [Hrange Hkey]. pose proof (wk_phys _ _ _ _ Hk) as Hphys.
  assert (Hpok : phys_ok (f * PAGE_SIZE)) by (split; [unfold PAGE_SIZE in *; lia|by apply Z.mod_mul]).
  destruct (MmuMapMemoryInternal_page p (f * PAGE_SIZE) (fa - fa mod PAGE_SIZE) pageRights unc (km_vmm s) d lv)
    as (v&d'&lv'&Em&_&P&_); try apply Hk; try done; [unfold PAGE_SIZE in *; lia|].
  exists (with_vmm v (with_pmm pm s)), f. split; [|split; [|split; [done|]]].
  - rewrite (bind_run _ _ _ _ _ (pmm_run _ _ _ _ Er)).
    rewrite (bind_run _ _ _ tt (with_pmm pm s)) by (apply ASSERT_run; unfold NULL, PAGE_SIZE; lia).
    rewrite (bind_run _ _ _ tt (with_vmm v (with_pmm pm s))) by (by apply vmm_run).
    rewrite (bind_run _ _ _ tt (with_vmm v (with_pmm pm s))) by done. by rewrite Hst.
  - unfold translate. cbn [km_vmm with_vmm]. rewrite P, decide_True by done. cbn [fmap option_fmap option_map]. f_equal.
    exact (proj1 (proj2 (proj2 (PteMap_fields (f * PAGE_SIZE) (leaf_flags (km_vmm s) d pageRights unc) Hpok)))).
  - destruct Hset as (_&_&Hset&_). cbn [km_pmm with_vmm with_pmm]. rewrite Hset by lia.
    by rewrite bool_decide_eq_true_2 by lia.
Qed.

(** VmmAllocRegionEx with VMM_ALLOC_TYPE_NOT_LAZY reports success when the physical memory manager has no run of
    frames left: it returns the address of the new reservation, with nothing mapped there. *)
Theorem alloc_region_unbacked IoReadFile kernel root Base Size AllocType Rights unc file w PagingData s b n v :
  IsBooleanFlagOn AllocType (Z.lor VMM_ALLOC_TYPE_NOT_LAZY VMM_ALLOC_TYPE_COMMIT) = true -> Size <> 0 ->
  IsBooleanFlagOn AllocType VMM_ALLOC_TYPE_ZERO = false -> 0 <= AllocType ->
  VmReservationSpaceAllocRegion Base Size AllocType Rights unc file (space_of w s) = Ok ((STATUS_SUCCESS, Some (b, n)), v) ->
  b <> NULL -> 0 <= n / PAGE_SIZE <= MAX_DWORD -> wf_pmm (km_pmm s) ->
  (forall f, 0 <= f -> f + n / PAGE_SIZE <= frame_count (km_pmm s) -> ~ free_run (km_pmm s) f (n / PAGE_SIZE)) ->
  VmmAllocRegionEx IoReadFile kernel root Base Size AllocType Rights unc file w PagingData None s =
    Ok (b, with_space w v s).
Proof.
  intros Hfl Hsz Hz Hat Ha Hb Hn Hwf Hno.
  pose proof (proj1 (IsBooleanFlagOn_spec AllocType
    (Z.lor VMM_ALLOC_TYPE_NOT_LAZY VMM_ALLOC_TYPE_COMMIT) Hat ltac:(done)) Hfl) as Hbit.
  assert (Hcommit : IsBooleanFlagOn AllocType VMM_ALLOC_TYPE_COMMIT = true).
  { apply IsBooleanFlagOn_spec; [done|done|]. intros i Hi E. apply Hbit; [done|]. by rewrite Z.lor_spec, E, orb_true_r. }
  assert (Hlazy : IsBooleanFlagOn AllocType VMM_ALLOC_TYPE_NOT_LAZY = true).
  { apply IsBooleanFlagOn_spec; [done|done|]. intros i Hi E. apply Hbit; [done|]. by rewrite Z.lor_spec, E. }
  assert (Hany : IsFlagOn AllocType (Z.lor VMM_ALLOC_TYPE_COMMIT VMM_ALLOC_TYPE_RESERVE) = true).
  { unfold IsFlagOn. apply negb_true_iff, Z.eqb_neq. intros E. apply (f_equal (fun x => Z.testbit x 1)) in E.
    rewrite Z.land_spec, Z.bits_0 in E. rewrite (Hbit 1) in E by done. done. }
  unfold VmmAllocRegionEx. rewrite (bind_run _ _ _ tt s) by (apply ASSERT_run; lia).
  rewrite (bind_run _ _ _ tt s) by (by apply ASSERT_run). rewrite (bind_run _ _ _ tt s) by done.
  rewrite (bind_run _ _ _ tt s) by (apply ASSERT_run; by rewrite Hz). rewrite (bind_run _ _ _ tt s) by done.
  rewrite (bind_run _ _ _ _ _ (space_run w _ s _ _ Ha)). cbv beta iota.
  set (t := with_space w v s). rewrite (bind_run _ _ _ tt t) by (apply ASSERT_run; unfold NULL in *; lia).
  rewrite Hlazy. rewrite (bind_run _ _ _ (STATUS_SUCCESS, NULL) t); [done|]. unfold alloc_backing.
  rewrite (bind_run _ _ _ tt t) by (by apply ASSERT_run). rewrite (bind_run _ _ _ tt t) by (apply ASSERT_run; lia).
  rewrite u32_small by rlia.
  assert (Hpm : km_pmm t = km_pmm s) by (by destruct w).
  pose proof (PmmReserveMemoryEx_spec (n / PAGE_SIZE) NULL (km_pmm s) Hwf ltac:(rlia) ltac:(unfold NULL; rlia)) as H.
  apply wp_Ok in H as (r&s'&E&[(->&->&_)|(f&_&Hf1&Hf2&_&Hrun&_)]).
  2:{ change (NULL / PAGE_SIZE) with 0 in Hf1. by destruct (Hno f). }
  rewrite (bind_run _ _ _ NULL t); [done|]. erewrite pmm_run; [|unfold PmmReserveMemory; rewrite Hpm; exact E].
  by rewrite <- Hpm; destruct t.
Qed.


(** MmuIsBufferValid accepts every size and every right for a buffer that starts inside the process's image. *)
Theorem image_buffer_accepted a n rights process ImageBase ImageSize kern s : 0 < a -> n <> 0 -> process <> 0 ->
  0 <= ImageBase <= a -> 0 <= ImageSize -> ImageBase + ImageSize < 2 ^ 64 -> a < ImageBase + ImageSize ->
  MmuIsBufferValid a n rights process ImageBase ImageSize kern s = Ok (STATUS_SUCCESS, s).
Proof.
  intros. unfold MmuIsBufferValid, PtrOffset. unwrap. replace (a =? NULL) with false by (unfold NULL; lia).
  replace (n =? 0) with false by lia. replace (process =? NULL) with false by (unfold NULL; lia).
  by rewrite (proj2 (Z.leb_le _ _)), (proj2 (Z.ltb_lt _ _)) by lia.
Qed.

(** * A concrete machine *)
Definition demo_user_data : PAGING_DATA := mkPAGING 0x40000 8 1 false.
Definition demo_process : Z := 0xA000.
Definition demo_kmem : Kmem :=
  mkKmem (mkVmm (fun _ => 0) {[demo_process := demo_user_data]} 0 3 0xFFFF800000000000 [] false 4 [])
    demo_pmm demo_vm demo_vm true (Some 0).
Definition no_files (file off size : Z) : Z * list Z := (STATUS_SUCCESS, []).

Lemma demo_kmem_wf : wf_kmem demo_kmem demo_process demo_user_data {[0x40000 := 1]}.
Proof.
  split.
  - by apply wf_empty.
  - reflexivity.
  - done.
  - apply demo_pmm_wf.
  - vm_compute. reflexivity.
  - vm_compute. discriminate.
  - intros f [l Hl]. apply lookup_singleton_Some in Hl as [<- _]. vm_compute. reflexivity.
  - intros i Hi. cbn in Hi. assert (i = 1 \/ i = 2 \/ i = 3 \/ i = 4 \/ i = 5 \/ i = 6 \/ i = 7) as Hc by lia.
    destruct_or! Hc; subst; vm_compute; reflexivity.
Qed.

Lemma demo_space_wf : wf_vm (space_of (_VmmRetrieveReservationSpaceForAddress 0x20010) demo_kmem) 1.
Proof. exact demo_vm_wf. Qed.


Lemma page_fault_refused_witness :
  VmmSolvePageFault no_files 0x20010 PAGE_RIGHTS_EXECUTE demo_process demo_kmem = Ok (false, demo_kmem).
Proof.
  apply (page_fault_refused no_files 0x20010 PAGE_RIGHTS_EXECUTE demo_process demo_kmem demo_user_data 1);
    [reflexivity|done|reflexivity|lia|apply demo_space_wf|right; right; vm_compute; reflexivity].
Defined.


(** Five frames are asked for and four are free. *)
Lemma alloc_region_unbacked_witness :
  exists v, VmmAllocRegionEx no_files demo_process 0x40000 NULL 0x5000 7 PAGE_RIGHTS_READWRITE false 0 ProcessSpace
    demo_process None demo_kmem = Ok (0x23000, with_space ProcessSpace v demo_kmem).
Proof.
  assert (H : match VmReservationSpaceAllocRegion NULL 0x5000 7 PAGE_RIGHTS_READWRITE false 0 demo_vm with
              | Ok (r, _) => Some r | Err _ => None end = Some (STATUS_SUCCESS, Some (0x23000, 0x5000)))
    by (vm_compute; reflexivity).
  destruct (VmReservationSpaceAllocRegion NULL 0x5000 7 PAGE_RIGHTS_READWRITE false 0 demo_vm) as [[r v]|] eqn:E;
    [|discriminate]. injection H as Er.
  exists v. apply (alloc_region_unbacked no_files demo_process 0x40000 NULL 0x5000 7 PAGE_RIGHTS_READWRITE false 0 ProcessSpace
    demo_process demo_kmem 0x23000 0x5000 v);
    [reflexivity|done|reflexivity|lia|subst r; exact E|done|vm_compute; split; congruence|apply demo_pmm_wf|].
  intros f Hf Hlt Hrun.
  assert (Hall : forallb (fun f => existsb (fun j => reserved demo_pmm (f + j)) [0; 1; 2; 3; 4]) (seqZ 0 258) = true)
    by (vm_compute; reflexivity).
  rewrite forallb_forall in Hall. specialize (Hall f).
  assert (Hin : List.In f (seqZ 0 258)).
  { apply list_elem_of_In, elem_of_seqZ. change (frame_count (km_pmm demo_kmem)) with 262 in Hlt.
    change (0x5000 / PAGE_SIZE) with 5 in Hlt. lia. }
  apply Hall, existsb_exists in Hin as (j&Hj&Hr). change (0x5000 / PAGE_SIZE) with 5 in Hrun.
  assert (Hj5 : 0 <= j < 5) by (cbn in Hj; lia).
  specialize (Hrun j Hj5). change (km_pmm demo_kmem) with demo_pmm in Hrun. congruence.
Defined.
