(* ===== verification/Mdl.v ===== *)
(** HAL9000/src/mdl.c: memory descriptor lists, the physical addresses of a virtual buffer with contiguous pages joined, and
    the probing of kernel buffers by mmu.c.

    The pool that an MDL is allocated from is represented by whether the allocation succeeds.  A read of a kernel
    address that is not mapped runs the page-fault handler with interrupts off, as the exception does. *)
From S2P Require Import Prelude IntUtils ClMemory Bitmap Pmm Pte.
From S2P Require Import VmReservation Paging PagingOps PageFault.

Section Mdl.
Context (IoReadFile : Z -> Z -> Z -> Z * list Z).
Context (kernel process root : Z).     (* &m_mmuData.PagingData, the process's PagingData, the PML4 in use *)

(** * Probing *)
Definition set_intr (b : bool) : M Kmem unit := modify (fun s =>
  mkKmem (km_vmm s) (km_pmm s) (km_kernel s) (km_process s) b (km_PageFaults s)).

(** A read of one byte by the kernel: error code 0 if it faults. *)
Definition touch (va : Z) : M Kmem unit :=
  s ← getS;
  match translate (phys (km_vmm s)) root va with
  | Some _ => ret tt
  | None =>
    _ ← set_intr true;
    b ← MmuSolvePageFault IoReadFile kernel process va 0;
    _ ← set_intr (km_intr_off s);
    if (b : bool) then ret tt else fail MemFault
  end.

Fixpoint probe_loop (fuel : nat) (pBuffer offset alignedSize : Z) : M Kmem unit :=
  if offset <? alignedSize then
    match fuel with
    | O => fail NoFuel
    | S fuel' =>
      _ ← touch (PtrOffset pBuffer offset);
      probe_loop fuel' pBuffer (u32 (offset + PAGE_SIZE)) alignedSize
    end
  else ret tt.

Definition MmuProbeMemory (Buffer NumberOfBytes : Z) : M Kmem unit :=
  _ ← ASSERT (negb (NULL =? Buffer));
  _ ← ASSERT (negb (0 =? NumberOfBytes));
  let pBuffer := AlignAddressLower Buffer PAGE_SIZE in
  let alignmentDifferences := u32 (AddressOffset Buffer PAGE_SIZE) in
  let alignedSize := u32 (AlignAddressUpper (u32 (NumberOfBytes + alignmentDifferences)) PAGE_SIZE) in
  probe_loop (Z.to_nat (alignedSize / PAGE_SIZE)) pBuffer 0 alignedSize.

(** * Building the list *)
Definition joins (cur : MDL_TRANSLATION_PAIR) (pa : Z) : bool :=
  u64 (pair_Address cur + pair_NumberOfBytes cur) =? pa.
Definition extend (cur : MDL_TRANSLATION_PAIR) : MDL_TRANSLATION_PAIR :=
  mkPAIR (pair_Address cur) (u32 (pair_NumberOfBytes cur + PAGE_SIZE)).

(** The first loop: noOfPairs. *)
Fixpoint count_loop (fuel : nat) (pAlignedAddress Cr3 PagingData offset alignedSize : Z) (cur : MDL_TRANSLATION_PAIR)
    (noOfPairs : Z) : M Vmm Z :=
  if offset <? alignedSize then
    match fuel with
    | O => fail NoFuel
    | S fuel' =>
      pa ← MmuGetPhysicalAddressEx (PtrOffset pAlignedAddress offset) PagingData Cr3;
      _ ← ASSERT (negb (NULL =? pa));
      if joins cur pa
      then count_loop fuel' pAlignedAddress Cr3 PagingData (u32 (offset + PAGE_SIZE)) alignedSize (extend cur) noOfPairs
      else count_loop fuel' pAlignedAddress Cr3 PagingData (u32 (offset + PAGE_SIZE)) alignedSize
             (mkPAIR pa PAGE_SIZE) (u32 (noOfPairs + 1))
    end
  else ret noOfPairs.

(** The second loop: the pairs stored so far and the current one. *)
Fixpoint fill_loop (fuel : nat) (pAlignedAddress Cr3 PagingData offset alignedSize : Z) (cur : MDL_TRANSLATION_PAIR)
    (Translations : list MDL_TRANSLATION_PAIR) : M Vmm (list MDL_TRANSLATION_PAIR) :=
  if offset <? alignedSize then
    match fuel with
    | O => fail NoFuel
    | S fuel' =>
      pa ← MmuGetPhysicalAddressEx (PtrOffset pAlignedAddress offset) PagingData Cr3;
      _ ← ASSERT (negb (NULL =? pa));
      if joins cur pa
      then fill_loop fuel' pAlignedAddress Cr3 PagingData (u32 (offset + PAGE_SIZE)) alignedSize (extend cur) Translations
      else fill_loop fuel' pAlignedAddress Cr3 PagingData (u32 (offset + PAGE_SIZE)) alignedSize
             (mkPAIR pa PAGE_SIZE) (Translations ++ [cur])
    end
  else ret (Translations ++ [cur]).

(** [pool] tells whether ExAllocatePoolWithTag succeeds; [None] is NULL. *)
Definition MdlAllocateEx (VirtualAddress Length Cr3 PagingData : Z) (pool : bool) : M Kmem (option MDL) :=
  _ ← ASSERT (negb (NULL =? VirtualAddress));
  _ ← ASSERT (negb (0 =? Length));
  _ ← ASSERT (xorb (negb (Cr3 =? NULL)) (negb (PagingData =? NULL)));
  let pAlignedAddress := AlignAddressLower VirtualAddress PAGE_SIZE in
  let alignmentDifferences := u32 (AddressOffset VirtualAddress PAGE_SIZE) in
  let alignedSize := u32 (AlignAddressUpper (u32 (Length + alignmentDifferences)) PAGE_SIZE) in
  let fuel := Z.to_nat (alignedSize / PAGE_SIZE) in
  bKernelMemory ← (if PagingData =? NULL then ret true
                   else d ← vmm_ (get_paging PagingData); ret (KernelSpace d));
  _ ← (if (bKernelMemory : bool) then MmuProbeMemory VirtualAddress Length else ret tt);
  Address ← vmm_ (MmuGetPhysicalAddressEx VirtualAddress PagingData Cr3);
  if Address =? NULL then
    _ ← ASSERT (negb bKernelMemory);
    ret None
  else
    let mdlCurPair := mkPAIR Address (u32 (PAGE_SIZE - alignmentDifferences)) in
    noOfPairs ← vmm_ (count_loop fuel pAlignedAddress Cr3 PagingData PAGE_SIZE alignedSize mdlCurPair 1);
    if negb pool then ret None else
    Address ← vmm_ (MmuGetPhysicalAddressEx VirtualAddress PagingData Cr3);
    _ ← ASSERT (negb (Address =? NULL));
    let mdlCurPair := mkPAIR Address (u32 (PAGE_SIZE - alignmentDifferences)) in
    Translations ← vmm_ (fill_loop fuel pAlignedAddress Cr3 PagingData PAGE_SIZE alignedSize mdlCurPair []);
    _ ← ASSERT (Z.of_nat (length Translations) =? noOfPairs);
    ret (Some (mkMDL pAlignedAddress alignmentDifferences Length Translations)).
End Mdl.

Definition MdlGetNumberOfPairs (Mdl : MDL) : Z := Z.of_nat (length (mdl_Translations Mdl)).
Definition MdlGetTranslationPair (Mdl : MDL) (Index : Z) : option MDL_TRANSLATION_PAIR :=
  if Index <? MdlGetNumberOfPairs Mdl then zget (mdl_Translations Mdl) Index else None.

(** * What the list describes *)

(** The pairs for the pages at physical addresses [pas] that follow [cur]. *)
Fixpoint coalesce (cur : MDL_TRANSLATION_PAIR) (pas : list Z) : list MDL_TRANSLATION_PAIR :=
  match pas with
  | [] => [cur]
  | pa :: pas' => if joins cur pa then coalesce (extend cur) pas' else cur :: coalesce (mkPAIR pa PAGE_SIZE) pas'
  end.

(** The physical address of byte [i] of the buffer, according to the pairs. *)
Fixpoint address_at (pairs : list MDL_TRANSLATION_PAIR) (i : Z) : option Z :=
  match pairs with
  | [] => None
  | mkPAIR a n :: pairs' => if i <? n then Some (a + i) else address_at pairs' (i - n)
  end.

(** No two neighbours could have been joined. *)
Fixpoint separated (pairs : list MDL_TRANSLATION_PAIR) : Prop :=
  match pairs with
  | p :: ((q :: _) as rest) => pair_Address p + pair_NumberOfBytes p <> pair_Address q /\ separated rest
  | _ => True
  end.

(** A pair that ends below the limit of physical addresses, with room for [k] more pages in its DWORD. *)
Definition pair_ok (p : MDL_TRANSLATION_PAIR) (k : Z) : Prop :=
  0 <= pair_Address p /\ 0 < pair_NumberOfBytes p /\ pair_NumberOfBytes p + k * PAGE_SIZE < 2 ^ 32 /\
  pair_Address p + pair_NumberOfBytes p <= 2 ^ MAXPHYADDR.

Lemma joins_eq cur pa k : pair_ok cur k -> joins cur pa = (pair_Address cur + pair_NumberOfBytes cur =? pa).
Proof. intros (H1&H2&_&H3). unfold joins. rewrite u64_small; [done|]. unfold MAXPHYADDR in *. rlia. Qed.

Lemma extend_ok cur pa k : pair_ok cur (k + 1) -> 0 <= k -> joins cur pa = true -> phys_ok pa -> pa + PAGE_SIZE <= 2 ^ MAXPHYADDR ->
  pair_ok (extend cur) k /\ pair_NumberOfBytes (extend cur) = pair_NumberOfBytes cur + PAGE_SIZE.
Proof.
  intros Hc Hk Hj Hpa Hend. rewrite (joins_eq cur pa _ Hc) in Hj. apply Z.eqb_eq in Hj. destruct Hc as (H1&H2&H3&H4).
  unfold extend, pair_ok. cbn [pair_Address pair_NumberOfBytes]. unfold PAGE_SIZE in *. rewrite u32_small by rlia. lia.
Qed.

Lemma coalesce_head cur pas : exists n rest, coalesce cur pas = mkPAIR (pair_Address cur) n :: rest.
Proof.
  revert cur. induction pas as [|pa pas IH]; intros cur; cbn [coalesce]; [by destruct cur; eauto|].
  destruct (joins cur pa); [apply (IH (extend cur))|]. destruct cur. eauto.
Qed.

Definition page_ok (pa : Z) : Prop := phys_ok pa /\ pa + PAGE_SIZE <= 2 ^ MAXPHYADDR.

Lemma phys_page_ok pa : phys_ok pa -> page_ok pa.
Proof.
  intros [[H1 H2] H3]. split; [done|]. pose proof (Z.div_mod pa PAGE_SIZE ltac:(done)).
  unfold MAXPHYADDR, PAGE_SIZE in *. lia.
Qed.

Lemma fresh_pair_ok pa k : page_ok pa -> 0 <= k -> (k + 1) * PAGE_SIZE < 2 ^ 32 -> pair_ok (mkPAIR pa PAGE_SIZE) k.
Proof. intros [[[] _] ?] ??. unfold pair_ok. cbn [pair_Address pair_NumberOfBytes]. unfold PAGE_SIZE in *. lia. Qed.

Lemma coalesce_address pas : forall cur i, pair_ok cur (Z.of_nat (length pas)) -> Forall page_ok pas -> 0 <= i ->
  address_at (coalesce cur pas) i =
  if i <? pair_NumberOfBytes cur then Some (pair_Address cur + i)
  else (fun pa => pa + (i - pair_NumberOfBytes cur) mod PAGE_SIZE) <$> zget pas ((i - pair_NumberOfBytes cur) / PAGE_SIZE).
Proof.
  induction pas as [|pa pas IH]; intros cur i Hc Hp Hi; cbn [coalesce].
  { destruct cur as [a n]. cbn. destruct (Z.ltb_spec i n); [done|]. unfold zget. case_decide; [|done]. by rewrite lookup_nil. }
  apply Forall_cons in Hp as [Hpa Hp]. cbn [length] in Hc. replace (Z.of_nat (S (length pas))) with (Z.of_nat (length pas) + 1) in Hc by lia.
  set (n := pair_NumberOfBytes cur) in *. set (j := i - n) in *.
  assert (Hdiv : 0 <= j -> PAGE_SIZE <= j -> (j - PAGE_SIZE) / PAGE_SIZE = j / PAGE_SIZE - 1 /\
    (j - PAGE_SIZE) mod PAGE_SIZE = j mod PAGE_SIZE /\ 1 <= j / PAGE_SIZE).
  { intros _ Hj. replace (j - PAGE_SIZE) with (j + (-1) * PAGE_SIZE) by lia. rewrite Z.div_add, Z.mod_add by done.
    pose proof (Z.div_le_mono PAGE_SIZE j PAGE_SIZE ltac:(done) Hj). rewrite Z.div_same in * by done. lia. }
  assert (Hnext : forall x, PAGE_SIZE <= j -> x = zget pas ((j - PAGE_SIZE) / PAGE_SIZE) ->
    (fun pa => pa + (j - PAGE_SIZE) mod PAGE_SIZE) <$> x = (fun pa => pa + j mod PAGE_SIZE) <$> zget (pa :: pas) (j / PAGE_SIZE)).
  { intros x Hj ->. destruct (Hdiv ltac:(unfold PAGE_SIZE in *; lia) Hj) as (->&->&?). f_equal. unfold zget.
    rewrite !decide_True by lia. replace (Z.to_nat (j / PAGE_SIZE)) with (S (Z.to_nat (j / PAGE_SIZE - 1))) by lia. done. }
  assert (Hfirst : 0 <= j < PAGE_SIZE -> (fun pa => pa + j mod PAGE_SIZE) <$> zget (pa :: pas) (j / PAGE_SIZE) = Some (pa + j)).
  { intros Hj. by rewrite Z.div_small, Z.mod_small by done. }
  destruct (joins cur pa) eqn:Ej.
  - destruct (extend_ok cur pa _ Hc ltac:(lia) Ej (proj1 Hpa) (proj2 Hpa)) as [Hc' Hn'].
    rewrite (joins_eq cur pa _ Hc) in Ej. apply Z.eqb_eq in Ej. fold n in Hn', Ej.
    rewrite (IH (extend cur) i Hc' Hp Hi), Hn'. change (pair_Address (extend cur)) with (pair_Address cur).
    destruct (Z.ltb_spec i n); [by rewrite (proj2 (Z.ltb_lt _ _)) by (unfold PAGE_SIZE; lia)|].
    destruct (Z.ltb_spec i (n + PAGE_SIZE)).
    + rewrite Hfirst by lia. f_equal. lia.
    + replace (i - (n + PAGE_SIZE)) with (j - PAGE_SIZE) by lia. apply Hnext; [lia|done].
  - assert (Hc2 : pair_ok (mkPAIR pa PAGE_SIZE) (Z.of_nat (length pas))).
    { apply fresh_pair_ok; [done|lia|]. destruct Hc as (_&?&?&_). lia. }
    destruct cur as [a n0]. cbn [address_at pair_Address]. assert (n = n0) by done. change n with n0.
    destruct (Z.ltb_spec i n0); [done|]. change (i - n0) with j. rewrite IH by (done || lia). cbn [pair_NumberOfBytes pair_Address].
    destruct (Z.ltb_spec j PAGE_SIZE); [by rewrite Hfirst by lia|]. by apply Hnext.
Qed.

Lemma coalesce_separated pas : forall cur, pair_ok cur (Z.of_nat (length pas)) -> Forall page_ok pas ->
  separated (coalesce cur pas).
Proof.
  induction pas as [|pa pas IH]; intros cur Hc Hp; cbn [coalesce]; [done|].
  apply Forall_cons in Hp as [Hpa Hp]. cbn [length] in Hc. replace (Z.of_nat (S (length pas))) with (Z.of_nat (length pas) + 1) in Hc by lia.
  destruct (joins cur pa) eqn:Ej.
  - apply IH; [|done]. by destruct (extend_ok cur pa _ Hc ltac:(lia) Ej (proj1 Hpa) (proj2 Hpa)).
  - rewrite (joins_eq cur pa _ Hc) in Ej. apply Z.eqb_neq in Ej.
    assert (Hc2 : pair_ok (mkPAIR pa PAGE_SIZE) (Z.of_nat (length pas))).
    { apply fresh_pair_ok; [done|lia|]. destruct Hc as (_&?&?&_). lia. }
    pose proof (IH _ Hc2 Hp) as Hs. destruct (coalesce_head (mkPAIR pa PAGE_SIZE) pas) as (m&rest&E).
    rewrite E in Hs |- *. cbn [separated]. split; [done|exact Hs].
Qed.

Lemma coalesce_length cur pas : (1 <= length (coalesce cur pas) <= length pas + 1)%nat.
Proof.
  revert cur. induction pas as [|pa pas IH]; intros cur; cbn [coalesce length]; [lia|].
  destruct (joins cur pa); cbn [length]; [pose proof (IH (extend cur))|pose proof (IH (mkPAIR pa PAGE_SIZE))]; lia.
Qed.

(** * Running the loops *)
Section Loops.
Context (s : Vmm) (b p n : Z) (P : Z -> Z).
Context (Hn : 0 < n) (Hn32 : n * PAGE_SIZE < 2 ^ 32) (Hend : b + n * PAGE_SIZE <= 2 ^ 64) (Hb : 0 <= b).
Context (Hget : forall j, 0 <= j < n -> MmuGetPhysicalAddressEx (b + j * PAGE_SIZE) p NULL s = Ok (P j, s) /\ P j <> 0).

Lemma loop_head j : 0 <= j < n -> (j * PAGE_SIZE <? n * PAGE_SIZE) = true /\
  PtrOffset b (j * PAGE_SIZE) = b + j * PAGE_SIZE /\ u32 (j * PAGE_SIZE + PAGE_SIZE) = (j + 1) * PAGE_SIZE.
Proof.
  intros Hj. unfold PtrOffset, PAGE_SIZE in *. rewrite (u64_small (j * 0x1000)) by rlia. unwrap. lia.
Qed.

Lemma seqZ_next j : 0 <= j < n -> P <$> seqZ j (n - j) = P j :: (P <$> seqZ (j + 1) (n - (j + 1))).
Proof. intros Hj. rewrite seqZ_cons by lia. cbn. do 3 f_equal; lia. Qed.

Lemma fill_loop_run fuel : forall j cur T, 0 <= j <= n -> n - j <= Z.of_nat fuel ->
  fill_loop fuel b NULL p (j * PAGE_SIZE) (n * PAGE_SIZE) cur T s = Ok (T ++ coalesce cur (P <$> seqZ j (n - j)), s).
Proof.
  induction fuel as [|fuel IH]; intros j cur T Hj Hf; cbn [fill_loop].
  - assert (j = n) as -> by lia. rewrite Z.ltb_irrefl, Z.sub_diag. done.
  - destruct (decide (j = n)) as [->|]; [rewrite Z.ltb_irrefl, Z.sub_diag; done|].
    destruct (loop_head j ltac:(lia)) as (->&->&->). destruct (Hget j ltac:(lia)) as [E Hnz].
    rewrite (bind_run _ _ _ _ _ E). rewrite (bind_run _ _ _ tt s) by (apply ASSERT_run; unfold NULL; lia).
    rewrite seqZ_next by lia. cbn [coalesce].
    destruct (joins cur (P j)); rewrite IH by lia; [done|]. by rewrite <- app_assoc.
Qed.

Lemma count_loop_run fuel : forall j cur c, 0 <= j <= n -> n - j <= Z.of_nat fuel -> 0 <= c -> c + (n - j) < 2 ^ 32 ->
  count_loop fuel b NULL p (j * PAGE_SIZE) (n * PAGE_SIZE) cur c s =
  Ok (c + Z.of_nat (length (coalesce cur (P <$> seqZ j (n - j)))) - 1, s).
Proof.
  induction fuel as [|fuel IH]; intros j cur c Hj Hf Hc Hlt; cbn [count_loop].
  - assert (j = n) as -> by lia. rewrite Z.ltb_irrefl, seqZ_nil by lia.
    cbn [fmap list_fmap coalesce length]. unfold ret. do 2 f_equal. lia.
  - destruct (decide (j = n)) as [->|].
    { rewrite Z.ltb_irrefl, seqZ_nil by lia. cbn [fmap list_fmap coalesce length]. unfold ret. do 2 f_equal. lia. }
    destruct (loop_head j ltac:(lia)) as (->&->&->). destruct (Hget j ltac:(lia)) as [E Hnz].
    rewrite (bind_run _ _ _ _ _ E). rewrite (bind_run _ _ _ tt s) by (apply ASSERT_run; unfold NULL; lia).
    rewrite seqZ_next by lia. cbn [coalesce].
    destruct (joins cur (P j)); [by apply IH; lia|]. rewrite u32_small by rlia. rewrite IH by lia. cbn [length].
    do 2 f_equal. lia.
Qed.
End Loops.

(** * Theorems *)
Definition buffer_pages (va Length : Z) : Z := round_up (Length + va mod PAGE_SIZE) / PAGE_SIZE.

Lemma buffer_pages_spec va Length : 0 <= va -> 0 < Length -> Length + PAGE_SIZE < 2 ^ 32 ->
  let n := buffer_pages va Length in
  0 < n /\ n * PAGE_SIZE < 2 ^ 32 + PAGE_SIZE /\ Length + va mod PAGE_SIZE <= n * PAGE_SIZE < Length + va mod PAGE_SIZE + PAGE_SIZE /\
  round_up (Length + va mod PAGE_SIZE) = n * PAGE_SIZE.
Proof.
  intros Hva HL Hb n. pose proof (Z.mod_pos_bound va PAGE_SIZE ltac:(done)).
  assert (E : round_up (Length + va mod PAGE_SIZE) = n * PAGE_SIZE)
    by (unfold n, buffer_pages, round_up; by rewrite Z.div_mul).
  pose proof (Z.div_mod (Length + va mod PAGE_SIZE + PAGE_SIZE - 1) PAGE_SIZE ltac:(done)).
  pose proof (Z.mod_pos_bound (Length + va mod PAGE_SIZE + PAGE_SIZE - 1) PAGE_SIZE ltac:(done)).
  assert (n = (Length + va mod PAGE_SIZE + PAGE_SIZE - 1) / PAGE_SIZE)
    by (unfold n, buffer_pages, round_up; by rewrite Z.div_mul).
  unfold PAGE_SIZE in *. lia.
Qed.

Section Buffer.
Context (s : Vmm) (d : PAGING_DATA) (lv : gmap Z Z) (p va Length : Z).
Context (Hwf : wf_tables s d lv) (Hp : paging s !! p = Some d) (Hp0 : p <> 0).
Context (Hva : PAGE_SIZE <= va) (Hend : va + Length + PAGE_SIZE < 2 ^ 64) (HL : 0 < Length)
  (HL32 : Length + 2 * PAGE_SIZE < 2 ^ 32).
Abbreviation tr := (translate (phys s) (BasePhysicalAddress d)).
Abbreviation n := (buffer_pages va Length).
Abbreviation o := (va mod PAGE_SIZE).
Abbreviation b := (va - va mod PAGE_SIZE).
Context (Hmap : forall i, 0 <= i < n -> exists pa, pa <> 0 /\ tr (b + i * PAGE_SIZE) = Some pa).

Definition frame_at (j : Z) : Z := default 0 (tr (b + j * PAGE_SIZE)).
Definition first_pair : MDL_TRANSLATION_PAIR := mkPAIR (frame_at 0 + o) (PAGE_SIZE - o).
Definition later_frames : list Z := frame_at <$> seqZ 1 (n - 1).

Lemma buffer_bounds : 0 <= o < PAGE_SIZE /\ b mod PAGE_SIZE = 0 /\ PAGE_SIZE <= b /\ is_qword va /\ 0 < n /\
  Length + o <= n * PAGE_SIZE < Length + o + PAGE_SIZE /\ round_up (Length + o) = n * PAGE_SIZE.
Proof.
  destruct (buffer_pages_spec va Length) as (Hn&_&Hn1&Hru); [unfold PAGE_SIZE in *; lia|lia|unfold PAGE_SIZE in *; lia|].
  pose proof (Z.mod_pos_bound va PAGE_SIZE ltac:(done)) as Ho. pose proof (Z.div_mod va PAGE_SIZE ltac:(done)) as Hdm.
  pose proof (Z.div_le_mono PAGE_SIZE va PAGE_SIZE ltac:(done) Hva). rewrite Z.div_same in * by done.
  split; [done|]. split; [replace b with (va / PAGE_SIZE * PAGE_SIZE) by lia; by apply Z.mod_mul|].
  split; [unfold PAGE_SIZE in *; lia|]. split; [unfold PAGE_SIZE in *; rlia|done].
Qed.

Lemma frame_at_ok j : 0 <= j < n -> tr (b + j * PAGE_SIZE) = Some (frame_at j) /\ frame_at j <> 0 /\ page_ok (frame_at j).
Proof.
  intros Hj. destruct (Hmap j Hj) as (pa&Hnz&E). unfold frame_at. rewrite E. cbn. split; [done|]. split; [done|].
  apply phys_page_ok. unfold translate in E. destruct (pte _ _ _); [|done]. injection E as <-. apply PteGetPhysicalAddress_ok.
Qed.

Lemma in_page off j : 0 <= off < PAGE_SIZE ->
  tr (b + j * PAGE_SIZE + off) = tr (b + j * PAGE_SIZE) /\ (b + j * PAGE_SIZE + off) mod PAGE_SIZE = off.
Proof.
  intros Hoff. destruct buffer_bounds as (_&Hb&_).
  destruct (page_key_in (b + j * PAGE_SIZE)) with (off := off) as [K1 K2]; [by rewrite Z.mod_add|done|].
  split; [|done]. unfold translate. by rewrite (pte_same_key _ _ _ _ K1).
Qed.

Lemma get_frame j : 0 <= j < n ->
  MmuGetPhysicalAddressEx (b + j * PAGE_SIZE) p NULL s = Ok (frame_at j, s) /\ frame_at j <> 0.
Proof.
  intros Hj. destruct (frame_at_ok j Hj) as (E&Hnz&_). split; [|done]. destruct buffer_bounds as (?&_&?&_&_&?&_).
  rewrite (MmuGetPhysicalAddressEx_run _ p s d lv) by (done || unfold PAGE_SIZE in *; lia).
  destruct (in_page 0 j ltac:(lia)) as [_ E0]. rewrite Z.add_0_r in E0. by rewrite E0, Z.add_0_r, E.
Qed.

Lemma get_first : MmuGetPhysicalAddressEx va p NULL s = Ok (frame_at 0 + o, s).
Proof.
  destruct buffer_bounds as (Ho&_&?&?&?&_). rewrite (MmuGetPhysicalAddressEx_run _ p s d lv) by (done || rlia).
  destruct (in_page o 0 Ho) as [E1 _]. replace (b + 0 * PAGE_SIZE + o) with va in E1 by lia.
  rewrite E1. by destruct (frame_at_ok 0 ltac:(lia)) as [-> _].
Qed.

Lemma later_frames_ok : Forall page_ok later_frames /\ Z.of_nat (length later_frames) = n - 1.
Proof.
  destruct buffer_bounds as (_&_&_&_&?&_). split.
  - apply Forall_fmap, Forall_forall. intros j Hj%elem_of_seqZ. cbn. apply frame_at_ok. lia.
  - unfold later_frames. rewrite length_fmap, length_seqZ. lia.
Qed.

Lemma first_pair_ok : pair_ok first_pair (Z.of_nat (length later_frames)).
Proof.
  destruct buffer_bounds as (?&_&_&_&?&?&_), later_frames_ok as [_ ->].
  destruct (frame_at_ok 0 ltac:(lia)) as (_&_&[[[] _] ?]). unfold pair_ok, first_pair.
  cbn [pair_Address pair_NumberOfBytes]. unfold PAGE_SIZE in *. lia.
Qed.

Lemma buffer_address i : 0 <= i < Length -> address_at (coalesce first_pair later_frames) i =
  (fun pa => pa + (va + i) mod PAGE_SIZE) <$> tr (va + i).
Proof.
  intros Hi. destruct later_frames_ok as [Hpas _]. rewrite (coalesce_address _ _ i first_pair_ok Hpas) by lia.
  destruct buffer_bounds as (Ho&_&_&_&Hn&Hn1&_). cbn [first_pair pair_NumberOfBytes pair_Address].
  destruct (Z.ltb_spec i (PAGE_SIZE - o)).
  - destruct (in_page (o + i) 0 ltac:(lia)) as [E1 E2].
    replace (b + 0 * PAGE_SIZE + (o + i)) with (va + i) in E1, E2 by lia. rewrite E1, E2.
    destruct (frame_at_ok 0 ltac:(lia)) as [-> _]. cbn. f_equal. lia.
  - set (j := i - (PAGE_SIZE - o)). pose proof (Z.div_mod j PAGE_SIZE ltac:(done)) as Hd.
    pose proof (Z.mod_pos_bound j PAGE_SIZE ltac:(done)) as Hm. pose proof (Z.div_pos j PAGE_SIZE ltac:(lia) ltac:(done)).
    assert (j / PAGE_SIZE < n - 1) by (apply Z.div_lt_upper_bound; [done|unfold PAGE_SIZE in *; lia]).
    destruct (in_page (j mod PAGE_SIZE) (1 + j / PAGE_SIZE) Hm) as [E1 E2].
    replace (b + (1 + j / PAGE_SIZE) * PAGE_SIZE + j mod PAGE_SIZE) with (va + i) in E1, E2 by lia. rewrite E1, E2.
    destruct (frame_at_ok (1 + j / PAGE_SIZE) ltac:(lia)) as [-> _]. unfold zget. rewrite decide_True by done.
    unfold later_frames. rewrite list_lookup_fmap, lookup_seqZ_lt by lia. rewrite Z2Nat.id by done. done.
Qed.

Lemma buffer_sizes : AlignAddressLower va PAGE_SIZE = b /\ u32 (AddressOffset va PAGE_SIZE) = o /\
  u32 (AlignAddressUpper (u32 (Length + o)) PAGE_SIZE) = n * PAGE_SIZE /\ u32 (PAGE_SIZE - o) = PAGE_SIZE - o.
Proof.
  destruct buffer_bounds as (Ho&_&_&Hq&_&Hn1&Hru). rewrite AlignAddressLower_page, AddressOffset_page by done.
  split; [done|]. split; [apply u32_small; unfold PAGE_SIZE in *; rlia|].
  rewrite (u32_small (Length + o)) by (unfold PAGE_SIZE in *; rlia).
  rewrite AlignAddressUpper_round_up by (unfold PAGE_SIZE in *; lia). rewrite Hru.
  split; apply u32_small; unfold PAGE_SIZE in *; rlia.
Qed.
End Buffer.

(** C28: MdlAllocateEx for a buffer of a process all of whose pages are mapped (to frames other than frame 0): it returns
    a list in which the physical address of every byte of the buffer is the one the paging structures give,
    no two neighbouring pairs could be joined, and the two passes over the pages agree on the number of pairs. *)
Theorem mdl_describes_buffer IoReadFile kernel process root va Length p s d lv :
  wf_tables (km_vmm s) d lv -> paging (km_vmm s) !! p = Some d -> p <> 0 -> KernelSpace d = false ->
  PAGE_SIZE <= va -> va + Length + PAGE_SIZE < 2 ^ 64 -> 0 < Length -> Length + 2 * PAGE_SIZE < 2 ^ 32 ->
  (forall i, 0 <= i < buffer_pages va Length -> exists pa, pa <> 0 /\
     translate (phys (km_vmm s)) (BasePhysicalAddress d) (va - va mod PAGE_SIZE + i * PAGE_SIZE) = Some pa) ->
  exists mdl, MdlAllocateEx IoReadFile kernel process root va Length NULL p true s = Ok (Some mdl, s) /\
    mdl_StartVa mdl + mdl_ByteOffset mdl = va /\ mdl_ByteCount mdl = Length /\ separated (mdl_Translations mdl) /\
    (forall i, 0 <= i < Length -> address_at (mdl_Translations mdl) i =
       (fun pa => pa + (va + i) mod PAGE_SIZE) <$> translate (phys (km_vmm s)) (BasePhysicalAddress d) (va + i)).
Proof.
  intros Hwf Hp Hp0 Hk Hva Hend HL HL32 Hmap.
  pose proof (buffer_bounds va Length Hva Hend HL HL32) as (Ho&_&Hb&Hq&Hn&Hn1&_).
  pose proof (buffer_sizes va Length Hva Hend HL HL32) as (S1&S2&S3&S4).
  pose proof (get_first (km_vmm s) d lv p va Length Hwf Hp Hp0 Hva Hend HL HL32 Hmap) as G0.
  pose proof (get_frame (km_vmm s) d lv p va Length Hwf Hp Hp0 Hva Hend HL HL32 Hmap) as G.
  pose proof (first_pair_ok (km_vmm s) d va Length Hva Hend HL HL32 Hmap) as Hc.
  destruct (later_frames_ok (km_vmm s) d va Length Hva Hend HL HL32 Hmap) as [Hl Hlen].
  destruct (frame_at_ok (km_vmm s) d va Length Hmap 0 ltac:(lia)) as (_&Hnz&[[[] _] _]).
  set (cur := first_pair (km_vmm s) d va) in *. set (pas := later_frames (km_vmm s) d va Length) in *.
  assert (Hfuel : Z.to_nat (buffer_pages va Length * PAGE_SIZE / PAGE_SIZE) = Z.to_nat (buffer_pages va Length))
    by (by rewrite Z.div_mul).
  exists (mkMDL (va - va mod PAGE_SIZE) (va mod PAGE_SIZE) Length (coalesce cur pas)).
  split; [|cbn [mdl_StartVa mdl_ByteOffset mdl_ByteCount mdl_Translations]; split_and!;
           [lia|done|by apply coalesce_separated|by apply buffer_address]].
  unfold MdlAllocateEx. rewrite S1, S2, S3, S4, Hfuel.
  do 2 rewrite (bind_run _ _ _ tt s) by (apply ASSERT_run; unfold NULL, PAGE_SIZE in *; lia).
  replace (p =? NULL) with false by (unfold NULL; lia). rewrite (bind_run _ _ _ tt s) by done.
  assert (Hv : forall A (m : M Vmm A) a, m (km_vmm s) = Ok (a, km_vmm s) -> vmm_ m s = Ok (a, s)).
  { intros A m a E. rewrite (vmm_run m s a (km_vmm s) E). by destruct s. }
  rewrite (bind_run _ _ _ false s).
  2:{ rewrite (bind_run _ _ _ d s); [by rewrite Hk|]. apply Hv. unfold get_paging. by rewrite Hp. }
  rewrite (bind_run _ _ _ tt s) by done. rewrite (bind_run _ _ _ _ _ (Hv _ _ _ G0)).
  replace (_ =? NULL) with false by (unfold NULL; lia). 
  change (mkPAIR (frame_at (km_vmm s) d va 0 + va mod PAGE_SIZE) (PAGE_SIZE - va mod PAGE_SIZE)) with cur.
  assert (HL1 : Z.of_nat (length (coalesce cur pas)) = 1 + Z.of_nat (length (coalesce cur pas)) - 1) by lia.
  assert (Hb64 : va - va mod PAGE_SIZE + buffer_pages va Length * PAGE_SIZE <= 2 ^ 64) by (unfold PAGE_SIZE in *; lia).
  assert (Hn32 : buffer_pages va Length * PAGE_SIZE < 2 ^ 32) by (unfold PAGE_SIZE in *; lia).
  rewrite (bind_run _ _ _ (Z.of_nat (length (coalesce cur pas))) s).
  2:{ apply Hv. rewrite HL1.
      pose proof (count_loop_run (km_vmm s) (va - va mod PAGE_SIZE) p (buffer_pages va Length) (frame_at (km_vmm s) d va)
        Hn32 Hb64 ltac:(lia) G (Z.to_nat (buffer_pages va Length)) 1 cur 1) as E. rewrite Z.mul_1_l in E.
      apply E; unfold PAGE_SIZE in *; lia. }
  cbn [negb]. rewrite (bind_run _ _ _ _ _ (Hv _ _ _ G0)).
  rewrite (bind_run _ _ _ tt s) by (apply ASSERT_run; unfold NULL; lia). 
  change (mkPAIR (frame_at (km_vmm s) d va 0 + va mod PAGE_SIZE) (PAGE_SIZE - va mod PAGE_SIZE)) with cur.
  rewrite (bind_run _ _ _ (coalesce cur pas) s).
  2:{ apply Hv.
      pose proof (fill_loop_run (km_vmm s) (va - va mod PAGE_SIZE) p (buffer_pages va Length) (frame_at (km_vmm s) d va)
        Hn32 Hb64 ltac:(lia) G (Z.to_nat (buffer_pages va Length)) 1 cur []) as E. rewrite Z.mul_1_l in E. apply E; lia. }
  by rewrite (bind_run _ _ _ tt s) by (apply ASSERT_run, Z.eqb_refl).
Qed.

(** For a user buffer within one page that is neither mapped nor page-aligned, the NULL test of MdlAllocateEx is passed and the
    list returned describes the first bytes of physical memory. *)
Theorem mdl_of_unmapped_buffer IoReadFile kernel process root va Length p s d lv :
  wf_tables (km_vmm s) d lv -> paging (km_vmm s) !! p = Some d -> p <> 0 -> KernelSpace d = false ->
  PAGE_SIZE <= va < 2 ^ 64 -> va mod PAGE_SIZE <> 0 -> 0 < Length -> va mod PAGE_SIZE + Length <= PAGE_SIZE ->
  pte (phys (km_vmm s)) (BasePhysicalAddress d) va = None ->
  MdlAllocateEx IoReadFile kernel process root va Length NULL p true s =
    Ok (Some (mkMDL (va - va mod PAGE_SIZE) (va mod PAGE_SIZE) Length
      [mkPAIR (va mod PAGE_SIZE) (PAGE_SIZE - va mod PAGE_SIZE)]), s).
Proof.
  intros Hwf Hp Hp0 Hk Hva Ho HL Hlen Hun.
  pose proof (Z.mod_pos_bound va PAGE_SIZE ltac:(done)) as Hob.
  assert (Hq : is_qword va) by (unfold PAGE_SIZE in *; rlia).
  assert (G : MmuGetPhysicalAddressEx va p NULL (km_vmm s) = Ok (va mod PAGE_SIZE, km_vmm s)).
  { rewrite (MmuGetPhysicalAddressEx_run va p (km_vmm s) d lv) by done. unfold translate. by rewrite Hun. }
  assert (Hv : forall A (m : M Vmm A) a, m (km_vmm s) = Ok (a, km_vmm s) -> vmm_ m s = Ok (a, s)).
  { intros A m a E. rewrite (vmm_run m s a (km_vmm s) E). by destruct s. }
  assert (Eup : u32 (AlignAddressUpper (u32 (Length + va mod PAGE_SIZE)) PAGE_SIZE) = PAGE_SIZE).
  { rewrite (u32_small (Length + _)) by (unfold PAGE_SIZE in *; rlia).
    rewrite AlignAddressUpper_round_up by (unfold PAGE_SIZE in *; lia). unfold round_up.
    replace ((Length + va mod PAGE_SIZE + PAGE_SIZE - 1) / PAGE_SIZE) with 1; [done|].
    apply (Z.div_unique _ _ 1 (Length + va mod PAGE_SIZE - 1)); lia. }
  unfold MdlAllocateEx. rewrite AlignAddressLower_page, AddressOffset_page by done.
  rewrite (u32_small (va mod PAGE_SIZE)), Eup, (u32_small (PAGE_SIZE - _)) by (unfold PAGE_SIZE in *; rlia).
  do 2 rewrite (bind_run _ _ _ tt s) by (apply ASSERT_run; unfold NULL, PAGE_SIZE in *; lia).
  replace (p =? NULL) with false by (unfold NULL; lia). rewrite (bind_run _ _ _ tt s) by done.
  rewrite (bind_run _ _ _ false s).
  2:{ rewrite (bind_run _ _ _ d s); [by rewrite Hk|]. apply Hv. unfold get_paging. by rewrite Hp. }
  rewrite (bind_run _ _ _ tt s) by done. rewrite (bind_run _ _ _ _ _ (Hv _ _ _ G)).
  replace (_ =? NULL) with false by (unfold NULL; lia).
  change (Z.to_nat (PAGE_SIZE / PAGE_SIZE)) with 1%nat.
  rewrite (bind_run _ _ _ 1 s) by (apply Hv; reflexivity). cbn [negb].
  rewrite (bind_run _ _ _ _ _ (Hv _ _ _ G)).
  rewrite (bind_run _ _ _ tt s) by (apply ASSERT_run; unfold NULL; lia).
  rewrite (bind_run _ _ _ _ s) by (apply Hv; reflexivity). reflexivity.
Qed.

(** * A mapped buffer of the demonstration process *)
Definition demo_buffer_vmm : Vmm :=
  match VmmMapMemoryInternal demo_process 0x7000 0x2000 0x400000 PAGE_RIGHTS_READWRITE true false (km_vmm demo_kmem) with
  | Ok (_, v) => v
  | Err _ => km_vmm demo_kmem
  end.

Lemma demo_buffer_wf : exists d lv, wf_tables demo_buffer_vmm d lv /\ paging demo_buffer_vmm !! demo_process = Some d /\
  BasePhysicalAddress d = 0x40000 /\ KernelSpace d = false.
Proof.
  destruct (VmmMapMemoryInternal_run demo_process 0x7000 0x400000 2 PAGE_RIGHTS_READWRITE true false (km_vmm demo_kmem)
    demo_user_data {[0x40000 := 1]}) as (s'&d'&lv'&E&[Ev _ _ _ _]).
  - done.
  - split; unfold PAGE_SIZE; (reflexivity || lia).
  - apply demo_phys_ok.
  - unfold PAGE_SIZE, MAXPHYADDR. lia.
  - apply demo_kmem_wf.
  - reflexivity.
  - vm_compute. discriminate.
  - assert (demo_buffer_vmm = s') as ->.
    { unfold demo_buffer_vmm. change 0x2000 with (2 * PAGE_SIZE). by rewrite E. }
    exists d', lv'. destruct (ev_data _ _ _ _ _ _ _ Ev) as (Eb&_&Ek). split; [apply Ev|].
    split; [by eapply evolves_get|]. split; [exact Eb|exact Ek].
Qed.

Lemma mdl_describes_buffer_witness :
  exists mdl, MdlAllocateEx no_files demo_kernel demo_process 0x40000 0x400010 0x1800 NULL demo_process true
      (with_vmm demo_buffer_vmm demo_kmem) = Ok (Some mdl, with_vmm demo_buffer_vmm demo_kmem) /\
    address_at (mdl_Translations mdl) 0x1000 = Some 0x8010 /\ separated (mdl_Translations mdl).
Proof.
  destruct demo_buffer_wf as (d&lv&Hwf&Hp&Hb&Hk).
  destruct (mdl_describes_buffer no_files demo_kernel demo_process 0x40000 0x400010 0x1800 demo_process
    (with_vmm demo_buffer_vmm demo_kmem) d lv) as (mdl&E&_&_&Hsep&Ha).
  - exact Hwf.
  - exact Hp.
  - done.
  - exact Hk.
  - unfold PAGE_SIZE. lia.
  - unfold PAGE_SIZE. lia.
  - lia.
  - unfold PAGE_SIZE. lia.
  - change (buffer_pages 0x400010 0x1800) with 2. intros i Hi. rewrite Hb.
    assert (i = 0 \/ i = 1) as [-> | ->] by lia; [exists 0x7000|exists 0x8000]; split; [done|vm_compute; reflexivity|done|vm_compute; reflexivity].
  - exists mdl. split; [exact E|]. split; [|exact Hsep]. rewrite Ha by lia. rewrite Hb. vm_compute. reflexivity.
Defined.
