(* ===== verification/PeParser.v ===== *)
(** PE_Parser/src/pe_parser.c, and the code of HAL9000/src/mmu.c that validates the kernel image and maps an image section by
    section (_MmuRetrieveKernelInfoAndValidate, _MmuMapPeInMemory, MmuLoadPe).

    An image is a range of bytes of the memory; a field of a header is read at its offset in the packed structures of
    pe_structures.h.  A function that returns a STATUS and fills a structure returns [inl status] when it fails and
    [inr structure] when it succeeds; no caller uses what a failed call leaves in the structure.  The mapper returns its
    calls of VmmMapMemoryInternal in order. *)
From S2P Require Import Prelude IntUtils ClMemory VmReservation PageFault.

Definition STATUS_INVALID_MZ_IMAGE : Z := error_status GENERAL_MASK 0x0023.
Definition STATUS_INVALID_IMAGE_SIZE : Z := error_status GENERAL_MASK 0x0024.
Definition STATUS_INVALID_PE_IMAGE : Z := error_status GENERAL_MASK 0x0025.
Definition STATUS_IMAGE_NOT_64_BIT : Z := error_status GENERAL_MASK 0x0026.
Definition STATUS_IMAGE_SUBSYSTEM_NOT_NATIVE : Z := error_status GENERAL_MASK 0x0027.
Definition STATUS_IMAGE_NOT_FULLY_LOADED : Z := error_status GENERAL_MASK 0x0028.
Definition STATUS_IMAGE_HAS_RELOCATIONS : Z := error_status GENERAL_MASK 0x0029.
Definition STATUS_NOT_IMPLEMENTED : Z := error_status GENERAL_MASK 0x002A.

Definition MZ_SIGNATURE : Z := 0x5A4D.
Definition NT_SIGNATURE : Z := 0x00004550.
Definition IMAGE_FILE_MACHINE_AMD64 : Z := 0x8664.
Definition IMAGE_SUBSYSTEM_NATIVE : Z := 1.
Definition IMAGE_DIRECTORY_ENTRY_BASERELOC : Z := 5.
Definition IMAGE_DIRECTORY_ENTRY_COM_DESCRIPTOR : Z := 14.
Definition IMAGE_SCN_MEM_EXECUTE : Z := 0x20000000.
Definition IMAGE_SCN_MEM_READ : Z := 0x40000000.
Definition IMAGE_SCN_MEM_WRITE : Z := 0x80000000.
Definition SIZEOF_IMAGE_NT_HEADERS64 : Z := 264.
Definition SIZEOF_IMAGE_FILE_HEADER : Z := 20.
Definition SIZEOF_IMAGE_SECTION_HEADER : Z := 40.
Definition SIZEOF_IMAGE_DATA_DIRECTORY : Z := 8.

(** A field of [n] bytes. *)
Definition load (n : nat) (p : Z) : M Mem Z := bs ← read_bytes p n; ret (le bs).

(** The fields that are used, at their offsets. *)
Definition e_magic (pDos : Z) : M Mem Z := load 2 pDos.
Definition e_lfanew (pDos : Z) : M Mem Z := load 4 (pDos + 60).
Definition nt_Signature (nt : Z) : M Mem Z := load 4 nt.
Definition nt_Machine (nt : Z) : M Mem Z := load 2 (nt + 4).
Definition nt_NumberOfSections (nt : Z) : M Mem Z := load 2 (nt + 6).
Definition nt_SizeOfOptionalHeader (nt : Z) : M Mem Z := load 2 (nt + 20).
Definition nt_AddressOfEntryPoint (nt : Z) : M Mem Z := load 4 (nt + 40).
Definition nt_ImageBase (nt : Z) : M Mem Z := load 8 (nt + 48).
Definition nt_SectionAlignment (nt : Z) : M Mem Z := load 4 (nt + 56).
Definition nt_FileAlignment (nt : Z) : M Mem Z := load 4 (nt + 60).
Definition nt_SizeOfImage (nt : Z) : M Mem Z := load 4 (nt + 80).
Definition nt_SizeOfHeaders (nt : Z) : M Mem Z := load 4 (nt + 84).
Definition nt_Subsystem (nt : Z) : M Mem Z := load 2 (nt + 92).
Definition nt_NumberOfRvaAndSizes (nt : Z) : M Mem Z := load 4 (nt + 132).
Definition nt_DataDirectory (nt i : Z) : Z := u64 (nt + 136 + SIZEOF_IMAGE_DATA_DIRECTORY * i).
Definition dd_VirtualAddress (p : Z) : M Mem Z := load 4 p.
Definition dd_Size (p : Z) : M Mem Z := load 4 (p + 4).
Definition sh_VirtualSize (p : Z) : M Mem Z := load 4 (p + 8).
Definition sh_VirtualAddress (p : Z) : M Mem Z := load 4 (p + 12).
Definition sh_Characteristics (p : Z) : M Mem Z := load 4 (p + 36).

Record PE_NT_HEADER_INFO := mkNT {
  ImageBase : Z; NtBase : Z; AddressOfEntryPoint : Z; ImageAlignment : Z; FileAlignment : Z;
  Preferred_ImageBase : Z; Preferred_AddressOfEntryPoint : Z; Size : Z; Machine : Z; Subsystem : Z;
  SizeOfHeaders : Z; NumberOfSections : Z }.
Record PE_SECTION_INFO := mkSection { sec_BaseAddress : Z; sec_Size : Z; sec_Characteristics : Z }.
Record PE_DATA_DIRECTORY := mkDirectory { dir_BaseAddress : Z; dir_Size : Z }.

(** * The parser *)
Definition PeRetrieveNtHeader (ImageBase ImageSize : Z) : M Mem (Z + PE_NT_HEADER_INFO) :=
  if NULL =? ImageBase then ret (inl STATUS_INVALID_PARAMETER1) else
  if 0 =? ImageSize then ret (inl STATUS_INVALID_PARAMETER2) else
  magic ← e_magic ImageBase;
  if negb (MZ_SIGNATURE =? magic) then ret (inl STATUS_INVALID_MZ_IMAGE) else
  lfanew ← e_lfanew ImageBase;
  let nt := u64 (ImageBase + i32 lfanew) in
  if negb (CHECK_BOUNDS nt SIZEOF_IMAGE_NT_HEADERS64 ImageBase ImageSize) then ret (inl STATUS_INVALID_IMAGE_SIZE) else
  signature ← nt_Signature nt;
  if negb (NT_SIGNATURE =? signature) then ret (inl STATUS_INVALID_PE_IMAGE) else
  size ← nt_SizeOfImage nt;
  machine ← nt_Machine nt;
  subsystem ← nt_Subsystem nt;
  entry ← nt_AddressOfEntryPoint nt;
  sizeOfHeaders ← nt_SizeOfHeaders nt;
  numberOfSections ← nt_NumberOfSections nt;
  imageAlignment ← nt_SectionAlignment nt;
  fileAlignment ← nt_FileAlignment nt;
  preferred ← nt_ImageBase nt;
  ret (inr (mkNT ImageBase nt (PtrOffset ImageBase entry) imageAlignment fileAlignment preferred (PtrOffset preferred entry)
              size machine subsystem sizeOfHeaders numberOfSections)).

Definition PeRetrieveSection (NtInfo : PE_NT_HEADER_INFO) (SectionIndex : Z) : M Mem (Z + PE_SECTION_INFO) :=
  if NumberOfSections NtInfo <=? SectionIndex then ret (inl STATUS_INVALID_PARAMETER2) else
  if negb (IMAGE_FILE_MACHINE_AMD64 =? Machine NtInfo) then ret (inl STATUS_UNSUPPORTED) else
  sizeOfOptionalHeader ← nt_SizeOfOptionalHeader (NtBase NtInfo);
  let pSections := u64 (NtBase NtInfo + 4 + SIZEOF_IMAGE_FILE_HEADER + sizeOfOptionalHeader) in
  if negb (CHECK_BOUNDS pSections (SIZEOF_IMAGE_SECTION_HEADER * NumberOfSections NtInfo) (ImageBase NtInfo) (Size NtInfo))
  then ret (inl STATUS_INVALID_IMAGE_SIZE) else
  let p := u64 (pSections + SIZEOF_IMAGE_SECTION_HEADER * SectionIndex) in
  virtualAddress ← sh_VirtualAddress p;
  virtualSize ← sh_VirtualSize p;
  characteristics ← sh_Characteristics p;
  let section := mkSection (u64 (ImageBase NtInfo + virtualAddress)) virtualSize characteristics in
  if negb (CHECK_BOUNDS (sec_BaseAddress section) (sec_Size section) (ImageBase NtInfo) (Size NtInfo))
  then ret (inl STATUS_INVALID_IMAGE_SIZE) else
  ret (inr section).

Definition PeRetrieveDataDirectory (NtInfo : PE_NT_HEADER_INFO) (DataDirectory : Z) : M Mem (Z + PE_DATA_DIRECTORY) :=
  if IMAGE_DIRECTORY_ENTRY_COM_DESCRIPTOR <? DataDirectory then ret (inl STATUS_INVALID_PARAMETER2) else
  if negb (IMAGE_FILE_MACHINE_AMD64 =? Machine NtInfo) then ret (inl STATUS_UNSUPPORTED) else
  n ← nt_NumberOfRvaAndSizes (NtBase NtInfo);
  if n <=? DataDirectory then ret (inl STATUS_INVALID_PARAMETER2) else
  let pDataDirectory := nt_DataDirectory (NtBase NtInfo) DataDirectory in
  if negb (CHECK_BOUNDS pDataDirectory SIZEOF_IMAGE_DATA_DIRECTORY (ImageBase NtInfo) (Size NtInfo))
  then ret (inl STATUS_INVALID_IMAGE_SIZE) else
  virtualAddress ← dd_VirtualAddress pDataDirectory;
  size ← dd_Size pDataDirectory;
  let directory := mkDirectory (u64 (ImageBase NtInfo + virtualAddress)) size in
  if negb (CHECK_BOUNDS (dir_BaseAddress directory) (dir_Size directory) (ImageBase NtInfo) (Size NtInfo))
  then ret (inl STATUS_INVALID_IMAGE_SIZE) else
  ret (inr directory).

(** * mmu.c *)
Definition _MmuRetrieveKernelInfoAndValidate (KernelBase ImageSize : Z) : M Mem (Z + PE_NT_HEADER_INFO) :=
  _ ← ASSERT (negb (NULL =? KernelBase));
  _ ← ASSERT (negb (0 =? ImageSize));
  r ← PeRetrieveNtHeader KernelBase ImageSize;
  match r with
  | inl st => ret (inl st)
  | inr KernelInfo =>
    if ImageSize <? Size KernelInfo then ret (inl STATUS_IMAGE_NOT_FULLY_LOADED) else
    if negb (IMAGE_FILE_MACHINE_AMD64 =? Machine KernelInfo) then ret (inl STATUS_IMAGE_NOT_64_BIT) else
    if negb (IMAGE_SUBSYSTEM_NATIVE =? Subsystem KernelInfo) then ret (inl STATUS_IMAGE_SUBSYSTEM_NOT_NATIVE) else
    r ← PeRetrieveDataDirectory KernelInfo IMAGE_DIRECTORY_ENTRY_BASERELOC;
    match r with
    | inl st => ret (inl st)
    | inr dataDirectory =>
      if negb (0 =? dir_Size dataDirectory) then ret (inl STATUS_IMAGE_HAS_RELOCATIONS) else ret (inr KernelInfo)
    end
  end.

(** A call of VmmMapMemoryInternal for one page: the page of the loaded image whose frame is mapped, the address and the rights. *)
Record map_call := mkMap { mc_Source : Z; mc_Address : Z; mc_Rights : Z }.

Section Map.
Context (HeaderInfo : PE_NT_HEADER_INFO) (AddressToMap : Z).

Definition map_page (page rights : Z) : map_call :=
  mkMap (PtrOffset (ImageBase HeaderInfo) (PtrDiff page AddressToMap)) page rights.

(** The loop over the pages of the headers. *)
Fixpoint header_pages (fuel : nat) (pHeaderPage : Z) : outcome (list map_call) :=
  match fuel with
  | O => Err NoFuel
  | S fuel' =>
    if pHeaderPage <? u64 (PtrDiff (PtrOffset AddressToMap (SizeOfHeaders HeaderInfo)) PAGE_SIZE) then
      l ← header_pages fuel' (PtrOffset pHeaderPage PAGE_SIZE);
      Ok (map_page pHeaderPage PAGE_RIGHTS_READ :: l)
    else Ok []
  end.

(** The loop over the whole pages of a section. *)
Fixpoint section_pages (fuel : nat) (pPage pAlignedAddress sectionSize rights : Z) : outcome (list map_call) :=
  match fuel with
  | O => Err NoFuel
  | S fuel' =>
    if PtrOffset pPage PAGE_SIZE <=? PtrOffset pAlignedAddress sectionSize then
      l ← section_pages fuel' (PtrOffset pPage PAGE_SIZE) pAlignedAddress sectionSize rights;
      Ok (map_page pPage rights :: l)
    else Ok []
  end.

(** The variables of the loop over the sections, with the calls made so far. *)
Record map_state := mkMS {
  prevSectionRequiredRights : Z; remainingSize : Z; sectionSize : Z; pAlignedAddress : Z; calls : list map_call }.

Definition section_rights (Characteristics : Z) : Z :=
  let r := if IsBooleanFlagOn Characteristics IMAGE_SCN_MEM_READ then PAGE_RIGHTS_READ else 0 in
  let r := Z.lor r (if IsBooleanFlagOn Characteristics IMAGE_SCN_MEM_WRITE then PAGE_RIGHTS_WRITE else 0) in
  Z.lor r (if IsBooleanFlagOn Characteristics IMAGE_SCN_MEM_EXECUTE then PAGE_RIGHTS_EXECUTE else 0).

Definition map_section (section : PE_SECTION_INFO) (st : map_state) : outcome map_state :=
  let sectionSize := u32 (AlignAddressUpper (sec_Size section) (ImageAlignment HeaderInfo)) in
  let cur := section_rights (sec_Characteristics section) in
  _ ← assert_ (negb (IsBooleanFlagOn cur (Z.lor PAGE_RIGHTS_WRITE PAGE_RIGHTS_EXECUTE)));
  if sectionSize <? remainingSize st then
    Ok (mkMS (Z.lor (prevSectionRequiredRights st) cur) (u32 (remainingSize st - sectionSize)) sectionSize (pAlignedAddress st) (calls st))
  else
    let aligned := AlignAddressLower (PtrOffset AddressToMap (PtrDiff (sec_BaseAddress section) (ImageBase HeaderInfo))) PAGE_SIZE in
    let '(aligned, sectionSize, calls) :=
      if negb (0 =? remainingSize st) then
        (PtrOffset aligned PAGE_SIZE, u32 (sectionSize - remainingSize st),
         calls st ++ [map_page aligned (Z.lor (prevSectionRequiredRights st) cur)])
      else (aligned, sectionSize, calls st) in
    l ← section_pages (S (Z.to_nat (sectionSize / PAGE_SIZE))) aligned aligned sectionSize cur;
    Ok (mkMS cur (u32 (PAGE_SIZE - AddressOffset sectionSize PAGE_SIZE)) sectionSize aligned (calls ++ l)).

(** The loop over the sections from index [i] on, [n] of them: the status and the variables. *)
Fixpoint map_sections (n : nat) (i : Z) (st : map_state) : M Mem (Z * map_state) :=
  match n with
  | O => ret (STATUS_SUCCESS, st)
  | S n' =>
    r ← PeRetrieveSection HeaderInfo i;
    match r with
    | inl status => ret (status, st)
    | inr section => st ← lift (map_section section st); map_sections n' (i + 1) st
    end
  end.

Definition _MmuMapPeInMemory : M Mem (Z * list map_call) :=
  _ ← ASSERT (IsAddressAligned (ImageBase HeaderInfo) PAGE_SIZE);
  _ ← ASSERT (negb (NULL =? AddressToMap));
  _ ← ASSERT (IsAddressAligned AddressToMap PAGE_SIZE);
  if negb (FileAlignment HeaderInfo =? ImageAlignment HeaderInfo) then ret (STATUS_NOT_IMPLEMENTED, []) else
  headers ← lift (header_pages (S (Z.to_nat (SizeOfHeaders HeaderInfo / PAGE_SIZE))) AddressToMap);
  let remaining := u32 (PAGE_SIZE - AddressOffset (SizeOfHeaders HeaderInfo) PAGE_SIZE) in
  '(status, st) ← map_sections (Z.to_nat (NumberOfSections HeaderInfo)) 0 (mkMS PAGE_RIGHTS_READ remaining 0 NULL headers);
  if negb (SUCCEEDED status) then ret (status, calls st) else
  if negb (sectionSize st =? 0)
  then ret (status, calls st ++ [map_page (pAlignedAddress st) (prevSectionRequiredRights st)])
  else ret (status, calls st).
End Map.

(** The image is mapped at its preferred address. *)
Definition MmuLoadPe (NtHeader : PE_NT_HEADER_INFO) : M Mem (Z * list map_call) :=
  _MmuMapPeInMemory NtHeader (Preferred_ImageBase NtHeader).

(** * Reading fields *)
(** The value of a field; memory holds bytes. *)
Definition field_at (m : Mem) (n : nat) (p : Z) : Z := le ((fun i => m !!! (p + i)) <$> seqZ 0 (Z.of_nat n)).
Definition byte_memory (m : Mem) : Prop := forall a b, m !! a = Some b -> 0 <= b < 256.

Lemma read_bytes_field n : forall m p, mapped m p (Z.of_nat n) ->
  read_bytes p n m = Ok ((fun i => m !!! (p + i)) <$> seqZ 0 (Z.of_nat n), m).
Proof.
  intros m p Hm. destruct (read_bytes_spec n p m Hm) as (bs&E&Hl&Hb). rewrite E. do 2 f_equal. apply list_eq. intros i.
  destruct (decide (i < n)%nat) as [Hi|Hi].
  - destruct (lookup_lt_is_Some_2 bs i ltac:(lia)) as [b Hbi]. rewrite Hbi, list_lookup_fmap, lookup_seqZ_lt by lia. cbn [fmap option_fmap option_map].
    f_equal. symmetry. apply lookup_total_correct. rewrite <- (Hb i b Hbi). f_equal.
  - rewrite !lookup_ge_None_2; [done|rewrite length_fmap, length_seqZ; lia|lia].
Qed.

Lemma load_run n m p : mapped m p (Z.of_nat n) -> load n p m = Ok (field_at m n p, m).
Proof. intros H. unfold load. by rewrite (bind_run _ _ _ _ _ (read_bytes_field n m p H)). Qed.

Lemma le_range l : Forall (fun b => 0 <= b < 256) l -> 0 <= le l < 2 ^ (8 * Z.of_nat (length l)).
Proof.
  induction 1 as [|b l Hb _ IH]; [cbn; lia|]. cbn [le length].
  replace (8 * Z.of_nat (S (length l))) with (8 + 8 * Z.of_nat (length l)) by lia. rewrite Z.pow_add_r by lia.
  change (2 ^ 8) with 256 in *. lia.
Qed.

Lemma field_range m n p : byte_memory m -> 0 <= field_at m n p < 2 ^ (8 * Z.of_nat n).
Proof.
  intros Hm. unfold field_at. set (l := _ <$> _).
  assert (length l = n) as Hl by (unfold l; rewrite length_fmap, length_seqZ; lia). replace (Z.of_nat n) with (Z.of_nat (length l)) by lia. apply le_range.
  unfold l. apply Forall_fmap, Forall_forall. intros i _. cbn. unfold lookup_total, map_lookup_total.
  destruct (m !! (p + i)) as [b|] eqn:E; cbn; [by apply (Hm (p + i))|lia].
Qed.

(** * The parser reads inside the image *)
(** An image of [size] bytes at [base]. *)
Record image (m : Mem) (base size : Z) : Prop := {
  im_bytes : byte_memory m;
  im_mapped : mapped m base size;
  im_base : 2 ^ 31 <= base /\ base + 2 ^ 34 < 2 ^ 64;
  im_size : 0 <= size < 2 ^ 32 }.

Section Parser.
Context (m : Mem) (base size : Z) (Him : image m base size).

Lemma in_image p n : base <= p -> p + Z.of_nat n <= base + size -> mapped m p (Z.of_nat n).
Proof. intros H1 H2 a Ha. apply (im_mapped _ _ _ Him). lia. Qed.

Lemma load_in n p : base <= p -> p + Z.of_nat n <= base + size -> load n p m = Ok (field_at m n p, m).
Proof. intros. by apply load_run, in_image. Qed.

Lemma bounds_inside p n s : base <= p < 2 ^ 64 -> 0 <= n -> p + n < 2 ^ 64 -> 0 <= s < 2 ^ 32 ->
  CHECK_BOUNDS p n base s = true <-> p + n <= base + s.
Proof. intros. destruct (im_base _ _ _ Him). rewrite CHECK_BOUNDS_spec by rlia. lia. Qed.
(** What is known of a header that was accepted. *)
Record header_ok (info : PE_NT_HEADER_INFO) : Prop := {
  ho_base : ImageBase info = base;
  ho_nt : base <= NtBase info /\ NtBase info + SIZEOF_IMAGE_NT_HEADERS64 <= base + size;
  ho_signatures : field_at m 2 base = MZ_SIGNATURE /\ field_at m 4 (NtBase info) = NT_SIGNATURE;
  ho_size : Size info = field_at m 4 (NtBase info + 80);
  ho_machine : Machine info = field_at m 2 (NtBase info + 4);
  ho_sections : NumberOfSections info = field_at m 2 (NtBase info + 6);
  ho_headers : SizeOfHeaders info = field_at m 4 (NtBase info + 84);
  ho_alignment : ImageAlignment info = field_at m 4 (NtBase info + 56) /\ FileAlignment info = field_at m 4 (NtBase info + 60);
  ho_preferred : Preferred_ImageBase info = field_at m 8 (NtBase info + 48) }.

Lemma header_ranges info : header_ok info -> 0 <= Size info < 2 ^ 32 /\ 0 <= NumberOfSections info < 2 ^ 16.
Proof.
  intros H. rewrite (ho_size _ H), (ho_sections _ H). split; [apply (field_range m 4)|apply (field_range m 2)]; apply Him.
Qed.

Lemma header_run : 64 <= size -> exists r, PeRetrieveNtHeader base size m = Ok (r, m) /\
  match r with inl st => SUCCEEDED st = false | inr info => header_ok info end.
Proof.
  intros Hs. destruct (im_base _ _ _ Him) as [Hb1 Hb2]. pose proof (im_size _ _ _ Him). unfold PeRetrieveNtHeader, NULL.
  rewrite (proj2 (Z.eqb_neq 0 base)), (proj2 (Z.eqb_neq 0 size)) by lia.
  rewrite (bind_run _ _ _ _ _ (load_in 2 base ltac:(lia) ltac:(lia))). destruct (Z.eqb_spec MZ_SIGNATURE (field_at m 2 base)) as [Emz|]; [|eexists; by split].
  cbn [negb]. rewrite (bind_run _ _ _ _ _ (load_in 4 (base + 60) ltac:(lia) ltac:(lia))).
  pose proof (field_range m 4 (base + 60) (im_bytes _ _ _ Him)) as Hl. change (2 ^ (8 * Z.of_nat 4)) with (2 ^ 32) in Hl.
  set (x := i32 (field_at m 4 (base + 60))). assert (- 2 ^ 31 <= x < 2 ^ 31) as Hx.
  { unfold x, i32. pose proof (Z.mod_pos_bound (field_at m 4 (base + 60) + 2 ^ 31) (2 ^ 32) ltac:(lia)). lia. }
  rewrite (u64_small (base + x)) by rlia. set (nt := base + x).
  destruct (CHECK_BOUNDS nt SIZEOF_IMAGE_NT_HEADERS64 base size) eqn:Ec; cbn [negb]; [|eexists; by split].
  rewrite CHECK_BOUNDS_spec in Ec by (unfold SIZEOF_IMAGE_NT_HEADERS64, nt; rlia). unfold SIZEOF_IMAGE_NT_HEADERS64 in Ec.
  rewrite (bind_run _ _ _ _ _ (load_in 4 nt ltac:(lia) ltac:(lia))).
  destruct (Z.eqb_spec NT_SIGNATURE (field_at m 4 nt)) as [Esg|]; cbn [negb]; [|eexists; by split].
  unfold nt_SizeOfImage, nt_Machine, nt_Subsystem, nt_AddressOfEntryPoint, nt_SizeOfHeaders, nt_NumberOfSections, nt_SectionAlignment, nt_FileAlignment, nt_ImageBase.
  do 9 (erewrite bind_run by (apply load_in; lia)).
  eexists. split; [done|]. by split.
Qed.

(** ** Sections and directories of an image that is loaded completely *)
Definition inside (p n : Z) (info : PE_NT_HEADER_INFO) : Prop := base <= p /\ p + n <= base + Size info.
Abbreviation section_table info := (NtBase info + 24 + field_at m 2 (NtBase info + 20)).

(** A check against the size the header states is a check against the bytes that are there. *)
Lemma check_run info p n : header_ok info -> base <= p < base + 2 ^ 33 -> 0 <= n < 2 ^ 33 ->
  CHECK_BOUNDS p n (ImageBase info) (Size info) = true <-> inside p n info.
Proof.
  intros H Hp Hn. destruct (header_ranges info H) as [? _]. destruct (im_base _ _ _ Him). rewrite (ho_base _ H).
  unfold inside. rewrite CHECK_BOUNDS_spec by rlia. done.
Qed.

Definition section_ok (info : PE_NT_HEADER_INFO) (i : Z) (sec : PE_SECTION_INFO) : Prop :=
  let p := section_table info + SIZEOF_IMAGE_SECTION_HEADER * i in
  sec = mkSection (base + field_at m 4 (p + 12)) (field_at m 4 (p + 8)) (field_at m 4 (p + 36)) /\
  inside (sec_BaseAddress sec) (sec_Size sec) info.

Lemma section_run info i : header_ok info -> Size info <= size -> 0 <= i ->
  exists r, PeRetrieveSection info i m = Ok (r, m) /\
    match r with inl st => SUCCEEDED st = false | inr sec => section_ok info i sec end.
Proof.
  intros H Hfull Hi. destruct (header_ranges info H) as [Hsz Hn]. destruct (im_base _ _ _ Him) as [Hb1 Hb2].
  pose proof (im_size _ _ _ Him). pose proof (ho_nt _ H) as Hnt. unfold SIZEOF_IMAGE_NT_HEADERS64 in Hnt. unfold PeRetrieveSection.
  destruct (Z.leb_spec (NumberOfSections info) i); [eexists; by split|].
  destruct (negb _); [eexists; by split|].
  rewrite (bind_run _ _ _ _ _ (load_in 2 (NtBase info + 20) ltac:(lia) ltac:(lia))).
  pose proof (field_range m 2 (NtBase info + 20) (im_bytes _ _ _ Him)) as Ho. change (2 ^ (8 * Z.of_nat 2)) with (2 ^ 16) in Ho.
  assert (u64 (NtBase info + 4 + SIZEOF_IMAGE_FILE_HEADER + field_at m 2 (NtBase info + 20)) = section_table info) as ->
    by (unfold SIZEOF_IMAGE_FILE_HEADER; rewrite u64_small by rlia; lia).
  set (t := section_table info). assert (base <= t < base + 2 ^ 33) as Ht by (unfold t; lia).
  destruct (CHECK_BOUNDS t _ (ImageBase info) (Size info)) eqn:Ec; cbn [negb]; [|eexists; by split].
  apply (check_run info) in Ec as [_ Ec]; [|done|done|unfold SIZEOF_IMAGE_SECTION_HEADER; lia].
  unfold SIZEOF_IMAGE_SECTION_HEADER in *. rewrite (u64_small (t + 40 * i)) by rlia. set (p := t + 40 * i).
  unfold sh_VirtualAddress, sh_VirtualSize, sh_Characteristics. do 3 (erewrite bind_run by (apply load_in; unfold p; lia)).
  pose proof (field_range m 4 (p + 12) (im_bytes _ _ _ Him)) as Hva. pose proof (field_range m 4 (p + 8) (im_bytes _ _ _ Him)) as Hvs.
  change (2 ^ (8 * Z.of_nat 4)) with (2 ^ 32) in *. cbn [sec_BaseAddress sec_Size]. rewrite (ho_base _ H), (u64_small (base + _)) by rlia.
  rewrite <- (ho_base _ H). destruct (CHECK_BOUNDS _ _ _ _) eqn:Es; cbn [negb]; [|eexists; by split].
  apply (check_run info) in Es; [|done|rewrite (ho_base _ H); lia|lia]. eexists. split; [done|]. split; [by rewrite (ho_base _ H)|done].
Qed.

Definition directory_ok (info : PE_NT_HEADER_INFO) (i : Z) (d : PE_DATA_DIRECTORY) : Prop :=
  let p := NtBase info + 136 + SIZEOF_IMAGE_DATA_DIRECTORY * i in
  d = mkDirectory (base + field_at m 4 p) (field_at m 4 (p + 4)) /\ inside (dir_BaseAddress d) (dir_Size d) info.

Lemma directory_run info i : header_ok info -> Size info <= size -> 0 <= i ->
  exists r, PeRetrieveDataDirectory info i m = Ok (r, m) /\
    match r with inl st => SUCCEEDED st = false | inr d => directory_ok info i d end.
Proof.
  intros H Hfull Hi. destruct (header_ranges info H) as [Hsz Hn]. destruct (im_base _ _ _ Him) as [Hb1 Hb2].
  pose proof (im_size _ _ _ Him). pose proof (ho_nt _ H) as Hnt. unfold SIZEOF_IMAGE_NT_HEADERS64 in Hnt. unfold PeRetrieveDataDirectory.
  unfold IMAGE_DIRECTORY_ENTRY_COM_DESCRIPTOR. destruct (Z.ltb_spec 14 i); [eexists; by split|].
  destruct (negb _); [eexists; by split|].
  rewrite (bind_run _ _ _ _ _ (load_in 4 (NtBase info + 132) ltac:(lia) ltac:(lia))).
  destruct (_ <=? i); [eexists; by split|]. unfold nt_DataDirectory, SIZEOF_IMAGE_DATA_DIRECTORY.
  rewrite (u64_small (NtBase info + 136 + _)) by rlia. set (p := NtBase info + 136 + 8 * i).
  destruct (CHECK_BOUNDS p _ _ _) eqn:Ec; cbn [negb]; [|eexists; by split].
  apply (check_run info) in Ec as [_ Ec]; [|done|unfold p; lia|lia].
  unfold dd_VirtualAddress, dd_Size. do 2 (erewrite bind_run by (apply load_in; unfold p; lia)).
  pose proof (field_range m 4 p (im_bytes _ _ _ Him)) as Hva. pose proof (field_range m 4 (p + 4) (im_bytes _ _ _ Him)) as Hvs.
  change (2 ^ (8 * Z.of_nat 4)) with (2 ^ 32) in *. cbn [dir_BaseAddress dir_Size]. rewrite (ho_base _ H), (u64_small (base + _)) by rlia.
  rewrite <- (ho_base _ H). destruct (CHECK_BOUNDS _ _ _ _) eqn:Es; cbn [negb]; [|eexists; by split].
  apply (check_run info) in Es; [|done|rewrite (ho_base _ H); lia|lia]. eexists. split; [done|]. split; [by rewrite (ho_base _ H)|done].
Qed.
End Parser.


(** * Mapping an image whose sections are page aligned *)
Section Load.
Context (m : Mem) (info : PE_NT_HEADER_INFO) (A : Z).
Abbreviation B := (ImageBase info).
Abbreviation at_page := (map_page info A).

(** The pages [from], [from + 1], ... of the image. *)
Definition pages (off from n rights : Z) : list map_call :=
  (fun j => mkMap (B + off + j * PAGE_SIZE) (A + off + j * PAGE_SIZE) rights) <$> seqZ from n.
Definition page_count (size : Z) : Z := (size + PAGE_SIZE - 1) / PAGE_SIZE.
Definition offset_of (sec : PE_SECTION_INFO) : Z := sec_BaseAddress sec - B.

(** The calls for the sections, the rights of the page before a section being [prev]. *)
Fixpoint section_calls (prev : Z) (secs : list PE_SECTION_INFO) : list map_call :=
  match secs with
  | [] => []
  | sec :: secs' =>
    let cur := section_rights (sec_Characteristics sec) in
    pages (offset_of sec) 0 1 (Z.lor prev cur) ++ pages (offset_of sec) 1 (page_count (sec_Size sec) - 1) cur ++
    section_calls cur secs'
  end.
(** The call after the loop: the second page of the last section again, when it has one. *)
Definition last_call (secs : list PE_SECTION_INFO) : list map_call :=
  match last secs with
  | Some sec => if page_count (sec_Size sec) =? 1 then [] else
                pages (offset_of sec) 1 1 (section_rights (sec_Characteristics sec))
  | None => []
  end.

(** A section at a page boundary that is not both writable and executable. *)
Definition placed (sec : PE_SECTION_INFO) : Prop :=
  0 <= offset_of sec < 2 ^ 32 /\ offset_of sec mod PAGE_SIZE = 0 /\ 0 < sec_Size sec < 2 ^ 31 /\
  negb (IsBooleanFlagOn (section_rights (sec_Characteristics sec)) (Z.lor PAGE_RIGHTS_WRITE PAGE_RIGHTS_EXECUTE)) = true.

Record page_aligned (secs : list PE_SECTION_INFO) : Prop := {
  pa_base : 0 < B /\ B mod PAGE_SIZE = 0 /\ B + 2 ^ 34 < 2 ^ 64;
  pa_address : 0 < A /\ A mod PAGE_SIZE = 0 /\ A + 2 ^ 34 < 2 ^ 64;
  pa_alignment : ImageAlignment info = PAGE_SIZE /\ FileAlignment info = PAGE_SIZE;
  pa_headers : 0 < SizeOfHeaders info < 2 ^ 32 /\ SizeOfHeaders info mod PAGE_SIZE = 0;
  pa_count : NumberOfSections info = Z.of_nat (length secs);
  pa_sections : forall i sec, secs !! i = Some sec -> PeRetrieveSection info (Z.of_nat i) m = Ok (inr sec, m);
  pa_placed : Forall placed secs }.

Context (HB : 0 < B /\ B + 2 ^ 34 < 2 ^ 64) (HA : 0 < A /\ A + 2 ^ 34 < 2 ^ 64).

Lemma u64_of_i64 z : u64 (i64 z) = u64 z.
Proof. unfold u64, i64. rewrite Zminus_mod_idemp_l. f_equal. lia. Qed.

Lemma map_page_at x r : 0 <= x < 2 ^ 34 -> at_page (A + x) r = mkMap (B + x) (A + x) r.
Proof.
  intros Hx. unfold map_page, PtrDiff, PtrOffset. replace (A + x - A) with x by lia. rewrite i64_small by rlia. unwrap. done.
Qed.

Lemma pages_nil off from n r : n <= 0 -> pages off from n r = [].
Proof. intros. unfold pages. by rewrite seqZ_nil by lia. Qed.
Lemma pages_cons off from n r : 0 < n ->
  pages off from n r = mkMap (B + off + from * PAGE_SIZE) (A + off + from * PAGE_SIZE) r :: pages off (from + 1) (n - 1) r.
Proof. intros. unfold pages. rewrite seqZ_cons by lia. cbn. by replace (Z.pred n) with (n - 1) by lia. Qed.

Lemma header_pages_run h : SizeOfHeaders info = h * PAGE_SIZE -> 0 < h < 2 ^ 21 -> forall fuel j, 0 <= j <= h - 1 ->
  h - 1 - j < Z.of_nat fuel -> header_pages info A fuel (A + j * PAGE_SIZE) = Ok (pages 0 j (h - 1 - j) PAGE_RIGHTS_READ).
Proof.
  intros Hh Hr. unfold PAGE_SIZE in *. induction fuel as [|fuel IH]; intros j Hj Hf; [lia|]. cbn [header_pages]. rewrite Hh.
  assert (u64 (PtrDiff (PtrOffset A (h * 0x1000)) PAGE_SIZE) = A + (h - 1) * 0x1000) as ->.
  { unfold PtrDiff, PtrOffset, PAGE_SIZE. rewrite (u64_small (h * _)), (u64_small (A + _)) by rlia.
    rewrite u64_of_i64. unwrap. lia. }
  destruct (Z.ltb_spec (A + j * 4096) (A + (h - 1) * 4096)).
  - rewrite pages_cons by lia. unfold PtrOffset at 1, PAGE_SIZE. rewrite (u64_small 4096), (u64_small (A + j * 4096 + 4096)) by rlia.
    replace (A + j * 4096 + 4096) with (A + (j + 1) * 4096) by lia. rewrite IH by lia. cbn [mbind outcome_bind].
    rewrite map_page_at by lia. unfold PAGE_SIZE. do 2 f_equal; [f_equal; lia|f_equal; lia].
  - by rewrite pages_nil by lia.
Qed.

Lemma section_pages_run off r n : 0 <= off < 2 ^ 33 -> 0 <= n < 2 ^ 20 -> forall fuel j, 0 <= j <= n -> n - j < Z.of_nat fuel ->
  section_pages info A fuel (A + off + j * PAGE_SIZE) (A + off) (n * PAGE_SIZE) r = Ok (pages off j (n - j) r).
Proof.
  intros Hoff Hn. unfold PAGE_SIZE. induction fuel as [|fuel IH]; intros j Hj Hf; [lia|]. cbn [section_pages].
  unfold PtrOffset, PAGE_SIZE. rewrite (u64_small 4096), (u64_small (n * 4096)) by rlia. rewrite (u64_small (A + off + j * 4096 + 4096)), (u64_small (A + off + n * 4096)) by rlia.
  destruct (Z.leb_spec (A + off + j * 4096 + 4096) (A + off + n * 4096)).
  - replace (A + off + j * 4096 + 4096) with (A + off + (j + 1) * 4096) by lia. rewrite IH by lia. cbn [mbind outcome_bind].
    rewrite (pages_cons off j) by lia. replace (A + off + j * 4096) with (A + (off + j * 4096)) by lia. rewrite map_page_at by lia.
    unfold PAGE_SIZE. do 2 f_equal; [f_equal; lia|f_equal; lia].
  - by rewrite pages_nil by lia.
Qed.
Lemma pages_shift off from n r : pages (off + PAGE_SIZE) from n r = pages off (from + 1) n r.
Proof.
  unfold pages. apply list_eq. intros i. rewrite !list_lookup_fmap. destruct (decide (i < Z.to_nat n)%nat).
  - rewrite !lookup_seqZ_lt by lia. cbn [fmap option_fmap option_map]. do 2 f_equal; unfold PAGE_SIZE; lia.
  - by rewrite !lookup_seqZ_ge by lia.
Qed.

Lemma align_up_pages s : 0 < s < 2 ^ 31 -> AlignAddressUpper s PAGE_SIZE = page_count s * PAGE_SIZE /\ 0 < page_count s < 2 ^ 20.
Proof.
  intros Hs. unfold page_count. change PAGE_SIZE with (2 ^ 12). rewrite AlignAddressUpper_pow2 by rlia.
  pose proof (Z.div_mod (s + 2 ^ 12 - 1) (2 ^ 12) ltac:(lia)). pose proof (Z.mod_pos_bound (s + 2 ^ 12 - 1) (2 ^ 12) ltac:(lia)). lia.
Qed.

Lemma align_down x : 0 <= x < 2 ^ 64 -> x mod PAGE_SIZE = 0 -> AlignAddressLower x PAGE_SIZE = x.
Proof. intros Hx Hm. change PAGE_SIZE with (2 ^ 12) in *. rewrite AlignAddressLower_pow2, u64_small by rlia. lia. Qed.

Lemma offset_zero x : 0 <= x < 2 ^ 32 -> x mod PAGE_SIZE = 0 -> u32 (PAGE_SIZE - AddressOffset x PAGE_SIZE) = PAGE_SIZE.
Proof.
  intros Hx Hm. change PAGE_SIZE with (2 ^ 12) in *. unfold AddressOffset. rewrite (u64_small x), (u64_small (2 ^ 12 - 1)) by rlia.
  rewrite land_mask_low by lia. rewrite Hm. reflexivity.
Qed.

Lemma map_section_run sec prev sz al cs : A mod PAGE_SIZE = 0 -> ImageAlignment info = PAGE_SIZE -> placed sec ->
  let cur := section_rights (sec_Characteristics sec) in let n := page_count (sec_Size sec) in
  map_section info A sec (mkMS prev PAGE_SIZE sz al cs) =
  Ok (mkMS cur PAGE_SIZE ((n - 1) * PAGE_SIZE) (A + offset_of sec + PAGE_SIZE)
        (cs ++ pages (offset_of sec) 0 1 (Z.lor prev cur) ++ pages (offset_of sec) 1 (n - 1) cur)).
Proof.
  intros HAm Hal (Hoff&Hom&Hs&Hwx) cur n. unfold map_section. rewrite Hal. destruct (align_up_pages _ Hs) as [-> Hn]. fold n in Hn |- *. fold cur in Hwx |- *.
  rewrite Hwx. cbn [assert_ mbind outcome_bind remainingSize prevSectionRequiredRights calls].
  rewrite (u32_small (n * PAGE_SIZE)) by (unfold PAGE_SIZE; rlia). rewrite (proj2 (Z.ltb_ge _ _)) by (unfold PAGE_SIZE; lia).
  assert (PtrOffset A (PtrDiff (sec_BaseAddress sec) (ImageBase info)) = A + offset_of sec) as ->.
  { unfold PtrOffset, PtrDiff. fold (offset_of sec). rewrite i64_small by rlia. unwrap. done. }
  rewrite align_down by (try (rewrite Z.add_mod, HAm, Hom by (unfold PAGE_SIZE; lia); done); lia).
  cbn [Z.eqb PAGE_SIZE negb]. fold PAGE_SIZE. change 4096 with PAGE_SIZE.
  assert (PtrOffset (A + offset_of sec) PAGE_SIZE = A + (offset_of sec + PAGE_SIZE)) as -> by (unfold PtrOffset, PAGE_SIZE; unwrap; lia).
  assert (u32 (n * PAGE_SIZE - PAGE_SIZE) = (n - 1) * PAGE_SIZE) as -> by (unfold PAGE_SIZE; unwrap; lia).
  rewrite Z.div_mul by (unfold PAGE_SIZE; lia).
  pose proof (section_pages_run (offset_of sec + PAGE_SIZE) cur (n - 1) ltac:(unfold PAGE_SIZE; lia) ltac:(lia) (S (Z.to_nat (n - 1))) 0 ltac:(lia) ltac:(lia)) as E.
  rewrite Z.mul_0_l, Z.add_0_r, Z.sub_0_r in E. rewrite E. cbn [mbind outcome_bind].
  rewrite offset_zero by (try apply Z.mod_mul; unfold PAGE_SIZE; lia). rewrite pages_shift, <- app_assoc, map_page_at by lia.
  rewrite (pages_cons _ 0 1), (pages_nil _ _ (1 - 1)), Z.mul_0_l, !Z.add_0_r by lia. by rewrite Z.add_assoc.
Qed.

(** The variables after the loop: those of the last section. *)
Definition after (prev sz al : Z) (secs : list PE_SECTION_INFO) (cs : list map_call) : map_state :=
  match last secs with
  | Some sec => mkMS (section_rights (sec_Characteristics sec)) PAGE_SIZE ((page_count (sec_Size sec) - 1) * PAGE_SIZE)
                     (A + offset_of sec + PAGE_SIZE) cs
  | None => mkMS prev PAGE_SIZE sz al cs
  end.

Lemma after_cons prev sz al sec secs cs : after prev sz al (sec :: secs) cs =
  after (section_rights (sec_Characteristics sec)) ((page_count (sec_Size sec) - 1) * PAGE_SIZE) (A + offset_of sec + PAGE_SIZE) secs cs.
Proof. unfold after. destruct secs; [done|]. rewrite last_cons. by destruct (last (_ :: _)) eqn:E; [|apply last_None in E]. Qed.

Lemma map_sections_run secs : page_aligned secs -> forall rest pre prev sz al cs, secs = pre ++ rest ->
  map_sections info A (length rest) (Z.of_nat (length pre)) (mkMS prev PAGE_SIZE sz al cs) m =
  Ok ((STATUS_SUCCESS, after prev sz al rest (cs ++ section_calls prev rest)), m).
Proof.
  intros Hp. induction rest as [|sec rest IH]; intros pre prev sz al cs ->; [by rewrite app_nil_r|]. cbn [map_sections length].
  rewrite (bind_run _ _ _ _ _ (pa_sections _ Hp (length pre) sec (list_lookup_middle _ _ _ _ eq_refl))).
  pose proof (pa_placed _ Hp) as Hf. rewrite Forall_app, Forall_cons in Hf. destruct Hf as (_&Hs&_).
  erewrite bind_run by (apply lift_run, map_section_run; [apply Hp|apply Hp|done]).
  replace (Z.of_nat (length pre) + 1) with (Z.of_nat (length (pre ++ [sec]))) by (rewrite length_app; cbn; lia).
  rewrite IH by (by rewrite <- app_assoc). rewrite after_cons. cbn [section_calls]. by rewrite <- !app_assoc.
Qed.
End Load.

Lemma page_aligned_test x : 0 <= x < 2 ^ 64 -> x mod PAGE_SIZE = 0 -> IsAddressAligned x PAGE_SIZE = true.
Proof. intros Hx Hm. change PAGE_SIZE with (2 ^ 12) in *. unfold IsAddressAligned. rewrite (u64_small x), (u64_small (2 ^ 12)), (u64_small (_ - 1)) by rlia.
  rewrite land_mask_low by lia. by rewrite Hm.
Qed.

Lemma map_pe_run m info A secs : page_aligned m info A secs ->
  _MmuMapPeInMemory info A m =
  Ok ((STATUS_SUCCESS, pages info A 0 0 (SizeOfHeaders info / PAGE_SIZE - 1) PAGE_RIGHTS_READ ++
                       section_calls info A PAGE_RIGHTS_READ secs ++ last_call info A secs), m).
Proof.
  intros Hp. destruct (pa_base _ _ _ _ Hp) as (HB0&HBm&HB1). destruct (pa_address _ _ _ _ Hp) as (HA0&HAm&HA1).
  destruct (pa_headers _ _ _ _ Hp) as (Hh&Hhm). destruct (pa_alignment _ _ _ _ Hp) as (Hal&Hfa). unfold _MmuMapPeInMemory.
  rewrite (bind_run _ _ _ tt m) by (apply ASSERT_run, page_aligned_test; [lia|done]).
  rewrite (bind_run _ _ _ tt m) by (apply ASSERT_run, negb_true_iff, Z.eqb_neq; unfold NULL; lia).
  rewrite (bind_run _ _ _ tt m) by (apply ASSERT_run, page_aligned_test; [lia|done]).
  rewrite Hal, Hfa, Z.eqb_refl. cbn [negb]. set (h := SizeOfHeaders info / PAGE_SIZE).
  assert (SizeOfHeaders info = h * PAGE_SIZE) as Eh by (unfold h; pose proof (Z.div_mod (SizeOfHeaders info) PAGE_SIZE); unfold PAGE_SIZE in *; lia).
  pose proof (header_pages_run info A (conj HB0 HB1) (conj HA0 HA1) h Eh ltac:(unfold PAGE_SIZE in *; lia) (S (Z.to_nat h)) 0 ltac:(unfold PAGE_SIZE in *; lia) ltac:(unfold PAGE_SIZE in *; lia)) as E.
  rewrite Z.mul_0_l, Z.add_0_r, Z.sub_0_r in E. rewrite (bind_run _ _ _ _ _ (lift_run _ m _ E)).
  rewrite offset_zero by (done || lia). rewrite (pa_count _ _ _ _ Hp), Nat2Z.id.
  erewrite bind_run by (apply (map_sections_run m info A (conj HB0 HB1) (conj HA0 HA1) secs Hp secs []); done).
  rewrite app_assoc. unfold after, last_call. destruct (last secs) as [sec|] eqn:El; [|by rewrite app_nil_r].
  apply last_Some_elem_of in El. pose proof (proj1 (Forall_forall _ _) (pa_placed _ _ _ _ Hp) sec El) as (Hoff&_&Hs&_).
  destruct (align_up_pages _ Hs) as [_ Hn]. change (negb (SUCCEEDED STATUS_SUCCESS)) with false. cbn [sectionSize calls pAlignedAddress prevSectionRequiredRights].
  destruct (Z.eqb_spec (page_count (sec_Size sec)) 1) as [->|Hne]; [by rewrite app_nil_r|].
  rewrite (proj2 (Z.eqb_neq _ 0)) by (unfold PAGE_SIZE; lia). cbn [negb].
  replace (A + offset_of info sec + PAGE_SIZE) with (A + (offset_of info sec + PAGE_SIZE)) by lia.
  rewrite (map_page_at info A) by first [done|unfold PAGE_SIZE; lia].
  rewrite (pages_cons _ _ _ 1 1), (pages_nil _ _ _ _ (1 - 1)) by lia. unfold ret. do 6 f_equal; unfold PAGE_SIZE; lia.
Qed.

(** An image whose headers and sections are page aligned is mapped page by page in the order of the file: the header
    pages but the last, read only; then every page of every section, at its offset from the address to map at, to the page of
    the loaded image at the same offset.  The pages of a section get its rights, but the first one gets those of the section
    before it (of the headers, for the first section) as well; at the end the second page of the last section is mapped again. *)
Theorem pe_map_aligned m info A secs : page_aligned m info A secs ->
  _MmuMapPeInMemory info A m =
  Ok ((STATUS_SUCCESS, pages info A 0 0 (SizeOfHeaders info / PAGE_SIZE - 1) PAGE_RIGHTS_READ ++
                       section_calls info A PAGE_RIGHTS_READ secs ++ last_call info A secs), m).
Proof. apply map_pe_run. Qed.

Lemma section_calls_next info A secs : forall prev i s1 s2, secs !! i = Some s1 -> secs !! S i = Some s2 ->
  mkMap (ImageBase info + offset_of info s2) (A + offset_of info s2)
    (Z.lor (section_rights (sec_Characteristics s1)) (section_rights (sec_Characteristics s2))) ∈ section_calls info A prev secs.
Proof.
  induction secs as [|s secs IH]; intros prev i s1 s2 H1 H2; [done|]. cbn [section_calls]. rewrite !elem_of_app. do 2 right.
  destruct i as [|i]; [|by apply (IH _ i)]. destruct secs as [|s' secs]; [done|]. injection H1 as ->. injection H2 as ->.
  cbn [section_calls]. rewrite elem_of_app. left. rewrite pages_cons, Z.mul_0_l, !Z.add_0_r by lia. apply elem_of_cons. by left.
Qed.

Lemma section_rights_flags c : IsBooleanFlagOn (section_rights c) PAGE_RIGHTS_WRITE = IsBooleanFlagOn c IMAGE_SCN_MEM_WRITE /\
  IsBooleanFlagOn (section_rights c) PAGE_RIGHTS_EXECUTE = IsBooleanFlagOn c IMAGE_SCN_MEM_EXECUTE.
Proof. unfold section_rights. by destruct (IsBooleanFlagOn c _), (IsBooleanFlagOn c _), (IsBooleanFlagOn c _). Qed.

Lemma rights_union a b : IsBooleanFlagOn a PAGE_RIGHTS_EXECUTE = true -> IsBooleanFlagOn b PAGE_RIGHTS_WRITE = true ->
  IsBooleanFlagOn (Z.lor a b) (Z.lor PAGE_RIGHTS_WRITE PAGE_RIGHTS_EXECUTE) = true.
Proof.
  unfold IsBooleanFlagOn. rewrite !Z.eqb_eq. intros Ha Hb. apply Z.bits_inj. intros k.
  apply (f_equal (fun z => Z.testbit z k)) in Ha, Hb. rewrite !Z.land_spec, ?Z.lor_spec, ?Z.land_spec in *.
  destruct (Z.testbit a k), (Z.testbit b k), (Z.testbit PAGE_RIGHTS_WRITE k), (Z.testbit PAGE_RIGHTS_EXECUTE k); done.
Qed.

(** Although a section that is writable and executable is refused, and although no page is shared when the sections are
    page aligned, the first page of a writable section that follows an executable one is mapped writable and executable. *)
Theorem pe_write_execute m info A secs i s1 s2 : page_aligned m info A secs -> secs !! i = Some s1 -> secs !! S i = Some s2 ->
  IsBooleanFlagOn (sec_Characteristics s1) IMAGE_SCN_MEM_EXECUTE = true ->
  IsBooleanFlagOn (sec_Characteristics s2) IMAGE_SCN_MEM_WRITE = true ->
  exists calls rights, _MmuMapPeInMemory info A m = Ok ((STATUS_SUCCESS, calls), m) /\
    mkMap (sec_BaseAddress s2) (A + offset_of info s2) rights ∈ calls /\
    IsBooleanFlagOn rights (Z.lor PAGE_RIGHTS_WRITE PAGE_RIGHTS_EXECUTE) = true.
Proof.
  intros Hp H1 H2 Hx Hw. eexists _, _. split; [by apply map_pe_run|]. split.
  - rewrite !elem_of_app. right. left. replace (sec_BaseAddress s2) with (ImageBase info + offset_of info s2) by (unfold offset_of; lia).
    by apply (section_calls_next _ _ _ _ i s1 s2).
  - apply rights_union; [by rewrite (proj2 (section_rights_flags _))|by rewrite (proj1 (section_rights_flags _))].
Qed.

(** ** The parser only reads *)
Definition read_only {A} (f : M Mem A) : Prop := forall m r m', f m = Ok (r, m') -> m' = m.

Lemma read_only_ret {A} (x : A) : read_only (ret x).
Proof. intros m r m' [= _ <-]. done. Qed.
Lemma read_only_bind {A B} (f : M Mem A) (g : A -> M Mem B) : read_only f -> (forall x, read_only (g x)) -> read_only (f ≫= g).
Proof.
  intros Hf Hg m r m'. unfold mbind, M_bind. destruct (f m) as [[x m1]|] eqn:E; [|done]. apply Hf in E as ->. apply Hg.
Qed.
Lemma read_only_if {A} (b : bool) (f g : M Mem A) : read_only f -> read_only g -> read_only (if b then f else g).
Proof. by destruct b. Qed.
Lemma read_only_load n p : read_only (load n p).
Proof.
  unfold load. apply read_only_bind; [|intros; apply read_only_ret]. revert p. induction n as [|n IH]; intros p; [apply read_only_ret|].
  cbn [read_bytes]. apply read_only_bind; [|intros; apply read_only_bind; [apply IH|intros; apply read_only_ret]].
  intros m r m'. unfold load8. destruct (m !! p) eqn:E; rewrite ?E; [|done]. by intros [= _ <-].
Qed.
#[local] Hint Resolve read_only_ret read_only_bind read_only_if read_only_load : core.

Lemma section_read_only info i : read_only (PeRetrieveSection info i).
Proof. unfold PeRetrieveSection, nt_SizeOfOptionalHeader, sh_VirtualAddress, sh_VirtualSize, sh_Characteristics. auto 20. Qed.

(** A run of a reading function is known from its result. *)
Lemma read_only_run {A} (f : M Mem A) m r : read_only f -> match f m with Ok (x, _) => Some x | Err _ => None end = Some r -> f m = Ok (r, m).
Proof. intros Hf. destruct (f m) as [[x m']|] eqn:E; [|done]. intros [= ->]. by rewrite (Hf m r m' E). Qed.

(** * A concrete image *)
Definition demo_section (va vsize characteristics : Z) : list Z :=
  replicate 8 0 ++ to_le 4 vsize ++ to_le 4 va ++ replicate 20 0 ++ to_le 4 characteristics.
Definition demo_headers (alignment size headers : Z) (secs : list (list Z)) : list Z :=
  to_le 2 MZ_SIGNATURE ++ replicate 58 0 ++ to_le 4 64 ++
  to_le 4 NT_SIGNATURE ++ to_le 2 IMAGE_FILE_MACHINE_AMD64 ++ to_le 2 (Z.of_nat (length secs)) ++ replicate 12 0 ++ to_le 4 240 ++
  replicate 16 0 ++ to_le 4 0x1000 ++ replicate 4 0 ++ to_le 8 0x10000000 ++ to_le 4 alignment ++ to_le 4 alignment ++
  replicate 16 0 ++ to_le 4 size ++ to_le 4 headers ++ replicate 4 0 ++ to_le 2 IMAGE_SUBSYSTEM_NATIVE ++ replicate 38 0 ++
  to_le 4 16 ++ replicate 128 0 ++ concat secs.
Definition demo_base : Z := 2 ^ 32.

(** One section that fills what the headers leave of 0x200 bytes. *)
Definition demo_small : list Z :=
  demo_headers 0x80 0x200 0x180 [demo_section 0x180 0x80 0x40000000] ++ replicate 144 0.

Lemma demo_image bs : Forall (fun b => 0 <= b < 256) bs -> Z.of_nat (length bs) < 2 ^ 32 ->
  image (mem_of demo_base bs) demo_base (Z.of_nat (length bs)).
Proof.
  intros Hb Hl. split; [|apply mapped_mem_of|unfold demo_base; lia|lia].
  intros a b. rewrite lookup_mem_of. case_bool_decide; [|done]. intros E. by apply (Forall_lookup_1 _ _ _ _ Hb E).
Qed.

Lemma bytes_forallb bs : forallb (fun b => (0 <=? b) && (b <? 256)) bs = true -> Forall (fun b => 0 <= b < 256) bs.
Proof. intros H. apply Forall_forall. intros b Hb. apply list_elem_of_In, (proj1 (forallb_forall _ _) H), andb_true_iff in Hb as [? ?]. lia. Qed.


Example demo_accepted :
  match _MmuRetrieveKernelInfoAndValidate demo_base 512 (mem_of demo_base demo_small) with
  | Ok (inr info, m) => '(r, _) ← PeRetrieveSection info 0 m; Ok r
  | _ => Err MemFault
  end = Ok (inr (mkSection (demo_base + 0x180) 0x80 0x40000000)).
Proof. vm_compute. reflexivity. Qed.

(** Code and data, each of two pages, after headers of one page; only the headers are in the memory. *)
Definition demo_code : PE_SECTION_INFO := mkSection (demo_base + 0x1000) 0x1800 0x60000020.
Definition demo_data : PE_SECTION_INFO := mkSection (demo_base + 0x3000) 0x2000 0xC0000040.
Definition demo_mem_pe : Mem :=
  mem_of demo_base (demo_headers 0x1000 0x5000 0x1000 [demo_section 0x1000 0x1800 0x60000020; demo_section 0x3000 0x2000 0xC0000040]).
Definition demo_info : PE_NT_HEADER_INFO :=
  mkNT demo_base (demo_base + 64) (demo_base + 0x1000) 0x1000 0x1000 0x10000000 0x10001000 0x5000 IMAGE_FILE_MACHINE_AMD64
    IMAGE_SUBSYSTEM_NATIVE 0x1000 2.

Lemma demo_aligned : page_aligned demo_mem_pe demo_info 0x10000000 [demo_code; demo_data].
Proof.
  split; try (unfold demo_info, demo_base, PAGE_SIZE; cbn; lia); try done.
  - intros [|[|i]] sec Hs; [injection Hs as <-..|done]; apply read_only_run; [apply section_read_only|vm_compute; reflexivity|apply section_read_only|vm_compute; reflexivity].
  - repeat constructor; vm_compute; (reflexivity || discriminate).
Qed.

Lemma pe_map_aligned_witness :
  MmuLoadPe demo_info demo_mem_pe =
  Ok ((STATUS_SUCCESS, pages demo_info 0x10000000 0 0 0 PAGE_RIGHTS_READ ++
        section_calls demo_info 0x10000000 PAGE_RIGHTS_READ [demo_code; demo_data] ++
        last_call demo_info 0x10000000 [demo_code; demo_data]), demo_mem_pe).
Proof. exact (pe_map_aligned _ _ _ _ demo_aligned). Defined.

Lemma pe_write_execute_witness : exists calls rights,
  _MmuMapPeInMemory demo_info 0x10000000 demo_mem_pe = Ok ((STATUS_SUCCESS, calls), demo_mem_pe) /\
  mkMap (demo_base + 0x3000) 0x10003000 rights ∈ calls /\
  IsBooleanFlagOn rights (Z.lor PAGE_RIGHTS_WRITE PAGE_RIGHTS_EXECUTE) = true.
Proof. exact (pe_write_execute _ _ _ _ 0%nat demo_code demo_data demo_aligned eq_refl eq_refl eq_refl eq_refl). Defined.

(** The header of the image as PeRetrieveNtHeader finds it. *)
Example demo_parsed : ('(r, _) ← PeRetrieveNtHeader demo_base 0x5000 demo_mem_pe; Ok r) = Ok (inr demo_info).
Proof. vm_compute. reflexivity. Qed.

(** The sections are checked against the size the header states: when fewer bytes were read, the section table is read past
    them. *)
Example demo_over_read :
  PeRetrieveSection (mkNT demo_base (demo_base + 64) 0 0x1000 0x1000 0 0 0x5000 IMAGE_FILE_MACHINE_AMD64 1 0x1000 3) 2 demo_mem_pe = Err MemFault.
Proof. vm_compute. reflexivity. Qed.
