(* ===== verification/Process.v ===== *)
(** HAL9000/src/process.c, the creation and destruction of threads in thread.c (ThreadCreateEx, _ThreadInit, _ThreadDestroy),
    UmApplicationRun (um_application.c) and the address spaces of processes (mmu.c): the life of a process from its creation
    to the last reference.

    The PROCESS and THREAD blocks that are allocated and not freed are maps; using a block that is not there is a fault.  The
    smaller blocks a process owns (its name, its command line, its header, its address space) are fields that are [None] when
    the pointer is NULL.  [pool] gives the outcomes of the next allocations, and allocations succeed when it is used up;
    what the loader, the file system and the paging code answer is given by a [create_env].  A section that holds
    ThreadListLock, ProcessListLock or PidBitmapLock is one step, up to and including its release. *)
From S2P Require Import Prelude IntUtils ClMemory Bitmap Interleave Pte PeParser.

Definition STATUS_MEMORY_CANNOT_BE_COMMITED : Z := error_status MEMORY_MASK 0x000B.

(** A LIST_ENTRY: zeroed, initialised but in no list, or in its list. *)
Inductive link : Set := LinkZeroed | LinkSelf | LinkIn.

Record PROCESS := mkPROCESS {
  p_RefCnt : Z; Id : Z; ProcessName : option (list Z); FullCommandLine : option (list Z); NumberOfArguments : Z;
  TerminationEvt : bool; TerminationStatus : Z; ThreadList : list Z; NumberOfThreads : Z; ActiveThreads : Z;
  NextProcess : link; PagingData : bool; HeaderInfo : option PE_NT_HEADER_INFO; VaSpace : bool }.

Record THREAD_OBJECT := mkTHREAD_OBJECT {
  t_RefCnt : Z; t_Process : Z; t_AllList : link; t_Dying : bool; t_ExitStatus : Z; t_Flags : Z;
  t_Name : option (list Z); t_Stack : bool; t_UserStack : bool }.

(** m_processData, m_threadSystemData.AllThreadsList, the blocks and the allocator. *)
Record pst := mkPst {
  PidBitmap : BITMAP; pid_mem : Mem; SystemProcess : Z; ProcessList : list Z; AllThreadsList : list Z;
  procs : gmap Z PROCESS; thrs : gmap Z THREAD_OBJECT; p_pool : list bool; next_block : Z }.

Definition set_p_RefCnt v (P : PROCESS) : PROCESS := mkPROCESS v (Id P) (ProcessName P) (FullCommandLine P) (NumberOfArguments P) (TerminationEvt P) (TerminationStatus P) (ThreadList P) (NumberOfThreads P) (ActiveThreads P) (NextProcess P) (PagingData P) (HeaderInfo P) (VaSpace P).
Definition set_Id v (P : PROCESS) : PROCESS := mkPROCESS (p_RefCnt P) v (ProcessName P) (FullCommandLine P) (NumberOfArguments P) (TerminationEvt P) (TerminationStatus P) (ThreadList P) (NumberOfThreads P) (ActiveThreads P) (NextProcess P) (PagingData P) (HeaderInfo P) (VaSpace P).
Definition set_ProcessName v (P : PROCESS) : PROCESS := mkPROCESS (p_RefCnt P) (Id P) v (FullCommandLine P) (NumberOfArguments P) (TerminationEvt P) (TerminationStatus P) (ThreadList P) (NumberOfThreads P) (ActiveThreads P) (NextProcess P) (PagingData P) (HeaderInfo P) (VaSpace P).
Definition set_FullCommandLine v (P : PROCESS) : PROCESS := mkPROCESS (p_RefCnt P) (Id P) (ProcessName P) v (NumberOfArguments P) (TerminationEvt P) (TerminationStatus P) (ThreadList P) (NumberOfThreads P) (ActiveThreads P) (NextProcess P) (PagingData P) (HeaderInfo P) (VaSpace P).
Definition set_NumberOfArguments v (P : PROCESS) : PROCESS := mkPROCESS (p_RefCnt P) (Id P) (ProcessName P) (FullCommandLine P) v (TerminationEvt P) (TerminationStatus P) (ThreadList P) (NumberOfThreads P) (ActiveThreads P) (NextProcess P) (PagingData P) (HeaderInfo P) (VaSpace P).
Definition set_TerminationEvt v (P : PROCESS) : PROCESS := mkPROCESS (p_RefCnt P) (Id P) (ProcessName P) (FullCommandLine P) (NumberOfArguments P) v (TerminationStatus P) (ThreadList P) (NumberOfThreads P) (ActiveThreads P) (NextProcess P) (PagingData P) (HeaderInfo P) (VaSpace P).
Definition set_TerminationStatus v (P : PROCESS) : PROCESS := mkPROCESS (p_RefCnt P) (Id P) (ProcessName P) (FullCommandLine P) (NumberOfArguments P) (TerminationEvt P) v (ThreadList P) (NumberOfThreads P) (ActiveThreads P) (NextProcess P) (PagingData P) (HeaderInfo P) (VaSpace P).
Definition set_ThreadList v (P : PROCESS) : PROCESS := mkPROCESS (p_RefCnt P) (Id P) (ProcessName P) (FullCommandLine P) (NumberOfArguments P) (TerminationEvt P) (TerminationStatus P) v (NumberOfThreads P) (ActiveThreads P) (NextProcess P) (PagingData P) (HeaderInfo P) (VaSpace P).
Definition set_NumberOfThreads v (P : PROCESS) : PROCESS := mkPROCESS (p_RefCnt P) (Id P) (ProcessName P) (FullCommandLine P) (NumberOfArguments P) (TerminationEvt P) (TerminationStatus P) (ThreadList P) v (ActiveThreads P) (NextProcess P) (PagingData P) (HeaderInfo P) (VaSpace P).
Definition set_ActiveThreads v (P : PROCESS) : PROCESS := mkPROCESS (p_RefCnt P) (Id P) (ProcessName P) (FullCommandLine P) (NumberOfArguments P) (TerminationEvt P) (TerminationStatus P) (ThreadList P) (NumberOfThreads P) v (NextProcess P) (PagingData P) (HeaderInfo P) (VaSpace P).
Definition set_NextProcess v (P : PROCESS) : PROCESS := mkPROCESS (p_RefCnt P) (Id P) (ProcessName P) (FullCommandLine P) (NumberOfArguments P) (TerminationEvt P) (TerminationStatus P) (ThreadList P) (NumberOfThreads P) (ActiveThreads P) v (PagingData P) (HeaderInfo P) (VaSpace P).
Definition set_PagingData v (P : PROCESS) : PROCESS := mkPROCESS (p_RefCnt P) (Id P) (ProcessName P) (FullCommandLine P) (NumberOfArguments P) (TerminationEvt P) (TerminationStatus P) (ThreadList P) (NumberOfThreads P) (ActiveThreads P) (NextProcess P) v (HeaderInfo P) (VaSpace P).
Definition set_HeaderInfo v (P : PROCESS) : PROCESS := mkPROCESS (p_RefCnt P) (Id P) (ProcessName P) (FullCommandLine P) (NumberOfArguments P) (TerminationEvt P) (TerminationStatus P) (ThreadList P) (NumberOfThreads P) (ActiveThreads P) (NextProcess P) (PagingData P) v (VaSpace P).
Definition set_VaSpace v (P : PROCESS) : PROCESS := mkPROCESS (p_RefCnt P) (Id P) (ProcessName P) (FullCommandLine P) (NumberOfArguments P) (TerminationEvt P) (TerminationStatus P) (ThreadList P) (NumberOfThreads P) (ActiveThreads P) (NextProcess P) (PagingData P) (HeaderInfo P) v.
Definition set_t_RefCnt v (T : THREAD_OBJECT) : THREAD_OBJECT := mkTHREAD_OBJECT v (t_Process T) (t_AllList T) (t_Dying T) (t_ExitStatus T) (t_Flags T) (t_Name T) (t_Stack T) (t_UserStack T).
Definition set_t_Process v (T : THREAD_OBJECT) : THREAD_OBJECT := mkTHREAD_OBJECT (t_RefCnt T) v (t_AllList T) (t_Dying T) (t_ExitStatus T) (t_Flags T) (t_Name T) (t_Stack T) (t_UserStack T).
Definition set_t_AllList v (T : THREAD_OBJECT) : THREAD_OBJECT := mkTHREAD_OBJECT (t_RefCnt T) (t_Process T) v (t_Dying T) (t_ExitStatus T) (t_Flags T) (t_Name T) (t_Stack T) (t_UserStack T).
Definition set_t_Dying v (T : THREAD_OBJECT) : THREAD_OBJECT := mkTHREAD_OBJECT (t_RefCnt T) (t_Process T) (t_AllList T) v (t_ExitStatus T) (t_Flags T) (t_Name T) (t_Stack T) (t_UserStack T).
Definition set_t_ExitStatus v (T : THREAD_OBJECT) : THREAD_OBJECT := mkTHREAD_OBJECT (t_RefCnt T) (t_Process T) (t_AllList T) (t_Dying T) v (t_Flags T) (t_Name T) (t_Stack T) (t_UserStack T).
Definition set_t_Flags v (T : THREAD_OBJECT) : THREAD_OBJECT := mkTHREAD_OBJECT (t_RefCnt T) (t_Process T) (t_AllList T) (t_Dying T) (t_ExitStatus T) v (t_Name T) (t_Stack T) (t_UserStack T).
Definition set_t_Name v (T : THREAD_OBJECT) : THREAD_OBJECT := mkTHREAD_OBJECT (t_RefCnt T) (t_Process T) (t_AllList T) (t_Dying T) (t_ExitStatus T) (t_Flags T) v (t_Stack T) (t_UserStack T).
Definition set_t_Stack v (T : THREAD_OBJECT) : THREAD_OBJECT := mkTHREAD_OBJECT (t_RefCnt T) (t_Process T) (t_AllList T) (t_Dying T) (t_ExitStatus T) (t_Flags T) (t_Name T) v (t_UserStack T).
Definition set_t_UserStack v (T : THREAD_OBJECT) : THREAD_OBJECT := mkTHREAD_OBJECT (t_RefCnt T) (t_Process T) (t_AllList T) (t_Dying T) (t_ExitStatus T) (t_Flags T) (t_Name T) (t_Stack T) v.
Definition set_PidBitmap v (s : pst) : pst := mkPst v (pid_mem s) (SystemProcess s) (ProcessList s) (AllThreadsList s) (procs s) (thrs s) (p_pool s) (next_block s).
Definition set_pid_mem v (s : pst) : pst := mkPst (PidBitmap s) v (SystemProcess s) (ProcessList s) (AllThreadsList s) (procs s) (thrs s) (p_pool s) (next_block s).
Definition set_SystemProcess v (s : pst) : pst := mkPst (PidBitmap s) (pid_mem s) v (ProcessList s) (AllThreadsList s) (procs s) (thrs s) (p_pool s) (next_block s).
Definition set_ProcessList v (s : pst) : pst := mkPst (PidBitmap s) (pid_mem s) (SystemProcess s) v (AllThreadsList s) (procs s) (thrs s) (p_pool s) (next_block s).
Definition set_AllThreadsList v (s : pst) : pst := mkPst (PidBitmap s) (pid_mem s) (SystemProcess s) (ProcessList s) v (procs s) (thrs s) (p_pool s) (next_block s).
Definition set_procs v (s : pst) : pst := mkPst (PidBitmap s) (pid_mem s) (SystemProcess s) (ProcessList s) (AllThreadsList s) v (thrs s) (p_pool s) (next_block s).
Definition set_thrs v (s : pst) : pst := mkPst (PidBitmap s) (pid_mem s) (SystemProcess s) (ProcessList s) (AllThreadsList s) (procs s) v (p_pool s) (next_block s).
Definition set_p_pool v (s : pst) : pst := mkPst (PidBitmap s) (pid_mem s) (SystemProcess s) (ProcessList s) (AllThreadsList s) (procs s) (thrs s) v (next_block s).
Definition set_next_block v (s : pst) : pst := mkPst (PidBitmap s) (pid_mem s) (SystemProcess s) (ProcessList s) (AllThreadsList s) (procs s) (thrs s) (p_pool s) v.

(** * Blocks *)
Definition proc (p : Z) : M pst PROCESS := s ← getS; lift (of_option (procs s !! p)).
Definition upd_proc (p : Z) (f : PROCESS -> PROCESS) : M pst unit :=
  P ← proc p; modify (fun s => set_procs (<[p := f P]> (procs s)) s).
Definition thread (t : Z) : M pst THREAD_OBJECT := s ← getS; lift (of_option (thrs s !! t)).
Definition upd_thread (t : Z) (f : THREAD_OBJECT -> THREAD_OBJECT) : M pst unit :=
  T ← thread t; modify (fun s => set_thrs (<[t := f T]> (thrs s)) s).

(** ExAllocatePoolWithTag: whether the allocation succeeded. *)
Definition ExAllocatePool : M pst bool := fun s =>
  match p_pool s with [] => Ok (true, s) | b :: rest => Ok (b, set_p_pool rest s) end.
(** The address of a new block. *)
Definition new_block : M pst Z := fun s => Ok (next_block s, set_next_block (next_block s + 1) s).

Definition zeroed_process : PROCESS := mkPROCESS 0 0 None None 0 false 0 [] 0 0 LinkZeroed false None false.
Definition zeroed_thread : THREAD_OBJECT := mkTHREAD_OBJECT 0 NULL LinkZeroed false 0 0 None false false.
Definition zeroed_header : PE_NT_HEADER_INFO := mkNT 0 0 0 0 0 0 0 0 0 0 0 0.

(** RemoveEntryList on an entry of a list: following the links of a zeroed entry faults. *)
Definition unlink (l : link) (x : Z) (xs : list Z) : outcome (list Z) :=
  match l with
  | LinkZeroed => Err MemFault
  | LinkSelf => Ok xs
  | LinkIn => Ok (list_difference xs [x])
  end.

(** * Process identifiers *)
Definition on_pids {A} (f : BITMAP -> M Mem A) : M pst A := bm ← gets PidBitmap; zoom pid_mem set_pid_mem (f bm).

Definition _ProcessSystemRetrieveNextPid : M pst Z :=
  idx ← on_pids (fun bm => BitmapScanAndFlip bm 1 false);
  _ ← ASSERT (PCID_IS_VALID idx);
  ret idx.

Definition _ProcessSystemFreePid (ProcessId : Z) : M pst unit :=
  _ ← ASSERT (PCID_IS_VALID ProcessId);
  b ← on_pids (fun bm => BitmapGetBitValue bm (u32 ProcessId));
  _ ← ASSERT b;
  on_pids (fun bm => BitmapSetBitValue bm (u32 ProcessId) false).

(** * References *)
Definition ProcessIsSystem (Process : Z) : M pst bool :=
  P ← proc Process;
  sys ← gets SystemProcess;
  S ← proc sys;
  ret (Id S =? Id P).

Definition _ProcessReference (Process : Z) : M pst unit :=
  P ← proc Process;
  let newRefCount := u32 (p_RefCnt P + 1) in
  _ ← upd_proc Process (set_p_RefCnt newRefCount);
  _ ← ASSERT (newRefCount <? MAX_DWORD);
  ASSERT (1 <=? newRefCount).

(** ProcessActivatePagingTables before the load of CR3. *)
Definition ProcessActivatePagingTables (Process : Z) : M pst unit :=
  P ← proc Process; ASSERT (PCID_IS_VALID (Id P)).

Definition MmuDestroyAddressSpaceForProcess (Process : Z) : M pst unit :=
  sys ← ProcessIsSystem Process;
  _ ← ASSERT (negb sys);
  _ ← upd_proc Process (set_VaSpace false);
  P ← proc Process;
  if PagingData P then
    _ ← ProcessActivatePagingTables Process;
    upd_proc Process (set_PagingData false)
  else ret tt.

Definition _ProcessDestroy (Process : Z) : M pst unit :=
  sys ← ProcessIsSystem Process;
  _ ← ASSERT (negb sys);
  P ← proc Process;
  _ ← ASSERT (NumberOfThreads P =? 0);
  l ← gets ProcessList;
  l' ← lift (unlink (NextProcess P) Process l);
  _ ← modify (set_ProcessList l');
  _ ← upd_proc Process (set_FullCommandLine None);
  _ ← upd_proc Process (set_ProcessName None);
  _ ← upd_proc Process (set_HeaderInfo None);
  _ ← MmuDestroyAddressSpaceForProcess Process;
  _ ← (if negb (Id P =? 0) then _ProcessSystemFreePid (Id P) else ret tt);
  modify (fun s => set_procs (delete Process (procs s)) s).

Definition _ProcessDereference (Process : Z) : M pst unit :=
  P ← proc Process;
  let newRefCount := u32 (p_RefCnt P - 1) in
  _ ← upd_proc Process (set_p_RefCnt newRefCount);
  _ ← ASSERT (negb (MAX_DWORD =? newRefCount));
  if 0 =? newRefCount then _ProcessDestroy Process else ret tt.

Definition ProcessCloseHandle (Process : Z) : M pst unit := _ProcessDereference Process.

(** * Creation *)
(** The text snprintf leaves for "%s %s" or "%s", and the number of elements between spaces strcelem counts (both are the
    subject of ClString). *)
Definition full_command_line (name : list Z) (args : option (list Z)) : list Z :=
  match args with Some a => name ++ [32] ++ a | None => name end.
Fixpoint count_elements (prev : bool) (l : list Z) : Z :=
  match l with
  | [] => 0
  | c :: l' => if c =? 32 then count_elements false l' else (if prev then 0 else 1) + count_elements true l'
  end.

Definition _ProcessParseCommandLine (Process : Z) (CommandLine : option (list Z)) : M pst Z :=
  P ← proc Process;
  _ ← ASSERT (bool_decide (is_Some (ProcessName P)));
  let name := default [] (ProcessName P) in
  ok ← ExAllocatePool;
  if negb ok then ret STATUS_HEAP_INSUFFICIENT_RESOURCES else
  let noOfArgs := match CommandLine with Some a => count_elements false a | None => 0 end in
  _ ← upd_proc Process (set_FullCommandLine (Some (full_command_line name CommandLine)));
  _ ← upd_proc Process (set_NumberOfArguments (u32 (noOfArgs + 1)));
  ret STATUS_SUCCESS.

(** What _ProcessInit does before its __finally: the status, and the process if its block was allocated. *)
Definition process_init_body (Name : list Z) (Arguments : option (list Z)) : M pst (Z * option Z) :=
  ok ← ExAllocatePool;
  if negb ok then ret (STATUS_HEAP_INSUFFICIENT_RESOURCES, None) else
  p ← new_block;
  _ ← modify (fun s => set_procs (<[p := zeroed_process]> (procs s)) s);
  _ ← upd_proc p (set_p_RefCnt 1);
  _ ← upd_proc p (set_TerminationEvt false);
  _ ← upd_proc p (set_NextProcess LinkSelf);
  ok ← ExAllocatePool;
  if negb ok then ret (STATUS_HEAP_INSUFFICIENT_RESOURCES, Some p) else
  _ ← upd_proc p (set_HeaderInfo (Some zeroed_header));
  ok ← ExAllocatePool;
  if negb ok then ret (STATUS_HEAP_INSUFFICIENT_RESOURCES, Some p) else
  _ ← upd_proc p (set_ProcessName (Some Name));
  status ← _ProcessParseCommandLine p Arguments;
  if negb (SUCCEEDED status) then ret (status, Some p) else
  _ ← upd_proc p (set_ThreadList []);
  id ← _ProcessSystemRetrieveNextPid;
  _ ← upd_proc p (set_Id id);
  _ ← modify (fun s => set_ProcessList (ProcessList s ++ [p]) s);
  _ ← upd_proc p (set_NextProcess LinkIn);
  ret (STATUS_SUCCESS, Some p).

(** The status and *Process.  RfcInit and ExEventInit cannot fail on a block that was allocated. *)
Definition _ProcessInit (Name : list Z) (Arguments : option (list Z)) : M pst (Z * option Z) :=
  '(status, pProcess) ← process_init_body Name Arguments;
  if negb (SUCCEEDED status) then
    match pProcess with
    | Some p => _ ← _ProcessDereference p; ret (status, None)
    | None => ret (status, None)
    end
  else ret (status, pProcess).

(** What the loader, the file system and the paging code answer: the status and the header of UmApplicationRetrieveHeader,
    the statuses of _MmuCreatePagingTables, VmmCreateVirtualAddressSpace and MmuLoadPe, and whether MmuAllocStack finds room
    for the user stack. *)
Record create_env := mkEnv {
  e_header : Z + PE_NT_HEADER_INFO; e_paging : Z; e_vaspace : Z; e_load : Z; e_kernel_stack : bool; e_user_stack : bool }.

Definition MmuCreateAddressSpaceForProcess (e : create_env) (Process : Z) : M pst Z :=
  sys ← ProcessIsSystem Process;
  _ ← ASSERT (negb sys);
  _ ← upd_proc Process (set_PagingData false);
  _ ← upd_proc Process (set_VaSpace false);
  status ← (if negb (SUCCEEDED (e_paging e)) then ret (e_paging e) else
            _ ← upd_proc Process (set_PagingData true);
            if negb (SUCCEEDED (e_vaspace e)) then ret (e_vaspace e) else
            _ ← upd_proc Process (set_VaSpace true);
            ret STATUS_SUCCESS);
  _ ← (if negb (SUCCEEDED status) then MmuDestroyAddressSpaceForProcess Process else ret tt);
  ret status.

(** * Threads of a process *)
Definition ProcessInsertThreadInList (Process Thread : Z) : M pst unit :=
  _ ← upd_thread Thread (set_t_Process Process);
  P ← proc Process;
  _ ← ASSERT (NumberOfThreads P <? MAX_DWORD);
  _ ← upd_proc Process (set_NumberOfThreads (u32 (NumberOfThreads P + 1)));
  let activeThreads := u32 (ActiveThreads P + 1) in
  _ ← upd_proc Process (set_ActiveThreads activeThreads);
  _ ← ASSERT (activeThreads <=? u32 (NumberOfThreads P + 1));
  _ ← upd_proc Process (set_ThreadList (ThreadList P ++ [Thread]));
  _ ← _ProcessReference Process;
  _ ← proc Process;
  ret tt.

Definition ProcessNotifyThreadTermination (Thread : Z) : M pst unit :=
  T ← thread Thread;
  _ ← ASSERT (negb (t_Process T =? NULL));
  P ← proc (t_Process T);
  let activeThreads := u32 (ActiveThreads P - 1) in
  _ ← upd_proc (t_Process T) (set_ActiveThreads activeThreads);
  if activeThreads =? 0 then
    _ ← upd_proc (t_Process T) (set_TerminationStatus (t_ExitStatus T));
    upd_proc (t_Process T) (set_TerminationEvt true)
  else ret tt.

(** ProcessRemoveThreadFromList up to its LockRelease, which still uses the process: the process and remainingThreads. *)
Definition remove_thread_locked (Thread : Z) : M pst (Z * Z) :=
  T ← thread Thread;
  let pProcess := t_Process T in
  _ ← ASSERT (negb (pProcess =? NULL));
  P ← proc pProcess;
  let remainingThreads := u32 (NumberOfThreads P - 1) in
  _ ← upd_proc pProcess (set_NumberOfThreads remainingThreads);
  _ ← ASSERT (negb (remainingThreads =? MAX_DWORD));
  _ ← upd_proc pProcess (set_ThreadList (list_difference (ThreadList P) [Thread]));
  _ ← _ProcessDereference pProcess;
  _ ← proc pProcess;
  ret (pProcess, remainingThreads).

Definition ProcessRemoveThreadFromList (Thread : Z) : M pst unit :=
  '(pProcess, remainingThreads) ← remove_thread_locked Thread;
  if remainingThreads =? 0 then _ProcessDereference pProcess else ret tt.

(** ** thread.c *)
(** _ThreadDestroy before ProcessRemoveThreadFromList ... *)
Definition thread_destroy_begin (Thread : Z) : M pst unit :=
  T ← thread Thread;
  l ← gets AllThreadsList;
  l' ← lift (unlink (t_AllList T) Thread l);
  _ ← modify (set_AllThreadsList l');
  upd_thread Thread (set_t_UserStack false).
(** ... and after it. *)
Definition thread_destroy_end (Thread : Z) : M pst unit :=
  _ ← upd_thread Thread (set_t_Name None);
  _ ← upd_thread Thread (set_t_Stack false);
  modify (fun s => set_thrs (delete Thread (thrs s)) s).
Definition _ThreadDestroy (Thread : Z) : M pst unit :=
  _ ← thread_destroy_begin Thread;
  _ ← ProcessRemoveThreadFromList Thread;
  thread_destroy_end Thread.

Definition _ThreadReference (Thread : Z) : M pst unit :=
  T ← thread Thread;
  let newRefCount := u32 (t_RefCnt T + 1) in
  _ ← upd_thread Thread (set_t_RefCnt newRefCount);
  _ ← ASSERT (newRefCount <? MAX_DWORD);
  ASSERT (1 <=? newRefCount).
Definition thread_dereference (Thread : Z) : M pst unit :=
  T ← thread Thread;
  let newRefCount := u32 (t_RefCnt T - 1) in
  _ ← upd_thread Thread (set_t_RefCnt newRefCount);
  _ ← ASSERT (negb (MAX_DWORD =? newRefCount));
  if 0 =? newRefCount then _ThreadDestroy Thread else ret tt.

Definition thread_init_body (Name : list Z) (AllocateKernelStack stack_ok : bool) : M pst (Z * option Z) :=
  ok ← ExAllocatePool;
  if negb ok then ret (STATUS_HEAP_INSUFFICIENT_RESOURCES, None) else
  t ← new_block;
  _ ← modify (fun s => set_thrs (<[t := zeroed_thread]> (thrs s)) s);
  _ ← upd_thread t (set_t_RefCnt 1);
  if AllocateKernelStack && negb stack_ok then ret (STATUS_MEMORY_CANNOT_BE_COMMITED, Some t) else
  _ ← upd_thread t (set_t_Stack AllocateKernelStack);
  ok ← ExAllocatePool;
  if negb ok then ret (STATUS_HEAP_INSUFFICIENT_RESOURCES, Some t) else
  _ ← upd_thread t (set_t_Name (Some Name));
  _ ← modify (fun s => set_AllThreadsList (AllThreadsList s ++ [t]) s);
  _ ← upd_thread t (set_t_AllList LinkIn);
  ret (STATUS_SUCCESS, Some t).
Definition _ThreadInit (Name : list Z) (AllocateKernelStack stack_ok : bool) : M pst (Z * option Z) :=
  '(status, pThread) ← thread_init_body Name AllocateKernelStack stack_ok;
  if negb (SUCCEEDED status) then
    match pThread with
    | Some t => _ ← thread_dereference t; ret (status, None)
    | None => ret (status, None)
    end
  else ret (status, pThread).

(** ThreadCreateEx for a user process, from ProcessInsertThreadInList up to the ThreadUnblock that makes the thread run;
    [initial]: the function is the entry point of the image. *)
Definition thread_create_rest (e : create_env) (Process t : Z) (initial : bool) : M pst (Z * option Z) :=
  _ ← ProcessInsertThreadInList Process t;
  _ ← _ThreadReference t;
  if negb (e_user_stack e) then ret (STATUS_MEMORY_CANNOT_BE_COMMITED, None) else
  _ ← upd_thread t (set_t_UserStack true);
  P ← proc Process;
  _ ← ASSERT (negb initial || (NumberOfThreads P =? 1));
  ret (STATUS_SUCCESS, Some t).
Definition ThreadCreateEx (e : create_env) (Name : list Z) (Process : Z) (initial : bool) : M pst (Z * option Z) :=
  '(status, pThread) ← _ThreadInit Name true (e_kernel_stack e);
  match pThread with
  | Some t => thread_create_rest e Process t initial
  | None => ret (status, None)
  end.

Definition ThreadCloseHandle (Thread : Z) : M pst unit := thread_dereference Thread.

(** ThreadExit before it gives up the processor. *)
Definition thread_exit (Thread ExitStatus : Z) : M pst unit :=
  _ ← upd_thread Thread (set_t_Dying true);
  _ ← upd_thread Thread (set_t_ExitStatus ExitStatus);
  ProcessNotifyThreadTermination Thread.

(** * ProcessCreate *)
(** ProcessCreate up to the creation of the main thread: the status and the process that was initialised, whether or not a
    later step failed. *)
Definition process_create_begin (e : create_env) (Name : list Z) (Arguments : option (list Z)) : M pst (Z * option Z) :=
  '(status, pProcess) ← _ProcessInit Name Arguments;
  match pProcess with
  | None => ret (status, None)
  | Some p =>
    match e_header e with
    | inl status => ret (status, Some p)
    | inr header =>
      _ ← upd_proc p (set_HeaderInfo (Some header));
      status ← MmuCreateAddressSpaceForProcess e p;
      if negb (SUCCEEDED status) then ret (status, Some p) else
      ret (e_load e, Some p)
    end
  end.

(** The whole of ProcessCreate when nothing else runs. *)
Definition ProcessCreate (e : create_env) (Name : list Z) (Arguments : option (list Z)) : M pst (Z * option Z) :=
  '(status, pProcess) ← process_create_begin e Name Arguments;
  match pProcess with
  | None => ret (status, None)
  | Some p =>
    status ← (if negb (SUCCEEDED status) then ret status else
              '(status, pThread) ← ThreadCreateEx e [84; 101; 115; 116] p true;
              _ ← (match pThread with Some t => ThreadCloseHandle t | None => ret tt end);
              ret status);
    if negb (SUCCEEDED status) then _ ← _ProcessDereference p; ret (status, None)
    else _ ← _ProcessReference p; ret (status, Some p)
  end.

(** ProcessTerminate by the thread [cur]: every other thread of the process is told to exit; whether [cur] is one of them
    and has to exit too. *)
Fixpoint terminate_threads (cur : Z) (l : list Z) : M pst unit :=
  match l with
  | [] => ret tt
  | t :: l' =>
    _ ← (if t =? cur then ret tt else upd_thread t (fun T => set_t_Flags (Z.lor (t_Flags T) 1) T));
    terminate_threads cur l'
  end.
Definition ProcessTerminate (cur Process : Z) : M pst bool :=
  sys ← ProcessIsSystem Process;
  _ ← ASSERT (negb sys);
  P ← proc Process;
  _ ← terminate_threads cur (ThreadList P);
  ret (bool_decide (cur ∈ ThreadList P)).

(** * Start-up *)
Definition ProcessSystemPreinit (buffer : Z) : M pst unit :=
  '(size, bm) ← lift (BitmapPreinit PCID_TOTAL_NO_OF_VALUES);
  _ ← ASSERT (size =? PCID_TOTAL_NO_OF_VALUES / 8);
  bm ← zoom pid_mem set_pid_mem (BitmapInitEx bm buffer false);
  _ ← modify (set_PidBitmap bm);
  _ ← on_pids (fun bm => BitmapSetBitValue bm 0 true);
  _ ← modify (set_SystemProcess NULL);
  modify (set_ProcessList []).

(** The insertion of the main thread of the boot processor is left to the caller. *)
Definition ProcessSystemInitSystemProcess : M pst Z :=
  '(status, pProcess) ← _ProcessInit [83; 121; 115; 116; 101; 109] None;
  match pProcess with
  | None => ret status
  | Some p =>
    _ ← modify (set_SystemProcess p);
    _ ← upd_proc p (set_PagingData true);
    _ ← upd_proc p (set_VaSpace true);
    ret status
  end.

Fixpoint remove_one (x : Z) (l : list Z) : list Z :=
  match l with [] => [] | y :: l' => if x =? y then l' else y :: remove_one x l' end.

(** * Any number of threads that create, use and end processes *)
(** Kernel code that calls process.c, with the process handles it has open: between two calls; in ProcessCreate before the
    main thread is created, or about to drop the process that failed, or about to take the reference for the handle; about
    to close the handle of a thread it created (in ProcessCreate of a process, or not); in _ThreadDestroy after
    remove_thread_locked. *)
Inductive ppc :=
| PIdle (hs : list Z)
| PStart (p : Z) (hs : list Z)
| PFailed (p : Z) (hs : list Z)
| PCloseThread (t : Z) (k : option Z) (hs : list Z)
| PRemoved (q t : Z) (last : bool) (k : option Z) (hs : list Z)
| PStarted (p : Z) (hs : list Z).

Definition after_thread (k : option Z) (hs : list Z) : ppc := match k with Some p => PStarted p hs | None => PIdle hs end.

Inductive pchoice :=
| CCreate (e : create_env) (name : list Z) (args : option (list Z)) (pool : list bool)   (* ProcessCreate *)
| CThread (ok : bool)           (* the block of the main thread can be allocated or not *)
| CSpawn (t : Z) (ok : bool)    (* the running thread t creates a thread in its process *)
| CExit (t status : Z)          (* the running thread t calls ThreadExit *)
| CReap (t : Z)                 (* the scheduler drops the reference of a thread that exited *)
| CClose (p : Z)                (* ProcessCloseHandle *)
| CTerminate (p : Z).           (* ProcessTerminate from a thread of another process *)

(** The state and the threads that still hold their own reference. *)
Record kernel := mkKernel { k_st : pst; k_running : gset Z }.

Definition env_ok : create_env := mkEnv (inr zeroed_header) STATUS_SUCCESS STATUS_SUCCESS STATUS_SUCCESS true true.

Definition on_st {A} (m : M pst A) (s : kernel) (f : A -> kernel -> ppc * kernel) : outcome (ppc * kernel) :=
  '(a, σ) ← m (k_st s); Ok (f a (mkKernel σ (k_running s))).
Definition set_running (r : gset Z) (s : kernel) : kernel := mkKernel (k_st s) r.

(** _ThreadDereference, up to the release of ThreadListLock when the thread is destroyed. *)
Definition thread_dereference_locked (t : Z) : M pst (option (Z * Z)) :=
  T ← thread t;
  let newRefCount := u32 (t_RefCnt T - 1) in
  _ ← upd_thread t (set_t_RefCnt newRefCount);
  _ ← ASSERT (negb (MAX_DWORD =? newRefCount));
  if 0 =? newRefCount then _ ← thread_destroy_begin t; r ← remove_thread_locked t; ret (Some r) else ret None.
Definition after_dereference (t : Z) (k : option Z) (hs : list Z) (r : option (Z * Z)) : ppc :=
  match r with Some (q, remaining) => PRemoved q t (remaining =? 0) k hs | None => after_thread k hs end.

(** ThreadCreateEx: on success the new thread runs and the caller has its handle. *)
Definition create_thread (p : Z) (ok initial : bool) (k : option Z) (fail_ : ppc) (hs : list Z) (s : kernel) : outcome (ppc * kernel) :=
  on_st (_ ← modify (set_p_pool (if ok then [] else [false])); ThreadCreateEx env_ok [84] p initial) s
    (fun '(status, o) s => match o with
                           | Some t => (PCloseThread t k hs, set_running ({[t]} ∪ k_running s) s)
                           | None => (fail_, s)
                           end).

Definition pexec (cpu : Z) (choice : pchoice) (pc : ppc) (s : kernel) : outcome (ppc * kernel) :=
  match pc with
  | PStart p hs =>
    let ok := match choice with CThread ok => ok | _ => true end in
    create_thread p ok true (Some p) (PFailed p hs) hs s
  | PFailed p hs => on_st (_ProcessDereference p) s (fun _ s => (PIdle hs, s))
  | PCloseThread t k hs => on_st (thread_dereference_locked t) s (fun r s => (after_dereference t k hs r, s))
  | PRemoved q t last k hs =>
    on_st (_ ← (if last then _ProcessDereference q else ret tt); thread_destroy_end t) s (fun _ s => (after_thread k hs, s))
  | PStarted p hs => on_st (_ProcessReference p) s (fun _ s => (PIdle (p :: hs), s))
  | PIdle hs =>
    match choice with
    | CCreate e name args pool =>
      on_st (_ ← modify (set_p_pool pool); process_create_begin e name args) s (fun '(status, o) s =>
        match o with
        | None => (PIdle hs, s)
        | Some p => if SUCCEEDED status then (PStart p hs, s) else (PFailed p hs, s)
        end)
    | CSpawn t ok =>
      match thrs (k_st s) !! t with
      | Some T => if bool_decide (t ∈ k_running s) && negb (t_Dying T) then create_thread (t_Process T) ok false None (PIdle hs) hs s
                  else Ok (pc, s)
      | None => Ok (pc, s)
      end
    | CExit t status =>
      match thrs (k_st s) !! t with
      | Some T => if bool_decide (t ∈ k_running s) && negb (t_Dying T) then on_st (thread_exit t status) s (fun _ s => (pc, s))
                  else Ok (pc, s)
      | None => Ok (pc, s)
      end
    | CReap t =>
      match thrs (k_st s) !! t with
      | Some T => if bool_decide (t ∈ k_running s) && t_Dying T then
                    on_st (thread_dereference_locked t) (set_running (k_running s ∖ {[t]}) s) (fun r s => (after_dereference t None hs r, s))
                  else Ok (pc, s)
      | None => Ok (pc, s)
      end
    | CClose p => if bool_decide (p ∈ hs) then on_st (ProcessCloseHandle p) s (fun _ s => (PIdle (remove_one p hs), s)) else Ok (pc, s)
    | CTerminate p => if bool_decide (p ∈ hs) then on_st (ProcessTerminate NULL p) s (fun _ s => (pc, s)) else Ok (pc, s)
    | CThread _ => Ok (pc, s)
    end
  end.
