(* ===== verification/ProcessLife.v ===== *)
(** The life of processes ([Process]): what each operation does to the state, the invariant that every interleaving of
    process creation, thread creation, exit and destruction keeps, and the theorems. *)
From S2P Require Import Prelude IntUtils ClMemory Bitmap Interleave Pte PeParser Process.

(** * What the operations do *)
(** Flatten nested updates of the state. *)
Ltac pflat := cbv beta iota delta [set_PidBitmap set_pid_mem set_SystemProcess set_ProcessList set_AllThreadsList set_procs set_thrs
    set_p_pool set_next_block];
  cbn [PidBitmap pid_mem SystemProcess ProcessList AllThreadsList procs thrs p_pool next_block].
Section Runs.
Implicit Types s : pst.

Lemma proc_run s p P : procs s !! p = Some P -> proc p s = Ok (P, s).
Proof. intros E. unfold proc, getS, mbind, M_bind, lift. by rewrite E. Qed.
Lemma upd_proc_run s p P f : procs s !! p = Some P -> upd_proc p f s = Ok (tt, set_procs (<[p := f P]> (procs s)) s).
Proof. intros E. unfold upd_proc. by rewrite (bind_run _ _ _ _ _ (proc_run s p P E)). Qed.
Lemma thread_run s t T : thrs s !! t = Some T -> thread t s = Ok (T, s).
Proof. intros E. unfold thread, getS, mbind, M_bind, lift. by rewrite E. Qed.
Lemma upd_thread_run s t T f : thrs s !! t = Some T -> upd_thread t f s = Ok (tt, set_thrs (<[t := f T]> (thrs s)) s).
Proof. intros E. unfold upd_thread. by rewrite (bind_run _ _ _ _ _ (thread_run s t T E)). Qed.

(** ** Process identifiers *)
Definition pid_ok s : Prop := wf_bitmap (pid_mem s) (PidBitmap s) /\ BitCount (PidBitmap s) = PCID_TOTAL_NO_OF_VALUES.
Definition pid_used s (i : Z) : bool := bit (pid_mem s) (PidBitmap s) i.
(** Identifier [id] changes to [v] and nothing else. *)
Definition pid_change s m' (id : Z) (v : bool) : Prop :=
  wf_bitmap m' (PidBitmap s) /\ forall i, 0 <= i -> bit m' (PidBitmap s) i = if bool_decide (i = id) then v else pid_used s i.

Lemma bits_changed_pid s m' id v : pid_ok s ->
  bits_changed (pid_mem s) m' (BitmapBuffer (PidBitmap s)) (BufferSize (PidBitmap s)) id 1 v -> pid_change s m' id v.
Proof.
  intros [Hwf _] Hc. split; [by eapply bits_changed_wf|]. intros i Hi. destruct Hc as [Hb _]. unfold pid_used, bit.
  rewrite (Hb i Hi). repeat case_bool_decide; done || lia.
Qed.

Lemma pcid_valid id : PCID_IS_VALID id = true <-> 1 <= id < 4096.
Proof. unfold PCID_IS_VALID. change PCID_TOTAL_NO_OF_VALUES with 4096. rewrite andb_true_iff. lia. Qed.

Lemma free_pid_run s id : pid_ok s -> 1 <= id < 4096 -> pid_used s id = true ->
  exists m', _ProcessSystemFreePid id s = Ok (tt, set_pid_mem m' s) /\ pid_change s m' id false.
Proof.
  intros Hok Hid Hu. pose proof Hok as [Hwf Hc]. change PCID_TOTAL_NO_OF_VALUES with 4096 in Hc.
  pose proof (wf_bitmap_size _ _ Hwf) as Hsz. destruct Hwf as (Hp&_&_&Hb). unfold _ProcessSystemFreePid.
  rewrite (bind_run _ _ _ _ _ (ASSERT_run _ s (proj2 (pcid_valid id) Hid))). rewrite (u32_small id) by rlia.
  assert (id / 8 < BufferSize (PidBitmap s)) as Hd by (apply div8_lt; lia). assert (0 <= id) as Hi0 by lia.
  assert (on_pids (fun bm => BitmapGetBitValue bm id) s = Ok (true, s)) as E.
  { unfold on_pids, gets, mbind, M_bind, zoom, BitmapGetBitValue, ASSERT, lift, assert_. rewrite Hc, (proj2 (Z.ltb_lt id 4096)) by lia.
    unfold mbind, M_bind. rewrite (_BitmapGetBit_spec _ _ _ _ Hp Hb Hi0 Hd). unfold pid_used, bit in Hu. rewrite Hu. by destruct s. }
  rewrite (bind_run _ _ _ _ _ E), (bind_run _ _ _ _ _ (ASSERT_run true s eq_refl)).
  destruct (wp_Ok _ _ _ (_BitmapChangeBit_spec _ _ id false _ Hp Hb Hi0 Hd)) as (u&m'&Ew&Hm'). destruct u.
  exists m'. split; [|by apply bits_changed_pid].
  unfold on_pids, gets, mbind, M_bind, zoom, BitmapSetBitValue, ASSERT, lift, assert_. rewrite Hc, (proj2 (Z.ltb_lt id 4096)) by lia.
  unfold mbind, M_bind. by rewrite Ew.
Qed.

(** A new identifier was not in use; there is none only when all are in use. *)
Lemma next_pid_run s : pid_ok s -> pid_used s 0 = true ->
  (exists id m', _ProcessSystemRetrieveNextPid s = Ok (id, set_pid_mem m' s) /\ 1 <= id < 4096 /\ pid_used s id = false /\
     pid_change s m' id true) \/
  (_ProcessSystemRetrieveNextPid s = Err AssertFailed /\ forall i, 0 <= i < 4096 -> pid_used s i = true).
Proof.
  intros Hok H0. pose proof Hok as [Hwf Hc]. change PCID_TOTAL_NO_OF_VALUES with 4096 in Hc.
  assert (is_dword (BitCount (PidBitmap s))) as Hd by (rewrite Hc; rlia). assert (is_dword 0) as Hd0 by rlia. assert (is_dword 1) as Hd1 by rlia.
  pose proof (BitmapScanFromToAndFlip_spec (pid_mem s) (PidBitmap s) 0 (BitCount (PidBitmap s)) 1 false Hwf Hd0 Hd Hd1) as Hs.
  apply wp_Ok in Hs as (r&m'&E&Hs). rewrite bool_decide_eq_false_2 in Hs by lia. destruct Hs as (Hr&_&Hm).
  assert (on_pids (fun bm => BitmapScanAndFlip bm 1 false) s = Ok (r, set_pid_mem m' s)) as Ep
    by (unfold on_pids, gets, mbind, M_bind, zoom, BitmapScanAndFlip; by rewrite E).
  unfold _ProcessSystemRetrieveNextPid. rewrite (bind_run _ _ _ _ _ Ep). rewrite Hc in Hr.
  assert (forall i, 0 <= i < 4096 -> ~ run_of (pid_mem s) (BitmapBuffer (PidBitmap s)) i 1 false -> pid_used s i = true) as Hset.
  { intros i Hi Hn. unfold pid_used, bit. destruct (bit_at _ _ i) eqn:Ei; [done|]. destruct Hn. intros j Hj. by replace (i + j) with i by lia. }
  destruct Hr as [[-> Hr]|(Hr1&Hr2&Hr3&Hrun&_)].
  - right. split; [done|]. intros i Hi. apply Hset; [done|]. apply Hr; lia.
  - left. exists r, m'. assert (pid_used s r = false) as Hu by (unfold pid_used, bit; specialize (Hrun 0); rewrite Z.add_0_r in Hrun; apply Hrun; lia).
    assert (r <> 0) by congruence. rewrite (bind_run _ _ _ tt (set_pid_mem m' s)) by (apply ASSERT_run, pcid_valid; lia).
    rewrite bool_decide_eq_false_2 in Hm by done. split_and!; try done; try lia. by apply bits_changed_pid.
Qed.

(** ** Steps on one process *)
Ltac plook := pflat; first [eassumption|apply lookup_insert_eq].
Ltac prun := first
  [ erewrite bind_run by (apply proc_run; plook) | erewrite bind_run by (apply upd_proc_run; plook)
  | erewrite bind_run by (apply thread_run; plook) | erewrite bind_run by (apply upd_thread_run; plook) ];
  pflat; rewrite ?insert_insert_eq.
Ltac passert := rewrite (bind_run _ _ _ tt _) by (apply ASSERT_run; solve [done|lia|apply negb_true_iff; lia|apply negb_true_iff, Z.eqb_neq; lia]).

Lemma reference_run s p P n : procs s !! p = Some P -> p_RefCnt P = n -> 0 <= n -> n + 1 < MAX_DWORD ->
  _ProcessReference p s = Ok (tt, set_procs (<[p := set_p_RefCnt (n + 1) P]> (procs s)) s).
Proof.
  intros E Hn H0 H1. unfold _ProcessReference. prun. rewrite Hn, u32_small by rlia. prun. passert.
  by apply ASSERT_run, Z.leb_le; lia.
Qed.

Lemma dereference_run s p P n : procs s !! p = Some P -> p_RefCnt P = n -> 1 < n < MAX_DWORD ->
  _ProcessDereference p s = Ok (tt, set_procs (<[p := set_p_RefCnt (n - 1) P]> (procs s)) s).
Proof.
  intros E Hn H0. unfold _ProcessDereference. prun. rewrite Hn, u32_small by rlia. prun. passert.
  rewrite (proj2 (Z.eqb_neq _ _)) by lia. done.
Qed.

Lemma insert_thread_run s p P t T n : procs s !! p = Some P -> thrs s !! t = Some T ->
  NumberOfThreads P = n -> 0 <= ActiveThreads P <= n -> p_RefCnt P + 1 < MAX_DWORD -> 0 <= n < p_RefCnt P ->
  ProcessInsertThreadInList p t s =
  Ok (tt, set_procs (<[p := set_p_RefCnt (p_RefCnt P + 1) (set_ThreadList (ThreadList P ++ [t])
            (set_ActiveThreads (ActiveThreads P + 1) (set_NumberOfThreads (n + 1) P)))]> (procs s))
          (set_thrs (<[t := set_t_Process p T]> (thrs s)) s)).
Proof.
  intros E Et Hn Ha Hr Hb. unfold ProcessInsertThreadInList. prun. prun. rewrite Hn. passert.
  rewrite (u32_small (n + 1)), (u32_small (_ + 1)) by rlia. prun. prun. passert. prun.
  erewrite bind_run by (eapply reference_run; [apply lookup_insert_eq|reflexivity|cbn; lia|cbn; lia]). prun. cbn. done.
Qed.

Lemma notify_run s t T P : thrs s !! t = Some T -> t_Process T <> NULL -> procs s !! t_Process T = Some P ->
  0 < ActiveThreads P <= MAX_DWORD ->
  ProcessNotifyThreadTermination t s =
  Ok (tt, set_procs (<[t_Process T := let P' := set_ActiveThreads (ActiveThreads P - 1) P in
            if ActiveThreads P =? 1 then set_TerminationEvt true (set_TerminationStatus (t_ExitStatus T) P') else P']> (procs s)) s).
Proof.
  intros Et Hp E Ha. unfold ProcessNotifyThreadTermination. prun. passert. prun. rewrite u32_small by rlia. prun.
  destruct (Z.eqb_spec (ActiveThreads P) 1) as [->|]; [|by rewrite (proj2 (Z.eqb_neq _ _)) by lia].
  change (1 - 1 =? 0) with true. cbv iota. prun. erewrite upd_proc_run by apply lookup_insert_eq. cbn. by rewrite insert_insert_eq.
Qed.

Lemma remove_run s t T P n : thrs s !! t = Some T -> t_Process T <> NULL -> procs s !! t_Process T = Some P ->
  NumberOfThreads P = n -> 0 < n -> n < p_RefCnt P < MAX_DWORD ->
  remove_thread_locked t s =
  Ok ((t_Process T, n - 1), set_procs (<[t_Process T := set_p_RefCnt (p_RefCnt P - 1)
     (set_ThreadList (list_difference (ThreadList P) [t]) (set_NumberOfThreads (n - 1) P))]> (procs s)) s).
Proof.
  intros Et Hp E Hn H0 Hr. unfold remove_thread_locked. prun. passert. prun. rewrite Hn, u32_small by rlia. prun. passert. prun.
  erewrite bind_run by (eapply dereference_run; [apply lookup_insert_eq|reflexivity|cbn; lia]). prun. done.
Qed.

(** ** Destruction *)
Lemma is_system_run s p P S : procs s !! p = Some P -> procs s !! SystemProcess s = Some S ->
  ProcessIsSystem p s = Ok (Id S =? Id P, s).
Proof.
  intros E Es. unfold ProcessIsSystem. prun. erewrite bind_run by reflexivity. by rewrite (bind_run _ _ _ _ _ (proc_run _ _ _ Es)).
Qed.

Lemma destroy_space_run s p P S : procs s !! p = Some P -> p <> SystemProcess s -> procs s !! SystemProcess s = Some S ->
  Id S <> Id P -> (PagingData P = true -> 1 <= Id P < 4096) ->
  MmuDestroyAddressSpaceForProcess p s = Ok (tt, set_procs (<[p := set_PagingData false (set_VaSpace false P)]> (procs s)) s).
Proof.
  intros E Hne Es Hid Hpd. unfold MmuDestroyAddressSpaceForProcess. rewrite (bind_run _ _ _ _ _ (is_system_run _ _ _ _ E Es)). passert.
  prun. prun. destruct (PagingData P) eqn:Ep; cbn [set_VaSpace PagingData]; rewrite ?Ep.
  - unfold ProcessActivatePagingTables. unfold mbind at 1, M_bind at 1. prun.
    rewrite (ASSERT_run _ _ (proj2 (pcid_valid _) (Hpd eq_refl))). erewrite upd_proc_run by apply lookup_insert_eq. cbn. by rewrite insert_insert_eq.
  - unfold ret. do 4 f_equal. destruct P; cbn in *; by subst.
Qed.

Definition unlinked (P : PROCESS) (p : Z) (l : list Z) : list Z :=
  match NextProcess P with LinkIn => list_difference l [p] | _ => l end.

(** What destroying process [p] requires. *)
Record destroyable s (p : Z) (P : PROCESS) : Prop := {
  de_system : p <> SystemProcess s /\ exists S, procs s !! SystemProcess s = Some S /\ Id S <> Id P;
  de_threads : NumberOfThreads P = 0;
  de_link : NextProcess P <> LinkZeroed;
  de_id : (Id P = 0 /\ PagingData P = false) \/ (1 <= Id P < 4096 /\ pid_ok s /\ pid_used s (Id P) = true) }.

Lemma destroy_run s p P : procs s !! p = Some P -> destroyable s p P ->
  exists m', _ProcessDestroy p s = Ok (tt, set_procs (delete p (procs s)) (set_ProcessList (unlinked P p (ProcessList s)) (set_pid_mem m' s))) /\
    (if Id P =? 0 then m' = pid_mem s else pid_change s m' (Id P) false).
Proof.
  intros E [(Hne&S&Es&Hid) Hn Hl Hpid]. unfold _ProcessDestroy. rewrite (bind_run _ _ _ _ _ (is_system_run _ _ _ _ E Es)). passert.
  prun. rewrite Hn. passert. erewrite bind_run by reflexivity.
  assert (unlink (NextProcess P) p (ProcessList s) = Ok (unlinked P p (ProcessList s))) as Eu by (unfold unlink, unlinked; by destruct (NextProcess P)).
  rewrite (bind_run _ _ _ _ _ (lift_run _ s _ Eu)). erewrite bind_run by reflexivity. cbn [set_ProcessList].
  prun. prun. prun.
  erewrite bind_run by (eapply destroy_space_run; cbn [procs SystemProcess set_procs]; [apply lookup_insert_eq|done|by rewrite lookup_insert_ne|done|];
    intros HP; change (PagingData P = true) in HP; change (1 <= Id P < 4096); destruct Hpid as [[_ ?]|[? _]]; [congruence|lia]).
  destruct Hpid as [[Ez _]|(Hr&Hok&Hu)].
  - rewrite Ez. change (negb (0 =? 0)) with false. cbv iota. erewrite bind_run by reflexivity. exists (pid_mem s). split; [|done].
    unfold modify. cbn. rewrite insert_insert_eq, delete_insert_eq. by destruct s.
  - rewrite (proj2 (Z.eqb_neq (Id P) 0)) by lia. cbn [negb].
    edestruct (free_pid_run (set_procs (<[p := set_PagingData false (set_VaSpace false (set_HeaderInfo None (set_ProcessName None (set_FullCommandLine None P))))]> (procs s))
       (set_ProcessList (unlinked P p (ProcessList s)) s)) (Id P) Hok Hr Hu) as (m'&Ef&Hch).
    exists m'. split; [|exact Hch]. erewrite bind_run; [|cbn [set_procs procs set_ProcessList] in Ef |- *; rewrite insert_insert_eq; exact Ef].
    unfold modify. cbn. by rewrite delete_insert_eq.
Qed.

(** The last reference destroys. *)
Lemma final_dereference_run s p P : procs s !! p = Some P -> p_RefCnt P = 1 -> destroyable s p P ->
  exists m', _ProcessDereference p s = Ok (tt, set_procs (delete p (procs s)) (set_ProcessList (unlinked P p (ProcessList s)) (set_pid_mem m' s))) /\
    (if Id P =? 0 then m' = pid_mem s else pid_change s m' (Id P) false).
Proof.
  intros E Hr [(Hne&S&Es&Hid) Hn Hl Hpid]. unfold _ProcessDereference. prun. rewrite Hr. change (u32 (1 - 1)) with 0. prun. passert. rewrite Z.eqb_refl.
  edestruct (destroy_run (set_procs (<[p := set_p_RefCnt 0 P]> (procs s)) s) p (set_p_RefCnt 0 P)) as (m'&Ed&Hm).
  - apply lookup_insert_eq.
  - split; try done. split; [done|]. exists S. split; [|done]. cbn. by rewrite lookup_insert_ne.
  - exists m'. split; [|exact Hm]. etransitivity; [exact Ed|]. pflat. by rewrite delete_insert_eq.
Qed.

(** ** Initialisation *)
Lemma pool_run s : exists b pl, ExAllocatePool s = Ok (b, set_p_pool pl s).
Proof.
  unfold ExAllocatePool. destruct (p_pool s) as [|b pl] eqn:E; [|by exists b, pl]. exists true, []. do 2 f_equal. rewrite <- E. by destruct s.
Qed.

(** A process _ProcessInit has filled, without and with its identifier. *)
Definition blank_process (hdr : option PE_NT_HEADER_INFO) (name line : option (list Z)) (n : Z) : PROCESS :=
  mkPROCESS 1 0 name line n false 0 [] 0 0 LinkSelf false hdr false.
Definition arguments (args : option (list Z)) : Z := u32 ((match args with Some a => count_elements false a | None => 0 end) + 1).
Definition new_process (name : list Z) (args : option (list Z)) (id : Z) : PROCESS :=
  mkPROCESS 1 id (Some name) (Some (full_command_line name args)) (arguments args) false 0 [] 0 0 LinkIn false (Some zeroed_header) false.

(** Where a new block can go. *)
Definition system_live s : Prop := exists S, procs s !! SystemProcess s = Some S /\ 1 <= Id S < 4096.
Definition fresh_block s : Prop := procs s !! next_block s = None /\ thrs s !! next_block s = None /\ next_block s <> SystemProcess s.

(** The failure path of _ProcessInit gives everything back. *)
Lemma init_cleanup_run s p h n l k : p <> SystemProcess s -> procs s !! p = None -> system_live s ->
  _ProcessDereference p (set_procs (<[p := blank_process h n l k]> (procs s)) s) = Ok (tt, s).
Proof.
  intros Hne Hp (S&Es&Hid). edestruct (final_dereference_run (set_procs (<[p := blank_process h n l k]> (procs s)) s) p) as (m'&E&Hm);
    [apply lookup_insert_eq|done| |].
  - split; try done; [|by left]. split; [done|]. exists S. split; [|cbn; lia]. cbn. by rewrite lookup_insert_ne.
  - cbn in Hm. subst m'. rewrite E. cbn. rewrite delete_insert_eq, delete_id by done. by destruct s.
Qed.
Ltac ppool pl := match goal with |- context [(ExAllocatePool ≫= _) ?σ] =>
  let b := fresh "ok" in let E := fresh "E" in destruct (pool_run σ) as (b&pl&E); rewrite (bind_run _ _ _ _ _ E); clear E; destruct b; cbn [negb] end.

Lemma parse_run s p P name args : procs s !! p = Some P -> ProcessName P = Some name ->
  exists pl, _ProcessParseCommandLine p args s = Ok (STATUS_HEAP_INSUFFICIENT_RESOURCES, set_p_pool pl s) \/
    _ProcessParseCommandLine p args s = Ok (STATUS_SUCCESS, set_procs (<[p := set_NumberOfArguments (arguments args)
       (set_FullCommandLine (Some (full_command_line name args)) P)]> (procs s)) (set_p_pool pl s)).
Proof.
  intros E En. unfold _ProcessParseCommandLine. prun. rewrite En. passert. ppool pl; exists pl; [right|by left].
  prun. prun. done.
Qed.

(** The state with a new process [P] at [p]. *)
Definition with_process s pl p P : pst := set_procs (<[p := P]> (procs s)) (set_next_block (p + 1) (set_p_pool pl s)).

Lemma init_body_run s name args : pid_ok s -> pid_used s 0 = true ->
  let p := next_block s in
  (exists st pl, process_init_body name args s = Ok ((st, None), set_p_pool pl s) /\ SUCCEEDED st = false) \/
  (exists st pl h n l k, process_init_body name args s = Ok ((st, Some p), with_process s pl p (blank_process h n l k)) /\ SUCCEEDED st = false) \/
  (exists id m' pl, process_init_body name args s =
     Ok ((STATUS_SUCCESS, Some p), set_ProcessList (ProcessList s ++ [p]) (set_pid_mem m' (with_process s pl p (new_process name args id)))) /\
     1 <= id < 4096 /\ pid_used s id = false /\ pid_change s m' id true) \/
  (process_init_body name args s = Err AssertFailed /\ forall i, 0 <= i < 4096 -> pid_used s i = true).
Proof.
  intros Hok H0 p. unfold process_init_body. ppool pl1; [|left; eexists _, _; by split].
  erewrite bind_run by reflexivity. cbn [next_block set_p_pool]. fold p. erewrite bind_run by reflexivity. cbn [procs set_procs set_next_block set_p_pool].
  prun. prun. prun. ppool pl2; [|right; left; exists STATUS_HEAP_INSUFFICIENT_RESOURCES, pl2, None, None, None, 0; by split].
  prun. ppool pl3; [|right; left; exists STATUS_HEAP_INSUFFICIENT_RESOURCES, pl3, (Some zeroed_header), None, None, 0; by split].
  prun. match goal with |- context [(_ProcessParseCommandLine _ _ ≫= _) ?σ] =>
    destruct (parse_run σ p _ name args (lookup_insert_eq _ _ _) eq_refl) as (pl4&[E|E]) end; rewrite (bind_run _ _ _ _ _ E); clear E;
    [right; left; exists STATUS_HEAP_INSUFFICIENT_RESOURCES, pl4, (Some zeroed_header), (Some name), None, 0; by split|].
  change (negb (SUCCEEDED STATUS_SUCCESS)) with false. cbv iota. prun.
  match goal with |- context [(_ProcessSystemRetrieveNextPid ≫= _) ?σ] => destruct (next_pid_run σ Hok H0) as [(id&m'&E&Hid&Hu&Hc)|[E Hall]] end.
  - right. right. left. exists id, m', pl4. rewrite (bind_run _ _ _ _ _ E). cbn [set_pid_mem]. prun. erewrite bind_run by reflexivity. cbn [set_ProcessList]. prun.
    split_and!; done || lia.
  - right. right. right. split; [|done]. unfold mbind, M_bind at 1. by rewrite E.
Qed.
(** _ProcessInit succeeds with a new identifier, fails and leaves no trace, or stops the system when there is no identifier. *)
Lemma init_run s name args : pid_ok s -> pid_used s 0 = true -> fresh_block s -> system_live s ->
  let p := next_block s in
  (exists st pl nb, _ProcessInit name args s = Ok ((st, None), set_next_block nb (set_p_pool pl s)) /\ SUCCEEDED st = false /\ p <= nb) \/
  (exists id m' pl, _ProcessInit name args s =
     Ok ((STATUS_SUCCESS, Some p), set_ProcessList (ProcessList s ++ [p]) (set_pid_mem m' (with_process s pl p (new_process name args id)))) /\
     1 <= id < 4096 /\ pid_used s id = false /\ pid_change s m' id true) \/
  (_ProcessInit name args s = Err AssertFailed /\ forall i, 0 <= i < 4096 -> pid_used s i = true).
Proof.
  intros Hok H0 (Hf&_&Hne) Hs p. unfold _ProcessInit.
  destruct (init_body_run s name args Hok H0) as [(st&pl&E&Hst)|[(st&pl&h&n&l&k&E&Hst)|[(id&m'&pl&E&H)|[E H]]]].
  - left. exists st, pl, p. rewrite (bind_run _ _ _ _ _ E), Hst. cbn [negb]. split_and!; [by destruct s|done|lia].
  - left. exists st, pl, (p + 1). rewrite (bind_run _ _ _ _ _ E), Hst. cbn [negb]. split_and!; [|done|lia].
    set (s1 := set_next_block (p + 1) (set_p_pool pl s)).
    erewrite bind_run; [reflexivity|]. apply (init_cleanup_run s1 p h n l k); [done|done|exact Hs].
  - right. left. exists id, m', pl. by rewrite (bind_run _ _ _ _ _ E).
  - right. right. split; [|done]. unfold mbind, M_bind. by rewrite E.
Qed.

Lemma create_space_run s e p P S : procs s !! p = Some P -> p <> SystemProcess s -> procs s !! SystemProcess s = Some S -> Id S <> Id P ->
  1 <= Id P < 4096 -> exists st pd va, MmuCreateAddressSpaceForProcess e p s = Ok (st, set_procs (<[p := set_PagingData pd (set_VaSpace va P)]> (procs s)) s).
Proof.
  intros E Hne Es Hid Hr. unfold MmuCreateAddressSpaceForProcess. rewrite (bind_run _ _ _ _ _ (is_system_run _ _ _ _ E Es)). passert. prun. prun.
  assert (forall pd va st, SUCCEEDED st = false -> exists st' pd' va',
    (_ ← (if negb (SUCCEEDED st) then MmuDestroyAddressSpaceForProcess p else ret tt); ret st)
      (set_procs (<[p := set_PagingData pd (set_VaSpace va P)]> (procs s)) s) =
    Ok (st', set_procs (<[p := set_PagingData pd' (set_VaSpace va' P)]> (procs s)) s)) as Hfail.
  { intros pd va st ->. cbn [negb]. exists st, false, false. erewrite bind_run by (eapply destroy_space_run; pflat;
      [apply lookup_insert_eq|done|by rewrite lookup_insert_ne|exact Hid|done]). pflat. by rewrite insert_insert_eq. }
  destruct (SUCCEEDED (e_paging e)) eqn:Ep; cbn [negb].
  - unfold mbind at 1, M_bind at 1. prun. destruct (SUCCEEDED (e_vaspace e)) eqn:Ev; cbn [negb].
    + prun. exists STATUS_SUCCESS, true, true. reflexivity.
    + apply (Hfail true false _ Ev).
  - erewrite bind_run by reflexivity. apply (Hfail false false _ Ep).
Qed.
(** What is known of a process when ProcessCreate reaches the creation of its main thread, or fails before. *)
Record newborn (P : PROCESS) (id : Z) : Prop := {
  nb_refs : p_RefCnt P = 1; nb_id : Id P = id; nb_link : NextProcess P = LinkIn; nb_list : ThreadList P = [];
  nb_counts : NumberOfThreads P = 0 /\ ActiveThreads P = 0 /\ TerminationEvt P = false;
  nb_owned : is_Some (ProcessName P) /\ is_Some (FullCommandLine P) /\ is_Some (HeaderInfo P) }.

Lemma create_begin_run s e name args : pid_ok s -> pid_used s 0 = true -> fresh_block s -> system_live s ->
  (forall p P, procs s !! p = Some P -> pid_used s (Id P) = true) ->
  let p := next_block s in
  (exists st pl nb, process_create_begin e name args s = Ok ((st, None), set_next_block nb (set_p_pool pl s)) /\ p <= nb) \/
  (exists st id P m' pl, process_create_begin e name args s =
     Ok ((st, Some p), set_ProcessList (ProcessList s ++ [p]) (set_pid_mem m' (with_process s pl p P))) /\
     1 <= id < 4096 /\ pid_used s id = false /\ pid_change s m' id true /\ newborn P id) \/
  (process_create_begin e name args s = Err AssertFailed /\ forall i, 0 <= i < 4096 -> pid_used s i = true).
Proof.
  intros Hok H0 Hf Hs Hu p. unfold process_create_begin. pose proof Hf as (_&_&Hne). pose proof Hs as (S&Es&Hid).
  destruct (init_run s name args Hok H0 Hf Hs) as [(st&pl&nb&E&Hst&Hle)|[(id&m'&pl&E&Hr&Hfree&Hc)|[E Hall]]].
  - left. exists st, pl, nb. by rewrite (bind_run _ _ _ _ _ E).
  - right. left. rewrite (bind_run _ _ _ _ _ E). cbv beta iota.
    assert (newborn (new_process name args id) id) as Hn by (split; cbn; try done; split_and!; by eexists).
    destruct (e_header e) as [st|h]; [eexists st, id, _, m', pl; split_and!; done || lia|].
    erewrite bind_run by (apply upd_proc_run; unfold with_process; pflat; apply lookup_insert_eq). unfold with_process. pflat. rewrite insert_insert_eq.
    edestruct (create_space_run) as (st&pd&va&Ec); [| | | | |erewrite bind_run by (eapply Ec); clear Ec]; pflat; try apply lookup_insert_eq;
      [done|rewrite lookup_insert_ne by done; exact Es| |done|].
    { cbn. intros Heq. specialize (Hu _ _ Es). congruence. }
    rewrite insert_insert_eq. destruct (SUCCEEDED st); cbn [negb];
      [exists (e_load e)|exists st]; eexists id, _, m', pl; (split_and!; [reflexivity|lia..|done|done|]); split; cbn; try done; split_and!; by eexists.
  - right. right. split; [|done]. unfold mbind, M_bind. by rewrite E.
Qed.
(** ** Threads *)
Definition new_thread (name : list Z) (p : Z) : THREAD_OBJECT := mkTHREAD_OBJECT 2 p LinkIn false 0 0 (Some name) true true.
Definition with_thread (P : PROCESS) (t : Z) : PROCESS :=
  set_p_RefCnt (p_RefCnt P + 1) (set_ThreadList (ThreadList P ++ [t]) (set_ActiveThreads (ActiveThreads P + 1) (set_NumberOfThreads (NumberOfThreads P + 1) P))).
Definition inserted s (p : Z) (P : PROCESS) (name : list Z) : pst :=
  let t := next_block s in
  set_procs (<[p := with_thread P t]> (procs s)) (set_thrs (<[t := new_thread name p]> (thrs s))
    (set_AllThreadsList (AllThreadsList s ++ [t]) (set_next_block (t + 1) s))).

Lemma thread_init_run s name : p_pool s = [] -> let t := next_block s in
  _ThreadInit name true (e_kernel_stack env_ok) s = Ok ((STATUS_SUCCESS, Some t),
    set_thrs (<[t := mkTHREAD_OBJECT 1 NULL LinkIn false 0 0 (Some name) true false]> (thrs s))
      (set_AllThreadsList (AllThreadsList s ++ [t]) (set_next_block (t + 1) s))).
Proof.
  intros Hpool t. unfold _ThreadInit.
  assert (thread_init_body name true (e_kernel_stack env_ok) s = Ok ((STATUS_SUCCESS, Some t),
    set_thrs (<[t := mkTHREAD_OBJECT 1 NULL LinkIn false 0 0 (Some name) true false]> (thrs s))
      (set_AllThreadsList (AllThreadsList s ++ [t]) (set_next_block (t + 1) s)))) as Eb.
  { unfold thread_init_body. erewrite bind_run by (unfold ExAllocatePool; rewrite Hpool; reflexivity). cbn [negb].
    erewrite bind_run by reflexivity. erewrite bind_run by reflexivity. fold t. pflat. prun. cbn [env_ok e_kernel_stack andb negb]. prun.
    erewrite bind_run by (unfold ExAllocatePool; pflat; rewrite Hpool; reflexivity). cbn [negb]. prun. erewrite bind_run by reflexivity. pflat. prun. by rewrite Hpool. }
  by rewrite (bind_run _ _ _ _ _ Eb).
Qed.

Lemma create_thread_run s p P name initial : p_pool s = [] -> procs s !! p = Some P ->
  0 <= ActiveThreads P <= NumberOfThreads P -> p_RefCnt P + 1 < MAX_DWORD -> NumberOfThreads P < p_RefCnt P ->
  (initial = true -> NumberOfThreads P = 0) ->
  ThreadCreateEx env_ok name p initial s = Ok ((STATUS_SUCCESS, Some (next_block s)), inserted s p P name).
Proof.
  intros Hpool E Ha Hr Hb Hi. unfold ThreadCreateEx. rewrite (bind_run _ _ _ _ _ (thread_init_run s name Hpool)).
  cbv beta iota. unfold thread_create_rest.
  erewrite bind_run by (eapply insert_thread_run; pflat; [exact E|apply lookup_insert_eq|reflexivity|done|done|lia]). pflat. rewrite insert_insert_eq.
  unfold _ThreadReference. erewrite bind_run by (prun; prun; passert; apply ASSERT_run; reflexivity). cbn [env_ok e_user_stack negb]. prun. prun.
  erewrite bind_run; [|apply ASSERT_run; cbn; destruct initial; [|reflexivity]; rewrite Hi by done; reflexivity]. done.
Qed.

(** The reference count of the process is at its limit. *)
Lemma create_thread_max s p P name initial : p_pool s = [] -> procs s !! p = Some P ->
  0 <= ActiveThreads P <= NumberOfThreads P -> p_RefCnt P + 1 = MAX_DWORD -> NumberOfThreads P < p_RefCnt P ->
  ThreadCreateEx env_ok name p initial s = Err AssertFailed.
Proof.
  intros Hpool E Ha Hr Hb. unfold ThreadCreateEx. rewrite (bind_run _ _ _ _ _ (thread_init_run s name Hpool)).
  cbv beta iota. unfold thread_create_rest, mbind at 1, M_bind at 1.
  assert (forall σ t, procs σ !! p = Some P -> is_Some (thrs σ !! t) -> ProcessInsertThreadInList p t σ = Err AssertFailed) as ->;
    [|done|exact E|eexists; apply lookup_insert_eq].
  intros σ t E' [T Et]. unfold ProcessInsertThreadInList. prun. prun. passert. rewrite (u32_small (NumberOfThreads P + 1)), (u32_small (ActiveThreads P + 1)) by rlia.
  prun. prun. passert. prun. unfold _ProcessReference, mbind at 1, M_bind at 1. prun. cbn [p_RefCnt set_ThreadList set_ActiveThreads set_NumberOfThreads]. rewrite Hr. prun. done.
Qed.

Lemma create_thread_fail s p name initial : p_pool s = [false] ->
  exists st, ThreadCreateEx env_ok name p initial s = Ok ((st, None), set_p_pool [] s).
Proof.
  intros Hpool. exists STATUS_HEAP_INSUFFICIENT_RESOURCES. unfold ThreadCreateEx, _ThreadInit, thread_init_body.
  unfold mbind, M_bind, ExAllocatePool. rewrite Hpool. reflexivity.
Qed.

Lemma thread_deref_run s t T n : thrs s !! t = Some T -> t_RefCnt T = n -> 1 < n < MAX_DWORD ->
  thread_dereference_locked t s = Ok (None, set_thrs (<[t := set_t_RefCnt (n - 1) T]> (thrs s)) s).
Proof.
  intros E Hn H. unfold thread_dereference_locked. prun. rewrite Hn, u32_small by rlia. prun. passert.
  rewrite (proj2 (Z.eqb_neq _ _)) by lia. done.
Qed.

(** The last reference to a thread takes it off its process. *)
Definition without_thread (P : PROCESS) (t : Z) : PROCESS :=
  set_p_RefCnt (p_RefCnt P - 1) (set_ThreadList (list_difference (ThreadList P) [t]) (set_NumberOfThreads (NumberOfThreads P - 1) P)).
Lemma thread_last_run s t T P : thrs s !! t = Some T -> t_RefCnt T = 1 -> t_AllList T = LinkIn -> t_Process T <> NULL ->
  procs s !! t_Process T = Some P -> 0 < NumberOfThreads P < p_RefCnt P -> p_RefCnt P < MAX_DWORD ->
  thread_dereference_locked t s = Ok (Some (t_Process T, NumberOfThreads P - 1),
    set_procs (<[t_Process T := without_thread P t]> (procs s))
      (set_thrs (<[t := set_t_UserStack false (set_t_RefCnt 0 T)]> (thrs s)) (set_AllThreadsList (list_difference (AllThreadsList s) [t]) s))).
Proof.
  intros E Hn Hl Hp Ep Hr Hm. unfold thread_dereference_locked. prun. rewrite Hn. change (u32 (1 - 1)) with 0. prun. passert. rewrite Z.eqb_refl.
  unfold thread_destroy_begin. erewrite bind_run.
  2:{ prun. erewrite bind_run by reflexivity. cbn [set_t_RefCnt t_AllList]. rewrite Hl. cbn [unlink].
      erewrite bind_run by reflexivity. erewrite bind_run by reflexivity. pflat. apply upd_thread_run. apply lookup_insert_eq. }
  pflat. rewrite insert_insert_eq.
  erewrite bind_run by (eapply (remove_run _ _ _ P); pflat; [apply lookup_insert_eq|exact Hp|exact Ep|reflexivity|lia|lia]). done.
Qed.

Lemma exit_run s t T P st : thrs s !! t = Some T -> t_Process T <> NULL -> procs s !! t_Process T = Some P ->
  0 < ActiveThreads P <= MAX_DWORD ->
  exists P', thread_exit t st s = Ok (tt, set_procs (<[t_Process T := P']> (procs s))
     (set_thrs (<[t := set_t_ExitStatus st (set_t_Dying true T)]> (thrs s)) s)) /\
    P' = (let P1 := set_ActiveThreads (ActiveThreads P - 1) P in
          if ActiveThreads P =? 1 then set_TerminationEvt true (set_TerminationStatus st P1) else P1).
Proof.
  intros E Hp Ep Ha. eexists. split; [|reflexivity]. unfold thread_exit. prun. prun.
  erewrite notify_run by (pflat; first [apply lookup_insert_eq|exact Hp|exact Ep|exact Ha]). done.
Qed.

Lemma destroy_end_run s t T : thrs s !! t = Some T -> thread_destroy_end t s = Ok (tt, set_thrs (delete t (thrs s)) s).
Proof.
  intros E. unfold thread_destroy_end. prun. prun. unfold modify. pflat. by rewrite delete_insert_eq.
Qed.
End Runs.

(** * The invariant *)
Definition handles (pc : ppc) : list Z :=
  match pc with PIdle hs | PStart _ hs | PFailed _ hs | PCloseThread _ _ hs | PRemoved _ _ _ _ hs | PStarted _ hs => hs end.
(** The reference _ProcessInit leaves, when kernel code is responsible for it. *)
Definition inits (p : Z) (pc : ppc) : Z :=
  match pc with PStart q _ | PFailed q _ | PRemoved q _ true _ _ => b2z (p =? q) | _ => 0 end.
(** ProcessCreate has not reached the main thread. *)
Definition starts (p : Z) (pc : ppc) : Z := match pc with PStart q _ => b2z (p =? q) | _ => 0 end.
(** References to process [p]. *)
Definition refs (p : Z) (pc : ppc) : Z := countp (Z.eqb p) (handles pc) + inits p pc.
Definition thread_handle (t : Z) (pc : ppc) : Z := match pc with PCloseThread u _ _ => b2z (t =? u) | _ => 0 end.
Definition removing (t : Z) (pc : ppc) : Z := match pc with PRemoved _ u _ _ _ => b2z (t =? u) | _ => 0 end.

Definition live_thread (ths : gmap Z THREAD_OBJECT) (t : Z) : bool :=
  match ths !! t with Some T => negb (t_Dying T) | None => false end.
Definition has_threads (P : PROCESS) : bool := negb (bool_decide (ThreadList P = [])).
Definition num (l : list Z) : Z := Z.of_nat (length l).

(** Process [p]: its counts are those of its list, of its threads that have not exited and of the references to it. *)
Record proc_inv (ths : gmap Z THREAD_OBJECT) (ps : list ppc) (p : Z) (P : PROCESS) : Prop := {
  pi_nodup : NoDup (ThreadList P);
  pi_threads : forall t, t ∈ ThreadList P -> exists T, ths !! t = Some T /\ t_Process T = p;
  pi_num : NumberOfThreads P = num (ThreadList P);
  pi_active : ActiveThreads P = countp (live_thread ths) (ThreadList P);
  pi_event : ThreadList P <> [] -> TerminationEvt P = bool_decide (ActiveThreads P = 0);
  pi_start : 0 < sumf (starts p) ps -> TerminationEvt P = false;
  pi_init : sumf (inits p) ps + b2z (has_threads P) <= 1;
  pi_count : p_RefCnt P = num (ThreadList P) + b2z (has_threads P) + sumf (refs p) ps;
  pi_range : 0 < p_RefCnt P < MAX_DWORD }.

Definition listed (prs : gmap Z PROCESS) (p t : Z) : Prop := exists P, prs !! p = Some P /\ t ∈ ThreadList P.

(** Thread [t]: it is in the list of its process, or it is being destroyed. *)
Definition thread_inv (prs : gmap Z PROCESS) (sysp : Z) (run : gset Z) (ps : list ppc) (t : Z) (T : THREAD_OBJECT) : Prop :=
  t_AllList T = LinkIn /\
  ((listed prs (t_Process T) t /\ t_Process T <> sysp /\ sumf (removing t) ps = 0 /\
    t_RefCnt T = b2z (bool_decide (t ∈ run)) + sumf (thread_handle t) ps /\ 0 < t_RefCnt T <= 2 /\ (t_Dying T = false -> t ∈ run)) \/
   (sumf (removing t) ps = 1 /\ sumf (thread_handle t) ps = 0 /\ (t ∉ run) /\ forall p, p <> sysp -> ~ listed prs p t)).

(** Identifiers, the process list and the blocks. *)
Record base_inv (s : pst) : Prop := {
  bi_ok : pid_ok s;
  bi_zero : pid_used s 0 = true;
  bi_used : forall p P, procs s !! p = Some P -> 1 <= Id P < 4096 /\ pid_used s (Id P) = true;
  bi_owner : forall i, 0 < i < 4096 -> pid_used s i = true -> exists p P, procs s !! p = Some P /\ Id P = i;
  bi_inj : forall p q P Q, procs s !! p = Some P -> procs s !! q = Some Q -> Id P = Id Q -> p = q;
  bi_link : forall p P, procs s !! p = Some P -> NextProcess P = LinkIn;
  bi_list : NoDup (ProcessList s) /\ forall p, p ∈ ProcessList s <-> is_Some (procs s !! p);
  bi_system : is_Some (procs s !! SystemProcess s);
  bi_fresh : 0 < next_block s /\ (forall p, is_Some (procs s !! p) -> 0 < p < next_block s) /\
             forall t, is_Some (thrs s !! t) -> 0 < t < next_block s }.

Record life_inv (s : @sys kernel ppc) : Prop := {
  li_base : base_inv (k_st (shared s));
  li_proc : forall p P, procs (k_st (shared s)) !! p = Some P -> p <> SystemProcess (k_st (shared s)) ->
    proc_inv (thrs (k_st (shared s))) (pcs s) p P;
  li_thread : forall t T, thrs (k_st (shared s)) !! t = Some T ->
    thread_inv (procs (k_st (shared s))) (SystemProcess (k_st (shared s))) (k_running (shared s)) (pcs s) t T;
  li_refs : forall pc p, pc ∈ pcs s -> 0 < refs p pc -> is_Some (procs (k_st (shared s)) !! p) /\ p <> SystemProcess (k_st (shared s));
  li_threads : forall pc t, pc ∈ pcs s -> 0 < thread_handle t pc + removing t pc -> is_Some (thrs (k_st (shared s)) !! t);
  li_running : forall t, t ∈ k_running (shared s) -> is_Some (thrs (k_st (shared s)) !! t) }.

(** ** Frames *)
(** What a process sees of its threads. *)
Definition thread_view (o : option THREAD_OBJECT) : option (Z * bool) := (fun T => (t_Process T, t_Dying T)) <$> o.

Lemma proc_inv_frame ths ths' ps ps' p P : proc_inv ths ps p P ->
  (forall t, t ∈ ThreadList P -> thread_view (ths' !! t) = thread_view (ths !! t)) ->
  sumf (inits p) ps' = sumf (inits p) ps -> sumf (refs p) ps' = sumf (refs p) ps -> sumf (starts p) ps' = sumf (starts p) ps ->
  proc_inv ths' ps' p P.
Proof.
  intros [H1 H2 H3 H4 H5 H9 H6 H7 H8] Hv Hi Hr Hs. split; try done; rewrite ?Hi, ?Hr, ?Hs; try done.
  - intros t Ht. destruct (H2 t Ht) as (T&E&Hp). specialize (Hv t Ht). rewrite E in Hv. destruct (ths' !! t) as [T'|]; [|done].
    injection Hv as Hv _. exists T'. split; [done|congruence].
  - rewrite H4. clear -Hv. induction (ThreadList P) as [|t l IH]; [done|]. cbn [countp]. f_equal; [|apply IH; set_solver].
    specialize (Hv t ltac:(set_solver)). unfold live_thread. destruct (ths' !! t), (ths !! t); cbn in Hv; congruence.
Qed.

Lemma thread_inv_frame prs prs' sysp run run' ps ps' t T : thread_inv prs sysp run ps t T ->
  (forall p, p <> sysp -> listed prs' p t <-> listed prs p t) -> (t ∈ run' <-> t ∈ run) ->
  sumf (removing t) ps' = sumf (removing t) ps -> sumf (thread_handle t) ps' = sumf (thread_handle t) ps ->
  thread_inv prs' sysp run' ps' t T.
Proof.
  intros (Hl&H) Hp Hr H1 H2. split; [done|]. rewrite H1, H2, (bool_decide_ext _ _ Hr), Hr. destruct H as [(A&B&C)|(A&B&C&D)].
  - left. by rewrite Hp.
  - right. split_and!; try done. intros p Hne. rewrite Hp by done. by apply D.
Qed.

(** A process is replaced by one with the same identifier and links. *)
Lemma base_inv_procs s p P P' : base_inv s -> procs s !! p = Some P -> Id P' = Id P -> NextProcess P' = NextProcess P ->
  base_inv (set_procs (<[p := P']> (procs s)) s).
Proof.
  intros [H1 H2 H3 H4 H5 H6 [H7 H7'] H8 (H9&H10&H11)] E Hid Hn.
  assert (forall q, is_Some (<[p := P']> (procs s) !! q) <-> is_Some (procs s !! q)) as Hs.
  { intros q. rewrite lookup_insert_is_Some'. split; [|by right]. intros [->|]; [by eexists|done]. }
  assert (forall q Q, <[p := P']> (procs s) !! q = Some Q -> exists Q', procs s !! q = Some Q' /\ Id Q = Id Q' /\ NextProcess Q = NextProcess Q') as Hl.
  { intros q Q [[<- <-]|[_ Hq]]%lookup_insert_Some; eauto. }
  split; pflat; try done.
  - intros q Q (Q'&E'&->&_)%Hl. by apply (H3 q).
  - intros i Hi (q&Q&Eq&Hq)%H4; [|done]. destruct (decide (q = p)) as [->|]; [|exists q, Q; by rewrite lookup_insert_ne].
    exists p, P'. rewrite lookup_insert_eq. split; [done|congruence].
  - intros q r Q R (Q'&Eq&Hq&_)%Hl (R'&Er&Hr&_)%Hl Heq. apply (H5 q r Q' R'); congruence.
  - intros q Q (Q'&Eq&_&->)%Hl. by apply (H6 q).
  - split; [done|]. intros q. rewrite Hs. apply H7'.
  - by apply Hs.
  - split_and!; try done. intros q Hq. apply H10, Hs, Hq.
Qed.

Lemma base_inv_thrs s ths : base_inv s -> (forall t, is_Some (ths !! t) -> 0 < t < next_block s) -> base_inv (set_thrs ths s).
Proof. intros [H1 H2 H3 H4 H5 H6 H7 H8 (H9&H10&H11)] Ht. by split. Qed.

Lemma countp_nonneg {A} (f : A -> bool) l : 0 <= countp f l.
Proof. apply countp_range. Qed.
Lemma inits_nonneg p pc : 0 <= inits p pc.
Proof. destruct pc as [| | | |q t [] k hs|]; cbn; try lia; unfold b2z; case_match; lia. Qed.
Lemma refs_nonneg p pc : inits p pc <= refs p pc /\ countp (Z.eqb p) (handles pc) <= refs p pc.
Proof. unfold refs. pose proof (countp_nonneg (Z.eqb p) (handles pc)). pose proof (inits_nonneg p pc). lia. Qed.
Lemma sumf_refs p ps pc : pc ∈ ps -> inits p pc <= sumf (inits p) ps /\ refs p pc <= sumf (refs p) ps.
Proof.
  intros [i Hi]%list_elem_of_lookup. split; apply (sumf_ge _ _ i); try done; apply Forall_forall; intros x _; [apply inits_nonneg|].
  pose proof (refs_nonneg p x). pose proof (inits_nonneg p x). lia.
Qed.
Lemma sumf_thread t ps pc : pc ∈ ps -> thread_handle t pc <= sumf (thread_handle t) ps /\ removing t pc <= sumf (removing t) ps.
Proof.
  intros [i Hi]%list_elem_of_lookup. split; apply (sumf_ge _ _ i); try done; apply Forall_forall; intros x _; destruct x; cbn; try lia; unfold b2z; case_match; lia.
Qed.
Lemma sumf_nonneg' {A} (f : A -> Z) l : (forall x, 0 <= f x) -> 0 <= sumf f l.
Proof. intros H. apply sumf_nonneg, Forall_forall. intros x _. apply H. Qed.
Lemma num_nonneg l : 0 <= num l.
Proof. unfold num. lia. Qed.
Lemma has_threads_num P : b2z (has_threads P) <= num (ThreadList P) /\ (has_threads P = false <-> ThreadList P = []).
Proof.
  unfold has_threads, num. case_bool_decide as E; [rewrite E; cbn; split; [lia|done]|]. destruct (ThreadList P) as [|t l]; [done|].
  split; [cbn [length b2z negb]; lia|]. split; done.
Qed.

Lemma proc_inv_count ths ps ps' p P n : proc_inv ths ps p P -> sumf (refs p) ps' = sumf (refs p) ps + (n - p_RefCnt P) ->
  sumf (inits p) ps' <= sumf (inits p) ps -> sumf (starts p) ps' <= sumf (starts p) ps -> 0 < n < MAX_DWORD ->
  proc_inv ths ps' p (set_p_RefCnt n P).
Proof. intros [H1 H2 H3 H4 H5 H9 H6 H7 H8] Hr Hi Hs Hn. split; try done; [intros ?; apply H9; lia|..]; cbn [p_RefCnt ThreadList set_p_RefCnt]; change (has_threads (set_p_RefCnt n P)) with (has_threads P); lia. Qed.

(** Process [p] is destroyed. *)
Lemma base_inv_delete s p P m' : base_inv s -> procs s !! p = Some P -> p <> SystemProcess s -> pid_change s m' (Id P) false ->
  base_inv (set_procs (delete p (procs s)) (set_ProcessList (unlinked P p (ProcessList s)) (set_pid_mem m' s))).
Proof.
  intros [H1 H2 H3 H4 H5 H6 [H7 H7'] H8 (H9&H10&H11)] E Hne [Hwf Hm]. destruct (H3 p P E) as [Hid _].
  assert (forall q, is_Some (delete p (procs s) !! q) <-> q <> p /\ is_Some (procs s !! q)) as Hs.
  { intros q. unfold is_Some. setoid_rewrite lookup_delete_Some. naive_solver. }
  unfold unlinked. rewrite (H6 p P E). split; pflat; unfold pid_used; pflat.
  - split; [exact Hwf|apply H1].
  - rewrite Hm, bool_decide_eq_false_2 by lia. done.
  - intros q Q [Hq Eq]%lookup_delete_Some. destruct (H3 q Q Eq). split; [done|]. rewrite Hm by lia. rewrite bool_decide_eq_false_2; [done|].
    intros Heq. apply Hq. symmetry. by apply (H5 q p Q P).
  - intros k Hk. rewrite Hm by lia. case_bool_decide as Ek; [done|]. intros (q&Q&Eq&Hq)%H4; [|done].
    exists q, Q. split; [|done]. apply lookup_delete_Some. split; [|done]. intros <-. congruence.
  - intros q r Q R [_ Eq]%lookup_delete_Some [_ Er]%lookup_delete_Some. by apply H5.
  - intros q Q [_ Eq]%lookup_delete_Some. by apply (H6 q).
  - split; [by apply NoDup_list_difference|]. intros q. rewrite list_elem_of_difference, list_elem_of_singleton, H7', Hs. tauto.
  - apply Hs. done.
  - split_and!; [done| |done]. intros q [_ Hq]%Hs. by apply H10.
Qed.

Lemma base_inv_alloc s nb l pl : base_inv s -> next_block s <= nb -> base_inv (set_next_block nb (set_AllThreadsList l (set_p_pool pl s))).
Proof.
  intros [H1 H2 H3 H4 H5 H6 H7 H8 (H9&H10&H11)] Hn. split; try done. pflat. split_and!; [lia|intros q Hq; specialize (H10 q Hq); lia|intros t Ht; specialize (H11 t Ht); lia].
Qed.

Lemma num_app l k : num (l ++ k) = num l + num k.
Proof. unfold num. rewrite length_app. lia. Qed.

(** A new thread joins process [p]; the creator's reference, if it still has one, passes to the list of threads. *)
Lemma proc_inv_insert ths ps ps' p P t T : proc_inv ths ps p P -> ths !! t = None -> t_Process T = p -> t_Dying T = false ->
  TerminationEvt P = false -> sumf (inits p) ps' = 0 -> sumf (starts p) ps' <= sumf (starts p) ps ->
  sumf (refs p) ps' + 1 = sumf (refs p) ps + b2z (has_threads P) -> p_RefCnt P + 1 < MAX_DWORD ->
  proc_inv (<[t := T]> ths) ps' p (with_thread P t).
Proof.
  intros [H1 H2 H3 H4 H5 H9 H6 H7 H8] Ht HT Hd He Hi Hs Hr Hm. assert (t ∉ ThreadList P) as Hnot.
  { intros Hin. destruct (H2 t Hin) as (?&E&_). congruence. }
  assert (has_threads (with_thread P t) = true) as Eh by (unfold has_threads, with_thread; cbn; rewrite bool_decide_eq_false_2; [done|by destruct (ThreadList P)]).
  assert (countp (live_thread (<[t := T]> ths)) (ThreadList P ++ [t]) = ActiveThreads P + 1) as Ea.
  { rewrite countp_app. cbn [countp]. unfold live_thread at 2. rewrite lookup_insert_eq, Hd, H4. cbn. rewrite Z.add_0_r. f_equal.
    clear -Hnot. induction (ThreadList P) as [|u l IH]; [done|]. cbn [countp]. f_equal; [|apply IH; set_solver].
    unfold live_thread. by rewrite lookup_insert_ne by set_solver. }
  pose proof (countp_nonneg (live_thread ths) (ThreadList P)). unfold with_thread in *.
  split; cbn [p_RefCnt ThreadList NumberOfThreads ActiveThreads TerminationEvt set_p_RefCnt set_ThreadList set_ActiveThreads set_NumberOfThreads].
  - apply NoDup_app. split_and!; [done|set_solver|apply NoDup_singleton].
  - intros u [Hu| ->%list_elem_of_singleton]%elem_of_app; [|exists T; by rewrite lookup_insert_eq]. rewrite lookup_insert_ne by set_solver. by apply H2.
  - rewrite num_app, H3. done.
  - by rewrite Ea.
  - intros _. rewrite He, bool_decide_eq_false_2; [done|lia].
  - intros Hp. apply H9. lia.
  - rewrite Eh. cbn. lia.
  - rewrite Eh, num_app, H7. change (num [t]) with 1. cbn [b2z]. lia.
  - lia.
Qed.

Lemma num_difference l t : NoDup l -> t ∈ l -> num (list_difference l [t]) = num l - 1 /\
  forall f, f t = false -> countp f (list_difference l [t]) = countp f l.
Proof.
  induction l as [|u l IH]; intros Hn Hin; [set_solver|]. apply NoDup_cons in Hn as [Hu Hn]. cbn [list_difference].
  destruct (decide (u = t)) as [->|Hne].
  - case_decide; [|set_solver]. assert (list_difference l [t] = l) as ->.
    { clear -Hu. induction l as [|v l IH]; [done|]. cbn. case_decide; [set_solver|]. f_equal. apply IH. set_solver. }
    split; [unfold num; cbn [length]; lia|]. intros f Hf. cbn [countp]. rewrite Hf. done.
  - case_decide; [set_solver|]. destruct (IH Hn ltac:(set_solver)) as [H1 H2]. unfold num in *. cbn [length countp]. split; [lia|].
    intros f Hf. rewrite H2 by done. done.
Qed.

(** A thread that exited leaves process [p]; the reference _ProcessInit left passes to the code that removes the last one. *)
Lemma proc_inv_remove ths ths' ps ps' p P t : proc_inv ths ps p P -> t ∈ ThreadList P -> live_thread ths t = false ->
  (forall u, thread_view (ths' !! u) = thread_view (ths !! u)) ->
  let last := b2z (num (ThreadList P) =? 1) in
  sumf (inits p) ps' = sumf (inits p) ps + last -> sumf (refs p) ps' = sumf (refs p) ps + last -> sumf (starts p) ps' <= sumf (starts p) ps ->
  proc_inv ths' ps' p (without_thread P t).
Proof.
  intros HP Hin Hlive Hv last Hi Hr Hs. destruct HP as [H1 H2 H3 H4 H5 H9 H6 H7 H8]. destruct (num_difference _ t H1 Hin) as [Hnum Hcnt].
  assert (has_threads P = true) as Eh by (unfold has_threads; rewrite bool_decide_eq_false_2; [done|intros El; rewrite El in Hin; set_solver]).
  assert (1 <= num (ThreadList P)) as Hpos by (destruct (ThreadList P); [set_solver|unfold num; cbn [length]; lia]).
  assert (b2z (has_threads (without_thread P t)) = 1 - last) as Eh'.
  { unfold has_threads, without_thread, last. cbn [ThreadList set_p_RefCnt set_ThreadList set_NumberOfThreads].
    destruct (Z.eqb_spec (num (ThreadList P)) 1) as [E1|E1]; cbn [b2z].
    - rewrite bool_decide_eq_true_2; [done|]. destruct (list_difference _ _); [done|]. unfold num in *. cbn [length] in *. lia.
    - rewrite bool_decide_eq_false_2; [done|]. intros El. rewrite El in Hnum. unfold num in *. cbn in Hnum. lia. }
  rewrite Eh in *. cbn [b2z] in *. assert (0 <= last <= 1) by (unfold last; destruct (_ =? 1); cbn; lia).
  assert (countp (live_thread ths') (list_difference (ThreadList P) [t]) = ActiveThreads P) as Ea.
  { rewrite H4, <- (Hcnt _ Hlive). clear -Hv. induction (list_difference (ThreadList P) [t]) as [|u l IH]; [done|]. cbn [countp]. rewrite IH. f_equal.
    specialize (Hv u). unfold live_thread. destruct (ths' !! u), (ths !! u); cbn in Hv; congruence. }
  assert (0 <= sumf (refs p) ps) as Hr0 by (apply sumf_nonneg'; intros x; pose proof (refs_nonneg p x); pose proof (inits_nonneg p x); lia).
  split; rewrite ?Eh'; unfold without_thread; cbn [p_RefCnt ThreadList NumberOfThreads ActiveThreads TerminationEvt set_p_RefCnt set_ThreadList set_NumberOfThreads].
  - by apply NoDup_list_difference.
  - intros u [Hu _]%list_elem_of_difference. destruct (H2 u Hu) as (U&EU&HU). specialize (Hv u). rewrite EU in Hv.
    destruct (ths' !! u) as [U'|]; [|done]. injection Hv as Hv _. exists U'. split; [done|congruence].
  - lia.
  - by rewrite Ea.
  - intros _. apply H5. intros El. rewrite El in Hin. set_solver.
  - intros Hst. apply H9. lia.
  - lia.
  - lia.
  - lia.
Qed.

Lemma in_difference (r : gset Z) t u : u <> t -> u ∈ r ∖ {[t]} <-> u ∈ r.
Proof. set_solver. Qed.
Lemma not_in_difference (r : gset Z) t : t ∉ r ∖ {[t]}.
Proof. set_solver. Qed.
Lemma not_in_list_difference (l : list Z) t : ~ t ∈ list_difference l [t].
Proof. rewrite list_elem_of_difference, list_elem_of_singleton. tauto. Qed.

(** Thread [t] of the list stops being live. *)
Lemma countp_exit ths l t T T' : NoDup l -> t ∈ l -> ths !! t = Some T -> t_Dying T = false -> t_Dying T' = true ->
  countp (live_thread (<[t := T']> ths)) l = countp (live_thread ths) l - 1.
Proof.
  intros Hn Hin E Hd Hd'. assert (live_thread ths t = true /\ live_thread (<[t := T']> ths) t = false) as [Ht Ht']
    by (unfold live_thread; by rewrite lookup_insert_eq, E, Hd, Hd').
  assert (forall u, u <> t -> live_thread (<[t := T']> ths) u = live_thread ths u) as Hu by (intros u ?; unfold live_thread; by rewrite lookup_insert_ne).
  induction l as [|u l IH]; [set_solver|]. apply NoDup_cons in Hn as [Hul Hn]. cbn [countp]. destruct (decide (u = t)) as [->|Hne].
  - rewrite Ht, Ht'. cbn [b2z]. assert (countp (live_thread (<[t := T']> ths)) l = countp (live_thread ths) l) as ->; [|lia].
    clear -Hul Hu. induction l as [|v l IH]; [done|]. cbn [countp]. rewrite IH, Hu by set_solver. done.
  - rewrite IH, Hu by (done || set_solver). lia.
Qed.

Lemma proc_inv_exit ths ps p P t T T' st : proc_inv ths ps p P -> t ∈ ThreadList P -> ths !! t = Some T -> t_Dying T = false ->
  t_Dying T' = true -> t_Process T' = t_Process T ->
  proc_inv (<[t := T']> ths) ps p
    (let P1 := set_ActiveThreads (ActiveThreads P - 1) P in
     if ActiveThreads P =? 1 then set_TerminationEvt true (set_TerminationStatus st P1) else P1) /\ 0 < ActiveThreads P.
Proof.
  intros [H1 H2 H3 H4 H5 H9 H6 H7 H8] Hin E Hd Hd' Hp. pose proof (countp_exit ths (ThreadList P) t T T' H1 Hin E Hd Hd') as Hc.
  apply list_elem_of_lookup in Hin as Hj. destruct Hj as [j Hj].
  pose proof (countp_pos (live_thread ths) _ j t Hj ltac:(unfold live_thread; by rewrite E, Hd)) as Hpos.
  assert (sumf (starts p) ps <= 0) as Hst.
  { assert (has_threads P = true) as Eh by (unfold has_threads; rewrite bool_decide_eq_false_2; [done|intros El; rewrite El in Hin; set_solver]).
    rewrite Eh in H6. cbn in H6. assert (sumf (starts p) ps <= sumf (inits p) ps); [|lia]. clear. induction ps as [|x ps IH]; [done|].
    change (starts p x + sumf (starts p) ps <= inits p x + sumf (inits p) ps). assert (starts p x <= inits p x); [|lia]. destruct x as [| | | |q u [] k hs|]; cbn; unfold b2z; repeat case_match; lia. }
  assert (forall u, u ∈ ThreadList P -> exists U, <[t := T']> ths !! u = Some U /\ t_Process U = p) as H2'.
  { intros u Hu. destruct (H2 u Hu) as (U&EU&HU). destruct (decide (u = t)) as [->|]; [|exists U; by rewrite lookup_insert_ne].
    exists T'. rewrite lookup_insert_eq. split; [done|congruence]. }
  split; [|lia]. destruct (Z.eqb_spec (ActiveThreads P) 1) as [E1|E1]; split; try done; cbn [ActiveThreads set_ActiveThreads set_TerminationEvt set_TerminationStatus TerminationEvt ThreadList];
    try lia; intros Hne; rewrite ?bool_decide_eq_true_2 by lia; try done.
  rewrite H5, !bool_decide_eq_false_2 by (done || lia). done.
Qed.

(** ** Termination requests *)
Definition same_but_flags (a b : gmap Z THREAD_OBJECT) : Prop := forall t, set_t_Flags 0 <$> b !! t = set_t_Flags 0 <$> a !! t.

Lemma terminate_run cur l : forall s, (forall t, t ∈ l -> is_Some (thrs s !! t)) ->
  exists ths, terminate_threads cur l s = Ok (tt, set_thrs ths s) /\ same_but_flags (thrs s) ths.
Proof.
  induction l as [|t l IH]; intros s Hl; [exists (thrs s); split; [by destruct s|done]|]. cbn [terminate_threads]. destruct (t =? cur).
  { erewrite bind_run by reflexivity. apply IH. set_solver. }
  destruct (Hl t ltac:(set_solver)) as [T E]. rewrite (bind_run _ _ _ _ _ (upd_thread_run s t T _ E)).
  edestruct (IH (set_thrs (<[t := set_t_Flags (Z.lor (t_Flags T) 1) T]> (thrs s)) s)) as (ths&Er&Hs).
  { intros u Hu. pflat. apply lookup_insert_is_Some'. right. apply Hl. set_solver. }
  exists ths. split; [exact Er|]. intros u. rewrite (Hs u). pflat. destruct (decide (u = t)) as [->|]; [|by rewrite lookup_insert_ne].
  by rewrite lookup_insert_eq, E.
Qed.

(** ** A new process *)
Lemma proc_inv_newborn ths ps p P id : newborn P id -> sumf (inits p) ps = 1 -> sumf (refs p) ps = 1 -> proc_inv ths ps p P.
Proof.
  intros [N1 N2 N3 N4 (N5&N6&N7) N8] Hi Hr. assert (has_threads P = false) as Eh by (by apply has_threads_num).
  split; rewrite ?N1, ?N4, ?N5, ?N6, ?N7, ?Eh, ?Hi, ?Hr; try done; [by apply NoDup_nil|].
  intros t []%not_elem_of_nil.
Qed.

Lemma base_inv_create s m' pl P id : base_inv s -> newborn P id -> 1 <= id < 4096 -> pid_used s id = false -> pid_change s m' id true ->
  let p := next_block s in base_inv (set_ProcessList (ProcessList s ++ [p]) (set_pid_mem m' (with_process s pl p P))).
Proof.
  intros [H1 H2 H3 H4 H5 H6 [H7 H7'] H8 (H9&H10&H11)] [_ Hid Hl _ _ _] Hr Hu [Hwf Hm] p.
  assert (procs s !! p = None) as Hp. { destruct (procs s !! p) eqn:E; [|done]. specialize (H10 p). rewrite E in H10. destruct H10; [by eexists|unfold p in *; lia]. }
  assert (forall q Q, procs s !! q = Some Q -> Id Q <> id) as Hne. { intros q Q E Heq. destruct (H3 q Q E). congruence. }
  unfold with_process. split; pflat; unfold pid_used; pflat.
  - split; [exact Hwf|apply H1].
  - rewrite Hm, bool_decide_eq_false_2 by lia. done.
  - intros q Q [[<- <-]|[_ Eq]]%lookup_insert_Some; [rewrite Hid, Hm, bool_decide_eq_true_2 by lia; done|].
    destruct (H3 q Q Eq). split; [done|]. rewrite Hm by lia. case_bool_decide; done.
  - intros k Hk. rewrite Hm by lia. case_bool_decide as Ek; [intros _; exists p, P; rewrite lookup_insert_eq; split; [done|congruence]|].
    intros (q&Q&Eq&Hq)%H4; [|done]. exists q, Q. rewrite lookup_insert_ne by congruence. done.
  - intros q r Q R [[<- <-]|[_ Eq]]%lookup_insert_Some [[<- <-]|[_ Er]]%lookup_insert_Some Heq; [done|..|by apply (H5 q r Q R)];
      [destruct (Hne r R Er)|destruct (Hne q Q Eq)]; congruence.
  - intros q Q [[<- <-]|[_ Eq]]%lookup_insert_Some; [done|by apply (H6 q)].
  - split.
    + apply NoDup_app. split_and!; [done| |apply NoDup_singleton]. intros q Hq ->%list_elem_of_singleton. apply H7' in Hq. rewrite Hp in Hq. by destruct Hq.
    + intros q. rewrite elem_of_app, list_elem_of_singleton, H7', lookup_insert_is_Some'. naive_solver.
  - apply lookup_insert_is_Some'. by right.
  - split_and!; [unfold p; lia|intros q [<-|Hq]%lookup_insert_is_Some'|intros t Ht]; [unfold p; lia|specialize (H10 q Hq)|specialize (H11 t Ht)]; unfold p; lia.
Qed.

(** ** Steps *)
Section Steps.
Context (s : @sys kernel ppc) (i : nat) (pc : ppc) (Hinv : life_inv s) (Hi : pcs s !! i = Some pc).
Abbreviation σ := (k_st (shared s)).
Abbreviation run := (k_running (shared s)).
Abbreviation sysp := (SystemProcess (k_st (shared s))).

Lemma pc_in : pc ∈ pcs s.
Proof. by eapply list_elem_of_lookup_2. Qed.

Lemma sum_update f pc' : sumf f (<[i := pc']> (pcs s)) = sumf f (pcs s) - f pc + f pc'.
Proof. by apply sumf_update. Qed.

Lemma pcs_update pc' x : x ∈ <[i := pc']> (pcs s) -> x = pc' \/ x ∈ pcs s.
Proof. intros [j Hj]%list_elem_of_lookup. apply list_lookup_insert_Some in Hj as [(_&->&_)|[_ Hj]]; [by left|right]. by eapply list_elem_of_lookup_2. Qed.

(** The new position holds the references of the old one, but for those to [p]. *)
Definition refs_kept (pc' : ppc) (except : Z -> Prop) : Prop := forall q, ~ except q ->
  refs q pc' = refs q pc /\ inits q pc' = inits q pc /\ starts q pc' = starts q pc.
Definition threads_kept (pc' : ppc) (except : Z -> Prop) : Prop :=
  forall t, ~ except t -> thread_handle t pc' = thread_handle t pc /\ removing t pc' = removing t pc.

(** A process is replaced by one with the same threads. *)
Lemma update_process p P P' pc' :
  procs σ !! p = Some P -> p <> sysp -> Id P' = Id P -> NextProcess P' = NextProcess P -> ThreadList P' = ThreadList P ->
  proc_inv (thrs σ) (<[i := pc']> (pcs s)) p P' -> refs_kept pc' (eq p) -> threads_kept pc' (fun _ => False) ->
  life_inv (mkSys (mkKernel (set_procs (<[p := P']> (procs σ)) σ) run) (<[i := pc']> (pcs s))).
Proof.
  intros E Hne Hid Hn Hl Hp Hr Ht. destruct Hinv as [Hb HP HT HR HTT HRR].
  assert (forall q, is_Some (procs σ !! q) -> is_Some (<[p := P']> (procs σ) !! q)) as Hs by (intros q ?; apply lookup_insert_is_Some'; by right).
  split; cbn [shared pcs k_st k_running]; pflat.
  - by apply (base_inv_procs _ p P).
  - intros q Q [[<- <-]|[Hq Eq]]%lookup_insert_Some Hsys; [done|]. destruct (Hr q ltac:(done)) as (H1&H2&H3).
    apply (proc_inv_frame (thrs σ) _ (pcs s)); [by apply HP|done|..]; rewrite sum_update; lia.
  - intros t T E'. destruct (Ht t ltac:(tauto)) as [H1 H2]. apply (thread_inv_frame (procs σ) _ _ run _ (pcs s)); [by apply HT| |done|..];
      [|rewrite sum_update; lia..].
    intros q _. unfold listed. destruct (decide (q = p)) as [->|]; [|by rewrite lookup_insert_ne].
    rewrite lookup_insert_eq, E. split; intros (Q&[= <-]&HQ); eexists; (split; [done|]); congruence.
  - intros x q [->|Hx]%pcs_update H0; [|destruct (HR x q Hx H0); auto].
    destruct (decide (q = p)) as [->|]; [split; [apply Hs; by eexists|done]|]. destruct (Hr q ltac:(congruence)) as [H1 _]. rewrite H1 in H0.
    destruct (HR pc q pc_in H0); auto.
  - intros x t [->|Hx]%pcs_update H0; [|by apply (HTT x)]. destruct (Ht t ltac:(tauto)) as [H1 H2]. apply (HTT pc); [apply pc_in|lia].
  - done.
Qed.
(** A reference to process [p] is dropped, and it is not the last one ... *)
Lemma drop_reference p P pc' : procs σ !! p = Some P -> p <> sysp -> 1 < p_RefCnt P ->
  refs p pc' = refs p pc - 1 -> inits p pc' <= inits p pc -> starts p pc' <= starts p pc -> refs_kept pc' (eq p) -> threads_kept pc' (fun _ => False) ->
  life_inv (mkSys (mkKernel (set_procs (<[p := set_p_RefCnt (p_RefCnt P - 1) P]> (procs σ)) σ) run) (<[i := pc']> (pcs s))).
Proof.
  intros E Hne H1 Hr Hn Hst Hk Ht. apply update_process with P; try done. pose proof (li_proc _ Hinv p P E Hne) as HP.
  apply (proc_inv_count _ (pcs s)); [done|rewrite sum_update; lia..|]. pose proof (pi_range _ _ _ _ HP). lia.
Qed.

(** ... or it is. *)
Lemma drop_last p P pc' m' : procs σ !! p = Some P -> p <> sysp -> p_RefCnt P = 1 ->
  refs p pc' = refs p pc - 1 -> 0 <= refs p pc' -> refs_kept pc' (eq p) -> threads_kept pc' (fun _ => False) -> pid_change σ m' (Id P) false ->
  life_inv (mkSys (mkKernel (set_procs (delete p (procs σ)) (set_ProcessList (unlinked P p (ProcessList σ)) (set_pid_mem m' σ))) run) (<[i := pc']> (pcs s))).
Proof.
  intros E Hne H1 Hr H0 Hk Ht Hm. pose proof (li_proc _ Hinv p P E Hne) as HP. pose proof (sumf_refs p _ _ pc_in) as [_ Hsum].
  pose proof (pi_count _ _ _ _ HP) as Hc. pose proof (num_nonneg (ThreadList P)) as Hnn. pose proof (has_threads_num P) as [Hhn _].
  assert (0 <= b2z (has_threads P)) as Hb0 by (destruct (has_threads P); cbn; lia).
  assert (ThreadList P = []) as El by (destruct (ThreadList P) eqn:El; [done|unfold num in *; cbn [length] in *; lia]).
  assert (sumf (refs p) (pcs s) = 1 /\ refs p pc = 1) as [Hs1 Hp1] by lia.
  destruct Hinv as [Hb HP' HT HR HTT HRR]. split; cbn [shared pcs k_st k_running]; pflat.
  - by apply base_inv_delete.
  - intros q Q [Hq Eq]%lookup_delete_Some Hsys. destruct (Hk q ltac:(done)) as (H2&H3&H4).
    apply (proc_inv_frame (thrs σ) _ (pcs s)); [by apply HP'|done|..]; rewrite sum_update; lia.
  - intros t T E'. destruct (Ht t ltac:(tauto)) as [H2 H3]. apply (thread_inv_frame (procs σ) _ _ run _ (pcs s)); [by apply HT| |done|..];
      [|rewrite sum_update; lia..].
    intros q _. unfold listed. destruct (decide (q = p)) as [->|]; [|by rewrite lookup_delete_ne].
    rewrite lookup_delete_eq, E. split; intros (Q&[= <-]&HQ). rewrite El in HQ. set_solver.
  - intros x q Hx H2. destruct (decide (q = p)) as [->|Hq].
    { exfalso. assert (refs p x <= sumf (refs p) (<[i := pc']> (pcs s))) by (by apply sumf_refs). rewrite sum_update in *. lia. }
    rewrite lookup_delete_ne by done. apply pcs_update in Hx as [->|Hx]; [|by apply (HR x)]. destruct (Hk q ltac:(congruence)) as [H3 _]. rewrite H3 in H2. by apply (HR pc q pc_in).
  - intros x t [->|Hx]%pcs_update H2; [|by apply (HTT x)]. destruct (Ht t ltac:(tauto)) as [H3 H4]. apply (HTT pc); [apply pc_in|lia].
  - done.
Qed.
Lemma refs_live p : 0 < refs p pc -> exists P, procs σ !! p = Some P /\ p <> sysp.
Proof. intros H. destruct (li_refs _ Hinv pc p pc_in H) as [[P E] Hne]. by exists P. Qed.

(** _ProcessDereference with a reference of this position never fails. *)
Lemma dereference_step p pc' : 0 < refs p pc ->
  refs p pc' = refs p pc - 1 -> inits p pc' <= inits p pc -> starts p pc' <= starts p pc -> refs_kept pc' (eq p) -> threads_kept pc' (fun _ => False) ->
  exists σ', _ProcessDereference p σ = Ok (tt, σ') /\ life_inv (mkSys (mkKernel σ' run) (<[i := pc']> (pcs s))) /\
    thrs σ' = thrs σ /\ SystemProcess σ' = SystemProcess σ.
Proof.
  intros Hpos Hr Hn Hst Hk Ht. destruct (refs_live p Hpos) as (P&E&Hne). pose proof (li_proc _ Hinv p P E Hne) as HP.
  pose proof (pi_range _ _ _ _ HP) as Hrg. destruct (decide (p_RefCnt P = 1)) as [H1|H1].
  - pose proof (li_base _ Hinv) as Hb. destruct (bi_used _ Hb p P E) as [Hid Hu]. destruct (bi_system _ Hb) as [S ES].
    pose proof (sumf_refs p _ _ pc_in) as [_ Hsum]. pose proof (pi_count _ _ _ _ HP) as Hc. pose proof (num_nonneg (ThreadList P)) as Hnn.
    assert (0 <= b2z (has_threads P)) as Hb0 by (destruct (has_threads P); cbn; lia).
    edestruct (final_dereference_run σ p P E H1) as (m'&Ed&Hm).
    + split; [| |by rewrite (bi_link _ Hb p P E)|right; split_and!; try done; [lia..|apply Hb]].
      * split; [done|]. exists S. split; [done|]. intros Heq. apply Hne. by apply (bi_inj _ Hb p sysp P S).
      * rewrite (pi_num _ _ _ _ HP). lia.
    + rewrite (proj2 (Z.eqb_neq (Id P) 0)) in Hm by lia. eexists. split; [exact Ed|]. split; [|done]. by apply drop_last; try done; lia.
  - eexists. split; [by apply dereference_run; [done|reflexivity|lia]|]. split; [|done]. by apply drop_reference; try done; lia.
Qed.

Lemma reference_step p P pc' : procs σ !! p = Some P -> p <> sysp -> p_RefCnt P + 1 < MAX_DWORD ->
  refs p pc' = refs p pc + 1 -> inits p pc' = inits p pc -> starts p pc' = starts p pc -> refs_kept pc' (eq p) -> threads_kept pc' (fun _ => False) ->
  life_inv (mkSys (mkKernel (set_procs (<[p := set_p_RefCnt (p_RefCnt P + 1) P]> (procs σ)) σ) run) (<[i := pc']> (pcs s))).
Proof.
  intros E Hne H1 Hr Hn Hst Hk Ht. apply update_process with P; try done. pose proof (li_proc _ Hinv p P E Hne) as HP.
  apply (proc_inv_count _ (pcs s)); [done|rewrite sum_update; lia..|]. pose proof (pi_range _ _ _ _ HP). lia.
Qed.

(** Only the position changes. *)
Lemma move_step pc' : refs_kept pc' (fun _ => False) -> threads_kept pc' (fun _ => False) ->
  life_inv (mkSys (shared s) (<[i := pc']> (pcs s))).
Proof.
  intros Hk Ht. destruct Hinv as [Hb HP HT HR HTT HRR]. split; cbn [shared pcs]; try done.
  - intros p P E Hne. destruct (Hk p ltac:(tauto)) as (H1&H2&H3). apply (proc_inv_frame (thrs σ) _ (pcs s)); [by apply HP|done|..]; rewrite sum_update; lia.
  - intros t T E. destruct (Ht t ltac:(tauto)) as [H1 H2]. apply (thread_inv_frame (procs σ) _ _ run _ (pcs s)); [by apply HT|done|done|..]; rewrite sum_update; lia.
  - intros x q [->|Hx]%pcs_update H0; [|by apply (HR x)]. destruct (Hk q ltac:(tauto)) as (H1&_). rewrite H1 in H0. by apply (HR pc q pc_in).
  - intros x t [->|Hx]%pcs_update H0; [|by apply (HTT x)]. destruct (Ht t ltac:(tauto)) as [H1 H2]. apply (HTT pc); [apply pc_in|lia].
Qed.
Lemma fresh_thread t : thrs σ !! t = None -> sumf (thread_handle t) (pcs s) = 0 /\ sumf (removing t) (pcs s) = 0 /\ (t ∉ run) /\
  thread_handle t pc = 0 /\ removing t pc = 0.
Proof.
  intros Hn. assert (forall x, x ∈ pcs s -> thread_handle t x = 0 /\ removing t x = 0) as Hx.
  { intros x Hin. pose proof (li_threads _ Hinv x t Hin) as H. rewrite Hn in H.
    assert (0 <= thread_handle t x /\ 0 <= removing t x) as [? ?] by (destruct x; cbn; unfold b2z; repeat case_match; lia).
    destruct (decide (0 < thread_handle t x + removing t x)) as [Hpos|]; [by destruct (H Hpos)|lia]. }
  split_and!; try (apply sumf_0; intros x Hin; by apply Hx); try (by apply Hx, pc_in).
  intros Hin. apply (li_running _ Hinv) in Hin. rewrite Hn in Hin. by destruct Hin.
Qed.

Lemma fresh_next : thrs σ !! next_block σ = None /\ procs σ !! next_block σ = None.
Proof.
  destruct (bi_fresh _ (li_base _ Hinv)) as (_&Hp&Ht). split.
  - destruct (thrs σ !! next_block σ) eqn:E; [|done]. specialize (Ht (next_block σ)). rewrite E in Ht. destruct Ht; [by eexists|lia].
  - destruct (procs σ !! next_block σ) eqn:E; [|done]. specialize (Hp (next_block σ)). rewrite E in Hp. destruct Hp; [by eexists|lia].
Qed.

Lemma insert_step p P name k hs pl : procs σ !! p = Some P -> p <> sysp -> p_RefCnt P + 1 < MAX_DWORD -> TerminationEvt P = false ->
  inits p pc + b2z (has_threads P) = 1 -> handles pc = hs -> (forall q, q <> p -> inits q pc = 0 /\ starts q pc = 0) ->
  threads_kept (PIdle []) (fun _ => False) ->
  let t := next_block σ in
  life_inv (mkSys (mkKernel (inserted (set_p_pool pl σ) p P name) ({[t]} ∪ run)) (<[i := PCloseThread t k hs]> (pcs s))).
Proof.
  intros E Hne Hm He Hw Hh Hq Hkeep t. set (pc' := PCloseThread t k hs). destruct fresh_next as [Hft _]. fold t in Hft.
  destruct (fresh_thread t Hft) as (Hs1&Hs2&Hnr&Hth&Hrm). pose proof (li_proc _ Hinv p P E Hne) as HP.
  assert (forall q, refs q pc' = refs q pc - inits q pc /\ inits q pc' = 0 /\ starts q pc' = 0) as Hrefs by (intros q; unfold refs; cbn; rewrite Hh; lia).
  assert (forall q, 0 <= starts q pc) as Hst by (intros q; destruct pc; cbn; unfold b2z; repeat case_match; lia).
  assert (forall u, thread_handle u pc = 0 /\ removing u pc = 0) as Hu by (intros u; destruct (Hkeep u ltac:(tauto)); cbn in *; lia).
  destruct (bi_fresh _ (li_base _ Hinv)) as (Hf1&_&Hf2). pose proof (pi_init _ _ _ _ HP) as Hpi. pose proof (sumf_refs p _ _ pc_in) as [Hsi _].
  assert (0 <= sumf (inits p) (pcs s)) as Hs0 by (apply sumf_nonneg'; intros; apply inits_nonneg).
  destruct Hinv as [Hb HPP HT HR HTT HRR]. unfold inserted. pflat. fold t. split; cbn [shared pcs k_st k_running procs thrs SystemProcess].
  - set (s1 := set_next_block (t + 1) (set_AllThreadsList (AllThreadsList σ ++ [t]) (set_p_pool pl σ))).
    refine (base_inv_procs (set_thrs (<[t := new_thread name p]> (thrs σ)) s1) p P (with_thread P t) _ E eq_refl eq_refl).
    apply base_inv_thrs; [apply base_inv_alloc; [done|lia]|]. intros u [<-|Hu']%lookup_insert_is_Some'; cbn; [lia|]. specialize (Hf2 u Hu'). lia.
  - intros q Q [[<- <-]|[Hqp Eq]]%lookup_insert_Some Hsys.
    + destruct (Hrefs p) as (H1&H2&H3). specialize (Hst p). apply (proc_inv_insert _ (pcs s)); try done; rewrite ?sum_update; lia.
    + destruct (Hrefs q) as (H1&H2&H3). destruct (Hq q ltac:(done)) as [H4 H5].
      apply (proc_inv_frame (thrs σ) _ (pcs s)); [by apply HPP| |rewrite sum_update; lia..].
      intros u Hin. destruct (pi_threads _ _ _ _ (HPP q Q Eq Hsys) u Hin) as (?&Eu&_). rewrite lookup_insert_ne by congruence. done.
  - intros u U [[<- <-]|[Htu EU]]%lookup_insert_Some.
    + split; [done|]. left. rewrite !sum_update, Hs1, Hs2, Hth, Hrm. cbn. rewrite Z.eqb_refl, bool_decide_eq_true_2 by set_solver. cbn.
      split_and!; try done; [|set_solver]. exists (with_thread P t). rewrite lookup_insert_eq. split; [done|]. cbn. set_solver.
    + destruct (Hu u) as [H1 H2]. apply (thread_inv_frame (procs σ) _ _ run _ (pcs s)); [by apply HT| |set_solver|..];
        [|rewrite sum_update; cbn; rewrite ?(proj2 (Z.eqb_neq u t)) by congruence; cbn; lia..].
      intros q _. unfold listed. destruct (decide (q = p)) as [->|]; [|by rewrite lookup_insert_ne]. rewrite lookup_insert_eq, E.
      split; intros (Q&[= <-]&HQ); eexists; (split; [done|]); cbn in *; set_solver.
  - intros x q Hx H0. assert (is_Some (procs σ !! q) /\ q <> sysp) as [? ?].
    { apply pcs_update in Hx as [->|Hx]; [|by apply (HR x)]. destruct (Hrefs q) as (H1&_). apply (HR pc q pc_in). pose proof (inits_nonneg q pc). lia. }
    split; [apply lookup_insert_is_Some'; by right|done].
  - intros x u [->|Hx]%pcs_update H0; apply lookup_insert_is_Some'; [|right; by apply (HTT x)]. cbn in H0. destruct (Z.eqb_spec u t); [by left|cbn in H0; lia].
  - intros u [->%elem_of_singleton|Hur]%elem_of_union; apply lookup_insert_is_Some'; [by left|right; by apply HRR].
Qed.
(** A thread is replaced by one its process cannot tell from it. *)
Lemma update_thread t T T' run' pc' : thrs σ !! t = Some T -> t_Process T' = t_Process T -> t_Dying T' = t_Dying T ->
  thread_inv (procs σ) sysp run' (<[i := pc']> (pcs s)) t T' -> (forall u, u <> t -> u ∈ run' <-> u ∈ run) ->
  refs_kept pc' (fun _ => False) -> threads_kept pc' (eq t) ->
  life_inv (mkSys (mkKernel (set_thrs (<[t := T']> (thrs σ)) σ) run') (<[i := pc']> (pcs s))).
Proof.
  intros E Hp Hd Hti Hrun Hk Ht. destruct (bi_fresh _ (li_base _ Hinv)) as (_&_&Hf). destruct Hinv as [Hb HPP HT HR HTT HRR].
  assert (forall u, is_Some (thrs σ !! u) -> is_Some (<[t := T']> (thrs σ) !! u)) as Hs by (intros u ?; apply lookup_insert_is_Some'; by right).
  split; cbn [shared pcs k_st k_running]; pflat.
  - apply base_inv_thrs; [done|]. intros u [<-|Hu]%lookup_insert_is_Some'; apply Hf; [by eexists|done].
  - intros q Q Eq Hsys. destruct (Hk q ltac:(tauto)) as (H1&H2&H3). apply (proc_inv_frame (thrs σ) _ (pcs s)); [by apply HPP| |rewrite sum_update; lia..].
    intros u _. destruct (decide (u = t)) as [->|]; [|by rewrite lookup_insert_ne]. rewrite lookup_insert_eq, E. cbn. congruence.
  - intros u U [[<- <-]|[Hu EU]]%lookup_insert_Some; [done|]. destruct (Ht u ltac:(done)) as [H1 H2].
    apply (thread_inv_frame (procs σ) _ _ run _ (pcs s)); [by apply HT|done|by apply Hrun|rewrite sum_update; lia..].
  - intros x q [->|Hx]%pcs_update H0; [|by apply (HR x)]. destruct (Hk q ltac:(tauto)) as (H1&_). rewrite H1 in H0. by apply (HR pc q pc_in).
  - intros x u [->|Hx]%pcs_update H0; [|apply Hs; by apply (HTT x)]. destruct (decide (u = t)) as [->|Hu]; [apply Hs; by eexists|].
    destruct (Ht u ltac:(done)) as [H1 H2]. apply Hs, (HTT pc); [apply pc_in|lia].
  - intros u Hu. destruct (decide (u = t)) as [->|Hut]; [apply Hs; by eexists|]. apply Hs, HRR, Hrun; done.
Qed.

(** A thread that is referenced is in the list of its process. *)
Lemma thread_listed t T : thrs σ !! t = Some T -> t ∈ run \/ 0 < thread_handle t pc ->
  exists P, procs σ !! t_Process T = Some P /\ t ∈ ThreadList P /\ t_Process T <> sysp /\ sumf (removing t) (pcs s) = 0 /\
    t_RefCnt T = b2z (bool_decide (t ∈ run)) + sumf (thread_handle t) (pcs s) /\ 0 < t_RefCnt T <= 2 /\ (t_Dying T = false -> t ∈ run).
Proof.
  intros E Hr. destruct (li_thread _ Hinv t T E) as (_&[((P&EP&Hin)&H)|(_&Hh&Hn&_)]); [exists P; tauto|].
  exfalso. destruct Hr as [Hr|Hr]; [done|]. pose proof (sumf_thread t _ _ pc_in). lia.
Qed.

Lemma drop_thread t T run' pc' : thrs σ !! t = Some T -> t ∈ run \/ 0 < thread_handle t pc -> 1 < t_RefCnt T ->
  b2z (bool_decide (t ∈ run')) + thread_handle t pc' = b2z (bool_decide (t ∈ run)) + thread_handle t pc - 1 ->
  (t_Dying T = false -> t ∈ run -> t ∈ run') -> (forall u, u <> t -> u ∈ run' <-> u ∈ run) -> removing t pc' = removing t pc ->
  refs_kept pc' (fun _ => False) -> threads_kept pc' (eq t) ->
  life_inv (mkSys (mkKernel (set_thrs (<[t := set_t_RefCnt (t_RefCnt T - 1) T]> (thrs σ)) σ) run') (<[i := pc']> (pcs s))).
Proof.
  intros E Hr H1 Hsum Hd Hrun Hrm Hk Ht. destruct (thread_listed t T E Hr) as (P&EP&Hin&Hne&H2&H3&H4&H5).
  apply update_thread with T; try done. split; [apply (li_thread _ Hinv t T E)|]. left. rewrite !sum_update. cbn [t_Process t_RefCnt t_Dying set_t_RefCnt].
  split_and!; try done; try lia; [by exists P|]. intros Hdy. apply Hd; auto.
Qed.
(** The last reference to a thread is dropped. *)
Lemma last_thread t T P run' k hs : thrs σ !! t = Some T -> t ∈ run \/ 0 < thread_handle t pc -> procs σ !! t_Process T = Some P ->
  t_RefCnt T = 1 -> t_Dying T = true -> run' = run ∖ {[t]} -> (forall q, inits q pc = 0 /\ starts q pc = 0) -> handles pc = hs -> removing t pc = 0 ->
  (t ∈ run -> thread_handle t pc = 0) -> (forall u, u <> t -> thread_handle u pc = 0 /\ removing u pc = 0) ->
  let pc' := PRemoved (t_Process T) t (NumberOfThreads P - 1 =? 0) k hs in
  life_inv (mkSys (mkKernel (set_procs (<[t_Process T := without_thread P t]> (procs σ))
    (set_thrs (<[t := set_t_UserStack false (set_t_RefCnt 0 T)]> (thrs σ)) (set_AllThreadsList (list_difference (AllThreadsList σ) [t]) σ))) run')
    (<[i := pc']> (pcs s))).
Proof.
  intros E Hr EP H1 Hd -> Hini Hh Hrm0 Hth0 Hoth pc'. set (p := t_Process T) in *. destruct (thread_listed t T E Hr) as (P'&EP'&Hin&Hne&H2&H3&H4&H5).
  fold p in EP', Hne. rewrite EP in EP'. injection EP' as <-. pose proof (li_proc _ Hinv p P EP Hne) as HP.
  assert (forall q, inits q pc' = b2z ((q =? p) && (NumberOfThreads P - 1 =? 0)) /\ starts q pc' = 0) as Hi'
    by (intros q; cbn; destruct (_ - 1 =? 0); cbn; rewrite ?andb_true_r, ?andb_false_r; done).
  assert (forall q, refs q pc' = refs q pc + inits q pc') as Hr' by (intros q; unfold refs; cbn [handles pc']; rewrite Hh; destruct (Hini q); lia).
  assert (sumf (thread_handle t) (pcs s) = thread_handle t pc) as Hths.
  { pose proof (sumf_thread t _ _ pc_in) as [? _]. assert (0 <= thread_handle t pc) by (destruct pc; cbn; unfold b2z; repeat case_match; lia).
    destruct (decide (t ∈ run)) as [Hx|Hx]; [rewrite bool_decide_eq_true_2 in H3 by done; specialize (Hth0 Hx); cbn in H3; lia|].
    destruct Hr as [|Hr]; [done|]. rewrite bool_decide_eq_false_2 in H3 by done. cbn in H3. lia. }
  destruct (bi_fresh _ (li_base _ Hinv)) as (_&_&Hf). destruct Hinv as [Hb HPP HT HR HTT HRR].
  split; cbn [shared pcs k_st k_running]; pflat.
  - refine (base_inv_procs (set_thrs _ (set_AllThreadsList _ σ)) p P (without_thread P t) _ EP eq_refl eq_refl).
    apply base_inv_thrs; [by destruct Hb; split|]. intros u [<-|Hu]%lookup_insert_is_Some'; apply Hf; [by eexists|done].
  - intros q Q [[<- <-]|[Hq Eq]]%lookup_insert_Some Hsys.
    + destruct (Hi' p) as [Hip Hsp], (Hini p) as [Hi0 Hs0]. rewrite Z.eqb_refl in Hip. cbn [andb] in Hip.
      assert (inits p pc' = b2z (num (ThreadList P) =? 1)) as Hip' by (rewrite Hip, (pi_num _ _ _ _ HP); f_equal; lia).
      apply (proc_inv_remove (thrs σ) _ (pcs s)); [done|done|unfold live_thread; by rewrite E, Hd| |rewrite sum_update; specialize (Hr' p); lia..].
      intros u. destruct (decide (u = t)) as [->|]; [|by rewrite lookup_insert_ne]. by rewrite lookup_insert_eq, E.
    + destruct (Hi' q) as [Hip Hsp], (Hini q) as [Hi0 Hs0]. rewrite (proj2 (Z.eqb_neq q p)) in Hip by done. cbn [andb b2z] in Hip. specialize (Hr' q).
      apply (proc_inv_frame (thrs σ) _ (pcs s)); [by apply HPP| |rewrite sum_update; lia..].
      intros u _. destruct (decide (u = t)) as [->|]; [|by rewrite lookup_insert_ne]. by rewrite lookup_insert_eq, E.
  - intros u U [[<- <-]|[Hu EU]]%lookup_insert_Some.
    + split; [apply (HT t T E)|right]. rewrite !sum_update, Hths, H2, Hrm0. cbn. rewrite Z.eqb_refl. cbn. split_and!; [lia|lia|apply not_in_difference|].
      intros q Hq (Q&[[<- <-]|[Hqp Eq]]%lookup_insert_Some&HQ); [by apply not_in_list_difference in HQ|].
      destruct (pi_threads _ _ _ _ (HPP q Q Eq Hq) t HQ) as (T'&ET&HT'). rewrite E in ET. injection ET as <-. done.
    + destruct (Hoth u ltac:(done)) as [H6 H7]. apply (thread_inv_frame (procs σ) _ _ run _ (pcs s)); [by apply HT| |by apply in_difference|..];
        [|rewrite sum_update; cbn; rewrite ?(proj2 (Z.eqb_neq u t)) by congruence; cbn; lia..].
      intros q _. unfold listed. destruct (decide (q = p)) as [->|]; [|by rewrite lookup_insert_ne]. rewrite lookup_insert_eq, EP.
      split; intros (Q&[= <-]&HQ); eexists; (split; [done|]); [by apply list_elem_of_difference in HQ as [HQ _]|].
      apply list_elem_of_difference. split; [done|]. by rewrite list_elem_of_singleton.
  - intros x q Hx H0. assert (is_Some (procs σ !! q) /\ q <> sysp) as [? ?].
    { apply pcs_update in Hx as [->|Hx]; [|by apply (HR x)]. destruct (decide (q = p)) as [->|Hqp]; [split; [by eexists|done]|].
      destruct (Hi' q) as [Hip _]. rewrite (proj2 (Z.eqb_neq q p)) in Hip by done. cbn [andb b2z] in Hip. apply (HR pc q pc_in). specialize (Hr' q). lia. }
    split; [apply lookup_insert_is_Some'; by right|done].
  - intros x u [->|Hx]%pcs_update H0; apply lookup_insert_is_Some'; [|right; by apply (HTT x)]. cbn in H0. destruct (Z.eqb_spec u t); [by left|cbn in H0; lia].
  - intros u Hu. apply lookup_insert_is_Some'. right. apply HRR. by apply elem_of_difference in Hu as [Hu _].
Qed.
(** The block of a thread that left its process is freed. *)
Lemma delete_thread t T pc' : thrs σ !! t = Some T -> 0 < removing t pc -> removing t pc' = 0 -> thread_handle t pc' = 0 ->
  refs_kept pc' (fun _ => False) -> threads_kept pc' (eq t) ->
  life_inv (mkSys (mkKernel (set_thrs (delete t (thrs σ)) σ) run) (<[i := pc']> (pcs s))).
Proof.
  intros E Hr Hr' Hh' Hk Ht. pose proof (sumf_thread t _ _ pc_in) as [_ Hsum].
  destruct (li_thread _ Hinv t T E) as (_&[(_&_&H0&_)|(H1&H2&H3&H4)]); [lia|].
  destruct (bi_fresh _ (li_base _ Hinv)) as (_&_&Hf). destruct Hinv as [Hb HPP HT HR HTT HRR].
  split; cbn [shared pcs k_st k_running]; pflat.
  - apply base_inv_thrs; [done|]. intros u [U [_ EU]%lookup_delete_Some]. apply Hf. by eexists.
  - intros q Q Eq Hsys. destruct (Hk q ltac:(tauto)) as (H5&H6&H7). apply (proc_inv_frame (thrs σ) _ (pcs s)); [by apply HPP| |rewrite sum_update; lia..].
    intros u Hu. rewrite lookup_delete_ne; [done|]. intros <-. apply (H4 q Hsys). by exists Q.
  - intros u U [Hu EU]%lookup_delete_Some. destruct (Ht u ltac:(done)) as [H5 H6].
    apply (thread_inv_frame (procs σ) _ _ run _ (pcs s)); [by apply HT|done|done|rewrite sum_update; lia..].
  - intros x q [->|Hx]%pcs_update H0; [|by apply (HR x)]. destruct (Hk q ltac:(tauto)) as (H5&_). rewrite H5 in H0. by apply (HR pc q pc_in).
  - intros x u Hx H0. destruct (decide (u = t)) as [->|Hut].
    { exfalso. pose proof (sumf_thread t _ _ Hx). assert (thread_handle t pc = 0) by (destruct pc; cbn in *; lia || done).
      rewrite !sum_update in *. lia. }
    rewrite lookup_delete_ne by done. apply pcs_update in Hx as [->|Hx]; [|by apply (HTT x)]. destruct (Ht u ltac:(done)) as [H5 H6]. apply (HTT pc); [apply pc_in|lia].
  - intros u Hu. rewrite lookup_delete_ne; [by apply HRR|]. by intros <-.
Qed.

Lemma same_pcs : <[i := pc]> (pcs s) = pcs s.
Proof. by apply list_insert_id. Qed.

Lemma exit_step t T st : thrs σ !! t = Some T -> t ∈ run -> t_Dying T = false ->
  exists σ', thread_exit t st σ = Ok (tt, σ') /\ life_inv (mkSys (mkKernel σ' run) (<[i := pc]> (pcs s))) /\ SystemProcess σ' = SystemProcess σ.
Proof.
  intros E Hr Hd. destruct (thread_listed t T E (or_introl Hr)) as (P&EP&Hin&Hne&H2&H3&H4&H5). pose proof (li_proc _ Hinv _ P EP Hne) as HP.
  set (T' := set_t_ExitStatus st (set_t_Dying true T)).
  destruct (proc_inv_exit _ _ _ P t T T' st HP Hin E Hd eq_refl eq_refl) as [HP' Ha].
  destruct (bi_fresh _ (li_base _ Hinv)) as (_&Hfp&Hf). assert (t_Process T <> NULL) as Hnull by (specialize (Hfp (t_Process T)); rewrite EP in Hfp; destruct Hfp; [by eexists|unfold NULL; lia]).
  pose proof (pi_range _ _ _ _ HP) as Hrg. pose proof (pi_count _ _ _ _ HP) as Hc. pose proof (pi_active _ _ _ _ HP) as Hac.
  pose proof (countp_range (live_thread (thrs σ)) (ThreadList P)) as Hcr.
  assert (0 <= sumf (refs (t_Process T)) (pcs s)) as Hr0 by (apply sumf_nonneg'; intros x; pose proof (refs_nonneg (t_Process T) x); pose proof (inits_nonneg (t_Process T) x); lia).
  assert (0 <= b2z (has_threads P)) by (destruct (has_threads P); cbn; lia). unfold num in *.
  destruct (exit_run σ t T P st E Hnull EP ltac:(lia)) as (P'&Er&EP'). eexists. split; [exact Er|]. split; [|done]. rewrite same_pcs.
  assert (proc_inv (<[t := T']> (thrs σ)) (pcs s) (t_Process T) P') as HP2 by (rewrite EP'; exact HP'). clear HP'.
  destruct Hinv as [Hb HPP HT HR HTT HRR]. split; cbn [shared pcs k_st k_running]; pflat.
  - refine (base_inv_procs (set_thrs _ σ) _ P P' _ EP _ _); [|by rewrite EP'; destruct (_ =? 1)..].
    apply base_inv_thrs; [done|]. intros u [<-|Hu]%lookup_insert_is_Some'; apply Hf; [by eexists|done].
  - intros q Q [[<- <-]|[Hq Eq]]%lookup_insert_Some Hsys; [done|].
    apply (proc_inv_frame (thrs σ) _ (pcs s)); [by apply HPP| |done..]. intros u Hu. rewrite lookup_insert_ne; [done|]. intros <-.
    destruct (pi_threads _ _ _ _ (HPP q Q Eq Hsys) t Hu) as (T1&E1&H1). rewrite E in E1. injection E1 as <-. done.
  - assert (forall u q, listed (<[t_Process T := P']> (procs σ)) q u <-> listed (procs σ) q u) as Hlst.
    { intros u q. unfold listed. destruct (decide (q = t_Process T)) as [->|]; [|by rewrite lookup_insert_ne]. rewrite lookup_insert_eq, EP.
      assert (ThreadList P' = ThreadList P) as El by (rewrite EP'; by destruct (_ =? 1)). split; intros (Q&[= <-]&HQ); eexists; (split; [done|]); congruence. }
    intros u U [[<- <-]|[Hu EU]]%lookup_insert_Some; [|apply (thread_inv_frame (procs σ) _ _ run _ (pcs s)); [by apply HT|intros; apply Hlst|done..]].
    apply (thread_inv_frame (procs σ) _ _ run _ (pcs s)); [|intros; apply Hlst|done..]. split; [apply (HT t T E)|left]. split_and!; cbn; try done; try lia. by exists P.
  - intros x q Hx H0. destruct (HR x q Hx H0). split; [apply lookup_insert_is_Some'; by right|done].
  - intros x u Hx H0. apply lookup_insert_is_Some'. right. by apply (HTT x).
  - intros u Hu. apply lookup_insert_is_Some'. right. by apply HRR.
Qed.
Lemma flags_step ths : same_but_flags (thrs σ) ths -> life_inv (mkSys (mkKernel (set_thrs ths σ) run) (<[i := pc]> (pcs s))).
Proof.
  intros Hs. rewrite same_pcs. destruct (bi_fresh _ (li_base _ Hinv)) as (_&_&Hf). destruct Hinv as [Hb HPP HT HR HTT HRR].
  assert (forall u, is_Some (ths !! u) <-> is_Some (thrs σ !! u)) as Hsome.
  { intros u. specialize (Hs u). rewrite !is_Some_alt. destruct (ths !! u), (thrs σ !! u); done. }
  split; cbn [shared pcs k_st k_running]; pflat.
  - apply base_inv_thrs; [done|]. intros u Hu. by apply Hf, Hsome.
  - intros q Q Eq Hsys. apply (proc_inv_frame (thrs σ) _ (pcs s)); [by apply HPP| |done..]. intros u _. specialize (Hs u).
    destruct (ths !! u) as [U'|], (thrs σ !! u) as [U|]; try done. injection Hs as Hs. cbn. destruct U, U'. cbn in *. congruence.
  - intros u U' EU'. specialize (Hs u). rewrite EU' in Hs. destruct (thrs σ !! u) as [U|] eqn:EU; [|done]. injection Hs as Hs.
    specialize (HT u U EU). destruct U, U'. cbn in *. simplify_eq. exact HT.
  - done.
  - intros x u Hx H0. by apply Hsome, (HTT x).
  - intros u Hu. by apply Hsome, HRR.
Qed.

Lemma unknown_process p x : procs σ !! p = None -> x ∈ pcs s -> refs p x = 0.
Proof.
  intros Hp Hx. pose proof (refs_nonneg p x). pose proof (inits_nonneg p x). destruct (decide (0 < refs p x)) as [Hpos|]; [|lia].
  destruct (li_refs _ Hinv x p Hx Hpos) as [[P E] _]. congruence.
Qed.

(** ProcessCreate made a process; the position holds its only reference. *)
Lemma create_step m' pl P id (started : bool) hs : newborn P id -> 1 <= id < 4096 -> pid_used σ id = false -> pid_change σ m' id true -> pc = PIdle hs ->
  let p := next_block σ in
  life_inv (mkSys (mkKernel (set_ProcessList (ProcessList σ ++ [p]) (set_pid_mem m' (with_process σ pl p P))) run)
    (<[i := if started then PStart p hs else PFailed p hs]> (pcs s))).
Proof.
  intros Hnb Hid Hu Hm Hpc p. set (pc' := if started then PStart p hs else PFailed p hs). destruct fresh_next as [_ Hfp]. fold p in Hfp.
  assert (forall q, inits q pc = 0 /\ starts q pc = 0 /\ refs q pc = countp (Z.eqb q) hs) as Hold by (intros q; rewrite Hpc; unfold refs; cbn; lia).
  assert (forall q, inits q pc' = b2z (q =? p) /\ starts q pc' <= b2z (q =? p) /\ 0 <= starts q pc' /\ refs q pc' = countp (Z.eqb q) hs + b2z (q =? p)) as Hnew
    by (intros q; unfold refs; destruct started; cbn; unfold b2z; repeat case_match; lia).
  assert (threads_kept pc' (fun _ => False)) as Ht by (intros t _; rewrite Hpc; by destruct started).
  pose proof (unknown_process p pc Hfp pc_in) as Hp0. assert (sumf (refs p) (pcs s) = 0) as Hsr by (apply sumf_0; intros; by apply unknown_process).
  assert (sumf (inits p) (pcs s) = 0) as Hsi by (apply sumf_0; intros x Hx; pose proof (unknown_process p x Hfp Hx); pose proof (refs_nonneg p x); pose proof (inits_nonneg p x); lia).
  pose proof Hnb as [N1 N2 N3 N4 (N5&N6&N7) N8]. destruct (bi_system _ (li_base _ Hinv)) as [S ES]. assert (p <> sysp) as Hps by congruence.
  destruct Hinv as [Hb HPP HT HR HTT HRR]. unfold with_process. split; cbn [shared pcs k_st k_running]; pflat.
  - by apply (base_inv_create _ m' pl P id).
  - intros q Q [[<- <-]|[Hq Eq]]%lookup_insert_Some Hsys.
    + destruct (Hold p) as (A1&A2&A3), (Hnew p) as (B1&B2&B3&B4). rewrite Z.eqb_refl in *. cbn [b2z] in *.
      apply proc_inv_newborn with id; [done|rewrite sum_update; lia..].
    + destruct (Hold q) as (A1&A2&A3), (Hnew q) as (B1&B2&B3&B4). rewrite (proj2 (Z.eqb_neq q p)) in * by done. cbn [b2z] in *.
      apply (proc_inv_frame (thrs σ) _ (pcs s)); [by apply HPP|done|rewrite sum_update; lia..].
  - intros u U EU. destruct (Ht u ltac:(tauto)) as [A1 A2]. apply (thread_inv_frame (procs σ) _ _ run _ (pcs s)); [by apply HT| |done|rewrite sum_update; lia..].
    intros q _. unfold listed. destruct (decide (q = p)) as [->|]; [|by rewrite lookup_insert_ne]. rewrite lookup_insert_eq, Hfp.
    split; intros (Q&[= <-]&HQ). rewrite N4 in HQ. set_solver.
  - intros x q [->|Hx]%pcs_update H0; [|destruct (HR x q Hx H0); split; [apply lookup_insert_is_Some'; by right|done]].
    destruct (decide (q = p)) as [->|Hq]; [split; [apply lookup_insert_is_Some'; by left|done]|].
    destruct (Hold q) as (A1&A2&A3), (Hnew q) as (B1&B2&B3&B4). rewrite (proj2 (Z.eqb_neq q p)) in * by done. cbn [b2z] in *.
    destruct (HR pc q pc_in ltac:(lia)). split; [apply lookup_insert_is_Some'; by right|done].
  - intros x u [->|Hx]%pcs_update H0; [|by apply (HTT x)]. destruct (Ht u ltac:(tauto)). apply (HTT pc); [apply pc_in|lia].
  - done.
Qed.

(** The position changes to one with the same references. *)
Lemma fail_step pl pc' : (forall q, refs q pc' = refs q pc /\ inits q pc' = inits q pc /\ starts q pc' <= starts q pc) ->
  (forall t, thread_handle t pc' = thread_handle t pc /\ removing t pc' = removing t pc) ->
  life_inv (mkSys (mkKernel (set_p_pool pl σ) run) (<[i := pc']> (pcs s))).
Proof.
  intros Hk Ht. destruct Hinv as [Hb HP HT HR HTT HRR]. split; cbn [shared pcs k_st k_running]; pflat; try done.
  - by destruct Hb; split.
  - intros p P E Hne. destruct (Hk p) as (H1&H2&H3). destruct (HP p P E Hne) as [I1 I2 I3 I4 I5 I6 I7 I8 I9].
    split; rewrite ?sum_update; try done; try lia. intros Hs. apply I6. lia.
  - intros t T E. destruct (Ht t) as [H1 H2]. apply (thread_inv_frame (procs σ) _ _ run _ (pcs s)); [by apply HT|done|done|..]; rewrite sum_update; lia.
  - intros x q [->|Hx]%pcs_update H0; [|by apply (HR x)]. destruct (Hk q) as (H1&_). rewrite H1 in H0. by apply (HR pc q pc_in).
  - intros x t [->|Hx]%pcs_update H0; [|by apply (HTT x)]. destruct (Ht t) as [H1 H2]. apply (HTT pc); [apply pc_in|lia].
Qed.

(** Only the allocator changed. *)
Lemma alloc_step nb pl : next_block σ <= nb -> life_inv (mkSys (mkKernel (set_next_block nb (set_p_pool pl σ)) run) (pcs s)).
Proof.
  intros Hn. destruct Hinv as [Hb HPP HT HR HTT HRR]. split; try done. cbn [shared k_st].
  replace (set_p_pool pl σ) with (set_AllThreadsList (AllThreadsList σ) (set_p_pool pl σ)) by (by destruct σ). by apply base_inv_alloc.
Qed.
End Steps.

(** * Every interleaving *)
(** The process ProcessCreate is about to return. *)
Definition target (pc : ppc) : option Z :=
  match pc with PCloseThread _ k _ | PRemoved _ _ _ k _ => k | PStarted p _ => Some p | _ => None end.

Record full_inv (s : @sys kernel ppc) : Prop := {
  fi_life : life_inv s;
  fi_target : forall pc p, pc ∈ pcs s -> target pc = Some p -> p <> SystemProcess (k_st (shared s)) }.

(** The identifiers are used up, or a reference count is at its limit. *)
Definition exhausted (s : pst) : Prop :=
  (forall i, 0 <= i < PCID_TOTAL_NO_OF_VALUES -> pid_used s i = true) \/
  exists p P, procs s !! p = Some P /\ p_RefCnt P + 1 = MAX_DWORD.

(** What a step of the code at [pc] may do. *)
Definition step_ok (s : @sys kernel ppc) (i : nat) (pc : ppc) (r : outcome (ppc * kernel)) : Prop :=
  match r with
  | Ok (pc', k') => full_inv (mkSys k' (<[i := pc']> (pcs s)))
  | Err AssertFailed => exhausted (k_st (shared s))
  | Err MemFault => exists p hs, pc = PStarted p hs /\ procs (k_st (shared s)) !! p = None
  | Err _ => False
  end.

Lemma full_inv_step s i pc pc' k' : full_inv s -> pcs s !! i = Some pc -> life_inv (mkSys k' (<[i := pc']> (pcs s))) ->
  SystemProcess (k_st k') = SystemProcess (k_st (shared s)) ->
  (forall p, target pc' = Some p -> target pc = Some p \/ 0 < refs p pc) -> full_inv (mkSys k' (<[i := pc']> (pcs s))).
Proof.
  intros [Hl Ht] Hi Hl' Es Hp. split; [done|]. cbn [shared pcs]. rewrite Es. intros x p Hx Htx.
  apply (pcs_update s i pc') in Hx as [->|Hx]; [|by apply (Ht x)]. destruct (Hp p Htx) as [Hp'|Hp']; [apply (Ht pc); [by eapply list_elem_of_lookup_2|done]|].
  by apply (li_refs _ Hl pc p (list_elem_of_lookup_2 _ _ _ Hi)).
Qed.

Section Exec.
Context (s : @sys kernel ppc) (i : nat) (pc : ppc) (Hf : full_inv s) (Hi : pcs s !! i = Some pc).
Abbreviation σ := (k_st (shared s)).
Abbreviation run := (k_running (shared s)).
Let Hl : life_inv s := fi_life _ Hf.

Lemma on_st_ok {A} (m : M pst A) k f a σ' : m (k_st k) = Ok (a, σ') -> on_st m k f = Ok (f a (mkKernel σ' (k_running k))).
Proof. intros E. unfold on_st. by rewrite E. Qed.

Lemma idle_ok : step_ok s i pc (Ok (pc, shared s)).
Proof. cbn. rewrite (list_insert_id _ _ _ Hi). by destruct s. Qed.

Lemma failed_ok p hs : pc = PFailed p hs -> step_ok s i pc (pexec 0 (CThread true) pc (shared s)).
Proof.
  intros ->. cbn [pexec]. destruct (dereference_step s i (PFailed p hs) Hl Hi p (PIdle hs)) as (σ'&E&H&_&Es).
  - unfold refs. cbn. rewrite Z.eqb_refl. pose proof (countp_nonneg (Z.eqb p) hs). cbn. lia.
  - unfold refs. cbn. rewrite Z.eqb_refl. cbn. lia.
  - cbn. unfold b2z. case_match; lia.
  - done.
  - intros q Hq. unfold refs. cbn. rewrite (proj2 (Z.eqb_neq q p)) by congruence. cbn. lia.
  - done.
  - rewrite (on_st_ok _ _ _ _ _ E). by eapply full_inv_step.
Qed.

Lemma started_ok p hs : pc = PStarted p hs -> step_ok s i pc (pexec 0 (CThread true) pc (shared s)).
Proof.
  intros Hpc. rewrite Hpc. cbn [pexec]. destruct (procs σ !! p) as [P|] eqn:E.
  - assert (p <> SystemProcess σ) as Hne by (apply (fi_target _ Hf pc); [by eapply list_elem_of_lookup_2|by rewrite Hpc]).
    pose proof (li_proc _ Hl p P E Hne) as HP. pose proof (pi_range _ _ _ _ HP) as Hr. destruct (decide (p_RefCnt P + 1 = MAX_DWORD)) as [Hm|Hm].
    + assert (on_st (_ProcessReference p) (shared s) (fun _ k => (PIdle (p :: hs), k)) = Err AssertFailed) as ->; [|right; by exists p, P].
      unfold on_st, _ProcessReference. rewrite (bind_run _ _ _ _ _ (proc_run _ _ _ E)), Hm.
      rewrite (bind_run _ _ _ _ _ (upd_proc_run _ _ _ _ E)). done.
    + erewrite on_st_ok by (eapply reference_run; [exact E|reflexivity|lia|lia]). subst pc. eapply full_inv_step; [done|exact Hi| |done|cbn; intros q [=]].
      apply reference_step with (PStarted p hs); try done; [lia|unfold refs; cbn; rewrite Z.eqb_refl; cbn; lia|].
      intros q Hq. unfold refs. cbn. rewrite (proj2 (Z.eqb_neq q p)) by congruence. cbn. lia.
  - assert (on_st (_ProcessReference p) (shared s) (fun _ k => (PIdle (p :: hs), k)) = Err MemFault) as ->; [|by exists p, hs].
    unfold on_st, _ProcessReference, proc, getS, mbind, M_bind, lift. by rewrite E.
Qed.
Lemma init_pool pl : life_inv (mkSys (mkKernel (set_p_pool pl σ) run) (pcs s)).
Proof. pose proof (alloc_step s Hl (next_block σ) pl ltac:(lia)) as H. replace (set_p_pool pl σ) with (set_next_block (next_block σ) (set_p_pool pl σ)) by (by destruct σ). exact H. Qed.

Lemma proc_counts p P : procs σ !! p = Some P -> p <> SystemProcess σ ->
  0 <= ActiveThreads P <= NumberOfThreads P /\ NumberOfThreads P = num (ThreadList P) /\ 0 < p_RefCnt P < MAX_DWORD /\
  num (ThreadList P) + b2z (has_threads P) <= p_RefCnt P.
Proof.
  intros E Hne. pose proof (li_proc _ Hl p P E Hne) as HP. pose proof (pi_range _ _ _ _ HP). pose proof (pi_num _ _ _ _ HP) as Hn.
  pose proof (countp_range (live_thread (thrs σ)) (ThreadList P)). rewrite <- (pi_active _ _ _ _ HP) in *. pose proof (pi_count _ _ _ _ HP).
  assert (0 <= sumf (refs p) (pcs s)) by (apply sumf_nonneg'; intros x; pose proof (refs_nonneg p x); pose proof (inits_nonneg p x); lia).
  unfold num in *. lia.
Qed.

(** ThreadCreateEx for the main thread (pc = PStart p) or for another thread of a process that has one that runs. *)
Lemma create_thread_ok p P ok initial k fail_ hs : procs σ !! p = Some P -> p <> SystemProcess σ -> TerminationEvt P = false ->
  inits p pc + b2z (has_threads P) = 1 -> NumberOfThreads P < p_RefCnt P -> (initial = true -> NumberOfThreads P = 0) ->
  handles pc = hs -> (forall q, q <> p -> inits q pc = 0 /\ starts q pc = 0) -> (forall t, thread_handle t pc = 0 /\ removing t pc = 0) ->
  (forall q, refs q fail_ = refs q pc /\ inits q fail_ = inits q pc /\ starts q fail_ <= starts q pc) -> target fail_ = None ->
  (forall t, thread_handle t fail_ = 0 /\ removing t fail_ = 0) ->
  (forall q, k = Some q -> 0 < refs q pc) ->
  step_ok s i pc (create_thread p ok initial k fail_ hs (shared s)).
Proof.
  intros E Hne He Hw Hb Hini Hh Hq Ht Hfail Htf Htf' Hk. destruct (proc_counts p P E Hne) as (Ha&Hn&Hr&Hc). unfold create_thread.
  assert (forall pl, (_ ← modify (set_p_pool pl); ThreadCreateEx env_ok [84] p initial) σ = ThreadCreateEx env_ok [84] p initial (set_p_pool pl σ)) as Em by done.
  destruct ok.
  - destruct (decide (p_RefCnt P + 1 = MAX_DWORD)) as [Hm|Hm].
    + unfold on_st. rewrite Em, (create_thread_max (set_p_pool [] σ) p P) by done. cbn. right. by exists p, P.
    + erewrite on_st_ok by (rewrite Em; apply (create_thread_run (set_p_pool [] σ) p P); try done; lia). cbn [step_ok].
      eapply full_inv_step; [done|exact Hi| |done|cbn; intros q ->; right; by apply Hk]. apply (insert_step s i pc Hl Hi p P [84] k hs []); try done; [lia|].
      intros t _. destruct (Ht t). cbn. lia.
  - destruct (create_thread_fail (set_p_pool [false] σ) p [84] initial eq_refl) as (st&Ef). erewrite on_st_ok by (rewrite Em; exact Ef). cbn [step_ok].
    eapply full_inv_step; [done|exact Hi| |done|intros q Hq'; congruence].
    apply (fail_step s i pc Hl Hi); try done. intros t. destruct (Ht t), (Htf' t). lia.
Qed.
Lemma pc_in' : pc ∈ pcs s.
Proof. by eapply list_elem_of_lookup_2. Qed.

Lemma start_ok p hs cpu choice : pc = PStart p hs -> step_ok s i pc (pexec cpu choice pc (shared s)).
Proof.
  intros Hpc. assert (inits p pc = 1 /\ starts p pc = 1) as [Hi1 Hs1] by (rewrite Hpc; cbn; by rewrite Z.eqb_refl).
  pose proof (refs_nonneg p pc) as [Hrp _]. destruct (refs_live s i pc Hl Hi p ltac:(lia)) as (P&E&Hne). pose proof (li_proc _ Hl p P E Hne) as HP.
  destruct (proc_counts p P E Hne) as (Ha&Hn&Hr&Hc). pose proof (sumf_refs p _ _ pc_in') as [Hsi Hsr]. pose proof (pi_init _ _ _ _ HP) as Hpi.
  assert (has_threads P = false) as Eh by (destruct (has_threads P); [cbn in Hpi; lia|done]). apply has_threads_num in Eh as El.
  assert (starts p pc <= sumf (starts p) (pcs s)) as Hss.
  { apply (sumf_ge _ _ i); [|done]. apply Forall_forall. intros x _. destruct x; cbn; unfold b2z; repeat case_match; lia. }
  rewrite Hpc at 2. cbn [pexec].
  apply (create_thread_ok p P); try done.
  - apply (pi_start _ _ _ _ HP). lia.
  - rewrite Eh. cbn. lia.
  - rewrite Hn, El. change (num []) with 0. lia.
  - intros _. by rewrite Hn, El.
  - by rewrite Hpc.
  - intros q Hq. rewrite Hpc. cbn. by rewrite (proj2 (Z.eqb_neq q p)).
  - intros t. by rewrite Hpc.
  - intros q. rewrite Hpc. unfold refs. cbn. unfold b2z. repeat case_match; lia.
  - intros q [= <-]. lia.
Qed.

Lemma spawn_ok hs t T ok : pc = PIdle hs -> thrs σ !! t = Some T -> t ∈ run -> t_Dying T = false ->
  step_ok s i pc (create_thread (t_Process T) ok false None (PIdle hs) hs (shared s)).
Proof.
  intros Hpc E Hr Hd. destruct (thread_listed s i pc Hl Hi t T E (or_introl Hr)) as (P&EP&Hin&Hne&_). pose proof (li_proc _ Hl _ P EP Hne) as HP.
  destruct (proc_counts _ P EP Hne) as (Ha&Hn&Hrg&Hc). assert (ThreadList P <> []) as El by (intros El; rewrite El in Hin; by apply not_elem_of_nil in Hin).
  assert (has_threads P = true) as Eh by (destruct (has_threads P) eqn:Eh; [done|by apply has_threads_num in Eh]). rewrite Eh in Hc. cbn in Hc.
  destruct (proc_inv_exit _ _ _ P t T (set_t_Dying true T) 0 HP Hin E Hd eq_refl eq_refl) as [_ Hact].
  apply (create_thread_ok _ P); try done.
  - rewrite (pi_event _ _ _ _ HP El). apply bool_decide_eq_false_2. lia.
  - rewrite Hpc, Eh. done.
  - lia.
  - by rewrite Hpc.
  - intros q _. by rewrite Hpc.
  - intros u. by rewrite Hpc.
  - intros q. rewrite Hpc. done.
Qed.

(** _ThreadDereference, by the holder of the handle or by the scheduler. *)
Lemma thread_deref_ok t T k hs run' : thrs σ !! t = Some T -> (t ∈ run \/ 0 < thread_handle t pc) -> handles pc = hs ->
  (forall q, inits q pc = 0 /\ starts q pc = 0) -> (forall u, u <> t -> thread_handle u pc = 0 /\ removing u pc = 0) -> removing t pc = 0 ->
  target pc = k ->
  (thread_handle t pc = 1 /\ run' = run) \/ (thread_handle t pc = 0 /\ t ∈ run /\ t_Dying T = true /\ run' = run ∖ {[t]}) ->
  step_ok s i pc (on_st (thread_dereference_locked t) (mkKernel σ run') (fun r s => (after_dereference t k hs r, s))).
Proof.
  intros E Hr Hh Hin Hoth Hrm Htg Hcase. destruct (thread_listed s i pc Hl Hi t T E Hr) as (P&EP&Hlist&Hne&H2&H3&H4&H5).
  pose proof (sumf_thread t _ _ pc_in') as [Hst _]. destruct (decide (t_RefCnt T = 1)) as [H1|H1].
  - assert (t_Dying T = true) as Hd.
    { destruct (t_Dying T) eqn:Ed; [done|]. specialize (H5 eq_refl). rewrite bool_decide_eq_true_2 in H3 by done. cbn [b2z] in H3. destruct Hcase as [[? _]|(_&_&?&_)]; [lia|done]. }
    destruct (proc_counts _ P EP Hne) as (Ha&Hn&Hrg&Hc). destruct (bi_fresh _ (li_base _ Hl)) as (_&Hfp&_).
    assert (t_Process T <> NULL) as Hnull by (specialize (Hfp (t_Process T)); rewrite EP in Hfp; destruct Hfp; [by eexists|unfold NULL; lia]).
    assert (has_threads P = true) as Eh by (destruct (has_threads P) eqn:Eh; [done|]; apply has_threads_num in Eh; rewrite Eh in Hlist; by apply not_elem_of_nil in Hlist).
    rewrite Eh in Hc. cbn [b2z] in Hc. destruct (has_threads_num P) as [Hnum _]. rewrite Eh in Hnum. cbn [b2z] in Hnum.
    erewrite on_st_ok by (cbn [k_st]; eapply thread_last_run; [exact E|exact H1|apply (li_thread _ Hl t T E)|exact Hnull|exact EP|lia|lia]).
    cbn [step_ok after_dereference k_running]. eapply full_inv_step; [done|exact Hi| |done|cbn; intros q Hq; left; congruence].
    assert (run' = run ∖ {[t]}) as ->.
    { destruct Hcase as [[Hth ->]|(_&_&_&->)]; [|done]. assert (t ∉ run) as Hnr by (intros Hx; rewrite bool_decide_eq_true_2 in H3 by done; cbn [b2z] in H3; lia).
      clear -Hnr. set_solver. }
    apply (last_thread s i pc Hl Hi t T P); try done. intros Hx. rewrite bool_decide_eq_true_2 in H3 by done. cbn [b2z] in H3. destruct Hcase as [[? _]|(?&_)]; lia.
  - erewrite on_st_ok by (cbn [k_st]; eapply thread_deref_run; [exact E|reflexivity|rlia]). cbn [step_ok after_dereference k_running].
    assert (thread_handle t (after_thread k hs) = 0 /\ removing t (after_thread k hs) = 0) as [A1 A2] by (by destruct k).
    eapply full_inv_step; [done|exact Hi| |done|intros q Hq; left; destruct k; cbn in Hq; congruence].
    apply (drop_thread s i pc Hl Hi t T); try done; [lia|..].
    + destruct Hcase as [[Hth ->]|(Hth&Hx&_&->)]; [lia|]. rewrite (bool_decide_eq_true_2 _ Hx), bool_decide_eq_false_2 by apply not_in_difference. cbn [b2z]. lia.
    + destruct Hcase as [[_ ->]|(_&_&Hd&_)]; [done|congruence].
    + intros u Hu. destruct Hcase as [[_ ->]|(_&_&_&->)]; [done|by apply in_difference].
    + congruence.
    + intros q _. destruct (Hin q). unfold refs. rewrite Hh. destruct k; cbn; lia.
    + intros u Hu. destruct (Hoth u ltac:(done)). by destruct k; cbn; lia.
Qed.

Lemma removed_ok q t last k hs cpu choice : pc = PRemoved q t last k hs -> step_ok s i pc (pexec cpu choice pc (shared s)).
Proof.
  intros Hpc. rewrite Hpc at 2. cbn [pexec]. set (pc1 := PRemoved q t false k hs).
  assert (exists σ1, (if last then _ProcessDereference q else ret tt) σ = Ok (tt, σ1) /\ life_inv (mkSys (mkKernel σ1 run) (<[i := pc1]> (pcs s))) /\
    thrs σ1 = thrs σ /\ SystemProcess σ1 = SystemProcess σ) as (σ1&E1&H1&Et&Es).
  { destruct last; [|exists σ; split_and!; try done; subst pc pc1; rewrite (list_insert_id _ _ _ Hi); by destruct s as [[? ?] ?]].
    assert (inits q pc = 1) as Hq1 by (rewrite Hpc; cbn; by rewrite Z.eqb_refl). pose proof (refs_nonneg q pc) as [Hrq _].
    apply (dereference_step s i pc Hl Hi q pc1); [lia|..]; rewrite Hpc; unfold pc1.
    - unfold refs. cbn. rewrite Z.eqb_refl. cbn. lia.
    - cbn. rewrite Z.eqb_refl. done.
    - done.
    - intros r Hr. unfold refs. cbn. rewrite (proj2 (Z.eqb_neq r q)) by congruence. cbn. lia.
    - done. }
  destruct (li_threads _ Hl pc t pc_in') as [T E]; [rewrite Hpc; cbn; rewrite Z.eqb_refl; cbn; lia|]. rewrite <- Et in E.
  erewrite on_st_ok by (rewrite (bind_run _ _ _ _ _ E1); eapply destroy_end_run; exact E). cbn [step_ok].
  assert (<[i := pc1]> (pcs s) !! i = Some pc1) as Hi1 by (apply list_lookup_insert_eq; by eapply lookup_lt_Some).
  eapply full_inv_step; [done|exact Hi| |done|intros r Hr; left; rewrite Hpc; by destruct k].
  pose proof (delete_thread (mkSys (mkKernel σ1 run) (<[i := pc1]> (pcs s))) i pc1 H1 Hi1 t T (after_thread k hs) E) as Hdel.
  cbn [shared pcs k_st k_running] in Hdel. rewrite list_insert_insert_eq in Hdel. apply Hdel.
  - cbn. rewrite Z.eqb_refl. done.
  - by destruct k.
  - by destruct k.
  - intros r _. unfold refs. by destruct k.
  - intros u Hu. cbn. rewrite (proj2 (Z.eqb_neq u t)) by congruence. by destruct k.
Qed.
Lemma create_ok hs e name args pool : pc = PIdle hs ->
  step_ok s i pc (pexec 0 (CCreate e name args pool) (PIdle hs) (shared s)).
Proof.
  intros Hpc. cbn [pexec]. set (s0 := mkSys (mkKernel (set_p_pool pool σ) run) (pcs s)). pose proof (init_pool pool : life_inv s0) as H0.
  pose proof (li_base _ H0) as Hb. change (k_st (shared s0)) with (set_p_pool pool σ) in Hb.
  assert (fresh_block (set_p_pool pool σ)) as Hfr.
  { destruct (fresh_next s0 H0) as [A1 A2]. split_and!; [exact A2|exact A1|]. destruct (bi_system _ Hb) as [S ES].
    intros Heq. change (procs σ !! next_block σ = None) in A2. change (next_block σ = SystemProcess σ) in Heq. rewrite Heq in A2. change (procs σ !! SystemProcess σ = Some S) in ES. congruence. }
  assert (system_live (set_p_pool pool σ)) as Hsl by (destruct (bi_system _ Hb) as [S ES]; exists S; split; [done|by apply (bi_used _ Hb _ S ES)]).
  assert (forall (m : M pst (Z * option Z)), (_ ← modify (set_p_pool pool); m) σ = m (set_p_pool pool σ)) as Em by done.
  destruct (create_begin_run _ e name args (bi_ok _ Hb) (bi_zero _ Hb) Hfr Hsl (fun p P E => proj2 (bi_used _ Hb p P E))) as
    [(st&pl&nb&E&Hnb)|[(st&id&P&m'&pl&E&Hid&Hu&Hm&Hn)|[E Hall]]].
  - erewrite on_st_ok by (rewrite Em; exact E). cbn [step_ok]. eapply full_inv_step; [done|exact Hi| |done|intros p [=]].
    rewrite <- Hpc, (list_insert_id _ _ _ Hi). exact (alloc_step s0 H0 nb pl Hnb).
  - erewrite on_st_ok by (rewrite Em; exact E). pose proof (create_step s0 i pc H0 Hi m' pl P id (SUCCEEDED st) hs Hn Hid Hu Hm Hpc) as Hc.
    cbv beta iota. destruct (SUCCEEDED st); cbn [step_ok]; (eapply full_inv_step; [done|exact Hi|exact Hc|done|intros p [=]]).
  - unfold on_st. rewrite Em, E. cbn. left. exact Hall.
Qed.

Lemma countp_remove p l : p ∈ l -> countp (Z.eqb p) (remove_one p l) = countp (Z.eqb p) l - 1 /\
  forall q, q <> p -> countp (Z.eqb q) (remove_one p l) = countp (Z.eqb q) l.
Proof.
  induction l as [|x l IH]; intros Hin; [by apply not_elem_of_nil in Hin|]. cbn [remove_one]. destruct (Z.eqb_spec p x) as [->|Hne].
  - cbn [countp]. rewrite Z.eqb_refl. cbn [b2z]. split; [lia|]. intros q Hq. by rewrite (proj2 (Z.eqb_neq q x)).
  - apply elem_of_cons in Hin as [|Hin]; [done|]. destruct (IH Hin) as [A1 A2]. cbn [countp]. split; [rewrite A1; lia|]. intros q Hq. by rewrite A2.
Qed.

Lemma handle_refs p hs : pc = PIdle hs -> p ∈ hs -> 0 < refs p pc.
Proof.
  intros -> Hin. destruct (countp_remove p hs Hin) as [A _]. pose proof (countp_nonneg (Z.eqb p) (remove_one p hs)). unfold refs. cbn. lia.
Qed.

Lemma close_ok hs p : pc = PIdle hs -> p ∈ hs ->
  step_ok s i pc (on_st (ProcessCloseHandle p) (shared s) (fun _ s => (PIdle (remove_one p hs), s))).
Proof.
  intros Hpc Hin. destruct (countp_remove p hs Hin) as [A1 A2]. pose proof (handle_refs p hs Hpc Hin) as Hpos.
  destruct (dereference_step s i pc Hl Hi p (PIdle (remove_one p hs)) Hpos) as (σ'&E&H&_&Es); rewrite ?Hpc; try done.
  - unfold refs. cbn [handles inits]. lia.
  - intros q Hq. unfold refs. cbn [handles inits starts]. rewrite A2 by congruence. done.
  - rewrite <- Hpc. erewrite on_st_ok by exact E. cbn [step_ok]. eapply full_inv_step; [done|exact Hi|exact H|done|intros q [=]].
Qed.

Lemma terminate_ok hs p : pc = PIdle hs -> p ∈ hs -> step_ok s i pc (on_st (ProcessTerminate NULL p) (shared s) (fun _ s => (pc, s))).
Proof.
  intros Hpc Hin. destruct (refs_live s i pc Hl Hi p (handle_refs p hs Hpc Hin)) as (P&E&Hne). pose proof (li_base _ Hl) as Hb.
  destruct (bi_system _ Hb) as [S ES]. pose proof (li_proc _ Hl p P E Hne) as HP.
  destruct (terminate_run NULL (ThreadList P) σ) as (ths&Et&Hs).
  { intros t Ht. destruct (pi_threads _ _ _ _ HP t Ht) as (T&ET&_). by eexists. }
  assert (ProcessTerminate NULL p σ = Ok (bool_decide (NULL ∈ ThreadList P), set_thrs ths σ)) as Er.
  { unfold ProcessTerminate. rewrite (bind_run _ _ _ _ _ (is_system_run σ p P S E ES)).
    rewrite (bind_run _ _ _ tt σ) by (apply ASSERT_run, negb_true_iff, Z.eqb_neq; intros Heq; apply Hne; by apply (bi_inj _ Hb p (SystemProcess σ) P S)).
    by rewrite (bind_run _ _ _ _ _ (proc_run _ _ _ E)), (bind_run _ _ _ _ _ Et). }
  erewrite on_st_ok by exact Er. cbn [step_ok]. eapply full_inv_step; [done|exact Hi| |done|by left]. by apply flags_step.
Qed.

(** Every step keeps the invariant; it fails only when a resource is used up, or at the reference ProcessCreate takes for its
    caller after the process is gone. *)
Lemma exec_idle_ok hs cpu choice : pc = PIdle hs -> step_ok s i pc (pexec cpu choice pc (shared s)).
Proof.
  intros Hpc. pose proof idle_ok as Hidle. assert (pexec cpu choice pc (shared s) = pexec cpu choice (PIdle hs) (shared s)) as -> by (by rewrite Hpc).
  destruct choice as [e name args pool|ok|t ok|t st|t|p|p]; [by apply create_ok|..]; cbn [pexec]; rewrite <- ?Hpc; [done|..].
  - destruct (thrs σ !! t) as [T|] eqn:E; [|done]. case_bool_decide; cbn [andb]; [|done]. destruct (t_Dying T) eqn:Ed; cbn [negb]; [done|].
    rewrite Hpc at 2. by apply (spawn_ok hs t T).
  - destruct (thrs σ !! t) as [T|] eqn:E; [|done]. case_bool_decide as Hr; cbn [andb]; [|done]. destruct (t_Dying T) eqn:Ed; cbn [negb]; [done|].
    destruct (exit_step s i pc Hl Hi t T st E Hr Ed) as (σ'&Ex&H'&Es). erewrite on_st_ok by exact Ex. cbn [step_ok].
    eapply full_inv_step; [done|exact Hi|exact H'|exact Es|by left].
  - destruct (thrs σ !! t) as [T|] eqn:E; [|done]. case_bool_decide as Hr; cbn [andb]; [|done]. destruct (t_Dying T) eqn:Ed; [|done].
    apply (thread_deref_ok t T); try done; [by left|by rewrite Hpc|by intros q; rewrite Hpc|by intros u; rewrite Hpc|by rewrite Hpc|by rewrite Hpc|].
    right. split_and!; try done. by rewrite Hpc.
  - case_bool_decide; [|done]. by apply close_ok.
  - case_bool_decide; [|done]. by apply (terminate_ok hs).
Qed.

Lemma close_thread_ok t k hs : pc = PCloseThread t k hs ->
  step_ok s i pc (on_st (thread_dereference_locked t) (mkKernel σ run) (fun r s => (after_dereference t k hs r, s))).
Proof.
  intros Hpc. destruct (li_threads _ Hl pc t pc_in') as [T E]; [rewrite Hpc; cbn; rewrite Z.eqb_refl; cbn; lia|].
  assert (thread_handle t pc = 1) as Ht by (rewrite Hpc; cbn; by rewrite Z.eqb_refl).
  apply (thread_deref_ok t T); try done; [right; lia|by rewrite Hpc|by intros q; rewrite Hpc| |by rewrite Hpc|by rewrite Hpc|by left].
  intros u Hu. rewrite Hpc. cbn. by rewrite (proj2 (Z.eqb_neq u t)).
Qed.
End Exec.

Lemma exec_ok s i pc cpu choice : full_inv s -> pcs s !! i = Some pc -> step_ok s i pc (pexec cpu choice pc (shared s)).
Proof.
  intros Hf Hi. destruct pc as [hs|p hs|p hs|t k hs|q t last k hs|p hs].
  - by apply (exec_idle_ok s i _ Hf Hi hs).
  - by apply (start_ok s i _ Hf Hi p hs).
  - exact (failed_ok s i _ Hf Hi p hs eq_refl).
  - cbn [pexec]. pose proof (close_thread_ok s i _ Hf Hi t k hs eq_refl) as H. by destruct s as [[? ?] ?].
  - by apply (removed_ok s i _ Hf Hi q t last k hs).
  - exact (started_ok s i _ Hf Hi p hs eq_refl).
Qed.

(** * The system after start-up *)
Definition pid_buffer : Z := 0x1000.
Definition empty_state : pst := mkPst (mkBITMAP 0 0 0) (mem_of pid_buffer (replicate 512 0)) NULL [] [] ∅ ∅ [] 1.
Definition booted : pst :=
  match (_ ← ProcessSystemPreinit pid_buffer; ProcessSystemInitSystemProcess) empty_state with Ok (_, s) => s | Err _ => empty_state end.
(** [n] threads of the kernel that have no process open. *)
Definition k_start (n : nat) : @sys kernel ppc := mkSys (mkKernel booted ∅) (replicate n (PIdle [])).

Definition system_process : PROCESS := set_VaSpace true (set_PagingData true (new_process [83; 121; 115; 116; 101; 109] None 1)).

Lemma booted_facts : procs booted = {[1 := system_process]} /\ thrs booted = ∅ /\ SystemProcess booted = 1 /\ ProcessList booted = [1] /\
  next_block booted = 2 /\ PidBitmap booted = mkBITMAP pid_buffer 512 4096.
Proof. split_and!; vm_compute; reflexivity. Qed.

Lemma booted_bytes : forallb (fun j => match pid_mem booted !! (pid_buffer + j) with Some b => (0 <=? b) && (b <? 256) | None => false end) (seqZ 0 512) = true.
Proof. vm_compute. reflexivity. Qed.
Lemma booted_bits : forallb (fun j => Bool.eqb (pid_used booted j) (j <=? 1)) (seqZ 0 4096) = true.
Proof. vm_compute. reflexivity. Qed.

#[local] Opaque booted.

Lemma forallb_seqZ f n j : forallb f (seqZ 0 n) = true -> 0 <= j < n -> f j = true.
Proof. intros H Hj. apply (proj1 (forallb_forall _ _) H), list_elem_of_In, elem_of_seqZ. lia. Qed.

(** What is used of the state after start-up. *)
Record boot_facts (b : pst) : Prop := {
  bf_procs : procs b = {[1 := system_process]}; bf_thrs : thrs b = ∅; bf_system : SystemProcess b = 1; bf_list : ProcessList b = [1];
  bf_next : next_block b = 2; bf_bitmap : PidBitmap b = mkBITMAP pid_buffer 512 4096;
  bf_bytes : forall j, 0 <= j < 512 -> exists c, pid_mem b !! (pid_buffer + j) = Some c /\ is_byte c;
  bf_bits : forall j, 0 <= j < 4096 -> pid_used b j = (j <=? 1) }.

Lemma booted_ok : boot_facts booted.
Proof.
  split; [apply booted_facts..| |].
  - intros j Hj. pose proof (forallb_seqZ _ _ j booted_bytes Hj) as H. cbv beta in H. destruct (pid_mem booted !! (pid_buffer + j)) as [c|]; [|discriminate H].
    exists c. split; [reflexivity|]. apply andb_true_iff in H as [? ?]. split; lia.
  - intros j Hj. pose proof (forallb_seqZ _ _ j booted_bits Hj) as H. cbv beta in H. exact (Bool.eqb_prop _ _ H).
Qed.

Lemma boot_base b : boot_facts b -> base_inv b.
Proof.
  intros [Ep Et Es El En Eb Hbytes Hbit].
  assert (forall p P, procs b !! p = Some P -> p = 1 /\ P = system_process) as Hp by (intros p P; rewrite Ep; intros [<- <-]%lookup_singleton_Some; done).
  split.
  - split; [|by rewrite Eb]. rewrite Eb. by split_and!.
  - by rewrite Hbit.
  - intros p P [-> ->]%Hp. change (Id system_process) with 1. by rewrite Hbit.
  - intros j Hj. rewrite Hbit by lia. intros Hle. exists 1, system_process. rewrite Ep, lookup_singleton_eq. split; [done|]. change (Id system_process) with 1. lia.
  - intros p q P Q [-> _]%Hp [-> _]%Hp. done.
  - intros p P [_ ->]%Hp. done.
  - rewrite El. split; [apply NoDup_singleton|]. intros p. rewrite list_elem_of_singleton, Ep. split; [intros ->; by rewrite lookup_singleton_eq|].
    intros [P [<- _]%lookup_singleton_Some]. done.
  - rewrite Es, Ep, lookup_singleton_eq. by eexists.
  - rewrite En. split_and!; [lia|intros p [P HP]; apply Hp in HP as [-> _]; lia|]. intros t. rewrite Et, lookup_empty. by intros [? ?].
Qed.

Lemma boot_inv b n : boot_facts b -> full_inv (mkSys (mkKernel b ∅) (replicate n (PIdle []))).
Proof.
  intros Hb. pose proof (boot_base b Hb) as Hbase. destruct Hb as [Ep Et Es _ _ _ _ _].
  assert (forall pc, pc ∈ replicate n (PIdle []) -> pc = PIdle []) as Hpc by (intros pc [-> _]%elem_of_replicate; done).
  split; [|cbn [pcs]; intros pc p ->%Hpc; done]. split; cbn [shared pcs k_st k_running]; [done|..].
  - rewrite Ep, Es. intros p P [<- _]%lookup_singleton_Some. done.
  - rewrite Et. intros t T. by rewrite lookup_empty.
  - intros pc p ->%Hpc. done.
  - intros pc t ->%Hpc. done.
  - intros t. set_solver.
Qed.

Lemma start_inv n : full_inv (k_start n).
Proof. apply boot_inv, booted_ok. Qed.

Lemma reachable_full n s : reachable pexec (k_start n) s -> full_inv s.
Proof.
  apply reachable_preserved; [apply start_inv|]. intros s1 j choice pc pc' l' H Hj E.
  pose proof (exec_ok s1 j pc (cpu_id j) choice H Hj) as Hok. by rewrite E in Hok.
Qed.



(** In every interleaving the identifiers of the processes differ, the bitmap marks exactly those in use (and 0, which is
    not an identifier), and the process list holds exactly the processes that exist. *)
Theorem process_identifiers n s : reachable pexec (k_start n) s ->
  let σ := k_st (shared s) in
  (forall p q P Q, procs σ !! p = Some P -> procs σ !! q = Some Q -> Id P = Id Q -> p = q) /\
  (forall j, 0 < j < PCID_TOTAL_NO_OF_VALUES -> pid_used σ j = true <-> exists p P, procs σ !! p = Some P /\ Id P = j) /\
  NoDup (ProcessList σ) /\ (forall p, p ∈ ProcessList σ <-> is_Some (procs σ !! p)).
Proof.
  intros Hr σ. pose proof (li_base _ (fi_life _ (reachable_full n s Hr))) as Hb. fold σ in Hb. split_and!; [apply Hb| |apply Hb..].
  intros j Hj. split; [by apply Hb|]. intros (p&P&E&<-). by apply (bi_used _ Hb p P).
Qed.

(** One thread creates a process; its main thread exits and is destroyed by another processor before ProcessCreate takes the
    reference of the handle it returns. *)
Definition demo_race : list (nat * pchoice) :=
  [(0%nat, CCreate env_ok [65] None []); (0%nat, CThread true); (1%nat, CExit 3 0); (0%nat, CThread true); (1%nat, CReap 3); (1%nat, CThread true)].

(** C38: ProcessCreate can use the process after it was freed: the process may end before its creator takes its own reference. *)
Theorem process_create_race : exists s p, reachable pexec (k_start 2) s /\ pcs s !! 0%nat = Some (PStarted p []) /\
  pexec (cpu_id 0) (CThread true) (PStarted p []) (shared s) = Err MemFault.
Proof.
  destruct (run_schedule pexec demo_race (k_start 2)) as [[s|]|] eqn:E; [|by vm_compute in E|by vm_compute in E].
  exists s, 2. split; [eapply run_schedule_reachable; [apply reach_refl|exact E]|].
  assert (pcs s !! 0%nat = Some (PStarted 2 [])) as Hpc.
  { enough (match run_schedule pexec demo_race (k_start 2) with Some (Ok s) => pcs s !! 0%nat | _ => None end = Some (PStarted 2 [])) as H by (by rewrite E in H).
    vm_compute. reflexivity. }
  split; [exact Hpc|].
  assert (run_schedule pexec (demo_race ++ [(0%nat, CThread true)]) (k_start 2) = Some (Err MemFault)) as H by (vm_compute; reflexivity).
  rewrite (run_schedule_app pexec demo_race [(0%nat, CThread true)] (k_start 2) s E) in H. cbn [run_schedule] in H. rewrite Hpc in H.
  cbn [mbind option_bind] in H. destruct (pexec (cpu_id 0) (CThread true) (PStarted 2 []) (shared s)) as [[pc' l']|e]; [discriminate H|]. congruence.
Qed.


(** When the kernel stack or the name of a new thread cannot be allocated, _ThreadInit does not return the error: it
    destroys the thread, which follows the zeroed links of a list entry that was never linked. *)
Theorem thread_init_fault s name : p_pool s = [] \/ p_pool s = [true; false] ->
  _ThreadInit name true (bool_decide (p_pool s <> [])) s = Err MemFault.
Proof.
  intros Hp. unfold _ThreadInit. set (t := next_block s). set (T := mkTHREAD_OBJECT 1 NULL LinkZeroed false 0 0 None (bool_decide (p_pool s <> [])) false).
  assert (exists st s1, thread_init_body name true (bool_decide (p_pool s <> [])) s = Ok ((st, Some t), s1) /\ SUCCEEDED st = false /\ thrs s1 !! t = Some T) as (st&s1&E&Hst&Et).
  { unfold T. destruct Hp as [Hp|Hp]; rewrite Hp; [rewrite bool_decide_eq_false_2 by (by intros []) | rewrite bool_decide_eq_true_2 by done];
      unfold thread_init_body; (erewrite bind_run by (unfold ExAllocatePool; rewrite Hp; reflexivity)); cbn [negb];
      do 2 (erewrite bind_run by reflexivity); erewrite bind_run by (apply upd_thread_run; apply lookup_insert_eq); cbn [andb negb].
    - eexists _, _. split; [reflexivity|]. split; [reflexivity|]. apply lookup_insert_eq.
    - erewrite bind_run by (apply upd_thread_run; apply lookup_insert_eq). erewrite bind_run by reflexivity. cbn [negb].
      eexists _, _. split; [reflexivity|]. split; [reflexivity|]. apply lookup_insert_eq. }
  rewrite (bind_run _ _ _ _ _ E), Hst. cbn [negb]. unfold mbind at 1, M_bind at 1. unfold thread_dereference.
  rewrite (bind_run _ _ _ _ _ (thread_run _ _ _ Et)). change (u32 (t_RefCnt T - 1)) with 0.
  rewrite (bind_run _ _ _ _ _ (upd_thread_run _ _ _ _ Et)). erewrite bind_run by reflexivity. rewrite Z.eqb_refl.
  unfold _ThreadDestroy, thread_destroy_begin, mbind at 1, M_bind at 1. erewrite bind_run by (apply thread_run; apply lookup_insert_eq).
  erewrite bind_run by reflexivity. reflexivity.
Qed.

(** ** Witnesses *)
Definition reached (sched : list (nat * pchoice)) (n : nat) : @sys kernel ppc :=
  match run_schedule pexec sched (k_start n) with Some (Ok s) => s | _ => k_start n end.

Lemma reached_reachable sched n : reachable pexec (k_start n) (reached sched n).
Proof.
  unfold reached. destruct (run_schedule pexec sched (k_start n)) as [[s|]|] eqn:E; [|apply reach_refl..].
  eapply run_schedule_reachable; [apply reach_refl|exact E].
Qed.

(** A process with a main thread and the handle of its creator. *)
Definition demo_life : list (nat * pchoice) :=
  [(0%nat, CCreate env_ok [65] (Some [66; 32; 67]) []); (0%nat, CThread true); (0%nat, CThread true); (0%nat, CThread true); (1%nat, CSpawn 3 true)].
Definition demo_view : option (list Z * list Z * Z * Z * Z) :=
  let s := reached demo_life 2 in
  P ← procs (k_st (shared s)) !! 2;
  Some (flat_map handles (pcs s), ThreadList P, NumberOfThreads P, ActiveThreads P, p_RefCnt P).

Lemma demo_view_eq : demo_view = Some ([2], [3; 4], 2, 2, 4).
Proof. vm_compute. reflexivity. Qed.
Lemma demo_pcs : pcs (reached demo_life 2) = [PIdle [2]; PCloseThread 4 None []].
Proof. vm_compute. reflexivity. Qed.
Lemma demo_system : SystemProcess (k_st (shared (reached demo_life 2))) = 1.
Proof. vm_compute. reflexivity. Qed.
#[local] Opaque reached.



Lemma process_identifiers_witness : ProcessList (k_st (shared (reached demo_life 2))) = [1; 2] /\
  NoDup (ProcessList (k_st (shared (reached demo_life 2)))).
Proof.
  split; [vm_compute; reflexivity|].
  exact (proj1 (proj2 (proj2 (process_identifiers 2 (reached demo_life 2) (reached_reachable demo_life 2))))).
Defined.


Lemma thread_init_fault_witness : _ThreadInit [65] true (bool_decide (p_pool empty_state <> [])) empty_state = Err MemFault.
Proof. apply (thread_init_fault empty_state [65]). left. reflexivity. Defined.

(** The user stack of the main thread cannot be allocated: ProcessCreate reports the failure, but the process stays with the
    reference of a thread that never runs. *)
Example demo_leak :
  match ProcessCreate (mkEnv (inr zeroed_header) 0 0 0 true false) [65] None booted with
  | Ok ((st, o), s) => (SUCCEEDED st, o, ProcessList s, p_RefCnt <$> procs s !! 2, ThreadList <$> procs s !! 2)
  | Err _ => (true, None, [], None, None)
  end = (false, None, [1; 2], Some 1, Some [3]).
Proof. vm_compute. reflexivity. Qed.
