(* ===== verification/Storage.v ===== *)
(** The storage stack below the file systems: Ata/src/ata_dispatch.c, Disk/src/disk.c and disk_dispatch.c,
    Volume/src/volume_dispatch.c and the read/write path of HAL9000/src/io_devices.c.

    A disk is a function from byte offsets to bytes.  A request (IRP with its current stack location) is a record;
    the drivers of the stack pass it down and the answer (IoStatus, and for a read the bytes delivered to the buffer) up.  The
    transfer itself is hardware: it moves all the sectors of an accepted request.  A DMA transfer
    can fail while it is being prepared; the results of the next preparations, and of the next pool
    allocations, are part of the state.  Requests to a device are issued one at a time. *)
From S2P Require Import Prelude IntUtils.

Definition DISK_MASK : Z := Z.shiftl 1 18.
Definition DEVICE_MASK : Z := Z.shiftl 1 16.
Definition STATUS_DISK_MBR_NOT_PRESENT : Z := error_status DISK_MASK 0x0001.
Definition STATUS_DEVICE_NOT_INITIALIZED : Z := error_status DEVICE_MASK 0x0004.
Definition STATUS_DEVICE_SECTOR_OFFSET_EXCEEDED : Z := error_status DEVICE_MASK 0x0005.
Definition STATUS_DEVICE_SECTOR_COUNT_EXCEEDED : Z := error_status DEVICE_MASK 0x0006.
Definition STATUS_DEVICE_ALIGNMENT_NO_SATISFIED : Z := error_status DEVICE_MASK 0x000E.
Definition STATUS_DEVICE_DATA_ALIGNMENT_ERROR : Z := error_status DEVICE_MASK 0x000A.

Definition SECTOR_SIZE : Z := 512.
Definition LBA48_MAX_VALUE : Z := 0xFFFFFFFFFFFF.

Record Storage := mkStorage {
  disk : Z -> Z;             (* the byte at an offset *)
  Initialized : bool; TotalSectors : Z;     (* ATA_DEVICE *)
  dma : list Z;              (* statuses of the next _AtaPrepareDmaTransfer; success when empty *)
  pool : list bool }.        (* whether the next pool allocations succeed; they do when empty *)

(** * Bytes *)
Definition read_range (d : Z -> Z) (off n : Z) : list Z := d <$> seqZ off n.
Definition write_range (d : Z -> Z) (off : Z) (bs : list Z) : Z -> Z :=
  fun a => default (d a) (zget bs (a - off)).

Definition get_bytes (bs : list Z) (off n : Z) : outcome (list Z) :=
  if (0 <=? off) && (off + n <=? Z.of_nat (length bs))
  then Ok (take (Z.to_nat n) (drop (Z.to_nat off) bs)) else Err MemFault.
Definition put_bytes (bs : list Z) (off : Z) (new : list Z) : outcome (list Z) :=
  if (0 <=? off) && (off + Z.of_nat (length new) <=? Z.of_nat (length bs))
  then Ok (take (Z.to_nat off) bs ++ new ++ drop (Z.to_nat off + length new) bs) else Err MemFault.
Definition get_le (bs : list Z) (off n : Z) : outcome Z := x ← get_bytes bs off n; Ok (le x).

(** * Hardware and pool *)
Definition with_disk (d : Z -> Z) (s : Storage) : Storage :=
  mkStorage d (Initialized s) (TotalSectors s) (dma s) (pool s).
Definition next_dma_status : M Storage Z := fun s =>
  match dma s with
  | [] => Ok (STATUS_SUCCESS, s)
  | st :: l => Ok (st, mkStorage (disk s) (Initialized s) (TotalSectors s) l (pool s))
  end.
Definition ExAllocatePool : M Storage bool := fun s =>
  match pool s with
  | [] => Ok (true, s)
  | b :: l => Ok (b, mkStorage (disk s) (Initialized s) (TotalSectors s) (dma s) l)
  end.

(** * Requests *)
Record IRP := mkIRP {
  irp_Write : bool; irp_Length : Z; irp_Offset : Z; irp_Buffer : list Z; irp_Asynchronous : bool }.
Record IO_STATUS := mkIOSB { io_Status : Z; io_Information : Z; io_Data : list Z }.
Record PARTITION_INFORMATION := mkPART {
  OffsetInDisk : Z; PartitionSize : Z; PartitionType : Z; Bootable : bool }.

(** ** ata_dispatch.c, ata_operations.c *)
Definition _AtaCheckAlignment (Size Offset : Z) : Z :=
  if negb (IsAddressAligned Size SECTOR_SIZE) then STATUS_DEVICE_DATA_ALIGNMENT_ERROR else
  if negb (IsAddressAligned Offset SECTOR_SIZE) then STATUS_DEVICE_DATA_ALIGNMENT_ERROR else STATUS_SUCCESS.

Definition _AtaCheckIOParameters (s : Storage) (SectorIndex SectorCount : Z) : Z :=
  if negb (Initialized s) then STATUS_DEVICE_NOT_INITIALIZED else
  if TotalSectors s <=? SectorIndex then STATUS_DEVICE_SECTOR_OFFSET_EXCEEDED else
  if LBA48_MAX_VALUE <=? SectorIndex then STATUS_DEVICE_SECTOR_OFFSET_EXCEEDED else
  if u64 (TotalSectors s - SectorIndex) <? SectorCount then STATUS_DEVICE_SECTOR_COUNT_EXCEEDED
  else STATUS_SUCCESS.

(** The status, the number of sectors moved, and the data of a read. *)
Definition AtaReadWriteSectors (SectorIndex SectorCount : Z) (Buffer : list Z) (Asynchronous WriteOperation : bool)
    : M Storage (Z * Z * list Z) :=
  if 0 =? SectorCount then ret (STATUS_INVALID_PARAMETER3, 0, []) else
  st ← (if Asynchronous then next_dma_status else ret STATUS_SUCCESS);
  if negb (SUCCEEDED st) then ret (st, 0, []) else
  if WriteOperation then
    bs ← lift (get_bytes Buffer 0 (SectorCount * SECTOR_SIZE));
    _ ← modify (fun s => with_disk (write_range (disk s) (SectorIndex * SECTOR_SIZE) bs) s);
    ret (STATUS_SUCCESS, SectorCount, [])
  else
    bs ← gets (fun s => read_range (disk s) (SectorIndex * SECTOR_SIZE) (SectorCount * SECTOR_SIZE));
    ret (STATUS_SUCCESS, SectorCount, bs).

Definition AtaDispatchReadWrite (Irp : IRP) : M Storage IO_STATUS :=
  let sizeInBytes := irp_Length Irp in
  let offset := irp_Offset Irp in
  let status := _AtaCheckAlignment sizeInBytes offset in
  if negb (SUCCEEDED status) then ret (mkIOSB status 0 []) else
  let sectorIndex := offset / SECTOR_SIZE in
  let sectorCount := sizeInBytes / SECTOR_SIZE in
  if MAX_WORD <? sectorCount then ret (mkIOSB STATUS_DEVICE_SECTOR_COUNT_EXCEEDED 0 []) else
  status ← gets (fun s => _AtaCheckIOParameters s sectorIndex (u16 sectorCount));
  if negb (SUCCEEDED status) then ret (mkIOSB status 0 []) else
  '(status, sectorsRead, data) ←
    AtaReadWriteSectors sectorIndex (u16 sectorCount) (irp_Buffer Irp) (irp_Asynchronous Irp) (irp_Write Irp);
  ret (mkIOSB status (sectorsRead * SECTOR_SIZE) data).

(** ** disk_dispatch.c *)
Definition DiskDispatchReadWrite (Irp : IRP) : M Storage IO_STATUS := AtaDispatchReadWrite Irp.

(** ** volume_dispatch.c *)
Definition _VolCheckIOParameters (Volume : PARTITION_INFORMATION) (SectorIndex SectorCount : Z) : Z :=
  if PartitionSize Volume <=? SectorIndex then STATUS_DEVICE_SECTOR_OFFSET_EXCEEDED else
  if u64 (PartitionSize Volume - SectorIndex) <? SectorCount then STATUS_DEVICE_SECTOR_COUNT_EXCEEDED
  else STATUS_SUCCESS.

Definition VolDispatchReadWrite (Volume : PARTITION_INFORMATION) (Irp : IRP) : M Storage IO_STATUS :=
  let lengthInSectors := irp_Length Irp / SECTOR_SIZE in
  let offsetInSectors := irp_Offset Irp / SECTOR_SIZE in
  let status := _VolCheckIOParameters Volume offsetInSectors lengthInSectors in
  if negb (SUCCEEDED status) then ret (mkIOSB status 0 []) else
  DiskDispatchReadWrite
    (mkIRP (irp_Write Irp) (irp_Length Irp) (u64 (u64 (offsetInSectors + OffsetInDisk Volume) * SECTOR_SIZE))
       (irp_Buffer Irp) (irp_Asynchronous Irp)).

(** ** io_devices.c: the status, the new value of *Length and the data of a read; IoCallDriver tests the alignment of
    the volume device, which is that of the ATA device below it *)
Definition _IoReadWriteDevice (Volume : PARTITION_INFORMATION) (Buffer : list Z) (Length Offset : Z)
    (Write Asynchronous : bool) : M Storage (Z * Z * list Z) :=
  if negb (IsAddressAligned Length SECTOR_SIZE && IsAddressAligned Offset SECTOR_SIZE)
  then ret (STATUS_DEVICE_ALIGNMENT_NO_SATISFIED, Length, []) else
  r ← VolDispatchReadWrite Volume (mkIRP Write Length Offset Buffer Asynchronous);
  ret (io_Status r, io_Information r, io_Data r).
Definition IoReadDeviceEx (Volume : PARTITION_INFORMATION) (Length Offset : Z) (Asynchronous : bool)
    : M Storage (Z * Z * list Z) :=
  _IoReadWriteDevice Volume [] Length Offset false Asynchronous.
Definition IoWriteDeviceEx (Volume : PARTITION_INFORMATION) (Buffer : list Z) (Length Offset : Z) (Asynchronous : bool)
    : M Storage (Z * Z) :=
  r ← _IoReadWriteDevice Volume Buffer Length Offset true Asynchronous; ret r.1.
Definition IoReadDevice Volume Length Offset := IoReadDeviceEx Volume Length Offset false.
Definition IoWriteDevice Volume Buffer Length Offset := IoWriteDeviceEx Volume Buffer Length Offset false.

(** * disk.c: the partitions of a disk *)
Definition MBR_NO_OF_PARTITIONS : Z := 4.
Definition MBR_EXT_PARTITION_NO_OF_ENTRIES : Z := 2.
Definition MBR_STATUS_ACTIVE : Z := 0x80.
Definition MBR_STATUS_INACTIVE : Z := 0x00.
Definition MBR_PARTITION_EXTENDED_CHS : Z := 0x5.
Definition MBR_PARTITION_EXTENDED_LBA : Z := 0xF.
Definition MBR_BOOT_SIGNATURE : Z := 0xAA55.

(** A partition entry, as its 16 bytes. *)
Definition mbr_entry (mbr : list Z) (i : Z) : list Z := take 16 (drop (Z.to_nat (446 + 16 * i)) mbr).
Definition mpe_Status (e : list Z) : Z := le (take 1 e).
Definition mpe_PartitionType (e : list Z) : Z := le (take 1 (drop 4 e)).
Definition mpe_FirstSectorLBA (e : list Z) : Z := le (take 4 (drop 8 e)).
Definition mpe_NumberOfSectors (e : list Z) : Z := le (take 4 (drop 12 e)).
Definition mbr_BootSignature (mbr : list Z) : Z := le (take 2 (drop 510 mbr)).

Fixpoint memscan (bs : list Z) (value : Z) : Z :=
  match bs with [] => 0 | b :: bs' => if b =? value then 1 + memscan bs' value else 0 end.

Definition _DiskRead (SectorIndex SectorCount : Z) (Asynchronous : bool) : M Storage (Z * Z * list Z) :=
  if MAX_QWORD / SECTOR_SIZE <=? SectorIndex then ret (STATUS_DEVICE_SECTOR_OFFSET_EXCEEDED, 0, []) else
  r ← DiskDispatchReadWrite (mkIRP false (SectorCount * SECTOR_SIZE) (u64 (SectorIndex * SECTOR_SIZE)) [] Asynchronous);
  ret (io_Status r, u16 (io_Information r / SECTOR_SIZE), io_Data r).

(** DiskLayoutInformation is the Partitions array, or [None] for NULL; the results are the
    status, *PartitionCount and the array. *)
Definition layout_t : Type := option (list PARTITION_INFORMATION).
Definition scan_t : Type := M Storage (Z * Z * layout_t).

Definition add_partition (partitionCount : Z) (p : PARTITION_INFORMATION) (l : layout_t) : outcome layout_t :=
  match l with
  | None => Ok None
  | Some a => a' ← of_option (zset a partitionCount p); Ok (Some a')
  end.

(** The loop over the entries of one sector; [again] is the recursive call. *)
Fixpoint scan_entries (again : Z -> bool -> Z -> Z -> layout_t -> scan_t)
    (DiskOffset : Z) (ExtendedPartition : bool) (FirstExtendedPartitionLBA partitionCount : Z) (L : layout_t)
    (entries : list (list Z)) : scan_t :=
  match entries with
  | [] => ret (STATUS_SUCCESS, partitionCount, L)
  | e :: entries' =>
    if ExtendedPartition && (Z.of_nat (length e) =? memscan e 0) then ret (STATUS_SUCCESS, partitionCount, L) else
    if negb (mpe_Status e =? MBR_STATUS_ACTIVE) && negb (mpe_Status e =? MBR_STATUS_INACTIVE)
    then scan_entries again DiskOffset ExtendedPartition FirstExtendedPartitionLBA partitionCount L entries' else
    if (mpe_PartitionType e =? MBR_PARTITION_EXTENDED_LBA) || (mpe_PartitionType e =? MBR_PARTITION_EXTENDED_CHS) then
      let offsetToFirstExtendedPartition := if ExtendedPartition then FirstExtendedPartitionLBA else mpe_FirstSectorLBA e in
      let firstPartitionLBA := u32 (mpe_FirstSectorLBA e + FirstExtendedPartitionLBA) in
      again firstPartitionLBA true offsetToFirstExtendedPartition partitionCount L
    else
      let firstPartitionLBA := u32 (mpe_FirstSectorLBA e + DiskOffset) in
      L ← lift (add_partition partitionCount
                  (mkPART firstPartitionLBA (mpe_NumberOfSectors e) (mpe_PartitionType e)
                     (mpe_Status e =? MBR_STATUS_ACTIVE)) L);
      scan_entries again DiskOffset ExtendedPartition FirstExtendedPartitionLBA (u32 (partitionCount + 1)) L entries'
  end.

Fixpoint _DiskRetrievePartitionsFromDiskStartingAtOffset (fuel : nat) (DiskOffset : Z) (ExtendedPartition : bool)
    (FirstExtendedPartitionLBA PartitionCount : Z) (L : layout_t) : scan_t :=
  match fuel with
  | O => fail NoFuel
  | S fuel' =>
    _ ← ASSERT (xorb ExtendedPartition (0 =? FirstExtendedPartitionLBA));
    ok ← ExAllocatePool;
    if negb ok then ret (STATUS_HEAP_INSUFFICIENT_RESOURCES, PartitionCount, L) else
    '(status, sectorsRead, pMbr) ← _DiskRead DiskOffset 1 false;
    if negb (SUCCEEDED status) then ret (status, PartitionCount, L) else
    _ ← ASSERT (1 =? sectorsRead);
    if negb (MBR_BOOT_SIGNATURE =? mbr_BootSignature pMbr) then ret (STATUS_DISK_MBR_NOT_PRESENT, PartitionCount, L) else
    scan_entries (_DiskRetrievePartitionsFromDiskStartingAtOffset fuel')
      DiskOffset ExtendedPartition FirstExtendedPartitionLBA PartitionCount L
      (mbr_entry pMbr <$> seqZ 0 (if ExtendedPartition then MBR_EXT_PARTITION_NO_OF_ENTRIES else MBR_NO_OF_PARTITIONS))
  end.

Definition empty_partition : PARTITION_INFORMATION := mkPART 0 0 0 false.
(** The status and, on success, the layout: the number of partitions and the array. *)
Definition _DiskRetrievePartitionsFromDisk (fuel : nat) : M Storage (Z * option (Z * list PARTITION_INFORMATION)) :=
  '(status, partitionCount, _) ← _DiskRetrievePartitionsFromDiskStartingAtOffset fuel 0 false 0 0 None;
  if negb (SUCCEEDED status) then ret (status, None) else
  ok ← ExAllocatePool;
  if negb ok then ret (STATUS_HEAP_NO_MORE_MEMORY, None) else
  '(status, partitionCount', L) ← _DiskRetrievePartitionsFromDiskStartingAtOffset fuel 0 false 0 0
      (Some (replicate (Z.to_nat partitionCount) empty_partition));
  if negb (SUCCEEDED status) then ret (status, None) else
  ret (status, match L with Some a => Some (partitionCount', a) | None => None end).

(** * Lemmas on ranges of bytes *)
Lemma length_read_range d off n : Z.of_nat (length (read_range d off n)) = Z.max 0 n.
Proof. unfold read_range. rewrite length_fmap, length_seqZ. lia. Qed.

Lemma read_range_lookup d off n i : (i < Z.to_nat n)%nat -> read_range d off n !! i = Some (d (off + Z.of_nat i)).
Proof.
  intros H. unfold read_range. rewrite list_lookup_fmap, lookup_seqZ_lt by lia. done.
Qed.

Lemma read_range_ext d d' off off' n : (forall i, 0 <= i < n -> d (off + i) = d' (off' + i)) ->
  read_range d off n = read_range d' off' n.
Proof.
  intros H. apply list_eq. intros i. destruct (decide (i < Z.to_nat n)%nat).
  - rewrite !read_range_lookup by lia. f_equal. apply H. lia.
  - rewrite !lookup_ge_None_2; [done| |]; unfold read_range; rewrite length_fmap, length_seqZ; lia.
Qed.

Lemma read_range_app d off n m : 0 <= n -> 0 <= m ->
  read_range d off n ++ read_range d (off + n) m = read_range d off (n + m).
Proof. intros. unfold read_range. by rewrite seqZ_app, fmap_app by lia. Qed.

Lemma read_range_nil d off : read_range d off 0 = [].
Proof. done. Qed.

Lemma read_range_sub d off n k m : 0 <= k -> 0 <= m -> k + m <= n ->
  take (Z.to_nat m) (drop (Z.to_nat k) (read_range d off n)) = read_range d (off + k) m.
Proof.
  intros. apply list_eq. intros i. destruct (decide (i < Z.to_nat m)%nat).
  - rewrite lookup_take_lt, lookup_drop, !read_range_lookup by lia. do 2 f_equal. lia.
  - rewrite lookup_take_ge by lia. symmetry. apply lookup_ge_None_2.
    unfold read_range. rewrite length_fmap, length_seqZ. lia.
Qed.

Lemma write_range_in d off bs i b : bs !! i = Some b -> write_range d off bs (off + Z.of_nat i) = b.
Proof.
  intros H. unfold write_range, zget. rewrite decide_True by lia.
  by replace (Z.to_nat (off + Z.of_nat i - off)) with i by lia; rewrite H.
Qed.

Lemma write_range_out d off bs a : a < off \/ off + Z.of_nat (length bs) <= a -> write_range d off bs a = d a.
Proof.
  intros H. unfold write_range. destruct H as [H|H].
  - unfold zget. by rewrite decide_False by lia.
  - by rewrite zget_ge by lia.
Qed.

Lemma read_write_range d off bs : read_range (write_range d off bs) off (Z.of_nat (length bs)) = bs.
Proof.
  apply list_eq. intros i. destruct (bs !! i) as [b|] eqn:E.
  - pose proof (lookup_lt_Some _ _ _ E). rewrite read_range_lookup by lia. f_equal. by apply write_range_in.
  - apply lookup_ge_None_1 in E. apply lookup_ge_None_2. unfold read_range. rewrite length_fmap, length_seqZ. lia.
Qed.

Lemma read_write_range_out d off bs p n : p + n <= off \/ off + Z.of_nat (length bs) <= p ->
  read_range (write_range d off bs) p n = read_range d p n.
Proof. intros H. apply read_range_ext. intros i Hi. apply write_range_out. lia. Qed.

Lemma get_bytes_run bs off n : 0 <= off -> off + n <= Z.of_nat (length bs) ->
  get_bytes bs off n = Ok (take (Z.to_nat n) (drop (Z.to_nat off) bs)).
Proof.
  intros. unfold get_bytes. rewrite (proj2 (Z.leb_le _ _)), (proj2 (Z.leb_le _ _)) by lia. done.
Qed.


(** * The stack on requests it accepts *)
Definition vol_ok (s : Storage) (vol : PARTITION_INFORMATION) : Prop :=
  Initialized s = true /\ 0 <= OffsetInDisk vol /\ 0 <= PartitionSize vol /\
  OffsetInDisk vol + PartitionSize vol <= TotalSectors s /\ TotalSectors s < LBA48_MAX_VALUE.
(** The bytes of a volume. *)
Definition vdisk (vol : PARTITION_INFORMATION) (s : Storage) : Z -> Z :=
  fun a => disk s (OffsetInDisk vol * SECTOR_SIZE + a).

Lemma sector_aligned a : is_qword a -> IsAddressAligned a SECTOR_SIZE = (a mod 512 =? 0).
Proof. intros. change SECTOR_SIZE with (2 ^ 9). rewrite IsAddressAligned_pow2 by lia. by rewrite u64_small. Qed.

Lemma SUCCEEDED_success : SUCCEEDED STATUS_SUCCESS = true.
Proof. reflexivity. Qed.

Lemma vol_check_run vol k n : 0 <= k -> 0 < n -> k + n <= PartitionSize vol -> PartitionSize vol < 2 ^ 64 ->
  _VolCheckIOParameters vol k n = STATUS_SUCCESS.
Proof.
  intros. unfold _VolCheckIOParameters. rewrite (proj2 (Z.leb_gt _ _)) by lia.
  unwrap. by rewrite (proj2 (Z.ltb_ge _ _)) by lia.
Qed.

Lemma ata_check_run s k n : Initialized s = true -> 0 <= k -> 0 < n -> k + n <= TotalSectors s ->
  TotalSectors s < LBA48_MAX_VALUE -> _AtaCheckIOParameters s k n = STATUS_SUCCESS.
Proof.
  intros Hi. intros. unfold _AtaCheckIOParameters, LBA48_MAX_VALUE in *. rewrite Hi. cbn [negb].
  rewrite !(proj2 (Z.leb_gt _ _)) by lia. unwrap. by rewrite (proj2 (Z.ltb_ge _ _)) by lia.
Qed.

Lemma ata_dispatch_run s w k n buf asy : Initialized s = true -> 0 <= k -> 0 < n <= MAX_WORD -> k + n <= TotalSectors s ->
  TotalSectors s < LBA48_MAX_VALUE ->
  AtaDispatchReadWrite (mkIRP w (n * SECTOR_SIZE) (k * SECTOR_SIZE) buf asy) s =
  ('(status, sectorsRead, data) ← AtaReadWriteSectors k n buf asy w;
   ret (mkIOSB status (sectorsRead * SECTOR_SIZE) data)) s.
Proof.
  intros Hi Hk Hn Hr Ht. unfold LBA48_MAX_VALUE, MAX_WORD in *. assert (HS : SECTOR_SIZE = 512) by done.
  unfold AtaDispatchReadWrite. cbn [irp_Length irp_Offset irp_Write irp_Buffer irp_Asynchronous].
  unfold _AtaCheckAlignment. rewrite !sector_aligned by rlia.
  rewrite HS, !Z.mod_mul, <- HS by lia. cbn [Z.eqb negb].
  rewrite SUCCEEDED_success. cbn [negb]. rewrite !(Z.div_mul _ SECTOR_SIZE) by (unfold SECTOR_SIZE; lia). unfold MAX_WORD.
  rewrite (proj2 (Z.ltb_ge _ _)) by lia.
  rewrite (bind_run _ _ _ STATUS_SUCCESS s).
  - rewrite SUCCEEDED_success. cbn [negb]. by rewrite u16_small by rlia.
  - unfold gets. rewrite u16_small by rlia. rewrite ata_check_run; try lia; done.
Qed.

Lemma vol_dispatch_run s vol w k n buf asy : vol_ok s vol -> 0 <= k -> 0 < n <= MAX_WORD -> k + n <= PartitionSize vol ->
  VolDispatchReadWrite vol (mkIRP w (n * SECTOR_SIZE) (k * SECTOR_SIZE) buf asy) s =
  ('(status, sectorsRead, data) ← AtaReadWriteSectors (k + OffsetInDisk vol) n buf asy w;
   ret (mkIOSB status (sectorsRead * SECTOR_SIZE) data)) s.
Proof.
  intros (Hi&Ho&Hs&Ht&Hl) Hk Hn Hr. unfold VolDispatchReadWrite.
  cbn [irp_Length irp_Offset irp_Write irp_Buffer irp_Asynchronous].
  rewrite !(Z.div_mul _ SECTOR_SIZE) by (unfold SECTOR_SIZE; lia).
  rewrite vol_check_run by (unfold LBA48_MAX_VALUE in *; lia). rewrite SUCCEEDED_success. cbn [negb].
  assert (u64 (u64 (k + OffsetInDisk vol) * SECTOR_SIZE) = (k + OffsetInDisk vol) * SECTOR_SIZE) as ->
    by (unfold SECTOR_SIZE, LBA48_MAX_VALUE in *; unwrap; done).
  unfold DiskDispatchReadWrite. apply ata_dispatch_run; done || lia.
Qed.

Lemma vol_range vol s off n : read_range (disk s) (OffsetInDisk vol * SECTOR_SIZE + off) n = read_range (vdisk vol s) off n.
Proof. apply read_range_ext. intros i Hi. unfold vdisk. f_equal. lia. Qed.

(** A read inside the volume delivers its bytes. *)
Lemma sectors_aligned vol s k n : vol_ok s vol -> 0 <= k -> 0 < n <= MAX_WORD -> k + n <= PartitionSize vol ->
  IsAddressAligned (n * SECTOR_SIZE) SECTOR_SIZE && IsAddressAligned (k * SECTOR_SIZE) SECTOR_SIZE = true.
Proof.
  intros (_&Ho&_&Ht&Hl) Hk Hn Hr. unfold LBA48_MAX_VALUE, MAX_WORD in *. assert (HS : SECTOR_SIZE = 512) by done.
  rewrite !sector_aligned by rlia. by rewrite HS, !Z.mod_mul by lia.
Qed.

Lemma IoReadDeviceEx_run s vol k n asy : vol_ok s vol -> 0 <= k -> 0 < n <= MAX_WORD -> k + n <= PartitionSize vol ->
  dma s = [] ->
  IoReadDeviceEx vol (n * SECTOR_SIZE) (k * SECTOR_SIZE) asy s =
  Ok ((STATUS_SUCCESS, n * SECTOR_SIZE, read_range (vdisk vol s) (k * SECTOR_SIZE) (n * SECTOR_SIZE)), s).
Proof.
  intros Hv Hk Hn Hr Hd. unfold IoReadDeviceEx, _IoReadWriteDevice. rewrite (sectors_aligned vol s k n Hv Hk Hn Hr). cbn [negb].
  erewrite bind_run; [|rewrite vol_dispatch_run by done].
  2: { unfold AtaReadWriteSectors. rewrite (proj2 (Z.eqb_neq 0 n)) by lia.
    erewrite bind_run; [|erewrite bind_run; [|by destruct asy; [unfold next_dma_status; rewrite Hd|]]].
    2: { rewrite SUCCEEDED_success. cbn [negb]. erewrite bind_run by done. reflexivity. }
    reflexivity. }
  cbn [io_Status io_Information io_Data]. rewrite <- vol_range. unfold ret. do 4 f_equal. unfold SECTOR_SIZE. lia.
Qed.

(** A write inside the volume replaces its bytes; the buffer can be longer. *)
Lemma IoWriteDeviceEx_run s vol k n buf asy : vol_ok s vol -> 0 <= k -> 0 < n <= MAX_WORD -> k + n <= PartitionSize vol ->
  dma s = [] -> n * SECTOR_SIZE <= Z.of_nat (length buf) ->
  exists s', IoWriteDeviceEx vol buf (n * SECTOR_SIZE) (k * SECTOR_SIZE) asy s = Ok ((STATUS_SUCCESS, n * SECTOR_SIZE), s') /\
    s' = with_disk (write_range (disk s) (OffsetInDisk vol * SECTOR_SIZE + k * SECTOR_SIZE)
                      (take (Z.to_nat (n * SECTOR_SIZE)) buf)) s.
Proof.
  intros Hv Hk Hn Hr Hd Hb. eexists. split; [|reflexivity]. unfold IoWriteDeviceEx, _IoReadWriteDevice.
  rewrite (sectors_aligned vol s k n Hv Hk Hn Hr). cbn [negb].
  erewrite bind_run; [|erewrite bind_run; [|rewrite vol_dispatch_run by done]].
  3: { unfold AtaReadWriteSectors. rewrite (proj2 (Z.eqb_neq 0 n)) by lia.
    erewrite bind_run; [|erewrite bind_run; [|by destruct asy; [unfold next_dma_status; rewrite Hd|]]].
    2: { rewrite SUCCEEDED_success. cbn [negb].
      erewrite bind_run; [|unfold lift; rewrite get_bytes_run by lia; reflexivity].
      erewrite bind_run by done. reflexivity. }
    reflexivity. }
  2: { cbn [io_Status io_Information io_Data]. reflexivity. }
  cbn [fst]. unfold ret. do 3 f_equal. rewrite drop_0. f_equal. unfold SECTOR_SIZE. lia.
Qed.

Lemma dma_spec s : wp next_dma_status (fun _ s' => disk s' = disk s) s.
Proof. unfold wp, next_dma_status. by destruct (dma s). Qed.

(** What a transfer does to the disk and reports, whether it succeeds or not. *)
Definition transfer_ok (w : bool) (lo hi len : Z) (s : Storage) (st info : Z) (s' : Storage) : Prop :=
  (forall a, a < lo \/ hi <= a -> disk s' a = disk s a) /\ (w = false -> disk s' = disk s) /\
  (if SUCCEEDED st then info = len else info = 0 /\ disk s' = disk s).

Lemma transfer_refused w lo hi len s st : SUCCEEDED st = false -> transfer_ok w lo hi len s st 0 s.
Proof. intros H. unfold transfer_ok. by rewrite H. Qed.

Lemma ata_rw_spec idx cnt buf asy w s : 0 <= cnt -> (w = true -> cnt * SECTOR_SIZE <= Z.of_nat (length buf)) ->
  wp (AtaReadWriteSectors idx cnt buf asy w)
     (fun r s' => transfer_ok w (idx * SECTOR_SIZE) ((idx + cnt) * SECTOR_SIZE) cnt s r.1.1 r.1.2 s') s.
Proof.
  intros Hc Hb. unfold AtaReadWriteSectors, SECTOR_SIZE in *.
  case_match; [wp_step; by apply transfer_refused|]. wp_step.
  apply (wp_mono _ (fun _ s' => disk s' = disk s)); [destruct asy; [apply dma_spec|by wp_step]|].
  intros st s1 Hs1. destruct (SUCCEEDED st) eqn:Es; cbn [negb].
  2: { wp_step. unfold transfer_ok. cbn [fst snd]. by rewrite Es, Hs1. }
  destruct w; repeat wp_step.
  - apply wp_lift. rewrite get_bytes_run by lia. cbn. repeat wp_step. rewrite Hs1. split_and!; [|done..].
    intros a Ha. cbn. apply write_range_out. rewrite length_take. lia.
  - unfold transfer_ok. cbn [fst snd]. by rewrite Hs1, SUCCEEDED_success.
Qed.

Lemma transfer_mono w lo hi lo' hi' len len' s st info info' s' : lo' <= lo -> hi <= hi' ->
  (SUCCEEDED st = true -> info = len -> info' = len') -> (info = 0 -> info' = 0) ->
  transfer_ok w lo hi len s st info s' -> transfer_ok w lo' hi' len' s st info' s'.
Proof.
  intros ?? Hi H0 (Ho&Hr&Hs). split_and!; [intros; apply Ho; lia|done|].
  destruct (SUCCEEDED st); [by apply Hi|naive_solver].
Qed.

Definition answered (w : bool) (lo hi len : Z) (s : Storage) (r : IO_STATUS) (s' : Storage) : Prop :=
  transfer_ok w lo hi len s (io_Status r) (io_Information r) s'.

Lemma wp_guard st (m : M Storage IO_STATUS) w lo hi len s :
  (SUCCEEDED st = true -> wp m (answered w lo hi len s) s) ->
  wp (if negb (SUCCEEDED st) then ret (mkIOSB st 0 []) else m) (answered w lo hi len s) s.
Proof.
  intros H. destruct (SUCCEEDED st) eqn:E; cbn [negb]; [by apply H|]. wp_step. by apply transfer_refused.
Qed.

Lemma vol_check_inv vol k n : 0 <= k -> is_dword (PartitionSize vol) ->
  SUCCEEDED (_VolCheckIOParameters vol k n) = true -> k + n <= PartitionSize vol /\ k < PartitionSize vol.
Proof.
  intros Hk Hp. unfold _VolCheckIOParameters. destruct (Z.leb_spec (PartitionSize vol) k); [done|].
  unwrap. destruct (Z.ltb_spec (PartitionSize vol - k) n); [done|lia].
Qed.

Lemma ata_align_inv len off : is_qword len -> SUCCEEDED (_AtaCheckAlignment len off) = true -> len = len / SECTOR_SIZE * SECTOR_SIZE.
Proof.
  intros Hl. unfold _AtaCheckAlignment. rewrite sector_aligned by done. unfold SECTOR_SIZE.
  destruct (Z.eqb_spec (len mod 512) 0); [|done]. intros _. pose proof (Z.div_mod len 512). lia.
Qed.

Lemma ata_dispatch_spec w len idx buf asy lo hi s : is_qword len -> is_dword idx -> lo <= idx * SECTOR_SIZE ->
  idx * SECTOR_SIZE + len / SECTOR_SIZE * SECTOR_SIZE <= hi -> (w = true -> len <= Z.of_nat (length buf)) ->
  wp (AtaDispatchReadWrite (mkIRP w len (idx * SECTOR_SIZE) buf asy)) (answered w lo hi len s) s.
Proof.
  intros Hl Hi Hlo Hhi Hb. unfold AtaDispatchReadWrite. cbn [irp_Length irp_Offset irp_Write irp_Buffer irp_Asynchronous].
  apply wp_guard. intros Hal%ata_align_inv; [|done].
  assert (0 <= len / SECTOR_SIZE) by (unfold SECTOR_SIZE; apply Z.div_pos; rlia).
  destruct (Z.ltb_spec MAX_WORD (len / SECTOR_SIZE)); [wp_step; by apply transfer_refused|].
  rewrite u16_small by rlia. rewrite (Z.div_mul _ SECTOR_SIZE) by (unfold SECTOR_SIZE; lia).
  wp_step. wp_step. apply wp_guard. intros _. wp_step.
  eapply wp_mono; [apply ata_rw_spec; [lia|intros Hw; specialize (Hb Hw); lia]|].
  intros [[st cnt] data] s' Ht. wp_step. revert Ht. unfold answered. cbn [io_Status io_Information fst snd].
  unfold SECTOR_SIZE in *. apply transfer_mono; lia.
Qed.

(** A request to a volume, whatever its length and offset: it returns, it changes no byte of the disk outside the
    partition, a read changes nothing, a refused request changes nothing and reports no bytes, an accepted one reports all of
    them. *)
Theorem volume_isolation vol Irp s : is_dword (OffsetInDisk vol) -> is_dword (PartitionSize vol) ->
  OffsetInDisk vol + PartitionSize vol < 2 ^ 32 -> is_qword (irp_Length Irp) -> is_qword (irp_Offset Irp) ->
  (irp_Write Irp = true -> irp_Length Irp <= Z.of_nat (length (irp_Buffer Irp))) ->
  wp (VolDispatchReadWrite vol Irp) (fun r s' =>
     transfer_ok (irp_Write Irp) (OffsetInDisk vol * SECTOR_SIZE) ((OffsetInDisk vol + PartitionSize vol) * SECTOR_SIZE)
       (irp_Length Irp) s (io_Status r) (io_Information r) s') s.
Proof.
  intros Ho Hp Hop Hl Hf Hb. unfold VolDispatchReadWrite. apply wp_guard. intros Hc.
  assert (0 <= irp_Offset Irp / SECTOR_SIZE) by (unfold SECTOR_SIZE; apply Z.div_pos; rlia).
  apply vol_check_inv in Hc as [Hc Hc']; [|done..].
  assert (u64 (u64 (irp_Offset Irp / SECTOR_SIZE + OffsetInDisk vol) * SECTOR_SIZE) =
    (irp_Offset Irp / SECTOR_SIZE + OffsetInDisk vol) * SECTOR_SIZE) as -> by (unfold SECTOR_SIZE in *; unwrap; done).
  unfold DiskDispatchReadWrite. apply ata_dispatch_spec; unfold SECTOR_SIZE in *; rlia || done.
Qed.

(** * The partition scan *)
Definition entry_valid (e : list Z) : bool := (mpe_Status e =? MBR_STATUS_ACTIVE) || (mpe_Status e =? MBR_STATUS_INACTIVE).
Definition entry_extended (e : list Z) : bool :=
  (mpe_PartitionType e =? MBR_PARTITION_EXTENDED_LBA) || (mpe_PartitionType e =? MBR_PARTITION_EXTENDED_CHS).
Definition entry_partition (DiskOffset : Z) (e : list Z) : PARTITION_INFORMATION :=
  mkPART (u32 (mpe_FirstSectorLBA e + DiskOffset)) (mpe_NumberOfSectors e) (mpe_PartitionType e)
    (mpe_Status e =? MBR_STATUS_ACTIVE).
Definition primary_partitions (DiskOffset : Z) (entries : list (list Z)) : list PARTITION_INFORMATION :=
  entry_partition DiskOffset <$> filter (fun e => entry_valid e = true) entries.

Section Scan.
Context (again : Z -> bool -> Z -> Z -> layout_t -> scan_t) (off : Z).

Lemma scan_entries_cons ext first c L e es s : ext && (Z.of_nat (length e) =? memscan e 0) = false ->
  scan_entries again off ext first c L (e :: es) s =
  (if entry_valid e then
     if entry_extended e then
       again (u32 (mpe_FirstSectorLBA e + first)) true (if ext then first else mpe_FirstSectorLBA e) c L s
     else (L' ← lift (add_partition c (entry_partition off e) L);
           scan_entries again off ext first (u32 (c + 1)) L' es) s
   else scan_entries again off ext first c L es s).
Proof.
  intros H. cbn [scan_entries]. rewrite H. unfold entry_valid, entry_extended, entry_partition.
  destruct (mpe_Status e =? MBR_STATUS_ACTIVE), (mpe_Status e =? MBR_STATUS_INACTIVE); cbn [negb andb orb]; [..|done];
    destruct (_ || _); done.
Qed.

Lemma scan_count es : forall c s, (forall e, e ∈ es -> entry_valid e = true -> entry_extended e = false) ->
  0 <= c -> c + Z.of_nat (length es) < 2 ^ 32 ->
  scan_entries again off false 0 c None es s =
  Ok ((STATUS_SUCCESS, c + Z.of_nat (length (primary_partitions off es)), None), s).
Proof.
  unfold primary_partitions.
  induction es as [|e es IH]; intros c s Hx Hc Hl; [cbn; unfold ret; by rewrite Z.add_0_r|].
  rewrite scan_entries_cons by done. rewrite filter_cons. cbn [length] in Hl.
  assert (forall e', e' ∈ es -> entry_valid e' = true -> entry_extended e' = false) by (intros; apply Hx; set_solver).
  case_decide as Hv.
  - rewrite Hv, Hx by (done || set_solver). erewrite bind_run by reflexivity.
    rewrite u32_small by rlia. rewrite IH by (done || lia). cbn. do 4 f_equal. lia.
  - apply not_true_is_false in Hv. rewrite Hv, IH by (done || lia). done.
Qed.

Lemma zset_app_middle {A} (pre suf : list A) x y :
  zset (pre ++ x :: suf) (Z.of_nat (length pre)) y = Some (pre ++ y :: suf).
Proof.
  rewrite zset_lt by (rewrite length_app; simpl; lia). rewrite Nat2Z.id, insert_app_r_alt, Nat.sub_diag by lia. done.
Qed.

Lemma scan_fill es : forall pre s, (forall e, e ∈ es -> entry_valid e = true -> entry_extended e = false) ->
  Z.of_nat (length pre) + Z.of_nat (length es) < 2 ^ 32 ->
  scan_entries again off false 0 (Z.of_nat (length pre))
    (Some (pre ++ replicate (length (primary_partitions off es)) empty_partition)) es s =
  Ok ((STATUS_SUCCESS, Z.of_nat (length pre + length (primary_partitions off es)), Some (pre ++ primary_partitions off es)), s).
Proof.
  unfold primary_partitions.
  induction es as [|e es IH]; intros pre s Hx Hl; [cbn; unfold ret; by rewrite app_nil_r, Nat.add_0_r|].
  rewrite scan_entries_cons by done. rewrite filter_cons. cbn [length] in Hl.
  assert (forall e', e' ∈ es -> entry_valid e' = true -> entry_extended e' = false) by (intros; apply Hx; set_solver).
  case_decide as Hv.
  - rewrite Hv, Hx by (done || set_solver). cbn [fmap list_fmap length replicate].
    erewrite bind_run; [|unfold add_partition; rewrite zset_app_middle; reflexivity].
    rewrite u32_small by rlia. specialize (IH (pre ++ [entry_partition off e]) s).
    rewrite length_app, <- !(assoc_L (++)) in IH. cbn [length app] in IH.
    replace (Z.of_nat (length pre) + 1) with (Z.of_nat (length pre + 1)) by lia.
    rewrite IH by (done || lia). do 4 f_equal. lia.
  - apply not_true_is_false in Hv. rewrite Hv, IH by (done || lia). done.
Qed.
End Scan.

Definition sector (s : Storage) (k : Z) : list Z := read_range (disk s) (k * SECTOR_SIZE) SECTOR_SIZE.

Lemma DiskRead_run s k : Initialized s = true -> 0 <= k < TotalSectors s -> TotalSectors s < LBA48_MAX_VALUE ->
  _DiskRead k 1 false s = Ok ((STATUS_SUCCESS, 1, sector s k), s).
Proof.
  intros Hi Hk Ht. unfold _DiskRead.
  assert (2 ^ 50 <= MAX_QWORD / SECTOR_SIZE) by (apply Z.leb_le; reflexivity).
  rewrite (proj2 (Z.leb_gt _ _)) by (unfold LBA48_MAX_VALUE in *; lia).
  assert (u64 (k * SECTOR_SIZE) = k * SECTOR_SIZE) as -> by (unfold SECTOR_SIZE, LBA48_MAX_VALUE in *; unwrap; done).
  unfold DiskDispatchReadWrite. erewrite bind_run; [|rewrite ata_dispatch_run; (done || lia || reflexivity)]. reflexivity.
Qed.

Definition disk_ready (s : Storage) : Prop :=
  Initialized s = true /\ 0 < TotalSectors s < LBA48_MAX_VALUE /\ pool s = [].

(** The scan of one sector, once it has been read. *)
Lemma scan_sector_run fuel off ext first c L s : disk_ready s -> 0 <= off < TotalSectors s ->
  xorb ext (0 =? first) = true -> mbr_BootSignature (sector s off) = MBR_BOOT_SIGNATURE ->
  _DiskRetrievePartitionsFromDiskStartingAtOffset (S fuel) off ext first c L s =
  scan_entries (_DiskRetrievePartitionsFromDiskStartingAtOffset fuel) off ext first c L
    (mbr_entry (sector s off) <$> seqZ 0 (if ext then MBR_EXT_PARTITION_NO_OF_ENTRIES else MBR_NO_OF_PARTITIONS)) s.
Proof.
  intros (Hi&Ht&Hp) Ho Hx Hsig. cbn [_DiskRetrievePartitionsFromDiskStartingAtOffset].
  rewrite (bind_run _ _ _ _ _ (ASSERT_run _ _ Hx)).
  erewrite bind_run; [|unfold ExAllocatePool; rewrite Hp; reflexivity]. cbn [negb].
  erewrite bind_run; [|apply DiskRead_run; done || lia].
  cbv beta iota. rewrite SUCCEEDED_success. cbn [negb]. rewrite (bind_run _ _ _ tt s) by done. by rewrite Hsig.
Qed.

(** On a disk whose boot record has no extended partition, the layout is exactly the sequence of its entries with a
    valid status, in their order, each with its first sector, size and type. *)
Theorem disk_primary_partitions fuel s :
  let entries := mbr_entry (sector s 0) <$> seqZ 0 MBR_NO_OF_PARTITIONS in
  disk_ready s -> mbr_BootSignature (sector s 0) = MBR_BOOT_SIGNATURE ->
  (forall e, e ∈ entries -> entry_valid e = true -> entry_extended e = false) ->
  _DiskRetrievePartitionsFromDisk (S fuel) s =
  Ok ((STATUS_SUCCESS, Some (Z.of_nat (length (primary_partitions 0 entries)), primary_partitions 0 entries)), s).
Proof.
  intros entries Hr Hsig Hx. pose proof Hr as (Hi&Ht&Hp). unfold _DiskRetrievePartitionsFromDisk.
  assert (length entries = 4%nat) by done.
  erewrite bind_run; [|rewrite scan_sector_run; [apply scan_count|..]; done || lia].
  fold entries. cbv beta iota. rewrite SUCCEEDED_success. cbn [negb]. erewrite bind_run; [|unfold ExAllocatePool; rewrite Hp; reflexivity]. cbn [negb].
  erewrite bind_run; [|rewrite scan_sector_run; [|done || lia..]].
  2: { fold entries. rewrite Z.add_0_l, Nat2Z.id. apply (scan_fill _ 0 entries [] s); [done|cbn; lia]. }
  done.
Qed.

(** A disk whose extended partition continues in its own first sector. *)
Definition disk_of_bytes (l : list (Z * Z)) : Z -> Z :=
  fun a => foldr (fun p r => if p.1 =? a then p.2 else r) 0 l.
Definition extended_entry (base lba : Z) : list (Z * Z) :=
  [(base, MBR_STATUS_ACTIVE); (base + 4, MBR_PARTITION_EXTENDED_LBA); (base + 8, lba); (base + 12, 100)].
Definition cyclic_disk : Storage :=
  mkStorage (disk_of_bytes (extended_entry 446 1 ++ [(510, 0x55); (511, 0xAA)] ++
                            extended_entry (512 + 446) 0 ++ [(512 + 510, 0x55); (512 + 511, 0xAA)]))
    true 4096 [] [].

Lemma cyclic_extended fuel c L :
  _DiskRetrievePartitionsFromDiskStartingAtOffset fuel 1 true 1 c L cyclic_disk = Err NoFuel.
Proof.
  revert c L. induction fuel as [|fuel IH]; intros c L; [done|].
  rewrite scan_sector_run by (done || split_and!; done). cbn [seqZ].
  change (seqZ 0 MBR_EXT_PARTITION_NO_OF_ENTRIES) with [0; 1]. cbn [fmap list_fmap].
  rewrite scan_entries_cons by (vm_compute; reflexivity).
  replace (entry_valid (mbr_entry (sector cyclic_disk 1) 0)) with true by (vm_compute; reflexivity).
  replace (entry_extended (mbr_entry (sector cyclic_disk 1) 0)) with true by (vm_compute; reflexivity).
  replace (u32 (mpe_FirstSectorLBA (mbr_entry (sector cyclic_disk 1) 0) + 1)) with 1 by (vm_compute; reflexivity).
  apply IH.
Qed.

(** The recursion through extended partitions has no bound of its own: on a disk whose extended partition
    refers to itself the scan returns for no recursion depth. *)
Theorem disk_partition_cycle fuel : _DiskRetrievePartitionsFromDisk fuel cyclic_disk = Err NoFuel.
Proof.
  destruct fuel as [|fuel]; [done|]. unfold _DiskRetrievePartitionsFromDisk. unfold mbind, M_bind.
  rewrite scan_sector_run by (done || split_and!; done).
  change (seqZ 0 MBR_NO_OF_PARTITIONS) with [0; 1; 2; 3]. cbn [fmap list_fmap].
  rewrite scan_entries_cons by (vm_compute; reflexivity).
  replace (entry_valid (mbr_entry (sector cyclic_disk 0) 0)) with true by (vm_compute; reflexivity).
  replace (entry_extended (mbr_entry (sector cyclic_disk 0) 0)) with true by (vm_compute; reflexivity).
  replace (u32 (mpe_FirstSectorLBA (mbr_entry (sector cyclic_disk 0) 0) + 0)) with 1 by (vm_compute; reflexivity).
  replace (mpe_FirstSectorLBA (mbr_entry (sector cyclic_disk 0) 0)) with 1 by (vm_compute; reflexivity).
  by rewrite cyclic_extended.
Qed.

(** * The two passes of the scan *)
Definition same_dev (s s' : Storage) : Prop :=
  disk s' = disk s /\ Initialized s' = Initialized s /\ TotalSectors s' = TotalSectors s.

Lemma DiskRead_dev s k : exists r, forall s', same_dev s s' -> _DiskRead k 1 false s' = Ok (r, s').
Proof.
  unfold _DiskRead. case_match; [by eexists|]. unfold DiskDispatchReadWrite, AtaDispatchReadWrite.
  cbn [irp_Length irp_Offset irp_Write irp_Buffer irp_Asynchronous].
  destruct (SUCCEEDED (_AtaCheckAlignment _ _)); cbn [negb]; [|by eexists].
  change (1 * SECTOR_SIZE / SECTOR_SIZE) with 1. change (MAX_WORD <? 1) with false. change (u16 1) with 1. cbv iota.
  set (idx := u64 (k * SECTOR_SIZE) / SECTOR_SIZE).
  assert (forall s', same_dev s s' -> _AtaCheckIOParameters s' idx 1 = _AtaCheckIOParameters s idx 1) as Hc.
  { intros s' (_&Hi&Ht). unfold _AtaCheckIOParameters. by rewrite Hi, Ht. }
  destruct (SUCCEEDED (_AtaCheckIOParameters s idx 1)) eqn:E.
  - exists (STATUS_SUCCESS, 1, read_range (disk s) (idx * SECTOR_SIZE) (1 * SECTOR_SIZE)). intros s' Hs.
    rewrite (bind_run _ _ s' (mkIOSB STATUS_SUCCESS (1 * SECTOR_SIZE) (read_range (disk s) (idx * SECTOR_SIZE) (1 * SECTOR_SIZE))) s'); [reflexivity|]. erewrite bind_run by (unfold gets; rewrite Hc by done; reflexivity).
    rewrite E. cbn [negb]. rewrite <- (proj1 Hs). reflexivity.
  - exists (_AtaCheckIOParameters s idx 1, 0, []). intros s' Hs.
    rewrite (bind_run _ _ s' (mkIOSB (_AtaCheckIOParameters s idx 1) 0 []) s'); [reflexivity|]. erewrite bind_run by (unfold gets; rewrite Hc by done; reflexivity).
    rewrite E. reflexivity.
Qed.

(** [r1] is the counting pass and [r2] the filling pass, on an array of [len] cells. *)
Definition passes (c len : Z) (s1 s2 : Storage) (r1 r2 : outcome (Z * Z * layout_t * Storage)) : Prop :=
  match r1 with
  | Ok ((st1, n1, _), s1') => same_dev s1 s1' /\ (SUCCEEDED st1 = true -> c <= n1 /\ (n1 <= len ->
      match r2 with
      | Ok ((_, n2, L2), s2') =>
          c <= n2 <= n1 /\ (exists a, L2 = Some a /\ Z.of_nat (length a) = len) /\ same_dev s2 s2'
      | Err e => e <> MemFault
      end))
  | Err _ => True
  end.

Lemma passes_stop c len s1 s2 st a : Z.of_nat (length a) = len ->
  passes c len s1 s2 (Ok ((st, c, None), s1)) (Ok ((st, c, Some a), s2)).
Proof. intros. cbn. split; [done|]. intros _. split; [lia|]. intros _. split_and!; try lia; [by exists a|done..]. Qed.

Lemma scan_entries_passes again off ext first B : 0 <= B ->
  (forall off' first' c a s1 s2, 0 <= c -> c + B < 2 ^ 32 -> same_dev s1 s2 ->
     passes c (Z.of_nat (length a)) s1 s2 (again off' true first' c None s1) (again off' true first' c (Some a) s2)) ->
  forall es c a s1 s2, 0 <= c -> c + Z.of_nat (length es) + B < 2 ^ 32 -> same_dev s1 s2 ->
  passes c (Z.of_nat (length a)) s1 s2 (scan_entries again off ext first c None es s1)
    (scan_entries again off ext first c (Some a) es s2).
Proof.
  intros HB Hagain. induction es as [|e es IH]; intros c a s1 s2 Hc Hb Hs; [by apply passes_stop|].
  destruct (ext && (Z.of_nat (length e) =? memscan e 0)) eqn:Ez.
  { cbn [scan_entries]. rewrite Ez. by apply passes_stop. }
  rewrite !scan_entries_cons by done. cbn [length] in Hb.
  destruct (entry_valid e); [|apply IH; done || lia].
  destruct (entry_extended e); [apply Hagain; done || lia|].
  erewrite bind_run by reflexivity. rewrite u32_small by rlia.
  destruct (zset a c (entry_partition off e)) as [a'|] eqn:Ea.
  - erewrite bind_run by (unfold add_partition; rewrite Ea; reflexivity).
    specialize (IH (c + 1) a' s1 s2). rewrite (zset_length _ _ _ _ Ea) in IH.
    assert (Hp := IH ltac:(lia) ltac:(lia) Hs). revert Hp. unfold passes.
    repeat case_match; try done; intros (?&Hp); (split; [done|]); intros Hst; destruct (Hp Hst) as [? Hq];
      (split; [lia|]); intros Hn; specialize (Hq Hn); (done || (destruct Hq as (?&?&?); split_and!; done || lia)).
  - assert (Z.of_nat (length a) <= c) as Hca.
    { destruct (decide (c < Z.of_nat (length a))); [|lia]. rewrite zset_lt in Ea by lia. done. }
    assert (Hp := IH (c + 1) a s1 s2 ltac:(lia) ltac:(lia) Hs). revert Hp. unfold passes.
    destruct (scan_entries _ _ _ _ _ None _ _) as [[[[st n] L] s']|]; [|done].
    intros (?&Hp). split; [done|]. intros Hst. destruct (Hp Hst). split; [lia|]. intros. lia.
Qed.

Lemma alloc_dev s : exists b s', ExAllocatePool s = Ok (b, s') /\ same_dev s s'.
Proof. unfold ExAllocatePool. destruct (pool s); do 2 eexists; (split; [reflexivity|done]). Qed.

Lemma passes_dev t1 t2 c len s1 s2 r1 r2 : same_dev s1 t1 -> same_dev s2 t2 -> passes c len t1 t2 r1 r2 -> passes c len s1 s2 r1 r2.
Proof.
  intros D1 D2. unfold passes. destruct r1 as [[[[st1 n1] L1] s1']|]; [|done]. intros (D3&H).
  split; [unfold same_dev in *; naive_solver congruence|]. intros Hst. destruct (H Hst) as [Hc Hr]. split; [done|].
  intros Hn. specialize (Hr Hn). destruct r2 as [[[[st2 n2] L2] s2']|]; [|done].
  destruct Hr as (?&?&?). split_and!; try done; unfold same_dev in *; naive_solver congruence.
Qed.

Lemma scan_passes fuel : forall off ext first c a s1 s2,
  0 <= c -> c + 4 * Z.of_nat fuel < 2 ^ 32 -> same_dev s1 s2 ->
  passes c (Z.of_nat (length a)) s1 s2
    (_DiskRetrievePartitionsFromDiskStartingAtOffset fuel off ext first c None s1)
    (_DiskRetrievePartitionsFromDiskStartingAtOffset fuel off ext first c (Some a) s2).
Proof.
  induction fuel as [|fuel IH]; intros off ext first c a s1 s2 Hc Hb Hs; [done|].
  cbn [_DiskRetrievePartitionsFromDiskStartingAtOffset].
  destruct (xorb ext (0 =? first)) eqn:Hx; [|done].
  rewrite !(bind_run _ _ _ _ _ (ASSERT_run _ _ eq_refl)).
  destruct (alloc_dev s1) as (b1&t1&E1&D1), (alloc_dev s2) as (b2&t2&E2&D2).
  rewrite (bind_run _ _ _ _ _ E1), (bind_run _ _ _ _ _ E2).
  destruct b1; cbn [negb]; [|by split]. destruct (DiskRead_dev s1 off) as [[[st n] mbr] Hr].
  assert (same_dev s1 t2) as D3 by (unfold same_dev in *; naive_solver congruence).
  rewrite (bind_run _ _ _ _ _ (Hr t1 D1)). destruct b2; cbn [negb].
  - rewrite (bind_run _ _ _ _ _ (Hr t2 D3)). cbv beta iota.
    destruct (SUCCEEDED st) eqn:Es; cbn [negb]; [|by split; [|rewrite Es]].
    destruct (1 =? n); [|done]. rewrite !(bind_run _ _ _ _ _ (ASSERT_run _ _ eq_refl)).
    destruct (MBR_BOOT_SIGNATURE =? mbr_BootSignature mbr); cbn [negb]; [|by split].
    apply (passes_dev t1 t2); [done..|]. apply (scan_entries_passes _ _ _ _ (4 * Z.of_nat fuel)); [lia| |lia| |].
    + intros. apply IH; done || lia.
    + rewrite length_fmap, length_seqZ. destruct ext; unfold MBR_EXT_PARTITION_NO_OF_ENTRIES, MBR_NO_OF_PARTITIONS; lia.
    + unfold same_dev in *. naive_solver congruence.
  - cbv beta iota. destruct (SUCCEEDED st) eqn:Es; cbn [negb]; [|by split; [|rewrite Es]].
    destruct (1 =? n); [|done]. rewrite !(bind_run _ _ _ _ _ (ASSERT_run _ _ eq_refl)).
    destruct (MBR_BOOT_SIGNATURE =? mbr_BootSignature mbr); cbn [negb]; [|by split].
    assert (Hp := scan_entries_passes (_DiskRetrievePartitionsFromDiskStartingAtOffset fuel) off ext first (4 * Z.of_nat fuel)).
    set (es := mbr_entry mbr <$> _) in *.
    specialize (Hp ltac:(lia) ltac:(intros; apply IH; done || lia) es c a t1 t1 Hc
      ltac:(unfold es; rewrite length_fmap, length_seqZ; destruct ext;
        unfold MBR_EXT_PARTITION_NO_OF_ENTRIES, MBR_NO_OF_PARTITIONS; lia) ltac:(done)). revert Hp. unfold passes.
    destruct (scan_entries _ _ _ _ _ None _ _) as [[[[st1 n1] L1] u]|]; [|done]. intros (Hu&Hp).
    split; [unfold same_dev in *; naive_solver congruence|]. intros Hst. destruct (Hp Hst) as [Hn _].
    split; [done|]. intros _. split_and!; [lia..|by eexists|done].
Qed.

(** The counting pass writes nothing, so it cannot fault. *)
Definition no_fault {A} (r : outcome A) : Prop := match r with Err e => e <> MemFault | Ok _ => True end.

Lemma scan_entries_no_fault again off ext first es : (forall o f c s, no_fault (again o true f c None s)) ->
  forall c s, no_fault (scan_entries again off ext first c None es s).
Proof.
  intros Ha. induction es as [|e es IH]; intros c s; [done|].
  destruct (ext && (Z.of_nat (length e) =? memscan e 0)) eqn:Ez; [cbn [scan_entries]; by rewrite Ez|].
  rewrite scan_entries_cons by done. destruct (entry_valid e); [|apply IH]. destruct (entry_extended e); [apply Ha|].
  erewrite bind_run by reflexivity. apply IH.
Qed.

Lemma scan_no_fault fuel : forall off ext first c s,
  no_fault (_DiskRetrievePartitionsFromDiskStartingAtOffset fuel off ext first c None s).
Proof.
  induction fuel as [|fuel IH]; intros off ext first c s; [done|]. cbn [_DiskRetrievePartitionsFromDiskStartingAtOffset].
  destruct (xorb ext (0 =? first)); [|done]. rewrite (bind_run _ _ _ _ _ (ASSERT_run _ _ eq_refl)).
  destruct (alloc_dev s) as (b&t&E&D). rewrite (bind_run _ _ _ _ _ E). destruct b; cbn [negb]; [|done].
  destruct (DiskRead_dev s off) as [[[st n] mbr] Hr]. rewrite (bind_run _ _ _ _ _ (Hr t D)). cbv beta iota.
  destruct (SUCCEEDED st); cbn [negb]; [|done]. destruct (1 =? n); [|done].
  rewrite (bind_run _ _ _ _ _ (ASSERT_run _ _ eq_refl)). case_match; [done|]. apply scan_entries_no_fault. auto.
Qed.


(** Reading a range, changing a part of it and writing it back changes that part. *)
Lemma put_bytes_run bs k new : 0 <= k -> k + Z.of_nat (length new) <= Z.of_nat (length bs) ->
  exists bs', put_bytes bs k new = Ok bs' /\ length bs' = length bs /\
    forall i, bs' !! i = if decide (k <= Z.of_nat i < k + Z.of_nat (length new)) then new !! (i - Z.to_nat k)%nat else bs !! i.
Proof.
  intros Hk Hl. unfold put_bytes. rewrite !(proj2 (Z.leb_le _ _)) by lia. cbn [andb].
  eexists. split; [done|]. split.
  - rewrite !length_app, length_take, length_drop. lia.
  - intros i. case_decide.
    + rewrite lookup_app_r by (rewrite length_take; lia). rewrite length_take, lookup_app_l by lia. f_equal. lia.
    + destruct (decide (Z.of_nat i < k)).
      * rewrite lookup_app_l by (rewrite length_take; lia). by rewrite lookup_take_lt by lia.
      * rewrite lookup_app_r by (rewrite length_take; lia). rewrite lookup_app_r by (rewrite length_take; lia).
        rewrite lookup_drop, length_take. f_equal. lia.
Qed.

Lemma write_back d off n k new bs' a : put_bytes (read_range d off n) k new = Ok bs' -> 0 <= k ->
  k + Z.of_nat (length new) <= n -> write_range d off bs' a = write_range d (off + k) new a.
Proof.
  intros Hp Hk Hn. pose proof (length_read_range d off n) as Hlr.
  destruct (put_bytes_run (read_range d off n) k new Hk ltac:(lia)) as (bs2&E2&Hl&Hlk).
  rewrite Hp in E2. injection E2 as <-.
  destruct (decide (a < off \/ off + n <= a)) as [Ho|Hi].
  - rewrite !write_range_out by lia. done.
  - assert (Z.to_nat (a - off) < length bs')%nat as Hlt by lia.
    destruct (lookup_lt_is_Some_2 _ _ Hlt) as [b Hb].
    replace a with (off + Z.of_nat (Z.to_nat (a - off))) at 1 by lia. rewrite (write_range_in _ _ _ _ _ Hb).
    rewrite Hlk in Hb. case_decide as Hd.
    + replace a with (off + k + Z.of_nat (Z.to_nat (a - off) - Z.to_nat k)) by lia. by rewrite (write_range_in _ _ _ _ _ Hb).
    + rewrite read_range_lookup in Hb by lia. injection Hb as <-. rewrite write_range_out by lia. f_equal. lia.
Qed.

Lemma vdisk_write vol s off bs a :
  vdisk vol (with_disk (write_range (disk s) (OffsetInDisk vol * SECTOR_SIZE + off) bs) s) a =
  write_range (vdisk vol s) off bs a.
Proof.
  unfold vdisk, with_disk, write_range. cbn [disk]. f_equal. f_equal. lia.
Qed.

(** * Examples *)
Definition plain_disk : Storage :=
  mkStorage (disk_of_bytes [(446, MBR_STATUS_ACTIVE); (450, 0xC); (454, 64); (459, 2); (510, 0x55); (511, 0xAA)]) true 4096 [] [].

Lemma volume_isolation_witness :
  wp (VolDispatchReadWrite (mkPART 64 512 0xC true) (mkIRP true 512 0 (replicate 512 1) false))
    (fun r s' => transfer_ok true (64 * SECTOR_SIZE) (576 * SECTOR_SIZE) 512 plain_disk (io_Status r) (io_Information r) s') plain_disk.
Proof. apply (volume_isolation (mkPART 64 512 0xC true)); cbn; rlia. Defined.

Lemma disk_primary_partitions_witness :
  _DiskRetrievePartitionsFromDisk 1 plain_disk =
  Ok ((STATUS_SUCCESS, Some (4, [mkPART 64 512 0xC true; empty_partition; empty_partition; empty_partition])), plain_disk).
Proof.
  pose proof (disk_primary_partitions 0 plain_disk) as H. cbv zeta in H. rewrite H.
  - vm_compute. reflexivity.
  - split; [done|]. split; [|done]. unfold LBA48_MAX_VALUE. cbn. lia.
  - vm_compute. reflexivity.
  - intros e He. change (seqZ 0 MBR_NO_OF_PARTITIONS) with [0; 1; 2; 3] in He. cbn [fmap list_fmap] in He.
    repeat (apply elem_of_cons in He as [->|He]; [vm_compute; done|]). by apply not_elem_of_nil in He.
Defined.

