(* ===== verification/Fat.v ===== *)
(** FAT32/src/fat_utils.c (clusters and the file allocation table) and FatInitVolume of fat_operations.c, on a volume
    of [Storage].

    A function that returns a STATUS and one result through a pointer returns [inl status] when it fails and
    [inr result] when it succeeds; the result of a failed call is used by no caller.  [x ⇐ m; k] goes on with
    [k] when [m] succeeds and returns its status otherwise, as the early returns and [__leave] of the source do. *)
From S2P Require Import Prelude IntUtils Storage.

Definition STATUS_UNSUCCESSFUL : Z := error_status GENERAL_MASK 0x0003.
Definition STATUS_DISK_FULL : Z := error_status DISK_MASK 0x0002.
Definition STATUS_DEVICE_FILESYSTEM_UNSUPPORTED : Z := error_status DEVICE_MASK 0x000C.
Definition STATUS_DEVICE_CLUSTER_INVALID : Z := error_status DEVICE_MASK 0x000D.

Definition FAT32_CLUSTER_MASK : Z := 0x0FFFFFFF.
Definition FAT32_EOC_MARK : Z := 0x0FFFFFFF.
Definition FAT32_BAD_CLUSTER : Z := 0x0FFFFFF7.
Definition FAT32_EOC (cluster : Z) : bool := FAT32_BAD_CLUSTER <? cluster.
Definition FAT32_UNKNOWN : Z := 0xFFFFFFFF.
Definition FAT12_MAX_CLUSTERS : Z := 4085.
Definition FAT16_MAX_CLUSTERS : Z := 65525.
Definition SIZEOF_FAT32_ENTRY : Z := 4.
Definition SIZEOF_DIR_ENTRY : Z := 32.
Definition SIZEOF_FSINFO : Z := 512.

Record FAT_DATA := mkFAT {
  CountOfClusters : Z; RootDirectoryStartSector : Z; ReservedSectors : Z; FirstDataSector : Z;
  SectorsPerCluster : Z; BytesPerSector : Z; EntriesPerSector : Z; AllocationSize : Z }.

(** * Failing code *)
Abbreviation E A := (M Storage (Z + A)).
Definition eret {A} (a : A) : E A := ret (inr a).
Definition efail {A} (status : Z) : E A := ret (inl status).
Definition ebind {A B} (m : E A) (k : A -> E B) : E B :=
  r ← m; match r with inl st => ret (inl st) | inr a => k a end.
Notation "x ⇐ m ; k" := (ebind m (fun x => k)) (at level 20, m at level 100, k at level 200, right associativity).
Notation "' p ⇐ m ; k" := (ebind m (fun x => match x with p => k end))
  (at level 20, p pattern, m at level 100, k at level 200, right associativity).

(** Unsigned division of the source. *)
Definition cdiv (a b : Z) : outcome Z := if b =? 0 then Err DivideError else Ok (a / b).
Definition cmod (a b : Z) : outcome Z := if b =? 0 then Err DivideError else Ok (a mod b).

Section Fat.
(** The volume and the alignment its device requires. *)
Context (vol : PARTITION_INFORMATION).

Definition pool_alloc : E unit :=
  ok ← ExAllocatePool; if ok : bool then eret tt else efail STATUS_HEAP_NO_MORE_MEMORY.

(** A request followed by the test of its status and the assertion on the number of bytes. *)
Definition dev_read (Length Offset expected : Z) (Asynchronous : bool) : E (list Z) :=
  '(status, bytes, data) ← IoReadDeviceEx vol Length Offset Asynchronous;
  if negb (SUCCEEDED status) then efail status else
  _ ← ASSERT (bytes =? expected); eret data.
Definition dev_write (Buffer : list Z) (Length Offset expected : Z) (Asynchronous : bool) : E unit :=
  '(status, bytes) ← IoWriteDeviceEx vol Buffer Length Offset Asynchronous;
  if negb (SUCCEEDED status) then efail status else
  _ ← ASSERT (bytes =? expected); eret tt.

(** * Clusters and sectors *)
Definition FirstSectorOfCluster (FatData : FAT_DATA) (Cluster : Z) : Z + Z :=
  if (u32 (CountOfClusters FatData + 1) <? Cluster) || (Cluster <? 2) then inl STATUS_DEVICE_CLUSTER_INVALID
  else inr (u64 (u64 (u64 (Cluster - 2) * SectorsPerCluster FatData) + FirstDataSector FatData)).

Definition ClusterOfSector (FatData : FAT_DATA) (Sector : Z) : outcome (Z + Z) :=
  q ← cdiv (u64 (Sector - FirstDataSector FatData)) (SectorsPerCluster FatData);
  let Cluster := u64 (q + 2) in
  Ok (if (u32 (CountOfClusters FatData + 1) <? Cluster) || (Cluster <? 2) then inl STATUS_DEVICE_CLUSTER_INVALID
      else inr Cluster).

(** * The file allocation table *)
(** The sector of the table that holds an entry, and the entry's index in it. *)
Definition fat_position (FatData : FAT_DATA) (Cluster : Z) : outcome (Z * Z) :=
  q ← cdiv (u64 (Cluster * SIZEOF_FAT32_ENTRY)) (BytesPerSector FatData);
  i ← cmod Cluster (BytesPerSector FatData / SIZEOF_FAT32_ENTRY);
  Ok (u64 (ReservedSectors FatData + q), i).
Definition get_entry (pFat32Entries : list Z) (i : Z) : outcome Z :=
  get_le pFat32Entries (SIZEOF_FAT32_ENTRY * i) SIZEOF_FAT32_ENTRY.
(** [pFat32Entries[i] &= ~FAT32_CLUSTER_MASK; pFat32Entries[i] |= v] *)
Definition set_entry (pFat32Entries : list Z) (i v : Z) : outcome (list Z) :=
  e ← get_entry pFat32Entries i;
  put_bytes pFat32Entries (SIZEOF_FAT32_ENTRY * i)
    (to_le 4 (Z.lor (Z.land e (u32 (Z.lnot FAT32_CLUSTER_MASK))) v)).

Definition NextClusterInChain (FatData : FAT_DATA) (CurrentCluster : Z) : E Z :=
  '(sectorNumber, indexInSector) ← lift (fat_position FatData CurrentCluster);
  let offset := u64 (sectorNumber * BytesPerSector FatData) in
  _ ⇐ pool_alloc;
  pFat32Entries ⇐ dev_read (BytesPerSector FatData) offset (BytesPerSector FatData) false;
  e ← lift (get_entry pFat32Entries indexInSector);
  let nextCluster := Z.land e FAT32_CLUSTER_MASK in
  if 0 =? nextCluster then
    pFat32Entries ← lift (set_entry pFat32Entries indexInSector FAT32_EOC_MARK);
    _ ⇐ dev_write pFat32Entries (BytesPerSector FatData) offset (BytesPerSector FatData) false;
    eret FAT32_EOC_MARK
  else if FAT32_BAD_CLUSTER =? nextCluster then eret FAT32_EOC_MARK
  else eret nextCluster.

(** The inner loop of _FirstFreeCluster: the index of the first free entry of a sector, from [i] on. *)
Fixpoint free_in_sector (fuel : nat) (pFat32Entries : list Z) (i n : Z) : outcome (option Z) :=
  match fuel with
  | O => Err NoFuel
  | S fuel' =>
    if i <? n then
      e ← get_entry pFat32Entries i;
      if 0 =? Z.land e FAT32_CLUSTER_MASK then Ok (Some i) else free_in_sector fuel' pFat32Entries (u64 (i + 1)) n
    else Ok None
  end.

(** The outer loop; 0 when no cluster is found, with the status of the last read, or the initial one when nothing is read. *)
Fixpoint free_sectors (fuel : nat) (FatData : FAT_DATA) (MarkReserved : bool)
    (entriesPerFat sectorsPerFat currentSector indexInSector status : Z) : E Z :=
  match fuel with
  | O => fail NoFuel
  | S fuel' =>
    if currentSector <? sectorsPerFat then
      let BPS := BytesPerSector FatData in
      pFat32Entries ⇐ dev_read BPS (u64 (currentSector * BPS)) BPS false;
      o ← lift (free_in_sector (S (Z.to_nat (BPS / SIZEOF_FAT32_ENTRY))) pFat32Entries indexInSector (BPS / SIZEOF_FAT32_ENTRY));
      match o with
      | None => free_sectors fuel' FatData MarkReserved entriesPerFat sectorsPerFat (u64 (currentSector + 1)) 0 STATUS_SUCCESS
      | Some i =>
        _ ⇐ (if MarkReserved then
               pFat32Entries ← lift (set_entry pFat32Entries i FAT32_EOC_MARK);
               dev_write pFat32Entries BPS (u64 (currentSector * BPS)) BPS false
             else eret tt);
        let clusterIndex :=
          u64 (u64 (u64 (currentSector - ReservedSectors FatData) * (BPS / SIZEOF_FAT32_ENTRY)) + i) in
        _ ← ASSERT ((2 <=? clusterIndex) && (clusterIndex <? entriesPerFat));
        _ ← ASSERT (negb (FAT32_UNKNOWN =? clusterIndex));
        eret clusterIndex
      end
    else if SUCCEEDED status then eret 0 else efail status
  end.

Definition _FirstFreeCluster (FatData : FAT_DATA) (FirstCheckedCluster : Z) (MarkReserved : bool) : E Z :=
  _ ⇐ pool_alloc;
  let entriesPerFat := u32 (CountOfClusters FatData + 2) in
  sectorsPerFat ← lift (cdiv (u64 (entriesPerFat * SIZEOF_FAT32_ENTRY)) (BytesPerSector FatData));
  if entriesPerFat <=? FirstCheckedCluster then eret 0 else
  let firstCheckedCluster := if FAT32_UNKNOWN =? FirstCheckedCluster then 2 else FirstCheckedCluster in
  '(currentSector, indexInSector) ← lift (fat_position FatData firstCheckedCluster);
  free_sectors (S (Z.to_nat sectorsPerFat)) FatData MarkReserved entriesPerFat sectorsPerFat currentSector indexInSector
    STATUS_UNSUCCESSFUL.

(** * Extending a chain *)
(** FSINFO is kept as its bytes. *)
Definition FSI_Free_Count (fsi : list Z) : outcome Z := get_le fsi 488 4.
Definition FSI_Nxt_Free (fsi : list Z) : outcome Z := get_le fsi 492 4.
Definition set_FSI_Free_Count (v : Z) (fsi : list Z) : outcome (list Z) := put_bytes fsi 488 (to_le 4 v).
Definition set_FSI_Nxt_Free (v : Z) (fsi : list Z) : outcome (list Z) := put_bytes fsi 492 (to_le 4 v).

(** The loop that counts the free clusters after [freeCluster]: the status and the count. *)
Fixpoint count_free (fuel : nat) (FatData : FAT_DATA) (freeCluster count : Z) : M Storage (Z * Z) :=
  match fuel with
  | O => fail NoFuel
  | S fuel' =>
    r ← _FirstFreeCluster FatData (u64 (freeCluster + 1)) false;
    match r with
    | inl st => ret (st, count)
    | inr c => if 0 =? c then ret (STATUS_SUCCESS, count) else count_free fuel' FatData c (u32 (count + 1))
    end
  end.

(** The body of the [__try] from the reserved cluster [r] on: the status, the reserved cluster and FSINFO. *)
Definition add_cluster_link (FatData : FAT_DATA) (LastClusterFromChain freeCount : Z) (fsi : list Z) (r : Z + Z)
    : M Storage (Z * Z * option (list Z)) :=
  let BPS := BytesPerSector FatData in
  match r with
  | inl st => ret (st, 0, Some fsi)
  | inr reservedCluster =>
    if 0 =? reservedCluster then
      _ ← ASSERT (FAT32_UNKNOWN =? freeCount);
      fsi ← lift (set_FSI_Free_Count 0 fsi);
      fsi ← lift (set_FSI_Nxt_Free FAT32_UNKNOWN fsi);
      ret (STATUS_DISK_FULL, 0, Some fsi)
    else
    ok ← ExAllocatePool;
    if negb ok then ret (STATUS_HEAP_NO_MORE_MEMORY, reservedCluster, Some fsi) else
    '(sectorFromFat, indexInSector) ← lift (fat_position FatData LastClusterFromChain);
    r ← (pFat32Entries ⇐ dev_read BPS (u64 (sectorFromFat * BPS)) BPS false;
         pFat32Entries ← lift (set_entry pFat32Entries indexInSector (u32 reservedCluster));
         dev_write pFat32Entries BPS (u64 (sectorFromFat * BPS)) BPS false);
    match r with
    | inl st => ret (st, reservedCluster, Some fsi)
    | inr _ =>
      fsi ← lift (set_FSI_Nxt_Free (u32 reservedCluster) fsi);
      if FAT32_UNKNOWN =? freeCount then
        '(st, count) ← count_free (S (S (Z.to_nat (CountOfClusters FatData)))) FatData reservedCluster 0;
        fsi ← lift (set_FSI_Free_Count count fsi);
        ret (st, reservedCluster, Some fsi)
      else
        fsi ← lift (set_FSI_Free_Count (u32 (freeCount - 1)) fsi);
        ret (STATUS_SUCCESS, reservedCluster, Some fsi)
    end
  end.

(** The whole body; FSINFO is [None] when its allocation failed. *)
Definition add_cluster_body (FatData : FAT_DATA) (LastClusterFromChain : Z) : M Storage (Z * Z * option (list Z)) :=
  ok ← ExAllocatePool;
  if negb ok then ret (STATUS_HEAP_NO_MORE_MEMORY, 0, None) else
  let BPS := BytesPerSector FatData in
  '(status, bytes, fsi) ← IoReadDevice vol SIZEOF_FSINFO (u32 (1 * BPS));
  if negb (SUCCEEDED status) then ret (status, 0, Some (replicate (Z.to_nat SIZEOF_FSINFO) 0)) else
  _ ← ASSERT (bytes =? BPS);
  freeCount ← lift (FSI_Free_Count fsi);
  nxtFree ← lift (FSI_Nxt_Free fsi);
  if 0 =? freeCount then
    fsi ← lift (set_FSI_Nxt_Free FAT32_UNKNOWN fsi); ret (STATUS_DISK_FULL, 0, Some fsi)
  else
  r ← _FirstFreeCluster FatData nxtFree true;
  add_cluster_link FatData LastClusterFromChain freeCount fsi r.

(** The [__finally] block writes FSINFO back and replaces the status by the one of that write. *)
Definition _AddNewClusterToChain (FatData : FAT_DATA) (LastClusterFromChain : Z) : E Z :=
  _ ← ASSERT (negb (FAT32_EOC LastClusterFromChain));
  '(_, reservedCluster, pFsInfo) ← add_cluster_body FatData LastClusterFromChain;
  match pFsInfo with
  | None => fail AssertFailed     (* ASSERT(NULL != Buffer) of IoWriteDevice *)
  | Some fsi =>
    '(status, bytes) ← IoWriteDevice vol fsi SIZEOF_FSINFO (u32 (1 * BytesPerSector FatData));
    _ ← ASSERT (bytes =? BytesPerSector FatData);
    if SUCCEEDED status then eret reservedCluster else efail status
  end.

Definition NextSectorInClusterChain (FatData : FAT_DATA) (CurrentSector : Z) (ExtendChain : bool) : E Z :=
  currentCluster ⇐ lift (ClusterOfSector FatData CurrentSector);
  nextCluster ⇐ NextClusterInChain FatData currentCluster;
  if FAT32_EOC nextCluster && negb ExtendChain then eret 0 else
  nextCluster ⇐ (if FAT32_EOC nextCluster then _AddNewClusterToChain FatData currentCluster else eret nextCluster);
  ret (FirstSectorOfCluster FatData nextCluster).

(** * FatInitVolume; the boot parameter block as its bytes *)
Definition BPB_BytsPerSec (bpb : list Z) : outcome Z := get_le bpb 11 2.
Definition BPB_SecPerClus (bpb : list Z) : outcome Z := get_le bpb 13 1.
Definition BPB_RsvdSecCnt (bpb : list Z) : outcome Z := get_le bpb 14 2.
Definition BPB_NumFATs (bpb : list Z) : outcome Z := get_le bpb 16 1.
Definition BPB_TotSec16 (bpb : list Z) : outcome Z := get_le bpb 19 2.
Definition BPB_FATSz16 (bpb : list Z) : outcome Z := get_le bpb 22 2.
Definition BPB_TotSec32 (bpb : list Z) : outcome Z := get_le bpb 32 4.
Definition BPB_FATSz32 (bpb : list Z) : outcome Z := get_le bpb 36 4.
Definition BPB_RootClus (bpb : list Z) : outcome Z := get_le bpb 44 4.
Definition bpb_signature (bpb : list Z) : outcome Z := get_le bpb 510 2.

(** What FatInitVolume computes from the block once it has been read. *)
Definition fat_data_of (DeviceAlignment : Z) (bpb : list Z) : outcome (Z + FAT_DATA) :=
  sig ← bpb_signature bpb;
  if negb (MBR_BOOT_SIGNATURE =? sig) then Ok (inl STATUS_DISK_MBR_NOT_PRESENT) else
  fatSz16 ← BPB_FATSz16 bpb; fatSz32 ← BPB_FATSz32 bpb;
  let fatSize := if negb (0 =? fatSz16) then fatSz16 else fatSz32 in
  totSec16 ← BPB_TotSec16 bpb; totSec32 ← BPB_TotSec32 bpb;
  let totalSectors := if negb (0 =? totSec16) then totSec16 else totSec32 in
  rsvd ← BPB_RsvdSecCnt bpb; nfats ← BPB_NumFATs bpb; spc ← BPB_SecPerClus bpb;
  let metadata := u32 (rsvd + u32 (nfats * fatSize)) in
  let dataSectors := u32 (totalSectors - metadata) in
  count ← cdiv dataSectors spc;
  if (count <? FAT12_MAX_CLUSTERS) || (count <? FAT16_MAX_CLUSTERS) then Ok (inl STATUS_DEVICE_FILESYSTEM_UNSUPPORTED) else
  root ← BPB_RootClus bpb; bps ← BPB_BytsPerSec bpb;
  let d := mkFAT count 0 rsvd metadata spc bps (bps / SIZEOF_DIR_ENTRY) (u32 (spc * bps)) in
  match FirstSectorOfCluster d root with
  | inl st => Ok (inl st)
  | inr r =>
    _ ← assert_ (DeviceAlignment <=? u32 (spc * bps));
    Ok (inr (mkFAT count r rsvd metadata spc bps (bps / SIZEOF_DIR_ENTRY) (u32 (spc * bps))))
  end.
Definition FatInitVolume (DeviceAlignment : Z) : E FAT_DATA :=
  '(status, _, bpb) ← IoReadDevice vol 512 0;
  if negb (SUCCEEDED status) then efail status else lift (fat_data_of DeviceAlignment bpb).

(** * Layout of a volume *)
Record layout_ok (F : FAT_DATA) : Prop := {
  lo_bps : BytesPerSector F = SECTOR_SIZE;
  lo_spc : 1 <= SectorsPerCluster F <= 128;
  lo_rsvd : 2 <= ReservedSectors F;
  lo_fat : ReservedSectors F * SECTOR_SIZE + SIZEOF_FAT32_ENTRY * (CountOfClusters F + 2) <= FirstDataSector F * SECTOR_SIZE;
  lo_count : 0 <= CountOfClusters F /\ CountOfClusters F + 2 <= FAT32_BAD_CLUSTER;
  lo_size : FirstDataSector F + CountOfClusters F * SectorsPerCluster F <= PartitionSize vol }.
(** The device works and no allocation fails. *)
Definition dev_ok (s : Storage) : Prop := vol_ok s vol /\ dma s = [] /\ pool s = [].

Definition valid (F : FAT_DATA) (c : Z) : Prop := 2 <= c < CountOfClusters F + 2.
Definition cluster_sector (F : FAT_DATA) (c : Z) : Z := FirstDataSector F + (c - 2) * SectorsPerCluster F.
Abbreviation vd := (vdisk vol).

(** The table: an entry without its reserved bits, and the successor of a cluster. *)
Definition fat_off (F : FAT_DATA) (c : Z) : Z := ReservedSectors F * SECTOR_SIZE + SIZEOF_FAT32_ENTRY * c.
Definition entry (F : FAT_DATA) (d : Z -> Z) (c : Z) : Z := Z.land (le (read_range d (fat_off F c) 4)) FAT32_CLUSTER_MASK.
Definition next (F : FAT_DATA) (d : Z -> Z) (c : Z) : option Z :=
  if (entry F d c =? 0) || (FAT32_BAD_CLUSTER <=? entry F d c) then None else Some (entry F d c).

Lemma dev_ok_with_disk s d : dev_ok s -> dev_ok (with_disk d s).
Proof. done. Qed.

Lemma ebind_run {A B} (m : E A) (k : A -> E B) s a s' : m s = Ok (inr a, s') -> ebind m k s = k a s'.
Proof. intros H. unfold ebind. by rewrite (bind_run _ _ _ _ _ H). Qed.

Lemma ebind_fail {A B} (m : E A) (k : A -> E B) s st s' : m s = Ok (inl st, s') -> ebind m k s = Ok (inl st, s').
Proof. intros H. unfold ebind. by rewrite (bind_run _ _ _ _ _ H). Qed.

Lemma pool_alloc_run s : pool s = [] -> pool_alloc s = Ok (inr tt, s).
Proof. intros H. unfold pool_alloc. erewrite bind_run by (unfold ExAllocatePool; rewrite H; reflexivity). done. Qed.

Lemma dev_read_run s k n asy : dev_ok s -> 0 <= k -> 0 < n <= MAX_WORD -> k + n <= PartitionSize vol ->
  dev_read (n * SECTOR_SIZE) (k * SECTOR_SIZE) (n * SECTOR_SIZE) asy s =
  Ok (inr (read_range (vd s) (k * SECTOR_SIZE) (n * SECTOR_SIZE)), s).
Proof.
  intros (Hv&Hd&_) Hk Hn Hr. unfold dev_read. erewrite bind_run by (apply IoReadDeviceEx_run; done).
  cbv beta iota. rewrite SUCCEEDED_success. cbn [negb]. rewrite (bind_run _ _ _ _ _ (ASSERT_run _ _ (Z.eqb_refl _))). done.
Qed.

Lemma dev_write_run s k n buf asy : dev_ok s -> 0 <= k -> 0 < n <= MAX_WORD -> k + n <= PartitionSize vol ->
  n * SECTOR_SIZE <= Z.of_nat (length buf) ->
  exists s', dev_write buf (n * SECTOR_SIZE) (k * SECTOR_SIZE) (n * SECTOR_SIZE) asy s = Ok (inr tt, s') /\
    dev_ok s' /\ forall a, vd s' a = write_range (vd s) (k * SECTOR_SIZE) (take (Z.to_nat (n * SECTOR_SIZE)) buf) a.
Proof.
  intros (Hv&Hd&Hp) Hk Hn Hr Hb. destruct (IoWriteDeviceEx_run s vol k n buf asy) as (s'&E&->); try done.
  eexists. split; [|split; [|intros a; apply vdisk_write]]; [|done].
  unfold dev_write. erewrite bind_run by exact E. cbv beta iota. rewrite SUCCEEDED_success. cbn [negb].
  rewrite (bind_run _ _ _ _ _ (ASSERT_run _ _ (Z.eqb_refl _))). done.
Qed.

Lemma lo_data F : layout_ok F -> FirstDataSector F <= PartitionSize vol.
Proof. intros []. assert (0 <= CountOfClusters F * SectorsPerCluster F) by (apply Z.mul_nonneg_nonneg; lia). lia. Qed.

Section Layout.
Context (F : FAT_DATA) (HF : layout_ok F).

Ltac layout := pose proof (lo_bps F HF); pose proof (lo_spc F HF); pose proof (lo_rsvd F HF); pose proof (lo_fat F HF);
  pose proof (lo_count F HF); pose proof (lo_size F HF); pose proof (lo_data F HF);
  unfold fat_off, valid, cluster_sector, SIZEOF_FAT32_ENTRY, FAT32_BAD_CLUSTER, SECTOR_SIZE in *.

Lemma vol_small s : dev_ok s -> PartitionSize vol < 2 ^ 48.
Proof. intros ((_&Ho&_&Ht&Hl)&_). unfold LBA48_MAX_VALUE in Hl. lia. Qed.

Lemma cluster_range c s : dev_ok s -> valid F c ->
  FirstDataSector F <= cluster_sector F c /\ cluster_sector F c + SectorsPerCluster F <= PartitionSize vol.
Proof. intros Hd Hc. layout. nia. Qed.

Lemma FirstSectorOfCluster_run c s : dev_ok s -> valid F c -> FirstSectorOfCluster F c = inr (cluster_sector F c).
Proof.
  intros Hd Hc. pose proof (vol_small s Hd). destruct (cluster_range c s Hd Hc). layout. unfold FirstSectorOfCluster.
  rewrite (u32_small (CountOfClusters F + 1)) by rlia.
  rewrite (proj2 (Z.ltb_ge _ _)), (proj2 (Z.ltb_ge _ _)) by lia. cbn [orb]. unwrap. f_equal. lia.
Qed.

Lemma ClusterOfSector_run c j s : dev_ok s -> valid F c -> 0 <= j < SectorsPerCluster F ->
  ClusterOfSector F (cluster_sector F c + j) = Ok (inr c).
Proof.
  intros Hd Hc Hj. pose proof (vol_small s Hd). destruct (cluster_range c s Hd Hc). layout. unfold ClusterOfSector, cdiv.
  rewrite (proj2 (Z.eqb_neq _ _)) by lia. unwrap.
  replace (FirstDataSector F + (c - 2) * SectorsPerCluster F + j - FirstDataSector F) with (j + (c - 2) * SectorsPerCluster F) by lia.
  rewrite Z.div_add, Z.div_small by lia. cbn [mbind outcome_bind]. unwrap.
  rewrite (proj2 (Z.ltb_ge _ _)), (proj2 (Z.ltb_ge _ _)) by lia. cbn [orb]. do 2 f_equal. lia.
Qed.
(** ** Entries of the table *)
Definition fat_sector (c : Z) : Z := ReservedSectors F + c / 128.
Definition in_table (c : Z) : Prop := 0 <= c < CountOfClusters F + 2.

Lemma valid_in_table c : valid F c -> in_table c.
Proof. unfold valid, in_table. lia. Qed.

Lemma entry_place c : in_table c -> 0 <= c mod 128 < 128 /\ fat_sector c * SECTOR_SIZE + 4 * (c mod 128) = fat_off F c /\
  2 <= fat_sector c /\ fat_sector c < FirstDataSector F.
Proof.
  unfold in_table, fat_sector. layout. intros Hc. pose proof (Z.div_mod c 128). pose proof (Z.mod_pos_bound c 128).
  assert (0 <= c / 128) by (apply Z.div_pos; lia). split_and!; lia.
Qed.

Lemma fat_position_run c s : dev_ok s -> in_table c -> fat_position F c = Ok (fat_sector c, c mod 128).
Proof.
  intros Hd Hc. pose proof (vol_small s Hd). destruct (entry_place c Hc) as (?&?&?&?). unfold in_table in Hc.
  unfold fat_position, cdiv, cmod. rewrite (lo_bps F HF). cbn [mbind outcome_bind Z.eqb].
  change (SECTOR_SIZE / SIZEOF_FAT32_ENTRY) with 128. cbn [mbind outcome_bind Z.eqb].
  assert (u64 (c * SIZEOF_FAT32_ENTRY) / SECTOR_SIZE = c / 128) as ->.
  { layout. unwrap. change 512 with (128 * 4). by rewrite Z.div_mul_cancel_r. }
  layout. unfold fat_sector in *. cbn [Z.eqb mbind outcome_bind]. unwrap. done.
Qed.

Lemma fat_entry_run d c : in_table c ->
  get_entry (read_range d (fat_sector c * SECTOR_SIZE) SECTOR_SIZE) (c mod 128) = Ok (le (read_range d (fat_off F c) 4)).
Proof.
  intros Hc. destruct (entry_place c Hc) as (?&Ho&_). unfold get_entry, get_le, SIZEOF_FAT32_ENTRY.
  rewrite get_bytes_run by (rewrite ?length_read_range; unfold SECTOR_SIZE; lia). cbn [mbind outcome_bind].
  rewrite read_range_sub by (unfold SECTOR_SIZE; lia). by rewrite Ho.
Qed.

(** An entry with new low bits. *)
Definition entry_bytes (d : Z -> Z) (c v : Z) : list Z :=
  to_le 4 (Z.lor (Z.land (le (read_range d (fat_off F c) 4)) (u32 (Z.lnot FAT32_CLUSTER_MASK))) v).
(** The bytes of a volume after an assignment to an entry. *)
Definition set_next (d : Z -> Z) (c v : Z) : Z -> Z := write_range d (fat_off F c) (entry_bytes d c v).

Lemma set_entry_run d c v : in_table c -> exists bs,
  set_entry (read_range d (fat_sector c * SECTOR_SIZE) SECTOR_SIZE) (c mod 128) v = Ok bs /\
  Z.of_nat (length bs) = SECTOR_SIZE /\
  forall a, write_range d (fat_sector c * SECTOR_SIZE) bs a = set_next d c v a.
Proof.
  intros Hc. destruct (entry_place c Hc) as (Hm&Ho&_). unfold set_entry. rewrite fat_entry_run by done.
  cbn [mbind outcome_bind]. fold (entry_bytes d c v). unfold SIZEOF_FAT32_ENTRY.
  assert (length (entry_bytes d c v) = 4%nat) as Hl by apply length_to_le.
  destruct (put_bytes_run (read_range d (fat_sector c * SECTOR_SIZE) SECTOR_SIZE) (4 * (c mod 128)) (entry_bytes d c v))
    as (bs&E&Hb&_); [lia|rewrite length_read_range; unfold SECTOR_SIZE; lia|].
  exists bs. split; [done|]. split; [rewrite Hb, length_read_range; unfold SECTOR_SIZE; lia|].
  intros a. unfold set_next. rewrite <- Ho. apply (write_back _ _ SECTOR_SIZE); [done|lia|unfold SECTOR_SIZE; lia].
Qed.

Lemma masked_entry x v : 0 <= v < 2 ^ 28 ->
  Z.land (Z.lor (Z.land x (u32 (Z.lnot FAT32_CLUSTER_MASK))) v mod 2 ^ 32) FAT32_CLUSTER_MASK = v.
Proof.
  intros Hv. change FAT32_CLUSTER_MASK with (Z.ones 28). apply Z.bits_inj'. intros i Hi.
  rewrite Z.land_spec, Z.testbit_mod_pow2 by lia. rewrite Z.lor_spec, Z.land_spec.
  destruct (Z.ltb_spec i 28).
  - rewrite Z.ones_spec_low by lia. unfold u32. rewrite Z.testbit_mod_pow2, Z.lnot_spec, Z.ones_spec_low by lia.
    rewrite (proj2 (Z.ltb_lt i 32)) by lia. by destruct (Z.testbit x i), (Z.testbit v i).
  - rewrite Z.ones_spec_high, andb_false_r by lia. symmetry. destruct (decide (v = 0)) as [->|]; [apply Z.testbit_0_l|].
    apply Z.bits_above_log2; [lia|]. apply Z.log2_lt_pow2; [lia|].
    eapply Z.lt_le_trans; [apply Hv|]. apply Z.pow_le_mono_r; lia.
Qed.

Lemma entry_set_next d c v c' : in_table c -> in_table c' -> 0 <= v < 2 ^ 28 ->
  entry F (set_next d c v) c' = if decide (c' = c) then v else entry F d c'.
Proof.
  intros Hc Hc' Hv. unfold entry, set_next. assert (length (entry_bytes d c v) = 4%nat) as Hl by apply length_to_le.
  case_decide as E.
  - subst c'. replace 4 with (Z.of_nat (length (entry_bytes d c v))) by (by rewrite Hl). rewrite read_write_range. unfold entry_bytes. rewrite le_to_le.
    by apply masked_entry.
  - rewrite read_write_range_out; [done|]. unfold fat_off, SIZEOF_FAT32_ENTRY. lia.
Qed.

Lemma set_next_out d c v a : in_table c -> a < ReservedSectors F * SECTOR_SIZE \/ FirstDataSector F * SECTOR_SIZE <= a ->
  set_next d c v a = d a.
Proof.
  intros Hc Ha. unfold set_next. apply write_range_out. unfold entry_bytes. rewrite length_to_le.
  unfold in_table in Hc. layout. lia.
Qed.

Lemma entry_range d c : 0 <= entry F d c < 2 ^ 28.
Proof.
  unfold entry. change FAT32_CLUSTER_MASK with (Z.ones 28). rewrite Z.land_ones by lia. apply Z.mod_pos_bound. lia.
Qed.
(** ** Following and extending chains *)
(** The same successors, and the same bytes outside the table. *)
Definition same_chains (d d' : Z -> Z) : Prop :=
  (forall c, in_table c -> next F d' c = next F d c) /\
  (forall a, a < ReservedSectors F * SECTOR_SIZE \/ FirstDataSector F * SECTOR_SIZE <= a -> d' a = d a).

Lemma same_chains_refl d : same_chains d d.
Proof. done. Qed.
Lemma same_chains_trans d1 d2 d3 : same_chains d1 d2 -> same_chains d2 d3 -> same_chains d1 d3.
Proof. intros [N1 O1] [N2 O2]. split; [intros; rewrite N2, N1|intros; rewrite O2, O1]; done. Qed.

Lemma entry_ext d d' c : (forall a, d' a = d a) -> entry F d' c = entry F d c.
Proof. intros H. unfold entry. do 2 f_equal. apply read_range_ext. intros. by rewrite H. Qed.
Lemma next_ext d d' c : (forall a, d' a = d a) -> next F d' c = next F d c.
Proof. intros H. unfold next. by rewrite (entry_ext _ _ _ H). Qed.

Lemma same_chains_eoc d d' c : in_table c -> entry F d c = 0 -> (forall a, d' a = set_next d c FAT32_EOC_MARK a) ->
  same_chains d d'.
Proof.
  intros Hc He Hd. split.
  - intros c' Hc'. rewrite (next_ext _ _ _ Hd). unfold next. rewrite entry_set_next by done.
    case_decide; [subst c'; by rewrite He|done].
  - intros a Ha. rewrite Hd. by apply set_next_out.
Qed.

Lemma read_sector_run s k asy : dev_ok s -> 0 <= k < PartitionSize vol ->
  dev_read (BytesPerSector F) (u64 (k * BytesPerSector F)) (BytesPerSector F) asy s =
  Ok (inr (read_range (vd s) (k * SECTOR_SIZE) SECTOR_SIZE), s).
Proof.
  intros Hd Hk. pose proof (vol_small s Hd). rewrite (lo_bps F HF).
  assert (u64 (k * SECTOR_SIZE) = k * SECTOR_SIZE) as -> by (unfold SECTOR_SIZE; unwrap; done).
  pose proof (dev_read_run s k 1 asy) as H1. rewrite Z.mul_1_l in H1. apply H1; unfold MAX_WORD; done || lia.
Qed.

Lemma write_sector_run s k buf asy : dev_ok s -> 0 <= k < PartitionSize vol -> Z.of_nat (length buf) = SECTOR_SIZE ->
  exists s', dev_write buf (BytesPerSector F) (u64 (k * BytesPerSector F)) (BytesPerSector F) asy s = Ok (inr tt, s') /\
    dev_ok s' /\ forall a, vd s' a = write_range (vd s) (k * SECTOR_SIZE) buf a.
Proof.
  intros Hd Hk Hb. pose proof (vol_small s Hd). rewrite (lo_bps F HF).
  assert (u64 (k * SECTOR_SIZE) = k * SECTOR_SIZE) as -> by (unfold SECTOR_SIZE; unwrap; done).
  destruct (dev_write_run s k 1 buf asy) as (s'&E&?&Hw); try (unfold MAX_WORD; done || lia).
  rewrite take_ge in Hw by lia. eauto.
Qed.

Lemma fat_sector_range c : in_table c -> 0 <= fat_sector c < PartitionSize vol.
Proof. intros Hc. destruct (entry_place c Hc) as (_&_&?&?). pose proof (lo_data F HF). lia. Qed.

(** Reads the sector of an entry, assigns to the entry and writes the sector back. *)
Lemma update_entry_run s c v : dev_ok s -> in_table c ->
  exists bs s', set_entry (read_range (vd s) (fat_sector c * SECTOR_SIZE) SECTOR_SIZE) (c mod 128) v = Ok bs /\
    dev_write bs (BytesPerSector F) (u64 (fat_sector c * BytesPerSector F)) (BytesPerSector F) false s = Ok (inr tt, s') /\
    dev_ok s' /\ forall a, vd s' a = set_next (vd s) c v a.
Proof.
  intros Hd Hc. destruct (set_entry_run (vd s) c v Hc) as (bs&E&Hl&Hw).
  destruct (write_sector_run s (fat_sector c) bs false Hd (fat_sector_range c Hc) Hl) as (s'&Ew&Hd'&Hv).
  exists bs, s'. split_and!; try done. intros a. by rewrite Hv.
Qed.

Lemma NextClusterInChain_run s c : dev_ok s -> in_table c -> exists r s',
  NextClusterInChain F c s = Ok (inr r, s') /\ dev_ok s' /\ same_chains (vd s) (vd s') /\
  (entry F (vd s) c <> 0 -> s' = s) /\
  match next F (vd s) c with Some n => r = n /\ FAT32_EOC r = false | None => FAT32_EOC r = true end.
Proof.
  intros Hd Hc. unfold NextClusterInChain. rewrite (bind_run _ _ _ _ _ (lift_run _ s _ (fat_position_run c s Hd Hc))).
  cbv beta iota. rewrite (ebind_run _ _ _ _ _ (pool_alloc_run s (proj2 (proj2 Hd)))).
  erewrite ebind_run by (apply read_sector_run; [done|by apply fat_sector_range]).
  rewrite (bind_run _ _ _ _ _ (lift_run _ s _ (fat_entry_run (vd s) c Hc))). fold (entry F (vd s) c).
  unfold next. rewrite (Z.eqb_sym 0). destruct (Z.eqb_spec (entry F (vd s) c) 0) as [E0|E0]; cbn [orb].
  - destruct (update_entry_run s c FAT32_EOC_MARK Hd Hc) as (bs&s'&Es&Ew&Hd'&Hv).
    exists FAT32_EOC_MARK, s'. rewrite (bind_run _ _ _ _ _ (lift_run _ s _ Es)), (ebind_run _ _ _ _ _ Ew).
    split_and!; try done. by apply (same_chains_eoc _ _ c).
  - rewrite Z.eqb_sym. destruct (Z.eqb_spec (entry F (vd s) c) FAT32_BAD_CLUSTER) as [->|Eb].
    { exists FAT32_EOC_MARK, s. split_and!; done. }
    exists (entry F (vd s) c), s. split_and!; try done.
    unfold FAT32_EOC. destruct (Z.leb_spec FAT32_BAD_CLUSTER (entry F (vd s) c)); [|split; [done|]]; apply Z.ltb_lt || apply Z.ltb_ge; lia.
Qed.
Lemma NextSector_next s c j n ext : dev_ok s -> valid F c -> 0 <= j < SectorsPerCluster F ->
  next F (vd s) c = Some n -> valid F n ->
  NextSectorInClusterChain F (cluster_sector F c + j) ext s = Ok (inr (cluster_sector F n), s).
Proof.
  intros Hd Hc Hj Hn Hvn. unfold NextSectorInClusterChain.
  rewrite (ebind_run _ _ _ _ _ (lift_run _ s _ (ClusterOfSector_run c j s Hd Hc Hj))).
  destruct (NextClusterInChain_run s c Hd (valid_in_table c Hc)) as (r&s'&E&_&_&Hs&Hr). rewrite Hn in Hr. destruct Hr as [-> He].
  rewrite Hs in E by (unfold next in Hn; destruct (Z.eqb_spec (entry F (vd s) c) 0); done).
  rewrite (ebind_run _ _ _ _ _ E), He. cbn [andb]. erewrite ebind_run by reflexivity.
  unfold ret. by rewrite (FirstSectorOfCluster_run n s Hd Hvn).
Qed.

Lemma NextSector_end s c j : dev_ok s -> valid F c -> 0 <= j < SectorsPerCluster F -> next F (vd s) c = None ->
  exists s', NextSectorInClusterChain F (cluster_sector F c + j) false s = Ok (inr 0, s') /\ dev_ok s' /\
    same_chains (vd s) (vd s').
Proof.
  intros Hd Hc Hj Hn. unfold NextSectorInClusterChain.
  rewrite (ebind_run _ _ _ _ _ (lift_run _ s _ (ClusterOfSector_run c j s Hd Hc Hj))).
  destruct (NextClusterInChain_run s c Hd (valid_in_table c Hc)) as (r&s'&E&Hd'&Hsc&_&Hr). rewrite Hn in Hr.
  exists s'. by rewrite (ebind_run _ _ _ _ _ E), Hr.
Qed.

(** ** The search for a free cluster *)
(** The first free cluster in [lo, hi). *)
Definition first_free (d : Z -> Z) (lo hi : Z) : option Z :=
  head (filter (fun c => entry F d c = 0) (seqZ lo (hi - lo))).

Lemma first_free_nil d lo hi : hi <= lo -> first_free d lo hi = None.
Proof. intros. unfold first_free. by rewrite seqZ_nil by lia. Qed.

Lemma first_free_cons d lo hi : lo < hi ->
  first_free d lo hi = if entry F d lo =? 0 then Some lo else first_free d (lo + 1) hi.
Proof.
  intros. unfold first_free. rewrite seqZ_cons by lia. rewrite filter_cons.
  destruct (Z.eqb_spec (entry F d lo) 0); [by rewrite decide_True|rewrite decide_False by done].
  by replace (Z.pred (hi - lo)) with (hi - (lo + 1)) by lia.
Qed.

Lemma first_free_app d lo mid hi : lo <= mid <= hi ->
  first_free d lo hi = match first_free d lo mid with Some c => Some c | None => first_free d mid hi end.
Proof.
  intros. unfold first_free. replace (hi - lo) with ((mid - lo) + (hi - mid)) by lia.
  rewrite seqZ_app, filter_app by lia. replace (lo + (mid - lo)) with mid by lia.
  by destruct (filter _ (seqZ lo (mid - lo))).
Qed.

Lemma first_free_spec d lo hi c : first_free d lo hi = Some c ->
  lo <= c < hi /\ entry F d c = 0 /\ forall c', lo <= c' < c -> entry F d c' <> 0.
Proof.
  remember (Z.to_nat (hi - lo)) as n eqn:Hn. revert lo Hn. induction n as [|n IH]; intros lo Hn H.
  - by rewrite first_free_nil in H by lia.
  - rewrite first_free_cons in H by lia. destruct (Z.eqb_spec (entry F d lo) 0).
    + injection H as <-. split_and!; try done; lia.
    + destruct (IH (lo + 1)) as (?&?&Hm); [lia|done|]. split_and!; try done; try lia.
      intros c' Hc'. destruct (decide (c' = lo)) as [->|]; [done|apply Hm; lia].
Qed.

Lemma free_in_sector_run d q : 0 <= q -> 128 * (q + 1) <= CountOfClusters F + 2 -> forall fuel i, 0 <= i <= 128 ->
  (Z.to_nat (128 - i) < fuel)%nat ->
  free_in_sector fuel (read_range d ((ReservedSectors F + q) * SECTOR_SIZE) SECTOR_SIZE) i 128 =
  Ok ((fun c => c - 128 * q) <$> first_free d (128 * q + i) (128 * (q + 1))).
Proof.
  intros Hq Hb. induction fuel as [|fuel IH]; intros i Hi Hf; [lia|]. cbn [free_in_sector].
  destruct (Z.ltb_spec i 128); [|by rewrite first_free_nil by lia].
  assert (in_table (128 * q + i)) as Hin by (unfold in_table; lia).
  assert ((128 * q + i) / 128 = q) as Eq by (rewrite Z.mul_comm, Z.div_add_l, Z.div_small; lia).
  assert ((128 * q + i) mod 128 = i) as Em by (rewrite Z.add_comm, Z.mul_comm, Z.mod_add, Z.mod_small; lia).
  pose proof (fat_entry_run d (128 * q + i) Hin) as Hg. unfold fat_sector in Hg. rewrite Eq, Em in Hg. rewrite Hg.
  cbn [mbind outcome_bind]. fold (entry F d (128 * q + i)). rewrite first_free_cons by lia. rewrite Z.eqb_sym.
  destruct (entry F d (128 * q + i) =? 0); [cbn; do 2 f_equal; lia|].
  rewrite u64_small by rlia. rewrite IH by lia. by replace (128 * q + (i + 1)) with (128 * q + i + 1) by lia.
Qed.
(** The table is searched up to the sector whose number on the volume is the number of full sectors of the table. *)
Definition table_sectors : Z := (CountOfClusters F + 2) / 128.
Definition search_end : Z := 128 * (table_sectors - ReservedSectors F).

(** The result of a search from [lo] on, [st] being the status when not a single sector is read. *)
Definition found (mark : bool) (st : Z) (d : Z -> Z) (lo : Z) (s : Storage) (r : outcome ((Z + Z) * Storage)) : Prop :=
  match first_free d lo search_end with
  | None => r = Ok (if (lo <? search_end) || SUCCEEDED st then inr 0 else inl st, s)
  | Some c => exists s', r = Ok (inr c, s') /\ dev_ok s' /\
      if mark then forall a, vd s' a = set_next d c FAT32_EOC_MARK a else s' = s
  end.

Lemma free_sectors_run mark s : dev_ok s -> forall fuel q i st, 0 <= q -> 0 <= i < 128 -> 2 <= 128 * q + i ->
  Z.max 0 (table_sectors - (ReservedSectors F + q)) < Z.of_nat fuel ->
  found mark st (vd s) (128 * q + i) s
    (free_sectors fuel F mark (CountOfClusters F + 2) table_sectors (ReservedSectors F + q) i st s).
Proof.
  intros Hd. pose proof (vol_small s Hd) as Hvs. assert (Hts := Z.mul_div_le (CountOfClusters F + 2) 128 ltac:(lia)).
  fold table_sectors in Hts. induction fuel as [|fuel IH]; intros q i st Hq Hi H2 Hf; cbn [free_sectors].
  { lia. }
  destruct (Z.ltb_spec (ReservedSectors F + q) table_sectors) as [Hlt|].
  2: { unfold found, search_end. rewrite first_free_nil, (proj2 (Z.ltb_ge _ _)) by lia. by destruct (SUCCEEDED st). }
  assert (128 * (q + 1) <= CountOfClusters F + 2) as Hb by (layout; lia).
  assert (in_table (128 * q)) as Hin by (unfold in_table; lia).
  assert (fat_sector (128 * q) = ReservedSectors F + q) as Efs by (unfold fat_sector; rewrite Z.mul_comm, Z.div_mul by lia; done).
  pose proof (fat_sector_range _ Hin) as Hr. rewrite Efs in Hr.
  erewrite ebind_run by (apply read_sector_run; done). rewrite !(lo_bps F HF).
  change (SECTOR_SIZE / SIZEOF_FAT32_ENTRY) with 128.
  erewrite bind_run by (apply lift_run, free_in_sector_run; try lia).
  pose proof (first_free_app (vd s) (128 * q + i) (128 * (q + 1)) search_end ltac:(unfold search_end; lia)) as Happ.
  unfold found. rewrite Happ. destruct (first_free (vd s) (128 * q + i) (128 * (q + 1))) as [c|] eqn:Ef; cbn [fmap option_fmap option_map].
  - apply first_free_spec in Ef as (Hc&He&_). assert (in_table c) as Hct by (unfold in_table; lia).
    assert (c / 128 = q) as Eq by (symmetry; apply Z.div_unique_pos with (r := c - 128 * q); lia).
    assert (c mod 128 = c - 128 * q) as Em by (pose proof (Z.div_mod c 128); lia).
    assert (exists s', (if mark then (pFat32Entries ← lift (set_entry (read_range (vd s) ((ReservedSectors F + q) * SECTOR_SIZE) SECTOR_SIZE) (c - 128 * q) FAT32_EOC_MARK);
         dev_write pFat32Entries SECTOR_SIZE (u64 ((ReservedSectors F + q) * SECTOR_SIZE)) SECTOR_SIZE false) else eret tt) s = Ok (inr tt, s') /\
         dev_ok s' /\ if mark then forall a, vd s' a = set_next (vd s) c FAT32_EOC_MARK a else s' = s) as (s'&Em'&Hd'&Hs').
    { destruct mark; [|by exists s]. destruct (update_entry_run s c FAT32_EOC_MARK Hd Hct) as (bs&s'&E1&E2&?&?).
      unfold fat_sector in E1, E2. rewrite Eq, ?Em, !(lo_bps F HF) in *. exists s'.
      rewrite (bind_run _ _ _ _ _ (lift_run _ s _ E1)). done. }
    exists s'. split; [|done]. rewrite (ebind_run _ _ _ _ _ Em').
    assert (u64 (u64 (u64 (ReservedSectors F + q - ReservedSectors F) * 128) + (c - 128 * q)) = c) as ->.
    { layout. unfold in_table in Hct. unwrap. lia. }
    rewrite (bind_run _ _ _ tt s') by (apply ASSERT_run; layout; unfold in_table in Hct; zbool; done || lia).
    rewrite (bind_run _ _ _ tt s') by (apply ASSERT_run; layout; unfold in_table, FAT32_UNKNOWN in *; zbool; done || lia). done.
  - assert (u64 (ReservedSectors F + q + 1) = ReservedSectors F + (q + 1)) as -> by (rewrite u64_small by rlia; lia).
    specialize (IH (q + 1) 0 STATUS_SUCCESS). rewrite Z.add_0_r in IH. unfold found in IH. rewrite SUCCEEDED_success, orb_true_r in IH.
    rewrite (proj2 (Z.ltb_lt (128 * q + i) search_end)) by (unfold search_end; lia). apply IH; lia.
Qed.

Lemma FirstFreeCluster_run s first mark : dev_ok s -> valid F first ->
  found mark STATUS_UNSUCCESSFUL (vd s) first s (_FirstFreeCluster F first mark s).
Proof.
  intros Hd Hf. unfold _FirstFreeCluster. rewrite (ebind_run _ _ _ _ _ (pool_alloc_run s (proj2 (proj2 Hd)))).
  assert (u32 (CountOfClusters F + 2) = CountOfClusters F + 2) as -> by (layout; unwrap; done).
  assert (u64 ((CountOfClusters F + 2) * SIZEOF_FAT32_ENTRY) / SECTOR_SIZE = table_sectors) as Et.
  { unfold table_sectors. layout. unwrap. change 512 with (128 * 4). by rewrite Z.div_mul_cancel_r. }
  rewrite (lo_bps F HF). rewrite (bind_run _ _ _ table_sectors s) by (unfold cdiv; cbn [Z.eqb]; by rewrite Et).
  rewrite (proj2 (Z.leb_gt _ _)) by (unfold valid in Hf; lia).
  rewrite (proj2 (Z.eqb_neq FAT32_UNKNOWN first)) by (layout; unfold FAT32_UNKNOWN; lia).
  pose proof (valid_in_table _ Hf) as Hin. rewrite (bind_run _ _ _ _ _ (lift_run _ s _ (fat_position_run first s Hd Hin))).
  cbv beta iota. pose proof (free_sectors_run mark s Hd (S (Z.to_nat table_sectors)) (first / 128) (first mod 128) STATUS_UNSUCCESSFUL) as H.
  pose proof (Z.div_mod first 128). pose proof (Z.mod_pos_bound first 128). assert (0 <= first / 128) by (apply Z.div_pos; unfold in_table in Hin; lia).
  replace (128 * (first / 128) + first mod 128) with first in H by lia. unfold fat_sector.
  apply H; try lia; unfold valid in Hf; layout; lia.
Qed.
(** ** FSINFO *)
Definition fsi_free (d : Z -> Z) : Z := le (read_range d (SECTOR_SIZE + 488) 4).
Definition fsi_next (d : Z -> Z) : Z := le (read_range d (SECTOR_SIZE + 492) 4).

Lemma get_le_run d off n k : 0 <= k -> 0 <= n -> k + 4 <= n -> get_le (read_range d off n) k 4 = Ok (le (read_range d (off + k) 4)).
Proof.
  intros. unfold get_le. rewrite get_bytes_run by (rewrite ?length_read_range; lia). cbn [mbind outcome_bind].
  by rewrite read_range_sub by lia.
Qed.

(** FSINFO with both fields assigned. *)
Lemma set_fsi_run d v w : exists b1 b2, put_bytes (read_range d SECTOR_SIZE SECTOR_SIZE) 492 (to_le 4 v) = Ok b1 /\
  put_bytes b1 488 (to_le 4 w) = Ok b2 /\ Z.of_nat (length b2) = SECTOR_SIZE /\
  forall d', (forall a, SECTOR_SIZE <= a < 2 * SECTOR_SIZE -> d' a = d a) ->
    fsi_free (write_range d' SECTOR_SIZE b2) = w mod 2 ^ 32 /\ fsi_next (write_range d' SECTOR_SIZE b2) = v mod 2 ^ 32.
Proof.
  set (l := read_range d SECTOR_SIZE SECTOR_SIZE).
  assert (Z.of_nat (length l) = 512) as Hl by apply length_read_range.
  destruct (put_bytes_run l 492 (to_le 4 v)) as (b1&E1&L1&K1); [lia|rewrite length_to_le; lia|].
  destruct (put_bytes_run b1 488 (to_le 4 w)) as (b2&E2&L2&K2); [lia|rewrite length_to_le; lia|].
  exists b1, b2. split_and!; try done; [unfold SECTOR_SIZE; lia|]. intros d' Hd'. rewrite length_to_le in K1, K2.
  assert (forall off (x : list Z), 0 <= off -> length x = 4%nat -> off + 4 <= 512 ->
    (forall i, (i < 4)%nat -> b2 !! (Z.to_nat off + i)%nat = x !! i) ->
    read_range (write_range d' SECTOR_SIZE b2) (SECTOR_SIZE + off) 4 = x) as Hrd.
  { intros off x Ho Hx Hoff Hk. apply list_eq. intros i. destruct (decide (i < 4)%nat).
    - rewrite read_range_lookup by lia. destruct (lookup_lt_is_Some_2 x i ltac:(lia)) as [y Hy]. rewrite Hy. f_equal.
      replace (SECTOR_SIZE + off + Z.of_nat i) with (SECTOR_SIZE + Z.of_nat (Z.to_nat off + i)) by lia.
      apply write_range_in. by rewrite Hk.
    - rewrite !lookup_ge_None_2; [done|lia|]. unfold read_range. rewrite length_fmap, length_seqZ. lia. }
  unfold fsi_free, fsi_next. rewrite (Hrd 488 (to_le 4 w)), (Hrd 492 (to_le 4 v)); try (apply length_to_le); try lia.
  - by rewrite !le_to_le.
  - intros i Hi. rewrite K2, decide_False, K1, decide_True by lia. f_equal. lia.
  - intros i Hi. rewrite K2, decide_True by lia. f_equal. lia.
Qed.

(** What is known of the volume after the cluster [c] has been added after [last]. *)
Record extended (last c : Z) (d d' : Z -> Z) : Prop := {
  ex_entry : forall c', in_table c' -> entry F d' c' =
    if decide (c' = last) then c else if decide (c' = c) then FAT32_EOC_MARK else entry F d c';
  ex_data : forall a, FirstDataSector F * SECTOR_SIZE <= a -> d' a = d a;
  ex_free : fsi_free d' = u32 (fsi_free d - 1);
  ex_next : fsi_next d' = c }.

(** The beginning of _AddNewClusterToChain. *)
Lemma add_body_start s last : dev_ok s ->
  add_cluster_body F last s =
  (if 0 =? fsi_free (vd s) then
    fsi ← lift (set_FSI_Nxt_Free FAT32_UNKNOWN (read_range (vd s) SECTOR_SIZE SECTOR_SIZE)); ret (STATUS_DISK_FULL, 0, Some fsi)
   else r ← _FirstFreeCluster F (fsi_next (vd s)) true;
     add_cluster_link F last (fsi_free (vd s)) (read_range (vd s) SECTOR_SIZE SECTOR_SIZE) r) s.
Proof.
  intros Hd. unfold add_cluster_body.
  erewrite bind_run by (unfold ExAllocatePool; rewrite (proj2 (proj2 Hd)); reflexivity). cbn [negb].
  assert (IoReadDevice vol SIZEOF_FSINFO (u32 (1 * BytesPerSector F)) s =
    Ok ((STATUS_SUCCESS, SECTOR_SIZE, read_range (vd s) SECTOR_SIZE SECTOR_SIZE), s)) as Er.
  { rewrite (lo_bps F HF). pose proof (IoReadDeviceEx_run s vol 1 1 false) as H. rewrite !Z.mul_1_l in H.
    apply H; try apply Hd; layout; unfold MAX_WORD; lia. }
  rewrite (bind_run _ _ _ _ _ Er). cbv beta iota. rewrite SUCCEEDED_success. cbn [negb].
  rewrite (bind_run _ _ _ tt s) by (apply ASSERT_run; by rewrite (lo_bps F HF)).
  rewrite (bind_run _ _ _ (fsi_free (vd s)) s) by (apply lift_run, get_le_run; unfold SECTOR_SIZE; lia).
  rewrite (bind_run _ _ _ (fsi_next (vd s)) s) by (apply lift_run, get_le_run; unfold SECTOR_SIZE; lia). done.
Qed.

Lemma add_body_run s last c : dev_ok s -> valid F last -> entry F (vd s) last <> 0 -> valid F (fsi_next (vd s)) ->
  fsi_free (vd s) <> 0 -> fsi_free (vd s) <> FAT32_UNKNOWN -> first_free (vd s) (fsi_next (vd s)) search_end = Some c ->
  exists s' fsi, add_cluster_body F last s = Ok ((STATUS_SUCCESS, c, Some fsi), s') /\ dev_ok s' /\ valid F c /\ c <> last /\
    (forall a, vd s' a = set_next (set_next (vd s) c FAT32_EOC_MARK) last c a) /\
    Z.of_nat (length fsi) = SECTOR_SIZE /\
    forall d', (forall a, SECTOR_SIZE <= a < 2 * SECTOR_SIZE -> d' a = vd s a) ->
      fsi_free (write_range d' SECTOR_SIZE fsi) = u32 (fsi_free (vd s) - 1) /\
      fsi_next (write_range d' SECTOR_SIZE fsi) = c.
Proof.
  intros Hd Hl Hel Hh Hf0 Hfu Hff. rewrite add_body_start by done. rewrite (proj2 (Z.eqb_neq 0 _)) by done.
  pose proof (FirstFreeCluster_run s _ true Hd Hh) as Hfc. unfold found in Hfc. rewrite Hff in Hfc.
  destruct Hfc as (s1&E1&Hd1&Hv1). rewrite (bind_run _ _ _ _ _ E1).
  unfold add_cluster_link. apply first_free_spec in Hff as (Hc&Hec&_).
  assert (valid F c) as Hvc.
  { unfold valid, search_end, table_sectors in *. pose proof (Z.mul_div_le (CountOfClusters F + 2) 128). layout. lia. }
  rewrite (proj2 (Z.eqb_neq 0 c)) by (unfold valid in Hvc; lia).
  erewrite bind_run by (unfold ExAllocatePool; rewrite (proj2 (proj2 Hd1)); reflexivity). cbn [negb].
  rewrite (bind_run _ _ _ _ _ (lift_run _ s1 _ (fat_position_run last s1 Hd1 (valid_in_table _ Hl)))). cbv beta iota.
  destruct (update_entry_run s1 last (u32 c) Hd1 (valid_in_table _ Hl)) as (bs&s2&E2&E3&Hd2&Hv2).
  rewrite (bind_run _ _ _ (inr tt) s2).
  2: { erewrite ebind_run by (apply read_sector_run; [done|by apply fat_sector_range, valid_in_table]).
       rewrite (bind_run _ _ _ _ _ (lift_run _ s1 _ E2)). exact E3. }
  assert (u32 c = c) as Euc by (layout; rewrite u32_small; [done|rlia]). rewrite Euc in *.
  destruct (set_fsi_run (vd s) c (u32 (fsi_free (vd s) - 1))) as (b1&b2&P1&P2&L2&Hfs).
  rewrite (bind_run _ _ _ _ _ (lift_run _ s2 _ P1)). rewrite (proj2 (Z.eqb_neq _ _)) by done.
  rewrite (bind_run _ _ _ _ _ (lift_run _ s2 _ P2)). exists s2, b2. split_and!; try done.
  - congruence.
  - intros a. rewrite Hv2. unfold set_next at 1 3, entry_bytes. rewrite (read_range_ext _ (set_next (vd s) c FAT32_EOC_MARK) _ (fat_off F last)) by (intros; apply Hv1).
    unfold write_range. by rewrite Hv1.
  - intros d' Hd'. destruct (Hfs d' Hd') as [-> ->]. split; [|by layout; apply Z.mod_small; lia].
    apply (u32_small (u32 _)), u32_range.
Qed.

Lemma AddNewClusterToChain_run s last c : dev_ok s -> valid F last -> entry F (vd s) last <> 0 -> valid F (fsi_next (vd s)) ->
  fsi_free (vd s) <> 0 -> fsi_free (vd s) <> FAT32_UNKNOWN -> first_free (vd s) (fsi_next (vd s)) search_end = Some c ->
  exists s', _AddNewClusterToChain F last s = Ok (inr c, s') /\ dev_ok s' /\ valid F c /\ c <> last /\
    extended last c (vd s) (vd s').
Proof.
  intros Hd Hl Hel Hh Hf0 Hfu Hff.
  destruct (add_body_run s last c Hd Hl Hel Hh Hf0 Hfu Hff) as (s2&fsi&E&Hd2&Hvc&Hne&Hv2&Lf&Hfs).
  unfold _AddNewClusterToChain. rewrite (bind_run _ _ _ tt s).
  2: { apply ASSERT_run. unfold FAT32_EOC. layout. apply negb_true_iff, Z.ltb_ge. lia. }
  rewrite (bind_run _ _ _ _ _ E). cbv beta iota.
  pose proof (IoWriteDeviceEx_run s2 vol 1 1 fsi false) as Hw. rewrite !Z.mul_1_l in Hw.
  destruct Hw as (s3&Ew&Hs3); try apply Hd2; try done; try (layout; unfold MAX_WORD; lia).
  assert (IoWriteDevice vol fsi SIZEOF_FSINFO (u32 (1 * BytesPerSector F)) s2 = Ok ((STATUS_SUCCESS, SECTOR_SIZE), s3)) as Ew'
    by (rewrite (lo_bps F HF); exact Ew).
  rewrite (bind_run _ _ _ _ _ Ew'). cbv beta iota.
  rewrite (bind_run _ _ _ tt s3) by (apply ASSERT_run; by rewrite (lo_bps F HF)). rewrite SUCCEEDED_success.
  exists s3. split; [done|]. split; [by subst s3|]. split; [done|]. split; [done|].
  assert (forall a, vd s3 a = write_range (vd s2) SECTOR_SIZE fsi a) as Hv3
    by (subst s3; intros; rewrite <- vdisk_write, take_ge by (unfold SECTOR_SIZE in *; lia); done).
  assert (forall a, ReservedSectors F * SECTOR_SIZE <= a -> vd s3 a = vd s2 a) as Hout.
  { intros a Ha. rewrite Hv3. apply write_range_out. rewrite Lf. layout. lia. }
  pose proof (valid_in_table _ Hl). pose proof (valid_in_table _ Hvc).
  split.
  - intros c' Hc'. transitivity (entry F (set_next (set_next (vd s) c FAT32_EOC_MARK) last c) c').
    + unfold entry. do 2 f_equal. apply read_range_ext. intros i Hi. rewrite Hout, Hv2; [done|]. layout. unfold in_table in Hc'. lia.
    + rewrite entry_set_next by (try done; layout; lia). case_decide; [done|]. by rewrite entry_set_next.
  - intros a Ha. rewrite Hout, Hv2 by (layout; lia). rewrite !set_next_out by (try done; by right). done.
  - unfold fsi_free at 1. rewrite (read_range_ext _ (write_range (vd s2) SECTOR_SIZE fsi) _ (SECTOR_SIZE + 488)) by (intros; apply Hv3).
    apply Hfs. intros a Ha. rewrite Hv2, !set_next_out; try done; left; layout; lia.
  - unfold fsi_next at 1. rewrite (read_range_ext _ (write_range (vd s2) SECTOR_SIZE fsi) _ (SECTOR_SIZE + 492)) by (intros; apply Hv3).
    apply Hfs. intros a Ha. rewrite Hv2, !set_next_out; try done; left; layout; lia.
Qed.
(** ** Chains *)
(** The clusters of a file, in order. *)
Definition is_chain (d : Z -> Z) (l : list Z) : Prop :=
  l <> [] /\ Forall (valid F) l /\ forall i c, l !! i = Some c -> next F d c = l !! S i.

Lemma chain_valid d l i c : is_chain d l -> l !! i = Some c -> valid F c.
Proof. intros (_&Hv&_) Hi. exact (Forall_lookup_1 _ _ _ _ Hv Hi). Qed.

Lemma chain_same d d' l : is_chain d l -> (forall c, c ∈ l -> next F d' c = next F d c) -> is_chain d' l.
Proof.
  intros (Hn&Hv&Hl) Hs. split_and!; try done. intros i c Hi. rewrite Hs by (by eapply list_elem_of_lookup_2). by apply Hl.
Qed.

Lemma same_chains_chain d d' l : same_chains d d' -> is_chain d l -> is_chain d' l.
Proof.
  intros [Hs _] Hl. eapply chain_same; [done|]. intros c Hc. apply Hs, valid_in_table.
  apply list_elem_of_lookup in Hc as [i Hi]. by eapply chain_valid.
Qed.

(** A chain visits a cluster once. *)
Lemma chain_nodup d l : is_chain d l -> NoDup l.
Proof.
  intros (_&_&Hl). apply NoDup_alt. intros i j c Hi Hj.
  assert (forall n i j, l !! i = l !! j -> is_Some (l !! i) -> l !! (i + n)%nat = l !! (j + n)%nat) as Hs.
  { induction n as [|n IH]; intros a b E Ha; [by rewrite !Nat.add_0_r|]. rewrite <- !plus_n_Sm, <- !plus_Sn_m.
    destruct Ha as [x Ha]. assert (l !! S a = l !! S b) as E' by (rewrite <- (Hl a x Ha); apply Hl; congruence).
    destruct (l !! S a) as [y|] eqn:Ea; [apply IH; [congruence|by eexists]|].
    symmetry in E'. apply lookup_ge_None in E'. apply lookup_ge_None in Ea. by rewrite !lookup_ge_None_2 by lia. }
  pose proof (lookup_lt_Some _ _ _ Hi). pose proof (lookup_lt_Some _ _ _ Hj).
  assert (is_Some (l !! i)) as Si by eauto. assert (is_Some (l !! j)) as Sj by eauto.
  pose proof (Hs (length l - i)%nat i j ltac:(congruence) Si) as H1. pose proof (Hs (length l - j)%nat i j ltac:(congruence) Si) as H2.
  rewrite (lookup_ge_None_2 l (i + (length l - i))) in H1 by lia. symmetry in H1. apply lookup_ge_None in H1.
  rewrite (lookup_ge_None_2 l (j + (length l - j))) in H2 by lia. apply lookup_ge_None in H2. lia.
Qed.

(** Adding a free cluster after the last one of a chain makes the chain longer by it. *)
Lemma extended_chain last c d d' l : extended last c d d' -> valid F last -> valid F c -> c <> last ->
  entry F d c = 0 -> is_chain d l -> list.last l = Some last -> c ∉ l -> is_chain d' (l ++ [c]).
Proof.
  intros Hx Hvl Hvc Hne Hec Hl Hlast Hc. pose proof (chain_nodup d l Hl) as Hnd. destruct Hl as (Hn&Hv&Hl).
  assert (forall c', in_table c' -> c' <> last -> c' <> c -> next F d' c' = next F d c') as Hsame.
  { intros c' Hc' N1 N2. unfold next. rewrite (ex_entry _ _ _ _ Hx c' Hc'). by rewrite !decide_False. }
  pose proof (valid_in_table _ Hvl). pose proof (valid_in_table _ Hvc).
  split_and!; [by destruct l|apply Forall_app; split; [done|by apply Forall_singleton]|].
  intros i x Hi. rewrite last_lookup in Hlast. destruct (decide (i < length l)%nat) as [Hlt|Hge].
  - rewrite lookup_app_l in Hi by done. destruct (decide (S i < length l)%nat) as [Hlt'|Hge'].
    + rewrite lookup_app_l by done. rewrite <- (Hl i x Hi). apply Hsame.
      * apply valid_in_table. by eapply Forall_lookup_1.
      * intros ->. pose proof (NoDup_lookup _ _ _ _ Hnd Hi Hlast). lia.
      * intros ->. apply Hc. by eapply list_elem_of_lookup_2.
    + assert (i = pred (length l)) as -> by lia. rewrite Hlast in Hi. injection Hi as <-.
      rewrite list_lookup_middle by lia. unfold next. rewrite (ex_entry _ _ _ _ Hx) by done. rewrite decide_True by done.
      layout. rewrite (proj2 (Z.eqb_neq c 0)), (proj2 (Z.leb_gt _ c)) by lia. done.
  - rewrite lookup_app_r in Hi by lia. assert (i = length l) as -> by (apply lookup_lt_Some in Hi; cbn in Hi; lia).
    rewrite Nat.sub_diag in Hi. cbn in Hi. injection Hi as <-. rewrite lookup_ge_None_2 by (rewrite length_app; cbn; lia).
    unfold next. rewrite (ex_entry _ _ _ _ Hx) by done. by rewrite decide_False, decide_True.
Qed.
Lemma free_not_in_chain d l c last : is_chain d l -> list.last l = Some last -> entry F d last <> 0 -> entry F d c = 0 -> c ∉ l.
Proof.
  intros (_&_&Hl) Hlast He Hc (i&Hi)%list_elem_of_lookup. pose proof (Hl i c Hi) as Hn.
  unfold next in Hn. rewrite Hc in Hn. cbn in Hn. symmetry in Hn. apply lookup_ge_None in Hn. rewrite last_lookup in Hlast.
  pose proof (lookup_lt_Some _ _ _ Hi). replace i with (pred (length l)) in Hi by lia. congruence.
Qed.

(** Moving past the last cluster of a chain when it is to be extended takes the first free cluster from the hint of FSINFO
    on and links it: the chain is longer by it, every chain that contains neither of the two
    clusters is as before, no byte of the data region changes and FSINFO is brought up to date. *)
Theorem fat_extend_chain s l last j c : dev_ok s -> is_chain (vd s) l -> list.last l = Some last ->
  0 <= j < SectorsPerCluster F -> entry F (vd s) last <> 0 -> valid F (fsi_next (vd s)) ->
  fsi_free (vd s) <> 0 -> fsi_free (vd s) <> FAT32_UNKNOWN -> first_free (vd s) (fsi_next (vd s)) search_end = Some c ->
  exists s', NextSectorInClusterChain F (cluster_sector F last + j) true s = Ok (inr (cluster_sector F c), s') /\ dev_ok s' /\
    is_chain (vd s') (l ++ [c]) /\
    (forall l', is_chain (vd s) l' -> last ∉ l' -> c ∉ l' -> is_chain (vd s') l') /\
    (forall a, FirstDataSector F * SECTOR_SIZE <= a -> vd s' a = vd s a) /\
    fsi_free (vd s') = u32 (fsi_free (vd s) - 1) /\ fsi_next (vd s') = c.
Proof.
  intros Hd Hl Hlast Hj He Hh Hf0 Hfu Hff. pose proof Hlast as Hi. rewrite last_lookup in Hi.
  assert (valid F last) as Hvl by (by eapply chain_valid).
  destruct (AddNewClusterToChain_run s last c Hd Hvl He Hh Hf0 Hfu Hff) as (s'&E&Hd'&Hvc&Hne&Hx).
  pose proof (first_free_spec _ _ _ _ Hff) as (_&Hec&_).
  assert (next F (vd s) last = None) as Hn.
  { destruct Hl as (?&_&Hl). rewrite (Hl _ _ Hi). apply lookup_ge_None_2. destruct l; [done|cbn; lia]. }
  exists s'. split.
  - unfold NextSectorInClusterChain. rewrite (ebind_run _ _ _ _ _ (lift_run _ s _ (ClusterOfSector_run last j s Hd Hvl Hj))).
    destruct (NextClusterInChain_run s last Hd (valid_in_table _ Hvl)) as (r&s0&E0&_&_&Hs0&Hr).
    rewrite Hn in Hr. rewrite Hs0 in E0 by done. rewrite (ebind_run _ _ _ _ _ E0), Hr. cbn [andb negb].
    rewrite (ebind_run _ _ _ _ _ E). unfold ret. by rewrite (FirstSectorOfCluster_run c s Hd Hvc).
  - split; [done|]. split; [|split; [|split; [|split]]]; try apply Hx.
    + eapply extended_chain; try done. by eapply free_not_in_chain.
    + intros l' Hl' N1 N2. eapply chain_same; [done|]. intros c' Hc'.
      assert (in_table c') by (apply list_elem_of_lookup in Hc' as [i' Hi']; eapply valid_in_table, chain_valid; done).
      unfold next. rewrite (ex_entry _ _ _ _ Hx c') by done. rewrite !decide_False; congruence || (intros ->; done).
Qed.

(** The search for a free cluster stops at a sector number instead of a sector count: a cluster whose entry lies in the last
    sectors of the table, as many as there are reserved sectors, is not found although it is free. *)
Theorem fat_free_cluster_missed s first mark c : dev_ok s -> valid F first ->
  first_free (vd s) first search_end = None -> search_end <= c -> valid F c -> entry F (vd s) c = 0 ->
  _FirstFreeCluster F first mark s = Ok (if first <? search_end then inr 0 else inl STATUS_UNSUCCESSFUL, s) /\
  search_end <= CountOfClusters F + 2 - 128 * ReservedSectors F.
Proof.
  intros Hd Hf Hn Hc Hv He. pose proof (FirstFreeCluster_run s first mark Hd Hf) as H. unfold found in H. rewrite Hn in H.
  split; [by rewrite orb_false_r in H|]. unfold search_end, table_sectors. pose proof (Z.mul_div_le (CountOfClusters F + 2) 128). lia.
Qed.

Lemma FirstFreeCluster_unknown s mark : dev_ok s -> _FirstFreeCluster F FAT32_UNKNOWN mark s = Ok (inr 0, s).
Proof.
  intros Hd. unfold _FirstFreeCluster. rewrite (ebind_run _ _ _ _ _ (pool_alloc_run s (proj2 (proj2 Hd)))).
  assert (u32 (CountOfClusters F + 2) = CountOfClusters F + 2) as -> by (layout; unwrap; done).
  erewrite bind_run by (unfold cdiv; rewrite (lo_bps F HF); reflexivity).
  rewrite (proj2 (Z.leb_le _ _)) by (layout; unfold FAT32_UNKNOWN; lia). done.
Qed.

(** When the hint of FSINFO is the value that stands for "unknown", for which the specification of FAT32 asks for a search
    from the first cluster, no cluster is searched, and the extension of a chain stops the kernel. *)
Theorem fat_unknown_hint_panics s last : dev_ok s -> valid F last -> fsi_next (vd s) = FAT32_UNKNOWN ->
  fsi_free (vd s) <> 0 -> fsi_free (vd s) <> FAT32_UNKNOWN ->
  _AddNewClusterToChain F last s = Err AssertFailed.
Proof.
  intros Hd Hl Hn Hf0 Hfu. unfold _AddNewClusterToChain. rewrite (bind_run _ _ _ tt s).
  2: { apply ASSERT_run. unfold FAT32_EOC. layout. apply negb_true_iff, Z.ltb_ge. lia. }
  unfold mbind, M_bind. rewrite add_body_start by done. rewrite (proj2 (Z.eqb_neq 0 _)) by done.
  rewrite Hn, (bind_run _ _ _ _ _ (FirstFreeCluster_unknown s true Hd)). unfold add_cluster_link. cbn [Z.eqb].
  unfold mbind, M_bind, ASSERT, lift, assert_. by rewrite (proj2 (Z.eqb_neq FAT32_UNKNOWN _)) by done.
Qed.

(** On a full disk the extension of a chain reports success with cluster 0, because the status of writing FSINFO back
    replaces STATUS_DISK_FULL; the caller then fails with STATUS_DEVICE_CLUSTER_INVALID. *)
Theorem fat_full_disk_reported s c j : dev_ok s -> valid F c -> 0 <= j < SectorsPerCluster F ->
  entry F (vd s) c <> 0 -> next F (vd s) c = None -> fsi_free (vd s) = 0 ->
  exists s', _AddNewClusterToChain F c s = Ok (inr 0, s') /\
    NextSectorInClusterChain F (cluster_sector F c + j) true s = Ok (inl STATUS_DEVICE_CLUSTER_INVALID, s').
Proof.
  intros Hd Hc Hj He Hn Hf.
  assert (exists s', _AddNewClusterToChain F c s = Ok (inr 0, s')) as [s' E].
  { unfold _AddNewClusterToChain. rewrite (bind_run _ _ _ tt s).
    2: { apply ASSERT_run. unfold FAT32_EOC. layout. apply negb_true_iff, Z.ltb_ge. lia. }
    destruct (put_bytes_run (read_range (vd s) SECTOR_SIZE SECTOR_SIZE) 492 (to_le 4 FAT32_UNKNOWN)) as (b&Eb&Lb&_);
      [lia|rewrite length_read_range, length_to_le; unfold SECTOR_SIZE; lia|].
    rewrite (bind_run _ _ _ (STATUS_DISK_FULL, 0, Some b) s).
    2: { rewrite add_body_start by done. rewrite Hf. cbn [Z.eqb]. by rewrite (bind_run _ _ _ _ _ (lift_run _ s _ Eb)). }
    pose proof (length_read_range (vd s) SECTOR_SIZE SECTOR_SIZE).
    pose proof (IoWriteDeviceEx_run s vol 1 1 b false) as Hw. rewrite !Z.mul_1_l in Hw.
    destruct Hw as (s3&Ew&_); try apply Hd; try (layout; unfold MAX_WORD; lia). exists s3.
    cbv beta iota. rewrite (lo_bps F HF). rewrite (bind_run _ _ _ _ _ Ew). done. }
  exists s'. split; [done|]. unfold NextSectorInClusterChain.
  rewrite (ebind_run _ _ _ _ _ (lift_run _ s _ (ClusterOfSector_run c j s Hd Hc Hj))).
  destruct (NextClusterInChain_run s c Hd (valid_in_table _ Hc)) as (r&s0&E0&_&_&Hs0&Hr).
  rewrite Hn in Hr. rewrite Hs0 in E0 by done. rewrite (ebind_run _ _ _ _ _ E0), Hr. cbn [andb negb].
  rewrite (ebind_run _ _ _ _ _ E). unfold ret, FirstSectorOfCluster. cbn [Z.ltb Z.compare]. by rewrite orb_true_r.
Qed.
End Layout.

(** * Mounting *)
Definition bpb (s : Storage) (off n : Z) : Z := le (read_range (vd s) off n).

(** A boot sector of a FAT32 volume that fits its partition. *)
Record bpb_ok (s : Storage) : Prop := {
  bp_sig : bpb s 510 2 = MBR_BOOT_SIGNATURE;
  bp_bps : bpb s 11 2 = SECTOR_SIZE;
  bp_spc : 1 <= bpb s 13 1 <= 128;
  bp_rsvd : 2 <= bpb s 14 2;
  bp_old : bpb s 22 2 = 0 /\ bpb s 19 2 = 0;
  bp_fats : 0 <= bpb s 16 1 * bpb s 36 4;
  bp_total : bpb s 14 2 + bpb s 16 1 * bpb s 36 4 <= bpb s 32 4 <= PartitionSize vol;
  bp_dword : bpb s 32 4 < 2 ^ 32 }.
Definition bpb_first (s : Storage) : Z := bpb s 14 2 + bpb s 16 1 * bpb s 36 4.
Definition bpb_clusters (s : Storage) : Z := (bpb s 32 4 - bpb_first s) / bpb s 13 1.

(** Mounting a volume whose boot sector is that of a FAT32 volume, with a table large enough for its clusters,
    gives the layout the other operations rely on. *)
Theorem fat_mount_layout s alignment : dev_ok s -> bpb_ok s ->
  FAT16_MAX_CLUSTERS <= bpb_clusters s -> bpb_clusters s + 2 <= FAT32_BAD_CLUSTER ->
  SIZEOF_FAT32_ENTRY * (bpb_clusters s + 2) <= bpb s 16 1 * bpb s 36 4 * SECTOR_SIZE ->
  2 <= bpb s 44 4 < bpb_clusters s + 2 -> alignment <= bpb s 13 1 * SECTOR_SIZE ->
  exists F, FatInitVolume alignment s = Ok (inr F, s) /\ layout_ok F /\
    CountOfClusters F = bpb_clusters s /\ FirstDataSector F = bpb_first s /\ SectorsPerCluster F = bpb s 13 1 /\
    EntriesPerSector F = 16 /\ RootDirectoryStartSector F = cluster_sector F (bpb s 44 4).
Proof.
  intros Hd Hb Hmin Hmax Hfat Hroot Hal. destruct Hb as [Hsig Hbps Hspc Hrs [H16 Ht16] Hnf [Htl Htp] Hdw].
  pose proof (vol_small s Hd) as Hvs. unfold FatInitVolume.
  assert (IoReadDevice vol 512 0 s = Ok ((STATUS_SUCCESS, SECTOR_SIZE, read_range (vd s) 0 SECTOR_SIZE), s)) as Er.
  { pose proof (IoReadDeviceEx_run s vol 0 1 false) as H. rewrite !Z.mul_1_l in H. apply H; try apply Hd; unfold MAX_WORD; lia. }
  rewrite (bind_run _ _ _ _ _ Er). cbv beta iota. rewrite SUCCEEDED_success. cbn [negb].
  assert (forall off n, 0 <= off -> 0 <= n -> off + n <= 512 -> get_le (read_range (vd s) 0 SECTOR_SIZE) off n = Ok (bpb s off n)) as Hg.
  { intros. unfold get_le, bpb. rewrite get_bytes_run by (rewrite ?length_read_range; unfold SECTOR_SIZE; lia). cbn [mbind outcome_bind].
    by rewrite read_range_sub by (unfold SECTOR_SIZE; lia). }
  unfold fat_data_of, bpb_signature, BPB_FATSz16, BPB_FATSz32, BPB_TotSec16, BPB_TotSec32, BPB_RsvdSecCnt, BPB_NumFATs,
    BPB_SecPerClus, BPB_RootClus, BPB_BytsPerSec.
  rewrite !Hg by lia. cbn [mbind outcome_bind]. rewrite Hsig, Z.eqb_refl. cbn [negb]. rewrite H16, Ht16. cbn [Z.eqb negb].
  fold (bpb_first s) in Htl. assert (0 <= bpb_clusters s * bpb s 13 1 <= bpb s 32 4 - bpb_first s) as Hcl.
  { unfold bpb_clusters. pose proof (Z.mul_div_le (bpb s 32 4 - bpb_first s) (bpb s 13 1)). unfold FAT16_MAX_CLUSTERS, bpb_clusters in *. nia. }
  assert (u32 (bpb s 14 2 + u32 (bpb s 16 1 * bpb s 36 4)) = bpb_first s) as Ef.
  { unfold bpb_first in *. rewrite (u32_small (bpb s 16 1 * _)) by rlia. rewrite u32_small by rlia. done. }
  rewrite Ef. rewrite (u32_small (bpb s 32 4 - _)) by (unfold bpb_first in *; rlia).
  unfold cdiv. rewrite (proj2 (Z.eqb_neq (bpb s 13 1) 0)) by lia. cbn [mbind outcome_bind]. fold (bpb_clusters s).
  unfold FAT12_MAX_CLUSTERS, FAT16_MAX_CLUSTERS in *. rewrite !(proj2 (Z.ltb_ge _ _)) by lia. cbn [orb]. rewrite Hbps.
  set (F := fun r => mkFAT (bpb_clusters s) r (bpb s 14 2) (bpb_first s) (bpb s 13 1) SECTOR_SIZE (SECTOR_SIZE / SIZEOF_DIR_ENTRY)
              (u32 (bpb s 13 1 * SECTOR_SIZE))).
  assert (forall r, layout_ok (F r)) as HF by (intros r; split; cbn; unfold bpb_first, SECTOR_SIZE, FAT32_BAD_CLUSTER, SIZEOF_FAT32_ENTRY in *; lia).
  change (mkFAT (bpb_clusters s) 0 _ _ _ _ _ _) with (F 0).
  rewrite (FirstSectorOfCluster_run (F 0) (HF 0) _ s) by (done || (unfold valid; cbn; lia)).
  rewrite (u32_small (bpb s 13 1 * SECTOR_SIZE)) by (unfold SECTOR_SIZE; rlia).
  rewrite (proj2 (Z.leb_le _ _)) by done. exists (F (cluster_sector (F 0) (bpb s 44 4))). split; [|by split_and!; try apply HF].
  unfold lift. cbn. unfold F. by rewrite (u32_small (bpb s 13 1 * SECTOR_SIZE)) by (unfold SECTOR_SIZE; rlia).
Qed.
End Fat.

(** * A volume *)
(** Partition of 140000 sectors from sector 64 on; 66046 clusters of two sectors; one table of 516 sectors after 32
    reserved ones.  The root directory is cluster 2; its first entry is a file of the clusters 5 and 9. *)
Definition demo_vol : PARTITION_INFORMATION := mkPART 64 140000 0xC false.
Definition demo_fat : FAT_DATA := mkFAT 66046 548 32 548 2 512 16 1024.
Definition at_le (off : Z) (n : nat) (v : Z) : list (Z * Z) := zip (seqZ off (Z.of_nat n)) (to_le n v).
Definition demo_entry (c v : Z) : list (Z * Z) := at_le (32 * 512 + 4 * c) 4 v.
(** [free] and [hint] are the fields of FSINFO, [more] further bytes of the volume. *)
Definition demo_bytes (free hint : Z) (more : list (Z * Z)) : list (Z * Z) :=
  at_le 11 2 512 ++ at_le 13 1 2 ++ at_le 14 2 32 ++ at_le 16 1 1 ++ at_le 32 4 132640 ++ at_le 36 4 516 ++ at_le 44 4 2 ++
  at_le 510 2 MBR_BOOT_SIGNATURE ++ at_le (512 + 488) 4 free ++ at_le (512 + 492) 4 hint ++
  demo_entry 2 FAT32_EOC_MARK ++ demo_entry 5 9 ++ demo_entry 9 FAT32_EOC_MARK ++
  at_le (548 * 512) 1 65 ++ at_le (548 * 512 + 11) 1 0x20 ++ at_le (548 * 512 + 26) 2 5 ++ more.
Definition demo_storage (free hint : Z) (more : list (Z * Z)) : Storage :=
  let d := disk_of_bytes (demo_bytes free hint more) in
  mkStorage (fun a => d (a - 64 * 512)) true 200000 [] [].

Lemma demo_layout : layout_ok demo_vol demo_fat.
Proof. split; cbn; unfold SECTOR_SIZE, SIZEOF_FAT32_ENTRY, FAT32_BAD_CLUSTER; lia. Qed.

Lemma demo_dev free hint more : dev_ok demo_vol (demo_storage free hint more).
Proof. split; [|done]. unfold vol_ok, LBA48_MAX_VALUE. cbn. lia. Qed.

Definition demo_s : Storage := demo_storage 1000 10 [].
Lemma demo_chain : is_chain demo_fat (vdisk demo_vol demo_s) [5; 9].
Proof.
  split; [done|]. split; [repeat constructor; unfold valid; cbn; lia|].
  intros [|[|i]] c H; [..|by destruct i]; injection H as <-; vm_compute; reflexivity.
Qed.

Lemma demo_first_free : first_free demo_fat (vdisk demo_vol demo_s) 10 (search_end demo_fat) = Some 10.
Proof. rewrite first_free_cons by (apply Z.ltb_lt; reflexivity). reflexivity. Qed.

Lemma fat_extend_chain_witness : exists s',
  NextSectorInClusterChain demo_vol demo_fat (cluster_sector demo_fat 9 + 1) true demo_s = Ok (inr (cluster_sector demo_fat 10), s') /\
  is_chain demo_fat (vdisk demo_vol s') [5; 9; 10].
Proof.
  destruct (fat_extend_chain demo_vol demo_fat demo_layout demo_s [5; 9] 9 1 10) as (s'&E&_&Hc&_);
    [apply demo_dev|apply demo_chain|reflexivity|cbn; lia|vm_compute; discriminate|unfold valid; vm_compute; by split|
     vm_compute; discriminate|vm_compute; discriminate|apply demo_first_free|].
  exists s'. split; [exact E|exact Hc].
Defined.

Lemma fat_free_cluster_missed_witness :
  _FirstFreeCluster demo_vol demo_fat 62000 true demo_s = Ok (inl STATUS_UNSUCCESSFUL, demo_s) /\ search_end demo_fat <= 66048 - 128 * 32.
Proof.
  apply (fat_free_cluster_missed demo_vol demo_fat demo_layout demo_s 62000 true 62001);
    [apply demo_dev|unfold valid; cbn; lia|apply first_free_nil, Z.leb_le; reflexivity|apply Z.leb_le; reflexivity|unfold valid; cbn; lia|reflexivity].
Defined.

Lemma fat_unknown_hint_panics_witness :
  _AddNewClusterToChain demo_vol demo_fat 9 (demo_storage 1000 FAT32_UNKNOWN []) = Err AssertFailed.
Proof.
  apply (fat_unknown_hint_panics demo_vol demo_fat demo_layout);
    [apply demo_dev|unfold valid; cbn; lia|vm_compute; reflexivity|vm_compute; discriminate|vm_compute; discriminate].
Defined.

Lemma fat_full_disk_reported_witness : exists s',
  _AddNewClusterToChain demo_vol demo_fat 9 (demo_storage 0 10 []) = Ok (inr 0, s') /\
  NextSectorInClusterChain demo_vol demo_fat (cluster_sector demo_fat 9 + 0) true (demo_storage 0 10 []) =
    Ok (inl STATUS_DEVICE_CLUSTER_INVALID, s').
Proof.
  apply (fat_full_disk_reported demo_vol demo_fat demo_layout (demo_storage 0 10 []) 9 0);
    [apply demo_dev|unfold valid; cbn; lia|cbn; lia|vm_compute; discriminate|vm_compute; reflexivity|vm_compute; reflexivity].
Defined.

Lemma fat_mount_layout_witness : exists F, FatInitVolume demo_vol 512 demo_s = Ok (inr F, demo_s) /\ layout_ok demo_vol F /\
  FirstDataSector F = 548.
Proof.
  destruct (fat_mount_layout demo_vol demo_s 512) as (F&E&HF&_&Hf&_);
    [apply demo_dev|..|exists F; split; [exact E|]; split; [exact HF|]; rewrite Hf; vm_compute; reflexivity].
  - split; try (vm_compute; reflexivity); try (vm_compute; split; discriminate || reflexivity); vm_compute; discriminate.
  - vm_compute; discriminate.
  - vm_compute; discriminate.
  - vm_compute; discriminate.
  - vm_compute; split; [discriminate|reflexivity].
  - vm_compute; discriminate.
Defined.
