(* ===== verification/FatFile.v ===== *)
(** FAT32/src/fat_operations.c (FatReadFile, FatWriteFile) and fat_utils.c (directory entries, dates and times), with the read/write
    dispatch of fat32.c.

    A DIR_ENTRY is kept as its 32 bytes.  The buffer of a read is the sequence of bytes stored into it; the buffer of
    a write is a list of bytes.  The clock (IoGetCurrentDateTime) is a parameter. *)
From S2P Require Import Prelude IntUtils Pte Storage Fat.

Definition STATUS_TIME_INVALID : Z := error_status GENERAL_MASK 0x001C.

(** * Dates and times *)
Record DATE := mkDATE { Day : Z; Month : Z; Year : Z }.
Record TIME := mkTIME { Second : Z; Minute : Z; Hour : Z }.
Record DATETIME := mkDATETIME { dt_Date : DATE; dt_Time : TIME }.

(** FATDATE and FATTIME are WORDs of bit fields. *)
Definition fd_Day : field := mkField 0 5.
Definition fd_Month : field := mkField 5 4.
Definition fd_Year : field := mkField 9 7.
Definition ft_Second : field := mkField 0 5.
Definition ft_Minute : field := mkField 5 6.
Definition ft_Hour : field := mkField 11 5.

Definition FAT_DAY_RANGE_MIN : Z := 1.
Definition FAT_DAY_RANGE_MAX : Z := 31.
Definition FAT_MONTH_RANGE_MIN : Z := 1.
Definition FAT_MONTH_RANGE_MAX : Z := 12.
Definition FAT_START_YEAR : Z := 1980.
Definition FAT_SECOND_RANGE_MAX : Z := 29.
Definition FAT_MINUTE_RANGE_MAX : Z := 59.
Definition FAT_HOUR_RANGE_MAX : Z := 23.

Definition _ConvertFatDateToDate (FatDate : Z) : Z + DATE :=
  let day := getf fd_Day FatDate in
  if (day <? FAT_DAY_RANGE_MIN) || (FAT_DAY_RANGE_MAX <? day) then inl STATUS_TIME_INVALID else
  let month := getf fd_Month FatDate in
  if (month <? FAT_MONTH_RANGE_MIN) || (FAT_MONTH_RANGE_MAX <? month) then inl STATUS_TIME_INVALID else
  inr (mkDATE day month (u16 (getf fd_Year FatDate + FAT_START_YEAR))).

Definition _ConvertFatTimeToTime (FatTime : Z) : Z + TIME :=
  let second := getf ft_Second FatTime in
  if FAT_SECOND_RANGE_MAX <? second then inl STATUS_TIME_INVALID else
  let minute := getf ft_Minute FatTime in
  if FAT_MINUTE_RANGE_MAX <? minute then inl STATUS_TIME_INVALID else
  let hour := getf ft_Hour FatTime in
  if FAT_HOUR_RANGE_MAX <? hour then inl STATUS_TIME_INVALID else
  inr (mkTIME (u8 (second * 2)) minute hour).

Definition ConvertFatDateTimeToDateTime (FatDate FatTime : Z) : Z + DATETIME :=
  match _ConvertFatDateToDate FatDate with
  | inl st => inl st
  | inr date => match _ConvertFatTimeToTime FatTime with
                | inl st => inl st
                | inr time => inr (mkDATETIME date time)
                end
  end.

(** The structures that are written start as [old]. *)
Definition _ConvertDateToFatDate (RealDate : DATE) (old : Z) : Z :=
  setf fd_Day (Day RealDate) (setf fd_Month (Month RealDate) (setf fd_Year (Year RealDate - FAT_START_YEAR) old)).
Definition _ConvertTimeToFatTime (RealTime : TIME) (old : Z) : Z :=
  setf ft_Second (Second RealTime / 2) (setf ft_Minute (Minute RealTime) (setf ft_Hour (Hour RealTime) old)).
Definition ConvertDateTimeToFatDateTime (DateTime : DATETIME) (oldDate oldTime : Z) : Z * Z :=
  (_ConvertDateToFatDate (dt_Date DateTime) oldDate, _ConvertTimeToFatTime (dt_Time DateTime) oldTime).

(** * Directory entries *)
Definition ATTR_LONG_NAME : Z := 0x0F.
Definition ATTR_LONG_NAME_MASK : Z := 0x3F.
Definition FREE_ENTRY : Z := 0xE5.
Definition FREE_ALL : Z := 0x00.
Definition FREE_JAP_ENTRY : Z := 0x05.

Definition DIR_Name0 (e : list Z) : Z := le (take 1 e).
Definition DIR_Attr (e : list Z) : Z := le (take 1 (drop 11 e)).
Definition DIR_FstClusHI (e : list Z) : Z := le (take 2 (drop 20 e)).
Definition DIR_FstClusLO (e : list Z) : Z := le (take 2 (drop 26 e)).
Definition DIR_FileSize (e : list Z) : Z := le (take 4 (drop 28 e)).
Definition set_DIR_LstAccDate (v : Z) (e : list Z) : outcome (list Z) := put_bytes e 18 (to_le 2 v).
Definition set_DIR_WrtTime (v : Z) (e : list Z) : outcome (list Z) := put_bytes e 22 (to_le 2 v).
Definition set_DIR_WrtDate (v : Z) (e : list Z) : outcome (list Z) := put_bytes e 24 (to_le 2 v).
Definition set_DIR_FileSize (v : Z) (e : list Z) : outcome (list Z) := put_bytes e 28 (to_le 4 v).
Definition WORDS_TO_DWORD (h l : Z) : Z := Z.lor (u32 (Z.shiftl h 16)) l.
Definition entry_cluster (e : list Z) : Z := WORDS_TO_DWORD (DIR_FstClusHI e) (DIR_FstClusLO e).

Section FatFile.
Context (vol : PARTITION_INFORMATION) (now : DATETIME).

(** The loop of GetDirEntryFromSector. *)
Fixpoint find_dir_entry (fuel : nat) (pDirEntryArray : list Z) (index n cluster : Z) : outcome (option (Z * list Z)) :=
  match fuel with
  | O => Err NoFuel
  | S fuel' =>
    if index <? n then
      e ← get_bytes pDirEntryArray (SIZEOF_DIR_ENTRY * index) SIZEOF_DIR_ENTRY;
      if (FREE_ENTRY =? DIR_Name0 e) || (FREE_JAP_ENTRY =? DIR_Name0 e)
      then find_dir_entry fuel' pDirEntryArray (u64 (index + 1)) n cluster else
      if Z.land (DIR_Attr e) ATTR_LONG_NAME_MASK =? ATTR_LONG_NAME
      then find_dir_entry fuel' pDirEntryArray (u64 (index + 1)) n cluster else
      if cluster =? entry_cluster e then Ok (Some (index, e))
      else find_dir_entry fuel' pDirEntryArray (u64 (index + 1)) n cluster
    else Ok None
  end.

(** The index of the entry and the entry. *)
Definition GetDirEntryFromSector (FatData : FAT_DATA) (EntrySector DirFirstSector : Z) : E (Z * list Z) :=
  let bytesToRead := u32 (BytesPerSector FatData * SectorsPerCluster FatData) in
  _ ⇐ pool_alloc;
  pDirEntryArray ⇐ dev_read vol bytesToRead (u64 (EntrySector * BytesPerSector FatData)) bytesToRead false;
  dirFstClusterToSearch ⇐ lift (ClusterOfSector FatData DirFirstSector);
  o ← lift (find_dir_entry (S (Z.to_nat (bytesToRead / SIZEOF_DIR_ENTRY))) pDirEntryArray 0 (bytesToRead / SIZEOF_DIR_ENTRY)
              dirFstClusterToSearch);
  match o with
  | Some r => eret r
  | None => efail STATUS_ELEMENT_NOT_FOUND
  end.

Definition WriteDirEntryToSector (FatData : FAT_DATA) (EntrySector EntryIndex : Z) (DirEntry : list Z) : E unit :=
  let bytesToReadWrite := u32 (BytesPerSector FatData * SectorsPerCluster FatData) in
  _ ⇐ pool_alloc;
  pDirEntryArray ⇐ dev_read vol bytesToReadWrite (u64 (EntrySector * BytesPerSector FatData)) bytesToReadWrite false;
  pDirEntryArray ← lift (put_bytes pDirEntryArray (SIZEOF_DIR_ENTRY * EntryIndex) DirEntry);
  dev_write vol pDirEntryArray bytesToReadWrite (u64 (EntrySector * BytesPerSector FatData)) bytesToReadWrite false.

(** * Reading and writing *)
(** The loop that moves to the cluster of the first sector. *)
Fixpoint seek (fuel : nat) (FatData : FAT_DATA) (SectorOffset currentSector sectorsTraversed : Z) (extend : bool) : E Z :=
  match fuel with
  | O => fail NoFuel
  | S fuel' =>
    if u64 (sectorsTraversed + SectorsPerCluster FatData) <=? SectorOffset then
      _ ← ASSERT (SectorsPerCluster FatData <=? SectorOffset);
      nextSector ⇐ NextSectorInClusterChain vol FatData currentSector extend;
      seek fuel' FatData SectorOffset nextSector (u64 (sectorsTraversed + SectorsPerCluster FatData)) extend
    else eret currentSector
  end.

(** The sector where the transfer starts and the sectors of the first run. *)
Definition first_run (FatData : FAT_DATA) (BaseFileSector SectorOffset sectors : Z) (extend : bool) : E (Z * Z) :=
  currentSector ⇐ seek (S (S (Z.to_nat SectorOffset))) FatData SectorOffset BaseFileSector 0 extend;
  _ ← ASSERT (negb (0 =? currentSector));
  m ← lift (cmod SectorOffset (SectorsPerCluster FatData));
  eret (u64 (currentSector + m), Z.min sectors (u64 (SectorsPerCluster FatData - m))).

(** The loop of FatReadFile: the sectors that were not read and the bytes. *)
Fixpoint read_runs (fuel : nat) (FatData : FAT_DATA) (currentSector sectorsToRead sectorsRemaining : Z) (Asynchronous : bool)
    (pData : list Z) : E (Z * list Z) :=
  match fuel with
  | O => fail NoFuel
  | S fuel' =>
    let bytesToRead := u64 (sectorsToRead * BytesPerSector FatData) in
    data ⇐ dev_read vol bytesToRead (u64 (currentSector * BytesPerSector FatData)) bytesToRead Asynchronous;
    let sectorsRemaining := u64 (sectorsRemaining - sectorsToRead) in
    if 0 =? sectorsRemaining then eret (sectorsRemaining, pData ++ data) else
    nextSector ⇐ NextSectorInClusterChain vol FatData currentSector false;
    if 0 =? nextSector then eret (sectorsRemaining, pData ++ data) else
    read_runs fuel' FatData nextSector (Z.min (SectorsPerCluster FatData) sectorsRemaining) sectorsRemaining Asynchronous
      (pData ++ data)
  end.

(** The number of sectors read and the bytes stored into the buffer. *)
Definition FatReadFile (FatData : FAT_DATA) (BaseFileSector SectorOffset DirEntrySector SectorsToRead : Z)
    (Asynchronous : bool) : E (Z * list Z) :=
  _ ← ASSERT (IsAddressAligned BaseFileSector (SectorsPerCluster FatData));
  if 0 =? SectorsToRead then eret (0, []) else
  '(currentSector, sectorsToRead) ⇐ first_run FatData BaseFileSector SectorOffset SectorsToRead false;
  '(sectorsRemaining, pData) ⇐
     read_runs (S (Z.to_nat SectorsToRead)) FatData currentSector sectorsToRead SectorsToRead Asynchronous [];
  '(dirEntryIndex, dirEntry) ⇐ GetDirEntryFromSector FatData DirEntrySector BaseFileSector;
  let '(fatDate, fatTime) := ConvertDateTimeToFatDateTime now 0 0 in
  dirEntry ← lift (set_DIR_LstAccDate fatDate dirEntry);
  _ ⇐ WriteDirEntryToSector FatData DirEntrySector dirEntryIndex dirEntry;
  eret (u64 (SectorsToRead - sectorsRemaining), pData).

Fixpoint write_runs (fuel : nat) (FatData : FAT_DATA) (currentSector sectorsToWrite sectorsRemaining : Z) (Asynchronous : bool)
    (pData : list Z) : E unit :=
  match fuel with
  | O => fail NoFuel
  | S fuel' =>
    let bytesToWrite := u64 (sectorsToWrite * BytesPerSector FatData) in
    _ ⇐ dev_write vol pData bytesToWrite (u64 (currentSector * BytesPerSector FatData)) bytesToWrite Asynchronous;
    let sectorsRemaining := u64 (sectorsRemaining - sectorsToWrite) in
    if 0 =? sectorsRemaining then eret tt else
    nextSector ⇐ NextSectorInClusterChain vol FatData currentSector true;
    write_runs fuel' FatData nextSector (Z.min (SectorsPerCluster FatData) sectorsRemaining) sectorsRemaining Asynchronous
      (drop (Z.to_nat bytesToWrite) pData)
  end.

Definition FatWriteFile (FatData : FAT_DATA) (BaseFileSector SectorOffset DirEntrySector : Z) (Buffer : list Z)
    (SectorsToWrite : Z) (Asynchronous : bool) : E Z :=
  _ ← ASSERT (IsAddressAligned BaseFileSector (SectorsPerCluster FatData));
  if 0 =? SectorsToWrite then eret 0 else
  '(currentSector, sectorsToWrite) ⇐ first_run FatData BaseFileSector SectorOffset SectorsToWrite true;
  _ ⇐ write_runs (S (Z.to_nat SectorsToWrite)) FatData currentSector sectorsToWrite SectorsToWrite Asynchronous Buffer;
  '(dirEntryIndex, dirEntry) ⇐ GetDirEntryFromSector FatData DirEntrySector BaseFileSector;
  let nextByteToWrite := u32 (u32 (SectorOffset + SectorsToWrite) * BytesPerSector FatData) in
  dirEntry ← lift (if DIR_FileSize dirEntry <? nextByteToWrite then set_DIR_FileSize nextByteToWrite dirEntry else Ok dirEntry);
  let '(fatDate, fatTime) := ConvertDateTimeToFatDateTime now 0 0 in
  dirEntry ← lift (set_DIR_LstAccDate fatDate dirEntry);
  dirEntry ← lift (set_DIR_WrtDate fatDate dirEntry);
  dirEntry ← lift (set_DIR_WrtTime fatTime dirEntry);
  _ ⇐ WriteDirEntryToSector FatData DirEntrySector dirEntryIndex dirEntry;
  eret SectorsToWrite.

(** * fat32.c: _FatDispatchReadWrite; the status and IoStatus.Information, and the data of a read *)
Record FCB := mkFCB { FileOffsetInVolume : Z; ParentOffsetInVolume : Z }.
Definition _FatDispatchReadWrite (FatData : FAT_DATA) (Fcb : FCB) (Irp : IRP) : M Storage (Z * Z * list Z) :=
  _ ← ASSERT (FileOffsetInVolume Fcb <=? MAX_DWORD);
  _ ← ASSERT (irp_Offset Irp <=? MAX_DWORD);
  _ ← ASSERT (irp_Length Irp <=? MAX_DWORD);
  offset ← lift (cdiv (irp_Offset Irp) (BytesPerSector FatData));
  length ← lift (cdiv (irp_Length Irp) (BytesPerSector FatData));
  r ← (if irp_Write Irp then
         n ⇐ FatWriteFile FatData (u32 (FileOffsetInVolume Fcb)) (u32 offset) (ParentOffsetInVolume Fcb) (irp_Buffer Irp)
               (u32 length) (irp_Asynchronous Irp);
         eret (n, [])
       else FatReadFile FatData (u32 (FileOffsetInVolume Fcb)) (u32 offset) (ParentOffsetInVolume Fcb) (u32 length)
              (irp_Asynchronous Irp));
  match r with
  | inl st => ret (st, 0, [])
  | inr (n, data) => ret (STATUS_SUCCESS, u64 (n * BytesPerSector FatData), data)
  end.
End FatFile.

(** * Dates *)
Ltac by_fields := (split; cbn; lia) || (unfold fields_apart; cbn; lia) || (cbn; lia).

(** A date and time that FAT can represent survives the conversion to the format of the directory entries and back, up to the
    two-second resolution of the format. *)
Theorem fat_datetime_roundtrip (t : DATETIME) od ot :
  1 <= Day (dt_Date t) <= 31 -> 1 <= Month (dt_Date t) <= 12 -> 1980 <= Year (dt_Date t) <= 2107 ->
  0 <= Second (dt_Time t) <= 59 -> 0 <= Minute (dt_Time t) <= 59 -> 0 <= Hour (dt_Time t) <= 23 ->
  let '(fd, ft) := ConvertDateTimeToFatDateTime t od ot in
  ConvertFatDateTimeToDateTime fd ft =
  inr (mkDATETIME (dt_Date t) (mkTIME (Second (dt_Time t) - Second (dt_Time t) mod 2) (Minute (dt_Time t)) (Hour (dt_Time t)))).
Proof.
  destruct t as [[day month year] [second minute hour]]. cbn. intros Hd Hm Hy Hs Hmi Hh.
  unfold ConvertFatDateTimeToDateTime, _ConvertFatDateToDate, _ConvertFatTimeToTime, _ConvertDateToFatDate, _ConvertTimeToFatTime,
    FAT_DAY_RANGE_MIN, FAT_DAY_RANGE_MAX, FAT_MONTH_RANGE_MIN, FAT_MONTH_RANGE_MAX, FAT_START_YEAR, FAT_SECOND_RANGE_MAX,
    FAT_MINUTE_RANGE_MAX, FAT_HOUR_RANGE_MAX.
  cbn [Day Month Year Second Minute Hour].
  pose proof (Z.div_mod second 2). pose proof (Z.mod_pos_bound second 2).
  assert (0 <= second / 2 <= 29) by lia.
  rewrite (getf_setf fd_Day), (getf_setf_apart fd_Month fd_Day), (getf_setf fd_Month), (getf_setf_apart fd_Year fd_Day),
    (getf_setf_apart fd_Year fd_Month), (getf_setf fd_Year) by by_fields.
  rewrite (getf_setf ft_Second), (getf_setf_apart ft_Minute ft_Second), (getf_setf ft_Minute), (getf_setf_apart ft_Hour ft_Second),
    (getf_setf_apart ft_Hour ft_Minute), (getf_setf ft_Hour) by by_fields.
  zbool; try lia. cbn [orb]. unwrap. do 3 f_equal; lia.
Qed.

(** * Files as chains of clusters *)
Section FileSpec.
Context (vol : PARTITION_INFORMATION) (F : FAT_DATA) (HF : layout_ok vol F).
Abbreviation spc := (SectorsPerCluster F).
Abbreviation vd := (vdisk vol).

Ltac layout := pose proof (lo_bps vol F HF); pose proof (lo_spc vol F HF); pose proof (lo_rsvd vol F HF); pose proof (lo_fat vol F HF);
  pose proof (lo_count vol F HF); pose proof (lo_size vol F HF); pose proof (lo_data vol F HF);
  unfold valid, cluster_sector, SIZEOF_FAT32_ENTRY, FAT32_BAD_CLUSTER, SECTOR_SIZE in *.

(** The sector on the volume of the [k]-th sector of a file, and the bytes of [m] of its sectors. *)
Definition file_sector (l : list Z) (k : Z) : Z := cluster_sector F (l !!! Z.to_nat (k / spc)) + k mod spc.
Definition file_bytes (d : Z -> Z) (l : list Z) (k m : Z) : list Z :=
  concat ((fun i => read_range d (file_sector l i * SECTOR_SIZE) SECTOR_SIZE) <$> seqZ k m).
Definition file_length (l : list Z) : Z := Z.of_nat (length l) * spc.

Lemma file_bytes_cons d l k m : 0 < m ->
  file_bytes d l k m = read_range d (file_sector l k * SECTOR_SIZE) SECTOR_SIZE ++ file_bytes d l (k + 1) (m - 1).
Proof. intros. unfold file_bytes. rewrite seqZ_cons by lia. cbn. by replace (Z.pred m) with (m - 1) by lia. Qed.

Lemma file_bytes_nil d l k : file_bytes d l k 0 = [].
Proof. done. Qed.

Lemma file_bytes_app d l k m n : 0 <= m -> 0 <= n ->
  file_bytes d l k m ++ file_bytes d l (k + m) n = file_bytes d l k (m + n).
Proof. intros. unfold file_bytes. by rewrite seqZ_app, fmap_app, concat_app by lia. Qed.

(** Sectors of a cluster are adjacent. *)
Lemma file_sector_add l k j : 0 <= k -> 0 <= j -> k mod spc + j < spc -> file_sector l (k + j) = file_sector l k + j.
Proof.
  intros Hk Hj Hm. pose proof (lo_spc vol F HF). unfold file_sector. pose proof (Z.mod_pos_bound k spc).
  assert ((k + j) / spc = k / spc) as -> by (symmetry; apply Z.div_unique_pos with (r := k mod spc + j); pose proof (Z.div_mod k spc); lia).
  assert ((k + j) mod spc = k mod spc + j) as -> by (symmetry; apply Z.mod_unique_pos with (q := k / spc); pose proof (Z.div_mod k spc); lia).
  lia.
Qed.

Lemma file_bytes_run d l k j : 0 <= k -> 0 <= j -> k mod spc + j <= spc ->
  file_bytes d l k j = read_range d (file_sector l k * SECTOR_SIZE) (j * SECTOR_SIZE).
Proof.
  intros Hk Hj. rewrite <- (Z2Nat.id j) by done. generalize (Z.to_nat j) as n. clear j Hj. intros n.
  induction n as [|n IH]; intros Hm; [done|].
  replace (Z.of_nat (S n)) with (Z.of_nat n + 1) by lia. rewrite <- file_bytes_app by lia. rewrite IH by lia.
  rewrite file_bytes_cons, file_bytes_nil, app_nil_r by lia. rewrite file_sector_add by lia.
  replace ((Z.of_nat n + 1) * SECTOR_SIZE) with (Z.of_nat n * SECTOR_SIZE + SECTOR_SIZE) by lia.
  rewrite <- read_range_app by (unfold SECTOR_SIZE; lia). do 2 f_equal. lia.
Qed.

(** ** Positions *)
Lemma file_pos l k : 0 <= k < file_length l -> (Z.to_nat (k / spc) < length l)%nat /\ 0 <= k mod spc < spc.
Proof.
  intros Hk. unfold file_length in Hk. pose proof (lo_spc vol F HF). split; [|apply Z.mod_pos_bound; lia].
  assert (k / spc < Z.of_nat (length l)) by (apply Z.div_lt_upper_bound; lia). pose proof (Z.div_pos k spc). lia.
Qed.

Lemma file_cluster d l k : is_chain F d l -> 0 <= k < file_length l -> exists c,
  l !! Z.to_nat (k / spc) = Some c /\ valid F c /\ file_sector l k = cluster_sector F c + k mod spc.
Proof.
  intros Hl Hk. destruct (file_pos l k Hk) as [Hi Hm]. destruct (lookup_lt_is_Some_2 _ _ Hi) as [c Hc]. exists c.
  split; [done|]. split; [by eapply chain_valid|]. unfold file_sector. by rewrite (list_lookup_total_correct _ _ _ Hc).
Qed.

Lemma file_sector_range d l k s : dev_ok vol s -> is_chain F d l -> 0 <= k < file_length l ->
  FirstDataSector F <= file_sector l k /\ file_sector l k + (spc - k mod spc) <= PartitionSize vol.
Proof.
  intros Hd Hl Hk. destruct (file_cluster d l k Hl Hk) as (c&_&Hv&->). destruct (file_pos l k Hk).
  pose proof (cluster_range vol F HF c s Hd Hv). lia.
Qed.

(** ** Moving to a cluster *)
Lemma seek_run s l ext off : dev_ok vol s -> is_chain F (vd s) l -> 0 <= off < file_length l -> off < 2 ^ 63 ->
  forall fuel i, (i <= Z.to_nat (off / spc))%nat -> (Z.to_nat (off / spc) - i < fuel)%nat ->
  seek vol fuel F off (cluster_sector F (l !!! i)) (Z.of_nat i * spc) ext s =
  Ok (inr (cluster_sector F (l !!! Z.to_nat (off / spc))), s).
Proof.
  intros Hd Hl Hoff Hoff2. destruct (file_pos l off Hoff) as [Hq _]. pose proof (lo_spc vol F HF) as Hspc.
  pose proof (Z.div_mod off spc ltac:(lia)) as Hdm. pose proof (Z.mod_pos_bound off spc ltac:(lia)) as Hmb.
  assert (0 <= off / spc) as Hq0 by (apply Z.div_pos; lia).
  induction fuel as [|fuel IH]; intros i Hi Hf; [lia|]. cbn [seek].
  assert (Z.of_nat i * spc <= off) by nia. rewrite (u64_small (Z.of_nat i * spc + _)) by rlia.
  destruct (Z.leb_spec (Z.of_nat i * spc + spc) off) as [Hle|Hgt].
  - rewrite (bind_run _ _ _ tt s) by (apply ASSERT_run, Z.leb_le; nia).
    assert (i < Z.to_nat (off / spc))%nat by nia.
    destruct (lookup_lt_is_Some_2 l i ltac:(lia)) as [c Hc]. destruct (lookup_lt_is_Some_2 l (S i) ltac:(lia)) as [c' Hc'].
    rewrite (list_lookup_total_correct _ _ _ Hc).
    pose proof (NextSector_next vol F HF s c 0 c' ext Hd) as Hn. rewrite Z.add_0_r in Hn.
    rewrite (ebind_run _ _ _ _ _ (Hn ltac:(by eapply chain_valid) ltac:(lia) ltac:(rewrite <- Hc'; by apply Hl) ltac:(by eapply chain_valid))).
    specialize (IH (S i)). rewrite (list_lookup_total_correct _ _ _ Hc') in IH.
    replace (Z.of_nat i * spc + spc) with (Z.of_nat (S i) * spc) by lia. apply IH; lia.
  - assert (i = Z.to_nat (off / spc)) as -> by nia. done.
Qed.

Lemma first_run_run s l ext off n : dev_ok vol s -> is_chain F (vd s) l -> 0 <= off < file_length l -> off < 2 ^ 63 ->
  first_run vol F (cluster_sector F (l !!! 0%nat)) off n ext s =
  Ok (inr (file_sector l off, Z.min n (spc - off mod spc)), s).
Proof.
  intros Hd Hl Hoff Hoff2. pose proof (lo_spc vol F HF) as Hspc. destruct (file_pos l off Hoff) as [Hq Hm].
  pose proof (vol_small vol s Hd). unfold first_run. pose proof (seek_run s l ext off Hd Hl Hoff Hoff2) as Hs.
  rewrite (ebind_run _ _ _ _ _ (Hs (S (S (Z.to_nat off))) 0%nat ltac:(lia)
    ltac:(pose proof (Z.div_le_upper_bound off spc off); nia))).
  pose proof (file_sector_range _ l off s Hd Hl Hoff) as [? ?]. unfold file_sector in *.
  assert (0 < FirstDataSector F) by (layout; lia). pose proof (file_cluster _ l off Hl Hoff) as (c&Hc&Hv&_).
  rewrite (list_lookup_total_correct _ _ _ Hc) in *. pose proof (cluster_range vol F HF c s Hd Hv).
  rewrite (bind_run _ _ _ tt s) by (apply ASSERT_run, negb_true_iff, Z.eqb_neq; lia).
  unfold cmod. rewrite (proj2 (Z.eqb_neq spc 0)) by lia. erewrite bind_run by reflexivity. unwrap. done.
Qed.
(** ** Reading *)
Lemma read_n_run s k t asy : dev_ok vol s -> 0 <= k -> 0 < t <= spc -> k + t <= PartitionSize vol ->
  dev_read vol (u64 (t * BytesPerSector F)) (u64 (k * BytesPerSector F)) (u64 (t * BytesPerSector F)) asy s =
  Ok (inr (read_range (vd s) (k * SECTOR_SIZE) (t * SECTOR_SIZE)), s).
Proof.
  intros Hd Hk Ht Hr. pose proof (vol_small vol s Hd). pose proof (lo_spc vol F HF). rewrite (lo_bps vol F HF).
  assert (u64 (k * SECTOR_SIZE) = k * SECTOR_SIZE) as -> by (unfold SECTOR_SIZE; unwrap; done).
  assert (u64 (t * SECTOR_SIZE) = t * SECTOR_SIZE) as -> by (unfold SECTOR_SIZE; unwrap; done).
  apply dev_read_run; unfold MAX_WORD; done || lia.
Qed.

(** The next cluster boundary. *)
Lemma boundary l k t : 0 <= k -> t = spc - k mod spc ->
  (k + t) / spc = k / spc + 1 /\ (k + t) mod spc = 0 /\ file_sector l (k + t) = cluster_sector F (l !!! Z.to_nat (k / spc + 1)).
Proof.
  intros Hk ->. pose proof (lo_spc vol F HF). pose proof (Z.div_mod k spc ltac:(lia)).
  assert ((k + (spc - k mod spc)) / spc = k / spc + 1) as E1 by (symmetry; apply Z.div_unique_pos with (r := 0); lia).
  assert ((k + (spc - k mod spc)) mod spc = 0) as E2 by (symmetry; apply Z.mod_unique_pos with (q := k / spc + 1); lia).
  unfold file_sector. rewrite E1, E2. split_and!; try done; lia.
Qed.

(** Whether the file goes on after the cluster of a sector. *)
Lemma after_cluster s l k ext : dev_ok vol s -> is_chain F (vd s) l -> 0 <= k < file_length l ->
  let k' := k + (spc - k mod spc) in
  (k' < file_length l /\ NextSectorInClusterChain vol F (file_sector l k) ext s = Ok (inr (file_sector l k'), s)) \/
  (k' = file_length l /\ exists s', NextSectorInClusterChain vol F (file_sector l k) false s = Ok (inr 0, s') /\
     dev_ok vol s' /\ same_chains F (vd s) (vd s')).
Proof.
  intros Hd Hl Hk k'. destruct (file_cluster _ l k Hl Hk) as (c&Hc&Hv&->). destruct (file_pos l k Hk) as [Hq Hm].
  destruct (boundary l k _ ltac:(lia) eq_refl) as (Eq&Em&Es). fold k' in Eq, Em, Es. pose proof (lo_spc vol F HF).
  pose proof (Z.div_mod k spc ltac:(lia)). pose proof (Z.div_pos k spc). pose proof Hl as (_&_&Hn). specialize (Hn _ _ Hc).
  replace (Z.to_nat (k / spc + 1)) with (S (Z.to_nat (k / spc))) in Es by lia. unfold file_length in *.
  destruct (l !! S (Z.to_nat (k / spc))) as [c'|] eqn:Ec.
  - left. pose proof (lookup_lt_Some _ _ _ Ec). split; [unfold k'; nia|].
    rewrite (NextSector_next vol F HF s c (k mod spc) c') by (done || by eapply chain_valid).
    by rewrite Es, (list_lookup_total_correct _ _ _ Ec).
  - right. apply lookup_ge_None in Ec. split; [unfold k'; nia|]. by apply NextSector_end.
Qed.

Lemma read_runs_run l asy : forall fuel s k rem acc, dev_ok vol s -> is_chain F (vd s) l -> 0 <= k < file_length l ->
  0 < rem < 2 ^ 63 -> rem < Z.of_nat fuel ->
  exists s', read_runs vol fuel F (file_sector l k) (Z.min rem (spc - k mod spc)) rem asy acc s =
    Ok (inr (rem - Z.min rem (file_length l - k), acc ++ file_bytes (vd s) l k (Z.min rem (file_length l - k))), s') /\
    dev_ok vol s' /\ same_chains F (vd s) (vd s').
Proof.
  induction fuel as [|fuel IH]; intros s k rem acc Hd Hl Hk Hr Hf; [lia|]. cbn [read_runs].
  destruct (file_pos l k Hk) as [Hq Hm]. destruct (file_sector_range _ l k s Hd Hl Hk) as [? ?].
  assert (0 <= FirstDataSector F) by (layout; lia). pose proof (lo_spc vol F HF).
  set (t := Z.min rem (spc - k mod spc)). assert (0 < t <= spc) as Ht by (unfold t; lia).
  rewrite (ebind_run _ _ _ _ _ (read_n_run s (file_sector l k) t asy Hd ltac:(lia) Ht ltac:(unfold t; lia))).
  rewrite (u64_small (rem - t)) by (unfold t; rlia). rewrite <- (file_bytes_run (vd s) l k t) by (unfold t; lia).
  assert (k + (spc - k mod spc) <= file_length l) as Hkl.
  { destruct (after_cluster s l k false Hd Hl Hk) as [[? _]|[? _]]; lia. }
  destruct (Z.eqb_spec 0 (rem - t)) as [E0|E0].
  { exists s. split_and!; [|done..]. unfold eret, ret. do 4 f_equal; [lia|]. do 2 f_equal. lia. }
  assert (t = spc - k mod spc) as Et by (unfold t in *; lia).
  destruct (after_cluster s l k false Hd Hl Hk) as [[Hlt E]|(Heq&s'&E&Hd'&Hs')].
  - rewrite (ebind_run _ _ _ _ _ E). rewrite <- Et in *.
    destruct (file_sector_range _ l (k + t) s Hd Hl ltac:(lia)) as [? _].
    rewrite (proj2 (Z.eqb_neq 0 _)) by (layout; lia).
    destruct (boundary l k t ltac:(lia) Et) as (_&Em&_).
    replace (Z.min spc (rem - t)) with (Z.min (rem - t) (spc - (k + t) mod spc)) by lia.
    destruct (IH s (k + t) (rem - t) (acc ++ file_bytes (vd s) l k t) Hd Hl ltac:(lia) ltac:(lia) ltac:(lia)) as (s'&E'&?&?).
    exists s'. split_and!; try done. rewrite E'. do 4 f_equal; [lia|]. rewrite <- (assoc_L (++)), file_bytes_app by lia. do 2 f_equal. lia.
  - rewrite (ebind_run _ _ _ _ _ E). rewrite Z.eqb_refl. exists s'. split_and!; try done.
    unfold eret, ret. do 4 f_equal; [lia|]. do 2 f_equal. lia.
Qed.
(** ** Directory entries *)
Definition dir_off (dc i : Z) : Z := cluster_sector F dc * SECTOR_SIZE + SIZEOF_DIR_ENTRY * i.
Definition dir_at (d : Z -> Z) (dc i : Z) : list Z := read_range d (dir_off dc i) SIZEOF_DIR_ENTRY.
Definition refers (c : Z) (e : list Z) : bool :=
  negb ((FREE_ENTRY =? DIR_Name0 e) || (FREE_JAP_ENTRY =? DIR_Name0 e)) &&
  negb (Z.land (DIR_Attr e) ATTR_LONG_NAME_MASK =? ATTR_LONG_NAME) && (c =? entry_cluster e).
(** The first entry of a directory cluster that refers to a cluster. *)
Definition first_entry (d : Z -> Z) (dc c i : Z) : Prop :=
  0 <= i < 16 * spc /\ refers c (dir_at d dc i) = true /\ forall j, 0 <= j < i -> refers c (dir_at d dc j) = false.

Lemma find_dir_entry_run d dc c idx : first_entry d dc c idx -> forall fuel i, 0 <= i <= idx -> idx - i < Z.of_nat fuel ->
  find_dir_entry fuel (read_range d (cluster_sector F dc * SECTOR_SIZE) (spc * SECTOR_SIZE)) i (16 * spc) c =
  Ok (Some (idx, dir_at d dc idx)).
Proof.
  intros (Hi&Hr&Hn). pose proof (lo_spc vol F HF). induction fuel as [|fuel IH]; intros i Hii Hf; [lia|]. cbn [find_dir_entry].
  rewrite (proj2 (Z.ltb_lt _ _)) by lia.
  rewrite get_bytes_run by (rewrite ?length_read_range; unfold SIZEOF_DIR_ENTRY, SECTOR_SIZE; lia). cbn [mbind outcome_bind].
  rewrite read_range_sub by (unfold SIZEOF_DIR_ENTRY, SECTOR_SIZE; lia). fold (dir_off dc i). fold (dir_at d dc i).
  unfold refers in *. destruct (decide (i = idx)) as [->|].
  - apply andb_true_iff in Hr as [[Hr1 Hr2]%andb_true_iff Hr3]. apply negb_true_iff in Hr1, Hr2. by rewrite Hr1, Hr2, Hr3.
  - specialize (Hn i ltac:(lia)). rewrite u64_small by rlia. rewrite IH by lia.
    clear Hr. revert Hn. destruct (_ || _); [done|]. destruct (_ =? ATTR_LONG_NAME); [done|]. cbn [negb andb]. by intros ->.
Qed.

Lemma cluster_read_run s dc asy : dev_ok vol s -> valid F dc ->
  dev_read vol (u32 (BytesPerSector F * spc)) (u64 (cluster_sector F dc * BytesPerSector F)) (u32 (BytesPerSector F * spc)) asy s =
  Ok (inr (read_range (vd s) (cluster_sector F dc * SECTOR_SIZE) (spc * SECTOR_SIZE)), s).
Proof.
  intros Hd Hv. destruct (cluster_range vol F HF dc s Hd Hv). pose proof (lo_spc vol F HF).
  assert (u32 (BytesPerSector F * spc) = u64 (spc * BytesPerSector F)) as ->.
  { rewrite (lo_bps vol F HF). unfold SECTOR_SIZE. unwrap. lia. }
  apply read_n_run; (layout; lia) || done.
Qed.

Lemma cluster_write_run s dc buf asy : dev_ok vol s -> valid F dc -> Z.of_nat (length buf) = spc * SECTOR_SIZE ->
  exists s', dev_write vol buf (u32 (BytesPerSector F * spc)) (u64 (cluster_sector F dc * BytesPerSector F))
      (u32 (BytesPerSector F * spc)) asy s = Ok (inr tt, s') /\ dev_ok vol s' /\
    forall a, vd s' a = write_range (vd s) (cluster_sector F dc * SECTOR_SIZE) buf a.
Proof.
  intros Hd Hv Hb. pose proof (lo_spc vol F HF). destruct (cluster_range vol F HF dc s Hd Hv). pose proof (vol_small vol s Hd).
  assert (0 <= cluster_sector F dc) by (layout; lia).
  destruct (dev_write_run vol s (cluster_sector F dc) spc buf asy) as (s'&Ew&Hd'&Hw); [done..|unfold MAX_WORD; lia|lia|lia|].
  exists s'. split_and!; try done.
  - rewrite <- Ew. rewrite (lo_bps vol F HF). f_equal; unfold SECTOR_SIZE; unwrap; lia.
  - intros a. by rewrite Hw, take_ge by lia.
Qed.

Lemma GetDirEntry_run s dc c idx : dev_ok vol s -> valid F dc -> valid F c -> first_entry (vd s) dc c idx ->
  GetDirEntryFromSector vol F (cluster_sector F dc) (cluster_sector F c) s = Ok (inr (idx, dir_at (vd s) dc idx), s).
Proof.
  intros Hd Hv Hc Hx. unfold GetDirEntryFromSector. pose proof (lo_spc vol F HF).
  rewrite (ebind_run _ _ _ _ _ (pool_alloc_run s (proj2 (proj2 Hd)))), (ebind_run _ _ _ _ _ (cluster_read_run s dc false Hd Hv)).
  pose proof (ClusterOfSector_run vol F HF c 0 s Hd Hc ltac:(lia)) as E. rewrite Z.add_0_r in E.
  rewrite (ebind_run _ _ _ _ _ (lift_run _ s _ E)).
  assert (u32 (BytesPerSector F * spc) / SIZEOF_DIR_ENTRY = 16 * spc) as ->.
  { rewrite (lo_bps vol F HF). unfold SECTOR_SIZE, SIZEOF_DIR_ENTRY. unwrap. symmetry. apply Z.div_unique_exact; lia. }
  pose proof Hx as (Hi&_).
  rewrite (bind_run _ _ _ _ _ (lift_run _ s _ (find_dir_entry_run _ _ _ _ Hx (S (Z.to_nat (16 * spc))) 0 ltac:(lia) ltac:(lia)))).
  done.
Qed.

Lemma WriteDirEntry_run s dc idx e : dev_ok vol s -> valid F dc -> 0 <= idx < 16 * spc -> Z.of_nat (length e) = SIZEOF_DIR_ENTRY ->
  exists s', WriteDirEntryToSector vol F (cluster_sector F dc) idx e s = Ok (inr tt, s') /\ dev_ok vol s' /\
    forall a, vd s' a = write_range (vd s) (dir_off dc idx) e a.
Proof.
  intros Hd Hv Hi He. unfold WriteDirEntryToSector. pose proof (lo_spc vol F HF). destruct (cluster_range vol F HF dc s Hd Hv).
  pose proof (vol_small vol s Hd).
  rewrite (ebind_run _ _ _ _ _ (pool_alloc_run s (proj2 (proj2 Hd)))), (ebind_run _ _ _ _ _ (cluster_read_run s dc false Hd Hv)).
  set (l := read_range _ _ _). pose proof (length_read_range (vd s) (cluster_sector F dc * SECTOR_SIZE) (spc * SECTOR_SIZE)) as Hl. fold l in Hl.
  destruct (put_bytes_run l (SIZEOF_DIR_ENTRY * idx) e) as (l'&E&Hl'&_);
    [unfold SIZEOF_DIR_ENTRY in *; lia|unfold SIZEOF_DIR_ENTRY, SECTOR_SIZE in *; lia|].
  rewrite (bind_run _ _ _ _ _ (lift_run _ s _ E)).
  destruct (cluster_write_run s dc l' false Hd Hv) as (s'&Ew&Hd'&Hw); [unfold SECTOR_SIZE in *; lia|].
  exists s'. split_and!; try done. intros a. rewrite Hw. unfold dir_off. apply (write_back _ _ (spc * SECTOR_SIZE)); [done|..];
    unfold SIZEOF_DIR_ENTRY, SECTOR_SIZE in *; lia.
Qed.
(** The cluster of a directory lies in the data region, away from the table. *)
Lemma dir_off_data s dc i : dev_ok vol s -> valid F dc -> 0 <= i < 16 * spc ->
  FirstDataSector F * SECTOR_SIZE <= dir_off dc i /\
  cluster_sector F dc * SECTOR_SIZE <= dir_off dc i /\
  dir_off dc i + SIZEOF_DIR_ENTRY <= (cluster_sector F dc + spc) * SECTOR_SIZE.
Proof.
  intros Hd Hv Hi. destruct (cluster_range vol F HF dc s Hd Hv). unfold dir_off, SIZEOF_DIR_ENTRY, SECTOR_SIZE. lia.
Qed.

Lemma data_same_chains d d' : (forall a, a < FirstDataSector F * SECTOR_SIZE -> d' a = d a) ->
  forall c, in_table F c -> next F d' c = next F d c.
Proof.
  intros H c Hc. unfold next, entry. rewrite (read_range_ext d' d _ (fat_off F c)); [done|].
  intros i Hi. apply H. unfold in_table, fat_off in *. layout. lia.
Qed.

Lemma first_entry_ext d d' dc c i s : dev_ok vol s -> valid F dc -> first_entry d dc c i ->
  (forall a, cluster_sector F dc * SECTOR_SIZE <= a < (cluster_sector F dc + spc) * SECTOR_SIZE -> d' a = d a) ->
  first_entry d' dc c i.
Proof.
  intros Hd Hv (Hi&Hr&Hn) H.
  assert (forall j, 0 <= j < 16 * spc -> dir_at d' dc j = dir_at d dc j) as He.
  { intros j Hj. apply read_range_ext. intros x Hx. apply H. pose proof (dir_off_data s dc j Hd Hv Hj). lia. }
  split; [done|]. split; [by rewrite He|]. intros j Hj. rewrite He by lia. by apply Hn.
Qed.

Definition fat_date (now : DATETIME) : Z := fst (ConvertDateTimeToFatDateTime now 0 0).
Definition fat_time (now : DATETIME) : Z := snd (ConvertDateTimeToFatDateTime now 0 0).

(** What has changed on the volume when the entry [idx] of the directory cluster [dc] got the bytes [new] at [off]. *)
Definition entry_updated (d d' : Z -> Z) (dc idx off : Z) (new : list Z) : Prop :=
  (forall c, in_table F c -> next F d' c = next F d c) /\
  (forall a, FirstDataSector F * SECTOR_SIZE <= a -> d' a = write_range d (dir_off dc idx + off) new a).

Lemma FatReadFile_run now s l dc idx off n asy : dev_ok vol s -> is_chain F (vd s) l ->
  IsAddressAligned (cluster_sector F (l !!! 0%nat)) spc = true ->
  0 <= off < file_length l -> off < 2 ^ 63 -> 0 < n < 2 ^ 63 -> valid F dc -> first_entry (vd s) dc (l !!! 0%nat) idx ->
  exists s', let m := Z.min n (file_length l - off) in
    FatReadFile vol now F (cluster_sector F (l !!! 0%nat)) off (cluster_sector F dc) n asy s =
      Ok (inr (m, file_bytes (vd s) l off m), s') /\ dev_ok vol s' /\
    entry_updated (vd s) (vd s') dc idx 18 (to_le 2 (fat_date now)).
Proof.
  intros Hd Hl Ha Hoff Hoff2 Hn Hdc Hx. unfold FatReadFile. rewrite (bind_run _ _ _ _ _ (ASSERT_run _ _ Ha)).
  rewrite (proj2 (Z.eqb_neq 0 n)) by lia. rewrite (ebind_run _ _ _ _ _ (first_run_run s l false off n Hd Hl Hoff Hoff2)). cbv beta iota.
  destruct (read_runs_run l asy (S (Z.to_nat n)) s off n [] Hd Hl Hoff Hn ltac:(lia)) as (s1&E1&Hd1&Hs1).
  rewrite (ebind_run _ _ _ _ _ E1). cbv beta iota. rewrite app_nil_l.
  assert (valid F (l !!! 0%nat)) as Hv0.
  { destruct Hl as (Hne&Hv&_). destruct l as [|c l]; [done|]. by inversion Hv. }
  assert (first_entry (vd s1) dc (l !!! 0%nat) idx) as Hx1.
  { eapply first_entry_ext; [exact Hd|done|exact Hx|]. intros a Ha'. apply (proj2 Hs1). right.
    destruct (cluster_range vol F HF dc s Hd Hdc). unfold SECTOR_SIZE in *. lia. }
  assert (dir_at (vd s1) dc idx = dir_at (vd s) dc idx) as Hat.
  { apply read_range_ext. intros i Hi. apply (proj2 Hs1). right. destruct Hx as (Hidx&_).
    pose proof (dir_off_data s dc idx Hd Hdc Hidx). lia. }
  rewrite (ebind_run _ _ _ _ _ (GetDirEntry_run s1 dc _ idx Hd1 Hdc Hv0 Hx1)). cbv beta iota.
  destruct (ConvertDateTimeToFatDateTime now 0 0) as [fd ft] eqn:Ecv.
  destruct (put_bytes_run (dir_at (vd s1) dc idx) 18 (to_le 2 fd)) as (e&Ee&Le&_);
    [lia|unfold dir_at; rewrite length_read_range, length_to_le; unfold SIZEOF_DIR_ENTRY; lia|].
  rewrite (bind_run _ _ _ _ _ (lift_run _ s1 _ Ee)). pose proof Hx as (Hidx&_).
  destruct (WriteDirEntry_run s1 dc idx e Hd1 Hdc Hidx) as (s2&E2&Hd2&Hw2).
  { rewrite Le. unfold dir_at. by rewrite length_read_range. }
  exists s2. cbv zeta. rewrite (ebind_run _ _ _ _ _ E2). split_and!; [|done|].
  - unfold eret, ret. do 4 f_equal. rewrite u64_small by rlia. lia.
  - assert (forall a, vd s2 a = write_range (vd s1) (dir_off dc idx + 18) (to_le 2 (fat_date now)) a) as Hw.
    { intros a. rewrite Hw2. unfold fat_date. rewrite Ecv. apply (write_back _ _ SIZEOF_DIR_ENTRY); [exact Ee|lia|].
      rewrite length_to_le. unfold SIZEOF_DIR_ENTRY. lia. }
    split.
    + intros c Hc. rewrite <- (proj1 Hs1 c Hc). apply data_same_chains; [|done]. intros a Ha'. rewrite Hw. apply write_range_out.
      pose proof (dir_off_data s dc idx Hd Hdc Hidx). lia.
    + intros a Ha'. rewrite Hw. unfold write_range. by rewrite (proj2 Hs1 a (or_intror Ha')).
Qed.

(** Reading [n] sectors of a file from sector [off] on delivers the bytes of its clusters in the order of its chain, up to the
    end of the chain; the number of sectors is reported, the date of the last access is recorded in the directory entry,
    and nothing else changes: no other byte of the data region and no successor of a cluster. *)
Theorem fat_read_file now s l dc idx off n asy : dev_ok vol s -> is_chain F (vd s) l ->
  IsAddressAligned (cluster_sector F (l !!! 0%nat)) spc = true ->
  0 <= off < file_length l -> off < 2 ^ 63 -> 0 < n < 2 ^ 63 -> valid F dc -> first_entry (vd s) dc (l !!! 0%nat) idx ->
  exists s', let m := Z.min n (file_length l - off) in
    FatReadFile vol now F (cluster_sector F (l !!! 0%nat)) off (cluster_sector F dc) n asy s =
      Ok (inr (m, file_bytes (vd s) l off m), s') /\ dev_ok vol s' /\
    entry_updated (vd s) (vd s') dc idx 18 (to_le 2 (fat_date now)).
Proof. exact (FatReadFile_run now s l dc idx off n asy). Qed.
(** ** Writing *)
(** The volume after [m] sectors of a file have been written one by one. *)
Fixpoint write_sectors (d : Z -> Z) (l : list Z) (k : Z) (m : nat) (buf : list Z) : Z -> Z :=
  match m with
  | O => d
  | S m' => write_sectors (write_range d (file_sector l k * SECTOR_SIZE) (take 512 buf)) l (k + 1) m' (drop 512 buf)
  end.

Lemma write_range_app d off b1 b2 a :
  write_range (write_range d off b1) (off + Z.of_nat (length b1)) b2 a = write_range d off (b1 ++ b2) a.
Proof.
  destruct (decide (off + Z.of_nat (length b1) <= a)) as [H|H].
  - unfold write_range, zget. destruct (decide (0 <= a - (off + Z.of_nat (length b1)))); [|lia].
    destruct (decide (0 <= a - off)); [|lia]. rewrite lookup_app_r, (lookup_ge_None_2 b1) by lia. cbn. do 2 f_equal. lia.
  - rewrite write_range_out by lia. unfold write_range, zget. case_decide; [|done]. by rewrite lookup_app_l by lia.
Qed.

Lemma write_sectors_ext d d' l m : forall k buf, (forall a, d' a = d a) ->
  forall a, write_sectors d' l k m buf a = write_sectors d l k m buf a.
Proof.
  revert d d'. induction m as [|m IH]; intros d d' k buf H a; [apply H|]. cbn. apply IH. intros b. unfold write_range. by rewrite H.
Qed.

Lemma write_sectors_app d l m : forall k n buf,
  write_sectors d l k (m + n) buf = write_sectors (write_sectors d l k m buf) l (k + Z.of_nat m) n (drop (m * 512) buf).
Proof.
  revert d. induction m as [|m IH]; intros d k n buf; [cbn [write_sectors Nat.add]; by rewrite Z.add_0_r|].
  cbn [write_sectors Nat.add]. rewrite IH. f_equal; [lia|]. rewrite drop_drop. done.
Qed.

Lemma write_sectors_run d l m : forall k buf, 0 <= k -> k mod spc + Z.of_nat m <= spc -> (m * 512 <= length buf)%nat ->
  forall a, write_sectors d l k m buf a = write_range d (file_sector l k * SECTOR_SIZE) (take (m * 512) buf) a.
Proof.
  revert d. induction m as [|m IH]; intros d k buf Hk Hm Hb a.
  { cbn [write_sectors Nat.mul take]. unfold write_range, zget. by case_decide. }
  cbn [write_sectors]. pose proof (lo_spc vol F HF). pose proof (Z.mod_pos_bound k spc).
  replace (S m * 512)%nat with (512 + m * 512)%nat by lia. rewrite <- take_take_drop.
  destruct m as [|m'].
  { cbn [write_sectors Nat.mul take]. rewrite app_nil_r. done. }
  assert ((k + 1) mod spc = k mod spc + 1) as Em.
  { symmetry. apply Z.mod_unique_pos with (q := k / spc); pose proof (Z.div_mod k spc); lia. }
  rewrite IH by (rewrite ?length_drop; lia). rewrite <- write_range_app, length_take, Nat.min_l by lia.
  rewrite file_sector_add by lia. f_equal. unfold SECTOR_SIZE. lia.
Qed.

Lemma write_sectors_out d l m : forall k buf a, (forall i, k <= i < k + Z.of_nat m ->
  a < file_sector l i * SECTOR_SIZE \/ (file_sector l i + 1) * SECTOR_SIZE <= a) -> write_sectors d l k m buf a = d a.
Proof.
  revert d. induction m as [|m IH]; intros d k buf a H; [done|]. cbn [write_sectors].
  rewrite IH by (intros i Hi; apply H; lia). apply write_range_out. specialize (H k ltac:(lia)).
  rewrite length_take. unfold SECTOR_SIZE in *. lia.
Qed.

Lemma file_sector_inj d l i j : is_chain F d l -> 0 <= i < file_length l -> 0 <= j < file_length l ->
  file_sector l i = file_sector l j -> i = j.
Proof.
  intros Hl Hi Hj E. destruct (file_cluster d l i Hl Hi) as (c&Hc&Hvc&E1), (file_cluster d l j Hl Hj) as (c'&Hc'&Hvc'&E2).
  destruct (file_pos l i Hi) as [_ Hm], (file_pos l j Hj) as [_ Hm']. pose proof (lo_spc vol F HF).
  assert (c = c' /\ i mod spc = j mod spc) as [-> Em].
  { rewrite E1, E2 in E. unfold cluster_sector in E. assert (c - 2 = c' - 2) by nia. split; [lia|]. nia. }
  pose proof (NoDup_lookup _ _ _ _ (chain_nodup F d l Hl) Hc Hc') as Eq.
  pose proof (Z.div_mod i spc). pose proof (Z.div_mod j spc). pose proof (Z.div_pos i spc). pose proof (Z.div_pos j spc). nia.
Qed.

Lemma sectors_apart d l i j a : is_chain F d l -> 0 <= i < file_length l -> 0 <= j < file_length l -> i <> j ->
  file_sector l i * SECTOR_SIZE <= a < (file_sector l i + 1) * SECTOR_SIZE ->
  a < file_sector l j * SECTOR_SIZE \/ (file_sector l j + 1) * SECTOR_SIZE <= a.
Proof.
  intros Hl Hi Hj Hne Ha. assert (file_sector l i <> file_sector l j) by (intros E; apply Hne; by eapply file_sector_inj).
  unfold SECTOR_SIZE in *. lia.
Qed.

(** A sector of the file after the write. *)
Lemma write_sectors_read dc l m : forall d k buf i, is_chain F dc l -> 0 <= k -> k + Z.of_nat m <= file_length l ->
  0 <= i < file_length l -> (m * 512 <= length buf)%nat ->
  read_range (write_sectors d l k m buf) (file_sector l i * SECTOR_SIZE) SECTOR_SIZE =
  if decide (k <= i < k + Z.of_nat m) then take 512 (drop (Z.to_nat (i - k) * 512) buf)
  else read_range d (file_sector l i * SECTOR_SIZE) SECTOR_SIZE.
Proof.
  induction m as [|m IH]; intros d k buf i Hl Hk Hm Hi Hb; cbn [write_sectors].
  { by rewrite decide_False by lia. }
  rewrite IH by (try done; rewrite ?length_drop; lia). destruct (decide (i = k)) as [->|Hne].
  - rewrite decide_False, decide_True by lia. replace (Z.to_nat (k - k) * 512)%nat with 0%nat by lia. rewrite drop_0.
    assert (SECTOR_SIZE = Z.of_nat (length (take 512 buf))) as -> by (rewrite length_take; unfold SECTOR_SIZE; lia).
    apply read_write_range.
  - destruct (decide (k + 1 <= i < k + 1 + Z.of_nat m)).
    + rewrite decide_True by lia. rewrite drop_drop. do 2 f_equal. lia.
    + rewrite decide_False by lia. apply read_range_ext. intros x Hx. apply write_range_out. rewrite length_take.
      pose proof (sectors_apart dc l i k (file_sector l i * SECTOR_SIZE + x) Hl Hi ltac:(lia) Hne) as H.
      unfold SECTOR_SIZE in *. lia.
Qed.
Lemma write_sectors_low d l k m buf s : dev_ok vol s -> is_chain F (vd s) l -> 0 <= k -> k + Z.of_nat m <= file_length l ->
  forall a, a < FirstDataSector F * SECTOR_SIZE -> write_sectors d l k m buf a = d a.
Proof.
  intros Hd Hl Hk Hm a Ha. apply write_sectors_out. intros i Hi. left.
  destruct (file_sector_range _ l i s Hd Hl ltac:(lia)). unfold SECTOR_SIZE in *. lia.
Qed.

Lemma write_n_run s k t buf asy : dev_ok vol s -> 0 <= k -> 0 < t <= spc -> k + t <= PartitionSize vol ->
  t * SECTOR_SIZE <= Z.of_nat (length buf) ->
  exists s', dev_write vol buf (u64 (t * BytesPerSector F)) (u64 (k * BytesPerSector F)) (u64 (t * BytesPerSector F)) asy s =
    Ok (inr tt, s') /\ dev_ok vol s' /\ forall a, vd s' a = write_range (vd s) (k * SECTOR_SIZE) (take (Z.to_nat t * 512) buf) a.
Proof.
  intros Hd Hk Ht Hr Hb. pose proof (vol_small vol s Hd). pose proof (lo_spc vol F HF). rewrite (lo_bps vol F HF).
  assert (u64 (k * SECTOR_SIZE) = k * SECTOR_SIZE) as -> by (unfold SECTOR_SIZE; unwrap; done).
  assert (u64 (t * SECTOR_SIZE) = t * SECTOR_SIZE) as -> by (unfold SECTOR_SIZE; unwrap; done).
  destruct (dev_write_run vol s k t buf asy) as (s'&E&Hd'&Hw); try done; [unfold MAX_WORD; lia|].
  exists s'. split_and!; try done. intros a. rewrite Hw. do 2 f_equal. unfold SECTOR_SIZE. lia.
Qed.

Lemma write_runs_run l asy : forall fuel s k rem buf, dev_ok vol s -> is_chain F (vd s) l -> 0 <= k -> k + rem <= file_length l ->
  0 < rem < 2 ^ 63 -> rem < Z.of_nat fuel -> rem * SECTOR_SIZE <= Z.of_nat (length buf) ->
  exists s', write_runs vol fuel F (file_sector l k) (Z.min rem (spc - k mod spc)) rem asy buf s = Ok (inr tt, s') /\
    dev_ok vol s' /\ forall a, vd s' a = write_sectors (vd s) l k (Z.to_nat rem) buf a.
Proof.
  induction fuel as [|fuel IH]; intros s k rem buf Hd Hl Hk Hkr Hr Hf Hb; [lia|]. cbn [write_runs].
  assert (0 <= k < file_length l) as Hkl by lia.
  destruct (file_pos l k Hkl) as [Hq Hm]. destruct (file_sector_range _ l k s Hd Hl Hkl) as [? ?].
  assert (0 <= FirstDataSector F) by (layout; lia). pose proof (lo_spc vol F HF).
  set (t := Z.min rem (spc - k mod spc)). assert (0 < t <= spc /\ t <= rem /\ t <= spc - k mod spc) as (Ht&Ht1&Ht2) by (unfold t; lia).
  destruct (write_n_run s (file_sector l k) t buf asy Hd ltac:(lia) Ht ltac:(lia) ltac:(unfold SECTOR_SIZE in *; lia)) as (s1&E1&Hd1&Hw1).
  rewrite (ebind_run _ _ _ _ _ E1). rewrite (u64_small (rem - t)) by rlia.
  assert (forall a, vd s1 a = write_sectors (vd s) l k (Z.to_nat t) buf a) as Hws.
  { intros a. rewrite Hw1. symmetry. apply write_sectors_run; unfold SECTOR_SIZE in *; lia. }
  destruct (Z.eqb_spec 0 (rem - t)) as [E0|E0].
  { exists s1. replace rem with t by lia. done. }
  assert (is_chain F (vd s1) l) as Hl1.
  { eapply chain_same; [exact Hl|]. intros c Hc. apply data_same_chains.
    - intros a Ha. rewrite Hws. apply (write_sectors_low _ _ _ _ _ s); done || lia.
    - apply valid_in_table. destruct Hl as (_&Hv&_). by eapply Forall_forall. }
  assert (t = spc - k mod spc) as Et by (unfold t in *; lia).
  destruct (after_cluster s1 l k true Hd1 Hl1 Hkl) as [[Hlt E]|(Heq&_)]; [|lia].
  rewrite (ebind_run _ _ _ _ _ E), <- Et. destruct (boundary l k t ltac:(lia) Et) as (_&Em&_).
  replace (Z.min spc (rem - t)) with (Z.min (rem - t) (spc - (k + t) mod spc)) by lia.
  assert (Z.to_nat (u64 (t * BytesPerSector F)) = (Z.to_nat t * 512)%nat) as ->.
  { rewrite (lo_bps vol F HF). unfold SECTOR_SIZE. unwrap. lia. }
  destruct (IH s1 (k + t) (rem - t) (drop (Z.to_nat t * 512) buf)) as (s2&E2&Hd2&Hw2);
    [done|done|lia|lia|lia|lia|rewrite length_drop; unfold SECTOR_SIZE in *; lia|].
  exists s2. split_and!; [done..|]. intros a. rewrite Hw2, (write_sectors_ext _ _ _ _ _ _ Hws).
  replace (Z.to_nat rem) with (Z.to_nat t + Z.to_nat (rem - t))%nat by lia. rewrite write_sectors_app.
  by replace (k + Z.of_nat (Z.to_nat t)) with (k + t) by lia.
Qed.

(** ** The entry of a file that has been written *)
Lemma sub_eq (e e' : list Z) off n : (forall i, (off <= i < off + n)%nat -> e' !! i = e !! i) ->
  take n (drop off e') = take n (drop off e).
Proof.
  intros H. apply list_eq. intros i. destruct (decide (i < n)%nat).
  - rewrite !lookup_take_lt, !lookup_drop by lia. apply H. lia.
  - by rewrite !lookup_take_ge by lia.
Qed.

Lemma put_sub_in e k new e' : put_bytes e k new = Ok e' -> 0 <= k -> k + Z.of_nat (length new) <= Z.of_nat (length e) ->
  take (length new) (drop (Z.to_nat k) e') = new.
Proof.
  intros E Hk Hl. destruct (put_bytes_run e k new Hk Hl) as (e2&E2&L2&K2). rewrite E in E2. injection E2 as <-.
  apply list_eq. intros i. destruct (decide (i < length new)%nat).
  - rewrite lookup_take_lt, lookup_drop, K2, decide_True by lia. f_equal. lia.
  - rewrite lookup_take_ge by lia. by rewrite lookup_ge_None_2 by lia.
Qed.

(** The bytes of an entry that its stamps and its size do not occupy. *)
Definition unstamped (i : nat) : Prop := (i < 18 \/ 20 <= i < 22 \/ 26 <= i < 28)%nat.

Lemma entry_stamped e size fd ft : Z.of_nat (length e) = SIZEOF_DIR_ENTRY -> 0 <= size < 2 ^ 32 -> exists e1 e2 e3 e4,
  (if DIR_FileSize e <? size then set_DIR_FileSize size e else Ok e) = Ok e1 /\ set_DIR_LstAccDate fd e1 = Ok e2 /\
  set_DIR_WrtDate fd e2 = Ok e3 /\ set_DIR_WrtTime ft e3 = Ok e4 /\ Z.of_nat (length e4) = SIZEOF_DIR_ENTRY /\
  DIR_FileSize e4 = Z.max (DIR_FileSize e) size /\ forall i, unstamped i -> e4 !! i = e !! i.
Proof.
  intros He Hs. unfold SIZEOF_DIR_ENTRY in *.
  assert (exists e1, (if DIR_FileSize e <? size then set_DIR_FileSize size e else Ok e) = Ok e1 /\ length e1 = length e /\
    DIR_FileSize e1 = Z.max (DIR_FileSize e) size /\ forall i, unstamped i -> e1 !! i = e !! i) as (e1&E1&L1&S1&K1).
  { destruct (Z.ltb_spec (DIR_FileSize e) size); [|exists e; split_and!; try done; lia].
    destruct (put_bytes_run e 28 (to_le 4 size)) as (e1&E1&L1&K1); [lia|rewrite length_to_le; lia|].
    exists e1. split_and!; try done.
    - unfold DIR_FileSize at 1. pose proof (put_sub_in e 28 (to_le 4 size) e1 E1 ltac:(lia) ltac:(rewrite length_to_le; lia)) as Hp.
      rewrite length_to_le in Hp. change (Z.to_nat 28) with 28%nat in Hp. rewrite Hp, le_to_le, Z.mod_small by (cbn; lia). lia.
    - intros i Hi. rewrite K1, length_to_le, decide_False; [done|]. unfold unstamped in Hi. lia. }
  destruct (put_bytes_run e1 18 (to_le 2 fd)) as (e2&E2&L2&K2); [lia|rewrite length_to_le; lia|].
  destruct (put_bytes_run e2 24 (to_le 2 fd)) as (e3&E3&L3&K3); [lia|rewrite length_to_le; lia|].
  destruct (put_bytes_run e3 22 (to_le 2 ft)) as (e4&E4&L4&K4); [lia|rewrite length_to_le; lia|].
  rewrite length_to_le in K2, K3, K4. exists e1, e2, e3, e4. split_and!; try done; [lia| |].
  - rewrite <- S1. unfold DIR_FileSize. f_equal. apply sub_eq. intros i Hi. rewrite K4, K3, K2, !decide_False by lia. done.
  - intros i Hi. unfold unstamped in *. rewrite K4, K3, K2, !decide_False by lia. by apply K1.
Qed.

Lemma refers_unstamped c e e' : (forall i, unstamped i -> e' !! i = e !! i) -> refers c e' = refers c e.
Proof.
  intros H. unfold refers, DIR_Name0, DIR_Attr, entry_cluster, DIR_FstClusHI, DIR_FstClusLO.
  rewrite (sub_eq e e' 11 1), (sub_eq e e' 20 2), (sub_eq e e' 26 2) by (intros; apply H; unfold unstamped; lia).
  pose proof (sub_eq e e' 0 1) as H0. rewrite !drop_0 in H0. by rewrite H0 by (intros; apply H; unfold unstamped; lia).
Qed.
(** Bytes of a cluster, and clusters do not overlap. *)
Definition in_cluster (c a : Z) : Prop := cluster_sector F c * SECTOR_SIZE <= a < (cluster_sector F c + spc) * SECTOR_SIZE.
Lemma clusters_apart c c' a : c <> c' -> in_cluster c a -> ~ in_cluster c' a.
Proof. unfold in_cluster, cluster_sector, SECTOR_SIZE. pose proof (lo_spc vol F HF). intros Hne H1 H2. nia. Qed.

Lemma file_sector_cluster d l i a : is_chain F d l -> 0 <= i < file_length l ->
  file_sector l i * SECTOR_SIZE <= a < (file_sector l i + 1) * SECTOR_SIZE -> exists c, c ∈ l /\ valid F c /\ in_cluster c a.
Proof.
  intros Hl Hi Ha. destruct (file_cluster d l i Hl Hi) as (c&Hc&Hv&E). destruct (file_pos l i Hi) as [_ Hm].
  exists c. split; [by eapply list_elem_of_lookup_2|]. split; [done|]. unfold in_cluster. rewrite E in Ha. unfold SECTOR_SIZE in *. lia.
Qed.

(** What a write of [n] sectors from sector [off] on leaves on the volume. *)
Record file_written (d d' : Z -> Z) (l : list Z) (off n : Z) (buf : list Z) (dc idx : Z) : Prop := {
  fw_next : forall c, in_table F c -> next F d' c = next F d c;
  fw_sector : forall i, 0 <= i < file_length l -> read_range d' (file_sector l i * SECTOR_SIZE) SECTOR_SIZE =
    if decide (off <= i < off + n) then take 512 (drop (Z.to_nat (i - off) * 512) buf)
    else read_range d (file_sector l i * SECTOR_SIZE) SECTOR_SIZE;
  fw_other : forall c a, valid F c -> c ∉ l -> c <> dc -> in_cluster c a -> d' a = d a;
  fw_size : DIR_FileSize (dir_at d' dc idx) = Z.max (DIR_FileSize (dir_at d dc idx)) ((off + n) * SECTOR_SIZE);
  fw_entries : forall j, 0 <= j < 16 * spc -> j <> idx -> dir_at d' dc j = dir_at d dc j;
  fw_first : first_entry d' dc (l !!! 0%nat) idx }.

Section Written.
Context (s : Storage) (Hd : dev_ok vol s) (l : list Z) (Hl : is_chain F (vd s) l) (off n : Z) (Hoff : 0 <= off) (Hn : 0 < n)
  (Hlen : off + n <= file_length l) (buf : list Z) (Hbuf : n * SECTOR_SIZE <= Z.of_nat (length buf))
  (dc idx : Z) (Hdc : valid F dc) (Hdl : dc ∉ l) (Hx : first_entry (vd s) dc (l !!! 0%nat) idx).

Abbreviation d1 := (write_sectors (vd s) l off (Z.to_nat n) buf).

Lemma written_dir a : in_cluster dc a -> d1 a = vd s a.
Proof.
  intros Ha. apply write_sectors_out. intros i Hi. destruct (decide (file_sector l i * SECTOR_SIZE <= a < (file_sector l i + 1) * SECTOR_SIZE)) as [Hin|]; [|lia].
  destruct (file_sector_cluster _ l i a Hl ltac:(lia) Hin) as (c&Hc&Hv&Hc2). exfalso.
  destruct (decide (c = dc)) as [->|Hne]; [done|]. by apply (clusters_apart c dc a Hne Hc2).
Qed.

Lemma in_dir j x : 0 <= j < 16 * spc -> 0 <= x < SIZEOF_DIR_ENTRY -> in_cluster dc (dir_off dc j + x).
Proof. intros Hj Hxx. pose proof (dir_off_data s dc j Hd Hdc Hj). unfold in_cluster. lia. Qed.

Lemma written_dir_at j : 0 <= j < 16 * spc -> dir_at d1 dc j = dir_at (vd s) dc j.
Proof. intros Hj. apply read_range_ext. intros x Hxx. by apply written_dir, in_dir. Qed.

Lemma file_written_intro d' e : Z.of_nat (length e) = SIZEOF_DIR_ENTRY ->
  (forall a, d' a = write_range d1 (dir_off dc idx) e a) ->
  DIR_FileSize e = Z.max (DIR_FileSize (dir_at (vd s) dc idx)) ((off + n) * SECTOR_SIZE) ->
  (forall i, unstamped i -> e !! i = dir_at (vd s) dc idx !! i) ->
  file_written (vd s) d' l off n buf dc idx.
Proof.
  intros He Hd' Hsz Hu. pose proof Hx as (Hidx&Hr&Hno).
  assert (forall c a, c <> dc -> in_cluster c a -> d' a = d1 a) as Hout.
  { intros c a Hc Ha. rewrite Hd'. apply write_range_out. rewrite He.
    pose proof (clusters_apart c dc a Hc Ha) as Hno'. unfold in_cluster in Hno'. pose proof (dir_off_data s dc idx Hd Hdc Hidx). lia. }
  assert (forall j, 0 <= j < 16 * spc -> dir_at d' dc j = if decide (j = idx) then e else dir_at (vd s) dc j) as Hat.
  { intros j Hj. case_decide as E.
    - subst j. unfold dir_at. rewrite (read_range_ext d' (write_range d1 (dir_off dc idx) e) _ (dir_off dc idx)) by (intros; apply Hd').
      rewrite <- He. apply read_write_range.
    - rewrite <- written_dir_at by done. apply read_range_ext. intros x Hxx. rewrite Hd'. apply write_range_out.
      rewrite He. unfold dir_off, SIZEOF_DIR_ENTRY in *. lia. }
  split.
  - intros c Hc. apply data_same_chains; [|done]. intros a Ha. rewrite Hd', write_range_out.
    + apply (write_sectors_low _ _ _ _ _ s); done || lia.
    + pose proof (dir_off_data s dc idx Hd Hdc Hidx). lia.
  - intros i Hi. transitivity (read_range d1 (file_sector l i * SECTOR_SIZE) SECTOR_SIZE).
    + apply read_range_ext. intros x Hxx.
      destruct (file_sector_cluster _ l i (file_sector l i * SECTOR_SIZE + x) Hl Hi ltac:(lia)) as (c&Hc&_&Hin).
      apply (Hout c); [by intros ->|done].
    + rewrite (write_sectors_read (vd s)) by (try done; unfold SECTOR_SIZE in *; lia). by replace (Z.of_nat (Z.to_nat n)) with n by lia.
  - intros c a Hv Hc Hne Ha. rewrite (Hout c) by done. apply write_sectors_out. intros i Hi.
    destruct (decide (file_sector l i * SECTOR_SIZE <= a < (file_sector l i + 1) * SECTOR_SIZE)) as [Hin|]; [|lia].
    destruct (file_sector_cluster _ l i a Hl ltac:(lia) Hin) as (c2&Hc2&_&Hin2). exfalso.
    apply (clusters_apart c2 c a); [|done..]. by intros ->.
  - by rewrite Hat, decide_True.
  - intros j Hj Hne. by rewrite Hat, decide_False.
  - split; [done|]. split; [rewrite Hat, decide_True by done; by rewrite (refers_unstamped _ _ _ Hu)|].
    intros j Hj. rewrite Hat, decide_False by lia. by apply Hno.
Qed.
End Written.

Lemma FatWriteFile_run now s l dc idx off n buf asy : dev_ok vol s -> is_chain F (vd s) l ->
  IsAddressAligned (cluster_sector F (l !!! 0%nat)) spc = true ->
  0 <= off -> 0 < n -> off + n <= file_length l -> (off + n) * SECTOR_SIZE < 2 ^ 32 ->
  n * SECTOR_SIZE <= Z.of_nat (length buf) -> valid F dc -> dc ∉ l -> first_entry (vd s) dc (l !!! 0%nat) idx ->
  exists s', FatWriteFile vol now F (cluster_sector F (l !!! 0%nat)) off (cluster_sector F dc) buf n asy s = Ok (inr n, s') /\
    dev_ok vol s' /\ file_written (vd s) (vd s') l off n buf dc idx.
Proof.
  intros Hd Hl Ha Hoff Hn Hlen Hsz Hbuf Hdc Hdl Hx. unfold FatWriteFile. rewrite (bind_run _ _ _ _ _ (ASSERT_run _ _ Ha)).
  rewrite (proj2 (Z.eqb_neq 0 n)) by lia. unfold SECTOR_SIZE in Hsz.
  rewrite (ebind_run _ _ _ _ _ (first_run_run s l true off n Hd Hl ltac:(lia) ltac:(lia))). cbv beta iota.
  destruct (write_runs_run l asy (S (Z.to_nat n)) s off n buf Hd Hl Hoff Hlen ltac:(lia) ltac:(lia) Hbuf) as (s1&E1&Hd1&Hw1).
  rewrite (ebind_run _ _ _ _ _ E1).
  assert (valid F (l !!! 0%nat)) as Hv0.
  { destruct Hl as (Hne&Hv&_). destruct l as [|c l0]; [done|]. by inversion Hv. }
  pose proof (written_dir s l Hl off n Hoff Hn Hlen buf dc Hdl) as Hwd. pose proof Hx as (Hidx&_).
  assert (first_entry (vd s1) dc (l !!! 0%nat) idx) as Hx1.
  { eapply first_entry_ext; [exact Hd|done|exact Hx|]. intros a Ha'. rewrite Hw1. by apply Hwd. }
  assert (dir_at (vd s1) dc idx = dir_at (vd s) dc idx) as Hat.
  { apply read_range_ext. intros x Hxx. rewrite Hw1. apply Hwd. by apply (in_dir s Hd). }
  rewrite (ebind_run _ _ _ _ _ (GetDirEntry_run s1 dc _ idx Hd1 Hdc Hv0 Hx1)). cbv beta iota. rewrite Hat.
  assert (u32 (u32 (off + n) * BytesPerSector F) = (off + n) * SECTOR_SIZE) as Esz.
  { rewrite (lo_bps vol F HF). unfold SECTOR_SIZE in *. unwrap. done. }
  rewrite Esz. destruct (ConvertDateTimeToFatDateTime now 0 0) as [fd ft].
  destruct (entry_stamped (dir_at (vd s) dc idx) ((off + n) * SECTOR_SIZE) fd ft) as (e1&e2&e3&e4&X1&X2&X3&X4&L4&S4&K4).
  { unfold dir_at. by rewrite length_read_range. }
  { unfold SECTOR_SIZE. lia. }
  rewrite (bind_run _ _ _ _ _ (lift_run _ s1 _ X1)), (bind_run _ _ _ _ _ (lift_run _ s1 _ X2)),
    (bind_run _ _ _ _ _ (lift_run _ s1 _ X3)), (bind_run _ _ _ _ _ (lift_run _ s1 _ X4)).
  destruct (WriteDirEntry_run s1 dc idx e4 Hd1 Hdc Hidx L4) as (s2&E2&Hd2&Hw2).
  exists s2. rewrite (ebind_run _ _ _ _ _ E2). split_and!; [done..|].
  apply (file_written_intro s Hd l Hl off n Hoff Hn Hlen buf Hbuf dc idx Hdc Hdl Hx _ e4); try done.
  intros a. rewrite Hw2. unfold write_range. by rewrite Hw1.
Qed.

(** Writing [n] sectors within the clusters of a file: exactly these sectors hold the buffer, the other sectors of the
    file, every cluster that belongs neither to the file nor to its directory, the other directory entries and all chains are as before, and
    the recorded size covers the last sector written. *)
Theorem fat_write_file now s l dc idx off n buf asy : dev_ok vol s -> is_chain F (vd s) l ->
  IsAddressAligned (cluster_sector F (l !!! 0%nat)) spc = true ->
  0 <= off -> 0 < n -> off + n <= file_length l -> (off + n) * SECTOR_SIZE < 2 ^ 32 ->
  n * SECTOR_SIZE <= Z.of_nat (length buf) -> valid F dc -> dc ∉ l -> first_entry (vd s) dc (l !!! 0%nat) idx ->
  exists s', FatWriteFile vol now F (cluster_sector F (l !!! 0%nat)) off (cluster_sector F dc) buf n asy s = Ok (inr n, s') /\
    dev_ok vol s' /\ file_written (vd s) (vd s') l off n buf dc idx.
Proof. exact (FatWriteFile_run now s l dc idx off n buf asy). Qed.
Lemma file_bytes_slices d l off m buf : forall j, 0 <= j ->
  (forall i, off + j <= i < off + j + Z.of_nat m ->
     read_range d (file_sector l i * SECTOR_SIZE) SECTOR_SIZE = take 512 (drop (Z.to_nat (i - off) * 512) buf)) ->
  file_bytes d l (off + j) (Z.of_nat m) = take (m * 512) (drop (Z.to_nat j * 512) buf).
Proof.
  induction m as [|m IH]; intros j Hj H; [done|]. rewrite file_bytes_cons by lia.
  rewrite H by lia. replace (Z.of_nat (S m) - 1) with (Z.of_nat m) by lia. rewrite <- Z.add_assoc, IH by (try lia; intros; apply H; lia).
  replace (S m * 512)%nat with (512 + m * 512)%nat by lia. rewrite <- take_take_drop, drop_drop.
  f_equal; [do 2 f_equal; lia|]. do 2 f_equal. lia.
Qed.

Lemma written_bytes d d' l off n buf dc idx : 0 <= off -> 0 < n -> off + n <= file_length l ->
  file_written d d' l off n buf dc idx -> file_bytes d' l off n = take (Z.to_nat n * 512) buf.
Proof.
  intros Hoff Hn Hlen Hw. pose proof (file_bytes_slices d' l off (Z.to_nat n) buf 0 ltac:(lia)) as H.
  rewrite Z.add_0_r, Z2Nat.id, drop_0 in H by lia. apply H. intros i Hi. rewrite (fw_sector _ _ _ _ _ _ _ _ Hw) by lia.
  by rewrite decide_True by lia.
Qed.

(** What is written to a file is what is read from it. *)
Theorem fat_write_read now now' s l dc idx off n buf asy asy' : dev_ok vol s -> is_chain F (vd s) l ->
  IsAddressAligned (cluster_sector F (l !!! 0%nat)) spc = true ->
  0 <= off -> 0 < n -> off + n <= file_length l -> (off + n) * SECTOR_SIZE < 2 ^ 32 ->
  Z.of_nat (length buf) = n * SECTOR_SIZE -> valid F dc -> dc ∉ l -> first_entry (vd s) dc (l !!! 0%nat) idx ->
  exists s' s'', FatWriteFile vol now F (cluster_sector F (l !!! 0%nat)) off (cluster_sector F dc) buf n asy s = Ok (inr n, s') /\
    FatReadFile vol now' F (cluster_sector F (l !!! 0%nat)) off (cluster_sector F dc) n asy' s' = Ok (inr (n, buf), s'').
Proof.
  intros Hd Hl Ha Hoff Hn Hlen Hsz Hbuf Hdc Hdl Hx.
  destruct (FatWriteFile_run now s l dc idx off n buf asy) as (s'&E&Hd'&Hw); try done; [lia|].
  assert (is_chain F (vd s') l) as Hl'.
  { eapply chain_same; [exact Hl|]. intros c Hc. apply (fw_next _ _ _ _ _ _ _ _ Hw), valid_in_table.
    destruct Hl as (_&Hv&_). by eapply Forall_forall. }
  destruct (FatReadFile_run now' s' l dc idx off n asy' Hd' Hl' Ha) as (s''&E'&_&_);
    try done; [lia|unfold SECTOR_SIZE in *; lia..|apply Hw|].
  exists s', s''. split; [done|]. cbv zeta in E'. rewrite Z.min_l in E' by lia. rewrite E'. do 4 f_equal.
  rewrite (written_bytes _ _ _ _ _ _ _ _ Hoff Hn Hlen Hw). apply take_ge. unfold SECTOR_SIZE in *. lia.
Qed.
End FileSpec.

(** * Examples on the volume of [Fat] *)
Definition demo_now : DATETIME := mkDATETIME (mkDATE 17 5 2021) (mkTIME 30 12 9).

Lemma demo_first_entry : first_entry demo_fat (vdisk demo_vol demo_s) 2 ([5; 9] !!! 0%nat) 0.
Proof. split; [cbn; lia|]. split; [vm_compute; reflexivity|]. intros j Hj. lia. Qed.

Lemma fat_read_file_witness : exists s', FatReadFile demo_vol demo_now demo_fat (cluster_sector demo_fat 5) 1 (cluster_sector demo_fat 2) 7 true demo_s =
  Ok (inr (3, file_bytes demo_fat (vdisk demo_vol demo_s) [5; 9] 1 3), s').
Proof.
  destruct (fat_read_file demo_vol demo_fat demo_layout demo_now demo_s [5; 9] 2 0 1 7 true) as (s'&E&_);
    [apply demo_dev|apply demo_chain|vm_compute; reflexivity|unfold file_length; cbn; lia|lia|lia|unfold valid; cbn; lia|apply demo_first_entry|].
  exists s'. exact E.
Defined.

Lemma fat_write_file_witness : exists s', FatWriteFile demo_vol demo_now demo_fat (cluster_sector demo_fat 5) 1 (cluster_sector demo_fat 2)
    (replicate 1024 7) 2 false demo_s = Ok (inr 2, s') /\
  DIR_FileSize (dir_at demo_fat (vdisk demo_vol s') 2 0) = 1536.
Proof.
  destruct (fat_write_file demo_vol demo_fat demo_layout demo_now demo_s [5; 9] 2 0 1 2 (replicate 1024 7) false) as (s'&E&_&Hw);
    [apply demo_dev|apply demo_chain|vm_compute; reflexivity|lia|lia|unfold file_length; cbn; lia|unfold SECTOR_SIZE; lia|
     rewrite length_replicate; unfold SECTOR_SIZE; lia|unfold valid; cbn; lia|set_solver|apply demo_first_entry|].
  exists s'. split; [exact E|]. rewrite (fw_size _ _ _ _ _ _ _ _ _ Hw). vm_compute. reflexivity.
Defined.

Lemma fat_write_read_witness : exists s' s'',
  FatWriteFile demo_vol demo_now demo_fat (cluster_sector demo_fat 5) 1 (cluster_sector demo_fat 2) (replicate 1024 7) 2 false demo_s = Ok (inr 2, s') /\
  FatReadFile demo_vol demo_now demo_fat (cluster_sector demo_fat 5) 1 (cluster_sector demo_fat 2) 2 true s' = Ok (inr (2, replicate 1024 7), s'').
Proof.
  apply (fat_write_read demo_vol demo_fat demo_layout demo_now demo_now demo_s [5; 9] 2 0 1 2 (replicate 1024 7) false true);
    [apply demo_dev|apply demo_chain|vm_compute; reflexivity|lia|lia|unfold file_length; cbn; lia|unfold SECTOR_SIZE; lia|
     rewrite length_replicate; unfold SECTOR_SIZE; lia|unfold valid; cbn; lia|set_solver|apply demo_first_entry].
Defined.

Lemma fat_datetime_roundtrip_witness :
  let '(fd, ft) := ConvertDateTimeToFatDateTime demo_now 0 0 in
  ConvertFatDateTimeToDateTime fd ft = inr demo_now.
Proof. apply (fat_datetime_roundtrip demo_now 0 0); cbn; lia. Defined.
