(* ===== verification/FatDir.v ===== *)
(** FAT32/src/fat_operations.c (FatSearch, FatSearchDirectoryEntry, FatCreateDirectoryEntry, FatQueryDirectory), the name
    conversions of fat_utils.c and the create, close and query dispatch functions of fat32.c.

    Names and paths are lists of characters; what the string functions do to them is what [ClString] shows of
    the code of cl_string.c.  Local character arrays that are updated in place are lists of bytes of
    their size.  The loop over a directory tests the entry behind the last one of a cluster before it reads the next cluster:
    the byte found there, behind the buffer, is the parameter [slack]. *)
From S2P Require Import Prelude IntUtils ClMemory StrUtils ClString Pte Storage Fat FatFile.

Definition STATUS_INVALID_FILE_NAME : Z := error_status GENERAL_MASK 0x0019.
Definition STATUS_FILE_NOT_FOUND : Z := error_status GENERAL_MASK 0x001A.
Definition STATUS_FILE_TYPE_INVALID : Z := error_status GENERAL_MASK 0x001B.
Definition STATUS_PATH_NOT_VALID : Z := error_status GENERAL_MASK 0x001D.
Definition STATUS_FILE_ALREADY_EXISTS : Z := error_status GENERAL_MASK 0x001E.
Definition STATUS_FILE_NOT_DIRECTORY : Z := error_status GENERAL_MASK 0x001F.

Definition ATTR_NORMAL : Z := 0x00.
Definition ATTR_VOLUME_ID : Z := 0x08.
Definition ATTR_DIRECTORY : Z := 0x10.
Definition SHORT_NAME_NAME : Z := 8.
Definition SHORT_NAME_EXT : Z := 3.
Definition SHORT_NAME_CHARS : Z := 11.
Definition SHORT_NAME_MAX_LENGTH : Z := 16.
Definition LONG_NAME_TOTAL_CHARS : Z := 13.
Definition LONG_NAME_MAX_CHARS : Z := 255.
Definition LONG_NAME_ORD_END_MASK : Z := 0x40.
Definition MAX_PATH : Z := 260.
Definition FAT_DELIMITER : Z := 92.
Definition FILE_ATTRIBUTE_NORMAL : Z := 0x01.
Definition FILE_ATTRIBUTE_DIRECTORY : Z := 0x02.
Definition FILE_ATTRIBUTE_VOLUME : Z := 0x04.
Definition DWORD_HIGH (x : Z) : Z := Z.shiftr (u32 x) 16.
Definition DWORD_LOW (x : Z) : Z := Z.land (u32 x) MAX_WORD.

(** The string in a character array: its bytes before the first 0. *)
Fixpoint until_zero (l : list Z) : list Z :=
  match l with [] => [] | b :: l' => if 0 =? b then [] else b :: until_zero l' end.
(** [strcmp] and [stricmp] of strings. *)
Definition stricmp (s1 s2 : list Z) : Z := compare_chars lower s1 s2.

(** * Names *)
(** The loop over the eight characters of the name: where the trailing spaces start. *)
Fixpoint last_space (l : list Z) (i lastSpaceIndex : Z) : Z :=
  match l with
  | [] => lastSpaceIndex
  | c :: l' => last_space l' (i + 1)
      (if CH_space =? c then (if i <? lastSpaceIndex then i else lastSpaceIndex) else SHORT_NAME_NAME)
  end.
(** The loop over the extension: the number of characters before the first space. *)
Fixpoint ext_length (l : list Z) (i : Z) : Z :=
  match l with [] => i | c :: l' => if CH_space =? c then i else ext_length l' (i + 1) end.

(** The status, the name and *ActualNameLength; the name of more than [BufferSize] characters is not written. *)
Definition ConvertFatNameToName (FatName : list Z) (BufferSize : Z) : Z * list Z * Z :=
  let name := take 8 FatName in
  let normalName := until_zero (take (Z.to_nat (last_space name 0 SHORT_NAME_NAME)) name) in
  let ext := take 3 (drop 8 FatName) in
  let i := ext_length ext 0 in
  let extName := until_zero (take (Z.to_nat i) ext) in
  let nameLen := Z.of_nat (length normalName) + i + (if negb (0 =? i) then 1 else 0) in
  if BufferSize <=? nameLen then (STATUS_BUFFER_TOO_SMALL, [], nameLen) else
  if 0 =? i then (STATUS_SUCCESS, normalName, nameLen) else
  (* snprintf(Buffer, BufferSize, "%s.%s", normalName, extName) *)
  let '(t, status, _) := emit BufferSize 0 0
    [conversion_piece [] CH_s normalName; Piece 1 [46] false; conversion_piece [] CH_s extName] in
  (status, t, nameLen).

(** LONG_DIR_ENTRY: the low bytes of its thirteen characters, in the order of the two loops. *)
Definition LDIR_Ord (e : list Z) : Z := le (take 1 e).
Definition low_bytes (bs : list Z) : list Z := (fun i => bs !!! (2 * i)%nat) <$> seq 0 (length bs / 2).
Definition LDIR_Name1 (e : list Z) : list Z := take 10 (drop 1 e).
Definition LDIR_Name2 (e : list Z) : list Z := take 12 (drop 14 e).
Definition LDIR_Name3 (e : list Z) : list Z := take 4 (drop 28 e).
Definition long_chars (e : list Z) : list Z := low_bytes (LDIR_Name1 e) ++ low_bytes (LDIR_Name2 e) ++ low_bytes (LDIR_Name3 e).

(** The status, the buffer and bufferWriteIndex. *)
Fixpoint write_long_chars (cs : list Z) (BufferSize bufferWriteIndex : Z) (Buffer : list Z) : outcome (Z * list Z * Z) :=
  match cs with
  | [] => Ok (STATUS_SUCCESS, Buffer, bufferWriteIndex)
  | c :: cs' =>
    if 0 =? c then Ok (STATUS_SUCCESS, Buffer, bufferWriteIndex) else
    if u32 (BufferSize - 1) <=? bufferWriteIndex then Ok (STATUS_BUFFER_TOO_SMALL, Buffer, bufferWriteIndex) else
    Buffer ← of_option (zset Buffer bufferWriteIndex c);
    write_long_chars cs' BufferSize (u32 (bufferWriteIndex + 1)) Buffer
  end.

Definition WritePartialLongFatNameToName (LongDirEntry : list Z) (BufferSize : Z) (Buffer : list Z) : outcome (Z * list Z) :=
  _ ← assert_ (negb (0 =? BufferSize));
  let entryOrdinal := u32 (Z.land (LDIR_Ord LongDirEntry) (Z.lnot LONG_NAME_ORD_END_MASK) - 1) in
  let lastLongEntry := IsBooleanFlagOn (LDIR_Ord LongDirEntry) LONG_NAME_ORD_END_MASK in
  '(status, Buffer, bufferWriteIndex) ←
     write_long_chars (long_chars LongDirEntry) BufferSize (u32 (LONG_NAME_TOTAL_CHARS * entryOrdinal)) Buffer;
  if negb (SUCCEEDED status) then Ok (status, Buffer) else
  Buffer ← (if lastLongEntry then of_option (zset Buffer bufferWriteIndex 0) else Ok Buffer);
  Ok (status, Buffer).

(** * Directory entries *)
Definition DIR_Name (e : list Z) : list Z := take 11 e.
Definition DIR_CrtTime (e : list Z) : Z := le (take 2 (drop 14 e)).
Definition DIR_CrtDate (e : list Z) : Z := le (take 2 (drop 16 e)).
Definition DIR_WrtTime (e : list Z) : Z := le (take 2 (drop 22 e)).
Definition DIR_WrtDate (e : list Z) : Z := le (take 2 (drop 24 e)).
Definition is_free (e : list Z) : bool := (FREE_ENTRY =? DIR_Name0 e) || (FREE_JAP_ENTRY =? DIR_Name0 e).
Definition is_long (e : list Z) : bool := Z.land (DIR_Attr e) ATTR_LONG_NAME_MASK =? ATTR_LONG_NAME.

Record FILE_INFORMATION := mkINFO { CreationTime : DATETIME; LastWriteTime : DATETIME; FileSize : Z; FileAttributes : Z }.
Definition zero_info : FILE_INFORMATION :=
  mkINFO (mkDATETIME (mkDATE 0 0 0) (mkTIME 0 0 0)) (mkDATETIME (mkDATE 0 0 0) (mkTIME 0 0 0)) 0 0.

Definition assert_inr {A} (r : Z + A) : outcome A := match r with inr a => Ok a | inl _ => Err AssertFailed end.

Definition _FatPopulateFileInformationFromFatEntry (DeviceAlignment : Z) (DirEntry : list Z) (FileInformation : FILE_INFORMATION)
    : outcome FILE_INFORMATION :=
  let fileSize := AlignAddressUpper (DIR_FileSize DirEntry) DeviceAlignment in
  let attributes :=
    if IsBooleanFlagOn (DIR_Attr DirEntry) ATTR_VOLUME_ID then FILE_ATTRIBUTE_VOLUME
    else if IsBooleanFlagOn (DIR_Attr DirEntry) ATTR_DIRECTORY then FILE_ATTRIBUTE_DIRECTORY
    else FILE_ATTRIBUTE_NORMAL in
  if negb (FILE_ATTRIBUTE_VOLUME =? attributes) then
    creation ← assert_inr (ConvertFatDateTimeToDateTime (DIR_CrtDate DirEntry) (DIR_CrtTime DirEntry));
    write ← assert_inr (ConvertFatDateTimeToDateTime (DIR_WrtDate DirEntry) (DIR_WrtTime DirEntry));
    Ok (mkINFO creation write fileSize attributes)
  else Ok (mkINFO (CreationTime FileInformation) (LastWriteTime FileInformation) fileSize attributes).

(** * Walking through a directory *)
(** How the loop over the entries of a cluster ends: the visitor stopped it, an entry is the end mark, or the next cluster is to
    be read. *)
Inductive dir_step (A : Type) := Stopped (acc : A) | EndMark (acc : A) | NextCluster (longName : list Z) (acc : A).
Arguments Stopped {A} _.
Arguments EndMark {A} _.
Arguments NextCluster {A} _ _.
(** How the loop over the clusters ends. *)
Inductive walk_end := WStopped | WEndMark | WEndOfChain | WNoMemory | WFailed (status : Z).

Section FatDir.
Context (vol : PARTITION_INFORMATION) (now : DATETIME) (DeviceAlignment slack : Z).

(** The loop FatSearchDirectoryEntry and FatQueryDirectory share, over the entries of a cluster from [index] on; [visit] is
    what they do with an entry that is not free: a new accumulator, the long name collected so far, and whether to
    leave the loop. *)
Fixpoint dir_entries {A} (visit : list Z -> list Z -> A -> outcome (A * list Z * bool)) (fuel : nat) (pEntry : list Z)
    (index n : Z) (longName : list Z) (acc : A) : outcome (dir_step A) :=
  match fuel with
  | O => Err NoFuel
  | S fuel' =>
    e ← get_bytes pEntry (SIZEOF_DIR_ENTRY * index) SIZEOF_DIR_ENTRY;
    '(acc, longName, stop) ← (if is_free e then Ok (acc, longName, false) else visit e longName acc);
    if stop : bool then Ok (Stopped acc) else
    let index := index + 1 in
    let first := match get_le pEntry (SIZEOF_DIR_ENTRY * index) 1 with Ok b => b | Err _ => slack end in
    if FREE_ALL =? first then Ok (EndMark acc) else
    m ← cmod index n;
    if 0 =? m then Ok (NextCluster longName acc) else dir_entries visit fuel' pEntry index n longName acc
  end.

(** [fresh] is what the call that reads a cluster does to the accumulator: it assigns to the status of FatQueryDirectory. *)
Fixpoint walk_dir {A} (fresh : A -> A) (visit : Z -> list Z -> list Z -> A -> outcome (A * list Z * bool)) (fuel : nat) (FatData : FAT_DATA)
    (sectorToParse : Z) (longName : list Z) (acc : A) : M Storage (walk_end * A) :=
  match fuel with
  | O => fail NoFuel
  | S fuel' =>
    let n := u32 (EntriesPerSector FatData * SectorsPerCluster FatData) in
    let bytesToRead := u32 (BytesPerSector FatData * SectorsPerCluster FatData) in
    _ ← lift (cmod 0 n);
    ok ← ExAllocatePool;
    if negb ok then ret (WNoMemory, acc) else
    r ← dev_read vol bytesToRead (u64 (sectorToParse * BytesPerSector FatData)) bytesToRead true;
    match r with
    | inl st => ret (WFailed st, acc)
    | inr pEntry =>
      d ← lift (dir_entries (visit sectorToParse) (S (Z.to_nat n)) pEntry 0 n longName (fresh acc));
      match d with
      | Stopped acc => ret (WStopped, acc)
      | EndMark acc => ret (WEndMark, acc)
      | NextCluster longName acc =>
        r ← NextSectorInClusterChain vol FatData sectorToParse false;
        match r with
        | inl st => ret (WFailed st, acc)
        | inr s => if 0 =? s then ret (WEndOfChain, acc) else walk_dir fresh visit fuel' FatData s longName acc
        end
      end
    end
  end.
(** A chain visits each cluster at most once. *)
Definition chain_fuel (FatData : FAT_DATA) : nat := S (S (Z.to_nat (CountOfClusters FatData))).
Definition empty_long_name : list Z := replicate (Z.to_nat (LONG_NAME_MAX_CHARS + 1)) 0.

(** ** Search *)
(** The output parameters: *SearchResult, *FileInformation (NULL: [None]) and *ParentSector. *)
Record search_out := mkOut { so_result : Z; so_info : option FILE_INFORMATION; so_parent : Z }.

(** An entry that is not free: the status and the output parameters when it is the one searched for. *)
Definition visit_search (FatData : FAT_DATA) (Name : list Z) (SearchType : Z) (sectorToParse : Z) (e longName : list Z)
    (acc : Z * search_out) : outcome ((Z * search_out) * list Z * bool) :=
  if is_long e then
    '(status, longName) ← WritePartialLongFatNameToName e (LONG_NAME_MAX_CHARS + 1) longName;
    _ ← assert_ (SUCCEEDED status);
    Ok (acc, longName, false)
  else
    let '(status, shortName, _) := ConvertFatNameToName (DIR_Name e) SHORT_NAME_MAX_LENGTH in
    _ ← assert_ (SUCCEEDED status);
    let out := acc.2 in
    if (0 =? stricmp (until_zero longName) Name) || (0 =? stricmp shortName Name) then
      let maskResult := Z.land (DIR_Attr e) (Z.lor ATTR_DIRECTORY ATTR_VOLUME_ID) in
      if negb (maskResult =? SearchType) then Ok ((STATUS_FILE_TYPE_INVALID, out), longName, true) else
      match FirstSectorOfCluster FatData (entry_cluster e) with
      | inl st => Ok ((st, mkOut (so_result out) (so_info out) sectorToParse), longName, true)
      | inr s =>
        info ← match so_info out with
               | None => Ok None
               | Some i => i ← _FatPopulateFileInformationFromFatEntry DeviceAlignment e i; Ok (Some i)
               end;
        Ok ((STATUS_SUCCESS, mkOut s info sectorToParse), longName, true)
      end
    else
      longName ← of_option (zset longName 0 0);
      Ok (acc, longName, false).

Definition FatSearchDirectoryEntry (FatData : FAT_DATA) (SectorToSearch : Z) (Name : list Z) (SearchType : Z)
    (out : search_out) : M Storage (Z * search_out) :=
  '(w, acc) ← walk_dir (fun acc => acc) (visit_search FatData Name SearchType) (chain_fuel FatData) FatData SectorToSearch empty_long_name
                (STATUS_SUCCESS, out);
  match w with
  | WStopped => ret acc
  | WEndMark | WEndOfChain => ret (STATUS_FILE_NOT_FOUND, out)
  | WNoMemory => ret (STATUS_SUCCESS, out)
  | WFailed st => ret (st, out)
  end.

(** The loop of FatSearch over the parts of the path from [startIndexInName] on; [out] holds tempResult. *)
Fixpoint search_path (fuel : nat) (FatData : FAT_DATA) (Name : list Z) (SearchType startIndexInName currentSearchSector : Z)
    (out : search_out) : M Storage (Z * search_out) :=
  match fuel with
  | O => fail NoFuel
  | S fuel' =>
    let rest := drop (Z.to_nat startIndexInName) Name in
    let k := default 0%nat (index_of FAT_DELIMITER rest) in
    let finishedParse := (k =? 0)%nat in
    let partialNameLength := if finishedParse then u32 (Z.of_nat (length Name) - startIndexInName) else Z.of_nat k in
    let currentSearchType := if finishedParse then SearchType else ATTR_DIRECTORY in
    if (LONG_NAME_MAX_CHARS <=? partialNameLength) || (partialNameLength =? 0) then ret (STATUS_PATH_NOT_VALID, out) else
    let partialName := take (Z.to_nat partialNameLength) rest in
    '(status, out) ← FatSearchDirectoryEntry FatData currentSearchSector partialName currentSearchType out;
    if negb (SUCCEEDED status) then ret (status, out) else
    if finishedParse then ret (STATUS_SUCCESS, out) else
    search_path fuel' FatData Name SearchType (u32 (startIndexInName + partialNameLength + 1)) (so_result out) out
  end.

(** The status, and *DirectorySector (unchanged on failure), *FileInformation and *ParentSector. *)
Definition FatSearch (FatData : FAT_DATA) (Name : list Z) (SearchType : Z) (out : search_out) : M Storage (Z * search_out) :=
  if negb (FAT_DELIMITER =? i8 (default 0 (head Name))) then ret (STATUS_INVALID_FILE_NAME, out) else
  if (length Name =? 1)%nat then
    if negb (ATTR_DIRECTORY =? Z.land SearchType ATTR_DIRECTORY) then ret (STATUS_FILE_TYPE_INVALID, out) else
    let info := match so_info out with
                | None => None
                | Some _ => Some (mkINFO (CreationTime zero_info) (LastWriteTime zero_info) 0 FILE_ATTRIBUTE_VOLUME)
                end in
    ret (STATUS_SUCCESS, mkOut (RootDirectoryStartSector FatData) info 0)
  else
    '(status, out') ← search_path (S (length Name)) FatData Name SearchType 1 (RootDirectoryStartSector FatData)
                        (mkOut 0 (so_info out) (so_parent out));
    if negb (SUCCEEDED status) then ret (status, mkOut (so_result out) (so_info out') (so_parent out')) else
    ret (STATUS_SUCCESS, out').
(** ** Creation *)
Definition FAT_DIR_NO_DEFAULT_ENTRIES : Z := 2.
Definition DOT_ENTRY_NAME : list Z := 46 :: replicate 10 CH_space.
Definition DOT_DOT_ENTRY_NAME : list Z := [46; 46] ++ replicate 9 CH_space.
Definition zero_entry : list Z := replicate (Z.to_nat SIZEOF_DIR_ENTRY) 0.

(** A field of entry [i] in an array of entries. *)
Definition put_field (pEntry : list Z) (i off : Z) (bs : list Z) : outcome (list Z) :=
  put_bytes pEntry (SIZEOF_DIR_ENTRY * i + off) bs.
Definition set_DIR_Name (i : Z) (v pEntry : list Z) : outcome (list Z) := put_field pEntry i 0 v.
Definition set_DIR_Attr (i v : Z) (pEntry : list Z) : outcome (list Z) := put_field pEntry i 11 (to_le 1 v).
Definition set_DIR_FstClus (i cluster : Z) (pEntry : list Z) : outcome (list Z) :=
  pEntry ← put_field pEntry i 20 (to_le 2 (DWORD_HIGH cluster)); put_field pEntry i 26 (to_le 2 (DWORD_LOW cluster)).
(** Creation, write and access dates and times. *)
Definition set_dates (i fatDate fatTime : Z) (pEntry : list Z) : outcome (list Z) :=
  pEntry ← put_field pEntry i 16 (to_le 2 fatDate);
  pEntry ← put_field pEntry i 24 (to_le 2 fatDate);
  pEntry ← put_field pEntry i 18 (to_le 2 fatDate);
  pEntry ← put_field pEntry i 14 (to_le 2 fatTime);
  put_field pEntry i 22 (to_le 2 fatTime).

(** The character array newEntryName after the copy of the name and the removal of its terminator: twelve bytes, of which the last
    is only written by a name of eleven characters. *)
Definition new_entry_name (name : list Z) : outcome (list Z) :=
  a ← put_bytes (replicate 11 CH_space ++ [0]) 0 (name ++ [0]);
  put_bytes a (Z.of_nat (length name)) [CH_space].

(** The last cluster of the chain from [tempCluster] on. *)
Fixpoint last_cluster (fuel : nat) (FatData : FAT_DATA) (currentClusterInChain tempCluster : Z) : E Z :=
  match fuel with
  | O => fail NoFuel
  | S fuel' =>
    if negb (FAT32_EOC tempCluster) then
      next ⇐ NextClusterInChain vol FatData tempCluster;
      last_cluster fuel' FatData tempCluster next
    else eret currentClusterInChain
  end.

(** The first usable entry of the cluster. *)
Fixpoint free_slot (fuel : nat) (pEntry : list Z) (index n : Z) : outcome (option Z) :=
  match fuel with
  | O => Err NoFuel
  | S fuel' =>
    if index <? n then
      b ← get_le pEntry (SIZEOF_DIR_ENTRY * index) 1;
      if (FREE_ENTRY =? b) || (FREE_ALL =? b) || (FREE_JAP_ENTRY =? b) then Ok (Some index)
      else free_slot fuel' pEntry (u32 (index + 1)) n
    else Ok None
  end.

(** The contents of the new cluster: zeroes, and the entries of the directory itself and of its parent for a directory. *)
Definition new_cluster (FatData : FAT_DATA) (FileAttributes fatDate fatTime parentSector cluster bytes : Z)
    : outcome (Z + list Z) :=
  let pEntry := replicate (Z.to_nat bytes) 0 in
  if ATTR_DIRECTORY =? Z.land FileAttributes (Z.lor ATTR_DIRECTORY ATTR_VOLUME_ID) then
    pEntry ← set_DIR_Name 0 DOT_ENTRY_NAME pEntry;
    pEntry ← set_DIR_Name 1 DOT_DOT_ENTRY_NAME pEntry;
    pEntry ← set_DIR_Attr 0 ATTR_DIRECTORY pEntry; pEntry ← set_dates 0 fatDate fatTime pEntry;
    pEntry ← set_DIR_Attr 1 ATTR_DIRECTORY pEntry; pEntry ← set_dates 1 fatDate fatTime pEntry;
    parent ← (if FirstDataSector FatData =? parentSector then Ok (inr 0) else ClusterOfSector FatData parentSector);
    match parent with
    | inl st => Ok (inl st)
    | inr c =>
      pEntry ← set_DIR_FstClus 1 c pEntry;
      pEntry ← set_DIR_FstClus 0 cluster pEntry;
      Ok (inr pEntry)
    end
  else Ok (inr pEntry).

(** The last part of the [__try] block: FSINFO, the cluster of the parent directory, the new cluster and its entry of the table are
    written, in this order. *)
Definition write_created (FatData : FAT_DATA) (FileAttributes fatDate fatTime parentSector finalSector nxtFree : Z)
    (fsi pEntry : list Z) : E unit :=
  let BPS := BytesPerSector FatData in
  let clusterBytes := u32 (BPS * SectorsPerCluster FatData) in
  _ ⇐ dev_write vol fsi BPS (u32 (1 * BPS)) BPS false;
  _ ⇐ dev_write vol pEntry clusterBytes (u64 (finalSector * BPS)) clusterBytes false;
  _ ⇐ pool_alloc;
  contents ⇐ lift (new_cluster FatData FileAttributes fatDate fatTime parentSector nxtFree clusterBytes);
  sectorAllocated ⇐ ret (FirstSectorOfCluster FatData nxtFree);
  _ ⇐ dev_write vol contents clusterBytes (u64 (sectorAllocated * BPS)) clusterBytes false;
  _ ⇐ pool_alloc;
  q ← lift (cdiv (u64 (nxtFree * SIZEOF_FAT32_ENTRY)) BPS);
  fatEntryOffset ← lift (cmod (u64 (nxtFree * SIZEOF_FAT32_ENTRY)) BPS);
  let fatEntrySector := u64 (ReservedSectors FatData + q) in
  pFAT ⇐ dev_read vol BPS (u64 (fatEntrySector * BPS)) BPS false;
  old ← lift (get_le pFAT fatEntryOffset 4);
  pFAT ← lift (put_bytes pFAT fatEntryOffset (to_le 4 (Z.lor (Z.land old (u32 (Z.lnot FAT32_CLUSTER_MASK))) FAT32_EOC_MARK)));
  dev_write vol pFAT BPS (u64 (fatEntrySector * BPS)) BPS false.

(** The [__try] block, from the last cluster of the parent directory on. *)
Definition create_in_cluster (FatData : FAT_DATA) (newEntryName : list Z) (FileAttributes parentSector finalSector : Z) : E unit :=
  let BPS := BytesPerSector FatData in
  let clusterBytes := u32 (BPS * SectorsPerCluster FatData) in
  let n := u32 (EntriesPerSector FatData * SectorsPerCluster FatData) in
  pEntry ⇐ dev_read vol clusterBytes (u64 (finalSector * BPS)) clusterBytes true;
  slot ← lift (free_slot (S (Z.to_nat n)) pEntry (if finalSector =? FirstDataSector FatData then 2 else 0) n);
  match slot with
  | None => efail STATUS_DISK_FULL
  | Some index =>
    pEntry ← lift (put_field pEntry index 0 zero_entry);
    pEntry ← lift (set_DIR_Name index (take 11 newEntryName) pEntry);
    _ ⇐ pool_alloc;
    fsi ⇐ dev_read vol BPS (u32 (1 * BPS)) BPS false;
    freeCount ← lift (FSI_Free_Count fsi);
    if 0 =? freeCount then efail STATUS_DISK_FULL else
    nxtFree ← lift (FSI_Nxt_Free fsi);
    pEntry ← lift (set_DIR_FstClus index nxtFree pEntry);
    pEntry ← lift (set_DIR_Attr index FileAttributes pEntry);
    pEntry ← lift (put_field pEntry index 28 (to_le 4 0));
    let '(fatDate, fatTime) := ConvertDateTimeToFatDateTime now 0 0 in
    pEntry ← lift (set_dates index fatDate fatTime pEntry);
    fsi ← lift (set_FSI_Free_Count (u32 (freeCount - 1)) fsi);
    fsi ← lift (set_FSI_Nxt_Free (u32 (nxtFree + 1)) fsi);
    write_created FatData FileAttributes fatDate fatTime parentSector finalSector nxtFree fsi pEntry
  end.

Definition FatCreateDirectoryEntry (FatData : FAT_DATA) (Name : list Z) (FileAttributes : Z) : E unit :=
  let lastBackslashIndex := default 0%nat (last_index_of FAT_DELIMITER Name) in
  if (lastBackslashIndex =? 0)%nat && negb (FAT_DELIMITER =? i8 (default 0 (head Name))) then efail STATUS_PATH_NOT_VALID else
  fullPath ← lift (if (lastBackslashIndex =? 0)%nat then Ok [FAT_DELIMITER]
                   else if Z.of_nat lastBackslashIndex + 1 <=? MAX_PATH then Ok (take lastBackslashIndex Name) else Err MemFault);
  newEntryName ← lift (new_entry_name (drop (lastBackslashIndex + 1) Name));
  '(status, out) ← FatSearch FatData fullPath ATTR_DIRECTORY (mkOut 0 None 0);
  if negb (SUCCEEDED status) then efail status else
  let parentSector := so_result out in
  '(status, _) ← FatSearch FatData Name ATTR_NORMAL (mkOut 0 None (so_parent out));
  if SUCCEEDED status || (STATUS_FILE_TYPE_INVALID =? status) then efail STATUS_FILE_ALREADY_EXISTS else
  c ⇐ lift (ClusterOfSector FatData parentSector);
  lastCluster ⇐ last_cluster (S (chain_fuel FatData)) FatData c c;
  finalSector ⇐ ret (FirstSectorOfCluster FatData lastCluster);
  _ ⇐ pool_alloc;
  create_in_cluster FatData newEntryName FileAttributes parentSector finalSector.
(** ** Listing *)
Definition SIZEOF_FILE_DIRECTORY_INFORMATION : Z := 64.
(** A FILE_DIRECTORY_INFORMATION in the buffer of the caller, with the offset at which it starts. *)
Record dir_info := mkDirInfo {
  di_start : Z; di_NextEntryOffset : Z; di_BasicFileInformation : FILE_INFORMATION; di_ShortFilename : list Z;
  di_FilenameLength : Z; di_Filename : list Z }.
(** The status, requiredSize, and the structures written so far, the last one first. *)
Record query_acc := mkQuery { qa_status : Z; qa_requiredSize : Z; qa_entries : list dir_info }.

(** The structure for an entry, after the one written before it has been linked to it; the bytes of the buffer that are not
    written are not part of it, and the dates of a volume label, which are not written either, are shown as zero. *)
Definition add_info (e shortName longName : list Z) (shortNameLength longNameLength : Z) (l : list dir_info) : outcome (list dir_info) :=
  let start := match l with [] => 0 | d :: _ => di_start d + (SIZEOF_FILE_DIRECTORY_INFORMATION + di_FilenameLength d) end in
  let l := match l with
           | [] => []
           | d :: l' => mkDirInfo (di_start d) (u32 (start - di_start d)) (di_BasicFileInformation d) (di_ShortFilename d)
                          (di_FilenameLength d) (di_Filename d) :: l'
           end in
  info ← _FatPopulateFileInformationFromFatEntry DeviceAlignment e zero_info;
  Ok (mkDirInfo start 0 info (take (Z.to_nat shortNameLength) (shortName ++ [0])) longNameLength (take (Z.to_nat longNameLength) longName) :: l).

Definition visit_query (DirectoryInformationSize sectorToParse : Z) (e longName : list Z) (acc : query_acc)
    : outcome (query_acc * list Z * bool) :=
  if is_long e then
    '(status, longName) ← WritePartialLongFatNameToName e (LONG_NAME_MAX_CHARS + 1) longName;
    _ ← assert_ (SUCCEEDED status);
    Ok (mkQuery status (qa_requiredSize acc) (qa_entries acc), longName, false)
  else
    let '(status, shortName, shortNameLength) := ConvertFatNameToName (DIR_Name e) SHORT_NAME_MAX_LENGTH in
    _ ← assert_ (SUCCEEDED status);
    let len := Z.min LONG_NAME_MAX_CHARS (Z.of_nat (length (until_zero longName))) in
    '(longNameLength, longName) ←
      (if 0 =? len then
         _ ← assert_ (negb (0 =? shortNameLength));     (* strncpy *)
         longName ← put_bytes longName 0 (take (Z.to_nat shortNameLength) shortName ++ [0]);
         Ok (shortNameLength, longName)
       else Ok (len, longName));
    let curStructureSize := SIZEOF_FILE_DIRECTORY_INFORMATION + longNameLength in
    let requiredSize := u32 (qa_requiredSize acc + curStructureSize) in
    l ← (if requiredSize <=? DirectoryInformationSize
         then add_info e shortName longName shortNameLength longNameLength (qa_entries acc) else Ok (qa_entries acc));
    longName ← of_option (zset longName 0 0);
    Ok (mkQuery status requiredSize l, longName, false).

(** The status, the structures in the buffer and *RequiredDirectionInformationSize. *)
Definition FatQueryDirectory (FatData : FAT_DATA) (DirectorySector DirectoryInformationSize : Z)
    : M Storage (Z * list dir_info * Z) :=
  '(w, acc) ← walk_dir (fun acc => mkQuery STATUS_SUCCESS (qa_requiredSize acc) (qa_entries acc))
                (visit_query DirectoryInformationSize) (chain_fuel FatData) FatData DirectorySector empty_long_name
                (mkQuery STATUS_SUCCESS 0 []);
  let l := rev (qa_entries acc) in
  match w with
  | WStopped | WEndMark => ret (qa_status acc, l, qa_requiredSize acc)
  | WEndOfChain => ret (STATUS_SUCCESS, l, qa_requiredSize acc)
  | WNoMemory => ret (STATUS_HEAP_NO_MORE_MEMORY, l, qa_requiredSize acc)
  | WFailed st => ret (st, l, qa_requiredSize acc)
  end.

(** ** fat32.c: the dispatch functions for file objects *)
Record FILE_OBJECT := mkFile { fo_FileName : list Z; fo_DirectoryFile : bool; fo_Create : bool }.
(** The file control block with the information about the file. *)
Record FCB_INFO := mkFcbInfo { fcb : FCB; fcb_FileInformation : FILE_INFORMATION }.

(** The status, and the control block left in FsContext2. *)
Definition _FatDispatchCreate (FatData : FAT_DATA) (FileObject : FILE_OBJECT) : M Storage (Z * option FCB_INFO) :=
  let fileType := if fo_DirectoryFile FileObject then ATTR_DIRECTORY else ATTR_NORMAL in
  created ← (if fo_Create FileObject then FatCreateDirectoryEntry FatData (fo_FileName FileObject) fileType else eret tt);
  match created with
  | inl st => ret (st, None)
  | inr _ =>
    '(status, out) ← FatSearch FatData (fo_FileName FileObject) fileType (mkOut 0 (Some zero_info) 0);
    if negb (SUCCEEDED status) then ret (status, None) else
    ok ← ExAllocatePool;
    if negb ok then ret (status, None) else
    ret (status, Some (mkFcbInfo (mkFCB (so_result out) (so_parent out)) (default zero_info (so_info out))))
  end.

Definition _FatDispatchClose (Fcb : option FCB_INFO) : outcome (Z * option FCB_INFO) :=
  _ ← assert_ (bool_decide (is_Some Fcb)); Ok (STATUS_SUCCESS, None).

Definition SIZEOF_FILE_INFORMATION : Z := 32.
(** The status, IoStatus.Information and what is copied to the buffer. *)
Definition _FatDispatchQueryInformation (Fcb : option FCB_INFO) (Length : Z) : outcome (Z * Z * option FILE_INFORMATION) :=
  if Length <? SIZEOF_FILE_INFORMATION then Ok (STATUS_BUFFER_TOO_SMALL, SIZEOF_FILE_INFORMATION, None) else
  match Fcb with
  | None => Err AssertFailed
  | Some f => Ok (STATUS_SUCCESS, SIZEOF_FILE_INFORMATION, Some (fcb_FileInformation f))
  end.

Definition _FatDispatchDirectoryControl (FatData : FAT_DATA) (FileObject : FILE_OBJECT) (Fcb : option FCB_INFO) (Length : Z)
    : M Storage (Z * Z * list dir_info) :=
  if negb (fo_DirectoryFile FileObject) then ret (STATUS_FILE_NOT_DIRECTORY, 0, []) else
  match Fcb with
  | None => fail AssertFailed
  | Some f =>
    '(status, l, information) ← FatQueryDirectory FatData (FileOffsetInVolume (fcb f)) Length;
    if negb (SUCCEEDED status) then ret (status, information, l) else
    if Length <? information then ret (STATUS_BUFFER_TOO_SMALL, information, l) else ret (status, information, l)
  end.
End FatDir.
