(* ===== verification/FatDirOps.v ===== *)
(** What FatCreateDirectoryEntry leaves on a volume and what FatSearch finds there: a file created in the root directory is found
    again, with the cluster, the dates and the attributes it was created with; the cases in which it is not; and what the creation
    does to a file that owns the cluster FSINFO names. *)
From S2P Require Import Prelude IntUtils ClMemory StrUtils ClString Pte Storage Fat FatFile FatDir.

(** * Entries of directories *)
(** A name of at most ten characters is stored with spaces behind it. *)
Definition padded (nm : list Z) : list Z := nm ++ replicate (11 - length nm) CH_space.
(** The entry FatCreateDirectoryEntry composes. *)
Definition new_entry (name : list Z) (attr cluster fd ft : Z) : list Z :=
  name ++ to_le 1 attr ++ [0; 0] ++ to_le 2 ft ++ to_le 2 fd ++ to_le 2 fd ++ to_le 2 (DWORD_HIGH cluster) ++ to_le 2 ft ++
  to_le 2 fd ++ to_le 2 (DWORD_LOW cluster) ++ to_le 4 0.

Lemma put_bytes_mid pre e post off new e' : 0 <= off -> put_bytes e off new = Ok e' ->
  put_bytes (pre ++ e ++ post) (Z.of_nat (length pre) + off) new = Ok (pre ++ e' ++ post).
Proof.
  intros Ho. unfold put_bytes. destruct (Z.leb_spec 0 off); [|done]. cbn [andb].
  destruct (Z.leb_spec (off + Z.of_nat (length new)) (Z.of_nat (length e))) as [Hl|]; [|done]. intros [= <-].
  rewrite (proj2 (Z.leb_le _ _)), (proj2 (Z.leb_le _ _)) by (rewrite ?length_app; lia). cbn [andb]. f_equal.
  replace (Z.to_nat (Z.of_nat (length pre) + off)) with (length pre + Z.to_nat off)%nat by lia.
  rewrite take_app_add, take_app_le by lia. rewrite <- Nat.add_assoc, drop_app_add, drop_app_le by lia. by rewrite <- !app_assoc.
Qed.

Lemma put_bytes_comm b o1 n1 b1 o2 n2 b2 : put_bytes b o1 n1 = Ok b1 -> put_bytes b1 o2 n2 = Ok b2 -> 0 <= o1 -> 0 <= o2 ->
  o1 + Z.of_nat (length n1) <= Z.of_nat (length b) -> o2 + Z.of_nat (length n2) <= Z.of_nat (length b) ->
  o1 + Z.of_nat (length n1) <= o2 \/ o2 + Z.of_nat (length n2) <= o1 ->
  exists b1', put_bytes b o2 n2 = Ok b1' /\ put_bytes b1' o1 n1 = Ok b2.
Proof.
  intros E1 E2 H1 H2 L1 L2 Hd.
  destruct (put_bytes_run b o1 n1 H1 L1) as (x&Ex&Lx&Kx). rewrite E1 in Ex. injection Ex as <-.
  destruct (put_bytes_run b1 o2 n2 H2) as (y&Ey&Ly&Ky); [lia|]. rewrite E2 in Ey. injection Ey as <-.
  destruct (put_bytes_run b o2 n2 H2 L2) as (c1&Ec1&Lc1&Kc1).
  destruct (put_bytes_run c1 o1 n1 H1) as (c2&Ec2&Lc2&Kc2); [lia|].
  exists c1. split; [done|]. rewrite Ec2. f_equal. apply list_eq. intros i. rewrite Kc2, Ky, Kx, Kc1.
  repeat case_decide; done || lia.
Qed.

(** The assignments to the fields of entry [i], in the order of the source. *)
Lemma entry_composed p i name attr c fd ft : 0 <= i -> SIZEOF_DIR_ENTRY * (i + 1) <= Z.of_nat (length p) -> length name = 11%nat ->
  exists p1 p2 p3 p4 p5 p6, put_field p i 0 zero_entry = Ok p1 /\ set_DIR_Name i name p1 = Ok p2 /\
    set_DIR_FstClus i c p2 = Ok p3 /\ set_DIR_Attr i attr p3 = Ok p4 /\ put_field p4 i 28 (to_le 4 0) = Ok p5 /\
    set_dates i fd ft p5 = Ok p6 /\ put_bytes p (SIZEOF_DIR_ENTRY * i) (new_entry name attr c fd ft) = Ok p6.
Proof.
  unfold SIZEOF_DIR_ENTRY. intros Hi Hp Hn.
  set (pre := take (Z.to_nat (32 * i)) p). set (e := take 32 (drop (Z.to_nat (32 * i)) p)).
  set (post := drop 32 (drop (Z.to_nat (32 * i)) p)).
  assert (p = pre ++ e ++ post) as Ep by (unfold pre, e, post; by rewrite !take_drop).
  assert (32 * i = Z.of_nat (length pre)) as Epre by (unfold pre; rewrite length_take; lia).
  assert (length e = 32%nat) as He by (unfold e; rewrite length_take, length_drop; lia).
  assert (forall e0 off new e1, 0 <= off -> put_bytes e0 off new = Ok e1 ->
    put_field (pre ++ e0 ++ post) i off new = Ok (pre ++ e1 ++ post)) as Hput.
  { intros e0 off new e1 Ho E. unfold put_field, SIZEOF_DIR_ENTRY. rewrite Epre. by apply put_bytes_mid. }
  do 11 (destruct name as [|? name]; [done|]). destruct name; [|done].
  do 32 (destruct e as [|? e]; [done|]). destruct e; [|done]. rewrite Ep. unfold set_DIR_Name, set_DIR_FstClus, set_DIR_Attr, set_dates.
  do 6 eexists.
  split; [apply Hput; [done|reflexivity]|]. split; [apply Hput; [done|reflexivity]|].
  split; [erewrite Hput by (done || reflexivity); cbn [mbind outcome_bind]; apply Hput; [done|reflexivity]|].
  split; [apply Hput; [done|reflexivity]|]. split; [apply Hput; [done|reflexivity]|].
  split; [do 4 (erewrite Hput by (done || reflexivity); cbn [mbind outcome_bind]); apply Hput; [done|reflexivity]|].
  rewrite Epre, <- (Z.add_0_r (Z.of_nat (length pre))). apply put_bytes_mid; [done|]. reflexivity.
Qed.

(** ** Fields of the new entry *)
Section NewEntry.
Context (nm : list Z) (attr c fd ft : Z) (Hnm : (length nm = 11)%nat).
Abbreviation e := (new_entry nm attr c fd ft).

Lemma new_entry_length : Z.of_nat (length e) = SIZEOF_DIR_ENTRY.
Proof. unfold new_entry. rewrite !length_app, !length_to_le, Hnm. done. Qed.
Lemma new_entry_name_field : DIR_Name e = nm.
Proof. unfold DIR_Name, new_entry. by rewrite take_app_length' by done. Qed.

Lemma new_entry_tail : drop 11 e = drop 11 (new_entry (replicate 11 0) attr c fd ft).
Proof. unfold new_entry. by rewrite !drop_app_length' by done. Qed.
Lemma new_entry_drop k : (11 <= k)%nat -> drop k e = drop k (new_entry (replicate 11 0) attr c fd ft).
Proof. intros. replace k with (11 + (k - 11))%nat by lia. by rewrite <- !drop_drop, new_entry_tail. Qed.

Lemma new_entry_fields : DIR_Attr e = attr mod 2 ^ 8 /\ DIR_CrtTime e = ft mod 2 ^ 16 /\ DIR_CrtDate e = fd mod 2 ^ 16 /\
  DIR_WrtTime e = ft mod 2 ^ 16 /\ DIR_WrtDate e = fd mod 2 ^ 16 /\ DIR_FileSize e = 0 /\
  DIR_FstClusHI e = DWORD_HIGH c mod 2 ^ 16 /\ DIR_FstClusLO e = DWORD_LOW c mod 2 ^ 16.
Proof.
  unfold DIR_Attr, DIR_CrtTime, DIR_CrtDate, DIR_WrtTime, DIR_WrtDate, DIR_FileSize, DIR_FstClusHI, DIR_FstClusLO.
  rewrite !new_entry_drop by lia.
  pose proof (le_to_le 1 attr : _ = attr mod 2 ^ 8) as H1.
  pose proof (fun v => le_to_le 2 v : _ = v mod 2 ^ 16) as H2.
  rewrite <- H1, <- !H2. split_and!; reflexivity.
Qed.

Lemma new_entry_cluster : 0 <= c < 2 ^ 32 -> entry_cluster e = c.
Proof.
  intros Hc. destruct new_entry_fields as (_&_&_&_&_&_&Hh&Hl). unfold entry_cluster. rewrite Hh, Hl. unfold WORDS_TO_DWORD, DWORD_HIGH, DWORD_LOW, MAX_WORD.
  rewrite (u32_small c) by rlia. change 0xFFFF with (Z.ones 16). rewrite Z.land_ones by lia. rewrite Z.mod_mod by lia.
  rewrite Z.shiftr_div_pow2 by lia. rewrite (Z.mod_small (c / 2 ^ 16)) by (split; [apply Z.div_pos|apply Z.div_lt_upper_bound]; lia).
  rewrite Z.shiftl_mul_pow2 by lia. pose proof (Z.div_mod c (2 ^ 16) ltac:(lia)) as E. pose proof (Z.mod_pos_bound c (2 ^ 16) ltac:(lia)).
  rewrite u32_small by (split; [|apply Z.le_lt_trans with c]; lia || apply Hc || (apply Z.mul_nonneg_nonneg; [apply Z.div_pos|]; lia)).
  rewrite <- Z.add_nocarry_lor; [lia|]. rewrite <- Z.shiftl_mul_pow2, <- Z.land_ones by lia. apply Z.bits_inj'. intros i Hi.
  rewrite !Z.land_spec, Z.bits_0, Z.shiftl_spec by lia. destruct (Z.ltb_spec i 16).
  - rewrite (Z.testbit_neg_r _ (i - 16)) by lia. done.
  - rewrite Z.ones_spec_high by lia. by rewrite !andb_false_r.
Qed.
End NewEntry.

(** ** Names *)
(** A name of at most eight characters that is stored as it is: no zero, no space, no separator. *)
Record plain_name (nm : list Z) : Prop := {
  pn_length : (1 <= length nm <= 8)%nat;
  pn_chars : Forall (fun b => b <> 0 /\ b <> CH_space /\ i8 b <> FAT_DELIMITER) nm;
  pn_first : exists b, head nm = Some b /\ b <> FREE_ENTRY /\ b <> FREE_JAP_ENTRY }.

Lemma length_padded nm : (length nm <= 11)%nat -> length (padded nm) = 11%nat.
Proof. intros. unfold padded. rewrite length_app, length_replicate. lia. Qed.

Lemma new_entry_name_run nm : (length nm <= 10)%nat ->
  exists a, new_entry_name nm = Ok a /\ take 11 a = padded nm.
Proof.
  intros Hl. unfold new_entry_name.
  assert (replicate 11 CH_space ++ [0] = [] ++ (replicate (length nm + 1) CH_space) ++ (replicate (10 - length nm) CH_space ++ [0])) as ->.
  { rewrite app_nil_l, app_assoc, <- replicate_add. do 2 f_equal. lia. }
  rewrite (put_bytes_mid [] _ _ 0 (nm ++ [0]) (nm ++ [0]) ltac:(lia)).
  2: { unfold put_bytes. rewrite length_replicate, length_app. cbn [length Z.leb Z.compare andb].
       rewrite (proj2 (Z.leb_le _ _)) by lia. cbn [Z.to_nat take app]. by rewrite drop_ge, app_nil_r by (rewrite length_replicate; cbn; lia). }
  cbn [mbind outcome_bind app]. rewrite <- app_assoc.
  pose proof (put_bytes_mid nm [0] (replicate (10 - length nm) CH_space ++ [0]) 0 [CH_space] [CH_space] ltac:(lia) eq_refl) as E.
  rewrite Z.add_0_r in E. rewrite E. eexists. split; [done|]. unfold padded.
  replace (11 - length nm)%nat with (S (10 - length nm)) by lia. cbn [replicate app].
  rewrite take_app_ge by lia. f_equal. replace (11 - length nm)%nat with (S (10 - length nm)) by lia. cbn [take]. f_equal.
  by rewrite take_app_length' by (by rewrite length_replicate).
Qed.

Lemma last_space_name l : forall i, Forall (fun b => b <> CH_space) l -> last_space l i SHORT_NAME_NAME = SHORT_NAME_NAME.
Proof.
  induction l as [|b l IH]; intros i Hl; [done|]. inversion Hl; subst. cbn [last_space]. rewrite (proj2 (Z.eqb_neq _ _)) by done. by apply IH.
Qed.
Lemma last_space_app l1 : forall l2 i x, last_space (l1 ++ l2) i x = last_space l2 (i + Z.of_nat (length l1)) (last_space l1 i x).
Proof.
  induction l1 as [|b l1 IH]; intros l2 i x; cbn [app last_space length]; [by rewrite Z.add_0_r|]. rewrite IH. f_equal. lia.
Qed.
Lemma last_space_spaces k : forall i x, x <= i -> last_space (replicate k CH_space) i x = x.
Proof.
  induction k as [|k IH]; intros i x Hx; [done|]. cbn [replicate last_space Z.eqb]. rewrite Z.eqb_refl, (proj2 (Z.ltb_ge _ _)) by lia. apply IH. lia.
Qed.

Lemma until_zero_plain l : Forall (fun b => b <> 0) l -> until_zero l = l.
Proof. induction 1 as [|b l Hb _ IH]; [done|]. cbn [until_zero]. rewrite (proj2 (Z.eqb_neq _ _)) by done. by rewrite IH. Qed.

(** The name read from an entry is the one it was created with. *)
Lemma name_converted nm : plain_name nm ->
  ConvertFatNameToName (padded nm) SHORT_NAME_MAX_LENGTH = (STATUS_SUCCESS, nm, Z.of_nat (length nm)).
Proof.
  intros [Hl Hc _]. unfold ConvertFatNameToName, padded.
  assert (take 8 (nm ++ replicate (11 - length nm) CH_space) = nm ++ replicate (8 - length nm) CH_space) as ->.
  { rewrite take_app_ge by lia. f_equal. rewrite take_replicate. f_equal. lia. }
  assert (take 3 (drop 8 (nm ++ replicate (11 - length nm) CH_space)) = replicate 3 CH_space) as ->.
  { rewrite drop_app_ge, drop_replicate, take_replicate by lia. f_equal. lia. }
  assert (last_space (nm ++ replicate (8 - length nm) CH_space) 0 SHORT_NAME_NAME = Z.of_nat (length nm)) as ->.
  { rewrite last_space_app, last_space_name by (eapply Forall_impl; [exact Hc|]; cbn; tauto). rewrite Z.add_0_l.
    destruct (8 - length nm)%nat as [|k] eqn:Ek; [cbn; unfold SHORT_NAME_NAME; lia|]. cbn [replicate last_space].
    rewrite Z.eqb_refl. unfold SHORT_NAME_NAME. rewrite (proj2 (Z.ltb_lt _ _)) by lia. apply last_space_spaces. lia. }
  rewrite Nat2Z.id, take_app_length. rewrite until_zero_plain by (eapply Forall_impl; [exact Hc|]; cbn; tauto).
  change (ext_length (replicate 3 CH_space) 0) with 0. cbn [Z.eqb negb]. rewrite !Z.add_0_r. unfold SHORT_NAME_MAX_LENGTH.
  by rewrite (proj2 (Z.leb_gt _ _)) by lia.
Qed.

Lemma stricmp_refl l : stricmp l l = 0.
Proof. by apply compare_chars_zero. Qed.

(** * Creation *)
Section Create.
Context (vol : PARTITION_INFORMATION) (F : FAT_DATA) (HF : layout_ok vol F) (HE : EntriesPerSector F = 16) (now : DATETIME).
Abbreviation spc := (SectorsPerCluster F).
Abbreviation vd := (vdisk vol).

Ltac layout := pose proof (lo_bps vol F HF); pose proof (lo_spc vol F HF); pose proof (lo_rsvd vol F HF); pose proof (lo_fat vol F HF);
  pose proof (lo_count vol F HF); pose proof (lo_size vol F HF); pose proof (lo_data vol F HF);
  unfold valid, cluster_sector, SIZEOF_FAT32_ENTRY, FAT32_BAD_CLUSTER, SECTOR_SIZE in *.

(** The bytes of a cluster. *)
Definition cluster_bytes (d : Z -> Z) (c : Z) : list Z := read_range d (cluster_sector F c * SECTOR_SIZE) (spc * SECTOR_SIZE).

Lemma cluster_bytes_length d c : Z.of_nat (length (cluster_bytes d c)) = spc * SECTOR_SIZE.
Proof. unfold cluster_bytes. rewrite length_read_range. layout. lia. Qed.

(** ** The slot *)
Definition unused (b : Z) : bool := (FREE_ENTRY =? b) || (FREE_ALL =? b) || (FREE_JAP_ENTRY =? b).
Abbreviation first_byte d dc i := (DIR_Name0 (dir_at F d dc i)).
Definition first_slot (d : Z -> Z) (dc start i : Z) : Prop :=
  start <= i < 16 * spc /\ unused (first_byte d dc i) = true /\ forall j, start <= j < i -> unused (first_byte d dc j) = false.

Lemma entry_read d dc i : 0 <= i < 16 * spc ->
  get_bytes (cluster_bytes d dc) (SIZEOF_DIR_ENTRY * i) SIZEOF_DIR_ENTRY = Ok (dir_at F d dc i).
Proof.
  intros Hi. unfold cluster_bytes, dir_at, dir_off, SIZEOF_DIR_ENTRY.
  rewrite get_bytes_run by (rewrite ?length_read_range; unfold SECTOR_SIZE; lia).
  by rewrite read_range_sub by (unfold SECTOR_SIZE; lia).
Qed.
Lemma first_byte_read d dc i : 0 <= i < 16 * spc -> get_le (cluster_bytes d dc) (SIZEOF_DIR_ENTRY * i) 1 = Ok (first_byte d dc i).
Proof.
  intros Hi. unfold get_le, DIR_Name0, cluster_bytes, dir_at, dir_off, SIZEOF_DIR_ENTRY.
  rewrite get_bytes_run by (rewrite ?length_read_range; unfold SECTOR_SIZE; lia). cbn [mbind outcome_bind].
  rewrite read_range_sub by (unfold SECTOR_SIZE; lia).
  pose proof (read_range_sub d (cluster_sector F dc * SECTOR_SIZE + 32 * i) 32 0 1 ltac:(lia) ltac:(lia) ltac:(lia)) as E.
  rewrite Z.add_0_r, drop_0 in E. by rewrite <- E.
Qed.

Lemma free_slot_run d dc start i : first_slot d dc start i -> forall fuel j, 0 <= start <= j -> j <= i -> i - j < Z.of_nat fuel ->
  free_slot fuel (cluster_bytes d dc) j (16 * spc) = Ok (Some i).
Proof.
  intros (Hi&Hu&Hn). induction fuel as [|fuel IH]; intros j Hj Hji Hf; [lia|]. cbn [free_slot]. pose proof (lo_spc vol F HF).
  rewrite (proj2 (Z.ltb_lt _ _)), first_byte_read by lia. cbn [mbind outcome_bind]. fold (unused (first_byte d dc j)).
  destruct (decide (j = i)) as [->|]; [by rewrite Hu|]. rewrite Hn by lia. rewrite u32_small by rlia. apply IH; lia.
Qed.

(** ** FSINFO and the table *)
Lemma fsi_read s : dev_ok vol s -> dev_read vol (BytesPerSector F) (u32 (1 * BytesPerSector F)) (BytesPerSector F) false s =
  Ok (inr (read_range (vd s) SECTOR_SIZE SECTOR_SIZE), s).
Proof.
  intros Hd. pose proof (read_sector_run vol F HF s 1 false Hd) as H. rewrite (lo_bps vol F HF) in *.
  rewrite !Z.mul_1_l in H. apply H. layout. lia.
Qed.

Lemma fsi_write s buf : dev_ok vol s -> Z.of_nat (length buf) = SECTOR_SIZE ->
  exists s', dev_write vol buf (BytesPerSector F) (u32 (1 * BytesPerSector F)) (BytesPerSector F) false s = Ok (inr tt, s') /\
    dev_ok vol s' /\ forall a, vd s' a = write_range (vd s) SECTOR_SIZE buf a.
Proof.
  intros Hd Hb. destruct (write_sector_run vol F HF s 1 buf false Hd) as (s'&E&Hd'&Hw); [layout; lia|done|].
  exists s'. rewrite Z.mul_1_l in *. split_and!; try done. rewrite <- E. by rewrite (lo_bps vol F HF).
Qed.

(** FSINFO with the count of free clusters and the hint assigned in this order. *)
Lemma fsi_assigned d v w : exists b1 b2, set_FSI_Free_Count w (read_range d SECTOR_SIZE SECTOR_SIZE) = Ok b1 /\
  set_FSI_Nxt_Free v b1 = Ok b2 /\ Z.of_nat (length b2) = SECTOR_SIZE /\
  forall d', (forall a, SECTOR_SIZE <= a < 2 * SECTOR_SIZE -> d' a = d a) ->
    fsi_free (write_range d' SECTOR_SIZE b2) = w mod 2 ^ 32 /\ fsi_next (write_range d' SECTOR_SIZE b2) = v mod 2 ^ 32.
Proof.
  destruct (set_fsi_run d v w) as (b1&b2&E1&E2&Hl&H).
  destruct (put_bytes_comm _ _ _ _ _ _ _ E1 E2) as (b1'&E1'&E2');
    rewrite ?length_to_le, ?length_read_range; unfold SECTOR_SIZE; try lia. by exists b1', b2.
Qed.

Lemma eoc_written s c : dev_ok vol s -> valid F c -> exists pFAT old bs s',
  cdiv (u64 (c * SIZEOF_FAT32_ENTRY)) (BytesPerSector F) = Ok (fat_sector F c - ReservedSectors F) /\
  cmod (u64 (c * SIZEOF_FAT32_ENTRY)) (BytesPerSector F) = Ok (4 * (c mod 128)) /\
  dev_read vol (BytesPerSector F) (u64 (fat_sector F c * BytesPerSector F)) (BytesPerSector F) false s = Ok (inr pFAT, s) /\
  get_le pFAT (4 * (c mod 128)) 4 = Ok old /\
  put_bytes pFAT (4 * (c mod 128)) (to_le 4 (Z.lor (Z.land old (u32 (Z.lnot FAT32_CLUSTER_MASK))) FAT32_EOC_MARK)) = Ok bs /\
  dev_write vol bs (BytesPerSector F) (u64 (fat_sector F c * BytesPerSector F)) (BytesPerSector F) false s = Ok (inr tt, s') /\
  dev_ok vol s' /\ forall a, vd s' a = set_next F (vd s) c FAT32_EOC_MARK a.
Proof.
  intros Hd Hc. pose proof (valid_in_table F c Hc) as Hin.
  destruct (update_entry_run vol F HF s c FAT32_EOC_MARK Hd Hin) as (bs&s'&E&Ew&Hd'&Hv).
  pose proof (read_sector_run vol F HF s (fat_sector F c) false Hd (fat_sector_range vol F HF c Hin)) as Er.
  pose proof (fat_entry_run vol F HF (vd s) c Hin) as Eg. unfold set_entry in E. rewrite Eg in E. cbn [mbind outcome_bind] in E.
  do 4 eexists. split_and!; [..|exact Er|exact Eg|exact E|exact Ew|done|done]; unfold cdiv, cmod, fat_sector; rewrite (lo_bps vol F HF); cbn [Z.eqb SECTOR_SIZE].
  - assert (u64 (c * SIZEOF_FAT32_ENTRY) = c * 4) as -> by (layout; unwrap; done). f_equal. change SECTOR_SIZE with (128 * 4).
    rewrite Z.div_mul_cancel_r by lia. lia.
  - assert (u64 (c * SIZEOF_FAT32_ENTRY) = c * 4) as -> by (layout; unwrap; done). f_equal. change SECTOR_SIZE with (128 * 4).
    rewrite Z.mul_mod_distr_r by lia. lia.
Qed.

(** ** The new entry on the volume *)
(** What has changed when [e] was stored as entry [i] of the directory cluster [dc] and the cluster [c] was given to it. *)
Record created (d d' : Z -> Z) (dc i c : Z) (e contents : list Z) : Prop := {
  cr_entry : dir_at F d' dc i = e;
  cr_entries : forall j, 0 <= j < 16 * spc -> j <> i -> dir_at F d' dc j = dir_at F d dc j;
  cr_cluster : cluster_bytes d' c = contents;
  cr_other : forall c' a, valid F c' -> c' <> dc -> c' <> c -> in_cluster F c' a -> d' a = d a;
  cr_table : forall c', in_table F c' -> entry F d' c' = if decide (c' = c) then FAT32_EOC_MARK else entry F d c';
  cr_free : fsi_free d' = u32 (fsi_free d - 1);
  cr_next : fsi_next d' = u32 (fsi_next d + 1) }.

Section Created.
Context (s : Storage) (Hd : dev_ok vol s) (dc i c : Z) (Hdc : valid F dc) (Hc : valid F c) (Hne : c <> dc) (Hi : 0 <= i < 16 * spc)
  (e contents fsi : list Z) (He : Z.of_nat (length e) = SIZEOF_DIR_ENTRY) (Hcl : Z.of_nat (length contents) = spc * SECTOR_SIZE)
  (Hfl : Z.of_nat (length fsi) = SECTOR_SIZE)
  (Hfree : fsi_free (write_range (vd s) SECTOR_SIZE fsi) = u32 (fsi_free (vd s) - 1))
  (Hnext : fsi_next (write_range (vd s) SECTOR_SIZE fsi) = u32 (fsi_next (vd s) + 1)).
Abbreviation d1 := (write_range (vd s) SECTOR_SIZE fsi).
Abbreviation d2 := (write_range d1 (dir_off F dc i) e).
Abbreviation d3 := (write_range d2 (cluster_sector F c * SECTOR_SIZE) contents).

Lemma meta_kept a : a < FirstDataSector F * SECTOR_SIZE -> d3 a = d1 a.
Proof.
  intros Ha. pose proof (dir_off_data vol F HF s dc i Hd Hdc Hi). destruct (cluster_range vol F HF c s Hd Hc).
  unfold SECTOR_SIZE in *. rewrite !write_range_out by lia. done.
Qed.
Lemma rest_kept a : ReservedSectors F * SECTOR_SIZE <= a -> d1 a = vd s a.
Proof. intros Ha. apply write_range_out. rewrite Hfl. layout. lia. Qed.
Lemma outside_new a : ~ in_cluster F c a -> FirstDataSector F * SECTOR_SIZE <= a -> d3 a = write_range (vd s) (dir_off F dc i) e a.
Proof.
  intros Ha Hb. rewrite write_range_out by (unfold in_cluster in Ha; unfold SECTOR_SIZE in *; lia).
  unfold write_range at 1 3. f_equal. apply rest_kept. layout. lia.
Qed.

Lemma created_intro d' : (forall a, d' a = set_next F d3 c FAT32_EOC_MARK a) -> created (vd s) d' dc i c e contents.
Proof.
  intros Hd'. pose proof (valid_in_table F c Hc) as Hin.
  assert (forall a, FirstDataSector F * SECTOR_SIZE <= a -> d' a = d3 a) as Hdata.
  { intros a Ha. rewrite Hd'. apply (set_next_out vol F HF); [done|by right]. }
  assert (forall a, a < ReservedSectors F * SECTOR_SIZE -> d' a = d1 a) as Hmeta.
  { intros a Ha. rewrite Hd', (set_next_out vol F HF) by (done || by left). apply meta_kept. layout. lia. }
  assert (forall j x, 0 <= j < 16 * spc -> 0 <= x < SIZEOF_DIR_ENTRY ->
    d' (dir_off F dc j + x) = write_range (vd s) (dir_off F dc i) e (dir_off F dc j + x)) as Hdir.
  { intros j x Hj Hx. pose proof (dir_off_data vol F HF s dc j Hd Hdc Hj). rewrite Hdata by lia. apply outside_new; [|lia].
    apply (clusters_apart vol F HF dc c); [done|]. by apply (in_dir vol F HF s Hd). }
  split.
  - unfold dir_at. rewrite (read_range_ext d' (write_range (vd s) (dir_off F dc i) e) _ (dir_off F dc i)) by (intros; by apply Hdir).
    rewrite <- He. apply read_write_range.
  - intros j Hj Hji. apply read_range_ext. intros x Hx. rewrite Hdir by done. apply write_range_out. rewrite He.
    unfold dir_off, SIZEOF_DIR_ENTRY in *. lia.
  - unfold cluster_bytes. destruct (cluster_range vol F HF c s Hd Hc).
    rewrite (read_range_ext d' d3 _ (cluster_sector F c * SECTOR_SIZE)) by (intros; apply Hdata; unfold SECTOR_SIZE in *; lia).
    rewrite <- Hcl. apply read_write_range.
  - intros c' a Hv N1 N2 Ha. destruct (cluster_range vol F HF c' s Hd Hv) as [Hlo _].
    assert (FirstDataSector F * SECTOR_SIZE <= a) by (unfold in_cluster, SECTOR_SIZE in *; lia).
    rewrite Hdata, outside_new by (done || by apply (clusters_apart vol F HF c')). apply write_range_out. rewrite He.
    pose proof (clusters_apart vol F HF c' dc a N1 Ha) as Hno. unfold in_cluster in Hno.
    pose proof (dir_off_data vol F HF s dc i Hd Hdc Hi). lia.
  - intros c' Hc'. rewrite (entry_ext F _ _ c' Hd'), (entry_set_next F) by done. case_decide; [done|]. unfold entry. do 2 f_equal.
    apply read_range_ext. intros x Hx. rewrite meta_kept, rest_kept; [done|..]; unfold in_table, fat_off in *; layout; lia.
  - rewrite <- Hfree. unfold fsi_free at 1 2. f_equal. apply read_range_ext. intros x Hx. apply Hmeta. layout. lia.
  - rewrite <- Hnext. unfold fsi_next at 1 2. f_equal. apply read_range_ext. intros x Hx. apply Hmeta. layout. lia.
Qed.
End Created.

Abbreviation cluster_size := (u32 (BytesPerSector F * spc)).
Abbreviation start_index dc := (if cluster_sector F dc =? FirstDataSector F then 2 else 0).

Lemma slots_per_cluster : u32 (EntriesPerSector F * spc) = 16 * spc.
Proof. rewrite HE. layout. unwrap. done. Qed.

Lemma write_range_ext d d' off bs a : d' a = d a -> write_range d' off bs a = write_range d off bs a.
Proof. intros H. unfold write_range. by rewrite H. Qed.
Lemma set_next_same d d' c v a : (forall a, d' a = d a) -> set_next F d' c v a = set_next F d c v a.
Proof.
  intros H. unfold set_next, entry_bytes. rewrite (read_range_ext d' d _ (fat_off F c)) by (intros; apply H). by apply write_range_ext.
Qed.

Section Write.
Context (s : Storage) (Hd : dev_ok vol s) (dc i c : Z) (Hdc : valid F dc) (Hc : valid F c) (Hne : c <> dc) (Hi : 0 <= i < 16 * spc)
  (name : list Z) (attr parentSector : Z) (contents fsi pEntry : list Z) (Hnm : length name = 11%nat)
  (Hfl : Z.of_nat (length fsi) = SECTOR_SIZE)
  (Hfree : fsi_free (write_range (vd s) SECTOR_SIZE fsi) = u32 (fsi_free (vd s) - 1))
  (Hnext : fsi_next (write_range (vd s) SECTOR_SIZE fsi) = u32 (fsi_next (vd s) + 1))
  (Hcont : new_cluster F attr (fat_date now) (fat_time now) parentSector c cluster_size = Ok (inr contents))
  (Hcl : Z.of_nat (length contents) = spc * SECTOR_SIZE).
Abbreviation e := (new_entry name attr c (fat_date now) (fat_time now)).
Context (Hp : put_bytes (cluster_bytes (vd s) dc) (SIZEOF_DIR_ENTRY * i) e = Ok pEntry).

Lemma pEntry_length : Z.of_nat (length pEntry) = spc * SECTOR_SIZE.
Proof.
  pose proof (cluster_bytes_length (vd s) dc) as Hlb.
  destruct (put_bytes_run (cluster_bytes (vd s) dc) (SIZEOF_DIR_ENTRY * i) e) as (p'&Ep'&Lp&_);
    [unfold SIZEOF_DIR_ENTRY; lia|rewrite Hlb, new_entry_length by done; unfold SIZEOF_DIR_ENTRY, SECTOR_SIZE; lia|].
  rewrite Hp in Ep'. injection Ep' as <-. lia.
Qed.

(** Writing the changed directory cluster changes the entry. *)
Lemma entry_written a : write_range (write_range (vd s) SECTOR_SIZE fsi) (cluster_sector F dc * SECTOR_SIZE) pEntry a =
  write_range (write_range (vd s) SECTOR_SIZE fsi) (dir_off F dc i) e a.
Proof.
  destruct (cluster_range vol F HF dc s Hd Hdc). unfold dir_off. apply (write_back _ _ (spc * SECTOR_SIZE)).
  - rewrite <- Hp. f_equal. apply read_range_ext. intros x Hx. apply write_range_out. rewrite Hfl. layout. lia.
  - unfold SIZEOF_DIR_ENTRY. lia.
  - rewrite new_entry_length by done. unfold SIZEOF_DIR_ENTRY, SECTOR_SIZE. lia.
Qed.

Lemma write_created_run : exists s',
  write_created vol F attr (fat_date now) (fat_time now) parentSector (cluster_sector F dc) c fsi pEntry s = Ok (inr tt, s') /\
  dev_ok vol s' /\ created (vd s) (vd s') dc i c e contents.
Proof.
  unfold write_created. destruct (fsi_write s fsi Hd Hfl) as (s1&W1&Hd1&V1). rewrite (ebind_run _ _ _ _ _ W1).
  destruct (cluster_write_run vol F HF s1 dc pEntry false Hd1 Hdc pEntry_length) as (s2&W2&Hd2&V2). rewrite (ebind_run _ _ _ _ _ W2).
  rewrite (ebind_run _ _ _ _ _ (pool_alloc_run s2 (proj2 (proj2 Hd2)))), (ebind_run _ _ _ _ _ (lift_run _ s2 _ Hcont)).
  rewrite (ebind_run _ _ s2 (cluster_sector F c) s2) by (unfold ret; by rewrite (FirstSectorOfCluster_run vol F HF c s2 Hd2 Hc)).
  destruct (cluster_write_run vol F HF s2 c contents false Hd2 Hc Hcl) as (s3&W3&Hd3&V3). rewrite (ebind_run _ _ _ _ _ W3).
  rewrite (ebind_run _ _ _ _ _ (pool_alloc_run s3 (proj2 (proj2 Hd3)))).
  destruct (eoc_written s3 c Hd3 Hc) as (pFAT&old&bs&s4&X1&X2&X3&X4&X5&X6&Hd4&V4).
  rewrite (bind_run _ _ _ _ _ (lift_run _ s3 _ X1)), (bind_run _ _ _ _ _ (lift_run _ s3 _ X2)).
  assert (u64 (ReservedSectors F + (fat_sector F c - ReservedSectors F)) = fat_sector F c) as ->.
  { pose proof (fat_sector_range vol F HF c (valid_in_table F c Hc)). pose proof (vol_small vol s Hd). unwrap. lia. }
  rewrite (ebind_run _ _ _ _ _ X3), (bind_run _ _ _ _ _ (lift_run _ s3 _ X4)), (bind_run _ _ _ _ _ (lift_run _ s3 _ X5)).
  exists s4. split_and!; [done..|].
  apply (created_intro s Hd dc i c Hdc Hc Hne Hi _ contents fsi); try done; [by rewrite new_entry_length|].
  intros a. rewrite V4. apply set_next_same. clear a. intros a. rewrite V3. apply write_range_ext. rewrite V2, <- entry_written.
  apply write_range_ext, V1.
Qed.
End Write.

Lemma create_in_cluster_run s dc i name attr parentSector contents :
  dev_ok vol s -> valid F dc -> valid F (fsi_next (vd s)) -> fsi_next (vd s) <> dc -> fsi_free (vd s) <> 0 ->
  first_slot (vd s) dc (start_index dc) i -> length (take 11 name) = 11%nat ->
  new_cluster F attr (fat_date now) (fat_time now) parentSector (fsi_next (vd s)) cluster_size = Ok (inr contents) ->
  Z.of_nat (length contents) = spc * SECTOR_SIZE ->
  exists s', create_in_cluster vol now F name attr parentSector (cluster_sector F dc) s = Ok (inr tt, s') /\ dev_ok vol s' /\
    created (vd s) (vd s') dc i (fsi_next (vd s))
      (new_entry (take 11 name) attr (fsi_next (vd s)) (fat_date now) (fat_time now)) contents.
Proof.
  intros Hd Hdc Hc Hne Hfr Hslot Hnm Hcont Hcl. set (c := fsi_next (vd s)) in *. pose proof Hslot as ([Hi1 Hi2]&_).
  assert (0 <= i) by (destruct (_ =? _); lia). pose proof (lo_spc vol F HF). unfold create_in_cluster.
  rewrite slots_per_cluster, (ebind_run _ _ _ _ _ (cluster_read_run vol F HF s dc true Hd Hdc)). fold (cluster_bytes (vd s) dc).
  rewrite (bind_run _ _ _ _ _ (lift_run _ s _ (free_slot_run _ _ _ _ Hslot (S (Z.to_nat (16 * spc))) (start_index dc)
    ltac:(destruct (_ =? _); lia) ltac:(lia) ltac:(destruct (_ =? _); lia)))).
  cbv beta iota. rewrite (surjective_pairing (ConvertDateTimeToFatDateTime now 0 0)). fold (fat_date now) (fat_time now).
  destruct (entry_composed (cluster_bytes (vd s) dc) i (take 11 name) attr c (fat_date now) (fat_time now))
    as (p1&p2&p3&p4&p5&p6&E1&E2&E3&E4&E5&E6&Ep);
    [done|rewrite cluster_bytes_length; unfold SIZEOF_DIR_ENTRY, SECTOR_SIZE; lia|done|].
  rewrite (bind_run _ _ _ _ _ (lift_run _ s _ E1)), (bind_run _ _ _ _ _ (lift_run _ s _ E2)).
  rewrite (ebind_run _ _ _ _ _ (pool_alloc_run s (proj2 (proj2 Hd)))), (ebind_run _ _ _ _ _ (fsi_read s Hd)).
  rewrite (bind_run _ _ _ (fsi_free (vd s)) s) by (apply lift_run, get_le_run; unfold SECTOR_SIZE; lia).
  rewrite (proj2 (Z.eqb_neq 0 _)) by done.
  rewrite (bind_run _ _ _ c s) by (apply lift_run, get_le_run; unfold SECTOR_SIZE; lia).
  rewrite (bind_run _ _ _ _ _ (lift_run _ s _ E3)), (bind_run _ _ _ _ _ (lift_run _ s _ E4)), (bind_run _ _ _ _ _ (lift_run _ s _ E5)).
  rewrite (bind_run _ _ _ _ _ (lift_run _ s _ E6)).
  destruct (fsi_assigned (vd s) (u32 (c + 1)) (u32 (fsi_free (vd s) - 1))) as (b1&b2&F1&F2&Lf&Hfs).
  rewrite (bind_run _ _ _ _ _ (lift_run _ s _ F1)), (bind_run _ _ _ _ _ (lift_run _ s _ F2)).
  destruct (Hfs (vd s) ltac:(done)) as [Hf1 Hf2]. rewrite !Z.mod_small in Hf1, Hf2 by apply u32_range.
  by apply (write_created_run s Hd dc i c Hdc Hc Hne ltac:(lia) (take 11 name)).
Qed.

(** ** The new cluster *)
Lemma new_cluster_file attr fd ft parent c : Z.land attr (Z.lor ATTR_DIRECTORY ATTR_VOLUME_ID) <> ATTR_DIRECTORY ->
  new_cluster F attr fd ft parent c cluster_size = Ok (inr (replicate (Z.to_nat (spc * SECTOR_SIZE)) 0)).
Proof.
  intros Ha. unfold new_cluster. rewrite (proj2 (Z.eqb_neq _ _)) by congruence. do 4 f_equal. rewrite (lo_bps vol F HF).
  layout. unwrap. lia.
Qed.

(** The first cluster of a new directory: the entries of the directory and of its parent, then zeroes; the parent is
    recorded as cluster 0 when it is the first cluster of the data region. *)
Definition dir_contents (fd ft c parent : Z) : list Z :=
  (new_entry DOT_ENTRY_NAME ATTR_DIRECTORY c fd ft ++ new_entry DOT_DOT_ENTRY_NAME ATTR_DIRECTORY parent fd ft) ++
  replicate (Z.to_nat (spc * SECTOR_SIZE) - 64) 0.

(** Computes the array after an assignment to a field. *)
Ltac store_field H := match goal with |- context [put_field (?e ++ ?post) ?i ?off ?new] =>
  let r := eval cbv -[u8 Z.shiftr DWORD_HIGH DWORD_LOW] in (put_bytes e (SIZEOF_DIR_ENTRY * i + off) new) in
  match r with Ok ?e1 => rewrite (H e i off new e1) by (reflexivity || (unfold SIZEOF_DIR_ENTRY; lia)) end;
  cbn [mbind outcome_bind] end.

Lemma new_cluster_dir attr fd ft pc c s : dev_ok vol s -> valid F pc ->
  Z.land attr (Z.lor ATTR_DIRECTORY ATTR_VOLUME_ID) = ATTR_DIRECTORY ->
  new_cluster F attr fd ft (cluster_sector F pc) c cluster_size = Ok (inr (dir_contents fd ft c (if pc =? 2 then 0 else pc))).
Proof.
  intros Hd Hpc Ha. unfold new_cluster. rewrite Ha. cbn [Z.eqb Pos.eqb ATTR_DIRECTORY]. pose proof (lo_spc vol F HF).
  assert (Z.to_nat cluster_size = (64 + (Z.to_nat (spc * SECTOR_SIZE) - 64))%nat) as ->.
  { rewrite (lo_bps vol F HF). unfold SECTOR_SIZE. unwrap. lia. }
  rewrite replicate_add. unfold dir_contents. set (post := replicate (_ - 64) 0).
  assert (forall e i off new e1, 0 <= SIZEOF_DIR_ENTRY * i + off -> put_bytes e (SIZEOF_DIR_ENTRY * i + off) new = Ok e1 ->
    put_field (e ++ post) i off new = Ok (e1 ++ post)) as Hput.
  { intros e i off new e1 Ho E. exact (put_bytes_mid [] e post _ new e1 Ho E). }
  assert ((if FirstDataSector F =? cluster_sector F pc then Ok (inr 0) else ClusterOfSector F (cluster_sector F pc)) =
    Ok (inr (if pc =? 2 then 0 else pc))) as ->.
  { pose proof (ClusterOfSector_run vol F HF pc 0 s Hd Hpc ltac:(lia)) as E. rewrite Z.add_0_r in E. rewrite E.
    unfold cluster_sector. destruct (Z.eqb_spec pc 2) as [->|Hne]; [by rewrite (proj2 (Z.eqb_eq _ _)) by lia|].
    by rewrite (proj2 (Z.eqb_neq _ _)) by (unfold valid in Hpc; nia). }
  unfold set_DIR_Name, set_DIR_FstClus, set_DIR_Attr, set_dates.
  generalize (if pc =? 2 then 0 else pc) as parent. intros parent.
  do 18 store_field Hput. reflexivity.
Qed.

(** ** The clusters of a directory *)
Lemma chain_length d l : is_chain F d l -> Z.of_nat (length l) <= CountOfClusters F.
Proof.
  intros Hl. pose proof (chain_nodup F d l Hl) as Hnd. destruct Hl as (_&Hv&_). layout.
  assert (l ⊆+ seqZ 2 (CountOfClusters F)) as Hs.
  { apply NoDup_submseteq; [done|]. intros c Hc. apply elem_of_seqZ. rewrite Forall_forall in Hv. specialize (Hv c Hc). unfold valid in Hv. lia. }
  apply submseteq_length in Hs. rewrite length_seqZ in Hs. lia.
Qed.

(** The last cluster is marked as the end of the chain, so that following the chain changes nothing. *)
Definition closed_chain (d : Z -> Z) (l : list Z) (last : Z) : Prop :=
  is_chain F d l /\ list.last l = Some last /\ entry F d last <> 0.

Lemma chain_entry d l last c : closed_chain d l last -> c ∈ l -> entry F d c <> 0.
Proof.
  intros (Hl&Hlast&He) Hc E. eapply (free_not_in_chain F); eauto.
Qed.

Lemma last_cluster_run s l last : dev_ok vol s -> closed_chain (vd s) l last -> forall fuel i c x, l !! i = Some c ->
  (length l - i < fuel)%nat -> last_cluster vol fuel F x c s = Ok (inr last, s).
Proof.
  intros Hd Hcc. pose proof Hcc as (Hl&Hlast&He). induction fuel as [|fuel IH]; intros i c x Hi Hf; [lia|]. cbn [last_cluster].
  pose proof (chain_valid F _ _ _ _ Hl Hi) as Hv. pose proof (lookup_lt_Some _ _ _ Hi).
  assert (FAT32_EOC c = false) as -> by (unfold FAT32_EOC; layout; apply Z.ltb_ge; lia). cbn [negb].
  destruct (NextClusterInChain_run vol F HF s c Hd (valid_in_table F c Hv)) as (r&s'&E&_&_&Hs&Hr).
  rewrite (Hs (chain_entry _ _ _ _ Hcc ltac:(by eapply list_elem_of_lookup_2))) in E. rewrite (ebind_run _ _ _ _ _ E).
  destruct Hl as (_&_&Hl). rewrite (Hl _ _ Hi) in Hr. destruct (l !! S i) as [n|] eqn:En.
  - destruct Hr as [-> _]. apply (IH (S i)); [done|lia].
  - apply lookup_ge_None in En. rewrite last_lookup in Hlast. replace (pred (length l)) with i in Hlast by lia.
    rewrite Hi in Hlast. injection Hlast as ->. destruct fuel; [lia|]. cbn [last_cluster]. by rewrite Hr.
Qed.

Lemma NextSector_stop s c j : dev_ok vol s -> valid F c -> 0 <= j < spc -> next F (vd s) c = None -> entry F (vd s) c <> 0 ->
  NextSectorInClusterChain vol F (cluster_sector F c + j) false s = Ok (inr 0, s).
Proof.
  intros Hd Hc Hj Hn He. unfold NextSectorInClusterChain.
  rewrite (ebind_run _ _ _ _ _ (lift_run _ s _ (ClusterOfSector_run vol F HF c j s Hd Hc Hj))).
  destruct (NextClusterInChain_run vol F HF s c Hd (valid_in_table F c Hc)) as (r&s'&E&_&_&Hs&Hr). rewrite Hn in Hr.
  rewrite (Hs He) in E. by rewrite (ebind_run _ _ _ _ _ E), Hr.
Qed.

(** One cluster of a walk through a directory, and the cluster behind it. *)
Section Walk.
Context (slack : Z) {A : Type} (fresh : A -> A) (visit : Z -> list Z -> list Z -> A -> outcome (A * list Z * bool)).
Abbreviation scan d c := (dir_entries slack (visit (cluster_sector F c)) (S (Z.to_nat (16 * spc))) (cluster_bytes d c) 0 (16 * spc)).

Lemma walk_dir_step fuel s c ln acc : dev_ok vol s -> valid F c -> entry F (vd s) c <> 0 -> 
  (forall n, next F (vd s) c = Some n -> valid F n) ->
  walk_dir vol slack fresh visit (S fuel) F (cluster_sector F c) ln acc s =
  match scan (vd s) c ln (fresh acc) with
  | Err e => Err e
  | Ok (Stopped acc) => Ok ((WStopped, acc), s)
  | Ok (EndMark acc) => Ok ((WEndMark, acc), s)
  | Ok (NextCluster ln acc) =>
    match next F (vd s) c with
    | None => Ok ((WEndOfChain, acc), s)
    | Some n => walk_dir vol slack fresh visit fuel F (cluster_sector F n) ln acc s
    end
  end.
Proof.
  intros Hd Hc He Hn. cbn [walk_dir]. pose proof (lo_spc vol F HF). rewrite slots_per_cluster.
  rewrite (bind_run _ _ s 0 s) by (unfold cmod; by rewrite (proj2 (Z.eqb_neq _ _)) by lia).
  erewrite bind_run by (unfold ExAllocatePool; rewrite (proj2 (proj2 Hd)); reflexivity). cbn [negb].
  rewrite (bind_run _ _ _ _ _ (cluster_read_run vol F HF s c true Hd Hc)). fold (cluster_bytes (vd s) c).
  destruct (scan (vd s) c ln (fresh acc)) as [[a|a|ln' a]|er] eqn:Ed; unfold mbind, M_bind, lift; try done.
  destruct (next F (vd s) c) as [n|] eqn:En.
  - pose proof (NextSector_next vol F HF s c 0 n false Hd Hc ltac:(lia) En (Hn n eq_refl)) as E. rewrite Z.add_0_r in E. rewrite E.
    rewrite (proj2 (Z.eqb_neq 0 _)); [done|]. specialize (Hn n eq_refl). layout. nia.
  - pose proof (NextSector_stop s c 0 Hd Hc ltac:(lia) En He) as E. rewrite Z.add_0_r in E. by rewrite E.
Qed.
End Walk.

Lemma dir_entries_step {A} slack (visit : list Z -> list Z -> A -> outcome (A * list Z * bool)) fuel d c j ln acc : 0 <= j < 16 * spc ->
  dir_entries slack visit (S fuel) (cluster_bytes d c) j (16 * spc) ln acc =
  ('(acc, ln, stop) ← (if is_free (dir_at F d c j) then Ok (acc, ln, false) else visit (dir_at F d c j) ln acc);
   if stop : bool then Ok (Stopped acc) else
   if FREE_ALL =? (if j + 1 <? 16 * spc then first_byte d c (j + 1) else slack) then Ok (EndMark acc) else
   if j + 1 =? 16 * spc then Ok (NextCluster ln acc) else dir_entries slack visit fuel (cluster_bytes d c) (j + 1) (16 * spc) ln acc).
Proof.
  intros Hj. cbn [dir_entries]. rewrite entry_read by done. cbn [mbind outcome_bind].
  destruct (if is_free (dir_at F d c j) then _ else _) as [[[acc' ln'] stop]|er]; [|done]. cbn [mbind outcome_bind].
  destruct stop; [done|]. pose proof (lo_spc vol F HF). unfold cmod. rewrite (proj2 (Z.eqb_neq (16 * spc) 0)) by lia.
  destruct (Z.ltb_spec (j + 1) (16 * spc)) as [Hlt|Hge].
  - rewrite first_byte_read by lia. destruct (FREE_ALL =? _); [done|]. cbn [mbind outcome_bind].
    rewrite Z.mod_small, (proj2 (Z.eqb_neq 0 _)), (proj2 (Z.eqb_neq (j + 1) _)) by lia. done.
  - assert (j + 1 = 16 * spc) as -> by lia. rewrite Z.mod_same, Z.eqb_refl by lia.
    assert (get_le (cluster_bytes d c) (SIZEOF_DIR_ENTRY * (16 * spc)) 1 = Err MemFault) as ->.
    { unfold get_le, get_bytes. rewrite cluster_bytes_length, (proj2 (Z.leb_gt (_ + 1) _)) by (unfold SIZEOF_DIR_ENTRY, SECTOR_SIZE; lia).
      by rewrite andb_false_r. }
    by destruct (FREE_ALL =? slack).
Qed.

(** * Search *)
Section Search.
Context (al slack : Z) (Name : list Z).
Abbreviation V := (visit_search al F Name).

(** An entry that is passed over is passed over whatever is searched for otherwise. *)
Lemma visit_go ST sec e ln acc acc' ln' : V ST sec e ln acc = Ok (acc', ln', false) ->
  forall ST2 sec2 acc2, V ST2 sec2 e ln acc2 = Ok (acc2, ln', false).
Proof.
  unfold visit_search. destruct (is_long e).
  - destruct (WritePartialLongFatNameToName _ _ _) as [[st l]|]; [|done]. cbn [mbind outcome_bind].
    destruct (assert_ _); [|done]. cbn [mbind outcome_bind]. by intros [= _ <-].
  - destruct (ConvertFatNameToName _ _) as [[st nm] k]. destruct (assert_ _); [|done]. cbn [mbind outcome_bind].
    destruct (_ || _).
    + destruct (negb _); [done|]. destruct (FirstSectorOfCluster _ _) as [|x]; [done|].
      destruct (so_info acc.2); [|done]. by destruct (_FatPopulateFileInformationFromFatEntry _ _ _).
    + destruct (of_option _); [|done]. cbn [mbind outcome_bind]. by intros [= _ <-].
Qed.

Definition goes_on {A} (r : dir_step A) : Prop := forall a, r <> Stopped a.

(** What a scan that finds nothing does with an entry. *)
Lemma scan_go ST sec fuel d c j ln acc r : 0 <= j < 16 * spc ->
  dir_entries slack (V ST sec) (S fuel) (cluster_bytes d c) j (16 * spc) ln acc = Ok r -> goes_on r ->
  exists ln', (forall ST2 sec2 acc2, (if is_free (dir_at F d c j) then Ok (acc2, ln, false) else V ST2 sec2 (dir_at F d c j) ln acc2) = Ok (acc2, ln', false)) /\
  (if FREE_ALL =? (if j + 1 <? 16 * spc then first_byte d c (j + 1) else slack) then Ok (EndMark acc) else
   if j + 1 =? 16 * spc then Ok (NextCluster ln' acc) else dir_entries slack (V ST sec) fuel (cluster_bytes d c) (j + 1) (16 * spc) ln' acc) = Ok r.
Proof.
  intros Hj. rewrite dir_entries_step by done. intros E Hg.
  destruct (if is_free (dir_at F d c j) then Ok (acc, ln, false) else V ST sec (dir_at F d c j) ln acc) as [[[acc' ln'] [|]]|er] eqn:Ev;
    cbn [mbind outcome_bind] in E; [by injection E as <-; edestruct Hg| |done].
  exists ln'. assert (forall ST2 sec2 acc2, (if is_free (dir_at F d c j) then Ok (acc2, ln, false) else V ST2 sec2 (dir_at F d c j) ln acc2) = Ok (acc2, ln', false)) as Hall.
  { intros ST2 sec2 acc2. destruct (is_free _); [by injection Ev as <- <-|]. by eapply visit_go. }
  split; [done|]. rewrite Hall in Ev. injection Ev as <-. done.
Qed.

Lemma scan_skip ST sec d d' c : forall k fuel j ln acc r, 0 <= j -> j + Z.of_nat k < 16 * spc ->
  dir_entries slack (V ST sec) fuel (cluster_bytes d c) j (16 * spc) ln acc = Ok r -> goes_on r ->
  (forall x, j <= x < j + Z.of_nat k -> dir_at F d' c x = dir_at F d c x) ->
  (forall x, j < x <= j + Z.of_nat k -> first_byte d' c x <> FREE_ALL) ->
  forall fuel2 ST2 sec2 acc2, exists ln',
  dir_entries slack (V ST2 sec2) (k + fuel2) (cluster_bytes d' c) j (16 * spc) ln acc2 =
  dir_entries slack (V ST2 sec2) fuel2 (cluster_bytes d' c) (j + Z.of_nat k) (16 * spc) ln' acc2.
Proof.
  induction k as [|k IH]; intros fuel j ln acc r Hj Hk E Hg Hat Hnz fuel2 ST2 sec2 acc2.
  { exists ln. by rewrite Z.add_0_r. }
  destruct fuel as [|fuel]; [done|]. assert (0 <= j < 16 * spc) as Hjr by lia.
  destruct (scan_go _ _ _ _ _ _ _ _ _ Hjr E Hg) as (ln'&Hgo&E').
  cbn [Nat.add]. rewrite dir_entries_step by lia. rewrite (Hat j), Hgo by lia. cbn [mbind outcome_bind].
  rewrite (proj2 (Z.ltb_lt (j + 1) (16 * spc))), (proj2 (Z.eqb_neq (j + 1) (16 * spc))) in E' |- * by lia.
  rewrite (proj2 (Z.eqb_neq FREE_ALL (first_byte d' c (j + 1)))) by (apply not_eq_sym, Hnz; lia).
  destruct k as [|k'].
  { exists ln'. by replace (j + Z.of_nat 1) with (j + 1) by lia. }
  assert (first_byte d c (j + 1) <> FREE_ALL) as Hnz1.
  { intros X. apply (Hnz (j + 1)); [lia|]. by rewrite Hat by lia. }
  rewrite (proj2 (Z.eqb_neq FREE_ALL _)) in E' by done.
  destruct (IH fuel (j + 1) ln' acc r ltac:(lia) ltac:(lia) E' Hg ltac:(intros; apply Hat; lia) ltac:(intros; apply Hnz; lia) fuel2 ST2 sec2 acc2) as (l2&E2).
  exists l2. rewrite E2. f_equal. lia.
Qed.

(** A search that ends at an entry does not report that nothing was found. *)
Lemma visit_stop_status ST sec e ln acc a ln' : V ST sec e ln acc = Ok (a, ln', true) -> a.1 <> STATUS_FILE_NOT_FOUND.
Proof.
  unfold visit_search. destruct (is_long e).
  { destruct (WritePartialLongFatNameToName _ _ _) as [[st l]|]; [|done]. cbn [mbind outcome_bind]. by destruct (assert_ _). }
  destruct (ConvertFatNameToName _ _) as [[st nm] k]. destruct (assert_ _); [|done]. cbn [mbind outcome_bind].
  destruct (_ || _); [|by destruct (of_option _)].
  destruct (negb _); [by intros [= <- _]|].
  destruct (FirstSectorOfCluster F (entry_cluster e)) as [st'|x] eqn:Ef.
  - intros [= <- _]. cbn [fst]. unfold FirstSectorOfCluster in Ef. destruct (_ || _); [by injection Ef as <-|done].
  - destruct (so_info acc.2); cbn [mbind outcome_bind]; [|by intros [= <- _]].
    destruct (_FatPopulateFileInformationFromFatEntry _ _ _); [|done]. by intros [= <- _].
Qed.

Lemma scan_stop_status ST sec fuel p n : forall j ln acc a, dir_entries slack (V ST sec) fuel p j n ln acc = Ok (Stopped a) ->
  a.1 <> STATUS_FILE_NOT_FOUND.
Proof.
  induction fuel as [|fuel IH]; intros j ln acc a; cbn [dir_entries]; [done|].
  destruct (get_bytes _ _ _) as [e|]; [|done]. cbn [mbind outcome_bind].
  destruct (if is_free e then Ok (acc, ln, false) else V ST sec e ln acc) as [[[acc' ln'] [|]]|er] eqn:Ev; cbn [mbind outcome_bind]; [| |done].
  - intros [= <-]. destruct (is_free e); [done|]. by eapply visit_stop_status.
  - destruct (FREE_ALL =? _); [done|]. destruct (cmod _ _) as [m|]; [|done]. cbn [mbind outcome_bind]. destruct (0 =? m); [done|]. apply IH.
Qed.

(** A scan of a cluster without an end mark that finds nothing goes on with the next cluster. *)
Lemma scan_through ST sec d c : slack <> FREE_ALL -> (forall x, 0 < x < 16 * spc -> first_byte d c x <> FREE_ALL) ->
  forall fuel j ln acc r, 0 <= j < 16 * spc ->
  dir_entries slack (V ST sec) fuel (cluster_bytes d c) j (16 * spc) ln acc = Ok r -> goes_on r ->
  exists ln', r = NextCluster ln' acc /\ forall ST2 sec2 acc2,
    dir_entries slack (V ST2 sec2) fuel (cluster_bytes d c) j (16 * spc) ln acc2 = Ok (NextCluster ln' acc2).
Proof.
  intros Hs Hnz. induction fuel as [|fuel IH]; intros j ln acc r Hj E Hg; [done|].
  destruct (scan_go _ _ _ _ _ _ _ _ _ Hj E Hg) as (l1&Hgo&E').
  assert ((FREE_ALL =? (if j + 1 <? 16 * spc then first_byte d c (j + 1) else slack)) = false) as Hz.
  { apply Z.eqb_neq, not_eq_sym. destruct (Z.ltb_spec (j + 1) (16 * spc)); [apply Hnz; lia|done]. }
  rewrite Hz in E'. destruct (Z.eqb_spec (j + 1) (16 * spc)) as [Ej|Ej].
  - injection E' as <-. exists l1. split; [done|]. intros ST2 sec2 acc2.
    rewrite dir_entries_step, Hgo by done. cbn [mbind outcome_bind]. by rewrite Hz, (proj2 (Z.eqb_eq _ _)).
  - destruct (IH (j + 1) l1 acc r ltac:(lia) E' Hg) as (l2&->&H2). exists l2. split; [done|]. intros ST2 sec2 acc2.
    rewrite dir_entries_step, Hgo by done. cbn [mbind outcome_bind]. rewrite Hz, (proj2 (Z.eqb_neq _ _)) by done. apply H2.
Qed.

(** ** An entry found at a place a search before did not stop at *)
Section Found.
Context (s s' : Storage) (Hd : dev_ok vol s) (Hd' : dev_ok vol s') (l : list Z) (last i : Z) (Hcc : closed_chain (vd s) l last)
  (Htab : forall c, c ∈ l -> entry F (vd s') c = entry F (vd s) c)
  (Hother : forall c, c ∈ l -> c <> last -> cluster_bytes (vd s') c = cluster_bytes (vd s) c)
  (Hi : 0 <= i < 16 * spc) (Hbefore : forall j, 0 <= j < i -> dir_at F (vd s') last j = dir_at F (vd s) last j)
  (Hreach : forall j, 0 < j < i -> first_byte (vd s) last j <> FREE_ALL)
  (Hearlier : forall c, c ∈ l -> c <> last -> slack <> FREE_ALL /\ forall j, 0 < j < 16 * spc -> first_byte (vd s) c j <> FREE_ALL).
Abbreviation e := (dir_at F (vd s') last i).
Context (Hused : is_free e = false) (Hfirst : DIR_Name0 e <> FREE_ALL).
Context (ST2 : Z) (acc2 a2 : Z * search_out)
  (Hvisit : forall ln, exists ln', V ST2 (cluster_sector F last) e ln acc2 = Ok (a2, ln', true)).

Lemma scan_found ST sec fuel ln acc r : dir_entries slack (V ST sec) fuel (cluster_bytes (vd s) last) 0 (16 * spc) ln acc = Ok r ->
  goes_on r ->
  dir_entries slack (V ST2 (cluster_sector F last)) (S (Z.to_nat (16 * spc))) (cluster_bytes (vd s') last) 0 (16 * spc) ln acc2 = Ok (Stopped a2).
Proof.
  intros E Hg. replace (S (Z.to_nat (16 * spc))) with (Z.to_nat i + S (Z.to_nat (16 * spc) - Z.to_nat i))%nat by lia.
  destruct (scan_skip ST sec (vd s) (vd s') last (Z.to_nat i) fuel 0 ln acc r ltac:(lia) ltac:(lia) E Hg ltac:(intros; apply Hbefore; lia)) with
    (fuel2 := S (Z.to_nat (16 * spc) - Z.to_nat i)) (ST2 := ST2) (sec2 := cluster_sector F last) (acc2 := acc2) as (ln'&->).
  { intros x Hx. destruct (decide (x = i)) as [->|]; [done|]. rewrite Hbefore by lia. apply Hreach. lia. }
  rewrite dir_entries_step by lia. replace (0 + Z.of_nat (Z.to_nat i)) with i by lia. rewrite Hused.
  destruct (Hvisit ln') as (ln2&->). done.
Qed.

Lemma walk_found ST : forall fuel k c ln acc w a, l !! k = Some c -> (length l - k < fuel)%nat ->
  walk_dir vol slack (fun a => a) (V ST) fuel F (cluster_sector F c) ln acc s = Ok ((w, a), s) ->
  (w = WStopped -> a.1 = STATUS_FILE_NOT_FOUND) ->
  walk_dir vol slack (fun a => a) (V ST2) fuel F (cluster_sector F c) ln acc2 s' = Ok ((WStopped, a2), s').
Proof.
  pose proof Hcc as (Hl&Hlast&He). induction fuel as [|fuel IH]; intros k c ln acc w a Hk Hf; [lia|].
  assert (c ∈ l) as Hc by (by eapply list_elem_of_lookup_2). pose proof (chain_valid F _ _ _ _ Hl Hk) as Hv.
  assert (forall n, next F (vd s) c = Some n -> l !! S k = Some n) as Hn by (intros n Hn; rewrite <- Hn; symmetry; by apply Hl).
  assert (next F (vd s') c = next F (vd s) c) as Enext by (unfold next; by rewrite Htab).
  rewrite !walk_dir_step; try done; try (rewrite ?Enext, ?Htab by done; by eapply chain_entry);
    try (intros n; rewrite ?Enext; intros Hn'; eapply (chain_valid F _ _ _ _ Hl), Hn, Hn').
  destruct (dir_entries slack (V ST (cluster_sector F c)) _ _ _ _ _ _) as [r|] eqn:Er; [|done]. intros Hw Hns.
  assert (goes_on r) as Hg.
  { intros a0 ->. injection Hw as <- <-. by apply (scan_stop_status _ _ _ _ _ _ _ _ _ Er), Hns. }
  destruct (decide (c = last)) as [->|Hne].
  { by rewrite (scan_found _ _ _ _ _ _ Er Hg). }
  rewrite Hother by done. destruct (Hearlier c Hc Hne) as [Hs Hnz]. assert (0 <= 0 < 16 * spc) as H0 by (pose proof (lo_spc vol F HF); lia).
  destruct (scan_through _ _ _ _ Hs Hnz _ _ _ _ _ H0 Er Hg) as (ln'&->&->). rewrite Enext.
  destruct (next F (vd s) c) as [n|] eqn:En.
  - eapply (IH (S k)); [by apply Hn|pose proof (lookup_lt_Some _ _ _ Hk); lia|exact Hw|done].
  - exfalso. destruct Hl as (_&_&Hl). rewrite (Hl _ _ Hk) in En. apply lookup_ge_None in En. pose proof (lookup_lt_Some _ _ _ Hk).
    rewrite last_lookup in Hlast. replace (pred (length l)) with k in Hlast by lia. congruence.
Qed.
End Found.
End Search.

(** ** What the search reports of the new entry *)
(** The date FAT keeps of a date: seconds are even. *)
Definition stored_date (t : DATETIME) : DATETIME :=
  mkDATETIME (dt_Date t) (mkTIME (Second (dt_Time t) - Second (dt_Time t) mod 2) (Minute (dt_Time t)) (Hour (dt_Time t))).
Definition storable (t : DATETIME) : Prop :=
  1 <= Day (dt_Date t) <= 31 /\ 1 <= Month (dt_Date t) <= 12 /\ 1980 <= Year (dt_Date t) <= 2107 /\
  0 <= Second (dt_Time t) <= 59 /\ 0 <= Minute (dt_Time t) <= 59 /\ 0 <= Hour (dt_Time t) <= 23.

Lemma getf_word f x : field_ok f -> fbase f + fwidth f <= 16 -> getf f (x mod 2 ^ 16) = getf f x.
Proof.
  intros Hf Hw. apply Z.bits_inj'. intros i Hi. pose proof Hf as []. rewrite !testbit_getf by done.
  destruct (Z.ltb_spec i (fwidth f)); [|by rewrite !andb_false_r]. rewrite Z.testbit_mod_pow2 by lia.
  by rewrite (proj2 (Z.ltb_lt _ 16)) by lia.
Qed.

Lemma stored_dates : storable now ->
  ConvertFatDateTimeToDateTime (fat_date now mod 2 ^ 16) (fat_time now mod 2 ^ 16) = inr (stored_date now).
Proof.
  intros (H1&H2&H3&H4&H5&H6). pose proof (fat_datetime_roundtrip now 0 0 H1 H2 H3 H4 H5 H6) as H.
  rewrite (surjective_pairing (ConvertDateTimeToFatDateTime now 0 0)) in H. fold (fat_date now) (fat_time now) in H.
  unfold stored_date. rewrite <- H. unfold ConvertFatDateTimeToDateTime, _ConvertFatDateToDate, _ConvertFatTimeToTime.
  rewrite !getf_word by by_fields. done.
Qed.

(** The kinds of entries that are created: files and directories. *)
Definition file_type (dir : bool) : Z := if dir then ATTR_DIRECTORY else ATTR_NORMAL.
Definition new_info (al : Z) (dir : bool) : FILE_INFORMATION :=
  mkINFO (stored_date now) (stored_date now) (AlignAddressUpper 0 al) (if dir then FILE_ATTRIBUTE_DIRECTORY else FILE_ATTRIBUTE_NORMAL).

Lemma new_entry_char nm attr c fd ft b : head nm = Some b -> DIR_Name0 (new_entry (padded nm) attr c fd ft) = b.
Proof. destruct nm as [|b' nm]; [done|]. intros [= ->]. change (b + 2 ^ 8 * 0 = b). lia. Qed.

Section Visit.
Context (al : Z) (nm : list Z) (Hnm : plain_name nm) (dir : bool) (c : Z) (Hc : valid F c) (s : Storage) (Hd : dev_ok vol s).
Abbreviation e := (new_entry (padded nm) (file_type dir) c (fat_date now) (fat_time now)).

Lemma padded11 : length (padded nm) = 11%nat.
Proof. apply length_padded. destruct Hnm. lia. Qed.

Lemma new_entry_first : is_free e = false /\ DIR_Name0 e <> FREE_ALL.
Proof.
  destruct Hnm as [_ Hch (b&Hb&N1&N2)]. unfold is_free. rewrite (new_entry_char _ _ _ _ _ b) by done.
  destruct nm as [|b' nm']; [done|]. injection Hb as ->. inversion Hch; subst. split; [|by unfold FREE_ALL; tauto].
  by rewrite !(proj2 (Z.eqb_neq _ b)) by congruence.
Qed.

Lemma info_populated i : storable now -> _FatPopulateFileInformationFromFatEntry al e i = Ok (new_info al dir).
Proof.
  intros Hs. unfold _FatPopulateFileInformationFromFatEntry.
  destruct (new_entry_fields (padded nm) (file_type dir) c (fat_date now) (fat_time now) padded11) as (->&->&->&->&->&->&_&_).
  rewrite (stored_dates Hs). by destruct dir.
Qed.

Lemma visit_new sec ln st out : storable now -> exists ln',
  visit_search al F nm (file_type dir) sec e ln (st, out) =
  Ok ((STATUS_SUCCESS, mkOut (cluster_sector F c) ((fun _ => new_info al dir) <$> so_info out) sec), ln', true).
Proof.
  intros Hs. exists ln. unfold visit_search.
  destruct (new_entry_fields (padded nm) (file_type dir) c (fat_date now) (fat_time now) padded11) as (Ha&_).
  assert (is_long e = false) as -> by (unfold is_long; rewrite Ha; by destruct dir).
  rewrite new_entry_name_field by apply padded11. rewrite name_converted by done. cbn [mbind outcome_bind assert_ snd].
  rewrite SUCCEEDED_success. cbn [mbind outcome_bind assert_]. rewrite (stricmp_refl nm). cbn [Z.eqb]. rewrite orb_true_r.
  rewrite Ha. assert ((Z.land (file_type dir mod 2 ^ 8) (Z.lor ATTR_DIRECTORY ATTR_VOLUME_ID) =? file_type dir) = true) as -> by (by destruct dir).
  cbn [negb]. rewrite new_entry_cluster by (try apply padded11; layout; lia).
  rewrite (FirstSectorOfCluster_run vol F HF c s Hd Hc). destruct (so_info out) as [i|]; [|done].
  rewrite (info_populated i Hs). done.
Qed.
End Visit.

(** ** Paths of one part *)
Lemma index_of_plain l : Forall (fun b => i8 b <> FAT_DELIMITER) l -> index_of FAT_DELIMITER l = None.
Proof. induction 1 as [|b l Hb _ IH]; [done|]. cbn [index_of]. by rewrite (proj2 (Z.eqb_neq _ _)), IH by done. Qed.
Lemma last_index_of_plain l : Forall (fun b => i8 b <> FAT_DELIMITER) l -> last_index_of FAT_DELIMITER l = None.
Proof. induction 1 as [|b l Hb _ IH]; [done|]. cbn [last_index_of]. by rewrite IH, (proj2 (Z.eqb_neq _ _)) by done. Qed.
Lemma plain_no_delimiter nm : plain_name nm -> Forall (fun b => i8 b <> FAT_DELIMITER) nm.
Proof. intros [_ H _]. eapply Forall_impl; [exact H|]. cbn. tauto. Qed.

Section Root.
Context (al slack : Z) (nm : list Z) (Hnm : plain_name nm).
Abbreviation path := (FAT_DELIMITER :: nm).

Lemma search_root ST out s : FatSearch vol al slack F path ST out s =
  ('(status, out') ← FatSearchDirectoryEntry vol al slack F (RootDirectoryStartSector F) nm ST (mkOut 0 (so_info out) (so_parent out));
   if negb (SUCCEEDED status) then ret (status, mkOut (so_result out) (so_info out') (so_parent out')) else ret (STATUS_SUCCESS, out')) s.
Proof.
  pose proof (pn_length _ Hnm) as Hl. unfold FatSearch. change (FAT_DELIMITER =? i8 (default 0 (head path))) with true. cbn [negb].
  rewrite (proj2 (Nat.eqb_neq (length path) 1)) by (cbn; lia). unfold mbind, M_bind. cbn [search_path].
  change (drop (Z.to_nat 1) path) with (drop 0 nm). rewrite drop_0, index_of_plain by (by apply plain_no_delimiter). cbn [default Nat.eqb].
  assert (u32 (Z.of_nat (length path) - 1) = Z.of_nat (length nm)) as -> by (cbn [length]; unwrap; lia).
  unfold LONG_NAME_MAX_CHARS. rewrite (proj2 (Z.leb_gt _ _)), (proj2 (Z.eqb_neq _ 0)) by lia. cbn [orb].
  rewrite Nat2Z.id, firstn_all. unfold mbind, M_bind.
  destruct (FatSearchDirectoryEntry _ _ _ _ _ _ _ _ s) as [[[st o] s']|]; [|done]. destruct (SUCCEEDED st) eqn:Es; cbn [negb]; unfold ret; [done|]. by rewrite Es.
Qed.

(** A search that reports that the file was not found has walked through the directory without stopping. *)
Lemma search_root_missed ST out s o s1 : FatSearch vol al slack F path ST out s = Ok ((STATUS_FILE_NOT_FOUND, o), s1) ->
  exists w a, walk_dir vol slack (fun a => a) (visit_search al F nm ST) (chain_fuel F) F (RootDirectoryStartSector F) empty_long_name
    (STATUS_SUCCESS, mkOut 0 (so_info out) (so_parent out)) s = Ok ((w, a), s1) /\ (w = WStopped -> a.1 = STATUS_FILE_NOT_FOUND).
Proof.
  rewrite search_root. unfold FatSearchDirectoryEntry, mbind, M_bind.
  destruct (walk_dir _ _ _ _ _ _ _ _ _ s) as [[[w a] s2]|]; [|done].
  assert (forall st o0 x, (if negb (SUCCEEDED st) then ret (st, x) else ret (STATUS_SUCCESS, o0)) s2 = Ok ((STATUS_FILE_NOT_FOUND, o), s1) ->
    st = STATUS_FILE_NOT_FOUND /\ s2 = s1) as Hst.
  { intros st o0 x. destruct (SUCCEEDED st); cbn [negb]; unfold ret; [done|]. by intros [= -> _ ->]. }
  intros H. exists w, a. destruct w; cbn [ret] in H; unfold ret in H; try (destruct a as [st oa]); apply Hst in H as [H1 ->]; split; done.
Qed.

(** The root directory with its clusters [l] has a slot for a new entry, and FSINFO names a cluster. *)
Record creatable (s : Storage) (l : list Z) (root last i : Z) : Prop := {
  ca_dev : dev_ok vol s;
  ca_root : l !! 0%nat = Some root /\ RootDirectoryStartSector F = cluster_sector F root;
  ca_chain : closed_chain (vd s) l last;
  ca_slot : first_slot (vd s) last (start_index last) i;
  ca_free : fsi_free (vd s) <> 0;
  ca_hint : valid F (fsi_next (vd s)) /\ fsi_next (vd s) <> last }.
Definition not_found (s : Storage) : Prop :=
  exists o, FatSearch vol al slack F path ATTR_NORMAL (mkOut 0 None 0) s = Ok ((STATUS_FILE_NOT_FOUND, o), s).

Definition new_contents (dir : bool) (c root : Z) : list Z :=
  if dir then dir_contents (fat_date now) (fat_time now) c (if root =? 2 then 0 else root)
  else replicate (Z.to_nat (spc * SECTOR_SIZE)) 0.
Abbreviation entry_of dir c := (new_entry (padded nm) (file_type dir) c (fat_date now) (fat_time now)).

Lemma new_contents_run dir c root s : dev_ok vol s -> valid F root ->
  new_cluster F (file_type dir) (fat_date now) (fat_time now) (cluster_sector F root) c cluster_size = Ok (inr (new_contents dir c root)) /\
  Z.of_nat (length (new_contents dir c root)) = spc * SECTOR_SIZE.
Proof.
  intros Hd Hr. pose proof (lo_spc vol F HF). unfold new_contents. destruct dir; cbn [file_type].
  - split; [by apply (new_cluster_dir _ _ _ _ _ s)|]. unfold dir_contents. rewrite !length_app, length_replicate.
    pose proof (new_entry_length DOT_ENTRY_NAME ATTR_DIRECTORY c (fat_date now) (fat_time now) eq_refl).
    pose proof (new_entry_length DOT_DOT_ENTRY_NAME ATTR_DIRECTORY (if root =? 2 then 0 else root) (fat_date now) (fat_time now) eq_refl).
    unfold SIZEOF_DIR_ENTRY, SECTOR_SIZE in *. lia.
  - split; [by apply new_cluster_file|]. rewrite length_replicate. unfold SECTOR_SIZE. lia.
Qed.

Lemma create_run s l root last i dir : creatable s l root last i -> not_found s ->
  exists s', FatCreateDirectoryEntry vol now al slack F path (file_type dir) s = Ok (inr tt, s') /\ dev_ok vol s' /\
    created (vd s) (vd s') last i (fsi_next (vd s)) (entry_of dir (fsi_next (vd s))) (new_contents dir (fsi_next (vd s)) root).
Proof.
  intros [Hd [Hr Hroot] Hcc Hslot Hfr [Hh Hne]] (o&Ho). pose proof Hcc as (Hl&Hlast&_). pose proof (chain_valid F _ _ _ _ Hl Hr) as Hvr.
  unfold FatCreateDirectoryEntry. cbn [last_index_of]. rewrite last_index_of_plain by (by apply plain_no_delimiter).
  change (i8 FAT_DELIMITER =? FAT_DELIMITER) with true. cbn [default id]. change ((0 =? 0)%nat && negb (FAT_DELIMITER =? i8 (default 0 (head path)))) with false.
  cbv iota. erewrite bind_run by reflexivity. change (drop (0 + 1) path) with (drop 0 nm). rewrite drop_0.
  destruct (new_entry_name_run nm) as (name&En&Ep); [pose proof (pn_length _ Hnm); lia|].
  rewrite (bind_run _ _ _ _ _ (lift_run _ s _ En)).
  rewrite (bind_run _ _ s (STATUS_SUCCESS, mkOut (RootDirectoryStartSector F) None 0) s) by reflexivity. cbv beta iota.
  rewrite SUCCEEDED_success. cbn [negb so_parent so_result]. rewrite (bind_run _ _ _ _ _ Ho). cbv beta iota.
  change (SUCCEEDED STATUS_FILE_NOT_FOUND || (STATUS_FILE_TYPE_INVALID =? STATUS_FILE_NOT_FOUND)) with false. cbv iota. rewrite Hroot.
  pose proof (ClusterOfSector_run vol F HF root 0 s Hd Hvr ltac:(layout; lia)) as Ec. rewrite Z.add_0_r in Ec.
  rewrite (ebind_run _ _ _ _ _ (lift_run _ s _ Ec)).
  pose proof (chain_length _ _ Hl) as Hlen.
  rewrite (ebind_run _ _ _ _ _ (last_cluster_run s l last Hd Hcc (S (chain_fuel F)) 0 root root Hr ltac:(unfold chain_fuel; lia))).
  assert (valid F last) as Hvl by (rewrite last_lookup in Hlast; by eapply (chain_valid F)).
  rewrite (ebind_run _ _ s (cluster_sector F last) s) by (unfold ret; by rewrite (FirstSectorOfCluster_run vol F HF last s Hd Hvl)).
  rewrite (ebind_run _ _ _ _ _ (pool_alloc_run s (proj2 (proj2 Hd)))). rewrite <- Ep.
  destruct (new_contents_run dir (fsi_next (vd s)) root s Hd Hvr) as [H1 H2].
  apply create_in_cluster_run; try done. rewrite Ep. by apply padded11.
Qed.

(** The search for the entry just created. *)
Lemma search_created s s' l root last i dir info : creatable s l root last i -> not_found s -> dev_ok vol s' ->
  created (vd s) (vd s') last i (fsi_next (vd s)) (entry_of dir (fsi_next (vd s))) (new_contents dir (fsi_next (vd s)) root) ->
  fsi_next (vd s) ∉ l -> storable now ->
  (forall j, 0 < j < i -> first_byte (vd s) last j <> FREE_ALL) ->
  (forall c, c ∈ l -> c <> last -> slack <> FREE_ALL /\ forall j, 0 < j < 16 * spc -> first_byte (vd s) c j <> FREE_ALL) ->
  FatSearch vol al slack F path (file_type dir) (mkOut 0 info 0) s' =
  Ok ((STATUS_SUCCESS, mkOut (cluster_sector F (fsi_next (vd s))) ((fun _ => new_info al dir) <$> info) (cluster_sector F last)), s').
Proof.
  intros [Hd [Hr Hroot] Hcc Hslot Hfr [Hh Hne]] (o&Ho) Hd' Hcr Hnl Hst Hreach Hearlier. pose proof Hcc as (Hl&Hlast&_).
  set (c := fsi_next (vd s)) in *. pose proof Hslot as ([Hi1 Hi2]&_).
  assert (0 <= i < 16 * spc) as Hi by (destruct (_ =? _); lia).
  destruct (search_root_missed _ _ _ _ _ Ho) as (w&a&Hw&Hns). rewrite search_root. unfold FatSearchDirectoryEntry. rewrite Hroot in *.
  destruct (new_entry_first nm Hnm dir c) as [Hu Hf].
  pose proof (cr_entry _ _ _ _ _ _ _ Hcr) as Hent.
  assert (forall x, x ∈ l -> valid F x) as Hval by (intros x Hx; apply list_elem_of_lookup in Hx as [k Hk]; by eapply (chain_valid F)).
  assert (walk_dir vol slack (fun a => a) (visit_search al F nm (file_type dir)) (chain_fuel F) F (cluster_sector F root) empty_long_name
    (STATUS_SUCCESS, mkOut 0 info 0) s' = Ok ((WStopped, (STATUS_SUCCESS,
       mkOut (cluster_sector F c) ((fun _ => new_info al dir) <$> info) (cluster_sector F last))), s')) as Hwalk.
  2: { unfold mbind, M_bind. cbn [so_info so_parent]. by rewrite Hwalk. }
  eapply (walk_found al slack nm s s' Hd Hd' l last i Hcc); [..|exact Hr| |exact Hw|exact Hns]; try done.
  - intros x Hx. rewrite (cr_table _ _ _ _ _ _ _ Hcr) by (by apply valid_in_table, Hval). by rewrite decide_False by (by intros ->).
  - intros x Hx Hxl. apply read_range_ext. intros b Hb. apply (cr_other _ _ _ _ _ _ _ Hcr x); try done; [by apply Hval|by intros ->|].
    unfold in_cluster. unfold SECTOR_SIZE in *. lia.
  - intros j Hj. apply (cr_entries _ _ _ _ _ _ _ Hcr); lia.
  - by rewrite Hent.
  - by rewrite Hent.
  - intros ln. rewrite Hent. by apply (visit_new al nm Hnm dir c Hh s Hd).
  - pose proof (chain_length _ _ Hl). unfold chain_fuel. lia.
Qed.

Lemma created_chain d d' dc i c e contents : valid F c -> created d d' dc i c e contents -> is_chain F d' [c].
Proof.
  intros Hc Hcr. split; [done|]. split; [by apply Forall_singleton|]. intros [|k] x Hx; [|by destruct k]. injection Hx as <-.
  unfold next. rewrite (cr_table _ _ _ _ _ _ _ Hcr) by (by apply valid_in_table). by rewrite decide_True.
Qed.


(** The cluster FSINFO names is taken without a look at the table: when it belongs to a file, as after the extension of a chain
    that ends by recording the cluster just added, the creation clears the cluster, cuts the chain of the file behind
    it and makes the new entry refer to it too. *)
Theorem fat_create_overwrites s l root last i dir l' k : creatable s l root last i -> not_found s ->
  is_chain F (vd s) l' -> l' !! k = Some (fsi_next (vd s)) ->
  exists s', let c := fsi_next (vd s) in
    FatCreateDirectoryEntry vol now al slack F path (file_type dir) s = Ok (inr tt, s') /\
    cluster_bytes (vd s') c = new_contents dir c root /\ is_chain F (vd s') (take (S k) l') /\
    entry_cluster (dir_at F (vd s') last i) = c.
Proof.
  intros Hca Hnf Hl' Hk. destruct (create_run s l root last i dir Hca Hnf) as (s'&E&Hd'&Hcr).
  pose proof Hca as [_ _ _ _ _ [Hh _]]. set (c := fsi_next (vd s)) in *. exists s'. cbv zeta. split_and!; [done|by apply Hcr| |].
  - pose proof (chain_nodup F _ _ Hl') as Hnd. pose proof Hl' as (Hne&Hv&Hn). split; [by destruct l'|]. split; [by apply Forall_take|].
    intros j x Hj. apply lookup_take_Some in Hj as [Hj Hjk]. unfold next.
    rewrite (cr_table _ _ _ _ _ _ _ Hcr) by (eapply valid_in_table, (chain_valid F); done). case_decide as Ex.
    + subst x. pose proof (NoDup_lookup _ _ _ _ Hnd Hj Hk) as ->. by rewrite lookup_take_ge by lia.
    + assert (j <> k) by (intros ->; congruence). rewrite lookup_take_lt by lia. by apply Hn.
  - rewrite (cr_entry _ _ _ _ _ _ _ Hcr). apply new_entry_cluster; [by apply padded11|layout; lia].
Qed.

(** In the first cluster of the data region, where the root directory usually is, a new entry never takes one of the first two slots.
    When the second one is still the end mark of the directory, the entry is written behind the end mark: the creation
    succeeds, but the file cannot be opened, now or later. *)
Theorem fat_create_unreachable s root i dir : creatable s [root] root root i -> not_found s ->
  cluster_sector F root = FirstDataSector F -> first_byte (vd s) root 1 = FREE_ALL ->
  exists s' o, let c := fsi_next (vd s) in
    FatCreateDirectoryEntry vol now al slack F path (file_type dir) s = Ok (inr tt, s') /\
    dir_at F (vd s') root i = entry_of dir c /\ is_chain F (vd s') [c] /\
    FatSearch vol al slack F path (file_type dir) (mkOut 0 (Some zero_info) 0) s' = Ok ((STATUS_FILE_NOT_FOUND, o), s') /\
    _FatDispatchCreate vol now al slack F (mkFile path dir true) s = Ok ((STATUS_FILE_NOT_FOUND, None), s').
Proof.
  intros Hca Hnf Hfirst Hend. destruct (create_run s [root] root root i dir Hca Hnf) as (s'&E&Hd'&Hcr).
  pose proof Hca as [Hd [_ Hroot] (Hl&_&He) (Hi&_) _ [Hh Hne]]. destruct Hnf as (o&Ho). set (c := fsi_next (vd s)) in *.
  rewrite Hfirst, Z.eqb_refl in Hi. pose proof (lo_spc vol F HF). assert (valid F root) as Hv by (by eapply (chain_valid F _ _ 0)).
  assert (next F (vd s) root = None) as Hn by (by apply (proj2 (proj2 Hl) 0%nat)).
  assert (entry F (vd s') root = entry F (vd s) root) as Het.
  { rewrite (cr_table _ _ _ _ _ _ _ Hcr) by (by apply valid_in_table). by rewrite decide_False by (by apply not_eq_sym). }
  assert (next F (vd s') root = None) as Hn' by (unfold next in *; by rewrite Het).
  assert (exists o', FatSearch vol al slack F path (file_type dir) (mkOut 0 (Some zero_info) 0) s' = Ok ((STATUS_FILE_NOT_FOUND, o'), s')) as (o'&Es).
  { destruct (search_root_missed _ _ _ _ _ Ho) as (w&a&Hw&Hns). rewrite search_root. unfold FatSearchDirectoryEntry. rewrite Hroot in *.
    unfold chain_fuel in *. rewrite walk_dir_step in Hw by (done || by rewrite Hn).
    destruct (dir_entries slack _ _ _ _ _ _ _) as [r|] eqn:Er; [|done].
    assert (goes_on r) as Hg.
    { intros a0 ->. injection Hw as <- <-. by apply (scan_stop_status al slack nm _ _ _ _ _ _ _ _ _ Er), Hns. }
    assert (0 <= 0 < 16 * spc) as H0 by lia. destruct (scan_go al slack nm _ _ _ _ _ _ _ _ _ H0 Er Hg) as (ln'&Hgo&_).
    unfold mbind, M_bind. rewrite walk_dir_step by (done || by rewrite ?Hn', ?Het).
    rewrite dir_entries_step by lia. rewrite (cr_entries _ _ _ _ _ _ _ Hcr 0), Hgo by lia. cbn [mbind outcome_bind].
    change (0 + 1) with 1. rewrite (proj2 (Z.ltb_lt 1 (16 * spc))), (cr_entries _ _ _ _ _ _ _ Hcr 1), Hend by lia. by eexists. }
  exists s', o'. cbv zeta. split_and!; [done|by apply Hcr|by eapply created_chain|done|].
  unfold _FatDispatchCreate. cbn [fo_DirectoryFile fo_Create fo_FileName]. fold (file_type dir). rewrite (bind_run _ _ _ _ _ E).
  by rewrite (bind_run _ _ _ _ _ Es).
Qed.
End Root.
End Create.

(** * Examples *)
(** On the volume of [Fat]: in the root directory the second entry is free or the end mark. *)
Definition demo_name : list Z := [104; 101; 108; 108; 111].
Definition demo_deleted : list (Z * Z) := [(548 * 512 + 32, FREE_ENTRY)].
Abbreviation demo_dir hint := (demo_storage 1000 hint demo_deleted).

Lemma demo_plain : plain_name demo_name.
Proof. split; [cbn; lia|by repeat constructor|]. by exists 104. Qed.

Lemma demo_storable : storable demo_now.
Proof. unfold storable. cbn. lia. Qed.

Lemma demo_root_chain free hint more : entry demo_fat (vdisk demo_vol (demo_storage free hint more)) 2 = FAT32_EOC_MARK ->
  closed_chain demo_fat (vdisk demo_vol (demo_storage free hint more)) [2] 2.
Proof.
  intros E. split; [|split; [done|by rewrite E]]. split; [done|]. split; [apply Forall_singleton; unfold valid; cbn; lia|].
  intros [|k] c H; [|by destruct k]. injection H as <-. unfold next. by rewrite E.
Qed.

Definition demo_case (hint : Z) (more : list (Z * Z)) : Prop :=
  (hint = 10 /\ more = []) \/ (hint = 10 /\ more = demo_deleted) \/ (hint = 9 /\ more = demo_deleted).
Ltac by_case Hs := destruct Hs as [[-> ->]|[[-> ->]|[-> ->]]].

Lemma demo_creatable hint more : demo_case hint more -> creatable demo_vol demo_fat (demo_storage 1000 hint more) [2] 2 2 2.
Proof.
  intros Hs. split.
  - apply demo_dev.
  - split; reflexivity.
  - apply demo_root_chain. by_case Hs; vm_compute; reflexivity.
  - split; [vm_compute; split; [discriminate|reflexivity]|]. split; [by_case Hs; vm_compute; reflexivity|]. intros j Hj. exfalso. change (2 <= j < 2) in Hj. lia.
  - by_case Hs; vm_compute; discriminate.
  - unfold valid. split; [by_case Hs; vm_compute; (split; [discriminate|reflexivity])|by_case Hs; vm_compute; discriminate].
Qed.

Lemma demo_not_found hint more : demo_case hint more -> not_found demo_vol demo_fat 512 1 demo_name (demo_storage 1000 hint more).
Proof.
  intros Hs. pose proof (demo_creatable hint more Hs) as [Hd _ Hcc _ _ _]. pose proof Hcc as ((_&_&Hl)&_&He). eexists. rewrite search_root by apply demo_plain.
  unfold FatSearchDirectoryEntry, mbind, M_bind. change (RootDirectoryStartSector demo_fat) with (cluster_sector demo_fat 2).
  assert (next demo_fat (vdisk demo_vol (demo_storage 1000 hint more)) 2 = None) as Hn by (by apply (Hl 0%nat)).
  assert (valid demo_fat 2) by (unfold valid; cbn; lia).
  unfold chain_fuel. rewrite (walk_dir_step demo_vol demo_fat demo_layout eq_refl) by (done || by rewrite Hn).
  set (x := dir_entries _ _ _ _ _ _ _ _). assert (x = Ok (EndMark (STATUS_SUCCESS, mkOut 0 None 0))) as ->
    by (by_case Hs; vm_compute; reflexivity).
  reflexivity.
Qed.


Lemma fat_create_overwrites_witness : exists s', FatCreateDirectoryEntry demo_vol demo_now 512 1 demo_fat (FAT_DELIMITER :: demo_name) ATTR_NORMAL (demo_dir 9) = Ok (inr tt, s') /\
  is_chain demo_fat (vdisk demo_vol s') [5; 9] /\ cluster_bytes demo_fat (vdisk demo_vol s') 9 = replicate 1024 0.
Proof.
  destruct (fat_create_overwrites demo_vol demo_fat demo_layout eq_refl demo_now 512 1 demo_name demo_plain (demo_dir 9) [2] 2 2 2 false [5; 9] 1)
    as (s'&E&Hb&Hc&_); [apply demo_creatable; unfold demo_case; tauto|apply demo_not_found; unfold demo_case; tauto| |vm_compute; reflexivity|].
  - split; [done|]. split; [repeat constructor; unfold valid; cbn; lia|].
    intros [|[|i]] c H; [..|by destruct i]; injection H as <-; vm_compute; reflexivity.
  - exists s'. split; [exact E|]. split; [exact Hc|exact Hb].
Defined.

Lemma fat_create_unreachable_witness : exists s' o,
  FatCreateDirectoryEntry demo_vol demo_now 512 1 demo_fat (FAT_DELIMITER :: demo_name) ATTR_NORMAL (demo_storage 1000 10 []) = Ok (inr tt, s') /\
  FatSearch demo_vol 512 1 demo_fat (FAT_DELIMITER :: demo_name) ATTR_NORMAL (mkOut 0 (Some zero_info) 0) s' = Ok ((STATUS_FILE_NOT_FOUND, o), s').
Proof.
  destruct (fat_create_unreachable demo_vol demo_fat demo_layout eq_refl demo_now 512 1 demo_name demo_plain (demo_storage 1000 10 []) 2 2 false)
    as (s'&o&E&_&_&Es&_); [apply demo_creatable; unfold demo_case; tauto|apply demo_not_found; unfold demo_case; tauto|reflexivity|vm_compute; reflexivity|].
  exists s', o. split; [exact E|exact Es].
Defined.
