(* ===== verification/IoManager.v ===== *)
(** HAL9000/src/io_devices.c and io_files.c, and the part of iomu.c that keeps the drivers, devices and volumes: driver and device
    objects, I/O request packets and their stack locations, the dispatch of a packet to a driver, file objects.

    The objects that are allocated and not freed are maps from addresses; using one that is not there is a fault, which
    stands also for the assertions that a pointer to an object is not NULL.  A dispatch
    function is named by a constructor, and what it does is an argument of [IoCallDriver]; the drivers are in [IoDrivers].
    Requests are issued one at a time, so a DeviceLock is taken only by the request itself: taking it a second time fails the
    assertion of a mutex that is not recursive.  [io_pool] gives the outcomes of the next pool allocations, and they succeed when it is used
    up.  The MDL of a packet is used only inside the transfers of the ATA driver, which are one step. *)
From S2P Require Import Prelude IntUtils ClMemory StrUtils ClString Storage Fat FatFile FatDir.

Definition STATUS_DEVICE_DOES_NOT_EXIST : Z := error_status DEVICE_MASK 0x0001.
Definition STATUS_DEVICE_COULD_NOT_BE_CREATED : Z := error_status DEVICE_MASK 0x0007.
Definition STATUS_DEVICE_DRIVER_COULD_NOT_BE_CREATED : Z := error_status DEVICE_MASK 0x0008.
Definition STATUS_DEVICE_INVALID_OPERATION : Z := error_status DEVICE_MASK 0x0009.
Definition STATUS_DEVICE_NO_FILESYSTEM_MOUNTED : Z := error_status DEVICE_MASK 0x000B.

Definition IRP_MJ_CREATE : Z := 0.
Definition IRP_MJ_CLOSE : Z := 1.
Definition IRP_MJ_READ : Z := 2.
Definition IRP_MJ_WRITE : Z := 3.
Definition IRP_MJ_QUERY_INFORMATION : Z := 4.
Definition IRP_MJ_DIRECTORY_CONTROL : Z := 5.
Definition IRP_MJ_DEVICE_CONTROL : Z := 6.
Definition IRP_MJ_MAX : Z := 6 + 1.
Definition IRP_MN_INFORMATION_FILE_INFORMATION : Z := 0.
Definition IRP_MN_QUERY_DIRECTORY : Z := 0.

Definition DeviceTypeMin : Z := 0.
Definition DeviceTypeSystem : Z := DeviceTypeMin.
Definition DeviceTypeHarddiskController : Z := 1.
Definition DeviceTypeDisk : Z := 2.
Definition DeviceTypeVolume : Z := 3.
Definition DeviceTypeFilesystem : Z := 4.
Definition DeviceTypePhysicalNetcard : Z := 5.
Definition DeviceTypeMax : Z := DeviceTypePhysicalNetcard.
Definition _IoIsValidDeviceType (DeviceType : Z) : bool := (DeviceTypeMin <=? DeviceType) && (DeviceType <=? DeviceTypeMax).

(** The dispatch functions of the drivers. *)
Inductive dispatch_fn : Set :=
| AtaReadWrite | AtaDeviceControl | DiskReadWrite | DiskDeviceControl | VolReadWrite | VolDeviceControl
| FatCreate | FatClose | FatReadWrite | FatQueryInformation | FatDirectoryControl
| SwapFsCreate | SwapFsClose | SwapFsRead | SwapFsWrite.

(** * Objects *)
(** The union Parameters of a stack location, with the member that was stored. *)
Inductive PARAMETERS :=
| ReadWrite (Length Offset : Z)
| DeviceControl (IoControlCode InputBufferLength OutputBufferLength OutputBuffer : Z)
| QueryFile (Length : Z)
| QueryDirectory (Length FileIndex : Z).

Record IO_STACK_LOCATION := mkLoc {
  MajorFunction : Z; MinorFunction : Z; Parameters : PARAMETERS; sl_DeviceObject : Z; sl_FileObject : Z }.
Record IRP := mkIrp {
  Buffer : Z; Information : Z; Status : Z; Completed : bool; Asynchronous : bool; CurrentStackLocation : Z; StackLocations : list IO_STACK_LOCATION }.
Record DEVICE_OBJECT := mkDev {
  d_DriverObject : Z; DeviceExtension : Z; DeviceExtensionSize : Z; DeviceType : Z; StackSize : Z; d_DeviceAlignment : Z; DeviceLock : bool; d_Vpb : Z; AttachedDevice : Z }.
Record DRIVER_OBJECT := mkDrv {
  DriverName : list Z; NoOfDevices : Z; DeviceList : list Z; DispatchFunctions : list (option dispatch_fn) }.
Record FILE_OBJECT := mkFileObject {
  FileSystemDevice : Z; fl_Asynchronous : bool; fl_Create : bool; fl_DirectoryFile : bool; FsContext2 : Z; FileName : list Z; RelatedFileObject : Z; CurrentByteOffset : Z; f_FileSize : Z }.
Record VPB := mkVpb {
  FilesystemDevice : Z; v_VolumeDevice : Z; Mounted : bool; SwapSpace : bool; VolumeLetter : Z }.

(** The private data of a device: the ATA device with its disk, a DISK_OBJECT, a VOLUME, the data of the file systems. *)
Inductive EXTENSION :=
| ZeroedExtension
| AtaExtension (s : Storage)
| DiskExtension (NumberOfSectors DiskDeviceController : Z) (DiskLayout : option (list PARTITION_INFORMATION))
| VolumeExtension (DiskDevice : Z) (PartitionInformation : PARTITION_INFORMATION)
| FatExtension (VolumeDevice : Z) (FatData : option FAT_DATA)
| SwapFsExtension (VolumeDevice FileSystemSize : Z).

(** What a buffer of a request holds. *)
Inductive BUFFER :=
| Bytes (bs : list Z)
| LengthInformation (Length : Z)
| LayoutInformation (Partitions : list PARTITION_INFORMATION)
| PartitionBuffer (p : PARTITION_INFORMATION)
| FileInformationBuffer (i : FILE_INFORMATION)
| DirectoryBuffer (l : list dir_info).

(** m_iomuData, the objects, the buffers of the callers and the allocator. *)
Record iost := mkIo {
  devs : gmap Z DEVICE_OBJECT; drvs : gmap Z DRIVER_OBJECT; irps : gmap Z IRP; fobjs : gmap Z FILE_OBJECT; vpbs : gmap Z VPB; exts : gmap Z EXTENSION; fcbs : gmap Z FCB_INFO; bufs : gmap Z BUFFER; DriverList : list Z; VpbList : list Z; m_currentVolumeLetter : Z; SystemDrive : list Z; SwapFile : Z; io_pool : list bool; io_next : Z }.

Definition set_MajorFunction v (L : IO_STACK_LOCATION) : IO_STACK_LOCATION := mkLoc v (MinorFunction L) (Parameters L) (sl_DeviceObject L) (sl_FileObject L).
Definition set_MinorFunction v (L : IO_STACK_LOCATION) : IO_STACK_LOCATION := mkLoc (MajorFunction L) v (Parameters L) (sl_DeviceObject L) (sl_FileObject L).
Definition set_Parameters v (L : IO_STACK_LOCATION) : IO_STACK_LOCATION := mkLoc (MajorFunction L) (MinorFunction L) v (sl_DeviceObject L) (sl_FileObject L).
Definition set_sl_DeviceObject v (L : IO_STACK_LOCATION) : IO_STACK_LOCATION := mkLoc (MajorFunction L) (MinorFunction L) (Parameters L) v (sl_FileObject L).
Definition set_sl_FileObject v (L : IO_STACK_LOCATION) : IO_STACK_LOCATION := mkLoc (MajorFunction L) (MinorFunction L) (Parameters L) (sl_DeviceObject L) v.
Definition set_Buffer v (I : IRP) : IRP := mkIrp v (Information I) (Status I) (Completed I) (Asynchronous I) (CurrentStackLocation I) (StackLocations I).
Definition set_Information v (I : IRP) : IRP := mkIrp (Buffer I) v (Status I) (Completed I) (Asynchronous I) (CurrentStackLocation I) (StackLocations I).
Definition set_Status v (I : IRP) : IRP := mkIrp (Buffer I) (Information I) v (Completed I) (Asynchronous I) (CurrentStackLocation I) (StackLocations I).
Definition set_Completed v (I : IRP) : IRP := mkIrp (Buffer I) (Information I) (Status I) v (Asynchronous I) (CurrentStackLocation I) (StackLocations I).
Definition set_Asynchronous v (I : IRP) : IRP := mkIrp (Buffer I) (Information I) (Status I) (Completed I) v (CurrentStackLocation I) (StackLocations I).
Definition set_CurrentStackLocation v (I : IRP) : IRP := mkIrp (Buffer I) (Information I) (Status I) (Completed I) (Asynchronous I) v (StackLocations I).
Definition set_StackLocations v (I : IRP) : IRP := mkIrp (Buffer I) (Information I) (Status I) (Completed I) (Asynchronous I) (CurrentStackLocation I) v.
Definition set_d_DriverObject v (D : DEVICE_OBJECT) : DEVICE_OBJECT := mkDev v (DeviceExtension D) (DeviceExtensionSize D) (DeviceType D) (StackSize D) (d_DeviceAlignment D) (DeviceLock D) (d_Vpb D) (AttachedDevice D).
Definition set_DeviceExtension v (D : DEVICE_OBJECT) : DEVICE_OBJECT := mkDev (d_DriverObject D) v (DeviceExtensionSize D) (DeviceType D) (StackSize D) (d_DeviceAlignment D) (DeviceLock D) (d_Vpb D) (AttachedDevice D).
Definition set_DeviceExtensionSize v (D : DEVICE_OBJECT) : DEVICE_OBJECT := mkDev (d_DriverObject D) (DeviceExtension D) v (DeviceType D) (StackSize D) (d_DeviceAlignment D) (DeviceLock D) (d_Vpb D) (AttachedDevice D).
Definition set_DeviceType v (D : DEVICE_OBJECT) : DEVICE_OBJECT := mkDev (d_DriverObject D) (DeviceExtension D) (DeviceExtensionSize D) v (StackSize D) (d_DeviceAlignment D) (DeviceLock D) (d_Vpb D) (AttachedDevice D).
Definition set_StackSize v (D : DEVICE_OBJECT) : DEVICE_OBJECT := mkDev (d_DriverObject D) (DeviceExtension D) (DeviceExtensionSize D) (DeviceType D) v (d_DeviceAlignment D) (DeviceLock D) (d_Vpb D) (AttachedDevice D).
Definition set_d_DeviceAlignment v (D : DEVICE_OBJECT) : DEVICE_OBJECT := mkDev (d_DriverObject D) (DeviceExtension D) (DeviceExtensionSize D) (DeviceType D) (StackSize D) v (DeviceLock D) (d_Vpb D) (AttachedDevice D).
Definition set_DeviceLock v (D : DEVICE_OBJECT) : DEVICE_OBJECT := mkDev (d_DriverObject D) (DeviceExtension D) (DeviceExtensionSize D) (DeviceType D) (StackSize D) (d_DeviceAlignment D) v (d_Vpb D) (AttachedDevice D).
Definition set_d_Vpb v (D : DEVICE_OBJECT) : DEVICE_OBJECT := mkDev (d_DriverObject D) (DeviceExtension D) (DeviceExtensionSize D) (DeviceType D) (StackSize D) (d_DeviceAlignment D) (DeviceLock D) v (AttachedDevice D).
Definition set_AttachedDevice v (D : DEVICE_OBJECT) : DEVICE_OBJECT := mkDev (d_DriverObject D) (DeviceExtension D) (DeviceExtensionSize D) (DeviceType D) (StackSize D) (d_DeviceAlignment D) (DeviceLock D) (d_Vpb D) v.
Definition set_NoOfDevices v (V : DRIVER_OBJECT) : DRIVER_OBJECT := mkDrv (DriverName V) v (DeviceList V) (DispatchFunctions V).
Definition set_DeviceList v (V : DRIVER_OBJECT) : DRIVER_OBJECT := mkDrv (DriverName V) (NoOfDevices V) v (DispatchFunctions V).
Definition set_DispatchFunctions v (V : DRIVER_OBJECT) : DRIVER_OBJECT := mkDrv (DriverName V) (NoOfDevices V) (DeviceList V) v.
Definition set_FsContext2 v (F : FILE_OBJECT) : FILE_OBJECT := mkFileObject (FileSystemDevice F) (fl_Asynchronous F) (fl_Create F) (fl_DirectoryFile F) v (FileName F) (RelatedFileObject F) (CurrentByteOffset F) (f_FileSize F).
Definition set_CurrentByteOffset v (F : FILE_OBJECT) : FILE_OBJECT := mkFileObject (FileSystemDevice F) (fl_Asynchronous F) (fl_Create F) (fl_DirectoryFile F) (FsContext2 F) (FileName F) (RelatedFileObject F) v (f_FileSize F).
Definition set_f_FileSize v (F : FILE_OBJECT) : FILE_OBJECT := mkFileObject (FileSystemDevice F) (fl_Asynchronous F) (fl_Create F) (fl_DirectoryFile F) (FsContext2 F) (FileName F) (RelatedFileObject F) (CurrentByteOffset F) v.
Definition set_FilesystemDevice v (V : VPB) : VPB := mkVpb v (v_VolumeDevice V) (Mounted V) (SwapSpace V) (VolumeLetter V).
Definition set_Mounted v (V : VPB) : VPB := mkVpb (FilesystemDevice V) (v_VolumeDevice V) v (SwapSpace V) (VolumeLetter V).
Definition set_SwapSpace v (V : VPB) : VPB := mkVpb (FilesystemDevice V) (v_VolumeDevice V) (Mounted V) v (VolumeLetter V).
Definition set_VolumeLetter v (V : VPB) : VPB := mkVpb (FilesystemDevice V) (v_VolumeDevice V) (Mounted V) (SwapSpace V) v.
Definition set_devs v (s : iost) : iost := mkIo v (drvs s) (irps s) (fobjs s) (vpbs s) (exts s) (fcbs s) (bufs s) (DriverList s) (VpbList s) (m_currentVolumeLetter s) (SystemDrive s) (SwapFile s) (io_pool s) (io_next s).
Definition set_drvs v (s : iost) : iost := mkIo (devs s) v (irps s) (fobjs s) (vpbs s) (exts s) (fcbs s) (bufs s) (DriverList s) (VpbList s) (m_currentVolumeLetter s) (SystemDrive s) (SwapFile s) (io_pool s) (io_next s).
Definition set_irps v (s : iost) : iost := mkIo (devs s) (drvs s) v (fobjs s) (vpbs s) (exts s) (fcbs s) (bufs s) (DriverList s) (VpbList s) (m_currentVolumeLetter s) (SystemDrive s) (SwapFile s) (io_pool s) (io_next s).
Definition set_fobjs v (s : iost) : iost := mkIo (devs s) (drvs s) (irps s) v (vpbs s) (exts s) (fcbs s) (bufs s) (DriverList s) (VpbList s) (m_currentVolumeLetter s) (SystemDrive s) (SwapFile s) (io_pool s) (io_next s).
Definition set_vpbs v (s : iost) : iost := mkIo (devs s) (drvs s) (irps s) (fobjs s) v (exts s) (fcbs s) (bufs s) (DriverList s) (VpbList s) (m_currentVolumeLetter s) (SystemDrive s) (SwapFile s) (io_pool s) (io_next s).
Definition set_exts v (s : iost) : iost := mkIo (devs s) (drvs s) (irps s) (fobjs s) (vpbs s) v (fcbs s) (bufs s) (DriverList s) (VpbList s) (m_currentVolumeLetter s) (SystemDrive s) (SwapFile s) (io_pool s) (io_next s).
Definition set_fcbs v (s : iost) : iost := mkIo (devs s) (drvs s) (irps s) (fobjs s) (vpbs s) (exts s) v (bufs s) (DriverList s) (VpbList s) (m_currentVolumeLetter s) (SystemDrive s) (SwapFile s) (io_pool s) (io_next s).
Definition set_bufs v (s : iost) : iost := mkIo (devs s) (drvs s) (irps s) (fobjs s) (vpbs s) (exts s) (fcbs s) v (DriverList s) (VpbList s) (m_currentVolumeLetter s) (SystemDrive s) (SwapFile s) (io_pool s) (io_next s).
Definition set_DriverList v (s : iost) : iost := mkIo (devs s) (drvs s) (irps s) (fobjs s) (vpbs s) (exts s) (fcbs s) (bufs s) v (VpbList s) (m_currentVolumeLetter s) (SystemDrive s) (SwapFile s) (io_pool s) (io_next s).
Definition set_VpbList v (s : iost) : iost := mkIo (devs s) (drvs s) (irps s) (fobjs s) (vpbs s) (exts s) (fcbs s) (bufs s) (DriverList s) v (m_currentVolumeLetter s) (SystemDrive s) (SwapFile s) (io_pool s) (io_next s).
Definition set_m_currentVolumeLetter v (s : iost) : iost := mkIo (devs s) (drvs s) (irps s) (fobjs s) (vpbs s) (exts s) (fcbs s) (bufs s) (DriverList s) (VpbList s) v (SystemDrive s) (SwapFile s) (io_pool s) (io_next s).
Definition set_SystemDrive v (s : iost) : iost := mkIo (devs s) (drvs s) (irps s) (fobjs s) (vpbs s) (exts s) (fcbs s) (bufs s) (DriverList s) (VpbList s) (m_currentVolumeLetter s) v (SwapFile s) (io_pool s) (io_next s).
Definition set_SwapFile v (s : iost) : iost := mkIo (devs s) (drvs s) (irps s) (fobjs s) (vpbs s) (exts s) (fcbs s) (bufs s) (DriverList s) (VpbList s) (m_currentVolumeLetter s) (SystemDrive s) v (io_pool s) (io_next s).
Definition set_io_pool v (s : iost) : iost := mkIo (devs s) (drvs s) (irps s) (fobjs s) (vpbs s) (exts s) (fcbs s) (bufs s) (DriverList s) (VpbList s) (m_currentVolumeLetter s) (SystemDrive s) (SwapFile s) v (io_next s).
Definition set_io_next v (s : iost) : iost := mkIo (devs s) (drvs s) (irps s) (fobjs s) (vpbs s) (exts s) (fcbs s) (bufs s) (DriverList s) (VpbList s) (m_currentVolumeLetter s) (SystemDrive s) (SwapFile s) (io_pool s) v.

(** * Access to objects *)
Definition the {A} (get : iost -> gmap Z A) (a : Z) : M iost A := s ← getS; lift (of_option (get s !! a)).
Definition upd {A} (get : iost -> gmap Z A) (set : gmap Z A -> iost -> iost) (a : Z) (f : A -> A) : M iost unit :=
  x ← the get a; modify (fun s => set (<[a := f x]> (get s)) s).
Definition put {A} (get : iost -> gmap Z A) (set : gmap Z A -> iost -> iost) (a : Z) (x : A) : M iost unit :=
  modify (fun s => set (<[a := x]> (get s)) s).
(** ExFreePoolWithTag of an object. *)
Definition free {A} (get : iost -> gmap Z A) (set : gmap Z A -> iost -> iost) (a : Z) : M iost unit :=
  _ ← the get a; modify (fun s => set (delete a (get s)) s).

Abbreviation dev := (the devs).
Abbreviation upd_dev := (upd devs set_devs).
Abbreviation drv := (the drvs).
Abbreviation upd_drv := (upd drvs set_drvs).
Abbreviation irp := (the irps).
Abbreviation upd_irp := (upd irps set_irps).
Abbreviation file := (the fobjs).
Abbreviation upd_file := (upd fobjs set_fobjs).
Abbreviation vpb := (the vpbs).
Abbreviation upd_vpb := (upd vpbs set_vpbs).
Abbreviation ext := (the exts).

(** ExAllocatePoolWithTag: whether the allocation succeeds; the address of a new block. *)
Definition ExAllocatePool : M iost bool := fun s =>
  match io_pool s with [] => Ok (true, s) | b :: rest => Ok (b, set_io_pool rest s) end.
Definition new_block : M iost Z := fun s => Ok (io_next s, set_io_next (io_next s + 1) s).

Definition zeroed_location : IO_STACK_LOCATION := mkLoc 0 0 (ReadWrite 0 0) NULL NULL.
Definition zeroed_device : DEVICE_OBJECT := mkDev NULL NULL 0 0 0 0 false NULL NULL.

(** * Volumes (iomu.c) *)
Definition _IomuGetNextVolumeLetter : M iost Z :=
  c ← gets m_currentVolumeLetter;
  _ ← modify (set_m_currentVolumeLetter (i8 (c + 1)));
  _ ← ASSERT (i8 (c + 1) <=? 90);
  ret (i8 (c + 1)).

Definition _VpbCompareFunction (FirstLetter SecondLetter : Z) : Z := i32 (tolower FirstLetter - tolower SecondLetter).

(** InsertOrderedList of a volume parameter block: before the first one that is greater. *)
Fixpoint insert_vpb (l : list Z) (Vpb letter : Z) : M iost (list Z) :=
  match l with
  | [] => ret [Vpb]
  | v :: l' => V ← vpb v;
               if _VpbCompareFunction letter (VolumeLetter V) <? 0 then ret (Vpb :: l) else
               r ← insert_vpb l' Vpb letter; ret (v :: r)
  end.
Definition IomuNewVpbCreated (Vpb : Z) : M iost unit :=
  letter ← _IomuGetNextVolumeLetter;
  _ ← upd_vpb Vpb (set_VolumeLetter letter);
  l ← gets VpbList;
  l' ← insert_vpb l Vpb letter;
  modify (set_VpbList l').

(** ListSearchForElement in the ordered list. *)
Fixpoint search_vpb (l : list Z) (DriveLetter : Z) : M iost Z :=
  match l with
  | [] => ret NULL
  | v :: l' => V ← vpb v;
               let cmpResult := _VpbCompareFunction (VolumeLetter V) DriveLetter in
               if cmpResult =? 0 then ret v else if 0 <? cmpResult then ret NULL else search_vpb l' DriveLetter
  end.
Definition IomuSearchForVpb (DriveLetter : Z) : M iost Z := l ← gets VpbList; search_vpb l DriveLetter.

Definition _IoAllocateVpb (VolumeDevice : Z) : M iost unit :=
  D ← dev VolumeDevice;
  _ ← ASSERT (DeviceTypeVolume =? DeviceType D);
  ok ← ExAllocatePool;
  _ ← ASSERT ok;
  pVpb ← new_block;
  _ ← put vpbs set_vpbs pVpb (mkVpb NULL VolumeDevice false false 0);
  _ ← upd_dev VolumeDevice (set_d_Vpb pVpb);
  IomuNewVpbCreated pVpb.

(** * Devices and drivers *)
(** The device, or NULL. *)
Definition IoCreateDevice (DriverObject DeviceExtensionSize_ DeviceType_ : Z) : M iost Z :=
  _ ← ASSERT (_IoIsValidDeviceType DeviceType_);
  ok ← ExAllocatePool;
  if negb ok then ret NULL else
  pDevice ← new_block;
  _ ← put devs set_devs pDevice (set_DeviceExtensionSize DeviceExtensionSize_ zeroed_device);
  ok ← (if negb (0 =? DeviceExtensionSize_) then
          ok ← ExAllocatePool;
          if negb ok then ret false else
          x ← new_block;
          _ ← put exts set_exts x ZeroedExtension;
          _ ← upd_dev pDevice (set_DeviceExtension x);
          ret true
        else ret true);
  if negb ok then _ ← free devs set_devs pDevice; ret NULL else
  _ ← upd_dev pDevice (set_DeviceType DeviceType_);
  _ ← (if DeviceTypeVolume =? DeviceType_ then _IoAllocateVpb pDevice else ret tt);
  _ ← upd_dev pDevice (set_StackSize 1);
  _ ← upd_drv DriverObject (fun V => set_NoOfDevices (u32 (NoOfDevices V + 1)) (set_DeviceList (DeviceList V ++ [pDevice]) V));
  _ ← upd_dev pDevice (set_d_DriverObject DriverObject);
  ret pDevice.

Definition IoGetDeviceExtension (Device : Z) : M iost Z := D ← dev Device; ret (DeviceExtension D).

Definition IoDeleteDevice (Device : Z) : M iost unit :=
  D ← dev Device;
  let pDriver := d_DriverObject D in
  _ ← ASSERT (negb (NULL =? pDriver));
  _ ← upd_drv pDriver (fun V => set_NoOfDevices (u32 (NoOfDevices V - 1)) (set_DeviceList (list_difference (DeviceList V) [Device]) V));
  _ ← (if negb (0 =? DeviceExtensionSize D) then
         _ ← ASSERT (negb (NULL =? DeviceExtension D));
         free exts set_exts (DeviceExtension D)
       else ret tt);
  free devs set_devs Device.

Definition IomuDriverInstalled (Driver : Z) : M iost unit := modify (fun s => set_DriverList (DriverList s ++ [Driver]) s).

(** The driver, or NULL; [DriverEntry] is the entry point of the driver. *)
Definition IoCreateDriver (DriverName_ : list Z) (DriverEntry : Z -> M iost Z) : M iost Z :=
  ok ← ExAllocatePool;
  if negb ok then ret NULL else
  pDriver ← new_block;
  ok ← ExAllocatePool;
  if negb ok then ret NULL else
  _ ← put drvs set_drvs pDriver (mkDrv DriverName_ 0 [] (replicate (Z.to_nat IRP_MJ_MAX) None));
  status ← DriverEntry pDriver;
  if negb (SUCCEEDED status) then _ ← free drvs set_drvs pDriver; ret NULL else
  _ ← IomuDriverInstalled pDriver;
  ret pDriver.

Definition IoAttachDevice (SourceDevice TargetDevice : Z) : M iost unit :=
  S ← dev SourceDevice;
  T ← dev TargetDevice;
  _ ← ASSERT (NULL =? AttachedDevice S);
  upd_dev SourceDevice (fun S => set_StackSize (u8 (StackSize T + 1)) (set_AttachedDevice TargetDevice S)).

(** DispatchFunctions[MajorFunction] = f *)
Definition set_dispatch (DriverObject MajorFunction_ : Z) (f : dispatch_fn) : M iost unit :=
  V ← drv DriverObject;
  l ← lift (of_option (zset (DispatchFunctions V) MajorFunction_ (Some f)));
  upd_drv DriverObject (set_DispatchFunctions l).

(** The devices of a type of one driver, and of all installed drivers in their order. *)
Fixpoint devices_of (DeviceType_ : Z) (l : list Z) : M iost (list Z) :=
  match l with
  | [] => ret []
  | d :: l' => D ← dev d; r ← devices_of DeviceType_ l'; ret (if DeviceType_ =? DeviceType D then d :: r else r)
  end.
Fixpoint devices_by_type (DeviceType_ : Z) (l : list Z) : M iost (list Z) :=
  match l with
  | [] => ret []
  | v :: l' => V ← drv v; x ← devices_of DeviceType_ (DeviceList V); r ← devices_by_type DeviceType_ l'; ret (x ++ r)
  end.
(** The status and the array. *)
Definition IomuGetDevicesByType (DeviceType_ : Z) : M iost (Z * list Z) :=
  l ← gets DriverList;
  found ← devices_by_type DeviceType_ l;
  if bool_decide (found = []) then ret (STATUS_SUCCESS, []) else
  ok ← ExAllocatePool;
  if negb ok then ret (STATUS_HEAP_NO_MORE_MEMORY, []) else ret (STATUS_SUCCESS, found).
Definition IoGetDevicesByType (DeviceType_ : Z) : M iost (Z * list Z) :=
  _ ← ASSERT (_IoIsValidDeviceType DeviceType_); IomuGetDevicesByType DeviceType_.

(** strcmp of the names decides; the driver, or NULL. *)
Fixpoint search_driver (l : list Z) (name : list Z) : M iost Z :=
  match l with
  | [] => ret NULL
  | v :: l' => V ← drv v; if bool_decide (DriverName V = name) then ret v else search_driver l' name
  end.
Definition IomuGetDriverByName (name : list Z) : M iost Z := l ← gets DriverList; search_driver l name.

(** * Request packets *)
(** The packet, or NULL. *)
Definition IoAllocateIrp (StackSize_ : Z) : M iost Z :=
  _ ← ASSERT (0 <? StackSize_);
  ok ← ExAllocatePool;
  if negb ok then ret NULL else
  pIrp ← new_block;
  _ ← put irps set_irps pIrp (mkIrp NULL 0 0 false false StackSize_ (replicate (Z.to_nat StackSize_) zeroed_location));
  ret pIrp.
Definition IoFreeIrp (Irp : Z) : M iost unit := free irps set_irps Irp.

(** The index of the current and of the next stack location, and access to one. *)
Definition IoGetCurrentIrpStackLocation (Irp : Z) : M iost Z :=
  I ← irp Irp; _ ← ASSERT (negb (MAX_BYTE =? CurrentStackLocation I)); ret (CurrentStackLocation I).
Definition IoGetNextIrpStackLocation (Irp : Z) : M iost Z :=
  I ← irp Irp; _ ← ASSERT (negb (0 =? CurrentStackLocation I)); ret (CurrentStackLocation I - 1).
Definition location (Irp i : Z) : M iost IO_STACK_LOCATION := I ← irp Irp; lift (of_option (zget (StackLocations I) i)).
Definition upd_location (Irp i : Z) (f : IO_STACK_LOCATION -> IO_STACK_LOCATION) : M iost unit :=
  L ← location Irp i;
  I ← irp Irp;
  l ← lift (of_option (zset (StackLocations I) i (f L)));
  upd_irp Irp (set_StackLocations l).
Definition current_location (Irp : Z) : M iost IO_STACK_LOCATION := i ← IoGetCurrentIrpStackLocation Irp; location Irp i.

Definition IoCopyCurrentStackLocationToNext (Irp : Z) : M iost unit :=
  I ← irp Irp;
  _ ← ASSERT (negb (0 =? CurrentStackLocation I));
  L ← location Irp (CurrentStackLocation I);
  upd_location Irp (CurrentStackLocation I - 1) (fun _ => L).

Definition IoCompleteIrp (Irp : Z) : M iost unit :=
  I ← irp Irp; _ ← ASSERT (negb (Completed I)); upd_irp Irp (set_Completed true).
Definition set_io_status (Irp status information : Z) : M iost unit :=
  upd_irp Irp (fun I => set_Information information (set_Status status I)).

Definition rw_parameters (L : IO_STACK_LOCATION) : outcome (Z * Z) :=
  match Parameters L with ReadWrite len off => Ok (len, off) | _ => Err MemFault end.

(** MutexAcquire and MutexRelease of DeviceLock. *)
Definition lock_device (Device : Z) : M iost unit :=
  D ← dev Device; _ ← ASSERT (negb (DeviceLock D)); upd_dev Device (set_DeviceLock true).
Definition unlock_device (Device : Z) : M iost unit :=
  D ← dev Device; _ ← ASSERT (DeviceLock D); upd_dev Device (set_DeviceLock false).

Section Dispatch.
(** What the dispatch functions do with a device and a packet. *)
Context (dispatch : dispatch_fn -> Z -> Z -> M iost Z).

(** Whether the length and offset of a read or write suit the device. *)
Definition alignment_ok (L : IO_STACK_LOCATION) (Alignment : Z) : outcome bool :=
  if (IRP_MJ_READ =? MajorFunction L) || (IRP_MJ_WRITE =? MajorFunction L) then
    '(Length, Offset) ← rw_parameters L; Ok (IsAddressAligned Length Alignment && IsAddressAligned Offset Alignment)
  else Ok true.

Definition IoCallDriver (Device Irp : Z) : M iost Z :=
  I ← irp Irp;
  _ ← ASSERT (negb (0 =? CurrentStackLocation I));
  _ ← upd_irp Irp (set_CurrentStackLocation (CurrentStackLocation I - 1));
  L ← current_location Irp;
  D ← dev Device;
  ok ← lift (alignment_ok L (d_DeviceAlignment D));
  if negb ok then ret STATUS_DEVICE_ALIGNMENT_NO_SATISFIED else
  _ ← ASSERT (negb (NULL =? d_DriverObject D));
  V ← drv (d_DriverObject D);
  f ← lift (of_option (zget (DispatchFunctions V) (MajorFunction L)));
  match f with
  | None => ret STATUS_DEVICE_INVALID_OPERATION
  | Some f =>
    _ ← lock_device Device;
    status ← dispatch f Device Irp;
    _ ← unlock_device Device;
    if negb (SUCCEEDED status) then ret status else ret STATUS_SUCCESS
  end.

(** The status and the new value of *Length. *)
Definition _IoReadWriteDevice (DeviceObject Buffer_ Length Offset : Z) (Write Asynchronous_ : bool) : M iost (Z * Z) :=
  _ ← ASSERT (negb (NULL =? Buffer_));
  D ← dev DeviceObject;
  pIrp ← IoAllocateIrp (StackSize D);
  _ ← ASSERT (negb (NULL =? pIrp));
  i ← IoGetNextIrpStackLocation pIrp;
  _ ← upd_location pIrp i (set_MajorFunction (if Write then IRP_MJ_WRITE else IRP_MJ_READ));
  _ ← upd_irp pIrp (fun I => set_Asynchronous Asynchronous_ (set_Buffer Buffer_ I));
  _ ← upd_location pIrp i (set_Parameters (ReadWrite Length Offset));
  status ← IoCallDriver DeviceObject pIrp;
  if negb (SUCCEEDED status) then _ ← IoFreeIrp pIrp; ret (status, Length) else
  I ← irp pIrp;
  _ ← IoFreeIrp pIrp;
  ret (Status I, Information I).
Definition IoReadDeviceEx (DeviceObject Buffer_ Length Offset : Z) (Asynchronous_ : bool) : M iost (Z * Z) :=
  _IoReadWriteDevice DeviceObject Buffer_ Length Offset false Asynchronous_.
Definition IoWriteDeviceEx (DeviceObject Buffer_ Length Offset : Z) (Asynchronous_ : bool) : M iost (Z * Z) :=
  _IoReadWriteDevice DeviceObject Buffer_ Length Offset true Asynchronous_.

(** The packet, or NULL. *)
Definition IoBuildDeviceIoControlRequest (IoControlCode DeviceObject InputBuffer InputBufferLength OutputBuffer OutputBufferLength : Z)
    : M iost Z :=
  D ← dev DeviceObject;
  pIrp ← IoAllocateIrp (StackSize D);
  if NULL =? pIrp then ret NULL else
  i ← IoGetNextIrpStackLocation pIrp;
  _ ← upd_location pIrp i (fun L => set_Parameters (DeviceControl IoControlCode InputBufferLength OutputBufferLength OutputBuffer)
                                      (set_MajorFunction IRP_MJ_DEVICE_CONTROL L));
  _ ← upd_irp pIrp (set_Buffer InputBuffer);
  ret pIrp.

(** * Files (io_files.c) *)
Definition FILE_NAME_MIN_LEN : Z := 3.
Definition CH_backslash : Z := 92.
Definition toupper (c : Z) : Z := Z.land c (Z.lnot LOWER_UPPER_DIFF).

(** strrchr returns the string itself when there is no backslash. *)
Definition _IoIsFilePathValid (FileName_ : list Z) : bool :=
  if Z.of_nat (length FileName_) <? FILE_NAME_MIN_LEN then false else
  match last_index_of CH_backslash FileName_ with None => false | Some i => negb (Nat.eqb i 0) end.

Definition _IoAllocateFileObject (Irp i : Z) (FileName_ : list Z) (Asynchronous_ Create Directory : bool) : M iost unit :=
  ok ← ExAllocatePool;
  _ ← ASSERT ok;
  pFileObject ← new_block;
  L ← location Irp i;
  _ ← put fobjs set_fobjs pFileObject (mkFileObject (sl_DeviceObject L) Asynchronous_ Create Directory NULL FileName_ NULL 0 0);
  upd_location Irp i (set_sl_FileObject pFileObject).
Definition _IoFreeFileObject (FileObject : Z) : M iost unit := free fobjs set_fobjs FileObject.

(** The status and *Handle when it is stored. *)
Definition IoCreateFile (FileName_ : list Z) (Directory Create Asynchronous_ : bool) : M iost (Z * option Z) :=
  let driveLetter := i8 (toupper (default 0 (head FileName_))) in
  if negb (_IoIsFilePathValid FileName_) then ret (STATUS_INVALID_FILE_NAME, None) else
  pVpb ← IomuSearchForVpb driveLetter;
  if NULL =? pVpb then ret (STATUS_DEVICE_DOES_NOT_EXIST, None) else
  V ← vpb pVpb;
  if negb (Mounted V) then ret (STATUS_DEVICE_NO_FILESYSTEM_MOUNTED, None) else
  let pFileSystemDevice := FilesystemDevice V in
  _ ← ASSERT (negb (NULL =? pFileSystemDevice));
  D ← dev pFileSystemDevice;
  pIrp ← IoAllocateIrp (StackSize D);
  if NULL =? pIrp then ret (STATUS_HEAP_NO_MORE_MEMORY, None) else
  i ← IoGetNextIrpStackLocation pIrp;
  _ ← upd_location pIrp i (fun L => set_sl_DeviceObject pFileSystemDevice (set_MajorFunction IRP_MJ_CREATE L));
  _ ← _IoAllocateFileObject pIrp i (drop (Z.to_nat (FILE_NAME_MIN_LEN - 1)) FileName_) Asynchronous_ Create Directory;
  status ← IoCallDriver pFileSystemDevice pIrp;
  I ← irp pIrp;
  let status := if SUCCEEDED status then Status I else status in
  L ← location pIrp i;
  r ← (if negb (SUCCEEDED status) then
         _ ← ASSERT (negb (NULL =? sl_FileObject L));
         _ ← _IoFreeFileObject (sl_FileObject L);
         ret None
       else ret (Some (sl_FileObject L)));
  _ ← IoFreeIrp pIrp;
  ret (status, r).

(** The common part of the functions on an open file: a packet for the file's device, whose next stack location [fill]
    completes, is sent; the result is the status of IoCallDriver or of the packet, and IoStatus.Information in the latter case. *)
Definition file_request (FileHandle Buffer_ : Z) (Asynchronous_ : bool) (fill : Z -> IO_STACK_LOCATION -> IO_STACK_LOCATION)
    : M iost (Z * option Z) :=
  F ← file FileHandle;
  let pFileSystemDevice := FileSystemDevice F in
  _ ← ASSERT (negb (NULL =? pFileSystemDevice));
  D ← dev pFileSystemDevice;
  pIrp ← IoAllocateIrp (StackSize D);
  if NULL =? pIrp then ret (STATUS_HEAP_NO_MORE_MEMORY, None) else
  _ ← upd_irp pIrp (fun I => set_Asynchronous Asynchronous_ (set_Buffer Buffer_ I));
  i ← IoGetNextIrpStackLocation pIrp;
  _ ← upd_location pIrp i (fill pFileSystemDevice);
  status ← IoCallDriver pFileSystemDevice pIrp;
  I ← irp pIrp;
  _ ← IoFreeIrp pIrp;
  if negb (SUCCEEDED status) then ret (status, None) else ret (Status I, Some (Information I)).

Definition IoCloseFile (FileHandle : Z) : M iost Z :=
  '(status, _) ← file_request FileHandle NULL false (fun _ L => set_sl_FileObject FileHandle (set_MajorFunction IRP_MJ_CLOSE L));
  ret status.

(** The status and *BytesTransferred when it is stored. *)
Definition _IoReadWriteFile (FileHandle Buffer_ Length : Z) (FileOffset : option Z) (Write : bool) : M iost (Z * option Z) :=
  _ ← ASSERT (negb (NULL =? Buffer_));
  F ← file FileHandle;
  fileOffset ← match FileOffset with
               | Some o => ret o
               | None => _ ← ASSERT (negb (fl_Asynchronous F)); ret (CurrentByteOffset F)
               end;
  '(status, transferred) ← file_request FileHandle Buffer_ (fl_Asynchronous F) (fun device L =>
       set_sl_FileObject FileHandle (set_Parameters (ReadWrite Length fileOffset) (set_sl_DeviceObject device
         (set_MajorFunction (if Write then IRP_MJ_WRITE else IRP_MJ_READ) L))));
  match transferred with
  | None => ret (status, None)
  | Some n =>
    F ← file FileHandle;
    _ ← (if SUCCEEDED status && negb (fl_Asynchronous F)
         then upd_file FileHandle (fun F => set_CurrentByteOffset (u64 (CurrentByteOffset F + n)) F) else ret tt);
    ret (status, Some n)
  end.
Definition IoReadFile (FileHandle BytesToRead : Z) (FileOffset : option Z) (Buffer_ : Z) : M iost (Z * option Z) :=
  _IoReadWriteFile FileHandle Buffer_ BytesToRead FileOffset false.
Definition IoWriteFile (FileHandle BytesToWrite : Z) (FileOffset : option Z) (Buffer_ : Z) : M iost (Z * option Z) :=
  _IoReadWriteFile FileHandle Buffer_ BytesToWrite FileOffset true.

Definition IoGetFileSize (FileHandle : Z) : M iost (Z * option Z) :=
  if FileHandle =? NULL then ret (STATUS_INVALID_PARAMETER1, None) else
  F ← file FileHandle; ret (STATUS_SUCCESS, Some (f_FileSize F)).

Definition IoQueryInformationFile (FileHandle FileInformation : Z) : M iost Z :=
  _ ← ASSERT (negb (NULL =? FileInformation));
  '(status, _) ← file_request FileHandle FileInformation false (fun device L =>
       set_sl_FileObject FileHandle (set_Parameters (QueryFile SIZEOF_FILE_INFORMATION) (set_sl_DeviceObject device
         (set_MinorFunction IRP_MN_INFORMATION_FILE_INFORMATION (set_MajorFunction IRP_MJ_QUERY_INFORMATION L)))));
  ret status.

(** The status and *SizeRequired when it is stored. *)
Definition IoQueryDirectoryFile (FileHandle BufferSize DirectoryInformation : Z) : M iost (Z * option Z) :=
  _ ← ASSERT (negb (NULL =? DirectoryInformation) || (0 =? BufferSize));
  '(status, information) ← file_request FileHandle DirectoryInformation false (fun device L =>
       set_sl_FileObject FileHandle (set_Parameters (QueryDirectory BufferSize 0) (set_sl_DeviceObject device
         (set_MinorFunction IRP_MN_QUERY_DIRECTORY (set_MajorFunction IRP_MJ_DIRECTORY_CONTROL L)))));
  match information with
  | None => ret (status, None)
  | Some n => _ ← ASSERT (n <=? MAX_DWORD); ret (status, Some (u32 n))
  end.
End Dispatch.
