(* ===== verification/IoDrivers.v ===== *)
(** The drivers below the I/O manager, as dispatch functions on devices and request packets and as driver entry points:
    Ata/src/ata_dispatch.c and ata.c, Disk/src/disk_dispatch.c and disk.c, Volume/src/volume_dispatch.c and volume.c,
    FAT32/src/fat32.c, SwapFS/src/swapfs.c, HAL9000/src/system_driver.c and the start of the drivers in iomu.c.

    What the ATA and FAT drivers compute is in [Storage], [Fat], [FatFile] and [FatDir]; here their results travel in packets, and the
    packets of the volume, disk and swap drivers are passed down the stack with [IoCallDriver].  The storage behind a
    volume is that of the ATA device its chain of devices ends at. *)
From S2P Require Import Prelude IntUtils ClMemory StrUtils ClString Storage Fat FatFile FatDir IoManager.

Definition STATUS_DEVICE_NOT_SUPPORTED : Z := error_status DEVICE_MASK 0x0003.

Definition IOCTL_DISK_GET_LENGTH_INFO : Z := 0x0.
Definition IOCTL_DISK_LAYOUT_INFO : Z := 0x1.
Definition IOCTL_VOLUME_PARTITION_INFO : Z := 0x2.
Definition PARTITION_TYPE_FAT_CHS : Z := 0xB.
Definition PARTITION_TYPE_FAT_LBA : Z := 0xC.
Definition PARTITION_TYPE_LINUX_SWAP : Z := 0x82.

Definition SIZEOF_GET_LENGTH_INFORMATION : Z := 8.
Definition SIZEOF_PARTITION_INFORMATION : Z := 24.
Definition SIZEOF_DISK_LAYOUT_INFORMATION : Z := 8.
Definition SIZEOF_DISK_OBJECT : Z := 24.
Definition SIZEOF_VOLUME : Z := 32.
Definition SIZEOF_FAT_DATA : Z := 48.
Definition SIZEOF_SWAPFS_DATA : Z := 16.

(** * Device extensions and buffers *)
(** The extension of a device, which the drivers assert not to be NULL. *)
Definition extension_of (Device : Z) : M iost Z := x ← IoGetDeviceExtension Device; _ ← ASSERT (negb (NULL =? x)); ret x.
Definition ata_extension (x : Z) : M iost Storage :=
  e ← ext x; match e with AtaExtension s => ret s | _ => fail MemFault end.
Definition disk_extension (x : Z) : M iost (Z * Z * option (list PARTITION_INFORMATION)) :=
  e ← ext x; match e with DiskExtension n c l => ret (n, c, l) | _ => fail MemFault end.
Definition volume_extension (x : Z) : M iost (Z * PARTITION_INFORMATION) :=
  e ← ext x; match e with VolumeExtension d p => ret (d, p) | _ => fail MemFault end.
Definition fat_extension (x : Z) : M iost (Z * FAT_DATA) :=
  e ← ext x; match e with FatExtension v (Some F) => ret (v, F) | _ => fail MemFault end.
Definition swapfs_extension (x : Z) : M iost (Z * Z) :=
  e ← ext x; match e with SwapFsExtension v n => ret (v, n) | _ => fail MemFault end.

(** Run storage code on the disk of an ATA extension. *)
Definition on_ata {A} (x : Z) (m : M Storage A) : M iost A :=
  s ← ata_extension x;
  '(a, s') ← lift (m s);
  _ ← put exts set_exts x (AtaExtension s');
  ret a.

(** The partition of a volume device and the ATA extension its requests reach. *)
Definition volume_storage (VolumeDevice : Z) : M iost (PARTITION_INFORMATION * Z) :=
  x ← extension_of VolumeDevice;
  '(disk, part) ← volume_extension x;
  y ← extension_of disk;
  '(_, controller, _) ← disk_extension y;
  z ← extension_of controller;
  ret (part, z).

Definition buffer_bytes (a : Z) : M iost (list Z) :=
  s ← getS; ret (match bufs s !! a with Some (Bytes bs) => bs | _ => [] end).
(** The data of a read, if there is any, goes to the start of the buffer. *)
Definition deliver (a : Z) (data : list Z) : M iost unit :=
  if bool_decide (data = []) then ret tt else
  bs ← buffer_bytes a;
  bs' ← lift (put_bytes bs 0 data);
  put bufs set_bufs a (Bytes bs').
(** memcpy of a structure to a buffer. *)
Definition store_buffer (a : Z) (b : BUFFER) : M iost unit := _ ← the bufs a; put bufs set_bufs a b.
Definition free_buffer (a : Z) : M iost unit := free bufs set_bufs a.
Definition new_buffer (b : BUFFER) : M iost Z := a ← new_block; _ ← put bufs set_bufs a b; ret a.

Definition control_parameters (L : IO_STACK_LOCATION) : outcome (Z * Z * Z) :=
  match Parameters L with DeviceControl code _ len out => Ok (code, len, out) | _ => Err MemFault end.
Definition set_Offset (o : Z) (L : IO_STACK_LOCATION) : IO_STACK_LOCATION :=
  match Parameters L with ReadWrite len _ => set_Parameters (ReadWrite len o) L | _ => L end.

(** * ATA *)
Definition is_read_write (L : IO_STACK_LOCATION) : bool := (IRP_MJ_READ =? MajorFunction L) || (IRP_MJ_WRITE =? MajorFunction L).

Definition AtaDispatchReadWrite (Device Irp : Z) : M iost Z :=
  x ← extension_of Device;
  L ← current_location Irp;
  _ ← ASSERT (is_read_write L);
  let writeOperation := IRP_MJ_WRITE =? MajorFunction L in
  '(sizeInBytes, offset) ← lift (rw_parameters L);
  I ← irp Irp;
  bs ← buffer_bytes (Buffer I);
  r ← on_ata x (Storage.AtaDispatchReadWrite (mkIRP writeOperation sizeInBytes offset bs (Asynchronous I)));
  _ ← deliver (Buffer I) (io_Data r);
  _ ← set_io_status Irp (io_Status r) (io_Information r);
  _ ← IoCompleteIrp Irp;
  ret STATUS_SUCCESS.

Definition AtaDispatchDeviceControl (Device Irp : Z) : M iost Z :=
  L ← current_location Irp;
  x ← extension_of Device;
  _ ← ASSERT (IRP_MJ_DEVICE_CONTROL =? MajorFunction L);
  '(code, OutputBufferLength, OutputBuffer) ← lift (control_parameters L);
  '(status, information) ←
    (if code =? IOCTL_DISK_GET_LENGTH_INFO then
       if OutputBufferLength <? SIZEOF_GET_LENGTH_INFORMATION then ret (STATUS_BUFFER_TOO_SMALL, SIZEOF_GET_LENGTH_INFORMATION) else
       s ← ata_extension x;
       _ ← store_buffer OutputBuffer (LengthInformation (u64 (TotalSectors s * SECTOR_SIZE)));
       ret (STATUS_SUCCESS, SIZEOF_GET_LENGTH_INFORMATION)
     else ret (STATUS_UNSUPPORTED, 0));
  _ ← set_io_status Irp status information;
  ret STATUS_SUCCESS.

(** * Dispatch functions that pass requests down; [call] is IoCallDriver *)
Section Pass.
Context (call : Z -> Z -> M iost Z).

Definition DiskDispatchReadWrite (Device Irp : Z) : M iost Z :=
  x ← extension_of Device;
  '(_, controller, _) ← disk_extension x;
  _ ← IoCopyCurrentStackLocationToNext Irp;
  call controller Irp.

Definition VolDispatchReadWrite (Device Irp : Z) : M iost Z :=
  x ← extension_of Device;
  '(disk, part) ← volume_extension x;
  L ← current_location Irp;
  _ ← ASSERT (is_read_write L);
  '(Length, Offset) ← lift (rw_parameters L);
  let lengthInSectors := Length / SECTOR_SIZE in
  let offsetInSectors := Offset / SECTOR_SIZE in
  let status := _VolCheckIOParameters part offsetInSectors lengthInSectors in
  status ← (if negb (SUCCEEDED status) then ret status else
              _ ← IoCopyCurrentStackLocationToNext Irp;
              i ← IoGetNextIrpStackLocation Irp;
              _ ← upd_location Irp i (set_Offset (u64 (u64 (offsetInSectors + OffsetInDisk part) * SECTOR_SIZE)));
              call disk Irp);
  _ ← (if negb (SUCCEEDED status) then _ ← upd_irp Irp (set_Status status); IoCompleteIrp Irp else ret tt);
  ret STATUS_SUCCESS.
End Pass.

Definition layout_size (l : list PARTITION_INFORMATION) : Z :=
  u32 (SIZEOF_DISK_LAYOUT_INFORMATION + Z.of_nat (length l) * SIZEOF_PARTITION_INFORMATION).
Definition DiskDispatchDeviceControl (Device Irp : Z) : M iost Z :=
  L ← current_location Irp;
  x ← extension_of Device;
  '(_, _, layout) ← disk_extension x;
  _ ← ASSERT (IRP_MJ_DEVICE_CONTROL =? MajorFunction L);
  '(code, OutputBufferLength, OutputBuffer) ← lift (control_parameters L);
  l ← lift (of_option layout);
  let information := layout_size l in
  status ← (if code =? IOCTL_DISK_LAYOUT_INFO then
              if OutputBufferLength <? information then ret STATUS_BUFFER_TOO_SMALL else
              _ ← store_buffer OutputBuffer (LayoutInformation l); ret STATUS_SUCCESS
            else ret STATUS_UNSUPPORTED);
  _ ← set_io_status Irp status information;
  ret STATUS_SUCCESS.

Definition VolDispatchDeviceControl (Device Irp : Z) : M iost Z :=
  x ← extension_of Device;
  '(_, part) ← volume_extension x;
  L ← current_location Irp;
  _ ← ASSERT (IRP_MJ_DEVICE_CONTROL =? MajorFunction L);
  '(code, OutputBufferLength, OutputBuffer) ← lift (control_parameters L);
  '(status, information) ←
    (if code =? IOCTL_VOLUME_PARTITION_INFO then
       if OutputBufferLength <? SIZEOF_PARTITION_INFORMATION then ret (STATUS_BUFFER_TOO_SMALL, SIZEOF_PARTITION_INFORMATION) else
       _ ← store_buffer OutputBuffer (PartitionBuffer part);
       ret (STATUS_SUCCESS, SIZEOF_PARTITION_INFORMATION)
     else ret (STATUS_UNSUPPORTED, 0));
  _ ← IoCompleteIrp Irp;
  _ ← set_io_status Irp status information;
  ret STATUS_SUCCESS.

(** * FAT32 *)
Section FatDispatch.
Context (now : DATETIME) (slack : Z).

(** Run code of the file system on its volume. *)
Definition on_fat {A} (Device : Z) (m : PARTITION_INFORMATION -> Z -> FAT_DATA -> M Storage A) : M iost A :=
  x ← extension_of Device;
  '(vol, F) ← fat_extension x;
  D ← dev vol;
  '(part, z) ← volume_storage vol;
  on_ata z (m part (d_DeviceAlignment D) F).

Definition _FatDispatchCreate (Device Irp : Z) : M iost Z :=
  L ← current_location Irp;
  _ ← ASSERT (IRP_MJ_CREATE =? MajorFunction L);
  F ← file (sl_FileObject L);
  _ ← ASSERT (NULL =? RelatedFileObject F);
  '(status, fcb) ← on_fat Device (fun part al fat =>
      FatDir._FatDispatchCreate part now al slack fat (mkFile (FileName F) (fl_DirectoryFile F) (fl_Create F)));
  _ ← match fcb with
      | None => ret tt
      | Some c =>
        pFcb ← new_block;
        _ ← put fcbs set_fcbs pFcb c;
        upd_file (sl_FileObject L) (fun F => set_FsContext2 pFcb (set_f_FileSize (FileSize (fcb_FileInformation c)) F))
      end;
  _ ← set_io_status Irp status 0;
  _ ← IoCompleteIrp Irp;
  ret STATUS_SUCCESS.

Definition _FatDispatchClose (Device Irp : Z) : M iost Z :=
  L ← current_location Irp;
  _ ← ASSERT (IRP_MJ_CLOSE =? MajorFunction L);
  _ ← ASSERT (negb (NULL =? sl_FileObject L));
  F ← file (sl_FileObject L);
  _ ← ASSERT (negb (NULL =? FsContext2 F));
  _ ← free fcbs set_fcbs (FsContext2 F);
  _ ← upd_file (sl_FileObject L) (set_FsContext2 NULL);
  _ ← upd_irp Irp (set_Status STATUS_SUCCESS);
  _ ← IoCompleteIrp Irp;
  ret STATUS_SUCCESS.

Definition _FatDispatchReadWrite (Device Irp : Z) : M iost Z :=
  L ← current_location Irp;
  _ ← ASSERT (is_read_write L);
  F ← file (sl_FileObject L);
  _ ← ASSERT (negb (NULL =? FsContext2 F));
  c ← the fcbs (FsContext2 F);
  '(Length, Offset) ← lift (rw_parameters L);
  I ← irp Irp;
  bs ← buffer_bytes (Buffer I);
  '(status, information, data) ← on_fat Device (fun part _ fat =>
      FatFile._FatDispatchReadWrite part now fat (fcb c)
        (mkIRP (IRP_MJ_WRITE =? MajorFunction L) Length Offset bs (Asynchronous I)));
  _ ← deliver (Buffer I) data;
  _ ← set_io_status Irp status information;
  _ ← IoCompleteIrp Irp;
  ret STATUS_SUCCESS.

Definition _FatDispatchQueryInformation (Device Irp : Z) : M iost Z :=
  L ← current_location Irp;
  _ ← ASSERT (IRP_MJ_QUERY_INFORMATION =? MajorFunction L);
  _ ← ASSERT (IRP_MN_INFORMATION_FILE_INFORMATION =? MinorFunction L);
  Length ← lift (match Parameters L with QueryFile n => Ok n | _ => Err MemFault end);
  s ← getS;
  let c := F ← fobjs s !! sl_FileObject L; fcbs s !! FsContext2 F in
  '(status, information, info) ← lift (FatDir._FatDispatchQueryInformation c Length);
  I ← irp Irp;
  _ ← match info with Some i => store_buffer (Buffer I) (FileInformationBuffer i) | None => ret tt end;
  _ ← set_io_status Irp status information;
  _ ← IoCompleteIrp Irp;
  ret STATUS_SUCCESS.

Definition _FatDispatchDirectoryControl (Device Irp : Z) : M iost Z :=
  L ← current_location Irp;
  _ ← ASSERT (IRP_MJ_DIRECTORY_CONTROL =? MajorFunction L);
  _ ← ASSERT (IRP_MN_QUERY_DIRECTORY =? MinorFunction L);
  Length ← lift (match Parameters L with QueryDirectory n _ => Ok n | _ => Err MemFault end);
  F ← file (sl_FileObject L);
  s ← getS;
  '(status, information, l) ← on_fat Device (fun part al fat =>
      FatDir._FatDispatchDirectoryControl part al slack fat (mkFile (FileName F) (fl_DirectoryFile F) (fl_Create F))
        (fcbs s !! FsContext2 F) Length);
  I ← irp Irp;
  _ ← (if bool_decide (l = []) then ret tt else store_buffer (Buffer I) (DirectoryBuffer l));
  _ ← set_io_status Irp status information;
  _ ← IoCompleteIrp Irp;
  ret STATUS_SUCCESS.
End FatDispatch.

(** * The swap file system *)
Section SwapFs.
Context (dispatch : dispatch_fn -> Z -> Z -> M iost Z).

Definition _SwapFsCreate (Device Irp : Z) : M iost Z :=
  L ← current_location Irp;
  _ ← ASSERT (IRP_MJ_CREATE =? MajorFunction L);
  x ← extension_of Device;
  '(_, FileSystemSize) ← swapfs_extension x;
  F ← file (sl_FileObject L);
  _ ← ASSERT (NULL =? RelatedFileObject F);
  status ← (if negb (bool_decide (FileName F = [CH_backslash])) then ret STATUS_FILE_NOT_FOUND else
              _ ← upd_file (sl_FileObject L) (set_f_FileSize FileSystemSize); ret STATUS_SUCCESS);
  _ ← set_io_status Irp status 0;
  _ ← IoCompleteIrp Irp;
  ret STATUS_SUCCESS.

Definition _SwapFsClose (Device Irp : Z) : M iost Z :=
  _ ← upd_irp Irp (set_Status STATUS_SUCCESS);
  _ ← IoCompleteIrp Irp;
  ret STATUS_SUCCESS.

(** _SwapFsRead and _SwapFsWrite, which differ only in the function they call. *)
Definition swapfs_transfer (MajorFunction_ : Z) (Write : bool) (Device Irp : Z) : M iost Z :=
  L ← current_location Irp;
  _ ← ASSERT (MajorFunction_ =? MajorFunction L);
  x ← extension_of Device;
  '(VolumeDevice, _) ← swapfs_extension x;
  '(Length, Offset) ← lift (rw_parameters L);
  I ← irp Irp;
  '(status, bytes) ← (if negb (Length =? PAGE_SIZE) then ret (STATUS_DEVICE_NOT_SUPPORTED, Length)
                      else IoManager._IoReadWriteDevice dispatch VolumeDevice (Buffer I) Length Offset Write false);
  _ ← set_io_status Irp status bytes;
  _ ← IoCompleteIrp Irp;
  ret STATUS_SUCCESS.
Definition _SwapFsRead : Z -> Z -> M iost Z := swapfs_transfer IRP_MJ_READ false.
Definition _SwapFsWrite : Z -> Z -> M iost Z := swapfs_transfer IRP_MJ_WRITE true.
End SwapFs.

(** * All dispatch functions; a request goes down at most [depth] devices *)
Fixpoint dispatch (now : DATETIME) (slack : Z) (depth : nat) (f : dispatch_fn) (Device Irp : Z) : M iost Z :=
  match depth with
  | O => fail NoFuel
  | S n =>
    let lower := dispatch now slack n in
    match f with
    | AtaReadWrite => AtaDispatchReadWrite Device Irp
    | AtaDeviceControl => AtaDispatchDeviceControl Device Irp
    | DiskReadWrite => DiskDispatchReadWrite (IoCallDriver lower) Device Irp
    | DiskDeviceControl => DiskDispatchDeviceControl Device Irp
    | VolReadWrite => VolDispatchReadWrite (IoCallDriver lower) Device Irp
    | VolDeviceControl => VolDispatchDeviceControl Device Irp
    | FatCreate => _FatDispatchCreate now slack Device Irp
    | FatClose => _FatDispatchClose Device Irp
    | FatReadWrite => _FatDispatchReadWrite now Device Irp
    | FatQueryInformation => _FatDispatchQueryInformation Device Irp
    | FatDirectoryControl => _FatDispatchDirectoryControl slack Device Irp
    | SwapFsCreate => _SwapFsCreate Device Irp
    | SwapFsClose => _SwapFsClose Device Irp
    | SwapFsRead => _SwapFsRead lower Device Irp
    | SwapFsWrite => _SwapFsWrite lower Device Irp
    end
  end.
(** File system, volume, disk, controller. *)
Definition STACK_DEPTH : nat := 4.

(** * Driver entry points *)
Section Entries.
Context (now : DATETIME) (slack : Z).
Let call := IoCallDriver (dispatch now slack STACK_DEPTH).

(** The loop of AtaDriverEntry over the places where a drive can be, with what AtaInitialize answers for each: a status or the
    initialised drive.  [pending] is pAtaDevice at the top of the loop; sizeof(ATA_DEVICE), which
    only has to differ from 0, is an argument. *)
Fixpoint ata_drives (SIZEOF_ATA_DEVICE Driver : Z) (answers : list (Z + Storage)) (pending : Z) (foundDevice : bool) (status : Z)
    : M iost (Z * bool * Z) :=
  match answers with
  | [] => ret (pending, foundDevice, status)
  | a :: rest =>
    _ ← (if negb (NULL =? pending) then IoDeleteDevice pending else ret tt);
    pAtaDevice ← IoCreateDevice Driver SIZEOF_ATA_DEVICE DeviceTypeHarddiskController;
    if NULL =? pAtaDevice then ret (NULL, false, STATUS_DEVICE_COULD_NOT_BE_CREATED) else
    _ ← upd_dev pAtaDevice (set_d_DeviceAlignment SECTOR_SIZE);
    match a with
    | inl st => ata_drives SIZEOF_ATA_DEVICE Driver rest pAtaDevice foundDevice st
    | inr s =>
      x ← extension_of pAtaDevice;
      _ ← put exts set_exts x (AtaExtension s);
      ata_drives SIZEOF_ATA_DEVICE Driver rest NULL true STATUS_SUCCESS
    end
  end.
Definition AtaDriverEntry (SIZEOF_ATA_DEVICE : Z) (answers : list (Z + Storage)) (Driver : Z) : M iost Z :=
  _ ← set_dispatch Driver IRP_MJ_READ AtaReadWrite;
  _ ← set_dispatch Driver IRP_MJ_WRITE AtaReadWrite;
  _ ← set_dispatch Driver IRP_MJ_DEVICE_CONTROL AtaDeviceControl;
  '(pending, foundDevice, status) ← ata_drives SIZEOF_ATA_DEVICE Driver answers NULL false STATUS_SUCCESS;
  _ ← (if negb (NULL =? pending) then IoDeleteDevice pending else ret tt);
  ret (if foundDevice : bool then STATUS_SUCCESS else status).

(** ** Disk; [fuel] bounds the chain of extended partitions *)
Definition _DiskInitialize (fuel : nat) (DriverObject HardDiskControllerDevice : Z) : M iost Z :=
  lengthInformation ← new_buffer (LengthInformation 0);
  pIrp ← IoBuildDeviceIoControlRequest IOCTL_DISK_GET_LENGTH_INFO HardDiskControllerDevice NULL 0 lengthInformation SIZEOF_GET_LENGTH_INFORMATION;
  _ ← ASSERT (negb (NULL =? pIrp));
  status ← call HardDiskControllerDevice pIrp;
  I ← irp pIrp;
  status ← (if negb (SUCCEEDED status) || negb (SUCCEEDED (Status I)) then ret status else
    pDiskDevice ← IoCreateDevice DriverObject SIZEOF_DISK_OBJECT DeviceTypeDisk;
    if NULL =? pDiskDevice then ret STATUS_DEVICE_COULD_NOT_BE_CREATED else
    C ← dev HardDiskControllerDevice;
    _ ← upd_dev pDiskDevice (set_d_DeviceAlignment (d_DeviceAlignment C));
    x ← extension_of pDiskDevice;
    _ ← IoAttachDevice pDiskDevice HardDiskControllerDevice;
    b ← the bufs lengthInformation;
    let Length := match b with LengthInformation n => n | _ => 0 end in
    _ ← put exts set_exts x (DiskExtension (Length / SECTOR_SIZE) HardDiskControllerDevice None);
    z ← extension_of HardDiskControllerDevice;
    '(status, layout) ← on_ata z (_DiskRetrievePartitionsFromDisk fuel);
    if negb (SUCCEEDED status) then _ ← IoDeleteDevice pDiskDevice; ret status else
    _ ← put exts set_exts x (DiskExtension (Length / SECTOR_SIZE) HardDiskControllerDevice (snd <$> layout));
    ret status);
  _ ← IoFreeIrp pIrp;
  _ ← free_buffer lengthInformation;
  ret status.

Fixpoint disks (fuel : nat) (DriverObject : Z) (l : list Z) (disksFound status : Z) : M iost (Z * Z) :=
  match l with
  | [] => ret (disksFound, status)
  | c :: l' =>
    status ← _DiskInitialize fuel DriverObject c;
    disks fuel DriverObject l' (if SUCCEEDED status then disksFound + 1 else disksFound) status
  end.
Definition DiskDriverEntry (fuel : nat) (DriverObject : Z) : M iost Z :=
  _ ← set_dispatch DriverObject IRP_MJ_READ DiskReadWrite;
  _ ← set_dispatch DriverObject IRP_MJ_WRITE DiskReadWrite;
  _ ← set_dispatch DriverObject IRP_MJ_DEVICE_CONTROL DiskDeviceControl;
  '(status, pHardDiskControllerDevices) ← IoGetDevicesByType DeviceTypeHarddiskController;
  if negb (SUCCEEDED status) then ret status else
  '(disksFound, status) ← disks fuel DriverObject pHardDiskControllerDevices 0 status;
  ret (if 0 <? disksFound then STATUS_SUCCESS else status).

(** ** Volumes *)
Definition _VolInitialize (Disk : Z) (PartitionInformation : PARTITION_INFORMATION) (DriverObject : Z) : M iost Z :=
  if NULL =? Disk then ret STATUS_INVALID_PARAMETER1 else
  pVolumeDevice ← IoCreateDevice DriverObject SIZEOF_VOLUME DeviceTypeVolume;
  if NULL =? pVolumeDevice then ret STATUS_DEVICE_COULD_NOT_BE_CREATED else
  D ← dev Disk;
  _ ← upd_dev pVolumeDevice (set_d_DeviceAlignment (d_DeviceAlignment D));
  x ← extension_of pVolumeDevice;
  _ ← put exts set_exts x (VolumeExtension Disk PartitionInformation);
  _ ← IoAttachDevice pVolumeDevice Disk;
  ret STATUS_SUCCESS.

(** One pass of the loop that asks a disk for its layout with a buffer of [structureSize] bytes, [None] for a NULL buffer: the
    status and the size of the layout, or the status with which the driver entry ends; and the buffer. *)
Definition ask_layout (pCurDisk structureSize : Z) : M iost ((Z + (Z * Z)) * option Z) :=
  ok ← (if negb (0 =? structureSize) then ExAllocatePool else ret true);
  if negb ok then ret (inl STATUS_HEAP_NO_MORE_MEMORY, None) else
  pDiskLayout ← (if negb (0 =? structureSize) then a ← new_buffer (LayoutInformation []); ret (Some a) else ret None);
  pIrp ← IoBuildDeviceIoControlRequest IOCTL_DISK_LAYOUT_INFO pCurDisk NULL 0 (default NULL pDiskLayout) structureSize;
  _ ← ASSERT (negb (NULL =? pIrp));
  status ← call pCurDisk pIrp;
  I ← irp pIrp;
  _ ← IoFreeIrp pIrp;
  if negb (SUCCEEDED status) then ret (inl status, pDiskLayout) else
  _ ← ASSERT (Information I <=? MAX_DWORD);
  ret (inr (Status I, Information I), pDiskLayout).
Definition free_layout (b : option Z) : M iost unit := match b with Some a => free_buffer a | None => ret tt end.

(** The layout of a disk, or the status; the last size is kept for the next disk.  The size a disk reports does not change, so
    the loop ends in its third pass at the latest. *)
Fixpoint disk_layout (passes : nat) (pCurDisk structureSize : Z) : M iost (Z + (list PARTITION_INFORMATION * Z)) :=
  match passes with
  | O => fail NoFuel
  | S n =>
    '(r, b) ← ask_layout pCurDisk structureSize;
    match r with
    | inl st => _ ← free_layout b; ret (inl st)
    | inr (status, size) =>
      if STATUS_BUFFER_TOO_SMALL =? status then _ ← free_layout b; disk_layout n pCurDisk size else
      if negb (SUCCEEDED status) then _ ← free_layout b; ret (inl status) else
      _ ← ASSERT (bool_decide (is_Some b));
      c ← the bufs (default NULL b);
      _ ← free_layout b;
      ret (inr (match c with LayoutInformation l => l | _ => [] end, size))
    end
  end.

Fixpoint partitions (pCurDisk : Z) (l : list PARTITION_INFORMATION) (DriverObject : Z) : M iost Z :=
  match l with
  | [] => ret STATUS_SUCCESS
  | p :: l' => status ← _VolInitialize pCurDisk p DriverObject;
               if negb (SUCCEEDED status) then ret status else partitions pCurDisk l' DriverObject
  end.
Fixpoint disk_volumes (DriverObject : Z) (l : list Z) (structureSize : Z) : M iost Z :=
  match l with
  | [] => ret STATUS_SUCCESS
  | d :: l' =>
    r ← disk_layout 3 d structureSize;
    match r with
    | inl status => ret status
    | inr (parts, size) =>
      status ← partitions d parts DriverObject;
      if negb (SUCCEEDED status) then ret status else disk_volumes DriverObject l' size
    end
  end.
Definition VolDriverEntry (DriverObject : Z) : M iost Z :=
  _ ← set_dispatch DriverObject IRP_MJ_READ VolReadWrite;
  _ ← set_dispatch DriverObject IRP_MJ_WRITE VolReadWrite;
  _ ← set_dispatch DriverObject IRP_MJ_DEVICE_CONTROL VolDeviceControl;
  '(status, pDiskDevices) ← IoGetDevicesByType DeviceTypeDisk;
  if negb (SUCCEEDED status) then ret status else disk_volumes DriverObject pDiskDevices 0.

(** ** File systems: the question for the partition of a volume, common to both *)
(** [inl status]: the volume is passed over, with this value of the variable status. *)
Definition ask_partition (pCurVolume status : Z) : M iost (Z + PARTITION_INFORMATION) :=
  partitionInformation ← new_buffer (PartitionBuffer empty_partition);
  pIrp ← IoBuildDeviceIoControlRequest IOCTL_VOLUME_PARTITION_INFO pCurVolume NULL 0 partitionInformation SIZEOF_PARTITION_INFORMATION;
  if NULL =? pIrp then _ ← free_buffer partitionInformation; ret (inl status) else
  status ← call pCurVolume pIrp;
  I ← irp pIrp;
  b ← the bufs partitionInformation;
  _ ← IoFreeIrp pIrp;
  _ ← free_buffer partitionInformation;
  if negb (SUCCEEDED status) then ret (inl status) else
  if negb (SUCCEEDED (Status I)) then ret (inl status) else
  ret (inr (match b with PartitionBuffer p => p | _ => empty_partition end)).

(** pCurVolume->Vpb->FilesystemDevice and the flags. *)
Definition mount (pCurVolume pFileSystemDevice : Z) (swap : bool) : M iost unit :=
  D ← dev pCurVolume;
  _ ← upd_vpb (d_Vpb D) (fun V => let V := set_Mounted true (set_FilesystemDevice pFileSystemDevice V) in
                                   if swap then set_SwapSpace true V else V);
  upd_dev pFileSystemDevice (set_d_Vpb (d_Vpb D)).

(** The loop of FatDriverEntry; [pending] is pFileSystemDevice at the top of the loop. *)
Fixpoint fat_volumes (DriverObject : Z) (l : list Z) (pending status : Z) : M iost Z :=
  match l with
  | [] => ret status
  | v :: l' =>
    _ ← (if negb (NULL =? pending) then IoDeleteDevice pending else ret tt);
    r ← ask_partition v status;
    match r with
    | inl status => fat_volumes DriverObject l' NULL status
    | inr p =>
      if negb (PARTITION_TYPE_FAT_CHS =? PartitionType p) && negb (PARTITION_TYPE_FAT_LBA =? PartitionType p)
      then fat_volumes DriverObject l' NULL STATUS_SUCCESS else
      pFileSystemDevice ← IoCreateDevice DriverObject SIZEOF_FAT_DATA DeviceTypeFilesystem;
      if NULL =? pFileSystemDevice then ret STATUS_DEVICE_COULD_NOT_BE_CREATED else
      D ← dev v;
      _ ← upd_dev pFileSystemDevice (set_d_DeviceAlignment (d_DeviceAlignment D));
      x ← extension_of pFileSystemDevice;
      _ ← put exts set_exts x (FatExtension v None);
      '(part, z) ← volume_storage v;
      r ← on_ata z (FatInitVolume part (d_DeviceAlignment D));
      match r with
      | inl status => fat_volumes DriverObject l' pFileSystemDevice status
      | inr F =>
        _ ← put exts set_exts x (FatExtension v (Some F));
        _ ← IoAttachDevice pFileSystemDevice v;
        _ ← mount v pFileSystemDevice false;
        fat_volumes DriverObject l' NULL STATUS_SUCCESS
      end
    end
  end.
Definition FatDriverEntry (DriverObject : Z) : M iost Z :=
  _ ← set_dispatch DriverObject IRP_MJ_CREATE FatCreate;
  _ ← set_dispatch DriverObject IRP_MJ_CLOSE FatClose;
  _ ← set_dispatch DriverObject IRP_MJ_READ FatReadWrite;
  _ ← set_dispatch DriverObject IRP_MJ_WRITE FatReadWrite;
  _ ← set_dispatch DriverObject IRP_MJ_QUERY_INFORMATION FatQueryInformation;
  _ ← set_dispatch DriverObject IRP_MJ_DIRECTORY_CONTROL FatDirectoryControl;
  '(status, pVolumeDevices) ← IoGetDevicesByType DeviceTypeVolume;
  if negb (SUCCEEDED status) then ret status else fat_volumes DriverObject pVolumeDevices NULL status.

Fixpoint swapfs_volumes (DriverObject : Z) (l : list Z) (status : Z) : M iost Z :=
  match l with
  | [] => ret status
  | v :: l' =>
    r ← ask_partition v status;
    match r with
    | inl status => swapfs_volumes DriverObject l' status
    | inr p =>
      if negb (PARTITION_TYPE_LINUX_SWAP =? PartitionType p) then swapfs_volumes DriverObject l' STATUS_SUCCESS else
      pFileSystemDevice ← IoCreateDevice DriverObject SIZEOF_SWAPFS_DATA DeviceTypeFilesystem;
      if NULL =? pFileSystemDevice then ret STATUS_DEVICE_COULD_NOT_BE_CREATED else
      _ ← upd_dev pFileSystemDevice (set_d_DeviceAlignment PAGE_SIZE);
      x ← extension_of pFileSystemDevice;
      _ ← put exts set_exts x (SwapFsExtension v (u64 (PartitionSize p * SECTOR_SIZE)));
      _ ← IoAttachDevice pFileSystemDevice v;
      _ ← mount v pFileSystemDevice true;
      swapfs_volumes DriverObject l' STATUS_SUCCESS
    end
  end.
Definition SwapFsDriverEntry (DriverObject : Z) : M iost Z :=
  _ ← set_dispatch DriverObject IRP_MJ_CREATE SwapFsCreate;
  _ ← set_dispatch DriverObject IRP_MJ_CLOSE SwapFsClose;
  _ ← set_dispatch DriverObject IRP_MJ_READ SwapFsRead;
  _ ← set_dispatch DriverObject IRP_MJ_WRITE SwapFsWrite;
  '(status, pVolumeDevices) ← IoGetDevicesByType DeviceTypeVolume;
  if negb (SUCCEEDED status) then ret status else swapfs_volumes DriverObject pVolumeDevices status.

Definition SystemDriverEntry (DriverObject : Z) : M iost Z :=
  pDev ← IoCreateDevice DriverObject 0 DeviceTypeSystem;
  _ ← ASSERT (negb (NULL =? pDev));
  ret STATUS_SUCCESS.

(** * Start of the I/O manager (iomu.c) *)
(** "system.sys"; the status and m_iomuData.SystemDevice when it is stored. *)
Definition SYSTEM_DRIVER_NAME : list Z := [115; 121; 115; 116; 101; 109; 46; 115; 121; 115].
Definition IomuInitSystemDriver : M iost (Z * option Z) :=
  pDriver ← IoCreateDriver SYSTEM_DRIVER_NAME SystemDriverEntry;
  if NULL =? pDriver then ret (STATUS_DEVICE_DRIVER_COULD_NOT_BE_CREATED, None) else
  V ← drv pDriver;
  _ ← ASSERT (1 =? NoOfDevices V);
  _ ← ASSERT (negb (bool_decide (DeviceList V = [])));
  ret (STATUS_SUCCESS, head (DeviceList V)).
Record DRIVER_DECLARATION := mkDecl { dd_DriverName : list Z; dd_DriverEntry : Z -> M iost Z; Mandatory : bool }.
Fixpoint _IomuInitDrivers (l : list DRIVER_DECLARATION) : M iost Z :=
  match l with
  | [] => ret STATUS_SUCCESS
  | d :: l' =>
    pDriver ← IoCreateDriver (dd_DriverName d) (dd_DriverEntry d);
    if (NULL =? pDriver) && Mandatory d then ret STATUS_DEVICE_DRIVER_COULD_NOT_BE_CREATED else _IomuInitDrivers l'
  end.

Definition CH_colon : Z := 58.
Definition HAL9000_SYSTEM_FILE_NAME : list Z := [72; 65; 76; 57; 48; 48; 48; 46; 105; 110; 105].
Let d := dispatch now slack STACK_DEPTH.

Definition _IomuIsSystemPartitionOnDrive (DriveLetter : Z) : M iost bool :=
  '(status, pFileObject) ← IoCreateFile d ([DriveLetter; CH_colon; CH_backslash] ++ HAL9000_SYSTEM_FILE_NAME) false false false;
  match pFileObject with
  | None => ret false
  | Some f => _ ← IoCloseFile d f; ret true
  end.

Fixpoint system_partition (l : list Z) : M iost Z :=
  match l with
  | [] => ret STATUS_FILE_NOT_FOUND
  | v :: l' =>
    V ← vpb v;
    if negb (Mounted V) then system_partition l' else
    found ← _IomuIsSystemPartitionOnDrive (VolumeLetter V);
    if found : bool then _ ← modify (set_SystemDrive [VolumeLetter V; CH_colon; CH_backslash]); ret STATUS_SUCCESS
    else system_partition l'
  end.
Definition _IomuDetermineSystemPartition : M iost Z := l ← gets VpbList; system_partition l.

Fixpoint swap_files (l : list Z) (bOpenedSwapFile : bool) : M iost bool :=
  match l with
  | [] => ret bOpenedSwapFile
  | v :: l' =>
    V ← vpb v;
    if negb (Mounted V) || negb (SwapSpace V) then swap_files l' bOpenedSwapFile else
    '(status, h) ← IoCreateFile d [VolumeLetter V; CH_colon; CH_backslash] false false false;
    match h with
    | None => swap_files l' bOpenedSwapFile
    | Some f => _ ← modify (set_SwapFile f); swap_files l' true
    end
  end.
Definition _IomuInitializeSwapFile : M iost Z :=
  l ← gets VpbList;
  opened ← swap_files l false;
  ret (if opened : bool then STATUS_SUCCESS else STATUS_FILE_NOT_FOUND).

Definition IomuLateInit (drivers : list DRIVER_DECLARATION) : M iost Z :=
  status ← _IomuInitDrivers drivers;
  if negb (SUCCEEDED status) then ret status else
  _ ← _IomuDetermineSystemPartition;
  _ ← _IomuInitializeSwapFile;
  ret STATUS_SUCCESS.

(** DRIVER_NAMES; [answers] are the drives, [eth] the entry of the network driver. *)
Definition DRIVER_NAMES (SIZEOF_ATA_DEVICE : Z) (answers : list (Z + Storage)) (fuel : nat) (eth : Z -> M iost Z) : list DRIVER_DECLARATION :=
  [mkDecl [97; 116; 97; 46; 115; 121; 115] (AtaDriverEntry SIZEOF_ATA_DEVICE answers) false;
   mkDecl [100; 105; 115; 107; 46; 115; 121; 115] (DiskDriverEntry fuel) false;
   mkDecl [118; 111; 108; 46; 115; 121; 115] VolDriverEntry false;
   mkDecl [102; 97; 116; 46; 115; 121; 115] FatDriverEntry false;
   mkDecl [115; 119; 97; 112; 102; 115; 46; 115; 121; 115] SwapFsDriverEntry false;
   mkDecl [101; 116; 104; 56; 50; 53; 55; 52; 76; 46; 115; 121; 115] eth false].
End Entries.

(** m_iomuData after IomuPreinitSystem: no drivers, no volumes. *)
Definition preinit_io : iost := mkIo ∅ ∅ ∅ ∅ ∅ ∅ ∅ ∅ [] [] 66 [] NULL [] 4096.

(** * An example: a disk with the FAT volume of [Fat] from sector 64 on and a second partition of 1000 sectors from sector 150000 on *)
Definition demo_partition (i type lba n : Z) : list (Z * Z) :=
  at_le (446 + 16 * i) 1 MBR_STATUS_INACTIVE ++ at_le (446 + 16 * i + 4) 1 type ++ at_le (446 + 16 * i + 8) 4 lba ++ at_le (446 + 16 * i + 12) 4 n.
(** [second] is the number and the type of the second partition. *)
Definition demo_disk (second : Z * Z) : Storage :=
  let mbr : gmap Z Z := list_to_map (demo_partition 0 PARTITION_TYPE_FAT_LBA 64 140000 ++ demo_partition second.1 second.2 150000 1000 ++
                                     at_le 510 2 MBR_BOOT_SIGNATURE) in
  let d := disk (demo_storage 1000 10 (zip (seqZ (548 * 512 + 1) 10) (replicate 10 32) ++ at_le (548 * 512 + 16) 2 0x21 ++ at_le (548 * 512 + 24) 2 0x21)) in
  mkStorage (fun a => default (d a) (mbr !! a)) true 200000 [] [].
Definition demo_boot (second : Z * Z) : M iost Z :=
  IomuLateInit demo_now 1 (DRIVER_NAMES demo_now 1 64 [inr (demo_disk second); inl STATUS_DEVICE_DOES_NOT_EXIST] 4 (fun _ => ret STATUS_SUCCESS)).
(** "C:\A" *)
Definition demo_path : list Z := [67; 58; 92; 65].
Definition demo_state {A} (m : M iost A) : iost := match m preinit_io with Ok (_, s) => s | Err _ => preinit_io end.
Definition demo_storage_of (s : iost) (z : Z) : Storage := match exts s !! z with Some (AtaExtension st) => st | _ => demo_s end.
(** The system after the start, with a swap partition and two buffers of one page, and with the file of the FAT volume open. *)
Definition demo_buffers : M iost unit :=
  _ ← put bufs set_bufs 1 (Bytes (replicate 4096 7)); put bufs set_bufs 2 (Bytes (replicate 4096 0)).
Definition demo_booted : iost := demo_state (_ ← demo_boot (1, PARTITION_TYPE_LINUX_SWAP); demo_buffers).
Definition demo_opened : iost := demo_state (_ ← demo_boot (1, PARTITION_TYPE_LINUX_SWAP); _ ← demo_buffers;
  IoCreateFile (dispatch demo_now 1 STACK_DEPTH) demo_path false false false).
