(* ===== verification/IoSpec.v ===== *)
(** What the I/O manager and the drivers of [IoDrivers] achieve together: requests that travel down a stack of devices, and open files. *)
From S2P Require Import Prelude IntUtils ClMemory StrUtils ClString Storage Fat FatFile FatDir IoManager IoDrivers.

(** * Running single statements *)
Lemma the_run {A} (get : iost -> gmap Z A) a x s : get s !! a = Some x -> the get a s = Ok (x, s).
Proof. intros E. unfold the, getS, mbind, M_bind, lift. by rewrite E. Qed.

Lemma upd_run {A} (get : iost -> gmap Z A) set a f x s : get s !! a = Some x ->
  upd get set a f s = Ok (tt, set (<[a := f x]> (get s)) s).
Proof. intros E. unfold upd. by rewrite (bind_run _ _ _ _ _ (the_run get a x s E)). Qed.

Lemma free_object_run {A} (get : iost -> gmap Z A) set a x s : get s !! a = Some x -> free get set a s = Ok (tt, set (delete a (get s)) s).
Proof. intros E. unfold free. by rewrite (bind_run _ _ _ _ _ (the_run get a x s E)). Qed.

Lemma location_run p i I L s : irps s !! p = Some I -> zget (StackLocations I) i = Some L -> location p i s = Ok (L, s).
Proof.
  intros E El. unfold location. rewrite (bind_run _ _ _ _ _ (the_run irps p I s E)). apply lift_run. by rewrite El.
Qed.

Lemma upd_location_run p i f I L l s : irps s !! p = Some I -> zget (StackLocations I) i = Some L ->
  zset (StackLocations I) i (f L) = Some l ->
  upd_location p i f s = Ok (tt, set_irps (<[p := set_StackLocations l I]> (irps s)) s).
Proof.
  intros E El Es. unfold upd_location. rewrite (bind_run _ _ _ _ _ (location_run p i I L s E El)).
  rewrite (bind_run _ _ _ _ _ (the_run irps p I s E)). erewrite bind_run; [|apply lift_run; by rewrite Es].
  by apply upd_run.
Qed.

Lemma current_run p I L s : irps s !! p = Some I -> CurrentStackLocation I <> MAX_BYTE ->
  zget (StackLocations I) (CurrentStackLocation I) = Some L -> current_location p s = Ok (L, s).
Proof.
  intros E Hc El. unfold current_location. erewrite bind_run; [by eapply location_run|].
  unfold IoGetCurrentIrpStackLocation. rewrite (bind_run _ _ _ _ _ (the_run irps p I s E)).
  rewrite (proj2 (Z.eqb_neq _ _)) by congruence. done.
Qed.

Lemma extension_run d D s : devs s !! d = Some D -> DeviceExtension D <> NULL -> extension_of d s = Ok (DeviceExtension D, s).
Proof.
  intros E Hx. unfold extension_of, IoGetDeviceExtension. erewrite bind_run; [|by rewrite (bind_run _ _ _ _ _ (the_run devs d D s E))].
  rewrite (proj2 (Z.eqb_neq _ _)) by congruence. done.
Qed.

(** The pure part of [deliver]. *)
Definition buffer_of (B : gmap Z BUFFER) (a : Z) : list Z := match B !! a with Some (Bytes bs) => bs | _ => [] end.
Definition delivered (B : gmap Z BUFFER) (a : Z) (data : list Z) : outcome (gmap Z BUFFER) :=
  if bool_decide (data = []) then Ok B else bs ← put_bytes (buffer_of B a) 0 data; Ok (<[a := Bytes bs]> B).
Lemma deliver_run a data B s : delivered (bufs s) a data = Ok B -> deliver a data s = Ok (tt, set_bufs B s).
Proof.
  unfold delivered, deliver. case_bool_decide; [intros [= <-]; by destruct s|]. intros E.
  erewrite bind_run by reflexivity. change (match bufs s !! a with Some (Bytes bs) => bs | _ => [] end) with (buffer_of (bufs s) a).
  destruct (put_bytes (buffer_of (bufs s) a) 0 data) as [bs|e]; [|done]. injection E as <-. by erewrite bind_run by reflexivity.
Qed.

Lemma on_ata_run {A} x st (m : M Storage A) r st' s : exts s !! x = Some (AtaExtension st) -> m st = Ok (r, st') ->
  on_ata x m s = Ok (r, set_exts (<[x := AtaExtension st']> (exts s)) s).
Proof.
  intros E Em. unfold on_ata. erewrite bind_run; [|unfold ata_extension; by rewrite (bind_run _ _ _ _ _ (the_run exts x _ s E))].
  erewrite bind_run; [|apply lift_run; exact Em]. done.
Qed.

(** * A device and the dispatch function its driver has for reads and writes *)
Record served (s : iost) (d : Z) (D : DEVICE_OBJECT) (al : Z) (r w : dispatch_fn) : Prop := {
  sv_dev : devs s !! d = Some D;
  sv_lock : DeviceLock D = false;
  sv_al : d_DeviceAlignment D = al;
  sv_driver : d_DriverObject D <> NULL;
  sv_table : exists V, drvs s !! d_DriverObject D = Some V /\ zget (DispatchFunctions V) IRP_MJ_READ = Some (Some r) /\
                       zget (DispatchFunctions V) IRP_MJ_WRITE = Some (Some w);
  sv_ext : DeviceExtension D <> NULL }.

Definition rw_major (w : bool) : Z := if w then IRP_MJ_WRITE else IRP_MJ_READ.
(** The packet [I] when a driver gets it: its stack location is a read or write of [len] bytes at [off]. *)
Definition at_request (I : IRP) (w : bool) (len off : Z) : Prop :=
  0 <= CurrentStackLocation I < MAX_BYTE /\ exists L, zget (StackLocations I) (CurrentStackLocation I) = Some L /\
    MajorFunction L = rw_major w /\ Parameters L = ReadWrite len off.
Definition taken (I : IRP) : IRP := set_CurrentStackLocation (CurrentStackLocation I - 1) I.
Definition entered (s : iost) (d : Z) (D : DEVICE_OBJECT) (p : Z) (I : IRP) : iost :=
  set_devs (<[d := set_DeviceLock true D]> (devs s)) (set_irps (<[p := I]> (irps s)) s).

Lemma major_cases w L : MajorFunction L = rw_major w -> is_read_write L = true /\ (IRP_MJ_WRITE =? MajorFunction L) = w.
Proof. intros E. unfold is_read_write. rewrite E. by destruct w. Qed.

(** IoCallDriver of a read or write. *)
Lemma call_run disp s d D al r wf p I w len off st s' : served s d D al r wf -> irps s !! p = Some I -> CurrentStackLocation I <= MAX_BYTE ->
  at_request (taken I) w len off -> IsAddressAligned len al && IsAddressAligned off al = true ->
  disp (if w then wf else r) d p (entered s d D p (taken I)) = Ok (st, s') -> devs s' !! d = Some (set_DeviceLock true D) -> SUCCEEDED st = true ->
  IoCallDriver disp d p s = Ok (STATUS_SUCCESS, set_devs (<[d := D]> (devs s')) s').
Proof.
  intros [Hd Hl Ha Hdr (V&HV&Hr&Hw) Hx] HI Hc ((Hc1&Hc2)&L&HL&HM&HP) Hal Ed Hd' Hst. unfold taken in *. cbn in Hc1, Hc2, HL. unfold IoCallDriver.
  rewrite (bind_run _ _ _ _ _ (the_run irps p I s HI)). rewrite (proj2 (Z.eqb_neq 0 _)) by lia. erewrite bind_run by reflexivity.
  rewrite (bind_run _ _ _ _ _ (upd_run irps set_irps p _ I s HI)).
  erewrite bind_run; [|eapply current_run; [apply lookup_insert_eq|cbn; unfold MAX_BYTE in *; lia|exact HL]].
  erewrite bind_run; [|by apply the_run].
  assert (alignment_ok L (d_DeviceAlignment D) = Ok true) as Ea.
  { unfold alignment_ok, rw_parameters. destruct (major_cases w L HM) as [Hrw _]. unfold is_read_write in Hrw. rewrite Hrw, HP, Ha.
    unfold mbind, outcome_bind. by rewrite Hal. }
  rewrite (bind_run _ _ _ _ _ (lift_run _ _ _ Ea)). cbn [negb]. rewrite (proj2 (Z.eqb_neq _ _)) by congruence. erewrite bind_run by reflexivity.
  erewrite bind_run; [|by apply the_run].
  assert (zget (DispatchFunctions V) (MajorFunction L) = Some (Some (if w then wf else r))) as Ef by (rewrite HM; by destruct w).
  erewrite bind_run; [|apply lift_run; by rewrite Ef]. cbv beta iota.
  erewrite bind_run. 2:{ unfold lock_device. erewrite bind_run; [|by apply the_run]. rewrite Hl. erewrite bind_run by reflexivity. by apply upd_run. }
  cbn [devs set_irps]. erewrite bind_run; [|exact Ed].
  erewrite bind_run. 2:{ unfold unlock_device. erewrite bind_run; [|by apply the_run]. erewrite bind_run by reflexivity. by apply upd_run. }
  rewrite Hst. cbn [negb]. unfold ret. do 3 f_equal. do 2 f_equal. destruct D. cbn in *. by subst.
Qed.

(** * Packets that are passed down *)
(** [m] answers the packet [p] with the result [r] of a transfer on the disk in the extension [z], and changes nothing but the
    disk, the buffer and the packet; [nx] is the next free block. *)
Definition completed (r : IO_STATUS) (I : IRP) : IRP := set_Completed true (set_Information (io_Information r) (set_Status (io_Status r) I)).
Definition transferred (s : iost) (z : Z) (st : Storage) (B : gmap Z BUFFER) : iost :=
  set_bufs B (set_exts (<[z := AtaExtension st]> (exts s)) s).
Definition answers (m : M iost Z) (s : iost) (p : Z) (I : IRP) (z : Z) (r : IO_STATUS) (st : Storage) (B : gmap Z BUFFER) (nx : Z) : Prop :=
  exists l c, m s = Ok (STATUS_SUCCESS,
    set_irps (<[p := completed r (set_StackLocations l (set_CurrentStackLocation c I))]> (irps s)) (set_io_next nx (transferred s z st B))).

Lemma complete_run p I s : irps s !! p = Some I -> Completed I = false ->
  IoCompleteIrp p s = Ok (tt, set_irps (<[p := set_Completed true I]> (irps s)) s).
Proof.
  intros E Hc. unfold IoCompleteIrp. rewrite (bind_run _ _ _ _ _ (the_run irps p I s E)), Hc. erewrite bind_run by reflexivity.
  by apply upd_run.
Qed.

Lemma ata_answers s d D p I w len off z st r st' B : devs s !! d = Some D -> DeviceExtension D = z -> z <> NULL ->
  exts s !! z = Some (AtaExtension st) -> irps s !! p = Some I -> Completed I = false -> at_request I w len off ->
  Storage.AtaDispatchReadWrite (mkIRP w len off (buffer_of (bufs s) (Buffer I)) (Asynchronous I)) st = Ok (r, st') ->
  delivered (bufs s) (Buffer I) (io_Data r) = Ok B ->
  answers (AtaDispatchReadWrite d p) s p I z r st' B (io_next s).
Proof.
  intros Hd <- Hz Hx HI Hcm ((Hc1&Hc2)&L&HL&HM&HP) Er EB. exists (StackLocations I), (CurrentStackLocation I). unfold AtaDispatchReadWrite.
  destruct (major_cases w L HM) as [Hrw Hw].
  rewrite (bind_run _ _ _ _ _ (extension_run d D s Hd Hz)).
  erewrite bind_run; [|eapply current_run; [done|unfold MAX_BYTE in *; lia|done]]. rewrite Hrw, Hw. erewrite bind_run by reflexivity.
  unfold rw_parameters. rewrite HP. erewrite bind_run by reflexivity. cbv beta iota.
  rewrite (bind_run _ _ _ _ _ (the_run irps p I s HI)). erewrite bind_run by reflexivity.
  erewrite bind_run; [|by eapply on_ata_run]. erewrite bind_run; [|by apply deliver_run].
  erewrite bind_run; [|by apply upd_run]. erewrite bind_run; [|apply complete_run; [apply lookup_insert_eq|done]].
  unfold ret. cbn [irps set_irps]. rewrite insert_insert_eq. destruct I. by destruct s.
Qed.

Lemma call_answers disp s d D al r wf p I w len off z res st B nx : served s d D al r wf -> irps s !! p = Some I -> CurrentStackLocation I <= MAX_BYTE ->
  at_request (taken I) w len off -> IsAddressAligned len al && IsAddressAligned off al = true ->
  answers (disp (if w then wf else r) d p) (entered s d D p (taken I)) p (taken I) z res st B nx ->
  answers (IoCallDriver disp d p) s p I z res st B nx.
Proof.
  intros Hs HI Hc Hrq Hal (l&c&E). exists l, c.
  rewrite (call_run disp s d D al r wf p I w len off _ _ Hs HI Hc Hrq Hal E); [|apply lookup_insert_eq|reflexivity].
  pose proof (sv_dev _ _ _ _ _ _ Hs) as Hd. do 2 f_equal. unfold transferred, entered. cbn [devs set_devs set_irps set_bufs set_exts set_io_next irps exts].
  rewrite !insert_insert_eq, (insert_id (devs s) d D Hd). by destruct s, I.
Qed.

Lemma copy_run p I L s : irps s !! p = Some I -> 0 < CurrentStackLocation I -> zget (StackLocations I) (CurrentStackLocation I) = Some L ->
  exists l, IoCopyCurrentStackLocationToNext p s = Ok (tt, set_irps (<[p := set_StackLocations l I]> (irps s)) s) /\
    zget l (CurrentStackLocation I - 1) = Some L /\ length l = length (StackLocations I).
Proof.
  intros HI Hc HL. pose proof (zget_Some_lt _ _ _ HL) as Hlt.
  destruct (zget_lt (StackLocations I) (CurrentStackLocation I - 1)) as [L0 E0]; [lia|].
  pose proof (zset_lt (StackLocations I) (CurrentStackLocation I - 1) L ltac:(lia)) as El. eexists. split_and!.
  - unfold IoCopyCurrentStackLocationToNext. rewrite (bind_run _ _ _ _ _ (the_run irps p I s HI)).
    rewrite (proj2 (Z.eqb_neq 0 _)) by lia. erewrite bind_run by reflexivity.
    rewrite (bind_run _ _ _ _ _ (location_run p _ I L s HI HL)). by eapply upd_location_run.
  - by eapply zget_zset_eq.
  - by eapply zset_length.
Qed.

Lemma disk_answers call s d D k a lay p I w len off z res st B : devs s !! d = Some D -> DeviceExtension D <> NULL ->
  exts s !! DeviceExtension D = Some (DiskExtension k a lay) -> irps s !! p = Some I -> 0 < CurrentStackLocation I -> at_request I w len off ->
  (forall l, zget l (CurrentStackLocation I - 1) = zget (StackLocations I) (CurrentStackLocation I) -> length l = length (StackLocations I) ->
     answers (call a p) (set_irps (<[p := set_StackLocations l I]> (irps s)) s) p (set_StackLocations l I) z res st B (io_next s)) ->
  answers (DiskDispatchReadWrite call d p) s p I z res st B (io_next s).
Proof.
  intros Hd Hz Hx HI Hc (_&L&HL&_) H. destruct (copy_run p I L s HI Hc HL) as (l&El&Hg&Hlen).
  destruct (H l) as (l'&c&E); [by rewrite HL|done|]. exists l', c. unfold DiskDispatchReadWrite.
  rewrite (bind_run _ _ _ _ _ (extension_run d D s Hd Hz)).
  erewrite bind_run; [|unfold disk_extension; by rewrite (bind_run _ _ _ _ _ (the_run exts _ _ s Hx))]. cbv beta iota.
  rewrite (bind_run _ _ _ _ _ El), E. do 2 f_equal. unfold transferred. cbn [irps set_irps]. rewrite insert_insert_eq. by destruct s, I.
Qed.

Lemma at_request_next I l w len off : 0 < CurrentStackLocation I < MAX_BYTE ->
  (exists L, zget l (CurrentStackLocation I - 1) = Some L /\ MajorFunction L = rw_major w /\ Parameters L = ReadWrite len off) ->
  at_request (taken (set_StackLocations l I)) w len off.
Proof. intros Hc H. split; [cbn; lia|]. exact H. Qed.

Lemma vol_answers call s d D k part p I w len off z st r st' B : devs s !! d = Some D -> DeviceExtension D <> NULL ->
  exts s !! DeviceExtension D = Some (VolumeExtension k part) -> exts s !! z = Some (AtaExtension st) ->
  irps s !! p = Some I -> Completed I = false -> Information I = 0 -> 0 < CurrentStackLocation I -> at_request I w len off ->
  Storage.VolDispatchReadWrite part (mkIRP w len off (buffer_of (bufs s) (Buffer I)) (Asynchronous I)) st = Ok (r, st') ->
  delivered (bufs s) (Buffer I) (io_Data r) = Ok B ->
  (forall l off', off' = u64 (u64 (off / SECTOR_SIZE + OffsetInDisk part) * SECTOR_SIZE) -> length l = length (StackLocations I) ->
     at_request (taken (set_StackLocations l I)) w len off' ->
     Storage.AtaDispatchReadWrite (mkIRP w len off' (buffer_of (bufs s) (Buffer I)) (Asynchronous I)) st = Ok (r, st') ->
     answers (call k p) (set_irps (<[p := set_StackLocations l I]> (irps s)) s) p (set_StackLocations l I) z r st' B (io_next s)) ->
  answers (VolDispatchReadWrite call d p) s p I z r st' B (io_next s).
Proof.
  intros Hd Hx Hv Hz HI Hcm Hin Hc Hrq Er EB H. pose proof Hrq as (Hcb&L&HL&HM&HP). destruct (major_cases w L HM) as [Hrw _].
  unfold Storage.VolDispatchReadWrite in Er. cbn [irp_Write irp_Length irp_Offset irp_Buffer irp_Asynchronous] in Er.
  assert (forall X, (exists l c, X = Ok (STATUS_SUCCESS,
     set_irps (<[p := completed r (set_StackLocations l (set_CurrentStackLocation c I))]> (irps s)) (set_io_next (io_next s) (transferred s z st' B)))) ->
     VolDispatchReadWrite call d p s = X -> answers (VolDispatchReadWrite call d p) s p I z r st' B (io_next s)) as Hans.
  { intros X (l&c&->) E. by exists l, c. }
  eapply Hans; clear Hans; [|unfold VolDispatchReadWrite;
    rewrite (bind_run _ _ _ _ _ (extension_run d D s Hd Hx));
    erewrite bind_run; [|unfold volume_extension; by rewrite (bind_run _ _ _ _ _ (the_run exts _ _ s Hv))]; cbv beta iota;
    (erewrite bind_run; [|eapply current_run; [done|unfold MAX_BYTE in *; lia|done]]); rewrite Hrw; erewrite bind_run by reflexivity;
    unfold rw_parameters; rewrite HP; erewrite bind_run by reflexivity; cbv beta iota; reflexivity].
  destruct (SUCCEEDED (_VolCheckIOParameters part (off / SECTOR_SIZE) (len / SECTOR_SIZE))) eqn:Est; cbn [negb] in Er |- *.
  - destruct (copy_run p I L s HI Hc HL) as (l&El&Hg&Hlen).
    set (o := u64 (u64 (off / SECTOR_SIZE + OffsetInDisk part) * SECTOR_SIZE)) in *.
    pose proof (zset_lt l (CurrentStackLocation I - 1) (set_Offset o L)) as Es.
    pose proof (zget_Some_lt _ _ _ Hg) as Hlt. specialize (Es Hlt).
    assert (at_request (taken (set_StackLocations (<[Z.to_nat (CurrentStackLocation I - 1) := set_Offset o L]> l) I)) w len o) as Hrq'.
    { apply at_request_next; [lia|]. exists (set_Offset o L).
      split_and!; [by eapply zget_zset_eq|unfold set_Offset; by rewrite HP|unfold set_Offset; by rewrite HP]. }
    destruct (H _ o eq_refl (eq_trans (zset_length _ _ _ _ Es) Hlen) Hrq' Er) as (l'&c&E). exists l', c.
    rewrite (bind_run (_ ← IoCopyCurrentStackLocationToNext p; _) _ s STATUS_SUCCESS
      (set_irps (<[p := completed r (set_StackLocations l' (set_CurrentStackLocation c I))]> (irps s)) (set_io_next (io_next s) (transferred s z st' B)))); [done|].
    rewrite (bind_run _ _ _ _ _ El).
    erewrite bind_run. 2:{ unfold IoGetNextIrpStackLocation. erewrite bind_run; [|apply the_run, lookup_insert_eq].
      cbn [CurrentStackLocation set_StackLocations]. rewrite (proj2 (Z.eqb_neq 0 _)) by lia. reflexivity. }
    erewrite bind_run; [|eapply upd_location_run; [apply lookup_insert_eq|exact Hg|exact Es]].
    cbn [irps set_irps set_StackLocations]. rewrite insert_insert_eq.
    replace (set_irps (<[p:=_]> (irps s)) (set_irps _ s)) with (set_irps
      (<[p := set_StackLocations (<[Z.to_nat (CurrentStackLocation I - 1) := set_Offset o L]> l) I]> (irps s)) s) by (by destruct s, I).
    rewrite E. cbn [irps set_irps]. rewrite insert_insert_eq. by destruct s, I.
  - injection Er as <- <-. injection EB as <-. exists (StackLocations I), (CurrentStackLocation I). erewrite bind_run by reflexivity. rewrite Est. cbn [negb].
    erewrite bind_run. 2:{ erewrite bind_run; [|by apply upd_run]. apply complete_run; [apply lookup_insert_eq|done]. }
    unfold ret, transferred, completed. cbn [irps set_irps io_Status io_Information]. rewrite insert_insert_eq, (insert_id (exts s) z _ Hz).
    do 2 f_equal. destruct s, I; cbn in *; by subst.
Qed.

(** * The stack of a volume: volume, disk and ATA device *)
Record vol_stack (s : iost) (v k a : Z) (part : PARTITION_INFORMATION) (z : Z) (st : Storage) : Prop := {
  vs_volume : exists Dv Dk Da n lay,
    served s v Dv SECTOR_SIZE VolReadWrite VolReadWrite /\ 3 <= StackSize Dv <= MAX_BYTE /\
      exts s !! DeviceExtension Dv = Some (VolumeExtension k part) /\
    served s k Dk SECTOR_SIZE DiskReadWrite DiskReadWrite /\ exts s !! DeviceExtension Dk = Some (DiskExtension n a lay) /\
    served s a Da SECTOR_SIZE AtaReadWrite AtaReadWrite /\ DeviceExtension Da = z /\ v <> k /\ v <> a /\ k <> a;
  vs_storage : exts s !! z = Some (AtaExtension st) }.

Lemma served_devs s s' d D al r w : served s d D al r w -> devs s' !! d = devs s !! d -> drvs s' = drvs s -> served s' d D al r w.
Proof. intros [? ? ? ? Ht ?] E E'. split; try done; [by rewrite E|]. by rewrite E'. Qed.

Lemma vol_stack_frame s s' v k a part z st : vol_stack s v k a part z st -> (forall d, d ∈ [v; k; a] -> devs s' !! d = devs s !! d) ->
  drvs s' = drvs s -> exts s' = exts s -> vol_stack s' v k a part z st.
Proof.
  intros [(Dv&Dk&Da&n&lay&H1&H2&H3&H4&H5&H6&H7) Hz] E1 E2 E3. split; [|by rewrite E3]. exists Dv, Dk, Da, n, lay. rewrite E3.
  assert (forall d D al r w, d ∈ [v; k; a] -> served s d D al r w -> served s' d D al r w) as Hs.
  { intros d D al r w Hd H. eapply served_devs; [exact H|by apply E1|done]. }
  split; [apply Hs; [set_solver|done]|]. split; [done|]. split; [done|]. split; [apply Hs; [set_solver|done]|].
  split; [done|]. split; [apply Hs; [set_solver|done]|]. done.
Qed.

Lemma sector_offset_aligned x : IsAddressAligned (u64 (x * SECTOR_SIZE)) SECTOR_SIZE = true.
Proof.
  rewrite sector_aligned by apply u64_range. apply Z.eqb_eq. unfold u64, SECTOR_SIZE.
  rewrite Z.mod_mod_divide by (exists (2 ^ 55); lia). by rewrite Z.mod_mul.
Qed.

Lemma volume_call now slack n s v k a p I w len off part z st r st' B : vol_stack s v k a part z st ->
  irps s !! p = Some I -> 3 <= CurrentStackLocation I <= MAX_BYTE -> at_request (taken I) w len off -> Completed I = false -> Information I = 0 ->
  IsAddressAligned len SECTOR_SIZE && IsAddressAligned off SECTOR_SIZE = true ->
  Storage.VolDispatchReadWrite part (mkIRP w len off (buffer_of (bufs s) (Buffer I)) (Asynchronous I)) st = Ok (r, st') ->
  delivered (bufs s) (Buffer I) (io_Data r) = Ok B ->
  answers (IoCallDriver (dispatch now slack (S (S (S n)))) v p) s p I z r st' B (io_next s).
Proof.
  intros [(Dv&Dk&Da&m&lay&Sv&_&Xv&Sk&Xk&Sa&<-&Hvk&Hva&Hka) Hz] HI Hc Hrq Hcm Hin Hal Er EB.
  pose proof Hal as [Hlen _]%andb_prop.
  eapply call_answers; [exact Sv|done|lia|exact Hrq|done|].
  replace (if w then VolReadWrite else VolReadWrite) with VolReadWrite by (by destruct w). cbn [dispatch].
  match goal with |- answers _ ?t _ _ _ _ _ _ _ => eapply (vol_answers _ t) end; [apply lookup_insert_eq|cbn; apply Sv|exact Xv|exact Hz|apply lookup_insert_eq|done|done|cbn; lia|exact Hrq|exact Er|done|].
  intros l off' -> Hl Hrq' Er'.
  eapply call_answers; [eapply served_devs; [exact Sk|by apply lookup_insert_ne|done]|apply lookup_insert_eq|cbn; lia|exact Hrq'| |].
  { by rewrite Hlen, sector_offset_aligned. }
  replace (if w then DiskReadWrite else DiskReadWrite) with DiskReadWrite by (by destruct w). cbn [dispatch].
  match goal with |- answers _ ?t _ _ _ _ _ _ _ => eapply (disk_answers _ t) end; [apply lookup_insert_eq|cbn; apply Sk|exact Xk|apply lookup_insert_eq|cbn; lia|exact Hrq'|].
  intros l' Hl' Hlen'. assert (at_request (taken (set_StackLocations l' (taken (set_StackLocations l (taken I))))) w len
      (u64 (u64 (off / SECTOR_SIZE + OffsetInDisk part) * SECTOR_SIZE))) as Hrq2.
  { apply at_request_next; [cbn; unfold MAX_BYTE in *; lia|]. destruct Hrq' as (_&L&HL&HM&HP). exists L. split; [|done]. rewrite Hl'. exact HL. }
  eapply call_answers; [eapply served_devs; [exact Sa|cbn; rewrite !lookup_insert_ne by done; done|done]|apply lookup_insert_eq|cbn; lia|exact Hrq2| |].
  { by rewrite Hlen, sector_offset_aligned. }
  replace (if w then AtaReadWrite else AtaReadWrite) with AtaReadWrite by (by destruct w). cbn [dispatch].
  match goal with |- answers _ ?t _ _ _ _ _ _ _ => eapply (ata_answers t) end; [apply lookup_insert_eq|done|apply Sa|exact Hz|apply lookup_insert_eq|done|exact Hrq2|exact Er'|done].
Qed.

(** * Requests to a volume *)
Record quiet (s : iost) : Prop := {
  qu_fresh : forall a, io_next s <= a -> irps s !! a = None; qu_next : NULL < io_next s; qu_pool : io_pool s = [] }.
Lemma quiet_next s : quiet s -> irps s !! io_next s = None.
Proof. intros [H _ _]. by apply H. Qed.
Definition bump (s : iost) : iost := set_io_next (io_next s + 1) s.

(** IoAllocateIrp and the request that the callers put into the next stack location. *)
Definition new_irp (n : Z) : IRP := mkIrp NULL 0 0 false false n (replicate (Z.to_nat n) zeroed_location).
Lemma allocate_run n s : quiet s -> 0 < n -> IoAllocateIrp n s = Ok (io_next s, set_irps (<[io_next s := new_irp n]> (irps s)) (bump s)).
Proof.
  intros [_ _ Hp] Hn. unfold IoAllocateIrp. rewrite (proj2 (Z.ltb_lt _ _)) by lia. erewrite bind_run by reflexivity.
  erewrite bind_run; [|unfold ExAllocatePool; by rewrite Hp]. by repeat erewrite bind_run by reflexivity.
Qed.

Lemma next_run p I s : irps s !! p = Some I -> CurrentStackLocation I <> 0 ->
  IoGetNextIrpStackLocation p s = Ok (CurrentStackLocation I - 1, s).
Proof.
  intros E Hc. unfold IoGetNextIrpStackLocation. rewrite (bind_run _ _ _ _ _ (the_run irps p I s E)).
  by rewrite (proj2 (Z.eqb_neq 0 _)) by congruence.
Qed.

Lemma zset_replicate n i (x y : IO_STACK_LOCATION) : 0 <= i < n -> exists l,
  zset (replicate (Z.to_nat n) x) i y = Some l /\ zget l i = Some y /\ length l = Z.to_nat n.
Proof.
  intros H. destruct (zset (replicate (Z.to_nat n) x) i y) as [l|] eqn:E.
  - exists l. split; [done|]. split; [by eapply zget_zset_eq|]. rewrite (zset_length _ _ _ _ E). apply length_replicate.
  - rewrite zset_lt in E; [done|]. rewrite length_replicate. lia.
Qed.
Lemma zget_replicate n i (x : IO_STACK_LOCATION) : 0 <= i < n -> zget (replicate (Z.to_nat n) x) i = Some x.
Proof. intros H. unfold zget. rewrite decide_True by lia. apply lookup_replicate_2. lia. Qed.

(** The packet of a read or write when it is sent. *)
Definition sent (I : IRP) (n b : Z) (asy w : bool) (len off : Z) : Prop :=
  CurrentStackLocation I = n /\ Buffer I = b /\ Asynchronous I = asy /\ Completed I = false /\ Information I = 0 /\
  at_request (taken I) w len off.

Lemma device_request disp v b len off w asy s Dv : b <> NULL -> quiet s -> devs s !! v = Some Dv -> 0 < StackSize Dv <= MAX_BYTE ->
  exists I, sent I (StackSize Dv) b asy w len off /\
    _IoReadWriteDevice disp v b len off w asy s =
    (status ← IoCallDriver disp v (io_next s);
     if negb (SUCCEEDED status) then _ ← IoFreeIrp (io_next s); ret (status, len) else
     I ← irp (io_next s); _ ← IoFreeIrp (io_next s); ret (Status I, Information I))
      (set_irps (<[io_next s := I]> (irps s)) (bump s)).
Proof.
  intros Hb0 Hq Hv Hn. set (n := StackSize Dv) in *. set (p := io_next s). pose proof (qu_next _ Hq).
  destruct (zset_replicate n (n - 1) zeroed_location (set_MajorFunction (rw_major w) zeroed_location) ltac:(lia)) as (l1&E1&G1&N1).
  set (I1 := set_StackLocations l1 (new_irp n)). set (I2 := set_Asynchronous asy (set_Buffer b I1)).
  set (L2 := set_Parameters (ReadWrite len off) (set_MajorFunction (rw_major w) zeroed_location)).
  pose proof (zset_lt l1 (n - 1) L2 ltac:(lia)) as E2. set (l2 := <[Z.to_nat (n - 1) := L2]> l1) in *.
  exists (set_StackLocations l2 I2). split.
  { split_and!; try done. split; [cbn; lia|]. exists L2. split_and!; [by eapply (zget_zset_eq l1)|done|done]. }
  unfold _IoReadWriteDevice. rewrite (proj2 (Z.eqb_neq NULL b)) by congruence. erewrite bind_run by reflexivity.
  rewrite (bind_run _ _ _ _ _ (the_run devs v Dv s Hv)).
  erewrite bind_run; [|apply allocate_run; [done|lia]]. fold p. rewrite (proj2 (Z.eqb_neq NULL p)) by (unfold p; lia).
  erewrite bind_run by reflexivity. erewrite bind_run; [|eapply next_run; [apply lookup_insert_eq|cbn; lia]].
  change (CurrentStackLocation (new_irp (StackSize Dv))) with n.
  erewrite bind_run; [|eapply upd_location_run; [apply lookup_insert_eq|apply zget_replicate; lia|exact E1]].
  erewrite bind_run; [|eapply upd_run; apply lookup_insert_eq].
  erewrite bind_run; [|eapply upd_location_run; [apply lookup_insert_eq|exact G1|exact E2]].
  cbn [irps set_irps bump set_io_next]. rewrite !insert_insert_eq. by destruct s.
Qed.

(** The packets of a request to a volume are transparent: the request has the result that the drivers compute, and leaves nothing
    behind but the disk and the buffer (the packet was the block [io_next s]). *)
Lemma volume_request now slack n s v k a part z st b len off w asy status info data st' B : b <> NULL -> vol_stack s v k a part z st -> quiet s ->
  Storage._IoReadWriteDevice part (buffer_of (bufs s) b) len off w asy st = Ok ((status, info, data), st') ->
  delivered (bufs s) b data = Ok B ->
  _IoReadWriteDevice (dispatch now slack (S (S (S n)))) v b len off w asy s = Ok ((status, info), bump (transferred s z st' B)).
Proof.
  intros Hb0 Hs Hq Er EB. pose proof (vs_volume _ _ _ _ _ _ _ Hs) as (Dv&Dk&Da&m&lay&Sv&Hn&Xv&_).
  pose proof (sv_dev _ _ _ _ _ _ Sv) as Hd.
  destruct (device_request (dispatch now slack (S (S (S n)))) v b len off w asy s Dv Hb0 Hq Hd ltac:(lia)) as (I&(Hc&Hb&Ha&Hcm&Hin&Hrq)&->).
  set (p := io_next s) in *. set (s1 := set_irps (<[p := I]> (irps s)) (bump s)). pose proof (quiet_next _ Hq) as Hf. fold p in Hf.
  unfold Storage._IoReadWriteDevice in Er.
  destruct (IsAddressAligned len SECTOR_SIZE && IsAddressAligned off SECTOR_SIZE) eqn:Hal; cbn [negb] in Er.
  - destruct (Storage.VolDispatchReadWrite part (mkIRP w len off (buffer_of (bufs s) b) asy) st) as [[r st1]|e] eqn:Ev;
      [|unfold mbind, M_bind in Er; by rewrite Ev in Er].
    rewrite (bind_run _ _ _ _ _ Ev) in Er. injection Er as <- <- <- <-. rewrite <- Hb, <- Ha in Ev. rewrite <- Hb in EB.
    assert (vol_stack s1 v k a part z st) as Hs1.
    { by apply (vol_stack_frame s). }
    destruct (volume_call now slack n s1 v k a p I w len off part z st r st1 B Hs1 (lookup_insert_eq _ _ _) ltac:(lia) Hrq Hcm Hin Hal Ev EB) as (l&c&E).
    erewrite bind_run; [|exact E]. cbn [negb]. rewrite SUCCEEDED_success. cbn [negb].
    erewrite bind_run; [|apply the_run, lookup_insert_eq]. erewrite bind_run; [|eapply free_object_run, lookup_insert_eq].
    unfold ret. cbn [Status Information completed set_Completed set_Information set_Status]. do 2 f_equal. unfold s1, transferred.
    cbn [irps set_irps set_bufs set_exts exts bump set_io_next]. rewrite insert_insert_eq, delete_insert_id by done. by destruct s.
  - injection Er as <- <- <- <-. injection EB as <-. 
    assert (IoCallDriver (dispatch now slack (S (S (S n)))) v p s1 =
      Ok (STATUS_DEVICE_ALIGNMENT_NO_SATISFIED, set_irps (<[p := taken I]> (irps s1)) s1)) as E.
    { destruct Hrq as ((Hc1&Hc2)&L&HL&HM&HP). unfold IoCallDriver. erewrite bind_run; [|apply the_run, lookup_insert_eq].
      cbn [CurrentStackLocation taken set_CurrentStackLocation] in Hc1. rewrite (proj2 (Z.eqb_neq 0 _)) by lia. erewrite bind_run by reflexivity.
      erewrite bind_run; [|eapply upd_run, lookup_insert_eq].
      erewrite bind_run; [|eapply current_run; [apply lookup_insert_eq|unfold taken in Hc2; unfold MAX_BYTE in *; cbn in *; lia|exact HL]].
      erewrite bind_run; [|apply the_run; exact Hd].
      assert (alignment_ok L (d_DeviceAlignment Dv) = Ok false) as Ea.
      { unfold alignment_ok, rw_parameters. destruct (major_cases w L HM) as [Hrw _]. unfold is_read_write in Hrw.
        rewrite Hrw, HP, (sv_al _ _ _ _ _ _ Sv). unfold mbind, outcome_bind. by rewrite Hal. }
      by rewrite (bind_run _ _ _ _ _ (lift_run _ _ _ Ea)). }
    rewrite (bind_run _ _ _ _ _ E). change (SUCCEEDED STATUS_DEVICE_ALIGNMENT_NO_SATISFIED) with false. cbn [negb].
    erewrite bind_run; [|eapply free_object_run, lookup_insert_eq]. unfold ret. do 2 f_equal. unfold s1, transferred.
    cbn [irps set_irps bump set_io_next exts set_exts]. rewrite insert_insert_eq, delete_insert_id by done.
    rewrite (insert_id (exts s) z _ (vs_storage _ _ _ _ _ _ _ Hs)). by destruct s.
Qed.

(** * What a request to a volume does *)
(** A transfer of [len] bytes at the offset [lo] of the disk. *)
Definition moved (w : bool) (lo len : Z) (buf : list Z) (s : Storage) (status info : Z) (data : list Z) (s' : Storage) : Prop :=
  if SUCCEEDED status then
    info = len /\ (if w then disk s' = write_range (disk s) lo (take (Z.to_nat len) buf) /\ data = []
                   else disk s' = disk s /\ data = read_range (disk s) lo len)
  else disk s' = disk s /\ data = [].
(** The disk is the same device. *)
Definition same_drive (s s' : Storage) : Prop := Initialized s' = Initialized s /\ TotalSectors s' = TotalSectors s /\ pool s' = pool s.

Lemma moved_refused w lo len buf s st info : SUCCEEDED st = false -> moved w lo len buf s st info [] s /\ same_drive s s.
Proof. intros H. unfold moved. by rewrite H. Qed.

Lemma dma_drive s : wp next_dma_status (fun _ s' => disk s' = disk s /\ same_drive s s') s.
Proof. unfold next_dma_status, wp. destruct (dma s); [done|]. by split. Qed.

Lemma ata_rw_moved idx cnt buf asy w s : 0 <= cnt -> (w = true -> cnt * SECTOR_SIZE <= Z.of_nat (length buf)) ->
  wp (AtaReadWriteSectors idx cnt buf asy w)
     (fun r s' => moved w (idx * SECTOR_SIZE) (cnt * SECTOR_SIZE) buf s r.1.1 (r.1.2 * SECTOR_SIZE) r.2 s' /\ same_drive s s') s.
Proof.
  intros Hc Hb. unfold AtaReadWriteSectors. case_match; [wp_step; by apply moved_refused|]. wp_step.
  apply (wp_mono _ (fun _ s' => disk s' = disk s /\ same_drive s s')); [destruct asy; [apply dma_drive|by wp_step]|].
  intros st s1 (Hs1&Hd1). destruct (SUCCEEDED st) eqn:Es; cbn [negb]; [|wp_step; unfold moved; cbn [fst snd]; by rewrite Es].
  destruct w; repeat wp_step.
  - apply wp_lift. rewrite get_bytes_run by (specialize (Hb eq_refl); lia). cbn. repeat wp_step. split; [|exact Hd1].
    unfold moved. cbn [fst snd]. rewrite SUCCEEDED_success. split; [done|]. cbn. by rewrite Hs1.
  - split; [|exact Hd1]. unfold moved. cbn [fst snd]. rewrite SUCCEEDED_success. by rewrite Hs1.
Qed.

Lemma guard_moved st (m : M Storage IO_STATUS) w lo len buf s (P : Prop) :
  (SUCCEEDED st = true -> wp m (fun r s' => (moved w lo len buf s (io_Status r) (io_Information r) (io_Data r) s' /\ same_drive s s') /\
     (SUCCEEDED (io_Status r) = true -> P)) s) ->
  wp (if negb (SUCCEEDED st) then ret (mkIOSB st 0 []) else m)
     (fun r s' => (moved w lo len buf s (io_Status r) (io_Information r) (io_Data r) s' /\ same_drive s s') /\ (SUCCEEDED (io_Status r) = true -> P)) s.
Proof.
  intros H. destruct (SUCCEEDED st) eqn:E; cbn [negb]; [by apply H|]. wp_step. split; [by apply moved_refused|]. cbn [io_Status]. by rewrite E.
Qed.

Lemma aligned_sectors a : is_qword a -> IsAddressAligned a SECTOR_SIZE = true -> a = a / SECTOR_SIZE * SECTOR_SIZE.
Proof. intros Ha. rewrite sector_aligned by done. unfold SECTOR_SIZE. intros E%Z.eqb_eq. pose proof (Z.div_mod a 512). lia. Qed.

Lemma ata_moved w len off buf asy s : is_qword len -> is_qword off -> (w = true -> len <= Z.of_nat (length buf)) ->
  wp (Storage.AtaDispatchReadWrite (mkIRP w len off buf asy))
     (fun r s' => (moved w off len buf s (io_Status r) (io_Information r) (io_Data r) s' /\ same_drive s s') /\ (SUCCEEDED (io_Status r) = true -> True)) s.
Proof.
  intros Hl Ho Hb. unfold Storage.AtaDispatchReadWrite. cbn [irp_Length irp_Offset irp_Write irp_Buffer irp_Asynchronous].
  apply guard_moved. intros Hal.
  assert (len = len / SECTOR_SIZE * SECTOR_SIZE /\ off = off / SECTOR_SIZE * SECTOR_SIZE) as [El Eo].
  { unfold _AtaCheckAlignment in Hal. destruct (IsAddressAligned len SECTOR_SIZE) eqn:E1; [|done].
    destruct (IsAddressAligned off SECTOR_SIZE) eqn:E2; [|done]. by split; apply aligned_sectors. }
  assert (0 <= len / SECTOR_SIZE) by (unfold SECTOR_SIZE; apply Z.div_pos; rlia).
  destruct (Z.ltb_spec MAX_WORD (len / SECTOR_SIZE)); [wp_step; split; [by apply moved_refused|done]|].
  rewrite u16_small by rlia. wp_step. wp_step. apply guard_moved. intros _. wp_step.
  eapply wp_mono; [apply ata_rw_moved; [lia|intros Hw; specialize (Hb Hw); lia]|].
  intros [[st cnt] data] s' Ht. wp_step. cbn [io_Status io_Information io_Data fst snd] in *. rewrite <- El, <- Eo in Ht. done.
Qed.

Definition in_volume (part : PARTITION_INFORMATION) : Prop :=
  is_dword (OffsetInDisk part) /\ is_dword (PartitionSize part) /\ OffsetInDisk part + PartitionSize part < 2 ^ 32.

Lemma vol_moved part w len off buf asy s : in_volume part -> is_qword len -> is_qword off -> IsAddressAligned off SECTOR_SIZE = true ->
  (w = true -> len <= Z.of_nat (length buf)) ->
  wp (Storage.VolDispatchReadWrite part (mkIRP w len off buf asy))
     (fun r s' => (moved w (OffsetInDisk part * SECTOR_SIZE + off) len buf s (io_Status r) (io_Information r) (io_Data r) s' /\ same_drive s s') /\
        (SUCCEEDED (io_Status r) = true -> off + len / SECTOR_SIZE * SECTOR_SIZE <= PartitionSize part * SECTOR_SIZE)) s.
Proof.
  intros (Ho&Hp&Hop) Hl Hf Hal Hb. apply aligned_sectors in Hal; [|done]. unfold Storage.VolDispatchReadWrite.
  cbn [irp_Length irp_Offset irp_Write irp_Buffer irp_Asynchronous]. apply guard_moved. intros Hc.
  assert (0 <= off / SECTOR_SIZE) by (unfold SECTOR_SIZE; apply Z.div_pos; rlia).
  apply vol_check_inv in Hc as [Hc Hc']; [|done..].
  assert (u64 (u64 (off / SECTOR_SIZE + OffsetInDisk part) * SECTOR_SIZE) = OffsetInDisk part * SECTOR_SIZE + off) as ->.
  { unfold SECTOR_SIZE in *. unwrap. lia. }
  eapply wp_mono; [apply ata_moved; [done|unfold SECTOR_SIZE in *; rlia|done]|].
  intros r s' (Hm&_). split; [done|]. intros _. unfold SECTOR_SIZE in *. lia.
Qed.

Lemma delivered_run B b bs data : B !! b = Some (Bytes bs) -> (length data <= length bs)%nat ->
  delivered B b data = Ok (<[b := Bytes (data ++ drop (length data) bs)]> B).
Proof.
  intros Hb Hl. unfold delivered, buffer_of. rewrite Hb. case_bool_decide as Hd.
  - subst data. cbn [app length]. rewrite drop_0. by rewrite insert_id.
  - unfold put_bytes. change (0 <=? 0) with true. cbn [andb]. rewrite (proj2 (Z.leb_le _ _)) by lia. done.
Qed.

Lemma device_moved part w len off bs asy st : in_volume part -> is_qword len -> is_qword off -> len <= Z.of_nat (length bs) ->
  exists status info data st', Storage._IoReadWriteDevice part bs len off w asy st = Ok ((status, info, data), st') /\
    moved w (OffsetInDisk part * SECTOR_SIZE + off) len bs st status info data st' /\ same_drive st st' /\ (length data <= length bs)%nat /\
    (SUCCEEDED status = true -> off + len <= PartitionSize part * SECTOR_SIZE).
Proof.
  intros Hv Hl Ho Hbs. unfold Storage._IoReadWriteDevice.
  destruct (IsAddressAligned len SECTOR_SIZE && IsAddressAligned off SECTOR_SIZE) eqn:Hal; cbn [negb].
  - apply andb_prop in Hal as [Hal1 Hal2].
    destruct (wp_Ok _ _ _ (vol_moved part w len off bs asy st Hv Hl Ho Hal2 ltac:(done))) as (r&st'&E&(Hm&Hd)&Hin).
    exists (io_Status r), (io_Information r), (io_Data r), st'. rewrite (bind_run _ _ _ _ _ E). split_and!; try done.
    + unfold moved in Hm. destruct (SUCCEEDED (io_Status r)); [|destruct Hm as (_&->); cbn; lia].
      destruct Hm as (_&Hm). destruct w; destruct Hm as (_&->); [cbn; lia|].
      pose proof (length_read_range (disk st) (OffsetInDisk part * SECTOR_SIZE + off) len). rlia.
    + intros Hst. rewrite (aligned_sectors len Hl Hal1). by apply Hin.
  - exists STATUS_DEVICE_ALIGNMENT_NO_SATISFIED, len, [], st. split; [done|].
    destruct (moved_refused w (OffsetInDisk part * SECTOR_SIZE + off) len bs st STATUS_DEVICE_ALIGNMENT_NO_SATISFIED len eq_refl).
    split_and!; try done. cbn. lia.
Qed.


(** * The example system of [IoDrivers] *)
Definition demo_device (s : iost) (d : Z) : DEVICE_OBJECT := default zeroed_device (devs s !! d).
Definition demo_served (s : iost) (d al : Z) (r w : dispatch_fn) : Prop := served s d (demo_device s d) al r w.
Ltac demo_serve := split; [vm_compute; reflexivity..|vm_compute; congruence|eexists; split_and!; vm_compute; reflexivity|vm_compute; congruence].

Lemma demo_storage_in s z : match exts s !! z with Some (AtaExtension _) => true | _ => false end = true ->
  exts s !! z = Some (AtaExtension (demo_storage_of s z)).
Proof. unfold demo_storage_of. by destruct (exts s !! z) as [[]|]. Qed.

Lemma demo_fat_stack : vol_stack demo_opened 4110 4104 4097 demo_vol 4098 (demo_storage_of demo_opened 4098).
Proof.
  split; [|apply demo_storage_in; vm_compute; reflexivity]. eexists (demo_device demo_opened 4110), (demo_device demo_opened 4104), (demo_device demo_opened 4097), 200000, _.
  split; [demo_serve|]. split; [vm_compute; split; congruence|]. split; [vm_compute; reflexivity|]. split; [demo_serve|].
  split; [vm_compute; reflexivity|]. split; [demo_serve|]. split_and!; [vm_compute; reflexivity|lia..].
Qed.

Lemma demo_quiet : quiet demo_opened.
Proof.
  split; [|vm_compute; reflexivity|vm_compute; reflexivity]. assert (irps demo_opened = ∅) as -> by (vm_compute; reflexivity). intros. apply lookup_empty.
Qed.

Lemma demo_in_volume : in_volume demo_vol.
Proof. split_and!; vm_compute; done. Qed.

