(* ===== verification/IoFileSpec.v ===== *)
(** Reads and writes of open files through the I/O manager: the packet of io_files.c, the dispatch functions of the FAT and swap file
    systems, and the volume, disk and ATA drivers below them. *)
From S2P Require Import Prelude IntUtils ClMemory StrUtils ClString Storage Fat FatFile FatDir IoManager IoDrivers IoSpec.

(** * The packet of a file request *)
(** The stack location of the driver names the file. *)
Definition names_file (I : IRP) (h : Z) : Prop :=
  exists L, zget (StackLocations I) (CurrentStackLocation I) = Some L /\ sl_FileObject L = h.
Definition rw_fill (h len off : Z) (w : bool) (device : Z) (L : IO_STACK_LOCATION) : IO_STACK_LOCATION :=
  set_sl_FileObject h (set_Parameters (ReadWrite len off) (set_sl_DeviceObject device (set_MajorFunction (rw_major w) L))).

(** The state when the packet [I] is sent. *)
Definition with_packet (s : iost) (I : IRP) : iost := set_irps (<[io_next s := I]> (irps s)) (bump s).
Definition offset_of (F : FILE_OBJECT) (fo : option Z) : Z := default (CurrentByteOffset F) fo.
(** The file pointer of a synchronous file moves by what was transferred. *)
Definition advanced (h : Z) (F : FILE_OBJECT) (r : IO_STATUS) (s : iost) : iost :=
  if SUCCEEDED (io_Status r) && negb (fl_Asynchronous F)
  then set_fobjs (<[h := set_CurrentByteOffset (u64 (CurrentByteOffset F + io_Information r)) F]> (fobjs s)) s else s.

Lemma file_packet disp h F b len off asy w s Dd : quiet s -> fobjs s !! h = Some F -> FileSystemDevice F <> NULL ->
  devs s !! FileSystemDevice F = Some Dd -> 0 < StackSize Dd <= MAX_BYTE ->
  exists I, sent I (StackSize Dd) b asy w len off /\ names_file (taken I) h /\
    file_request disp h b asy (rw_fill h len off w) s =
    (status ← IoCallDriver disp (FileSystemDevice F) (io_next s);
     I ← irp (io_next s); _ ← IoFreeIrp (io_next s);
     if negb (SUCCEEDED status) then ret (status, None) else ret (Status I, Some (Information I))) (with_packet s I).
Proof.
  intros Hq HF Hd HD Hn. set (n := StackSize Dd) in *. set (p := io_next s). pose proof (qu_next _ Hq).
  set (I1 := set_Asynchronous asy (set_Buffer b (new_irp n))).
  set (L := rw_fill h len off w (FileSystemDevice F) zeroed_location).
  destruct (zset_replicate n (n - 1) zeroed_location L ltac:(lia)) as (l&E&G&N).
  exists (set_StackLocations l I1). split; [|split].
  { split_and!; try done. split; [cbn; lia|]. exists L. by split_and!. }
  { exists L. by split. }
  unfold file_request. rewrite (bind_run _ _ _ _ _ (the_run fobjs h F s HF)). rewrite (proj2 (Z.eqb_neq NULL _)) by congruence.
  erewrite bind_run by reflexivity. rewrite (bind_run _ _ _ _ _ (the_run devs _ Dd s HD)).
  erewrite bind_run; [|apply allocate_run; [done|lia]]. fold p. rewrite (proj2 (Z.eqb_neq NULL p)) by (unfold p; lia).
  erewrite bind_run; [|eapply upd_run; apply lookup_insert_eq].
  erewrite bind_run; [|eapply next_run; [apply lookup_insert_eq|cbn; lia]].
  erewrite bind_run; [|eapply upd_location_run; [apply lookup_insert_eq|apply (zget_replicate n); cbn; lia|exact E]].
  cbn [irps set_irps bump set_io_next]. rewrite !insert_insert_eq. by destruct s.
Qed.

(** _IoReadWriteFile when the dispatch function of the file system answers the packet. *)
Lemma file_rw disp h F b len fo w s Dd al r wf z res st B nx : b <> NULL -> quiet s -> fobjs s !! h = Some F -> FileSystemDevice F <> NULL ->
  served s (FileSystemDevice F) Dd al r wf -> 0 < StackSize Dd <= MAX_BYTE -> (fo = None -> fl_Asynchronous F = false) ->
  IsAddressAligned len al && IsAddressAligned (offset_of F fo) al = true ->
  (forall I, sent I (StackSize Dd) b (fl_Asynchronous F) w len (offset_of F fo) -> names_file (taken I) h ->
     answers (disp (if w then wf else r) (FileSystemDevice F) (io_next s))
       (entered (with_packet s I) (FileSystemDevice F) Dd (io_next s) (taken I)) (io_next s) (taken I) z res st B nx) ->
  _IoReadWriteFile disp h b len fo w s =
    Ok ((io_Status res, Some (io_Information res)), advanced h F res (set_io_next nx (transferred s z st B))).
Proof.
  intros Hb0 Hq HF Hd Sd Hn Hfo Hal H. unfold _IoReadWriteFile.
  rewrite (proj2 (Z.eqb_neq NULL b)) by congruence. erewrite bind_run by reflexivity. rewrite (bind_run _ _ _ _ _ (the_run fobjs h F s HF)).
  rewrite (bind_run _ _ s (offset_of F fo) s).
  2:{ destruct fo; [done|]. by rewrite (Hfo eq_refl). }
  destruct (file_packet disp h F b len (offset_of F fo) (fl_Asynchronous F) w s Dd Hq HF Hd (sv_dev _ _ _ _ _ _ Sd) Hn) as (I&Hs&Hf&E).
  pose proof Hs as (Hc&_&_&_&_&Hrq). set (p := io_next s) in *.
  assert (answers (IoCallDriver disp (FileSystemDevice F) p) (with_packet s I) p I z res st B nx) as (l&c&Ea).
  { eapply call_answers; [by eapply served_devs|apply lookup_insert_eq|lia|exact Hrq|exact Hal|by apply H]. }
  unfold rw_fill, rw_major in E. erewrite bind_run.
  2:{ rewrite E. erewrite bind_run; [|exact Ea]. erewrite bind_run; [|apply the_run, lookup_insert_eq].
      erewrite bind_run; [|eapply free_object_run, lookup_insert_eq]. reflexivity. }
  cbv beta iota. cbn [Status Information completed set_Completed set_Information set_Status].
  pose proof (quiet_next _ Hq) as Hfr. fold p in Hfr.
  assert (forall x (D' : gmap Z IRP), D' = irps s ->
     set_irps D' (set_irps x (set_io_next nx (transferred (with_packet s I) z st B))) = set_io_next nx (transferred s z st B)) as Est.
  { intros ? ? ->. by destruct s. }
  cbn [irps set_irps with_packet]. rewrite insert_insert_eq, delete_insert_id by done.
  rewrite Est by done. clear Est E.
  erewrite bind_run; [|apply the_run; exact HF]. unfold advanced.
  destruct (SUCCEEDED (io_Status res) && negb (fl_Asynchronous F)) eqn:Eadv; [|by erewrite bind_run by reflexivity].
  erewrite bind_run; [|apply upd_run; exact HF]. done.
Qed.

(** * Files of the FAT file system *)
Lemma stack_storage s v k a part z st : vol_stack s v k a part z st ->
  exists Dv, devs s !! v = Some Dv /\ volume_storage v s = Ok ((part, z), s).
Proof.
  intros [(Dv&Dk&Da&n&lay&[Hv _ _ _ _ Nv]&_&Xv&[Hk _ _ _ _ Nk]&Xk&[Ha _ _ _ _ Na]&<-&_) _]. exists Dv. split; [done|]. unfold volume_storage.
  rewrite (bind_run _ _ _ _ _ (extension_run v Dv s Hv Nv)).
  erewrite bind_run; [|unfold volume_extension; by rewrite (bind_run _ _ _ _ _ (the_run exts _ _ s Xv))]. cbv beta iota.
  rewrite (bind_run _ _ _ _ _ (extension_run k Dk s Hk Nk)).
  erewrite bind_run; [|unfold disk_extension; by rewrite (bind_run _ _ _ _ _ (the_run exts _ _ s Xk))]. cbv beta iota.
  by rewrite (bind_run _ _ _ _ _ (extension_run a Da s Ha Na)).
Qed.

(** The device [d] of a file system is none of the devices of the volume below it. *)
Lemma device_apart s v k a part z st d D e : vol_stack s v k a part z st -> devs s !! d = Some D -> exts s !! DeviceExtension D = Some e ->
  match e with FatExtension _ _ | SwapFsExtension _ _ => True | _ => False end -> forall d', d' ∈ [v; k; a] -> d <> d'.
Proof.
  intros [(Dv&Dk&Da&n&lay&[Hv _ _ _ _ _]&_&Xv&[Hk _ _ _ _ _]&Xk&[Ha _ _ _ _ _]&<-&_) Hz] Hd Hx He d' Hin ->.
  rewrite !elem_of_cons in Hin. destruct Hin as [->|[->|[->|Hin%elem_of_nil]]]; simplify_eq; done.
Qed.

Record open_fat (s : iost) (h : Z) (F : FILE_OBJECT) (c : FCB_INFO) (FD : FAT_DATA) (v k a : Z) (part : PARTITION_INFORMATION) (z : Z)
    (st : Storage) : Prop := {
  of_file : fobjs s !! h = Some F;
  of_device : FileSystemDevice F <> NULL;
  of_fcb : FsContext2 F <> NULL /\ fcbs s !! FsContext2 F = Some c;
  of_served : exists D, served s (FileSystemDevice F) D SECTOR_SIZE FatReadWrite FatReadWrite /\ 0 < StackSize D <= MAX_BYTE /\
                exts s !! DeviceExtension D = Some (FatExtension v (Some FD));
  of_volume : vol_stack s v k a part z st }.

Lemma fat_answers now s h F c FD v k a part z st p I w len off status info data st' B d D : fobjs s !! h = Some F ->
  FsContext2 F <> NULL -> fcbs s !! FsContext2 F = Some c -> devs s !! d = Some D -> DeviceExtension D <> NULL ->
  exts s !! DeviceExtension D = Some (FatExtension v (Some FD)) -> vol_stack s v k a part z st ->
  irps s !! p = Some I -> Completed I = false -> at_request I w len off -> names_file I h ->
  FatFile._FatDispatchReadWrite part now FD (fcb c) (mkIRP w len off (buffer_of (bufs s) (Buffer I)) (Asynchronous I)) st = Ok ((status, info, data), st') ->
  delivered (bufs s) (Buffer I) data = Ok B ->
  answers (_FatDispatchReadWrite now d p) s p I z (mkIOSB status info data) st' B (io_next s).
Proof.
  intros HF Hc0 Hc Hd Hx0 Hx Hv HI Hcm ((Hc1&Hc2)&L&HL&HM&HP) (L'&HL'&Hh) Er EB. rewrite HL in HL'. injection HL' as <-.
  exists (StackLocations I), (CurrentStackLocation I). unfold _FatDispatchReadWrite. destruct (major_cases w L HM) as [Hrw Hw].
  erewrite bind_run; [|eapply current_run; [done|unfold MAX_BYTE in *; lia|done]]. rewrite Hrw, Hh. erewrite bind_run by reflexivity.
  rewrite (bind_run _ _ _ _ _ (the_run fobjs h F s HF)). rewrite (proj2 (Z.eqb_neq NULL _)) by congruence. erewrite bind_run by reflexivity.
  rewrite (bind_run _ _ _ _ _ (the_run fcbs _ c s Hc)). unfold rw_parameters. rewrite HP. erewrite bind_run by reflexivity. cbv beta iota.
  rewrite (bind_run _ _ _ _ _ (the_run irps p I s HI)). erewrite bind_run by reflexivity. rewrite Hw.
  destruct (stack_storage _ _ _ _ _ _ _ Hv) as (Dv&HDv&Evs).
  erewrite bind_run.
  2:{ unfold on_fat. rewrite (bind_run _ _ _ _ _ (extension_run d D s Hd Hx0)).
      erewrite bind_run; [|unfold fat_extension; by rewrite (bind_run _ _ _ _ _ (the_run exts _ _ s Hx))]. cbv beta iota.
      rewrite (bind_run _ _ _ _ _ (the_run devs v Dv s HDv)), (bind_run _ _ _ _ _ Evs).
      eapply on_ata_run; [apply (vs_storage _ _ _ _ _ _ _ Hv)|exact Er]. }
  cbv beta iota. erewrite bind_run; [|by apply deliver_run].
  erewrite bind_run; [|by apply upd_run]. erewrite bind_run; [|apply complete_run; [apply lookup_insert_eq|done]].
  unfold ret. cbn [irps set_irps]. rewrite insert_insert_eq. destruct I. by destruct s.
Qed.

(** The packets of a request to a file are transparent too. *)
Lemma fat_request now slack n s h F c FD v k a part z st b len fo w status info data st' B : b <> NULL -> open_fat s h F c FD v k a part z st -> quiet s ->
  (fo = None -> fl_Asynchronous F = false) -> IsAddressAligned len SECTOR_SIZE && IsAddressAligned (offset_of F fo) SECTOR_SIZE = true ->
  FatFile._FatDispatchReadWrite part now FD (fcb c) (mkIRP w len (offset_of F fo) (buffer_of (bufs s) b) (fl_Asynchronous F)) st =
    Ok ((status, info, data), st') ->
  delivered (bufs s) b data = Ok B ->
  _IoReadWriteFile (dispatch now slack (S n)) h b len fo w s =
    Ok ((status, Some info), advanced h F (mkIOSB status info data) (bump (transferred s z st' B))).
Proof.
  intros Hb0 [HF Hd (Hc0&Hc) (D&Sd&Hn&Hx) Hv] Hq Hfo Hal Er EB.
  rewrite (file_rw (dispatch now slack (S n)) h F b len fo w s D SECTOR_SIZE FatReadWrite FatReadWrite z (mkIOSB status info data) st' B (io_next s + 1)); try done.
  intros I (Hcu&Hb&Ha&Hcm&_&Hrq) Hf. replace (if w then FatReadWrite else FatReadWrite) with FatReadWrite by (by destruct w). cbn [dispatch].
  pose proof (device_apart _ _ _ _ _ _ _ _ _ _ Hv (sv_dev _ _ _ _ _ _ Sd) Hx Logic.I) as Hap.
  match goal with |- answers _ ?t _ _ _ _ _ _ _ => eapply (fat_answers now t h F c FD v k a part z st) end;
    [exact HF|done|exact Hc|apply lookup_insert_eq|cbn; apply Sd|exact Hx| |apply lookup_insert_eq|exact Hcm|exact Hrq|exact Hf| |].
  - apply (vol_stack_frame s); try done. intros d' Hd'. apply lookup_insert_ne. by apply Hap.
  - cbn [taken Buffer set_CurrentStackLocation Asynchronous]. rewrite Hb, Ha. exact Er.
  - cbn [taken Buffer set_CurrentStackLocation]. rewrite Hb. exact EB.
Qed.

(** What a request leaves intact. *)
Lemma ext_kept (X : gmap Z EXTENSION) z st st' y e : X !! z = Some (AtaExtension st) -> X !! y = Some e ->
  match e with AtaExtension _ => False | _ => True end -> <[z := AtaExtension st']> X !! y = Some e.
Proof. intros Hz Hy He. rewrite lookup_insert_ne; [done|]. intros ->. rewrite Hz in Hy. by injection Hy as <-. Qed.

Lemma vol_stack_transferred s v k a part z st st' B : vol_stack s v k a part z st -> vol_stack (transferred s z st' B) v k a part z st'.
Proof.
  intros Hvs. pose proof (vs_storage _ _ _ _ _ _ _ Hvs) as Hz. destruct Hvs as [(Dv&Dk&Da&n&lay&H1&H2&H3&H4&H5&H6) _]. split; [|apply lookup_insert_eq]. exists Dv, Dk, Da, n, lay.
  split; [by eapply served_devs|]. split; [done|]. split; [by eapply ext_kept|]. split; [by eapply served_devs|].
  split; [by eapply ext_kept|]. destruct H6 as (H6&H7). split; [by eapply served_devs|done].
Qed.

Lemma quiet_later s j : quiet s -> 0 <= j -> quiet (set_io_next (io_next s + j) s).
Proof. intros [H1 H2 H3] Hj. split; cbn; [intros; apply H1; lia|lia|done]. Qed.
Lemma quiet_moved s z st B : quiet s -> quiet (transferred s z st B).
Proof. by intros [? ? ?]. Qed.

Definition file_after (F : FILE_OBJECT) (r : IO_STATUS) : FILE_OBJECT :=
  if SUCCEEDED (io_Status r) && negb (fl_Asynchronous F) then set_CurrentByteOffset (u64 (CurrentByteOffset F + io_Information r)) F else F.
Lemma advanced_file h F r s : fobjs s !! h = Some F -> advanced h F r s = set_fobjs (<[h := file_after F r]> (fobjs s)) s.
Proof. intros E. unfold advanced, file_after. case_match; [done|]. rewrite insert_id by done. by destruct s. Qed.
Lemma file_after_fields F r : FileSystemDevice (file_after F r) = FileSystemDevice F /\ FsContext2 (file_after F r) = FsContext2 F /\
  fl_Asynchronous (file_after F r) = fl_Asynchronous F.
Proof. unfold file_after. by case_match. Qed.
Lemma quiet_advanced h F r s : quiet s -> quiet (advanced h F r s).
Proof. intros [? ? ?]. unfold advanced. by case_match. Qed.

Lemma open_fat_after s h F c FD v k a part z st st' B r j : open_fat s h F c FD v k a part z st ->
  open_fat (advanced h F r (set_io_next j (transferred s z st' B))) h (file_after F r) c FD v k a part z st'.
Proof.
  intros [HF Hd Hc (D&Sd&Hn&Hx) Hv]. rewrite advanced_file by done. destruct (file_after_fields F r) as (E1&E2&_). split.
  - apply lookup_insert_eq.
  - by rewrite E1.
  - by rewrite E2.
  - exists D. rewrite E1. split; [by eapply served_devs|]. split; [done|]. eapply ext_kept; [apply Hv|exact Hx|done].
  - apply (vol_stack_frame (transferred s z st' B)); [by eapply vol_stack_transferred|done..].
Qed.

(** ** A file of the volume *)
Record fat_chain (FD : FAT_DATA) (part : PARTITION_INFORMATION) (st : Storage) (c : FCB_INFO) (l : list Z) (dc idx : Z) : Prop := {
  fc_layout : layout_ok part FD;
  fc_part : in_volume part;
  fc_dev : dev_ok part st;
  fc_chain : is_chain FD (vdisk part st) l;
  fc_aligned : IsAddressAligned (cluster_sector FD (l !!! 0%nat)) (SectorsPerCluster FD) = true;
  fc_dir : valid FD dc /\ (dc ∉ l) /\ first_entry FD (vdisk part st) dc (l !!! 0%nat) idx;
  fc_fcb : fcb c = mkFCB (cluster_sector FD (l !!! 0%nat)) (cluster_sector FD dc) }.

Lemma chain_first FD d l : is_chain FD d l -> valid FD (l !!! 0%nat).
Proof. intros (Hne&Hv&_). destruct l; [done|]. by apply Forall_inv in Hv. Qed.

Lemma fat_dispatch_pre FD part st c l dc idx off n w buf asy now : fat_chain FD part st c l dc idx -> 0 <= off -> 0 < n ->
  (off + n) * SECTOR_SIZE < 2 ^ 32 ->
  FatFile._FatDispatchReadWrite part now FD (fcb c) (mkIRP w (n * SECTOR_SIZE) (off * SECTOR_SIZE) buf asy) st =
  (r ← (if w then n' ⇐ FatWriteFile part now FD (cluster_sector FD (l !!! 0%nat)) off (cluster_sector FD dc) buf n asy; eret (n', [])
        else FatReadFile part now FD (cluster_sector FD (l !!! 0%nat)) off (cluster_sector FD dc) n asy);
   match r with inl e => ret (e, 0, []) | inr (n, data) => ret (STATUS_SUCCESS, u64 (n * BytesPerSector FD), data) end) st.
Proof.
  intros [HL (_&Hp&_) _ Hl _ _ Ec] Ho Hn Hs. apply chain_first in Hl. rewrite Ec. unfold FatFile._FatDispatchReadWrite.
  pose proof (lo_size _ _ HL). pose proof (lo_spc _ _ HL). pose proof (lo_rsvd _ _ HL). pose proof (lo_fat _ _ HL). pose proof (lo_count _ _ HL). unfold valid in Hl.
  assert (0 <= cluster_sector FD (l !!! 0%nat) < 2 ^ 32) by (unfold cluster_sector, is_dword, SECTOR_SIZE, SIZEOF_FAT32_ENTRY in *; split; nia).
  cbn [FileOffsetInVolume ParentOffsetInVolume irp_Offset irp_Length irp_Write irp_Buffer irp_Asynchronous]. unfold MAX_DWORD.
  unfold SECTOR_SIZE in *. rewrite !(proj2 (Z.leb_le _ _)) by lia. do 3 erewrite bind_run by reflexivity.
  rewrite (lo_bps _ _ HL). erewrite bind_run by reflexivity. erewrite bind_run by reflexivity. unfold SECTOR_SIZE. rewrite !Z.div_mul by lia.
  rewrite !u32_small by rlia. done.
Qed.

Lemma fat_dispatch_write FD part st c l dc idx off n buf asy now : fat_chain FD part st c l dc idx -> 0 <= off -> 0 < n ->
  off + n <= file_length FD l -> (off + n) * SECTOR_SIZE < 2 ^ 32 -> n * SECTOR_SIZE <= Z.of_nat (length buf) ->
  exists st', FatFile._FatDispatchReadWrite part now FD (fcb c) (mkIRP true (n * SECTOR_SIZE) (off * SECTOR_SIZE) buf asy) st =
      Ok ((STATUS_SUCCESS, n * SECTOR_SIZE, []), st') /\ fat_chain FD part st' c l dc idx /\
    file_bytes FD (vdisk part st') l off n = take (Z.to_nat (n * SECTOR_SIZE)) buf.
Proof.
  intros Hc Ho Hn Hlen Hs Hb. rewrite (fat_dispatch_pre FD part st c l dc idx) by done. pose proof Hc as [HL Hp Hd Hl Ha (Hdc&Hdl&Hx) Ec].
  destruct (FatWriteFile_run part FD HL now st l dc idx off n buf asy) as (st'&E&Hd'&Hw); try done.
  exists st'. split; [|split].
  - erewrite bind_run; [|erewrite ebind_run; [|exact E]; reflexivity]. cbv beta iota. unfold ret. do 3 f_equal. f_equal. rewrite (lo_bps _ _ HL).
    unfold SECTOR_SIZE in *. apply u64_small. rlia.
  - split; try done; [|split_and!; [done..|apply Hw]]. eapply chain_same; [exact Hl|]. intros x Hx'. apply (fw_next _ _ _ _ _ _ _ _ _ Hw).
    apply valid_in_table. destruct Hl as (_&Hv&_). by eapply Forall_forall.
  - rewrite (written_bytes _ _ _ _ _ _ _ _ _ Ho Hn Hlen Hw). f_equal. unfold SECTOR_SIZE. lia.
Qed.

Lemma fat_dispatch_read FD part st c l dc idx off n buf asy now : fat_chain FD part st c l dc idx -> 0 <= off -> 0 < n ->
  off + n <= file_length FD l -> (off + n) * SECTOR_SIZE < 2 ^ 32 ->
  exists st', FatFile._FatDispatchReadWrite part now FD (fcb c) (mkIRP false (n * SECTOR_SIZE) (off * SECTOR_SIZE) buf asy) st =
      Ok ((STATUS_SUCCESS, n * SECTOR_SIZE, file_bytes FD (vdisk part st) l off n), st').
Proof.
  intros Hc Ho Hn Hlen Hs. rewrite (fat_dispatch_pre FD part st c l dc idx) by done. pose proof Hc as [HL Hp Hd Hl Ha (Hdc&Hdl&Hx) Ec].
  destruct (FatReadFile_run part FD HL now st l dc idx off n asy) as (st'&E&_); try done; [lia|unfold SECTOR_SIZE in *; lia..|].
  exists st'. cbv zeta in E. rewrite Z.min_l in E by lia. rewrite (bind_run _ _ _ _ _ E). cbv beta iota. unfold ret. do 4 f_equal.
  rewrite (lo_bps _ _ HL). unfold SECTOR_SIZE in *. apply u64_small. rlia.
Qed.

Lemma sectors_multiple j : 0 <= j -> j * SECTOR_SIZE < 2 ^ 32 -> IsAddressAligned (j * SECTOR_SIZE) SECTOR_SIZE = true.
Proof. intros H1 H2. rewrite sector_aligned by (unfold SECTOR_SIZE in *; rlia). unfold SECTOR_SIZE. by rewrite Z.mod_mul. Qed.

Lemma file_write now slack m s h F c FD v k a part z st b bs fo off n l dc idx : b <> NULL -> open_fat s h F c FD v k a part z st -> quiet s ->
  fat_chain FD part st c l dc idx -> (fo = None -> fl_Asynchronous F = false) -> offset_of F fo = off * SECTOR_SIZE ->
  0 <= off -> 0 < n -> off + n <= file_length FD l -> (off + n) * SECTOR_SIZE < 2 ^ 32 ->
  bufs s !! b = Some (Bytes bs) -> n * SECTOR_SIZE <= Z.of_nat (length bs) ->
  exists st', IoWriteFile (dispatch now slack (S m)) h (n * SECTOR_SIZE) fo b s =
      Ok ((STATUS_SUCCESS, Some (n * SECTOR_SIZE)), advanced h F (mkIOSB STATUS_SUCCESS (n * SECTOR_SIZE) []) (bump (transferred s z st' (bufs s)))) /\
    fat_chain FD part st' c l dc idx /\ file_bytes FD (vdisk part st') l off n = take (Z.to_nat (n * SECTOR_SIZE)) bs.
Proof.
  intros Hb0 Ho Hq Hc Hfo Eo Hoff Hn Hlen Hs Hb Hbl. unfold IoWriteFile.
  destruct (fat_dispatch_write FD part st c l dc idx off n bs (fl_Asynchronous F) now) as (st'&E&Hc'&Hf); try done.
  exists st'. split; [|done]. unfold SECTOR_SIZE in Hs. eapply (fat_request now slack m s h F c FD v k a part z st b _ fo true _ _ []); try done.
  - rewrite Eo, !sectors_multiple by (unfold SECTOR_SIZE; lia). done.
  - rewrite Eo. unfold buffer_of. by rewrite Hb.
Qed.

Lemma file_read now slack m s h F c FD v k a part z st b bs fo off n l dc idx : b <> NULL -> open_fat s h F c FD v k a part z st -> quiet s ->
  fat_chain FD part st c l dc idx -> (fo = None -> fl_Asynchronous F = false) -> offset_of F fo = off * SECTOR_SIZE ->
  0 <= off -> 0 < n -> off + n <= file_length FD l -> (off + n) * SECTOR_SIZE < 2 ^ 32 ->
  bufs s !! b = Some (Bytes bs) -> length (file_bytes FD (vdisk part st) l off n) = length bs ->
  exists st', IoReadFile (dispatch now slack (S m)) h (n * SECTOR_SIZE) fo b s =
      Ok ((STATUS_SUCCESS, Some (n * SECTOR_SIZE)),
        advanced h F (mkIOSB STATUS_SUCCESS (n * SECTOR_SIZE) (file_bytes FD (vdisk part st) l off n))
          (bump (transferred s z st' (<[b := Bytes (file_bytes FD (vdisk part st) l off n)]> (bufs s))))).
Proof.
  intros Hb0 Ho Hq Hc Hfo Eo Hoff Hn Hlen Hs Hb Hbl. unfold IoReadFile.
  destruct (fat_dispatch_read FD part st c l dc idx off n bs (fl_Asynchronous F) now) as (st'&E); try done.
  exists st'. unfold SECTOR_SIZE in Hs. eapply (fat_request now slack m s h F c FD v k a part z st b _ fo false); try done.
  - rewrite Eo, !sectors_multiple by (unfold SECTOR_SIZE; lia). done.
  - rewrite Eo. unfold buffer_of. by rewrite Hb.
  - rewrite (delivered_run _ _ _ _ Hb) by lia. do 3 f_equal. rewrite drop_ge by lia. by rewrite app_nil_r.
Qed.


(** * The swap file *)
Record open_swap (s : iost) (h : Z) (F : FILE_OBJECT) (v k a : Z) (part : PARTITION_INFORMATION) (z : Z) (st : Storage) : Prop := {
  os_file : fobjs s !! h = Some F;
  os_device : FileSystemDevice F <> NULL;
  os_served : exists D size, served s (FileSystemDevice F) D PAGE_SIZE SwapFsRead SwapFsWrite /\ 0 < StackSize D <= MAX_BYTE /\
                exts s !! DeviceExtension D = Some (SwapFsExtension v size);
  os_volume : vol_stack s v k a part z st }.

Lemma swap_answers now slack n s v k a part z st p I w off status info data st' B d D size : Buffer I <> NULL ->
  devs s !! d = Some D -> DeviceExtension D <> NULL -> exts s !! DeviceExtension D = Some (SwapFsExtension v size) ->
  vol_stack s v k a part z st -> quiet s -> irps s !! p = Some I -> Completed I = false -> at_request I w PAGE_SIZE off ->
  Storage._IoReadWriteDevice part (buffer_of (bufs s) (Buffer I)) PAGE_SIZE off w false st = Ok ((status, info, data), st') ->
  delivered (bufs s) (Buffer I) data = Ok B ->
  answers (swapfs_transfer (dispatch now slack (S (S (S n)))) (rw_major w) w d p) s p I z (mkIOSB status info data) st' B (io_next s + 1).
Proof.
  intros Hb0 Hd Hx0 Hx Hv Hq HI Hcm ((Hc1&Hc2)&L&HL&HM&HP) Er EB. exists (StackLocations I), (CurrentStackLocation I). unfold swapfs_transfer.
  erewrite bind_run; [|eapply current_run; [done|unfold MAX_BYTE in *; lia|done]]. rewrite HM, Z.eqb_refl. erewrite bind_run by reflexivity.
  rewrite (bind_run _ _ _ _ _ (extension_run d D s Hd Hx0)).
  erewrite bind_run; [|unfold swapfs_extension; by rewrite (bind_run _ _ _ _ _ (the_run exts _ _ s Hx))]. cbv beta iota.
  unfold rw_parameters. rewrite HP. erewrite bind_run by reflexivity. cbv beta iota.
  rewrite (bind_run _ _ _ _ _ (the_run irps p I s HI)). change (PAGE_SIZE =? PAGE_SIZE) with true. cbn [negb].
  erewrite bind_run; [|by eapply volume_request]. cbv beta iota.
  erewrite bind_run; [|apply upd_run; exact HI]. erewrite bind_run; [|apply complete_run; [apply lookup_insert_eq|done]].
  unfold ret. cbn [irps set_irps bump]. rewrite insert_insert_eq. destruct I. by destruct s.
Qed.

Lemma swap_request now slack n s h F v k a part z st b fo w status info data st' B : b <> NULL -> open_swap s h F v k a part z st -> quiet s ->
  (fo = None -> fl_Asynchronous F = false) -> IsAddressAligned (offset_of F fo) PAGE_SIZE = true ->
  Storage._IoReadWriteDevice part (buffer_of (bufs s) b) PAGE_SIZE (offset_of F fo) w false st = Ok ((status, info, data), st') ->
  delivered (bufs s) b data = Ok B ->
  _IoReadWriteFile (dispatch now slack (S (S (S (S n))))) h b PAGE_SIZE fo w s =
    Ok ((status, Some info), advanced h F (mkIOSB status info data) (set_io_next (io_next s + 2) (transferred s z st' B))).
Proof.
  intros Hb0 [HF Hd (D&size&Sd&Hn&Hx) Hv] Hq Hfo Hal Er EB.
  rewrite (file_rw (dispatch now slack (S (S (S (S n))))) h F b PAGE_SIZE fo w s D PAGE_SIZE SwapFsRead SwapFsWrite z (mkIOSB status info data) st' B (io_next s + 1 + 1));
    try done; [cbn [io_Status io_Information]; by rewrite <- Z.add_assoc|].
  intros I (Hcu&Hb&_&Hcm&_&Hrq) Hf.
  replace (dispatch now slack (S (S (S (S n)))) (if w then SwapFsWrite else SwapFsRead)) with
    (swapfs_transfer (dispatch now slack (S (S (S n)))) (rw_major w) w) by (by destruct w).
  pose proof (device_apart _ _ _ _ _ _ _ _ _ _ Hv (sv_dev _ _ _ _ _ _ Sd) Hx Logic.I) as Hap.
  match goal with |- answers _ ?t _ _ _ _ _ _ _ => eapply (swap_answers now slack n t v k a part z st) end;
    [cbn [taken Buffer set_CurrentStackLocation]; by rewrite Hb|apply lookup_insert_eq|cbn; apply Sd|exact Hx| | |apply lookup_insert_eq|exact Hcm|exact Hrq| |].
  - apply (vol_stack_frame s); try done. intros d' Hd'. apply lookup_insert_ne. by apply Hap.
  - destruct Hq as [H1 H2 H3]. split; cbn; [|lia|done]. intros x Hx'. rewrite !lookup_insert_ne by lia. apply H1. lia.
  - cbn [taken Buffer set_CurrentStackLocation]. rewrite Hb. exact Er.
  - cbn [taken Buffer set_CurrentStackLocation]. rewrite Hb. exact EB.
Qed.

Lemma open_swap_after s h F v k a part z st st' B r j : open_swap s h F v k a part z st ->
  open_swap (advanced h F r (set_io_next j (transferred s z st' B))) h (file_after F r) v k a part z st'.
Proof.
  intros [HF Hd (D&size&Sd&Hn&Hx) Hv]. rewrite advanced_file by done. destruct (file_after_fields F r) as (E1&E2&_). split.
  - apply lookup_insert_eq.
  - by rewrite E1.
  - exists D, size. rewrite E1. split; [by eapply served_devs|]. split; [done|]. eapply ext_kept; [apply Hv|exact Hx|done].
  - apply (vol_stack_frame (transferred s z st' B)); [by eapply vol_stack_transferred|done..].
Qed.

(** A synchronous transfer inside the volume. *)
Lemma sync_device part w k n buf st : vol_ok st part -> 0 <= k -> 0 < n <= MAX_WORD -> k + n <= PartitionSize part ->
  (w = true -> n * SECTOR_SIZE <= Z.of_nat (length buf)) ->
  Storage._IoReadWriteDevice part buf (n * SECTOR_SIZE) (k * SECTOR_SIZE) w false st =
    Ok ((STATUS_SUCCESS, n * SECTOR_SIZE, if w then [] else read_range (vdisk part st) (k * SECTOR_SIZE) (n * SECTOR_SIZE)),
        if w then with_disk (write_range (disk st) (OffsetInDisk part * SECTOR_SIZE + k * SECTOR_SIZE) (take (Z.to_nat (n * SECTOR_SIZE)) buf)) st else st).
Proof.
  intros Hv Hk Hn Hr Hb. unfold Storage._IoReadWriteDevice. rewrite (sectors_aligned part st k n Hv Hk Hn Hr). cbn [negb].
  replace (OffsetInDisk part * SECTOR_SIZE + k * SECTOR_SIZE) with ((k + OffsetInDisk part) * SECTOR_SIZE) by lia.
  assert (AtaReadWriteSectors (k + OffsetInDisk part) n buf false w st =
    Ok ((STATUS_SUCCESS, n, if w then [] else read_range (disk st) ((k + OffsetInDisk part) * SECTOR_SIZE) (n * SECTOR_SIZE)),
        if w then with_disk (write_range (disk st) ((k + OffsetInDisk part) * SECTOR_SIZE) (take (Z.to_nat (n * SECTOR_SIZE)) buf)) st else st)) as E.
  { unfold AtaReadWriteSectors. rewrite (proj2 (Z.eqb_neq 0 n)) by lia. erewrite bind_run by reflexivity. rewrite SUCCEEDED_success. cbn [negb].
    destruct w; [|done]. erewrite bind_run; [|apply lift_run, get_bytes_run; specialize (Hb eq_refl); lia]. done. }
  erewrite bind_run; [|rewrite vol_dispatch_run by done; rewrite (bind_run _ _ _ _ _ E); reflexivity].
  cbn [io_Status io_Information io_Data]. unfold ret. destruct w; [done|]. rewrite <- vol_range. do 4 f_equal. lia.
Qed.

Definition page_of (part : PARTITION_INFORMATION) (st : Storage) (i : Z) : list Z := read_range (vdisk part st) (i * PAGE_SIZE) PAGE_SIZE.

Lemma page_request now slack n s h F v k a part z st b bs (w : bool) i : b <> NULL -> open_swap s h F v k a part z st -> quiet s -> vol_ok st part ->
  0 <= i -> (i + 1) * PAGE_SIZE <= PartitionSize part * SECTOR_SIZE -> bufs s !! b = Some (Bytes bs) -> Z.of_nat (length bs) = PAGE_SIZE ->
  let st' := if w then with_disk (write_range (disk st) (OffsetInDisk part * SECTOR_SIZE + i * PAGE_SIZE) bs) st else st in
  let r := mkIOSB STATUS_SUCCESS PAGE_SIZE (if w then [] else page_of part st i) in
  _IoReadWriteFile (dispatch now slack (S (S (S (S n))))) h b PAGE_SIZE (Some (i * PAGE_SIZE)) w s =
    Ok ((STATUS_SUCCESS, Some PAGE_SIZE), advanced h F r (set_io_next (io_next s + 2) (transferred s z st'
      (if w then bufs s else <[b := Bytes (page_of part st i)]> (bufs s))))).
Proof.
  intros Hb0 Hos Hq Hv Hi Hr Hb Hbl st' r. assert (Hps : PAGE_SIZE = 8 * SECTOR_SIZE) by done.
  assert (i * PAGE_SIZE = (i * 8) * SECTOR_SIZE) as Ei by lia. pose proof Hv as (_&Ho&_&Ht&Hl).
  unfold LBA48_MAX_VALUE, SECTOR_SIZE in *.
  unfold r. eapply swap_request; try done.
  - change (offset_of F (Some (i * PAGE_SIZE))) with (i * PAGE_SIZE). change PAGE_SIZE with (2 ^ 12). rewrite IsAddressAligned_pow2, u64_small by (unfold PAGE_SIZE in *; rlia).
    by rewrite Z.mod_mul by lia.
  - change (offset_of F (Some (i * PAGE_SIZE))) with (i * PAGE_SIZE). unfold buffer_of. pose proof (sync_device part w (i * 8) 8 bs st) as E.
    unfold MAX_WORD, SECTOR_SIZE in E. rewrite Hb, Ei, Hps, E; try done; try lia. unfold page_of, st'. by rewrite Hps, <- Ei, take_ge by lia.
  - destruct w; [done|]. assert (length (page_of part st i) = length bs) as El.
    { pose proof (length_read_range (vdisk part st) (i * PAGE_SIZE) PAGE_SIZE). unfold page_of, PAGE_SIZE in *. lia. }
    rewrite (delivered_run _ _ _ _ Hb) by lia. do 3 f_equal. rewrite drop_ge by lia. by rewrite app_nil_r.
Qed.

(** C19: A page written to the swap file is the page read back, whatever was in the swap file; no other page of the swap file and nothing outside its
    volume changes; the packets of both requests, that of the file and the one the swap driver sends to the volume, are freed. *)
Theorem io_swap_write_read now slack n s h F v k a part z st b b' bs bs' i : b <> NULL -> b' <> NULL -> open_swap s h F v k a part z st -> quiet s -> vol_ok st part ->
  0 <= i -> (i + 1) * PAGE_SIZE <= PartitionSize part * SECTOR_SIZE ->
  bufs s !! b = Some (Bytes bs) -> Z.of_nat (length bs) = PAGE_SIZE -> bufs s !! b' = Some (Bytes bs') -> Z.of_nat (length bs') = PAGE_SIZE ->
  exists s1 s2 st1, IoWriteFile (dispatch now slack (S (S (S (S n))))) h PAGE_SIZE (Some (i * PAGE_SIZE)) b s = Ok ((STATUS_SUCCESS, Some PAGE_SIZE), s1) /\
    IoReadFile (dispatch now slack (S (S (S (S n))))) h PAGE_SIZE (Some (i * PAGE_SIZE)) b' s1 = Ok ((STATUS_SUCCESS, Some PAGE_SIZE), s2) /\
    bufs s2 = <[b' := Bytes bs]> (bufs s) /\ irps s2 = irps s /\ devs s2 = devs s /\ exts s2 !! z = Some (AtaExtension st1) /\
    (forall j, j <> i -> page_of part st1 j = page_of part st j) /\
    (forall x, x < OffsetInDisk part * SECTOR_SIZE \/ (OffsetInDisk part + PartitionSize part) * SECTOR_SIZE <= x -> disk st1 x = disk st x).
Proof.
  intros Hb0 Hb0' Hos Hq Hv Hi Hr Hb Hbl Hb' Hbl'. unfold IoWriteFile, IoReadFile.
  pose proof (page_request now slack n s h F v k a part z st b bs true i Hb0 Hos Hq Hv Hi Hr Hb Hbl) as E1. cbv zeta iota in E1.
  set (r1 := mkIOSB STATUS_SUCCESS PAGE_SIZE []) in E1.
  set (st1 := with_disk (write_range (disk st) (OffsetInDisk part * SECTOR_SIZE + i * PAGE_SIZE) bs) st) in E1.
  pose proof (open_swap_after s h F v k a part z st st1 (bufs s) r1 (io_next s + 2) Hos) as Ho1.
  set (s1 := advanced h F r1 (set_io_next (io_next s + 2) (transferred s z st1 (bufs s)))) in *.
  assert (bufs s1 = bufs s /\ irps s1 = irps s /\ devs s1 = devs s) as (B1&I1&D1) by (unfold s1, advanced; by case_match).
  assert (quiet s1) as Hq1 by (apply quiet_advanced, (quiet_later (transferred s z st1 (bufs s)) 2); [by apply quiet_moved|lia]).
  assert (forall x, vdisk part st1 x = write_range (vdisk part st) (i * PAGE_SIZE) bs x) as Hvd.
  { intros x. apply vdisk_write. }
  assert (page_of part st1 i = bs) as Hpg.
  { unfold page_of. rewrite (read_range_ext _ (write_range (vdisk part st) (i * PAGE_SIZE) bs) _ (i * PAGE_SIZE)) by (intros; apply Hvd).
    rewrite <- Hbl. apply read_write_range. }
  pose proof (page_request now slack n s1 h (file_after F r1) v k a part z st1 b' bs' false i Hb0' Ho1 Hq1 Hv Hi Hr ltac:(by rewrite B1) Hbl') as E2.
  cbv zeta iota in E2. rewrite Hpg, B1 in E2. do 2 eexists. exists st1. split; [exact E1|]. split; [exact E2|].
  rewrite advanced_file by apply (os_file _ _ _ _ _ _ _ _ _ Ho1). split_and!; [done|exact I1|exact D1|apply lookup_insert_eq|..].
  - intros j Hj. unfold page_of. rewrite (read_range_ext _ (write_range (vdisk part st) (i * PAGE_SIZE) bs) _ (j * PAGE_SIZE)) by (intros; apply Hvd).
    apply read_write_range_out. rewrite Hbl. unfold PAGE_SIZE. nia.
  - intros x Hx. cbn. apply write_range_out. rewrite Hbl. unfold SECTOR_SIZE, PAGE_SIZE in *. lia.
Qed.

(** * The example system of [IoDrivers] *)
Definition demo_file (h : Z) : FILE_OBJECT := default (mkFileObject NULL false false false NULL [] NULL 0 0) (fobjs demo_opened !! h).
Definition demo_fcb : FCB_INFO := default (mkFcbInfo (mkFCB 0 0) zero_info) (fcbs demo_opened !! 4153).

Lemma demo_open_fat : open_fat demo_opened 4152 (demo_file 4152) demo_fcb demo_fat 4110 4104 4097 demo_vol 4098 (demo_storage_of demo_opened 4098).
Proof.
  split; [vm_compute; reflexivity|vm_compute; congruence|split; [vm_compute; congruence|vm_compute; reflexivity]| |apply demo_fat_stack].
  exists (demo_device demo_opened 4125). split; [demo_serve|]. split; [vm_compute; split; congruence|vm_compute; reflexivity].
Qed.

Lemma demo_fat_chain : fat_chain demo_fat demo_vol (demo_storage_of demo_opened 4098) demo_fcb [5; 9] 2 0.
Proof.
  split; [apply demo_layout|apply demo_in_volume| | |vm_compute; reflexivity| |vm_compute; reflexivity].
  - split; [split_and!; vm_compute; congruence|split; vm_compute; reflexivity].
  - split; [done|]. split; [repeat constructor; unfold valid; cbn; lia|].
    intros [|[|i]] c H; [..|by destruct i]; injection H as <-; vm_compute; reflexivity.
  - split; [unfold valid; cbn; lia|]. split; [rewrite !not_elem_of_cons; split_and!; [lia..|apply not_elem_of_nil]|].
    split; [cbn; lia|]. split; [vm_compute; reflexivity|]. intros j Hj. lia.
Qed.

Lemma open_fat_buffers s h F c FD v k a part z st B : open_fat s h F c FD v k a part z st -> open_fat (set_bufs B s) h F c FD v k a part z st.
Proof. intros [? ? ? (D&?&?) ?]. split; try done; [|by eapply vol_stack_frame]. exists D. split; [by eapply served_devs|done]. Qed.
Lemma quiet_buffers s B : quiet s -> quiet (set_bufs B s).
Proof. by intros [? ? ?]. Qed.


Lemma demo_open_swap : open_swap demo_opened 4150 (demo_file 4150) 4113 4104 4097 (mkPART 150000 1000 0x82 false) 4098 (demo_storage_of demo_opened 4098).
Proof.
  split; [vm_compute; reflexivity|vm_compute; congruence| |].
  - exists (demo_device demo_opened 4138), 512000. split; [demo_serve|]. split; [vm_compute; split; congruence|vm_compute; reflexivity].
  - split; [|apply demo_storage_in; vm_compute; reflexivity].
    eexists (demo_device demo_opened 4113), (demo_device demo_opened 4104), (demo_device demo_opened 4097), 200000, _.
    split; [demo_serve|]. split; [vm_compute; split; congruence|]. split; [vm_compute; reflexivity|]. split; [demo_serve|].
    split; [vm_compute; reflexivity|]. split; [demo_serve|]. split_and!; [vm_compute; reflexivity|lia..].
Qed.

(** The last page of the swap file, whose partition is 1000 sectors long. *)
Lemma io_swap_write_read_witness : exists s1 s2,
  IoWriteFile (dispatch demo_now 1 STACK_DEPTH) (SwapFile demo_opened) PAGE_SIZE (Some (124 * PAGE_SIZE)) 1 demo_opened = Ok ((STATUS_SUCCESS, Some PAGE_SIZE), s1) /\
  IoReadFile (dispatch demo_now 1 STACK_DEPTH) (SwapFile demo_opened) PAGE_SIZE (Some (124 * PAGE_SIZE)) 2 s1 = Ok ((STATUS_SUCCESS, Some PAGE_SIZE), s2) /\
  bufs s2 !! 2 = Some (Bytes (replicate 4096 7)).
Proof.
  assert (SwapFile demo_opened = 4150) as -> by (vm_compute; reflexivity).
  destruct (io_swap_write_read demo_now 1 0 demo_opened 4150 (demo_file 4150) 4113 4104 4097 (mkPART 150000 1000 0x82 false) 4098
    (demo_storage_of demo_opened 4098) 1 2 (replicate 4096 7) (replicate 4096 0) 124) as (s1&s2&st1&E1&E2&B&_);
    [done|done|apply demo_open_swap|apply demo_quiet|split_and!; vm_compute; congruence|lia|cbn; unfold PAGE_SIZE, SECTOR_SIZE; lia
    |vm_compute; reflexivity|by rewrite length_replicate|vm_compute; reflexivity|by rewrite length_replicate|].
  change STACK_DEPTH with 4%nat. exists s1, s2. split; [exact E1|]. split; [exact E2|]. rewrite B. apply lookup_insert_eq.
Defined.


(** The status with which a run ends. *)
Definition status_of {A} (r : outcome (Z * A)) : outcome Z := match r with Ok (st, _) => Ok st | Err e => Err e end.
