(* ===== verification/Threads.v ===== *)
(** HAL9000/src/thread.c: threads, the round-robin scheduler and the blocking
    protocol, on any number of processors.

    The code is cut at the acquisitions and releases of ReadyThreadsLock and of the
    threads' BlockLocks; a LOCK is represented by the processor that holds it (its
    exclusion is proved in [Spinlock]).  The lists are sequences (list.c is proved to
    implement them in [DList]).  What a thread executes besides thread.c is its
    client code: a step function [cstep] over client positions [K] and client
    data [G], whose steps may call into thread.c.  Code that holds one of the locks runs
    with interrupts off; the interrupt flag is kept in the positions of client code, where it
    can be on. *)
From stdpp Require Import functions.
From S2P Require Import Prelude IntUtils.

Inductive THREAD_STATE : Set :=
| ThreadStateRunning | ThreadStateReady | ThreadStateBlocked | ThreadStateDying.
#[global] Instance THREAD_STATE_eq_dec : EqDecision THREAD_STATE.
Proof. solve_decision. Defined.

Definition THREAD_TIME_SLICE : Z := 1.
Definition THREAD_FLAG_FORCE_TERMINATE_PENDING : Z := 0x1.
Definition THREAD_FLAG_FORCE_TERMINATED : Z := 0x2.
Definition STATUS_JOB_INTERRUPTED : Z := error_status GENERAL_MASK 0x0022.

(** THREADING_DATA of a PCPU. *)
Record PCPU := mkPCPU {
  CurrentThread : nat; IdleThread : nat; PreviousThread : option nat;
  RunningThreadTicks : Z; YieldOnInterruptReturn : bool; IdleTicks : Z; KernelTicks : Z }.

Definition set_Current (t : nat) (p : PCPU) : PCPU :=
  mkPCPU t (IdleThread p) (PreviousThread p) (RunningThreadTicks p) (YieldOnInterruptReturn p)
    (IdleTicks p) (KernelTicks p).
Definition set_Previous (o : option nat) (p : PCPU) : PCPU :=
  mkPCPU (CurrentThread p) (IdleThread p) o (RunningThreadTicks p) (YieldOnInterruptReturn p)
    (IdleTicks p) (KernelTicks p).
Definition set_RunningTicks (n : Z) (p : PCPU) : PCPU :=
  mkPCPU (CurrentThread p) (IdleThread p) (PreviousThread p) n (YieldOnInterruptReturn p)
    (IdleTicks p) (KernelTicks p).
Definition set_YieldOnReturn (b : bool) (p : PCPU) : PCPU :=
  mkPCPU (CurrentThread p) (IdleThread p) (PreviousThread p) (RunningThreadTicks p) b
    (IdleTicks p) (KernelTicks p).
Definition tick_counts (idle : bool) (p : PCPU) : PCPU :=
  mkPCPU (CurrentThread p) (IdleThread p) (PreviousThread p) (RunningThreadTicks p)
    (YieldOnInterruptReturn p)
    (if idle then u64 (IdleTicks p + 1) else IdleTicks p)
    (if idle then KernelTicks p else u64 (KernelTicks p + 1)).

(** LockAcquire by processor [c] of a lock held by [l]: the lock afterwards, or
    [None] while it is taken by another processor. *)
Definition lock_acquire (c : nat) (l : option nat) : outcome (option (option nat)) :=
  _ ← assert_ (negb (bool_decide (l = Some c)));
  Ok (if l is None then Some (Some c) else None).
Definition LockIsOwner (c : nat) (l : option nat) : bool := bool_decide (l = Some c).
Definition lock_release (c : nat) (l : option nat) : outcome (option nat) :=
  _ ← assert_ (LockIsOwner c l); Ok None.

Section Threads.
Context {K G Choice : Type}.

(** * Positions *)

(** What a thread does when thread.c returns to it: client code, or the loop of
    _IdleThread (at its top, or at __sti_and_hlt). *)
Inductive cont := Client (k : K) | IdleTop | IdleHlt.

(** Where _ThreadSchedule returns to: ThreadYield with the interrupt state to restore,
    ThreadBlock, the start of a new thread (ThreadStart, iretq), or nowhere (ThreadExit). *)
Inductive sched_ret := RetYield (old : bool) | RetBlock | RetStart | RetExit.

Inductive tpc :=
| Run (holding intr : bool) (k : cont)      (* client code; holding: it took its BlockLock *)
| TakeLock (k : cont)                       (* ThreadTakeBlockLock *)
| YieldAcquire (old forced : bool) (k : cont)
| YieldInsert (old forced : bool) (k : cont)
| BlockAcquire (k : cont)
| ExitAcquire
| Schedule (r : sched_ret) (k : cont)       (* _ThreadSchedule *)
| Cleanup (r : sched_ret) (k : cont)        (* switched out, or at ThreadCleanupPostSchedule *)
| CleanupPrev (prev : option nat) (r : sched_ret) (k : cont)  (* ReadyThreadsLock released *)
| UnblockLock (t : nat) (old : bool) (k : cont)
| UnblockAssert (t : nat) (old : bool) (k : cont)
| UnblockInsert (t : nat) (old : bool) (k : cont)
| UnblockRelease (t : nat) (old : bool) (k : cont)
| UnblockDone (t : nat) (old : bool) (k : cont).

Record THREAD := mkTHREAD {
  State : THREAD_STATE; BlockLock : option nat; Flags : Z;
  TickCountCompleted : Z; UninterruptedTicks : Z; TickCountEarly : Z;
  ExitStatus : Z; RefCnt : Z; t_alive : bool; t_pc : tpc }.

Definition set_pc (pc : tpc) (t : THREAD) : THREAD :=
  mkTHREAD (State t) (BlockLock t) (Flags t) (TickCountCompleted t) (UninterruptedTicks t)
    (TickCountEarly t) (ExitStatus t) (RefCnt t) (t_alive t) pc.
Definition set_State (st : THREAD_STATE) (t : THREAD) : THREAD :=
  mkTHREAD st (BlockLock t) (Flags t) (TickCountCompleted t) (UninterruptedTicks t)
    (TickCountEarly t) (ExitStatus t) (RefCnt t) (t_alive t) (t_pc t).
Definition set_BlockLock (l : option nat) (t : THREAD) : THREAD :=
  mkTHREAD (State t) l (Flags t) (TickCountCompleted t) (UninterruptedTicks t)
    (TickCountEarly t) (ExitStatus t) (RefCnt t) (t_alive t) (t_pc t).
Definition set_Flags (z : Z) (t : THREAD) : THREAD :=
  mkTHREAD (State t) (BlockLock t) z (TickCountCompleted t) (UninterruptedTicks t)
    (TickCountEarly t) (ExitStatus t) (RefCnt t) (t_alive t) (t_pc t).
Definition set_ticks (completed uninterrupted early : Z) (t : THREAD) : THREAD :=
  mkTHREAD (State t) (BlockLock t) (Flags t) completed uninterrupted early
    (ExitStatus t) (RefCnt t) (t_alive t) (t_pc t).
Definition tick_completed (t : THREAD) : THREAD :=
  set_ticks (u64 (TickCountCompleted t + 1)) (UninterruptedTicks t) (TickCountEarly t) t.
Definition tick_early (t : THREAD) : THREAD :=
  set_ticks (TickCountCompleted t) (UninterruptedTicks t) (u64 (TickCountEarly t + 1)) t.
Definition set_uninterrupted (n : Z) (t : THREAD) : THREAD :=
  set_ticks (TickCountCompleted t) n (TickCountEarly t) t.
Definition set_ExitStatus (z : Z) (t : THREAD) : THREAD :=
  mkTHREAD (State t) (BlockLock t) (Flags t) (TickCountCompleted t) (UninterruptedTicks t)
    (TickCountEarly t) z (RefCnt t) (t_alive t) (t_pc t).
Definition set_RefCnt (n : Z) (alive : bool) (t : THREAD) : THREAD :=
  mkTHREAD (State t) (BlockLock t) (Flags t) (TickCountCompleted t) (UninterruptedTicks t)
    (TickCountEarly t) (ExitStatus t) n alive (t_pc t).

(** The processors, the threads, m_threadSystemData's ready list and its lock, and the
    clients' data. *)
Record kst := mkKst {
  cpu : nat -> PCPU; thr : nat -> THREAD;
  ReadyThreadsList : list nat; ReadyThreadsLock : option nat; glob : G }.

Definition upd_cpu (c : nat) (f : PCPU -> PCPU) (s : kst) : kst :=
  mkKst (<[c := f (cpu s c)]> (cpu s)) (thr s) (ReadyThreadsList s) (ReadyThreadsLock s) (glob s).
Definition upd (t : nat) (f : THREAD -> THREAD) (s : kst) : kst :=
  mkKst (cpu s) (<[t := f (thr s t)]> (thr s)) (ReadyThreadsList s) (ReadyThreadsLock s) (glob s).
Definition set_ready (l : list nat) (s : kst) : kst :=
  mkKst (cpu s) (thr s) l (ReadyThreadsLock s) (glob s).
Definition set_ready_lock (o : option nat) (s : kst) : kst :=
  mkKst (cpu s) (thr s) (ReadyThreadsList s) o (glob s).
Definition set_glob (g : G) (s : kst) : kst :=
  mkKst (cpu s) (thr s) (ReadyThreadsList s) (ReadyThreadsLock s) g.
Definition cur (s : kst) (c : nat) : nat := CurrentThread (cpu s c).
Definition goto (t : nat) (pc : tpc) (s : kst) : kst := upd t (set_pc pc) s.

(** * Client code *)
Inductive action :=
| Continue (intr : bool) (k : K)
| CallTakeBlockLock (k : K)
| CallBlock (k : K)
| CallUnblock (t : nat) (k : K)
| CallYield (k : K)
| CallTerminate (t : nat) (k : K)
| CallExit (status : Z) (k : K)    (* k: the rest of ThreadExit before its LockAcquire *)
| CallExitSchedule.

(** One access of thread [self]'s client code, with the interrupt flag at that point. *)
Context (cstep : nat -> Choice -> bool -> K -> G -> outcome (action * G)).
(** Where ThreadExit signals TerminationEvt when thread.c itself makes a thread exit. *)
Context (exit_code : K).

(** * thread.c *)

(** SetCurrentThread: the processor's current thread (the stack and TSS fields are not kept). *)
Definition SetCurrentThread (c t : nat) (s : kst) : kst := upd_cpu c (set_Current t) s.

Definition ThreadTick (c : nat) (s : kst) : kst :=
  let t := cur s c in
  let s := upd t tick_completed s in
  upd_cpu c (fun p =>
    let p := tick_counts (bool_decide (IdleThread p = t)) p in
    let p := set_RunningTicks (u32 (RunningThreadTicks p + 1)) p in
    if THREAD_TIME_SLICE <=? RunningThreadTicks p then set_YieldOnReturn true p else p) s.

Definition ThreadYieldOnInterrupt (c : nat) (s : kst) : bool := YieldOnInterruptReturn (cpu s c).

(** ThreadExit up to the signal of TerminationEvt, which is client code. *)
Definition ThreadExit (c t : nat) (ExitStatus_ : Z) (k : K) (s : kst) : outcome kst :=
  Ok (upd t (fun th =>
        let th := if LockIsOwner c (BlockLock th) then set_BlockLock None th else th in
        set_pc (Run false false (Client k)) (set_ExitStatus ExitStatus_ (set_State ThreadStateDying th))) s).

Definition _ThreadForcedExit (c t : nat) (s : kst) : outcome kst :=
  ThreadExit c t STATUS_JOB_INTERRUPTED exit_code
    (upd t (fun th => set_Flags (Z.lor (Flags th) THREAD_FLAG_FORCE_TERMINATED) th) s).

Definition terminate_pending (th : THREAD) : bool :=
  THREAD_FLAG_FORCE_TERMINATE_PENDING =? Z.land (Flags th) MAX_DWORD.

(** ThreadYield up to its LockAcquire; [old] is the interrupt state at the return. *)
Definition ThreadYield (c t : nat) (old : bool) (k : cont) (s : kst) : outcome kst :=
  let bForcedYield := YieldOnInterruptReturn (cpu s c) in
  let s := upd_cpu c (set_YieldOnReturn false) s in
  if terminate_pending (thr s t) then _ThreadForcedExit c t s
  else Ok (goto t (YieldAcquire old bForcedYield k) s).

(** ThreadYield with ReadyThreadsLock held, up to _ThreadSchedule. *)
Definition ThreadYield_locked (c t : nat) (old forced : bool) (k : cont) (s : kst) : kst :=
  let s := if bool_decide (t = IdleThread (cpu s c)) then s
           else set_ready (ReadyThreadsList s ++ [t]) s in
  upd t (fun th => set_pc (Schedule (RetYield old) k)
           (set_State ThreadStateReady (if negb forced then tick_early th else th))) s.

(** ThreadBlock up to its LockAcquire. *)
Definition ThreadBlock (c t : nat) (intr : bool) (k : cont) (s : kst) : outcome kst :=
  _ ← assert_ (negb intr);
  _ ← assert_ (LockIsOwner c (BlockLock (thr s t)));
  if terminate_pending (thr s t) then _ThreadForcedExit c t s else
  Ok (upd t (fun th => set_pc (BlockAcquire k) (set_State ThreadStateBlocked (tick_early th))) s).

Definition ThreadTerminate (t : nat) (s : kst) : kst :=
  upd t (fun th => set_Flags (Z.lor (Flags th) THREAD_FLAG_FORCE_TERMINATE_PENDING) th) s.

(** RemoveHeadList on the ready list, or the idle thread. *)
Definition _ThreadGetReadyThread (c : nat) (s : kst) : outcome (nat * kst) :=
  _ ← assert_ (LockIsOwner c (ReadyThreadsLock s));
  match ReadyThreadsList s with
  | [] => Ok (IdleThread (cpu s c), s)
  | t :: rest =>
      let s := set_ready rest s in
      _ ← assert_ (bool_decide (State (thr s t) = ThreadStateReady));
      Ok (t, s)
  end.

(** _ThreadSchedule up to ThreadCleanupPostSchedule: a switched-out thread continues
    there when it is scheduled again. *)
Definition _ThreadSchedule (c t : nat) (r : sched_ret) (k : cont) (s : kst) : outcome kst :=
  _ ← assert_ (LockIsOwner c (ReadyThreadsLock s));
  let s := upd_cpu c (set_Previous (Some t)) s in
  '(pNextThread, s) ← _ThreadGetReadyThread c s;
  if bool_decide (pNextThread <> t) then
    let s := upd t (fun th => set_pc (Cleanup r k) (set_uninterrupted 0 th)) s in
    Ok (SetCurrentThread c pNextThread s)
  else
    Ok (upd t (fun th => set_pc (Cleanup r k) (set_uninterrupted (u64 (UninterruptedTicks th + 1)) th)) s).

(** RfcDereference of a thread, whose free function is _ThreadDestroy. *)
Definition _ThreadDereference (t : nat) (s : kst) : outcome kst :=
  let newRefCount := u32 (RefCnt (thr s t) - 1) in
  _ ← assert_ (negb (MAX_DWORD =? newRefCount));
  Ok (upd t (set_RefCnt newRefCount (t_alive (thr s t) && negb (0 =? newRefCount))) s).

(** ThreadCleanupPostSchedule: first the release of ReadyThreadsLock ... *)
Definition ThreadCleanupPostSchedule (c t : nat) (r : sched_ret) (k : cont) (s : kst) : outcome kst :=
  let s := upd_cpu c (set_RunningTicks 0) s in
  let prevThread := PreviousThread (cpu s c) in
  l ← lock_release c (ReadyThreadsLock s);
  Ok (goto t (CleanupPrev prevThread r k) (set_ready_lock l s)).

(** ... then the previous thread, and the return to the caller of _ThreadSchedule. *)
Definition ThreadCleanupPrevious (c : nat) (prev : option nat) (s : kst) : outcome kst :=
  match prev with
  | None => Ok s
  | Some p =>
      if negb (t_alive (thr s p)) then Err MemFault else
      if LockIsOwner c (BlockLock (thr s p)) then
        _ ← assert_ (bool_decide (State (thr s p) = ThreadStateBlocked) ||
                     bool_decide (p = IdleThread (cpu s c)));
        l ← lock_release c (BlockLock (thr s p));
        Ok (upd p (set_BlockLock l) s)
      else if bool_decide (State (thr s p) = ThreadStateDying) then
        s ← _ThreadDereference p s;
        Ok (upd_cpu c (set_Previous None) s)
      else Ok s
  end.

Definition sched_return (c t : nat) (r : sched_ret) (k : cont) (s : kst) : outcome kst :=
  match r with
  | RetYield old => _ ← assert_ (negb (LockIsOwner c (ReadyThreadsLock s)));
      Ok (goto t (Run false old k) s)
  | RetBlock => _ ← assert_ (negb (LockIsOwner c (ReadyThreadsLock s)));
      Ok (goto t (Run false false k) s)
  | RetStart => Ok (goto t (Run false true k) s)
  | RetExit => Err AssertFailed (* NOT_REACHED *)
  end.

Definition do_action (c t : nat) (holding intr : bool) (a : action) (s : kst) : outcome kst :=
  match a with
  | Continue i k => Ok (goto t (Run holding i (Client k)) s)
  | CallTakeBlockLock k => Ok (goto t (TakeLock (Client k)) s)
  | CallBlock k => ThreadBlock c t intr (Client k) s
  | CallUnblock u k => Ok (goto t (UnblockLock u intr (Client k)) s)
  | CallYield k => ThreadYield c t intr (Client k) s
  | CallTerminate u k => Ok (goto t (Run holding intr (Client k)) (ThreadTerminate u s))
  | CallExit st k => ThreadExit c t st k s
  | CallExitSchedule => Ok (goto t ExitAcquire s)
  end.

Inductive kchoice := ClientStep (x : Choice) | Interrupt.

(** An interrupt of the timer: ExSystemTimerTick, then the yield at the end of the
    interrupt; iretq turns interrupts on again. *)
Definition timer_interrupt (c t : nat) (h : bool) (k : cont) (s : kst) : outcome kst :=
  let s := ThreadTick c s in
  let k := if k is IdleHlt then IdleTop else k in
  if ThreadYieldOnInterrupt c s then ThreadYield c t true k s else Ok (goto t (Run h true k) s).

Definition idle_step (c t : nat) (h i : bool) (k : cont) (s : kst) : outcome kst :=
  match k with
  | IdleTop => if h then ThreadBlock c t i IdleHlt s else Ok (goto t (TakeLock IdleTop) s)
  | _ => Ok (goto t (Run false true (if i then IdleTop else IdleHlt)) s)
  end.

(** The next step of processor [c]. *)
Definition kstep (c : nat) (ch : kchoice) (s : kst) : outcome kst :=
  let t := cur s c in
  match t_pc (thr s t) with
  | Run h i k =>
      match ch, k with
      | Interrupt, _ => if i then timer_interrupt c t h k s else Ok s
      | ClientStep x, Client k' => '(a, g) ← cstep t x i k' (glob s); do_action c t h i a (set_glob g s)
      | ClientStep _, _ => idle_step c t h i k s
      end
  | TakeLock k =>
      o ← lock_acquire c (BlockLock (thr s t));
      Ok (if o is Some l then goto t (Run true false k) (upd t (set_BlockLock l) s) else s)
  | YieldAcquire old forced k =>
      o ← lock_acquire c (ReadyThreadsLock s);
      Ok (if o is Some l then goto t (YieldInsert old forced k) (set_ready_lock l s) else s)
  | YieldInsert old forced k => Ok (ThreadYield_locked c t old forced k s)
  | BlockAcquire k =>
      o ← lock_acquire c (ReadyThreadsLock s);
      Ok (if o is Some l then goto t (Schedule RetBlock k) (set_ready_lock l s) else s)
  | ExitAcquire =>
      o ← lock_acquire c (ReadyThreadsLock s);
      Ok (if o is Some l then goto t (Schedule RetExit IdleTop) (set_ready_lock l s) else s)
  | Schedule r k => _ThreadSchedule c t r k s
  | Cleanup r k => ThreadCleanupPostSchedule c t r k s
  | CleanupPrev prev r k => s ← ThreadCleanupPrevious c prev s; sched_return c t r k s
  | UnblockLock u old k =>
      o ← lock_acquire c (BlockLock (thr s u));
      Ok (if o is Some l then goto t (UnblockAssert u old k) (upd u (set_BlockLock l) s) else s)
  | UnblockAssert u old k =>
      _ ← assert_ (bool_decide (State (thr s u) = ThreadStateBlocked));
      o ← lock_acquire c (ReadyThreadsLock s);
      Ok (if o is Some l then goto t (UnblockInsert u old k) (set_ready_lock l s) else s)
  | UnblockInsert u old k =>
      let s := set_ready (ReadyThreadsList s ++ [u]) s in
      Ok (goto t (UnblockRelease u old k) (upd u (set_State ThreadStateReady) s))
  | UnblockRelease u old k =>
      l ← lock_release c (ReadyThreadsLock s);
      Ok (goto t (UnblockDone u old k) (set_ready_lock l s))
  | UnblockDone u old k =>
      l ← lock_release c (BlockLock (thr s u));
      Ok (goto t (Run false old k) (upd u (set_BlockLock l) s))
  end.

(** [m] processors: the next step of one of them. *)
Inductive kreach (m : nat) (s0 : kst) : kst -> Prop :=
| kreach_refl : kreach m s0 s0
| kreach_step s s' c ch : kreach m s0 s -> (c < m)%nat -> kstep c ch s = Ok s' -> kreach m s0 s'.

(** A concrete schedule: the processors that step, with their choices. *)
Fixpoint krun (sched : list (nat * kchoice)) (s : kst) : outcome kst :=
  match sched with
  | [] => Ok s
  | (c, ch) :: rest => s ← kstep c ch s; krun rest s
  end.

Lemma krun_reach m s0 sched : forall s s', kreach m s0 s -> Forall (fun x => (x.1 < m)%nat) sched ->
  krun sched s = Ok s' -> kreach m s0 s'.
Proof.
  induction sched as [|[c ch] rest IH]; intros s s' Hr Hm E; simpl in E; [by simplify_eq|].
  apply Forall_cons in Hm as [Hc Hm]. destruct (kstep c ch s) as [s1|] eqn:E1; [|done]. simpl in *.
  eapply IH; [|done|exact E]. by eapply kreach_step.
Qed.

(** ** The ready list is a queue *)

(** The threads a step appends to the ready list and the one it takes from it. *)
Definition enqueues (c : nat) (s : kst) : list nat :=
  let t := cur s c in
  match t_pc (thr s t) with
  | YieldInsert _ _ _ => if bool_decide (t = IdleThread (cpu s c)) then [] else [t]
  | UnblockInsert u _ _ => [u]
  | _ => []
  end.
Definition dequeues (c : nat) (s : kst) : list nat :=
  match t_pc (thr s (cur s c)), ReadyThreadsList s with
  | Schedule _ _, t :: _ => [t]
  | _, _ => []
  end.

Fixpoint enqueued (sched : list (nat * kchoice)) (s : kst) : list nat :=
  match sched with
  | [] => []
  | (c, ch) :: rest => enqueues c s ++ (if kstep c ch s is Ok s' then enqueued rest s' else [])
  end.
Fixpoint dispatched (sched : list (nat * kchoice)) (s : kst) : list nat :=
  match sched with
  | [] => []
  | (c, ch) :: rest => dequeues c s ++ (if kstep c ch s is Ok s' then dispatched rest s' else [])
  end.

Lemma action_list c t h i a s s' : do_action c t h i a s = Ok s' -> ReadyThreadsList s' = ReadyThreadsList s.
Proof.
  destruct a; simpl; unfold ThreadBlock, ThreadYield, _ThreadForcedExit, ThreadExit, assert_; intros E;
    repeat case_match; by simplify_eq/=.
Qed.

Lemma kstep_list c ch s s' : kstep c ch s = Ok s' ->
  ReadyThreadsList s ++ enqueues c s = dequeues c s ++ ReadyThreadsList s'.
Proof.
  unfold kstep, enqueues, dequeues. destruct (t_pc (thr s (cur s c))) eqn:Hpc; intros E.
  - assert (El : ReadyThreadsList s' = ReadyThreadsList s).
    { destruct ch as [x|].
      - destruct k as [k| |]; [|unfold idle_step, ThreadBlock, _ThreadForcedExit, ThreadExit, assert_ in E;
          repeat case_match; by simplify_eq/=..].
        destruct (cstep (cur s c) x intr k (glob s)) as [[a g]|]; [|done]. simpl in E. by apply action_list in E.
      - unfold timer_interrupt, ThreadYield, _ThreadForcedExit, ThreadExit in E. repeat case_match; by simplify_eq/=. }
    rewrite El. by destruct (ReadyThreadsList s); rewrite app_nil_r.
  - unfold lock_acquire, assert_ in E. repeat case_match; simplify_eq/=; by rewrite ?app_nil_r.
  - unfold lock_acquire, assert_ in E. repeat case_match; simplify_eq/=; by rewrite ?app_nil_r.
  - simplify_eq/=. unfold ThreadYield_locked. destruct (bool_decide (cur s c = IdleThread (cpu s c))); simpl;
      [rewrite app_nil_r|]; by destruct (ReadyThreadsList s).
  - unfold lock_acquire, assert_ in E. repeat case_match; simplify_eq/=; by rewrite ?app_nil_r.
  - unfold lock_acquire, assert_ in E. repeat case_match; simplify_eq/=; by rewrite ?app_nil_r.
  - unfold _ThreadSchedule, _ThreadGetReadyThread, assert_ in E. simpl in E.
    destruct (ReadyThreadsList s) as [|t rest] eqn:El; repeat case_match; simplify_eq/=;
      rewrite ?app_nil_r; try done;
      match type of E with (if ?b then _ else _) = _ => destruct b end; simplify_eq/=; by rewrite ?El.
  - unfold ThreadCleanupPostSchedule, lock_release, assert_ in E. repeat case_match; simplify_eq/=; by rewrite ?app_nil_r.
  - unfold ThreadCleanupPrevious, sched_return, _ThreadDereference, lock_release, assert_, mbind, outcome_bind in E.
    repeat case_match; simplify_eq/=; by rewrite ?app_nil_r.
  - unfold lock_acquire, assert_ in E. repeat case_match; simplify_eq/=; by rewrite ?app_nil_r.
  - unfold lock_acquire, assert_ in E. repeat case_match; simplify_eq/=; by rewrite ?app_nil_r.
  - simplify_eq/=. by destruct (ReadyThreadsList s).
  - unfold lock_release, assert_ in E. repeat case_match; simplify_eq/=; by rewrite ?app_nil_r.
  - unfold lock_release, assert_ in E. repeat case_match; simplify_eq/=; by rewrite ?app_nil_r.
Qed.

(** Client data changes in client steps only. *)
Lemma action_glob c t h i a s s' : do_action c t h i a s = Ok s' -> glob s' = glob s.
Proof.
  destruct a; simpl; unfold ThreadBlock, ThreadYield, _ThreadForcedExit, ThreadExit, assert_; intros E;
    repeat case_match; by simplify_eq/=.
Qed.

Lemma kstep_glob c ch s s' : kstep c ch s = Ok s' ->
  glob s' = glob s \/
  exists x h i k act, t_pc (thr s (cur s c)) = Run h i (Client k) /\
    cstep (cur s c) x i k (glob s) = Ok (act, glob s').
Proof.
  unfold kstep. destruct (t_pc (thr s (cur s c))) eqn:Hpc; intros E;
    try (left; unfold lock_acquire, lock_release, _ThreadSchedule, _ThreadGetReadyThread, ThreadCleanupPostSchedule,
      ThreadCleanupPrevious, sched_return, _ThreadDereference, ThreadYield_locked, lock_release, assert_, mbind, outcome_bind in E;
      simpl in E; repeat case_match; simplify_eq/=; done).
  destruct ch as [x|].
  - destruct k as [k| |]; [|left; unfold idle_step, ThreadBlock, _ThreadForcedExit, ThreadExit, assert_ in E;
      repeat case_match; by simplify_eq/=..].
    destruct (cstep (cur s c) x intr k (glob s)) as [[a g]|] eqn:Ec; [|done]. simpl in E. apply action_glob in E. simpl in E.
    right. exists x, holding, intr, k, a. by rewrite E.
  - left. unfold timer_interrupt, ThreadYield, _ThreadForcedExit, ThreadExit in E. repeat case_match; by simplify_eq/=.
Qed.

(** Threads are dispatched from the ready list in the order in which they became ready:
    along every run of the processors, the threads that were ready at the start followed by those that
    yielded or were unblocked are the dispatched ones followed by those that are still ready, so a
    ready thread is dispatched after at most as many others as are before it. *)
Theorem ready_list_fifo sched s s' : krun sched s = Ok s' ->
  ReadyThreadsList s ++ enqueued sched s = dispatched sched s ++ ReadyThreadsList s'.
Proof.
  revert s. induction sched as [|[c ch] rest IH]; intros s E; simpl in *; [by simplify_eq; rewrite app_nil_r|].
  destruct (kstep c ch s) as [s1|] eqn:E1; [|done]. simpl in E. rewrite app_assoc, (kstep_list c ch s s1 E1).
  rewrite <- !app_assoc. f_equal. by apply IH.
Qed.
End Threads.

Arguments cont : clear implicits.
Arguments tpc : clear implicits.
Arguments THREAD : clear implicits.
Arguments kst : clear implicits.
Arguments action : clear implicits.
Arguments kchoice : clear implicits.
