(* ===== verification/ThreadsSpec.v ===== *)
(** What thread.c promises to the code that blocks and unblocks threads, and the
    proof that the scheduler keeps the promise.

    The specification is a machine without processors, ready list and locks: a
    thread runs its client code, or is parked by ThreadBlock until another
    thread's ThreadUnblock makes it run again.  [BlockingClient] states the rules a client of thread.c
    follows; for every such client the scheduler on any number of processors simulates the
    specification and fails no assertion. *)
From stdpp Require Import functions.
From S2P Require Import Prelude Threads.

(** * The specification *)
Section Spec.
Context {K G Choice : Type} (cstep : nat -> Choice -> bool -> K -> G -> outcome (action K * G)).
(** The client threads are 0 ... n-1. *)
Context (n : nat).

Inductive astat :=
| ARun (holding intr : bool) (k : K)     (* in its code; holding: after ThreadTakeBlockLock *)
| ATake (k : K)                          (* in ThreadTakeBlockLock *)
| APark (k : K)                          (* in ThreadBlock *)
| AUnblock (t : nat) (intr : bool) (k : K).  (* in ThreadUnblock(t) *)

Record ast := mkAst { a_thr : nat -> astat; a_glob : G }.

(** The rules for calls: ThreadBlock is called with the own BlockLock taken and
    interrupts off, nothing else is called and interrupts stay off in between, and no
    thread exits or is terminated. *)
Definition act_status (holding intr : bool) (a : action K) : option astat :=
  match a with
  | Continue i k => if holding && i then None else Some (ARun holding i k)
  | CallTakeBlockLock k => if holding then None else Some (ATake k)
  | CallBlock k => if holding && negb intr then Some (APark k) else None
  | CallUnblock t k => if holding then None else Some (AUnblock t intr k)
  | CallYield k => if holding then None else Some (ARun holding intr k)
  | CallTerminate _ _ | CallExit _ _ | CallExitSchedule => None
  end.

Inductive astep (a : ast) : ast -> Prop :=
| as_client t x h i k act g' st :
    (t < n)%nat -> a_thr a t = ARun h i k -> cstep t x i k (a_glob a) = Ok (act, g') ->
    act_status h i act = Some st -> astep a (mkAst (<[t := st]> (a_thr a)) g')
| as_take t k : (t < n)%nat -> a_thr a t = ATake k ->
    astep a (mkAst (<[t := ARun true false k]> (a_thr a)) (a_glob a))
| as_unblock u t i k k' : (u < n)%nat -> (t < n)%nat ->
    a_thr a u = AUnblock t i k -> a_thr a t = APark k' ->
    astep a (mkAst (<[t := ARun false false k']> (<[u := ARun false i k]> (a_thr a))) (a_glob a)).

Inductive areach (a0 : ast) : ast -> Prop :=
| areach_refl : areach a0 a0
| areach_step a a' : areach a0 a -> astep a a' -> areach a0 a'.

(** A thread that took its BlockLock or is parked: it can be unblocked. *)
Definition committed (st : astat) : Prop :=
  match st with ARun true _ _ | APark _ => True | _ => False end.

(** The client's side of the contract: its code does not fail and follows the call
    rules, and a thread is unblocked by one thread at a time, once it is committed
    to block. *)
Class BlockingClient (a0 : ast) : Prop := {
  bc_legal a t x h i k : areach a0 a -> (t < n)%nat -> a_thr a t = ARun h i k ->
    exists act g', cstep t x i k (a_glob a) = Ok (act, g') /\ is_Some (act_status h i act);
  bc_target a u t i k : areach a0 a -> (u < n)%nat -> a_thr a u = AUnblock t i k ->
    (t < n)%nat /\ t <> u /\ committed (a_thr a t);
  bc_unique a u u' t i k i' k' : areach a0 a -> (u < n)%nat -> (u' < n)%nat ->
    a_thr a u = AUnblock t i k -> a_thr a u' = AUnblock t i' k' -> u = u' }.
End Spec.

Arguments astat : clear implicits.
Arguments ast : clear implicits.
Arguments bc_legal {K G Choice cstep n a0 _} a t x h i k _ _ _.
Arguments bc_target {K G Choice cstep n a0 _} a u t i k _ _ _.
Arguments bc_unique {K G Choice cstep n a0 _} a u u' t i k i' k' _ _ _ _ _.

(** * The simulation *)
Section Refine.
Context {K G Choice : Type} (cstep : nat -> Choice -> bool -> K -> G -> outcome (action K * G)).
Context (exit_code : K) (n m : nat) (a0 : ast K G) `{!BlockingClient cstep n a0}.
Abbreviation kst := (kst K G).
Abbreviation THREAD := (THREAD K).
Implicit Types s : kst.

(** A thread inside _ThreadSchedule or switched out. *)
Definition resumed (st : THREAD_STATE) (r : sched_ret) (k : K) : astat K :=
  match r with
  | RetYield old => ARun false old k
  | RetStart => ARun false true k
  | RetBlock | RetExit => if bool_decide (st = ThreadStateBlocked) then APark k else ARun false false k
  end.

Definition proj (th : THREAD) : option (astat K) :=
  match t_pc th with
  | Run h i (Client k) => Some (ARun h i k)
  | TakeLock (Client k) => Some (ATake k)
  | YieldAcquire old _ (Client k) | YieldInsert old _ (Client k) => Some (ARun false old k)
  | BlockAcquire (Client k) => Some (APark k)
  | Schedule r (Client k) | Cleanup r (Client k) | CleanupPrev _ r (Client k) =>
      Some (resumed (State th) r k)
  | UnblockLock t old (Client k) | UnblockAssert t old (Client k) | UnblockInsert t old (Client k) =>
      Some (AUnblock t old k)
  | UnblockRelease t old (Client k) | UnblockDone t old (Client k) => Some (ARun false old k)
  | _ => None
  end.

(** The specification state a scheduler state stands for. *)
Definition abs (s : kst) (a : ast K G) : Prop :=
  glob s = a_glob a /\ forall t, (t < n)%nat -> proj (thr s t) = Some (a_thr a t).

Definition idle_cont (k : cont K) : bool := if k is Client _ then false else true.
Definition idle_pc (pc : tpc K) : bool :=
  match pc with
  | Run h i k => idle_cont k
  | TakeLock k | YieldAcquire _ _ k | YieldInsert _ _ k | BlockAcquire k | Schedule _ k
  | Cleanup _ k | CleanupPrev _ _ k => idle_cont k
  | _ => false
  end.

Definition pcof (s : kst) (t : nat) : tpc K := t_pc (thr s t).
Definition holds_ready (pc : tpc K) : bool :=
  match pc with
  | YieldInsert _ _ _ | Schedule _ _ | Cleanup _ _ | UnblockInsert _ _ _ | UnblockRelease _ _ _ => true
  | _ => false
  end.

(** Whose BlockLock a processor holds, given the position of its current thread. *)
Definition parked (s : kst) (c t : nat) : Prop :=
  ((t < n)%nat /\ State (thr s t) = ThreadStateBlocked) \/ t = (n + c)%nat.
Definition owns (s : kst) (c t : nat) : Prop :=
  match pcof s (cur s c) with
  | Run true _ _ | BlockAcquire _ | Schedule RetBlock _ => t = cur s c
  | Cleanup _ _ => PreviousThread (cpu s c) = Some t /\ parked s c t
  | CleanupPrev p _ _ => p = Some t /\ parked s c t
  | UnblockAssert u _ _ | UnblockInsert u _ _ | UnblockRelease u _ _ | UnblockDone u _ _ => t = u
  | _ => False
  end.
Definition must_own (s : kst) (c : nat) : Prop :=
  match pcof s (cur s c) with
  | Run true _ _ | BlockAcquire _ | Schedule RetBlock _ => BlockLock (thr s (cur s c)) = Some c
  | UnblockAssert u _ _ | UnblockInsert u _ _ | UnblockRelease u _ _ | UnblockDone u _ _ =>
      BlockLock (thr s u) = Some c
  | _ => True
  end.

(** The State of a running thread. *)
Definition on_ok (s : kst) (c : nat) : Prop :=
  let t := cur s c in let st := State (thr s t) in
  match pcof s t with
  | Schedule (RetYield _) _ => st = ThreadStateReady /\ ((t < n)%nat -> t ∈ ReadyThreadsList s)
  | BlockAcquire _ | Schedule RetBlock _ => st = ThreadStateBlocked
  | Schedule _ _ | Cleanup RetExit _ | CleanupPrev _ RetExit _ | ExitAcquire => False
  | Run true true _ | Run true _ IdleHlt | TakeLock IdleHlt => False
  | _ => (t < n)%nat -> st <> ThreadStateBlocked
  end.

(** The context of a thread that is not running. *)
Definition off_ok (s : kst) (t : nat) : Prop :=
  exists r k, pcof s t = Cleanup r k /\ r <> RetExit /\
    ((t < n)%nat -> (t ∈ ReadyThreadsList s /\ State (thr s t) = ThreadStateReady) \/
                    (~ (t ∈ ReadyThreadsList s) /\ State (thr s t) = ThreadStateBlocked /\ r = RetBlock)).

Definition thread_ok (th : THREAD) : Prop :=
  t_alive th = true /\ Flags th = 0 /\ State th <> ThreadStateDying.

Record sched_inv (s : kst) : Prop := {
  si_inj c d : (c < m)%nat -> (d < m)%nat -> cur s c = cur s d -> c = d;
  si_valid c : (c < m)%nat -> (cur s c < n)%nat \/ cur s c = (n + c)%nat;
  si_idle c : (c < m)%nat -> IdleThread (cpu s c) = (n + c)%nat;
  si_thread t : thread_ok (thr s t);
  si_idle_pc c : (c < m)%nat -> idle_pc (pcof s (n + c)%nat) = true;
  si_off t : (t < n + m)%nat -> (forall c, (c < m)%nat -> cur s c <> t) -> off_ok s t;
  si_nodup : NoDup (ReadyThreadsList s);
  si_ready t : t ∈ ReadyThreadsList s -> (t < n)%nat /\ State (thr s t) = ThreadStateReady /\
    (forall c, (c < m)%nat -> cur s c = t -> exists old k, pcof s t = Schedule (RetYield old) k);
  si_on c : (c < m)%nat -> on_ok s c;
  si_lock c : (c < m)%nat -> (holds_ready (pcof s (cur s c)) = true <-> ReadyThreadsLock s = Some c);
  si_lock_lt c : ReadyThreadsLock s = Some c -> (c < m)%nat;
  si_own c t : BlockLock (thr s t) = Some c -> (c < m)%nat /\ owns s c t;
  si_must c : (c < m)%nat -> must_own s c;
  si_abs : exists a, areach cstep n a0 a /\ abs s a }.

(** ** Steps that leave the ready list and the running threads alone *)
Record frame s s' c : Prop := {
  fr_cur d : cur s' d = cur s d;
  fr_idle d : IdleThread (cpu s' d) = IdleThread (cpu s d);
  fr_prev d : PreviousThread (cpu s' d) = PreviousThread (cpu s d);
  fr_list : ReadyThreadsList s' = ReadyThreadsList s;
  fr_pc u : u <> cur s c -> pcof s' u = pcof s u;
  fr_state u : u <> cur s c -> State (thr s' u) = State (thr s u);
  fr_own_state : State (thr s' (cur s c)) = State (thr s (cur s c)) \/
                 State (thr s' (cur s c)) = ThreadStateBlocked \/ ~ (cur s c < n)%nat;
  fr_thread u : thread_ok (thr s' u);
  fr_block u d : d <> c -> BlockLock (thr s' u) = Some d <-> BlockLock (thr s u) = Some d;
  fr_lock d : d <> c -> ReadyThreadsLock s' = Some d <-> ReadyThreadsLock s = Some d }.

Lemma not_ready s c : sched_inv s -> (c < m)%nat ->
  (forall r k, pcof s (cur s c) <> Schedule r k) -> cur s c ∉ ReadyThreadsList s.
Proof.
  intros I Hc Hs Hin. destruct (si_ready s I _ Hin) as (_ & _ & H).
  destruct (H c Hc eq_refl) as (old & k & E). by apply (Hs _ _ E).
Qed.

Lemma inv_frame s s' c : sched_inv s -> (c < m)%nat -> frame s s' c ->
  (forall r k, pcof s (cur s c) <> Schedule r k) ->
  (holds_ready (pcof s' (cur s c)) = true <-> ReadyThreadsLock s' = Some c) ->
  on_ok s' c -> (forall u, BlockLock (thr s' u) = Some c -> owns s' c u) -> must_own s' c ->
  (idle_pc (pcof s (cur s c)) = true -> idle_pc (pcof s' (cur s c)) = true) ->
  (exists a, areach cstep n a0 a /\ abs s' a) -> sched_inv s'.
Proof.
  intros I Hc [Fcur Fidle Fprev Flist Fpc Fst Fown Fth Fbl Flk] Hns Hl Hon Hown Hmust Hidle Habs.
  pose proof (not_ready s c I Hc Hns) as Hnr.
  assert (Hne : forall d, (d < m)%nat -> d <> c -> cur s d <> cur s c).
  { intros d Hd Hdc E. by apply Hdc, (si_inj s I). }
  constructor; try done.
  - intros d e. rewrite !Fcur. apply (si_inj s I).
  - intros d. rewrite Fcur. apply (si_valid s I).
  - intros d. rewrite Fidle. apply (si_idle s I).
  - intros d Hd. destruct (decide (n + d = cur s c)%nat) as [E|E].
    + rewrite E. apply Hidle. rewrite <- E. by apply (si_idle_pc s I).
    + rewrite Fpc by done. by apply (si_idle_pc s I).
  - intros u Hu Hoff. assert (Hoff' : forall d, (d < m)%nat -> cur s d <> u).
    { intros d Hd. rewrite <- Fcur. by apply Hoff. }
    destruct (si_off s I u Hu Hoff') as (r & k & E & Hr & Hst). assert (u <> cur s c) by (intros ->; by apply (Hoff' c)).
    exists r, k. rewrite Fpc, Flist, Fst by done. done.
  - rewrite Flist. apply (si_nodup s I).
  - intros u. rewrite Flist. intros Hu. assert (u <> cur s c) by congruence.
    destruct (si_ready s I u Hu) as (? & ? & H'). rewrite Fst, Fpc by done. split_and!; [done..|].
    intros d Hd. rewrite Fcur. by apply H'.
  - intros d Hd. destruct (decide (d = c)) as [->|Hdc]; [done|].
    pose proof (si_on s I d Hd) as H'. unfold on_ok in *. rewrite Fcur, Fpc, Fst, Flist by auto. done.
  - intros d Hd. destruct (decide (d = c)) as [->|Hdc]; [by rewrite Fcur|].
    rewrite Fcur, Fpc, Flk by auto. by apply (si_lock s I).
  - intros d E. destruct (decide (d = c)) as [->|Hdc]; [done|]. apply Flk in E; [|done]. by apply (si_lock_lt s I).
  - intros d u E. destruct (decide (d = c)) as [->|Hdc]; [by split; [|apply Hown]|].
    apply Fbl in E; [|done]. destruct (si_own s I d u E) as [Hd H']. split; [done|].
    unfold owns in *. rewrite Fcur, Fpc, Fprev by auto.
    assert (Hp : parked s d u -> parked s' d u).
    { unfold parked. intros [[Hu Hb]|?]; [left; split; [done|]|by right].
      destruct (decide (u = cur s c)) as [->|]; [|by rewrite Fst]. by destruct Fown as [->|[->|?]]. }
    destruct (pcof s (cur s d)) as [[]| | | | | |[]| | | | | | |]; naive_solver.
  - intros d Hd. destruct (decide (d = c)) as [->|Hdc]; [done|].
    pose proof (si_must s I d Hd) as H'. unfold must_own in *. rewrite Fcur, Fpc by auto.
    destruct (pcof s (cur s d)) as [[]| | | | | |[]| | | | | | |]; try done; by apply Fbl.
Qed.

(** ** The steps *)
Ltac kunfold :=
  unfold pcof, cur, goto, upd, upd_cpu, SetCurrentThread, set_ready, set_ready_lock, set_glob, insert, fn_insert in *;
  simpl in *.
Ltac kcases := repeat (case_decide; simplify_eq/=).

Lemma abs_same s s' a : abs s a -> glob s' = glob s ->
  (forall t, (t < n)%nat -> proj (thr s' t) = proj (thr s t)) -> abs s' a.
Proof. intros [Hg Ht] E H. split; [by rewrite E|]. intros t Hlt. rewrite H by done. by apply Ht. Qed.

Lemma abs_stutter s s' : sched_inv s -> glob s' = glob s ->
  (forall t, (t < n)%nat -> proj (thr s' t) = proj (thr s t)) ->
  exists a, areach cstep n a0 a /\ abs s' a.
Proof. intros I E H. destruct (si_abs s I) as (a & Hr & Ha). exists a. split; [done|]. by eapply abs_same. Qed.

(** Reading the invariant at the position of the current thread. *)
Ltac at_pc I Hc Hpc :=
  pose proof (si_on _ I _ Hc) as Hon; pose proof (si_must _ I _ Hc) as Hmust;
  pose proof (si_lock _ I _ Hc) as Hlock; pose proof (si_thread _ I) as Hth;
  unfold on_ok, must_own in Hon, Hmust; unfold pcof in *; rewrite Hpc in Hon, Hmust, Hlock; simpl in *.

(** A step that only moves the current thread and takes or releases a lock: the side
    conditions of [inv_frame]. *)
Ltac own_cases I Hpc :=
  let v := fresh "v" in intros v; unfold owns; kunfold; kcases; intros Eown; try done;
  try (destruct (si_own _ I _ _ Eown) as [_ Hown]; unfold owns, pcof, cur in Hown; rewrite Hpc in Hown; done).
Ltac frame_step s c I Hc Hpc :=
  apply (inv_frame s _ c); [done|done| | | | | | | |];
  [ constructor; intros; kunfold; kcases; try done; auto; 
    try (by (destruct (si_thread _ I (CurrentThread (cpu s c))) as (? & ? & ?)));
    naive_solver
  | intros; unfold pcof; by rewrite Hpc
  | kunfold; kcases; done
  | unfold on_ok; kunfold; kcases; try done
  | own_cases I Hpc
  | unfold must_own; kunfold; kcases; try done
  | kunfold; kcases; by rewrite Hpc
  | try (eapply abs_stutter; [done|done|]; intros; kunfold; kcases; try done; unfold proj; simpl; by rewrite Hpc) ].

Lemma yield_acquire_inv s c ch old forced k : sched_inv s -> (c < m)%nat ->
  t_pc (thr s (cur s c)) = YieldAcquire old forced k ->
  exists s', kstep cstep exit_code c ch s = Ok s' /\ sched_inv s'.
Proof.
  intros I Hc Hpc. at_pc I Hc Hpc. unfold kstep. rewrite Hpc. unfold lock_acquire.
  rewrite bool_decide_eq_false_2 by (intros E; by apply Hlock in E). simpl.
  destruct (ReadyThreadsLock s) as [d|] eqn:El; simpl; (eexists; split; [done|]); [done|].
  frame_step s c I Hc Hpc.
Qed.

Lemma block_acquire_inv s c ch k : sched_inv s -> (c < m)%nat ->
  t_pc (thr s (cur s c)) = BlockAcquire k ->
  exists s', kstep cstep exit_code c ch s = Ok s' /\ sched_inv s'.
Proof.
  intros I Hc Hpc. at_pc I Hc Hpc. unfold kstep. rewrite Hpc. unfold lock_acquire.
  rewrite bool_decide_eq_false_2 by (intros E; by apply Hlock in E). simpl.
  destruct (ReadyThreadsLock s) as [d|] eqn:El; simpl; (eexists; split; [done|]); [done|].
  frame_step s c I Hc Hpc.
  eapply abs_stutter; [done..|]. intros t Ht. kunfold. kcases; [|done]. unfold proj; simpl.
  rewrite Hpc. by destruct k; simpl; rewrite ?bool_decide_eq_true_2.
Qed.

Lemma abs_update s s' a t st g : abs s a -> proj (thr s' t) = Some st -> glob s' = g ->
  (forall u, (u < n)%nat -> u <> t -> proj (thr s' u) = proj (thr s u)) ->
  abs s' (mkAst (<[t := st]> (a_thr a)) g).
Proof.
  intros [_ Ht] Hst Hg Hne. split; [done|]. intros u Hu. simpl. unfold insert, fn_insert.
  case_decide; [by subst|]. rewrite Hne by done. by apply Ht.
Qed.

(** A running thread's continuation. *)
Lemma cont_cases s c : sched_inv s -> (c < m)%nat ->
  ((cur s c < n)%nat /\ (exists st, proj (thr s (cur s c)) = Some st)) \/
  (~ (cur s c < n)%nat /\ idle_pc (pcof s (cur s c)) = true).
Proof.
  intros I Hc. destruct (decide (cur s c < n)%nat) as [Hlt|Hge].
  - left. split; [done|]. destruct (si_abs s I) as (a & _ & _ & Ha). eauto.
  - right. split; [done|]. destruct (si_valid s I c Hc) as [?|E]; [done|]. rewrite E. by apply (si_idle_pc s I).
Qed.

Lemma take_lock_inv s c ch k : sched_inv s -> (c < m)%nat ->
  t_pc (thr s (cur s c)) = TakeLock k ->
  exists s', kstep cstep exit_code c ch s = Ok s' /\ sched_inv s'.
Proof.
  intros I Hc Hpc. at_pc I Hc Hpc. unfold kstep. rewrite Hpc. unfold lock_acquire.
  rewrite bool_decide_eq_false_2.
  2: { intros E. destruct (si_own s I _ _ E) as [_ Ho]. unfold owns, pcof in Ho. by rewrite Hpc in Ho. }
  simpl. destruct (BlockLock (thr s (cur s c))) as [d|] eqn:El; simpl; (eexists; split; [done|]); [done|].
  frame_step s c I Hc Hpc.
  destruct (cont_cases s c I Hc) as [[Hlt [st Est]]|[Hge Hi]].
  - destruct (si_abs s I) as (a & Hr & Ha). pose proof (proj2 Ha _ Hlt) as Et. unfold proj in Est, Et.
    rewrite Hpc in Est, Et. destruct k; try done. injection Et as Et.
    eexists. split; [eapply areach_step; [exact Hr|eapply as_take; eauto]|].
    eapply abs_update; [done| | |]; [kunfold; kcases; done|apply Ha|intros; kunfold; kcases; done].
  - eapply abs_stutter; [done..|]. intros t Ht. kunfold. kcases; done.
Qed.

(** The target of ThreadUnblock once its BlockLock is taken: it is switched out. *)
Lemma target_parked s c u old k : sched_inv s -> (c < m)%nat ->
  proj (thr s (cur s c)) = Some (AUnblock u old k) -> (cur s c < n)%nat -> BlockLock (thr s u) = Some c ->
  (u < n)%nat /\ (forall d, (d < m)%nat -> cur s d <> u) /\ State (thr s u) = ThreadStateBlocked /\
  ~ (u ∈ ReadyThreadsList s) /\ (exists k, pcof s u = Cleanup RetBlock (Client k)).
Proof.
  intros I Hc Hp Hlt Hbl. destruct (si_abs s I) as (a & Hr & Ha).
  pose proof (proj2 Ha _ Hlt) as Et. rewrite Hp in Et. injection Et as Et.
  destruct (bc_target a _ _ _ _ Hr Hlt (eq_sym Et)) as (Hu & Hne & Hcom).
  pose proof (proj2 Ha _ Hu) as Eu.
  assert (Hoff : forall d, (d < m)%nat -> cur s d <> u).
  { intros d Hd <-. pose proof (si_on s I d Hd) as Hon. pose proof (si_must s I d Hd) as Hm.
    unfold on_ok, must_own, pcof in *. unfold proj in Eu.
    destruct (t_pc (thr s (cur s d))) as [[] ? []|[]|? ? []|? ? []|[]| |[] []|[] []|? [] []|? ? []|? ? []|? ? []|? ? []|? ? []];
      simplify_eq/=; rewrite <- Eu in Hcom; simpl in Hcom; try done;
      try (rewrite bool_decide_eq_false_2 in Hcom by auto; done);
      (assert (d = c) as -> by congruence; done). }
  destruct (si_off s I u ltac:(lia) Hoff) as (r & k' & E & Hrx & Hst).
  unfold proj in Eu. unfold pcof in E. rewrite E in Eu. destruct k' as [k'| |]; try done. injection Eu as Eu.
  rewrite <- Eu in Hcom. destruct (Hst Hu) as [[Hin Hs]|(Hin & Hs & ->)].
  - destruct r; simpl in Hcom; try done. by rewrite bool_decide_eq_false_2 in Hcom by (by rewrite Hs).
  - split_and!; [done..|]. exists k'. done.
Qed.

Lemma client_cont s c : sched_inv s -> (c < m)%nat -> idle_pc (pcof s (cur s c)) = false ->
  (cur s c < n)%nat /\ exists st, proj (thr s (cur s c)) = Some st.
Proof. intros I Hc H. destruct (cont_cases s c I Hc) as [?|[_ E]]; [done|congruence]. Qed.

Lemma unblock_lock_inv s c ch u old k : sched_inv s -> (c < m)%nat ->
  t_pc (thr s (cur s c)) = UnblockLock u old k ->
  exists s', kstep cstep exit_code c ch s = Ok s' /\ sched_inv s'.
Proof.
  intros I Hc Hpc. at_pc I Hc Hpc. unfold kstep. rewrite Hpc. unfold lock_acquire.
  destruct (client_cont s c I Hc) as [Hlt [st Est]]; [unfold pcof; by rewrite Hpc|].
  rewrite bool_decide_eq_false_2.
  2: { intros E. destruct (si_own s I _ _ E) as [_ Ho]. unfold owns, pcof in Ho. by rewrite Hpc in Ho. }
  simpl. destruct (BlockLock (thr s u)) as [d|] eqn:El; simpl; (eexists; split; [done|]); [done|].
  assert (Hne : u <> cur s c).
  { destruct (si_abs s I) as (a & Hr & Ha). pose proof (proj2 Ha _ Hlt) as Et. unfold proj in Est, Et.
    rewrite Hpc in Est, Et. destruct k; try done. injection Et as Et.
    by destruct (bc_target a _ _ _ _ Hr Hlt (eq_sym Et)) as (_ & ? & _). }
  frame_step s c I Hc Hpc.
Qed.

Lemma unblock_assert_inv s c ch u old k : sched_inv s -> (c < m)%nat ->
  t_pc (thr s (cur s c)) = UnblockAssert u old k ->
  exists s', kstep cstep exit_code c ch s = Ok s' /\ sched_inv s'.
Proof.
  intros I Hc Hpc. at_pc I Hc Hpc. unfold kstep. rewrite Hpc. unfold lock_acquire.
  destruct (client_cont s c I Hc) as [Hlt [st Est]]; [unfold pcof; by rewrite Hpc|].
  pose proof Est as Est'. unfold proj in Est. rewrite Hpc in Est. destruct k as [k| |]; try done.
  injection Est as <-.
  destruct (target_parked s c u old k I Hc Est' Hlt Hmust) as (_ & _ & Hb & _).
  rewrite (bool_decide_eq_true_2 _ Hb).
  rewrite bool_decide_eq_false_2 by (intros E; by apply Hlock in E). simpl.
  destruct (ReadyThreadsLock s) as [d|] eqn:El; simpl; (eexists; split; [done|]); [done|].
  frame_step s c I Hc Hpc.
Qed.

Lemma unblock_release_inv s c ch u old k : sched_inv s -> (c < m)%nat ->
  t_pc (thr s (cur s c)) = UnblockRelease u old k ->
  exists s', kstep cstep exit_code c ch s = Ok s' /\ sched_inv s'.
Proof.
  intros I Hc Hpc. at_pc I Hc Hpc. unfold kstep. rewrite Hpc. unfold lock_release, LockIsOwner.
  pose proof (proj1 Hlock eq_refl) as El. rewrite (bool_decide_eq_true_2 _ El). simpl.
  eexists; split; [done|]. frame_step s c I Hc Hpc.
Qed.

Lemma unblock_done_inv s c ch u old k : sched_inv s -> (c < m)%nat ->
  t_pc (thr s (cur s c)) = UnblockDone u old k ->
  exists s', kstep cstep exit_code c ch s = Ok s' /\ sched_inv s'.
Proof.
  intros I Hc Hpc. at_pc I Hc Hpc. unfold kstep. rewrite Hpc. unfold lock_release, LockIsOwner.
  rewrite (bool_decide_eq_true_2 _ Hmust). simpl.
  eexists; split; [done|]. frame_step s c I Hc Hpc.
Qed.

Lemma cleanup_inv s c ch r k : sched_inv s -> (c < m)%nat ->
  t_pc (thr s (cur s c)) = Cleanup r k ->
  exists s', kstep cstep exit_code c ch s = Ok s' /\ sched_inv s'.
Proof.
  intros I Hc Hpc. at_pc I Hc Hpc. unfold kstep. rewrite Hpc. unfold ThreadCleanupPostSchedule, lock_release, LockIsOwner.
  pose proof (proj1 Hlock eq_refl) as El. simpl. rewrite (bool_decide_eq_true_2 _ El). simpl.
  eexists; split; [done|]. frame_step s c I Hc Hpc.
  all: destruct (si_own _ I _ _ Eown) as [_ Hown]; unfold owns, pcof, cur in Hown; rewrite Hpc in Hown;
    unfold parked in *; kunfold; kcases; done.
Qed.

(** ThreadCleanupPostSchedule after the release of ReadyThreadsLock: the previous
    thread's BlockLock is released if this processor still holds it. *)
Lemma cleanup_previous_run s c prev r k : sched_inv s -> (c < m)%nat ->
  t_pc (thr s (cur s c)) = CleanupPrev prev r k ->
  exists s1, ThreadCleanupPrevious c prev s = Ok s1 /\
    ((s1 = s /\ forall v, BlockLock (thr s v) <> Some c) \/
     (exists p, s1 = upd p (set_BlockLock None) s /\ BlockLock (thr s p) = Some c /\
        forall v, BlockLock (thr s v) = Some c -> v = p)).
Proof.
  intros I Hc Hpc.
  assert (Hown : forall v, BlockLock (thr s v) = Some c -> prev = Some v /\ parked s c v).
  { intros v E. destruct (si_own s I _ _ E) as [_ Ho]. unfold owns, pcof in Ho. by rewrite Hpc in Ho. }
  destruct prev as [p|]; simpl; [|exists s; split; [done|left; split; [done|]; by intros v [? _]%Hown]].
  destruct (si_thread s I p) as (-> & _ & Hd). unfold lock_release, LockIsOwner. simpl.
  destruct (bool_decide_reflect (BlockLock (thr s p) = Some c)) as [E|E].
  - destruct (Hown p E) as [_ Hpk]. eexists. split.
    + destruct Hpk as [[_ ->]| ->]; [by rewrite bool_decide_eq_true_2|].
      by rewrite (si_idle s I c Hc), (bool_decide_eq_true_2 _ eq_refl), orb_true_r.
    + right. exists p. split_and!; [done..|]. intros v Hv. destruct (Hown v Hv). congruence.
  - rewrite bool_decide_eq_false_2 by done. exists s. split; [done|]. left. split; [done|].
    intros v Hv. destruct (Hown v Hv). congruence.
Qed.

Lemma cleanup_prev_inv s c ch prev r k : sched_inv s -> (c < m)%nat ->
  t_pc (thr s (cur s c)) = CleanupPrev prev r k ->
  exists s', kstep cstep exit_code c ch s = Ok s' /\ sched_inv s'.
Proof.
  intros I Hc Hpc. destruct (cleanup_previous_run s c prev r k I Hc Hpc) as (s1 & E1 & Hs1).
  at_pc I Hc Hpc. unfold kstep. rewrite Hpc, E1. simpl.
  assert (Hnl : LockIsOwner c (ReadyThreadsLock s1) = false).
  { unfold LockIsOwner. apply bool_decide_eq_false_2. destruct Hs1 as [[-> _]|(p & -> & _)]; simpl; intros E; by apply Hlock in E. }
  assert (Hret : exists i, sched_return c (cur s c) r k s1 = Ok (goto (cur s c) (Run false i k) s1) /\
    ((cur s c < n)%nat -> forall k0, resumed (State (thr s (cur s c))) r k0 = ARun false i k0)).
  { unfold sched_return. rewrite Hnl. simpl. destruct r; try done; eexists; (split; [done|]); intros Hlt k0; simpl; try done.
    by rewrite bool_decide_eq_false_2 by auto. }
  destruct Hret as (i & -> & Hres). eexists. split; [done|].
  assert (Hnb : (cur s c < n)%nat -> State (thr s (cur s c)) <> ThreadStateBlocked) by by destruct r.
  destruct Hs1 as [[-> Hno]|(p & -> & Hp & Hun)]; frame_step s c I Hc Hpc.
  all: try (by (eapply abs_stutter; [done..|]; intros; kunfold; kcases; try done; unfold proj; simpl; rewrite Hpc;
      destruct k; simpl; rewrite ?Hres)).
  all: try naive_solver.
Qed.

Lemma not_pending th : thread_ok th -> terminate_pending th = false.
Proof. intros (_ & E & _). unfold terminate_pending. by rewrite E. Qed.

(** A legal call of client code. *)
Lemma client_action_inv s c h i k act g' st a : sched_inv s -> (c < m)%nat ->
  t_pc (thr s (cur s c)) = Run h i (Client k) -> (cur s c < n)%nat ->
  areach cstep n a0 (mkAst (<[cur s c := st]> (a_thr a)) g') -> abs s a ->
  act_status h i act = Some st ->
  exists s', do_action exit_code c (cur s c) h i act (set_glob g' s) = Ok s' /\ sched_inv s'.
Proof.
  intros I Hc Hpc Hlt Hr Ha Hact. at_pc I Hc Hpc.
  assert (Habs : forall s', glob s' = g' -> proj (thr s' (cur s c)) = Some st ->
    (forall u, (u < n)%nat -> u <> cur s c -> proj (thr s' u) = proj (thr s u)) ->
    exists a, areach cstep n a0 a /\ abs s' a).
  { intros s' E1 E2 E3. eexists. split; [exact Hr|]. by eapply abs_update. }
  assert (Hst : State (thr s (cur s c)) <> ThreadStateBlocked) by (destruct h, i; naive_solver).
  destruct act; simpl in Hact |- *.
  - destruct h, intr; simplify_eq/=; (eexists; split; [done|]); frame_step s c I Hc Hpc.
    all: by (apply Habs; [done| |]; intros; kunfold; kcases).
  - destruct h; simplify_eq/=. eexists; split; [done|]. frame_step s c I Hc Hpc.
    all: by (apply Habs; [done| |]; intros; kunfold; kcases).
  - destruct h, i; simplify_eq/=. unfold ThreadBlock, LockIsOwner. simpl.
    rewrite (bool_decide_eq_true_2 _ Hmust), not_pending by apply Hth. simpl.
    eexists; split; [done|]. frame_step s c I Hc Hpc.
    all: try (by (apply Habs; [done| |]; intros; kunfold; kcases)).
  - destruct h; simplify_eq/=. eexists; split; [done|]. frame_step s c I Hc Hpc.
    all: by (apply Habs; [done| |]; intros; kunfold; kcases).
  - destruct h; simplify_eq/=. unfold ThreadYield. rewrite not_pending by apply Hth.
    eexists; split; [done|]. frame_step s c I Hc Hpc.
    all: try (by (apply Habs; [done| |]; intros; kunfold; kcases)).
  - done.
  - done.
  - done.
Qed.

(** States that differ in their tick counters only. *)
Record same_sched s s' : Prop := {
  ss_cur c : cur s' c = cur s c;
  ss_idle c : IdleThread (cpu s' c) = IdleThread (cpu s c);
  ss_prev c : PreviousThread (cpu s' c) = PreviousThread (cpu s c);
  ss_pc t : pcof s' t = pcof s t;
  ss_state t : State (thr s' t) = State (thr s t);
  ss_block t : BlockLock (thr s' t) = BlockLock (thr s t);
  ss_thread t : thread_ok (thr s t) -> thread_ok (thr s' t);
  ss_list : ReadyThreadsList s' = ReadyThreadsList s;
  ss_lock : ReadyThreadsLock s' = ReadyThreadsLock s;
  ss_glob : glob s' = glob s }.

Lemma same_sched_inv s s' : same_sched s s' -> sched_inv s -> sched_inv s'.
Proof.
  intros [Ec Ei Ep Epc Es Eb Et El Ek Eg] I. constructor.
  - intros c d. rewrite !Ec. apply (si_inj s I).
  - intros c. rewrite Ec. apply (si_valid s I).
  - intros c. rewrite Ei. apply (si_idle s I).
  - intros t. apply Et, (si_thread s I).
  - intros c. rewrite Epc. apply (si_idle_pc s I).
  - intros t Ht Hoff. destruct (si_off s I t Ht) as (r & k & H'); [intros c; rewrite <- Ec; apply Hoff|].
    exists r, k. by rewrite Epc, Es, El.
  - rewrite El. apply (si_nodup s I).
  - intros t. rewrite El, Es, Epc. setoid_rewrite Ec. apply (si_ready s I).
  - intros c Hc. pose proof (si_on s I c Hc) as H'. unfold on_ok in *. by rewrite Ec, Epc, Es, El.
  - intros c. rewrite Ec, Epc, Ek. apply (si_lock s I).
  - intros c. rewrite Ek. apply (si_lock_lt s I).
  - intros c t. rewrite Eb. intros H'. destruct (si_own s I c t H') as [Hc Ho]. split; [done|].
    unfold owns, parked in *. by rewrite Ec, Epc, Ep, Es.
  - intros c Hc. pose proof (si_must s I c Hc) as H'. unfold must_own in *. rewrite Ec, Epc.
    destruct (pcof s (cur s c)) as [[]| | | | | |[]| | | | | | |]; by rewrite ?Eb.
  - eapply abs_stutter; [done..|]. intros t _. specialize (Epc t). unfold pcof in Epc. unfold proj. by rewrite Epc, Es.
Qed.

Lemma tick_same s c : same_sched s (ThreadTick c s).
Proof.
  unfold ThreadTick. constructor; intros; kunfold; kcases; try done;
    match goal with |- context [if ?b then _ else _] => by destruct b end.
Qed.

(** The timer interrupt, with or without a yield at its end. *)
Lemma interrupt_inv s c k : sched_inv s -> (c < m)%nat ->
  t_pc (thr s (cur s c)) = Run false true k ->
  exists s', timer_interrupt exit_code c (cur s c) false k s = Ok s' /\ sched_inv s'.
Proof.
  intros I0 Hc Hpc0. pose proof (tick_same s c) as Hsame. pose proof (same_sched_inv _ _ Hsame I0) as I.
  unfold timer_interrupt. rewrite <- (ss_cur _ _ Hsame c). pose proof (ss_pc _ _ Hsame (cur s c)) as Hpc.
  unfold pcof in Hpc. rewrite Hpc0, <- (ss_cur _ _ Hsame c) in Hpc.
  remember (ThreadTick c s) as s1 eqn:E1. clear E1 I0 Hpc0 Hsame. at_pc I Hc Hpc.
  destruct (ThreadYieldOnInterrupt c s1); [unfold ThreadYield; rewrite not_pending by apply Hth|];
    (eexists; split; [done|]); destruct k; frame_step s1 c I Hc Hpc.
Qed.

Lemma idle_step_inv s c h i k : sched_inv s -> (c < m)%nat ->
  t_pc (thr s (cur s c)) = Run h i k -> idle_cont k = true ->
  exists s', idle_step exit_code c (cur s c) h i k s = Ok s' /\ sched_inv s'.
Proof.
  intros I Hc Hpc Hk. at_pc I Hc Hpc. destruct (cont_cases s c I Hc) as [[Hlt [st Est]]|[Hge Hi]].
  { unfold proj in Est. rewrite Hpc in Est. by destruct k. }
  assert (Habs : forall s', glob s' = glob s -> (forall u, u <> cur s c -> proj (thr s' u) = proj (thr s u)) ->
    exists a, areach cstep n a0 a /\ abs s' a).
  { intros s' E1 E2. eapply abs_stutter; [done..|]. intros t Ht. apply E2. congruence. }
  destruct k as [k| |]; [done| |]; simpl.
  - destruct h.
    + destruct i; [done|]. unfold ThreadBlock, LockIsOwner. simpl.
      rewrite (bool_decide_eq_true_2 _ Hmust), not_pending by apply Hth. simpl.
      eexists; split; [done|]. frame_step s c I Hc Hpc.
      all: try (apply Habs; intros; kunfold; kcases; done).
    + eexists; split; [done|]. frame_step s c I Hc Hpc.
  - destruct h; [by destruct i|]. destruct i; (eexists; split; [done|]); frame_step s c I Hc Hpc.
    all: apply Habs; intros; kunfold; kcases; done.
Qed.

Lemma run_inv s c ch h i k : sched_inv s -> (c < m)%nat ->
  t_pc (thr s (cur s c)) = Run h i k ->
  exists s', kstep cstep exit_code c ch s = Ok s' /\ sched_inv s'.
Proof.
  intros I Hc Hpc. at_pc I Hc Hpc. unfold kstep. rewrite Hpc. destruct ch as [x|].
  - destruct k as [k| |]; [|by apply idle_step_inv..].
    destruct (client_cont s c I Hc) as [Hlt _]; [unfold pcof; by rewrite Hpc|].
    destruct (si_abs s I) as (a & Hr & Ha). pose proof (proj2 Ha _ Hlt) as Et. unfold proj in Et.
    rewrite Hpc in Et. injection Et as Et. rewrite (proj1 Ha).
    destruct (bc_legal a (cur s c) x h i k Hr Hlt (eq_sym Et)) as (act & g' & E & [st Hst]).
    rewrite E. simpl. eapply client_action_inv; [done..| |exact Ha|exact Hst].
    eapply areach_step; [exact Hr|]. eapply as_client; eauto.
  - destruct i; [|by exists s]. destruct h; [done|]. by apply interrupt_inv.
Qed.

(** ** Steps that change the ready list *)

(** [v] is appended to the ready list: the current thread that yields, or the
    switched-out thread that is unblocked. *)
Lemma insert_inv s s' c v : sched_inv s -> (c < m)%nat ->
  (forall d, cur s' d = cur s d /\ IdleThread (cpu s' d) = IdleThread (cpu s d) /\
             PreviousThread (cpu s' d) = PreviousThread (cpu s d)) ->
  ReadyThreadsList s' = ReadyThreadsList s ++ [v] -> (v < n)%nat -> ~ (v ∈ ReadyThreadsList s) ->
  (forall u, u <> cur s c -> pcof s' u = pcof s u) ->
  (forall u, u <> v -> State (thr s' u) = State (thr s u)) -> State (thr s' v) = ThreadStateReady ->
  (forall u, BlockLock (thr s' u) = BlockLock (thr s u) /\ thread_ok (thr s' u)) ->
  ReadyThreadsLock s' = Some c -> ReadyThreadsLock s = Some c ->
  (State (thr s v) = ThreadStateBlocked -> BlockLock (thr s v) = Some c) ->
  (v = cur s c /\ (exists old k, pcof s' v = Schedule (RetYield old) k) \/
   (forall d, (d < m)%nat -> cur s d <> v)) ->
  (forall r k, pcof s (cur s c) <> Schedule r k) -> holds_ready (pcof s' (cur s c)) = true ->
  on_ok s' c -> (forall u, BlockLock (thr s u) = Some c -> owns s' c u) -> must_own s' c ->
  (idle_pc (pcof s (cur s c)) = true -> idle_pc (pcof s' (cur s c)) = true) ->
  (exists a, areach cstep n a0 a /\ abs s' a) -> sched_inv s'.
Proof.
  intros I Hc Hcpu Hl Hv Hvn Hpc Hst Hsv Hbl Hlk Hlk0 Hvb Hwhere Hns Hhr Hon Hown Hmust Hidle Habs.
  assert (Fcur : forall d, cur s' d = cur s d) by (intros d; apply Hcpu).
  pose proof (not_ready s c I Hc Hns) as Hnr.
  assert (Hne : forall d, (d < m)%nat -> d <> c -> cur s d <> cur s c).
  { intros d Hd Hdc E. by apply Hdc, (si_inj s I). }
  assert (Hoth : forall d, (d < m)%nat -> d <> c -> cur s d <> v).
  { intros d Hd Hdc. destruct Hwhere as [[-> _]|Hw]; auto. }
  constructor; try done.
  - intros d e. rewrite !Fcur. apply (si_inj s I).
  - intros d. rewrite Fcur. apply (si_valid s I).
  - intros d. destruct (Hcpu d) as (_ & -> & _). apply (si_idle s I).
  - apply Hbl.
  - intros d Hd. destruct (decide (n + d = cur s c)%nat) as [E|E].
    + rewrite E. apply Hidle. rewrite <- E. by apply (si_idle_pc s I).
    + rewrite Hpc by done. by apply (si_idle_pc s I).
  - intros u Hu Hoff. assert (Hoff' : forall d, (d < m)%nat -> cur s d <> u).
    { intros d Hd. rewrite <- Fcur. by apply Hoff. }
    destruct (si_off s I u Hu Hoff') as (r & k & E & Hr & Hs). assert (u <> cur s c) by (intros ->; by apply (Hoff' c)).
    exists r, k. rewrite Hpc, Hl by done. split_and!; [done..|]. intros Hun.
    destruct (decide (u = v)) as [->|Huv]; [left; split; [set_solver|done]|].
    rewrite Hst, elem_of_app, list_elem_of_singleton by done. specialize (Hs Hun). clear - Hs Huv. intuition.
  - rewrite Hl. apply NoDup_app. split_and!; [apply (si_nodup s I)|set_solver|apply NoDup_singleton].
  - intros u. rewrite Hl. intros [Hu|Hu%list_elem_of_singleton]%elem_of_app.
    + assert (u <> cur s c) by congruence. assert (u <> v) by congruence.
      destruct (si_ready s I u Hu) as (? & ? & H'). rewrite Hst, Hpc by done. split_and!; [done..|].
      intros d Hd. rewrite Fcur. by apply H'.
    + subst u. split_and!; [done..|]. intros d Hd. rewrite Fcur. intros E. destruct Hwhere as [[_ ?]|Hw]; [done|].
      by destruct (Hw d Hd).
  - intros d Hd. destruct (decide (d = c)) as [->|Hdc]; [done|]. pose proof (si_on s I d Hd) as H'.
    pose proof (si_lock s I d Hd) as Hlk'. unfold on_ok in *. rewrite Fcur, Hpc, Hst by auto.
    destruct (pcof s (cur s d)) as [[] [] []|[]| | | | |[]|[]|? []| | | | |]; try done. simpl in Hlk'.
    pose proof (proj1 Hlk' eq_refl). congruence.
  - intros d Hd. destruct (decide (d = c)) as [->|Hdc]; [by rewrite Fcur|].
    rewrite Fcur, Hpc, Hlk by auto. rewrite <- Hlk0. by apply (si_lock s I).
  - intros d E. rewrite Hlk in E. congruence.
  - intros d u. destruct (Hbl u) as [-> _]. intros E. destruct (decide (d = c)) as [->|Hdc]; [by split; [|apply Hown]|].
    destruct (si_own s I d u E) as [Hd H']. split; [done|]. unfold owns in *. destruct (Hcpu d) as (_ & _ & ->).
    rewrite Fcur, Hpc by auto.
    assert (Hp : parked s d u -> parked s' d u).
    { unfold parked. intros [[Hu Hb]|?]; [left; split; [done|]|by right].
      destruct (decide (u = v)) as [->|]; [|by rewrite Hst]. specialize (Hvb Hb). congruence. }
    destruct (pcof s (cur s d)) as [[]| | | | | |[]| | | | | | |]; naive_solver.
  - intros d Hd. destruct (decide (d = c)) as [->|Hdc]; [done|].
    pose proof (si_must s I d Hd) as H'. unfold must_own in *. rewrite Fcur, Hpc by auto.
    destruct (pcof s (cur s d)) as [[]| | | | | |[]| | | | | | |]; try done; rewrite (proj1 (Hbl _)); done.
Qed.

Lemma yield_insert_inv s c ch old forced k : sched_inv s -> (c < m)%nat ->
  t_pc (thr s (cur s c)) = YieldInsert old forced k ->
  exists s', kstep cstep exit_code c ch s = Ok s' /\ sched_inv s'.
Proof.
  intros I Hc Hpc. at_pc I Hc Hpc. unfold kstep. rewrite Hpc. eexists; split; [done|]. unfold ThreadYield_locked.
  assert (Hns : forall r k, pcof s (cur s c) <> Schedule r k) by (intros; unfold pcof; by rewrite Hpc).
  pose proof (not_ready s c I Hc Hns) as Hnr. pose proof (proj1 Hlock eq_refl) as El. rewrite (si_idle s I c Hc).
  destruct (bool_decide_reflect (cur s c = n + c)%nat) as [E|E].
  - assert (~ (cur s c < n)%nat) by lia. destruct forced; frame_step s c I Hc Hpc.
  - destruct (si_valid s I c Hc) as [Hlt|?]; [|done].
    eapply (insert_inv s _ c (cur s c)); try done.
    + intros u Hu. kunfold; kcases; done.
    + intros u Hu. kunfold; kcases; done.
    + kunfold; kcases; done.
    + intros u. kunfold; kcases; (split; [by destruct forced|]); [|done].
      destruct (Hth (CurrentThread (cpu s c))) as (? & ? & ?). by destruct forced.
    + intros Hb. by destruct (Hon Hlt).
    + left. split; [done|]. exists old, k. kunfold; kcases; done.
    + kunfold; kcases; done.
    + unfold on_ok. kunfold; kcases; try done. split; [done|]. set_solver.
    + intros u Eo. destruct (si_own s I _ _ Eo) as [_ Hown]. unfold owns, pcof in Hown. by rewrite Hpc in Hown.
    + unfold must_own. kunfold; kcases; done.
    + kunfold; kcases; by rewrite Hpc.
    + eapply abs_stutter; [done..|]. intros. kunfold; kcases; try done. unfold proj. simpl. by rewrite Hpc.
Qed.

Lemma unblock_insert_inv s c ch u old k : sched_inv s -> (c < m)%nat ->
  t_pc (thr s (cur s c)) = UnblockInsert u old k ->
  exists s', kstep cstep exit_code c ch s = Ok s' /\ sched_inv s'.
Proof.
  intros I Hc Hpc. at_pc I Hc Hpc. unfold kstep. rewrite Hpc. eexists; split; [done|].
  destruct (client_cont s c I Hc) as [Hlt [st Est]]; [unfold pcof; by rewrite Hpc|].
  pose proof Est as Est'. unfold proj in Est. rewrite Hpc in Est. destruct k as [k| |]; try done. injection Est as <-.
  destruct (target_parked s c u old k I Hc Est' Hlt Hmust) as (Hu & Hoff & Hb & Hnr & ku & Eu).
  pose proof (Hoff c Hc) as Hne. pose proof (proj1 Hlock eq_refl) as El.
  eapply (insert_inv s _ c u); try done.
  - intros v Hv. kunfold; kcases; done.
  - intros v Hv. kunfold; kcases; done.
  - kunfold; kcases; done.
  - intros v. destruct (Hth v) as (? & ? & ?). kunfold; kcases; done.
  - by right.
  - intros. unfold pcof. by rewrite Hpc.
  - kunfold; kcases; done.
  - unfold on_ok. kunfold; kcases; done.
  - intros v Eo. destruct (si_own s I _ _ Eo) as [_ Hown]. unfold owns, pcof in Hown |- *. rewrite Hpc in Hown.
    kunfold; kcases; done.
  - unfold must_own. kunfold; kcases; done.
  - kunfold; kcases; by rewrite Hpc.
  - destruct (si_abs s I) as (a & Hr & Ha). pose proof (proj2 Ha _ Hlt) as Et. rewrite Est' in Et. injection Et as Et.
    pose proof (proj2 Ha _ Hu) as Eu'. unfold proj, pcof in Eu, Eu'. rewrite Eu in Eu'. simpl in Eu'.
    rewrite bool_decide_eq_true_2 in Eu' by done. injection Eu' as Eu'.
    eexists. split; [eapply areach_step; [exact Hr|eapply (as_unblock _ _ a (cur s c) u); eauto]|].
    split; [apply Ha|]. intros v Hv. pose proof (proj2 Ha _ Hv) as Ev. kunfold; kcases; try done.
    unfold proj. simpl. by rewrite Eu.
Qed.

(** _ThreadSchedule: the next thread is the head of the ready list or the idle
    thread; it is switched out, or it is the current thread itself. *)
Lemma next_thread s c : sched_inv s -> (c < m)%nat -> ReadyThreadsLock s = Some c ->
  exists next rest, (forall p, _ThreadGetReadyThread c (upd_cpu c (set_Previous p) s) =
      Ok (next, set_ready rest (upd_cpu c (set_Previous p) s))) /\
    ((ReadyThreadsList s = [] /\ rest = [] /\ next = (n + c)%nat) \/ ReadyThreadsList s = next :: rest) /\
    (forall d, (d < m)%nat -> cur s d = next -> d = c).
Proof.
  intros I Hc El. unfold _ThreadGetReadyThread, LockIsOwner. simpl. rewrite (bool_decide_eq_true_2 _ El). simpl.
  destruct (ReadyThreadsList s) as [|t rest] eqn:Er.
  - exists (n + c)%nat, []. split_and!; [|by left|].
    { intros p. unfold upd_cpu, set_ready. simpl. rewrite fn_lookup_insert, Er. simpl. by rewrite (si_idle s I c Hc). }
    intros d Hd E. destruct (si_valid s I d Hd); lia.
  - destruct (si_ready s I t) as (_ & Hs & Hrun); [rewrite Er; set_solver|]. rewrite (bool_decide_eq_true_2 _ Hs). simpl.
    exists t, rest. split_and!; [done|by right|]. intros d Hd E. destruct (Hrun d Hd E) as (old & k & Hpc).
    pose proof (si_lock s I d Hd) as Hl. rewrite E, Hpc in Hl. pose proof (proj1 Hl eq_refl). congruence.
Qed.

Record switched s s' c next rest r k : Prop := {
  sw_cur d : cur s' d = if decide (d = c) then next else cur s d;
  sw_idle d : IdleThread (cpu s' d) = IdleThread (cpu s d);
  sw_prev d : PreviousThread (cpu s' d) = if decide (d = c) then Some (cur s c) else PreviousThread (cpu s d);
  sw_pc u : pcof s' u = if decide (u = cur s c) then Cleanup r k else pcof s u;
  sw_state u : State (thr s' u) = State (thr s u);
  sw_block u : BlockLock (thr s' u) = BlockLock (thr s u);
  sw_thread u : thread_ok (thr s' u);
  sw_list : ReadyThreadsList s' = rest;
  sw_lock : ReadyThreadsLock s' = ReadyThreadsLock s;
  sw_glob : glob s' = glob s }.

Section Switch.
Context s s' c next rest r k (I : sched_inv s) (Hc : (c < m)%nat)
  (Hpc : pcof s (cur s c) = Schedule r k) (El : ReadyThreadsLock s = Some c)
  (Hnext : (ReadyThreadsList s = [] /\ rest = [] /\ next = (n + c)%nat) \/ ReadyThreadsList s = next :: rest)
  (Hfree : forall d, (d < m)%nat -> cur s d = next -> d = c)
  (W : switched s s' c next rest r k).

Lemma switch_rest u : u ∈ rest <-> u ∈ ReadyThreadsList s /\ u <> next.
Proof.
  destruct Hnext as [(-> & -> & _)|E]; [set_solver|]. pose proof (si_nodup s I) as Hnd. rewrite E in *.
  apply NoDup_cons in Hnd as [Hn _]. split; [|set_solver]. intros Hu. split; [set_solver|]. by intros ->.
Qed.

Lemma switch_ret : r <> RetExit /\
  ((cur s c < n)%nat -> (cur s c ∈ ReadyThreadsList s /\ State (thr s (cur s c)) = ThreadStateReady) \/
     (~ (cur s c ∈ ReadyThreadsList s) /\ State (thr s (cur s c)) = ThreadStateBlocked /\ r = RetBlock)).
Proof.
  pose proof (si_on s I c Hc) as Hon. unfold on_ok in Hon. rewrite Hpc in Hon.
  destruct r; try done; (split; [done|]); intros Hlt; [left; naive_solver|right].
  split_and!; [|done..]. intros Hin. destruct (si_ready s I _ Hin) as (_ & Hs & _). congruence.
Qed.

Lemma switch_off u : (u < n + m)%nat -> (forall d, (d < m)%nat -> cur s' d <> u) -> off_ok s' u.
Proof.
  intros Hu Hoff. assert (Hun : u <> next).
  { intros ->. apply (Hoff c Hc). rewrite (sw_cur _ _ _ _ _ _ _ W). by rewrite decide_True. }
  unfold off_ok. rewrite (sw_pc _ _ _ _ _ _ _ W), (sw_state _ _ _ _ _ _ _ W), (sw_list _ _ _ _ _ _ _ W).
  setoid_rewrite switch_rest. case_decide as Eu.
  - subst u. destruct switch_ret as [Hr Hs]. exists r, k. split_and!; [done..|]. intros Hlt. specialize (Hs Hlt). clear - Hs Hun. tauto.
  - destruct (si_off s I u Hu) as (r' & k' & E & Hr & Hs).
    { intros d Hd. destruct (decide (d = c)) as [->|Hdc]; [done|]. specialize (Hoff d Hd).
      rewrite (sw_cur _ _ _ _ _ _ _ W), decide_False in Hoff by done. done. }
    exists r', k'. split_and!; [done..|]. intros Hlt. specialize (Hs Hlt). clear - Hs Hun. tauto.
Qed.

Lemma switch_on : on_ok s' c /\ holds_ready (pcof s' (cur s' c)) = true /\
  (exists r' k', pcof s' (cur s' c) = Cleanup r' k').
Proof.
  assert (Ec : cur s' c = next) by (rewrite (sw_cur _ _ _ _ _ _ _ W); by rewrite decide_True).
  assert (Hst : (next < n)%nat -> State (thr s next) <> ThreadStateBlocked).
  { intros Hlt. destruct Hnext as [(_ & _ & ->)|E]; [lia|]. destruct (si_ready s I next) as (_ & -> & _); [rewrite E; set_solver|done]. }
  assert (Hcl : exists r' k', pcof s' next = Cleanup r' k' /\ r' <> RetExit).
  { rewrite (sw_pc _ _ _ _ _ _ _ W). case_decide as En; [exists r, k; split; [done|apply switch_ret]|].
    destruct (si_off s I next) as (r' & k' & E & Hr & _); [| |eauto].
    - destruct Hnext as [(_ & _ & ->)|E]; [lia|]. destruct (si_ready s I next) as (? & _); [rewrite E; set_solver|lia].
    - intros d Hd Ed. pose proof (Hfree d Hd Ed) as ->. done. }
  destruct Hcl as (r' & k' & Ecl & Hr). rewrite Ec, Ecl. split_and!; [|done|eauto].
  unfold on_ok. rewrite Ec, Ecl, (sw_state _ _ _ _ _ _ _ W). by destruct r'.
Qed.

Lemma switch_inv : sched_inv s'.
Proof.
  pose proof switch_rest as Hrest. pose proof switch_on as (Hon & Hhr & r' & k' & Ecl). pose proof switch_off as Hoff.
  pose proof switch_ret as [_ Hret].
  assert (Hne : forall d, (d < m)%nat -> d <> c -> cur s d <> cur s c).
  { intros d Hd Hdc E. by apply Hdc, (si_inj s I). }
  destruct W as [Wc Wi Wp Wpc Ws Wb Wt Wl Wk Wg].
  assert (Hlk : forall d, (d < m)%nat -> d <> c -> forall r k, pcof s (cur s d) <> Schedule r k).
  { intros d Hd Hdc r1 k1 E. pose proof (si_lock s I d Hd) as Hl. rewrite E in Hl. pose proof (proj1 Hl eq_refl). congruence. }
  assert (Wcd : forall d, d <> c -> cur s' d = cur s d) by (intros d Hd; rewrite Wc; by rewrite decide_False).
  assert (Wpd : forall d, (d < m)%nat -> d <> c -> pcof s' (cur s d) = pcof s (cur s d)).
  { intros d Hd Hdc. rewrite Wpc. rewrite decide_False; auto. }
  constructor; try done.
  - intros d e Hd He. rewrite !Wc. repeat case_decide; subst; try done.
    + intros E. by rewrite (Hfree e He).
    + intros E. by rewrite (Hfree d Hd).
    + by apply (si_inj s I).
  - intros d Hd. rewrite Wc. case_decide; [subst|by apply (si_valid s I)].
    destruct Hnext as [(_ & _ & ->)|E]; [by right|left]. apply (si_ready s I). rewrite E. set_solver.
  - intros d. rewrite Wi. apply (si_idle s I).
  - intros d Hd. rewrite Wpc. case_decide as E; [|by apply (si_idle_pc s I)].
    pose proof (si_idle_pc s I d Hd) as Hi. rewrite E, Hpc in Hi. done.
  - rewrite Wl. destruct Hnext as [(_ & -> & _)|E]; [constructor|]. pose proof (si_nodup s I) as Hnd. rewrite E in Hnd.
    by apply NoDup_cons in Hnd as [_ ?].
  - intros u. rewrite Wl, Ws. intros [Hu Hun]%Hrest. destruct (si_ready s I u Hu) as (? & ? & H'). split_and!; [done..|].
    intros d Hd. rewrite Wc. case_decide; [congruence|]. intros E. destruct (H' d Hd E) as (old & k1 & E').
    subst u. by destruct (Hlk d Hd ltac:(done) _ _ E').
  - intros d Hd. destruct (decide (d = c)) as [->|Hdc]; [done|]. pose proof (si_on s I d Hd) as H'.
    unfold on_ok in *. rewrite Wcd, Wpd, Ws by done. pose proof (Hlk d Hd Hdc) as Hs.
    destruct (pcof s (cur s d)) as [[] [] []|[]| | | | |[]|[]|? []| | | | |]; try done. by destruct (Hs (RetYield old) k0).
  - intros d Hd. destruct (decide (d = c)) as [->|Hdc]; [by rewrite Hhr, Wk|].
    rewrite Wcd, Wpd, Wk by done. by apply (si_lock s I).
  - intros d. rewrite Wk. apply (si_lock_lt s I).
  - intros d u. rewrite Wb. intros E. destruct (si_own s I d u E) as [Hd Ho]. split; [done|]. unfold owns in *.
    destruct (decide (d = c)) as [->|Hdc].
    + rewrite Ecl, Wp, decide_True by done. rewrite Hpc in Ho. destruct r; try done. subst u. split; [done|].
      unfold parked. rewrite Ws. destruct (si_valid s I c Hc) as [Hlt|?]; [left|by right]. split; [done|].
      destruct (Hret Hlt) as [[Hin _]|(_ & ? & _)]; [|done].
      pose proof (si_on s I c Hc) as Hon'. unfold on_ok in Hon'. by rewrite Hpc in Hon'.
    + rewrite Wcd, Wpd, Wp, decide_False by done. unfold parked in *. by rewrite Ws.
  - intros d Hd. destruct (decide (d = c)) as [->|Hdc]; [unfold must_own; by rewrite Ecl|].
    pose proof (si_must s I d Hd) as H'. unfold must_own in *. rewrite Wcd, Wpd by done.
    destruct (pcof s (cur s d)) as [[]| | | | | |[]| | | | | | |]; by rewrite ?Wb.
  - eapply abs_stutter; [done..|]. intros u _. pose proof (Wpc u) as Eu. unfold pcof in Eu, Hpc. unfold proj.
    rewrite Eu, Ws. case_decide; [subst; by rewrite Hpc|done].
Qed.
End Switch.

Lemma schedule_inv s c ch r k : sched_inv s -> (c < m)%nat ->
  t_pc (thr s (cur s c)) = Schedule r k ->
  exists s', kstep cstep exit_code c ch s = Ok s' /\ sched_inv s'.
Proof.
  intros I Hc Hpc. at_pc I Hc Hpc. pose proof (proj1 Hlock eq_refl) as El. unfold kstep. rewrite Hpc.
  unfold _ThreadSchedule, LockIsOwner. rewrite (bool_decide_eq_true_2 _ El). simpl.
  destruct (next_thread s c I Hc El) as (next & rest & -> & Hnext & Hfree). simpl.
  destruct (bool_decide_reflect (next <> cur s c)) as [Hne|He].
  all: eexists; (split; [done|]); apply (switch_inv s _ c next rest r k); try done.
  - constructor; intros; kunfold; kcases; kunfold; kcases; try done; apply Hth.
  - destruct (decide (next = cur s c)) as [->|]; [|done]. constructor; intros; kunfold; kcases; kunfold; kcases; try done; apply Hth.
Qed.

(** Every step of a processor succeeds and keeps the invariant. *)
Lemma kstep_inv s c ch : sched_inv s -> (c < m)%nat ->
  exists s', kstep cstep exit_code c ch s = Ok s' /\ sched_inv s'.
Proof.
  intros I Hc. destruct (t_pc (thr s (cur s c))) eqn:Hpc.
  - by eapply run_inv.
  - by eapply take_lock_inv.
  - by eapply yield_acquire_inv.
  - by eapply yield_insert_inv.
  - by eapply block_acquire_inv.
  - at_pc I Hc Hpc. done.
  - by eapply schedule_inv.
  - by eapply cleanup_inv.
  - by eapply cleanup_prev_inv.
  - by eapply unblock_lock_inv.
  - by eapply unblock_assert_inv.
  - by eapply unblock_insert_inv.
  - by eapply unblock_release_inv.
  - by eapply unblock_done_inv.
Qed.

Lemma kreach_inv s0 s : sched_inv s0 -> kreach cstep exit_code m s0 s -> sched_inv s.
Proof.
  intros H0 Hr. induction Hr as [|s s' c ch Hr IH Hc E]; [done|].
  destruct (kstep_inv s c ch IH Hc) as (s2 & E2 & I2). congruence.
Qed.
End Refine.

(** ** The running system *)
Section System.
Context {K G Choice : Type} (cstep : nat -> Choice -> bool -> K -> G -> outcome (action K * G)).
Context (exit_code : K) (n m : nat) (prog : nat -> K) (g : G).

(** After ThreadSystemInitMainForCurrentCPU and ThreadSystemInitIdleForCurrentCPU on [m]
    processors: thread [c] is the main thread of processor [c], the other client threads
    have been created and are ready, thread [n + c] is the idle thread of processor [c].  A
    created thread is referenced by itself and by the handle ThreadCreate returned; the handle of an
    idle thread has been closed. *)
Definition start_thread (t : nat) : THREAD K :=
  let k := if (t <? n)%nat then Client (prog t) else IdleTop in
  if (t <? m)%nat
  then mkTHREAD ThreadStateRunning None 0 0 0 0 0 1 true (Run false true k)
  else mkTHREAD ThreadStateReady None 0 0 0 0 0 (if (t <? n)%nat then 2 else 1) true (Cleanup RetStart k).
Definition kstart : kst K G :=
  mkKst (fun c => mkPCPU c (n + c) None 0 false 0 0) start_thread (seq m (n - m)) None g.
Definition astart : ast K G := mkAst (fun t => ARun false true (prog t)) g.

Lemma kstart_inv : (m <= n)%nat -> sched_inv cstep n m astart kstart.
Proof.
  intros Hmn. assert (Hpc : forall t, (t < m)%nat -> start_thread t =
    mkTHREAD ThreadStateRunning None 0 0 0 0 0 1 true (Run false true (Client (prog t)))).
  { intros t Ht. unfold start_thread. by rewrite (proj2 (Nat.ltb_lt t m)), (proj2 (Nat.ltb_lt t n)) by lia. }
  assert (Hpc2 : forall t, (m <= t)%nat -> start_thread t = mkTHREAD ThreadStateReady None 0 0 0 0 0
    (if (t <? n)%nat then 2 else 1) true (Cleanup RetStart (if (t <? n)%nat then Client (prog t) else IdleTop))).
  { intros t Ht. unfold start_thread. by rewrite (proj2 (Nat.ltb_ge t m)) by lia. }
  constructor; unfold cur, pcof; simpl.
  - lia.
  - intros c Hc. left. lia.
  - done.
  - intros t. unfold start_thread. by destruct (t <? m)%nat.
  - intros c Hc. rewrite Hpc2 by lia. simpl. by rewrite (proj2 (Nat.ltb_ge (n + c) n)) by lia.
  - intros t Ht Hoff. assert (m <= t)%nat. { destruct (decide (t < m)%nat) as [Hl|]; [by destruct (Hoff t Hl)|lia]. }
    unfold off_ok, pcof. simpl. rewrite Hpc2 by done. eexists _, _. split_and!; [done..|]. intros Hlt. left.
    split; [|done]. apply elem_of_seq. lia.
  - apply NoDup_seq.
  - intros t [H1 H2]%elem_of_seq. rewrite Hpc2 by done. split_and!; [lia|done|]. intros c Hc ->. lia.
  - intros c Hc. unfold on_ok, cur, pcof. simpl. by rewrite Hpc.
  - intros c Hc. by rewrite Hpc.
  - done.
  - intros c t E. unfold start_thread in E. by destruct (t <? m)%nat.
  - intros c Hc. unfold must_own, cur, pcof. simpl. by rewrite Hpc.
  - exists astart. split; [constructor|]. split; [done|]. intros t Ht. simpl.
    destruct (decide (t < m)%nat); [by rewrite Hpc|]. rewrite Hpc2 by lia. by rewrite (proj2 (Nat.ltb_lt t n)).
Qed.

(** The processor's view of a client thread: on a processor, in the ready list, or
    parked. *)
Definition placed (s : kst K G) (t : nat) : Prop :=
  let running := exists c, (c < m)%nat /\ cur s c = t in
  let ready := t ∈ ReadyThreadsList s in
  (running /\ (ready -> exists old k, pcof s t = Schedule (RetYield old) k)) \/
  (~ running /\ ready /\ State (thr s t) = ThreadStateReady) \/
  (~ running /\ ~ ready /\ State (thr s t) = ThreadStateBlocked /\ exists k, proj (thr s t) = Some (APark k)).

Lemma sched_placed s t : sched_inv cstep n m astart s -> (t < n)%nat -> placed s t.
Proof.
  intros I Ht. unfold placed. destruct (decide (Exists (fun c => cur s c = t) (seq 0 m))) as [Hx|Hx].
  - left. apply Exists_exists in Hx as (c & Hc%elem_of_seq & E). split; [exists c; split; [lia|done]|].
    intros Hin. destruct (si_ready _ _ _ _ _ I t Hin) as (_ & _ & H'). apply (H' c); [lia|done].
  - right. assert (Hno : ~ exists c, (c < m)%nat /\ cur s c = t).
    { intros (c & Hc & E). apply Hx, Exists_exists. exists c. rewrite elem_of_seq. split; [lia|done]. }
    destruct (si_off _ _ _ _ _ I t ltac:(lia)) as (r & k & Epc & _ & Hst); [intros c Hc E; eauto|].
    destruct (Hst Ht) as [[Hin Hs]|(Hin & Hs & ->)]; [by left|right]. split_and!; [done..|].
    destruct (si_abs _ _ _ _ _ I) as (a & _ & Ha). pose proof (proj2 Ha t Ht) as Ep.
    unfold proj, pcof in *. rewrite Epc in *. destruct k as [k| |]; try done. exists k. simpl.
    by rewrite bool_decide_eq_true_2.
Qed.

(** C1: For every client of thread.c that follows the rules of [BlockingClient], any number of
    processors and every interleaving of their steps and timer interrupts: no assertion of
    the scheduler or of the client fails; no two processors run the same thread; the ready
    list has no duplicates; every thread is either running, or in the ready list in state Ready, or
    parked in ThreadBlock in state Blocked; and the state is one the specification reaches, so a
    thread that called ThreadBlock continues only after a ThreadUnblock for it. *)
Theorem scheduler_refines_spec `{!BlockingClient cstep n astart} s :
  (m <= n)%nat -> kreach cstep exit_code m kstart s ->
  (forall c ch, (c < m)%nat -> exists s', kstep cstep exit_code c ch s = Ok s') /\
  (forall c d, (c < m)%nat -> (d < m)%nat -> c <> d -> cur s c <> cur s d) /\
  NoDup (ReadyThreadsList s) /\ (forall t, (t < n)%nat -> placed s t) /\
  exists a, areach cstep n astart a /\ abs n s a.
Proof.
  intros Hmn Hr. assert (I : sched_inv cstep n m astart s) by exact (kreach_inv cstep exit_code n m astart kstart s (kstart_inv Hmn) Hr).
  split_and!.
  - intros c ch Hc. destruct (kstep_inv cstep exit_code n m astart s c ch I Hc) as (s' & E & _). eauto.
  - intros c d Hc Hd Hne E. by apply Hne, (si_inj _ _ _ _ _ I).
  - apply (si_nodup _ _ _ _ _ I).
  - intros t Ht. by apply (sched_placed s t I).
  - apply (si_abs _ _ _ _ _ I).
Qed.
End System.

Section Demo.
(** A client that yields, and exits when it is told to. *)
Definition yield_or_exit (self : nat) (exit : bool) (intr : bool) (k : bool) (g : unit)
    : outcome (action bool * unit) :=
  Ok (if k then CallExitSchedule else if exit then CallExit 0 true else CallYield false, tt).

(** Processor 0 switches from thread 2 to thread 0 and stops before it looks at
    the thread it came from; processor 1 runs thread 2 to its end. *)
Definition exit_race : list (nat * kchoice bool) :=
  let y := ClientStep false in
  replicate 6 (0%nat, y) ++ replicate 5 (0%nat, y) ++ replicate 6 (1%nat, y) ++
  replicate 5 (1%nat, ClientStep true) ++ replicate 2 (1%nat, y) ++ [(0%nat, y)].

(** On two processors a thread that exits can lose two references: when a processor switches away
    from thread 2, which yields, and is delayed after the release of ReadyThreadsLock, another processor can run
    thread 2 to its end and drop the thread's own reference; the first processor then finds the
    state Dying and drops another one.  Thread 2 is destroyed although the handle ThreadCreate
    returned for it was never closed. *)
Theorem exit_dereferenced_twice :
  exists s, kreach yield_or_exit true 2 (kstart 3 2 (fun _ => false) tt) s /\
    RefCnt (thr (kstart 3 2 (fun _ => false) tt) 2%nat) = 2 /\
    State (thr s 2%nat) = ThreadStateDying /\ RefCnt (thr s 2%nat) = 0 /\ t_alive (thr s 2%nat) = false.
Proof.
  destruct (krun yield_or_exit true exit_race (kstart 3 2 (fun _ => false) tt)) as [s|e] eqn:E; [|by vm_compute in E].
  exists s. split; [eapply krun_reach; [constructor| |exact E]; repeat constructor|].
  assert (Hs : forall A (f : kst bool unit -> A),
    f s = f (default s (if krun yield_or_exit true exit_race (kstart 3 2 (fun _ => false) tt) is Ok s' then Some s' else None))).
  { intros A f. by rewrite E. }
  split_and!; [done|rewrite (Hs _ (fun s => State (thr s 2%nat)))|rewrite (Hs _ (fun s => RefCnt (thr s 2%nat)))|
    rewrite (Hs _ (fun s => t_alive (thr s 2%nat)))]; vm_compute; reflexivity.
Qed.

(** The dispatches of that run. *)
Lemma ready_list_fifo_witness :
  let s := kstart 3 2 (fun _ => false) tt in
  dispatched yield_or_exit true exit_race s = [2%nat; 0%nat; 2%nat; 1%nat] /\
  exists s', krun yield_or_exit true exit_race s = Ok s' /\
    ReadyThreadsList s ++ enqueued yield_or_exit true exit_race s =
    dispatched yield_or_exit true exit_race s ++ ReadyThreadsList s'.
Proof.
  intros s. split; [vm_compute; reflexivity|].
  destruct (krun yield_or_exit true exit_race s) as [s'|e] eqn:E; [|by vm_compute in E].
  exists s'. split; [done|]. by apply ready_list_fifo.
Defined.
End Demo.
