(* ===== verification/Mutex.v ===== *)
(** HAL9000/src/mutex.c: the blocking, optionally recursive mutex, as a client of
    thread.c.  Its theorems are proved on the specification of [ThreadsSpec] and carried over
    to the scheduler by the simulation.  MutexLock is represented by the
    thread that holds it: interrupts are off while it is held, so the thread
    does not change processor. *)
From stdpp Require Import functions.
From S2P Require Import Prelude Threads ThreadsSpec.

Definition MUTEX_MAX_RECURSIVITY_DEPTH : Z := MAX_BYTE.

Record MUTEX := mkMUTEX {
  MutexLock : option nat; CurrentRecursivityDepth : Z; MaxRecursivityDepth : Z;
  WaitingList : list nat; Holder : option nat }.

Definition MutexInit (Recursive : bool) : MUTEX :=
  mkMUTEX None 0 (if Recursive then MUTEX_MAX_RECURSIVITY_DEPTH else 1) [] None.

Definition set_MutexLock (l : option nat) (g : MUTEX) : MUTEX :=
  mkMUTEX l (CurrentRecursivityDepth g) (MaxRecursivityDepth g) (WaitingList g) (Holder g).
Definition set_depth (d : Z) (g : MUTEX) : MUTEX :=
  mkMUTEX (MutexLock g) d (MaxRecursivityDepth g) (WaitingList g) (Holder g).
Definition set_WaitingList (l : list nat) (g : MUTEX) : MUTEX :=
  mkMUTEX (MutexLock g) (CurrentRecursivityDepth g) (MaxRecursivityDepth g) l (Holder g).
Definition set_Holder (h : option nat) (d : Z) (g : MUTEX) : MUTEX :=
  mkMUTEX (MutexLock g) d (MaxRecursivityDepth g) (WaitingList g) h.

(** * The code as positions; [old] is the saved interrupt state *)
Inductive mutex_pc : Set :=
| MUser (d : Z)            (* between calls, with d acquisitions not yet released *)
| MLock (old : bool)       (* MutexAcquire: LockAcquire(&MutexLock) *)
| MTest (old : bool)       (* if (NULL == Holder) *)
| MWhile (old : bool)      (* while (Holder != pCurrentThread) *)
| MUnlockWait (old : bool) (* LockRelease before ThreadBlock *)
| MBlock (old : bool)      (* ThreadBlock *)
| MRelock (old : bool)     (* LockAcquire after ThreadBlock *)
| MUnlock (old : bool)     (* LockRelease, CpuIntrSetState *)
| MRelLock (old : bool)    (* MutexRelease: LockAcquire *)
| MRelBody (old : bool)    (* RemoveHeadList and the hand-over *)
| MRelUnlock (old : bool). (* LockRelease *)

Inductive mutex_choice : Set := DoAcquire | DoRelease | DoYield.

(** LockAcquire(&MutexLock): spin at [k] or continue at [k']. *)
Definition lock_mutex (self : nat) (k k' : mutex_pc) (g : MUTEX) : outcome (action mutex_pc * MUTEX) :=
  _ ← assert_ (negb (bool_decide (MutexLock g = Some self)));
  Ok (if MutexLock g is None then (Continue false k', set_MutexLock (Some self) g)
      else (Continue false k, g)).
Definition unlock_mutex (self : nat) (g : MUTEX) : outcome MUTEX :=
  _ ← assert_ (bool_decide (MutexLock g = Some self)); Ok (set_MutexLock None g).

(** MutexAcquire up to its first LockAcquire. *)
Definition MutexAcquire (self : nat) (i : bool) (d : Z) (g : MUTEX) : outcome (action mutex_pc * MUTEX) :=
  if bool_decide (Holder g = Some self) then
    _ ← assert_ (CurrentRecursivityDepth g <? MaxRecursivityDepth g);
    Ok (Continue i (MUser (d + 1)), set_depth (u8 (CurrentRecursivityDepth g + 1)) g)
  else Ok (Continue false (MLock i), g).

(** MutexRelease up to its LockAcquire. *)
Definition MutexRelease (self : nat) (i : bool) (d : Z) (g : MUTEX) : outcome (action mutex_pc * MUTEX) :=
  _ ← assert_ (bool_decide (Holder g = Some self));
  if 1 <? CurrentRecursivityDepth g then
    Ok (Continue i (MUser (d - 1)), set_depth (u8 (CurrentRecursivityDepth g - 1)) g)
  else Ok (Continue false (MRelLock i), g).

(** Threads that use one mutex: they release what they acquired, and acquire at most
    MaxRecursivityDepth times. *)
Definition mutex_step (self : nat) (ch : mutex_choice) (i : bool) (k : mutex_pc) (g : MUTEX)
    : outcome (action mutex_pc * MUTEX) :=
  match k with
  | MUser d =>
      match ch with
      | DoAcquire => if d <? MaxRecursivityDepth g then MutexAcquire self i d g else Ok (Continue i k, g)
      | DoRelease => if 0 <? d then MutexRelease self i d g else Ok (Continue i k, g)
      | DoYield => Ok (CallYield k, g)
      end
  | MLock old => lock_mutex self k (MTest old) g
  | MTest old => Ok (Continue false (MWhile old),
      if bool_decide (Holder g = None) then set_Holder (Some self) 1 g else g)
  | MWhile old =>
      if bool_decide (Holder g = Some self) then Ok (Continue false (MUnlock old), g)
      else Ok (CallTakeBlockLock (MUnlockWait old), set_WaitingList (WaitingList g ++ [self]) g)
  | MUnlockWait old => g ← unlock_mutex self g; Ok (Continue false (MBlock old), g)
  | MBlock old => Ok (CallBlock (MRelock old), g)
  | MRelock old => lock_mutex self k (MWhile old) g
  | MUnlock old => g ← unlock_mutex self g; Ok (Continue old (MUser 1), g)
  | MRelLock old => lock_mutex self k (MRelBody old) g
  | MRelBody old =>
      match WaitingList g with
      | t :: rest => Ok (CallUnblock t (MRelUnlock old), set_Holder (Some t) 1 (set_WaitingList rest g))
      | [] => Ok (Continue false (MRelUnlock old), set_Holder None (CurrentRecursivityDepth g) g)
      end
  | MRelUnlock old => g ← unlock_mutex self g; Ok (Continue old (MUser 0), g)
  end.

(** * The invariant *)
Abbreviation mstat := (astat mutex_pc).

(** The positions a thread can be in. *)
Definition shape (mx : Z) (st : mstat) : bool :=
  match st with
  | ARun false _ (MUser d) => (0 <=? d) && (d <=? mx)
  | ARun false false k => match k with MUnlockWait _ | MBlock _ | MUser _ => false | _ => true end
  | ARun true false (MUnlockWait _) | ARun true false (MBlock _) => true
  | ATake (MUnlockWait _) | APark (MRelock _) | AUnblock _ false (MRelUnlock _) => true
  | _ => false
  end.
Definition locks (st : mstat) : bool :=
  match st with
  | ARun _ _ (MTest _) | ARun _ _ (MWhile _) | ARun _ _ (MUnlockWait _) | ARun _ _ (MUnlock _)
  | ARun _ _ (MRelBody _) | ARun _ _ (MRelUnlock _) | ATake _ | AUnblock _ _ _ => true
  | _ => false
  end.
(** In the waiting list, or handed the mutex while waiting. *)
Definition waits (st : mstat) : bool :=
  match st with ATake _ | ARun true _ _ | APark _ => true | _ => false end.
Definition in_section (st : mstat) : bool :=
  match st with
  | ARun false _ (MUser d) => 0 <? d
  | _ => false
  end.
(** The thread is the Holder. *)
Definition holds (st : mstat) : bool :=
  match st with
  | ARun false _ (MUser d) => 0 <? d
  | ARun false _ (MUnlock _) | ARun false _ (MRelLock _) | ARun false _ (MRelBody _)
  | ARun false _ (MRelock _) => true
  | _ => false
  end.
Definition may_hold (st : mstat) : bool :=
  holds st || waits st || match st with ARun false _ (MWhile _) => true | _ => false end.
Definition depth_of (st : mstat) : Z := if st is ARun _ _ (MUser d) then d else 1.

Record thread_inv (g : MUTEX) (t : nat) (st : mstat) : Prop := {
  ti_shape : shape (MaxRecursivityDepth g) st = true;
  ti_lock : locks st = true <-> MutexLock g = Some t;
  ti_waits : waits st = true -> t ∈ WaitingList g \/ Holder g = Some t;
  ti_list : t ∈ WaitingList g -> waits st = true /\ Holder g <> Some t;
  ti_holds : holds st = true -> Holder g = Some t;
  ti_holder : Holder g = Some t -> may_hold st = true /\ CurrentRecursivityDepth g = depth_of st;
  ti_while : match st with ARun _ _ (MWhile _) => Holder g <> None | _ => True end }.

Section Mutex.
Context (n : nat) (Recursive : bool).
Abbreviation mst := (ast mutex_pc MUTEX).

Record mutex_inv (a : mst) : Prop := {
  mi_max : 1 <= MaxRecursivityDepth (a_glob a) <= MAX_BYTE;
  mi_thread t : (t < n)%nat -> thread_inv (a_glob a) t (a_thr a t);
  mi_lock_lt t : MutexLock (a_glob a) = Some t -> (t < n)%nat;
  mi_holder_lt t : Holder (a_glob a) = Some t -> (t < n)%nat;
  mi_list_lt t : t ∈ WaitingList (a_glob a) -> (t < n)%nat;
  mi_nodup : NoDup (WaitingList (a_glob a));
  mi_free : Holder (a_glob a) = None -> WaitingList (a_glob a) = [];
  mi_unblock u t i k : (u < n)%nat -> a_thr a u = AUnblock t i k ->
    Holder (a_glob a) = Some t /\ committed (a_thr a t) }.

(** A step of thread [t] that does not take the mutex away from its holder. *)
Lemma inv_update_gen a t st g' : mutex_inv a -> (t < n)%nat ->
  let g := a_glob a in
  MaxRecursivityDepth g' = MaxRecursivityDepth g -> thread_inv g' t st ->
  (forall v, v <> t -> MutexLock g' = Some v <-> MutexLock g = Some v) ->
  (forall v, v <> t -> v ∈ WaitingList g' <-> v ∈ WaitingList g) ->
  (forall v, Holder g = Some v -> Holder g' = Some v) ->
  (forall v, v <> t -> Holder g' = Some v -> Holder g = Some v) ->
  (CurrentRecursivityDepth g' = CurrentRecursivityDepth g \/ Holder g = Some t \/ Holder g = None) ->
  NoDup (WaitingList g') -> (Holder g' = None -> WaitingList g' = []) ->
  (forall u i k, (u < n)%nat -> u <> t -> a_thr a u = AUnblock t i k -> committed st) ->
  (forall u i k, st <> AUnblock u i k) ->
  mutex_inv (mkAst (<[t := st]> (a_thr a)) g').
Proof.
  intros I Ht g Hmax Hti Hlock Hlist Hh1 Hh2 Hd Hnd Hfree Hcom Hnu. subst g.
  assert (Hsome : Holder (a_glob a) <> None -> Holder g' <> None).
  { intros Hs. destruct (Holder (a_glob a)) as [v|]; [|done]. by rewrite (Hh1 v eq_refl). }
  constructor; simpl.
  - rewrite Hmax. apply (mi_max a I).
  - intros v Hv. destruct (decide (v = t)) as [->|Hne]; [by rewrite fn_lookup_insert|].
    rewrite fn_lookup_insert_ne by done. destruct (mi_thread a I v Hv) as [T1 T2 T3 T4 T5 T6 T7].
    constructor.
    + by rewrite Hmax.
    + rewrite Hlock by done. done.
    + intros Hw. rewrite Hlist by done. destruct (T3 Hw); auto.
    + rewrite Hlist by done. intros Hv'. destruct (T4 Hv'). split; [done|]. intros E. by apply Hh2 in E.
    + intros Hx. by apply Hh1, T5.
    + intros E. apply Hh2 in E; [|done]. destruct (T6 E) as [? <-]. split; [done|].
      destruct Hd as [?|[E'|E']]; congruence.
    + destruct (a_thr a v) as [? ? []| | |]; try done. by apply Hsome.
  - intros v E. destruct (decide (v = t)) as [->|Hne]; [done|]. by apply (mi_lock_lt a I), Hlock.
  - intros v E. destruct (decide (v = t)) as [->|Hne]; [done|]. by apply (mi_holder_lt a I), Hh2.
  - intros v E. destruct (decide (v = t)) as [->|Hne]; [done|]. by apply (mi_list_lt a I), Hlist.
  - done.
  - done.
  - intros u v i k Hu. unfold insert, fn_insert. case_decide; [intros ->; by destruct (Hnu v i k)|].
    intros E. destruct (mi_unblock a I u v i k Hu E) as [Hv Hc]. split; [auto|]. case_decide; [subst; eauto|done].
Qed.

Lemma inv_update a t st g' : mutex_inv a -> (t < n)%nat ->
  let g := a_glob a in
  MaxRecursivityDepth g' = MaxRecursivityDepth g -> thread_inv g' t st ->
  (forall v, v <> t -> MutexLock g' = Some v <-> MutexLock g = Some v) ->
  (forall v, v <> t -> v ∈ WaitingList g' <-> v ∈ WaitingList g) ->
  (forall v, Holder g = Some v -> Holder g' = Some v) ->
  (forall v, v <> t -> Holder g' = Some v -> Holder g = Some v) ->
  (CurrentRecursivityDepth g' = CurrentRecursivityDepth g \/ Holder g = Some t \/ Holder g = None) ->
  NoDup (WaitingList g') -> (Holder g' = None -> WaitingList g' = []) ->
  (committed (a_thr a t) -> committed st) -> (forall u i k, st <> AUnblock u i k) ->
  mutex_inv (mkAst (<[t := st]> (a_thr a)) g').
Proof.
  intros I Ht g. intros. apply inv_update_gen; try done. intros u i k Hu Hne E.
  destruct (mi_unblock a I u t i k Hu E). auto.
Qed.

(** Close the conditions of [inv_update] that the step does not touch. *)
Ltac upd_inv I :=
  eapply inv_update; [exact I|done|simpl..]; simpl; try done;
  try (by apply (mi_nodup _ I)); try (by apply (mi_free _ I)); try (by left);
  try (lazymatch goal with |- thread_inv _ _ _ =>
         constructor; simpl; try done; try tauto; try (by intuition (congruence || lia)) end); try (by auto);
  try (match goal with E : a_thr _ _ = _ |- committed _ -> _ => by rewrite E end).

Lemma user_step_inv a t x i d : mutex_inv a -> (t < n)%nat -> a_thr a t = ARun false i (MUser d) ->
  exists act g' st, mutex_step t x i (MUser d) (a_glob a) = Ok (act, g') /\
    act_status false i act = Some st /\ mutex_inv (mkAst (<[t := st]> (a_thr a)) g').
Proof.
  intros I Ht Hst. pose proof (mi_thread a I t Ht) as [T1 T2 T3 T4 T5 T6 T7]. rewrite Hst in *.
  pose proof (mi_max a I) as Hmx. assert (Hd : 0 <= d <= MaxRecursivityDepth (a_glob a)) by (destruct i; simpl in T1; lia).
  assert (Hsame : mutex_inv (mkAst (<[t := ARun false i (MUser d)]> (a_thr a)) (a_glob a))) by (upd_inv I).
  assert (Hu8 : forall z, 0 <= z <= MAX_BYTE -> u8 z = z) by (intros; apply u8_small; rlia).
  destruct x; simpl.
  - destruct (Z.ltb_spec d (MaxRecursivityDepth (a_glob a))) as [Hlt|Hge]; [|by do 3 eexists].
    unfold MutexAcquire. destruct (bool_decide_reflect (Holder (a_glob a) = Some t)) as [Hh|Hh].
    + destruct (T6 Hh) as [_ Hdep]. simpl in Hdep. rewrite Hdep, (proj2 (Z.ltb_lt _ _) Hlt). simpl.
      do 3 eexists. split_and!; [done..|]. rewrite Hu8 by lia. upd_inv I.
      * destruct i; lia.
      * intros _. split; [|done]. unfold may_hold. simpl. lia.
    + assert (d = 0) as ->. { destruct (Z.ltb_spec 0 d); [|lia]. exfalso. apply Hh, T5. simpl. lia. }
      do 3 eexists. split_and!; [done..|]. upd_inv I.
  - destruct (Z.ltb_spec 0 d) as [Hlt|Hge]; [|by do 3 eexists].
    assert (Hh : Holder (a_glob a) = Some t) by (apply T5; simpl; lia). destruct (T6 Hh) as [_ Hdep]. simpl in Hdep.
    unfold MutexRelease. rewrite (bool_decide_eq_true_2 _ Hh), Hdep. simpl.
    destruct (Z.ltb_spec 1 d); (do 3 eexists; split_and!; [done..|]); rewrite ?Hu8 by lia; upd_inv I;
    [destruct i; lia|intros _; split; [unfold may_hold; simpl; lia|done]].
  - by do 3 eexists.
Qed.

(** MutexRelease hands the mutex to the first waiting thread. *)
Lemma hand_over_inv a t old u rest : mutex_inv a -> (t < n)%nat -> a_thr a t = ARun false false (MRelBody old) ->
  WaitingList (a_glob a) = u :: rest ->
  mutex_inv (mkAst (<[t := AUnblock u false (MRelUnlock old)]> (a_thr a))
    (set_Holder (Some u) 1 (set_WaitingList rest (a_glob a)))).
Proof.
  intros I Ht Hst Ew. pose proof (mi_thread a I t Ht) as Tt. rewrite Hst in Tt.
  pose proof (ti_holds _ _ _ Tt eq_refl) as Hh. pose proof (proj1 (ti_lock _ _ _ Tt) eq_refl) as Hl.
  assert (Hu : u ∈ WaitingList (a_glob a)) by (rewrite Ew; set_solver).
  pose proof (mi_list_lt a I u Hu) as Hun. pose proof (mi_thread a I u Hun) as Tu.
  destruct (ti_list _ _ _ Tu Hu) as [Huw Hune]. pose proof (mi_nodup a I) as Hnd. rewrite Ew in Hnd.
  apply NoDup_cons in Hnd as [Hur Hnd]. assert (Hne : u <> t) by congruence.
  assert (Hrest : forall v, v <> u -> v ∈ rest <-> v ∈ WaitingList (a_glob a)) by (intros v; rewrite Ew; set_solver).
  constructor; simpl; try done.
  - apply (mi_max a I).
  - intros v Hv. unfold insert, fn_insert. case_decide as Ev; [subst v|].
    + constructor; simpl; try done; [|congruence]. intros Hin%Hrest; [|done]. by destruct (ti_list _ _ _ Tt Hin).
    + destruct (mi_thread a I v Hv) as [T1 T2 T3 T4 T5 T6 T7]. constructor; simpl; try done.
      * intros Hw. destruct (decide (v = u)) as [->|]; [by right|]. left. apply Hrest; [done|].
        destruct (T3 Hw) as [|E]; congruence.
      * intros Hin. destruct (decide (v = u)) as [->|]; [done|]. destruct (T4 (proj1 (Hrest v ltac:(done)) Hin)). split; [done|congruence].
      * intros Hx. specialize (T5 Hx). congruence.
      * intros [= <-]. unfold may_hold. rewrite Huw, orb_true_r. split; [done|].
        by destruct (a_thr a u) as [[] [] []| | |]; simpl in *.
      * destruct (a_thr a v) as [? ? []| | |]; done.
  - apply (mi_lock_lt a I).
  - intros v [= <-]. done.
  - intros v Hin. apply (mi_list_lt a I). rewrite Ew. set_solver.
  - intros v w i k Hv. unfold insert, fn_insert. case_decide as Ev.
    + intros [= <- _ _]. split; [done|]. rewrite decide_False by done.
      assert (Hnl : locks (a_thr a u) = false).
      { destruct (locks (a_thr a u)) eqn:E; [|done]. apply (ti_lock _ _ _ Tu) in E. congruence. }
      by destruct (a_thr a u) as [[] ? []| | |].
    + intros E. assert (Hlv : locks (a_thr a v) = true) by by rewrite E.
      apply (ti_lock _ _ _ (mi_thread a I v Hv)) in Hlv. congruence.
Qed.

(** MutexRelease with no thread waiting. *)
Lemma free_inv a t old d : mutex_inv a -> (t < n)%nat -> a_thr a t = ARun false false (MRelBody old) ->
  WaitingList (a_glob a) = [] ->
  mutex_inv (mkAst (<[t := ARun false false (MRelUnlock old)]> (a_thr a)) (set_Holder None d (a_glob a))).
Proof.
  intros I Ht Hst Ew. pose proof (mi_thread a I t Ht) as Tt. rewrite Hst in Tt.
  pose proof (ti_holds _ _ _ Tt eq_refl) as Hh. pose proof (proj1 (ti_lock _ _ _ Tt) eq_refl) as Hl.
  assert (Hnl : forall v, (v < n)%nat -> v <> t -> locks (a_thr a v) = false).
  { intros v Hv Hne. destruct (locks (a_thr a v)) eqn:E; [|done].
    apply (ti_lock _ _ _ (mi_thread a I v Hv)) in E. congruence. }
  constructor; simpl; try done.
  - apply (mi_max a I).
  - intros v Hv. unfold insert, fn_insert. case_decide as Ev; [subst v|].
    + constructor; simpl; try done. rewrite Ew. set_solver.
    + specialize (Hnl v Hv ltac:(done)). destruct (mi_thread a I v Hv) as [T1 T2 T3 T4 T5 T6 T7]. constructor; simpl; try done.
      * intros Hw. destruct (T3 Hw) as [Hin|]; [by left|congruence].
      * rewrite Ew. set_solver.
      * intros Hx. specialize (T5 Hx). congruence.
      * destruct (a_thr a v) as [? ? []| | |]; done.
  - apply (mi_lock_lt a I).
  - apply (mi_list_lt a I).
  - apply (mi_nodup a I).
  - intros v w i k Hv. unfold insert, fn_insert. case_decide as Ev; [done|]. intros E.
    specialize (Hnl v Hv ltac:(done)). by rewrite E in Hnl.
Qed.

Lemma lock_step_inv a t k k' : mutex_inv a -> (t < n)%nat -> a_thr a t = ARun false false k ->
  locks (ARun false false k) = false ->
  (MutexLock (a_glob a) = None -> mutex_inv (mkAst (<[t := ARun false false k']> (a_thr a))
     (set_MutexLock (Some t) (a_glob a)))) ->
  mutex_inv (mkAst (<[t := ARun false false k]> (a_thr a)) (a_glob a)) ->
  exists act g' st, lock_mutex t k k' (a_glob a) = Ok (act, g') /\
    act_status false false act = Some st /\ mutex_inv (mkAst (<[t := st]> (a_thr a)) g').
Proof.
  intros I Ht Hst Hl Hk' Hk. pose proof (mi_thread a I t Ht) as Tt. rewrite Hst in Tt.
  unfold lock_mutex. rewrite bool_decide_eq_false_2.
  2: { intros E. apply (ti_lock _ _ _ Tt) in E. congruence. }
  simpl. destruct (MutexLock (a_glob a)); do 3 eexists; split_and!; try done. by apply Hk'.
Qed.

Lemma unlock_run a t h i k : mutex_inv a -> (t < n)%nat -> a_thr a t = ARun h i k -> locks (ARun h i k) = true ->
  unlock_mutex t (a_glob a) = Ok (set_MutexLock None (a_glob a)) /\ MutexLock (a_glob a) = Some t.
Proof.
  intros I Ht Hst Hl. pose proof (mi_thread a I t Ht) as Tt. rewrite Hst in Tt.
  pose proof (proj1 (ti_lock _ _ _ Tt) Hl) as E. unfold unlock_mutex. by rewrite (bool_decide_eq_true_2 _ E).
Qed.

Lemma client_step_inv a t x h i k : mutex_inv a -> (t < n)%nat -> a_thr a t = ARun h i k ->
  exists act g' st, mutex_step t x i k (a_glob a) = Ok (act, g') /\
    act_status h i act = Some st /\ mutex_inv (mkAst (<[t := st]> (a_thr a)) g').
Proof.
  intros I Ht Hst. pose proof (mi_thread a I t Ht) as [T1 T2 T3 T4 T5 T6 T7]. rewrite Hst in T1, T2, T3, T4, T5, T6, T7.
  destruct k as [d|old|old|old|old|old|old|old|old|old|old]; try (destruct h, i; done).
  - destruct h; [by destruct i|]. by apply user_step_inv.
  - destruct h, i; try done. apply (lock_step_inv a t); try done; [intros El|]; upd_inv I. intros v Hv. rewrite El. naive_solver.
  - destruct h, i; try done. simpl. do 3 eexists. split_and!; [done..|].
    destruct (bool_decide_reflect (Holder (a_glob a) = None)) as [E|E]; upd_inv I.
    all: congruence.
  - destruct h, i; try done. simpl. destruct (bool_decide_reflect (Holder (a_glob a) = Some t)) as [E|E];
      do 3 eexists; (split_and!; [done..|]); upd_inv I.
    + intros _. left. set_solver.
    + intros v Hv. set_solver.
    + apply NoDup_app. split_and!; [apply (mi_nodup a I)| |apply NoDup_singleton].
      intros v Hv ->%list_elem_of_singleton. by destruct (T4 Hv).
  - destruct h, i; try done. destruct (unlock_run a t _ _ _ I Ht Hst eq_refl) as [E El]. simpl. rewrite E. simpl.
    do 3 eexists; (split_and!; [done..|]); upd_inv I. intros v Hv. rewrite El. naive_solver.
  - destruct h, i; try done. simpl. do 3 eexists; (split_and!; [done..|]); upd_inv I.
  - destruct h, i; try done. apply (lock_step_inv a t); try done; [intros El|]; upd_inv I.
    intros v Hv. rewrite El. naive_solver.
  - destruct h, i; try done. destruct (unlock_run a t _ _ _ I Ht Hst eq_refl) as [E El]. simpl. rewrite E. simpl.
    do 3 eexists; (split_and!; [done..|]); upd_inv I; [pose proof (mi_max a I); destruct old; lia|].
    intros v Hv. rewrite El. naive_solver.
  - destruct h, i; try done. apply (lock_step_inv a t); try done; [intros El|]; upd_inv I.
    intros v Hv. rewrite El. naive_solver.
  - destruct h, i; try done. simpl. destruct (WaitingList (a_glob a)) as [|u rest] eqn:Ew;
      do 3 eexists; (split_and!; [done..|]); [|by apply hand_over_inv].
    by apply free_inv.
  - destruct h, i; try done. destruct (unlock_run a t _ _ _ I Ht Hst eq_refl) as [E El]. simpl. rewrite E. simpl.
    do 3 eexists; (split_and!; [done..|]); upd_inv I; [pose proof (mi_max a I); destruct old; lia|intros Hx; by destruct (T6 Hx)|].
    intros v Hv. rewrite El. naive_solver.
Qed.

Lemma take_step_inv a t k : mutex_inv a -> (t < n)%nat -> a_thr a t = ATake k ->
  mutex_inv (mkAst (<[t := ARun true false k]> (a_thr a)) (a_glob a)).
Proof.
  intros I Ht Hst. pose proof (mi_thread a I t Ht) as [T1 T2 T3 T4 T5 T6 T7]. rewrite Hst in T1, T2, T3, T4, T5, T6, T7.
  destruct k; try done. upd_inv I.
Qed.

Lemma unblock_step_inv a u t i k k' : mutex_inv a -> (u < n)%nat -> (t < n)%nat ->
  a_thr a u = AUnblock t i k -> a_thr a t = APark k' ->
  mutex_inv (mkAst (<[t := ARun false false k']> (<[u := ARun false i k]> (a_thr a))) (a_glob a)).
Proof.
  intros I Hu Ht Eu Et. destruct (mi_unblock a I u t i k Hu Eu) as [Hh _].
  assert (Hne : u <> t) by congruence.
  assert (I1 : mutex_inv (mkAst (<[u := ARun false i k]> (a_thr a)) (a_glob a))).
  { pose proof (mi_thread a I u Hu) as [T1 T2 T3 T4 T5 T6 T7]. rewrite Eu in T1, T2, T3, T4, T5, T6, T7.
    destruct i, k; try done. upd_inv I. }
  assert (Et1 : a_thr (mkAst (<[u := ARun false i k]> (a_thr a)) (a_glob a)) t = APark k').
  { simpl. by rewrite fn_lookup_insert_ne. }
  pose proof (mi_thread _ I1 t Ht) as [T1 T2 T3 T4 T5 T6 T7]. rewrite Et1 in T1, T2, T3, T4, T5, T6, T7.
  destruct k'; try done. apply (inv_update_gen (mkAst (<[u := ARun false i k]> (a_thr a)) (a_glob a)) t (ARun false false (MRelock old)) (a_glob a) I1 Ht); simpl; try done.
  - constructor; simpl; try done; tauto.
  - by left.
  - apply (mi_nodup a I).
  - apply (mi_free a I).
  - intros v i' k2 Hv Hvt. unfold insert, fn_insert. case_decide; [done|]. intros E.
    assert (Hl : forall w, (w < n)%nat -> (exists x y z, a_thr a w = AUnblock x y z) -> MutexLock (a_glob a) = Some w).
    { intros w Hw (x & y & z & Ew). apply (ti_lock _ _ _ (mi_thread a I w Hw)). by rewrite Ew. }
    pose proof (Hl u Hu ltac:(eauto)). pose proof (Hl v Hv ltac:(eauto)). congruence.
Qed.

Lemma mutex_inv_start : mutex_inv (astart (fun _ => MUser 0) (MutexInit Recursive)).
Proof.
  constructor; simpl; try done; try set_solver.
  - destruct Recursive; unfold MUTEX_MAX_RECURSIVITY_DEPTH, MAX_BYTE; lia.
  - intros t Ht. constructor; simpl; try done; [|set_solver]. by destruct Recursive.
  - constructor.
Qed.

Lemma mutex_inv_reach a : areach mutex_step n (astart (fun _ => MUser 0) (MutexInit Recursive)) a -> mutex_inv a.
Proof.
  induction 1 as [|a a' Hr IH Hs]; [apply mutex_inv_start|]. destruct Hs as [t x h i k act g' st Ht E Ec Ea|t k Ht E|u t i k k' Hu Ht Eu Et].
  - destruct (client_step_inv a t x h i k IH Ht E) as (act1 & g1 & st1 & Ec1 & Ea1 & I1). rewrite Ec in Ec1.
    injection Ec1 as <- <-. rewrite Ea in Ea1. by injection Ea1 as <-.
  - by apply take_step_inv.
  - by apply unblock_step_inv.
Qed.

(** mutex.c follows the rules of thread.c. *)
#[export] Instance mutex_client :
  BlockingClient mutex_step n (astart (fun _ => MUser 0) (MutexInit Recursive)).
Proof.
  constructor.
  - intros a t x h i k Hr Ht E. apply mutex_inv_reach in Hr.
    destruct (client_step_inv a t x h i k Hr Ht E) as (act & g' & st & Ec & Ea & _). eauto.
  - intros a u t i k Hr Hu E. apply mutex_inv_reach in Hr. destruct (mi_unblock a Hr u t i k Hu E) as [Hh Hc].
    split_and!; [by apply (mi_holder_lt a Hr)| |done]. intros ->. by rewrite E in Hc.
  - intros a u u' t i k i' k' Hr Hu Hu' E E'. apply mutex_inv_reach in Hr.
    pose proof (proj1 (ti_lock _ _ _ (mi_thread a Hr u Hu))) as H1. pose proof (proj1 (ti_lock _ _ _ (mi_thread a Hr u' Hu'))) as H2.
    rewrite E in H1. rewrite E' in H2. specialize (H1 eq_refl). specialize (H2 eq_refl). congruence.
Qed.
End Mutex.

(** * The mutex on the scheduler *)
Definition mutex_start (n m : nat) (Recursive : bool) : kst mutex_pc MUTEX :=
  kstart n m (fun _ => MUser 0) (MutexInit Recursive).
Abbreviation mutex_kstep := (kstep mutex_step (MUser 0)).
Abbreviation mutex_reach := (kreach mutex_step (MUser 0)).

(** Thread [t] is in client code and has acquired the mutex [d] times. *)
Definition in_client (s : kst mutex_pc MUTEX) (t : nat) (d : Z) : Prop :=
  exists i, proj (thr s t) = Some (ARun false i (MUser d)).

Lemma mutex_sched n m Recursive s : (m <= n)%nat -> mutex_reach m (mutex_start n m Recursive) s ->
  sched_inv mutex_step n m (astart (fun _ => MUser 0) (MutexInit Recursive)) s /\
  exists a, mutex_inv n a /\ abs n s a.
Proof.
  intros Hmn Hr. assert (I : sched_inv mutex_step n m (astart (fun _ => MUser 0) (MutexInit Recursive)) s).
  { eapply kreach_inv; [apply mutex_client|by apply kstart_inv|exact Hr]. }
  split; [done|]. destruct (si_abs _ _ _ _ _ I) as (a & Ha & Hb). exists a. split; [|done]. by eapply mutex_inv_reach.
Qed.

(** C2: For any number of threads and processors and every interleaving, timer interrupts included: no
    assertion of mutex.c or thread.c fails; a thread whose client code has acquired the mutex
    d > 0 times is its Holder with recursivity depth d, at most the mutex's maximum, and no other thread
    has acquired it; the waiting list has no duplicates and is empty while the mutex is free, and a
    thread blocked in MutexAcquire is in the waiting list or has been handed the mutex. *)
Theorem mutex_mutual_exclusion n m Recursive s :
  (m <= n)%nat -> mutex_reach m (mutex_start n m Recursive) s ->
  (forall c ch, (c < m)%nat -> exists s', mutex_kstep c ch s = Ok s') /\
  (forall t d, (t < n)%nat -> in_client s t d -> 0 < d ->
     Holder (glob s) = Some t /\ CurrentRecursivityDepth (glob s) = d /\ d <= MaxRecursivityDepth (glob s) /\
     forall u d', (u < n)%nat -> u <> t -> in_client s u d' -> d' = 0) /\
  NoDup (WaitingList (glob s)) /\ (Holder (glob s) = None -> WaitingList (glob s) = []) /\
  (forall t k, (t < n)%nat -> proj (thr s t) = Some (APark k) ->
     t ∈ WaitingList (glob s) \/ Holder (glob s) = Some t).
Proof.
  intros Hmn Hr. destruct (mutex_sched n m Recursive s Hmn Hr) as (I & a & Ia & Ha).
  assert (Hp : forall t st, (t < n)%nat -> proj (thr s t) = Some st -> thread_inv (glob s) t st).
  { intros t st Ht E. rewrite (proj1 Ha). pose proof (mi_thread n a Ia t Ht) as T. pose proof (proj2 Ha t Ht). congruence. }
  assert (Hc : forall t d, (t < n)%nat -> in_client s t d -> 0 <= d /\ (0 < d -> Holder (glob s) = Some t /\
    CurrentRecursivityDepth (glob s) = d /\ d <= MaxRecursivityDepth (glob s))).
  { intros t d Ht [i E]. destruct (Hp t _ Ht E) as [T1 T2 T3 T4 T5 T6 T7].
    assert (0 <= d <= MaxRecursivityDepth (glob s)) by (destruct i; simpl in T1; lia). split; [lia|]. intros Hd.
    assert (Hh : Holder (glob s) = Some t) by (apply T5; simpl; lia). destruct (T6 Hh). split_and!; [done|done|lia]. }
  split_and!.
  - intros c ch Hlt. destruct (kstep_inv mutex_step (MUser 0) n m _ s c ch I Hlt) as (s' & E & _). eauto.
  - intros t d Ht Hd Hpos. destruct (Hc t d Ht Hd) as [_ H1]. destruct (H1 Hpos) as (Hh & ? & ?). split_and!; [done..|].
    intros u d' Hu Hne Hd'. destruct (Hc u d' Hu Hd') as [Hge H2]. destruct (Z.eq_dec d' 0); [done|].
    destruct (H2 ltac:(lia)). congruence.
  - rewrite (proj1 Ha). apply (mi_nodup n a Ia).
  - rewrite (proj1 Ha). apply (mi_free n a Ia).
  - intros t k Ht E. apply (ti_waits _ _ _ (Hp t _ Ht E)). done.
Qed.

(** How a step of thread [t] changes the holder and the waiting list. *)
Definition handover (t : nat) (g g' : MUTEX) : Prop :=
  (Holder g' = Holder g /\ WaitingList g' = WaitingList g) \/
  (Holder g = None /\ Holder g' = Some t /\ WaitingList g' = WaitingList g) \/
  (Holder g' = Holder g /\ Holder g <> Some t /\ WaitingList g' = WaitingList g ++ [t]) \/
  (Holder g = Some t /\ CurrentRecursivityDepth g = 1 /\ Holder g' = None /\
     WaitingList g = [] /\ WaitingList g' = []) \/
  (exists u, Holder g = Some t /\ CurrentRecursivityDepth g = 1 /\
     WaitingList g = u :: WaitingList g' /\ Holder g' = Some u).

Lemma step_handover g t h i k x act g' : thread_inv g t (ARun h i k) ->
  mutex_step t x i k g = Ok (act, g') -> handover t g g'.
Proof.
  intros T E. unfold mutex_step, MutexAcquire, MutexRelease, lock_mutex, unlock_mutex, assert_ in E.
  destruct k; simpl in E; try (repeat case_match; simplify_eq/=; by left).
  - injection E as <- <-. destruct (bool_decide_reflect (Holder g = None)); [by right; left|by left].
  - destruct (bool_decide_reflect (Holder g = Some t)); injection E as <- <-; [by left|]. right; right; left.
    by split_and!.
  - destruct h; [by destruct i; destruct T|]. pose proof (ti_holds _ _ _ T eq_refl) as Hh.
    destruct (ti_holder _ _ _ T Hh) as [_ Hd]. right; right; right.
    destruct (WaitingList g) as [|u rest] eqn:Ew; injection E as <- <-; [by left|right; by exists u].
Qed.

(** The mutex is handed over in arrival order: a step of a processor leaves Holder and the waiting
    list alone, or gives a free mutex to the thread that runs, or appends the running thread to
    the waiting list, or, when the holder releases its last acquisition, frees the mutex if no thread waits and
    otherwise makes the first waiting thread the holder. *)
Theorem mutex_handover n m Recursive s c ch s' :
  (m <= n)%nat -> mutex_reach m (mutex_start n m Recursive) s -> (c < m)%nat -> mutex_kstep c ch s = Ok s' ->
  handover (cur s c) (glob s) (glob s').
Proof.
  intros Hmn Hr Hc E. destruct (mutex_sched n m Recursive s Hmn Hr) as (I & a & Ia & Ha).
  apply kstep_glob in E as [->|(x & h & i & k & act & Hpc & Ec)]; [by left|].
  destruct (client_cont _ _ _ _ s c I Hc) as [Hlt _]; [unfold pcof; by rewrite Hpc|].
  pose proof (proj2 Ha _ Hlt) as Et. unfold proj in Et. rewrite Hpc in Et. injection Et as Et.
  eapply step_handover; [|exact Ec]. rewrite Et, (proj1 Ha). by apply (mi_thread n a Ia).
Qed.

(** Two processors, three threads: thread 0 acquires the mutex; thread 1 finds it taken and blocks, which
    lets thread 2 run; thread 2 blocks too, so the idle thread runs; thread 0 releases the mutex to thread 1. *)
Definition demo_mutex : list (nat * kchoice mutex_choice) :=
  replicate 5 (0%nat, ClientStep DoAcquire) ++ replicate 25 (1%nat, ClientStep DoAcquire) ++
  replicate 9 (0%nat, ClientStep DoRelease).
Definition mutex_run (sched : list (nat * kchoice mutex_choice)) : kst mutex_pc MUTEX :=
  if krun mutex_step (MUser 0) sched (mutex_start 3 2 true) is Ok s then s else mutex_start 3 2 true.

Lemma mutex_run_reach sched : Forall (fun x => (x.1 < 2)%nat) sched ->
  (if krun mutex_step (MUser 0) sched (mutex_start 3 2 true) is Ok _ then true else false) = true ->
  mutex_reach 2 (mutex_start 3 2 true) (mutex_run sched).
Proof.
  intros Hm Hok. unfold mutex_run. destruct (krun mutex_step (MUser 0) sched (mutex_start 3 2 true)) as [s|e] eqn:E; [|done].
  by eapply krun_reach; [constructor|exact Hm|exact E].
Qed.

Lemma demo_reach : mutex_reach 2 (mutex_start 3 2 true) (mutex_run demo_mutex).
Proof. apply mutex_run_reach; [repeat constructor|vm_compute; reflexivity]. Qed.

Lemma scheduler_refines_spec_witness :
  let s := mutex_run demo_mutex in
  (cur s 0, cur s 1, ReadyThreadsList s) = (0%nat, 4%nat, [1%nat]) /\
  (forall t, (t < 3)%nat -> placed 2 s t) /\
  exists a, areach mutex_step 3 (astart (fun _ => MUser 0) (MutexInit true)) a /\ abs 3 s a.
Proof.
  intros s. split; [vm_compute; reflexivity|].
  destruct (scheduler_refines_spec mutex_step (MUser 0) 3 2 (fun _ => MUser 0) (MutexInit true) s
    ltac:(lia) demo_reach) as (_ & _ & _ & H4 & H5). split; [exact H4|exact H5].
Defined.

Lemma mutex_mutual_exclusion_witness :
  let s := mutex_run (take 30 demo_mutex) in
  Holder (glob s) = Some 0%nat /\ WaitingList (glob s) = [1%nat; 2%nat] /\ in_client s 0 1 /\
  forall d, in_client s 1 d -> d = 0.
Proof.
  intros s. assert (Hc : in_client s 0 1) by (exists true; vm_compute; reflexivity).
  split; [vm_compute; reflexivity|]. split; [vm_compute; reflexivity|]. split; [exact Hc|].
  destruct (mutex_mutual_exclusion 3 2 true s ltac:(lia)) as (_ & H & _).
  { apply mutex_run_reach; [repeat constructor|vm_compute; reflexivity]. }
  destruct (H 0%nat 1 ltac:(lia) Hc ltac:(lia)) as (_ & _ & _ & H1). intros d. apply H1; lia.
Defined.

(** The step in which thread 0 hands the mutex to thread 1. *)
Lemma mutex_handover_witness :
  let s := mutex_run (take 32 demo_mutex) in
  Holder (glob s) = Some 0%nat /\ WaitingList (glob s) = [1%nat; 2%nat] /\
  exists s', mutex_kstep 0 (ClientStep DoRelease) s = Ok s' /\ Holder (glob s') = Some 1%nat /\
    handover 0 (glob s) (glob s').
Proof.
  intros s. split; [vm_compute; reflexivity|]. split; [vm_compute; reflexivity|].
  destruct (mutex_kstep 0 (ClientStep DoRelease) s) as [s'|e] eqn:E; [|by vm_compute in E].
  exists s'. split; [done|].
  pose proof (mutex_handover 3 2 true s 0 (ClientStep DoRelease) s' ltac:(lia)
    (mutex_run_reach (take 32 demo_mutex) ltac:(repeat constructor) ltac:(vm_compute; reflexivity)) ltac:(lia) E) as H.
  split; [|exact H]. assert (H1 : (if mutex_kstep 0 (ClientStep DoRelease) s is Ok x then Holder (glob x) else None) = Some 1%nat)
    by (vm_compute; reflexivity). by rewrite E in H1.
Defined.
