(* ===== verification/ExEvent.v ===== *)
(** HAL9000/src/ex_event.c: blocking events, as a client of thread.c (see [Mutex] for the
    conventions). *)
From stdpp Require Import functions.
From S2P Require Import Prelude IntUtils Threads ThreadsSpec.

Inductive EX_EVT_TYPE : Set := ExEventTypeNotification | ExEventTypeSynchronization | ExEventTypeReserved.
#[global] Instance EX_EVT_TYPE_eq_dec : EqDecision EX_EVT_TYPE.
Proof. solve_decision. Defined.

Record EX_EVENT := mkEX_EVENT {
  EventLock : option nat; WaitingList : list nat; EventType : EX_EVT_TYPE; Signaled : bool }.

Definition ExEventInit (EventIsNull : bool) (Type_ : EX_EVT_TYPE) (Signaled_ : bool) (Event : EX_EVENT)
    : Z * EX_EVENT :=
  if EventIsNull then (STATUS_INVALID_PARAMETER1, Event) else
  if bool_decide (Type_ = ExEventTypeReserved) then (STATUS_INVALID_PARAMETER2, Event) else
  (STATUS_SUCCESS, mkEX_EVENT None [] Type_ Signaled_).

Definition set_EventLock (l : option nat) (g : EX_EVENT) : EX_EVENT :=
  mkEX_EVENT l (WaitingList g) (EventType g) (Signaled g).
Definition set_WaitingList (l : list nat) (g : EX_EVENT) : EX_EVENT :=
  mkEX_EVENT (EventLock g) l (EventType g) (Signaled g).
Definition set_Signaled (b : bool) (g : EX_EVENT) : EX_EVENT :=
  mkEX_EVENT (EventLock g) (WaitingList g) (EventType g) b.

(** * The code as positions; [old] is the saved interrupt state *)
Inductive event_pc : Set :=
| EUser                    (* between calls *)
| ESigLock (old : bool)    (* ExEventSignal: LockAcquire(&EventLock) *)
| ESigSet (old : bool)     (* _InterlockedExchange8(&Signaled, TRUE) *)
| ESigPop (old : bool)     (* RemoveHeadList and the loop test *)
| ESigNext (old : bool)    (* after ThreadUnblock *)
| ESigUnlock (old : bool)  (* LockRelease *)
| EWaitCas (old : bool)    (* ExEventWaitForSignal: the compare-exchange of Signaled *)
| EWaitLock (old : bool)   (* LockAcquire *)
| EWaitInsert (old : bool) (* InsertTailList, ThreadTakeBlockLock *)
| EWaitUnlock (old : bool) (* LockRelease *)
| EWaitBlock (old : bool)  (* ThreadBlock *)
| EWaitWoken (old : bool). (* after ThreadBlock *)

Inductive event_choice : Set := DoSignal | DoClear | DoWait | DoYield.

Definition lock_event (self : nat) (k k' : event_pc) (g : EX_EVENT) : outcome (action event_pc * EX_EVENT) :=
  _ ← assert_ (negb (bool_decide (EventLock g = Some self)));
  Ok (if EventLock g is None then (Continue false k', set_EventLock (Some self) g)
      else (Continue false k, g)).
Definition unlock_event (self : nat) (g : EX_EVENT) : outcome EX_EVENT :=
  _ ← assert_ (bool_decide (EventLock g = Some self)); Ok (set_EventLock None g).

(** Threads that signal, clear and wait for one event. *)
Definition event_step (self : nat) (ch : event_choice) (i : bool) (k : event_pc) (g : EX_EVENT)
    : outcome (action event_pc * EX_EVENT) :=
  match k with
  | EUser =>
      match ch with
      | DoSignal => Ok (Continue false (ESigLock i), g)
      | DoClear => Ok (Continue i EUser, set_Signaled false g)
      | DoWait => Ok (Continue false (EWaitCas i), g)
      | DoYield => Ok (CallYield k, g)
      end
  | ESigLock old => lock_event self k (ESigSet old) g
  | ESigSet old => Ok (Continue false (ESigPop old), set_Signaled true g)
  | ESigPop old =>
      match WaitingList g with
      | t :: rest => Ok (CallUnblock t (ESigNext old), set_WaitingList rest g)
      | [] => Ok (Continue false (ESigUnlock old), g)
      end
  | ESigNext old =>
      Ok (Continue false (if bool_decide (EventType g = ExEventTypeSynchronization)
                          then ESigUnlock old else ESigPop old), g)
  | ESigUnlock old => g ← unlock_event self g; Ok (Continue old EUser, g)
  | EWaitCas old =>
      let newState := bool_decide (EventType g = ExEventTypeNotification) in
      if Signaled g then Ok (Continue old EUser, set_Signaled newState g)
      else Ok (Continue false (EWaitLock old), g)
  | EWaitLock old => lock_event self k (EWaitInsert old) g
  | EWaitInsert old =>
      Ok (CallTakeBlockLock (EWaitUnlock old), set_WaitingList (WaitingList g ++ [self]) g)
  | EWaitUnlock old => g ← unlock_event self g; Ok (Continue false (EWaitBlock old), g)
  | EWaitBlock old => Ok (CallBlock (EWaitWoken old), g)
  | EWaitWoken old =>
      Ok (if bool_decide (EventType g = ExEventTypeNotification)
          then Continue old EUser else Continue false (EWaitCas old), g)
  end.

(** * The invariant *)
Abbreviation estat := (astat event_pc).

Definition shape (st : estat) : bool :=
  match st with
  | ARun false _ EUser => true
  | ARun false false k => match k with EWaitUnlock _ | EWaitBlock _ => false | _ => true end
  | ARun true false (EWaitUnlock _) | ARun true false (EWaitBlock _) => true
  | ATake (EWaitUnlock _) | APark (EWaitWoken _) | AUnblock _ false (ESigNext _) => true
  | _ => false
  end.
Definition locks (st : estat) : bool :=
  match st with
  | ARun _ _ (ESigSet _) | ARun _ _ (ESigPop _) | ARun _ _ (ESigNext _) | ARun _ _ (ESigUnlock _)
  | ARun _ _ (EWaitInsert _) | ARun _ _ (EWaitUnlock _) | ATake _ | AUnblock _ _ _ => true
  | _ => false
  end.
Definition waits (st : estat) : bool :=
  match st with ATake _ | ARun true _ _ | APark _ => true | _ => false end.

Section Event.
Context (n : nat) (Type_ : EX_EVT_TYPE) (Signaled_ : bool).
Abbreviation est := (ast event_pc EX_EVENT).

Record event_inv (a : est) : Prop := {
  ei_shape t : (t < n)%nat -> shape (a_thr a t) = true;
  ei_lock t : (t < n)%nat -> locks (a_thr a t) = true <-> EventLock (a_glob a) = Some t;
  ei_lock_lt t : EventLock (a_glob a) = Some t -> (t < n)%nat;
  ei_list t : t ∈ WaitingList (a_glob a) -> (t < n)%nat /\ waits (a_thr a t) = true;
  ei_nodup : NoDup (WaitingList (a_glob a));
  ei_waits t : (t < n)%nat -> waits (a_thr a t) = true ->
    t ∈ WaitingList (a_glob a) \/ exists u i k, (u < n)%nat /\ a_thr a u = AUnblock t i k;
  ei_unblock u t i k : (u < n)%nat -> a_thr a u = AUnblock t i k ->
    (t < n)%nat /\ ~ (t ∈ WaitingList (a_glob a)) /\ committed (a_thr a t) }.

(** A step of thread [t] that neither starts nor ends an unblocking. *)
Lemma event_inv_update a t st g' : event_inv a -> (t < n)%nat ->
  let g := a_glob a in
  shape st = true -> (locks st = true <-> EventLock g' = Some t) ->
  (forall v, v <> t -> EventLock g' = Some v <-> EventLock g = Some v) ->
  (forall v, v <> t -> v ∈ WaitingList g' <-> v ∈ WaitingList g) -> NoDup (WaitingList g') ->
  (t ∈ WaitingList g' -> waits st = true) ->
  (waits st = true -> waits (a_thr a t) = true \/ t ∈ WaitingList g') ->
  (t ∈ WaitingList g -> t ∈ WaitingList g') ->
  (t ∈ WaitingList g' -> waits (a_thr a t) = true -> t ∈ WaitingList g) ->
  (committed (a_thr a t) -> committed st) -> (forall u i k, st <> AUnblock u i k) ->
  (forall u i k, a_thr a t <> AUnblock u i k) ->
  event_inv (mkAst (<[t := st]> (a_thr a)) g').
Proof.
  intros I Ht g Hsh Hlk Hlo Hli Hnd Hlw Hw Hl1 Hl2 Hcom Hnu Hnu'. subst g. constructor; simpl.
  - intros v Hv. unfold insert, fn_insert. case_decide; [done|by apply (ei_shape a I)].
  - intros v Hv. unfold insert, fn_insert. case_decide; [by subst|]. rewrite Hlo by done. by apply (ei_lock a I).
  - intros v E. destruct (decide (v = t)) as [->|]; [done|]. by apply (ei_lock_lt a I), Hlo.
  - intros v Hin. unfold insert, fn_insert. case_decide; [subst; auto|]. by apply (ei_list a I), Hli.
  - done.
  - intros v Hv. unfold insert, fn_insert. intros Hwv. destruct (decide (t = v)) as [->|Hne].
    + destruct (Hw Hwv) as [Hw'|]; [|by left]. destruct (ei_waits a I v Hv Hw') as [|(u & i & k & Hu & E)]; [left; auto|].
      right. exists u, i, k. split; [done|]. case_decide; [subst; by destruct (Hnu' _ _ _ E)|done].
    + destruct (ei_waits a I v Hv Hwv) as [Hin|(u & i & k & Hu & E)]; [left; by apply Hli|].
      right. exists u, i, k. split; [done|]. case_decide; [subst; by destruct (Hnu' _ _ _ E)|done].
  - intros u v i k Hu. unfold insert, fn_insert. case_decide; [intros ->; by destruct (Hnu v i k)|]. intros E.
    destruct (ei_unblock a I u v i k Hu E) as (Hv & Hnin & Hc). split; [done|].
    destruct (decide (t = v)) as [->|]; [|by rewrite Hli]. split; [|auto].
    intros Hin. apply Hnin, Hl2; [done|]. by destruct (a_thr a v) as [[]| | |].
Qed.

Ltac upd_inv I :=
  eapply event_inv_update; [exact I|done|simpl..]; simpl; try done;
  try (by apply (ei_nodup _ I)); try (by left); try (by auto); try (by intuition congruence);
  try (match goal with E : a_thr _ _ = _ |- _ => rewrite E; solve [done|intros; by left] end).

Lemma event_lock_step_inv a t k k' : event_inv a -> (t < n)%nat -> a_thr a t = ARun false false k ->
  locks (ARun false false k) = false ->
  (EventLock (a_glob a) = None -> event_inv (mkAst (<[t := ARun false false k']> (a_thr a))
     (set_EventLock (Some t) (a_glob a)))) ->
  event_inv (mkAst (<[t := ARun false false k]> (a_thr a)) (a_glob a)) ->
  exists act g' st, lock_event t k k' (a_glob a) = Ok (act, g') /\
    act_status false false act = Some st /\ event_inv (mkAst (<[t := st]> (a_thr a)) g').
Proof.
  intros I Ht Hst Hl Hk' Hk. pose proof (ei_lock a I t Ht) as Tl. rewrite Hst in Tl.
  unfold lock_event. rewrite bool_decide_eq_false_2.
  2: { intros E. apply Tl in E. congruence. }
  simpl. destruct (EventLock (a_glob a)); do 3 eexists; split_and!; try done. by apply Hk'.
Qed.

Lemma event_unlock_run a t h i k : event_inv a -> (t < n)%nat -> a_thr a t = ARun h i k -> locks (ARun h i k) = true ->
  unlock_event t (a_glob a) = Ok (set_EventLock None (a_glob a)) /\ EventLock (a_glob a) = Some t.
Proof.
  intros I Ht Hst Hl. pose proof (ei_lock a I t Ht) as Tl. rewrite Hst in Tl.
  pose proof (proj1 Tl Hl) as E. unfold unlock_event. by rewrite (bool_decide_eq_true_2 _ E).
Qed.

(** ExEventSignal takes the first waiting thread and unblocks it. *)
Lemma pop_inv a t old u rest : event_inv a -> (t < n)%nat -> a_thr a t = ARun false false (ESigPop old) ->
  WaitingList (a_glob a) = u :: rest ->
  event_inv (mkAst (<[t := AUnblock u false (ESigNext old)]> (a_thr a)) (set_WaitingList rest (a_glob a))).
Proof.
  intros I Ht Hst Ew. pose proof (ei_lock a I t Ht) as Tl. rewrite Hst in Tl. pose proof (proj1 Tl eq_refl) as Hl.
  destruct (ei_list a I u) as [Hu Hw]; [rewrite Ew; set_solver|].
  assert (Hne : u <> t) by (intros ->; by rewrite Hst in Hw).
  pose proof (ei_nodup a I) as Hnd. rewrite Ew in Hnd. apply NoDup_cons in Hnd as [Hur Hnd].
  assert (Hnl : forall v, (v < n)%nat -> v <> t -> locks (a_thr a v) = false).
  { intros v Hv Hvt. destruct (locks (a_thr a v)) eqn:E; [|done]. apply (ei_lock a I v Hv) in E. congruence. }
  constructor; simpl; try done.
  - intros v Hv. unfold insert, fn_insert. case_decide; [done|by apply (ei_shape a I)].
  - intros v Hv. unfold insert, fn_insert. case_decide; [by subst|by apply (ei_lock a I)].
  - apply (ei_lock_lt a I).
  - intros v Hin. destruct (ei_list a I v) as [Hv Hwv]; [rewrite Ew; set_solver|]. split; [done|].
    unfold insert, fn_insert. case_decide; [|done]. subst. by rewrite Hst in Hwv.
  - intros v Hv. unfold insert, fn_insert. intros Hwv. destruct (decide (t = v)) as [->|Hvt]; [done|].
    destruct (decide (v = u)) as [->|Hvu].
    { right. exists t, false, (ESigNext old). split; [done|]. by rewrite decide_True. }
    destruct (ei_waits a I v Hv Hwv) as [Hin|(w & i & k & Hw' & E)]; [left; rewrite Ew in Hin; set_solver|].
    right. exists w, i, k. split; [done|]. case_decide; [subst; congruence|done].
  - intros v w i k Hv. unfold insert, fn_insert. case_decide as Ev.
    + intros [= <- _ _]. split_and!; [done..|]. rewrite decide_False by done. specialize (Hnl u Hu Hne).
      pose proof (ei_shape a I u Hu) as Hs. by destruct (a_thr a u) as [[] [] []| | |].
    + intros E. specialize (Hnl v Hv ltac:(done)). by rewrite E in Hnl.
Qed.

Lemma event_client_step_inv a t x h i k : event_inv a -> (t < n)%nat -> a_thr a t = ARun h i k ->
  exists act g' st, event_step t x i k (a_glob a) = Ok (act, g') /\
    act_status h i act = Some st /\ event_inv (mkAst (<[t := st]> (a_thr a)) g').
Proof.
  intros I Ht Hst. pose proof (ei_shape a I t Ht) as Ts. pose proof (ei_lock a I t Ht) as Tl.
  assert (Hin : waits (ARun h i k) = false -> ~ (t ∈ WaitingList (a_glob a))).
  { intros Hw Hin. destruct (ei_list a I t Hin) as [_ Hw']. rewrite Hst in Hw'. congruence. }
  rewrite Hst in Ts, Tl. destruct k; try (destruct h, i; done).
  - destruct h; [by destruct i|]. specialize (Hin eq_refl).
    destruct x; do 3 eexists; (split_and!; [done..|]); upd_inv I.
  - destruct h, i; try done. specialize (Hin eq_refl). apply (event_lock_step_inv a t); try done; [intros El|]; upd_inv I;
      intros v Hv; rewrite El; naive_solver.
  - destruct h, i; try done. specialize (Hin eq_refl). do 3 eexists; (split_and!; [done..|]); upd_inv I.
  - destruct h, i; try done. specialize (Hin eq_refl). simpl. destruct (WaitingList (a_glob a)) as [|u rest] eqn:Ew;
      do 3 eexists; (split_and!; [done..|]); [|by apply pop_inv]. upd_inv I.
  - destruct h, i; try done. specialize (Hin eq_refl). simpl.
    destruct (bool_decide _); do 3 eexists; (split_and!; [done..|]); upd_inv I.
  - destruct h, i; try done. specialize (Hin eq_refl). destruct (event_unlock_run a t _ _ _ I Ht Hst eq_refl) as [E El]. simpl. rewrite E. simpl.
    do 3 eexists; (split_and!; [done..|]); upd_inv I. by destruct old.
  - destruct h, i; try done. specialize (Hin eq_refl). simpl. destruct (Signaled (a_glob a));
      do 3 eexists; (split_and!; [done..|]); upd_inv I. by destruct old.
  - destruct h, i; try done. specialize (Hin eq_refl). apply (event_lock_step_inv a t); try done; [intros El|]; upd_inv I;
      intros v Hv; rewrite El; naive_solver.
  - destruct h, i; try done. specialize (Hin eq_refl). do 3 eexists; (split_and!; [done..|]); upd_inv I.
    + intros v Hv. set_solver.
    + apply NoDup_app. split_and!; [apply (ei_nodup a I)|set_solver|apply NoDup_singleton].
    + intros _. right. set_solver.
  - destruct h, i; try done. destruct (event_unlock_run a t _ _ _ I Ht Hst eq_refl) as [E El]. simpl. rewrite E. simpl.
    do 3 eexists; (split_and!; [done..|]); upd_inv I.
  - destruct h, i; try done. do 3 eexists; (split_and!; [done..|]); upd_inv I.
  - destruct h, i; try done. specialize (Hin eq_refl). simpl.
    destruct (bool_decide _); do 3 eexists; (split_and!; [done..|]); upd_inv I. by destruct old.
Qed.

Lemma event_take_step_inv a t k : event_inv a -> (t < n)%nat -> a_thr a t = ATake k ->
  event_inv (mkAst (<[t := ARun true false k]> (a_thr a)) (a_glob a)).
Proof.
  intros I Ht Hst. pose proof (ei_shape a I t Ht) as Ts. pose proof (ei_lock a I t Ht) as Tl.
  rewrite Hst in Ts, Tl. destruct k; try done. upd_inv I.
Qed.

(** ThreadUnblock has taken effect. *)
Lemma event_unblock_step_inv a u t i k k' : event_inv a -> (u < n)%nat -> (t < n)%nat ->
  a_thr a u = AUnblock t i k -> a_thr a t = APark k' ->
  event_inv (mkAst (<[t := ARun false false k']> (<[u := ARun false i k]> (a_thr a))) (a_glob a)).
Proof.
  intros I Hu Ht Eu Et. destruct (ei_unblock a I u t i k Hu Eu) as (_ & Hnin & _). assert (Hne : u <> t) by congruence.
  pose proof (ei_shape a I u Hu) as Su. pose proof (ei_shape a I t Ht) as St. rewrite Eu in Su. rewrite Et in St.
  destruct i, k; try done. destruct k'; try done.
  pose proof (ei_lock a I u Hu) as Lu. rewrite Eu in Lu. pose proof (proj1 Lu eq_refl) as El.
  assert (Hone : forall v w i k, (v < n)%nat -> a_thr a v = AUnblock w i k -> v = u).
  { intros v w i k Hv E. assert (Hl : locks (a_thr a v) = true) by by rewrite E. apply (ei_lock a I v Hv) in Hl. congruence. }
  constructor; simpl; unfold insert, fn_insert.
  - intros v Hv. repeat case_decide; try done. by apply (ei_shape a I).
  - intros v Hv. repeat case_decide; subst; [simpl; split; [done|congruence]|done|by apply (ei_lock a I)].
  - apply (ei_lock_lt a I).
  - intros v Hin. destruct (ei_list a I v Hin) as [Hv Hw]. split; [done|]. repeat case_decide; subst; try done.
    by rewrite Eu in Hw.
  - apply (ei_nodup a I).
  - intros v Hv. repeat case_decide; try done. intros Hw.
    destruct (ei_waits a I v Hv Hw) as [|(w & i & k & Hw' & E)]; [by left|]. pose proof (Hone w _ _ _ Hw' E). subst w. congruence.
  - intros v w i k Hv. repeat case_decide; try done; intros E; pose proof (Hone v _ _ _ Hv E); congruence.
Qed.

Definition event_init : EX_EVENT := mkEX_EVENT None [] Type_ Signaled_.

Lemma event_inv_start : event_inv (astart (fun _ => EUser) event_init).
Proof. constructor; simpl; try done; try set_solver. constructor. Qed.

Lemma event_inv_reach a : areach event_step n (astart (fun _ => EUser) event_init) a -> event_inv a.
Proof.
  induction 1 as [|a a' Hr IH Hs]; [apply event_inv_start|].
  destruct Hs as [t x h i k act g' st Ht E Ec Ea|t k Ht E|u t i k k' Hu Ht Eu Et].
  - destruct (event_client_step_inv a t x h i k IH Ht E) as (act1 & g1 & st1 & Ec1 & Ea1 & I1). rewrite Ec in Ec1.
    injection Ec1 as <- <-. rewrite Ea in Ea1. by injection Ea1 as <-.
  - by apply event_take_step_inv.
  - by apply event_unblock_step_inv.
Qed.

(** ex_event.c follows the rules of thread.c. *)
#[export] Instance event_client : BlockingClient event_step n (astart (fun _ => EUser) event_init).
Proof.
  constructor.
  - intros a t x h i k Hr Ht E. apply event_inv_reach in Hr.
    destruct (event_client_step_inv a t x h i k Hr Ht E) as (act & g' & st & Ec & Ea & _). eauto.
  - intros a u t i k Hr Hu E. apply event_inv_reach in Hr. destruct (ei_unblock a Hr u t i k Hu E) as (Ht & _ & Hc).
    split_and!; [done| |done]. intros ->. by rewrite E in Hc.
  - intros a u u' t i k i' k' Hr Hu Hu' E E'. apply event_inv_reach in Hr.
    pose proof (proj1 (ei_lock a Hr u Hu)) as H1. pose proof (proj1 (ei_lock a Hr u' Hu')) as H2.
    rewrite E in H1. rewrite E' in H2. specialize (H1 eq_refl). specialize (H2 eq_refl). congruence.
Qed.
End Event.

(** * Events on the scheduler *)
Definition event_start (n m : nat) (Type_ : EX_EVT_TYPE) (Signaled_ : bool) : kst event_pc EX_EVENT :=
  kstart n m (fun _ => EUser) (event_init Type_ Signaled_).
Abbreviation event_kstep := (kstep event_step EUser).
Abbreviation event_reach := (kreach event_step EUser).
Abbreviation event_krun := (krun event_step EUser).

(** For any number of threads and processors and every interleaving, timer interrupts
    included, no assertion of ex_event.c or thread.c fails; the waiting list of the event has no duplicates,
    its threads are in ExEventWaitForSignal, and a thread blocked there is in the list or is being
    unblocked by a thread in ExEventSignal. *)
Theorem ex_event_waiters n m Type_ Signaled_ s :
  (m <= n)%nat -> event_reach m (event_start n m Type_ Signaled_) s ->
  (forall c ch, (c < m)%nat -> exists s', event_kstep c ch s = Ok s') /\
  NoDup (WaitingList (glob s)) /\
  (forall t, t ∈ WaitingList (glob s) -> exists st, proj (thr s t) = Some st /\ waits st = true) /\
  (forall t k, (t < n)%nat -> proj (thr s t) = Some (APark k) ->
     t ∈ WaitingList (glob s) \/ exists u i old, (u < n)%nat /\ proj (thr s u) = Some (AUnblock t i (ESigNext old))).
Proof.
  intros Hmn Hr. assert (I : sched_inv event_step n m (astart (fun _ => EUser) (event_init Type_ Signaled_)) s).
  { eapply kreach_inv; [apply event_client|by apply kstart_inv|exact Hr]. }
  destruct (si_abs _ _ _ _ _ I) as (a & Ha%event_inv_reach & Hg & Hb). rewrite Hg. split_and!.
  - intros c ch Hc. destruct (kstep_inv event_step EUser n m _ s c ch I Hc) as (s' & E & _). eauto.
  - apply (ei_nodup n a Ha).
  - intros t Hin. destruct (ei_list n a Ha t Hin) as [Ht Hw]. eauto.
  - intros t k Ht E. pose proof (Hb t Ht) as Et. rewrite E in Et. injection Et as Et.
    destruct (ei_waits n a Ha t Ht) as [|(u & i & k' & Hu & Eu)]; [by rewrite <- Et|by left|right].
    pose proof (ei_shape n a Ha u Hu) as Su. rewrite Eu in Su. destruct i, k'; try done.
    eexists u, _, _. split; [done|]. by rewrite (Hb u Hu), Eu.
Qed.

(** ** Signals and returns from a wait *)
Definition in_wait (k : event_pc) : bool :=
  match k with EWaitCas _ | EWaitLock _ | EWaitInsert _ | EWaitUnlock _ | EWaitBlock _ | EWaitWoken _ => true | _ => false end.

(** Whether a step of processor [c] signals the event, or returns from ExEventWaitForSignal. *)
Definition signals (c : nat) (ch : kchoice event_choice) (s : kst event_pc EX_EVENT) : Z :=
  match t_pc (thr s (cur s c)), ch with
  | Run _ _ (Client (ESigSet _)), ClientStep _ => 1
  | _, _ => 0
  end.
Definition returns (c : nat) (ch : kchoice event_choice) (s : kst event_pc EX_EVENT) : Z :=
  match t_pc (thr s (cur s c)), ch with
  | Run _ i (Client k), ClientStep x =>
      match event_step (cur s c) x i k (glob s) with
      | Ok (Continue _ EUser, _) => if in_wait k then 1 else 0
      | _ => 0
      end
  | _, _ => 0
  end.

(** The number of such steps in a run. *)
Fixpoint total (f : nat -> kchoice event_choice -> kst event_pc EX_EVENT -> Z)
    (sched : list (nat * kchoice event_choice)) (s : kst event_pc EX_EVENT) : Z :=
  match sched with
  | [] => 0
  | (c, ch) :: rest => f c ch s + (if event_kstep c ch s is Ok s' then total f rest s' else 0)
  end.

Definition pending (s : kst event_pc EX_EVENT) : Z := if Signaled (glob s) then 1 else 0.

Lemma event_step_type self x i k g a g' : event_step self x i k g = Ok (a, g') -> EventType g' = EventType g.
Proof.
  unfold event_step, lock_event, unlock_event, assert_, mbind, outcome_bind. intros E.
  repeat case_match; by simplify_eq/=.
Qed.

Lemma kstep_pending c ch s s' : EventType (glob s) = ExEventTypeSynchronization -> event_kstep c ch s = Ok s' ->
  returns c ch s + pending s' <= signals c ch s + pending s.
Proof.
  intros Hty E. unfold returns, signals, pending.
  destruct (t_pc (thr s (cur s c))) as [h i k| | | | | | | | | | | | |] eqn:Hpc.
  2-14: apply kstep_glob in E as [->|(? & ? & ? & ? & ? & Hpc' & _)]; [lia|congruence].
  destruct k as [k| |]; [|apply kstep_glob in E as [->|(? & ? & ? & ? & ? & Hpc' & _)]; [lia|congruence]..].
  destruct ch as [x|].
  - unfold kstep in E. rewrite Hpc in E. destruct (event_step (cur s c) x i k (glob s)) as [[a g]|] eqn:Ec; [|done].
    simpl in E. apply action_glob in E. simpl in E. rewrite E. clear E Hpc.
    unfold event_step, lock_event, unlock_event, assert_, mbind, outcome_bind in Ec. rewrite Hty in Ec.
    destruct k; simpl in *; repeat case_match; simplify_eq/=; repeat case_match; simplify_eq/=; lia || congruence.
  - assert (glob s' = glob s) as ->; [|destruct k; lia]. unfold kstep in E. rewrite Hpc in E. destruct i; [|by simplify_eq].
    unfold timer_interrupt, ThreadYield, _ThreadForcedExit, ThreadExit in E. repeat case_match; by simplify_eq/=.
Qed.

(** Along every run of the processors, the number of returns from ExEventWaitForSignal on a
    synchronization event is at most the number of signals, plus one if the event was signaled at the start and
    minus one if it is signaled at the end: a signal lets at most one waiting thread pass. *)
Theorem ex_event_one_return_per_signal sched s s' :
  EventType (glob s) = ExEventTypeSynchronization -> event_krun sched s = Ok s' ->
  total returns sched s + pending s' <= total signals sched s + pending s.
Proof.
  revert s. induction sched as [|[c ch] rest IH]; intros s Hty E; simpl in *; [simplify_eq; lia|].
  destruct (event_kstep c ch s) as [s1|] eqn:E1; [|done]. simpl in E.
  pose proof (kstep_pending c ch s s1 Hty E1). assert (EventType (glob s1) = ExEventTypeSynchronization).
  { apply kstep_glob in E1 as [->|(? & ? & ? & ? & ? & _ & Ec)]; [done|]. by apply event_step_type in Ec as ->. }
  specialize (IH s1 ltac:(done) E). lia.
Qed.

(** Two processors and two threads: thread 0 finds the event not signaled; before it enters the waiting
    list, thread 1 signals the event and returns; then thread 0 enters the list and blocks. *)
Definition lost_wakeup : list (nat * kchoice event_choice) :=
  replicate 2 (0%nat, ClientStep DoWait) ++ replicate 5 (1%nat, ClientStep DoSignal) ++
  replicate 9 (0%nat, ClientStep DoWait).

Definition event_run (Type_ : EX_EVT_TYPE) (sched : list (nat * kchoice event_choice)) : kst event_pc EX_EVENT :=
  if event_krun sched (event_start 2 2 Type_ false) is Ok s then s else event_start 2 2 Type_ false.

Lemma event_run_reach Type_ sched : Forall (fun x => (x.1 < 2)%nat) sched ->
  (if event_krun sched (event_start 2 2 Type_ false) is Ok _ then true else false) = true ->
  event_krun sched (event_start 2 2 Type_ false) = Ok (event_run Type_ sched) /\
  event_reach 2 (event_start 2 2 Type_ false) (event_run Type_ sched).
Proof.
  intros Hm Hok. unfold event_run.
  destruct (event_krun sched (event_start 2 2 Type_ false)) as [s|e] eqn:E; [|done]. split; [done|].
  by eapply krun_reach; [constructor|exact Hm|exact E].
Qed.

(** C36: A wake-up can be lost: for either event type there is a reachable state in which the event is
    signaled and the thread that signaled it has returned, while another thread is blocked in
    ExEventWaitForSignal, in the waiting list of the signaled event, and no thread is
    ready: it tested Signaled before the signal, without holding EventLock, and entered the list after it. *)
Theorem ex_event_lost_wakeup Type_ : Type_ <> ExEventTypeReserved ->
  exists s, event_reach 2 (event_start 2 2 Type_ false) s /\
    Signaled (glob s) = true /\ WaitingList (glob s) = [0%nat] /\ ReadyThreadsList s = [] /\
    State (thr s 0%nat) = ThreadStateBlocked /\ proj (thr s 0%nat) = Some (APark (EWaitWoken true)) /\
    proj (thr s 1%nat) = Some (ARun false true EUser).
Proof.
  intros Hty. exists (event_run Type_ lost_wakeup). split.
  - apply event_run_reach; [repeat constructor|]. destruct Type_; vm_compute; reflexivity.
  - destruct Type_; [| |done]; vm_compute; split_and!; reflexivity.
Qed.

Lemma ex_event_lost_wakeup_witness :
  ExEventTypeNotification <> ExEventTypeReserved /\
  exists s, event_reach 2 (event_start 2 2 ExEventTypeNotification false) s /\
    Signaled (glob s) = true /\ WaitingList (glob s) = [0%nat] /\ ReadyThreadsList s = [] /\
    State (thr s 0%nat) = ThreadStateBlocked /\ proj (thr s 0%nat) = Some (APark (EWaitWoken true)) /\
    proj (thr s 1%nat) = Some (ARun false true EUser).
Proof. split; [congruence|]. apply (ex_event_lost_wakeup ExEventTypeNotification). congruence. Defined.

(** Thread 0 waits, thread 1 signals: thread 0 is unblocked and returns. *)
Definition demo_event : list (nat * kchoice event_choice) :=
  replicate 11 (0%nat, ClientStep DoWait) ++ replicate 15 (1%nat, ClientStep DoSignal) ++
  replicate 11 (0%nat, ClientStep DoWait).

Lemma ex_event_waiters_witness :
  let s := event_run ExEventTypeSynchronization (take 14 demo_event) in
  WaitingList (glob s) = [0%nat] /\
  (forall c ch, (c < 2)%nat -> exists s', event_kstep c ch s = Ok s') /\
  (0%nat ∈ WaitingList (glob s) \/
   exists u i old, (u < 2)%nat /\ proj (thr s u) = Some (AUnblock 0%nat i (ESigNext old))).
Proof.
  intros s. split; [vm_compute; reflexivity|].
  destruct (event_run_reach ExEventTypeSynchronization (take 14 demo_event)
    ltac:(repeat constructor) ltac:(vm_compute; reflexivity)) as [_ Hr].
  destruct (ex_event_waiters 2 2 ExEventTypeSynchronization false s ltac:(lia) Hr) as (H1 & _ & _ & H4).
  split; [exact H1|]. apply (H4 0%nat (EWaitWoken true)); [lia|vm_compute; reflexivity].
Defined.

Lemma ex_event_one_return_per_signal_witness :
  let s := event_start 2 2 ExEventTypeSynchronization false in
  let s' := event_run ExEventTypeSynchronization demo_event in
  total returns demo_event s = 1 /\ total signals demo_event s = 2 /\
  total returns demo_event s + pending s' <= total signals demo_event s + pending s.
Proof.
  intros s s'. split; [vm_compute; reflexivity|]. split; [vm_compute; reflexivity|].
  destruct (event_run_reach ExEventTypeSynchronization demo_event
    ltac:(repeat constructor) ltac:(vm_compute; reflexivity)) as [E _].
  apply (ex_event_one_return_per_signal demo_event s s'); [reflexivity|exact E].
Defined.
